(* ===== verification/_CoqProject ===== *)
-Q . S2P
Prelude.v
Ring.v
Horae.v
Scan.v
Cmb.v
Checkpoint.v
CheckpointFacts.v
JournalFacts.v
Stream.v
StreamFacts.v
DoorbellFacts.v
TxFacts.v
Registry.v
RegistryFacts.v
Recovery.v
RecoveryFacts.v
Instances.v
StreamTheorems.v
CheckpointTheorems.v
BlockFacts.v
LayoutTheorems.v
RecoveryTheorems.v
Submitter.v
SubmitterFacts.v
SubmitterTheorems.v
NvmeCore.v
NvmeCoreTheorems.v
NvmeQueue.v
NvmeQueueFacts.v
NvmeQueueTheorems.v
NvmePrp.v
NvmePrpFacts.v
NvmePrpTheorems.v
NvmeRq.v
Mqfs.v
MqfsFacts.v
MqfsTheorems.v
MqfsSync.v
MqfsSyncFacts.v
MqfsSyncTheorems.v
FsStream.v
FsStreamTheorems.v
MqfsPageIo.v
MqfsPageIoFacts.v
MqfsPageIoTheorems.v
Rbtree.v
ExtentStatus.v
ExtentFacts.v
ExtentTreeFacts.v
ExtentInsertFacts.v
ExtentRemoveFacts.v
ExtentTheorems.v
BlockGroup.v
BlockGroupFacts.v
BlockGroupTheorems.v
Balloc.v
BallocTheorems.v
SystemZone.v
SystemZoneFacts.v
SystemZoneTheorems.v
Buddy.v
BuddyChunks.v
BuddyBits.v
BuddyFacts.v
BuddyGenerate.v
BuddyUse.v
BuddyTheorems.v
BuddyAlloc.v
BuddyAllocFacts.v
BuddySearch.v
BuddyAllocTheorems.v
Dirent.v
Dir.v
DirentFacts.v
DirFacts.v
DirMap.v
DirSplit.v
DirHtree.v
DirMake.v
DirTheorems.v
