(* ===== verification/Prelude.v ===== *)
(** * Verification of ccNVMe

    ccNVMe makes groups of block writes crash consistent by keeping the queue
    of their descriptions in a persistent memory region of an NVMe device.
    The repository holds three programs, and the development follows them from
    the bottom to the top.

    - The kernel module of src/ccnvme.  A file system writes through streams.
      A stream has a submission queue of 64-byte entries ([horae_ometa]), an
      image of it in the persistent region, a doorbell, and a part of a journal
      device.  Submitting a bio appends an entry, committing a transaction
      flushes the new entries and rings the doorbell; a full queue is
      checkpointed, which writes journalled blocks back to their place; after a
      crash the complete transactions are replayed from journal and queue.
    - The NVMe host driver of src/nvme-host, changed to leave the persistent
      region to the module: block requests become commands with pointers to
      their data, commands go through submission and completion queues.
    - The file system mqfs of src/mqfs, an ext4 whose fsync and fatomic send
      the data, the metadata buffers and the inodes of a file and of its new
      parent directories down one stream and commit it, in place of a journal
      of its own.

    ** Files

    Every function of the source is a definition of the same name in a state
    monad [M st A] of this file whose results are [Ret] (a value and the new
    state), [Oops] (a fault: BUG_ON, a null dereference, a bad unlock) and
    [Stall] (out of fuel, or blocked for ever).  [runs m s Q]: [m] returns from
    [s] and [Q] holds; all functional theorems are stated with it, so they
    include that the code returns.  Unsigned integers are kept at their width
    by [wrap].

    The module:
    - Ring: index arithmetic of horae.h, cyclic loops as list traversals.
    - Horae: structures and constants of horae.h and compat.h, the kernel
      interface (class [Kernel]) and the state [kst] of the module.
    - Scan: the nest of loops that finds transactions in a queue, shared by
      checkpoint.c and recovery.c.
    - Cmb: cmb.c.  Of the region the bytes the CPU sees ([view]), those that a
      cache flush sent to the root complex ([posted]) and those in persistent
      memory ([pmr]) are kept apart: a read of the device brings what is posted
      into persistent memory, and whether a read of no bytes does is the
      parameter [empty_read_drains].
    - Checkpoint: checkpoint.c.  Stream: the submission path of horae.c,
      bh2bio of submitter.c and flush.c.  Registry: set-up and registration of
      streams in horae.c.  Recovery: recovery.c.
    - Submitter: submitter.c, as a step relation over the shared accesses of
      any number of tasks and one submitter thread.
    - CheckpointFacts, JournalFacts, StreamFacts, DoorbellFacts, TxFacts,
      RegistryFacts, RecoveryFacts, BlockFacts, SubmitterFacts: the invariants
      and the lemmas; Instances: a small loaded module on which the theorems
      are tried; StreamTheorems, CheckpointTheorems, LayoutTheorems,
      RecoveryTheorems, SubmitterTheorems: the theorems.

    The host driver:
    - NvmeCore: commands, completion of requests, controller states (core.c,
      nvme.h) and paths (multipath.c).
    - NvmeQueue: queues and doorbells of pci.c.  NvmePrp: PRP and SGL lists.
      NvmeRq: [nvme_queue_rq], which composes the three.
    - NvmeQueueFacts, NvmePrpFacts, NvmeCoreTheorems, NvmeQueueTheorems,
      NvmePrpTheorems: lemmas and theorems.

    The file system:
    - Mqfs: buffers and inodes of a transaction (filemap_compat.c,
      page_sharing.c, [ext4_write_inode] of inode.c).  MqfsSync: [ext4_sync_file]
      and [ext4_atomic_file] of fsync.c and what they call.
    - FsStream: the events of fsync as calls of the module, run on the model
      of the module.
    - MqfsPageIo: page-io.c.
    - Rbtree: the kernel's red-black trees, as a parameter.  ExtentStatus:
      extents_status.c and extents_status.h, the trees of all inodes.
    - BlockGroup: the geometry of block groups, their metadata and fresh
      bitmaps (balloc.c with helpers of ext4.h, super.c, ialloc.c, bitmap.c).
      Balloc: reading and checking bitmaps with their buffers and locks, the
      count and the claim of free clusters (balloc.c).
    - SystemZone: block_validity.c, the tree of blocks that files must not use.
    - Buddy: the buddy bitmaps of a group in mballoc.c, with their counters.
      BuddyAlloc: the search of one allocation over the groups
      ([ext4_mb_regular_allocator]), while other tasks change the groups.
    - BuddyChunks, BuddyBits, BuddyFacts, BuddyGenerate, BuddyUse,
      BuddyAllocFacts, BuddySearch, BuddyTheorems, BuddyAllocTheorems: the
      theory of maximal free chunks, the invariant of a group, lemmas and
      theorems of the two.
    - MqfsFacts, MqfsSyncFacts, MqfsPageIoFacts, ExtentFacts, ExtentTreeFacts,
      ExtentInsertFacts, ExtentRemoveFacts, BlockGroupFacts,
      SystemZoneFacts, MqfsTheorems, MqfsSyncTheorems, FsStreamTheorems,
      MqfsPageIoTheorems, ExtentTheorems, BlockGroupTheorems, BallocTheorems,
      SystemZoneTheorems: lemmas and theorems.
    - Dirent: the hash of names (hash.c) and directory blocks (namei.c, dir.c).
      Dir: linear and indexed directories (namei.c), on the bytes of their
      blocks.  DirentFacts: blocks as lists of entries.  DirFacts: directories
      of several blocks, new and empty ones.  DirMap: the map of a leaf, its
      sorting, moving and packing entries.  DirSplit: nodes of the index,
      splitting a leaf.  DirHtree: directories with an index of one level.
      DirMake: turning a full block into an index, directories as finite maps.
      DirTheorems: the theorems, and histories run on concrete directories.

    ** What is shown

    - The queue of a stream refines a log: submission appends one entry and
      keeps a suffix of the log, on the host and on the device; the doorbell
      makes the queued entries durable if they do not wrap around, save the one
      in the first slot of the region, provided that the read of no bytes with
      which the flush ends reaches the device, and makes nothing durable
      otherwise; a flush covers the log.  A transaction submitted with a commit
      entry is found again, as a part of the one before it if that was left
      open.  The calls mqfs makes never leave a committed transaction
      in the log, so neither write-back nor recovery finds one.
    - Write-back equals one pass over the log and clears the index of in-place
      updates; a checkpoint empties a full queue; journal blocks are allocated
      in the part of the stream; the index knows the newest copy of a block.
    - Recovery equals replaying the journalled inner entries of the complete
      transactions of each stream in log order, when host and device agree on
      the queues and no stream but the last ends inside a transaction; run
      after a fresh load it replays nothing, since head and flushed are both
      zero.
    - At load the parts of the streams are disjoint and inside region and
      journal; registration hands out distinct streams and gives them back;
      the byte layout of an entry round-trips; bios stay in their device.
    - The background submitter submits every reserved slot once, in the order
      of the reservations, and while it is awake gets to all of them in a bounded
      number of rounds, under every schedule of tasks and thread that does not
      run into the wake-up that can be lost; reserving with a stale view of the
      head loses bios, by an explicit schedule.
    - The driver: commands carry the sectors of their request; a request is
      retried a bounded number of times; a deleted controller stays down;
      bios are sent to live paths; each completion is handled once, over any
      number of laps; the doorbell is rung when the device needs it; PRP lists
      describe exactly the bytes of a request and are freed once; queueing a
      PRP request with room for its list pointers is all or nothing, its DMA
      mappings included.
    - mqfs: the metadata buffers of an inode are written once, in order, and
      waited for, whenever their writes complete; fsync submits everything to
      one stream before it commits that stream, and waits for the description
      block before the flush; which mutex it releases is stated as [put_stream]
      computes it, and the cases in which it unlocks what nobody holds are part
      of the theorem; a page is written
      exactly where its dirty buffers are mapped, overwrites go through the
      stream, the write-back of a page ends once.
    - mqfs on the module: the events of one fsync, run on the stream it holds,
      leave an entry in persistent memory for each write that is given one,
      under the conditions of the doorbell.
    - The extent status tree of an inode is a map from blocks to statuses:
      insertion assigns a range, removal clears one, lookup reads it, the
      search for delayed extents finds the first.  When memory is short the
      shrinker may forget extents, but never a delayed one.
    - Block groups: blocks and pairs of group and cluster are two names of the
      same thing; the count of free clusters of a group that was never written
      is the count of clear bits of the bitmap made for it; this bitmap passes
      the validation, but for a table that ends with its group; reading a
      bitmap keeps locks and references in balance and returns only bitmaps
      that were checked or made, or marked by an earlier read that failed to
      make them; a claim of clusters is exact although the
      counters are approximate.
    - Block validity: a range is valid for a file exactly when it is on the
      device and holds no bitmap or inode table of a group and no guarded copy
      of the superblock: those the set-up selects and had memory for.
    - Buddies: the bits of all orders mark the maximal free chunks of the
      bitmap and the figures of the group count them, whether the buddy was
      built from the bitmap, or changed by freeing (which merges) and using
      (which splits) extents; using and freeing cancel; freeing gives what
      building anew gives; a block freed twice is noticed and the group set
      aside.
    - The allocator: whatever the other tasks do, an extent it takes was free
      under the lock of the group and lies in it, and with no error, no
      interference and room in a group that the search visits, its buddy built
      or not, it takes one.
    - Directories: a directory of one block, or the index of one level it
      becomes when it is full, is a map from names to inodes ([dir_holds]).
      With blocks of at least 2 KB adding a name is insertion, through gaps in
      leaves, the conversion to an index and the splitting of leaves, and
      deleting what was added restores the map.  Looking up reads the map, in
      all blocks of a linear directory and in all leaves a hash may be in.  A
      split divides a leaf at a hash and loses nothing unless the leaf is
      [lopsided], in which case it reads out of bounds; a directory is found
      empty as far as it could be read; the binary search of a node is
      the linear one; the hash of a name is even and below the mark for the end
      of a directory.
    - Theorems of kind error state the faults listed as findings: a split that
      reads out of bounds, a directory taken for empty because a block cannot be
      read, dropped write errors, an inode unlocked without a lock, a stream released that
      was not taken, an overflowing mempool element, a bitmap trusted after a
      failed read, a zone lost for want of memory.

    ** Parameters

    Code outside the repository is a parameter with laws: [Kernel] and
    [KernelLaws] (request flags and block sizes of Linux), [NvmeHdr] (opcodes
    and status codes of include/linux/nvme.h), [Vfs] and [VfsLaws] (write-back
    of pages and inodes), [BlockApi] and [BlockLaws] ([bio_add_page]), the conversion of
    unwritten extents, [RbApi] and [RbLaws] (red-black trees, by the order of
    their nodes), [PercpuApi] and [PercpuLaws] (per-CPU counters, whose fast
    read is off by at most a batch per CPU), [CsumApi] (checksums), how the
    pages of the buddy cache load and what other tasks do to a group ([others],
    class [interference]: they keep its invariant), [DirApi] and [DirLaws]
    (comparing names, checksums, allocating and reading the blocks of a
    directory).  Each class has an instance, and every theorem with
    hypotheses is applied to it.

    ** Configuration, bounds and fuel

    The builds of the Makefiles are modelled: USE_CMB in the module, debugfs on,
    ENABLE_BG_SUBMITTER only in Submitter; mqfs without encryption, without a
    jbd2 journal and with metadata paging.  A stream is used by one task (mqfs holds
    it from [get_free_stream] to [put_stream]), so the compare-and-swap loops of
    Stream are sequential; Submitter has their interleavings under sequential
    consistency.

    Loops take as fuel what bounds them in the code: a ring of n slots S n; the
    reservation of a slot 2, since a checkpoint empties the queue; PRP lists one
    turn more than the pages of the request; completion loops one more than the
    depth of the queue; the lists of mqfs one more than their length; parent
    directories one more than the depth; adding a buffer to a bio 2, since a new
    bio takes a buffer; loops over an extent tree one more than its nodes, the
    retries after the shrinker one more than the extents in memory, since a
    retry follows the release of one; loops over the orders of a buddy one turn
    per order, loops over its bits one more than the bits, the splits of a used
    extent one per block and order; the search of the allocator the criteria and
    the groups, and a second round, which takes the first extent it meets; loops
    over a directory block one more than its bytes, over the blocks of a
    directory one more than the blocks, the bubble sort one more than the
    entries, the descent into an index its levels and adding to it six rounds,
    since each round but the last splits a node of the path or adds a level.
    That it is enough is part of each theorem in [runs].

    ** Not modelled

    - Opening devices, allocation and release of kernel objects at load and
      unload, debugfs output, the benchmark module: calls of the kernel with no
      logic of their own.
    - The driver's probe, reset, time-outs and queue creation, which are
      sequences of calls of the PCI and block layers; fabrics, FC, RDMA,
      LightNVM and tracing, which ccNVMe does not use.
    - The parts of ext4 that mqfs takes over unchanged and that the ordered
      path does not go through: extents on disk, preallocation and the pages of
      the buddy cache, attributes, inode allocation, resizing and mount; of
      directories inline data, reading in order, and the calls of the VFS
      (create, link, unlink, rename).  Index nodes below the root and adding a
      level are modelled, but the theorems are on indexes of one level. *)

From stdpp Require Export base functions numbers list gmap.
From Stdlib Require Export ZArith Lia.

#[export] Set Default Goal Selector "!".
#[global] Open Scope Z_scope.

(** ** Machine integers

    Unsigned C integers are values of [Z]; an assignment to a variable or a
    field of width [w] goes through [wrap w]. *)

Definition wrap (w x : Z) : Z := x mod 2 ^ w.

Abbreviation u8 := (wrap 8).
Abbreviation u16 := (wrap 16).
Abbreviation u32 := (wrap 32).
Abbreviation u64 := (wrap 64).

(** Reading a [w]-bit pattern as a two's complement signed integer. *)
Definition sext (w x : Z) : Z :=
  let y := wrap w x in if y <? 2 ^ (w - 1) then y else y - 2 ^ w.

Create HintDb ring discriminated.
Create HintDb ccnvme.

Lemma wrap_range w x : 0 <= w -> 0 <= wrap w x < 2 ^ w.
Proof. intros ?. apply Z.mod_pos_bound. by apply Z.pow_pos_nonneg. Qed.

Lemma wrap_small w x : 0 <= x < 2 ^ w -> wrap w x = x.
Proof. apply Z.mod_small. Qed.

Lemma wrap_wrap w x : 0 <= w -> wrap w (wrap w x) = wrap w x.
Proof. intros ?. apply wrap_small. by apply wrap_range. Qed.

#[export] Hint Resolve wrap_range : ccnvme.

(** [wraps] removes the wrap-arounds that the context shows to be
    no-ops and leaves the others alone. *)
Ltac pow2_consts :=
  change (2 ^ 3) with 8 in *; change (2 ^ 8) with 256 in *;
  change (2 ^ 16) with 65536 in *; change (2 ^ 32) with 4294967296 in *;
  change (2 ^ 64) with 18446744073709551616 in *.

Ltac wraps :=
  repeat match goal with
         | |- context [wrap ?w ?x] =>
             rewrite (wrap_small w x) by (pow2_consts; lia)
         | H : context [wrap ?w ?x] |- _ =>
             rewrite (wrap_small w x) in H by (pow2_consts; lia)
         end.

(** [zcases] splits on the next comparison of integers the goal depends on. *)
Ltac zcases :=
  repeat match goal with
         | |- context [?a <? ?b] => destruct (Z.ltb_spec a b)
         | |- context [?a <=? ?b] => destruct (Z.leb_spec a b)
         | |- context [?a =? ?b] => destruct (Z.eqb_spec a b)
         end.

Lemma list_filter_ext {A} (P Q : A -> Prop) `{!forall x, Decision (P x), !forall x, Decision (Q x)}
    (l : list A) :
  (forall x, x ∈ l -> P x <-> Q x) -> base.filter P l = base.filter Q l.
Proof.
  induction l as [|a l IH]; intros Hl; [done|].
  assert (Ha : P a <-> Q a) by (apply Hl; left).
  destruct (decide (P a)).
  - rewrite !filter_cons_True by tauto. f_equal. apply IH. intros. apply Hl. by right.
  - rewrite !filter_cons_False by tauto. apply IH. intros. apply Hl. by right.
Qed.

Lemma filter_ne_notin `{EqDecision A} (l : A) (ls : list A) : l ∉ ls -> base.filter (fun l' => l' ≠ l) ls = ls.
Proof.
  induction ls as [|a ls IH]; intros Hn; [done|].
  apply not_elem_of_cons in Hn as [? ?].
  rewrite filter_cons_True by done. by rewrite IH.
Qed.

(** ** Record update

    [Eta R] holds the eta-expansion of [R]'s constructor; [s <| f := v |>]
    replaces field [f].  The updater is computed from the expansion when the
    notation is elaborated, so the updated records reduce. *)

Class Eta (R : Type) := eta : R -> R.

Class Updater {R T : Type} (proj : R -> T) := update : (T -> T) -> R -> R.

Ltac derive_updater proj :=
  lazymatch type of proj with
  | ?R -> ?T =>
      let body := eval hnf in (@eta R _) in
      lazymatch eval pattern proj in body with
      | ?ctx _ => exact (fun (g : T -> T) => ctx (fun r : R => g (proj r)))
      end
  end.

#[export] Hint Extern 1 (@Updater _ _ ?p) => derive_updater p : typeclass_instances.

Notation "s '<|' f ':=' v '|>'" := (update (proj:=f) (fun _ => v) s)
  (at level 1, f at next level, left associativity,
   format "s  '<|'  f  ':='  v  '|>'").
Notation "s '<|' f '::=' g '|>'" := (update (proj:=f) g s)
  (at level 1, f at next level, left associativity).

(** ** Outcomes of kernel code

    [Oops] is a fault the running kernel does not survive (or a programming
    error its debugging options report), [Stall] is a loop that ran out of the
    fuel given to it. *)

Inductive fault :=
| OutOfBounds      (* access outside an array or a device mapping *)
| NullDeref        (* dereference of a null pointer *)
| DivByZero        (* integer division or remainder by zero *)
| BugOn            (* BUG_ON *)
| SelfDeadlock     (* a sleeping lock taken twice by the same task *)
| BadUnlock.       (* release of a lock that is not held *)

Inductive outcome (S A : Type) :=
| Ret (a : A) (s : S)
| Oops (f : fault)
| Stall.
Arguments Ret {S A} a s.
Arguments Oops {S A} f.
Arguments Stall {S A}.

#[export] Instance fault_eq_dec : EqDecision fault.
Proof. solve_decision. Defined.

Definition M (S A : Type) : Type := S -> outcome S A.

Definition ret {S A} (a : A) : M S A := fun s => Ret a s.
Definition bind {S A B} (m : M S A) (k : A -> M S B) : M S B := fun s =>
  match m s with
  | Ret a s' => k a s'
  | Oops f => Oops f
  | Stall => Stall
  end.
Definition oops {S A} (f : fault) : M S A := fun _ => Oops f.
Definition stall {S A} : M S A := fun _ => Stall.
Definition get {S} : M S S := fun s => Ret s s.
Definition gets {S A} (f : S -> A) : M S A := fun s => Ret (f s) s.
Definition modify {S} (f : S -> S) : M S unit := fun s => Ret tt (f s).
Definition check {S} (b : bool) (f : fault) : M S unit :=
  if b then ret tt else oops f.

Notation "x <-- m ;; k" := (bind m (fun x => k))
  (at level 100, m at next level, right associativity).
Notation "'unpack' p <-- m ;; k" := (bind m (fun x => match x with p => k end))
  (at level 100, p pattern, m at next level, right associativity).
Notation "m ;;; k" := (bind m (fun _ => k))
  (at level 100, right associativity).

Lemma bind_Ret {S A B} (m : M S A) (k : A -> M S B) s a s' :
  m s = Ret a s' -> bind m k s = k a s'.
Proof. unfold bind. by intros ->. Qed.

Lemma bind_inv {S A B} (m : M S A) (k : A -> M S B) s b s'' :
  bind m k s = Ret b s'' ->
  exists a s', m s = Ret a s' /\ k a s' = Ret b s''.
Proof. unfold bind. destruct (m s); naive_solver. Qed.

Lemma bind_check {S A} b f (k : unit -> M S A) s :
  b = true -> bind (check b f) k s = k tt s.
Proof. by intros ->. Qed.

Lemma check_inv {S} b f (s : S) a s' : check b f s = Ret a s' -> b = true /\ s' = s.
Proof. destruct b; [|done]. by intros [= _ <-]. Qed.

Lemma bind_gets {S A B} (f : S -> A) (k : A -> M S B) s : bind (gets f) k s = k (f s) s.
Proof. done. Qed.

Lemma bind_modify {S B} (f : S -> S) (k : unit -> M S B) s :
  bind (modify f) k s = k tt (f s).
Proof. done. Qed.

Lemma bind_ret {S A B} (a : A) (k : A -> M S B) s : bind (ret a) k s = k a s.
Proof. done. Qed.

Lemma bind_assoc {S A B C} (m : M S A) (f : A -> M S B) (g : B -> M S C) s :
  bind (bind m f) g s = bind m (fun a => bind (f a) g) s.
Proof. unfold bind. by destruct (m s). Qed.

Lemma bind_ext {S A B} (m m' : M S A) (f g : A -> M S B) s :
  m s = m' s -> (forall a s', f a s' = g a s') -> bind m f s = bind m' g s.
Proof. intros E Hfg. unfold bind. rewrite E. by destruct (m' s). Qed.

(** Sequential loops over a list of loop indices, in the state monad. *)
Fixpoint for_each {S I} (l : list I) (body : I -> M S unit) : M S unit :=
  match l with
  | [] => ret tt
  | i :: l' => body i ;;; for_each l' body
  end.

Lemma for_each_app {S I} (l1 l2 : list I) (body : I -> M S unit) s :
  for_each (l1 ++ l2) body s = bind (for_each l1 body) (fun _ => for_each l2 body) s.
Proof.
  revert s. induction l1 as [|i l1 IH]; intros s; [done|].
  simpl. unfold bind. destruct (body i s); [|done..].
  rewrite IH. unfold bind. by destruct (for_each l1 body s0).
Qed.

(** An invariant preserved by a body that cannot fault is preserved by the
    loop, which cannot fault either. *)
Lemma for_each_inv {S I} (P : S -> Prop) (l : list I) (body : I -> M S unit) s :
  P s ->
  (forall i s, i ∈ l -> P s -> exists s', body i s = Ret tt s' /\ P s') ->
  exists s', for_each l body s = Ret tt s' /\ P s'.
Proof.
  revert s. induction l as [|i l IH]; intros s Hs Hbody; [by eexists|].
  destruct (Hbody i s) as (s1 & E1 & H1); [left|done|].
  destruct (IH s1 H1) as (s2 & E2 & H2).
  { intros j s3 Hj. apply Hbody. by right. }
  exists s2. simpl. by rewrite (bind_Ret _ _ _ _ _ E1).
Qed.

(** ** Total correctness

    [runs m s Q]: started in [s], [m] returns (no fault, no stall) with a
    result and a state that satisfy [Q]. *)

Definition runs {S A} (m : M S A) (s : S) (Q : A -> S -> Prop) : Prop :=
  match m s with
  | Ret a s' => Q a s'
  | _ => False
  end.

Section runs.
Context {S : Type}.
Implicit Types s : S.

Lemma runs_intro {A} (m : M S A) s a s' (Q : A -> S -> Prop) :
  m s = Ret a s' -> Q a s' -> runs m s Q.
Proof. unfold runs. by intros ->. Qed.

Lemma runs_elim {A} (m : M S A) s (Q : A -> S -> Prop) :
  runs m s Q <-> exists a s', m s = Ret a s' /\ Q a s'.
Proof. unfold runs. destruct (m s); naive_solver. Qed.

Lemma runs_conseq {A} (m : M S A) s (P Q : A -> S -> Prop) :
  runs m s P -> (forall a s', P a s' -> Q a s') -> runs m s Q.
Proof. unfold runs. destruct (m s); naive_solver. Qed.

Lemma runs_bind {A B} (m : M S A) (f : A -> M S B) s (Q : B -> S -> Prop) :
  runs m s (fun a s' => runs (f a) s' Q) -> runs (bind m f) s Q.
Proof. unfold runs, bind. by destruct (m s). Qed.

Lemma runs_assoc {A B C} (m : M S A) (f : A -> M S B) (g : B -> M S C) s (Q : C -> S -> Prop) :
  runs (bind (bind m f) g) s Q -> runs (bind m (fun a => bind (f a) g)) s Q.
Proof. unfold runs. by rewrite bind_assoc. Qed.

Lemma runs_flat {A B C} (m : M S A) (f : A -> M S B) (g : B -> M S C) s (Q : C -> S -> Prop) :
  runs (bind m (fun a => bind (f a) g)) s Q -> runs (bind (bind m f) g) s Q.
Proof. unfold runs. by rewrite bind_assoc. Qed.

Lemma runs_ret {A} (a : A) s (Q : A -> S -> Prop) : Q a s -> runs (ret a) s Q.
Proof. done. Qed.

Lemma runs_gets {A} (f : S -> A) s (Q : A -> S -> Prop) : Q (f s) s -> runs (gets f) s Q.
Proof. done. Qed.

Lemma runs_modify (f : S -> S) s (Q : unit -> S -> Prop) : Q tt (f s) -> runs (modify f) s Q.
Proof. done. Qed.

Lemma runs_check b f s (Q : unit -> S -> Prop) :
  b = true -> Q tt s -> runs (check b f) s Q.
Proof. by intros ->. Qed.

Lemma runs_forall {A B} (b0 : B) (m : M S A) s (Q : B -> A -> S -> Prop) :
  (forall b, runs m s (Q b)) -> runs m s (fun a s' => forall b, Q b a s').
Proof. intros Hm. unfold runs in *. destruct (m s); [done|by apply (Hm b0)..]. Qed.

Lemma runs_and {A} (m : M S A) s (P Q : A -> S -> Prop) :
  runs m s P -> runs m s Q -> runs m s (fun a s' => P a s' /\ Q a s').
Proof. unfold runs. by destruct (m s). Qed.

Lemma runs_for_each {I} (P : list I -> S -> Prop) (l : list I) (body : I -> M S unit) s :
  P [] s ->
  (forall done i rest s, l = done ++ i :: rest -> P done s ->
     runs (body i) s (fun _ s' => P (done ++ [i]) s')) ->
  runs (for_each l body) s (fun _ s' => P l s').
Proof.
  intros H0 Hb.
  assert (forall rest done s, l = done ++ rest -> P done s ->
            runs (for_each rest body) s (fun _ s' => P l s')) as Hgen.
  { clear s H0. intros rest. induction rest as [|i rest IH]; intros dn s -> Hs.
    - rewrite app_nil_r. by apply runs_ret.
    - simpl. apply runs_bind. eapply runs_conseq; [by eapply Hb|].
      intros [] s' Hs'. apply (IH (dn ++ [i])); [|done]. by rewrite <- app_assoc. }
  by apply (Hgen l []).
Qed.
End runs.

(** [rstep] takes one step through a monadic program. *)
Ltac rstep :=
  lazymatch goal with
  | |- runs (bind _ _) _ _ => apply runs_bind
  | |- runs (ret _) _ _ => apply runs_ret
  | |- runs (gets _) _ _ => apply runs_gets
  | |- runs (modify _) _ _ => apply runs_modify
  | |- runs (if ?b then _ else _) _ _ => destruct b eqn:?
  | |- runs (let _ := _ in _) _ _ => cbv zeta
  end.
