(* ===== verification/Ring.v ===== *)
(** * Circular buffers

    The index arithmetic of [horae.h] ([horae_ring_space], [horae_count]) and
    the cyclic loops [for (m = head; m != stop; m = (m + 1) % size)] that
    checkpoint.c and recovery.c run over a stream's submission queue.  A cyclic
    loop is related to a plain traversal of the list [ring_range] of the slots
    it visits; this gives its termination and an induction principle. *)

From S2P Require Import Prelude.

Implicit Types n i j k h t : Z.

(** ** Macros of horae.h, on 64-bit operands *)

Definition horae_ring_space (head tail size : Z) : Z :=
  u64 (size + head - tail - 1) mod size.

Definition horae_count (head tail size : Z) : Z :=
  u64 (size + tail - head) mod size.

(** ** The cyclic loop

    [cast] is the conversion of the loop variable's type ([int] or [uint]).
    The loop has no bound of its own, so it takes fuel and [Stall]s without. *)

Section loop.
Context {S A : Type} (cast : Z -> Z) (stop n : Z) (body : Z -> A -> M S A).

Fixpoint ring_loop (fuel : nat) (m : Z) (acc : A) : M S A :=
  match fuel with
  | O => stall
  | Datatypes.S fuel' =>
      if u64 m =? stop then ret acc
      else acc' <-- body m acc ;; ring_loop fuel' (cast ((u64 m + 1) mod n)) acc'
  end.
End loop.

(** A loop over a list that carries an accumulator. *)
Fixpoint fold_loop {S I A} (body : I -> A -> M S A) (l : list I) (acc : A) : M S A :=
  match l with
  | [] => ret acc
  | i :: l' => acc' <-- body i acc ;; fold_loop body l' acc'
  end.


(** The slots from [i] (included) to [j] (excluded), going up modulo [n]. *)
Definition ring_range (n i j : Z) : list Z :=
  (fun k => (i + k) mod n) <$> seqZ 0 ((j - i) mod n).

(** A conversion that is the identity on the slots of a ring of size [n]. *)
Class CastOk (n : Z) (cast : Z -> Z) :=
  cast_ok : forall i, 0 <= i < n -> cast i = i.

Lemma u32_cast_ok n : n <= 2 ^ 32 -> CastOk n u32.
Proof. intros ? i ?. apply wrap_small. lia. Qed.

Lemma sext_small i : 0 <= i < 2 ^ 31 -> sext 32 i = i.
Proof.
  intros ?. unfold sext. rewrite wrap_small by (pow2_consts; lia).
  replace (32 - 1) with 31 by lia. destruct (Z.ltb_spec i (2 ^ 31)); lia.
Qed.

Lemma sext_cast_ok n : n <= 2 ^ 31 -> CastOk n (sext 32).
Proof. intros ? i ?. apply sext_small. lia. Qed.

(** ** Arithmetic modulo the size of a ring *)

Lemma mod_unwrap n x : 0 < n -> 0 <= x < 2 * n -> x mod n = if x <? n then x else x - n.
Proof.
  intros ? ?. destruct (Z.ltb_spec x n).
  - apply Z.mod_small; lia.
  - symmetry. apply (Z.mod_unique _ _ 1); lia.
Qed.

Lemma mod_unwrap_neg n x : 0 < n -> - n <= x < n -> x mod n = if x <? 0 then x + n else x.
Proof.
  intros ? ?. destruct (Z.ltb_spec x 0).
  - symmetry. apply (Z.mod_unique _ _ (-1)); lia.
  - apply Z.mod_small; lia.
Qed.

(** Indices of one lap are different. *)
Lemma mod_lap_inj n a b : 0 < n -> a mod n = b mod n -> Z.abs (a - b) < n -> a = b.
Proof.
  intros Hn E Hab. pose proof (Z.div_mod a n ltac:(lia)). pose proof (Z.div_mod b n ltac:(lia)).
  rewrite E in *. destruct (Z.eq_dec (a / n) (b / n)) as [Eq|Ne]; [nia|exfalso]. nia.
Qed.

(** [ring_simpl] names every remainder whose argument is within a lap of the
    ring, innermost first, and splits on whether it wrapped around. *)
Ltac ring_mod x n :=
  let E := fresh "E" in
  let r := fresh "r" in
  first [ pose proof (mod_unwrap n x ltac:(lia) ltac:(lia)) as E
        | pose proof (mod_unwrap_neg n x ltac:(lia) ltac:(lia)) as E ];
  set (r := x mod n) in *; clearbody r;
  match type of E with
  | context [?a <? ?b] => destruct (Z.ltb_spec a b)
  end.

Ltac ring_simpl :=
  repeat match goal with
         | |- context [?x mod ?n] =>
             lazymatch x with
             | context [_ mod _] => fail
             | _ => ring_mod x n
             end
         end.

Section ring.
Context (n : Z) (Hn : 0 < n) (Hn64 : n < 2 ^ 63).

Let in_ring i := 0 <= i < n.

Lemma next_in_ring i : 0 <= (i + 1) mod n < n.
Proof using Hn. by apply Z.mod_pos_bound. Qed.

Lemma horae_count_spec h t :
  in_ring h -> in_ring t -> horae_count h t n = (t - h) mod n.
Proof using Hn Hn64.
  unfold in_ring, horae_count. intros ? ?.
  rewrite wrap_small by (change (2 ^ 64) with (2 * 2 ^ 63); lia).
  rewrite <- (Z.mod_add (t - h) 1 n) by lia. f_equal. lia.
Qed.

Lemma horae_ring_space_spec h t :
  in_ring h -> in_ring t -> horae_ring_space h t n = n - 1 - (t - h) mod n.
Proof using Hn Hn64.
  unfold in_ring, horae_ring_space. intros ? ?.
  rewrite wrap_small by (change (2 ^ 64) with (2 * 2 ^ 63); lia).
  ring_simpl; lia.
Qed.

Lemma length_ring_range i j :
  Z.of_nat (length (ring_range n i j)) = (j - i) mod n.
Proof using Hn.
  unfold ring_range. rewrite length_fmap, length_seqZ.
  pose proof (Z.mod_pos_bound (j - i) n). lia.
Qed.

Lemma ring_range_lookup i j k :
  0 <= k < (j - i) mod n ->
  ring_range n i j !! Z.to_nat k = Some ((i + k) mod n).
Proof.
  intros ?. unfold ring_range. rewrite list_lookup_fmap, (lookup_seqZ_lt 0) by lia.
  simpl. repeat f_equal. lia.
Qed.

Lemma ring_range_nil i : ring_range n i i = [].
Proof. unfold ring_range. by rewrite Z.sub_diag, Zmod_0_l. Qed.

Lemma ring_range_cons i j :
  in_ring i -> in_ring j -> i ≠ j ->
  ring_range n i j = i :: ring_range n ((i + 1) mod n) j.
Proof using Hn.
  unfold in_ring, ring_range. intros Hi Hj Hij.
  assert (Hc : (j - i) mod n = 1 + (j - (i + 1) mod n) mod n) by (ring_simpl; lia).
  rewrite Hc, seqZ_cons by (pose proof (Z.mod_pos_bound (j - (i + 1) mod n) n); lia).
  rewrite fmap_cons. f_equal; [rewrite Z.add_0_r; by apply Z.mod_small|].
  replace (Z.pred (1 + (j - (i + 1) mod n) mod n)) with ((j - (i + 1) mod n) mod n) by lia.
  change (Z.succ 0) with (1 + 0).
  rewrite <- (fmap_add_seqZ 1), <- list_fmap_compose.
  apply list_fmap_ext. intros k x _. simpl.
  rewrite Zplus_mod_idemp_l. f_equal. lia.
Qed.

Lemma ring_range_snoc i j :
  in_ring i -> in_ring j -> (j + 1) mod n ≠ i ->
  ring_range n i ((j + 1) mod n) = ring_range n i j ++ [j].
Proof using Hn.
  unfold in_ring, ring_range. intros Hi Hj Hij.
  assert (Hc : ((j + 1) mod n - i) mod n = (j - i) mod n + 1).
  { revert Hij. ring_simpl; lia. }
  pose proof (Z.mod_pos_bound (j - i) n).
  rewrite Hc, seqZ_app, fmap_app by lia. f_equal.
  rewrite (seqZ_cons _ 1) by lia. simpl. f_equal.
  rewrite Z.add_0_l, Zplus_mod_idemp_r.
  replace (i + (j - i)) with j by lia. apply Z.mod_small. lia.
Qed.

Lemma elem_of_ring_range i j x :
  in_ring i -> in_ring j ->
  x ∈ ring_range n i j <-> in_ring x /\ (x - i) mod n < (j - i) mod n.
Proof using Hn.
  unfold in_ring, ring_range. intros Hi Hj.
  rewrite list_elem_of_fmap. setoid_rewrite elem_of_seqZ. split.
  - intros (k & -> & Hk). pose proof (Z.mod_pos_bound (i + k) n).
    split; [lia|]. rewrite Zminus_mod_idemp_l. replace (i + k - i) with k by lia.
    pose proof (Z.mod_pos_bound (j - i) n). rewrite Z.mod_small; lia.
  - intros [Hx Hlt]. exists ((x - i) mod n). pose proof (Z.mod_pos_bound (x - i) n).
    split; [|lia]. rewrite Zplus_mod_idemp_r. replace (i + (x - i)) with x by lia.
    symmetry. by apply Z.mod_small.
Qed.

Lemma NoDup_ring_range i j : in_ring i -> in_ring j -> NoDup (ring_range n i j).
Proof using Hn.
  intros Hi Hj. unfold ring_range. apply NoDup_fmap_2_strong; [|apply NoDup_seqZ].
  intros x y Hx%elem_of_seqZ Hy%elem_of_seqZ. unfold in_ring in *.
  pose proof (Z.mod_pos_bound (j - i) n). ring_simpl; lia.
Qed.

(** The loop visits exactly the slots of [ring_range] and terminates, since
    a ring of [n] slots gives it fewer than [n] steps to do. *)
Lemma ring_loop_range {S A} cast `{!CastOk n cast} (body : Z -> A -> M S A) stop m acc fuel s :
  in_ring m -> in_ring stop -> (stop - m) mod n < Z.of_nat fuel ->
  ring_loop cast stop n body fuel m acc s = fold_loop body (ring_range n m stop) acc s.
Proof using Hn Hn64.
  unfold in_ring. revert m acc s. induction fuel as [|fuel IH]; intros m acc s Hm Hs Hf.
  { pose proof (Z.mod_pos_bound (stop - m) n). lia. }
  simpl. rewrite (wrap_small 64 m) by (change (2 ^ 64) with (2 * 2 ^ 63); lia).
  destruct (Z.eqb_spec m stop) as [->|Hne]; [by rewrite ring_range_nil|].
  rewrite ring_range_cons by done. simpl. unfold bind.
  destruct (body m acc s); [|done..].
  pose proof (next_in_ring m). rewrite cast_ok by done.
  apply IH; [done..|]. revert Hf. ring_simpl; lia.
Qed.
End ring.

(** ** Splitting a cyclic traversal *)

Lemma ring_range_split n i m j :
  0 < n -> 0 <= i < n -> 0 <= m < n -> 0 <= j < n ->
  (m - i) mod n <= (j - i) mod n ->
  ring_range n i j = ring_range n i m ++ ring_range n m j.
Proof.
  intros Hn Hi Hm Hj Hle. unfold ring_range.
  assert (E : (j - i) mod n = (m - i) mod n + (j - m) mod n) by (revert Hle; ring_simpl; lia).
  pose proof (Z.mod_pos_bound (m - i) n Hn). pose proof (Z.mod_pos_bound (j - m) n Hn).
  rewrite E, seqZ_app, fmap_app by lia. f_equal. rewrite Z.add_0_l.
  rewrite <- (Z.add_0_r ((m - i) mod n)), <- (fmap_add_seqZ ((m - i) mod n) 0), <- list_fmap_compose.
  apply list_fmap_ext. intros x y _. simpl.
  replace (i + ((m - i) mod n + y)) with (i + y + (m - i) mod n) by lia.
  rewrite Zplus_mod_idemp_r. f_equal. lia.
Qed.

Lemma fold_loop_app {S I A} (body : I -> A -> M S A) l1 l2 acc s :
  fold_loop body (l1 ++ l2) acc s =
  bind (fold_loop body l1 acc) (fun acc' => fold_loop body l2 acc') s.
Proof.
  revert acc s. induction l1 as [|m l1 IH]; intros acc s; [done|].
  simpl. unfold bind. destruct (body m acc s); [|done..]. rewrite IH. done.
Qed.

Lemma fold_loop_fmap {S I J A} (g : I -> J) (body : J -> A -> M S A) (body' : I -> A -> M S A)
    (l : list I) acc s :
  (forall (i : I) acc s, i ∈ l -> body' i acc s = body (g i) acc s) ->
  fold_loop body' l acc s = fold_loop body (g <$> l) acc s.
Proof.
  revert acc s. induction l as [|i l IH]; intros acc s Hb; [done|].
  simpl. unfold bind. rewrite Hb by left. destruct (body (g i) acc s); [|done..].
  apply IH. intros j ? ? ?. apply Hb. by right.
Qed.

Lemma runs_fold_loop {S I A} (P : list I -> A -> S -> Prop) (l : list I)
    (body : I -> A -> M S A) acc s :
  P [] acc s ->
  (forall done (i : I) rest acc s, l = done ++ i :: rest -> P done acc s ->
     runs (body i acc) s (fun acc' s' => P (done ++ [i]) acc' s')) ->
  runs (fold_loop body l acc) s (fun acc' s' => P l acc' s').
Proof.
  intros H0 Hb.
  assert (Hgen : forall rest done acc s, l = done ++ rest -> P done acc s ->
            runs (fold_loop body rest acc) s (fun acc' s' => P l acc' s')).
  { clear acc s H0. intros rest. induction rest as [|i rest IH]; intros dn acc s -> Hs.
    - rewrite app_nil_r. by apply runs_ret.
    - simpl. apply runs_bind. eapply runs_conseq; [by eapply Hb|].
      intros acc' s' Hs'. apply (IH (dn ++ [i])); [|done]. by rewrite <- app_assoc. }
  by apply (Hgen l []).
Qed.

#[export] Hint Resolve next_in_ring : ring.
