(* ===== verification/Horae.v ===== *)
(** * Data of the ccNVMe module

    The structures, constants and inline functions of ccnvme/horae.h and
    ccnvme/compat.h, the kernel interface the module is written against (the
    class [Kernel]) and the state [kst] its functions work on. *)

From S2P Require Import Prelude Ring.

(** ** Constants of horae.h *)

Definition KB : Z := 1024.
Definition MB : Z := 1024 * 1024.
Definition HORAE_BLOCK_SIZE : Z := 4096.
Definition CACHELINE_SIZE : Z := 64.
Definition CMB_DEVICE_ID_BITS : Z := 8.
Definition HORAE_TX_BEGIN : Z := 0.
Definition HORAE_TX : Z := 1.
Definition HORAE_TX_END : Z := 2.
Definition MAX_BIO_SQES : Z := 1024.
Definition HORAE_SUBMITTER_NEED_WAKEUP : Z := 1.

(** sizeof(struct nvme_rw_command_): the structure is packed. *)
Definition sizeof_cmd : Z := 64.

Definition NR_CP_REGION_BLOCK (cp_size : Z) : Z := u32 (MB / HORAE_BLOCK_SIZE * cp_size).
Definition NR_JOURNAL_REGION_BLOCK (journal_size : Z) : Z :=
  u32 (MB / HORAE_BLOCK_SIZE * journal_size).
Definition JOURNAL_REGION_START : Z := 0.
Definition CP_REGION_START (journal_size : Z) : Z :=
  u32 (JOURNAL_REGION_START + NR_JOURNAL_REGION_BLOCK journal_size).

(** ** The submission queue entry, [struct nvme_rw_command_]

    [c_pad1] stands for the three 16-bit words [pad1], [c_padding2] for the
    four 64-bit words [padding2]; the driver never assigns them. *)

Record nvme_rw_command_ := mk_cmd {
  lba : Z;          (* u64 *)
  clength : Z;      (* u16 length *)
  c_pad1 : Z;       (* u16 pad1[3] *)
  txid : Z;         (* u64 *)
  tag : Z;          (* u32 : 3 *)
  c_pad2 : Z;       (* u32 : 21 *)
  device_id : Z;    (* u32 : CMB_DEVICE_ID_BITS *)
  plba : Z;         (* u32 *)
  c_padding2 : Z;   (* u64 padding2[4] *)
}.
#[export] Instance cmd_eta : Eta nvme_rw_command_ := fun c =>
  mk_cmd (lba c) (clength c) (c_pad1 c) (txid c) (tag c) (c_pad2 c)
         (device_id c) (plba c) (c_padding2 c).
#[export] Instance cmd_eq_dec : EqDecision nvme_rw_command_.
Proof. solve_decision. Defined.

Definition zero_cmd : nvme_rw_command_ := mk_cmd 0 0 0 0 0 0 0 0 0.

(** [ometa->tag & (1 << flag)] *)
Definition has_tag (o : nvme_rw_command_) (flag : Z) : bool :=
  negb (Z.land (tag o) (Z.shiftl 1 flag) =? 0).

(** ** [struct stream] (the semaphore and the mutex are in [held]) *)

Record stream := mk_stream {
  ometa_size : Z;
  nr_ometa : Z;
  off_in_cmb : Z;
  head : Z;
  tail : Z;
  tail_watermark : Z;
  flushed : Z;
  last_txid : Z;
  committed : Z;
  last_queue_flushed : Z;
  ometa_start : list nvme_rw_command_;
  s_cp_size : Z;
  nr_cp_block : Z;
  off_in_cp : Z;
  j_size : Z;
  nr_journal_block : Z;
  off_in_journal : Z;
  j_write_ptr : Z;
  nr_devices : Z;
  cmb_device_id : Z;
  stream_id : Z;
  delegated_bio : Z;
  done_by_self_bio : Z;
}.
#[export] Instance stream_eta : Eta stream := fun s =>
  mk_stream (ometa_size s) (nr_ometa s) (off_in_cmb s) (head s) (tail s)
    (tail_watermark s) (flushed s) (last_txid s) (committed s)
    (last_queue_flushed s) (ometa_start s) (s_cp_size s) (nr_cp_block s)
    (off_in_cp s) (j_size s) (nr_journal_block s) (off_in_journal s)
    (j_write_ptr s) (nr_devices s) (cmb_device_id s) (stream_id s)
    (delegated_bio s) (done_by_self_bio s).

Record registerd_dev := mk_dev { dev_ID : Z; dev_sb : Z }.

Record ipu_entry := mk_ipu { ipu_lba : Z; ipu_plba : Z; ipu_txid : Z }.
#[export] Instance ipu_entry_eq_dec : EqDecision ipu_entry.
Proof. solve_decision. Defined.

(** [struct init_param]: [device_ids] and [sbs] are read pairwise. *)
Record init_param := mk_param {
  p_nr_device : Z;
  p_devices : list (Z * Z);
  p_cmb_device_id : Z;
  p_parea_partition_hint : Z;
}.

(** ** The block layer's objects, as far as the module looks at them *)

Record block_device := mk_bdev { bd_disk : Z; bd_partno : Z }.
#[export] Instance bdev_eq_dec : EqDecision block_device.
Proof. solve_decision. Defined.

Record bio_vec := mk_bvec { bv_page : Z; bv_len : Z; bv_offset : Z }.
#[export] Instance bvec_eta : Eta bio_vec := fun v =>
  mk_bvec (bv_page v) (bv_len v) (bv_offset v).

Record bio := mk_bio {
  bi_disk : Z;
  bi_partno : Z;
  bi_sector : Z;     (* 512-byte sectors *)
  bi_size : Z;       (* bytes *)
  bi_opf : Z;
  bi_io_vec : list bio_vec;
}.
#[export] Instance bio_eta : Eta bio := fun b =>
  mk_bio (bi_disk b) (bi_partno b) (bi_sector b) (bi_size b) (bi_opf b) (bi_io_vec b).

Definition bio_set_dev (b : bio) (d : block_device) : bio :=
  b <| bi_disk := bd_disk d |> <| bi_partno := bd_partno d |>.

Record buffer_head := mk_bh {
  b_blocknr : Z;
  b_size : Z;
  b_bdev : block_device;
  b_page : Z;
  b_offset : Z;             (* bh_offset *)
  bh_locked : bool;
  bh_mapped : bool;
  bh_delay : bool;
  bh_unwritten : bool;
  bh_req : bool;
  bh_meta : bool;
  bh_prio : bool;
  bh_write_io_error : bool;
  b_end_io : bool;          (* the completion callback is set *)
}.
#[export] Instance bh_eta : Eta buffer_head := fun b =>
  mk_bh (b_blocknr b) (b_size b) (b_bdev b) (b_page b) (b_offset b) (bh_locked b)
    (bh_mapped b) (bh_delay b) (bh_unwritten b) (bh_req b) (bh_meta b) (bh_prio b)
    (bh_write_io_error b) (b_end_io b).

(** ** Calls that leave the module, in program order *)

Inductive io_event :=
| SubmitBio (b : bio)                       (* submit_bio *)
| SubmitBh (op op_flags : Z) (bh : buffer_head)   (* submit_bh *)
| CommitBh (sb blk : Z)                     (* submit_bh of the block sb_getblk found *)
| WaitBuffer (sb blk : Z)                   (* wait_on_buffer *)
| GetPage (page : Z)                        (* get_page *)
| PutPage (sb blk : Z)                      (* put_page of a buffer's page *)
| SubmitBioWait (b : bio)                   (* submit_bio_wait *)
| IssueFlush (d : block_device)             (* blkdev_issue_flush *)
| FlushAsync (d : block_device)             (* blkdev_issue_flush_async *)
| WaitFlush (j : Z)                         (* wait_for_completion_io *)
| WarnOn.                                   (* WARN_ON fired *)

Inductive lock :=
| IpuTreeLock (tree_idx : Z)
| CpRwsem (sid : Z)
| JournalLock (sid : Z).
#[export] Instance lock_eq_dec : EqDecision lock.
Proof. solve_decision. Defined.

(** ** The persistent memory region (PMR), reached through [ci.dev_addr]

    [view] is what the CPU reads back, [posted] the region with the stores whose
    cache lines were flushed to the root complex, [pmr] what survives a power
    failure: stores that were posted reach it when the device is read. *)
Record cmb_info := mk_ci { dev_size : Z; view : gmap Z Z; posted : gmap Z Z; pmr : gmap Z Z }.
#[export] Instance ci_eta : Eta cmb_info := fun c => mk_ci (dev_size c) (view c) (posted c) (pmr c).

(** ** State of the module and of the part of the kernel it shares *)

Record kst := mk_kst {
  nr_streams : Z;                           (* module parameters *)
  version_consistency : bool;
  journal_size : Z;
  cp_size : Z;
  cp_dev : block_device;
  streams : list stream;                    (* olayer->stream *)
  olog_size : Z;
  free_stream_q : list Z;                   (* olayer->free_stream_q *)
  free_stream_cap : Z;
  registered_list : list registerd_dev;
  blocks_per_group : Z;
  ipu_tree : gmap (Z * Z) ipu_entry;        (* (tree, offset) of the radix trees *)
  ci : cmb_info;
  read_buffer : gmap Z Z;                   (* olayer->read_buffer of the running CPU *)
  held : list lock;
  bh_busy : gset (Z * Z);                   (* locked buffers, by (sb, block) *)
  disk : gmap (Z * Z * Z) Z;                (* contents, by ((disk, partition), 4 KB block) *)
  trace : list io_event;
}.
#[export] Instance kst_eta : Eta kst := fun k =>
  mk_kst (nr_streams k) (version_consistency k) (journal_size k) (cp_size k) (cp_dev k)
    (streams k) (olog_size k) (free_stream_q k) (free_stream_cap k) (registered_list k)
    (blocks_per_group k) (ipu_tree k) (ci k) (read_buffer k) (held k) (bh_busy k) (disk k) (trace k).

(** ** The kernel the module runs in

    Constants and functions of the Linux kernel that the sources use and do
    not define. *)
Class Kernel := {
  num_online_cpus : Z;
  num_possible_cpus : Z;
  num_possible_nodes : Z;
  MINOR : Z -> Z;                           (* of a dev_t *)
  REQ_NR_BITS : Z;                          (* __REQ_NR_BITS *)
  REQ_FUA : Z;
  REQ_PREFLUSH : Z;
  REQ_SYNC : Z;
  REQ_META : Z;
  REQ_PRIO : Z;
  REQ_OP_READ : Z;
  REQ_OP_WRITE : Z;
  BIO_MAX_PAGES : Z;
  PAGE_SIZE : Z;
  NVME_CMBSZ_SZU_SHIFT : Z;                 (* register fields, linux/nvme.h *)
  NVME_CMBSZ_SZU_MASK : Z;
  NVME_CMBSZ_SZ_SHIFT : Z;
  NVME_CMBSZ_SZ_MASK : Z;
  NVME_CMB_OFST : Z -> Z;
  NVME_CMB_BIR : Z -> Z;
  part_tbl : Z -> list (option Z);          (* disk->part_tbl: sectors of each partition *)
  get_capacity : Z -> Z;                    (* sectors of a disk *)
  queue_wc : block_device -> bool;          (* QUEUE_FLAG_WC of the device's queue *)
  bdev_ready : block_device -> bool;        (* disk, queue and make_request_fn are set *)
  sb_getblk : Z -> Z -> bool;               (* false: no memory for the buffer *)
  empty_read_drains : bool;                 (* memcpy_fromio of no bytes reads the device *)
}.

(** What the module relies on: there is a CPU, and the flag bits it adds in
    compat.h are not used by the kernel and fit an [unsigned int]. *)
Class KernelLaws `{Kernel} := {
  num_online_cpus_range : 0 < num_online_cpus < 2 ^ 31;
  req_nr_bits_range : 0 <= REQ_NR_BITS < 27;
  req_flags_low : forall f, f ∈ [REQ_FUA; REQ_PREFLUSH; REQ_SYNC; REQ_META; REQ_PRIO] ->
                  0 <= f < 2 ^ REQ_NR_BITS;
  bio_max_pages_pos : 0 < BIO_MAX_PAGES < 2 ^ 31;
  page_size_4k : PAGE_SIZE = 4096;
}.

Section flags.
Context `{Kernel}.

(** *** compat.h *)
Definition REQ_ORDERED : Z := Z.shiftl 1 (REQ_NR_BITS + 1).
Definition REQ_BARRIER : Z := Z.shiftl 1 (REQ_NR_BITS + 2).
Definition REQ_TX : Z := Z.shiftl 1 (REQ_NR_BITS + 3).
Definition REQ_TX_COMMIT : Z := Z.shiftl 1 (REQ_NR_BITS + 4).

(** *** The inline predicates of horae.h *)
Definition flag_set (op f : Z) : bool := negb (Z.land (u32 op) f =? 0).

Definition op_is_barrier_write (op : Z) : bool :=
  flag_set op REQ_BARRIER || flag_set op REQ_FUA.
Definition op_is_ordered_write (op : Z) : bool :=
  flag_set op REQ_ORDERED || op_is_barrier_write op.
Definition op_is_tx_write (op : Z) : bool := flag_set op REQ_TX.
Definition op_is_tx_commit (op : Z) : bool := flag_set op REQ_TX_COMMIT.

(** [x &= ~f] on an unsigned int *)
Definition clear_flag (x f : Z) : Z := u32 (Z.ldiff x f).
End flags.

Definition horae_get_lba (b : bio) : Z := bi_sector b / 8.
Definition horae_get_secs (b : bio) : Z := u32 (bi_size b / 4096).
Definition horae_get_bh_secs (bh : buffer_head) : Z := u32 (b_size bh / 4096).

(** *** Index of the in-place-update radix trees *)

Definition GROUP_IDX (lba n : Z) : Z := lba / n.
Definition TREE_IDX `{Kernel} (group_idx : Z) : Z := group_idx mod num_online_cpus.
Definition TREE_OFF `{Kernel} (group_idx lba n : Z) : Z :=
  u32 (group_idx / num_online_cpus * n) + lba mod n.

Definition find_ometa_idx (s : stream) (off : Z) : Z :=
  u32 (u64 (off + head s) mod nr_ometa s).

(** ** Primitive steps of the module's code *)

Definition emit (e : io_event) : M kst unit := modify (fun k => k <| trace ::= (.++ [e]) |>).

(** [&olayer->stream[sid]]: reading outside the array is a fault. *)
Definition get_stream (sid : Z) : M kst stream := fun k =>
  if (0 <=? sid) && (sid <? 2 ^ 32) then
    match streams k !! Z.to_nat sid with
    | Some s => Ret s k
    | None => Oops OutOfBounds
    end
  else Oops OutOfBounds.

Definition upd_stream (sid : Z) (f : stream -> stream) : M kst unit :=
  s <-- get_stream sid ;;
  modify (fun k => k <| streams ::= <[Z.to_nat sid := f s]> |>).

(** [stream_ometa_at]: the address of a slot; the access faults when the slot
    is outside the queue. *)
Definition stream_ometa_at (s : stream) (idx : Z) : M kst nvme_rw_command_ :=
  match (if 0 <=? idx then ometa_start s !! Z.to_nat idx else None) with
  | Some o => ret o
  | None => oops OutOfBounds
  end.

Definition set_ometa (sid idx : Z) (f : nvme_rw_command_ -> nvme_rw_command_) : M kst unit :=
  s <-- get_stream sid ;;
  o <-- stream_ometa_at s idx ;;
  upd_stream sid (fun s => s <| ometa_start ::= <[Z.to_nat idx := f o]> |>).

Definition lock_take (l : lock) : M kst unit := fun k =>
  if decide (l ∈ held k) then Oops SelfDeadlock else Ret tt (k <| held ::= cons l |>).

Definition lock_drop (l : lock) : M kst unit := fun k =>
  if decide (l ∈ held k) then Ret tt (k <| held ::= base.filter (fun l' => l' ≠ l) |>)
  else Oops BadUnlock.

(** ** Basic facts *)

Lemma lock_take_Ret l k :
  l ∉ held k -> lock_take l k = Ret tt (k <| held ::= cons l |>).
Proof. intros ?. unfold lock_take. by rewrite decide_False. Qed.

Lemma lock_drop_Ret l k (ls : list lock) :
  held k = l :: ls -> l ∉ ls -> lock_drop l k = Ret tt (k <| held := ls |>).
Proof.
  intros Hk Hn. unfold lock_drop. rewrite decide_True by (rewrite Hk; left).
  destruct k; simpl in *; subst. unfold update. simpl.
  rewrite filter_cons_False by naive_solver. by rewrite filter_ne_notin.
Qed.

Lemma get_stream_Ret sid s k :
  0 <= sid < 2 ^ 32 -> streams k !! Z.to_nat sid = Some s -> get_stream sid k = Ret s k.
Proof.
  intros ? E. unfold get_stream. rewrite E.
  destruct (Z.leb_spec 0 sid), (Z.ltb_spec sid (2 ^ 32)); done || lia.
Qed.

Lemma get_stream_inv sid k s k' :
  get_stream sid k = Ret s k' ->
  k' = k /\ 0 <= sid < 2 ^ 32 /\ streams k !! Z.to_nat sid = Some s.
Proof.
  unfold get_stream.
  destruct (Z.leb_spec 0 sid), (Z.ltb_spec sid (2 ^ 32)); simpl; try done.
  destruct (streams k !! Z.to_nat sid) eqn:E; naive_solver.
Qed.

Lemma upd_stream_Ret sid f s k :
  0 <= sid < 2 ^ 32 -> streams k !! Z.to_nat sid = Some s ->
  upd_stream sid f k = Ret tt (k <| streams ::= <[Z.to_nat sid := f s]> |>).
Proof. intros. unfold upd_stream. by rewrite (bind_Ret _ _ _ _ _ (get_stream_Ret _ _ _ H H0)). Qed.

Lemma stream_ometa_at_Ret s idx o k :
  0 <= idx -> ometa_start s !! Z.to_nat idx = Some o -> stream_ometa_at s idx k = Ret o k.
Proof.
  intros ? E. unfold stream_ometa_at. destruct (Z.leb_spec 0 idx); [|lia]. by rewrite E.
Qed.

(** ** Total correctness of the primitive steps *)

Lemma runs_emit e k (Q : unit -> kst -> Prop) :
  Q tt (k <| trace ::= (.++ [e]) |>) -> runs (emit e) k Q.
Proof. done. Qed.

Lemma runs_get_stream sid s k (Q : stream -> kst -> Prop) :
  0 <= sid < 2 ^ 32 -> streams k !! Z.to_nat sid = Some s -> Q s k ->
  runs (get_stream sid) k Q.
Proof. intros ? ? ?. eapply runs_intro; [by apply get_stream_Ret|done]. Qed.

Lemma runs_upd_stream sid f s k (Q : unit -> kst -> Prop) :
  0 <= sid < 2 ^ 32 -> streams k !! Z.to_nat sid = Some s ->
  Q tt (k <| streams ::= <[Z.to_nat sid := f s]> |>) -> runs (upd_stream sid f) k Q.
Proof. intros ? ? ?. eapply runs_intro; [by eapply upd_stream_Ret|done]. Qed.

Lemma runs_lock_take l k (Q : unit -> kst -> Prop) :
  l ∉ held k -> Q tt (k <| held ::= cons l |>) -> runs (lock_take l) k Q.
Proof. intros ? ?. eapply runs_intro; [by apply lock_take_Ret|done]. Qed.

Lemma runs_lock_drop l ls k (Q : unit -> kst -> Prop) :
  held k = l :: ls -> l ∉ ls -> Q tt (k <| held := ls |>) -> runs (lock_drop l) k Q.
Proof. intros ? ? ?. eapply runs_intro; [by apply lock_drop_Ret|done]. Qed.

Lemma runs_stream_ometa_at s idx o k (Q : nvme_rw_command_ -> kst -> Prop) :
  0 <= idx -> ometa_start s !! Z.to_nat idx = Some o -> Q o k ->
  runs (stream_ometa_at s idx) k Q.
Proof. intros ? ? ?. eapply runs_intro; [by apply stream_ometa_at_Ret|done]. Qed.

(** [kstep]: a step through the module's code that needs no side condition. *)
Ltac kstep :=
  lazymatch goal with
  | |- runs (emit _) _ _ => apply runs_emit
  | _ => rstep
  end.
