(* ===== verification/Scan.v ===== *)
(** * Looking for transactions in a queue

    [commit_write] (checkpoint.c), [graceful_shutdown] and
    [olayer_crash_recovery] (recovery.c) share one nest of loops: walk a
    stream's queue from [head] to [flushed], remember where a transaction
    begins, and at its end process the entries in between.  The nest is
    modelled once, with the type of its indices ([cast]), the way it reads an
    entry ([entry_at]) and what it does with an inner entry ([inner]) as
    parameters, and shown equal to a plain pass over the list of slots. *)

From S2P Require Import Prelude Ring Horae.

Definition warn_on (b : bool) : M kst unit := if b then emit WarnOn else ret tt.

Record scan (A : Type) := mk_scan {
  phase : Z;          (* 0: find begin; 1: find end *)
  begin_idx : Z;
  begin_txid : Z;
  found : A;          (* what the processing of the entries accumulates *)
}.
Arguments mk_scan {A}.
Arguments phase {A}.
Arguments begin_idx {A}.
Arguments begin_txid {A}.
Arguments found {A}.

Section loops.
Context {A : Type} (cast : Z -> Z) (n : Z).
Context (entry_at : Z -> M kst nvme_rw_command_) (inner : Z -> Z -> A -> M kst A).

Definition scan_body (j : Z) (st : scan A) : M kst (scan A) :=
  check (negb (n =? 0)) DivByZero ;;;
  o <-- entry_at j ;;
  if (phase st =? 0) && has_tag o HORAE_TX_BEGIN then
    ret (mk_scan 1 j (txid o) (found st))
  else if (phase st =? 1) && has_tag o HORAE_TX_END then
    warn_on (negb (begin_txid st =? txid o)) ;;;
    a <-- ring_loop cast (u64 j) n (fun k a => inner k (txid o) a) (S (Z.to_nat n))
            (cast (u32 (begin_idx st + 1) mod n)) (found st) ;;
    ret (mk_scan 0 (begin_idx st) (begin_txid st) a)
  else ret st.

Definition scan_loop (from stop : Z) (st : scan A) : M kst (scan A) :=
  ring_loop cast stop n scan_body (S (Z.to_nat n)) (cast from) st.
End loops.

(** ** The reference: cut a list into transactions

    A transaction is its first element, those in between, its last element. *)

Section reference.
Context {E : Type} (hd : E -> nvme_rw_command_).

Fixpoint tx_scan_by (cur : option (E * list E)) (l : list E) : list (E * list E * E) :=
  match l with
  | [] => []
  | o :: l' =>
      match cur with
      | None => tx_scan_by (if has_tag (hd o) HORAE_TX_BEGIN then Some (o, []) else None) l'
      | Some (b, inner) =>
          if has_tag (hd o) HORAE_TX_END then (b, inner, o) :: tx_scan_by None l'
          else tx_scan_by (Some (b, inner ++ [o])) l'
      end
  end.

(** The transaction left open at the end of the list. *)
Fixpoint tx_open (cur : option (E * list E)) (l : list E) : option (E * list E) :=
  match l with
  | [] => cur
  | o :: l' =>
      match cur with
      | None => tx_open (if has_tag (hd o) HORAE_TX_BEGIN then Some (o, []) else None) l'
      | Some (b, inner) =>
          if has_tag (hd o) HORAE_TX_END then tx_open None l'
          else tx_open (Some (b, inner ++ [o])) l'
      end
  end.
End reference.

Section equivalence.
Context {A : Type} (cast : Z -> Z) (n : Z) (Hn : 0 < n < 2 ^ 25) `{!CastOk n cast}.
Context (entry_at : Z -> M kst nvme_rw_command_) (inner : Z -> Z -> A -> M kst A).
Context (ent : Z -> nvme_rw_command_)
        (Hent : forall i k, 0 <= i < n -> entry_at i k = Ret (ent i) k).

Definition scan_tx (tx : Z * list Z * Z) (a : A) : M kst A :=
  let '(b, is_, e) := tx in
  warn_on (negb (txid (ent b) =? txid (ent e))) ;;;
  fold_loop (fun i a => inner i (txid (ent e)) a) is_ a.

(** What the loop remembers besides what it found. *)
Definition ctl_step (c : Z * Z * Z) (j : Z) : Z * Z * Z :=
  let '(p, b, t) := c in
  if (p =? 0) && has_tag (ent j) HORAE_TX_BEGIN then (1, j, txid (ent j))
  else if (p =? 1) && has_tag (ent j) HORAE_TX_END then (0, b, t) else c.

Definition with_found (c : Z * Z * Z) (a : A) : scan A := mk_scan c.1.1 c.1.2 c.2 a.

(** The state of the scan at slot [m] describes the open transaction. *)
Definition scan_inv (stop m : Z) (c : Z * Z * Z) (cur : option (Z * list Z)) : Prop :=
  match cur with
  | None => c.1.1 = 0
  | Some (b, is_) =>
      c.1.1 = 1 /\ c.1.2 = b /\ 0 <= b < n /\ c.2 = txid (ent b) /\
      0 < (m - b) mod n /\
      (stop - b) mod n = (stop - m) mod n + (m - b) mod n /\
      is_ = ring_range n ((b + 1) mod n) m
  end.

Lemma n_small : 0 < n < 33554432.
Proof using Hn. exact Hn. Qed.

Lemma scan_inner_loop m b id a k :
  0 <= m < n -> 0 <= b < n ->
  ring_loop cast (u64 m) n (fun k a => inner k id a) (S (Z.to_nat n))
    (cast (u32 (b + 1) mod n)) a k =
  fold_loop (fun i a => inner i id a) (ring_range n ((b + 1) mod n) m) a k.
Proof using Hn CastOk0.
  intros Hm Hb. pose proof n_small. pose proof (next_in_ring n ltac:(lia) b).
  rewrite (wrap_small 64 m), (wrap_small 32 (b + 1)) by (pow2_consts; lia).
  rewrite cast_ok by lia. apply ring_loop_range; try done; try lia.
  pose proof (Z.mod_pos_bound (m - (b + 1) mod n) n). lia.
Qed.

Lemma scan_inv_open stop m t :
  0 <= stop < n -> 0 <= m < n -> m ≠ stop -> t = txid (ent m) ->
  scan_inv stop ((m + 1) mod n) (1, m, t) (Some (m, [])).
Proof using Hn.
  intros Hs Hm Hne ->. unfold scan_inv. simpl. rewrite ring_range_nil.
  repeat split; try done; try lia; destruct (decide (n = 1)); try lia; ring_simpl; lia.
Qed.

Lemma scan_inv_extend stop m c b is_ :
  0 <= stop < n -> 0 <= m < n -> m ≠ stop -> scan_inv stop m c (Some (b, is_)) ->
  scan_inv stop ((m + 1) mod n) c (Some (b, is_ ++ [m])).
Proof using Hn.
  intros Hs Hm Hne (Hp & Eb & Hb & Ht & Hlt & Hsum & Hin).
  assert (Hmf : (stop - m) mod n = 1 + (stop - (m + 1) mod n) mod n)
    by (clear -Hm Hne Hn Hs; ring_simpl; lia).
  assert (Hnz : (m + 1) mod n ≠ b /\ ((m + 1) mod n - b) mod n = (m - b) mod n + 1).
  { pose proof (Z.mod_pos_bound (stop - b) n ltac:(lia)).
    revert Hsum Hlt. clear -Hm Hb Hne Hn Hs H Hmf. rewrite Hmf.
    pose proof (Z.mod_pos_bound (stop - (m + 1) mod n) n ltac:(lia)).
    set (w := (stop - (m + 1) mod n) mod n) in *. clearbody w.
    set (v := (stop - b) mod n) in *. clearbody v.
    ring_simpl; lia. }
  destruct Hnz as [Hnz Hstep]. unfold scan_inv. repeat split; try done; try lia.
  rewrite Hin. rewrite ring_range_snoc; [done|lia| |lia|].
  - apply next_in_ring. lia.
  - clear -Hm Hb Hlt Hn. revert Hlt. ring_simpl; lia.
Qed.

Lemma scan_step stop m c a cur rest k :
  0 <= stop < n -> 0 <= m < n -> m ≠ stop -> scan_inv stop m c cur ->
  (forall c' cur' a k', scan_inv stop ((m + 1) mod n) c' cur' ->
     fold_loop (scan_body cast n entry_at inner) rest (with_found c' a) k' =
     bind (fold_loop scan_tx (tx_scan_by ent cur' rest) a)
          (fun a' => ret (with_found (foldl ctl_step c' rest) a')) k') ->
  fold_loop (scan_body cast n entry_at inner) (m :: rest) (with_found c a) k =
  bind (fold_loop scan_tx (tx_scan_by ent cur (m :: rest)) a)
       (fun a' => ret (with_found (foldl ctl_step c (m :: rest)) a')) k.
Proof using Hn CastOk0 Hent.
  intros Hs Hm Hne Hinv IH. cbn [fold_loop tx_scan_by foldl]. unfold scan_body at 1.
  rewrite bind_assoc, bind_check by (by apply negb_true_iff, Z.eqb_neq; lia).
  rewrite bind_assoc, (bind_Ret _ _ _ _ _ (Hent m k Hm)).
  destruct c as [[p b0] t0]. unfold ctl_step at 2. cbn [phase begin_idx begin_txid found with_found fst snd].
  destruct cur as [[b is_]|].
  - pose proof Hinv as (Hp & Eb & Hb & Ht & _ & _ & Hin). simpl in Hp, Eb, Ht. subst p b0 t0.
    cbn [Z.eqb Pos.eqb andb]. destruct (has_tag (ent m) HORAE_TX_END) eqn:He; cbn [andb].
    + cbn [fold_loop]. unfold scan_tx at 1. rewrite !bind_assoc.
      apply bind_ext; [done|]. intros [] k1. rewrite !bind_assoc.
      apply bind_ext; [rewrite Hin; by apply scan_inner_loop|]. intros a2 k2.
      rewrite bind_ret. by apply (IH (0, b, txid (ent b)) None).
    + rewrite bind_ret. apply (IH (1, b, txid (ent b))). by apply scan_inv_extend.
  - pose proof Hinv as Hp. simpl in Hp. subst p. cbn [Z.eqb Pos.eqb andb].
    destruct (has_tag (ent m) HORAE_TX_BEGIN) eqn:He.
    + rewrite bind_ret. apply (IH (1, m, txid (ent m)) (Some (m, []))). by apply scan_inv_open.
    + rewrite bind_ret. by apply (IH (0, b0, t0) None).
Qed.

Lemma scan_list_ref stop (fuel : nat) m c a cur k :
  0 <= stop < n -> 0 <= m < n -> (stop - m) mod n <= Z.of_nat fuel -> scan_inv stop m c cur ->
  fold_loop (scan_body cast n entry_at inner) (ring_range n m stop) (with_found c a) k =
  bind (fold_loop scan_tx (tx_scan_by ent cur (ring_range n m stop)) a)
       (fun a' => ret (with_found (foldl ctl_step c (ring_range n m stop)) a')) k.
Proof using Hn CastOk0 Hent.
  intros Hs. revert m c a cur k. induction fuel as [|fuel IH]; intros m c a cur k Hm Hf Hinv.
  - assert (m = stop) as -> by (revert Hf; ring_simpl; lia).
    rewrite !ring_range_nil. by destruct cur as [[] |].
  - destruct (decide (m = stop)) as [->|Hne].
    { rewrite !ring_range_nil. by destruct cur as [[] |]. }
    rewrite ring_range_cons by lia. apply (scan_step stop); [exact Hs|exact Hm|exact Hne|exact Hinv|].
    intros c' cur' a' k' Hinv'. apply IH; [apply next_in_ring; lia| |done].
    revert Hf. ring_simpl; lia.
Qed.

(** The nest of loops is the pass over the list, and it terminates. *)
Lemma scan_loop_ref from stop st k :
  0 <= from < n -> 0 <= stop < n -> phase st = 0 ->
  scan_loop cast n entry_at inner from stop st k =
  bind (fold_loop scan_tx (tx_scan_by ent None (ring_range n from stop)) (found st))
       (fun a => ret (with_found (foldl ctl_step (0, begin_idx st, begin_txid st)
                                    (ring_range n from stop)) a)) k.
Proof using Hn CastOk0 Hent.
  intros Hf Hs Hp. unfold scan_loop. pose proof n_small. rewrite cast_ok by lia.
  pose proof (Z.mod_pos_bound (stop - from) n).
  rewrite (ring_loop_range n); try done; try lia.
  destruct st as [p b t a]. simpl in *. subst p.
  change (mk_scan 0 b t a) with (with_found (0, b, t) a).
  apply (scan_list_ref stop (Z.to_nat n)); try done; lia.
Qed.

(** After a list that leaves no transaction open the scan looks for a
    beginning again. *)
Lemma ctl_open l c cur :
  (match cur with None => c.1.1 = 0 | Some _ => c.1.1 = 1 end) ->
  (foldl ctl_step c l).1.1 = (match tx_open ent cur l with None => 0 | Some _ => 1 end).
Proof.
  revert c cur. induction l as [|j l IH]; intros [[p b] t] cur Hc; simpl.
  { by destruct cur. }
  simpl in Hc. destruct cur as [[b' is_]|]; subst p; cbn [Z.eqb Pos.eqb andb].
  - destruct (has_tag (ent j) HORAE_TX_END); by apply IH.
  - destruct (has_tag (ent j) HORAE_TX_BEGIN); by apply IH.
Qed.
End equivalence.

(** The reference commutes with reading the slots. *)
Definition tx_map {E F} (f : E -> F) (tx : E * list E * E) : F * list F * F :=
  (f tx.1.1, f <$> tx.1.2, f tx.2).

Definition cur_map {E F} (f : E -> F) (cur : option (E * list E)) : option (F * list F) :=
  match cur with
  | Some (b, is_) => Some (f b, f <$> is_)
  | None => None
  end.

Lemma tx_scan_by_fmap {E F} (f : E -> F) (hd : F -> nvme_rw_command_)
    (cur : option (E * list E)) (l : list E) :
  tx_scan_by hd (cur_map f cur) (f <$> l) =
  tx_map f <$> tx_scan_by (fun x => hd (f x)) cur l.
Proof.
  revert cur. induction l as [|x l IH]; intros cur; [done|]. rewrite fmap_cons.
  cbn [tx_scan_by]. destruct cur as [[b is_]|]; cbn [cur_map].
  - destruct (has_tag (hd (f x)) HORAE_TX_END).
    + rewrite fmap_cons. f_equal. apply (IH None).
    + rewrite <- (IH (Some (b, is_ ++ [x]))). cbn [cur_map]. by rewrite fmap_app.
  - destruct (has_tag (hd (f x)) HORAE_TX_BEGIN); [apply (IH (Some (x, [])))|apply (IH None)].
Qed.
