(* ===== verification/Cmb.v ===== *)
(** * The persistent memory region (ccnvme/cmb.c)

    The byte layout of a submission queue entry, the copies between the
    host's image of the queue and the device, the cache line flushes that post
    a copy to the bus and the read behind them that brings it into persistent
    memory, and the discovery of the region at module load. *)

From S2P Require Import Prelude Ring Horae.

(** ** Byte strings, little-endian *)

Fixpoint le_bytes (n : nat) (x : Z) : list Z :=
  match n with
  | O => []
  | S n => x mod 256 :: le_bytes n (x / 256)
  end.

Fixpoint le_val (bs : list Z) : Z :=
  match bs with
  | [] => 0
  | b :: bs => b + 256 * le_val bs
  end.

(** ** Layout of [struct nvme_rw_command_]

    The bit-fields [tag : 3], [pad2 : 21] and [device_id : 8] share one u32,
    the first in its low bits. *)

Definition cmd_bits (c : nvme_rw_command_) : Z :=
  tag c + 8 * c_pad2 c + 2 ^ 24 * device_id c.

Definition encode_cmd (c : nvme_rw_command_) : list Z :=
  le_bytes 8 (lba c) ++ le_bytes 2 (clength c) ++ le_bytes 6 (c_pad1 c) ++
  le_bytes 8 (txid c) ++ le_bytes 4 (cmd_bits c) ++ le_bytes 4 (plba c) ++
  le_bytes 32 (c_padding2 c).

Definition field (bs : list Z) (off len : nat) : Z := le_val (take len (drop off bs)).

Definition decode_cmd (bs : list Z) : nvme_rw_command_ :=
  let w := field bs 24 4 in
  {| lba := field bs 0 8; clength := field bs 8 2; c_pad1 := field bs 10 6;
     txid := field bs 16 8;
     tag := w mod 8; c_pad2 := w / 8 mod 2 ^ 21; device_id := w / 2 ^ 24;
     plba := field bs 28 4; c_padding2 := field bs 32 32 |}.

Definition cmd_wf (c : nvme_rw_command_) : Prop :=
  0 <= lba c < 2 ^ 64 /\ 0 <= clength c < 2 ^ 16 /\ 0 <= c_pad1 c < 2 ^ 48 /\
  0 <= txid c < 2 ^ 64 /\ 0 <= tag c < 2 ^ 3 /\ 0 <= c_pad2 c < 2 ^ 21 /\
  0 <= device_id c < 2 ^ 8 /\ 0 <= plba c < 2 ^ 32 /\ 0 <= c_padding2 c < 2 ^ 256.

(** ** Accesses to the mapping [ci->dev_addr]

    Addresses are offsets from [dev_addr], which is page aligned; an access
    that leaves the [dev_size] bytes of the mapping faults. *)

Fixpoint write_bytes (m : gmap Z Z) (a : Z) (bs : list Z) : gmap Z Z :=
  match bs with
  | [] => m
  | b :: bs => write_bytes (<[a := b]> m) (a + 1) bs
  end.

Definition in_mapping (c : cmb_info) (a len : Z) : bool :=
  (0 <=? a) && (a + len <=? dev_size c).

Definition memcpy_toio (a : Z) (bs : list Z) : M kst unit :=
  c <-- gets ci ;;
  check (in_mapping c a (Z.of_nat (length bs))) OutOfBounds ;;;
  modify (fun k => k <| ci ::= fun c => c <| view := write_bytes (view c) a bs |> |>).

Definition read_bytes (m : gmap Z Z) (a : Z) (len : Z) : list Z :=
  (fun i => default 0 (m !! (a + i))) <$> seqZ 0 len.

(** [memcpy_fromio(read_buffer + dst, dev_addr + a, len)].  A read does not pass
    the writes posted before it: when it returns they are in the region.  Whether
    a copy of no bytes reads the device at all is a matter of the platform. *)
Definition drain `{Kernel} (len : Z) (c : cmb_info) : cmb_info :=
  if (0 <? len) || empty_read_drains then c <| pmr := posted c |> else c.

Definition memcpy_fromio `{Kernel} (dst a len : Z) : M kst unit :=
  c <-- gets ci ;;
  check (in_mapping c a len) OutOfBounds ;;;
  modify (fun k => k <| read_buffer ::= fun m => write_bytes m dst (read_bytes (view c) a len) |> <| ci := drain len c |>).

Definition writel (v a : Z) : M kst unit := memcpy_toio a (le_bytes 4 v).

(** ** Copies between the host's queue and the device *)

Definition ring_bytes (s : stream) : list Z := concat (encode_cmd <$> ometa_start s).

(** The bytes at [data_addr_in_buff - ometa_start = off] of the host's queue. *)
Definition buff_bytes (s : stream) (off len : Z) : M kst (list Z) :=
  if (0 <=? off) && (0 <=? len) && (off + len <=? Z.of_nat (length (ring_bytes s)))
  then ret (take (Z.to_nat len) (drop (Z.to_nat off) (ring_bytes s)))
  else oops OutOfBounds.

Definition copy_from_buff_to_dev (sid data_off data_len : Z) : M kst unit :=
  s <-- get_stream sid ;;
  check (negb (ometa_size s =? 0)) DivByZero ;;;
  let buff_off := u32 (u64 data_off mod ometa_size s) in
  let buff_left := u32 (ometa_size s - buff_off) in
  if buff_left <? u32 data_len then
    bs1 <-- buff_bytes s data_off buff_left ;;
    memcpy_toio (off_in_cmb s + buff_off) bs1 ;;;
    bs2 <-- buff_bytes s 0 (u32 (data_len - buff_left)) ;;
    memcpy_toio (off_in_cmb s) bs2
  else
    bs <-- buff_bytes s data_off data_len ;;
    memcpy_toio (off_in_cmb s + buff_off) bs.

Definition copy_from_dev_to_buff `{Kernel} (sid data_off data_len : Z) : M kst unit :=
  s <-- get_stream sid ;;
  c <-- gets ci ;;
  let dev_left := u32 (dev_size c - data_off) in
  if dev_left <? u32 data_len then
    memcpy_fromio 0 (off_in_cmb s + data_off) dev_left ;;;
    memcpy_fromio 0 (off_in_cmb s) (u32 (data_len - dev_left))
  else
    memcpy_fromio 0 (off_in_cmb s + data_off) data_len.

(** ** Flushing cache lines to the device

    [clflush_] walks the lines that cover [data .. data + len); flushing a
    line posts its current contents to the device, the read that follows in
    [cmb_flush] brings what was posted into the region. *)

Definition in_line (ptr : Z) (av : Z * Z) : Prop := ptr <= av.1 < ptr + CACHELINE_SIZE.
#[export] Instance in_line_dec ptr av : Decision (in_line ptr av).
Proof. unfold in_line. apply _. Defined.

Definition persist_map (ptr : Z) (v p : gmap Z Z) : gmap Z Z :=
  base.filter (in_line ptr) v ∪ base.filter (fun av => ~ in_line ptr av) p.

Definition persist_line (ptr : Z) (c : cmb_info) : cmb_info :=
  c <| posted := persist_map ptr (view c) (posted c) |>.

Definition clflush (ptr : Z) : M kst unit :=
  c <-- gets ci ;;
  check (in_mapping c ptr 1) OutOfBounds ;;;
  modify (fun k => k <| ci ::= persist_line ptr |>).

Fixpoint clflush_loop (fuel : nat) (ptr stop : Z) : M kst unit :=
  match fuel with
  | O => stall
  | S fuel =>
      if ptr <? stop
      then clflush ptr ;;; clflush_loop fuel (ptr + CACHELINE_SIZE) stop
      else ret tt
  end.

Definition clflush_ (data len : Z) : M kst unit :=
  let ptr := Z.ldiff data (CACHELINE_SIZE - 1) in
  clflush_loop (Z.to_nat (data + len - ptr) + 1) ptr (data + len).

Definition cmb_flush `{Kernel} (sid data_off data_len : Z) : M kst unit :=
  s <-- get_stream sid ;;
  c <-- gets ci ;;
  let dev_left := u32 (dev_size c - data_off) in
  (if dev_left <? u32 data_len then
     clflush_ (off_in_cmb s + data_off) dev_left ;;;
     clflush_ (off_in_cmb s) (u32 (data_len - dev_left))
   else
     clflush_ (off_in_cmb s + data_off) data_len) ;;;
  copy_from_dev_to_buff sid data_off 0.

Definition cmb_write (sid data_off data_len : Z) : M kst unit :=
  copy_from_buff_to_dev sid data_off data_len.

Definition cmb_read `{Kernel} (sid data_off data_len : Z) : M kst unit :=
  copy_from_dev_to_buff sid data_off data_len.

(** ** Discovery of the region ([init_cmb], nvme.h) *)

Section init.
Context `{Kernel}.

Definition nvme_cmb_size_unit (cmbsz : Z) : Z :=
  let szu := u8 (Z.land (Z.shiftr cmbsz NVME_CMBSZ_SZU_SHIFT) NVME_CMBSZ_SZU_MASK) in
  u64 (Z.shiftl 1 (12 + 4 * szu)).

Definition nvme_cmb_size (cmbsz : Z) : Z :=
  u32 (Z.land (Z.shiftr cmbsz NVME_CMBSZ_SZ_SHIFT) NVME_CMBSZ_SZ_MASK).

(** What the PCI layer answers for the device the driver probes. *)
Record pci_probe := mk_probe {
  pci_found : list bool;     (* pci_get_device, per row of pdev_info *)
  reg_cmbsz : Z;             (* readl(bar + NVME_REG_CMBSZ) *)
  reg_cmbloc : Z;            (* readl(bar + NVME_REG_CMBLOC) *)
  cmb_mapped : bool;         (* ndev->cmb *)
  resource_len : Z -> Z;     (* pci_resource_len, per BAR *)
  resource_start : Z -> Z;   (* pci_resource_start, per BAR *)
  ioremap_ok : bool;
}.

Inductive errno := EINVAL | EBUSY | ENOMEM | ENXIO | EIO | EROFS.

(** [inl]: the error returned; [inr (raddr, dev_size)]: the mapping set up. *)
Definition init_cmb (p : pci_probe) : fault + (errno + Z * Z) :=
  if negb (existsb id (take 2 (pci_found p))) then inl NullDeref
  else if reg_cmbsz p =? 0 then inr (inl EINVAL)
  else if cmb_mapped p then inr (inl EBUSY)
  else
    let offset := u64 (nvme_cmb_size_unit (reg_cmbsz p) * NVME_CMB_OFST (reg_cmbloc p)) in
    let size := u64 (nvme_cmb_size_unit (reg_cmbsz p) * nvme_cmb_size (reg_cmbsz p)) in
    let bar := NVME_CMB_BIR (reg_cmbloc p) in
    let bar_size := resource_len p bar in
    if bar_size <? offset then inr (inl EINVAL)
    else
      let size := if bar_size - offset <? size then bar_size - offset else size in
      if ioremap_ok p then inr (inr (u64 (resource_start p bar + offset), size))
      else inr (inl ENOMEM).
End init.

(** ** Facts about byte strings *)

Lemma length_le_bytes n x : length (le_bytes n x) = n.
Proof. revert x. induction n; intros x; simpl; auto. Qed.

Lemma le_val_le_bytes n x : 0 <= x < 2 ^ (8 * Z.of_nat n) -> le_val (le_bytes n x) = x.
Proof.
  revert x. induction n as [|n IH]; intros x Hx; simpl.
  - change (8 * Z.of_nat 0) with 0 in Hx. lia.
  - rewrite IH.
    + pose proof (Z.div_mod x 256). lia.
    + replace (8 * Z.of_nat (S n)) with (8 + 8 * Z.of_nat n) in Hx by lia.
      rewrite Z.pow_add_r in Hx by lia. change (2 ^ 8) with 256 in Hx.
      split; [apply Z.div_pos; lia|apply Z.div_lt_upper_bound; lia].
Qed.

Definition is_byte (b : Z) : Prop := 0 <= b < 256.

Lemma le_val_range bs : Forall is_byte bs -> 0 <= le_val bs < 2 ^ (8 * Z.of_nat (length bs)).
Proof.
  induction 1 as [|b bs Hb _ IH]; [done|]. unfold is_byte in Hb. simpl length.
  replace (8 * Z.of_nat (S (length bs))) with (8 + 8 * Z.of_nat (length bs)) by lia.
  rewrite Z.pow_add_r by lia. change (2 ^ 8) with 256. cbn [le_val]. nia.
Qed.

Lemma le_bytes_le_val bs : Forall is_byte bs -> le_bytes (length bs) (le_val bs) = bs.
Proof.
  induction 1 as [|b bs Hb _ IH]; [done|]. unfold is_byte in Hb. simpl.
  rewrite (Z.mul_comm 256), Z.mod_add, Z.mod_small by lia.
  rewrite Z.div_add, Z.div_small by lia. by rewrite Z.add_0_l, IH.
Qed.

Lemma le_bytes_is_byte n x : Forall is_byte (le_bytes n x).
Proof.
  revert x. induction n; intros x; simpl; constructor; auto.
  apply Z.mod_pos_bound. lia.
Qed.

Lemma length_encode_cmd c : length (encode_cmd c) = 64%nat.
Proof. unfold encode_cmd. by rewrite !length_app, !length_le_bytes. Qed.

Lemma field_app_l bs bs' off len :
  (off + len <= length bs)%nat -> field (bs ++ bs') off len = field bs off len.
Proof.
  intros ?. unfold field. rewrite drop_app_le by lia.
  rewrite take_app_le; [done|]. rewrite length_drop. lia.
Qed.

Lemma field_app_r bs bs' off len :
  (length bs <= off)%nat -> field (bs ++ bs') off len = field bs' (off - length bs) len.
Proof. intros ?. unfold field. by rewrite drop_app_ge by lia. Qed.

Lemma field_le_bytes n x :
  0 <= x < 2 ^ (8 * Z.of_nat n) -> field (le_bytes n x) 0 n = x.
Proof.
  intros ?. unfold field. rewrite drop_0, take_ge by (by rewrite length_le_bytes).
  by apply le_val_le_bytes.
Qed.

(** Reads the field at a constant position of a concatenation of byte strings
    of known lengths. *)
Ltac field_step :=
  rewrite field_app_r by (rewrite length_le_bytes; lia);
  rewrite length_le_bytes; cbn [Nat.sub].
Ltac field_hit :=
  repeat field_step;
  try (rewrite field_app_l by (rewrite length_le_bytes; lia));
  rewrite field_le_bytes; [done|assumption].

Lemma decode_encode_cmd c : cmd_wf c -> decode_cmd (encode_cmd c) = c.
Proof.
  intros (H1 & H2 & H3 & H4 & H5 & H6 & H7 & H8 & H9).
  assert (Hw : 0 <= cmd_bits c < 2 ^ (8 * 4)).
  { unfold cmd_bits. change (2 ^ (8 * 4)) with (2 ^ 24 * 2 ^ 8). pow2_consts.
    change (2 ^ 21) with 2097152 in *. change (2 ^ 24) with 16777216. lia. }
  assert (Ew : field (encode_cmd c) 24 4 = cmd_bits c) by (unfold encode_cmd; by field_hit).
  destruct c as [x1 x2 x3 x4 x5 x6 x7 x8 x9]. unfold decode_cmd. rewrite Ew. clear Ew.
  unfold cmd_bits in *; cbn [lba clength c_pad1 txid tag c_pad2 device_id plba c_padding2] in *.
  pow2_consts. change (2 ^ 21) with 2097152 in *. change (2 ^ 24) with 16777216 in *.
  f_equal; try (unfold encode_cmd;
    cbn [lba clength c_pad1 txid tag c_pad2 device_id plba c_padding2]; by field_hit).
  - replace (x5 + 8 * x6 + 16777216 * x7) with (x5 + (x6 + 2097152 * x7) * 8) by lia.
    rewrite Z.mod_add by lia. apply Z.mod_small. lia.
  - replace (x5 + 8 * x6 + 16777216 * x7) with (x5 + (x6 + x7 * 2097152) * 8) by lia.
    rewrite Z.div_add, Z.div_small, Z.add_0_l, Z.mod_add by lia. apply Z.mod_small. lia.
  - replace (x5 + 8 * x6 + 16777216 * x7) with ((x5 + 8 * x6) + x7 * 16777216) by lia.
    rewrite Z.div_add, Z.div_small by lia. lia.
Qed.

Lemma le_bytes_field bs off len :
  Forall is_byte bs -> (off + len <= length bs)%nat ->
  le_bytes len (field bs off len) = take len (drop off bs).
Proof.
  intros Hb Hl. unfold field.
  rewrite <- (le_bytes_le_val (take len (drop off bs))) at 2
    by auto using Forall_take, Forall_drop.
  f_equal. rewrite length_take, length_drop. lia.
Qed.

Lemma encode_decode_cmd bs :
  Forall is_byte bs -> length bs = 64%nat -> encode_cmd (decode_cmd bs) = bs.
Proof.
  intros Hb Hl. unfold encode_cmd, cmd_bits, decode_cmd. cbn [lba clength c_pad1 txid tag c_pad2 device_id plba c_padding2].
  assert (Hw : 0 <= field bs 24 4 < 2 ^ 32).
  { unfold field. pose proof (le_val_range (take 4 (drop 24 bs))) as Hr.
    rewrite length_take, length_drop, Hl in Hr. apply Hr. auto using Forall_take, Forall_drop. }
  replace (field bs 24 4 mod 8 + 8 * (field bs 24 4 / 8 mod 2 ^ 21) + 2 ^ 24 * (field bs 24 4 / 2 ^ 24))
    with (field bs 24 4).
  2:{ change (2 ^ 24) with (8 * 2 ^ 21). rewrite <- Z.div_div by lia.
      pose proof (Z.div_mod (field bs 24 4) 8). pose proof (Z.div_mod (field bs 24 4 / 8) (2 ^ 21)). lia. }
  rewrite !le_bytes_field by (done || lia). clear -Hl.
  do 64 (destruct bs as [|? bs]; [done|]). by destruct bs.
Qed.

(** ** Facts about the mapping *)

Lemma write_bytes_lookup bs m a x :
  write_bytes m a bs !! x =
  if decide (a <= x < a + Z.of_nat (length bs)) then bs !! Z.to_nat (x - a) else m !! x.
Proof.
  revert m a. induction bs as [|b bs IH]; intros m a; simpl.
  { rewrite decide_False by lia. done. }
  rewrite IH. repeat case_decide; try lia.
  - by replace (Z.to_nat (x - a)) with (S (Z.to_nat (x - (a + 1)))) by lia.
  - replace x with a by lia. rewrite lookup_insert_eq.
    by replace (Z.to_nat (a - a)) with O by lia.
  - by rewrite lookup_insert_ne by lia.
Qed.

Lemma persist_map_lookup ptr v p a :
  persist_map ptr v p !! a = if decide (in_line ptr (a, 0)) then v !! a else p !! a.
Proof.
  unfold persist_map. destruct (decide (in_line ptr (a, 0))) as [Hd|Hd].
  - assert (Hall : forall x, in_line ptr (a, x)) by done.
    destruct (v !! a) as [x|] eqn:E.
    + by rewrite (lookup_union_Some_l _ _ _ x) by (by rewrite map_lookup_filter_Some).
    + rewrite lookup_union_None, !map_lookup_filter_None. naive_solver.
  - assert (Hall : forall x, ~ in_line ptr (a, x)) by done.
    rewrite lookup_union_r by (rewrite map_lookup_filter_None; naive_solver).
    destruct (p !! a) as [x|] eqn:E.
    + by rewrite map_lookup_filter_Some.
    + rewrite map_lookup_filter_None. naive_solver.
Qed.

(** [flush_ok c c' P]: [c'] is the device after posting lines that cover the
    addresses [P], and possibly more. *)
Definition flush_ok (c c' : cmb_info) (P : Z -> Prop) : Prop :=
  dev_size c' = dev_size c /\ view c' = view c /\
  (forall a, P a -> posted c' !! a = view c !! a) /\
  (forall a, posted c' !! a = posted c !! a \/ posted c' !! a = view c !! a).

(** The lines were posted, and the read behind them drained them or did not. *)
Definition flushed_to `{Kernel} (c c' : cmb_info) (P : Z -> Prop) : Prop :=
  flush_ok c c' P /\ pmr c' = if empty_read_drains then posted c' else pmr c.

Lemma clflush_loop_ok fuel ptr stop k :
  0 <= ptr -> stop <= dev_size (ci k) -> (Z.to_nat (stop - ptr) < fuel)%nat ->
  exists c', clflush_loop fuel ptr stop k = Ret tt (k <| ci := c' |>) /\
             flush_ok (ci k) c' (fun a => ptr <= a < stop) /\ pmr c' = pmr (ci k).
Proof.
  revert ptr k. induction fuel as [|fuel IH]; intros ptr k Hp Hs Hf; [lia|].
  cbn [clflush_loop]. destruct (Z.ltb_spec ptr stop).
  - destruct (IH (ptr + CACHELINE_SIZE) (k <| ci ::= persist_line ptr |>))
      as (c' & E & (Hd & Hv & Hin & Hor) & Hp'); [unfold CACHELINE_SIZE; simpl in *; lia..|].
    exists c'. split; [|split; [|done]].
    + unfold bind at 1, clflush, check, gets, in_mapping, modify, ret, bind. simpl.
      destruct (Z.leb_spec 0 ptr); [|lia].
      destruct (Z.leb_spec (ptr + 1) (dev_size (ci k))); [|lia]. simpl. rewrite E. done.
    + simpl in *. repeat split; try done.
      * intros a Ha. destruct (decide (a < ptr + CACHELINE_SIZE)).
        -- destruct (Hor a) as [-> | ->]; [|done].
           rewrite persist_map_lookup. rewrite decide_True; [done|]. split; simpl; lia.
        -- apply Hin. lia.
      * intros a. destruct (Hor a) as [-> | ->]; [|by right].
        rewrite persist_map_lookup. case_decide; auto.
  - exists (ci k). split; [|split; [|done]].
    + unfold ret. f_equal. by destruct k.
    + repeat split; auto. lia.
Qed.

Lemma ldiff_63 x : 0 <= x -> x - 63 <= Z.ldiff x (CACHELINE_SIZE - 1) <= x /\ 0 <= Z.ldiff x (CACHELINE_SIZE - 1).
Proof.
  intros ?. change (CACHELINE_SIZE - 1) with (Z.ones 6).
  rewrite Z.ldiff_ones_r, Z.shiftl_mul_pow2, Z.shiftr_div_pow2 by lia.
  change (2 ^ 6) with 64. pose proof (Z.div_mod x 64). pose proof (Z.mod_pos_bound x 64).
  pose proof (Z.div_pos x 64). lia.
Qed.

Lemma clflush_ok data len k :
  0 <= data -> 0 <= len -> data + len <= dev_size (ci k) ->
  exists c', clflush_ data len k = Ret tt (k <| ci := c' |>) /\
             flush_ok (ci k) c' (fun a => data <= a < data + len) /\ pmr c' = pmr (ci k).
Proof.
  intros H0 H1 H2. unfold clflush_. pose proof (ldiff_63 data H0) as [[? ?] ?].
  destruct (clflush_loop_ok (Z.to_nat (data + len - Z.ldiff data (CACHELINE_SIZE - 1)) + 1)
              (Z.ldiff data (CACHELINE_SIZE - 1)) (data + len) k)
    as (c' & E & (Hd & Hv & Hin & Hor) & Hp'); [lia..|].
  exists c'. split; [done|]. split; [|done]. repeat split; auto. intros a ?. apply Hin. lia.
Qed.

Lemma memcpy_toio_ok a bs k :
  0 <= a -> a + Z.of_nat (length bs) <= dev_size (ci k) ->
  memcpy_toio a bs k =
  Ret tt (k <| ci ::= fun c => c <| view := write_bytes (view c) a bs |> |>).
Proof.
  intros ? ?. unfold memcpy_toio, bind, gets, check, in_mapping, modify, ret.
  destruct (Z.leb_spec 0 a); [|lia].
  destruct (Z.leb_spec (a + Z.of_nat (length bs)) (dev_size (ci k))); [|lia]. done.
Qed.

Lemma slice_concat {A} (l : list (list A)) n i x :
  Forall (fun y => length y = n) l -> l !! i = Some x ->
  take n (drop (n * i) (concat l)) = x.
Proof.
  revert i. induction l as [|y l IH]; intros i Hl Hi; [done|].
  apply Forall_cons in Hl as [Hy Hl]. destruct i as [|i]; simpl in *.
  - injection Hi as ->. rewrite Nat.mul_0_r, drop_0. by rewrite take_app_length' by done.
  - rewrite drop_app_ge by lia. replace (n * S i - length y)%nat with (n * i)%nat by lia.
    by apply IH.
Qed.

Lemma length_ring_bytes s : length (ring_bytes s) = (64 * length (ometa_start s))%nat.
Proof.
  unfold ring_bytes. induction (ometa_start s) as [|c l IH]; [done|].
  rewrite fmap_cons, concat_cons, length_app, length_encode_cmd, IH. simpl. lia.
Qed.

(** The geometry of a stream's part of the region. *)
Definition cmb_geom (s : stream) (c : cmb_info) : Prop :=
  0 < nr_ometa s < 2 ^ 25 /\ ometa_size s = nr_ometa s * sizeof_cmd /\
  Z.of_nat (length (ometa_start s)) = nr_ometa s /\
  0 <= off_in_cmb s /\ off_in_cmb s + ometa_size s <= dev_size c /\ dev_size c < 2 ^ 32.

Lemma copy_slot_ok sid s k i o :
  get_stream sid k = Ret s k -> cmb_geom s (ci k) ->
  0 <= i < nr_ometa s -> ometa_start s !! Z.to_nat i = Some o ->
  copy_from_buff_to_dev sid (i * sizeof_cmd) sizeof_cmd k =
  Ret tt (k <| ci ::= fun c => c <| view := write_bytes (view c)
                                     (off_in_cmb s + i * sizeof_cmd) (encode_cmd o) |> |>).
Proof.
  intros Hs ((Hn & Hn2) & Hsz & Hl & Ho & Hfit & Hd) Hi Ho'. unfold sizeof_cmd in *.
  change (2 ^ 25) with 33554432 in *.
  unfold copy_from_buff_to_dev. rewrite (bind_Ret _ _ _ _ _ Hs).
  rewrite bind_check by (apply negb_true_iff, Z.eqb_neq; lia). wraps.
  rewrite (Z.mod_small (i * 64)) by lia. wraps.
  destruct (Z.ltb_spec (ometa_size s - i * 64) 64); [lia|].
  unfold buff_bytes. pose proof (length_ring_bytes s).
  destruct (Z.leb_spec 0 (i * 64)); [|lia].
  destruct (Z.leb_spec (i * 64 + 64) (Z.of_nat (length (ring_bytes s)))); [|lia].
  cbn [andb Z.leb Z.compare]. rewrite bind_ret. change (Z.to_nat 64) with 64%nat. replace (Z.to_nat (i * 64)) with (64 * Z.to_nat i)%nat by lia.
  unfold ring_bytes. rewrite (slice_concat _ 64 (Z.to_nat i) (encode_cmd o)).
  - apply memcpy_toio_ok; rewrite ?length_encode_cmd; lia.
  - apply Forall_fmap, Forall_true. intros ?. apply length_encode_cmd.
  - by rewrite list_lookup_fmap, Ho'.
Qed.
