(* ===== verification/Checkpoint.v ===== *)
(** * Checkpointing a stream (ccnvme/checkpoint.c)

    The index of in-place updates, the write-back of committed transactions
    ([commit_write]), the allocation of journal blocks, the truncation of a
    stream's submission queue and its checkpoint.

    The build of ccnvme/Makefile is modelled: USE_CMB is defined,
    DISABLE_MQ_JOURNAL is not. *)

From S2P Require Import Prelude Ring Horae Scan.

Section checkpoint.
Context `{Kernel}.

Definition ENOMEM_ret : Z := -12.

(** ** The radix trees of in-place updates *)

(** The tree and the offset of a block, in the widths of the local
    variables [group_idx], [tree_idx] and [tree_off]. *)
Definition ipu_pos (bpg start_lba : Z) : Z * Z :=
  let group_idx := u32 (GROUP_IDX start_lba bpg) in
  (u32 (TREE_IDX group_idx), u32 (TREE_OFF group_idx start_lba bpg)).

Definition radix_tree_delete (pos : Z * Z) : M kst (option ipu_entry) := fun k =>
  Ret (ipu_tree k !! pos) (k <| ipu_tree ::= delete pos |>).

Definition radix_tree_lookup (pos : Z * Z) : M kst (option ipu_entry) :=
  gets (fun k => ipu_tree k !! pos).

Definition radix_tree_insert (pos : Z * Z) (e : ipu_entry) : M kst unit :=
  modify (fun k => k <| ipu_tree ::= <[pos := e]> |>).

(** ** Write-back of one entry *)

(** The loop over the blocks of the entry; [bh_list] collects the buffers to
    wait for. *)
Fixpoint commit_blocks (n : nat) (o : nvme_rw_command_) (sb txid start_lba : Z)
    (bh_list : list (Z * Z)) : M kst (Z * list (Z * Z)) :=
  match n with
  | O => ret (0, bh_list)
  | S n =>
      bpg <-- gets blocks_per_group ;;
      check (negb (bpg =? 0)) DivByZero ;;;
      let pos := ipu_pos bpg start_lba in
      lock_take (IpuTreeLock pos.1) ;;;
      entry <-- radix_tree_delete pos ;;
      lock_drop (IpuTreeLock pos.1) ;;;
      match entry with
      | None => commit_blocks n o sb txid (u64 (start_lba + 1)) bh_list
      | Some e =>
          if negb (ipu_txid e =? txid) then   (* skip old data *)
            commit_blocks n o sb txid (u64 (start_lba + 1)) bh_list
          else
            warn_on (negb (ipu_txid e =? txid) && (plba o =? 0)) ;;;
            warn_on (negb (start_lba =? ipu_lba e)) ;;;
            if sb_getblk sb start_lba then
              busy <-- gets (fun k => bool_decide ((sb, start_lba) ∈ bh_busy k)) ;;
              (if busy then ret tt
               else modify (fun k => k <| bh_busy ::= union {[(sb, start_lba)]} |>) ;;;
                    emit (CommitBh sb start_lba)) ;;;
              commit_blocks n o sb txid (u64 (start_lba + 1))
                (bh_list ++ [(sb, start_lba)])
            else
              lock_drop (IpuTreeLock pos.1) ;;; ret (ENOMEM_ret, bh_list)
      end
  end.

Definition commit_write_entry_per_stream (o : nvme_rw_command_) (sb : option Z)
    (txid : Z) (bh_list : list (Z * Z)) : M kst (Z * list (Z * Z)) :=
  match sb with
  | None => ret (0, bh_list)
  | Some sb => commit_blocks (Z.to_nat (clength o)) o sb txid (lba o) bh_list
  end.

(** [found] is never set, so the warning fires whenever the list is exhausted. *)
Definition find_dev (l : list registerd_dev) (id : Z) : option Z :=
  dev_sb <$> (snd <$> list_find (fun d => MINOR (dev_ID d) = id) l).

Definition get_sb_by_devid (id : Z) : M kst (option Z) :=
  l <-- gets registered_list ;;
  match find_dev l id with
  | Some sb => ret (Some sb)
  | None => emit WarnOn ;;; ret None
  end.

(** ** Write-back of the committed transactions of a stream *)

(** The body of the inner loop: entry [o_tmp] of the transaction [id]. *)
Definition commit_one (o_tmp : nvme_rw_command_) (id : Z) (bhs : list (Z * Z))
    : M kst (list (Z * Z)) :=
  if plba o_tmp =? 0 then ret bhs
  else
    sb <-- get_sb_by_devid (device_id o_tmp) ;;
    unpack (_, bhs') <-- commit_write_entry_per_stream o_tmp sb id bhs ;;
    ret bhs'.

Definition commit_write_inner (s : stream) (k id : Z) (bhs : list (Z * Z))
    : M kst (list (Z * Z)) :=
  o_tmp <-- stream_ometa_at s k ;; commit_one o_tmp id bhs.

(** Waiting for the collected buffers, and unpinning their pages. *)
Definition wait_bh (b : Z * Z) : M kst unit :=
  emit (WaitBuffer b.1 b.2) ;;;
  modify (fun k => k <| bh_busy ::= (.∖ {[b]}) |>) ;;;
  vc <-- gets version_consistency ;;
  if negb vc then emit (PutPage b.1 b.2) else ret tt.

Definition commit_write (sid : Z) : M kst Z :=
  s <-- get_stream sid ;;
  st <-- scan_loop (sext 32) (nr_ometa s) (stream_ometa_at s) (commit_write_inner s)
           (head s) (flushed s) (mk_scan 0 0 0 []) ;;
  for_each (found st) wait_bh ;;;
  ret 0.

(** ** Journal blocks *)

(** [commit_write], then [head = flushed] and [j_write_ptr = off_in_journal]. *)
Definition journal_reclaim (sid : Z) : M kst unit :=
  _ <-- commit_write sid ;;
  upd_stream sid (fun s => s <| head := flushed s |> <| j_write_ptr := off_in_journal s |>).

(** The allocation both entry points do under [journal_lock]. *)
Definition journal_reserve (sid nr_blocks : Z) : M kst Z :=
  s <-- get_stream sid ;;
  let parea_right_boundary := u32 (off_in_journal s + nr_journal_block s) in
  lock_take (JournalLock sid) ;;;
  (if parea_right_boundary <? u64 (nr_blocks + j_write_ptr s)
   then journal_reclaim sid else ret tt) ;;;
  s <-- get_stream sid ;;
  let current_pwrite_ptr := j_write_ptr s in
  upd_stream sid (fun s => s <| j_write_ptr ::= fun p => u64 (p + nr_blocks) |>) ;;;
  lock_drop (JournalLock sid) ;;;
  ret current_pwrite_ptr.

(** [src_bio] redirected to the journal block [ptr]. *)
Definition to_journal (cp : block_device) (ptr : Z) (src_bio : bio) : bio :=
  (bio_set_dev src_bio cp) <| bi_sector := u64 ((JOURNAL_REGION_START + ptr) * 8) |>.

Definition alloc_journal_block (sid : Z) (src_bio : bio) (nr_blocks : Z) : M kst (Z * bio) :=
  s <-- get_stream sid ;;
  if nr_journal_block s <? nr_blocks then ret (u32 (-1), src_bio)
  else
    ptr <-- journal_reserve sid nr_blocks ;;
    cp <-- gets cp_dev ;;
    ret (u32 (JOURNAL_REGION_START + ptr), to_journal cp ptr src_bio).

(** One step of the loop that records where the journal holds the newest
    version of a block. *)
Definition index_block (sid ptr : Z) (vecs : list bio_vec) (start_lba i : Z) : M kst unit :=
  bpg <-- gets blocks_per_group ;;
  check (negb (bpg =? 0)) DivByZero ;;;
  s <-- get_stream sid ;;
  let pos := ipu_pos bpg start_lba in
  let fresh := mk_ipu (u32 start_lba) (u32 (JOURNAL_REGION_START + ptr + i)) (last_txid s) in
  lock_take (IpuTreeLock pos.1) ;;;
  entry <-- radix_tree_lookup pos ;;
  match entry with
  | None =>
      radix_tree_insert pos fresh ;;;
      vc <-- gets version_consistency ;;
      if negb vc then
        match vecs !! Z.to_nat i with
        | Some v => emit (GetPage (bv_page v))
        | None => oops OutOfBounds
        end
      else ret tt
  | Some e =>
      if ipu_txid e <? last_txid s then radix_tree_insert pos fresh else ret tt
  end ;;;
  lock_drop (IpuTreeLock pos.1).

Definition index_blocks (sid ptr : Z) (vecs : list bio_vec) (start_lba nr_blocks : Z)
    : M kst unit :=
  for_each (seqZ 0 nr_blocks)
    (fun i => index_block sid ptr vecs (u64 (start_lba + i)) i).

Definition journal_write_alloc (sid : Z) (src_bio : bio) : M kst (Z * bio) :=
  s <-- get_stream sid ;;
  let start_lba := horae_get_lba src_bio in
  let nr_blocks := horae_get_secs src_bio in
  if nr_journal_block s <? nr_blocks then ret (u32 (-1), src_bio)
  else
    ptr <-- journal_reserve sid nr_blocks ;;
    index_blocks sid ptr (bi_io_vec src_bio) start_lba nr_blocks ;;;
    cp <-- gets cp_dev ;;
    ret (u32 (JOURNAL_REGION_START + ptr), to_journal cp ptr src_bio).

(** ** Making room in the submission queue *)

Definition truncate_ordering_log (sid : Z) : M kst Z :=
  s <-- get_stream sid ;;
  if head s =? flushed s then ret 0
  else
    lock_take (JournalLock sid) ;;;
    journal_reclaim sid ;;;
    lock_drop (JournalLock sid) ;;;
    ret 0.

(** The i-th of the pages [alloc_page] returns is page [i]; each takes a vector of
    its own ([bio_add_page] of Linux 4.18 joins pieces of one page only). *)
Definition write_checkpoint (sid : Z) : M kst Z :=
  s <-- get_stream sid ;;
  check (negb (nr_ometa s =? 0)) DivByZero ;;;
  js <-- gets journal_size ;;
  cp <-- gets cp_dev ;;
  let space_valid_ometa := u32 (horae_count (head s) (tail s) (nr_ometa s) * sizeof_cmd) in
  let nr_4k := if space_valid_ometa mod HORAE_BLOCK_SIZE =? 0
               then space_valid_ometa / HORAE_BLOCK_SIZE
               else space_valid_ometa / HORAE_BLOCK_SIZE + 1 in
  let nr_4k := Z.min nr_4k BIO_MAX_PAGES in
  let b := mk_bio (bd_disk cp) (bd_partno cp) (CP_REGION_START js) (nr_4k * PAGE_SIZE)
             (Z.lor REQ_OP_WRITE (Z.lor REQ_SYNC REQ_FUA))
             ((fun i => mk_bvec i PAGE_SIZE 0) <$> seqZ 0 nr_4k) in
  emit (SubmitBioWait b) ;;;
  ret 0.

Definition stream_do_checkpoint (sid nr_entries : Z) : M kst Z :=
  lock_take (CpRwsem sid) ;;;
  s <-- get_stream sid ;;
  check (negb (nr_ometa s =? 0)) DivByZero ;;;
  if nr_entries <=? horae_ring_space (head s) (tail s) (nr_ometa s) then
    lock_drop (CpRwsem sid) ;;; ret 0
  else
    _ <-- truncate_ordering_log sid ;;
    s <-- get_stream sid ;;
    if nr_entries <=? horae_ring_space (head s) (tail s) (nr_ometa s) then
      lock_drop (CpRwsem sid) ;;; ret 0
    else
      _ <-- write_checkpoint sid ;;
      upd_stream sid (fun s => s <| head := tail s |> <| flushed := tail s |>) ;;;
      lock_drop (CpRwsem sid) ;;;
      ret 0.

(** ** Initialisation of a stream's regions *)

Definition stream_init_cp (cp_size nr_streams : Z) (s : stream) : stream :=
  let nr := NR_CP_REGION_BLOCK cp_size / nr_streams in
  s <| nr_cp_block := nr |> <| s_cp_size := u64 (nr * HORAE_BLOCK_SIZE) |>
    <| off_in_cp := u64 (stream_id s * nr) |>.

Definition stream_init_journal (journal_size nr_streams : Z) (s : stream) : stream :=
  let nr := NR_JOURNAL_REGION_BLOCK journal_size / nr_streams in
  s <| nr_journal_block := nr |> <| j_size := u64 (nr * HORAE_BLOCK_SIZE) |>
    <| off_in_journal := u64 (stream_id s * nr) |>
    <| j_write_ptr := u64 (stream_id s * nr) |>.
End checkpoint.
