(* ===== verification/CheckpointFacts.v ===== *)
(** * Correctness of the in-place-update index and of the write-back *)

From S2P Require Import Prelude Ring Horae Scan Checkpoint.

(** ** The index never confuses two blocks *)

Section index.
Context `{Kernel} `{!KernelLaws}.

(** With block numbers of 32 bits none of the index computations overflows. *)
Lemma ipu_pos_exact bpg l :
  0 < bpg < 2 ^ 32 -> 0 <= l < 2 ^ 32 ->
  ipu_pos bpg l = (l / bpg mod num_online_cpus,
                   l / bpg / num_online_cpus * bpg + l mod bpg) /\
  0 <= l / bpg / num_online_cpus.
Proof.
  intros Hb Hl. pose proof num_online_cpus_range as Hc.
  unfold ipu_pos, TREE_IDX, TREE_OFF, GROUP_IDX.
  assert (Hg : 0 <= l / bpg <= l) by (split; [apply Z.div_pos|apply Z.div_le_upper_bound]; nia).
  pose proof (Z.div_pos (l / bpg) num_online_cpus).
  pose proof (Z.mul_div_le (l / bpg) num_online_cpus).
  pose proof (Z.div_mod l bpg). pose proof (Z.mod_pos_bound l bpg).
  pose proof (Z.mod_pos_bound (l / bpg) num_online_cpus).
  change (2 ^ 31) with 2147483648 in *. pow2_consts.
  assert (l / bpg / num_online_cpus * bpg <= l / bpg * bpg) by nia.
  rewrite (wrap_small 32 (l / bpg)) by (pow2_consts; lia).
  rewrite (wrap_small 32 (l / bpg mod _)) by (pow2_consts; lia).
  rewrite (wrap_small 32 (l / bpg / _ * _)) by (pow2_consts; nia).
  rewrite wrap_small by (pow2_consts; nia). split; [done|lia].
Qed.

Lemma ipu_pos_inj bpg l1 l2 :
  0 < bpg < 2 ^ 32 -> 0 <= l1 < 2 ^ 32 -> 0 <= l2 < 2 ^ 32 ->
  ipu_pos bpg l1 = ipu_pos bpg l2 -> l1 = l2.
Proof.
  intros Hb H1 H2. destruct (ipu_pos_exact bpg l1 Hb H1) as [-> ?].
  destruct (ipu_pos_exact bpg l2 Hb H2) as [-> ?]. intros [= Ht Ho].
  assert (Hoff : forall q r q' r', 0 <= r < bpg -> 0 <= r' < bpg ->
            q * bpg + r = q' * bpg + r' -> q = q' /\ r = r').
  { intros q r q' r' ? ? ?. assert (q = q') by nia. split; nia. }
  apply Hoff in Ho as [Hq Hr]; [|apply Z.mod_pos_bound; lia..].
  pose proof num_online_cpus_range.
  rewrite (Z.div_mod l1 bpg), (Z.div_mod l2 bpg), Hr by lia.
  rewrite (Z.div_mod (l1 / bpg) num_online_cpus), (Z.div_mod (l2 / bpg) num_online_cpus) by lia.
  by rewrite Ht, Hq.
Qed.
End index.

(** ** Frame of the write-back code *)

(** [wb_frame k k']: [k'] differs from [k] at most in the index, the locked
    buffers and the calls issued. *)
Definition wb_frame (k k' : kst) : Prop :=
  k' = k <| ipu_tree := ipu_tree k' |> <| bh_busy := bh_busy k' |> <| trace := trace k' |>.

#[export] Instance wb_frame_preorder : PreOrder wb_frame.
Proof.
  split; [intros k; by destruct k|].
  intros k1 k2 k3 E1 E2. unfold wb_frame in *. rewrite E2, E1. done.
Qed.

Definition ipu_unlocked (k : kst) : Prop := forall i, IpuTreeLock i ∉ held k.

Lemma wb_frame_unlocked k k' : wb_frame k k' -> ipu_unlocked k -> ipu_unlocked k'.
Proof. intros -> ?. done. Qed.

Lemma wb_frame_bpg k k' : wb_frame k k' -> blocks_per_group k' = blocks_per_group k.
Proof. by intros ->. Qed.

Lemma wb_frame_streams k k' : wb_frame k k' -> streams k' = streams k.
Proof. by intros ->. Qed.

Section writeback.
Context `{Kernel} `{!KernelLaws}.

(** The buffer cache never runs out of memory. *)
Definition sb_getblk_total : Prop := forall sb b, sb_getblk sb b = true.

(** Block [l] was last journalled by transaction [txid]. *)
Definition ipu_due (bpg : Z) (t : gmap (Z * Z) ipu_entry) (txid l : Z) : Prop :=
  exists e, t !! ipu_pos bpg l = Some e /\ ipu_txid e = txid.
#[global] Instance ipu_due_dec bpg t txid l : Decision (ipu_due bpg t txid l).
Proof.
  unfold ipu_due. destruct (t !! ipu_pos bpg l) as [e|].
  - destruct (decide (ipu_txid e = txid)); [left|right]; naive_solver.
  - right. naive_solver.
Defined.

(** The buffers of the blocks [ls] of [sb] that transaction [txid] must
    write back. *)
Definition due_bhs (k : kst) (sb txid : Z) (ls : list Z) : list (Z * Z) :=
  pair sb <$> base.filter (ipu_due (blocks_per_group k) (ipu_tree k) txid) ls.

Record written_back (k : kst) (sb txid : Z) (ls : list Z) (k' : kst) : Prop := {
  wb_frames : wb_frame k k';
  wb_index : forall p, ipu_tree k' !! p =
    if decide (p ∈ ipu_pos (blocks_per_group k) <$> ls) then None else ipu_tree k !! p;
  wb_busy : bh_busy k' = list_to_set (due_bhs k sb txid ls) ∪ bh_busy k;
  wb_issued : exists evs, trace k' = trace k ++ evs /\
    forall s l, CommitBh s l ∈ evs <->
      (s, l) ∈ due_bhs k sb txid ls /\ (s, l) ∉ bh_busy k;
}.

Lemma written_back_nil k sb txid : written_back k sb txid [] k.
Proof.
  split.
  - reflexivity.
  - intros p. rewrite decide_False; [done|]. apply not_elem_of_nil.
  - unfold due_bhs. set_solver.
  - exists []. split; [by rewrite app_nil_r|]. change (due_bhs k sb txid []) with (@nil (Z * Z)).
    set_solver.
Qed.

(** What one iteration does to the state, the case of a block that is not due. *)
Lemma written_back_skip k sb txid l :
  ~ ipu_due (blocks_per_group k) (ipu_tree k) txid l ->
  written_back k sb txid [l] (k <| ipu_tree ::= delete (ipu_pos (blocks_per_group k) l) |>).
Proof.
  intros Hnd. assert (E : due_bhs k sb txid [l] = []).
  { unfold due_bhs. by rewrite filter_cons_False. }
  split; rewrite ?E.
  - by destruct k.
  - intros p. simpl. rewrite lookup_delete. repeat case_decide; set_solver.
  - simpl. set_solver.
  - exists []. split; [by simpl; rewrite app_nil_r|]. set_solver.
Qed.

(** The case of a block that is due. *)
Lemma written_back_due k sb txid l (warn : bool) :
  ipu_due (blocks_per_group k) (ipu_tree k) txid l ->
  written_back k sb txid [l]
    (k <| ipu_tree ::= delete (ipu_pos (blocks_per_group k) l) |>
       <| bh_busy ::= union {[(sb, l)]} |>
       <| trace ::= (.++ ((if warn then [WarnOn] else []) ++
             (if decide ((sb, l) ∈ bh_busy k) then [] else [CommitBh sb l]))) |>).
Proof.
  intros Hd. assert (E : due_bhs k sb txid [l] = [(sb, l)]).
  { unfold due_bhs. rewrite filter_cons_True by done. done. }
  split; rewrite ?E.
  - by destruct k.
  - intros p. simpl. rewrite lookup_delete. repeat case_decide; set_solver.
  - simpl. set_solver.
  - eexists. split; [by simpl|]. intros s x. case_decide; destruct warn; set_solver.
Qed.

Lemma due_bhs_cons k sb txid l ls :
  due_bhs k sb txid (l :: ls) = due_bhs k sb txid [l] ++ due_bhs k sb txid ls.
Proof.
  unfold due_bhs. rewrite <- fmap_app. f_equal.
  destruct (decide (ipu_due (blocks_per_group k) (ipu_tree k) txid l)).
  - by rewrite !filter_cons_True by done.
  - by rewrite !filter_cons_False by done.
Qed.

(** Blocks of 32-bit numbers do not disturb one another in the index. *)
Lemma due_bhs_after k k' sb txid txid' l ls :
  0 < blocks_per_group k < 2 ^ 32 -> Forall (fun x => 0 <= x < 2 ^ 32) (l :: ls) ->
  l ∉ ls -> written_back k sb txid [l] k' ->
  due_bhs k' sb txid' ls = due_bhs k sb txid' ls.
Proof.
  intros Hb Hr Hn Hw. unfold due_bhs. f_equal.
  rewrite (wb_frame_bpg _ _ (wb_frames _ _ _ _ _ Hw)).
  apply list_filter_ext. intros x Hin.
  apply Forall_cons in Hr as [Hl Hr]. rewrite Forall_forall in Hr.
  unfold ipu_due. rewrite (wb_index _ _ _ _ _ Hw), decide_False; [done|].
  rewrite list_fmap_singleton, list_elem_of_singleton. intros Heq.
  apply ipu_pos_inj in Heq; [|auto..]. by subst.
Qed.

Lemma written_back_cons k k1 k2 sb txid l ls :
  0 < blocks_per_group k < 2 ^ 32 -> Forall (fun x => 0 <= x < 2 ^ 32) (l :: ls) ->
  l ∉ ls -> written_back k sb txid [l] k1 -> written_back k1 sb txid ls k2 ->
  written_back k sb txid (l :: ls) k2.
Proof.
  intros Hb Hr Hn H1 H2. pose proof (due_bhs_after _ _ _ _ txid _ _ Hb Hr Hn H1) as Ed.
  pose proof (wb_frame_bpg _ _ (wb_frames _ _ _ _ _ H1)) as Eb.
  split; try rewrite (due_bhs_cons k sb txid l ls).
  - etrans; [apply H1|apply H2].
  - intros p. rewrite (wb_index _ _ _ _ _ H2), (wb_index _ _ _ _ _ H1), Eb.
    repeat case_decide; set_solver.
  - rewrite (wb_busy _ _ _ _ _ H2), (wb_busy _ _ _ _ _ H1), Ed.
    rewrite list_to_set_app_L. set_solver.
  - destruct (wb_issued _ _ _ _ _ H1) as (e1 & T1 & I1).
    destruct (wb_issued _ _ _ _ _ H2) as (e2 & T2 & I2).
    exists (e1 ++ e2). split; [by rewrite T2, T1, app_assoc|].
    intros s x. rewrite !elem_of_app, I1, I2, Ed, (wb_busy _ _ _ _ _ H1).
    assert (Hdis : (s, x) ∈ due_bhs k sb txid ls -> (s, x) ∉ due_bhs k sb txid [l]).
    { unfold due_bhs. rewrite !list_elem_of_fmap. setoid_rewrite list_elem_of_filter.
      intros (y & [= -> ->] & _ & Hy) (z & [= <-] & _ & Hz). set_solver. }
    set_solver.
Qed.

Lemma commit_blocks_step n o sb txid l bhs k (Q : Z * list (Z * Z) -> kst -> Prop) :
  sb_getblk_total -> blocks_per_group k ≠ 0 -> ipu_unlocked k ->
  (forall k1, written_back k sb txid [l] k1 ->
     runs (commit_blocks n o sb txid (u64 (l + 1)) (bhs ++ due_bhs k sb txid [l])) k1 Q) ->
  runs (commit_blocks (S n) o sb txid l bhs) k Q.
Proof.
  intros Hmem Hb Hu Hnext. cbn [commit_blocks]. rstep. rstep. rstep. apply runs_check.
  { by apply negb_true_iff, Z.eqb_neq. }
  rstep. apply runs_lock_take; [apply Hu|]. rstep. unfold radix_tree_delete. unfold runs at 1.
  rstep. eapply (runs_lock_drop _ (held k)); [done|apply Hu|].
  set (pos := ipu_pos (blocks_per_group k) l) in *.
  change (ipu_tree (k <| held ::= cons (IpuTreeLock pos.1) |>) !! pos) with (ipu_tree k !! pos).
  assert (Hk1 : forall j, j = k <| held ::= cons (IpuTreeLock pos.1) |>
            <| ipu_tree ::= delete pos |> <| held := held k |> ->
            j = k <| ipu_tree ::= delete pos |>) by (intros j ->; by destruct k).
  set (k1 := k <| held ::= _ |> <| ipu_tree ::= _ |> <| held := _ |>).
  pose proof (Hk1 k1 eq_refl) as E1. clearbody k1. clear Hk1. subst k1.
  assert (Hskip : ~ ipu_due (blocks_per_group k) (ipu_tree k) txid l ->
            runs (commit_blocks n o sb txid (u64 (l + 1)) bhs)
              (k <| ipu_tree ::= delete pos |>) Q).
  { intros Hnd. pose proof (Hnext _ (written_back_skip _ sb _ _ Hnd)) as Hr.
    unfold due_bhs in Hr. rewrite filter_cons_False in Hr by done. by rewrite app_nil_r in Hr. }
  destruct (ipu_tree k !! pos) as [e|] eqn:Ee.
  2:{ apply Hskip. intros (e & E & _). unfold pos in *. congruence. }
  destruct (Z.eqb_spec (ipu_txid e) txid) as [Ht|Ht]; simpl negb; cbv iota.
  2:{ apply Hskip. intros (e' & E & ?). unfold pos in *. congruence. }
  assert (Hd : ipu_due (blocks_per_group k) (ipu_tree k) txid l) by (exists e; done).
  pose proof (Hnext _ (written_back_due _ sb _ _ (negb (l =? ipu_lba e)) Hd)) as Hr.
  unfold due_bhs in Hr. rewrite filter_cons_True in Hr by done. simpl fmap in Hr.
  rewrite Hmem. rstep. simpl. rstep. rstep. unfold warn_on.
  destruct (Z.eqb_spec l (ipu_lba e)); simpl negb in *; cbv iota in *;
    [apply runs_ret|apply runs_emit]; rstep; rstep; simpl bh_busy;
    case_bool_decide; case_decide; try done; repeat kstep;
    (match type of Hr with
     | runs _ ?k1 _ => match goal with |- runs _ ?k2 _ => replace k2 with k1; [exact Hr|] end
     end); destruct k; unfold update; simpl in *;
    f_equal; rewrite ?app_nil_r, <- ?app_assoc; set_solver.
Qed.

Lemma commit_blocks_ok n o sb txid l bhs k :
  sb_getblk_total -> 0 < blocks_per_group k < 2 ^ 32 -> ipu_unlocked k ->
  0 <= l -> l + Z.of_nat n <= 2 ^ 32 ->
  runs (commit_blocks n o sb txid l bhs) k (fun r k' =>
    r = (0, bhs ++ due_bhs k sb txid (seqZ l (Z.of_nat n))) /\
    written_back k sb txid (seqZ l (Z.of_nat n)) k').
Proof.
  intros Hmem. revert l bhs k. induction n as [|n IH]; intros l bhs k Hb Hu Hl Hn.
  { simpl. apply runs_ret. split; [by rewrite app_nil_r|apply written_back_nil]. }
  apply commit_blocks_step; [done|lia|done|]. intros k1 H1.
  pose proof (wb_frame_bpg _ _ (wb_frames _ _ _ _ _ H1)) as Eb.
  rewrite wrap_small by (pow2_consts; lia).
  eapply runs_conseq.
  { apply IH; [by rewrite Eb|by eapply wb_frame_unlocked; [apply H1|]|lia..]. }
  intros r k2 [-> H2]. rewrite (seqZ_cons l) by lia.
  replace (Z.succ l) with (l + 1) by lia. replace (Z.pred (Z.of_nat (S n))) with (Z.of_nat n) by lia.
  assert (Hr : Forall (fun x => 0 <= x < 2 ^ 32) (l :: seqZ (l + 1) (Z.of_nat n))).
  { constructor; [lia|]. apply Forall_forall. intros x Hx%elem_of_seqZ. lia. }
  assert (Hnin : l ∉ seqZ (l + 1) (Z.of_nat n)) by (intros Hx%elem_of_seqZ; lia).
  split; [|by eapply written_back_cons].
  rewrite (due_bhs_after _ _ _ _ txid _ _ Hb Hr Hnin H1).
  by rewrite (due_bhs_cons k sb txid l (seqZ (l + 1) (Z.of_nat n))), app_assoc.
Qed.
End writeback.

(** ** The committed transactions of a queue

    A reference for the nested cyclic loops of [commit_write]: read the queue
    from [head] to [flushed] as a list, and cut it into transactions. *)

Definition slot (s : stream) (i : Z) : nvme_rw_command_ :=
  default zero_cmd (ometa_start s !! Z.to_nat i).

Definition entries (s : stream) (i j : Z) : list nvme_rw_command_ :=
  slot s <$> ring_range (nr_ometa s) i j.

(** A transaction: its first entry, the entries in between, its last entry. *)
Fixpoint tx_scan (cur : option (nvme_rw_command_ * list nvme_rw_command_))
    (l : list nvme_rw_command_)
    : list (nvme_rw_command_ * list nvme_rw_command_ * nvme_rw_command_) :=
  match l with
  | [] => []
  | o :: l' =>
      match cur with
      | None => tx_scan (if has_tag o HORAE_TX_BEGIN then Some (o, []) else None) l'
      | Some (b, inner) =>
          if has_tag o HORAE_TX_END then (b, inner, o) :: tx_scan None l'
          else tx_scan (Some (b, inner ++ [o])) l'
      end
  end.

(** What the queue's geometry guarantees. *)
Record ring_ok (s : stream) : Prop := {
  ring_size : 0 < nr_ometa s < 2 ^ 25;
  ring_len : Z.of_nat (length (ometa_start s)) = nr_ometa s;
  ring_head : 0 <= head s < nr_ometa s;
  ring_tail : 0 <= tail s < nr_ometa s;
  ring_flushed : 0 <= flushed s < nr_ometa s;
}.

Lemma stream_ometa_at_slot s i k :
  ring_ok s -> 0 <= i < nr_ometa s -> stream_ometa_at s i k = Ret (slot s i) k.
Proof.
  intros Hok Hi. pose proof (ring_len s Hok).
  destruct (lookup_lt_is_Some_2 (ometa_start s) (Z.to_nat i)) as [o Ho]; [lia|].
  unfold slot. rewrite Ho. apply stream_ometa_at_Ret; [lia|done].
Qed.

Section scan.
Context `{Kernel}.

Definition commit_tx (tx : nvme_rw_command_ * list nvme_rw_command_ * nvme_rw_command_)
    (bhs : list (Z * Z)) : M kst (list (Z * Z)) :=
  let '(b, inner, e) := tx in
  warn_on (negb (txid b =? txid e)) ;;;
  fold_loop (fun o_tmp bhs => commit_one o_tmp (txid e) bhs) inner bhs.

Definition commit_write_ref (sid : Z) : M kst Z :=
  s <-- get_stream sid ;;
  bhs <-- fold_loop commit_tx (tx_scan None (entries s (head s) (flushed s))) [] ;;
  for_each bhs wait_bh ;;;
  ret 0.

Lemma tx_scan_slots s l cur :
  tx_scan (cur_map (slot s) cur) (slot s <$> l) = tx_map (slot s) <$> tx_scan_by (slot s) cur l.
Proof.
  rewrite <- (tx_scan_by_fmap (slot s) (fun o => o)).
  generalize (cur_map (slot s) cur). induction (slot s <$> l) as [|o l' IH]; intros c; [done|].
  simpl. destruct c as [[b is_]|]; [destruct (has_tag o HORAE_TX_END)|]; by rewrite ?IH.
Qed.

Lemma scan_tx_slots s tx bhs k :
  ring_ok s -> Forall (fun i => 0 <= i < nr_ometa s) tx.1.2 ->
  scan_tx (commit_write_inner s) (slot s) tx bhs k = commit_tx (tx_map (slot s) tx) bhs k.
Proof.
  intros Hok Hin. destruct tx as [[b is_] e]. unfold scan_tx, commit_tx, tx_map. simpl in *.
  apply bind_ext; [done|]. intros [] k1.
  apply (fold_loop_fmap (slot s) (fun o a => commit_one o (txid (slot s e)) a)).
  intros i a k2 Hi. rewrite Forall_forall in Hin. unfold commit_write_inner.
  by rewrite (bind_Ret _ _ _ _ _ (stream_ometa_at_slot s i k2 Hok (Hin i Hi))).
Qed.

Lemma tx_scan_by_in {E} (hd : E -> nvme_rw_command_) (P : E -> Prop) cur (l : list E) :
  Forall P l -> (forall b is_, cur = Some (b, is_) -> Forall P is_) ->
  Forall (fun tx => Forall P tx.1.2) (tx_scan_by hd cur l).
Proof.
  intros Hl. revert cur. induction Hl as [|o l Ho Hl IH]; intros cur Hcur; [constructor|].
  simpl. destruct cur as [[b is_]|].
  - specialize (Hcur b is_ eq_refl). destruct (has_tag (hd o) HORAE_TX_END).
    + constructor; [done|]. by apply IH.
    + apply IH. intros ? ? [= <- <-]. apply Forall_app. split; [done|by apply Forall_singleton].
  - apply IH. destruct (has_tag (hd o) HORAE_TX_BEGIN); [|done]. intros ? ? [= <- <-]. constructor.
Qed.

Lemma ring_range_in s i j :
  ring_ok s -> 0 <= i < nr_ometa s -> 0 <= j < nr_ometa s ->
  Forall (fun x => 0 <= x < nr_ometa s) (ring_range (nr_ometa s) i j).
Proof.
  intros Hok Hi Hj. pose proof (ring_size s Hok). apply Forall_forall. intros x Hx.
  apply elem_of_ring_range in Hx as [? _]; [done|lia..].
Qed.

Lemma commit_write_equiv sid k s :
  streams k !! Z.to_nat sid = Some s -> ring_ok s ->
  commit_write sid k = commit_write_ref sid k.
Proof.
  intros Hs Hok. unfold commit_write, commit_write_ref.
  destruct (get_stream sid k) as [s' k1| |] eqn:E; [|by unfold bind; rewrite E..].
  rewrite !(bind_Ret _ _ _ _ _ E).
  apply get_stream_inv in E as (-> & _ & Hs'). simplify_eq.
  pose proof (ring_size s Hok) as Hn. pose proof (ring_head s Hok). pose proof (ring_flushed s Hok).
  assert (CastOk (nr_ometa s) (sext 32))
    by (apply sext_cast_ok; change (2 ^ 31) with 2147483648; change (2 ^ 25) with 33554432 in Hn; lia).
  set (is_ := ring_range (nr_ometa s) (head s) (flushed s)).
  trans (bind (fold_loop (scan_tx (commit_write_inner s) (slot s)) (tx_scan_by (slot s) None is_) [])
           (fun bhs => for_each bhs wait_bh ;;; ret 0) k).
  - unfold bind at 1. rewrite (scan_loop_ref (sext 32) (nr_ometa s) Hn _ _ (slot s)); try done.
    + fold is_. unfold bind at 1. cbn [found with_found begin_idx begin_txid].
      unfold bind at 2. by destruct (fold_loop _ _ _ k).
    + intros i k' Hi. by apply stream_ometa_at_slot.
  - apply bind_ext; [|done]. unfold entries. fold is_.
    change (tx_scan None (slot s <$> is_)) with (tx_scan (cur_map (slot s) None) (slot s <$> is_)).
    rewrite tx_scan_slots. apply fold_loop_fmap. intros tx a k' Htx. apply scan_tx_slots; [done|].
    assert (Hf : Forall (fun tx => Forall (fun x => 0 <= x < nr_ometa s) tx.1.2)
                   (tx_scan_by (slot s) None is_))
      by (apply tx_scan_by_in; [by apply ring_range_in|done]).
    rewrite Forall_forall in Hf. by apply Hf.
Qed.
End scan.

(** ** [commit_write] returns, and clears the index of what it commits *)

(** The blocks of an entry have 32-bit numbers. *)
Definition entry_ok (o : nvme_rw_command_) : Prop :=
  0 <= lba o /\ 0 <= clength o /\ lba o + clength o <= 2 ^ 32.

Definition entry_blocks (o : nvme_rw_command_) : list Z := seqZ (lba o) (clength o).

Section commit.
Context `{Kernel} `{!KernelLaws}.

(** What the write-back needs of the state around it. *)
Record wb_ready (k : kst) : Prop := {
  ready_mem : sb_getblk_total;
  ready_bpg : 0 < blocks_per_group k < 2 ^ 32;
  ready_unlocked : ipu_unlocked k;
}.

Lemma wb_ready_frame k k' : wb_frame k k' -> wb_ready k -> wb_ready k'.
Proof. intros -> []. by split. Qed.

(** The entry is written back: its device is known and no block of it is
    indexed any more. *)
Definition entry_cleared (k k' : kst) (o : nvme_rw_command_) : Prop :=
  plba o ≠ 0 -> is_Some (find_dev (registered_list k) (device_id o)) ->
  forall l, l ∈ entry_blocks o -> ipu_tree k' !! ipu_pos (blocks_per_group k) l = None.

(** A step of the write-back: entries only leave the index. *)
Definition wb_step (k k' : kst) : Prop :=
  wb_frame k k' /\ forall p, ipu_tree k' !! p = None \/ ipu_tree k' !! p = ipu_tree k !! p.

#[global] Instance wb_step_preorder : PreOrder wb_step.
Proof.
  split; [by split; [reflexivity|auto]|].
  intros k1 k2 k3 [F1 I1] [F2 I2]. split; [by etrans|].
  intros p. destruct (I2 p) as [->| ->]; auto.
Qed.

Lemma entry_cleared_step k k1 k2 o :
  entry_cleared k k1 o -> wb_step k1 k2 -> entry_cleared k k2 o.
Proof.
  intros Hc [_ Hs] Hp Hd l Hl. destruct (Hs (ipu_pos (blocks_per_group k) l)) as [->| ->]; auto.
Qed.

Lemma wb_step_trace k f : wb_step k (k <| trace ::= f |>).
Proof. split; [by destruct k|auto]. Qed.

Lemma commit_one_ok o id bhs k :
  wb_ready k -> entry_ok o ->
  runs (commit_one o id bhs) k (fun _ k' => wb_step k k' /\ entry_cleared k k' o).
Proof.
  intros Hk (Hl & Hc & Ho). unfold commit_one. destruct (Z.eqb_spec (plba o) 0).
  { apply runs_ret. split; [reflexivity|]. by intros ?. }
  rstep. unfold get_sb_by_devid. rstep. rstep. destruct (find_dev _ _) as [sb|] eqn:Ef.
  2:{ rstep. kstep. kstep. simpl. rstep. unfold commit_write_entry_per_stream. kstep. kstep.
      split; [apply wb_step_trace|]. intros _ [? E]. congruence. }
  kstep. kstep. unfold commit_write_entry_per_stream. destruct Hk.
  eapply runs_conseq; [apply commit_blocks_ok; [done..|lia]|].
  intros r k' [-> Hw]. kstep. rewrite Z2Nat.id in Hw by lia.
  split; [split; [apply Hw|]|].
  - intros p. rewrite (wb_index _ _ _ _ _ Hw). case_decide; auto.
  - intros _ _ l Hin. rewrite (wb_index _ _ _ _ _ Hw). rewrite decide_True; [done|].
    apply list_elem_of_fmap_2. exact Hin.
Qed.

Lemma fold_step_ok {I A} (body : I -> A -> M kst A) (done_with : kst -> kst -> I -> Prop)
    (good : I -> Prop) l acc k :
  wb_ready k -> Forall good l ->
  (forall i acc k1, wb_step k k1 -> wb_ready k1 -> good i ->
     runs (body i acc) k1 (fun _ k2 => wb_step k1 k2 /\ done_with k k2 i)) ->
  (forall i k1 k2, done_with k k1 i -> wb_step k1 k2 -> done_with k k2 i) ->
  runs (fold_loop body l acc) k (fun _ k' =>
    wb_step k k' /\ forall i, i ∈ l -> done_with k k' i).
Proof.
  intros Hk Hg Hb Hmono.
  apply (runs_fold_loop (fun dn _ k' => wb_step k k' /\ forall i, i ∈ dn -> done_with k k' i)).
  { split; [reflexivity|]. intros i Hi. by apply elem_of_nil in Hi. }
  intros dn i rest acc' k1 -> [Hs Hd]. eapply runs_conseq.
  { apply Hb; [done|by eapply wb_ready_frame; [apply Hs|]|].
    apply Forall_app in Hg as [_ Hg]. by apply Forall_cons in Hg as [? _]. }
  intros _ k2 [Hs2 Hi]. split; [by etrans|]. intros j Hj.
  apply elem_of_app in Hj as [Hj|Hj]; [by eauto|].
  apply list_elem_of_singleton in Hj as ->. done.
Qed.

Definition tx_cleared (k k' : kst)
    (tx : nvme_rw_command_ * list nvme_rw_command_ * nvme_rw_command_) : Prop :=
  forall o, o ∈ tx.1.2 -> entry_cleared k k' o.

Lemma entry_cleared_frame k k1 k2 o :
  wb_frame k k1 -> entry_cleared k1 k2 o -> entry_cleared k k2 o.
Proof. intros -> ?. done. Qed.

Lemma commit_tx_ok tx bhs k :
  wb_ready k -> Forall entry_ok tx.1.2 ->
  runs (commit_tx tx bhs) k (fun _ k' => wb_step k k' /\ tx_cleared k k' tx).
Proof.
  intros Hk Hin. destruct tx as [[b inner] e]. simpl in Hin. unfold commit_tx. rstep.
  assert (Hw : runs (warn_on (negb (txid b =? txid e))) k (fun _ k' => wb_step k k')).
  { unfold warn_on. destruct (negb _); kstep; [apply wb_step_trace|reflexivity]. }
  eapply runs_conseq; [exact Hw|]. intros [] k1 Hs1.
  eapply runs_conseq.
  { apply (fold_step_ok _ (fun k k' o => entry_cleared k k' o) entry_ok).
    - eapply wb_ready_frame; [apply Hs1|done].
    - done.
    - intros o acc k2 [F2 _] Hk2 Ho. eapply runs_conseq; [by apply commit_one_ok|].
      intros _ k3 [? ?]. split; [done|]. by eapply entry_cleared_frame.
    - intros o k2 k3. apply entry_cleared_step. }
  intros _ k2 [Hs2 Hc]. split; [by etrans|]. intros o Ho.
  eapply entry_cleared_frame; [apply Hs1|]. by apply Hc.
Qed.

Lemma tx_scan_inner cur l :
  Forall entry_ok l -> (forall b inner, cur = Some (b, inner) -> Forall entry_ok inner) ->
  Forall (fun tx => Forall entry_ok tx.1.2) (tx_scan cur l).
Proof.
  intros Hl. revert cur. induction Hl as [|o l Ho Hl IH]; intros cur Hcur; [constructor|].
  simpl. destruct cur as [[b inner]|].
  - specialize (Hcur b inner eq_refl). destruct (has_tag o HORAE_TX_END).
    + constructor; [done|]. by apply IH.
    + apply IH. intros ? ? [= <- <-]. apply Forall_app. split; [done|by apply Forall_singleton].
  - apply IH. destruct (has_tag o HORAE_TX_BEGIN); [|done]. intros ? ? [= <- <-]. constructor.
Qed.

Lemma wait_bh_ok b k : runs (wait_bh b) k (fun _ k' => wb_step k k').
Proof.
  unfold wait_bh. kstep. kstep. kstep. kstep. kstep. kstep. kstep; kstep;
    (split; [by destruct k|auto]).
Qed.

Lemma commit_write_ok sid s k :
  0 <= sid < 2 ^ 32 -> streams k !! Z.to_nat sid = Some s -> ring_ok s ->
  Forall entry_ok (entries s (head s) (flushed s)) -> wb_ready k ->
  runs (commit_write sid) k (fun r k' => r = 0 /\ wb_step k k' /\
    forall tx, tx ∈ tx_scan None (entries s (head s) (flushed s)) -> tx_cleared k k' tx).
Proof.
  intros Hsid Hs Hok He Hk. unfold runs. rewrite (commit_write_equiv sid k s Hs Hok).
  change (runs (commit_write_ref sid) k (fun r k' => r = 0 /\ wb_step k k' /\
    forall tx, tx ∈ tx_scan None (entries s (head s) (flushed s)) -> tx_cleared k k' tx)).
  unfold commit_write_ref. rstep. eapply runs_get_stream; [done..|]. rstep.
  eapply runs_conseq.
  { apply (fold_step_ok _ tx_cleared (fun tx => Forall entry_ok tx.1.2)); [done| | |].
    - by apply tx_scan_inner.
    - intros tx acc k1 [F _] Hk1 Hg. eapply runs_conseq; [by apply commit_tx_ok|].
      intros _ k2 [? Hc]. split; [done|]. intros o Ho. eapply entry_cleared_frame; [done|auto].
    - intros tx k1 k2 Hc Hs12 o Ho. eapply entry_cleared_step; [by apply Hc|done]. }
  intros bhs k1 [Hs1 Hc]. rstep.
  eapply runs_conseq.
  { apply (runs_for_each (fun _ k' => wb_step k1 k')); [reflexivity|].
    intros dn b rest k2 _ Hs2. eapply runs_conseq; [apply wait_bh_ok|].
    intros [] k3 Hs3. by etrans. }
  intros [] k2 Hs2. kstep. split; [done|]. split; [by etrans|].
  intros tx Htx o Ho. eapply entry_cleared_step; [by apply (Hc tx Htx o)|done].
Qed.
End commit.
