(* ===== verification/JournalFacts.v ===== *)
(** * Invariant of a stream; journal allocation and checkpoint *)

From S2P Require Import Prelude Ring Horae Checkpoint CheckpointFacts.

(** ** The invariant *)

(** The abstract log, and the part of it a device flush has covered. *)
Definition log (s : stream) : list nvme_rw_command_ := entries s (head s) (tail s).
Definition flushed_log (s : stream) : list nvme_rw_command_ := entries s (head s) (flushed s).

Record stream_ok (s : stream) : Prop := {
  so_ring : ring_ok s;
  so_entries : Forall entry_ok (log s);
  so_watermark : tail_watermark s = tail s;
  so_flushed : (flushed s - head s) mod nr_ometa s <= (tail s - head s) mod nr_ometa s;
  so_doorbell : 0 <= last_queue_flushed s < nr_ometa s;
  so_journal : 0 <= off_in_journal s <= j_write_ptr s /\
               j_write_ptr s <= off_in_journal s + nr_journal_block s < 2 ^ 32;
}.

Lemma log_split s :
  stream_ok s -> log s = flushed_log s ++ entries s (flushed s) (tail s).
Proof.
  intros Hok. destruct (so_ring s Hok) as [Hn _ Hh Ht Hf].
  unfold log, flushed_log, entries. rewrite <- fmap_app. f_equal.
  apply ring_range_split; try done; [lia|apply Hok].
Qed.

Lemma log_flushed_ok s : stream_ok s -> Forall entry_ok (entries s (head s) (flushed s)).
Proof.
  intros Hok. pose proof (so_entries s Hok) as He. rewrite (log_split s Hok) in He.
  by apply Forall_app in He as [? _].
Qed.

Lemma log_rest_ok s : stream_ok s -> Forall entry_ok (entries s (flushed s) (tail s)).
Proof.
  intros Hok. pose proof (so_entries s Hok) as He. rewrite (log_split s Hok) in He.
  by apply Forall_app in He as [_ ?].
Qed.

(** ** What an operation on stream [sid] leaves alone *)

Definition op_frame (sid : Z) (k k' : kst) : Prop :=
  k' = k <| streams := streams k' |> <| ipu_tree := ipu_tree k' |> <| bh_busy := bh_busy k' |>
         <| trace := trace k' |> /\
  forall i, i ≠ Z.to_nat sid -> streams k' !! i = streams k !! i.

#[export] Instance op_frame_preorder sid : PreOrder (op_frame sid).
Proof.
  split; [intros k; by destruct k|].
  intros k1 k2 k3 (E1 & S1) (E2 & S2). split; [rewrite E2, E1; done|].
  intros i Hi. by rewrite S2, S1.
Qed.

Lemma wb_op_frame sid k k' : wb_frame k k' -> op_frame sid k k'.
Proof. unfold op_frame. intros ->. by destruct k. Qed.

Lemma upd_op_frame sid k s : op_frame sid k (k <| streams ::= <[Z.to_nat sid := s]> |>).
Proof.
  split; [by destruct k|]. intros i Hi. simpl. by rewrite list_lookup_insert_ne.
Qed.

Lemma op_frame_held sid k k' : op_frame sid k k' -> held k' = held k.
Proof. by intros [-> _]. Qed.

Lemma op_frame_ci sid k k' : op_frame sid k k' -> ci k' = ci k.
Proof. by intros [-> _]. Qed.

Lemma insert_stream_lookup k (s s' : stream) sid :
  streams k !! Z.to_nat sid = Some s -> <[Z.to_nat sid := s']> (streams k) !! Z.to_nat sid = Some s'.
Proof. intros Hs. apply list_lookup_insert_eq. by eapply lookup_lt_Some. Qed.

(** A state that may only differ in a lock being taken. *)
Lemma op_frame_locked sid k k' l :
  op_frame sid (k <| held ::= cons l |>) k' -> op_frame sid k (k' <| held := held k |>).
Proof.
  intros (E & S'). simpl in S'. split; [|exact S'].
  rewrite E at 1. by destruct k.
Qed.

Section journal.
Context `{Kernel} `{!KernelLaws}.

Lemma wb_ready_op sid k k' : op_frame sid k k' -> wb_ready k -> wb_ready k'.
Proof. intros [-> _] []. by split. Qed.

Lemma wb_ready_locked k l :
  (forall i, l ≠ IpuTreeLock i) -> wb_ready k -> wb_ready (k <| held ::= cons l |>).
Proof.
  intros Hl [? ? Hu]. split; [done..|]. intros i Hi. simpl in Hi.
  apply elem_of_cons in Hi as [?|Hi]; [by apply (Hl i)|]. by apply (Hu i).
Qed.

Definition reclaimed (s : stream) : stream :=
  s <| head := flushed s |> <| j_write_ptr := off_in_journal s |>.

Lemma reclaimed_ok s : stream_ok s -> stream_ok (reclaimed s).
Proof.
  intros Hok. pose proof (log_rest_ok s Hok) as Hl. destruct Hok as [[? ? ? ? ?] ? ? ? ? ?].
  repeat split; simpl; try done; try lia.
  rewrite Z.sub_diag, Zmod_0_l. apply Z.mod_pos_bound. lia.
Qed.

(** ** Reclaiming the journal: every committed transaction of the queue is
    written back first *)
Lemma journal_reclaim_ok sid s k :
  0 <= sid < 2 ^ 32 -> streams k !! Z.to_nat sid = Some s -> stream_ok s -> wb_ready k ->
  runs (journal_reclaim sid) k (fun _ k' =>
    op_frame sid k k' /\ streams k' !! Z.to_nat sid = Some (reclaimed s) /\
    forall tx, tx ∈ tx_scan None (entries s (head s) (flushed s)) -> tx_cleared k k' tx).
Proof.
  intros Hsid Hs Hok Hk. unfold journal_reclaim. rstep.
  eapply runs_conseq; [apply (commit_write_ok sid s k); try done; [apply Hok|by apply log_flushed_ok]|].
  intros r k1 (-> & [F1 _] & Hc).
  assert (Hs1 : streams k1 !! Z.to_nat sid = Some s) by by rewrite (wb_frame_streams _ _ F1).
  eapply runs_upd_stream; [done..|]. split; [|split].
  - etrans; [by apply wb_op_frame|apply upd_op_frame].
  - simpl. by eapply insert_stream_lookup.
  - intros tx Htx o Ho. exact (Hc tx Htx o Ho).
Qed.

(** ** Allocation *)

(** The stream after [nr] blocks were allocated from [ptr]. *)
Definition allocated (s : stream) (ptr nr : Z) : stream := s <| j_write_ptr := ptr + nr |>.

(** The end of the critical section: bump the pointer, release the lock. *)
Lemma journal_bump_ok sid k kl k1 s1 nr (Q : Z -> kst -> Prop) :
  0 <= sid < 2 ^ 32 -> JournalLock sid ∉ held k ->
  kl = k <| held ::= cons (JournalLock sid) |> ->
  op_frame sid kl k1 -> streams k1 !! Z.to_nat sid = Some s1 ->
  0 <= j_write_ptr s1 + nr < 2 ^ 32 ->
  (forall k', op_frame sid k k' -> ipu_tree k' = ipu_tree k1 ->
     streams k' !! Z.to_nat sid = Some (allocated s1 (j_write_ptr s1) nr) ->
     Q (j_write_ptr s1) k') ->
  runs (s2 <-- get_stream sid ;;
        let current_pwrite_ptr := j_write_ptr s2 in
        upd_stream sid (fun s => s <| j_write_ptr ::= fun p => u64 (p + nr) |>) ;;;
        lock_drop (JournalLock sid) ;;;
        ret current_pwrite_ptr) k1 Q.
Proof.
  intros Hsid Hl -> F1 Hs1 Hp HQ. rstep. eapply runs_get_stream; [done..|]. cbv zeta. rstep.
  eapply runs_upd_stream; [done..|]. rstep.
  eapply (runs_lock_drop _ (held k)); [simpl; by rewrite (op_frame_held _ _ _ F1)|done|].
  kstep. apply HQ.
  - destruct F1 as (E1 & S1). split.
    + rewrite E1. by destruct k.
    + intros i Hi. simpl. rewrite list_lookup_insert_ne by done. by rewrite S1.
  - done.
  - simpl. erewrite insert_stream_lookup by done. unfold allocated, update. simpl.
    rewrite wrap_small by (pow2_consts; lia). done.
Qed.

Lemma journal_reserve_ok sid s k nr :
  0 <= sid < 2 ^ 32 -> streams k !! Z.to_nat sid = Some s -> stream_ok s -> wb_ready k ->
  JournalLock sid ∉ held k -> 0 <= nr <= nr_journal_block s ->
  runs (journal_reserve sid nr) k (fun ptr k' =>
    op_frame sid k k' /\
    (if off_in_journal s + nr_journal_block s <? nr + j_write_ptr s
     then ptr = off_in_journal s /\
          streams k' !! Z.to_nat sid = Some (allocated (reclaimed s) ptr nr) /\
          forall tx, tx ∈ tx_scan None (entries s (head s) (flushed s)) -> tx_cleared k k' tx
     else ptr = j_write_ptr s /\
          streams k' !! Z.to_nat sid = Some (allocated s ptr nr))).
Proof.
  intros Hsid Hs Hok Hk Hl Hnr. pose proof (so_journal s Hok) as [Hj1 Hj2].
  unfold journal_reserve. rstep. eapply runs_get_stream; [done..|]. rstep.
  apply runs_lock_take; [done|]. rstep.
  rewrite (wrap_small 32), (wrap_small 64 (nr + _)) by (pow2_consts; lia).
  destruct (Z.ltb_spec (off_in_journal s + nr_journal_block s) (nr + j_write_ptr s)).
  - eapply runs_conseq.
    { eapply (journal_reclaim_ok sid s); [done..|]. by apply wb_ready_locked. }
    intros [] k1 (F1 & Hs1 & Hc).
    eapply journal_bump_ok; [done..|simpl; lia|]. intros k' F' Ei Hs'.
    split; [done|]. split; [done|]. split; [done|].
    intros tx Htx o Ho Hp Hd l Hin. rewrite Ei. exact (Hc tx Htx o Ho Hp Hd l Hin).
  - kstep. eapply journal_bump_ok; [done..|reflexivity|done|lia|]. done.
Qed.

(** The allocated blocks are the stream's own, and the invariant holds. *)
Lemma allocated_ok s ptr nr :
  stream_ok s -> off_in_journal s <= ptr -> 0 <= nr ->
  ptr + nr <= off_in_journal s + nr_journal_block s -> stream_ok (allocated s ptr nr).
Proof. intros [[? ? ? ? ?] ? ? ? ? ?] ? ? ?. repeat split; simpl; try done; lia. Qed.

(** Summary of the two cases of [journal_reserve]. *)
Definition reserve_post (s : stream) (nr ptr : Z) (s' : stream) : Prop :=
  stream_ok s' /\ off_in_journal s <= ptr /\ ptr + nr <= off_in_journal s + nr_journal_block s /\
  j_write_ptr s' = ptr + nr /\ tail s' = tail s /\ ometa_start s' = ometa_start s /\
  (s' = allocated s (j_write_ptr s) nr /\ ptr = j_write_ptr s \/
   s' = allocated (reclaimed s) (off_in_journal s) nr /\ ptr = off_in_journal s).

Lemma journal_reserve_post sid s k nr :
  0 <= sid < 2 ^ 32 -> streams k !! Z.to_nat sid = Some s -> stream_ok s -> wb_ready k ->
  JournalLock sid ∉ held k -> 0 <= nr <= nr_journal_block s ->
  runs (journal_reserve sid nr) k (fun ptr k' =>
    op_frame sid k k' /\ exists s', streams k' !! Z.to_nat sid = Some s' /\ reserve_post s nr ptr s').
Proof.
  intros Hsid Hs Hok Hk Hl Hnr. pose proof (so_journal s Hok) as [Hj1 Hj2].
  eapply runs_conseq; [by eapply journal_reserve_ok|]. intros ptr k' [F Hif]. split; [done|].
  destruct (Z.ltb_spec (off_in_journal s + nr_journal_block s) (nr + j_write_ptr s)).
  - destruct Hif as (-> & Hs' & _). exists (allocated (reclaimed s) (off_in_journal s) nr).
    split; [done|]. unfold reserve_post. simpl.
    assert (stream_ok (allocated (reclaimed s) (off_in_journal s) nr))
      by (apply allocated_ok; [by apply reclaimed_ok|simpl; lia..]).
    split_and!; try done; try lia. by right.
  - destruct Hif as (-> & Hs'). exists (allocated s (j_write_ptr s) nr).
    split; [done|]. unfold reserve_post. simpl.
    assert (stream_ok (allocated s (j_write_ptr s) nr)) by (apply allocated_ok; [done|simpl; lia..]).
    split_and!; try done; try lia. by left.
Qed.

(** ** The index after a journal write *)

(** The entry a block has after [fresh] was offered for it: the newer wins. *)
Definition newer (old : option ipu_entry) (fresh : ipu_entry) : ipu_entry :=
  match old with
  | Some e => if ipu_txid e <? ipu_txid fresh then fresh else e
  | None => fresh
  end.

Lemma index_block_ok sid s ptr vecs l i k :
  0 <= sid < 2 ^ 32 -> streams k !! Z.to_nat sid = Some s -> wb_ready k ->
  (version_consistency k = false -> is_Some (vecs !! Z.to_nat i)) ->
  runs (index_block sid ptr vecs l i) k (fun _ k' => wb_frame k k' /\
    ipu_tree k' = <[ipu_pos (blocks_per_group k) l :=
       newer (ipu_tree k !! ipu_pos (blocks_per_group k) l)
             (mk_ipu (u32 l) (u32 (JOURNAL_REGION_START + ptr + i)) (last_txid s))]> (ipu_tree k)).
Proof.
  intros Hsid Hs [_ Hb Hu] Hv. unfold index_block. rstep. rstep. rstep.
  apply runs_check; [by apply negb_true_iff, Z.eqb_neq; lia|]. rstep.
  eapply runs_get_stream; [done..|]. cbv zeta. rstep.
  apply runs_lock_take; [apply Hu|]. rstep. unfold radix_tree_lookup. rstep. rstep.
  set (pos := ipu_pos (blocks_per_group k) l).
  set (fresh := mk_ipu (u32 l) (u32 (JOURNAL_REGION_START + ptr + i)) (last_txid s)).
  change (ipu_tree (k <| held ::= cons (IpuTreeLock pos.1) |>) !! pos) with (ipu_tree k !! pos).
  assert (Hend : forall tr k1, k1 = k <| held ::= cons (IpuTreeLock pos.1) |>
              <| ipu_tree := <[pos := newer (ipu_tree k !! pos) fresh]> (ipu_tree k) |>
              <| trace := tr |> ->
            runs (lock_drop (IpuTreeLock pos.1)) k1 (fun _ k' => wb_frame k k' /\
              ipu_tree k' = <[pos := newer (ipu_tree k !! pos) fresh]> (ipu_tree k))).
  { intros tr k1 ->. apply (runs_lock_drop _ (held k)); [done|apply Hu|].
    split; [by destruct k|done]. }
  destruct (ipu_tree k !! pos) as [e|] eqn:Ee; simpl newer in *.
  - simpl. destruct (Z.ltb_spec (ipu_txid e) (last_txid s)).
    + unfold radix_tree_insert. kstep. apply (Hend (trace k)). by destruct k.
    + kstep. apply (Hend (trace k)). rewrite insert_id by done. by destruct k.
  - unfold radix_tree_insert. rstep. kstep. rstep. kstep. simpl version_consistency.
    destruct (version_consistency k) eqn:Ev; simpl negb; cbv iota.
    + kstep. apply (Hend (trace k)). by destruct k.
    + destruct (Hv eq_refl) as [v ->]. kstep. eapply Hend. by destruct k.
Qed.

Record indexed (k : kst) (l ptr id : Z) (is_ : list Z) (k' : kst) : Prop := {
  ix_frame : wb_frame k k';
  ix_new : forall i, i ∈ is_ -> ipu_tree k' !! ipu_pos (blocks_per_group k) (l + i) =
    Some (newer (ipu_tree k !! ipu_pos (blocks_per_group k) (l + i)) (mk_ipu (l + i) (ptr + i) id));
  ix_old : forall p, p ∉ (fun i => ipu_pos (blocks_per_group k) (l + i)) <$> is_ ->
    ipu_tree k' !! p = ipu_tree k !! p;
}.

Lemma index_blocks_ok sid s ptr vecs l nr k :
  0 <= sid < 2 ^ 32 -> streams k !! Z.to_nat sid = Some s -> wb_ready k ->
  nr <= Z.of_nat (length vecs) -> 0 <= l -> l + nr <= 2 ^ 32 -> 0 <= ptr -> ptr + nr < 2 ^ 32 ->
  runs (index_blocks sid ptr vecs l nr) k (fun _ k' => indexed k l ptr (last_txid s) (seqZ 0 nr) k').
Proof.
  intros Hsid Hs Hk Hv Hl Hn Hp Hpn. unfold index_blocks.
  apply (runs_for_each (fun dn k' => indexed k l ptr (last_txid s) dn k')).
  { split; [reflexivity|intros i Hi; by apply elem_of_nil in Hi|done]. }
  intros dn i rest k1 Hsplit [F Hnew Hold].
  assert (Hi : 0 <= i < nr).
  { apply (elem_of_seqZ 0 nr). rewrite Hsplit. apply elem_of_app. right. left. }
  assert (Hdn : forall j, j ∈ dn -> 0 <= j < nr /\ j ≠ i).
  { intros j Hj. split.
    - apply (elem_of_seqZ 0 nr). rewrite Hsplit. apply elem_of_app. by left.
    - intros ->. pose proof (NoDup_seqZ 0 nr) as Hnd. rewrite Hsplit in Hnd.
      apply NoDup_app in Hnd as (_ & Hnd & _). apply (Hnd i Hj). left. }
  rewrite wrap_small by (pow2_consts; lia).
  eapply runs_conseq.
  { apply (index_block_ok sid s); [done|by rewrite (wb_frame_streams _ _ F)| |].
    - by eapply wb_ready_frame.
    - intros _. apply lookup_lt_is_Some_2. lia. }
  intros [] k2 [F2 E2]. rewrite (wb_frame_bpg _ _ F) in E2.
  unfold JOURNAL_REGION_START in E2.
  rewrite (wrap_small 32 (l + i)), (wrap_small 32 (0 + ptr + i)) in E2 by (pow2_consts; lia).
  rewrite Z.add_0_l in E2. pose proof (ready_bpg _ Hk).
  assert (Hne : forall j, j ∈ dn -> ipu_pos (blocks_per_group k) (l + i) ≠ ipu_pos (blocks_per_group k) (l + j)).
  { intros j Hj Heq. destruct (Hdn j Hj). apply ipu_pos_inj in Heq; lia. }
  split.
  - by etrans.
  - intros j Hj. rewrite E2. apply elem_of_app in Hj as [Hj|Hj].
    + rewrite lookup_insert_ne by auto. auto.
    + apply list_elem_of_singleton in Hj as ->. rewrite lookup_insert_eq. rewrite Hold; [done|].
      intros (j & E & Hj)%list_elem_of_fmap. by apply (Hne j).
  - intros p Hpn'. rewrite E2. rewrite fmap_app in Hpn'. rewrite lookup_insert_ne by set_solver.
    apply Hold. set_solver.
Qed.

Lemma journal_write_alloc_ok sid s k b :
  0 <= sid < 2 ^ 32 -> streams k !! Z.to_nat sid = Some s -> stream_ok s -> wb_ready k ->
  JournalLock sid ∉ held k -> 0 <= bi_sector b -> 0 <= bi_size b < 2 ^ 32 ->
  horae_get_secs b <= nr_journal_block s ->
  horae_get_secs b <= Z.of_nat (length (bi_io_vec b)) ->
  horae_get_lba b + horae_get_secs b <= 2 ^ 32 ->
  runs (journal_write_alloc sid b) k (fun r k' =>
    op_frame sid k k' /\
    exists s' ptr k1, streams k' !! Z.to_nat sid = Some s' /\
      reserve_post s (horae_get_secs b) ptr s' /\
      r = (ptr, to_journal (cp_dev k) ptr b) /\
      op_frame sid k k1 /\
      indexed k1 (horae_get_lba b) ptr (last_txid s) (seqZ 0 (horae_get_secs b)) k').
Proof.
  intros Hsid Hs Hok Hk Hl Hb1 Hb2 Hnr Hv Hlba.
  assert (Hsecs : 0 <= horae_get_secs b) by apply (wrap_range 32 (bi_size b / 4096) ltac:(lia)).
  assert (Hl0 : 0 <= horae_get_lba b) by (apply Z.div_pos; lia).
  unfold journal_write_alloc. rstep. eapply runs_get_stream; [done..|]. cbv zeta.
  destruct (Z.ltb_spec (nr_journal_block s) (horae_get_secs b)); [lia|].
  rstep. eapply runs_conseq; [by apply (journal_reserve_post sid s)|].
  intros ptr k1 (F1 & s' & Hs' & Hpost). pose proof Hpost as (Hok' & Hp1 & Hp2 & Hp3 & _ & _ & Hcase).
  pose proof (so_journal s Hok) as [? ?].
  assert (Hid : last_txid s' = last_txid s) by (destruct Hcase as [[-> _]|[-> _]]; done).
  rstep. eapply runs_conseq.
  { apply (index_blocks_ok sid s' ptr _ (horae_get_lba b) (horae_get_secs b) k1); try done; try lia.
    by eapply wb_ready_op. }
  intros [] k2 Hix. rstep. kstep. kstep. split.
  - etrans; [done|]. apply wb_op_frame, Hix.
  - exists s', ptr, k1. split_and!; try done.
    + by rewrite (wb_frame_streams _ _ (ix_frame _ _ _ _ _ _ Hix)).
    + unfold JOURNAL_REGION_START. rewrite Z.add_0_l, wrap_small by (pow2_consts; lia).
      rewrite (ix_frame _ _ _ _ _ _ Hix). simpl. by rewrite (proj1 F1).
    + by rewrite <- Hid.
Qed.

(** ** Making room *)

(** The stream after the fallback that drops the whole queue. *)
Definition swapped (s : stream) : stream := s <| head := tail s |> <| flushed := tail s |>.

Lemma swapped_ok s : stream_ok s -> stream_ok (swapped s).
Proof.
  intros [[? ? ? ? ?] ? ? ? ? ?]. repeat split; simpl; try done; try lia.
  unfold log, entries. simpl. by rewrite ring_range_nil.
Qed.

Lemma ring_space_le s n :
  ring_ok s -> n <= horae_ring_space (head s) (tail s) (nr_ometa s) <->
  n + (tail s - head s) mod nr_ometa s <= nr_ometa s - 1.
Proof.
  intros [[? Hn] ? ? ? ?]. change (2 ^ 25) with 33554432 in Hn.
  rewrite horae_ring_space_spec; [lia|lia|change (2 ^ 63) with 9223372036854775808; lia|lia..].
Qed.

Lemma truncate_ok sid s k :
  0 <= sid < 2 ^ 32 -> streams k !! Z.to_nat sid = Some s -> stream_ok s -> wb_ready k ->
  JournalLock sid ∉ held k ->
  runs (truncate_ordering_log sid) k (fun r k' => r = 0 /\ op_frame sid k k' /\
    streams k' !! Z.to_nat sid =
      Some (if decide (head s = flushed s) then s else reclaimed s)).
Proof.
  intros Hsid Hs Hok Hk Hl. unfold truncate_ordering_log. rstep.
  eapply runs_get_stream; [done..|]. destruct (Z.eqb_spec (head s) (flushed s)).
  { kstep. rewrite decide_True by done. split_and!; [done|reflexivity|done]. }
  rewrite decide_False by done. rstep. apply runs_lock_take; [done|]. rstep.
  eapply runs_conseq.
  { eapply (journal_reclaim_ok sid s); [done..|]. by apply wb_ready_locked. }
  intros [] k1 (F1 & Hs1 & _). rstep.
  eapply (runs_lock_drop _ (held k)); [by rewrite (op_frame_held _ _ _ F1)|done|].
  kstep. split_and!; [done| |done]. by apply (op_frame_locked _ _ _ (JournalLock sid)).
Qed.

Lemma write_checkpoint_ok sid s k :
  0 <= sid < 2 ^ 32 -> streams k !! Z.to_nat sid = Some s -> ring_ok s ->
  runs (write_checkpoint sid) k (fun r k' => exists b,
    r = 0 /\ k' = k <| trace ::= (.++ [SubmitBioWait b]) |>).
Proof.
  intros Hsid Hs [? ? ? ? ?]. unfold write_checkpoint. rstep. eapply runs_get_stream; [done..|].
  rstep. apply runs_check; [by apply negb_true_iff, Z.eqb_neq; lia|].
  rstep. rstep. rstep. rstep. cbv zeta. rstep. kstep. kstep. by eexists.
Qed.

Definition checkpointed (s s' : stream) : Prop :=
  s' = s \/ s' = reclaimed s \/ s' = swapped s \/ s' = swapped (reclaimed s).

Lemma checkpointed_ok s s' : stream_ok s -> checkpointed s s' -> stream_ok s'.
Proof. intros ? [->|[->|[->| ->]]]; auto using reclaimed_ok, swapped_ok. Qed.

Lemma stream_do_checkpoint_ok sid s k nr :
  0 <= sid < 2 ^ 32 -> streams k !! Z.to_nat sid = Some s -> stream_ok s -> wb_ready k ->
  JournalLock sid ∉ held k -> CpRwsem sid ∉ held k -> nr <= nr_ometa s - 1 ->
  runs (stream_do_checkpoint sid nr) k (fun r k' => r = 0 /\ op_frame sid k k' /\
    exists s', streams k' !! Z.to_nat sid = Some s' /\ checkpointed s s' /\
      nr <= horae_ring_space (head s') (tail s') (nr_ometa s')).
Proof.
  intros Hsid Hs Hok Hk Hl Hc Hnr. pose proof (so_ring s Hok) as Hr.
  unfold stream_do_checkpoint. rstep. apply runs_lock_take; [done|]. rstep.
  eapply runs_get_stream; [done..|]. rstep.
  apply runs_check; [apply negb_true_iff, Z.eqb_neq; pose proof (ring_size s Hr); lia|].
  destruct (Z.leb_spec nr (horae_ring_space (head s) (tail s) (nr_ometa s))) as [Hsp|Hsp].
  { rstep. apply (runs_lock_drop _ (held k)); [done..|]. kstep.
    split_and!; [done|by destruct k|]. exists s. split_and!; [done|by left|done]. }
  rstep. eapply runs_conseq.
  { apply (truncate_ok sid s); try done; [by apply wb_ready_locked|].
    simpl. apply not_elem_of_cons. by split. }
  intros r k1 (_ & F1 & Hs1). set (s1 := if decide _ then s else reclaimed s) in *.
  assert (Hs1' : s1 = s \/ s1 = reclaimed s) by (unfold s1; case_decide; auto).
  assert (Hok1 : stream_ok s1) by (destruct Hs1' as [->| ->]; auto using reclaimed_ok).
  assert (Hh1 : held k1 = CpRwsem sid :: held k) by by rewrite (op_frame_held _ _ _ F1).
  rstep. eapply runs_get_stream; [done..|].
  destruct (Z.leb_spec nr (horae_ring_space (head s1) (tail s1) (nr_ometa s1))).
  { rstep. apply (runs_lock_drop _ (held k)); [done..|]. kstep.
    split_and!; [done|by apply (op_frame_locked _ _ _ (CpRwsem sid))|]. exists s1. split_and!; [done| |done].
    destruct Hs1' as [->| ->]; [by left|by right; left]. }
  rstep. eapply runs_conseq; [by apply (write_checkpoint_ok sid s1), Hok1|].
  intros r2 k2 (b & -> & ->). rstep. eapply runs_upd_stream; [done..|]. rstep.
  apply (runs_lock_drop _ (held k)); [done..|]. kstep. split_and!; [done| |].
  - apply (op_frame_locked _ _ _ (CpRwsem sid)). etrans; [exact F1|].
    etrans; [apply (wb_op_frame sid k1 (k1 <| trace ::= (.++ [SubmitBioWait b]) |>)); by destruct k1|].
    apply upd_op_frame.
  - exists (swapped s1). split_and!.
    + simpl. by eapply insert_stream_lookup.
    + destruct Hs1' as [->| ->]; [by right; right; left|by right; right; right].
    + apply ring_space_le; [by apply swapped_ok|]. simpl. rewrite Z.sub_diag, Zmod_0_l.
      assert (nr_ometa s1 = nr_ometa s) by (destruct Hs1' as [->| ->]; done). lia.
Qed.
End journal.
