(* ===== verification/Stream.v ===== *)
(** * The submission path (ccnvme/horae.c, bh2bio of ccnvme/submitter.c)

    Reserving a slot of a stream's queue, filling it, ringing the doorbell of
    a transaction, and the entry points of the file system.  The build of
    ccnvme/Makefile is modelled: USE_CMB is defined; ENABLE_BG_SUBMITTER,
    DISABLE_TX_DOORBELL, DISABLE_MQ_JOURNAL and OLAYER_ANALYSIS are not.

    A stream is used by one task at a time (mqfs takes [stream_lock] around
    it), so the functions are sequential; the lock-free protocol itself is
    treated in Submitter.v. *)

From S2P Require Import Prelude Ring Horae Scan Cmb Checkpoint.

Section stream.
Context `{Kernel}.

(** ** One entry *)

(** The [do .. while (cmpxchg ..)] loop with its [goto retry]. *)
Fixpoint reserve_slot (fuel : nat) (sid nr_entries : Z) : M kst (Z * Z) :=
  match fuel with
  | O => stall
  | S fuel =>
      s <-- get_stream sid ;;
      check (negb (nr_ometa s =? 0)) DivByZero ;;;
      let tail_old := u32 (tail_watermark s) in
      if horae_ring_space (head s) tail_old (nr_ometa s) <? nr_entries then
        _ <-- stream_do_checkpoint sid nr_entries ;;
        reserve_slot fuel sid nr_entries
      else
        let tail_new := u32 (u32 (tail_old + nr_entries) mod nr_ometa s) in
        if tail_watermark s =? tail_old then
          upd_stream sid (fun s => s <| tail_watermark := tail_new |>) ;;;
          ret (tail_old, tail_new)
        else reserve_slot fuel sid nr_entries
  end.

(** [while (cmpxchg(&stream->tail, tail_old, tail_new) != tail_old);] with no
    other task to move [tail]. *)
Definition publish_tail (sid tail_old tail_new : Z) : M kst unit :=
  s <-- get_stream sid ;;
  if tail s =? tail_old then upd_stream sid (fun s => s <| tail := tail_new |>)
  else stall.

Definition fill_ometa (lba_ nr_pages dev plba_ tag_ : Z) (o : nvme_rw_command_)
    : nvme_rw_command_ :=
  o <| device_id := wrap CMB_DEVICE_ID_BITS dev |> <| lba := u64 lba_ |>
    <| clength := u16 nr_pages |> <| plba := u32 plba_ |> <| tag := wrap 3 tag_ |>.

(** Two turns of the loop are enough: the first may find the queue full. *)
Definition retry_fuel : nat := 2.

Definition stream_submit_bio_core (sid lba_ nr_pages dev plba_ flags : Z) : M kst Z :=
  unpack (tail_old, tail_new) <-- reserve_slot retry_fuel sid 1 ;;
  s <-- get_stream sid ;;
  let begins := (flags =? HORAE_TX) && negb (committed s =? 0) in
  let tag_ := if begins then Z.shiftl 1 HORAE_TX_BEGIN else Z.shiftl 1 flags in
  set_ometa sid tail_old (fill_ometa lba_ nr_pages dev plba_ tag_) ;;;
  (if begins then upd_stream sid (fun s => s <| committed := 0 |>) else ret tt) ;;;
  copy_from_buff_to_dev sid (tail_old * sizeof_cmd) sizeof_cmd ;;;
  publish_tail sid tail_old tail_new ;;;
  ret tail_old.

(** ** The doorbell of a transaction *)

Definition stream_tx_commit_core (sid : Z) : M kst Z :=
  s <-- get_stream sid ;;
  check (negb (nr_ometa s =? 0)) DivByZero ;;;
  let nr_q_entries := u32 (horae_count (last_queue_flushed s) (tail s) (nr_ometa s)) in
  set_ometa sid (u32 (tail s)) (fun o => o <| tag := wrap 3 (Z.shiftl 1 HORAE_TX_END) |>) ;;;
  upd_stream sid (fun s => s <| committed := 1 |>) ;;;
  cmb_flush sid (u32 (last_queue_flushed s * sizeof_cmd)) (sizeof_cmd * nr_q_entries) ;;;
  writel (u32 (tail s)) 0 ;;;
  cmb_flush sid 0 8 ;;;
  upd_stream sid (fun s => s <| last_queue_flushed := tail s |>) ;;;
  ret 0.

Definition stream_commit_tx (sid : Z) : M kst Z :=
  r <-- stream_tx_commit_core sid ;;
  ret (if 0 <=? r then 0 else -1).

(** ** bios of buffers (submitter.c) *)

Definition disk_get_part (disk partno : Z) : option Z :=
  if (partno <? 0) || (Z.of_nat (length (part_tbl disk)) <=? partno) then None
  else mjoin (part_tbl disk !! Z.to_nat partno).

(** Truncates the last segment of a bio that straddles the end of the
    device; the second result is the range [zero_user] clears. *)
Definition guard_bio_eod (op : Z) (b : bio) : bio * option (Z * Z * Z) :=
  let maxsector := default (get_capacity (bi_disk b)) (disk_get_part (bi_disk b) (bi_partno b)) in
  if maxsector =? 0 then (b, None)
  else if maxsector <=? bi_sector b then (b, None)
  else
    let left := maxsector - bi_sector b in
    if Z.shiftr (bi_size b) 9 <=? left then (b, None)
    else
      let truncated_bytes := u32 (bi_size b - Z.shiftl left 9) in
      let cut v := v <| bv_len ::= fun x => u32 (x - truncated_bytes) |> in
      let vecs := match last (bi_io_vec b) with
                  | Some v => removelast (bi_io_vec b) ++ [cut v]
                  | None => []
                  end in
      let b' := b <| bi_size ::= fun x => u32 (x - truncated_bytes) |> <| bi_io_vec := vecs |> in
      (b', if op =? REQ_OP_READ
           then (fun v => (bv_page v, bv_offset v + bv_len v, truncated_bytes)) <$> last vecs
           else None).

Definition bh2bio (op op_flags : Z) (bh : buffer_head) : M kst (bio * buffer_head) :=
  check (bh_locked bh) BugOn ;;;
  check (bh_mapped bh) BugOn ;;;
  check (b_end_io bh) BugOn ;;;
  check (negb (bh_delay bh)) BugOn ;;;
  check (negb (bh_unwritten bh)) BugOn ;;;
  let bh' := bh <| bh_req := true |>
                <| bh_write_io_error := if bh_req bh && (op =? REQ_OP_WRITE) then false
                                        else bh_write_io_error bh |> in
  let b := mk_bio (bd_disk (b_bdev bh)) (bd_partno (b_bdev bh))
             (u64 (b_blocknr bh * Z.shiftr (b_size bh) 9)) (u32 (b_size bh)) 0
             [mk_bvec (b_page bh) (u32 (b_size bh)) (b_offset bh)] in
  check (bi_size b =? b_size bh) BugOn ;;;
  let b := (guard_bio_eod op b).1 in
  let op_flags := if bh_meta bh then Z.lor op_flags REQ_META else op_flags in
  let op_flags := if bh_prio bh then Z.lor op_flags REQ_PRIO else op_flags in
  ret (b <| bi_opf := Z.lor op op_flags |>, bh').

(** ** Entry points *)

(** [if (sid >= nr_streams) sid = 0] *)
Definition clamp_sid (sid : Z) : M kst Z :=
  nr <-- gets nr_streams ;; ret (if nr <=? sid then 0 else sid).

Definition stream_submit_bh (bh : buffer_head) (op op_flags sid : Z) : M kst Z :=
  let lba_ := b_blocknr bh in
  let nr_pages := horae_get_bh_secs bh in
  let is_ordered := op_is_ordered_write op_flags in
  let is_barrier := op_is_barrier_write op_flags in
  let op_flags := if is_ordered then clear_flag op_flags REQ_ORDERED else op_flags in
  let op_flags := if is_barrier then clear_flag op_flags REQ_BARRIER else op_flags in
  let is_tx := op_is_tx_write op_flags in
  let op_flags := if is_tx then clear_flag op_flags REQ_TX else op_flags in
  let is_commit := op_is_tx_commit op_flags in
  let op_flags := if is_commit then clear_flag op_flags REQ_TX_COMMIT else op_flags in
  let flag := if is_commit then HORAE_TX_END else if is_tx then HORAE_TX else 0 in
  if negb (is_ordered || is_barrier || is_tx || is_commit) then
    emit (SubmitBh op op_flags bh) ;;; ret 0
  else
    sid <-- clamp_sid sid ;;
    _ <-- stream_submit_bio_core sid lba_ nr_pages (MINOR (bd_disk (b_bdev bh))) 0 flag ;;
    emit (SubmitBh op op_flags bh) ;;;
    ret 0.

(** The effect of the flag tests on [bio->bi_opf] (ordered and barrier
    writes) common to the bio entry points. *)
Definition strip_order (opf : Z) : Z :=
  let is_ordered := op_is_ordered_write opf in
  let is_barrier := op_is_barrier_write opf in
  let opf := if is_ordered then clear_flag opf REQ_ORDERED else opf in
  if is_barrier then clear_flag opf (Z.lor REQ_BARRIER (Z.lor REQ_PREFLUSH REQ_FUA)) else opf.

Definition stream_submit_bio_ipu (b : bio) (sid : Z) (forced : bool) : M kst unit :=
  let lba_ := horae_get_lba b in
  let nr_pages := horae_get_secs b in
  let op_flags := u32 (bi_opf b) in
  let is_ordered := op_is_ordered_write (bi_opf b) in
  let is_barrier := op_is_barrier_write (bi_opf b) in
  let dev := MINOR (bi_disk b) in
  sid <-- clamp_sid sid ;;
  let b := b <| bi_opf ::= strip_order |> in
  let is_tx := op_is_tx_write op_flags in
  let op_flags := if is_tx then clear_flag op_flags REQ_TX else op_flags in
  let is_commit := op_is_tx_commit op_flags in
  let flag := if is_commit then HORAE_TX_END else if is_tx then HORAE_TX else 0 in
  if negb (is_ordered || is_barrier || is_tx || is_commit) then emit (SubmitBio b)
  else
    vc <-- gets version_consistency ;;
    if vc || forced then
      unpack (plba_, b) <-- journal_write_alloc sid b ;;
      if plba_ <? 0 then emit (SubmitBio b)   (* plba is a u32 *)
      else
        _ <-- stream_submit_bio_core sid lba_ nr_pages dev plba_ flag ;;
        emit (SubmitBio b)
    else emit (SubmitBio b).

Definition stream_submit_bh_force_IPU (bh : buffer_head) (op op_flags sid : Z) : M kst Z :=
  let op_flags_ := op_flags in
  let is_ordered := op_is_ordered_write op_flags in
  let is_barrier := op_is_barrier_write op_flags in
  let op_flags := if is_ordered then clear_flag op_flags REQ_ORDERED else op_flags in
  let op_flags := if is_barrier then clear_flag op_flags REQ_BARRIER else op_flags in
  let is_tx := op_is_tx_write op_flags in
  let op_flags := if is_tx then clear_flag op_flags REQ_TX else op_flags in
  if negb (is_ordered || is_barrier || is_tx) then
    emit (SubmitBh op op_flags bh) ;;; ret 0
  else
    unpack (b, _) <-- bh2bio op op_flags_ bh ;;
    stream_submit_bio_ipu b sid true ;;;
    ret 0.

Definition stream_submit_bio (b : bio) (sid : Z) : M kst unit :=
  let lba_ := horae_get_lba b in
  let nr_pages := horae_get_secs b in
  let is_ordered := op_is_ordered_write (bi_opf b) in
  let is_barrier := op_is_barrier_write (bi_opf b) in
  let dev := MINOR (bi_disk b) in
  let opf := strip_order (bi_opf b) in
  let is_tx := op_is_tx_write opf in
  let opf := if is_tx then clear_flag opf REQ_TX else opf in
  let is_commit := op_is_tx_commit opf in
  let opf := if is_commit then clear_flag opf REQ_TX_COMMIT else opf in
  let flag := if is_commit then HORAE_TX_END else if is_tx then HORAE_TX else 0 in
  let b := b <| bi_opf := opf |> in
  sid <-- clamp_sid sid ;;
  if negb (is_ordered || is_barrier || is_tx || is_commit) then emit (SubmitBio b)
  else
    _ <-- stream_submit_bio_core sid lba_ nr_pages dev 0 flag ;;
    emit (SubmitBio b).

Definition stream_submit_bio_noop (b : bio) (sid : Z) : M kst unit :=
  let lba_ := horae_get_lba b in
  let nr_pages := horae_get_secs b in
  if negb (op_is_ordered_write (bi_opf b)) && negb (op_is_barrier_write (bi_opf b)) then ret tt
  else
    sid <-- clamp_sid sid ;;
    _ <-- stream_submit_bio_core sid lba_ nr_pages 0 0 HORAE_TX ;;
    ret tt.

(** ** Flushing devices (ccnvme/flush.c) *)

Definition stream_cmb_needs_flush (s : stream) (dev : Z) : bool :=
  (1 <? nr_devices s) && negb (cmb_device_id s =? u32 dev).

Definition device_flush_supported (d : block_device) : bool := queue_wc d.

Definition ENXIO_ret : Z := -6.

(** The completion of an accepted flush is signalled by its end_io. *)
Definition blkdev_issue_flush_async (d : block_device) : M kst Z :=
  if negb (bdev_ready d) then ret ENXIO_ret
  else emit (FlushAsync d) ;;; ret 0.

Definition stream_blkdev_issue_flush_noop (sid : Z) : M kst Z :=
  sid <-- clamp_sid sid ;;
  s <-- get_stream sid ;;
  check (negb (nr_ometa s =? 0)) DivByZero ;;;
  if horae_count (head s) (tail s) (nr_ometa s) =? 0 then ret 0
  else
    lock_take (CpRwsem sid) ;;;
    s <-- get_stream sid ;;
    let tail_old := u32 (tail s) in
    upd_stream sid (fun s => s <| head := tail_old |>) ;;;
    lock_drop (CpRwsem sid) ;;;
    ret 0.

(** The asynchronous flushes of several devices: which completions were
    handed to a flush that will signal them. *)
Definition flush_one (d : block_device) (pend : list bool) : M kst (list bool) :=
  if device_flush_supported d then
    r <-- blkdev_issue_flush_async d ;;
    ret (pend ++ [r =? 0])
  else
    emit (IssueFlush d) ;;; ret pend.

Definition wait_flush (pend : list bool) (i : Z) : M kst unit :=
  match pend !! Z.to_nat i with
  | Some true => emit (WaitFlush i)
  | Some false => stall
  | None => oops OutOfBounds
  end.

Definition issue_flushes (bdevs : list block_device) : M kst unit :=
  match bdevs with
  | [d] => emit (IssueFlush d)
  | _ =>
      pend <-- fold_loop flush_one bdevs [] ;;
      for_each (seqZ 0 (Z.of_nat (length pend))) (wait_flush pend)
  end.

(** [None]: the variable [ret] is returned without having been assigned. *)
Definition stream_blkdev_issue_flush (bdevs : list block_device) (sid : Z) : M kst (option Z) :=
  sid <-- clamp_sid sid ;;
  s <-- get_stream sid ;;
  warn_on (bool_decide (bdevs = [])) ;;;
  check (bool_decide (bdevs = []) || negb (nr_ometa s =? 0)) DivByZero ;;;
  if bool_decide (bdevs = []) || (horae_count (head s) (tail s) (nr_ometa s) =? 0)
  then ret (Some 0)
  else
    lock_take (CpRwsem sid) ;;;
    s <-- get_stream sid ;;
    let tail_old := u32 (tail s) in
    issue_flushes bdevs ;;;
    upd_stream sid (fun s => s <| flushed := tail_old |>) ;;;
    cmb_flush sid 0 8 ;;;
    lock_drop (CpRwsem sid) ;;;
    ret None.
End stream.
