(* ===== verification/StreamFacts.v ===== *)
(** * Correctness of the submission path

    A stream's queue refines an abstract log, the list of the entries between
    [head] and [tail]: submission appends to it, a checkpoint drops a prefix
    of it, the doorbell makes its new entries durable. *)

From S2P Require Import Prelude Ring Horae Scan Cmb Checkpoint CheckpointFacts JournalFacts Stream.

(** What a submission leaves alone: as [op_frame], and the region keeps its size. *)
Definition io_frame (sid : Z) (k k' : kst) : Prop :=
  k' = k <| streams := streams k' |> <| ipu_tree := ipu_tree k' |> <| bh_busy := bh_busy k' |>
         <| trace := trace k' |> <| ci := ci k' |> <| read_buffer := read_buffer k' |> /\
  dev_size (ci k') = dev_size (ci k) /\
  forall i, i ≠ Z.to_nat sid -> streams k' !! i = streams k !! i.

#[export] Instance io_frame_preorder sid : PreOrder (io_frame sid).
Proof.
  split; [intros k; by destruct k|].
  intros k1 k2 k3 (E1 & D1 & S1) (E2 & D2 & S2). split; [rewrite E2, E1; done|].
  split; [congruence|]. intros i Hi. by rewrite S2, S1.
Qed.

Lemma op_io_frame sid k k' : op_frame sid k k' -> io_frame sid k k'.
Proof.
  intros [E S']. split; [|split; [by rewrite E|done]]. rewrite E. by destruct k.
Qed.

Lemma ci_io_frame sid k c :
  dev_size c = dev_size (ci k) -> io_frame sid k (k <| ci := c |>).
Proof. intros ?. split; [by destruct k|done]. Qed.

(** ** Reservation *)

Section reserve.
Context `{Kernel} `{!KernelLaws}.

(** What a submission on stream [sid] needs. *)
Record submit_ready (sid : Z) (s : stream) (k : kst) : Prop := {
  sr_sid : 0 <= sid < 2 ^ 32;
  sr_stream : streams k !! Z.to_nat sid = Some s;
  sr_ok : stream_ok s;
  sr_two : 2 <= nr_ometa s;
  sr_geom : cmb_geom s (ci k);
  sr_wb : wb_ready k;
  sr_jl : JournalLock sid ∉ held k;
  sr_cp : CpRwsem sid ∉ held k;
}.

(** Fields a checkpoint does not touch. *)
Lemma checkpointed_fields s s' :
  checkpointed s s' ->
  nr_ometa s' = nr_ometa s /\ tail s' = tail s /\ tail_watermark s' = tail_watermark s /\
  ometa_start s' = ometa_start s /\ ometa_size s' = ometa_size s /\
  off_in_cmb s' = off_in_cmb s /\ committed s' = committed s /\
  last_queue_flushed s' = last_queue_flushed s.
Proof. by intros [->|[->|[->| ->]]]. Qed.

Definition bumped (s : stream) : stream :=
  s <| tail_watermark := (tail s + 1) mod nr_ometa s |>.

(** A turn of the loop that finds room takes the slot at [tail]. *)
Lemma reserve_turn_ok fuel sid s k :
  0 <= sid < 2 ^ 32 -> streams k !! Z.to_nat sid = Some s -> stream_ok s ->
  1 <= horae_ring_space (head s) (tail s) (nr_ometa s) ->
  runs (reserve_slot (S fuel) sid 1) k (fun r k' =>
    r = (tail s, (tail s + 1) mod nr_ometa s) /\
    k' = k <| streams ::= <[Z.to_nat sid := bumped s]> |>).
Proof.
  intros Hsid Hs Hok Hsp. destruct (so_ring s Hok) as [Hn _ _ Ht _].
  change (2 ^ 25) with 33554432 in Hn.
  cbn [reserve_slot]. rstep. eapply runs_get_stream; [done..|]. rstep.
  apply runs_check; [by apply negb_true_iff, Z.eqb_neq; lia|].
  rewrite (so_watermark s Hok). pose proof (next_in_ring (nr_ometa s) ltac:(lia) (tail s)).
  rewrite (wrap_small 32 (tail s)), (wrap_small 32 (tail s + 1)) by (pow2_consts; lia).
  rewrite (wrap_small 32 ((tail s + 1) mod _)) by (pow2_consts; lia).
  destruct (Z.ltb_spec (horae_ring_space (head s) (tail s) (nr_ometa s)) 1); [lia|].
  rewrite Z.eqb_refl. rstep. eapply runs_upd_stream; [done..|]. kstep. done.
Qed.

Lemma reserve_slot_ok sid s k :
  submit_ready sid s k ->
  runs (reserve_slot retry_fuel sid 1) k (fun r k' =>
    r = (tail s, (tail s + 1) mod nr_ometa s) /\ op_frame sid k k' /\
    exists s0, checkpointed s s0 /\ streams k' !! Z.to_nat sid = Some (bumped s0) /\
      1 <= horae_ring_space (head s0) (tail s0) (nr_ometa s0) /\
      (1 <= horae_ring_space (head s) (tail s) (nr_ometa s) -> s0 = s)).
Proof.
  intros [Hsid Hs Hok Htwo _ Hwb Hjl Hcp]. unfold retry_fuel.
  destruct (decide (1 <= horae_ring_space (head s) (tail s) (nr_ometa s))) as [Hsp|Hsp].
  { eapply runs_conseq; [by apply (reserve_turn_ok 1 sid s)|]. intros r k' [-> ->].
    split_and!; [done|apply upd_op_frame|]. exists s.
    split_and!; [by left|simpl; by eapply insert_stream_lookup|done|done]. }
  destruct (so_ring s Hok) as [Hn _ _ Ht _]. change (2 ^ 25) with 33554432 in Hn.
  remember 1%nat as fuel eqn:Hfuel.
  cbn [reserve_slot]. rstep. eapply runs_get_stream; [done..|]. rstep.
  apply runs_check; [by apply negb_true_iff, Z.eqb_neq; lia|].
  rewrite (so_watermark s Hok), (wrap_small 32 (tail s)) by (pow2_consts; lia).
  destruct (Z.ltb_spec (horae_ring_space (head s) (tail s) (nr_ometa s)) 1); [|lia].
  rstep. eapply runs_conseq; [apply (stream_do_checkpoint_ok sid s k 1); try done; lia|].
  intros r k1 (_ & F1 & s0 & Hs0 & Hcps & Hsp0). subst fuel.
  destruct (checkpointed_fields s s0 Hcps) as (En & Et & _).
  eapply runs_conseq; [apply (reserve_turn_ok 0 sid s0); try done; by eapply checkpointed_ok|].
  intros r' k' [-> ->]. rewrite En, Et.
  split_and!; [done|etrans; [exact F1|apply upd_op_frame]|]. exists s0.
  split_and!; [done|simpl; by eapply insert_stream_lookup|done|lia].
Qed.
End reserve.

(** ** Filling a slot *)

Lemma runs_set_ometa sid s k idx f o (Q : unit -> kst -> Prop) :
  0 <= sid < 2 ^ 32 -> streams k !! Z.to_nat sid = Some s -> 0 <= idx ->
  ometa_start s !! Z.to_nat idx = Some o ->
  Q tt (k <| streams ::= <[Z.to_nat sid := s <| ometa_start ::= <[Z.to_nat idx := f o]> |>]> |>) ->
  runs (set_ometa sid idx f) k Q.
Proof.
  intros ? ? ? ? ?. unfold set_ometa. rstep. eapply runs_get_stream; [done..|]. rstep.
  eapply runs_stream_ometa_at; [done..|]. eapply runs_upd_stream; done.
Qed.

Lemma slot_lookup s i :
  ring_ok s -> 0 <= i < nr_ometa s -> ometa_start s !! Z.to_nat i = Some (slot s i).
Proof.
  intros Hok Hi. pose proof (ring_len s Hok).
  destruct (lookup_lt_is_Some_2 (ometa_start s) (Z.to_nat i)) as [o Ho]; [lia|].
  unfold slot. by rewrite Ho.
Qed.

(** The stream after entry [o] was put in the slot at [tail] and published. *)
Definition pushed (s : stream) (o : nvme_rw_command_) (c : Z) : stream :=
  s <| ometa_start ::= <[Z.to_nat (tail s) := o]> |> <| committed := c |>
    <| tail := (tail s + 1) mod nr_ometa s |>
    <| tail_watermark := (tail s + 1) mod nr_ometa s |>.

(** Submission appends exactly one entry to the log. *)
Lemma pushed_log s o c :
  ring_ok s -> 1 <= horae_ring_space (head s) (tail s) (nr_ometa s) ->
  log (pushed s o c) = log s ++ [o].
Proof.
  intros Hok Hsp. apply ring_space_le in Hsp; [|done]. pose proof Hok as [Hn Hl Hh Ht Hf].
  unfold log, entries. simpl.
  assert (Hne : (tail s + 1) mod nr_ometa s ≠ head s).
  { revert Hsp. clear -Hn Hh Ht. ring_simpl; lia. }
  rewrite ring_range_snoc, fmap_app; [|lia..|done]. f_equal.
  - apply list_fmap_ext. intros i x Hx%list_elem_of_lookup_2.
    apply elem_of_ring_range in Hx as [Hx Hlt]; [|lia..].
    unfold slot. simpl. rewrite list_lookup_insert_ne; [done|].
    intros Heq. assert (x = tail s) as -> by lia. lia.
  - simpl. unfold slot. simpl. rewrite list_lookup_insert_eq by lia. done.
Qed.

Lemma pushed_ok s o c :
  stream_ok s -> entry_ok o -> 1 <= horae_ring_space (head s) (tail s) (nr_ometa s) ->
  stream_ok (pushed s o c).
Proof.
  intros Hok Ho Hsp. pose proof (pushed_log s o c (so_ring s Hok) Hsp) as El.
  apply ring_space_le in Hsp; [|apply Hok].
  destruct Hok as [[Hn Hl Hh Ht Hf] He Hw Hfl Hd Hj].
  pose proof (next_in_ring (nr_ometa s) ltac:(lia) (tail s)).
  split; simpl; try done.
  - split; simpl; try done. by rewrite length_insert.
  - rewrite El. apply Forall_app. by split; [|apply Forall_singleton].
  - revert Hsp Hfl. clear -Hn Hh Ht Hf. ring_simpl; lia.
Qed.

Section submit.
Context `{Kernel} `{!KernelLaws}.

(** The tag a submission writes. *)
Definition submit_tag (s : stream) (flags : Z) : Z :=
  if (flags =? HORAE_TX) && negb (committed s =? 0) then Z.shiftl 1 HORAE_TX_BEGIN
  else Z.shiftl 1 flags.
Definition submit_committed (s : stream) (flags : Z) : Z :=
  if (flags =? HORAE_TX) && negb (committed s =? 0) then 0 else committed s.

Definition new_entry (s : stream) (lba_ nr dev plba_ flags : Z) : nvme_rw_command_ :=
  fill_ometa lba_ nr dev plba_ (submit_tag s flags) (slot s (tail s)).

Lemma submit_core_ok sid s k lba_ nr dev plba_ flags :
  submit_ready sid s k -> 0 <= lba_ -> lba_ + u16 nr <= 2 ^ 32 ->
  let o := new_entry s lba_ nr dev plba_ flags in
  runs (stream_submit_bio_core sid lba_ nr dev plba_ flags) k (fun pos k' =>
    pos = tail s /\ io_frame sid k k' /\
    exists s0, checkpointed s s0 /\
      1 <= horae_ring_space (head s0) (tail s0) (nr_ometa s0) /\
      (1 <= horae_ring_space (head s) (tail s) (nr_ometa s) -> s0 = s) /\
      streams k' !! Z.to_nat sid = Some (pushed s0 o (submit_committed s flags)) /\
      ci k' = (ci k) <| view := write_bytes (view (ci k))
                 (off_in_cmb s + tail s * sizeof_cmd) (encode_cmd o) |>).
Proof.
  intros Hr Hlba Hend o. pose proof Hr as [Hsid Hs Hok Htwo Hgeom Hwb Hjl Hcp].
  unfold stream_submit_bio_core. rstep. eapply runs_conseq; [by apply (reserve_slot_ok sid s)|].
  intros r k1 (-> & F1 & s0 & Hcps & Hs1 & Hsp & Heq).
  destruct (checkpointed_fields s s0 Hcps) as (En & Et & Ew & Eo & Esz & Eoff & Ec & _).
  assert (Hok0 : stream_ok s0) by by eapply checkpointed_ok.
  pose proof (so_ring s0 Hok0) as Hr0. destruct (ring_tail s0 Hr0) as [Ht0 Ht0'].
  assert (Hslot : ometa_start (bumped s0) !! Z.to_nat (tail s) = Some (slot s (tail s))).
  { rewrite <- Et. simpl. rewrite slot_lookup by (done || lia). unfold slot. by rewrite Eo. }
  rstep. eapply runs_get_stream; [done..|]. cbv zeta. simpl committed. rewrite Ec.
  rstep. eapply runs_set_ometa; [done..|lia|exact Hslot|].
  change (if (flags =? HORAE_TX) && negb (committed s =? 0) then Z.shiftl 1 HORAE_TX_BEGIN
          else Z.shiftl 1 flags) with (submit_tag s flags).
  fold (new_entry s lba_ nr dev plba_ flags). fold o.
  clearbody o.
  set (s1 := bumped s0 <| ometa_start ::= <[Z.to_nat (tail s) := o]> |>).
  set (k2 := k1 <| streams ::= <[Z.to_nat sid := s1]> |>).
  assert (Hk2 : streams k2 !! Z.to_nat sid = Some s1) by by eapply insert_stream_lookup.
  rstep. eapply (runs_conseq _ _ (fun _ k3 => op_frame sid k k3 /\
           streams k3 !! Z.to_nat sid = Some (s1 <| committed := submit_committed s flags |>))).
  { assert (F2 : op_frame sid k k2) by (etrans; [exact F1|apply upd_op_frame]).
    unfold submit_committed. destruct ((flags =? HORAE_TX) && negb (committed s =? 0)).
    - eapply runs_upd_stream; [done..|]. split; [etrans; [exact F2|apply upd_op_frame]|].
      exact (insert_stream_lookup k2 _ _ _ Hk2).
    - kstep. split; [done|]. etrans; [exact Hk2|]. rewrite <- Ec. unfold s1. destruct s0; simpl in *; subst. done. }
  intros [] k3 [F3 Hk3]. set (s2 := s1 <| committed := _ |>) in Hk3.
  assert (Hg2 : cmb_geom s2 (ci k3)).
  { rewrite (op_frame_ci _ _ _ F3). destruct Hgeom as (? & ? & Hlen & ? & ? & ?).
    unfold cmb_geom. simpl. rewrite length_insert, Eo, Esz, Eoff, En. done. }
  rstep. eapply runs_intro.
  { eapply (copy_slot_ok sid s2 k3 (tail s) o); [by apply get_stream_Ret|done|simpl; lia|].
    simpl. rewrite list_lookup_insert_eq; [done|]. pose proof (ring_len s0 Hr0). lia. }
  change (off_in_cmb s2) with (off_in_cmb s0). rewrite Eoff.
  set (k4 := k3 <| ci ::= _ |>). unfold publish_tail. rstep. rstep.
  eapply runs_get_stream; [done|exact Hk3|]. simpl tail. rewrite Et, Z.eqb_refl.
  eapply runs_upd_stream; [done|exact Hk3|]. kstep. split_and!; [done| |].
  - etrans; [by apply op_io_frame|]. etrans; [|apply op_io_frame, upd_op_frame].
    unfold k4. destruct F3 as [E3 _]. split; [by destruct k3|split; [done|done]].
  - exists s0. split_and!; [done|done|exact Heq| |].
    + simpl. erewrite insert_stream_lookup by exact Hk3.
      unfold s2, s1, pushed, bumped, update. simpl. rewrite En, Et. done.
    + rewrite <- (op_frame_ci _ _ _ F3). reflexivity.
Qed.
End submit.

(** ** Facts shared by the invariants of the queue *)

(** The entry a submission writes is well-formed. *)
Lemma fill_ometa_ok l n d p t o :
  0 <= l -> l + u16 n <= 2 ^ 32 -> entry_ok (fill_ometa l n d p t o).
Proof.
  intros Hl Hn. unfold entry_ok, fill_ometa. simpl.
  pose proof (wrap_range 16 n ltac:(lia)). pow2_consts.
  rewrite (wrap_small 64 l) by (pow2_consts; lia). lia.
Qed.

Lemma checkpointed_log s s' :
  stream_ok s -> checkpointed s s' -> exists old, log s = old ++ log s'.
Proof.
  intros Hok Hc. pose proof (log_split s Hok) as E.
  destruct Hc as [->|[->|[->| ->]]].
  - by exists [].
  - exists (flushed_log s). exact E.
  - exists (log s). unfold log at 3, entries. simpl. by rewrite ring_range_nil, app_nil_r.
  - exists (log s). unfold log at 3, entries. simpl. by rewrite ring_range_nil, app_nil_r.
Qed.
