(* ===== verification/DoorbellFacts.v ===== *)
(** * The doorbell of a transaction

    [stream_commit_tx] flushes the entries queued since the last doorbell and
    writes the tail to the device.  The entries become durable as long as the
    read of no bytes behind a flush drains it, and the flushed range does not
    wrap around the queue or the queue is the only one; with several streams a wrapped doorbell leaves the stream's part of
    the region. *)

From S2P Require Import Prelude Ring Horae Scan Cmb Checkpoint CheckpointFacts JournalFacts Stream StreamFacts.

(** ** [cmb_flush] *)

Lemma flush_ok_trans c c1 c2 P Q :
  flush_ok c c1 P -> flush_ok c1 c2 Q -> flush_ok c c2 (fun a => P a \/ Q a).
Proof.
  intros (D1 & V1 & P1 & O1) (D2 & V2 & P2 & O2). rewrite V1 in P2, O2.
  repeat split; [congruence..| |].
  - intros a [Ha|Ha]; [|by apply P2]. destruct (O2 a) as [-> | ->]; [by apply P1|done].
  - intros a. destruct (O2 a) as [-> | ->]; auto.
Qed.

Lemma flush_ok_weaken c c' (P Q : Z -> Prop) :
  flush_ok c c' P -> (forall a, Q a -> P a) -> flush_ok c c' Q.
Proof. intros (? & ? & ? & ?) HQ. repeat split; auto. Qed.

Section cmb_flush.
Context `{Kernel}.

Lemma read_nothing sid s k off :
  get_stream sid k = Ret s k -> 0 <= off_in_cmb s + off <= dev_size (ci k) ->
  copy_from_dev_to_buff sid off 0 k = Ret tt (k <| ci := drain 0 (ci k) |>).
Proof.
  intros Hs Ha. unfold copy_from_dev_to_buff. rewrite (bind_Ret _ _ _ _ _ Hs), bind_gets.
  change (u32 0) with 0. pose proof (wrap_range 32 (dev_size (ci k) - off) ltac:(lia)).
  destruct (Z.ltb_spec (u32 (dev_size (ci k) - off)) 0); [lia|].
  unfold memcpy_fromio, in_mapping. rewrite bind_gets, bind_check.
  - done.
  - apply andb_true_iff. split; apply Z.leb_le; lia.
Qed.

Lemma drained_to c c1 P : flush_ok c c1 P -> pmr c1 = pmr c -> flushed_to c (drain 0 c1) P.
Proof. intros F E. unfold drain, flushed_to. cbn [Z.ltb Z.compare orb]. by destruct empty_read_drains. Qed.

Lemma get_stream_ci sid s k c :
  get_stream sid k = Ret s k -> get_stream sid (k <| ci := c |>) = Ret s (k <| ci := c |>).
Proof.
  intros (_ & Hr & Hs)%get_stream_inv. by apply get_stream_Ret.
Qed.

(** The range flushed stays in the stream's part of the region, or the
    stream owns the whole region. *)
Definition flush_fits (s : stream) (c : cmb_info) (off len : Z) : Prop :=
  0 <= off <= ometa_size s /\ 0 <= len <= ometa_size s /\
  (off + len <= ometa_size s \/ off_in_cmb s = 0 /\ ometa_size s = dev_size c).

(** The bytes of the stream's part, [off] .. [off + len), modulo its size. *)
Definition flushed_bytes (s : stream) (off len a : Z) : Prop :=
  off_in_cmb s + off <= a < off_in_cmb s + Z.min (off + len) (ometa_size s) \/
  off_in_cmb s <= a < off_in_cmb s + (off + len - ometa_size s).

Lemma cmb_flush_ok sid s k off len :
  get_stream sid k = Ret s k -> cmb_geom s (ci k) -> flush_fits s (ci k) off len ->
  exists c', cmb_flush sid off len k = Ret tt (k <| ci := c' |>) /\
             flushed_to (ci k) c' (flushed_bytes s off len).
Proof.
  intros Hs ((Hn & Hn2) & Hsz & _ & Ho & Hfit & Hd) (Hoff & Hlen & Hcase).
  unfold cmb_flush. rewrite (bind_Ret _ _ _ _ _ Hs), bind_gets. cbv zeta.
  rewrite (wrap_small 32 (dev_size _ - _)), (wrap_small 32 len) by (pow2_consts; lia).
  destruct (Z.ltb_spec (dev_size (ci k) - off) len).
  - destruct Hcase as [?|[E0 Ed]]; [lia|]. rewrite (wrap_small 32) by (pow2_consts; lia).
    destruct (clflush_ok (off_in_cmb s + off) (dev_size (ci k) - off) k) as (c1 & E1 & F1 & P1); [lia..|].
    destruct (clflush_ok (off_in_cmb s) (len - (dev_size (ci k) - off)) (k <| ci := c1 |>))
      as (c2 & E2 & F2 & P2).
    { lia. }
    { lia. }
    { destruct F1 as [D1 _]. simpl. lia. }
    change (k <| ci := c1 |> <| ci := c2 |>) with (k <| ci := c2 |>) in E2.
    exists (drain 0 c2). rewrite bind_assoc, (bind_Ret _ _ _ _ _ E1), (bind_Ret _ _ _ _ _ E2).
    split.
    + refine (read_nothing sid s (k <| ci := c2 |>) off _ _); [by apply get_stream_ci|].
      destruct F1 as [D1 _], F2 as [D2 _]. simpl in *. lia.
    + apply drained_to; [|simpl in P2; congruence]. eapply flush_ok_weaken; [by eapply flush_ok_trans|]. unfold flushed_bytes. intros a; simpl; lia.
  - destruct (clflush_ok (off_in_cmb s + off) len k) as (c1 & E1 & F1 & P1); [lia..| |].
    { destruct Hcase as [?|[? ?]]; lia. }
    exists (drain 0 c1). rewrite (bind_Ret _ _ _ _ _ E1). split.
    + refine (read_nothing sid s (k <| ci := c1 |>) off _ _); [by apply get_stream_ci|].
      destruct F1 as [D1 _]. simpl in *. lia.
    + apply drained_to; [|done]. eapply flush_ok_weaken; [done|]. unfold flushed_bytes. intros a; simpl; lia.
Qed.
End cmb_flush.

(** ** What is on the device *)

Definition slot_addr (s : stream) (i : Z) : Z := off_in_cmb s + i * sizeof_cmd.

(** The image [m] of the region holds entry [i] of the queue. *)
Definition holds (m : gmap Z Z) (s : stream) (i : Z) : Prop :=
  forall j, 0 <= j < sizeof_cmd -> m !! (slot_addr s i + j) = encode_cmd (slot s i) !! Z.to_nat j.

Lemma read_bytes_ext m a bs :
  (forall j, 0 <= j < Z.of_nat (length bs) -> m !! (a + j) = bs !! Z.to_nat j) ->
  read_bytes m a (Z.of_nat (length bs)) = bs.
Proof.
  intros Hm. apply list_eq. intros i. unfold read_bytes. rewrite list_lookup_fmap.
  destruct (decide (i < length bs)%nat) as [Hi|Hi].
  - rewrite lookup_seqZ_lt by lia. cbn [fmap option_fmap option_map].
    destruct (lookup_lt_is_Some_2 bs i Hi) as [b Hb].
    rewrite Hm by lia. replace (Z.to_nat (0 + Z.of_nat i)) with i by lia. by rewrite Hb.
  - rewrite lookup_seqZ_ge by lia. symmetry. apply lookup_ge_None_2. lia.
Qed.

(** Reading such an image back gives the entry. *)
Lemma holds_decode m s i :
  holds m s i -> cmd_wf (slot s i) ->
  decode_cmd (read_bytes m (slot_addr s i) sizeof_cmd) = slot s i.
Proof.
  intros Hh Hwf. rewrite <- (decode_encode_cmd (slot s i)) by done. f_equal.
  pose proof (read_bytes_ext m (slot_addr s i) (encode_cmd (slot s i))) as Hr.
  rewrite length_encode_cmd in Hr. apply Hr. exact Hh.
Qed.

(** A submission puts its entry on the device and touches nothing else. *)
Lemma pushed_slot s o c : ring_ok s -> slot (pushed s o c) (tail s) = o.
Proof.
  intros [Hn Hl _ Ht _]. unfold slot.
  change (ometa_start (pushed s o c)) with (<[Z.to_nat (tail s) := o]> (ometa_start s)).
  by rewrite list_lookup_insert_eq by lia.
Qed.

Lemma pushed_holds s o c m :
  ring_ok s ->
  holds (write_bytes m (slot_addr s (tail s)) (encode_cmd o)) (pushed s o c) (tail s).
Proof.
  intros Hok j Hj. change (slot_addr (pushed s o c) (tail s)) with (slot_addr s (tail s)).
  rewrite pushed_slot by done.
  rewrite write_bytes_lookup, length_encode_cmd, decide_True by (unfold sizeof_cmd in *; lia).
  f_equal. lia.
Qed.

Lemma write_entry_outside m a o x :
  ~ (a <= x < a + sizeof_cmd) -> write_bytes m a (encode_cmd o) !! x = m !! x.
Proof.
  intros Hx. rewrite write_bytes_lookup, length_encode_cmd, decide_False; [done|].
  unfold sizeof_cmd in *. lia.
Qed.

(** ** Ringing the doorbell *)

(** The entries queued since the last doorbell, in slots and in bytes. *)
Definition queued (s : stream) : list Z :=
  ring_range (nr_ometa s) (last_queue_flushed s) (tail s).

Definition doorbell_len (s : stream) : Z :=
  sizeof_cmd * ((tail s - last_queue_flushed s) mod nr_ometa s).

(** Where the doorbell's flush does not leave the stream's part. *)
Definition doorbell_fits (s : stream) (c : cmb_info) : Prop :=
  last_queue_flushed s <= tail s \/ off_in_cmb s = 0 /\ ometa_size s = dev_size c.

Lemma doorbell_flush_fits s c :
  stream_ok s -> cmb_geom s c -> doorbell_fits s c ->
  flush_fits s c (last_queue_flushed s * sizeof_cmd) (doorbell_len s).
Proof.
  intros Hok ((Hn & _) & Hsz & _) Hf. pose proof (so_doorbell s Hok).
  pose proof (ring_tail s (so_ring s Hok)).
  pose proof (Z.mod_pos_bound (tail s - last_queue_flushed s) (nr_ometa s) Hn).
  unfold flush_fits, doorbell_len, sizeof_cmd in *. split; [lia|]. split; [lia|].
  destruct Hf as [Hle|?]; [left|by right]. rewrite Z.mod_small by lia. lia.
Qed.

Lemma queued_flushed s i j :
  stream_ok s -> ometa_size s = nr_ometa s * sizeof_cmd -> i ∈ queued s -> 0 <= j < sizeof_cmd ->
  flushed_bytes s (last_queue_flushed s * sizeof_cmd) (doorbell_len s) (slot_addr s i + j).
Proof.
  intros Hok Hsz Hi Hj. pose proof (so_doorbell s Hok). pose proof (so_ring s Hok) as [Hn _ _ Ht _].
  unfold queued in Hi. apply elem_of_ring_range in Hi as [Hi Hlt]; [|lia..].
  unfold flushed_bytes, doorbell_len, slot_addr, sizeof_cmd in *. rewrite Hsz. clear -Hi Hlt H Hn Ht Hj.
  revert Hlt. ring_simpl; lia.
Qed.

(** The stream after the doorbell: the entry marked as the end of the
    transaction is the one at [tail]. *)
Definition end_marked (s : stream) : stream :=
  s <| ometa_start ::= <[Z.to_nat (tail s) :=
         (slot s (tail s)) <| tag := wrap 3 (Z.shiftl 1 HORAE_TX_END) |>]> |>
    <| committed := 1 |>.
Definition committed_stream (s : stream) : stream :=
  (end_marked s) <| last_queue_flushed := tail s |>.

(** The device after the doorbell: the entries flushed, the tail written at
    the start of the region, the start of the stream's part flushed. *)
Definition doorbell_rung `{Kernel} (s : stream) (c c' : cmb_info) : Prop :=
  exists c1, flushed_to c c1 (flushed_bytes s (last_queue_flushed s * sizeof_cmd) (doorbell_len s)) /\
    flushed_to (c1 <| view := write_bytes (view c) 0 (le_bytes 4 (tail s)) |>) c' (flushed_bytes s 0 8).

Lemma end_marked_geom s c : cmb_geom s c -> cmb_geom (end_marked s) c.
Proof. intros (? & ? & Hl & ? & ? & ?). unfold cmb_geom. simpl. by rewrite length_insert. Qed.

Section commit.
Context `{Kernel} `{!KernelLaws}.

Lemma stream_commit_ok sid s k :
  0 <= sid < 2 ^ 32 -> streams k !! Z.to_nat sid = Some s -> stream_ok s ->
  cmb_geom s (ci k) -> doorbell_fits s (ci k) ->
  runs (stream_commit_tx sid) k (fun r k' =>
    r = 0 /\ io_frame sid k k' /\
    streams k' !! Z.to_nat sid = Some (committed_stream s) /\
    doorbell_rung s (ci k) (ci k')).
Proof.
  intros Hsid Hs Hok Hg Hf. pose proof (so_ring s Hok) as [Hn Hlen _ Ht _].
  pose proof (so_doorbell s Hok) as Hq. pose proof Hg as (_ & Hsz & _ & Ho & Hfit & Hd).
  assert (Hn2 : nr_ometa s < 33554432) by apply Hn. assert (64 <= ometa_size s) by (unfold sizeof_cmd in *; lia).
  pose proof (doorbell_flush_fits s (ci k) Hok Hg Hf) as Hff.
  pose proof (Z.mod_pos_bound (tail s - last_queue_flushed s) (nr_ometa s) ltac:(lia)).
  unfold stream_commit_tx, stream_tx_commit_core. rstep. rstep.
  eapply runs_get_stream; [done..|]. rstep.
  apply runs_check; [by apply negb_true_iff, Z.eqb_neq; lia|]. cbv zeta. rstep.
  rewrite horae_count_spec by (change (2 ^ 63) with 9223372036854775808; lia).
  rewrite !(wrap_small 32) by (unfold sizeof_cmd in *; pow2_consts; lia).
  eapply runs_set_ometa; [done..|lia|by apply slot_lookup; [apply Hok|]|].
  set (s1 := s <| ometa_start ::= _ |>). set (k1 := k <| streams ::= _ |>).
  assert (Hk1 : streams k1 !! Z.to_nat sid = Some s1) by by eapply insert_stream_lookup.
  rstep. eapply runs_upd_stream; [done|exact Hk1|].
  change (s1 <| committed := 1 |>) with (end_marked s). set (k2 := k1 <| streams ::= _ |>).
  assert (Hk2 : streams k2 !! Z.to_nat sid = Some (end_marked s))
    by exact (insert_stream_lookup k1 _ _ _ Hk1).
  assert (G2 : get_stream sid k2 = Ret (end_marked s) k2) by by apply get_stream_Ret.
  pose proof (end_marked_geom s (ci k) Hg) as Hg2. rstep.
  destruct (cmb_flush_ok sid (end_marked s) k2 (last_queue_flushed s * sizeof_cmd) (doorbell_len s))
    as (c1 & E1 & F1); [done|done|exact Hff|].
  eapply runs_intro; [exact E1|]. rstep.
  assert (Hd1 : dev_size c1 = dev_size (ci k)) by apply F1.
  assert (Hw : in_mapping c1 0 (Z.of_nat (length (le_bytes 4 (tail s)))) = true).
  { rewrite length_le_bytes. unfold in_mapping. apply andb_true_iff.
    split; apply Z.leb_le; [lia|]. rewrite Hd1. lia. }
  eapply runs_intro; [unfold writel; apply memcpy_toio_ok; [lia|]; rewrite length_le_bytes; simpl; lia|].
  set (c2 := c1 <| view := write_bytes (view c1) 0 (le_bytes 4 (tail s)) |>).
  change (k2 <| ci := c1 |> <| ci ::= _ |>) with (k2 <| ci := c2 |>). rstep.
  destruct (cmb_flush_ok sid (end_marked s) (k2 <| ci := c2 |>) 0 8) as (c3 & E3 & F3).
  { by apply get_stream_ci. }
  { unfold cmb_geom. simpl. rewrite Hd1. exact Hg2. }
  { unfold flush_fits. simpl. lia. }
  eapply runs_intro; [exact E3|]. rstep. eapply runs_upd_stream; [done|exact Hk2|]. kstep. kstep.
  split_and!; [done| | |].
  - etrans; [apply op_io_frame, (upd_op_frame sid k s1)|].
    etrans; [apply op_io_frame, (upd_op_frame sid k1 (end_marked s))|].
    etrans; [|apply op_io_frame, upd_op_frame].
    split; [by destruct k|split; [|done]]. destruct F3 as [[D3 _] _]. simpl in *. congruence.
  - exact (insert_stream_lookup k2 _ _ _ Hk2).
  - exists c1. split; [exact F1|]. assert (V1 : view c1 = view (ci k)) by apply F1.
    rewrite <- V1. exact F3.
Qed.

(** What the bytes of a queued entry become. *)
Lemma doorbell_posted s c c' a :
  doorbell_rung s c c' -> 4 <= a ->
  flushed_bytes s (last_queue_flushed s * sizeof_cmd) (doorbell_len s) a ->
  posted c' !! a = view c !! a.
Proof.
  intros (c1 & ((_ & V1 & P1 & _) & _) & ((_ & _ & P2 & O2) & _)) Ha Hf. simpl in *.
  assert (Ev : write_bytes (view c) 0 (le_bytes 4 (tail s)) !! a = view c !! a).
  { rewrite write_bytes_lookup, decide_False; [done|]. rewrite length_le_bytes. lia. }
  destruct (O2 a) as [-> | ->]; [by apply P1|done].
Qed.

Lemma doorbell_holds s c c' i :
  stream_ok s -> cmb_geom s c -> doorbell_rung s c c' -> i ∈ queued s -> holds (view c) s i ->
  4 <= slot_addr s i -> holds (posted c') s i.
Proof.
  intros Hok Hg Hr Hi Hh Ha j Hj. rewrite (doorbell_posted s c c'); [by apply Hh|done|lia|].
  apply queued_flushed; try done. apply Hg.
Qed.

(** What is durable then: what was posted, or nothing new. *)
Lemma doorbell_pmr s c c' : doorbell_rung s c c' -> pmr c' = if empty_read_drains then posted c' else pmr c.
Proof. intros (c1 & (_ & E1) & (_ & E2)). rewrite E2. simpl. destruct empty_read_drains; [done|exact E1]. Qed.

(** The doorbell word of the first stream. *)
Lemma doorbell_word s c c' j :
  cmb_geom s c -> doorbell_rung s c c' -> off_in_cmb s = 0 -> 0 <= j < 4 ->
  posted c' !! j = le_bytes 4 (tail s) !! Z.to_nat j.
Proof.
  intros (Hn & Hsz & _ & _ & _ & _) (c1 & _ & ((_ & _ & P2 & _) & _)) Hz Hj. rewrite P2.
  - change (write_bytes (view c) 0 (le_bytes 4 (tail s)) !! j = le_bytes 4 (tail s) !! Z.to_nat j).
    rewrite write_bytes_lookup, decide_True by (rewrite length_le_bytes; lia).
    by rewrite Z.sub_0_r.
  - unfold flushed_bytes, sizeof_cmd in *. lia.
Qed.

(** The end mark is outside the log. *)
Lemma committed_log s : ring_ok s -> log (committed_stream s) = log s.
Proof.
  intros [Hn Hl Hh Ht Hf]. unfold log, entries. simpl.
  apply list_fmap_ext. intros i x Hx%list_elem_of_lookup_2.
  apply elem_of_ring_range in Hx as [Hx Hlt]; [|lia..].
  unfold slot. simpl. rewrite list_lookup_insert_ne; [done|].
  intros Heq. assert (x = tail s) as -> by lia. lia.
Qed.

Lemma committed_stream_ok s : stream_ok s -> stream_ok (committed_stream s).
Proof.
  intros Hok. pose proof (committed_log s (so_ring s Hok)) as El.
  destruct Hok as [[Hn Hl Hh Ht Hf] He Hw Hfl Hd Hj]. split; simpl; try done.
  - split; simpl; try done. by rewrite length_insert.
  - by rewrite El.
Qed.

(** The tail of any stream lands on the first bytes of the region, which are
    also the first bytes of the first slot of the first stream. *)
Lemma doorbell_view s c c' j :
  doorbell_rung s c c' -> 0 <= j < 4 -> view c' !! j = le_bytes 4 (tail s) !! Z.to_nat j.
Proof.
  intros (c1 & _ & ((_ & V2 & _) & _)) Hj. rewrite V2.
  change (write_bytes (view c) 0 (le_bytes 4 (tail s)) !! j = le_bytes 4 (tail s) !! Z.to_nat j).
  rewrite write_bytes_lookup, decide_True by (rewrite length_le_bytes; lia). by rewrite Z.sub_0_r.
Qed.

End commit.

(** ** A doorbell that wraps around with several streams *)

Lemma clflush_loop_leaves fuel ptr stop k :
  0 <= ptr <= dev_size (ci k) -> dev_size (ci k) < stop ->
  ptr mod 64 = 0 -> dev_size (ci k) mod 64 = 0 -> (Z.to_nat (stop - ptr) < fuel)%nat ->
  clflush_loop fuel ptr stop k = Oops OutOfBounds.
Proof.
  revert ptr k. induction fuel as [|fuel IH]; intros ptr k Hp Hs Hm Hd Hf; [lia|].
  cbn [clflush_loop]. destruct (Z.ltb_spec ptr stop); [|lia].
  unfold bind at 1, clflush. rewrite bind_gets. unfold bind, check, in_mapping, ret, oops.
  destruct (Z.leb_spec 0 ptr); [|lia]. cbn [andb].
  destruct (Z.leb_spec (ptr + 1) (dev_size (ci k))) as [Hin|]; [|done].
  unfold modify. apply IH; unfold CACHELINE_SIZE; simpl.
  - pose proof (Z.div_mod ptr 64). pose proof (Z.div_mod (dev_size (ci k)) 64). lia.
  - done.
  - rewrite <- Z.add_mod_idemp_r, Z.mod_same, Z.add_0_r by lia. done.
  - done.
  - lia.
Qed.

Section wrap.
Context `{Kernel} `{!KernelLaws}.

Lemma commit_wrap_oops sid s k :
  0 <= sid < 2 ^ 32 -> streams k !! Z.to_nat sid = Some s -> stream_ok s -> cmb_geom s (ci k) ->
  tail s < last_queue_flushed s ->
  ometa_size s + tail s * sizeof_cmd <= dev_size (ci k) ->
  dev_size (ci k) < off_in_cmb s + ometa_size s + tail s * sizeof_cmd ->
  off_in_cmb s mod 64 = 0 -> dev_size (ci k) mod 64 = 0 ->
  stream_commit_tx sid k = Oops OutOfBounds.
Proof.
  intros Hsid Hs Hok Hg Hlt Hmany Hlast Ha Hda. pose proof (so_ring s Hok) as [Hn Hlen _ Ht _].
  pose proof (so_doorbell s Hok) as Hq. pose proof Hg as (_ & Hsz & _ & Ho & Hfit & Hd).
  assert (Hn2 : nr_ometa s < 33554432) by apply Hn. unfold sizeof_cmd in *.
  unfold stream_commit_tx, stream_tx_commit_core. rewrite !bind_assoc.
  rewrite (bind_Ret _ _ _ _ _ (get_stream_Ret _ _ _ Hsid Hs)). rewrite bind_assoc.
  rewrite bind_check by (by apply negb_true_iff, Z.eqb_neq; lia). cbv zeta.
  rewrite horae_count_spec by (change (2 ^ 63) with 9223372036854775808; lia).
  assert (Em : (tail s - last_queue_flushed s) mod nr_ometa s = nr_ometa s + tail s - last_queue_flushed s)
    by (ring_simpl; lia).
  rewrite Em, !(wrap_small 32) by (unfold sizeof_cmd; pow2_consts; lia).
  assert (Hset : runs (set_ometa sid (tail s) (fun o => o <| tag := wrap 3 (Z.shiftl 1 HORAE_TX_END) |>) ;;;
            upd_stream sid (fun s => s <| committed := 1 |>)) k (fun _ k' =>
            streams k' !! Z.to_nat sid = Some (end_marked s) /\ ci k' = ci k)).
  { rstep. eapply runs_set_ometa; [done..|lia|by apply slot_lookup; [apply Hok|]|].
    eapply runs_upd_stream; [done|by eapply insert_stream_lookup|]. split; [|done].
    set (k1 := k <| streams ::= _ |>).
    refine (insert_stream_lookup k1 _ _ _ (insert_stream_lookup k _ _ _ Hs)). }
  apply runs_elim in Hset as ([] & k1 & E & Hs1 & Ec). apply bind_inv in E as ([] & k0 & E0 & E1).
  rewrite bind_assoc, (bind_Ret _ _ _ _ _ E0). rewrite bind_assoc, (bind_Ret _ _ _ _ _ E1).
  rewrite bind_assoc. unfold bind at 1. unfold cmb_flush.
  rewrite (bind_Ret _ _ _ _ _ (get_stream_Ret _ _ _ Hsid Hs1)), bind_gets, Ec. cbv zeta.
  change (off_in_cmb (end_marked s)) with (off_in_cmb s). unfold sizeof_cmd.
  rewrite !(wrap_small 32) by (pow2_consts; lia).
  destruct (Z.ltb_spec (dev_size (ci k) - last_queue_flushed s * 64)
              (64 * (nr_ometa s + tail s - last_queue_flushed s))); [lia|].
  unfold bind at 1, clflush_.
  assert (Hld : Z.ldiff (off_in_cmb s + last_queue_flushed s * 64) (CACHELINE_SIZE - 1) =
                off_in_cmb s + last_queue_flushed s * 64).
  { change (CACHELINE_SIZE - 1) with (Z.ones 6).
    rewrite Z.ldiff_ones_r, Z.shiftl_mul_pow2, Z.shiftr_div_pow2 by lia. change (2 ^ 6) with 64.
    pose proof (Z.div_mod (off_in_cmb s) 64). rewrite Z.div_add by lia. lia. }
  rewrite Hld, clflush_loop_leaves; rewrite ?Ec; try done; try lia.
  rewrite <- Z.add_mod_idemp_l, Ha, Z.add_0_l, Z.mod_mul by lia. done.
Qed.
End wrap.
