(* ===== verification/TxFacts.v ===== *)
(** * Transactions of a stream over time

    Every operation moves a stream's log by dropping entries at its head and
    appending entries at its end ([evolves]).  From this come the invariant of
    a stream used by the file system and which transactions the write-back
    and the recovery can find in its log. *)

From S2P Require Import Prelude Ring Horae Scan Cmb Checkpoint CheckpointFacts JournalFacts Stream StreamFacts DoorbellFacts.

(** ** How a log moves *)

Definition log_moves (P : nvme_rw_command_ -> Prop) (l l' : list nvme_rw_command_) : Prop :=
  exists old rest new, l = old ++ rest /\ l' = rest ++ new /\ Forall P new.

#[export] Instance log_moves_preorder P : PreOrder (log_moves P).
Proof.
  split.
  - intros l. exists [], l, []. by rewrite app_nil_r.
  - intros l1 l2 l3 (o1 & r1 & n1 & -> & -> & H1) (o2 & r2 & n2 & E & -> & H2).
    apply app_eq_inv in E as [(x & -> & ->)|(x & -> & ->)].
    + exists (o1 ++ o2), x, (n1 ++ n2). rewrite <- !app_assoc.
      split_and!; [done|done|by apply Forall_app].
    + apply Forall_app in H1 as [_ H1].
      exists (o1 ++ r1), [], (r2 ++ n2). rewrite app_nil_r.
      split_and!; [done|done|by apply Forall_app].
Qed.

Lemma log_moves_suffix P old l : log_moves P (old ++ l) l.
Proof. exists old, l, []. by rewrite app_nil_r. Qed.

Lemma log_moves_forall (P : nvme_rw_command_ -> Prop) l l' :
  log_moves P l l' -> Forall P l -> Forall P l'.
Proof.
  intros (o & r & n & -> & -> & Hn) [_ Hr]%Forall_app. by apply Forall_app.
Qed.

(** What an operation keeps of a stream. *)
Record evolves (P : nvme_rw_command_ -> Prop) (s s' : stream) : Prop := {
  ev_geo : (nr_ometa s', ometa_size s', off_in_cmb s', nr_journal_block s', off_in_journal s',
            last_txid s', length (ometa_start s')) =
           (nr_ometa s, ometa_size s, off_in_cmb s, nr_journal_block s, off_in_journal s,
            last_txid s, length (ometa_start s));
  ev_ok : stream_ok s';
  ev_log : log_moves P (log s) (log s');
}.

Lemma evolves_trans P s1 s2 s3 : evolves P s1 s2 -> evolves P s2 s3 -> evolves P s1 s3.
Proof. intros [? ? ?] [? ? ?]. split; [congruence|done|by etrans]. Qed.

Lemma evolves_refl P s : stream_ok s -> evolves P s s.
Proof. by split. Qed.

Lemma evolves_geom P s s' c : evolves P s s' -> cmb_geom s c -> cmb_geom s' c.
Proof. intros [E _ _] Hg. injection E as E1 E2 E3 _ _ _ E4. unfold cmb_geom. by rewrite E1, E2, E3, E4. Qed.

Lemma evolves_checkpointed P s s' : stream_ok s -> checkpointed s s' -> evolves P s s'.
Proof.
  intros Hok Hc. split.
  - by destruct Hc as [->|[->|[->| ->]]].
  - by eapply checkpointed_ok.
  - destruct (checkpointed_log s s' Hok Hc) as [old ->]. apply log_moves_suffix.
Qed.

Lemma evolves_pushed P s o c :
  stream_ok s -> entry_ok o -> P o -> 1 <= horae_ring_space (head s) (tail s) (nr_ometa s) ->
  evolves P s (pushed s o c).
Proof.
  intros Hok Ho HP Hsp. split.
  - unfold pushed. simpl. by rewrite length_insert.
  - by apply pushed_ok.
  - rewrite pushed_log by (apply Hok || done). exists [], (log s), [o].
    split_and!; [done|done|by constructor].
Qed.

Lemma evolves_reserved P s nr ptr s' : stream_ok s -> reserve_post s nr ptr s' -> evolves P s s'.
Proof.
  intros Hok (Hok' & _ & _ & _ & _ & _ & [[E _]|[E _]]); split; try done; rewrite E.
  - done.
  - exists [], (log s), []. by rewrite app_nil_r.
  - done.
  - change (log (allocated (reclaimed s) (off_in_journal s) nr)) with (log (reclaimed s)).
    destruct (checkpointed_log s (reclaimed s) Hok) as [old ->]; [by right; left|].
    apply log_moves_suffix.
Qed.

Lemma evolves_committed P s : stream_ok s -> evolves P s (committed_stream s).
Proof.
  intros Hok. split.
  - unfold committed_stream, end_marked. simpl. by rewrite length_insert.
  - by apply committed_stream_ok.
  - rewrite committed_log by apply Hok. reflexivity.
Qed.

(** ** A device flush *)

Definition flushed_stream (s : stream) : stream := s <| flushed := tail s |>.

Lemma flushed_stream_ok s : stream_ok s -> stream_ok (flushed_stream s).
Proof. intros [[? ? ? ? ?] ? ? ? ? ?]. repeat split; simpl; try done; lia. Qed.

Lemma evolves_flushed P s : stream_ok s -> evolves P s (flushed_stream s).
Proof. intros Hok. split; [done|by apply flushed_stream_ok|reflexivity]. Qed.

Section flush.
Context `{Kernel}.

(** The completions to wait for, and the calls a flush of several devices makes. *)
Definition async_devs (bdevs : list block_device) : list block_device :=
  base.filter (fun d => queue_wc d = true) bdevs.
Definition flush_call (d : block_device) : io_event :=
  if queue_wc d then FlushAsync d else IssueFlush d.
Definition flush_plan (bdevs : list block_device) : list io_event :=
  match bdevs with
  | [d] => [IssueFlush d]
  | _ => (flush_call <$> bdevs) ++ (WaitFlush <$> seqZ 0 (Z.of_nat (length (async_devs bdevs))))
  end.

Lemma flush_one_loop bdevs pend k :
  runs (fold_loop flush_one bdevs pend) k (fun r k' =>
    r = pend ++ (bdev_ready <$> async_devs bdevs) /\
    k' = k <| trace ::= (.++ (flush_call <$> base.filter (fun d => queue_wc d = true -> bdev_ready d = true) bdevs)) |>).
Proof.
  revert pend k. induction bdevs as [|d bdevs IH]; intros pend k.
  { simpl. kstep. split; [by rewrite app_nil_r|]. destruct k; unfold update; simpl.
    by rewrite app_nil_r. }
  simpl. rstep. unfold flush_one, device_flush_supported.
  assert (Htr : forall (b : bool) evs k1, k1 = (if b then k <| trace ::= (.++ [flush_call d]) |> else k) ->
    k1 <| trace ::= (.++ evs) |> = k <| trace ::= (.++ ((if b then [flush_call d] else []) ++ evs)) |>).
  { intros [] evs k1 ->; destruct k; unfold update; simpl; by rewrite <- ?app_assoc. }
  destruct (queue_wc d) eqn:Ew.
  - unfold blkdev_issue_flush_async. rstep. destruct (bdev_ready d) eqn:Er; simpl negb; cbv iota.
    + rstep. kstep. kstep. kstep. eapply runs_conseq; [apply IH|]. intros r k' [-> ->].
      unfold async_devs. rewrite !filter_cons_True by (by rewrite ?Ew). simpl. rewrite Er.
      rewrite <- app_assoc. split; [done|]. unfold flush_call at 2. rewrite Ew.
      rewrite (Htr true); [unfold flush_call at 1; by rewrite Ew|]. unfold flush_call. by rewrite Ew.
    + kstep. kstep. eapply runs_conseq; [apply IH|]. intros r k' [-> ->].
      unfold async_devs. rewrite filter_cons_True by done. rewrite filter_cons_False by (intros HH; specialize (HH Ew); congruence).
      simpl. rewrite Er, <- app_assoc. split; [done|]. by rewrite (Htr false).
  - rstep. kstep. kstep. eapply runs_conseq; [apply IH|]. intros r k' [-> ->].
    unfold async_devs. rewrite filter_cons_False, filter_cons_True by (by rewrite ?Ew).
    split; [done|]. simpl. unfold flush_call at 2. rewrite Ew.
    rewrite (Htr true); [unfold flush_call at 1; by rewrite Ew|]. unfold flush_call. by rewrite Ew.
Qed.

Lemma wait_loop pend (i : Z) (n : nat) k :
  (forall j, i <= j < i + Z.of_nat n -> pend !! Z.to_nat j = Some true) ->
  for_each (seqZ i (Z.of_nat n)) (wait_flush pend) k =
  Ret tt (k <| trace ::= (.++ (WaitFlush <$> seqZ i (Z.of_nat n))) |>).
Proof.
  revert i k. induction n as [|n IH]; intros i k Hp.
  { simpl. unfold ret. f_equal. destruct k; unfold update; simpl. by rewrite app_nil_r. }
  rewrite seqZ_cons by lia. replace (Z.pred (Z.of_nat (S n))) with (Z.of_nat n) by lia.
  cbn [for_each]. unfold bind. unfold wait_flush at 1. rewrite Hp by lia.
  unfold emit, modify. rewrite IH by (intros; apply Hp; lia).
  f_equal. destruct k; unfold update; simpl. by rewrite <- app_assoc.
Qed.

(** A completion nobody will signal is waited for forever. *)
Lemma wait_loop_stalls pend (i : Z) (n : nat) k j :
  (forall j, i <= j < i + Z.of_nat n -> is_Some (pend !! Z.to_nat j)) ->
  i <= j < i + Z.of_nat n -> pend !! Z.to_nat j = Some false ->
  for_each (seqZ i (Z.of_nat n)) (wait_flush pend) k = Stall.
Proof.
  revert i k. induction n as [|n IH]; intros i k Hp Hj Hf; [lia|].
  rewrite seqZ_cons by lia. replace (Z.pred (Z.of_nat (S n))) with (Z.of_nat n) by lia.
  cbn [for_each]. unfold bind. unfold wait_flush at 1.
  destruct (Hp i) as [[] E]; [lia|rewrite E..].
  - unfold emit, modify. apply IH; [intros; apply Hp; lia| |done].
    destruct (decide (i = j)); [congruence|lia].
  - done.
Qed.

Lemma issue_flushes_ok bdevs k :
  (forall d, d ∈ bdevs -> queue_wc d = true -> bdev_ready d = true) ->
  issue_flushes bdevs k = Ret tt (k <| trace ::= (.++ flush_plan bdevs) |>).
Proof.
  intros Hr.
  assert (Hmany : bind (fold_loop flush_one bdevs []) (fun pend =>
      for_each (seqZ 0 (Z.of_nat (length pend))) (wait_flush pend)) k =
    Ret tt (k <| trace ::= (.++ ((flush_call <$> bdevs) ++
      (WaitFlush <$> seqZ 0 (Z.of_nat (length (async_devs bdevs))))))|>)).
  { pose proof (flush_one_loop bdevs [] k) as Hl. apply runs_elim in Hl as (pend & k1 & E & -> & ->).
    rewrite (bind_Ret _ _ _ _ _ E). simpl app. rewrite length_fmap, wait_loop.
    - f_equal. destruct k; unfold update; simpl. rewrite <- app_assoc. do 3 f_equal.
      clear E. induction bdevs as [|d bdevs IH]; [done|].
      rewrite filter_cons_True by (apply Hr; left). rewrite !fmap_cons. cbn [app]. f_equal.
      apply IH. intros ? ?. apply Hr. by right.
    - intros j Hj. rewrite list_lookup_fmap.
      destruct (lookup_lt_is_Some_2 (async_devs bdevs) (Z.to_nat j)) as [d Hd]; [lia|].
      rewrite Hd. simpl. f_equal. apply list_elem_of_lookup_2 in Hd.
      apply list_elem_of_filter in Hd as [? ?]. by apply Hr. }
  unfold issue_flushes, flush_plan. destruct bdevs as [|d [|d2 bdevs]]; [exact Hmany|done|exact Hmany].
Qed.

Lemma issue_flushes_stall bdevs d k :
  (2 <= length bdevs)%nat -> d ∈ bdevs -> queue_wc d = true -> bdev_ready d = false ->
  issue_flushes bdevs k = Stall.
Proof.
  intros Hlen Hd Hw Hr. unfold issue_flushes.
  assert (Hmany : bind (fold_loop flush_one bdevs []) (fun pend =>
      for_each (seqZ 0 (Z.of_nat (length pend))) (wait_flush pend)) k = Stall).
  { pose proof (flush_one_loop bdevs [] k) as Hl. apply runs_elim in Hl as (pend & k1 & E & -> & ->).
    rewrite (bind_Ret _ _ _ _ _ E). simpl app.
    assert (Hin : d ∈ async_devs bdevs) by (by apply list_elem_of_filter).
    apply list_elem_of_lookup_1 in Hin as [i Hi]. pose proof (lookup_lt_Some _ _ _ Hi).
    apply (wait_loop_stalls _ _ _ _ (Z.of_nat i)); rewrite ?length_fmap; [|lia|].
    - intros j Hj. apply lookup_lt_is_Some_2. rewrite length_fmap. lia.
    - by rewrite Nat2Z.id, list_lookup_fmap, Hi, <- Hr. }
  destruct bdevs as [|d1 [|d2 bdevs]]; simpl in Hlen; [lia|lia|exact Hmany].
Qed.

(** What the flush of stream [sid] does when there is something to flush. *)
Lemma issue_flush_ok sid s k bdevs :
  0 <= sid < nr_streams k -> nr_streams k < 2 ^ 32 -> streams k !! Z.to_nat sid = Some s ->
  stream_ok s -> cmb_geom s (ci k) -> CpRwsem sid ∉ held k ->
  bdevs ≠ [] -> (forall d, d ∈ bdevs -> queue_wc d = true -> bdev_ready d = true) ->
  runs (stream_blkdev_issue_flush bdevs sid) k (fun r k' =>
    if decide (head s = tail s) then r = Some 0 /\ k' = k
    else r = None /\ io_frame sid k k' /\
      streams k' !! Z.to_nat sid = Some (flushed_stream s) /\
      trace k' = trace k ++ flush_plan bdevs /\
      flushed_to (ci k) (ci k') (flushed_bytes s 0 8)).
Proof.
  intros Hsid Hnr Hs Hok Hg Hl Hne Hr. pose proof (so_ring s Hok) as [Hn _ Hh Ht _].
  assert (Hn2 : nr_ometa s < 33554432) by apply Hn.
  unfold stream_blkdev_issue_flush, clamp_sid. rstep. rstep. kstep. kstep.
  destruct (Z.leb_spec (nr_streams k) sid); [lia|]. rstep.
  eapply runs_get_stream; [lia|done|]. rewrite (bool_decide_eq_false_2 (bdevs = [])) by done.
  unfold warn_on. rstep. kstep. rstep. apply runs_check; [by apply negb_true_iff, Z.eqb_neq; lia|].
  rewrite horae_count_spec by (change (2 ^ 63) with 9223372036854775808; lia). simpl orb.
  destruct (Z.eqb_spec ((tail s - head s) mod nr_ometa s) 0) as [E|E].
  { kstep. rewrite decide_True; [done|]. revert E. clear -Hn Hh Ht. ring_simpl; lia. }
  assert (Hht : head s ≠ tail s) by (intros Eq; apply E; by rewrite Eq, Z.sub_diag, Zmod_0_l).
  rstep. apply runs_lock_take; [done|]. set (k1 := k <| held ::= _ |>).
  rstep. eapply runs_get_stream; [lia|done|]. cbv zeta. rstep.
  eapply runs_intro; [by apply issue_flushes_ok|]. set (k2 := k1 <| trace ::= _ |>).
  rstep. eapply runs_upd_stream; [lia|done|].
  rewrite (wrap_small 32 (tail s)) by (pow2_consts; lia).
  change (s <| flushed := tail s |>) with (flushed_stream s). set (k3 := k2 <| streams ::= _ |>).
  assert (Hk3 : streams k3 !! Z.to_nat sid = Some (flushed_stream s)) by by eapply insert_stream_lookup.
  rstep. destruct (cmb_flush_ok sid (flushed_stream s) k3 0 8) as (c & E1 & F1).
  { apply get_stream_Ret; [lia|done]. }
  { exact Hg. }
  { unfold flush_fits. destruct Hg as (_ & Hsz & _). unfold sizeof_cmd in *. simpl. lia. }
  eapply runs_intro; [exact E1|]. rstep. eapply (runs_lock_drop _ (held k)); [done|done|].
  kstep. rewrite decide_False by done. split_and!; [done| |exact Hk3|done|exact F1].
  split; [by destruct k|]. split; [apply F1|]. intros i Hi. simpl. by rewrite list_lookup_insert_ne.
Qed.

Lemma issue_flush_stall sid s k bdevs d :
  0 <= sid < nr_streams k -> nr_streams k < 2 ^ 32 -> streams k !! Z.to_nat sid = Some s ->
  stream_ok s -> CpRwsem sid ∉ held k -> head s ≠ tail s ->
  (2 <= length bdevs)%nat -> d ∈ bdevs -> queue_wc d = true -> bdev_ready d = false ->
  stream_blkdev_issue_flush bdevs sid k = Stall.
Proof.
  intros Hsid Hnr Hs Hok Hl Hne Hlen Hd Hw Hr. pose proof (so_ring s Hok) as [Hn _ Hh Ht _].
  assert (Hn2 : nr_ometa s < 33554432) by apply Hn.
  assert (Hb : bdevs ≠ []) by (intros ->; simpl in Hlen; lia).
  unfold stream_blkdev_issue_flush, clamp_sid. rewrite bind_assoc, bind_gets, bind_ret.
  destruct (Z.leb_spec (nr_streams k) sid); [lia|].
  assert (G : forall k', streams k' = streams k -> get_stream sid k' = Ret s k')
    by (intros k' E; apply get_stream_Ret; [lia|by rewrite E]).
  rewrite (bind_Ret _ _ _ _ _ (G k eq_refl)). rewrite (bool_decide_eq_false_2 (bdevs = [])) by done.
  unfold warn_on. rewrite bind_ret. rewrite bind_check by (by apply negb_true_iff, Z.eqb_neq; lia).
  rewrite horae_count_spec by (change (2 ^ 63) with 9223372036854775808; lia). simpl orb.
  destruct (Z.eqb_spec ((tail s - head s) mod nr_ometa s) 0) as [E|E].
  { exfalso. apply Hne. revert E. clear -Hn Hh Ht. ring_simpl; lia. }
  cbn [orb]. rewrite (bind_Ret _ _ _ _ _ (lock_take_Ret _ _ Hl)).
  erewrite bind_Ret by (apply G; reflexivity). cbv zeta.
  unfold bind at 1. by rewrite (issue_flushes_stall bdevs d).
Qed.
End flush.

(** ** A stream in use by the file system *)

Definition no_end_mark (o : nvme_rw_command_) : Prop := has_tag o HORAE_TX_END = false.

Section fs.
Context `{Kernel} `{!KernelLaws}.

Lemma io_frame_fields sid k k' :
  io_frame sid k k' ->
  held k' = held k /\ blocks_per_group k' = blocks_per_group k /\
  nr_streams k' = nr_streams k /\ version_consistency k' = version_consistency k /\
  dev_size (ci k') = dev_size (ci k).
Proof. intros (-> & Hd & _). done. Qed.

Lemma submit_ready_step P sid s k s' k' :
  submit_ready sid s k -> io_frame sid k k' -> streams k' !! Z.to_nat sid = Some s' ->
  evolves P s s' -> submit_ready sid s' k'.
Proof.
  intros [? ? ? ? Hg [? ? Hu] ? ?] F Hs' Hev.
  destruct (io_frame_fields _ _ _ F) as (Eh & Eb & _ & _ & Ed).
  pose proof (evolves_geom _ _ _ _ Hev Hg) as Hg'. destruct Hev as [E Hok _]. injection E as E1 _.
  split; [done|done|done|by rewrite E1| | |by rewrite Eh|by rewrite Eh].
  - unfold cmb_geom in *. by rewrite Ed.
  - split; [done|by rewrite Eb|]. intros i. rewrite Eh. apply Hu.
Qed.

(** What a submission of an entry does to the stream. *)
Lemma submit_core_evolves (P : nvme_rw_command_ -> Prop) sid s k l nr dev p flags :
  submit_ready sid s k -> 0 <= l -> l + u16 nr <= 2 ^ 32 ->
  (forall s0, P (new_entry s0 l nr dev p flags)) ->
  runs (stream_submit_bio_core sid l nr dev p flags) k (fun pos k' =>
    io_frame sid k k' /\ exists s', streams k' !! Z.to_nat sid = Some s' /\ evolves P s s').
Proof.
  intros Hr Hl Hn HP. eapply runs_conseq; [by apply (submit_core_ok sid s)|].
  intros pos k' (-> & F & s0 & Hc & Hsp & _ & Hs' & _). split; [done|].
  eexists. split; [done|]. pose proof (sr_ok _ _ _ Hr) as Hok.
  eapply evolves_trans; [by apply evolves_checkpointed|].
  apply evolves_pushed; [by eapply checkpointed_ok|by apply fill_ometa_ok|apply HP|done].
Qed.

Lemma new_entry_no_end s l nr dev p flags :
  flags = 0 \/ flags = HORAE_TX -> no_end_mark (new_entry s l nr dev p flags).
Proof.
  intros Hf. unfold no_end_mark, new_entry, has_tag, fill_ometa, submit_tag, update. simpl tag.
  destruct Hf as [-> | ->]; simpl; [done|]. by destruct (negb (committed s =? 0)).
Qed.

(** A bio a file system may hand to the stream. *)
Record bio_ok (s : stream) (b : bio) : Prop := {
  bo_sector : 0 <= bi_sector b;
  bo_size : 0 <= bi_size b < 2 ^ 32;
  bo_journal : horae_get_secs b <= nr_journal_block s;
  bo_vecs : horae_get_secs b <= Z.of_nat (length (bi_io_vec b));
  bo_lba : horae_get_lba b + horae_get_secs b <= 2 ^ 32;
  bo_data : op_is_tx_commit (clear_flag (u32 (bi_opf b)) REQ_TX) = false;
  bo_data' : op_is_tx_commit (bi_opf b) = false;
}.

Lemma u16_le n : 0 <= n -> u16 n <= n.
Proof. intros ?. unfold wrap. apply Z.mod_le; [done|lia]. Qed.

Lemma clamp_sid_ok sid k (Q : Z -> kst -> Prop) :
  sid < nr_streams k -> Q sid k -> runs (clamp_sid sid) k Q.
Proof.
  intros Hlt HQ. unfold clamp_sid. rstep. kstep. kstep.
  destruct (Z.leb_spec (nr_streams k) sid); [lia|done].
Qed.

Lemma flag_set_u32 x f : flag_set (u32 x) f = flag_set x f.
Proof. unfold flag_set. by rewrite wrap_wrap. Qed.

Lemma ipu_bio_evolves sid s k b forced :
  submit_ready sid s k -> sid < nr_streams k -> bio_ok s b ->
  runs (stream_submit_bio_ipu b sid forced) k (fun _ k' =>
    io_frame sid k k' /\ exists s', streams k' !! Z.to_nat sid = Some s' /\ evolves no_end_mark s s').
Proof.
  intros Hr Hlt [Hb1 Hb2 Hb3 Hb4 Hb5 Hb6 Hb7]. unfold stream_submit_bio_ipu. cbv zeta. rstep.
  apply clamp_sid_ok; [done|]. pose proof Hr as [Hsid Hs Hok _ _ Hwb Hjl _].
  assert (Hem : forall e, io_frame sid k (k <| trace ::= (.++ [e]) |>) /\ exists s',
            streams (k <| trace ::= (.++ [e]) |>) !! Z.to_nat sid = Some s' /\ evolves no_end_mark s s').
  { intros e. split; [split; [by destruct k|done]|]. exists s. split; [done|by apply evolves_refl]. }
  destruct (negb _); [kstep; apply Hem|]. rstep. rstep. destruct (version_consistency k || forced); [|kstep; apply Hem].
  rstep. eapply runs_conseq; [by apply (journal_write_alloc_ok sid s)|].
  intros r k1 (F1 & s1 & ptr & k0 & Hs1 & Hpost & -> & _ & _).
  pose proof (so_journal s Hok). pose proof Hpost as (_ & Hp1 & _).
  destruct (Z.ltb_spec ptr 0); [lia|]. rstep.
  pose proof (evolves_reserved no_end_mark _ _ _ _ Hok Hpost) as Hev1.
  pose proof (submit_ready_step _ _ _ _ _ _ Hr (op_io_frame _ _ _ F1) Hs1 Hev1) as Hr1.
  pose proof (wrap_range 32 (bi_size b / 4096) ltac:(lia)) as Hsr. fold (horae_get_secs b) in Hsr.
  pose proof (u16_le (horae_get_secs b) ltac:(lia)).
  eapply runs_conseq; [apply (submit_core_evolves no_end_mark sid s1); [done|apply Z.div_pos; lia|lia|]|].
  { intros s0. apply new_entry_no_end. unfold op_is_tx_commit, op_is_tx_write in *.
    rewrite flag_set_u32. destruct (flag_set (bi_opf b) REQ_TX).
    - rewrite Hb6. by right.
    - rewrite flag_set_u32, Hb7. by left. }
  intros pos k2 (F2 & s2 & Hs2 & Hev2). kstep. split.
  - etrans; [by apply op_io_frame|]. etrans; [done|]. split; [by destruct k2|done].
  - exists s2. split; [done|]. by eapply evolves_trans.
Qed.

(** The calls of mqfs (page-io.c, filemap_compat.c, fsync.c) on a stream. *)
Inductive fs_op :=
| FsBio (b : bio) (forced : bool)
| FsBh (bh : buffer_head) (op_flags : Z)
| FsFlush (bdevs : list block_device).

Definition fs_run (sid : Z) (op : fs_op) : M kst unit :=
  match op with
  | FsBio b forced => stream_submit_bio_ipu b sid forced
  | FsBh bh op_flags => _ <-- stream_submit_bh_force_IPU bh REQ_OP_WRITE op_flags sid ;; ret tt
  | FsFlush bdevs => _ <-- stream_blkdev_issue_flush bdevs sid ;; ret tt
  end.

Definition op_ok (s : stream) (op : fs_op) : Prop :=
  match op with
  | FsBio b _ => bio_ok s b
  | FsBh bh op_flags => exists b bh', bio_ok s b /\
      forall k, bh2bio REQ_OP_WRITE op_flags bh k = Ret (b, bh') k
  | FsFlush bdevs => bdevs ≠ [] /\
      forall d, d ∈ bdevs -> queue_wc d = true -> bdev_ready d = true
  end.

Lemma op_ok_evolves P s s' op : evolves P s s' -> op_ok s op -> op_ok s' op.
Proof.
  intros [E _ _]. injection E as _ _ _ E _.
  assert (Hb : forall b, bio_ok s b -> bio_ok s' b) by (intros b []; split; congruence).
  destruct op as [b f|bh fl|bs]; simpl; [apply Hb|naive_solver|done].
Qed.

Lemma fs_run_evolves sid s k op :
  submit_ready sid s k -> sid < nr_streams k < 2 ^ 32 -> op_ok s op ->
  runs (fs_run sid op) k (fun _ k' =>
    io_frame sid k k' /\ exists s', streams k' !! Z.to_nat sid = Some s' /\ evolves no_end_mark s s').
Proof.
  intros Hr Hlt Hop. pose proof Hr as [Hsid Hs Hok _ Hg _ _ Hcp].
  destruct op as [b f|bh fl|bs]; simpl in *.
  - apply ipu_bio_evolves; [done|lia|done].
  - destruct Hop as (b & bh' & Hb & Hbh). rstep. unfold stream_submit_bh_force_IPU. cbv zeta.
    destruct (negb _).
    + rstep. kstep. kstep. kstep. split; [split; [by destruct k|done]|].
      exists s. split; [done|by apply evolves_refl].
    + rstep. eapply runs_intro; [apply Hbh|]. cbv beta iota. rstep.
      eapply runs_conseq; [apply (ipu_bio_evolves sid s); [done|lia|done]|].
      intros [] k' Hk'. kstep. kstep. exact Hk'.
  - destruct Hop as [Hne Hrd]. rstep.
    eapply runs_conseq; [apply (issue_flush_ok sid s); try done; lia|].
    intros r k' Hk'. apply runs_ret. case_decide.
    + destruct Hk' as [_ ->]. split; [reflexivity|]. exists s. split; [done|by apply evolves_refl].
    + destruct Hk' as (_ & F & Hs' & _). split; [done|]. exists (flushed_stream s).
      split; [done|by apply evolves_flushed].
Qed.

Lemma fs_runs_evolves sid s k ops :
  submit_ready sid s k -> sid < nr_streams k < 2 ^ 32 -> Forall (op_ok s) ops ->
  runs (for_each ops (fs_run sid)) k (fun _ k' =>
    io_frame sid k k' /\ exists s', streams k' !! Z.to_nat sid = Some s' /\ evolves no_end_mark s s').
Proof.
  intros Hr Hlt Hops.
  apply (runs_for_each (fun _ k' => io_frame sid k k' /\ exists s',
           streams k' !! Z.to_nat sid = Some s' /\ evolves no_end_mark s s')).
  { split; [reflexivity|]. exists s. split; [apply Hr|by apply evolves_refl, Hr]. }
  intros dn op rest k1 -> (F1 & s1 & Hs1 & Hev1).
  pose proof (submit_ready_step _ _ _ _ _ _ Hr F1 Hs1 Hev1) as Hr1.
  destruct (io_frame_fields _ _ _ F1) as (_ & _ & En & _).
  apply Forall_app in Hops as [_ [Hop _]%Forall_cons].
  eapply runs_conseq; [apply (fs_run_evolves sid s1); [done|by rewrite En|by eapply op_ok_evolves]|].
  intros [] k2 (F2 & s2 & Hs2 & Hev2). split; [by etrans|]. exists s2. split; [done|by eapply evolves_trans].
Qed.

(** ** Transactions in a log *)

Lemma tx_scan_no_end cur l : Forall no_end_mark l -> tx_scan cur l = [].
Proof.
  intros Hl. revert cur. induction Hl as [|o l Ho Hl IH]; intros cur; [done|].
  simpl. destruct cur as [[b inner]|]; [|apply IH]. by rewrite Ho.
Qed.

Lemma commit_write_idle sid s k :
  0 <= sid < 2 ^ 32 -> streams k !! Z.to_nat sid = Some s -> ring_ok s ->
  tx_scan None (flushed_log s) = [] -> commit_write sid k = Ret 0 k.
Proof.
  intros Hsid Hs Hok Hl. rewrite (commit_write_equiv sid k s Hs Hok). unfold commit_write_ref.
  rewrite (bind_Ret _ _ _ _ _ (get_stream_Ret _ _ _ Hsid Hs)).
  fold (flushed_log s). by rewrite Hl.
Qed.

Lemma flushed_log_forall (P : nvme_rw_command_ -> Prop) s :
  stream_ok s -> Forall P (log s) -> Forall P (flushed_log s).
Proof. intros Hok. rewrite (log_split s Hok). by intros [? _]%Forall_app. Qed.

(** A transaction: a BEGIN entry, entries that do not end it, an END entry. *)
Lemma tx_scan_tx b inner e rest :
  has_tag b HORAE_TX_BEGIN = true -> Forall no_end_mark inner -> has_tag e HORAE_TX_END = true ->
  tx_scan None (b :: inner ++ e :: rest) = (b, inner, e) :: tx_scan None rest.
Proof.
  intros Hb Hi He. simpl. rewrite Hb.
  assert (Hgen : forall l acc, Forall no_end_mark l ->
            tx_scan (Some (b, acc)) (l ++ e :: rest) = (b, acc ++ l, e) :: tx_scan None rest).
  { induction l as [|o l IH]; intros acc Hl; simpl.
    - by rewrite He, app_nil_r.
    - apply Forall_cons in Hl as [Ho Hl]. rewrite Ho, IH by done. by rewrite <- app_assoc. }
  by apply Hgen.
Qed.

(** Entries after an END that open nothing are skipped. *)
Lemma tx_scan_skip l l' :
  Forall (fun o => has_tag o HORAE_TX_BEGIN = false) l -> tx_scan None (l ++ l') = tx_scan None l'.
Proof. induction 1 as [|o l Ho _ IH]; simpl; [done|by rewrite Ho]. Qed.

(** The transaction left open at the end of a log. *)
Definition left_open (l : list nvme_rw_command_) : option (nvme_rw_command_ * list nvme_rw_command_) := tx_open (fun o => o) None l.

Lemma tx_scan_app cur l rest : tx_scan cur (l ++ rest) = tx_scan cur l ++ tx_scan (tx_open (fun o => o) cur l) rest.
Proof.
  revert cur. induction l as [|o l IH]; intros cur; [done|]. simpl.
  destruct cur as [[b inner]|]; [destruct (has_tag o HORAE_TX_END)|]; simpl; rewrite IH; done.
Qed.

Lemma tx_open_app {E} (hd : E -> nvme_rw_command_) cur l rest : tx_open hd cur (l ++ rest) = tx_open hd (tx_open hd cur l) rest.
Proof.
  revert cur. induction l as [|o l IH]; intros cur; [done|]. cbn [app tx_open].
  destruct cur as [[b inner]|]; [destruct (has_tag (hd o) HORAE_TX_END)|]; apply IH.
Qed.

(** What the scan takes for the transaction [b], [inner], [e] behind a log that
    ends inside the transaction [cur]. *)
Definition completed (cur : option (nvme_rw_command_ * list nvme_rw_command_)) (b : nvme_rw_command_) (inner : list nvme_rw_command_)
    (e : nvme_rw_command_) : nvme_rw_command_ * list nvme_rw_command_ * nvme_rw_command_ :=
  match cur with
  | None => (b, inner, e)
  | Some (b0, inner0) => (b0, inner0 ++ b :: inner, e)
  end.

Lemma scan_inner b0 inner0 l e :
  Forall no_end_mark l -> has_tag e HORAE_TX_END = true ->
  tx_scan (Some (b0, inner0)) (l ++ [e]) = [(b0, inner0 ++ l, e)] /\ tx_open (fun o => o) (Some (b0, inner0)) (l ++ [e]) = None.
Proof.
  intros Hl He. revert inner0. induction Hl as [|o l Ho _ IH]; intros inner0; cbn [app tx_scan tx_open].
  - by rewrite He, app_nil_r.
  - rewrite Ho. destruct (IH (inner0 ++ [o])) as [-> ->]. by rewrite <- app_assoc.
Qed.

Lemma scan_completed l b inner e :
  has_tag b HORAE_TX_BEGIN = true -> Forall no_end_mark (b :: inner) -> has_tag e HORAE_TX_END = true ->
  left_open (l ++ b :: inner ++ [e]) = None /\
  tx_scan None (l ++ b :: inner ++ [e]) = tx_scan None l ++ [completed (left_open l) b inner e].
Proof.
  intros Hb Hi He. unfold left_open. rewrite tx_scan_app, tx_open_app. destruct (tx_open _ None l) as [[b0 inner0]|]; cbn [completed].
  - destruct (scan_inner b0 inner0 (b :: inner) e Hi He) as [E1 E2]. cbn [app] in E1, E2. by rewrite E1, E2.
  - cbn [tx_scan tx_open]. rewrite Hb. inversion_clear Hi as [|?? _ Hi']. destruct (scan_inner b [] inner e Hi' He) as [E1 E2]. by rewrite E1, E2.
Qed.

(** ** Submitting a transaction: data entries, then the commit entry *)

Record io := mk_io { io_lba : Z; io_nr : Z; io_dev : Z; io_plba : Z }.

Definition io_wf (x : io) : Prop :=
  0 <= io_lba x /\ 0 <= io_nr x < 2 ^ 16 /\ 0 <= io_dev x < 2 ^ CMB_DEVICE_ID_BITS /\
  0 <= io_plba x < 2 ^ 32 /\ io_lba x + io_nr x <= 2 ^ 32.

Definition submit_io (sid flags : Z) (x : io) : M kst unit :=
  _ <-- stream_submit_bio_core sid (io_lba x) (io_nr x) (io_dev x) (io_plba x) flags ;; ret tt.

Definition submit_tx (sid : Z) (data : list io) (commit : io) : M kst unit :=
  for_each data (submit_io sid HORAE_TX) ;;; submit_io sid HORAE_TX_END commit.

(** What an entry of the queue asks for. *)
Definition entry_io (o : nvme_rw_command_) : io := mk_io (lba o) (clength o) (device_id o) (plba o).

Lemma new_entry_io s x flags :
  io_wf x ->
  entry_io (new_entry s (io_lba x) (io_nr x) (io_dev x) (io_plba x) flags) = x.
Proof.
  intros (? & ? & ? & ? & ?). destruct x as [l n d p]. unfold entry_io, new_entry, fill_ometa, update. simpl in *.
  unfold CMB_DEVICE_ID_BITS in *. wraps. done.
Qed.

Lemma length_log s : ring_ok s -> Z.of_nat (length (log s)) = (tail s - head s) mod nr_ometa s.
Proof. intros []. unfold log, entries. rewrite length_fmap. apply length_ring_range. lia. Qed.

Lemma submit_io_ok sid s k flags x :
  submit_ready sid s k -> io_wf x -> Z.of_nat (length (log s)) + 1 < nr_ometa s ->
  runs (submit_io sid flags x) k (fun _ k' => io_frame sid k k' /\
    streams k' !! Z.to_nat sid = Some (pushed s
      (new_entry s (io_lba x) (io_nr x) (io_dev x) (io_plba x) flags) (submit_committed s flags))).
Proof.
  intros Hr Hx Hlen. pose proof Hx as (? & ? & ? & ? & ?). unfold submit_io. rstep.
  eapply runs_conseq; [apply (submit_core_ok sid s); [done|lia|wraps; lia]|].
  intros pos k' (_ & F & s0 & _ & _ & E & Hs' & _). apply runs_ret. split; [done|].
  rewrite E in Hs'; [done|]. pose proof (so_ring _ (sr_ok _ _ _ Hr)) as Hok.
  apply ring_space_le; [done|]. rewrite length_log in Hlen by done. lia.
Qed.

(** The data entries of a transaction that is about to begin. *)
Definition tx_prefix (l : list nvme_rw_command_) : Prop :=
  match l with
  | [] => True
  | b :: inner => has_tag b HORAE_TX_BEGIN = true /\ Forall no_end_mark (b :: inner)
  end.

Definition tx_progress (sid : Z) (s : stream) (k : kst) (data : list io) (k' : kst) : Prop :=
  io_frame sid k k' /\ exists s' l, streams k' !! Z.to_nat sid = Some s' /\
    evolves (fun _ => True) s s' /\ log s' = log s ++ l /\ entry_io <$> l = data /\
    tx_prefix l /\ (committed s' = 0 <-> l ≠ []).

Lemma submit_data_ok sid s k data :
  submit_ready sid s k -> committed s ≠ 0 -> Forall io_wf data ->
  Z.of_nat (length (log s) + length data) < nr_ometa s ->
  runs (for_each data (submit_io sid HORAE_TX)) k (fun _ k' => tx_progress sid s k data k').
Proof.
  intros Hr Hc Hx Hlen. apply (runs_for_each (fun dn k' => tx_progress sid s k dn k')).
  { split; [reflexivity|]. exists s, []. rewrite app_nil_r.
    split_and!; [apply Hr|by apply evolves_refl, Hr|done|done|done|done]. }
  intros dn x rest k1 -> (F1 & s1 & l & Hs1 & Hev1 & El & Eio & Hp & Hcm).
  pose proof (submit_ready_step _ _ _ _ _ _ Hr F1 Hs1 Hev1) as Hr1.
  apply Forall_app in Hx as [_ [Hx _]%Forall_cons].
  assert (Hl : length l = length dn) by (rewrite <- Eio; by rewrite length_fmap).
  assert (Hn : nr_ometa s1 = nr_ometa s) by (pose proof (ev_geo _ _ _ Hev1); congruence).
  assert (Hroom : Z.of_nat (length (log s1)) + 1 < nr_ometa s1).
  { rewrite Hn, El, length_app, Hl. rewrite length_app in Hlen. simpl in Hlen. lia. }
  eapply runs_conseq; [by apply (submit_io_ok sid s1)|]. intros [] k2 [F2 Hs2].
  set (o := new_entry s1 _ _ _ _ _) in Hs2.
  assert (Hsp : 1 <= horae_ring_space (head s1) (tail s1) (nr_ometa s1)).
  { pose proof (so_ring _ (sr_ok _ _ _ Hr1)) as Hok1. apply ring_space_le; [done|].
    rewrite length_log in Hroom by done. lia. }
  split; [by etrans|]. eexists _, (l ++ [o]). split_and!; [exact Hs2| | | | |].
  - eapply evolves_trans; [exact Hev1|]. destruct Hx as (? & ? & ? & ? & ?).
    apply evolves_pushed; [apply Hr1| |done|done]. apply fill_ometa_ok; [done|wraps; lia].
  - rewrite pushed_log by (apply Hr1 || done). by rewrite El, <- app_assoc.
  - rewrite fmap_app, Eio, list_fmap_singleton. unfold o. by rewrite new_entry_io.
  - destruct l as [|b inner]; simpl.
    + split; [|apply Forall_singleton, new_entry_no_end; by right]. unfold o, new_entry, submit_tag.
      destruct (Z.eqb_spec (committed s1) 0); [exfalso; naive_solver|done].
    + destruct Hp as [Hb Hi]. split; [done|]. change (Forall no_end_mark ((b :: inner) ++ [o])). apply Forall_app. split; [done|].
      apply Forall_singleton, new_entry_no_end. by right.
  - simpl. unfold submit_committed. simpl. split; [by destruct l|]. intros _.
    by destruct (Z.eqb_spec (committed s1) 0).
Qed.

Lemma submit_tx_ok sid s k data commit :
  submit_ready sid s k -> committed s ≠ 0 ->
  data ≠ [] -> Forall io_wf (data ++ [commit]) ->
  Z.of_nat (length (log s) + length data) + 1 < nr_ometa s ->
  runs (submit_tx sid data commit) k (fun _ k' => io_frame sid k k' /\
    exists s' b inner e, streams k' !! Z.to_nat sid = Some s' /\
      evolves (fun _ => True) s s' /\
      log s' = log s ++ b :: inner ++ [e] /\
      entry_io <$> (b :: inner ++ [e]) = data ++ [commit] /\
      left_open (log s') = None /\ tx_scan None (log s') = tx_scan None (log s) ++ [completed (left_open (log s)) b inner e]).
Proof.
  intros Hr Hc Hne [Hx [Hxc _]%Forall_cons]%Forall_app Hlen. unfold submit_tx. rstep.
  eapply runs_conseq; [apply (submit_data_ok sid s); [done|done|done|lia]|].
  intros [] k1 (F1 & s1 & l & Hs1 & Hev1 & El & Eio & Hp & _).
  pose proof (submit_ready_step _ _ _ _ _ _ Hr F1 Hs1 Hev1) as Hr1.
  assert (Hl : length l = length data) by (rewrite <- Eio; by rewrite length_fmap).
  assert (Hn : nr_ometa s1 = nr_ometa s) by (pose proof (ev_geo _ _ _ Hev1); congruence).
  assert (Hroom : Z.of_nat (length (log s1)) + 1 < nr_ometa s1)
    by (rewrite Hn, El, length_app, Hl; lia).
  eapply runs_conseq; [by apply (submit_io_ok sid s1)|]. intros [] k2 [F2 Hs2].
  set (e := new_entry s1 _ _ _ _ _) in Hs2. split; [by etrans|].
  destruct l as [|b inner]; [by destruct data|]. destruct Hp as [Hb Hi].
  assert (Hsp : 1 <= horae_ring_space (head s1) (tail s1) (nr_ometa s1)).
  { pose proof (so_ring _ (sr_ok _ _ _ Hr1)) as Hok1. apply ring_space_le; [done|].
    rewrite length_log in Hroom by done. lia. }
  assert (El2 : log (pushed s1 e (submit_committed s1 HORAE_TX_END)) = log s ++ b :: inner ++ [e]).
  { rewrite pushed_log by (apply Hr1 || done). rewrite El, <- app_assoc. done. }
  destruct (scan_completed (log s) b inner e) as [? ?]; [done..|].
  eexists _, b, inner, e. split_and!; [exact Hs2| |done| |by rewrite El2|by rewrite El2].
  - eapply evolves_trans; [exact Hev1|]. destruct Hxc as (? & ? & ? & ? & ?).
    apply evolves_pushed; [apply Hr1| |done|done]. apply fill_ometa_ok; [done|wraps; lia].
  - change (b :: inner ++ [e]) with ((b :: inner) ++ [e]). rewrite fmap_app, Eio, list_fmap_singleton.
    unfold e. by rewrite new_entry_io.
Qed.
End fs.
