(* ===== verification/Registry.v ===== *)
(** * Setting streams up and handing them out (ccnvme/horae.c)

    The initialisation of the streams at module load, the free queue they are
    handed out from, the registration of devices, and the reset of a stream
    that is given back. *)

From S2P Require Import Prelude Ring Horae Scan Cmb Checkpoint CheckpointFacts JournalFacts Stream StreamFacts.

(** ** The kernel's FIFO of 32-bit numbers *)

Definition kfifo_put (cap : Z) (q : list Z) (x : Z) : list Z :=
  if Z.of_nat (length q) <? cap then q ++ [u32 x] else q.

Definition kfifo_get (q : list Z) : option (Z * list Z) :=
  match q with
  | [] => None
  | x :: q' => Some (x, q')
  end.

Definition kfifo_out (q : list Z) (n : Z) : list Z * list Z :=
  (take (Z.to_nat n) q, drop (Z.to_nat n) q).

Definition kfifo_in (cap : Z) (q xs : list Z) : list Z * list Z :=
  let n := Z.to_nat (cap - Z.of_nat (length q)) in
  (q ++ take n xs, take n xs).

Definition roundup_pow_of_two (n : Z) : Z := 2 ^ Z.log2_up n.

Section registry.
Context `{Kernel}.

(** ** Module load *)

(** The fields assigned by the loop of [init_streams] for stream [i]; [raw]
    and [buf] are what [kmalloc] returned for the structure and the queue. *)
Definition init_stream (olog nr cps js : Z) (raw : stream) (buf : list nvme_rw_command_)
    (i : Z) : stream :=
  let n := olog / sizeof_cmd / nr in
  let s := raw <| head := 0 |> <| tail := 0 |> <| tail_watermark := 0 |> <| flushed := 0 |>
               <| last_queue_flushed := 0 |> <| stream_id := i |> <| nr_ometa := n |>
               <| ometa_size := u64 (n * sizeof_cmd) |> <| ometa_start := buf |>
               <| off_in_cmb := u64 (i * u64 (n * sizeof_cmd)) |>
               <| delegated_bio := 0 |> <| done_by_self_bio := 0 |> <| committed := 0 |> in
  stream_init_journal js nr (stream_init_cp cps nr s).

Definition init_one (raw : Z -> stream) (buf : Z -> Z -> list nvme_rw_command_) (i : Z)
    : M kst unit :=
  modify (fun k =>
    let n := olog_size k / sizeof_cmd / nr_streams k in
    k <| streams ::= (.++ [init_stream (olog_size k) (nr_streams k) (cp_size k) (journal_size k)
                             (raw i) (buf i n) i]) |>
      <| free_stream_q := kfifo_put (free_stream_cap k) (free_stream_q k) i |>).

(** [fifo_ok]: the allocation of the free queue succeeded; its result is not
    looked at before the queue is used. *)
Definition init_streams (fifo_ok : bool) (raw : Z -> stream)
    (buf : Z -> Z -> list nvme_rw_command_) : M kst Z :=
  modify (fun k => k <| nr_streams := if nr_streams k <=? 0 then u32 num_possible_cpus
                                      else nr_streams k |>) ;;;
  nr <-- gets nr_streams ;;
  check (negb (nr =? 0)) DivByZero ;;;
  check fifo_ok NullDeref ;;;
  modify (fun k => k <| free_stream_cap := roundup_pow_of_two nr * 4 |> <| free_stream_q := [] |>
                     <| registered_list := [] |> <| ipu_tree := ∅ |> <| blocks_per_group := 1 |>
                     <| streams := [] |>) ;;;
  for_each (seqZ 0 nr) (init_one raw buf) ;;;
  ret 0.

(** ** Handing streams out *)

Definition olayer_init_stream (sid : Z) (p : init_param) : M kst unit :=
  sid <-- clamp_sid sid ;;
  upd_stream sid (fun s => s <| nr_devices := p_nr_device p |>
                             <| cmb_device_id := p_cmb_device_id p |>).

Definition reset_stream (s : stream) : stream :=
  s <| head := 0 |> <| tail := 0 |> <| tail_watermark := 0 |> <| flushed := 0 |>
    <| nr_devices := 0 |> <| cmb_device_id := 0 |> <| delegated_bio := 0 |>
    <| done_by_self_bio := 0 |> <| committed := 0 |> <| last_queue_flushed := 0 |>
    <| ometa_start := replicate (Z.to_nat (ometa_size s / sizeof_cmd)) zero_cmd |>.

Definition olayer_reset_stream (sid : Z) : M kst unit :=
  sid <-- clamp_sid sid ;; upd_stream sid reset_stream.

(** [list_add] puts the new device first. *)
Definition add_dev (l : list registerd_dev) (d : Z * Z) : list registerd_dev :=
  if existsb (fun r => dev_ID r =? d.1) l then l else mk_dev d.1 d.2 :: l.

Fixpoint del_dev (id : Z) (l : list registerd_dev) : list registerd_dev :=
  match l with
  | [] => []
  | r :: l' => if dev_ID r =? id then l' else r :: del_dev id l'
  end.

(** Returns the streams written to [strs]; their number is [param->registered]. *)
Definition olayer_register_streams (nr : Z) (p : init_param) : M kst (list Z) :=
  max <-- gets nr_streams ;;
  let nr := if max <? nr then max else nr in
  check (p_nr_device p <=? Z.of_nat (length (p_devices p))) OutOfBounds ;;;
  modify (fun k => k <| registered_list ::= fun l =>
                        foldl add_dev l (take (Z.to_nat (p_nr_device p)) (p_devices p)) |>) ;;;
  q <-- gets free_stream_q ;;
  let '(strs, q') := kfifo_out q nr in
  modify (fun k => k <| free_stream_q := q' |>) ;;;
  for_each strs (fun sid => olayer_init_stream sid p) ;;;
  modify (fun k => k <| blocks_per_group := p_parea_partition_hint p |>) ;;;
  ret strs.

Definition olayer_unregister_streams (strs : list Z) (devs : list Z) : M kst Z :=
  modify (fun k => k <| registered_list ::= fun l => foldl (fun l d => del_dev d l) l devs |>) ;;;
  q <-- gets free_stream_q ;;
  cap <-- gets free_stream_cap ;;
  let '(q', back) := kfifo_in cap q strs in
  modify (fun k => k <| free_stream_q := q' |>) ;;;
  for_each back olayer_reset_stream ;;;
  ret 0.

(** [while (kfifo_get(..)) olayer_reset_stream(i);] (recovery.c) *)
Fixpoint drain_streams (fuel : nat) : M kst unit :=
  match fuel with
  | O => stall
  | S fuel =>
      q <-- gets free_stream_q ;;
      match kfifo_get q with
      | None => ret tt
      | Some (i, q') =>
          modify (fun k => k <| free_stream_q := q' |>) ;;;
          olayer_reset_stream i ;;;
          drain_streams fuel
      end
  end.

Definition olayer_unregister_all_streams : M kst Z :=
  modify (fun k => k <| registered_list := [] |>) ;;;
  q <-- gets free_stream_q ;;
  drain_streams (S (length q)) ;;;
  ret 0.

(** ** The test hooks of horae.c: [unit] and [pos] in units of 8 bytes *)

Definition write_cmb_test_multithread (unit_ : Z) (sync : bool) (pos sid : Z) : M kst Z :=
  s <-- get_stream sid ;;
  cmb_write sid (u32 (pos * 8) * sizeof_cmd) (unit_ * 8) ;;;
  (if sync then cmb_flush sid (u32 (pos * 8)) (unit_ * 8) else ret tt) ;;;
  check (negb (ometa_size s / 8 =? 0)) DivByZero ;;;
  ret (u32 (pos + unit_) mod (ometa_size s / 8)).

Definition write_cmb_test (unit_ : Z) (sync : bool) (pos : Z) : M kst Z :=
  write_cmb_test_multithread unit_ sync pos 0.

Definition read_cmb_test_multithread (unit_ pos sid : Z) : M kst Z :=
  s <-- get_stream sid ;;
  cmb_read sid (u32 (pos * 8)) (unit_ * 8) ;;;
  check (negb (ometa_size s / 8 =? 0)) DivByZero ;;;
  ret (u32 (pos + unit_) mod (ometa_size s / 8)).

Definition read_cmb_test (unit_ pos : Z) : M kst Z := read_cmb_test_multithread unit_ pos 0.
End registry.
