(* ===== verification/RegistryFacts.v ===== *)
(** * Correctness of the initialisation and registration of streams *)

From S2P Require Import Prelude Ring Horae Scan Cmb Checkpoint CheckpointFacts JournalFacts Stream StreamFacts Registry.

Lemma roundup_pow_of_two_ge n : 1 <= n -> n <= roundup_pow_of_two n.
Proof.
  intros ?. unfold roundup_pow_of_two. destruct (decide (n = 1)) as [->|]; [done|].
  pose proof (Z.log2_up_spec n). lia.
Qed.

Section init.
Context `{Kernel} `{!KernelLaws}.

(** What the load of the module needs: at least one slot per stream, a
    region and a journal whose size fits 32 bits. *)
Record load_ok (olog nr js : Z) (buf : Z -> Z -> list nvme_rw_command_) : Prop := {
  lo_nr : 0 < nr < 2 ^ 32;
  lo_olog : olog < 2 ^ 32;
  lo_slots : 0 < olog / sizeof_cmd / nr < 2 ^ 25;
  lo_journal : 0 <= js /\ 256 * js < 2 ^ 32;
  lo_buf : forall i n, 0 < n -> Z.of_nat (length (buf i n)) = n;
}.

Lemma slots_fit olog nr : 0 < nr -> 0 <= olog -> olog / sizeof_cmd / nr * sizeof_cmd * nr <= olog.
Proof.
  intros ? ?. unfold sizeof_cmd. rewrite Z.div_div by lia.
  pose proof (Z.mul_div_le olog (64 * nr) ltac:(lia)). lia.
Qed.

Lemma journal_share js nr :
  0 < nr -> 0 <= js -> 256 * js < 2 ^ 32 ->
  NR_JOURNAL_REGION_BLOCK js = 256 * js /\
  0 <= NR_JOURNAL_REGION_BLOCK js / nr /\ NR_JOURNAL_REGION_BLOCK js / nr * nr <= 256 * js.
Proof.
  intros ? ? ?. unfold NR_JOURNAL_REGION_BLOCK. change (MB / HORAE_BLOCK_SIZE) with 256.
  rewrite wrap_small by lia. split; [done|]. split; [apply Z.div_pos; lia|].
  pose proof (Z.mul_div_le (256 * js) nr ltac:(lia)). lia.
Qed.

(** The initial stream satisfies the invariant, and its parts of the
    regions are as computed without overflow. *)
Lemma init_stream_ok olog nr cps js raw buf i c :
  load_ok olog nr js buf -> dev_size c = olog -> 0 <= i < nr ->
  let n := olog / sizeof_cmd / nr in
  let s := init_stream olog nr cps js raw (buf i n) i in
  stream_ok s /\ cmb_geom s c /\ log s = [] /\ nr_ometa s = n /\
  off_in_cmb s = i * ometa_size s /\ ometa_size s = n * sizeof_cmd /\
  nr_journal_block s = 256 * js / nr /\ off_in_journal s = i * nr_journal_block s /\
  j_write_ptr s = off_in_journal s.
Proof.
  intros [Hnr Holog Hn [Hj1 Hj2] Hbuf] Hdev Hi n s. fold n in Hn.
  pose proof (slots_fit olog nr ltac:(lia)) as Hfit. fold n in Hfit.
  assert (Holog0 : 0 <= olog).
  { destruct (decide (0 <= olog)); [done|]. exfalso.
    pose proof (Z.div_lt_upper_bound olog sizeof_cmd 0). pose proof (Z.div_lt_upper_bound (olog / sizeof_cmd) nr 0).
    unfold n, sizeof_cmd in *. lia. }
  specialize (Hfit Holog0). unfold sizeof_cmd in *.
  destruct (journal_share js nr) as (Ejr & Hs0 & Hs1); [lia..|].
  assert (Hn2 : n < 33554432) by apply Hn.
  assert (Hoff : 0 <= i * (n * 64) /\ i * (n * 64) + n * 64 <= olog) by nia.
  assert (Hjo : 0 <= i * (NR_JOURNAL_REGION_BLOCK js / nr) /\
            i * (NR_JOURNAL_REGION_BLOCK js / nr) + NR_JOURNAL_REGION_BLOCK js / nr <= 256 * js) by nia.
  assert (Es : ometa_size s = n * 64) by (unfold s; simpl; fold n; apply wrap_small; pow2_consts; lia).
  assert (Eo : off_in_cmb s = i * ometa_size s).
  { change (u64 (i * u64 (n * 64)) = i * u64 (n * 64)).
    rewrite (wrap_small 64 (n * 64)) by (pow2_consts; lia).
    apply wrap_small. pow2_consts. lia. }
  assert (Ej : nr_journal_block s = NR_JOURNAL_REGION_BLOCK js / nr) by done.
  assert (Eoj : off_in_journal s = i * nr_journal_block s)
    by (rewrite Ej; unfold s; simpl; apply wrap_small; pow2_consts; lia).
  assert (Eb : Z.of_nat (length (ometa_start s)) = n) by (apply Hbuf; lia).
  assert (El : log s = []) by (change (slot s <$> ring_range n 0 0 = []); by rewrite ring_range_nil).
  assert (Ep : j_write_ptr s = off_in_journal s) by done.
  split_and!; try done.
  - split.
    + split; [exact Hn|exact Eb|change (0 <= 0 < n); lia..].
    + rewrite El. constructor.
    + done.
    + change ((0 - 0) mod n <= (0 - 0) mod n). lia.
    + change (0 <= 0 < n). lia.
    + rewrite Ep, Eoj, Ej. lia.
  - unfold cmb_geom. rewrite Eo, Es, Eb. unfold sizeof_cmd. rewrite Hdev.
    split_and!; [apply Hn|apply Hn|done|done|lia|lia|lia].
  - rewrite Ej, Ejr. done.
Qed.

(** The loop of [init_streams]. *)
Definition init_inv (k0 : kst) raw buf (dn : list Z) (k : kst) : Prop :=
  k = k0 <| streams := (fun i => init_stream (olog_size k0) (nr_streams k0) (cp_size k0) (journal_size k0)
                (raw i) (buf i (olog_size k0 / sizeof_cmd / nr_streams k0)) i) <$> dn |>
         <| free_stream_q := dn |>.

Lemma init_loop_ok k0 raw buf :
  streams k0 = [] -> free_stream_q k0 = [] -> 0 < nr_streams k0 < 2 ^ 32 ->
  nr_streams k0 <= free_stream_cap k0 ->
  runs (for_each (seqZ 0 (nr_streams k0)) (init_one raw buf)) k0
    (fun _ k => init_inv k0 raw buf (seqZ 0 (nr_streams k0)) k).
Proof.
  intros Hs Hq Hnr Hcap. apply (runs_for_each (fun dn k => init_inv k0 raw buf dn k)).
  { unfold init_inv. destruct k0; simpl in *. by subst. }
  intros dn i rest k Hsplit ->. unfold init_one. kstep. unfold init_inv.
  assert (Hlen : Z.of_nat (length dn) < nr_streams k0).
  { pose proof (length_seqZ 0 (nr_streams k0)) as Hl. rewrite Hsplit, length_app in Hl. simpl in Hl. lia. }
  assert (Hi : 0 <= i < nr_streams k0).
  { apply (elem_of_seqZ 0 (nr_streams k0)). rewrite Hsplit. apply elem_of_app. right. left. }
  destruct k0; simpl in *. unfold update. simpl. unfold kfifo_put. rewrite fmap_app. simpl.
  case_match eqn:Hc; [|apply Z.ltb_ge in Hc; lia]. by rewrite wrap_small by lia.
Qed.

Lemma init_streams_runs k raw buf :
  let nr := if nr_streams k <=? 0 then u32 num_possible_cpus else nr_streams k in
  0 < nr < 2 ^ 32 ->
  runs (init_streams true raw buf) k (fun r k' => r = 0 /\
    nr_streams k' = nr /\ ci k' = ci k /\ held k' = held k /\ ipu_tree k' = ∅ /\
    blocks_per_group k' = 1 /\ free_stream_q k' = seqZ 0 nr /\
    nr <= free_stream_cap k' /\
    streams k' = (fun i => init_stream (olog_size k) nr (cp_size k) (journal_size k)
                (raw i) (buf i (olog_size k / sizeof_cmd / nr)) i) <$> seqZ 0 nr).
Proof.
  intros nr Hnr. unfold init_streams. rstep. kstep. rstep. kstep. simpl nr_streams. fold nr.
  rstep. apply runs_check; [by apply negb_true_iff, Z.eqb_neq; lia|]. rstep.
  apply runs_check; [done|]. rstep. kstep. rstep.
  set (k1 := update _ _). assert (E1 : nr_streams k1 = nr) by done. rewrite <- E1.
  pose proof (roundup_pow_of_two_ge nr ltac:(lia)).
  eapply runs_conseq; [apply init_loop_ok; rewrite ?E1; try done; simpl; lia|].
  intros [] k2 ->. kstep. split_and!; try done; simpl; fold nr; lia.
Qed.
End init.

(** ** Reset *)

(** The fields a reset leaves, computed once. *)
Lemma reset_stream_eq s :
  reset_stream s =
  mk_stream (ometa_size s) (nr_ometa s) (off_in_cmb s) 0 0 0 0 (last_txid s) 0 0
    (replicate (Z.to_nat (ometa_size s / sizeof_cmd)) zero_cmd)
    (s_cp_size s) (nr_cp_block s) (off_in_cp s) (j_size s) (nr_journal_block s)
    (off_in_journal s) (j_write_ptr s) 0 0 (stream_id s) 0 0.
Proof. destruct s. vm_compute. reflexivity. Qed.

Lemma reset_stream_ok s c :
  stream_ok s -> cmb_geom s c ->
  stream_ok (reset_stream s) /\ cmb_geom (reset_stream s) c /\ log (reset_stream s) = [].
Proof.
  intros [[Hn Hl Hh Ht Hf] He Hw Hfl Hd Hj] (_ & Hsz & _ & Ho & Hfit & Hdev).
  rewrite reset_stream_eq.
  assert (En : Z.of_nat (length (replicate (Z.to_nat (ometa_size s / sizeof_cmd)) zero_cmd)) = nr_ometa s).
  { rewrite length_replicate, Hsz, Z.div_mul by (unfold sizeof_cmd; lia). lia. }
  assert (El : log (mk_stream (ometa_size s) (nr_ometa s) (off_in_cmb s) 0 0 0 0 (last_txid s) 0 0
    (replicate (Z.to_nat (ometa_size s / sizeof_cmd)) zero_cmd)
    (s_cp_size s) (nr_cp_block s) (off_in_cp s) (j_size s) (nr_journal_block s)
    (off_in_journal s) (j_write_ptr s) 0 0 (stream_id s) 0 0) = []).
  { unfold log, entries. cbn [head tail nr_ometa]. by rewrite ring_range_nil. }
  split_and!; [|split_and!; [apply Hn|apply Hn|exact Hsz|exact En|exact Ho|exact Hfit|exact Hdev]|exact El].
  split.
  - split; [exact Hn|exact En|cbn; lia..].
  - rewrite El. constructor.
  - reflexivity.
  - cbn [flushed head tail nr_ometa]. lia.
  - cbn [last_queue_flushed nr_ometa]. lia.
  - exact Hj.
Qed.

(** ** The free queue *)

Section handout.
Context `{Kernel} `{!KernelLaws}.

(** The invariant of the registry. *)
Record registry_ok (k : kst) : Prop := {
  ro_nr : 0 < nr_streams k < 2 ^ 32;
  ro_len : Z.of_nat (length (streams k)) = nr_streams k;
  ro_cap : nr_streams k <= free_stream_cap k;
  ro_free : NoDup (free_stream_q k);
  ro_range : Forall (fun i => 0 <= i < nr_streams k) (free_stream_q k);
  ro_devs : NoDup (dev_ID <$> registered_list k);
}.

Lemma add_dev_ok l d :
  NoDup (dev_ID <$> l) -> NoDup (dev_ID <$> add_dev l d) /\ d.1 ∈ dev_ID <$> add_dev l d /\
  (forall i, i ∈ dev_ID <$> l -> i ∈ dev_ID <$> add_dev l d).
Proof.
  intros Hl. unfold add_dev. destruct (existsb _ l) eqn:E.
  - split_and!; [done| |done]. apply existsb_exists in E as (r & Hr & Er).
    apply Z.eqb_eq in Er. rewrite <- Er. apply list_elem_of_fmap_2. by apply list_elem_of_In.
  - rewrite fmap_cons. split_and!; [|left|by right]. apply NoDup_cons. split; [|done].
    intros (r & Er & Hr)%list_elem_of_fmap. assert (existsb (fun r => dev_ID r =? d.1) l = true); [|congruence].
    apply existsb_exists. exists r. split; [by apply list_elem_of_In|]. apply Z.eqb_eq. done.
Qed.

Lemma add_devs_ok ds l :
  NoDup (dev_ID <$> l) -> NoDup (dev_ID <$> foldl add_dev l ds) /\
  (forall d, d ∈ ds -> d.1 ∈ dev_ID <$> foldl add_dev l ds) /\
  (forall i, i ∈ dev_ID <$> l -> i ∈ dev_ID <$> foldl add_dev l ds).
Proof.
  revert l. induction ds as [|d ds IH]; intros l Hl; [set_solver|].
  destruct (add_dev_ok l d Hl) as (H1 & H2 & H3). simpl. destruct (IH _ H1) as (I1 & I2 & I3).
  split_and!; [done|set_solver|set_solver].
Qed.

Lemma del_dev_sub id l : forall i, i ∈ dev_ID <$> del_dev id l -> i ∈ dev_ID <$> l.
Proof.
  induction l as [|r l IH]; simpl; [done|]. destruct (dev_ID r =? id); simpl; set_solver.
Qed.

Lemma del_dev_ok id l :
  NoDup (dev_ID <$> l) -> NoDup (dev_ID <$> del_dev id l) /\ id ∉ dev_ID <$> del_dev id l.
Proof.
  induction l as [|r l IH]; simpl; intros Hl; [set_solver|].
  apply NoDup_cons in Hl as [Hr Hl]. destruct (IH Hl). destruct (Z.eqb_spec (dev_ID r) id) as [<-|].
  - done.
  - rewrite fmap_cons. split; [apply NoDup_cons; split; [|done]|set_solver].
    intros Hi. by apply Hr, (del_dev_sub id).
Qed.

Lemma del_devs_nodup devs l :
  NoDup (dev_ID <$> l) -> NoDup (dev_ID <$> foldl (fun l d => del_dev d l) l devs).
Proof.
  revert l. induction devs as [|d devs IH]; intros l Hl; [done|]. simpl.
  apply IH. by destruct (del_dev_ok d l Hl).
Qed.

(** [k'] is [k] with the streams listed updated by [f]. *)
Definition updated (f : stream -> stream) (k : kst) (ids : list Z) (k' : kst) : Prop :=
  k' = k <| streams := streams k' |> /\ length (streams k') = length (streams k) /\
  forall i s, streams k !! i = Some s ->
    streams k' !! i = Some (if decide (Z.of_nat i ∈ ids) then f s else s).

(** A loop that updates the listed streams one after the other. *)
Lemma upd_streams_loop (f : stream -> stream) (body : Z -> M kst unit) k ids :
  0 < nr_streams k < 2 ^ 32 -> Z.of_nat (length (streams k)) = nr_streams k ->
  Forall (fun i => 0 <= i < nr_streams k) ids -> NoDup ids ->
  (forall i k1, body i k1 = (sid <-- clamp_sid i ;; upd_stream sid f) k1) ->
  runs (for_each ids body) k (fun _ k' => updated f k ids k').
Proof.
  intros Hnr Hlen Hids Hnd Hb.
  apply (runs_for_each (fun dn k' => updated f k dn k')).
  { split_and!; [by destruct k|done|]. intros i s Hs. rewrite decide_False; [done|]. apply not_elem_of_nil. }
  intros dn x rest k1 -> (E1 & L1 & S1). apply Forall_app in Hids as [_ [Hx _]%Forall_cons].
  apply NoDup_app in Hnd as (_ & Hdn & _). unfold runs. rewrite Hb.
  destruct (lookup_lt_is_Some_2 (streams k1) (Z.to_nat x)) as [s1 Hs1]; [lia|].
  assert (Hn1 : nr_streams k1 = nr_streams k) by by rewrite E1.
  unfold clamp_sid. rewrite bind_assoc, bind_gets, bind_ret, Hn1.
  destruct (Z.leb_spec (nr_streams k) x); [lia|].
  rewrite (upd_stream_Ret x f s1) by (lia || done). unfold updated. simpl.
  split_and!; [by rewrite E1|by rewrite length_insert|].
  intros i s Hs. destruct (decide (i = Z.to_nat x)) as [->|Hne].
  - rewrite list_lookup_insert_eq by (by eapply lookup_lt_Some).
    rewrite Z2Nat.id by lia. rewrite decide_True by set_solver.
    pose proof (S1 _ _ Hs) as Hs'. rewrite Hs1, Z2Nat.id, decide_False in Hs' by (lia || set_solver).
    congruence.
  - rewrite list_lookup_insert_ne by done. rewrite (S1 _ _ Hs).
    assert (Z.of_nat i ≠ x) by lia. repeat case_decide; set_solver.
Qed.

Definition assigned (p : init_param) (s : stream) : stream :=
  s <| nr_devices := p_nr_device p |> <| cmb_device_id := p_cmb_device_id p |>.

Lemma register_runs nr p k :
  registry_ok k -> 0 <= nr -> p_nr_device p <= Z.of_nat (length (p_devices p)) ->
  let n := Z.to_nat (Z.min nr (nr_streams k)) in
  runs (olayer_register_streams nr p) k (fun strs k' =>
    strs = take n (free_stream_q k) /\ free_stream_q k' = drop n (free_stream_q k) /\
    registry_ok k' /\ free_stream_cap k' = free_stream_cap k /\ nr_streams k' = nr_streams k /\
    blocks_per_group k' = p_parea_partition_hint p /\
    (forall d, d ∈ take (Z.to_nat (p_nr_device p)) (p_devices p) ->
       d.1 ∈ dev_ID <$> registered_list k') /\
    (forall i s, streams k !! i = Some s -> streams k' !! i =
       Some (if decide (Z.of_nat i ∈ strs) then assigned p s else s))).
Proof.
  intros [Hnr Hlen Hcap Hnd Hr Hdv] Hn Hp n. unfold olayer_register_streams. rstep. kstep. cbv zeta.
  assert (En : (if nr_streams k <? nr then nr_streams k else nr) = Z.min nr (nr_streams k))
    by (destruct (Z.ltb_spec (nr_streams k) nr); lia).
  rewrite En. clear En. rstep. apply runs_check; [by apply Z.leb_le|]. rstep. kstep. rstep. kstep.
  unfold kfifo_out. fold n. simpl free_stream_q. rstep. kstep. rstep.
  set (k1 := update _ _). set (q := free_stream_q k) in *.
  assert (Hsub : Forall (fun i => 0 <= i < nr_streams k) (take n q) /\ NoDup (take n q) /\
                 Forall (fun i => 0 <= i < nr_streams k) (drop n q) /\ NoDup (drop n q)).
  { rewrite <- (take_drop n q) in Hnd, Hr. apply NoDup_app in Hnd as (? & _ & ?).
    by apply Forall_app in Hr as [? ?]. }
  destruct Hsub as (Hs1 & Hs2 & Hs3 & Hs4).
  eapply runs_conseq; [apply (upd_streams_loop (assigned p) _ k1 (take n q)); try done|].
  intros [] k2 (E2 & L2 & S2). rstep. kstep. kstep.
  destruct (add_devs_ok (take (Z.to_nat (p_nr_device p)) (p_devices p)) (registered_list k) Hdv)
    as (D1 & D2 & _).
  split_and!; [done|by rewrite E2| |by rewrite E2|by rewrite E2|done|rewrite E2; exact D2|exact S2].
  split; try (rewrite E2; done). simpl. rewrite L2. by rewrite E2.
Qed.

Lemma unregister_runs strs devs k :
  registry_ok k -> Forall (fun i => 0 <= i < nr_streams k) strs -> NoDup (free_stream_q k ++ strs) ->
  runs (olayer_unregister_streams strs devs) k (fun r k' => r = 0 /\
    free_stream_q k' = free_stream_q k ++ strs /\ registry_ok k' /\
    nr_streams k' = nr_streams k /\ free_stream_cap k' = free_stream_cap k /\
    (forall i s, streams k !! i = Some s -> streams k' !! i =
       Some (if decide (Z.of_nat i ∈ strs) then reset_stream s else s))).
Proof.
  intros [Hnr Hlen Hcap Hnd Hr Hdv] Hstrs Hnd2. unfold olayer_unregister_streams.
  rstep. kstep. rstep. kstep. rstep. kstep. simpl free_stream_q. simpl free_stream_cap.
  set (q := free_stream_q k) in *.
  assert (Hall : Forall (fun i => 0 <= i < nr_streams k) (q ++ strs)) by by apply Forall_app.
  assert (Hfit : Z.of_nat (length (q ++ strs)) <= nr_streams k).
  { assert (Hsub : q ++ strs ⊆+ seqZ 0 (nr_streams k)).
    { apply NoDup_submseteq; [done|]. intros x Hx. rewrite Forall_forall in Hall.
      apply elem_of_seqZ. specialize (Hall x Hx). lia. }
    apply submseteq_length in Hsub. rewrite length_seqZ in Hsub. lia. }
  rewrite length_app in Hfit. unfold kfifo_in. rewrite take_ge by lia.
  rstep. kstep. rstep. set (k1 := update _ _).
  eapply runs_conseq; [apply (upd_streams_loop reset_stream _ k1 strs); try done|].
  { by apply NoDup_app in Hnd2 as (_ & _ & ?). }
  intros [] k2 (E2 & L2 & S2). kstep.
  assert (Hdel : NoDup (dev_ID <$> foldl (fun l d => del_dev d l) (registered_list k) devs)).
  { by apply del_devs_nodup. }
  split_and!; [done|by rewrite E2| |by rewrite E2|by rewrite E2|exact S2].
  split; try (rewrite E2; done). rewrite L2. by rewrite E2.
Qed.
End handout.
