(* ===== verification/Recovery.v ===== *)
(** * Unmount and crash recovery (ccnvme/recovery.c) *)

From S2P Require Import Prelude Ring Horae Scan Cmb Checkpoint Stream Registry.

Section recovery.
Context `{Kernel}.

(** ** Write-back of one entry at unmount *)

Fixpoint commit_entry_blocks (n : nat) (o : nvme_rw_command_) (sb id start_lba : Z)
    : M kst Z :=
  match n with
  | O => ret 0
  | S n =>
      bpg <-- gets blocks_per_group ;;
      check (negb (bpg =? 0)) DivByZero ;;;
      let pos := ipu_pos bpg start_lba in
      lock_take (IpuTreeLock pos.1) ;;;
      entry <-- radix_tree_delete pos ;;
      lock_drop (IpuTreeLock pos.1) ;;;
      match entry with
      | None => ret tt
      | Some e =>
          warn_on ((ipu_txid e <? id) && (plba o =? 0)) ;;;
          check (sb_getblk sb start_lba) NullDeref ;;;
          busy <-- gets (fun k => bool_decide ((sb, start_lba) ∈ bh_busy k)) ;;
          (if busy then ret tt else emit (CommitBh sb start_lba)) ;;;
          emit (WaitBuffer sb start_lba) ;;;
          modify (fun k => k <| bh_busy ::= (.∖ {[(sb, start_lba)]}) |>) ;;;
          emit (PutPage sb start_lba)
      end ;;;
      commit_entry_blocks n o sb id (u64 (start_lba + 1))
  end.

Definition commit_write_entry (o : nvme_rw_command_) (sb id : Z) : M kst Z :=
  commit_entry_blocks (Z.to_nat (clength o)) o sb id (lba o).

(** ** Unmount *)

Definition shutdown_inner (s : stream) (sb k id : Z) (_ : unit) : M kst unit :=
  o <-- stream_ometa_at s k ;;
  if plba o =? 0 then ret tt
  else
    o <-- stream_ometa_at s k ;;
    _ <-- commit_write_entry o sb id ;; ret tt.

(** One turn of the outer loop; what the scan remembers survives it. *)
Definition shutdown_stream (sb sid : Z) (st : scan unit) : M kst (scan unit) :=
  nr <-- gets nr_streams ;;
  if nr <=? sid then ret st
  else
    s <-- get_stream sid ;;
    scan_loop u32 (nr_ometa s) (stream_ometa_at s) (shutdown_inner s sb) (head s) (flushed s) st.

(** [begin_idx] and [begin_txid] are not initialised; they are read after a
    beginning was found only. *)
Definition graceful_shutdown (sids : list Z) (sb : Z) : M kst unit :=
  _ <-- fold_loop (shutdown_stream sb) sids (mk_scan 0 0 0 tt) ;;
  ret tt.

(** ** Copying journal blocks home *)

Definition dev_key (d : block_device) (blk : Z) : Z * Z * Z := (bd_disk d, bd_partno d, blk).

(** The contents a read bio fetched: [nr] pages from block [blk]. *)
Definition read_pages (m : gmap (Z * Z * Z) Z) (d : block_device) (blk nr : Z) : list (option Z) :=
  (fun i => m !! dev_key d (blk + i)) <$> seqZ 0 nr.

Fixpoint write_pages (m : gmap (Z * Z * Z) Z) (d : block_device) (blk : Z) (ps : list (option Z))
    : gmap (Z * Z * Z) Z :=
  match ps with
  | [] => m
  | p :: ps => write_pages (partial_alter (fun _ => p) (dev_key d blk) m) d (blk + 1) ps
  end.

(** [read_bio->bi_iter.bi_sector = o->plba * 8] multiplies 32-bit numbers.  The
    bio is filled page by page; [bio_add_page] of Linux 4.18 joins a piece to the
    last vector only when both are in the same page, so every page, which is newly
    allocated, takes a vector of its own, and the bio ends at [BIO_MAX_PAGES]. *)
Definition crash_recovery_commit_write (o : nvme_rw_command_) (bd : block_device) : M kst Z :=
  cp <-- gets cp_dev ;;
  let nr := Z.min (clength o) BIO_MAX_PAGES in
  let vecs := (fun i => mk_bvec i PAGE_SIZE 0) <$> seqZ 0 nr in
  let read_bio := mk_bio (bd_disk cp) (bd_partno cp) (u32 (plba o * 8)) (nr * PAGE_SIZE)
                    (Z.lor REQ_OP_READ REQ_SYNC) vecs in
  emit (SubmitBioWait read_bio) ;;;
  pages <-- gets (fun k => read_pages (disk k) cp (bi_sector read_bio / 8) nr) ;;
  let write_bio := (bio_set_dev read_bio bd) <| bi_opf := Z.lor REQ_OP_WRITE REQ_SYNC |>
                      <| bi_sector := u64 (lba o * 8) |> in
  emit (SubmitBioWait write_bio) ;;;
  modify (fun k => k <| disk ::= fun m => write_pages m bd (bi_sector write_bio / 8) pages |>) ;;;
  ret 0.

(** ** Crash recovery

    The tags are read from the image of the queue that [cmb_read] put in the
    read buffer, the entries to replay from the host's queue. *)

Definition buffer_entry (buf : gmap Z Z) (j : Z) : M kst nvme_rw_command_ :=
  ret (decode_cmd (read_bytes buf (j * sizeof_cmd) sizeof_cmd)).

Definition recovery_inner (s : stream) (bd : block_device) (k _id : Z) (_ : unit) : M kst unit :=
  o <-- stream_ometa_at s k ;;
  if plba o =? 0 then ret tt
  else
    o <-- stream_ometa_at s k ;;
    _ <-- crash_recovery_commit_write o bd ;; ret tt.

Definition recover_stream (bd : block_device) (sid : Z) (st : scan unit) : M kst (scan unit) :=
  s <-- get_stream sid ;;
  cmb_read sid 0 (ometa_size s) ;;;
  buf <-- gets read_buffer ;;
  scan_loop u32 (nr_ometa s) (buffer_entry buf) (recovery_inner s bd) (head s) (flushed s) st.

Definition olayer_crash_recovery (bd : block_device) : M kst Z :=
  nr <-- gets nr_streams ;;
  _ <-- fold_loop (recover_stream bd) (seqZ 0 nr) (mk_scan 0 0 0 tt) ;;
  ret 0.

(** ** Debugging: the entries [debug_stream] prints *)

Definition debug_stream (sid : Z) : M kst (list nvme_rw_command_) :=
  nr <-- gets nr_streams ;;
  if nr <=? sid then ret []
  else
    s <-- get_stream sid ;;
    cmb_read sid 0 (ometa_size s) ;;;
    buf <-- gets read_buffer ;;
    ring_loop u64 (tail s) (nr_ometa s)
      (fun i acc => check (negb (nr_ometa s =? 0)) DivByZero ;;;
                    o <-- buffer_entry buf i ;; ret (acc ++ [o]))
      (S (Z.to_nat (nr_ometa s))) (head s) [].
End recovery.
