(* ===== verification/RecoveryFacts.v ===== *)
(** * Correctness of crash recovery

    Recovery replays, in log order, the journalled entries of the complete
    transactions of each stream: it is a pure function of the logs and of the
    disks ([replay_log]). *)

From S2P Require Import Prelude Ring Horae Scan Cmb Checkpoint CheckpointFacts JournalFacts Stream StreamFacts DoorbellFacts TxFacts Registry Recovery.

(** ** Copies between devices *)

Definition same_dev (d d' : block_device) : Prop := bd_disk d = bd_disk d' /\ bd_partno d = bd_partno d'.
#[export] Instance same_dev_dec d d' : Decision (same_dev d d').
Proof. unfold same_dev. apply _. Defined.

Lemma dev_key_eq d d' x y : dev_key d x = dev_key d' y <-> same_dev d d' /\ x = y.
Proof.
  unfold dev_key, same_dev. split; [intros E; injection E; auto|]. by intros [[-> ->] ->].
Qed.

(** Splits on whether a block is in the range of a copy. *)
Ltac dev_cases :=
  repeat case_decide; destruct_and?; try done;
  try (exfalso; match goal with H : ~ (_ /\ _) |- _ => apply H; split; [done|lia] end).

Lemma write_pages_lookup m d blk ps d' x :
  write_pages m d blk ps !! dev_key d' x =
  if decide (same_dev d d' /\ blk <= x < blk + Z.of_nat (length ps))
  then mjoin (ps !! Z.to_nat (x - blk)) else m !! dev_key d' x.
Proof.
  revert m blk. induction ps as [|p ps IH]; intros m blk; simpl.
  { rewrite decide_False by (intros [_ ?]; lia). done. }
  rewrite IH. destruct (decide (same_dev d d')) as [Hd|Hd].
  2:{ rewrite !decide_False by tauto. apply lookup_partial_alter_ne. rewrite dev_key_eq. tauto. }
  destruct (decide (x = blk)) as [->|Hx].
  - rewrite decide_False by (intros [_ ?]; lia). rewrite decide_True by (split; [done|lia]).
    rewrite Z.sub_diag. simpl.
    assert (dev_key d' blk = dev_key d blk) as -> by (apply dev_key_eq; destruct Hd; done).
    by rewrite lookup_partial_alter_eq.
  - rewrite lookup_partial_alter_ne by (rewrite dev_key_eq; intros [_ ?]; congruence).
    dev_cases. by replace (Z.to_nat (x - blk)) with (S (Z.to_nat (x - (blk + 1)))) by lia.
Qed.

(** A copied run of blocks: inside the target it is the source, outside
    nothing changed. *)
Lemma copy_pages_lookup m src dst from to nr d x :
  write_pages m dst to (read_pages m src from nr) !! dev_key d x =
  if decide (same_dev dst d /\ to <= x < to + nr)
  then m !! dev_key src (from + (x - to)) else m !! dev_key d x.
Proof.
  rewrite write_pages_lookup. unfold read_pages. rewrite length_fmap, length_seqZ.
  dev_cases. rewrite list_lookup_fmap, lookup_seqZ_lt by lia. simpl. do 2 f_equal. lia.
Qed.

Section recovery.
Context `{Kernel} `{!KernelLaws}.

(** ** The specification: replay of a log *)

Definition disks := gmap (Z * Z * Z) Z.

Definition replay_entry (cp bd : block_device) (m : disks) (o : nvme_rw_command_) : disks :=
  if plba o =? 0 then m
  else write_pages m bd (lba o) (read_pages m cp (plba o) (Z.min (clength o) BIO_MAX_PAGES)).

Definition replay_log (cp bd : block_device) (m : disks) (l : list nvme_rw_command_) : disks :=
  foldl (fun m tx => foldl (replay_entry cp bd) m tx.1.2) m (tx_scan None l).

(** Entries whose journal address fits the 32-bit sector arithmetic. *)
Definition journal_addr_ok (o : nvme_rw_command_) : Prop := 0 <= plba o < 2 ^ 29.

(** ** The implementation *)

Lemma commit_write_replay o bd k :
  entry_ok o -> journal_addr_ok o -> plba o ≠ 0 ->
  runs (crash_recovery_commit_write o bd) k (fun r k' => r = 0 /\
    exists evs, k' = k <| disk := replay_entry (cp_dev k) bd (disk k) o |> <| trace ::= (.++ evs) |>).
Proof.
  intros (Hl & Hc & He) [Hp Hp2] Hnz. change (2 ^ 29) with 536870912 in Hp2.
  unfold crash_recovery_commit_write. rstep. kstep. cbv zeta. rstep. kstep. rstep. kstep.
  rstep. kstep. rstep. kstep. kstep. split; [done|]. unfold replay_entry.
  destruct (Z.eqb_spec (plba o) 0); [done|]. simpl bi_sector.
  rewrite (wrap_small 32 (plba o * 8)) by (pow2_consts; lia).
  rewrite (wrap_small 64 (lba o * 8)) by (pow2_consts; lia).
  rewrite !Z.div_mul by lia. destruct k; unfold update; simpl.
  eexists [SubmitBioWait _; SubmitBioWait _]. rewrite <- app_assoc. reflexivity.
Qed.

Lemma recovery_inner_ok s bd i id k :
  ring_ok s -> 0 <= i < nr_ometa s -> entry_ok (slot s i) -> journal_addr_ok (slot s i) ->
  runs (recovery_inner s bd i id tt) k (fun _ k' =>
    exists evs, k' = k <| disk := replay_entry (cp_dev k) bd (disk k) (slot s i) |> <| trace ::= (.++ evs) |>).
Proof.
  intros Hok Hi He Hj. unfold recovery_inner. rstep.
  eapply runs_intro; [by apply stream_ometa_at_slot|].
  destruct (Z.eqb_spec (plba (slot s i)) 0) as [E|E].
  - kstep. exists []. unfold replay_entry. rewrite E, Z.eqb_refl. destruct k; unfold update; simpl.
    by rewrite app_nil_r.
  - rstep. eapply runs_intro; [by apply stream_ometa_at_slot|]. rstep.
    eapply runs_conseq; [by apply commit_write_replay|]. intros r k' (_ & evs & ->).
    kstep. by exists evs.
Qed.

(** A run that moves the disks by [f] and may issue calls. *)
Definition moves_disk (k : kst) (f : disks -> disks) (k' : kst) : Prop :=
  exists evs, k' = k <| disk ::= f |> <| trace ::= (.++ evs) |>.

Lemma moves_disk_trans k k1 k2 f g :
  moves_disk k f k1 -> moves_disk k1 g k2 -> moves_disk k (fun m => g (f m)) k2.
Proof.
  intros [e1 ->] [e2 ->]. exists (e1 ++ e2). destruct k; unfold update; simpl. by rewrite app_assoc.
Qed.

Lemma moves_disk_refl k : moves_disk k (fun m => m) k.
Proof. exists []. destruct k; unfold update; simpl. by rewrite app_nil_r. Qed.

Lemma moves_disk_cp k f k' : moves_disk k f k' -> cp_dev k' = cp_dev k.
Proof. by intros [? ->]. Qed.

Lemma fold_moves_disk {I} (l : list I) (body : I -> unit -> M kst unit)
    (f : I -> disks -> disks) k :
  (forall i k1, i ∈ l -> cp_dev k1 = cp_dev k -> runs (body i tt) k1 (fun _ k2 => moves_disk k1 (f i) k2)) ->
  runs (fold_loop body l tt) k (fun _ k' => moves_disk k (fun m => foldl (fun m i => f i m) m l) k').
Proof.
  intros Hb. apply (runs_fold_loop (fun dn _ k' =>
    moves_disk k (fun m => foldl (fun m i => f i m) m dn) k')).
  { apply moves_disk_refl. }
  intros dn i rest [] k1 -> Hk1. eapply runs_conseq.
  { apply Hb; [apply elem_of_app; right; left|by eapply moves_disk_cp]. }
  intros [] k2 Hk2. destruct (moves_disk_trans _ _ _ _ _ Hk1 Hk2) as [evs ->].
  exists evs. unfold update. simpl. by rewrite foldl_app.
Qed.

(** ** The image of the queue *)

(** The region after a read. *)
Definition drained (c : cmb_info) : cmb_info := c <| pmr := posted c |>.

Lemma cmb_read_ok sid s k :
  get_stream sid k = Ret s k -> cmb_geom s (ci k) ->
  cmb_read sid 0 (ometa_size s) k =
  Ret tt (k <| read_buffer ::= fun m =>
               write_bytes m 0 (read_bytes (view (ci k)) (off_in_cmb s) (ometa_size s)) |> <| ci := drained (ci k) |>).
Proof.
  intros Hs ((Hn & Hn2) & Hsz & _ & Ho & Hfit & Hd). unfold sizeof_cmd in *.
  unfold cmb_read, copy_from_dev_to_buff. rewrite (bind_Ret _ _ _ _ _ Hs), bind_gets. cbv zeta.
  rewrite Z.sub_0_r, Z.add_0_r, !(wrap_small 32) by (pow2_consts; lia).
  destruct (Z.ltb_spec (dev_size (ci k)) (ometa_size s)); [lia|].
  unfold memcpy_fromio, in_mapping. rewrite bind_gets, bind_check.
  { unfold drain. destruct (Z.ltb_spec 0 (ometa_size s)); [done|lia]. }
  apply andb_true_iff. split; apply Z.leb_le; lia.
Qed.

Lemma read_back m v off size a len :
  0 <= a -> a + len <= size ->
  read_bytes (write_bytes m 0 (read_bytes v off size)) a len = read_bytes v (off + a) len.
Proof.
  intros Ha Hl. unfold read_bytes at 1 3. apply list_fmap_ext. intros i x Hx.
  apply list_elem_of_lookup_2, elem_of_seqZ in Hx.
  assert (Hlen : length (read_bytes v off size) = Z.to_nat size)
    by (unfold read_bytes; by rewrite length_fmap, length_seqZ).
  rewrite write_bytes_lookup, decide_True by (rewrite Hlen; lia).
  unfold read_bytes. rewrite list_lookup_fmap, lookup_seqZ_lt by lia. simpl.
  do 2 f_equal. lia.
Qed.

(** The entry the device holds in slot [j]. *)
Definition image (c : cmb_info) (s : stream) (j : Z) : nvme_rw_command_ :=
  decode_cmd (read_bytes (view c) (slot_addr s j) sizeof_cmd).

(** What recovery needs of a stream: the device holds the entries of its
    flushed log, as the host has them. *)
Record recoverable (c : cmb_info) (s : stream) : Prop := {
  rc_ring : ring_ok s;
  rc_geom : cmb_geom s c;
  rc_entries : Forall (fun o => entry_ok o /\ journal_addr_ok o /\ cmd_wf o) (flushed_log s);
  rc_image : forall i, i ∈ ring_range (nr_ometa s) (head s) (flushed s) -> holds (view c) s i;
}.
Lemma recoverable_drained c s : recoverable c s -> recoverable (drained c) s.
Proof. by intros []. Qed.

(** No transaction is open at the end of the flushed log. *)
Definition ends_closed (s : stream) : Prop := left_open (flushed_log s) = None.

Lemma tx_scan_by_ext {E} (f g : E -> nvme_rw_command_) cur l :
  (forall x, x ∈ l -> f x = g x) -> tx_scan_by f cur l = tx_scan_by g cur l.
Proof.
  revert cur. induction l as [|x l IH]; intros cur Hfg; [done|]. simpl.
  rewrite (Hfg x) by left. destruct cur as [[b is_]|]; [destruct (has_tag _ _); [f_equal|]|];
    apply IH; intros; apply Hfg; by right.
Qed.

Lemma tx_open_ext {E} (f g : E -> nvme_rw_command_) cur l :
  (forall x, x ∈ l -> f x = g x) -> tx_open f cur l = tx_open g cur l.
Proof.
  revert cur. induction l as [|x l IH]; intros cur Hfg; [done|]. simpl.
  rewrite (Hfg x) by left. destruct cur as [[b is_]|]; [destruct (has_tag _ _)|];
    apply IH; intros; apply Hfg; by right.
Qed.

Lemma tx_open_fmap {E F} (f : E -> F) (hd : F -> nvme_rw_command_)
    (cur : option (E * list E)) (l : list E) :
  tx_open hd (cur_map f cur) (f <$> l) = cur_map f (tx_open (fun x => hd (f x)) cur l).
Proof.
  revert cur. induction l as [|x l IH]; intros cur; [done|]. rewrite fmap_cons. cbn [tx_open].
  destruct cur as [[b is_]|]; cbn [cur_map].
  - destruct (has_tag (hd (f x)) HORAE_TX_END); [apply (IH None)|].
    rewrite <- (IH (Some (b, is_ ++ [x]))). cbn [cur_map]. by rewrite fmap_app.
  - destruct (has_tag (hd (f x)) HORAE_TX_BEGIN); [apply (IH (Some (x, [])))|apply (IH None)].
Qed.

Lemma image_slot c s i :
  recoverable c s -> i ∈ ring_range (nr_ometa s) (head s) (flushed s) -> image c s i = slot s i.
Proof.
  intros [Hok _ He Hi] Hin. apply holds_decode; [by apply Hi|].
  rewrite Forall_forall in He. apply (He (slot s i)). by apply list_elem_of_fmap_2.
Qed.

(** ** One stream *)

Definition replay_slots (cp bd : block_device) (s : stream) (m : disks) (tx : Z * list Z * Z) : disks :=
  foldl (fun m i => replay_entry cp bd m (slot s i)) m tx.1.2.

Lemma foldl_fmap_list {X Y Z'} (g : X -> Y -> X) (f : Z' -> Y) (l : list Z') x :
  foldl g x (f <$> l) = foldl (fun x z => g x (f z)) x l.
Proof. revert x. induction l as [|z l IH]; intros x; [done|]. simpl. apply IH. Qed.

Lemma replay_log_slots cp bd s m is_ :
  replay_log cp bd m (slot s <$> is_) =
  foldl (replay_slots cp bd s) m (tx_scan_by (slot s) None is_).
Proof.
  unfold replay_log. change (tx_scan None (slot s <$> is_))
    with (tx_scan (cur_map (slot s) None) (slot s <$> is_)).
  rewrite tx_scan_slots, foldl_fmap_list. unfold replay_slots, tx_map. simpl.
  revert m. induction (tx_scan_by (slot s) None is_) as [|tx txs IH]; intros m; [done|].
  simpl. by rewrite foldl_fmap_list, IH.
Qed.

Lemma recover_tx_ok s bd tx ent k :
  ring_ok s ->
  Forall (fun i => 0 <= i < nr_ometa s /\ entry_ok (slot s i) /\ journal_addr_ok (slot s i)) tx.1.2 ->
  runs (scan_tx (recovery_inner s bd) ent tx tt) k (fun _ k' =>
    moves_disk k (fun m => replay_slots (cp_dev k) bd s m tx) k').
Proof.
  intros Hok Hin. destruct tx as [[b is_] e]. unfold scan_tx. rstep.
  assert (Hw : runs (warn_on (negb (txid (ent b) =? txid (ent e)))) k
            (fun _ k1 => moves_disk k (fun m => m) k1)).
  { unfold warn_on. destruct (negb _); kstep; [|apply moves_disk_refl].
    exists [WarnOn]. by destruct k. }
  eapply runs_conseq; [exact Hw|]. intros [] k1 Hk1. pose proof (moves_disk_cp _ _ _ Hk1) as Ecp.
  eapply runs_conseq.
  { apply (fold_moves_disk is_ _ (fun i m => replay_entry (cp_dev k) bd m (slot s i))).
    intros i k2 Hi Hcp. simpl in Hin. rewrite Forall_forall in Hin. destruct (Hin i Hi) as (? & ? & ?).
    eapply runs_conseq; [by apply recovery_inner_ok|]. intros _ k3 [evs ->].
    exists evs. rewrite Hcp, Ecp. by destruct k2. }
  intros [] k2 Hk2. exact (moves_disk_trans _ _ _ _ _ Hk1 Hk2).
Qed.

(** A recovery step: the read buffer is overwritten, the region drained, calls
    are issued, the disks move by [f]. *)
Record recovered (k : kst) (f : disks -> disks) (k' : kst) : Prop := {
  rv_frame : k' = k <| read_buffer := read_buffer k' |> <| ci := ci k' |> <| disk := disk k' |> <| trace := trace k' |>;
  rv_ci : ci k' = ci k \/ ci k' = drained (ci k);
  rv_disk : disk k' = f (disk k);
  rv_trace : exists evs, trace k' = trace k ++ evs;
}.

Lemma recovered_refl k : recovered k (fun m => m) k.
Proof. split; [by destruct k|by left|done|]. exists []. by rewrite app_nil_r. Qed.

Lemma recovered_trans k k1 k2 f g :
  recovered k f k1 -> recovered k1 g k2 -> recovered k (fun m => g (f m)) k2.
Proof.
  intros [E1 C1 D1 [e1 T1]] [E2 C2 D2 [e2 T2]]. split; [rewrite E2, E1; done| |by rewrite D2, D1|].
  { destruct C2 as [-> | ->]; [done|]. right. by destruct C1 as [-> | ->]. }
  exists (e1 ++ e2). by rewrite T2, T1, app_assoc.
Qed.

Lemma recovered_fields k f k' :
  recovered k f k' -> cp_dev k' = cp_dev k /\ streams k' = streams k /\ nr_streams k' = nr_streams k.
Proof. by intros [-> _ _ _]. Qed.

Lemma moves_recovered k rb f k' : moves_disk (k <| read_buffer := rb |> <| ci := drained (ci k) |>) f k' -> recovered k f k'.
Proof. intros [evs ->]. split; [by destruct k|by right|done|]. by exists evs. Qed.

Lemma recover_stream_ok bd sid s st k :
  0 <= sid < 2 ^ 32 -> streams k !! Z.to_nat sid = Some s -> recoverable (ci k) s -> phase st = 0 ->
  runs (recover_stream bd sid st) k (fun st' k' => (ends_closed s -> phase st' = 0) /\
    recovered k (fun m => replay_log (cp_dev k) bd m (flushed_log s)) k').
Proof.
  intros Hsid Hs Hrc Hp. pose proof Hrc as [Hok Hg He Hi].
  unfold recover_stream. rstep. eapply runs_get_stream; [done..|]. rstep.
  eapply runs_intro; [by apply cmb_read_ok; [apply get_stream_Ret|]|]. rstep. kstep.
  set (k1 := k <| read_buffer ::= _ |> <| ci := _ |>). simpl read_buffer.
  set (buf := write_bytes _ _ _). pose proof (ring_size s Hok) as Hn.
  set (is_ := ring_range (nr_ometa s) (head s) (flushed s)) in *.
  assert (CastOk (nr_ometa s) u32)
    by (apply u32_cast_ok; pow2_consts; change (2 ^ 25) with 33554432 in Hn; lia).
  assert (Hbuf : forall i k, 0 <= i < nr_ometa s -> buffer_entry buf i k = Ret (image (ci k1) s i) k).
  { intros i k' Hr. unfold buffer_entry, ret, image. change (view (ci k1)) with (view (ci k)). do 2 f_equal. unfold buf, slot_addr.
    destruct Hg as (_ & Hsz & _). unfold sizeof_cmd in *. by rewrite read_back by lia. }
  unfold runs. rewrite (scan_loop_ref u32 (nr_ometa s) Hn _ _ (image (ci k1) s) Hbuf); [|apply Hok..|done].
  fold is_. change (image (ci k1) s) with (image (ci k) s).
  assert (Him : forall x, x ∈ is_ -> image (ci k) s x = slot s x) by (intros; by apply image_slot).
  rewrite (tx_scan_by_ext _ (slot s)) by done. destruct st as [p b t []]. simpl in Hp. subst p.
  cbn [begin_idx begin_txid found].
  assert (Hfin : Forall (fun i => 0 <= i < nr_ometa s /\ entry_ok (slot s i) /\ journal_addr_ok (slot s i)) is_).
  { apply Forall_forall. intros i Hin. rewrite Forall_forall in He.
    destruct (He (slot s i)) as (? & ? & _); [by apply list_elem_of_fmap_2|].
    pose proof (ring_range_in s (head s) (flushed s) Hok (ring_head s Hok) (ring_flushed s Hok)) as Hr.
    rewrite Forall_forall in Hr. split_and!; [apply (Hr i Hin)|apply (Hr i Hin)|done|done]. }
  assert (Hrun : runs (fold_loop (scan_tx (recovery_inner s bd) (image (ci k) s))
      (tx_scan_by (slot s) None is_) tt) k1 (fun _ k' =>
        moves_disk k1 (fun m => foldl (replay_slots (cp_dev k) bd s) m (tx_scan_by (slot s) None is_)) k')).
  { apply (fold_moves_disk _ _ (fun tx m => replay_slots (cp_dev k) bd s m tx)).
    intros tx k2 Htx Hcp. change (cp_dev k) with (cp_dev k1). rewrite <- Hcp.
    apply recover_tx_ok; [done|].
    pose proof (tx_scan_by_in (slot s) _ None is_ Hfin ltac:(done)) as Hf.
    rewrite Forall_forall in Hf. by apply Hf. }
  apply runs_elim in Hrun as ([] & k' & Ek & Hk'). rewrite (bind_Ret _ _ _ _ _ Ek).
  unfold ret. split; [intros Hc|].
  - change ((foldl (ctl_step (image (ci k) s)) (0, b, t) is_).1.1 = 0).
    rewrite (ctl_open _ _ _ None) by done.
    rewrite (tx_open_ext _ (slot s)) by done.
    unfold ends_closed, left_open, flushed_log, entries in Hc. fold is_ in Hc.
    pose proof (tx_open_fmap (slot s) (fun o => o) None is_) as Ho. cbn [cur_map] in Ho. rewrite Hc in Ho.
    by destruct (tx_open (slot s) None is_) as [[? ?]|].
  - unfold flushed_log, entries. fold is_. destruct (moves_recovered k buf _ k' Hk') as [E C D T].
    split; [done|done|by rewrite D, replay_log_slots|done].
Qed.

Lemma removelast_lookup {A} (l : list A) i x : l !! i = Some x -> (S i < length l)%nat -> removelast l !! i = Some x.
Proof.
  revert i. induction l as [|y l IH]; intros i Hi Hl; [done|]. destruct l as [|z l]; [simpl in Hl; lia|].
  change (removelast (y :: z :: l)) with (y :: removelast (z :: l)). destruct i as [|i]; [done|]. apply IH; [done|simpl in *; lia].
Qed.

Lemma elem_of_removelast {A} (l : list A) x : x ∈ removelast l -> x ∈ l.
Proof.
  induction l as [|y [|z l] IH]; intros Hx; [done|by apply elem_of_nil in Hx|].
  change (x ∈ y :: removelast (z :: l)) in Hx. apply elem_of_cons in Hx as [->|Hx]; [by left|right; by apply IH].
Qed.

Lemma crash_recovery_ok bd k :
  0 <= nr_streams k < 2 ^ 32 -> Z.of_nat (length (streams k)) = nr_streams k ->
  Forall (recoverable (ci k)) (streams k) -> Forall ends_closed (removelast (streams k)) ->
  runs (olayer_crash_recovery bd) k (fun r k' => r = 0 /\
    recovered k (fun m => foldl (fun m s => replay_log (cp_dev k) bd m (flushed_log s)) m (streams k)) k').
Proof.
  intros Hnr Hlen Hrc Hcl. unfold olayer_crash_recovery. rstep. kstep. rstep.
  eapply runs_conseq.
  { apply (runs_fold_loop (fun dn st k' => ((length dn < length (streams k))%nat -> phase st = 0) /\ recovered k (fun m =>
      foldl (fun m s => replay_log (cp_dev k) bd m (flushed_log s)) m (take (length dn) (streams k))) k')).
    { split; [done|]. apply recovered_refl. }
    intros dn sid rest st k1 Hsplit [Hp Hk1].
    destruct (recovered_fields _ _ _ Hk1) as (Ecp & Es & _). pose proof (rv_ci _ _ _ Hk1) as Ec.
    assert (Hdn : Z.of_nat (length dn) = sid).
    { assert (Hl : seqZ 0 (nr_streams k) !! length dn = Some sid).
      { rewrite Hsplit. apply list_lookup_middle. done. }
      apply lookup_seqZ in Hl. lia. }
    assert (Hlt : (length dn < length (streams k))%nat).
    { pose proof (length_seqZ 0 (nr_streams k)) as Hl. rewrite Hsplit, length_app in Hl. simpl in Hl. lia. }
    destruct (lookup_lt_is_Some_2 (streams k) (length dn) Hlt) as [s Hs].
    eapply runs_conseq.
    { apply (recover_stream_ok bd sid s); [lia| | |by apply Hp].
      - by rewrite Es, <- Hdn, Nat2Z.id.
      - assert (Hr : recoverable (ci k) s) by by eapply Forall_lookup_1. destruct Ec as [-> | ->]; [done|by apply recoverable_drained]. }
    intros st' k2 [Hp2 Hk2]. rewrite length_app, Nat.add_1_r. split.
    { intros Hlt'. apply Hp2. eapply Forall_lookup_1; [exact Hcl|]. by apply (removelast_lookup _ _ _ Hs). }
    rewrite Ecp in Hk2. destruct (recovered_trans _ _ _ _ _ Hk1 Hk2) as [E C D T]. split; [done|done| |done].
    rewrite (take_S_r _ _ _ Hs). by rewrite foldl_app. }
  intros st k' [_ Hk']. apply runs_ret. split; [done|].
  rewrite length_seqZ, take_ge in Hk' by lia. exact Hk'.
Qed.
End recovery.
