(* ===== verification/Instances.v ===== *)
(** * A concrete kernel and a small loaded module

    Two streams of four slots each on a region of 512 bytes, a journal of one
    megabyte, one registered device.  The kernel constants are those of
    Linux 4.18 on x86-64. *)

From S2P Require Import Prelude Ring Horae Scan Cmb Checkpoint CheckpointFacts JournalFacts Stream StreamFacts DoorbellFacts TxFacts Registry RegistryFacts Recovery RecoveryFacts.

Definition kernel0 : Kernel := {|
  num_online_cpus := 2;
  num_possible_cpus := 4;
  num_possible_nodes := 1;
  MINOR := fun d => d mod 2 ^ 20;
  REQ_NR_BITS := 24;
  REQ_FUA := 2 ^ 17;
  REQ_PREFLUSH := 2 ^ 18;
  REQ_SYNC := 2 ^ 11;
  REQ_META := 2 ^ 12;
  REQ_PRIO := 2 ^ 13;
  REQ_OP_READ := 0;
  REQ_OP_WRITE := 1;
  BIO_MAX_PAGES := 256;
  PAGE_SIZE := 4096;
  NVME_CMBSZ_SZU_SHIFT := 8;
  NVME_CMBSZ_SZU_MASK := 15;
  NVME_CMBSZ_SZ_SHIFT := 12;
  NVME_CMBSZ_SZ_MASK := 2 ^ 20 - 1;
  NVME_CMB_OFST := fun x => Z.land (Z.shiftr x 12) (2 ^ 20 - 1);
  NVME_CMB_BIR := fun x => Z.land x 7;
  part_tbl := fun d => if d =? 8 then [None; Some 4096] else [];
  get_capacity := fun d => 8192;
  queue_wc := fun d => bd_disk d =? 8;
  bdev_ready := fun d => negb (bd_partno d =? 7);
  sb_getblk := fun _ _ => true;
  empty_read_drains := true;
|}.
#[export] Existing Instance kernel0.

#[export] Instance laws0 : KernelLaws.
Proof.
  split; try done.
  - intros f Hf. repeat (apply elem_of_cons in Hf as [->|Hf]; [vm_compute; split; congruence|]).
    by apply elem_of_nil in Hf.
Qed.

(** The module before its streams are set up. *)
Definition unloaded : kst :=
  mk_kst 2 true 1 1 (mk_bdev 9 1) [] 512 [] 0 [] 0 ∅ (mk_ci 512 ∅ ∅ ∅) ∅ [] ∅ ∅ [].

Definition raw_stream : stream :=
  mk_stream 7 7 7 7 7 7 7 3 7 7 [] 7 7 7 7 7 7 7 7 7 7 7 7.

Definition raw_buf (_ n : Z) : list nvme_rw_command_ := replicate (Z.to_nat n) zero_cmd.

Definition state_of {S A} (o : outcome S A) (d : S) : S :=
  match o with Ret _ s => s | _ => d end.

(** The module as [init_streams] leaves it. *)
Definition loaded : kst :=
  Eval vm_compute in state_of (init_streams true (fun _ => raw_stream) raw_buf unloaded) unloaded.

Definition fs_param : init_param := mk_param 1 [(8, 5)] 0 128.

(** ... and after the file system on device 8 took both streams. *)
Definition mounted : kst :=
  Eval vm_compute in state_of (olayer_register_streams 2 fs_param loaded) loaded.

Definition stream0 : stream := default raw_stream (streams mounted !! 0%nat).
Definition stream1 : stream := default raw_stream (streams mounted !! 1%nat).

Lemma load_ok0 : load_ok 512 2 1 raw_buf.
Proof.
  split; try (vm_compute; split; congruence).
  intros i n Hn. unfold raw_buf. rewrite length_replicate. lia.
Qed.

(** Discharges facts about concrete states. *)
Ltac concrete := repeat split; vm_compute; try reflexivity; try congruence.

Lemma stream_ok_refl_lists s :
  ring_ok s -> tail_watermark s = tail s -> head s = tail s -> flushed s = tail s ->
  0 <= last_queue_flushed s < nr_ometa s ->
  0 <= off_in_journal s <= j_write_ptr s ->
  j_write_ptr s <= off_in_journal s + nr_journal_block s < 2 ^ 32 -> stream_ok s.
Proof.
  intros Hr Hw Hh Hf Hq Hj1 Hj2. split; try done.
  - unfold log, entries. rewrite Hh, ring_range_nil. constructor.
  - by rewrite Hh, Hf.
Qed.

Lemma stream0_ok : stream_ok stream0.
Proof. apply stream_ok_refl_lists; concrete. Qed.

Lemma stream1_ok : stream_ok stream1.
Proof. apply stream_ok_refl_lists; concrete. Qed.

Lemma mounted_wb : wb_ready mounted.
Proof. split; [by intros ? ?|concrete|]. intros i. apply not_elem_of_nil. Qed.

Lemma ready0 : submit_ready 0 stream0 mounted.
Proof.
  split; [done|reflexivity|apply stream0_ok|concrete|concrete|apply mounted_wb|apply not_elem_of_nil..].
Qed.

Lemma ready1 : submit_ready 1 stream1 mounted.
Proof.
  split; [done|reflexivity|apply stream1_ok|concrete|concrete|apply mounted_wb|apply not_elem_of_nil..].
Qed.

(** ** States reached by running the module *)

Definition submit_n (sid flags : Z) (ls : list Z) : M kst unit :=
  for_each ls (fun l => _ <-- stream_submit_bio_core sid l 1 8 (l + 1) flags ;; ret tt).

(** Two entries queued on the second stream. *)
Definition queued_k : kst := Eval vm_compute in state_of (submit_n 1 HORAE_TX [10; 20] mounted) mounted.
Definition queued_s : stream := Eval vm_compute in default raw_stream (streams queued_k !! 1%nat).

(** Its doorbell was rung at slot 3, then the queue wrapped around. *)
Definition wrapped_k : kst :=
  Eval vm_compute in
  state_of ((submit_n 1 HORAE_TX [10; 20; 30] ;;; _ <-- stream_commit_tx 1 ;;
             submit_n 1 HORAE_TX [40; 50]) mounted) mounted.
Definition wrapped_s : stream := Eval vm_compute in default raw_stream (streams wrapped_k !! 1%nat).

(** The second stream after a first doorbell: the next transaction will be
    marked. *)
Definition rung_k : kst := Eval vm_compute in state_of (stream_commit_tx 1 mounted) mounted.
Definition rung_s : stream := Eval vm_compute in default raw_stream (streams rung_k !! 1%nat).

Ltac concrete_log :=
  lazymatch goal with
  | |- Forall ?P ?l =>
      let l' := eval vm_compute in l in
      change (Forall P l'); repeat (apply Forall_cons; split; [concrete|]); apply Forall_nil_2
  end.
Ltac concrete_stream :=
  split; [split; concrete|concrete_log|reflexivity|vm_compute; congruence|concrete|concrete].

Lemma queued_ok : stream_ok queued_s.
Proof. concrete_stream. Qed.

Lemma wrapped_ok : stream_ok wrapped_s.
Proof. concrete_stream. Qed.

Lemma rung_ok : stream_ok rung_s.
Proof. concrete_stream. Qed.

Lemma rung_ready : submit_ready 1 rung_s rung_k.
Proof.
  split; [done|reflexivity|apply rung_ok|concrete|concrete| |apply not_elem_of_nil..].
  split; [by intros ? ?|concrete|]. intros i. apply not_elem_of_nil.
Qed.

(** A complete journalled transaction on the second stream: blocks 10, 20 and
    30 of device 8, then a flush. *)
Definition block_bio (blk flag : Z) : bio :=
  mk_bio 8 0 (blk * 8) 4096 (Z.lor REQ_OP_WRITE flag) [mk_bvec blk 4096 0].

Definition tx_k : kst :=
  Eval vm_compute in
  state_of ((stream_submit_bio_ipu (block_bio 10 REQ_TX) 1 true ;;;
             stream_submit_bio_ipu (block_bio 20 REQ_TX) 1 true ;;;
             stream_submit_bio_ipu (block_bio 30 REQ_TX_COMMIT) 1 true ;;;
             stream_blkdev_issue_flush [mk_bdev 8 0] 1) rung_k) rung_k.
Definition tx_s : stream := Eval vm_compute in default raw_stream (streams tx_k !! 1%nat).

Lemma tx_ok : stream_ok tx_s.
Proof. concrete_stream. Qed.

Lemma tx_wb : wb_ready tx_k.
Proof. split; [by intros ? ?|concrete|]. intros i. apply not_elem_of_nil. Qed.
