(* ===== verification/StreamTheorems.v ===== *)
(** * Theorems about the submission path

    Each theorem is followed by its use on the small module of Instances.v. *)

From S2P Require Import Prelude Ring Horae Scan Cmb Checkpoint CheckpointFacts JournalFacts Stream StreamFacts DoorbellFacts TxFacts Instances.

Section theorems.
Context `{Kernel} `{!KernelLaws}.

(** C1: Submitting an entry on a stream returns (the retry loop ends, no
    fault) and refines an append to the stream's log.  The slot it returns is
    the old tail; the log becomes a suffix of the old log followed by the new
    entry, and loses nothing when the queue had room; the stream's invariant
    holds again; the device's image of the slot is the new entry and every
    other byte of the region is unchanged. *)
Theorem submit_refines_log sid s k lba_ nr dev plba_ flags :
  submit_ready sid s k -> 0 <= lba_ -> lba_ + u16 nr <= 2 ^ 32 ->
  let o := new_entry s lba_ nr dev plba_ flags in
  runs (stream_submit_bio_core sid lba_ nr dev plba_ flags) k (fun pos k' =>
    pos = tail s /\ io_frame sid k k' /\
    exists s' old kept, streams k' !! Z.to_nat sid = Some s' /\ stream_ok s' /\
      log s = old ++ kept /\ log s' = kept ++ [o] /\
      (Z.of_nat (length (log s)) + 1 < nr_ometa s -> old = []) /\
      holds (view (ci k')) s' pos /\
      forall a, ~ (slot_addr s pos <= a < slot_addr s pos + sizeof_cmd) ->
        view (ci k') !! a = view (ci k) !! a).
Proof.
  intros Hr Hl Hn o. pose proof (sr_ok _ _ _ Hr) as Hok. pose proof (so_ring s Hok) as Hring.
  eapply runs_conseq; [by apply (submit_core_ok sid s)|]. fold o.
  intros pos k' (-> & F & s0 & Hc & Hsp & Heq & Hs' & Ec). split_and!; [done|done|].
  pose proof (checkpointed_ok _ _ Hok Hc) as Hok0.
  destruct (checkpointed_log s s0 Hok Hc) as [old El].
  destruct (checkpointed_fields s s0 Hc) as (En & Et & _ & _ & _ & Eo & _).
  assert (Hoe : entry_ok o) by by apply fill_ometa_ok.
  eexists _, old, (log s0). split_and!; [exact Hs'|by apply pushed_ok|done|by apply pushed_log, Hsp; apply Hok0| | |].
  - intros Hroom. rewrite Heq in El.
    + by apply (app_inv_tail (log s)).
    + apply ring_space_le; [done|]. rewrite length_log in Hroom by done. lia.
  - rewrite Ec, <- Eo, <- Et. apply pushed_holds, Hok0.
  - intros a Ha. rewrite Ec. by apply write_entry_outside.
Qed.

(** C2: When the range of entries queued since the last doorbell does not
    wrap around the queue (or the queue is the only one), the commit of a
    transaction returns 0, keeps the log and the invariant and records that
    everything up to the tail was flushed.  If copying no bytes from the device
    reads it, as the code relies on, then every entry queued since the last
    doorbell that the CPU had written is now in persistent memory and reads back
    as itself, but for the slot at the first four bytes of the region, over which
    the doorbell writes the tail.  If it does not, nothing becomes durable: persistent memory
    is as it was. *)
Theorem doorbell_makes_durable sid s k :
  0 <= sid < 2 ^ 32 -> streams k !! Z.to_nat sid = Some s -> stream_ok s ->
  cmb_geom s (ci k) -> doorbell_fits s (ci k) ->
  runs (stream_commit_tx sid) k (fun r k' =>
    r = 0 /\ io_frame sid k k' /\
    exists s', streams k' !! Z.to_nat sid = Some s' /\ stream_ok s' /\
      log s' = log s /\ last_queue_flushed s' = tail s' /\
      if empty_read_drains then
        forall i, i ∈ queued s -> holds (view (ci k)) s i -> cmd_wf (slot s i) ->
          4 <= slot_addr s i ->
          decode_cmd (read_bytes (pmr (ci k')) (slot_addr s i) sizeof_cmd) = slot s i
      else pmr (ci k') = pmr (ci k)).
Proof.
  intros Hsid Hs Hok Hg Hf. eapply runs_conseq; [by apply stream_commit_ok|].
  intros r k' (-> & F & Hs' & Hd). split_and!; [done|done|]. exists (committed_stream s).
  split_and!; [done|by apply committed_stream_ok|by apply committed_log, Hok|done|].
  pose proof (doorbell_pmr _ _ _ Hd) as Ep. destruct empty_read_drains; [|done].
  intros i Hi Hh Hwf Ha. apply holds_decode; [|done]. rewrite Ep. by eapply doorbell_holds.
Qed.

(** With several streams, a doorbell of the last stream whose entries
    wrap around the end of its queue leaves the mapping of the region: the
    wrap is tested against the size of the region instead of the size of the
    stream's part, so the flush runs past the end. *)
Theorem doorbell_wrap_leaves_region sid s k :
  0 <= sid < 2 ^ 32 -> streams k !! Z.to_nat sid = Some s -> stream_ok s -> cmb_geom s (ci k) ->
  tail s < last_queue_flushed s ->
  ometa_size s + tail s * sizeof_cmd <= dev_size (ci k) ->
  dev_size (ci k) < off_in_cmb s + ometa_size s + tail s * sizeof_cmd ->
  off_in_cmb s mod 64 = 0 -> dev_size (ci k) mod 64 = 0 ->
  stream_commit_tx sid k = Oops OutOfBounds.
Proof. exact (commit_wrap_oops sid s k). Qed.

(** The doorbell of any stream writes the tail over the first four bytes
    of the region, which are the low half of the block address of the first
    entry of the first stream. *)
Theorem doorbell_overwrites_first_entry sid s k j :
  0 <= sid < 2 ^ 32 -> streams k !! Z.to_nat sid = Some s -> stream_ok s ->
  cmb_geom s (ci k) -> doorbell_fits s (ci k) -> 0 <= j < 4 ->
  runs (stream_commit_tx sid) k (fun _ k' =>
    view (ci k') !! j = le_bytes 4 (tail s) !! Z.to_nat j).
Proof.
  intros Hsid Hs Hok Hg Hf Hj. eapply runs_conseq; [by apply stream_commit_ok|].
  intros r k' (_ & _ & _ & Hd). by eapply doorbell_view.
Qed.

(** C7: A transaction submitted as data entries followed by a commit entry,
    after a doorbell and with room in the queue, is found by the scan of the log:
    the log gains exactly the submitted entries in order and is left with no open
    transaction, and the scan finds one more transaction.  When the log had no
    open transaction it is made of the submitted entries.  When it had one, which
    a doorbell without a commit entry leaves behind, the submitted entries
    complete that one and are taken for a part of it. *)
Theorem submitted_transaction_is_found sid s k data commit :
  submit_ready sid s k -> committed s ≠ 0 ->
  data ≠ [] -> Forall io_wf (data ++ [commit]) ->
  Z.of_nat (length (log s) + length data) + 1 < nr_ometa s ->
  runs (submit_tx sid data commit) k (fun _ k' =>
    exists s' b inner e, streams k' !! Z.to_nat sid = Some s' /\ stream_ok s' /\
      log s' = log s ++ b :: inner ++ [e] /\
      entry_io <$> (b :: inner ++ [e]) = data ++ [commit] /\
      left_open (log s') = None /\ tx_scan None (log s') = tx_scan None (log s) ++ [completed (left_open (log s)) b inner e]).
Proof.
  intros Hr Hc Hne Hx Hlen. eapply runs_conseq; [by apply submit_tx_ok|].
  intros [] k' (_ & s' & b & inner & e & Hs' & Hev & El & Eio & Hcl' & Et).
  exists s', b, inner, e. split_and!; try done. apply Hev.
Qed.

(** The calls mqfs makes on a stream (journalled data and buffer
    writes, device flushes) never fault and keep the invariant, but no
    sequence of them ever puts the end of a transaction into the log: the
    write-back of the stream finds nothing to do, whatever was submitted. *)
Theorem mqfs_calls_never_commit sid s k ops :
  submit_ready sid s k -> sid < nr_streams k < 2 ^ 32 -> Forall (op_ok s) ops ->
  Forall no_end_mark (log s) ->
  runs (for_each ops (fs_run sid)) k (fun _ k' =>
    commit_write sid k' = Ret 0 k' /\
    exists s', streams k' !! Z.to_nat sid = Some s' /\ stream_ok s' /\ Forall no_end_mark (log s')).
Proof.
  intros Hr Hlt Hops Hl. eapply runs_conseq; [by apply fs_runs_evolves|].
  intros [] k' (F & s' & Hs' & Hev). pose proof (ev_ok _ _ _ Hev) as Hok.
  pose proof (log_moves_forall _ _ _ (ev_log _ _ _ Hev) Hl) as Hl'.
  split; [|exists s'; by split_and!].
  apply (commit_write_idle sid s'); [apply Hr|done|apply Hok|].
  by apply tx_scan_no_end, flushed_log_forall.
Qed.

(** A flush of a stream with something in its log issues a flush to
    each of the devices, waits for the asynchronous ones, and then marks the
    whole log as flushed; the log itself, the invariant and the other
    streams are kept.  With an empty log nothing is done. *)
Theorem flush_covers_log sid s k bdevs :
  0 <= sid < nr_streams k -> nr_streams k < 2 ^ 32 -> streams k !! Z.to_nat sid = Some s ->
  stream_ok s -> cmb_geom s (ci k) -> CpRwsem sid ∉ held k ->
  bdevs ≠ [] -> (forall d, d ∈ bdevs -> queue_wc d = true -> bdev_ready d = true) ->
  runs (stream_blkdev_issue_flush bdevs sid) k (fun _ k' =>
    if decide (log s = []) then k' = k
    else io_frame sid k k' /\ trace k' = trace k ++ flush_plan bdevs /\
      exists s', streams k' !! Z.to_nat sid = Some s' /\ stream_ok s' /\
        log s' = log s /\ flushed_log s' = log s).
Proof.
  intros Hsid Hnr Hs Hok Hg Hl Hne Hr. eapply runs_conseq; [by apply (issue_flush_ok sid s)|].
  intros r k' Hk'. pose proof (length_log s (so_ring s Hok)) as Hlen. cbv beta in Hk'.
  pose proof (so_ring s Hok) as [Hn _ Hh Ht _].
  destruct (decide (head s = tail s)) as [E|E].
  - rewrite decide_True; [apply Hk'|]. rewrite E, Z.sub_diag, Zmod_0_l in Hlen.
    apply length_zero_iff_nil. lia.
  - rewrite decide_False.
    + destruct Hk' as (_ & F & Hs' & T & _). split_and!; [done..|]. exists (flushed_stream s).
      split_and!; [done|by apply flushed_stream_ok|done|done].
    + intros Hnil. rewrite Hnil in Hlen. simpl in Hlen. apply E. revert Hlen. clear -Hn Hh Ht.
      ring_simpl; lia.
Qed.

(** If one of several devices refuses the asynchronous flush, the error
    is not looked at and the flush of the stream waits forever for a
    completion nobody signals. *)
Theorem flush_waits_forever_on_error sid s k bdevs d :
  0 <= sid < nr_streams k -> nr_streams k < 2 ^ 32 -> streams k !! Z.to_nat sid = Some s ->
  stream_ok s -> CpRwsem sid ∉ held k -> log s ≠ [] ->
  (2 <= length bdevs)%nat -> d ∈ bdevs -> queue_wc d = true -> bdev_ready d = false ->
  stream_blkdev_issue_flush bdevs sid k = Stall.
Proof.
  intros Hsid Hnr Hs Hok Hl Hne. apply (issue_flush_stall sid s k bdevs d Hsid Hnr Hs Hok Hl).
  intros E. apply Hne. unfold log, entries. by rewrite E, ring_range_nil.
Qed.
End theorems.

(** ** The theorems on the module of Instances.v *)

Lemma submit_refines_log_witness :
  runs (stream_submit_bio_core 0 10 1 8 77 HORAE_TX) mounted (fun pos _ => pos = 0).
Proof.
  eapply runs_conseq.
  - apply (submit_refines_log 0 stream0 mounted 10 1 8 77 HORAE_TX); [exact ready0|lia|].
    vm_compute. congruence.
  - intros pos k' (-> & _). reflexivity.
Defined.

Lemma doorbell_makes_durable_witness :
  runs (stream_commit_tx 1) queued_k (fun r k' => r = 0 /\
    decode_cmd (read_bytes (pmr (ci k')) 320 sizeof_cmd) = slot queued_s 1).
Proof.
  eapply runs_conseq.
  - apply (doorbell_makes_durable 1 queued_s queued_k);
      [done|reflexivity|apply queued_ok|concrete|left; vm_compute; congruence].
  - intros r k' (-> & _ & s' & _ & _ & _ & _ & Hd). split; [done|].
    apply (Hd 1); [vm_compute; right; left| |concrete|vm_compute; congruence].
    intros j Hj. assert (Hall : forallb (fun j => bool_decide (view (ci queued_k) !! (slot_addr queued_s 1 + j) =
      encode_cmd (slot queued_s 1) !! Z.to_nat j)) (seqZ 0 64) = true) by (vm_compute; reflexivity).
    rewrite forallb_forall in Hall. apply (bool_decide_eq_true_1 _), Hall.
    apply list_elem_of_In, elem_of_seqZ. unfold sizeof_cmd in Hj. lia.
Defined.

Lemma doorbell_wrap_leaves_region_witness : stream_commit_tx 1 wrapped_k = Oops OutOfBounds.
Proof.
  apply (doorbell_wrap_leaves_region 1 wrapped_s wrapped_k);
    [done|reflexivity|apply wrapped_ok|concrete|reflexivity|vm_compute; congruence|reflexivity..].
Defined.

Lemma doorbell_overwrites_first_entry_witness :
  runs (stream_commit_tx 1) queued_k (fun _ k' => view (ci k') !! 0 = Some 2).
Proof.
  apply (doorbell_overwrites_first_entry 1 queued_s queued_k 0);
    [done|reflexivity|apply queued_ok|concrete|left; vm_compute; congruence|lia].
Defined.

Lemma submitted_transaction_is_found_witness :
  runs (submit_tx 1 [mk_io 10 1 8 3] (mk_io 20 1 8 4)) rung_k (fun _ k' =>
    exists s', streams k' !! 1%nat = Some s' /\ length (log s') = 2%nat).
Proof.
  eapply runs_conseq.
  - apply (submitted_transaction_is_found 1 rung_s rung_k [mk_io 10 1 8 3] (mk_io 20 1 8 4));
      [exact rung_ready|done|done|repeat constructor; vm_compute; congruence|reflexivity].
  - intros [] k' (s' & b & inner & e & Hs' & _ & El & Eio & _). exists s'. split; [done|].
    apply (f_equal length) in Eio. rewrite length_fmap in Eio. rewrite El. exact Eio.
Defined.

Definition witness_bio : bio :=
  mk_bio 8 0 80 4096 (Z.lor REQ_OP_WRITE REQ_TX) [mk_bvec 3 4096 0].

Lemma mqfs_calls_never_commit_witness :
  runs (for_each [FsBio witness_bio true; FsFlush [mk_bdev 8 0]] (fs_run 0)) mounted
    (fun _ k' => commit_write 0 k' = Ret 0 k').
Proof.
  eapply runs_conseq.
  - apply (mqfs_calls_never_commit 0 stream0 mounted); [exact ready0|concrete| |constructor].
    repeat constructor; try (vm_compute; congruence); try reflexivity.
    intros d Hd _. apply list_elem_of_singleton in Hd as ->. reflexivity.
  - intros [] k' [Hk' _]. exact Hk'.
Defined.

Lemma flush_covers_log_witness :
  runs (stream_blkdev_issue_flush [mk_bdev 8 0] 1) queued_k (fun _ k' =>
    trace k' = trace queued_k ++ [IssueFlush (mk_bdev 8 0)]).
Proof.
  eapply runs_conseq.
  - apply (flush_covers_log 1 queued_s queued_k [mk_bdev 8 0]);
      [concrete|reflexivity|reflexivity|apply queued_ok|concrete|apply not_elem_of_nil|done|].
    intros d Hd _. apply list_elem_of_singleton in Hd as ->. reflexivity.
  - intros r k' Hk'. destruct (decide (log queued_s = [])) as [E|_]; [vm_compute in E; congruence|].
    destruct Hk' as (_ & T & _). exact T.
Defined.

Lemma flush_waits_forever_on_error_witness :
  stream_blkdev_issue_flush [mk_bdev 8 0; mk_bdev 8 7] 1 queued_k = Stall.
Proof.
  apply (flush_waits_forever_on_error 1 queued_s queued_k _ (mk_bdev 8 7));
    [concrete|reflexivity|reflexivity|apply queued_ok|apply not_elem_of_nil|vm_compute; congruence
    |simpl; lia|right; left|reflexivity|reflexivity].
Defined.
