(* ===== verification/CheckpointTheorems.v ===== *)
(** * Theorems about write-back, journal, checkpoint and registration *)

From S2P Require Import Prelude Ring Horae Scan Cmb Checkpoint CheckpointFacts JournalFacts Stream StreamFacts DoorbellFacts TxFacts Registry RegistryFacts Instances.

Section theorems.
Context `{Kernel} `{!KernelLaws}.

(** C5: The nest of cyclic loops with which [commit_write] looks for the
    transactions of a queue (with its two phases, the remembered index and
    the inner loop over the entries) does exactly what one pass over the
    list of entries between [head] and [flushed] does, on every queue and
    from every state, faults included. *)
Theorem commit_write_is_list_pass sid k s :
  streams k !! Z.to_nat sid = Some s -> ring_ok s ->
  commit_write sid k = commit_write_ref sid k.
Proof. exact (commit_write_equiv sid k s). Qed.


(** C8: A checkpoint of a stream returns 0 with room for the entries asked
    for (less than a whole queue), keeps the invariant and the other
    streams, releases its locks, and leaves a suffix of the log; it does
    nothing when there was room already. *)
Theorem checkpoint_makes_room sid s k nr :
  0 <= sid < 2 ^ 32 -> streams k !! Z.to_nat sid = Some s -> stream_ok s -> wb_ready k ->
  JournalLock sid ∉ held k -> CpRwsem sid ∉ held k -> nr <= nr_ometa s - 1 ->
  runs (stream_do_checkpoint sid nr) k (fun r k' => r = 0 /\ op_frame sid k k' /\ held k' = held k /\
    exists s' old, streams k' !! Z.to_nat sid = Some s' /\ stream_ok s' /\
      log s = old ++ log s' /\ nr <= horae_ring_space (head s') (tail s') (nr_ometa s')).
Proof.
  intros Hsid Hs Hok Hk Hl Hc Hnr. eapply runs_conseq; [by apply (stream_do_checkpoint_ok sid s)|].
  intros r k' (-> & F & s' & Hs' & Hcp & Hsp). split_and!; [done|done|by eapply op_frame_held|].
  destruct (checkpointed_log s s' Hok Hcp) as [old E]. exists s', old.
  split_and!; [done|by eapply checkpointed_ok|done|done].
Qed.

(** C9: A write redirected to the journal gets blocks of its own stream's
    part of the journal only: the address lies in the part, the blocks fit
    before its end, the write pointer ends right behind them, and the bio
    goes to those blocks of the journal device with its payload unchanged. *)
Theorem journal_alloc_in_own_part sid s k b :
  0 <= sid < 2 ^ 32 -> streams k !! Z.to_nat sid = Some s -> stream_ok s -> wb_ready k ->
  JournalLock sid ∉ held k -> 0 <= bi_sector b -> 0 <= bi_size b < 2 ^ 32 ->
  horae_get_secs b <= nr_journal_block s ->
  horae_get_secs b <= Z.of_nat (length (bi_io_vec b)) ->
  horae_get_lba b + horae_get_secs b <= 2 ^ 32 ->
  runs (journal_write_alloc sid b) k (fun r k' => op_frame sid k k' /\
    off_in_journal s <= r.1 /\ r.1 + horae_get_secs b <= off_in_journal s + nr_journal_block s /\
    bi_sector r.2 = 8 * r.1 /\ bi_disk r.2 = bd_disk (cp_dev k) /\ bi_partno r.2 = bd_partno (cp_dev k) /\
    bi_io_vec r.2 = bi_io_vec b /\ bi_size r.2 = bi_size b /\
    exists s', streams k' !! Z.to_nat sid = Some s' /\ stream_ok s' /\
      j_write_ptr s' = r.1 + horae_get_secs b).
Proof.
  intros Hsid Hs Hok Hk Hl Hb1 Hb2 Hnr Hv Hlba.
  eapply runs_conseq; [by apply (journal_write_alloc_ok sid s)|].
  intros r k' (F & s' & ptr & k1 & Hs' & Hpost & -> & _ & _).
  destruct Hpost as (Hok' & Hp1 & Hp2 & Hp3 & _). pose proof (so_journal s Hok). cbn [fst snd].
  pose proof (wrap_range 32 (bi_size b / 4096) ltac:(lia)) as Hsr. fold (horae_get_secs b) in Hsr.
  split_and!; try done.
  - change (u64 ((0 + ptr) * 8) = 8 * ptr). rewrite wrap_small by (pow2_consts; lia). lia.
  - by exists s'.
Qed.

(** After a redirected write, every block of it is indexed by the newer
    of the version it had and the version just written, whose journal
    address is the one allocated; no other block's entry changes after the
    allocation. *)
Theorem journal_index_has_newest sid s k b :
  0 <= sid < 2 ^ 32 -> streams k !! Z.to_nat sid = Some s -> stream_ok s -> wb_ready k ->
  JournalLock sid ∉ held k -> 0 <= bi_sector b -> 0 <= bi_size b < 2 ^ 32 ->
  horae_get_secs b <= nr_journal_block s ->
  horae_get_secs b <= Z.of_nat (length (bi_io_vec b)) ->
  horae_get_lba b + horae_get_secs b <= 2 ^ 32 ->
  runs (journal_write_alloc sid b) k (fun r k' => exists k1, op_frame sid k k1 /\
    (forall i, 0 <= i < horae_get_secs b ->
       ipu_tree k' !! ipu_pos (blocks_per_group k) (horae_get_lba b + i) =
       Some (newer (ipu_tree k1 !! ipu_pos (blocks_per_group k) (horae_get_lba b + i))
                   (mk_ipu (horae_get_lba b + i) (r.1 + i) (last_txid s)))) /\
    (forall l, 0 <= l < 2 ^ 32 ->
       ~ (horae_get_lba b <= l < horae_get_lba b + horae_get_secs b) ->
       ipu_tree k' !! ipu_pos (blocks_per_group k) l =
       ipu_tree k1 !! ipu_pos (blocks_per_group k) l)).
Proof.
  intros Hsid Hs Hok Hk Hl Hb1 Hb2 Hnr Hv Hlba.
  eapply runs_conseq; [by apply (journal_write_alloc_ok sid s)|].
  intros r k' (F & s' & ptr & k1 & Hs' & _ & -> & F1 & [_ Hnew Hold]). exists k1. split; [done|].
  assert (Eb : blocks_per_group k1 = blocks_per_group k) by (destruct F1 as [-> _]; done).
  rewrite Eb in Hnew, Hold. simpl. split.
  - intros i Hi. apply Hnew. apply elem_of_seqZ. lia.
  - intros l Hlr Hout. apply Hold. intros (i & E & Hi)%list_elem_of_fmap. apply elem_of_seqZ in Hi.
    pose proof (ready_bpg k Hk). assert (0 <= horae_get_lba b) by (apply Z.div_pos; lia).
    apply ipu_pos_inj in E; lia.
Qed.

(** Two different 32-bit block numbers never share a place in the
    radix trees: a write-back never touches the entry of another block. *)
Theorem ipu_index_injective bpg l1 l2 :
  0 < bpg < 2 ^ 32 -> 0 <= l1 < 2 ^ 32 -> 0 <= l2 < 2 ^ 32 ->
  ipu_pos bpg l1 = ipu_pos bpg l2 -> l1 = l2.
Proof. exact (ipu_pos_inj bpg l1 l2). Qed.
End theorems.

(** ** Error paths *)

Section errors.
Context `{Kernel} `{!KernelLaws}.

(** A journalled write larger than the stream's part of the journal
    is not journalled, but the error is lost: the allocator returns -1 into
    an unsigned variable, the test [plba < 0] never holds, and the write is
    logged with journal address 0xffffffff and submitted to its home
    location. *)
Theorem oversized_write_logged_as_journalled sid s k b :
  submit_ready sid s k -> sid < nr_streams k -> 0 <= bi_sector b ->
  horae_get_lba b + u16 (horae_get_secs b) <= 2 ^ 32 ->
  op_is_tx_write (u32 (bi_opf b)) = true -> nr_journal_block s < horae_get_secs b ->
  runs (stream_submit_bio_ipu b sid true) k (fun _ k' =>
    exists s' old kept o, streams k' !! Z.to_nat sid = Some s' /\ stream_ok s' /\
      log s = old ++ kept /\ log s' = kept ++ [o] /\ plba o = 2 ^ 32 - 1 /\
      lba o = horae_get_lba b /\
      exists evs b', trace k' = evs ++ [SubmitBio b'] /\ bi_sector b' = bi_sector b /\
        bi_disk b' = bi_disk b).
Proof.
  intros Hr Hlt Hb Hlba Htx Hbig. pose proof Hr as [Hsid Hs Hok _ _ _ _ _].
  unfold stream_submit_bio_ipu. cbv zeta. rstep. apply clamp_sid_ok; [done|].
  rewrite Htx. set (flag := if op_is_tx_commit _ then _ else _). cbn [orb negb].
  rewrite !orb_true_r. cbn [orb negb].
  rstep. rstep. rewrite orb_true_r. rstep.
  unfold journal_write_alloc at 1. rstep. eapply runs_get_stream; [done..|]. cbv zeta.
  change (horae_get_secs (b <| bi_opf ::= strip_order |>)) with (horae_get_secs b).
  destruct (Z.ltb_spec (nr_journal_block s) (horae_get_secs b)); [|lia]. kstep.
  change (u32 (-1)) with (2 ^ 32 - 1). change (2 ^ 32 - 1 <? 0) with false. cbv beta iota. rstep.
  assert (Hl0 : 0 <= horae_get_lba b) by (apply Z.div_pos; lia).
  eapply runs_conseq; [by apply (submit_core_ok sid s)|].
  intros pos k' (_ & F & s0 & Hc & Hsp & _ & Hs' & _).
  pose proof (checkpointed_ok _ _ Hok Hc) as Hok0.
  destruct (checkpointed_log s s0 Hok Hc) as [old El]. kstep.
  eexists _, old, (log s0), _. split_and!; [exact Hs'| |done|by apply pushed_log, Hsp; apply Hok0|done| |].
  - apply pushed_ok; [done|by apply fill_ometa_ok|done].
  - change (u64 (horae_get_lba b) = horae_get_lba b). pose proof (wrap_range 16 (horae_get_secs b)).
    apply wrap_small. pow2_consts. lia.
  - eexists _, _. split_and!; [reflexivity|done|done].
Qed.

(** The fallback of a checkpoint that finds nothing to truncate writes
    its pages at sector number [CP_REGION_START], a block number: with a
    non-empty journal that is inside the journal region, not in the
    checkpoint region behind it. *)
Theorem checkpoint_written_into_journal sid s k :
  0 <= sid < 2 ^ 32 -> streams k !! Z.to_nat sid = Some s -> ring_ok s ->
  0 < journal_size k -> 256 * journal_size k < 2 ^ 32 ->
  runs (write_checkpoint sid) k (fun r k' => r = 0 /\ exists b,
    trace k' = trace k ++ [SubmitBioWait b] /\ bi_disk b = bd_disk (cp_dev k) /\
    JOURNAL_REGION_START <= bi_sector b / 8 < NR_JOURNAL_REGION_BLOCK (journal_size k)).
Proof.
  intros Hsid Hs [Hn _ _ _ _] Hj Hj2. unfold write_checkpoint. rstep. eapply runs_get_stream; [done..|].
  rstep. apply runs_check; [by apply negb_true_iff, Z.eqb_neq; lia|].
  rstep. rstep. rstep. rstep. cbv zeta. rstep. kstep. kstep. split; [done|]. eexists.
  split_and!; [reflexivity|reflexivity|..]; cbn [bi_sector]; unfold CP_REGION_START, JOURNAL_REGION_START.
  - apply Z.div_pos; [|lia]. pose proof (wrap_range 32 (0 + NR_JOURNAL_REGION_BLOCK (journal_size k))). lia.
  - unfold NR_JOURNAL_REGION_BLOCK. change (MB / HORAE_BLOCK_SIZE) with 256.
    rewrite (wrap_small 32 (256 * journal_size k)) by (pow2_consts; lia).
    rewrite wrap_small by (pow2_consts; lia). apply Z.div_lt_upper_bound; lia.
Qed.

(** When the buffer cache has no memory for a block that is due, the
    write-back releases the lock of the index tree a second time. *)
Theorem write_back_nomem_double_unlock n o sb id l bhs k :
  blocks_per_group k ≠ 0 -> ipu_unlocked k ->
  ipu_due (blocks_per_group k) (ipu_tree k) id l -> sb_getblk sb l = false ->
  commit_blocks (S n) o sb id l bhs k = Oops BadUnlock.
Proof.
  intros Hb Hu (e & He & Hid) Hmem. cbn [commit_blocks].
  rewrite bind_gets, bind_check by (by apply negb_true_iff, Z.eqb_neq). cbv zeta.
  set (pos := ipu_pos (blocks_per_group k) l) in *.
  rewrite (bind_Ret _ _ _ _ _ (lock_take_Ret _ _ (Hu pos.1))).
  unfold bind at 1, radix_tree_delete.
  change (ipu_tree (k <| held ::= cons (IpuTreeLock pos.1) |>) !! pos) with (ipu_tree k !! pos).
  rewrite He. erewrite bind_Ret by (apply (lock_drop_Ret _ _ (held k)); [reflexivity|apply Hu]).
  rewrite Hid, Z.eqb_refl, Hmem. cbn [negb].
  assert (Hbad : forall k1 : kst, held k1 = held k -> lock_drop (IpuTreeLock pos.1) k1 = Oops BadUnlock).
  { intros k1 E. unfold lock_drop. rewrite decide_False; [done|]. rewrite E. apply Hu. }
  unfold warn_on. cbn [negb andb]. rewrite bind_ret. destruct (l =? ipu_lba e); cbn [negb andb];
    [rewrite bind_ret|unfold bind at 1, emit, modify]; unfold bind; by rewrite Hbad.
Qed.
End errors.

(** ** The layout of an entry *)

(** The 64-byte layout of a queue entry loses nothing: a well-formed
    entry reads back from its bytes as itself, and any 64 bytes are the layout
    of the entry read from them. *)
Theorem entry_layout_roundtrip :
  (forall c, cmd_wf c -> decode_cmd (encode_cmd c) = c /\ length (encode_cmd c) = 64%nat) /\
  (forall bs, Forall is_byte bs -> length bs = 64%nat -> encode_cmd (decode_cmd bs) = bs).
Proof.
  split; [|exact encode_decode_cmd]. intros c Hc. split; [by apply decode_encode_cmd|apply length_encode_cmd].
Qed.

(** ** The theorems on the module of Instances.v *)

Lemma commit_write_is_list_pass_witness : commit_write 1 tx_k = commit_write_ref 1 tx_k.
Proof. apply (commit_write_is_list_pass 1 tx_k tx_s); [reflexivity|apply tx_ok]. Defined.


Lemma checkpoint_makes_room_witness :
  runs (stream_do_checkpoint 1 1) tx_k (fun r _ => r = 0).
Proof.
  eapply runs_conseq.
  - apply (checkpoint_makes_room 1 tx_s tx_k 1);
      [done|reflexivity|apply tx_ok|exact tx_wb|apply not_elem_of_nil|apply not_elem_of_nil|vm_compute; congruence].
  - intros r k' (-> & _). reflexivity.
Defined.

Lemma journal_alloc_in_own_part_witness :
  runs (journal_write_alloc 1 (block_bio 40 REQ_TX)) mounted (fun r _ => 128 <= r.1 < 256).
Proof.
  eapply runs_conseq.
  - apply (journal_alloc_in_own_part 1 stream1 mounted (block_bio 40 REQ_TX));
      [done|reflexivity|apply stream1_ok|exact mounted_wb|apply not_elem_of_nil|vm_compute; congruence
      |concrete|vm_compute; congruence..].
  - intros r k' (_ & H1 & H2 & _). change (off_in_journal stream1) with 128 in *.
    change (nr_journal_block stream1) with 128 in *. change (horae_get_secs (block_bio 40 REQ_TX)) with 1 in *. lia.
Defined.

Lemma journal_index_has_newest_witness :
  runs (journal_write_alloc 1 (block_bio 40 REQ_TX)) mounted (fun r k' =>
    is_Some (ipu_tree k' !! ipu_pos 128 40)).
Proof.
  eapply runs_conseq.
  - apply (journal_index_has_newest 1 stream1 mounted (block_bio 40 REQ_TX));
      [done|reflexivity|apply stream1_ok|exact mounted_wb|apply not_elem_of_nil|vm_compute; congruence
      |concrete|vm_compute; congruence..].
  - intros r k' (k1 & _ & Hi & _). specialize (Hi 0 ltac:(vm_compute; split; congruence)).
    change (horae_get_lba (block_bio 40 REQ_TX) + 0) with 40 in Hi. eexists. exact Hi.
Defined.

Lemma ipu_index_injective_witness : ~ ipu_pos 128 300 = ipu_pos 128 428.
Proof.
  intros E. enough (300 = 428) by lia.
  apply (ipu_index_injective 128 300 428); [concrete|concrete|concrete|exact E].
Defined.

Definition big_bio : bio :=
  mk_bio 8 0 80 (4096 * 200) (Z.lor REQ_OP_WRITE REQ_TX) (replicate 200 (mk_bvec 1 4096 0)).

Lemma oversized_write_logged_as_journalled_witness :
  runs (stream_submit_bio_ipu big_bio 1 true) mounted (fun _ k' =>
    exists s' o l, streams k' !! 1%nat = Some s' /\ log s' = l ++ [o] /\ plba o = 4294967295).
Proof.
  eapply runs_conseq.
  - apply (oversized_write_logged_as_journalled 1 stream1 mounted big_bio);
      [exact ready1|reflexivity|vm_compute; congruence|vm_compute; congruence|reflexivity|reflexivity].
  - intros [] k' (s' & old & kept & o & Hs' & _ & _ & El & Ep & _). by exists s', o, kept.
Defined.

Lemma checkpoint_written_into_journal_witness :
  runs (write_checkpoint 1) tx_k (fun r _ => r = 0).
Proof.
  eapply runs_conseq.
  - apply (checkpoint_written_into_journal 1 tx_s tx_k);
      [done|reflexivity|apply tx_ok|reflexivity|reflexivity].
  - intros r k' [-> _]. reflexivity.
Defined.

(** The same kernel out of memory for buffers. *)
Definition kernel_nomem : Kernel := {|
  num_online_cpus := @num_online_cpus kernel0; num_possible_cpus := @num_possible_cpus kernel0;
  num_possible_nodes := @num_possible_nodes kernel0; MINOR := @MINOR kernel0;
  REQ_NR_BITS := @REQ_NR_BITS kernel0; REQ_FUA := @REQ_FUA kernel0;
  REQ_PREFLUSH := @REQ_PREFLUSH kernel0; REQ_SYNC := @REQ_SYNC kernel0;
  REQ_META := @REQ_META kernel0; REQ_PRIO := @REQ_PRIO kernel0;
  REQ_OP_READ := @REQ_OP_READ kernel0; REQ_OP_WRITE := @REQ_OP_WRITE kernel0;
  BIO_MAX_PAGES := @BIO_MAX_PAGES kernel0; PAGE_SIZE := @PAGE_SIZE kernel0;
  NVME_CMBSZ_SZU_SHIFT := @NVME_CMBSZ_SZU_SHIFT kernel0;
  NVME_CMBSZ_SZU_MASK := @NVME_CMBSZ_SZU_MASK kernel0;
  NVME_CMBSZ_SZ_SHIFT := @NVME_CMBSZ_SZ_SHIFT kernel0;
  NVME_CMBSZ_SZ_MASK := @NVME_CMBSZ_SZ_MASK kernel0;
  NVME_CMB_OFST := @NVME_CMB_OFST kernel0; NVME_CMB_BIR := @NVME_CMB_BIR kernel0;
  part_tbl := @part_tbl kernel0; get_capacity := @get_capacity kernel0;
  queue_wc := @queue_wc kernel0; bdev_ready := @bdev_ready kernel0;
  sb_getblk := fun _ _ => false; empty_read_drains := empty_read_drains;
|}.

Lemma write_back_nomem_double_unlock_witness :
  @commit_blocks kernel_nomem 1 zero_cmd 5 3 20 [] tx_k = Oops BadUnlock.
Proof.
  apply (@write_back_nomem_double_unlock kernel_nomem 0 zero_cmd 5 3 20 [] tx_k);
    [vm_compute; congruence|intros i; apply not_elem_of_nil| |reflexivity].
  eexists. split; vm_compute; reflexivity.
Defined.

Lemma entry_layout_roundtrip_witness : decode_cmd (encode_cmd (slot tx_s 1)) = slot tx_s 1.
Proof. apply (proj1 entry_layout_roundtrip). concrete. Defined.
