(* ===== verification/BlockFacts.v ===== *)
(** * What the module hands to the block layer

    The request flags it adds are removed again, bios built from buffers stay
    inside their device, and the mapping of the persistent region stays inside
    the BAR that contains it. *)

From S2P Require Import Prelude Ring Horae Scan Cmb Checkpoint CheckpointFacts JournalFacts Stream StreamFacts DoorbellFacts TxFacts Instances.

(** ** Flag bits *)

Lemma land_bit a n : 0 <= n -> (Z.land a (Z.shiftl 1 n) =? 0) = negb (Z.testbit a n).
Proof.
  intros Hn. destruct (Z.testbit a n) eqn:E; simpl.
  - apply Z.eqb_neq. intros H0. assert (Hb : Z.testbit (Z.land a (Z.shiftl 1 n)) n = true).
    { rewrite Z.land_spec, E, Z.shiftl_spec, Z.sub_diag by done. done. }
    by rewrite H0, Z.bits_0 in Hb.
  - apply Z.eqb_eq, Z.bits_inj'. intros m Hm. rewrite Z.land_spec, Z.bits_0, Z.shiftl_spec by done.
    destruct (decide (m = n)) as [->|Hne]; [by rewrite E|].
    destruct (Z.testbit a m); [|done]. simpl. destruct (decide (m < n)).
    + apply Z.testbit_neg_r. lia.
    + replace 1 with (2 ^ 0) by done. apply Z.pow2_bits_false. lia.
Qed.

Lemma testbit_u32 x n : 0 <= n < 32 -> Z.testbit (u32 x) n = Z.testbit x n.
Proof. intros ?. unfold wrap. by rewrite Z.mod_pow2_bits_low by lia. Qed.

Section flags.
Context `{Kernel} `{!KernelLaws}.

Lemma flag_set_bit x n : 0 <= n < 32 -> flag_set x (Z.shiftl 1 n) = Z.testbit x n.
Proof.
  intros Hn. unfold flag_set. rewrite land_bit by lia. rewrite negb_involutive.
  by apply testbit_u32.
Qed.

Lemma clear_flag_bit x f n : 0 <= n < 32 ->
  Z.testbit (clear_flag x f) n = Z.testbit x n && negb (Z.testbit f n).
Proof. intros Hn. unfold clear_flag. rewrite testbit_u32 by done. apply Z.ldiff_spec. Qed.

(** The bits of the flags the module adds. *)
Definition private_bits : list Z := [REQ_NR_BITS + 1; REQ_NR_BITS + 2; REQ_NR_BITS + 3; REQ_NR_BITS + 4].

Lemma bit_of_self n : 0 <= n -> Z.testbit (Z.shiftl 1 n) n = true.
Proof. intros ?. by rewrite Z.shiftl_spec, Z.sub_diag by lia. Qed.

Definition bits_clear (x : Z) (ns : list Z) : Prop := forall n, n ∈ ns -> Z.testbit x n = false.

Lemma strip_order_clears x : bits_clear (strip_order x) [REQ_NR_BITS + 1; REQ_NR_BITS + 2].
Proof.
  pose proof req_nr_bits_range as Hr.
  assert (Hbit : forall n, 0 <= n < 32 -> flag_set x (Z.shiftl 1 n) = Z.testbit x n) by (intros; by apply flag_set_bit).
  unfold strip_order. intros n Hn.
  assert (Hn' : n = REQ_NR_BITS + 1 \/ n = REQ_NR_BITS + 2) by (set_solver).
  destruct (op_is_ordered_write x) eqn:Eo; destruct (op_is_barrier_write x) eqn:Eb.
  - rewrite !clear_flag_bit by lia. destruct Hn' as [-> | ->].
    + unfold REQ_ORDERED at 1. rewrite bit_of_self by lia. simpl. by rewrite andb_false_r.
    + rewrite Z.lor_spec. unfold REQ_BARRIER at 1. rewrite bit_of_self by lia. simpl. by rewrite andb_false_r.
  - rewrite !clear_flag_bit by lia. unfold op_is_barrier_write in Eb. apply orb_false_iff in Eb as [Eb _].
    unfold REQ_BARRIER in Eb. rewrite Hbit in Eb by lia. destruct Hn' as [-> | ->].
    + unfold REQ_ORDERED at 1. rewrite bit_of_self by lia. simpl. by rewrite andb_false_r.
    + by rewrite Eb.
  - unfold op_is_ordered_write in Eo. rewrite Eb, orb_true_r in Eo. done.
  - unfold op_is_ordered_write in Eo. apply orb_false_iff in Eo as [Eo _].
    unfold op_is_barrier_write in Eb. apply orb_false_iff in Eb as [Eb _].
    unfold REQ_ORDERED in Eo. unfold REQ_BARRIER in Eb. rewrite Hbit in Eo, Eb by lia.
    by destruct Hn' as [-> | ->].
Qed.

(** Testing for a flag and clearing it if set leaves it clear. *)
Lemma test_and_clear x n ns :
  0 <= n < 32 -> (forall m, m ∈ ns -> 0 <= m < 32) -> bits_clear x ns ->
  bits_clear (if flag_set x (Z.shiftl 1 n) then clear_flag x (Z.shiftl 1 n) else x) (n :: ns).
Proof.
  intros Hn Hns Hx m Hm. rewrite flag_set_bit by done. destruct (Z.testbit x n) eqn:E.
  - apply elem_of_cons in Hm as [->|Hm].
    + rewrite clear_flag_bit, bit_of_self by lia. by rewrite andb_false_r.
    + rewrite clear_flag_bit, Hx by auto. done.
  - apply elem_of_cons in Hm as [->|Hm]; [done|by apply Hx].
Qed.

(** What [stream_submit_bio] leaves of the flags. *)
Definition submit_opf (opf : Z) : Z :=
  let opf := strip_order opf in
  let opf := if op_is_tx_write opf then clear_flag opf REQ_TX else opf in
  if op_is_tx_commit opf then clear_flag opf REQ_TX_COMMIT else opf.

Lemma submit_opf_clear x : bits_clear (submit_opf x) private_bits.
Proof.
  pose proof req_nr_bits_range as Hr. pose proof (strip_order_clears x) as H1.
  assert (B3 : 0 <= REQ_NR_BITS + 3 < 32) by lia. assert (B4 : 0 <= REQ_NR_BITS + 4 < 32) by lia.
  assert (Hs : forall m, m ∈ [REQ_NR_BITS + 1; REQ_NR_BITS + 2] -> 0 <= m < 32)
    by (intros m Hm; assert (m = REQ_NR_BITS + 1 \/ m = REQ_NR_BITS + 2) by set_solver; lia).
  pose proof (test_and_clear _ (REQ_NR_BITS + 3) _ B3 Hs H1) as H2.
  assert (Hs2 : forall m, m ∈ [REQ_NR_BITS + 3; REQ_NR_BITS + 1; REQ_NR_BITS + 2] -> 0 <= m < 32)
    by (intros m Hm; assert (m = REQ_NR_BITS + 3 \/ m = REQ_NR_BITS + 1 \/ m = REQ_NR_BITS + 2) by set_solver; lia).
  pose proof (test_and_clear _ (REQ_NR_BITS + 4) _ B4 Hs2 H2) as H3.
  intros n Hn. apply H3. unfold private_bits in Hn. set_solver.
Qed.
End flags.

(** ** Bios at the end of a device *)

Section eod.
Context `{Kernel}.

Definition dev_sectors (b : bio) : Z :=
  default (get_capacity (bi_disk b)) (disk_get_part (bi_disk b) (bi_partno b)).

Lemma guard_bio_eod_ok op b :
  0 <= bi_sector b -> 0 <= bi_size b < 2 ^ 32 ->
  let b' := (guard_bio_eod op b).1 in
  bi_sector b' = bi_sector b /\ bi_disk b' = bi_disk b /\ bi_partno b' = bi_partno b /\
  0 <= bi_size b' <= bi_size b /\ length (bi_io_vec b') = length (bi_io_vec b) /\
  (bi_sector b < dev_sectors b -> bi_sector b * 512 + Z.shiftr (bi_size b') 9 * 512 <= dev_sectors b * 512).
Proof.
  intros Hs Hz. unfold guard_bio_eod. fold (dev_sectors b). cbv zeta.
  assert (Hsh : 0 <= Z.shiftr (bi_size b) 9 /\ Z.shiftr (bi_size b) 9 * 512 <= bi_size b).
  { rewrite Z.shiftr_div_pow2 by lia. change (2 ^ 9) with 512.
    pose proof (Z.div_pos (bi_size b) 512). pose proof (Z.mul_div_le (bi_size b) 512). lia. }
  destruct (Z.eqb_spec (dev_sectors b) 0); [simpl; split_and!; done || lia|].
  destruct (Z.leb_spec (dev_sectors b) (bi_sector b)); [simpl; split_and!; done || lia|].
  destruct (Z.leb_spec (Z.shiftr (bi_size b) 9) (dev_sectors b - bi_sector b)) as [Hle|Hgt];
    [simpl; split_and!; done || lia|].
  set (left := dev_sectors b - bi_sector b) in *.
  assert (Hl : Z.shiftl left 9 = left * 512) by (rewrite Z.shiftl_mul_pow2 by lia; done).
  rewrite Hl, !(wrap_small 32 (bi_size b - _)) by (pow2_consts; lia).
  cbn [fst]. unfold update. cbn [bi_sector bi_disk bi_partno bi_size bi_io_vec].
  replace (bi_size b - (bi_size b - left * 512)) with (left * 512) by lia.
  rewrite (wrap_small 32 (left * 512)) by (pow2_consts; lia).
  split_and!; try done; try lia.
  - generalize (bi_io_vec b). intros vs. induction vs as [|v vs _] using rev_ind; [done|].
    by rewrite last_snoc, removelast_last, !length_app.
  - intros _. rewrite Z.shiftr_div_pow2 by lia. change (2 ^ 9) with 512. rewrite Z.div_mul by lia. lia.
Qed.
End eod.
