(* ===== verification/LayoutTheorems.v ===== *)
(** * Theorems about layout, registration and what reaches the block layer *)

From S2P Require Import Prelude Ring Horae Scan Cmb Checkpoint CheckpointFacts JournalFacts Stream StreamFacts DoorbellFacts TxFacts Registry RegistryFacts Instances BlockFacts.

Lemma share_before (i j : nat) q : (i < j)%nat -> 0 <= q -> Z.of_nat i * q + q <= Z.of_nat j * q.
Proof. intros Hij Hq. assert (Z.of_nat i + 1 <= Z.of_nat j) by lia. nia. Qed.

Section theorems.
Context `{Kernel} `{!KernelLaws}.

(** A bio submitted through [stream_submit_bio] reaches the block
    layer exactly once, after its log entry, with the flag bits the module
    added removed and everything else of it unchanged; the call returns. *)
Theorem submitted_bio_has_no_private_flags sid s k b :
  submit_ready sid s k -> sid < nr_streams k -> 0 <= bi_sector b ->
  horae_get_lba b + u16 (horae_get_secs b) <= 2 ^ 32 ->
  runs (stream_submit_bio b sid) k (fun _ k' => exists evs,
    trace k' = evs ++ [SubmitBio (b <| bi_opf := submit_opf (bi_opf b) |>)] /\
    bits_clear (submit_opf (bi_opf b)) private_bits).
Proof.
  intros Hr Hlt Hb Hlba. unfold stream_submit_bio. cbv zeta. rstep. apply clamp_sid_ok; [done|].
  assert (Hl0 : 0 <= horae_get_lba b) by (apply Z.div_pos; lia).
  pose proof (submit_opf_clear (bi_opf b)) as Hc. fold (submit_opf (bi_opf b)).
  destruct (negb _).
  - kstep. eexists. split; [reflexivity|done].
  - rstep. eapply runs_conseq; [by apply (submit_core_ok sid s)|].
    intros pos k' _. kstep. eexists. split; [reflexivity|done].
Qed.

(** On the journalled path the flags of the transaction are tested on
    a copy and never removed from the bio: a bio marked as part of a
    transaction still carries the mark when it reaches the block layer. *)
Theorem journalled_bio_keeps_tx_flag sid s k b :
  submit_ready sid s k -> sid < nr_streams k -> bio_ok s b ->
  flag_set (bi_opf b) REQ_TX = true -> op_is_ordered_write (bi_opf b) = false ->
  runs (stream_submit_bio_ipu b sid true) k (fun _ k' => exists evs b',
    trace k' = evs ++ [SubmitBio b'] /\ flag_set (bi_opf b') REQ_TX = true).
Proof.
  intros Hr Hlt [Hb1 Hb2 Hb3 Hb4 Hb5 Hb6 Hb7] Htx Hord. pose proof Hr as [Hsid Hs Hok _ _ Hwb Hjl _].
  unfold stream_submit_bio_ipu. cbv zeta. rstep. apply clamp_sid_ok; [done|].
  assert (Es : strip_order (bi_opf b) = bi_opf b).
  { unfold strip_order. rewrite Hord. unfold op_is_ordered_write in Hord.
    apply orb_false_iff in Hord as [_ ->]. done. }
  assert (Etx : op_is_tx_write (u32 (bi_opf b)) = true) by (unfold op_is_tx_write; by rewrite flag_set_u32).
  rewrite Etx, !orb_true_r. cbn [orb negb]. rstep. rstep. rewrite orb_true_r. rstep.
  set (b1 := b <| bi_opf ::= strip_order |>).
  assert (Eb : bi_opf b1 = bi_opf b) by exact Es.
  eapply runs_conseq; [by apply (journal_write_alloc_ok sid s k b1)|].
  intros r k1 (F1 & s1 & ptr & k0 & Hs1 & Hpost & -> & _ & _).
  pose proof (so_journal s Hok). pose proof Hpost as (_ & Hp1 & _).
  destruct (Z.ltb_spec ptr 0); [lia|]. rstep.
  pose proof (evolves_reserved no_end_mark _ _ _ _ Hok Hpost) as Hev1.
  pose proof (submit_ready_step _ _ _ _ _ _ Hr (op_io_frame _ _ _ F1) Hs1 Hev1) as Hr1.
  pose proof (wrap_range 32 (bi_size b / 4096) ltac:(lia)) as Hsr. fold (horae_get_secs b) in Hsr.
  pose proof (u16_le (horae_get_secs b) ltac:(lia)).
  eapply runs_conseq; [apply (submit_core_ok sid s1); [done|apply Z.div_pos; lia|lia]|].
  intros pos k2 _. kstep. eexists _, _. split; [reflexivity|].
  change (flag_set (bi_opf b1) REQ_TX = true). by rewrite Eb.
Qed.

(** A bio built from a buffer that starts inside its device does not
    reach past its end: the truncation computes the right length without
    wrapping around. *)
Theorem buffer_bio_stays_in_device op op_flags bh k b bh' k' :
  0 <= b_size bh < 2 ^ 32 -> bh2bio op op_flags bh k = Ret (b, bh') k' ->
  bi_sector b < dev_sectors b ->
  k' = k /\ bi_sector b = u64 (b_blocknr bh * Z.shiftr (b_size bh) 9) /\
  bi_size b <= b_size bh /\
  bi_sector b + Z.shiftr (bi_size b) 9 <= dev_sectors b.
Proof.
  intros Hz Hrun Hin. unfold bh2bio in Hrun.
  do 6 (apply bind_inv in Hrun as ([] & ? & [? ->]%check_inv & Hrun)).
  set (b0 := mk_bio _ _ _ _ _ _) in *. set (x := Z.lor op _) in Hrun.
  injection Hrun as Eb _ <-. split; [done|].
  assert (Hs0 : 0 <= bi_sector b0) by apply (wrap_range 64 (b_blocknr bh * Z.shiftr (b_size bh) 9) ltac:(lia)).
  assert (Ez : bi_size b0 = b_size bh) by (apply (wrap_small 32); lia).
  destruct (guard_bio_eod_ok op b0) as (E1 & E2 & E3 & E4 & _ & E5); [done|by rewrite Ez|].
  assert (F1 : bi_sector b = bi_sector b0) by (rewrite <- Eb; exact E1).
  assert (F2 : bi_size b = bi_size (guard_bio_eod op b0).1) by by rewrite <- Eb.
  assert (F3 : dev_sectors b = dev_sectors b0).
  { rewrite <- Eb. unfold dev_sectors. change (bi_disk (_ <| bi_opf := x |>)) with (bi_disk (guard_bio_eod op b0).1).
    change (bi_partno (_ <| bi_opf := x |>)) with (bi_partno (guard_bio_eod op b0).1). by rewrite E2, E3. }
  rewrite F1, F2, F3 in *. specialize (E5 Hin). split_and!; [done|lia|lia].
Qed.

(** The region [init_cmb] maps lies inside the BAR that contains it,
    whatever the capability registers claim, and every way of not mapping
    it is reported: no memory buffer, one already mapped by the driver, an
    offset past the end of the BAR, a failed mapping. *)
Theorem cmb_mapping_in_bar p :
  (forall bar, 0 <= resource_start p bar /\ 0 <= resource_len p bar /\
     resource_start p bar + resource_len p bar < 2 ^ 64) ->
  existsb id (take 2 (pci_found p)) = true ->
  let bar := NVME_CMB_BIR (reg_cmbloc p) in
  let offset := u64 (nvme_cmb_size_unit (reg_cmbsz p) * NVME_CMB_OFST (reg_cmbloc p)) in
  match init_cmb p with
  | inr (inr (raddr, size)) =>
      raddr = resource_start p bar + offset /\ 0 <= size /\
      resource_start p bar <= raddr /\
      raddr + size <= resource_start p bar + resource_len p bar
  | inr (inl EINVAL) => reg_cmbsz p = 0 \/ resource_len p bar < offset
  | inr (inl EBUSY) => cmb_mapped p = true
  | inr (inl ENOMEM) => ioremap_ok p = false
  | _ => False
  end.
Proof.
  intros Hbar Hf bar offset. unfold init_cmb. rewrite Hf. cbn [negb]. fold bar offset.
  destruct (Z.eqb_spec (reg_cmbsz p) 0); [by left|].
  destruct (cmb_mapped p); [done|]. destruct (Hbar bar) as (Hs & Hl & He).
  destruct (Z.ltb_spec (resource_len p bar) offset); [by right|].
  destruct (ioremap_ok p); [|done].
  assert (Ho : 0 <= offset) by apply (wrap_range 64 _ ltac:(lia)).
  set (size := u64 (nvme_cmb_size_unit (reg_cmbsz p) * nvme_cmb_size (reg_cmbsz p))). assert (Hz : 0 <= size) by apply (wrap_range 64 _ ltac:(lia)).
  rewrite wrap_small by lia. destruct (Z.ltb_spec (resource_len p bar - offset) size); lia.
Qed.

(** C10: Loading the module gives every stream an empty log that satisfies
    the invariant, a part of the persistent region and a part of the journal
    inside them, and no two streams share a byte or a block; all streams are
    free.  [raw] and [buf], the memory the allocator returned, are arbitrary. *)
Theorem load_gives_disjoint_streams k raw buf :
  let nr := if nr_streams k <=? 0 then u32 num_possible_cpus else nr_streams k in
  load_ok (olog_size k) nr (journal_size k) buf -> dev_size (ci k) = olog_size k ->
  runs (init_streams true raw buf) k (fun r k' => r = 0 /\
    Z.of_nat (length (streams k')) = nr /\ free_stream_q k' = seqZ 0 nr /\
    (forall i s, streams k' !! i = Some s ->
       stream_ok s /\ log s = [] /\ cmb_geom s (ci k') /\
       off_in_journal s + nr_journal_block s <= NR_JOURNAL_REGION_BLOCK (journal_size k)) /\
    forall i j si sj, (i < j)%nat -> streams k' !! i = Some si -> streams k' !! j = Some sj ->
      off_in_cmb si + ometa_size si <= off_in_cmb sj /\
      off_in_journal si + nr_journal_block si <= off_in_journal sj).
Proof.
  intros nr Hl Hd. eapply runs_conseq; [apply init_streams_runs; apply Hl|].
  intros r k' (-> & _ & Ec & _ & _ & _ & Eq & _ & Es). fold nr in Eq, Es.
  pose proof (lo_nr _ _ _ _ Hl) as Hnr.
  assert (Hget : forall i s, streams k' !! i = Some s -> Z.of_nat i < nr /\
            s = init_stream (olog_size k) nr (cp_size k) (journal_size k) (raw (Z.of_nat i))
                  (buf (Z.of_nat i) (olog_size k / sizeof_cmd / nr)) (Z.of_nat i)).
  { intros i s Hi. rewrite Es, list_lookup_fmap in Hi.
    destruct (seqZ 0 nr !! i) as [x|] eqn:E; [|done]. apply lookup_seqZ in E as [-> ?].
    simpl in Hi. injection Hi as <-. split; [lia|done]. }
  assert (Hall : forall i s, streams k' !! i = Some s -> Z.of_nat i < nr /\
            stream_ok s /\ cmb_geom s (ci k) /\ log s = [] /\ nr_ometa s = olog_size k / sizeof_cmd / nr /\
            off_in_cmb s = Z.of_nat i * ometa_size s /\ ometa_size s = olog_size k / sizeof_cmd / nr * sizeof_cmd /\
            nr_journal_block s = 256 * journal_size k / nr /\ off_in_journal s = Z.of_nat i * nr_journal_block s).
  { intros i s Hi. destruct (Hget i s Hi) as [Hlt ->].
    destruct (init_stream_ok (olog_size k) nr (cp_size k) (journal_size k) (raw (Z.of_nat i)) buf
                (Z.of_nat i) (ci k) Hl Hd ltac:(lia)) as (? & ? & ? & ? & ? & ? & ? & ? & _).
    split_and!; done. }
  pose proof (lo_slots _ _ _ _ Hl) as Hsl. pose proof (lo_journal _ _ _ _ Hl) as [Hj1 Hj2].
  destruct (journal_share (journal_size k) nr ltac:(lia) Hj1 Hj2) as (Ejr & Hs0 & Hs1). rewrite Ejr in Hs0, Hs1.
  split_and!; [done|rewrite Es, length_fmap, length_seqZ; lia|done| |].
  - intros i s Hi. destruct (Hall i s Hi) as (Hlt & ? & ? & ? & _ & _ & _ & Ej & Eo).
    rewrite Ec. split_and!; [done..|]. rewrite Eo, Ej, Ejr. nia.
  - intros i j si sj Hij Hi Hj.
    destruct (Hall i si Hi) as (_ & _ & _ & _ & _ & Eo1 & Es1 & Ej1 & Eoj1).
    destruct (Hall j sj Hj) as (_ & _ & _ & _ & _ & Eo2 & Es2 & Ej2 & Eoj2).
    rewrite Eo1, Eo2, Eoj1, Eoj2, Es1, Es2, Ej1, Ej2. split; apply share_before; unfold sizeof_cmd in *; done || lia.
Qed.

(** Registration hands out distinct streams that were free and are
    not handed out again before they come back, registers every device once,
    and keeps the registry's invariant. *)
Theorem registration_hands_out_distinct_streams nr p nr2 p2 k :
  registry_ok k -> 0 <= nr -> 0 <= nr2 ->
  p_nr_device p <= Z.of_nat (length (p_devices p)) ->
  p_nr_device p2 <= Z.of_nat (length (p_devices p2)) ->
  runs (strs <-- olayer_register_streams nr p ;; strs2 <-- olayer_register_streams nr2 p2 ;;
        ret (strs, strs2)) k (fun r k' => registry_ok k' /\ NoDup (r.1 ++ r.2) /\
    Forall (fun i => 0 <= i < nr_streams k) (r.1 ++ r.2) /\
    (forall i, i ∈ r.1 ++ r.2 -> i ∈ free_stream_q k /\ i ∉ free_stream_q k') /\
    forall d, d ∈ take (Z.to_nat (p_nr_device p2)) (p_devices p2) -> d.1 ∈ dev_ID <$> registered_list k').
Proof.
  intros Hk Hn Hn2 Hp Hp2. rstep. eapply runs_conseq; [by apply register_runs|].
  intros strs k1 (-> & Eq1 & Hk1 & _ & En1 & _ & _ & _). rstep.
  eapply runs_conseq; [by apply register_runs|].
  intros strs2 k2 (-> & Eq2 & Hk2 & _ & _ & _ & Hd2 & _). kstep. cbn [fst snd].
  set (n := Z.to_nat (Z.min nr (nr_streams k))) in *.
  set (n2 := Z.to_nat (Z.min nr2 (nr_streams k1))) in *.
  assert (Hsplit : free_stream_q k = (take n (free_stream_q k) ++ take n2 (free_stream_q k1)) ++ free_stream_q k2).
  { by rewrite Eq2, <- app_assoc, take_drop, Eq1, take_drop. }
  pose proof (ro_free k Hk) as Hnd. pose proof (ro_range k Hk) as Hr. rewrite Hsplit in Hnd, Hr.
  apply NoDup_app in Hnd as (H1 & H2 & _). apply Forall_app in Hr as [Hr _].
  split_and!; [done..| |done]. intros i Hi. split; [|by apply H2].
  rewrite Hsplit. apply elem_of_app. by left.
Qed.

(** Streams that were registered and are given back are all taken
    back, reset to an empty log with the invariant, and the free queue holds
    the same streams as before. *)
Theorem register_unregister_roundtrip nr p devs k :
  registry_ok k -> 0 <= nr -> p_nr_device p <= Z.of_nat (length (p_devices p)) ->
  (forall i s, streams k !! i = Some s -> stream_ok s /\ cmb_geom s (ci k)) ->
  runs (strs <-- olayer_register_streams nr p ;; _ <-- olayer_unregister_streams strs devs ;; ret strs) k
    (fun strs k' => registry_ok k' /\ free_stream_q k' ≡ₚ free_stream_q k /\
       forall i s, streams k !! i = Some s -> Z.of_nat i ∈ strs -> exists s',
         streams k' !! i = Some s' /\ stream_ok s' /\ log s' = [] /\ nr_devices s' = 0).
Proof.
  intros Hk Hn Hp Hst. rstep. eapply runs_conseq; [by apply register_runs|].
  intros strs k1 (-> & Eq1 & Hk1 & _ & En1 & _ & _ & S1). rstep.
  set (n := Z.to_nat (Z.min nr (nr_streams k))) in *. set (q := free_stream_q k) in *.
  pose proof (ro_free k Hk) as Hnd. pose proof (ro_range k Hk) as Hr. fold q in Hnd, Hr.
  assert (Hperm : drop n q ++ take n q ≡ₚ q) by (rewrite (Permutation_app_comm (drop n q)), take_drop; done).
  eapply runs_conseq; [apply (unregister_runs (take n q) devs k1)|].
  { done. }
  { rewrite En1. by apply Forall_take. }
  { rewrite Eq1. by rewrite Hperm. }
  intros r k2 (_ & Eq2 & Hk2 & _ & _ & S2). kstep. split_and!; [done|by rewrite Eq2, Eq1|].
  intros i s Hi Hin. pose proof (S1 i s Hi) as Hi1. rewrite decide_True in Hi1 by done.
  pose proof (S2 i _ Hi1) as Hi2. rewrite decide_True in Hi2 by done. eexists. split; [exact Hi2|].
  destruct (Hst i s Hi) as [Hok Hg].
  destruct (reset_stream_ok (assigned p s) (ci k)) as (? & _ & ?); [|exact Hg|split_and!; [done|done|]].
  - destruct Hok as [[? ? ? ? ?] He ? ? ? ?]. split; [by split|exact He|done..].
  - by rewrite reset_stream_eq.
Qed.
End theorems.

(** ** The theorems on the module of Instances.v *)

Lemma submitted_bio_has_no_private_flags_witness :
  runs (stream_submit_bio (block_bio 10 REQ_TX) 1) mounted (fun _ k' => exists evs,
    trace k' = evs ++ [SubmitBio ((block_bio 10 REQ_TX) <| bi_opf := 1 |>)]).
Proof.
  eapply runs_conseq.
  - apply (submitted_bio_has_no_private_flags 1 stream1 mounted (block_bio 10 REQ_TX));
      [exact ready1|reflexivity|vm_compute; congruence..].
  - intros [] k' (evs & T & _). exists evs. exact T.
Defined.

Lemma journalled_bio_keeps_tx_flag_witness :
  runs (stream_submit_bio_ipu (block_bio 10 REQ_TX) 1 true) mounted (fun _ k' => exists evs b',
    trace k' = evs ++ [SubmitBio b'] /\ flag_set (bi_opf b') REQ_TX = true).
Proof.
  apply (journalled_bio_keeps_tx_flag 1 stream1 mounted (block_bio 10 REQ_TX));
    [exact ready1|reflexivity| |reflexivity|reflexivity].
  split; concrete.
Defined.

Definition edge_bh : buffer_head :=
  mk_bh 511 4096 (mk_bdev 8 1) 3 0 true true false false true false false false true.

Definition edge_bio : bio :=
  Eval vm_compute in
  match bh2bio REQ_OP_WRITE 0 edge_bh mounted with Ret (b, _) _ => b | _ => block_bio 0 0 end.

Lemma buffer_bio_stays_in_device_witness :
  bi_sector edge_bio + Z.shiftr (bi_size edge_bio) 9 <= 4096.
Proof.
  apply (buffer_bio_stays_in_device REQ_OP_WRITE 0 edge_bh mounted edge_bio edge_bh mounted);
    [concrete|reflexivity|reflexivity].
Defined.

(** A 1 MB buffer at offset 1 MB of a 64 MB BAR. *)
Definition probe0 : pci_probe :=
  mk_probe [true; false] (Z.shiftl 256 12) (Z.shiftl 256 12 + 2) false (fun _ => 2 ^ 26)
    (fun _ => 2 ^ 32) true.

Lemma cmb_mapping_in_bar_witness :
  init_cmb probe0 = inr (inr (2 ^ 32 + 2 ^ 20, 2 ^ 20)) /\
  2 ^ 32 + 2 ^ 20 + 2 ^ 20 <= 2 ^ 32 + 2 ^ 26.
Proof.
  assert (E : init_cmb probe0 = inr (inr (2 ^ 32 + 2 ^ 20, 2 ^ 20))) by reflexivity.
  pose proof (cmb_mapping_in_bar probe0) as Hm. rewrite E in Hm.
  split; [exact E|]. apply Hm; [intros bar; concrete|reflexivity].
Defined.

Lemma load_gives_disjoint_streams_witness :
  runs (init_streams true (fun _ => raw_stream) raw_buf) unloaded (fun r k' =>
    r = 0 /\ free_stream_q k' = [0; 1]).
Proof.
  eapply runs_conseq.
  - apply (load_gives_disjoint_streams unloaded (fun _ => raw_stream) raw_buf);
      [exact load_ok0|reflexivity].
  - intros r k' (-> & _ & Eq & _). split; [reflexivity|exact Eq].
Defined.

Lemma loaded_registry : registry_ok loaded.
Proof.
  split; [concrete|reflexivity|concrete| | |constructor].
  - apply NoDup_cons; split; [|apply NoDup_singleton]. intros Hi%list_elem_of_singleton. done.
  - repeat constructor; vm_compute; congruence.
Qed.

Lemma loaded_streams i s : streams loaded !! i = Some s -> stream_ok s /\ cmb_geom s (ci loaded).
Proof.
  intros Hi. assert (Hs : s = default raw_stream (streams loaded !! 0%nat) \/
                          s = default raw_stream (streams loaded !! 1%nat)).
  { destruct i as [|[|i]]; [left; by injection Hi as <-|right; by injection Hi as <-|done]. }
  destruct Hs as [-> | ->]; (split; [apply stream_ok_refl_lists|]; concrete).
Qed.

Lemma registration_hands_out_distinct_streams_witness :
  runs (strs <-- olayer_register_streams 1 fs_param ;; strs2 <-- olayer_register_streams 1 fs_param ;;
        ret (strs, strs2)) loaded (fun r _ => NoDup (r.1 ++ r.2)).
Proof.
  eapply runs_conseq.
  - apply (registration_hands_out_distinct_streams 1 fs_param 1 fs_param loaded);
      [exact loaded_registry|lia|lia|vm_compute; congruence..].
  - intros r k' (_ & Hnd & _). exact Hnd.
Defined.

Lemma register_unregister_roundtrip_witness :
  runs (strs <-- olayer_register_streams 1 fs_param ;; _ <-- olayer_unregister_streams strs [8] ;; ret strs)
    loaded (fun _ k' => free_stream_q k' ≡ₚ free_stream_q loaded).
Proof.
  eapply runs_conseq.
  - apply (register_unregister_roundtrip 1 fs_param [8] loaded);
      [exact loaded_registry|lia|vm_compute; congruence|exact loaded_streams].
  - intros strs k' (_ & Hq & _). exact Hq.
Defined.
