(* ===== verification/RecoveryTheorems.v ===== *)
(** * Theorems about crash recovery *)

From S2P Require Import Prelude Ring Horae Scan Cmb Checkpoint CheckpointFacts JournalFacts Stream StreamFacts DoorbellFacts TxFacts Registry RegistryFacts Recovery RecoveryFacts Instances.

Section theorems.
Context `{Kernel} `{!KernelLaws}.

(** C3: Recovery refines the replay of the logs.  Assume that the device holds
    the flushed log of every stream as the host has it, that the journal blocks
    of its entries have sectors of 32 bits, and that no stream but the last ends
    inside a transaction (the phase of the scan is carried into the next
    stream).  Then the nested scans of all streams return 0 and leave the disks
    exactly as replaying, stream by stream and in log order, the journalled inner
    entries of the complete transactions leaves them; a transaction that is open
    at the end of the last stream is not replayed.  The streams, what the CPU
    reads of the region and the index are not touched. *)
Theorem recovery_refines_replay bd k :
  0 <= nr_streams k < 2 ^ 32 -> Z.of_nat (length (streams k)) = nr_streams k ->
  Forall (recoverable (ci k)) (streams k) -> Forall ends_closed (removelast (streams k)) ->
  runs (olayer_crash_recovery bd) k (fun r k' => r = 0 /\
    streams k' = streams k /\ view (ci k') = view (ci k) /\ ipu_tree k' = ipu_tree k /\
    disk k' = foldl (fun m s => replay_log (cp_dev k) bd m (flushed_log s)) (disk k) (streams k)).
Proof.
  intros Hnr Hlen Hrc Hcl. eapply runs_conseq; [by apply crash_recovery_ok|].
  intros r k' (-> & [E C D _]). split_and!; [done|by rewrite E|by destruct C as [-> | ->]|by rewrite E|exact D].
Qed.

(** Replaying a journalled entry returns 0, copies its journal blocks
    to its home blocks (at most as many as one bio holds) and changes nothing
    else: the home blocks read what the journal held, every other block of
    every device what it held before, and streams and index are kept. *)
Theorem replay_copies_journal_blocks o bd k :
  entry_ok o -> journal_addr_ok o -> plba o ≠ 0 ->
  runs (crash_recovery_commit_write o bd) k (fun r k' =>
    r = 0 /\ streams k' = streams k /\ ipu_tree k' = ipu_tree k /\ ci k' = ci k /\
    forall d x, disk k' !! dev_key d x =
      if decide (same_dev bd d /\ lba o <= x < lba o + Z.min (clength o) BIO_MAX_PAGES)
      then disk k !! dev_key (cp_dev k) (plba o + (x - lba o)) else disk k !! dev_key d x).
Proof.
  intros Ho Hj Hp. eapply runs_conseq; [by apply commit_write_replay|].
  intros r k' (-> & evs & ->). split_and!; [done..|]. intros d x. simpl disk.
  unfold replay_entry. destruct (Z.eqb_spec (plba o) 0); [done|]. apply copy_pages_lookup.
Qed.

(** C28: After the module was loaded again, as after a crash, every queue
    is empty for the host and recovery replays nothing, whatever the device
    holds: the head and the flushed mark are initialised to zero and not
    read back from the device. *)
Theorem recovery_after_load_replays_nothing bd k raw buf :
  let nr := if nr_streams k <=? 0 then u32 num_possible_cpus else nr_streams k in
  load_ok (olog_size k) nr (journal_size k) buf -> dev_size (ci k) = olog_size k ->
  runs (_ <-- init_streams true raw buf ;; olayer_crash_recovery bd) k (fun r k' =>
    r = 0 /\ disk k' = disk k).
Proof.
  intros nr Hl Hd. rstep. pose proof (lo_nr _ _ _ _ Hl) as Hnr.
  assert (Hdisk : runs (init_streams true raw buf) k (fun _ k' => disk k' = disk k)).
  { unfold init_streams. rstep. kstep. rstep. kstep. rstep.
    apply runs_check; [apply negb_true_iff, Z.eqb_neq; simpl; fold nr; lia|]. rstep.
    apply runs_check; [done|]. rstep. kstep. rstep.
    eapply runs_conseq; [apply (runs_for_each (fun _ k' => disk k' = disk k)); [done|]|].
    - intros dn i rest k1 _ E. unfold init_one. kstep. exact E.
    - intros [] k1 E. kstep. exact E. }
  pose proof (init_streams_runs k raw buf Hnr) as Hrun.
  apply runs_elim in Hrun as (r & k1 & E & -> & En & Ec & _ & _ & _ & _ & _ & Es). fold nr in En, Es.
  unfold runs in Hdisk. rewrite E in Hdisk. eapply runs_intro; [exact E|].
  assert (Hempty : forall s, s ∈ streams k1 -> recoverable (ci k1) s /\ flushed_log s = []).
  { intros s Hs. rewrite Es in Hs. apply list_elem_of_fmap in Hs as (i & -> & Hi). apply elem_of_seqZ in Hi.
    destruct (init_stream_ok (olog_size k) nr (cp_size k) (journal_size k) (raw i) buf i (ci k1) Hl
                ltac:(by rewrite Ec) ltac:(lia)) as (Hok & Hg & Hlog & _).
    set (s := init_stream _ _ _ _ _ _ _) in *.
    assert (Hf : flushed_log s = []).
    { pose proof (log_split s Hok) as Hsp. rewrite Hlog in Hsp. symmetry in Hsp.
      by apply app_eq_nil in Hsp as [? _]. }
    split; [|done]. split; [apply Hok|done|by rewrite Hf|].
    intros j Hj. exfalso. assert (Hin : slot s j ∈ flushed_log s) by by apply list_elem_of_fmap_2.
    rewrite Hf in Hin. by apply elem_of_nil in Hin. }
  eapply runs_conseq; [apply crash_recovery_ok|].
  - rewrite En. lia.
  - rewrite Es, length_fmap, length_seqZ, En. lia.
  - apply Forall_forall. intros s Hs. by apply Hempty.
  - apply Forall_forall. intros s Hs. unfold ends_closed. destruct (Hempty s) as [_ ->]; [by apply elem_of_removelast|done].
  - intros r k2 (-> & [_ _ D _]). split; [done|]. rewrite D, <- Hdisk. clear -Hempty.
    generalize (disk k1). induction (streams k1) as [|s l IH]; intros m; [done|]. simpl.
    destruct (Hempty s) as [_ ->]; [left|]. apply IH. intros s' Hs'. apply Hempty. by right.
Qed.
End theorems.

(** ** The theorems on the module of Instances.v *)

Lemma recoverable_tx : Forall (recoverable (ci tx_k)) (streams tx_k).
Proof.
  assert (Hholds : forall i, i ∈ [0; 1; 2] -> holds (view (ci tx_k)) tx_s i).
  { intros i Hi j Hj.
    assert (Hall : forallb (fun i => forallb (fun j => bool_decide (view (ci tx_k) !! (slot_addr tx_s i + j) =
        encode_cmd (slot tx_s i) !! Z.to_nat j)) (seqZ 0 64)) [0; 1; 2] = true) by (vm_compute; reflexivity).
    rewrite forallb_forall in Hall. specialize (Hall i ltac:(by apply list_elem_of_In)).
    rewrite forallb_forall in Hall. apply (bool_decide_eq_true_1 _), Hall.
    apply list_elem_of_In, elem_of_seqZ. unfold sizeof_cmd in Hj. lia. }
  apply Forall_cons. split; [|apply Forall_cons; split; [|constructor]].
  - split; [split; concrete|concrete|concrete_log|].
    intros i Hi. vm_compute in Hi. by apply elem_of_nil in Hi.
  - split; [apply tx_ok|concrete|concrete_log|exact Hholds].
Qed.

Lemma recovery_refines_replay_witness :
  runs (olayer_crash_recovery (mk_bdev 8 0)) tx_k (fun r _ => r = 0).
Proof.
  eapply runs_conseq.
  - apply (recovery_refines_replay (mk_bdev 8 0) tx_k); [concrete|reflexivity|exact recoverable_tx|repeat constructor].
  - intros r k' (-> & _). reflexivity.
Defined.

Lemma replay_copies_journal_blocks_witness :
  runs (crash_recovery_commit_write (slot tx_s 1) (mk_bdev 8 0))
    (tx_k <| disk := {[ dev_key (cp_dev tx_k) (plba (slot tx_s 1)) := 42 ]} |>)
    (fun r k' => disk k' !! dev_key (mk_bdev 8 0) (lba (slot tx_s 1)) = Some 42).
Proof.
  eapply runs_conseq.
  - apply (replay_copies_journal_blocks (slot tx_s 1) (mk_bdev 8 0)
             (tx_k <| disk := {[ dev_key (cp_dev tx_k) (plba (slot tx_s 1)) := 42 ]} |>));
      [concrete|split; vm_compute; congruence|vm_compute; congruence].
  - intros r k' (_ & _ & _ & _ & Hd). rewrite Hd. vm_compute. reflexivity.
Defined.

Lemma recovery_after_load_replays_nothing_witness :
  runs (_ <-- init_streams true (fun _ => raw_stream) raw_buf ;; olayer_crash_recovery (mk_bdev 8 0)) unloaded
    (fun r k' => r = 0 /\ disk k' = ∅).
Proof.
  apply (recovery_after_load_replays_nothing (mk_bdev 8 0) unloaded (fun _ => raw_stream) raw_buf);
    [exact load_ok0|reflexivity].
Defined.
