(* ===== verification/Submitter.v ===== *)
(** * The background submitter (ccnvme/submitter.c)

    With ENABLE_BG_SUBMITTER the tasks that write hand their bios to kernel
    threads through lock-free rings: [delegate_bio] reserves a slot by moving
    [tail_watermark] with a compare-and-swap, fills it, and publishes it by
    moving [tail]; [bio_delegater] takes the published slots in order.

    One submitter is a transition system.  Every access to shared memory is a
    step of its own, a program counter says where a task is between two of
    them, and a schedule (a list of labels) chooses who moves: the memory is
    sequentially consistent, which the barriers and the locked
    compare-and-swaps of the code give on the processors it runs on. *)

From S2P Require Import Prelude Ring Horae.

(** ** State *)

Record submitter_ring := mk_sring {
  r_head : Z;
  r_tail : Z;
  r_len : Z;
  r_watermark : Z;            (* tail_watermark *)
  bio_sqes : list Z;          (* the bios, by their address *)
  r_flags : Z;
}.

#[export] Instance eta_submitter_ring : Eta submitter_ring := fun r =>
  mk_sring (r_head r) (r_tail r) (r_len r) (r_watermark r) (bio_sqes r) (r_flags r).

(** Where a task is inside [delegate_bio] for the bio [b].  [t] is its local
    variable [tail_old].  The last argument is not part of the program: it
    counts the reservations made before [t] was read. *)
Inductive ppc :=
| PIdle
| PRead (b : Z)                 (* tail_old = READ_ONCE(tail_watermark) *)
| PSpace (b t g : Z)            (* horae_ring_space(..) < nr_entries *)
| PReserve (b t g : Z)          (* cmpxchg(&tail_watermark, ..) *)
| PStore (b t g : Z)            (* bio_sqes[tail_old] = src_bio *)
| PPublish (b t g : Z)          (* cmpxchg(&tail, ..) *)
| PWake (b : Z).                (* if (flags & NEED_WAKEUP) wake_up_process *)

Record producer := mk_producer {
  pc : ppc;
  todo : list Z;                (* the bios it will still delegate *)
  delegated_bio : Z;
  done_by_self_bio : Z;
}.

#[export] Instance eta_producer : Eta producer := fun p =>
  mk_producer (pc p) (todo p) (delegated_bio p) (done_by_self_bio p).

(** Where the kernel thread is inside [bio_delegater]; [h] is its local
    variable [head]. *)
Inductive dpc :=
| DTop                          (* the condition of the outer loop *)
| DPoll (h : Z)                 (* if (head == ring->tail) break *)
| DTake (h : Z)                 (* sqe = bio_sqes[head]; olayer_submit_bio(sqe) *)
| DStoreHead (h : Z)            (* ring->head = head *)
| DIdle                         (* if (!time_after(jiffies, timeout)) *)
| DFlag                         (* flags |= NEED_WAKEUP *)
| DSetState                     (* set_current_state(TASK_INTERRUPTIBLE) *)
| DSched                        (* schedule() *)
| DUnflag                       (* flags &= ~NEED_WAKEUP *)
| DDone.                        (* behind the outer loop *)

Record submitter := mk_submitter {
  ring : submitter_ring;
  should_stop : bool;
  producers : list producer;
  thread : dpc;
  sleeping : bool;              (* the thread is TASK_INTERRUPTIBLE *)
  submitted : list Z;           (* the bios the thread submitted, in order *)
  by_self : list Z;             (* the bios the tasks submitted themselves *)
  (* counters that are not part of the program *)
  n_head : Z;                   (* slots ring->head has passed *)
  n_cur : Z;                    (* slots the thread's local head has passed *)
  n_wm : Z;                     (* reservations *)
  published : list Z;           (* the bios, in the order of publication *)
}.

#[export] Instance eta_submitter : Eta submitter := fun s =>
  mk_submitter (ring s) (should_stop s) (producers s) (thread s) (sleeping s) (submitted s)
    (by_self s) (n_head s) (n_cur s) (n_wm s) (published s).

(** ** [delegate_bio], one access at a time *)

Definition set_pc (i : nat) (p : producer) (c : ppc) (s : submitter) : submitter :=
  s <| producers ::= <[i := p <| pc := c |>]> |>.

(** A task that still has bios to delegate calls [delegate_bio] again.
    [None]: an index outside the array, or a remainder by zero. *)
Definition delegate_step (i : nat) (p : producer) (s : submitter) : option submitter :=
  let r := ring s in
  match pc p with
  | PIdle =>
      match todo p with
      | [] => None
      | b :: rest => Some (set_pc i (p <| todo := rest |>) (PRead b) s)
      end
  | PRead b => Some (set_pc i p (PSpace b (r_watermark r) (n_wm s)) s)
  | PSpace b t g =>
      if r_len r =? 0 then None
      else if horae_ring_space (r_head r) t (r_len r) <? 1 then
        Some (set_pc i (p <| done_by_self_bio ::= fun n => u64 (n + 1) |>) PIdle
                (s <| by_self ::= (.++ [b]) |>))
      else Some (set_pc i p (PReserve b t g) s)
  | PReserve b t g =>
      if r_len r =? 0 then None
      else if r_watermark r =? t then
        Some (set_pc i p (PStore b t g)
                (s <| ring := r <| r_watermark := u64 (t + 1) mod r_len r |> |>
                   <| n_wm ::= fun n => n + 1 |>))
      else Some (set_pc i p (PRead b) s)
  | PStore b t g =>
      if (0 <=? t) && (t <? Z.of_nat (length (bio_sqes r))) then
        Some (set_pc i p (PPublish b t g) (s <| ring := r <| bio_sqes ::= <[Z.to_nat t := b]> |> |>))
      else None
  | PPublish b t g =>
      if r_tail r =? t then
        Some (set_pc i p (PWake b)
                (s <| ring := r <| r_tail := u64 (t + 1) mod r_len r |> |>
                   <| published ::= (.++ [b]) |>))
      else Some s
  | PWake b =>
      Some (set_pc i (p <| delegated_bio ::= fun n => u64 (n + 1) |>) PIdle
              (if flag_set (r_flags r) HORAE_SUBMITTER_NEED_WAKEUP
               then s <| sleeping := false |> else s))
  end.

(** ** [bio_delegater], one access at a time

    [idle]: the thread has found nothing for DELEGATOR_IDEL_TIMEOUT, which
    the schedule decides. *)

Definition delegater_step (idle : bool) (s : submitter) : option submitter :=
  let r := ring s in
  match thread s with
  | DTop =>
      if should_stop s then Some (s <| thread := DDone |>)
      else Some (s <| thread := DPoll (r_head r) |>)
  | DPoll h =>
      if h =? r_tail r then Some (s <| thread := DStoreHead h |>)
      else Some (s <| thread := DTake h |>)
  | DTake h =>
      if r_len r =? 0 then None
      else
        match bio_sqes r !! Z.to_nat h with
        | None => None
        | Some b =>
            Some (s <| submitted ::= (.++ [b]) |> <| n_cur ::= fun n => n + 1 |>
                    <| thread := DPoll (u64 (h + 1) mod r_len r) |>)
        end
  | DStoreHead h =>
      Some (s <| ring := r <| r_head := h |> |> <| n_head := n_cur s |> <| thread := DIdle |>)
  | DIdle => Some (s <| thread := if idle then DFlag else DTop |>)
  | DFlag =>
      Some (s <| ring := r <| r_flags ::= fun f => Z.lor f HORAE_SUBMITTER_NEED_WAKEUP |> |>
              <| thread := DSetState |>)
  | DSetState => Some (s <| sleeping := true |> <| thread := DSched |>)
  | DSched => if sleeping s then None else Some (s <| thread := DUnflag |>)
  | DUnflag =>
      Some (s <| ring := r <| r_flags ::= fun f => clear_flag f HORAE_SUBMITTER_NEED_WAKEUP |> |>
              <| thread := DTop |>)
  | DDone => None
  end.

(** ** One submitter *)

Inductive label :=
| Task (i : nat)        (* a task inside delegate_bio moves *)
| Thread (idle : bool)  (* the kernel thread moves *)
| Stop.                 (* stop_submitter: should_stop = 1; kthread_stop *)

Definition stop_submitter (s : submitter) : submitter :=
  s <| should_stop := true |> <| sleeping := false |>.

Definition sub_step (l : label) (s : submitter) : option submitter :=
  match l with
  | Task i => p ← producers s !! i; delegate_step i p s
  | Thread idle => delegater_step idle s
  | Stop => Some (stop_submitter s)
  end.

Fixpoint sub_run (ls : list label) (s : submitter) : option submitter :=
  match ls with
  | [] => Some s
  | l :: ls => s' ← sub_step l s; sub_run ls s'
  end.

(** ** Start-up

    [ring.flags] is not initialised ([raw] and [flags] stand for what
    [kmalloc] returned). *)

Definition init_ring (raw : list Z) (flags : Z) : submitter_ring :=
  mk_sring 0 0 MAX_BIO_SQES 0 raw flags.

Definition init_submitter (raw : list Z) (flags : Z) (work : list (list Z)) : submitter :=
  mk_submitter (init_ring raw flags) false ((fun w => mk_producer PIdle w 0 0) <$> work)
    DTop false [] [] 0 0 0 [].

(** The ring [delegate_bio] uses. *)
Definition pick_submitter (nr_submitters submitter_id : Z) : Z :=
  if nr_submitters <=? submitter_id then submitter_id mod nr_submitters else submitter_id.
