(* ===== verification/SubmitterFacts.v ===== *)
(** * The submitter's ring: its invariant

    Slots are numbered by tickets: the [i]-th reservation ever made owns slot
    [i mod len].  The counters of [submitter] say which tickets are reserved,
    published, taken and given back; the invariant ties the indices of the
    program to them. *)

From S2P Require Import Prelude Ring Horae Submitter.

Definition n_tail (s : submitter) : Z := Z.of_nat (length (published s)).

(** The ticket a task has reserved and not yet published. *)
Definition held_ticket (c : ppc) : option Z :=
  match c with PStore _ _ g | PPublish _ _ g => Some g | _ => None end.

Definition holder (s : submitter) (g : Z) (i : nat) : Prop :=
  exists p, producers s !! i = Some p /\ held_ticket (pc p) = Some g.

Definition pc_ok (s : submitter) (c : ppc) : Prop :=
  let n := r_len (ring s) in
  match c with
  | PIdle | PRead _ | PWake _ => True
  | PSpace _ t g => t = g mod n /\ 0 <= g <= n_wm s
  | PReserve _ t g =>
      t = g mod n /\ 0 <= g <= n_wm s /\ (g = n_wm s -> g + 1 < n_head s + n)
  | PStore _ t g => t = g mod n /\ n_tail s <= g < n_wm s
  | PPublish b t g =>
      t = g mod n /\ n_tail s <= g < n_wm s /\ bio_sqes (ring s) !! Z.to_nat t = Some b
  end.

Definition thread_ok (s : submitter) : Prop :=
  let n := r_len (ring s) in
  match thread s with
  | DPoll h | DStoreHead h => h = n_cur s mod n
  | DTake h => h = n_cur s mod n /\ n_cur s < n_tail s
  | _ => n_cur s = n_head s
  end.

Record sub_ok (s : submitter) : Prop := mk_sub_ok {
  sk_len : 1 < r_len (ring s) < 2 ^ 63;
  sk_sqes : Z.of_nat (length (bio_sqes (ring s))) = r_len (ring s);
  sk_head : r_head (ring s) = n_head s mod r_len (ring s);
  sk_tail : r_tail (ring s) = n_tail s mod r_len (ring s);
  sk_wm : r_watermark (ring s) = n_wm s mod r_len (ring s);
  sk_order : 0 <= n_head s <= n_cur s /\ n_cur s <= n_tail s <= n_wm s /\
             n_wm s < n_head s + r_len (ring s);
  sk_slots : forall j, n_head s <= j < n_tail s ->
    bio_sqes (ring s) !! Z.to_nat (j mod r_len (ring s)) = published s !! Z.to_nat j;
  sk_submitted : submitted s = take (Z.to_nat (n_cur s)) (published s);
  sk_thread : thread_ok s;
  sk_pcs : forall i p, producers s !! i = Some p -> pc_ok s (pc p);
  sk_holder : forall g, n_tail s <= g < n_wm s -> exists i, holder s g i;
  sk_unique : forall g i j, holder s g i -> holder s g j -> i = j;
}.

(** The bios a task has yet to hand over. *)
Definition in_flight (p : producer) : list Z :=
  match pc p with
  | PIdle | PWake _ => []
  | PRead b | PSpace b _ _ | PReserve b _ _ | PStore b _ _ | PPublish b _ _ => [b]
  end ++ todo p.

(** Every bio handed out so far, wherever it is. *)
Definition accounted (s : submitter) : list Z :=
  concat (in_flight <$> producers s) ++ by_self s ++ published s.

(** No task sleeps between its read of the watermark and its
    compare-and-swap while the ring goes all the way around. *)
Definition timely (s : submitter) : Prop :=
  forall i p, producers s !! i = Some p ->
    match pc p with
    | PSpace _ _ g | PReserve _ _ g => n_wm s - g < r_len (ring s)
    | _ => True
    end.

Inductive timely_run (s0 : submitter) : submitter -> Prop :=
| timely_refl : timely_run s0 s0
| timely_step l s s' :
    timely_run s0 s -> timely s -> sub_step l s = Some s' -> timely_run s0 s'.

(** The slot the thread takes next. *)
Definition next_slot (s : submitter) : Z :=
  match thread s with
  | DPoll h | DTake h | DStoreHead h => h
  | _ => r_head (ring s)
  end.

(** What the ring holds for the thread. *)
Definition ring_queue (s : submitter) : list (option Z) :=
  (fun i => bio_sqes (ring s) !! Z.to_nat i) <$>
  ring_range (r_len (ring s)) (next_slot s) (r_tail (ring s)).

(** ** Tickets of one lap own different slots *)

Lemma mod_next n g : 1 < n < 2 ^ 63 -> u64 (g mod n + 1) mod n = (g + 1) mod n.
Proof.
  intros Hn. pose proof (Z.mod_pos_bound g n ltac:(lia)).
  rewrite wrap_small by (change (2 ^ 64) with (2 * 2 ^ 63); lia).
  by rewrite Zplus_mod_idemp_l.
Qed.

(** The room [delegate_bio] sees for a ticket [g] that is still current. *)
Lemma ring_space_ticket n h g :
  1 < n < 2 ^ 63 -> h <= g < h + n ->
  horae_ring_space (h mod n) (g mod n) n = n - 1 - (g - h).
Proof.
  intros Hn Hg. rewrite horae_ring_space_spec by (lia || apply Z.mod_pos_bound; lia).
  f_equal. rewrite <- Zminus_mod. apply Z.mod_small. lia.
Qed.

Lemma accounted_upd (ps : list producer) i p p' :
  ps !! i = Some p -> exists l r,
  concat (in_flight <$> ps) = l ++ in_flight p ++ r /\
  concat (in_flight <$> <[i := p']> ps) = l ++ in_flight p' ++ r.
Proof.
  intros Hi. pose proof (lookup_lt_Some _ _ _ Hi) as Hlt.
  exists (concat (in_flight <$> take i ps)), (concat (in_flight <$> drop (S i) ps)).
  rewrite insert_take_drop by done. rewrite <- (take_drop_middle ps i p Hi) at 1.
  rewrite !fmap_app, !concat_app, !fmap_cons. done.
Qed.

(** ** Facts that survive the moves of others *)

Lemma pc_ok_mono s s' c :
  r_len (ring s') = r_len (ring s) -> n_wm s <= n_wm s' -> n_head s <= n_head s' ->
  (forall g, held_ticket c = Some g -> n_tail s <= g -> n_tail s' <= g) ->
  (forall b t g, c = PPublish b t g -> bio_sqes (ring s') !! Z.to_nat t = bio_sqes (ring s) !! Z.to_nat t) ->
  pc_ok s c -> pc_ok s' c.
Proof.
  intros El Hw Hh Ht Hs. unfold pc_ok. rewrite El. destruct c; try done.
  - intros (-> & ?). split; [done|lia].
  - intros (-> & ? & Hr). split_and!; [done|lia..|]. intros ->. lia.
  - intros (-> & ?). split; [done|]. specialize (Ht g eq_refl). lia.
  - intros (-> & ? & Hb). specialize (Ht g eq_refl). rewrite (Hs _ _ _ eq_refl). split_and!; [done|lia..|done].
Qed.

Lemma holder_upd s s' i p c g :
  producers s !! i = Some p -> producers s' = <[i := p <| pc := c |>]> (producers s) ->
  forall j, holder s' g j <->
    if decide (j = i) then held_ticket c = Some g else holder s g j.
Proof.
  intros Hi E j. unfold holder. rewrite E. pose proof (lookup_lt_Some _ _ _ Hi) as Hlt.
  case_decide as Hj; [subst j|].
  - rewrite list_lookup_insert_eq by done. naive_solver.
  - by rewrite list_lookup_insert_ne by congruence.
Qed.

(** A task that neither reserves, fills nor publishes a slot. *)
Lemma sub_ok_local s s' i p p' :
  sub_ok s -> producers s !! i = Some p -> producers s' = <[i := p']> (producers s) ->
  held_ticket (pc p') = held_ticket (pc p) -> pc_ok s (pc p') ->
  ring s' = ring s -> thread s' = thread s ->
  submitted s' = submitted s -> n_head s' = n_head s -> n_cur s' = n_cur s ->
  n_wm s' = n_wm s -> published s' = published s -> sub_ok s'.
Proof.
  intros [Hn Hq Hh Ht Hw Ho Hsl Hsub Hth Hp Hhold Hun] Hi E2 Eh Hp' E1 E3 E4 E5 E6 E7 E8.
  pose proof (lookup_lt_Some _ _ _ Hi) as Hlt.
  assert (Et : n_tail s' = n_tail s) by (unfold n_tail; by rewrite E8).
  assert (Epc : forall c, pc_ok s c -> pc_ok s' c).
  { intros c. apply pc_ok_mono; rewrite ?E1, ?E5, ?E7, ?Et; done || lia. }
  assert (Eq : forall g j, holder s' g j <-> holder s g j).
  { intros g j. unfold holder. rewrite E2. destruct (decide (j = i)) as [->|].
    - rewrite list_lookup_insert_eq by done. rewrite Hi. naive_solver congruence.
    - by rewrite list_lookup_insert_ne by congruence. }
  split; unfold thread_ok in *; rewrite ?E1, ?E3, ?E4, ?E5, ?E6, ?E7, ?Et, ?E8; try done.
  - intros j q. rewrite E2. destruct (decide (j = i)) as [->|].
    + rewrite list_lookup_insert_eq by done. intros [= <-]. by apply Epc.
    + rewrite list_lookup_insert_ne by congruence. intros Hj. by eapply Epc, Hp.
  - intros g Hg. destruct (Hhold g Hg) as [j Hj]. exists j. by apply Eq.
  - intros g j j' Hj Hj'. apply Eq in Hj, Hj'. by eapply Hun.
Qed.

(** ** The three writes of [delegate_bio] *)

Lemma reserve_ok s i p b t g :
  sub_ok s -> producers s !! i = Some p -> pc p = PReserve b t g ->
  r_watermark (ring s) = t -> n_wm s - g < r_len (ring s) ->
  sub_ok (set_pc i p (PStore b t g)
            (s <| ring := (ring s) <| r_watermark := u64 (t + 1) mod r_len (ring s) |> |>
               <| n_wm ::= fun n => n + 1 |>)).
Proof.
  intros [Hn Hq Hh Ht Hw Ho Hsl Hsub Hth Hp Hhold Hun] Hi Hpc Hwt Htime.
  pose proof (Hp i p Hi) as Hc. rewrite Hpc in Hc. destruct Hc as (Et & Hg & Hroom).
  assert (Eg : g = n_wm s).
  { apply (mod_lap_inj (r_len (ring s))); [lia| |lia]. congruence. }
  specialize (Hroom Eg). pose proof (lookup_lt_Some _ _ _ Hi) as Hlt.
  set (s' := set_pc _ _ _ _).
  assert (Hhu := fun g' => holder_upd s s' i p (PStore b t g) g' Hi eq_refl).
  assert (Epc : forall c, pc_ok s c -> pc_ok s' c).
  { intros c. apply pc_ok_mono; subst s'; simpl; try done; lia. }
  split; subst s'; simpl in *; try done.
  - subst t. rewrite Et, mod_next by done. by subst g.
  - change (n_tail _) with (n_tail s). lia.
  - intros j q. destruct (decide (j = i)) as [->|].
    + rewrite list_lookup_insert_eq by done. intros [= <-]. simpl. split; [done|].
      change (n_tail _) with (n_tail s). subst g. lia.
    + rewrite list_lookup_insert_ne by congruence. intros Hj. by eapply Epc, Hp.
  - intros g' Hg'. change (n_tail _) with (n_tail s) in Hg'.
    destruct (decide (g' = n_wm s)) as [->|].
    + exists i. apply Hhu. rewrite decide_True by done. simpl. by rewrite Eg.
    + destruct (Hhold g') as [j Hj]; [lia|]. exists j. apply Hhu. case_decide; [|done]. subst j.
      destruct Hj as (p0 & Hi0 & Hh0). rewrite Hi in Hi0. injection Hi0 as <-. by rewrite Hpc in Hh0.
  - assert (Hnot : forall j, ~ holder s (n_wm s) j).
    { intros j (q & Hj & Hhq). pose proof (Hp j q Hj) as Hc.
      destruct (pc q); simpl in Hhq; try discriminate; injection Hhq as ->; simpl in Hc; lia. }
    intros g' j j' Hj%Hhu Hj'%Hhu.
    destruct (decide (j = i)), (decide (j' = i)); simpl in Hj, Hj'.
    + congruence.
    + exfalso. injection Hj as <-. apply (Hnot j'). congruence.
    + exfalso. injection Hj' as <-. apply (Hnot j). congruence.
    + by eapply Hun.
Qed.

Lemma holder_ticket s i p g :
  producers s !! i = Some p -> held_ticket (pc p) = Some g -> holder s g i.
Proof. intros. by exists p. Qed.

Lemma slots_differ s a b :
  sub_ok s -> n_head s <= a < n_wm s -> n_head s <= b < n_wm s -> a <> b ->
  Z.to_nat (a mod r_len (ring s)) <> Z.to_nat (b mod r_len (ring s)).
Proof.
  intros Hk Ha Hb Hne E. pose proof (sk_len s Hk). pose proof (sk_order s Hk).
  apply Hne, (mod_lap_inj (r_len (ring s))); [lia| |lia].
  apply Z2Nat.inj; [apply Z.mod_pos_bound; lia..|done].
Qed.

Lemma held_in_lap s i p g :
  sub_ok s -> producers s !! i = Some p -> held_ticket (pc p) = Some g ->
  n_tail s <= g < n_wm s.
Proof.
  intros Hk Hi Hg. pose proof (sk_pcs s Hk i p Hi) as Hc.
  destruct (pc p); simpl in Hg; try discriminate; injection Hg as ->; simpl in Hc; lia.
Qed.

Lemma store_ok s i p b t g :
  sub_ok s -> producers s !! i = Some p -> pc p = PStore b t g ->
  sub_ok (set_pc i p (PPublish b t g)
            (s <| ring := (ring s) <| bio_sqes ::= <[Z.to_nat t := b]> |> |>)).
Proof.
  intros Hk Hi Hpc. pose proof (sk_pcs s Hk i p Hi) as Hc. rewrite Hpc in Hc. destruct Hc as (Et & Hg).
  pose proof Hk as [Hn Hq Hh Ht Hw Ho Hsl Hsub Hth Hp Hhold Hun].
  pose proof (lookup_lt_Some _ _ _ Hi) as Hlt. pose proof (Z.mod_pos_bound g (r_len (ring s)) ltac:(lia)).
  assert (Hown : holder s g i) by (exists p; by rewrite Hpc).
  set (s' := set_pc _ _ _ _).
  assert (Hhu := fun g' => holder_upd s s' i p (PPublish b t g) g' Hi eq_refl).
  assert (Heq : forall g' j, holder s' g' j <-> holder s g' j).
  { intros g' j. rewrite (Hhu g' j). case_decide as Hj; [subst j|done]. simpl. split.
    - intros [= <-]. done.
    - intros (q & Hi' & Hh'). rewrite Hi in Hi'. injection Hi' as <-. by rewrite Hpc in Hh'. }
  assert (Etl : n_tail s' = n_tail s) by done.
  split; subst s'; simpl in *; try done.
  - by rewrite length_insert.
  - intros j Hj. rewrite Etl in Hj. rewrite list_lookup_insert_ne; [by apply Hsl|].
    subst t. apply slots_differ; [done|lia..].
  - intros j q. destruct (decide (j = i)) as [->|].
    + rewrite list_lookup_insert_eq by done. intros [= <-]. simpl. split_and!; [done|rewrite ?Etl; lia..|].
      apply list_lookup_insert_eq. lia.
    + rewrite list_lookup_insert_ne by congruence. intros Hj. eapply pc_ok_mono; [..|by eapply Hp]; simpl; try done; try lia.
      intros b' t' g' E. pose proof (Hp j q Hj) as Hc. rewrite E in Hc. destruct Hc as (-> & Hg' & _).
      rewrite list_lookup_insert_ne; [done|]. subst t. apply slots_differ; [done|lia..|].
      intros <-. assert (j = i) by (apply (Hun g); [exists q; by rewrite E|done]). done.
  - intros g' Hg'. destruct (Hhold g' Hg') as [j Hj]. exists j. by apply Heq.
  - intros g' j j' Hj%Heq Hj'%Heq. by eapply Hun.
Qed.

Lemma publish_ok s i p b t g :
  sub_ok s -> producers s !! i = Some p -> pc p = PPublish b t g -> r_tail (ring s) = t ->
  sub_ok (set_pc i p (PWake b)
            (s <| ring := (ring s) <| r_tail := u64 (t + 1) mod r_len (ring s) |> |>
               <| published ::= (.++ [b]) |>)).
Proof.
  intros Hk Hi Hpc Htl. pose proof (sk_pcs s Hk i p Hi) as Hc. rewrite Hpc in Hc. destruct Hc as (Et & Hg & Hb).
  pose proof Hk as [Hn Hq Hh Ht Hw Ho Hsl Hsub Hth Hp Hhold Hun].
  pose proof (lookup_lt_Some _ _ _ Hi) as Hlt.
  assert (Eg : g = n_tail s) by (apply (mod_lap_inj (r_len (ring s))); [lia|congruence|lia]).
  assert (Hown : holder s g i) by (exists p; by rewrite Hpc).
  set (s' := set_pc _ _ _ _).
  assert (Etl : n_tail s' = n_tail s + 1).
  { unfold n_tail. subst s'; simpl. rewrite length_app. simpl. lia. }
  assert (Hhu := fun g' => holder_upd s s' i p (PWake b) g' Hi eq_refl).
  assert (Hlater : forall j q g', j <> i -> producers s !! j = Some q -> held_ticket (pc q) = Some g' ->
            n_tail s' <= g').
  { intros j q g' Hne Hj Hg'. pose proof (held_in_lap s j q g' Hk Hj Hg') as Hr.
    assert (g' <> g); [|lia]. intros ->. apply Hne, (Hun g); [by exists q|done]. }
  split; rewrite ?Etl; try done.
  - subst s'; simpl. subst t. by rewrite Et, mod_next, Eg by done.
  - subst s'; simpl. lia.
  - intros j Hj. subst s'; simpl in *. destruct (decide (j = n_tail s)) as [->|].
    + rewrite Eg in Et. rewrite <- Et, Hb. unfold n_tail. by rewrite Nat2Z.id, list_lookup_middle.
    + rewrite Hsl by lia. rewrite lookup_app_l; [done|]. unfold n_tail in *. lia.
  - subst s'; simpl. rewrite take_app_le; [done|]. unfold n_tail in *. lia.
  - revert Hth. unfold thread_ok. rewrite Etl. subst s'; simpl. destruct (thread s); try done. intros [-> ?]. split; [done|lia].
  - intros j q. subst s'; simpl. destruct (decide (j = i)) as [->|].
    + rewrite list_lookup_insert_eq by done. by intros [= <-].
    + rewrite list_lookup_insert_ne by congruence. intros Hj. eapply pc_ok_mono; [..|by eapply Hp]; simpl; try done; try lia.
      intros g' Hg' _. by eapply Hlater.
  - intros g' Hg'. destruct (Hhold g') as [j Hj]; [subst s'; simpl in Hg'; lia|]. exists j. apply Hhu.
    case_decide as E; [|done]. subst j. destruct Hj as (q & Hj & Hh'). rewrite Hi in Hj. injection Hj as <-.
    rewrite Hpc in Hh'. simpl in Hh'. injection Hh' as <-. lia.
  - intros g' j j' Hj%Hhu Hj'%Hhu. destruct (decide (j = i)), (decide (j' = i)); try done. by eapply Hun.
Qed.

(** ** Every move keeps the invariant *)

Lemma space_ok s i p b t g :
  sub_ok s -> producers s !! i = Some p -> pc p = PSpace b t g ->
  1 <= horae_ring_space (r_head (ring s)) t (r_len (ring s)) -> pc_ok s (PReserve b t g).
Proof.
  intros Hk Hi Hpc Hsp. pose proof (sk_pcs s Hk i p Hi) as Hc. rewrite Hpc in Hc. destruct Hc as (-> & Hg).
  pose proof (sk_len s Hk). pose proof (sk_order s Hk). simpl. split_and!; [done|lia..|].
  intros ->. rewrite (sk_head s Hk), ring_space_ticket in Hsp by lia. lia.
Qed.

Lemma delegate_step_ok s s' i p :
  sub_ok s -> timely s -> producers s !! i = Some p -> delegate_step i p s = Some s' -> sub_ok s'.
Proof.
  intros Hk Htm Hi. pose proof (sk_len s Hk) as Hn. pose proof (Htm i p Hi) as Ht.
  unfold delegate_step. destruct (pc p) as [|b|b t g|b t g|b t g|b t g|b] eqn:Hpc.
  - destruct (todo p) as [|b rest]; [done|]. intros [= <-].
    eapply sub_ok_local; try done; simpl; by rewrite ?Hpc.
  - intros [= <-]. eapply sub_ok_local; try done; simpl; [by rewrite Hpc|].
    split; [apply Hk|]. pose proof (sk_order s Hk). lia.
  - destruct (Z.eqb_spec (r_len (ring s)) 0); [lia|]. destruct (Z.ltb_spec (horae_ring_space (r_head (ring s)) t (r_len (ring s))) 1); intros [= <-].
    + eapply sub_ok_local; try done; simpl; by rewrite ?Hpc.
    + eapply sub_ok_local; try done; simpl; [by rewrite Hpc|]. by eapply space_ok.
  - destruct (Z.eqb_spec (r_len (ring s)) 0); [lia|]. destruct (Z.eqb_spec (r_watermark (ring s)) t); intros [= <-].
    + by eapply reserve_ok.
    + eapply sub_ok_local; try done; simpl; by rewrite ?Hpc.
  - destruct (_ && _); [|done]. intros [= <-]. by apply store_ok.
  - destruct (Z.eqb_spec (r_tail (ring s)) t); intros [= <-]; [|done]. by eapply publish_ok.
  - intros [= <-]. destruct (flag_set _ _); eapply sub_ok_local; try done; simpl; by rewrite Hpc.
Qed.

(** Moves of the thread that leave the indices alone. *)
Lemma thread_local_ok s s' :
  sub_ok s -> (forall f, (ring s) <| r_flags := f |> = (ring s') <| r_flags := f |>) ->
  producers s' = producers s -> submitted s' = submitted s -> n_head s' = n_head s ->
  n_cur s' = n_cur s -> n_wm s' = n_wm s -> published s' = published s -> thread_ok s' -> sub_ok s'.
Proof.
  intros [Hn Hq Hh Ht Hw Ho Hsl Hsub Hth Hp Hhold Hun] E1 E2 E4 E5 E6 E7 E8 Hth'.
  specialize (E1 0). destruct (ring s) as [h t n w q f] eqn:Er, (ring s') as [h' t' n' w' q' f'] eqn:Er'.
  injection E1 as <- <- <- <- <-.
  assert (Et : n_tail s' = n_tail s) by (unfold n_tail; by rewrite E8).
  assert (Eq : forall g j, holder s' g j <-> holder s g j) by (intros; unfold holder; by rewrite E2).
  split; rewrite ?E2, ?E4, ?E5, ?E6, ?E7, ?Et, ?E8, ?Er'; try done.
  - intros i p Hi. eapply pc_ok_mono; [..|by eapply Hp]; rewrite ?Er, ?Er', ?E5, ?E7, ?Et; done || lia.
  - intros g Hg. destruct (Hhold g Hg) as [j Hj]. exists j. by apply Eq.
  - intros g j j' Hj%Eq Hj'%Eq. by eapply Hun.
Qed.

Lemma take_ok s h b :
  sub_ok s -> thread s = DTake h -> bio_sqes (ring s) !! Z.to_nat h = Some b ->
  sub_ok (s <| submitted ::= (.++ [b]) |> <| n_cur ::= fun n => n + 1 |>
            <| thread := DPoll (u64 (h + 1) mod r_len (ring s)) |>).
Proof.
  intros [Hn Hq Hh Ht Hw Ho Hsl Hsub Hth Hp Hhold Hun] Hpc Hb.
  unfold thread_ok in Hth. rewrite Hpc in Hth. destruct Hth as [Eh Hc].
  split; simpl; try done.
  - change (n_tail _) with (n_tail s). lia.
  - assert (Hb' : published s !! Z.to_nat (n_cur s) = Some b) by (rewrite <- Hsl, <- Eh; [done|lia]).
    rewrite Hsub, Z2Nat.inj_add, Nat.add_1_r by lia. symmetry. by apply take_S_r.
  - unfold thread_ok. simpl. by rewrite Eh, mod_next.
Qed.

Lemma store_head_ok s h :
  sub_ok s -> thread s = DStoreHead h ->
  sub_ok (s <| ring := (ring s) <| r_head := h |> |> <| n_head := n_cur s |> <| thread := DIdle |>).
Proof.
  intros [Hn Hq Hh Ht Hw Ho Hsl Hsub Hth Hp Hhold Hun] Hpc.
  unfold thread_ok in Hth. rewrite Hpc in Hth.
  split; simpl; try done.
  - change (n_tail _) with (n_tail s). lia.
  - intros j Hj. apply Hsl. change (n_tail _) with (n_tail s) in Hj. lia.
  - intros i p Hi. eapply pc_ok_mono; [..|by eapply Hp]; simpl; try done; lia.
Qed.

Lemma delegater_step_ok s s' idle :
  sub_ok s -> delegater_step idle s = Some s' -> sub_ok s'.
Proof.
  intros Hk. pose proof (sk_thread s Hk) as Hth. unfold thread_ok in Hth. unfold delegater_step.
  pose proof (sk_len s Hk) as Hn. pose proof (sk_order s Hk) as Ho.
  destruct (thread s) as [|h|h|h| | | | | |] eqn:Hpc.
  - destruct (should_stop s); intros [= <-]; apply (thread_local_ok s); try done.
    unfold thread_ok. simpl. rewrite Hth. apply Hk.
  - destruct (Z.eqb_spec h (r_tail (ring s))) as [E|E]; intros [= <-]; apply (thread_local_ok s); try done.
    unfold thread_ok. simpl. split; [done|]. change (n_tail _) with (n_tail s).
    rewrite (sk_tail s Hk), Hth in E. destruct (Z.eq_dec (n_cur s) (n_tail s)) as [Eq|]; [by rewrite Eq in E|lia].
  - destruct (Z.eqb_spec (r_len (ring s)) 0); [lia|]. destruct (_ !! _) eqn:Hb; [|done]. intros [= <-]. by apply take_ok.
  - intros [= <-]. by apply store_head_ok.
  - intros [= <-]. apply (thread_local_ok s); try done. unfold thread_ok. simpl. by destruct idle.
  - intros [= <-]. by apply (thread_local_ok s).
  - intros [= <-]. by apply (thread_local_ok s).
  - destruct (sleeping s); [done|]. intros [= <-]. by apply (thread_local_ok s).
  - intros [= <-]. by apply (thread_local_ok s).
  - done.
Qed.

Lemma sub_step_ok l s s' : sub_ok s -> timely s -> sub_step l s = Some s' -> sub_ok s'.
Proof.
  intros Hk Ht. destruct l as [i|idle|]; simpl.
  - destruct (producers s !! i) as [p|] eqn:Hi; [|done]. by apply delegate_step_ok.
  - by apply delegater_step_ok.
  - intros [= <-]. by apply (thread_local_ok s); try apply Hk.
Qed.

Lemma init_submitter_ok raw flags work :
  Z.of_nat (length raw) = MAX_BIO_SQES -> sub_ok (init_submitter raw flags work).
Proof.
  intros Hr. assert (Hpc : forall i p, producers (init_submitter raw flags work) !! i = Some p -> pc p = PIdle).
  { intros i p Hi. simpl in Hi. rewrite list_lookup_fmap in Hi. by destruct (work !! i); simplify_eq/=. }
  split; simpl; try done.
  - unfold n_tail. simpl. lia.
  - intros i p Hi. by rewrite (Hpc i p Hi).
  - unfold n_tail. simpl. lia.
  - intros g i j (p & Hi & Hg). by rewrite (Hpc i p Hi) in Hg.
Qed.

Lemma timely_run_ok s0 s : sub_ok s0 -> timely_run s0 s -> sub_ok s.
Proof. intros Hk. induction 1 as [|l s s' _ IH Ht Hs]; [done|]. by eapply sub_step_ok. Qed.

(** ** No bio is lost or duplicated on the way into the ring *)

Lemma accounted_local s i p p' l r :
  producers s !! i = Some p -> in_flight p ++ l ≡ₚ in_flight p' ++ r ->
  concat (in_flight <$> producers s) ++ l ≡ₚ concat (in_flight <$> <[i := p']> (producers s)) ++ r.
Proof.
  intros Hi E. destruct (accounted_upd _ _ _ p' Hi) as (a & c & -> & ->).
  rewrite <- !app_assoc. apply Permutation_app_head.
  rewrite (Permutation_app_comm c l), (Permutation_app_comm c r), !app_assoc. by rewrite E.
Qed.

Lemma accounted_step l s s' : sub_step l s = Some s' -> accounted s ≡ₚ accounted s'.
Proof.
  unfold accounted. destruct l as [i|idle|]; simpl.
  - destruct (producers s !! i) as [p|] eqn:Hi; simpl; [|done]. unfold delegate_step.
    assert (Hloc := fun p' => accounted_local s i p p').
    unfold in_flight in Hloc at 1.
    destruct (pc p) as [|b|b t g|b t g|b t g|b t g|b] eqn:Hpc; intros Hs; repeat case_match; simplify_eq/=;
      try (apply Hloc; [done|unfold in_flight; simpl; congruence || done]).
    + apply Hloc; [done|]. unfold in_flight. simpl.
      rewrite <- (app_assoc (by_self s)). simpl. by rewrite !app_assoc, <- Permutation_middle.
    + apply Hloc; [done|]. unfold in_flight. simpl.
      by rewrite !app_assoc, <- Permutation_cons_append.
    + done.
  - unfold delegater_step. repeat case_match; intros [= <-]; done.
  - by intros [= <-].
Qed.

Lemma accounted_run s0 s : timely_run s0 s -> accounted s0 ≡ₚ accounted s.
Proof. induction 1 as [|l s s' _ IH _ Hs]; [done|]. rewrite IH. by eapply accounted_step. Qed.

Lemma accounted_init raw flags work : accounted (init_submitter raw flags work) = concat work.
Proof.
  unfold accounted. simpl. rewrite app_nil_r. f_equal. induction work; [done|]. simpl. by f_equal.
Qed.

(** ** What the ring holds *)

Lemma ring_range_tickets n a b :
  0 < n -> 0 <= b - a < n ->
  ring_range n (a mod n) (b mod n) = (fun j => j mod n) <$> seqZ a (b - a).
Proof.
  intros Hn Hab. unfold ring_range. rewrite <- Zminus_mod, (Z.mod_small (b - a)) by done.
  replace (seqZ a (b - a)) with (Z.add a <$> seqZ 0 (b - a)) by (rewrite fmap_add_seqZ; by rewrite Z.add_0_r).
  rewrite <- list_fmap_compose.
  apply list_fmap_ext. intros _ j _. simpl. by rewrite Zplus_mod_idemp_l.
Qed.

Lemma next_slot_ticket s : sub_ok s -> next_slot s = n_cur s mod r_len (ring s).
Proof.
  intros Hk. pose proof (sk_thread s Hk) as Hth. unfold thread_ok, next_slot in *.
  destruct (thread s); rewrite ?(sk_head s Hk); naive_solver congruence.
Qed.

Lemma ring_queue_ok s :
  sub_ok s -> ring_queue s = Some <$> drop (Z.to_nat (n_cur s)) (published s).
Proof.
  intros Hk. pose proof (sk_order s Hk) as Ho. pose proof (sk_len s Hk) as Hn.
  unfold ring_queue. rewrite (next_slot_ticket s Hk), (sk_tail s Hk).
  rewrite ring_range_tickets by lia. rewrite <- list_fmap_compose.
  apply list_eq_same_length with (n := Z.to_nat (n_tail s - n_cur s)).
  - rewrite length_fmap, length_drop. unfold n_tail. lia.
  - by rewrite length_fmap, length_seqZ.
  - intros i x y Hi. rewrite !list_lookup_fmap, lookup_drop, lookup_seqZ_lt by lia. simpl.
    rewrite (sk_slots s Hk) by lia. rewrite Z2Nat.inj_add, Nat2Z.id by lia.
    destruct (published s !! _) as [z|] eqn:E; simpl; [congruence|].
    apply lookup_ge_None in E. unfold n_tail in *. lia.
Qed.

(** The length of the ring stays. *)
Lemma timely_run_len s0 s : timely_run s0 s -> r_len (ring s) = r_len (ring s0).
Proof.
  induction 1 as [|l s s' _ IH _ Hs]; [done|]. rewrite <- IH. destruct l as [i|idle|]; simpl in Hs.
  - destruct (producers s !! i) as [p|]; simpl in Hs; [|done]. unfold delegate_step in Hs. by repeat case_match; simplify_eq/=.
  - unfold delegater_step in Hs. by repeat case_match; simplify_eq/=.
  - by injection Hs as <-.
Qed.

(** ** Runs as lists of labels *)

Lemma sub_run_app l1 l2 s : sub_run (l1 ++ l2) s = (s' ← sub_run l1 s; sub_run l2 s').
Proof. revert s. induction l1 as [|l l1 IH]; intros s; simpl; [done|]. by destruct (sub_step l s); simpl. Qed.

(** ** Progress

    A schedule may choose somebody who cannot move: then nothing happens. *)
Definition sub_next (l : label) (s : submitter) : submitter := default s (sub_step l s).

(** The thread is stopped, or its idle time ends when it has just found the ring
    empty: from there it goes to sleep. *)
Definition quits (l : label) (s : submitter) : bool :=
  match l, thread s with
  | Stop, _ | Thread true, DIdle => true
  | _, _ => false
  end.

(** An execution along [ls] in which the thread does not quit. *)
Inductive steady_play (s : submitter) : list label -> submitter -> Prop :=
| steady_nil : steady_play s [] s
| steady_cons l ls s' : timely s -> quits l s = false -> steady_play (sub_next l s) ls s' -> steady_play s (l :: ls) s'.

Lemma steady_app s l1 l2 s' : steady_play s (l1 ++ l2) s' -> exists s1, steady_play s l1 s1 /\ steady_play s1 l2 s'.
Proof.
  revert s. induction l1 as [|l l1 IH]; intros s; [intros Hp; exists s; split; [constructor|done]|].
  cbn [app]. intros Hp. inversion_clear Hp as [|? ? ? Ht Hq Hp']. destruct (IH _ Hp') as (s1 & H1 & H2). exists s1. by split; [constructor|].
Qed.

(** The thread is running or will run again by itself. *)
Definition awake (s : submitter) : bool :=
  match thread s with
  | DTop | DPoll _ | DTake _ | DStoreHead _ | DIdle | DUnflag => negb (should_stop s)
  | DSched => negb (should_stop s) && negb (sleeping s)
  | DFlag | DSetState | DDone => false
  end.

(** One round of a schedule: every one of [n] tasks is chosen, and the thread. *)
Definition is_thread (l : label) : bool := match l with Thread _ => true | _ => false end.

Definition is_round (n : nat) (ls : list label) : Prop :=
  (forall i, (i < n)%nat -> Task i ∈ ls) /\ Exists (fun l => is_thread l = true) ls.

(** Counters only grow; the thread's part is its own. *)
Lemma sub_next_mono l s :
  length (producers (sub_next l s)) = length (producers s) /\ n_tail s <= n_tail (sub_next l s) /\
  n_wm s <= n_wm (sub_next l s) /\ n_cur s <= n_cur (sub_next l s).
Proof.
  unfold sub_next. destruct (sub_step l s) as [s'|] eqn:E; simpl; [|lia]. destruct l as [i|idle|]; simpl in E.
  - destruct (producers s !! i) as [p|]; simpl in E; [|done]. unfold delegate_step in E.
    repeat case_match; simplify_eq/=; unfold n_tail; simpl; rewrite ?length_insert, ?length_app; simpl; lia.
  - unfold delegater_step in E. repeat case_match; simplify_eq/=; unfold n_tail; simpl; lia.
  - injection E as <-. unfold n_tail. simpl. lia.
Qed.

Lemma sub_next_ok l s : sub_ok s -> timely s -> sub_ok (sub_next l s).
Proof. intros Hk Ht. unfold sub_next. destruct (sub_step l s) eqn:E; simpl; [by eapply sub_step_ok|done]. Qed.

Lemma task_step_thread i s :
  let s' := sub_next (Task i) s in
  thread s' = thread s /\ should_stop s' = should_stop s /\ (sleeping s' = sleeping s \/ sleeping s' = false).
Proof.
  unfold sub_next. cbn [sub_step]. destruct (producers s !! i) as [p|]; cbn [mbind option_bind]; [|by split_and!; auto].
  unfold delegate_step. repeat case_match; cbn; split_and!; auto.
Qed.

Lemma sub_next_awake l s : awake s = true -> quits l s = false -> awake (sub_next l s) = true.
Proof.
  destruct l as [i|idle|]; [|unfold sub_next, quits, awake; simpl|done].
  - intros Ha _. destruct (task_step_thread i s) as (Et & Es & Hsl). unfold awake in *. rewrite Et, Es.
    destruct (thread s); try done. apply andb_true_iff in Ha as [-> Ha]. destruct Hsl as [-> | ->]; done.
  - unfold delegater_step. destruct (thread s) eqn:Hpc; try done; intros Ha Hq.
    + apply negb_true_iff in Ha. rewrite Ha. simpl. by rewrite Ha.
    + by destruct (_ =? _).
    + destruct (r_len (ring s) =? 0); simpl; [by rewrite Hpc|]. destruct (_ !! _); simpl; by rewrite ?Hpc.
    + by destruct idle.
    + apply andb_true_iff in Ha as [Ha Hs]. apply negb_true_iff in Hs. by rewrite Hs.
Qed.

Lemma steady_keeps ls s s' :
  steady_play s ls s' -> sub_ok s ->
  sub_ok s' /\ (awake s = true -> awake s' = true) /\ length (producers s') = length (producers s) /\
  n_tail s <= n_tail s' /\ n_wm s <= n_wm s' /\ n_cur s <= n_cur s'.
Proof.
  induction 1 as [s|s l ls s' Ht Hq _ IH]; intros Hk; [by split_and!|].
  destruct (IH (sub_next_ok l s Hk Ht)) as (? & Ha & ? & ? & ? & ?). destruct (sub_next_mono l s) as (? & ? & ? & ?).
  split_and!; [done| |lia..]. intros Hs. by apply Ha, sub_next_awake.
Qed.

(** Something that comes closer with every step of the right kind, and is not
    put off by the others, happens after as many rounds as it is away. *)
Section rank.
Context (role : label -> bool) (I : nat -> submitter -> Prop) (G : submitter -> Prop).
Context (Ipos : forall r s, I r s -> (0 < r)%nat).
Context (Istep : forall l r s, I r s -> sub_ok s -> timely s -> quits l s = false ->
  G (sub_next l s) \/ exists r', I r' (sub_next l s) /\ (r' <= r)%nat /\ (role l = true -> (r' < r)%nat)).
Context (Gstep : forall l s, G s -> sub_ok s -> timely s -> quits l s = false -> G (sub_next l s)).

Lemma steady_stays ls s s' : steady_play s ls s' -> sub_ok s -> G s -> G s'.
Proof. induction 1 as [|s l ls s' Ht Hq _ IH]; intros Hk HG; [done|]. apply IH; [by apply sub_next_ok|by apply Gstep]. Qed.

Lemma steady_approaches ls s s' r : steady_play s ls s' -> sub_ok s -> I r s ->
  G s' \/ exists r', I r' s' /\ (r' <= r)%nat /\ (Exists (fun l => role l = true) ls -> (r' < r)%nat).
Proof.
  intros Hp. revert r. induction Hp as [s|s l ls s' Ht Hq Hp IH]; intros r Hk HI.
  { right. exists r. split_and!; [done..|]. intros Hx. inversion Hx. }
  pose proof (sub_next_ok l s Hk Ht) as Hk1. destruct (Istep l r s HI Hk Ht Hq) as [HG|(r1 & HI1 & Hle & Hlt)].
  { left. by apply (steady_stays ls (sub_next l s)). }
  destruct (IH r1 Hk1 HI1) as [HG|(r2 & HI2 & Hle2 & Hlt2)]; [by left|]. right. exists r2. split_and!; [done|lia|].
  intros Hx. apply Exists_cons in Hx as [Hr|Hx]; [specialize (Hlt Hr)|specialize (Hlt2 Hx)]; lia.
Qed.

Lemma steady_arrives rounds s s' r :
  steady_play s (concat rounds) s' -> sub_ok s -> I r s -> (r <= length rounds)%nat ->
  Forall (Exists (fun l => role l = true)) rounds -> G s'.
Proof.
  revert s r. induction rounds as [|ls rounds IH]; intros s r Hp Hk HI Hr Hall; [pose proof (Ipos r s HI); simpl in Hr; lia|].
  apply Forall_cons in Hall as [Hls Hall]. simpl in Hp, Hr. apply steady_app in Hp as (s1 & Hp1 & Hp2).
  destruct (steady_keeps _ _ _ Hp1 Hk) as (Hk1 & _).
  destruct (steady_approaches ls s s1 r Hp1 Hk HI) as [HG|(r1 & HI1 & _ & Hlt)]; [by eapply steady_stays|].
  apply (IH s1 r1); [done..| |done]. specialize (Hlt Hls). lia.
Qed.
End rank.

(** ** The owner of the oldest reservation publishes it *)

Definition owner_rank (c : ppc) : nat := match c with PStore _ _ _ => 2 | _ => 1 end.

(** Task [i] owns the oldest reservation, [g], and is [r] steps from publishing
    it. *)
Definition publishing (i : nat) (g : Z) (r : nat) (s : submitter) : Prop :=
  n_tail s = g /\ exists p, producers s !! i = Some p /\ held_ticket (pc p) = Some g /\ r = owner_rank (pc p).

Definition is_task (i : nat) (l : label) : bool := match l with Task j => bool_decide (j = i) | _ => false end.

(** Others leave the task where it is. *)
Lemma sub_next_other i l s : is_task i l = false -> producers (sub_next l s) !! i = producers s !! i.
Proof.
  intros Hl. unfold sub_next. destruct (sub_step l s) as [s'|] eqn:E; simpl; [|done]. destruct l as [j|idle|]; simpl in *.
  - apply bool_decide_eq_false in Hl. destruct (producers s !! j) as [p|]; simpl in E; [|done]. unfold delegate_step in E.
    repeat case_match; simplify_eq/=; by rewrite ?list_lookup_insert_ne.
  - unfold delegater_step in E. repeat case_match; by simplify_eq/=.
  - by injection E as <-.
Qed.

(** The task itself. *)
Lemma sub_next_owner i g r s :
  publishing i g r s -> sub_ok s ->
  g < n_tail (sub_next (Task i) s) \/ exists r', publishing i g r' (sub_next (Task i) s) /\ (r' < r)%nat.
Proof.
  intros (Et & p & Hi & Hg & ->) Hk. pose proof (sk_pcs s Hk i p Hi) as Hc. pose proof (sk_len s Hk) as Hn.
  pose proof (lookup_lt_Some _ _ _ Hi) as Hlt. unfold sub_next. cbn [sub_step]. rewrite Hi. cbn [mbind option_bind]. unfold delegate_step.
  destruct (pc p) as [|b|b t g'|b t g'|b t g'|b t g'|b] eqn:Hpc; simpl in Hg; try discriminate; injection Hg as ->; simpl in Hc.
  - destruct Hc as [Hm _]. pose proof (Z.mod_pos_bound g (r_len (ring s)) ltac:(lia)).
    rewrite (proj2 (Z.leb_le 0 t)), (proj2 (Z.ltb_lt _ _)) by (rewrite ?(sk_sqes s Hk); lia). cbn [andb default id from_option].
    right. exists 1%nat. split; [|simpl; lia]. split; [exact Et|]. eexists. split; [simpl; by apply list_lookup_insert_eq|done].
  - destruct Hc as [Hm _]. rewrite (sk_tail s Hk), Et, Hm, Z.eqb_refl. left. unfold n_tail in *. simpl. rewrite length_app. simpl. lia.
Qed.

Lemma publishing_step i g l r s :
  publishing i g r s -> sub_ok s -> timely s -> quits l s = false ->
  g < n_tail (sub_next l s) \/ exists r', publishing i g r' (sub_next l s) /\ (r' <= r)%nat /\ (is_task i l = true -> (r' < r)%nat).
Proof.
  intros Hp Hk Ht Hq. destruct (is_task i l) eqn:El.
  - destruct l as [j| |]; try done. apply bool_decide_eq_true in El as ->.
    destruct (sub_next_owner i g r s Hp Hk) as [|(r' & ? & ?)]; [by left|]. right. exists r'. split_and!; [done|lia|done].
  - destruct Hp as (Et & p & Hi & Hg & ->). destruct (sub_next_mono l s) as (_ & Hm & _).
    destruct (decide (n_tail (sub_next l s) = g)) as [E|E]; [|left; lia]. right. eexists. split_and!; [split; [done|]|done|done].
    exists p. by rewrite sub_next_other.
Qed.

Lemma rounds_role n rounds role :
  (forall ls, is_round n ls -> Exists (fun l => role l = true) ls) ->
  Forall (is_round n) rounds -> Forall (Exists (fun l => role l = true)) rounds.
Proof. intros Hr Hall. eapply Forall_impl; [exact Hall|exact Hr]. Qed.

Lemma round_task n i ls : (i < n)%nat -> is_round n ls -> Exists (fun l => is_task i l = true) ls.
Proof. intros Hi [Ht _]. apply Exists_exists. exists (Task i). split; [by apply Ht|]. simpl. by apply bool_decide_eq_true. Qed.

(** Two rounds for each reservation. *)
Lemma publish_rounds k w rounds s s' :
  w <= n_tail s + Z.of_nat k -> w <= n_wm s -> (2 * k <= length rounds)%nat -> sub_ok s ->
  Forall (is_round (length (producers s))) rounds -> steady_play s (concat rounds) s' -> w <= n_tail s'.
Proof.
  revert rounds s. induction k as [|k IH]; intros rounds s Hw Hwm Hlen Hk Hall Hp.
  { destruct (steady_keeps _ _ _ Hp Hk) as (_ & _ & _ & ? & _). lia. }
  destruct (decide (n_tail s < w)) as [Hlt|Hge]; [|destruct (steady_keeps _ _ _ Hp Hk) as (_ & _ & _ & ? & _); lia].
  destruct rounds as [|r1 [|r2 rounds]]; simpl in Hlen; [lia..|].
  replace (concat (r1 :: r2 :: rounds)) with (concat [r1; r2] ++ concat rounds) in Hp by (simpl; by rewrite app_nil_r, app_assoc).
  apply steady_app in Hp as (s1 & Hp1 & Hp2). destruct (steady_keeps _ _ _ Hp1 Hk) as (Hk1 & _ & El & _ & Hm & _).
  destruct (sk_holder s Hk (n_tail s)) as (i & p & Hi & Hg); [lia|].
  apply Forall_cons in Hall as [Hr1 Hall]. apply Forall_cons in Hall as [Hr2 Hall].
  assert (Hgo : n_tail s < n_tail s1).
  { eapply (steady_arrives (is_task i) (publishing i (n_tail s)) (fun s1 => n_tail s < n_tail s1)); [..|exact Hp1|done| | |].
    - intros r s0 (_ & q & _ & _ & ->). destruct (pc q); simpl; lia.
    - intros l r s0. apply publishing_step.
    - intros l s0 HG _ _ _. destruct (sub_next_mono l s0) as (_ & ? & _). lia.
    - split; [done|]. by exists p.
    - simpl. destruct (pc p); simpl; lia.
    - eapply rounds_role; [intros ls; apply round_task; by eapply lookup_lt_Some|]. apply Forall_cons. split; [done|by apply Forall_singleton]. }
  apply (IH rounds s1); [lia|lia|lia|done| |done]. by rewrite El.
Qed.

(** ** The thread submits what is published *)

Definition thread_rank (c : dpc) : nat :=
  match c with DTake _ => 1 | DPoll _ => 2 | DTop => 3 | DIdle | DUnflag => 4 | _ => 5 end.

(** The thread is awake, [c] bios behind, and one more is there. *)
Definition taking (c : Z) (r : nat) (s : submitter) : Prop :=
  awake s = true /\ n_cur s = c /\ c < n_tail s /\ r = thread_rank (thread s).

Lemma sub_next_task_thread l s : is_thread l = false -> thread (sub_next l s) = thread s \/ quits l s = true.
Proof.
  destruct l as [i|idle|]; [|done|by right]. intros _. left. apply task_step_thread.
Qed.

Lemma sub_next_taken c r idle s :
  taking c r s -> sub_ok s -> quits (Thread idle) s = false ->
  c < n_cur (sub_next (Thread idle) s) \/ (n_cur (sub_next (Thread idle) s) = c /\
    (thread_rank (thread (sub_next (Thread idle) s)) < r)%nat).
Proof.
  intros (Ha & Ec & Hlt & ->) Hk Hq. pose proof (sk_thread s Hk) as Hth. pose proof (sk_len s Hk) as Hn. pose proof (sk_order s Hk) as Ho.
  unfold sub_next, awake, thread_ok, quits in *. cbn [sub_step]. unfold delegater_step.
  destruct (thread s) as [|h|h|h| | | | | |] eqn:Hpc; try done.
  - apply negb_true_iff in Ha. rewrite Ha. right. simpl. split; [done|lia].
  - destruct (Z.eqb_spec h (r_tail (ring s))) as [E|E]; [|right; simpl; split; [done|lia]].
    rewrite Hth, (sk_tail s Hk) in E. apply mod_lap_inj in E; lia.
  - destruct (Z.eqb_spec (r_len (ring s)) 0); [lia|]. destruct Hth as [Eh _].
    destruct (bio_sqes (ring s) !! Z.to_nat h) eqn:Hb; [left; simpl; lia|].
    apply lookup_ge_None in Hb. pose proof (sk_sqes s Hk). pose proof (Z.mod_pos_bound (n_cur s) (r_len (ring s)) ltac:(lia)). lia.
  - right. simpl. split; [done|lia].
  - destruct idle; [done|]. right. simpl. split; [done|lia].
  - apply andb_true_iff in Ha as [_ Hs]. apply negb_true_iff in Hs. rewrite Hs. right. simpl. split; [done|lia].
  - right. simpl. split; [done|lia].
Qed.

Lemma taking_step c l r s :
  taking c r s -> sub_ok s -> timely s -> quits l s = false ->
  c < n_cur (sub_next l s) \/ exists r', taking c r' (sub_next l s) /\ (r' <= r)%nat /\ (is_thread l = true -> (r' < r)%nat).
Proof.
  intros Ht Hk Htm Hq. pose proof Ht as (Ha & Ec & Hlt & Er). pose proof (sub_next_awake l s Ha Hq) as Ha'.
  destruct (sub_next_mono l s) as (_ & Hm & _ & Hc). destruct (decide (c < n_cur (sub_next l s))) as [|Hno]; [by left|]. right.
  exists (thread_rank (thread (sub_next l s))). split; [split_and!; [done|lia|lia|done]|].
  destruct (is_thread l) eqn:El.
  - destruct l as [|idle|]; try done. destruct (sub_next_taken c r idle s Ht Hk Hq) as [|[_ Hd]]; [done|]. split; [lia|done].
  - destruct (sub_next_task_thread l s El) as [->|]; [|congruence]. subst r. split; [done|done].
Qed.

(** Five rounds for each bio. *)
Lemma submit_rounds k w n rounds s s' :
  w <= n_cur s + Z.of_nat k -> w <= n_tail s -> (5 * k <= length rounds)%nat -> sub_ok s -> awake s = true ->
  Forall (is_round n) rounds -> steady_play s (concat rounds) s' -> w <= n_cur s'.
Proof.
  revert rounds s. induction k as [|k IH]; intros rounds s Hw Ht Hlen Hk Ha Hall Hp.
  { destruct (steady_keeps _ _ _ Hp Hk) as (_ & _ & _ & _ & _ & ?). lia. }
  destruct (decide (n_cur s < w)) as [Hlt|Hge]; [|destruct (steady_keeps _ _ _ Hp Hk) as (_ & _ & _ & _ & _ & ?); lia].
  rewrite <- (take_drop 5 rounds), concat_app in Hp. rewrite <- (take_drop 5 rounds) in Hall. apply Forall_app in Hall as [Hall1 Hall2].
  apply steady_app in Hp as (s1 & Hp1 & Hp2). destruct (steady_keeps _ _ _ Hp1 Hk) as (Hk1 & Ha1 & _ & Hm & _).
  assert (Hgo : n_cur s < n_cur s1).
  { eapply (steady_arrives is_thread (taking (n_cur s)) (fun s1 => n_cur s < n_cur s1)); [..|exact Hp1|done| | |].
    - intros r s0 (_ & _ & _ & ->). destruct (thread s0); simpl; lia.
    - intros l r s0. apply taking_step.
    - intros l s0 HG _ _ _. destruct (sub_next_mono l s0) as (_ & _ & _ & ?). lia.
    - split_and!; [done|done|lia|done].
    - rewrite length_take. destruct (thread s); cbn [thread_rank]; lia.
    - eapply rounds_role; [|exact Hall1]. by intros ls []. }
  apply (IH (drop 5 rounds) s1); [lia|lia|rewrite length_drop; lia|done|by apply Ha1|done|done].
Qed.

Lemma submitted_length s : sub_ok s -> Z.of_nat (length (submitted s)) = n_cur s.
Proof. intros Hk. pose proof (sk_order s Hk). rewrite (sk_submitted s Hk), length_take. unfold n_tail in *. lia. Qed.
