(* ===== verification/SubmitterTheorems.v ===== *)
(** * Theorems about the background submitter *)

From S2P Require Import Prelude Ring Horae Submitter SubmitterFacts.

(** C22: The submitter is a FIFO queue, under every interleaving of any
    number of tasks with the kernel thread in which no task sleeps through a
    whole lap of the ring between its read of the watermark and its
    compare-and-swap.  Every bio handed out is at exactly one place: still
    with its task, submitted by the task itself because the ring was full, or
    published; the thread has submitted a prefix of the published bios, in
    the order of publication, each once; and the slots between the thread's
    position and the tail hold exactly the others. *)
Theorem submitter_is_fifo raw flags work s :
  Z.of_nat (length raw) = MAX_BIO_SQES -> timely_run (init_submitter raw flags work) s ->
  concat work ≡ₚ concat (in_flight <$> producers s) ++ by_self s ++ published s /\
  exists q, published s = submitted s ++ q /\ ring_queue s = Some <$> q.
Proof.
  intros Hr Hrun. split.
  - rewrite <- (accounted_init raw flags work). by apply accounted_run.
  - pose proof (timely_run_ok _ _ (init_submitter_ok raw flags work Hr) Hrun) as Hk.
    exists (drop (Z.to_nat (n_cur s)) (published s)).
    split; [by rewrite (sk_submitted s Hk), take_drop|by apply ring_queue_ok].
Qed.

(** C23: Progress: no reservation blocks the ring.  From every state such an
    execution reaches in which the thread is awake (running, or woken up), every
    continuation made of at least seven rounds for each slot of the ring ends
    with all bios submitted by the thread whose slots were reserved at its start, whatever
    else was delegated meanwhile.  In a round every task and the thread are chosen
    at least once, in any order and with any repetitions; in the continuation
    the thread is not stopped, and its idle time does not end just when it has
    found the ring empty. *)
Theorem reserved_slots_get_submitted raw flags work s rounds s' :
  Z.of_nat (length raw) = MAX_BIO_SQES -> timely_run (init_submitter raw flags work) s -> awake s = true ->
  Forall (is_round (length (producers s))) rounds -> 7 * MAX_BIO_SQES <= Z.of_nat (length rounds) ->
  steady_play s (concat rounds) s' ->
  n_wm s <= Z.of_nat (length (submitted s')) /\ submitted s' `prefix_of` published s'.
Proof.
  intros Hr Hrun Ha Hall Hlen Hp. pose proof (timely_run_ok _ _ (init_submitter_ok raw flags work Hr) Hrun) as Hk.
  pose proof (sk_order s Hk) as Ho. pose proof (timely_run_len _ _ Hrun) as El. cbn in El. unfold MAX_BIO_SQES in *.
  rewrite <- (take_drop 2048 rounds) in Hall, Hp. rewrite concat_app in Hp. apply Forall_app in Hall as [Hall1 Hall2].
  apply steady_app in Hp as (s1 & Hp1 & Hp2). destruct (steady_keeps _ _ _ Hp1 Hk) as (Hk1 & Ha1 & _ & _ & _ & Hc).
  assert (Ht : n_wm s <= n_tail s1).
  { apply (publish_rounds 1024 (n_wm s) (take 2048 rounds) s); [lia|lia|rewrite length_take; lia|done|done|done]. }
  destruct (steady_keeps _ _ _ Hp2 Hk1) as (Hk2 & _). split.
  - rewrite (submitted_length s' Hk2).
    apply (submit_rounds 1024 (n_wm s) (length (producers s)) (drop 2048 rounds) s1); [lia|done|rewrite length_drop; lia|done|by apply Ha1|exact Hall2|done].
  - rewrite (sk_submitted s' Hk2). apply prefix_take.
Qed.

(** ** Two interleavings that break it *)

Definition raw_ring : list Z := replicate 1024 0.

(** One call of [delegate_bio] by task [i], without interruption. *)
Definition call (i : nat) : list label := replicate 7 (Task i).

(** The thread takes what is there and goes back to the top of its loop. *)
Definition serve (n : nat) : list label := replicate (2 * n + 4) (Thread false).

(** Task 0 stops before its compare-and-swap; task 1 delegates 1024 bios, the
    first of which the thread takes; then task 0 goes on. *)
Definition aba_schedule : list label :=
  replicate 3 (Task 0) ++ call 1 ++ serve 1 ++ concat (replicate 1023 (call 1)) ++
  replicate 4 (Task 0).

Definition aba_work : list (list Z) := [[0]; seqZ 1 1024].

(** The waiter's last look at the ring comes before the bio, its flag after
    the task's look at the flag. *)
Definition lost_wakeup_schedule : list label :=
  replicate 3 (Thread false) ++ replicate 7 (Task 0) ++ replicate 3 (Thread true).

(** The watermark's compare-and-swap has an ABA flaw: a task that sleeps
    between its test for room and its compare-and-swap while the ring goes
    around succeeds on a full ring; its publication makes the full ring look
    empty.  There is a schedule after which every task has finished, the
    thread's position equals the tail, and 1024 delegated bios have been
    submitted by nobody. *)
Theorem stale_reservation_loses_bios :
  exists s, sub_run aba_schedule (init_submitter raw_ring 0 aba_work) = Some s /\
    Forall (fun p => pc p = PIdle /\ todo p = []) (producers s) /\
    next_slot s = r_tail (ring s) /\ by_self s = [] /\
    length (submitted s) = 1%nat /\ length (published s) = 1025%nat.
Proof.
  eexists. split; [vm_compute; reflexivity|]. vm_compute. repeat constructor.
Qed.

(** The thread can sleep for good on a non-empty ring: it sets the flag
    that asks for a wake-up after its last look at the tail and does not look
    again.  There is a schedule after which a bio is in the ring, its task has
    finished, and nobody can move until somebody delegates another bio or the
    module is unloaded. *)
Theorem wakeup_can_be_lost :
  exists s, sub_run lost_wakeup_schedule (init_submitter raw_ring 0 [[7]]) = Some s /\
    timely s /\ ring_queue s = [Some 7] /\ submitted s = [] /\ by_self s = [] /\
    forall l, l <> Stop -> sub_step l s = None.
Proof.
  eexists. split; [vm_compute; reflexivity|]. split_and!;
    [|vm_compute; reflexivity|reflexivity..|].
  - intros [|i] p Hp; simpl in Hp; [|done]. by injection Hp as <-.
  - intros [[|i]|idle|] Hl; done.
Qed.

(** ** The theorems on small executions *)

Definition one_bio : submitter := init_submitter raw_ring 0 [[7]].

Lemma timely_prefix ls s s' :
  (forall l1 l2 s1, ls = l1 ++ l2 -> sub_run l1 s = Some s1 -> timely s1) ->
  sub_run ls s = Some s' -> timely_run s s'.
Proof.
  revert s'. induction ls as [|l ls IH] using rev_ind; intros s' Ht R.
  - injection R as <-. constructor.
  - rewrite sub_run_app in R. destruct (sub_run ls s) as [s1|] eqn:E; [|done]. simpl in R.
    destruct (sub_step l s1) as [s2|] eqn:E2; [|done]. simpl in R. injection R as <-.
    eapply timely_step; [apply IH; [|done]|by apply (Ht ls [l])|done].
    intros l1 l2 s0 El. apply (Ht l1 (l2 ++ [l])). by rewrite El, app_assoc.
Qed.

(** One task alone is always in time. *)
Definition timelyb (s : submitter) : bool :=
  forallb (fun p => match pc p with
                    | PSpace _ _ g | PReserve _ _ g => n_wm s - g <? r_len (ring s)
                    | _ => true
                    end) (producers s).

Lemma timelyb_ok s : timelyb s = true -> timely s.
Proof.
  unfold timelyb. rewrite forallb_forall. intros Hf i p Hi.
  specialize (Hf p (proj1 (list_elem_of_In _ _) (list_elem_of_lookup_2 _ _ _ Hi))).
  destruct (pc p); try done; by apply Z.ltb_lt.
Qed.

Fixpoint run_timelyb (ls : list label) (s : submitter) : bool :=
  timelyb s && match ls with
               | [] => true
               | l :: ls => match sub_step l s with Some s' => run_timelyb ls s' | None => false end
               end.

Lemma run_timelyb_ok ls s s' : run_timelyb ls s = true -> sub_run ls s = Some s' -> timely_run s s'.
Proof.
  intros Hb. apply timely_prefix. intros l1 l2 s1 ->. revert s Hb.
  induction l1 as [|l l1 IH]; intros s Hb R.
  - injection R as <-. simpl in Hb. destruct l2; simpl in Hb; apply andb_true_iff in Hb as [? _]; by apply timelyb_ok.
  - simpl in *. apply andb_true_iff in Hb as [_ Hb]. destruct (sub_step l s) as [s2|]; [|done]. by apply (IH s2).
Qed.

Definition delegated : submitter :=
  Eval vm_compute in default one_bio (sub_run (call 0 ++ serve 1) one_bio).

Lemma delegated_run : timely_run one_bio delegated.
Proof. apply (run_timelyb_ok (call 0 ++ serve 1)); vm_compute; reflexivity. Qed.

Lemma submitter_is_fifo_witness : [7] ≡ₚ published delegated /\ exists q, [7] = submitted delegated ++ q.
Proof.
  destruct (submitter_is_fifo raw_ring 0 [[7]] delegated) as [Hp (q & Eq & _)];
    [reflexivity|exact delegated_run|].
  split; [exact Hp|exists q; exact Eq].
Defined.

Definition reserved : submitter :=
  Eval vm_compute in default one_bio (sub_run (replicate 4 (Task 0)) one_bio).

Lemma reserved_run : timely_run one_bio reserved.
Proof. apply (run_timelyb_ok (replicate 4 (Task 0))); vm_compute; reflexivity. Qed.

(** The task and the thread in turn. *)
Fixpoint steadyb (ls : list label) (s : submitter) : bool :=
  match ls with
  | [] => true
  | l :: ls => timelyb s && negb (quits l s) && steadyb ls (sub_next l s)
  end.

Definition play (ls : list label) (s : submitter) : submitter := foldl (fun s l => sub_next l s) s ls.

Lemma steadyb_ok ls s : steadyb ls s = true -> steady_play s ls (play ls s).
Proof.
  revert s. induction ls as [|l ls IH]; intros s; simpl; [constructor|].
  intros [[Ht Hq]%andb_true_iff Hp]%andb_true_iff. constructor; [by apply timelyb_ok|by apply negb_true_iff|by apply IH].
Qed.

Definition turns : list (list label) := replicate (7 * 1024) [Task 0; Thread false].

Lemma reserved_steady : steadyb (concat turns) reserved = true.
Proof. vm_compute. reflexivity. Qed.

Lemma reserved_slots_get_submitted_witness : 1 <= Z.of_nat (length (submitted (play (concat turns) reserved))).
Proof.
  apply (reserved_slots_get_submitted raw_ring 0 [[7]] reserved turns);
    [reflexivity|exact reserved_run|reflexivity| |vm_compute; congruence|apply steadyb_ok; exact reserved_steady].
  apply Forall_replicate. split; [intros [|i] Hi; [left|cbn in Hi; lia]|right; left; reflexivity].
Defined.
