(* ===== verification/NvmeCore.v ===== *)
(** * The NVMe host driver: commands and controller states
      (nvme-host/core.c, nvme-host/nvme.h, nvme-host/multipath.c)

    How a block layer request becomes an NVMe command, what becomes of a
    request when its command completes, the states of a controller, and the
    choice of a path to a namespace with several controllers. *)

From S2P Require Import Prelude Ring Horae.

(** ** Constants of the kernel's and the standard's headers *)

Class NvmeHdr := {
  (* status codes (linux/nvme.h) *)
  NVME_SC_SUCCESS : Z;
  NVME_SC_INVALID_OPCODE : Z;
  NVME_SC_INVALID_FIELD : Z;
  NVME_SC_ABORT_REQ : Z;
  NVME_SC_INVALID_NS : Z;
  NVME_SC_LBA_RANGE : Z;
  NVME_SC_CAP_EXCEEDED : Z;
  NVME_SC_RESERVATION_CONFLICT : Z;
  NVME_SC_BAD_ATTRIBUTES : Z;
  NVME_SC_INVALID_PI : Z;
  NVME_SC_READ_ONLY : Z;
  NVME_SC_ONCS_NOT_SUPPORTED : Z;
  NVME_SC_WRITE_FAULT : Z;
  NVME_SC_READ_ERROR : Z;
  NVME_SC_GUARD_CHECK : Z;
  NVME_SC_APPTAG_CHECK : Z;
  NVME_SC_REFTAG_CHECK : Z;
  NVME_SC_COMPARE_FAILED : Z;
  NVME_SC_ACCESS_DENIED : Z;
  NVME_SC_UNWRITTEN_BLOCK : Z;
  NVME_SC_DNR : Z;
  (* commands *)
  nvme_cmd_flush : Z;
  nvme_cmd_write : Z;
  nvme_cmd_read : Z;
  nvme_cmd_dsm : Z;
  nvme_admin_async_event : Z;
  NVME_RW_LR : Z;
  NVME_RW_FUA : Z;
  NVME_RW_DSM_FREQ_PREFETCH : Z;
  NVME_RW_PRINFO_PRCHK_REF : Z;
  NVME_RW_PRINFO_PRCHK_GUARD : Z;
  NVME_RW_PRINFO_PRACT : Z;
  NVME_RW_DTYPE_STREAMS : Z;
  NVME_DSMGMT_AD : Z;
  NVME_CMD_SGL_METABUF : Z;
  NVME_SGL_FMT_DATA_DESC : Z;
  NVME_SGL_FMT_SEG_DESC : Z;
  NVME_SGL_FMT_LAST_SEG_DESC : Z;
  NVME_NS_DPS_PI_TYPE1 : Z;
  NVME_NS_DPS_PI_TYPE2 : Z;
  NVME_NS_DPS_PI_TYPE3 : Z;
  (* the block layer *)
  RQ_FUA : Z;                    (* REQ_FUA *)
  RQ_RAHEAD : Z;                 (* REQ_RAHEAD *)
  RQ_FAILFAST_DEV : Z;           (* REQ_FAILFAST_DEV *)
  REQ_DRV : Z;
  blk_noretry_request : Z -> bool;
  WRITE_LIFE_NOT_SET : Z;
  WRITE_LIFE_NONE : Z;
  NR_WRITE_HINTS : Z;            (* ARRAY_SIZE(q->write_hints) *)
}.

(** The block layer's results this driver uses. *)
Inductive blk_status_t :=
| BLK_STS_OK | BLK_STS_NOTSUPP | BLK_STS_NOSPC | BLK_STS_TARGET | BLK_STS_NEXUS
| BLK_STS_MEDIUM | BLK_STS_PROTECTION | BLK_STS_RESOURCE | BLK_STS_IOERR.

#[export] Instance blk_status_eq_dec : EqDecision blk_status_t.
Proof. solve_decision. Defined.

(** ** Commands

    The 64-byte union [struct nvme_command]: the fields all commands share,
    the data pointer, and those of the command's kind. *)

Record nvme_sgl_desc := mk_sgl { sgl_addr : Z; sgl_length : Z; sgl_type : Z }.

Inductive data_ptr :=
| PRP (prp1 prp2 : Z)
| SGL (d : nvme_sgl_desc).

Inductive cmd_body :=
| NoBody
| RwBody (slba length control dsmgmt reftag : Z)
| DsmBody (nr attributes : Z)
| DrvBody (raw : Z).              (* a command prepared by the caller *)

Record nvme_command := mk_nvme_command {
  opcode : Z;
  cflags : Z;
  command_id : Z;
  nsid : Z;
  metadata : Z;
  dptr : data_ptr;
  body : cmd_body;
}.

#[export] Instance eta_nvme_command : Eta nvme_command := fun c =>
  mk_nvme_command (opcode c) (cflags c) (command_id c) (nsid c) (metadata c) (dptr c) (body c).

(** A command cleared with [memset]. *)
Definition zeroed : nvme_command := mk_nvme_command 0 0 0 0 0 (PRP 0 0) NoBody.

Record nvme_dsm_range := mk_range { cattr : Z; nlb : Z; r_slba : Z }.

(** ** Requests and namespaces *)

Inductive rq_op :=
| OP_READ | OP_WRITE | OP_FLUSH | OP_DISCARD | OP_WRITE_ZEROES | OP_DRV_IN | OP_DRV_OUT
| OP_OTHER (n : Z).

#[export] Instance rq_op_eq_dec : EqDecision rq_op.
Proof. solve_decision. Defined.

Record request := mk_request {
  req_op : rq_op;
  cmd_flags : Z;
  dontprep : bool;                         (* rq_flags & RQF_DONTPREP *)
  special : option (list nvme_dsm_range);  (* RQF_SPECIAL_PAYLOAD and special_vec *)
  rq_tag : Z;
  rq_pos : Z;                              (* blk_rq_pos, in sectors *)
  rq_bytes : Z;                            (* blk_rq_bytes *)
  write_hint : Z;
  rq_bios : list (Z * Z);                  (* bi_sector and bi_size of its bios *)
  rq_integrity : bool;                     (* blk_integrity_rq *)
  queue_dying : bool;                      (* blk_queue_dying(req->q) *)
  (* struct nvme_request *)
  drv_cmd : nvme_command;
  retries : Z;
  nflags : Z;
  rstatus : Z;
}.

#[export] Instance eta_request : Eta request := fun r =>
  mk_request (req_op r) (cmd_flags r) (dontprep r) (special r) (rq_tag r) (rq_pos r) (rq_bytes r)
    (write_hint r) (rq_bios r) (rq_integrity r) (queue_dying r) (drv_cmd r) (retries r) (nflags r)
    (rstatus r).

Record nvme_ns := mk_ns {
  ns_id : Z;
  lba_shift : Z;
  ms : Z;
  pi_type : Z;
  nr_write_streams : Z;            (* ctrl->nr_streams *)
}.

Definition sizeof_t10_pi_tuple : Z := 8.

Definition nvme_block_nr (ns : nvme_ns) (sector : Z) : Z := Z.shiftr sector (lba_shift ns - 9).

Definition nvme_ns_has_pi (ns : nvme_ns) : bool :=
  negb (pi_type ns =? 0) && (ms ns =? sizeof_t10_pi_tuple).

Section core.
Context `{NvmeHdr}.

Definition has_flag (x f : Z) : bool := negb (Z.land x f =? 0).

(** ** Building commands *)

Definition nvme_clear_nvme_request (r : request) : request :=
  if dontprep r then r else r <| retries := 0 |> <| nflags := 0 |> <| dontprep := true |>.

Definition nvme_setup_flush (ns : nvme_ns) : nvme_command :=
  zeroed <| opcode := nvme_cmd_flush |> <| nsid := u32 (ns_id ns) |>.

Definition discard_range (ns : nvme_ns) (b : Z * Z) : nvme_dsm_range :=
  mk_range 0 (u32 (Z.shiftr b.2 (lba_shift ns))) (u64 (nvme_block_nr ns b.1)).

(** The loop over the bios; [n] counts them in 16 bits. *)
Definition discard_loop (ns : nvme_ns) (segments : Z) (raw : list nvme_dsm_range)
    (bios : list (Z * Z)) : Z * list nvme_dsm_range :=
  foldl (fun '(n, range) b =>
           (u16 (n + 1), if n <? segments then <[Z.to_nat n := discard_range ns b]> range else range))
    (0, raw) bios.

(** [segments] is blk_rq_nr_discard_segments; [alloc] what kmalloc_array
    returns (with its contents). *)
Definition nvme_setup_discard (ns : nvme_ns) (segments : Z) (alloc : option (list nvme_dsm_range))
    (r : request) (cmnd : nvme_command) : blk_status_t * request * nvme_command :=
  match alloc with
  | None => (BLK_STS_RESOURCE, r, cmnd)
  | Some raw =>
      let '(n, range) := discard_loop ns segments raw (rq_bios r) in
      if negb (n =? segments) then (BLK_STS_IOERR, r, cmnd)
      else
        (BLK_STS_OK, r <| special := Some range |>,
         zeroed <| opcode := nvme_cmd_dsm |> <| nsid := u32 (ns_id ns) |>
                <| body := DsmBody (u32 (segments - 1)) NVME_DSMGMT_AD |>)
  end.

(** The stream of a write, added to [control] and [dsmgmt]; the last result
    is the counter of [write_hints] that is incremented. *)
Definition nvme_assign_write_stream (ns : nvme_ns) (r : request) (control dsmgmt : Z)
    : Z * Z * option Z :=
  let count streamid := if streamid <? NR_WRITE_HINTS then Some streamid else None in
  if (write_hint r =? WRITE_LIFE_NOT_SET) || (write_hint r =? WRITE_LIFE_NONE) then
    (control, dsmgmt, count 0)
  else
    let streamid := u32 (write_hint r - 1) in
    if nr_write_streams ns <? streamid then (control, dsmgmt, None)
    else (u16 (Z.lor control NVME_RW_DTYPE_STREAMS),
          u32 (Z.lor dsmgmt (Z.shiftl streamid 16)), count streamid).

Definition nvme_setup_rw (ns : nvme_ns) (r : request) : blk_status_t * nvme_command :=
  let control := if has_flag (cmd_flags r) RQ_FUA then NVME_RW_FUA else 0 in
  let control := if has_flag (cmd_flags r) (Z.lor RQ_FAILFAST_DEV RQ_RAHEAD)
                 then Z.lor control NVME_RW_LR else control in
  let dsmgmt := if has_flag (cmd_flags r) RQ_RAHEAD then NVME_RW_DSM_FREQ_PREFETCH else 0 in
  let is_write := bool_decide (req_op r = OP_WRITE) in
  let cmnd := zeroed <| opcode := if is_write then nvme_cmd_write else nvme_cmd_read |>
                     <| nsid := u32 (ns_id ns) |> in
  let slba := u64 (nvme_block_nr ns (rq_pos r)) in
  let length := u16 (Z.shiftr (rq_bytes r) (lba_shift ns) - 1) in
  let '(control, dsmgmt) :=
    if is_write && negb (nr_write_streams ns =? 0)
    then (nvme_assign_write_stream ns r control dsmgmt).1 else (control, dsmgmt) in
  let rw control reftag := cmnd <| body := RwBody slba length (u16 control) (u32 dsmgmt) reftag |> in
  if ms ns =? 0 then (BLK_STS_OK, rw control 0)
  else if negb (rq_integrity r) && negb (nvme_ns_has_pi ns) then
    (BLK_STS_NOTSUPP, cmnd <| body := RwBody slba length 0 0 0 |>)
  else
    let control := if rq_integrity r then control else Z.lor control NVME_RW_PRINFO_PRACT in
    if pi_type ns =? NVME_NS_DPS_PI_TYPE3 then
      (BLK_STS_OK, rw (Z.lor control NVME_RW_PRINFO_PRCHK_GUARD) 0)
    else if (pi_type ns =? NVME_NS_DPS_PI_TYPE1) || (pi_type ns =? NVME_NS_DPS_PI_TYPE2) then
      (BLK_STS_OK, rw (Z.lor control (Z.lor NVME_RW_PRINFO_PRCHK_GUARD NVME_RW_PRINFO_PRCHK_REF))
                      (u32 (nvme_block_nr ns (rq_pos r))))
    else (BLK_STS_OK, rw control 0).

Definition nvme_setup_cmd (ns : nvme_ns) (segments : Z) (alloc : option (list nvme_dsm_range))
    (r : request) (cmd : nvme_command) : blk_status_t * request * nvme_command :=
  let r := nvme_clear_nvme_request r in
  let finish '(st, r, c) := (st, r, c <| command_id := u16 (rq_tag r) |>) in
  match req_op r with
  | OP_DRV_IN | OP_DRV_OUT => finish (BLK_STS_OK, r, drv_cmd r)
  | OP_FLUSH => finish (BLK_STS_OK, r, nvme_setup_flush ns)
  | OP_WRITE_ZEROES | OP_DISCARD => finish (nvme_setup_discard ns segments alloc r cmd)
  | OP_READ | OP_WRITE => let '(st, c) := nvme_setup_rw ns r in finish (st, r, c)
  | OP_OTHER _ => (BLK_STS_IOERR, r, cmd)
  end.

(** ** Completion of a request *)

Definition nvme_error_status (r : request) : blk_status_t :=
  let st := Z.land (rstatus r) 2047 in
  let one_of l := existsb (Z.eqb st) l in
  if one_of [NVME_SC_SUCCESS] then BLK_STS_OK
  else if one_of [NVME_SC_CAP_EXCEEDED] then BLK_STS_NOSPC
  else if one_of [NVME_SC_LBA_RANGE] then BLK_STS_TARGET
  else if one_of [NVME_SC_BAD_ATTRIBUTES; NVME_SC_ONCS_NOT_SUPPORTED; NVME_SC_INVALID_OPCODE;
                  NVME_SC_INVALID_FIELD; NVME_SC_INVALID_NS] then BLK_STS_NOTSUPP
  else if one_of [NVME_SC_WRITE_FAULT; NVME_SC_READ_ERROR; NVME_SC_UNWRITTEN_BLOCK;
                  NVME_SC_ACCESS_DENIED; NVME_SC_READ_ONLY; NVME_SC_COMPARE_FAILED] then BLK_STS_MEDIUM
  else if one_of [NVME_SC_GUARD_CHECK; NVME_SC_APPTAG_CHECK; NVME_SC_REFTAG_CHECK;
                  NVME_SC_INVALID_PI] then BLK_STS_PROTECTION
  else if one_of [NVME_SC_RESERVATION_CONFLICT] then BLK_STS_NEXUS
  else BLK_STS_IOERR.

Definition nvme_req_needs_retry (nvme_max_retries : Z) (r : request) : bool :=
  if blk_noretry_request (cmd_flags r) then false
  else if has_flag (rstatus r) NVME_SC_DNR then false
  else if nvme_max_retries <=? retries r then false
  else true.

(** multipath.c; [blk_path_error] is the block layer's. *)
Definition nvme_req_needs_failover (blk_path_error : blk_status_t -> bool) (r : request)
    (error : blk_status_t) : bool :=
  if negb (has_flag (cmd_flags r) REQ_DRV) then false else blk_path_error error.

Inductive rq_action :=
| Failover                      (* nvme_failover_req: the bios take another path *)
| Requeue                       (* blk_mq_requeue_request *)
| End (st : blk_status_t).      (* blk_mq_end_request *)

Definition nvme_complete_rq (nvme_max_retries : Z) (blk_path_error : blk_status_t -> bool)
    (r : request) : request * rq_action :=
  let status := nvme_error_status r in
  if negb (bool_decide (status = BLK_STS_OK)) && nvme_req_needs_retry nvme_max_retries r then
    if nvme_req_needs_failover blk_path_error r status then (r, Failover)
    else if negb (queue_dying r) then (r <| retries ::= fun n => u8 (n + 1) |>, Requeue)
    else (r, End status)
  else (r, End status).

Definition nvme_end_request (status : Z) (r : request) : request :=
  r <| rstatus := Z.shiftr (u16 status) 1 |>.

Definition nvme_cancel_request (r : request) : request := r <| rstatus := NVME_SC_ABORT_REQ |>.
End core.

(** ** States of a controller *)

Inductive nvme_ctrl_state :=
| NVME_CTRL_NEW | NVME_CTRL_LIVE | NVME_CTRL_ADMIN_ONLY | NVME_CTRL_RESETTING
| NVME_CTRL_CONNECTING | NVME_CTRL_DELETING | NVME_CTRL_DEAD.

#[export] Instance ctrl_state_eq_dec : EqDecision nvme_ctrl_state.
Proof. solve_decision. Defined.

Record nvme_ctrl := mk_ctrl {
  state : nvme_ctrl_state;
  kicks : Z;                (* calls of nvme_kick_requeue_lists *)
  reset_queued : bool;      (* reset_work is queued *)
  delete_queued : bool;     (* delete_work is queued *)
}.

#[export] Instance eta_nvme_ctrl : Eta nvme_ctrl := fun c =>
  mk_ctrl (state c) (kicks c) (reset_queued c) (delete_queued c).

(** The nested switches: may the state change from [old] to [new]? *)
Definition may_change (old new : nvme_ctrl_state) : bool :=
  match new with
  | NVME_CTRL_ADMIN_ONLY =>
      match old with NVME_CTRL_CONNECTING => true | _ => false end
  | NVME_CTRL_LIVE =>
      match old with NVME_CTRL_NEW | NVME_CTRL_RESETTING | NVME_CTRL_CONNECTING => true | _ => false end
  | NVME_CTRL_RESETTING =>
      match old with NVME_CTRL_NEW | NVME_CTRL_LIVE | NVME_CTRL_ADMIN_ONLY => true | _ => false end
  | NVME_CTRL_CONNECTING =>
      match old with NVME_CTRL_NEW | NVME_CTRL_RESETTING => true | _ => false end
  | NVME_CTRL_DELETING =>
      match old with
      | NVME_CTRL_LIVE | NVME_CTRL_ADMIN_ONLY | NVME_CTRL_RESETTING | NVME_CTRL_CONNECTING => true
      | _ => false
      end
  | NVME_CTRL_DEAD =>
      match old with NVME_CTRL_DELETING => true | _ => false end
  | NVME_CTRL_NEW => false
  end.

Definition nvme_change_ctrl_state (new_state : nvme_ctrl_state) (c : nvme_ctrl) : nvme_ctrl * bool :=
  let changed := may_change (state c) new_state in
  let c := if changed then c <| state := new_state |> else c in
  let c := if changed && bool_decide (state c = NVME_CTRL_LIVE)
           then c <| kicks ::= fun n => n + 1 |> else c in
  (c, changed).

Definition EBUSY_ret : Z := -16.

(** [queue_work] fails when the work is queued already. *)
Definition nvme_reset_ctrl (c : nvme_ctrl) : nvme_ctrl * Z :=
  let '(c, changed) := nvme_change_ctrl_state NVME_CTRL_RESETTING c in
  if negb changed then (c, EBUSY_ret)
  else if reset_queued c then (c, EBUSY_ret)
  else (c <| reset_queued := true |>, 0).

Definition nvme_delete_ctrl (c : nvme_ctrl) : nvme_ctrl * Z :=
  let '(c, changed) := nvme_change_ctrl_state NVME_CTRL_DELETING c in
  if negb changed then (c, EBUSY_ret)
  else if delete_queued c then (c, EBUSY_ret)
  else (c <| delete_queued := true |>, 0).

(** Is scan work queued? *)
Definition nvme_queue_scan (c : nvme_ctrl) : bool := bool_decide (state c = NVME_CTRL_LIVE).

(** The argument of the Number of Queues feature. *)
Definition queue_count_word (count : Z) : Z := u32 (Z.lor (count - 1) (Z.shiftl (count - 1) 16)).

(** [inl]: the error code; [inr]: the number of queues to use.  [status] and
    [result] are what [nvme_set_features] answers. *)
Definition nvme_set_queue_count (status result count : Z) : Z + Z :=
  if status <? 0 then inl status
  else if 0 <? status then inr 0
  else
    let nr_io_queues := Z.min (Z.land result 65535) (Z.shiftr result 16) + 1 in
    inr (Z.min count nr_io_queues).

(** ** Paths to a namespace (multipath.c)

    [paths]: the namespaces of the subsystem with the same identity, each
    with its controller; [current]: the remembered one, by its index. *)

Record ns_head := mk_head {
  paths : list nvme_ctrl;
  current_path : option nat;
  requeue_list : list Z;          (* the bios waiting for a path *)
  sent : list (nat * Z);          (* the bios sent, with their path *)
  failed : list Z;                (* the bios failed with BLK_STS_IOERR *)
}.

#[export] Instance eta_ns_head : Eta ns_head := fun h =>
  mk_head (paths h) (current_path h) (requeue_list h) (sent h) (failed h).

Definition is_live (c : nvme_ctrl) : Prop := state c = NVME_CTRL_LIVE.
#[export] Instance is_live_dec c : Decision (is_live c).
Proof. unfold is_live. apply _. Defined.

Definition find_live_path (h : ns_head) : ns_head * option nat :=
  match list_find is_live (paths h) with
  | Some (i, _) => (h <| current_path := Some i |>, Some i)
  | None => (h, None)
  end.

Definition nvme_find_path (h : ns_head) : ns_head * option nat :=
  match current_path h with
  | Some i =>
      match paths h !! i with
      | Some c => if bool_decide (is_live c) then (h, Some i) else find_live_path h
      | None => find_live_path h
      end
  | None => find_live_path h
  end.

Definition nvme_ns_head_make_request (b : Z) (h : ns_head) : ns_head :=
  let '(h, p) := nvme_find_path h in
  match p with
  | Some i => h <| sent ::= (.++ [(i, b)]) |>
  | None =>
      if bool_decide (paths h = []) then h <| failed ::= (.++ [b]) |>
      else h <| requeue_list ::= (.++ [b]) |>
  end.

(** The bios of a request whose path [i] failed wait for another path; the
    controller is reset. *)
Definition nvme_failover_req (i : nat) (bios : list Z) (h : ns_head) : ns_head :=
  h <| requeue_list ::= (.++ bios) |>
    <| paths ::= alter (fun c => (nvme_reset_ctrl c).1) i |>.

(** The waiting bios are submitted again; those without a path wait again. *)
Definition nvme_requeue_work (h : ns_head) : ns_head :=
  foldl (fun h b => nvme_ns_head_make_request b h) (h <| requeue_list := [] |>) (requeue_list h).
