(* ===== verification/NvmeCoreTheorems.v ===== *)
(** * Theorems about commands, completions and controllers *)

From S2P Require Import Prelude Ring Horae NvmeCore.

(** The values of linux/nvme.h and linux/blk_types.h (Linux 4.18). *)
Definition nvme_hdr0 : NvmeHdr := {|
  NVME_SC_SUCCESS := 0; NVME_SC_INVALID_OPCODE := 1; NVME_SC_INVALID_FIELD := 2;
  NVME_SC_ABORT_REQ := 7; NVME_SC_INVALID_NS := 11; NVME_SC_LBA_RANGE := 128;
  NVME_SC_CAP_EXCEEDED := 129; NVME_SC_RESERVATION_CONFLICT := 131;
  NVME_SC_BAD_ATTRIBUTES := 384; NVME_SC_INVALID_PI := 385; NVME_SC_READ_ONLY := 386;
  NVME_SC_ONCS_NOT_SUPPORTED := 387; NVME_SC_WRITE_FAULT := 640; NVME_SC_READ_ERROR := 641;
  NVME_SC_GUARD_CHECK := 642; NVME_SC_APPTAG_CHECK := 643; NVME_SC_REFTAG_CHECK := 644;
  NVME_SC_COMPARE_FAILED := 645; NVME_SC_ACCESS_DENIED := 646; NVME_SC_UNWRITTEN_BLOCK := 647;
  NVME_SC_DNR := 16384;
  nvme_cmd_flush := 0; nvme_cmd_write := 1; nvme_cmd_read := 2; nvme_cmd_dsm := 9;
  nvme_admin_async_event := 12;
  NVME_RW_LR := 32768; NVME_RW_FUA := 16384; NVME_RW_DSM_FREQ_PREFETCH := 6;
  NVME_RW_PRINFO_PRCHK_REF := 1024; NVME_RW_PRINFO_PRCHK_GUARD := 4096;
  NVME_RW_PRINFO_PRACT := 8192; NVME_RW_DTYPE_STREAMS := 16; NVME_DSMGMT_AD := 4;
  NVME_CMD_SGL_METABUF := 64;
  NVME_SGL_FMT_DATA_DESC := 0; NVME_SGL_FMT_SEG_DESC := 2; NVME_SGL_FMT_LAST_SEG_DESC := 3;
  NVME_NS_DPS_PI_TYPE1 := 1; NVME_NS_DPS_PI_TYPE2 := 2; NVME_NS_DPS_PI_TYPE3 := 3;
  RQ_FUA := 2 ^ 17; RQ_RAHEAD := 2 ^ 19; RQ_FAILFAST_DEV := 2 ^ 8; REQ_DRV := 2 ^ 21;
  blk_noretry_request := fun f => negb (Z.land f (2 ^ 8 + 2 ^ 9 + 2 ^ 10) =? 0);
  WRITE_LIFE_NOT_SET := 0; WRITE_LIFE_NONE := 1; NR_WRITE_HINTS := 5;
|}.
#[export] Existing Instance nvme_hdr0.

(** ** Commands *)

Lemma shift_exact x k : 0 <= k -> Z.shiftl (Z.shiftr x k) k = x - x mod 2 ^ k.
Proof.
  intros Hk. rewrite Z.shiftl_mul_pow2, Z.shiftr_div_pow2 by done.
  pose proof (Z.div_mod x (2 ^ k)). pose proof (Z.pow_pos_nonneg 2 k). lia.
Qed.

Lemma discard_loop_ok ns segments raw bios :
  Z.of_nat (length bios) <= segments < 2 ^ 16 -> Z.of_nat (length raw) = segments ->
  discard_loop ns segments raw bios =
    (Z.of_nat (length bios), (discard_range ns <$> bios) ++ drop (length bios) raw).
Proof.
  intros Hs Hr. unfold discard_loop.
  induction bios as [|b bios IH] using rev_ind; [done|].
  rewrite length_app in *. simpl length in *. rewrite foldl_app, IH by lia. simpl.
  destruct (Z.ltb_spec (Z.of_nat (length bios)) segments); [|lia].
  rewrite wrap_small by lia. f_equal; [lia|].
  rewrite fmap_app, <- app_assoc. rewrite insert_app_r_alt by (rewrite length_fmap; lia).
  rewrite length_fmap, Nat2Z.id, Nat.sub_diag. f_equal. simpl.
  destruct (drop (length bios) raw) as [|x l] eqn:E.
  - apply (f_equal length) in E. rewrite length_drop in E. simpl in E. lia.
  - simpl. f_equal. rewrite Nat.add_1_r. apply (f_equal (drop 1)) in E. rewrite drop_drop in E.
    change (drop 1 (x :: l)) with l in E. rewrite <- E. f_equal. lia.
Qed.

Lemma block_nr_range ns x :
  9 <= lba_shift ns -> 0 <= x < 2 ^ 64 -> 0 <= nvme_block_nr ns x < 2 ^ 64.
Proof.
  intros Hs Hx. unfold nvme_block_nr. rewrite Z.shiftr_div_pow2 by lia.
  pose proof (Z.pow_pos_nonneg 2 (lba_shift ns - 9)).
  split; [apply Z.div_pos; lia|]. eapply Z.le_lt_trans; [|apply Hx].
  apply Z.div_le_upper_bound; nia.
Qed.

(** The geometry a request of [n] logical blocks must have. *)
Definition rw_aligned (ns : nvme_ns) (r : request) : Prop :=
  9 <= lba_shift ns /\ 0 <= rq_pos r < 2 ^ 64 /\ rq_pos r mod 2 ^ (lba_shift ns - 9) = 0 /\
  rq_bytes r mod 2 ^ lba_shift ns = 0 /\
  1 <= Z.shiftr (rq_bytes r) (lba_shift ns) <= 2 ^ 16 /\ 0 <= rq_tag r < 2 ^ 16 /\
  0 <= ns_id ns < 2 ^ 32.

Section setup.
Context `{NvmeHdr}.

Lemma setup_rw_body ns r st c :
  nvme_setup_rw ns r = (st, c) ->
  (st = BLK_STS_OK \/ st = BLK_STS_NOTSUPP) /\
  opcode c = (if bool_decide (req_op r = OP_WRITE) then nvme_cmd_write else nvme_cmd_read) /\
  nsid c = u32 (ns_id ns) /\
  exists control dsmgmt reftag,
    body c = RwBody (u64 (nvme_block_nr ns (rq_pos r)))
                    (u16 (Z.shiftr (rq_bytes r) (lba_shift ns) - 1)) control dsmgmt reftag.
Proof.
  unfold nvme_setup_rw. destruct (if bool_decide (req_op r = OP_WRITE) && _ then _ else _) as [ctl dsm].
  intros E. repeat case_match; injection E as <- <-; split_and!; try tauto; try done; by repeat eexists.
Qed.
End setup.

(** The command built for a read or write request describes exactly the
    request: when it is made, its direction, namespace and tag are those of
    the request, and the block range it names, converted back to sectors and
    bytes, is the request's range.  A request that cannot be described (a
    namespace with metadata but neither a metadata buffer nor a format the
    device can generate) is refused. *)
Theorem rw_command_describes_request `{NvmeHdr} ns segs alloc r cmd :
  rw_aligned ns r -> req_op r = OP_READ \/ req_op r = OP_WRITE ->
  let '(st, r', c) := nvme_setup_cmd ns segs alloc r cmd in
  (st = BLK_STS_OK \/ st = BLK_STS_NOTSUPP) /\
  opcode c = (if bool_decide (req_op r = OP_WRITE) then nvme_cmd_write else nvme_cmd_read) /\
  nsid c = ns_id ns /\ command_id c = rq_tag r /\
  exists slba len control dsmgmt reftag, body c = RwBody slba len control dsmgmt reftag /\
    Z.shiftl slba (lba_shift ns - 9) = rq_pos r /\
    Z.shiftl (len + 1) (lba_shift ns) = rq_bytes r.
Proof.
  intros (Hsh & Hpos & Hp & Hb & Hn & Ht & Hns) Hop. unfold nvme_setup_cmd.
  set (r0 := nvme_clear_nvme_request r).
  assert (E0 : req_op r0 = req_op r /\ rq_tag r0 = rq_tag r /\ rq_pos r0 = rq_pos r /\ rq_bytes r0 = rq_bytes r).
  { subst r0. unfold nvme_clear_nvme_request. by destruct (dontprep r). }
  destruct E0 as (E1 & E2 & E3 & E4).
  assert (Hgo : forall st c, nvme_setup_rw ns r0 = (st, c) ->
    (st = BLK_STS_OK \/ st = BLK_STS_NOTSUPP) /\
    opcode c = (if bool_decide (req_op r = OP_WRITE) then nvme_cmd_write else nvme_cmd_read) /\
    nsid c = ns_id ns /\
    exists slba len control dsmgmt reftag, body c = RwBody slba len control dsmgmt reftag /\
      Z.shiftl slba (lba_shift ns - 9) = rq_pos r /\
      Z.shiftl (len + 1) (lba_shift ns) = rq_bytes r).
  { intros st c E. destruct (setup_rw_body ns r0 st c E) as (Hst & Ho & Hid & ctl & dsm & ref & Hbody).
    rewrite E1 in Ho. rewrite E3, E4 in Hbody. split_and!; [done|done|by rewrite Hid, wrap_small|].
    do 5 eexists. split; [exact Hbody|]. split.
    - rewrite wrap_small by (apply block_nr_range; lia). unfold nvme_block_nr. rewrite shift_exact by lia. lia.
    - rewrite wrap_small by lia. rewrite Z.sub_add, shift_exact by lia. lia. }
  destruct Hop as [Hop|Hop]; rewrite E1, Hop; destruct (nvme_setup_rw ns r0) as [st c] eqn:E;
    destruct (Hgo st c eq_refl) as (? & Ho & ? & ? & ? & ? & ? & ? & ? & ?); rewrite Hop in Ho;
    (split_and!; [done|exact Ho|done|simpl; rewrite E2; by apply wrap_small|];
     do 5 eexists; split; [simpl; eassumption|eassumption]).
Qed.

(** ** Completions *)

Section retries.
Context `{NvmeHdr} (max_retries : Z) (blk_path_error : blk_status_t -> bool).
Context (ns : nvme_ns) (segs : Z) (alloc : option (list nvme_dsm_range)).

(** The life of a request on a device that answers with [statuses]: it is set
    up, completed, and set up again as long as it is requeued.  The result is
    the number of requeues and how it ended ([None]: still in flight). *)
Fixpoint request_life (statuses : list Z) (r : request) : nat * option rq_action :=
  match statuses with
  | [] => (O, None)
  | st :: rest =>
      let r := (nvme_setup_cmd ns segs alloc r zeroed).1.2 in
      match nvme_complete_rq max_retries blk_path_error (nvme_end_request st r) with
      | (r, Requeue) => let '(n, res) := request_life rest r in (S n, res)
      | (_, res) => (O, Some res)
      end
  end.

Lemma setup_cmd_keeps r cmd :
  let r' := (nvme_setup_cmd ns segs alloc r cmd).1.2 in
  dontprep r' = true /\ retries r' = (if dontprep r then retries r else 0) /\
  cmd_flags r' = cmd_flags r /\ queue_dying r' = queue_dying r.
Proof.
  unfold nvme_setup_cmd, nvme_setup_discard, nvme_clear_nvme_request.
  destruct r as [op f dp sp tg pos by_ wh bios integ dy dc rt nf st]. cbn [dontprep].
  destruct dp, op; cbn [update req_op rq_bios]; unfold update; cbn;
    repeat (case_match; cbn in *; simplify_eq/=); done.
Qed.

Lemma complete_rq_cases r :
  let '(r', a) := nvme_complete_rq max_retries blk_path_error r in
  (a = Requeue /\ retries r < max_retries /\ r' = r <| retries ::= fun n => u8 (n + 1) |>) \/
  (a = Failover /\ r' = r) \/ (a = End (nvme_error_status r) /\ r' = r).
Proof.
  unfold nvme_complete_rq. destruct (negb _ && nvme_req_needs_retry _ _) eqn:E; [|by right; right].
  destruct (nvme_req_needs_failover _ _ _); [by right; left|].
  destruct (negb (queue_dying r)); [|by right; right]. left. split; [done|]. split; [|done].
  apply andb_true_iff in E as [_ E]. unfold nvme_req_needs_retry in E.
  destruct (blk_noretry_request _); [done|]. destruct (has_flag _ _); [done|].
  destruct (Z.leb_spec max_retries (retries r)); done || lia.
Qed.

Lemma request_life_bound statuses r :
  0 <= max_retries < 2 ^ 8 -> dontprep r = true -> 0 <= retries r ->
  Z.of_nat (request_life statuses r).1 <= Z.max 0 (max_retries - retries r) /\
  ((request_life statuses r).2 = None ->
   Z.of_nat (length statuses) <= Z.max 0 (max_retries - retries r)).
Proof.
  intros Hm. revert r. induction statuses as [|st rest IH]; intros r Hd Hr; simpl; [lia|].
  destruct (setup_cmd_keeps r zeroed) as (Hd1 & Hr1 & _). rewrite Hd in Hr1.
  set (r1 := nvme_end_request st _). pose proof (complete_rq_cases r1) as Hc.
  assert (E1 : retries r1 = retries r) by (rewrite <- Hr1; done).
  assert (E2 : dontprep r1 = true) by done.
  destruct (nvme_complete_rq _ _ r1) as [r2 a]. rewrite E1 in Hc.
  destruct Hc as [(-> & Hlt & ->)|[(-> & ->)|(-> & ->)]]; [|simpl; split; [lia|done]..].
  set (r2 := r1 <| retries ::= _ |>).
  assert (Er : retries r2 = retries r + 1).
  { subst r2. destruct r1. simpl in *. subst. apply wrap_small. lia. }
  specialize (IH r2). destruct (request_life rest r2) as [n res]. simpl in *.
  destruct IH as [IH1 IH2]; [by destruct r1|lia|]. split; [lia|]. intros ->. specialize (IH2 eq_refl). lia.
Qed.
End retries.

(** A request ends: whatever statuses the device answers with, a request
    that was just handed to the driver is requeued at most [nvme_max_retries]
    times, and after one more completion it is no longer in flight; setting
    the command up again on a retry does not reset the count. *)
Theorem request_ends `{NvmeHdr} max_retries blk_path_error ns segs alloc statuses r :
  0 <= max_retries < 2 ^ 8 -> dontprep r = false ->
  Z.of_nat (request_life max_retries blk_path_error ns segs alloc statuses r).1 <= max_retries /\
  (max_retries < Z.of_nat (length statuses) ->
   exists a, (request_life max_retries blk_path_error ns segs alloc statuses r).2 = Some a).
Proof.
  intros Hm Hd.
  (* a fresh request is the request cleared by the first set-up *)
  set (r0 := nvme_clear_nvme_request r).
  assert (E0 : r0 = r <| retries := 0 |> <| nflags := 0 |> <| dontprep := true |>)
    by (subst r0; unfold nvme_clear_nvme_request; by rewrite Hd).
  assert (El : request_life max_retries blk_path_error ns segs alloc statuses r =
               request_life max_retries blk_path_error ns segs alloc statuses r0).
  { destruct statuses; [done|]. cbn [request_life]. unfold nvme_setup_cmd. fold r0.
    assert (Ec : nvme_clear_nvme_request r0 = r0) by (rewrite E0; by destruct r). by rewrite Ec. }
  rewrite El. assert (Hr0 : retries r0 = 0 /\ dontprep r0 = true) by (rewrite E0; by destruct r).
  destruct (request_life_bound max_retries blk_path_error ns segs alloc statuses r0) as [H1 H2]; [done|apply Hr0|lia|].
  split; [lia|]. intros Hlen.
  destruct (request_life max_retries blk_path_error ns segs alloc statuses r0).2 as [a|]; [by exists a|].
  specialize (H2 eq_refl). lia.
Qed.

(** ** Controllers and paths *)

Inductive ctrl_op := Change (s : nvme_ctrl_state) | Reset | Delete | ResetWork.

Definition ctrl_run (c : nvme_ctrl) (o : ctrl_op) : nvme_ctrl :=
  match o with
  | Change s => (nvme_change_ctrl_state s c).1
  | Reset => (nvme_reset_ctrl c).1
  | Delete => (nvme_delete_ctrl c).1
  | ResetWork => c <| reset_queued := false |>     (* the work item starts *)
  end.

Definition going_away (c : nvme_ctrl) : Prop :=
  state c = NVME_CTRL_DELETING \/ state c = NVME_CTRL_DEAD.

Lemma ctrl_run_going_away c o :
  going_away c -> going_away (ctrl_run c o) /\ kicks (ctrl_run c o) = kicks c /\
  (reset_queued c = false -> reset_queued (ctrl_run c o) = false).
Proof.
  destruct c as [st k rq dq]. unfold going_away. simpl. intros [-> | ->]; destruct o as [[]| | |]; simpl; tauto.
Qed.

(** A controller whose deletion has begun stays down: whatever state
    changes, resets and deletions are attempted afterwards, in any order, it
    is deleting or dead, every reset is refused with EBUSY, no reset work
    becomes queued, and no queue of waiting requests is kicked. *)
Theorem deleted_controller_stays_down c ops :
  going_away c ->
  let c' := foldl ctrl_run c ops in
  going_away c' /\ kicks c' = kicks c /\ (nvme_reset_ctrl c').2 = EBUSY_ret /\
  (reset_queued c = false -> reset_queued c' = false) /\ nvme_queue_scan c' = false.
Proof.
  intros Hc. cbv zeta.
  assert (Hinv : going_away (foldl ctrl_run c ops) /\ kicks (foldl ctrl_run c ops) = kicks c /\
                 (reset_queued c = false -> reset_queued (foldl ctrl_run c ops) = false)).
  { induction ops as [|o ops IH] using rev_ind; [done|]. rewrite foldl_app. simpl.
    destruct IH as (Hg & Hk & Hq). destruct (ctrl_run_going_away _ o Hg) as (Hg' & Hk' & Hq').
    split_and!; [done|congruence|tauto]. }
  destruct Hinv as (Hg & Hk & Hq). split_and!; [done..| |done|].
  - unfold nvme_reset_ctrl, nvme_change_ctrl_state. destruct Hg as [-> | ->]; done.
  - unfold nvme_queue_scan. apply bool_decide_eq_false. destruct Hg as [-> | ->]; done.
Qed.

Lemma find_path_live h h' i :
  nvme_find_path h = (h', Some i) ->
  (exists c, paths h !! i = Some c /\ is_live c) /\ h' = h <| current_path := current_path h' |>.
Proof.
  assert (Hfind : find_live_path h = (h', Some i) ->
    (exists c, paths h !! i = Some c /\ is_live c) /\ h' = h <| current_path := current_path h' |>).
  { unfold find_live_path. destruct (list_find is_live (paths h)) as [[j c]|] eqn:E; [|done].
    intros [= <- <-]. apply list_find_Some in E as (? & ? & _). split; [by exists c|by destruct h]. }
  unfold nvme_find_path. destruct (current_path h) as [j|] eqn:Ej; [|done].
  destruct (paths h !! j) as [c|] eqn:Ec; [|done]. case_bool_decide as Hl; [|done].
  intros [= <- <-]. split; [by exists c|]. by destruct h.
Qed.

Lemma find_path_none h h' :
  nvme_find_path h = (h', None) -> h' = h /\ Forall (fun c => ~ is_live c) (paths h).
Proof.
  unfold nvme_find_path, find_live_path. intros E.
  destruct (list_find is_live (paths h)) as [[j c]|] eqn:El.
  - repeat case_match; simplify_eq.
  - apply list_find_None in El. repeat case_match; simplify_eq; done.
Qed.

(** The bios a head knows about. *)
Definition known_bios (h : ns_head) : list Z := requeue_list h ++ (snd <$> sent h) ++ failed h.

Definition sent_live (h : ns_head) : Prop :=
  forall i b, (i, b) ∈ sent h -> exists c, paths h !! i = Some c /\ is_live c.

Lemma make_request_ok b h :
  let h' := nvme_ns_head_make_request b h in
  known_bios h' ≡ₚ b :: known_bios h /\ paths h' = paths h /\
  (sent_live h -> sent_live h') /\
  (Exists is_live (paths h) -> requeue_list h' = requeue_list h /\ failed h' = failed h).
Proof.
  unfold nvme_ns_head_make_request, known_bios, sent_live. destruct (nvme_find_path h) as [h1 [i|]] eqn:E.
  - apply find_path_live in E as [(c & Hc & Hl) ->]. destruct h as [ps cp rl sn fl]. simpl in *.
    rewrite fmap_app. simpl. split_and!; [solve_Permutation| |..]; try done.
    intros Hs j b' Hin. apply elem_of_app in Hin as [Hin|Hin]; [by eapply Hs|].
    apply list_elem_of_singleton in Hin. simplify_eq. by exists c.
  - apply find_path_none in E as [-> Hn].
    assert (Hno : ~ Exists is_live (paths h)).
    { intros Hex. apply Exists_exists in Hex as (c & Hin & Hl). rewrite Forall_forall in Hn. by apply (Hn c). }
    destruct h as [ps cp rl sn fl]. simpl in *.
    case_bool_decide; simpl; split_and!; try done; solve_Permutation.
Qed.

Lemma requeue_fold bs h :
  let h' := foldl (fun h b => nvme_ns_head_make_request b h) h bs in
  known_bios h' ≡ₚ bs ++ known_bios h /\ paths h' = paths h /\ (sent_live h -> sent_live h') /\
  (Exists is_live (paths h) -> requeue_list h' = requeue_list h /\ failed h' = failed h).
Proof.
  revert h. induction bs as [|b bs IH]; intros h; [done|]. simpl.
  destruct (make_request_ok b h) as (K1 & P1 & S1 & L1).
  destruct (IH (nvme_ns_head_make_request b h)) as (K2 & P2 & S2 & L2).
  split_and!.
  - rewrite K2, K1. solve_Permutation.
  - congruence.
  - tauto.
  - intros Hex. rewrite P1 in L2. destruct (L1 Hex), (L2 Hex). split; congruence.
Qed.

(** When the waiting bios of a namespace with several paths are submitted
    again, none is lost or duplicated: each is sent, failed or waits again.
    Bios are only ever sent to live controllers; if one of the controllers is
    live, none waits any longer and none fails. *)
Theorem requeued_bios_find_a_path h :
  sent_live h ->
  let h' := nvme_requeue_work h in
  known_bios h' ≡ₚ known_bios h /\ sent_live h' /\ paths h' = paths h /\
  (Exists is_live (paths h) -> requeue_list h' = [] /\ failed h' = failed h).
Proof.
  intros Hs. unfold nvme_requeue_work. cbv zeta.
  destruct (requeue_fold (requeue_list h) (h <| requeue_list := [] |>)) as (K & P & S & L).
  split_and!; [rewrite K; by destruct h|by apply S; destruct h|by rewrite P; destruct h|].
  intros Hex. destruct h as [ps cp rl sn fl]. simpl in *. by apply L.
Qed.

(** ** The theorems on concrete requests and controllers *)

Definition ns0 : nvme_ns := mk_ns 1 12 0 0 0.

(** A write of 8 KB at sector 80 with tag 3. *)
Definition write0 : request :=
  mk_request OP_WRITE 0 false None 3 80 8192 0 [] false false zeroed 9 9 0.

Lemma rw_command_describes_request_witness :
  exists c, (nvme_setup_cmd ns0 0 None write0 zeroed).2 = c /\ opcode c = 1 /\ command_id c = 3 /\
  exists slba len control dsmgmt reftag, body c = RwBody slba len control dsmgmt reftag /\
    Z.shiftl slba 3 = 80 /\ Z.shiftl (len + 1) 12 = 8192.
Proof.
  eexists. split; [reflexivity|].
  assert (Ha : rw_aligned ns0 write0) by (repeat split; vm_compute; congruence).
  pose proof (rw_command_describes_request ns0 0 None write0 zeroed Ha (or_intror eq_refl)) as Hw.
  destruct (nvme_setup_cmd ns0 0 None write0 zeroed) as [[st r] c].
  destruct Hw as (_ & Ho & _ & Ht & Hb). split; [exact Ho|]. split; [exact Ht|exact Hb].
Defined.

Lemma request_ends_witness :
  exists a, (request_life 5 (fun _ => false) ns0 0 None (replicate 6 12) write0).2 = Some a.
Proof. apply (request_ends 5 (fun _ => false) ns0 0 None (replicate 6 12) write0); [lia|reflexivity|reflexivity]. Defined.

Definition live0 : nvme_ctrl := mk_ctrl NVME_CTRL_LIVE 0 false false.
Definition deleting0 : nvme_ctrl := mk_ctrl NVME_CTRL_DELETING 0 false true.

Lemma deleted_controller_stays_down_witness :
  kicks (foldl ctrl_run deleting0 [Reset; Change NVME_CTRL_LIVE; Change NVME_CTRL_DEAD; Change NVME_CTRL_LIVE]) = 0.
Proof. apply (deleted_controller_stays_down deleting0). left. reflexivity. Defined.

Definition head0 : ns_head := mk_head [deleting0; live0] (Some 0%nat) [5; 6] [] [].

Lemma requeued_bios_find_a_path_witness : requeue_list (nvme_requeue_work head0) = [].
Proof.
  apply (requeued_bios_find_a_path head0).
  - intros i b Hin. by apply elem_of_nil in Hin.
  - right. left. reflexivity.
Defined.
