(* ===== verification/NvmeQueue.v ===== *)
(** * The NVMe host driver: submission and completion queues (nvme-host/pci.c)

    One pair of queues.  The driver puts commands into the submission queue
    and rings its doorbell, in memory or in a register; the device puts
    completions into the completion queue, and the phase bit of an entry tells
    the driver whether it belongs to the current lap. *)

From S2P Require Import Prelude Ring Horae NvmeCore.

(** An entry of the completion queue; bit 0 of [cq_status] is the phase. *)
Record nvme_completion := mk_cqe { cqe_id : Z; cq_status : Z; cq_result : Z }.

#[export] Instance cqe_eq_dec : EqDecision nvme_completion.
Proof. solve_decision. Defined.

(** A doorbell in host memory and the event index the device keeps for it. *)
Record dbbuf := mk_dbbuf { db_value : Z; db_event : Z }.

(** What the driver does to the outside. *)
Inductive qevent :=
| WriteSqDb (v : Z)                          (* writel(v, q_db) *)
| WriteCqDb (v : Z)                          (* writel(v, q_db + db_stride) *)
| EndRequest (id status result : Z)          (* nvme_end_request of the tag's request *)
| AsyncEvent (status result : Z)             (* nvme_complete_async_event *)
| InvalidId (id : Z).                        (* dev_warn *)

Record nvme_queue := mk_queue {
  qid : Z;
  q_depth : Z;
  cq_vector : Z;
  sq_cmds : list nvme_command;               (* in host memory or in the device's buffer *)
  sq_tail : Z;
  cqes : list nvme_completion;
  cq_head : Z;
  last_cq_head : Z;
  cq_phase : Z;
  dbbuf_sq : option dbbuf;                   (* dbbuf_sq_db, dbbuf_sq_ei *)
  dbbuf_cq : option dbbuf;                   (* dbbuf_cq_db, dbbuf_cq_ei *)
  inflight : Z;
  stamp : Z;
  time_in_queue : Z;
  qlog : list qevent;
}.

#[export] Instance eta_nvme_queue : Eta nvme_queue := fun q =>
  mk_queue (qid q) (q_depth q) (cq_vector q) (sq_cmds q) (sq_tail q) (cqes q) (cq_head q)
    (last_cq_head q) (cq_phase q) (dbbuf_sq q) (dbbuf_cq q) (inflight q) (stamp q)
    (time_in_queue q) (qlog q).

Definition qemit (e : qevent) : M nvme_queue unit := modify (fun q => q <| qlog ::= (.++ [e]) |>).

(** ** Doorbells *)

Definition nvme_dbbuf_need_event (event_idx new_idx old : Z) : bool :=
  u16 (new_idx - event_idx - 1) <? u16 (new_idx - old).

(** The new doorbell in memory, and whether the register must be written. *)
Definition nvme_dbbuf_update_and_check_event (value : Z) (db : option dbbuf)
    : option dbbuf * bool :=
  match db with
  | None => (None, true)
  | Some d =>
      (Some (mk_dbbuf value (db_event d)),
       nvme_dbbuf_need_event (u16 (db_event d)) value (u16 (db_value d)))
  end.

(** ** Submission *)

Definition nvme_submit_cmd (cmd : nvme_command) : M nvme_queue unit :=
  q <-- get ;;
  check (sq_tail q <? Z.of_nat (length (sq_cmds q))) OutOfBounds ;;;
  let tail1 := u16 (sq_tail q + 1) in
  let tail := if tail1 =? q_depth q then 0 else tail1 in
  modify (fun q => q <| sq_cmds ::= <[Z.to_nat (sq_tail q) := cmd]> |> <| sq_tail := tail |>) ;;;
  let '(db, mmio) := nvme_dbbuf_update_and_check_event tail (dbbuf_sq q) in
  modify (fun q => q <| dbbuf_sq := db |>) ;;;
  (if mmio then qemit (WriteSqDb tail) else ret tt) ;;;
  modify (fun q => q <| inflight ::= fun n => sext 32 (n + 1) |>).

(** ** Completion *)

Definition cqe_at (q : nvme_queue) (i : Z) : M nvme_queue nvme_completion :=
  match cqes q !! Z.to_nat i with
  | Some e => ret e
  | None => oops OutOfBounds
  end.

Definition cqe_phase (e : nvme_completion) : Z := Z.land (cq_status e) 1.

Definition nvme_cqe_pending : M nvme_queue bool :=
  q <-- get ;; e <-- cqe_at q (cq_head q) ;; ret (cqe_phase e =? cq_phase q).

Definition nvme_ring_cq_doorbell : M nvme_queue unit :=
  q <-- get ;;
  let head := cq_head q in
  let '(db, mmio) := nvme_dbbuf_update_and_check_event head (dbbuf_cq q) in
  modify (fun q => q <| dbbuf_cq := db |>) ;;;
  (if mmio then qemit (WriteCqDb head) else ret tt).

Section queue.
Context (NVME_AQ_BLK_MQ_DEPTH : Z).        (* linux/nvme.h and blk-mq *)

(** What a completion means for the driver. *)
Definition cqe_event (q : nvme_queue) (e : nvme_completion) : qevent :=
  if q_depth q <=? cqe_id e then InvalidId (cqe_id e)
  else if (qid q =? 0) && (NVME_AQ_BLK_MQ_DEPTH <=? cqe_id e) then
    AsyncEvent (cq_status e) (cq_result e)
  else EndRequest (cqe_id e) (cq_status e) (cq_result e).

Definition nvme_handle_cqe (idx : Z) : M nvme_queue unit :=
  q <-- get ;; e <-- cqe_at q idx ;; qemit (cqe_event q e).

(** The loop of [nvme_complete_cqes]; [i] counts its turns. *)
Fixpoint complete_loop (fuel : nat) (start stop i : Z) : M nvme_queue Z :=
  match fuel with
  | O => stall
  | S fuel =>
      if start =? stop then ret i
      else
        nvme_handle_cqe start ;;;
        q <-- get ;;
        modify (fun q => q <| inflight ::= fun n => sext 32 (n - 1) |>) ;;;
        let next := u16 (start + 1) in
        complete_loop fuel (if next =? q_depth q then 0 else next) stop (u32 (i + 1))
  end.

Definition nvme_complete_cqes (jiffies start stop : Z) : M nvme_queue unit :=
  q <-- get ;;
  i <-- complete_loop (S (Z.to_nat (q_depth q))) start stop 0 ;;
  modify (fun q => q <| time_in_queue ::= fun t => u64 (t + i * (jiffies - stamp q)) |>
                     <| stamp := jiffies |>).

Definition nvme_update_cq_head : M nvme_queue unit :=
  q <-- get ;;
  let head := u16 (cq_head q + 1) in
  if head =? q_depth q
  then modify (fun q => q <| cq_head := 0 |> <| cq_phase := if cq_phase q =? 0 then 1 else 0 |>)
  else modify (fun q => q <| cq_head := head |>).

Fixpoint process_loop (fuel : nat) (tag : Z) (found : bool) : M nvme_queue bool :=
  match fuel with
  | O => stall
  | S fuel =>
      if found then ret found
      else
        pending <-- nvme_cqe_pending ;;
        if negb pending then ret found
        else
          q <-- get ;;
          e <-- cqe_at q (cq_head q) ;;
          nvme_update_cq_head ;;;
          process_loop fuel tag (cqe_id e =? tag)
  end.

(** The results are [found], [*start] and [*end]. *)
Definition nvme_process_cq (tag : Z) : M nvme_queue (bool * Z * Z) :=
  q <-- get ;;
  let start := cq_head q in
  found <-- process_loop (S (Z.to_nat (q_depth q))) tag false ;;
  q <-- get ;;
  let stop := cq_head q in
  (if negb (start =? stop) then nvme_ring_cq_doorbell else ret tt) ;;;
  ret (found, start, stop).

Inductive irqreturn := IRQ_NONE | IRQ_HANDLED | IRQ_WAKE_THREAD.

(** The handler rings the doorbell and drops [cq_lock] before it reads the entries
    it took.  Here the pass is one step: a request keeps its tag until its entry
    is completed, and there are fewer tags than entries, so what the device posts
    meanwhile does not reach the entries from [start] to [stop]. *)
Definition nvme_irq (jiffies : Z) : M nvme_queue irqreturn :=
  q <-- get ;;
  let r := if negb (cq_head q =? last_cq_head q) then IRQ_HANDLED else IRQ_NONE in
  unpack (_, start, stop) <-- nvme_process_cq (-1) ;;
  modify (fun q => q <| last_cq_head := cq_head q |>) ;;;
  if negb (start =? stop) then
    nvme_complete_cqes jiffies start stop ;;; ret IRQ_HANDLED
  else ret r.

Definition nvme_irq_check : M nvme_queue irqreturn :=
  pending <-- nvme_cqe_pending ;; ret (if pending then IRQ_WAKE_THREAD else IRQ_NONE).

Definition nvme_poll (jiffies tag : Z) : M nvme_queue bool :=
  pending <-- nvme_cqe_pending ;;
  if negb pending then ret false
  else
    unpack (found, start, stop) <-- nvme_process_cq tag ;;
    nvme_complete_cqes jiffies start stop ;;;
    ret found.

Definition nvme_pci_submit_async_event `{NvmeHdr} : M nvme_queue unit :=
  nvme_submit_cmd (zeroed <| opcode := nvme_admin_async_event |> <| command_id := NVME_AQ_BLK_MQ_DEPTH |>).
End queue.

(** ** Start-up *)

(** The index of a queue's doorbells, in registers and in memory. *)
Definition sq_idx (qid stride : Z) : Z := u32 (qid * 2 * stride).
Definition cq_idx (qid stride : Z) : Z := u32 ((qid * 2 + 1) * stride).

(** [dbs]: the doorbells in memory and their event indices, if the device has
    them; the admin queue does not use them. *)
Definition nvme_dbbuf_init (dbs : option (list dbbuf)) (stride id : Z) (q : nvme_queue) : nvme_queue :=
  match dbs with
  | None => q
  | Some dbs =>
      if id =? 0 then q
      else q <| dbbuf_sq := dbs !! Z.to_nat (sq_idx id stride) |>
             <| dbbuf_cq := dbs !! Z.to_nat (cq_idx id stride) |>
  end.

Definition nvme_init_queue (jiffies : Z) (dbs : option (list dbbuf)) (stride id : Z) (q : nvme_queue)
    : nvme_queue :=
  let q := q <| sq_tail := 0 |> <| cq_head := 0 |> <| cq_phase := 1 |>
             <| cqes := replicate (Z.to_nat (q_depth q)) (mk_cqe 0 0 0) |> in
  let q := nvme_dbbuf_init dbs stride id q in
  q <| inflight := 0 |> <| stamp := jiffies |> <| time_in_queue := 0 |>.
