(* ===== verification/NvmeQueueFacts.v ===== *)
(** * Completion queues: laps and phases *)

From S2P Require Import Prelude Ring Horae NvmeCore NvmeQueue.

(** The phase the device writes for its [j]-th completion. *)
Definition phase_of (d j : Z) : Z := if Z.even (j / d) then 1 else 0.

(** [posted]: the completions the device has put into the queue since it was
    created; [c]: how many of them the driver has taken. *)
Record cq_ok (q : nvme_queue) (posted : list nvme_completion) (c : Z) : Prop := mk_cq_ok {
  co_depth : 2 <= q_depth q < 2 ^ 16;
  co_len : Z.of_nat (length (cqes q)) = q_depth q;
  co_count : 0 <= c <= Z.of_nat (length posted);
  co_room : Z.of_nat (length posted) < c + q_depth q;
  co_head : cq_head q = c mod q_depth q;
  co_phase : cq_phase q = phase_of (q_depth q) c;
  co_live : forall j, c <= j < Z.of_nat (length posted) -> exists e,
    cqes q !! Z.to_nat (j mod q_depth q) = Some e /\ posted !! Z.to_nat j = Some e /\
    cqe_phase e = phase_of (q_depth q) j;
  co_stale : forall j, Z.of_nat (length posted) <= j < c + q_depth q -> exists e,
    cqes q !! Z.to_nat (j mod q_depth q) = Some e /\ cqe_phase e <> phase_of (q_depth q) j;
}.

(** The queue after the driver has taken completions up to the [c]-th. *)
Definition at_head (q : nvme_queue) (c : Z) : nvme_queue :=
  q <| cq_head := c mod q_depth q |> <| cq_phase := phase_of (q_depth q) c |>.

Lemma phase_of_lap d j : 0 < d -> phase_of d (j + d) <> phase_of d j.
Proof.
  intros Hd. unfold phase_of. replace (j + d) with (j + 1 * d) by lia. rewrite Z.div_add by lia.
  rewrite Z.add_1_r, Z.even_succ, <- Z.negb_even. by destruct (Z.even (j / d)).
Qed.

(** Moving one entry ahead, as [++cq_head] with its test does. *)
Lemma lap_step d c :
  0 < d -> (c mod d + 1 = d -> (c + 1) mod d = 0 /\ (c + 1) / d = c / d + 1) /\
  (c mod d + 1 <> d -> (c + 1) mod d = c mod d + 1 /\ (c + 1) / d = c / d).
Proof.
  intros Hd. pose proof (Z.mod_pos_bound c d Hd). pose proof (Z.div_mod c d).
  split; intros E.
  - replace (c + 1) with ((c / d + 1) * d) by lia. rewrite Z.mod_mul, Z.div_mul by lia. done.
  - split; symmetry; [apply (Z.mod_unique _ _ (c / d))|apply (Z.div_unique _ _ _ (c mod d + 1))]; lia.
Qed.

Lemma next_index d c :
  0 < d < 2 ^ 16 ->
  (if u16 (c mod d + 1) =? d then 0 else u16 (c mod d + 1)) = (c + 1) mod d.
Proof.
  intros Hd. pose proof (Z.mod_pos_bound c d ltac:(lia)). destruct (lap_step d c) as [H1 H2]; [lia|].
  rewrite wrap_small by lia. destruct (Z.eqb_spec (c mod d + 1) d) as [E|E].
  - by destruct (H1 E).
  - symmetry. by destruct (H2 E).
Qed.

Lemma at_head_ok q posted c c' :
  cq_ok q posted c -> c <= c' <= Z.of_nat (length posted) -> cq_ok (at_head q c') posted c'.
Proof.
  intros [Hd Hl Hc Hr Hh Hp Hlive Hstale] Hc'.
  assert (Eq : q_depth (at_head q c') = q_depth q) by by destruct q.
  assert (Eqq : cqes (at_head q c') = cqes q) by by destruct q.
  split; rewrite ?Eq, ?Eqq; try done; try lia; try by destruct q.
  - intros j Hj. apply Hlive. lia.
  - intros j Hj. destruct (decide (j < c + q_depth q)); [apply Hstale; lia|].
    destruct (Hlive (j - q_depth q)) as (e & He & _ & Hph); [lia|]. exists e. split.
    + rewrite <- He. f_equal. f_equal. replace (j - q_depth q) with (j + (-1) * q_depth q) by lia.
      by rewrite Z.mod_add by lia.
    + rewrite Hph. replace j with (j - q_depth q + q_depth q) at 2 by lia.
      intros E. by apply (phase_of_lap (q_depth q) (j - q_depth q)); [lia|].
Qed.

Lemma update_head_ok q posted c :
  cq_ok q posted c -> nvme_update_cq_head q = Ret tt (at_head q (c + 1)).
Proof.
  intros [Hd Hl Hc Hr Hh Hp _ _]. unfold nvme_update_cq_head, bind, get, modify.
  pose proof (Z.mod_pos_bound c (q_depth q) ltac:(lia)). destruct (lap_step (q_depth q) c) as [H1 H2]; [lia|].
  rewrite Hh, wrap_small by lia. unfold at_head, phase_of in *.
  destruct (Z.eqb_spec (c mod q_depth q + 1) (q_depth q)) as [E|E].
  - destruct (H1 E) as [-> ->]. rewrite Z.add_1_r, Z.even_succ, <- Z.negb_even, Hp.
    destruct q; unfold update; simpl. by destruct (Z.even _).
  - destruct (H2 E) as [-> ->]. destruct q; unfold update; simpl in *. by rewrite Hp.
Qed.

Lemma at_head_head q c c' : at_head (at_head q c) c' = at_head q c'.
Proof. by destruct q. Qed.

Lemma at_head_self q posted c : cq_ok q posted c -> at_head q c = q.
Proof. intros Hok. unfold at_head. rewrite <- (co_head _ _ _ Hok), <- (co_phase _ _ _ Hok). by destruct q. Qed.

(** The loop stops at the first entry of the last lap, or behind the entry
    that was looked for. *)
Lemma process_loop_ok fuel tag q posted c :
  cq_ok q posted c -> (Z.to_nat (Z.of_nat (length posted) - c) < fuel)%nat ->
  exists found c', process_loop fuel tag false q = Ret found (at_head q c') /\
    c <= c' <= Z.of_nat (length posted) /\
    (if found then exists e, posted !! Z.to_nat (c' - 1) = Some e /\ cqe_id e = tag /\ c < c'
     else c' = Z.of_nat (length posted) /\
          forall j e, c <= j -> posted !! Z.to_nat j = Some e -> cqe_id e <> tag).
Proof.
  revert q c. induction fuel as [|fuel IH]; intros q c Hok Hf; [lia|].
  pose proof Hok as [Hd Hl Hc Hr Hh Hp Hlive Hstale].
  cbn [process_loop]. unfold nvme_cqe_pending, bind, get, cqe_at. rewrite Hh.
  destruct (decide (c = Z.of_nat (length posted))) as [E|E].
  - destruct (Hstale c) as (e & -> & Hph); [lia|]. rewrite <- Hp in Hph.
    unfold ret at 1. rewrite (proj2 (Z.eqb_neq _ _) Hph). cbn [negb].
    exists false, c. split_and!; [|lia..|].
    + by rewrite (at_head_self q posted c).
    + intros j e' Hj He'. apply lookup_lt_Some in He'. lia.
  - destruct (Hlive c) as (e & He & Hpe & Hph); [lia|]. rewrite He. rewrite <- Hp in Hph.
    cbn [ret negb]. unfold ret at 1. rewrite (proj2 (Z.eqb_eq _ _) Hph). cbn [negb]. rewrite Hh, He. unfold ret at 1.
    rewrite (update_head_ok q posted c Hok).
    assert (Hok1 : cq_ok (at_head q (c + 1)) posted (c + 1)) by (apply (at_head_ok q posted c); [done|lia]).
    destruct (Z.eqb_spec (cqe_id e) tag) as [Et|Et].
    + exists true, (c + 1). destruct fuel; [lia|]. split_and!; [done|lia..|].
      exists e. replace (c + 1 - 1) with c by lia. split_and!; [done..|lia].
    + destruct (IH _ _ Hok1) as (found & c' & -> & Hc' & Hres); [lia|].
      exists found, c'. rewrite at_head_head. split_and!; [done|lia..|]. destruct found.
      * destruct Hres as (e' & ? & ? & ?). exists e'. split_and!; [done..|lia].
      * destruct Hres as [-> Hno]. split; [done|]. intros j e' Hj He'.
        destruct (decide (j = c)) as [->|]; [congruence|]. apply (Hno j e'); [lia|done].
Qed.

(** The queue after [n] completions were handled. *)
Definition handled_ (D : Z) (q : nvme_queue) (es : list nvme_completion) : nvme_queue :=
  foldl (fun q e => q <| qlog ::= (.++ [cqe_event D q e]) |> <| inflight ::= fun n => sext 32 (n - 1) |>) q es.

Lemma handled_fields D q es :
  handled_ D q es = q <| qlog := qlog q ++ (cqe_event D q <$> es) |>
                      <| inflight := inflight (handled_ D q es) |>.
Proof.
  revert q. induction es as [|e es IH]; intros q.
  - destruct q; unfold update; simpl. by rewrite app_nil_r.
  - simpl. rewrite IH. simpl. destruct q; unfold update; simpl. f_equal. by rewrite <- app_assoc.
Qed.

Lemma complete_loop_ok D q posted c c' fuel i :
  2 <= q_depth q < 2 ^ 16 -> 0 <= c <= c' -> c' < c + q_depth q ->
  (forall j, c <= j < c' -> exists e,
     cqes q !! Z.to_nat (j mod q_depth q) = Some e /\ posted !! Z.to_nat j = Some e) ->
  (Z.to_nat (c' - c) < fuel)%nat ->
  exists n, complete_loop D fuel (c mod q_depth q) (c' mod q_depth q) i q =
    Ret n (handled_ D q (take (Z.to_nat (c' - c)) (drop (Z.to_nat c) posted))).
Proof.
  revert q c i. induction fuel as [|fuel IH]; intros q c i Hd Hc Hr Hlive Hf; [lia|]. cbn [complete_loop].
  destruct (Z.eqb_spec (c mod q_depth q) (c' mod q_depth q)) as [E|E].
  - assert (c' = c) as ->.
    { symmetry. apply (mod_lap_inj (q_depth q)); lia. }
    exists i. by rewrite Z.sub_diag.
  - assert (Hlt : c < c') by (destruct (decide (c = c')); [congruence|lia]).
    destruct (Hlive c) as (e & He & Hpe); [lia|].
    unfold nvme_handle_cqe, bind, get, cqe_at, qemit, modify. rewrite He. unfold ret at 1.
    set (q1 := q <| qlog ::= _ |> <| inflight ::= _ |>).
    assert (Ed : q_depth q1 = q_depth q) by by destruct q.
    assert (Eq : cqes q1 = cqes q) by by destruct q.
    change (q_depth (q <| qlog ::= (.++ [cqe_event D q e]) |>)) with (q_depth q). rewrite next_index by lia.
    destruct (IH q1 (c + 1) (u32 (i + 1))) as (n & Hn); rewrite ?Ed, ?Eq; [lia..| |lia|].
    + intros j Hj. apply Hlive. lia.
    + exists n. rewrite Ed in Hn. rewrite Hn. f_equal. rewrite (drop_S posted e (Z.to_nat c)) by done.
      replace (Z.to_nat (c' - c)) with (S (Z.to_nat (c' - (c + 1)))) by lia.
      by replace (Z.to_nat (c + 1)) with (S (Z.to_nat c)) by lia.
Qed.

(** ** Whole passes *)

Definition is_completion (e : qevent) : Prop :=
  match e with EndRequest _ _ _ | AsyncEvent _ _ | InvalidId _ => True | _ => False end.
#[export] Instance is_completion_dec e : Decision (is_completion e).
Proof. destruct e; apply _. Defined.

Definition completions (l : list qevent) : list qevent := base.filter is_completion l.

Lemma completions_app l1 l2 : completions (l1 ++ l2) = completions l1 ++ completions l2.
Proof. apply filter_app. Qed.

Lemma completions_events D q es : completions (cqe_event D q <$> es) = cqe_event D q <$> es.
Proof.
  unfold completions. induction es as [|e es IH]; [done|]. rewrite fmap_cons, filter_cons_True, IH; [done|].
  unfold cqe_event. by repeat case_match.
Qed.

(** [q'] differs from [q] in its doorbells and its log only. *)
Definition same_cq (q q' : nvme_queue) : Prop :=
  qid q' = qid q /\ q_depth q' = q_depth q /\ cqes q' = cqes q /\ cq_head q' = cq_head q /\
  cq_phase q' = cq_phase q.

Lemma same_cq_refl q : same_cq q q.
Proof. by split_and!. Qed.

Lemma cq_ok_same q q' posted c : same_cq q q' -> cq_ok q posted c -> cq_ok q' posted c.
Proof.
  intros (_ & Ed & Eq & Eh & Ep) [Hd Hl Hc Hr Hh Hp Hlive Hstale].
  by split; rewrite ?Ed, ?Eq, ?Eh, ?Ep.
Qed.

Lemma cqe_event_same D q q' e : qid q' = qid q -> q_depth q' = q_depth q -> cqe_event D q' e = cqe_event D q e.
Proof. unfold cqe_event. by intros -> ->. Qed.

Lemma ring_cq_doorbell_ok q :
  exists q', nvme_ring_cq_doorbell q = Ret tt q' /\ same_cq q q' /\
    completions (qlog q') = completions (qlog q).
Proof.
  unfold nvme_ring_cq_doorbell, bind, get, modify, qemit.
  destruct (nvme_dbbuf_update_and_check_event _ _) as [db mmio]. destruct mmio; eexists; (split; [reflexivity|]);
    destruct q; simpl; (split; [by split_and!|]); [|done]. by rewrite completions_app, app_nil_r.
Qed.

Lemma process_cq_ok tag q posted c :
  cq_ok q posted c ->
  exists found c' q', nvme_process_cq tag q = Ret (found, c mod q_depth q, c' mod q_depth q) q' /\
    c <= c' <= Z.of_nat (length posted) /\ same_cq (at_head q c') q' /\
    completions (qlog q') = completions (qlog q) /\
    (if found then exists e, posted !! Z.to_nat (c' - 1) = Some e /\ cqe_id e = tag /\ c < c'
     else c' = Z.of_nat (length posted) /\
          forall j e, c <= j -> posted !! Z.to_nat j = Some e -> cqe_id e <> tag).
Proof.
  intros Hok. pose proof Hok as [Hd Hl Hc Hr Hh Hp _ _].
  unfold nvme_process_cq, bind, get.
  destruct (process_loop_ok (S (Z.to_nat (q_depth q))) tag q posted c Hok) as (found & c' & -> & Hc' & Hres); [lia|].
  rewrite Hh. change (cq_head (at_head q c')) with (c' mod q_depth q).
  destruct (negb _).
  - destruct (ring_cq_doorbell_ok (at_head q c')) as (q' & -> & Hsame & Hlog).
    exists found, c', q'. split_and!; [done|lia..| |by rewrite Hlog|done]. done.
  - exists found, c', (at_head q c'). split_and!; [done|lia..|apply same_cq_refl|done|done].
Qed.

Lemma complete_cqes_ok D jiffies q posted c c' :
  cq_ok q posted c' -> 0 <= c <= c' -> c' < c + q_depth q ->
  (forall j, c <= j < c' -> exists e,
     cqes q !! Z.to_nat (j mod q_depth q) = Some e /\ posted !! Z.to_nat j = Some e) ->
  exists q', nvme_complete_cqes D jiffies (c mod q_depth q) (c' mod q_depth q) q = Ret tt q' /\
    cq_ok q' posted c' /\ qid q' = qid q /\ q_depth q' = q_depth q /\
    completions (qlog q') = completions (qlog q) ++
      (cqe_event D q <$> take (Z.to_nat (c' - c)) (drop (Z.to_nat c) posted)).
Proof.
  intros Hok Hc Hr Hlive. pose proof (co_depth _ _ _ Hok) as Hd.
  unfold nvme_complete_cqes, bind, get, modify.
  destruct (complete_loop_ok D q posted c c' (S (Z.to_nat (q_depth q))) 0) as [n ->]; [lia..|done|lia|].
  set (es := take _ _). pose proof (handled_fields D q es) as Eh. eexists. split; [reflexivity|].
  rewrite Eh. split_and!; [| by destruct q..|].
  - eapply cq_ok_same; [|exact Hok]. by destruct q.
  - destruct q; simpl. by rewrite completions_app, completions_events.
Qed.

(** What one pass of the driver over the queue does: nothing, or taking the
    next [c' - c] completions. *)
Definition took (D : Z) (q : nvme_queue) (posted : list nvme_completion) (c c' : Z) (q' : nvme_queue) : Prop :=
  c <= c' <= Z.of_nat (length posted) /\ cq_ok q' posted c' /\
  qid q' = qid q /\ q_depth q' = q_depth q /\
  completions (qlog q') = completions (qlog q) ++
    (cqe_event D q <$> take (Z.to_nat (c' - c)) (drop (Z.to_nat c) posted)).

Lemma took_nothing D q posted c : cq_ok q posted c -> took D q posted c c q.
Proof.
  intros Hok. pose proof (co_count _ _ _ Hok). split_and!; [lia..|done|done|done|].
  rewrite Z.sub_diag. simpl. by rewrite app_nil_r.
Qed.

(** Taking and completing, as the interrupt handler and the poller do. *)
Lemma take_and_complete D jiffies q posted c c' q1 q2 :
  cq_ok q posted c -> c <= c' <= Z.of_nat (length posted) -> same_cq (at_head q c') q1 ->
  completions (qlog q1) = completions (qlog q) -> same_cq q1 q2 -> qlog q2 = qlog q1 ->
  exists q', nvme_complete_cqes D jiffies (c mod q_depth q) (c' mod q_depth q) q2 = Ret tt q' /\
    took D q posted c c' q'.
Proof.
  intros Hok Hc' Hs1 Hl1 Hs2 Hl2. pose proof Hok as [Hd Hl Hc Hr Hh Hp Hlive _].
  assert (Hok2 : cq_ok q2 posted c').
  { eapply cq_ok_same; [exact Hs2|]. eapply cq_ok_same; [exact Hs1|]. by eapply at_head_ok. }
  destruct Hs1 as (I1 & D1 & Q1 & _), Hs2 as (I2 & D2 & Q2 & _).
  change (qid (at_head q c')) with (qid q) in I1. change (q_depth (at_head q c')) with (q_depth q) in D1.
  change (cqes (at_head q c')) with (cqes q) in Q1.
  destruct (complete_cqes_ok D jiffies q2 posted c c' Hok2) as (q' & E & Hok' & I' & D' & L').
  { lia. }
  { rewrite D2, D1. lia. }
  { intros j Hj. rewrite D2, D1, Q2, Q1. destruct (Hlive j) as (e & ? & ? & _); [lia|]. by exists e. }
  rewrite D2, D1 in E. exists q'. split; [done|]. split_and!; [lia..|done|congruence|congruence|].
  rewrite L', Hl2, Hl1. f_equal. apply list_fmap_ext. intros _ e _. apply cqe_event_same; congruence.
Qed.
