(* ===== verification/NvmeQueueTheorems.v ===== *)
(** * Theorems about the queues of the host driver *)

From S2P Require Import Prelude Ring Horae NvmeCore NvmeCoreTheorems NvmeQueue NvmeQueueFacts.

Section passes.
Context (D : Z).

Lemma irq_takes_all jiffies q posted c :
  cq_ok q posted c -> Forall (fun e => 0 <= cqe_id e) posted ->
  exists r q', nvme_irq D jiffies q = Ret r q' /\ took D q posted c (Z.of_nat (length posted)) q' /\
    (c < Z.of_nat (length posted) -> r = IRQ_HANDLED).
Proof.
  intros Hok Hids. pose proof Hok as [Hd _ Hc Hr _ _ _ _]. unfold nvme_irq, bind, get, modify.
  destruct (process_cq_ok (-1) q posted c Hok) as (found & c' & q1 & -> & Hc' & Hs & Hlog & Hres).
  assert (c' = Z.of_nat (length posted)) as ->.
  { destruct found; [|apply Hres]. destruct Hres as (e & He & Hid & _).
    rewrite Forall_forall in Hids. specialize (Hids e (list_elem_of_lookup_2 _ _ _ He)). lia. }
  set (q2 := q1 <| last_cq_head := _ |>).
  assert (Hs2 : same_cq q1 q2) by (subst q2; destruct q1; by split_and!).
  destruct (take_and_complete D jiffies q posted c _ q1 q2 Hok Hc' Hs Hlog Hs2) as (q' & E & Ht);
    [by destruct q1|].
  destruct (Z.eqb_spec (c mod q_depth q) (Z.of_nat (length posted) mod q_depth q)) as [Eq|Eq]; cbn [negb].
  - assert (c = Z.of_nat (length posted)) as Ec by (apply (mod_lap_inj (q_depth q)); lia).
    eexists _, q2. split; [reflexivity|]. split; [|lia]. rewrite <- Ec in *.
    pose proof Hs as (I & Dd & _). split_and!; [lia..| | | |].
    + eapply cq_ok_same; [exact Hs2|]. eapply cq_ok_same; [exact Hs|]. apply (at_head_ok q posted c c); [done|lia].
    + by destruct q1.
    + by destruct q1.
    + rewrite Z.sub_diag in *. simpl in *. rewrite app_nil_r. by destruct q1.
  - rewrite E. by eexists _, q'.
Qed.
End passes.

(** ** The device's side *)

Inductive cq_op :=
| Post (id status result : Z)      (* the device completes a command *)
| Irq (jiffies : Z)
| Poll (jiffies tag : Z).

(** The queue, the completions posted and the number of them taken. *)
Record cq_sys := mk_cq_sys { cq : nvme_queue; posted : list nvme_completion; taken : Z }.

(** The device writes its next slot with the phase of its lap; it waits when
    the queue is full. *)
Definition device_post (id status result : Z) (s : cq_sys) : cq_sys :=
  let d := q_depth (cq s) in
  let p := Z.of_nat (length (posted s)) in
  if p + 1 <? taken s + d then
    let e := mk_cqe id (2 * status + phase_of d p) result in
    mk_cq_sys ((cq s) <| cqes ::= <[Z.to_nat (p mod d) := e]> |>) (posted s ++ [e]) (taken s)
  else s.

(** After a pass the device reads how far the driver's head has moved. *)
Definition after_pass {A} (s : cq_sys) (o : outcome nvme_queue A) : option cq_sys :=
  match o with
  | Ret _ q => Some (mk_cq_sys q (posted s) (taken s + (cq_head q - taken s) mod q_depth q))
  | _ => None
  end.

Definition cq_step (D : Z) (o : cq_op) (s : cq_sys) : option cq_sys :=
  match o with
  | Post id status result => Some (device_post id status result s)
  | Irq jiffies => after_pass s (nvme_irq D jiffies (cq s))
  | Poll jiffies tag => after_pass s (nvme_poll D jiffies tag (cq s))
  end.

Fixpoint cq_run (D : Z) (ops : list cq_op) (s : cq_sys) : option cq_sys :=
  match ops with
  | [] => Some s
  | o :: ops => s' ← cq_step D o s; cq_run D ops s'
  end.

(** A queue just created. *)
Definition fresh_sys (jiffies : Z) (dbs : option (list dbbuf)) (stride id : Z) (q : nvme_queue) : cq_sys :=
  mk_cq_sys (nvme_init_queue jiffies dbs stride id (q <| qlog := [] |>)) [] 0.

(** A posted completion names a command, tags are not negative. *)
Definition op_wf (o : cq_op) : Prop := match o with Post id _ _ => 0 <= id | _ => True end.

Definition sys_ok (D : Z) (s : cq_sys) : Prop :=
  cq_ok (cq s) (posted s) (taken s) /\ Forall (fun e => 0 <= cqe_id e) (posted s) /\
  completions (qlog (cq s)) = cqe_event D (cq s) <$> take (Z.to_nat (taken s)) (posted s).

Lemma phase_bit st ph : ph = 0 \/ ph = 1 -> Z.land (2 * st + ph) 1 = ph.
Proof.
  intros Hph. change 1 with (Z.ones 1) at 1. rewrite Z.land_ones by lia. change (2 ^ 1) with 2.
  rewrite Z.mul_comm, Z.add_comm, Z.mod_add by lia. apply Z.mod_small. lia.
Qed.

Lemma post_ok D id st res s : 0 <= id -> sys_ok D s -> sys_ok D (device_post id st res s).
Proof.
  intros Hid (Hok & Hids & Hlog). unfold device_post. set (d := q_depth (cq s)). set (p := Z.of_nat (length (posted s))).
  destruct (Z.ltb_spec (p + 1) (taken s + d)) as [Hroom|]; [|done].
  set (e := mk_cqe id _ res). pose proof Hok as [Hd Hl Hc Hr Hh Hp Hlive Hstale]. fold d p in Hd, Hl, Hc, Hr, Hh, Hp, Hlive, Hstale.
  assert (He : cqe_phase e = phase_of d p).
  { apply phase_bit. unfold phase_of. destruct (Z.even _); auto. }
  assert (Hdiff : forall j, j <> p -> Z.abs (j - p) < d -> Z.to_nat (p mod d) <> Z.to_nat (j mod d)).
  { intros j Hne Hj E. apply Hne. apply Z2Nat.inj in E; [|apply Z.mod_pos_bound; lia..].
    symmetry. apply (mod_lap_inj d); lia. }
  assert (Hlen : Z.of_nat (length (posted s ++ [e])) = p + 1) by (rewrite length_app; simpl; lia).
  split_and!; cbn [cq posted taken].
  - split; cbn [posted taken]; rewrite ?Hlen; fold d; simpl; try (done || lia).
    + by rewrite length_insert.
    + intros j Hj. fold d in Hj |- *. destruct (decide (j = p)) as [->|].
      * exists e. rewrite list_lookup_insert_eq by (pose proof (Z.mod_pos_bound p d ltac:(lia)); lia).
        subst p. by rewrite Nat2Z.id, list_lookup_middle.
      * rewrite list_lookup_insert_ne by (apply Hdiff; lia).
        destruct (Hlive j) as (e' & ? & He' & ?); [lia|]. exists e'. split_and!; [done| |done].
        apply lookup_app_l_Some. done.
    + intros j Hj. rewrite list_lookup_insert_ne by (apply Hdiff; lia). apply Hstale. lia.
  - apply Forall_app. split; [done|]. by apply Forall_singleton.
  - change (completions (qlog (cq s)) = cqe_event D (cq s) <$> take (Z.to_nat (taken s)) (posted s ++ [e])).
    rewrite Hlog, take_app_le; [done|]. lia.
Qed.

Lemma took_ok D s c' q' :
  sys_ok D s -> took D (cq s) (posted s) (taken s) c' q' ->
  taken s + (cq_head q' - taken s) mod q_depth q' = c' /\ sys_ok D (mk_cq_sys q' (posted s) c').
Proof.
  intros (Hok & Hids & Hlog) (Hc' & Hok' & Ei & Ed & Hl'). pose proof Hok as [Hd _ Hc Hr _ _ _ _].
  split.
  - rewrite (co_head _ _ _ Hok'), Ed, Zminus_mod_idemp_l, Z.mod_small; lia.
  - split_and!; simpl; [done..|]. rewrite Hl', Hlog, <- fmap_app.
    rewrite (list_fmap_ext (cqe_event D q') (cqe_event D (cq s))) by (intros; by apply cqe_event_same).
    f_equal. rewrite <- (take_drop (Z.to_nat (taken s)) (posted s)) at 3.
    rewrite take_app, take_take, length_take. f_equal; [f_equal; lia|f_equal; lia].
Qed.

Lemma poll_takes D jiffies tag q ps c :
  cq_ok q ps c ->
  exists found c' q', nvme_poll D jiffies tag q = Ret found q' /\ took D q ps c c' q'.
Proof.
  intros Hok. pose proof Hok as [Hd Hl Hc Hr Hh Hp Hlive Hstale]. unfold nvme_poll, nvme_cqe_pending, bind, get.
  assert (He : exists e, cqes q !! Z.to_nat (cq_head q) = Some e).
  { apply lookup_lt_is_Some. rewrite Hh. pose proof (Z.mod_pos_bound c (q_depth q) ltac:(lia)). lia. }
  destruct He as [e He]. unfold cqe_at. rewrite He. unfold ret at 1 2. destruct (negb _).
  - exists false, c, q. split; [done|]. by apply took_nothing.
  - destruct (process_cq_ok tag q ps c Hok) as (found & c' & q1 & -> & Hc' & Hs & Hlog & Hres).
    destruct (take_and_complete D jiffies q ps c c' q1 q1 Hok Hc' Hs Hlog (same_cq_refl q1) eq_refl) as (q' & -> & Ht).
    by exists found, c', q'.
Qed.

Lemma cq_step_ok D o s :
  op_wf o -> sys_ok D s -> exists s', cq_step D o s = Some s' /\ sys_ok D s' /\
    (forall j, o = Irq j -> taken s' = Z.of_nat (length (posted s'))).
Proof.
  intros Hw Hs. destruct o as [id st res|j|j tag]; simpl.
  - eexists. split; [reflexivity|]. split; [by apply post_ok|done].
  - destruct (irq_takes_all D j (cq s) (posted s) (taken s)) as (r & q' & -> & Ht & _); [apply Hs|apply Hs|].
    simpl. destruct (took_ok D s _ q' Hs Ht) as [-> Hok]. eexists. split; [reflexivity|]. done.
  - destruct (poll_takes D j tag (cq s) (posted s) (taken s)) as (found & c' & q' & -> & Ht); [apply Hs|].
    simpl. destruct (took_ok D s c' q' Hs Ht) as [-> Hok]. eexists. split; [reflexivity|]. done.
Qed.

Lemma fresh_sys_ok D jiffies dbs stride id q :
  2 <= q_depth q < 2 ^ 16 -> sys_ok D (fresh_sys jiffies dbs stride id q).
Proof.
  intros Hd. split_and!; [|constructor|].
  - assert (Ed : q_depth (cq (fresh_sys jiffies dbs stride id q)) = q_depth q).
    { simpl. unfold nvme_init_queue, nvme_dbbuf_init. destruct dbs, (id =? 0), q; done. }
    assert (Eq : cqes (cq (fresh_sys jiffies dbs stride id q)) = replicate (Z.to_nat (q_depth q)) (mk_cqe 0 0 0)).
    { simpl. unfold nvme_init_queue, nvme_dbbuf_init. destruct dbs, (id =? 0), q; done. }
    split; rewrite ?Ed, ?Eq, ?length_replicate; simpl; try lia.
    + rewrite Zmod_0_l. unfold nvme_init_queue, nvme_dbbuf_init. destruct dbs, (id =? 0), q; done.
    + unfold phase_of. rewrite Zdiv_0_l. unfold nvme_init_queue, nvme_dbbuf_init. destruct dbs, (id =? 0), q; done.
    + intros j Hj. exists (mk_cqe 0 0 0). rewrite Z.mod_small by lia. split; [apply lookup_replicate_2; lia|].
      unfold phase_of. by rewrite Z.div_small by lia.
  - simpl. unfold nvme_init_queue, nvme_dbbuf_init. destruct dbs, (id =? 0), q; done.
Qed.

(** C24: Completions are handled exactly once and in order: on a queue just
    created, whatever completions the device posts (as long as it does not
    overrun the queue) and however interrupts and polls are interleaved with
    them, the driver does not fault or loop, and what it has done to requests
    is what the completions it took say, one after the other: none is skipped,
    handled twice or read before the device wrote it.  After an interrupt all
    posted completions have been taken. *)
Theorem completions_handled_once D jiffies dbs stride id q ops :
  2 <= q_depth q < 2 ^ 16 -> Forall op_wf ops ->
  exists s, cq_run D ops (fresh_sys jiffies dbs stride id q) = Some s /\
    completions (qlog (cq s)) = cqe_event D (cq s) <$> take (Z.to_nat (taken s)) (posted s) /\
    0 <= taken s <= Z.of_nat (length (posted s)) /\
    (forall j, last ops = Some (Irq j) -> taken s = Z.of_nat (length (posted s))).
Proof.
  intros Hd Hw. pose proof (fresh_sys_ok D jiffies dbs stride id q Hd) as Hs. revert Hs.
  generalize (fresh_sys jiffies dbs stride id q). induction ops as [|o ops IH]; intros s Hs.
  - exists s. split_and!; [done|apply Hs|apply Hs|apply Hs|done].
  - apply Forall_cons in Hw as [Hwo Hw]. destruct (cq_step_ok D o s Hwo Hs) as (s1 & E & Hs1 & Hirq).
    destruct (IH Hw s1 Hs1) as (s2 & R & Hl & Ht & Hlast). exists s2. cbn [cq_run]. rewrite E. cbn [mbind option_bind].
    split_and!; [done..| |lia|lia|].
    + done.
    + intros j Hj. destruct ops as [|o' ops']; [|by apply (Hlast j)].
      simpl in R. injection R as <-. injection Hj as ->. by apply (Hirq j).
Qed.

(** ** Submission *)

(** The doorbell in memory moves from [old] to [new]: did it pass [event]? *)
Definition passes_event (old new event : Z) : Prop :=
  exists k, 0 <= k < u16 (new - old) /\ event = u16 (old + k).

Lemma need_event_passes event new old :
  0 <= event < 2 ^ 16 -> 0 <= new < 2 ^ 16 -> 0 <= old < 2 ^ 16 ->
  nvme_dbbuf_need_event event new old = true <-> passes_event old new event.
Proof.
  intros He Hn Ho. unfold nvme_dbbuf_need_event, passes_event, wrap. pow2_consts. rewrite Z.ltb_lt.
  assert (Hm : forall x, -65536 <= x < 65536 -> x mod 65536 = if x <? 0 then x + 65536 else x)
    by (intros; apply mod_unwrap_neg; lia).
  rewrite (Hm (new - event - 1)), (Hm (new - old)) by lia. split.
  - intros Hlt. exists ((event - old) mod 65536). rewrite Zplus_mod_idemp_r.
    replace (old + (event - old)) with event by lia. rewrite (Z.mod_small event), (Hm (event - old)) by lia.
    revert Hlt. zcases; lia.
  - intros (k & Hk & ->). revert Hk. assert (Hk' : forall y, 0 <= y < 2 * 65536 -> y mod 65536 = if y <? 65536 then y else y - 65536)
      by (intros; apply mod_unwrap; lia).
    zcases; intros Hk; rewrite Hk' in * by lia; revert Hk; zcases; lia.
Qed.

(** The submission queue: the commands at the device's disposal are in the
    slots before the tail. *)
Definition sq_ok (q : nvme_queue) : Prop :=
  2 <= q_depth q < 2 ^ 16 /\ Z.of_nat (length (sq_cmds q)) = q_depth q /\ 0 <= sq_tail q < q_depth q.

(** One submission, from any well-formed submission queue. *)
Lemma submit_cmd_ok cmd q :
  sq_ok q -> (forall d, dbbuf_sq q = Some d -> 0 <= db_event d < 2 ^ 16 /\ 0 <= db_value d < 2 ^ 16) ->
  runs (nvme_submit_cmd cmd) q (fun _ q' =>
    sq_ok q' /\ sq_tail q' = (sq_tail q + 1) mod q_depth q /\
    sq_cmds q' = <[Z.to_nat (sq_tail q) := cmd]> (sq_cmds q) /\
    db_value <$> dbbuf_sq q' = (fun _ => sq_tail q') <$> dbbuf_sq q /\
    exists rung, qlog q' = qlog q ++ (if rung : bool then [WriteSqDb (sq_tail q')] else []) /\
      (rung = true <-> match dbbuf_sq q with
                       | None => True
                       | Some d => passes_event (db_value d) (sq_tail q') (db_event d)
                       end)).
Proof.
  intros (Hd & Hl & Ht) Hdb. unfold nvme_submit_cmd, runs, bind, get, modify, qemit, check.
  destruct (Z.ltb_spec (sq_tail q) (Z.of_nat (length (sq_cmds q)))); [|lia].
  assert (Etail : (if u16 (sq_tail q + 1) =? q_depth q then 0 else u16 (sq_tail q + 1)) = (sq_tail q + 1) mod q_depth q).
  { rewrite <- (next_index (q_depth q) (sq_tail q)) by lia. by rewrite (Z.mod_small (sq_tail q)) by lia. }
  cbv zeta. rewrite Etail. set (t := (sq_tail q + 1) mod q_depth q).
  assert (Hb : 0 <= t < q_depth q) by (apply Z.mod_pos_bound; lia).
  unfold ret at 1. destruct (dbbuf_sq q) as [d|] eqn:Edb; cbn [nvme_dbbuf_update_and_check_event].
  - destruct (Hdb d eq_refl) as [He Hv]. rewrite !wrap_small by lia.
    pose proof (need_event_passes (db_event d) t (db_value d) He ltac:(lia) Hv) as Hne.
    destruct (nvme_dbbuf_need_event _ _ _); unfold ret, sq_ok; destruct q; simpl in *;
      (split_and!; [lia|lia|rewrite length_insert; lia|lia|lia|done|done|done|]).
    + exists true. split; [done|]. by rewrite <- Hne.
    + exists false. rewrite app_nil_r. split; [done|]. by rewrite <- Hne.
  - unfold sq_ok. destruct q; simpl in *; subst.
    (split_and!; [lia|lia|rewrite length_insert; lia|lia|lia|done|done|done|]). by exists true.
Qed.

(** Submitting a command never faults; it puts the command into the slot
    at the old tail, leaves the other slots alone, moves the tail to the next
    slot around the ring, and makes the new tail known: the doorbell in memory
    holds it, and the register is written with it exactly when there is no
    doorbell in memory or the device asked, by its event index, to be told
    about one of the indices passed. *)
Theorem submit_rings_doorbell_when_needed cmd q :
  sq_ok q -> (forall d, dbbuf_sq q = Some d -> 0 <= db_event d < 2 ^ 16 /\ 0 <= db_value d < 2 ^ 16) ->
  runs (nvme_submit_cmd cmd) q (fun _ q' =>
    sq_ok q' /\ sq_tail q' = (sq_tail q + 1) mod q_depth q /\
    sq_cmds q' = <[Z.to_nat (sq_tail q) := cmd]> (sq_cmds q) /\
    db_value <$> dbbuf_sq q' = (fun _ => sq_tail q') <$> dbbuf_sq q /\
    exists rung, qlog q' = qlog q ++ (if rung : bool then [WriteSqDb (sq_tail q')] else []) /\
      (rung = true <-> match dbbuf_sq q with
                       | None => True
                       | Some d => passes_event (db_value d) (sq_tail q') (db_event d)
                       end)).
Proof. apply submit_cmd_ok. Qed.

(** ** The theorems on a queue of four entries *)

Definition queue0 : nvme_queue :=
  mk_queue 1 4 0 (replicate 4 zeroed) 0 (replicate 4 (mk_cqe 0 0 0)) 0 0 1
    (Some (mk_dbbuf 0 0)) None 0 0 0 [].

Lemma completions_handled_once_witness :
  exists s, cq_run 32 [Post 2 0 7; Post 3 0 8; Poll 1 2; Post 1 0 9; Post 0 0 9; Irq 2]
              (fresh_sys 0 None 1 1 queue0) = Some s /\
    taken s = Z.of_nat (length (posted s)).
Proof.
  destruct (completions_handled_once 32 0 None 1 1 queue0
    [Post 2 0 7; Post 3 0 8; Poll 1 2; Post 1 0 9; Post 0 0 9; Irq 2]) as (s & E & _ & _ & Ht).
  - split; [vm_compute; congruence|reflexivity].
  - repeat constructor; vm_compute; congruence.
  - exists s. split; [exact E|exact (Ht 2 eq_refl)].
Defined.

Lemma submit_rings_doorbell_when_needed_witness :
  runs (nvme_submit_cmd zeroed) queue0 (fun _ q' => sq_tail q' = 1).
Proof.
  eapply runs_conseq.
  - apply (submit_rings_doorbell_when_needed zeroed queue0).
    + repeat split; vm_compute; congruence.
    + intros d [= <-]. repeat split; vm_compute; congruence.
  - intros [] q' (_ & E & _). exact E.
Defined.
