(* ===== verification/NvmePrp.v ===== *)
(** * The NVMe host driver: describing the data of a command (nvme-host/pci.c)

    The memory of a request is a scatter list of segments; the device reads it
    through physical region pages (PRPs) or scatter gather descriptors (SGLs).
    Lists of them that do not fit the command are kept in pages from two DMA
    pools, chained through their last entry. *)

From S2P Require Import Prelude Ring Horae NvmeCore.

Definition DIV_ROUND_UP (n d : Z) : Z := (n + d - 1) / d.

(** A segment: its DMA address and length. *)
Definition segment : Type := Z * Z.

(** ** State

    [lists] and [sgl_lists] are the pages the pointers at
    [nvme_pci_iod_list(req)] refer to, with their DMA addresses; a list holds
    the entries written so far.  [list_slots] is the number of pointers the
    memory behind the scatter list has room for.  The pools are the addresses
    their next allocations return. *)

Record nvme_iod := mk_iod {
  iod_npages : Z;
  first_dma : Z;
  lists : list (Z * list Z);
  sgl_lists : list (Z * list nvme_sgl_desc);
  list_slots : Z;
  prp_small_pool : list Z;
  prp_page_pool : list Z;
  freed : list (bool * nat * Z);      (* dma_pool_free: small pool?, pointer, address *)
}.

#[export] Instance eta_nvme_iod : Eta nvme_iod := fun d =>
  mk_iod (iod_npages d) (first_dma d) (lists d) (sgl_lists d) (list_slots d) (prp_small_pool d)
    (prp_page_pool d) (freed d).

Definition dma_pool_alloc (small : bool) : M nvme_iod (option Z) := fun d =>
  match if small then prp_small_pool d else prp_page_pool d with
  | [] => Ret None d
  | a :: rest =>
      Ret (Some a) (if small then d <| prp_small_pool := rest |> else d <| prp_page_pool := rest |>)
  end.

Section sizes.
Context (page_size PAGE_SIZE_ sizeof_scatterlist : Z).

Definition NVME_INT_PAGES : Z := 2.
Definition NVME_INT_BYTES : Z := NVME_INT_PAGES * page_size.
Definition sizeof_sgl_desc : Z := 16.
Definition SGES_PER_PAGE : Z := PAGE_SIZE_ / sizeof_sgl_desc.
Definition NVME_MAX_KB_SZ : Z := 4096.
Definition NVME_MAX_SEGS : Z := 127.

(** How many pages the pointers of a request of [size] bytes may need. *)
Definition nvme_npages (size : Z) : Z :=
  let nprps := u32 (DIV_ROUND_UP (u32 (size + page_size)) page_size) in
  DIV_ROUND_UP (u32 (8 * nprps)) (PAGE_SIZE_ - 8).

Definition nvme_pci_npages_sgl (num_seg : Z) : Z := DIV_ROUND_UP (num_seg * sizeof_sgl_desc) PAGE_SIZE_.

Definition nvme_pci_iod_alloc_size (size nseg : Z) (use_sgl : bool) : Z :=
  let alloc_size := 8 * (if use_sgl then nvme_pci_npages_sgl nseg else nvme_npages size) in
  u32 (alloc_size + sizeof_scatterlist * nseg).

Definition nvme_pci_cmd_size (sizeof_iod : Z) (use_sgl : bool) : Z :=
  u32 (sizeof_iod + nvme_pci_iod_alloc_size NVME_INT_BYTES NVME_INT_PAGES use_sgl).

(** The mempool elements [nvme_probe] sets up. *)
Definition mempool_size : Z := nvme_pci_iod_alloc_size NVME_MAX_KB_SZ NVME_MAX_SEGS true.

(** The pointers that fit behind a scatter list of [nseg] entries. *)
Definition slots_behind (alloc_size nseg : Z) : Z := (alloc_size - sizeof_scatterlist * nseg) / 8.

(** [sgls]: the controller's SGL support; [qid]: 0 on the admin queue. *)
Definition nvme_pci_use_sgls (sgl_threshold sgls qid nseg payload : Z) : bool :=
  if nseg =? 0 then false
  else
    let avg_seg_size := u32 (DIV_ROUND_UP payload nseg) in
    if Z.land sgls 3 =? 0 then false
    else if qid =? 0 then false
    else if (sgl_threshold =? 0) || (avg_seg_size <? sgl_threshold) then false
    else true.

(** Is the scatter list taken from the mempool? *)
Definition nvme_init_iod_from_pool (nseg size : Z) : bool :=
  (NVME_INT_PAGES <? nseg) || (NVME_INT_BYTES <? size).

(** ** PRPs *)

(** [prp_list[i++] = x] on the current list. *)
Definition prp_put (x : Z) : M nvme_iod unit := fun d =>
  match last (lists d) with
  | None => Oops NullDeref
  | Some (a, es) => Ret tt (d <| lists := removelast (lists d) ++ [(a, es ++ [x])] |>)
  end.

(** A new list: the last entry of the old one moves to it and is replaced by
    its address.  [false]: no memory. *)
Definition prp_next_list (small : bool) : M nvme_iod bool :=
  a <-- dma_pool_alloc small ;;
  match a with
  | None => ret false
  | Some dma => fun d =>
      if list_slots d <=? iod_npages d then Oops OutOfBounds
      else
        match last (lists d) with
        | Some (a0, es) =>
            match last es with
            | Some e =>
                Ret true (d <| lists := removelast (lists d) ++ [(a0, removelast es ++ [dma]); (dma, [e])] |>
                            <| iod_npages ::= fun n => n + 1 |>)
            | None => Oops OutOfBounds
            end
        | None => Oops NullDeref
        end
  end.

(** [if (i == page_size >> 3)]; [i] is the number of entries written. *)
Definition prp_turn (small : bool) : M nvme_iod bool := fun d =>
  match last (lists d) with
  | None => Oops NullDeref
  | Some (_, es) =>
      if Z.of_nat (length es) =? Z.shiftr page_size 3 then prp_next_list small d else Ret true d
  end.

Fixpoint prp_loop (fuel : nat) (small : bool) (length_ dma_len dma_addr : Z) (sg : list segment)
    : M nvme_iod blk_status_t :=
  match fuel with
  | O => stall
  | S fuel =>
      ok <-- prp_turn small ;;
      if negb ok then ret BLK_STS_RESOURCE
      else
        prp_put dma_addr ;;;
        let dma_len := dma_len - page_size in
        let dma_addr := u64 (dma_addr + page_size) in
        let length_ := length_ - page_size in
        if length_ <=? 0 then ret BLK_STS_OK
        else if 0 <? dma_len then prp_loop fuel small length_ dma_len dma_addr sg
        else if dma_len <? 0 then ret BLK_STS_IOERR
        else
          match sg with
          | [] => oops NullDeref                      (* sg_next returned NULL *)
          | (a, l) :: sg => prp_loop fuel small length_ l a sg
          end
  end.

(** The result and the data pointer (meaningful with BLK_STS_OK). *)
Definition nvme_pci_setup_prps (payload : Z) (sgl : list segment) : M nvme_iod (blk_status_t * data_ptr) :=
  match sgl with
  | [] => oops NullDeref
  | (addr0, len0) :: sg =>
      let finish := d <-- get ;; ret (BLK_STS_OK, PRP addr0 (first_dma d)) in
      let offset := Z.land addr0 (page_size - 1) in
      let length_ := payload - (page_size - offset) in
      if length_ <=? 0 then
        modify (fun d => d <| first_dma := 0 |>) ;;; finish
      else
        let dma_len := len0 - (page_size - offset) in
        let second :=
          if negb (dma_len =? 0) then Some (u64 (addr0 + (page_size - offset)), dma_len, sg)
          else match sg with [] => None | (a, l) :: sg => Some (a, l, sg) end in
        match second with
        | None => oops NullDeref
        | Some (dma_addr, dma_len, sg) =>
            if length_ <=? page_size then
              modify (fun d => d <| first_dma := dma_addr |>) ;;; finish
            else
              let nprps := DIV_ROUND_UP length_ page_size in
              let small := nprps <=? 256 / 8 in
              modify (fun d => d <| iod_npages := if small then 0 else 1 |>) ;;;
              a <-- dma_pool_alloc small ;;
              match a with
              | None =>
                  modify (fun d => d <| first_dma := dma_addr |> <| iod_npages := -1 |>) ;;;
                  ret (BLK_STS_RESOURCE, PRP 0 0)
              | Some prp_dma =>
                  d <-- get ;;
                  check (1 <=? list_slots d) OutOfBounds ;;;
                  modify (fun d => d <| lists := [(prp_dma, [])] |> <| first_dma := prp_dma |>) ;;;
                  st <-- prp_loop (S (Z.to_nat nprps)) small length_ dma_len dma_addr sg ;;
                  if bool_decide (st = BLK_STS_OK) then finish else ret (st, PRP 0 0)
              end
        end
  end.

(** ** SGLs *)

Section sgls.
Context `{NvmeHdr}.

Definition nvme_pci_sgl_set_data (sg : segment) : nvme_sgl_desc :=
  mk_sgl (u64 sg.1) (u32 sg.2) (u8 (Z.shiftl NVME_SGL_FMT_DATA_DESC 4)).

Definition nvme_pci_sgl_set_seg (dma_addr entries : Z) : nvme_sgl_desc :=
  if entries <? SGES_PER_PAGE then
    mk_sgl (u64 dma_addr) (u32 (entries * sizeof_sgl_desc)) (u8 (Z.shiftl NVME_SGL_FMT_LAST_SEG_DESC 4))
  else mk_sgl (u64 dma_addr) (u32 PAGE_SIZE_) (u8 (Z.shiftl NVME_SGL_FMT_SEG_DESC 4)).

Definition sgl_put (x : nvme_sgl_desc) : M nvme_iod unit := fun d =>
  match last (sgl_lists d) with
  | None => Oops NullDeref
  | Some (a, es) => Ret tt (d <| sgl_lists := removelast (sgl_lists d) ++ [(a, es ++ [x])] |>)
  end.

Definition sgl_next_list (small : bool) (entries : Z) : M nvme_iod bool :=
  a <-- dma_pool_alloc small ;;
  match a with
  | None => ret false
  | Some dma => fun d =>
      if list_slots d <=? iod_npages d then Oops OutOfBounds
      else
        match last (sgl_lists d) with
        | Some (a0, es) =>
            match last es with
            | Some link =>
                Ret true (d <| sgl_lists := removelast (sgl_lists d) ++
                                 [(a0, removelast es ++ [nvme_pci_sgl_set_seg dma entries]); (dma, [link])] |>
                            <| iod_npages ::= fun n => n + 1 |>)
            | None => Oops OutOfBounds
            end
        | None => Oops NullDeref
        end
  end.

Definition sgl_turn (small : bool) (entries : Z) : M nvme_iod bool := fun d =>
  match last (sgl_lists d) with
  | None => Oops NullDeref
  | Some (_, es) =>
      if Z.of_nat (length es) =? SGES_PER_PAGE then sgl_next_list small entries d else Ret true d
  end.

(** [do .. while (--entries > 0)] *)
Fixpoint sgl_loop (fuel : nat) (small : bool) (entries : Z) (sg : list segment) : M nvme_iod blk_status_t :=
  match fuel with
  | O => stall
  | S fuel =>
      ok <-- sgl_turn small entries ;;
      if negb ok then ret BLK_STS_RESOURCE
      else
        match sg with
        | [] => oops NullDeref
        | s :: sg =>
            sgl_put (nvme_pci_sgl_set_data s) ;;;
            let entries := entries - 1 in
            if 0 <? entries then sgl_loop fuel small entries sg else ret BLK_STS_OK
        end
  end.

(** The caller sets the command's flags to NVME_CMD_SGL_METABUF. *)
Definition nvme_pci_setup_sgls (entries : Z) (sgl : list segment) : M nvme_iod (blk_status_t * data_ptr) :=
  if entries =? 1 then
    match sgl with
    | [] => oops NullDeref
    | s :: _ => ret (BLK_STS_OK, SGL (nvme_pci_sgl_set_data s))
    end
  else
    let small := entries <=? 256 / sizeof_sgl_desc in
    modify (fun d => d <| iod_npages := if small then 0 else 1 |>) ;;;
    a <-- dma_pool_alloc small ;;
    match a with
    | None => modify (fun d => d <| iod_npages := -1 |>) ;;; ret (BLK_STS_RESOURCE, PRP 0 0)
    | Some sgl_dma =>
        d <-- get ;;
        check (1 <=? list_slots d) OutOfBounds ;;;
        modify (fun d => d <| sgl_lists := [(sgl_dma, [])] |> <| first_dma := sgl_dma |>) ;;;
        st <-- sgl_loop (S (Z.to_nat entries)) small entries sgl ;;
        ret (st, SGL (nvme_pci_sgl_set_seg sgl_dma entries))
    end.
End sgls.

(** ** Giving the lists back

    The address of the next list is read from the last entry of a full one;
    an entry that was never written reads as anything, here 0. *)

Definition next_list (use_sgl : bool) (i : nat) (d : nvme_iod) : option Z :=
  if use_sgl then
    '(_, es) ← sgl_lists d !! i;
    Some (default 0 (sgl_addr <$> es !! Z.to_nat (SGES_PER_PAGE - 1)))
  else
    '(_, es) ← lists d !! i;
    Some (default 0 (es !! Z.to_nat (page_size / 8 - 1))).

Fixpoint free_loop (use_sgl : bool) (n : nat) (i : nat) (dma_addr : Z) : M nvme_iod unit :=
  match n with
  | O => ret tt
  | S n => fun d =>
      match next_list use_sgl i d with
      | None => Oops NullDeref
      | Some next => free_loop use_sgl n (S i) next (d <| freed ::= (.++ [(false, i, dma_addr)]) |>)
      end
  end.

Definition free_lists (use_sgl : bool) : M nvme_iod unit :=
  d <-- get ;;
  (if iod_npages d =? 0 then
     modify (fun d => d <| freed ::= (.++ [(true, 0%nat, first_dma d)]) |>) else ret tt) ;;;
  free_loop use_sgl (Z.to_nat (iod_npages d)) 0 (first_dma d).
End sizes.
