(* ===== verification/NvmePrpFacts.v ===== *)
(** * Chains of PRP lists and the bytes they describe *)

From S2P Require Import Prelude Ring Horae NvmeCore NvmePrp.

(** ** Chains

    [chain cap ls E]: the lists [ls], each full but the last and linked through
    their last entries, hold the entries [E]. *)

Fixpoint chain (cap : nat) (ls : list (Z * list Z)) (E : list Z) : Prop :=
  match ls with
  | [] => False
  | (_, es) :: rest =>
      match rest with
      | [] => E = es /\ (length es <= cap)%nat
      | (b, _) :: _ => exists es0 E', es = es0 ++ [b] /\ S (length es0) = cap /\
          E = es0 ++ E' /\ (2 <= length E')%nat /\ chain cap rest E'
      end
  end.

(** The end of a chain can be replaced by another chain at the same address. *)
Lemma chain_replace cap ls a es E :
  chain cap (ls ++ [(a, es)]) E ->
  (length es <= cap)%nat /\ (ls <> [] -> (2 <= length es)%nat) /\
  exists P, E = P ++ es /\ length P = (length ls * (cap - 1))%nat /\
    forall es' rest F, chain cap ((a, es') :: rest) F -> (ls = [] \/ 2 <= length F)%nat ->
      chain cap (ls ++ (a, es') :: rest) (P ++ F).
Proof.
  revert E. induction ls as [|[a0 es0] ls IH]; intros E HE.
  - destruct HE as [-> Hl]. split_and!; [done..|]. exists []. split_and!; [done..|]. done.
  - destruct ls as [|[b esb] ls].
    + destruct HE as (e0 & E' & -> & Hc & -> & H2 & [-> Hl]). split_and!; [done..|].
      exists e0. split_and!; [done|simpl; lia|]. intros es' rest F HF HF2. simpl.
      exists e0, F. split_and!; try done. destruct HF2; [done|lia].
    + destruct HE as (e0 & E' & -> & Hc & -> & H2 & HE').
      destruct (IH E' HE') as (Hl & Hl2 & P & -> & HP & Hrep). split_and!; [done|by intros; apply Hl2|].
      exists (e0 ++ P). split_and!.
      * by rewrite app_assoc.
      * rewrite length_app, HP. simpl. lia.
      * intros es' rest F HF HF2. rewrite <- app_assoc. simpl. exists e0, (P ++ F).
        split_and!; [done..| |].
        -- rewrite length_app. destruct HF2; [done|lia].
        -- apply (Hrep es' rest F); [done|]. right. by destruct HF2.
Qed.

Lemma chain_length cap ls a es E :
  chain cap (ls ++ [(a, es)]) E -> length E = (length ls * (cap - 1) + length es)%nat.
Proof.
  intros HE. destruct (chain_replace _ _ _ _ _ HE) as (_ & _ & P & -> & HP & _). rewrite length_app. lia.
Qed.

(** Appending an entry, on the current list or on a new one. *)
Lemma chain_put cap ls a es E x :
  (2 <= cap)%nat -> chain cap (ls ++ [(a, es)]) E -> (length es < cap)%nat ->
  chain cap (ls ++ [(a, es ++ [x])]) (E ++ [x]).
Proof.
  intros Hcap HE Hlt. destruct (chain_replace _ _ _ _ _ HE) as (_ & H2 & P & -> & _ & Hrep).
  rewrite <- app_assoc. apply Hrep.
  - split; [done|]. rewrite length_app. simpl. lia.
  - destruct ls; [by left|]. right. rewrite length_app. simpl. specialize (H2 ltac:(done)). lia.
Qed.

Lemma chain_next cap ls a es e E dma x :
  (2 <= cap)%nat -> chain cap (ls ++ [(a, es ++ [e])]) E -> S (length es) = cap ->
  chain cap (ls ++ [(a, es ++ [dma]); (dma, [e; x])]) (E ++ [x]).
Proof.
  intros Hcap HE Hl. destruct (chain_replace _ _ _ _ _ HE) as (_ & H2 & P & -> & _ & Hrep).
  rewrite <- !app_assoc. apply Hrep.
  - exists es, [e; x]. by split_and!.
  - right. rewrite length_app. simpl. lia.
Qed.

(** ** The device's view

    [mem]: the list at an address.  A list ends with its page; when it has
    more entries to give than fit, its last entry is the address of the next
    list (NVM Express, Physical Region Page list). *)

Section device.
Context (page_size : Z).

Fixpoint prp_walk (fuel : nat) (mem : Z -> option (list Z)) (addr : Z) (need : nat) : option (list Z) :=
  match fuel with
  | O => None
  | S fuel =>
      es ← mem addr;
      let cap := Z.to_nat ((page_size - addr mod page_size) / 8) in
      if (need <=? cap)%nat then if (need <=? length es)%nat then Some (take need es) else None
      else
        next ← es !! (cap - 1)%nat;
        rest ← prp_walk fuel mem next (need - (cap - 1));
        Some (take (cap - 1) es ++ rest)
  end.

(** The bytes of [n] bytes of data in the given pages. *)
Definition page_bytes (n : Z) (pages : list Z) : list Z :=
  take (Z.to_nat n) (concat ((fun a => seqZ a page_size) <$> pages)).

(** The addresses of the [payload] bytes a command's PRPs describe. *)
Definition device_bytes (fuel : nat) (mem : Z -> option (list Z)) (payload prp1 prp2 : Z) : option (list Z) :=
  let first := page_size - prp1 mod page_size in
  if payload <=? first then Some (seqZ prp1 payload)
  else
    let rest := payload - first in
    pages ← (if rest <=? page_size then Some [prp2]
             else prp_walk fuel mem prp2 (Z.to_nat (DIV_ROUND_UP rest page_size)));
    Some (seqZ prp1 first ++ page_bytes rest pages).
End device.

(** The list at an address. *)
Definition list_at (ls : list (Z * list Z)) (a : Z) : option (list Z) :=
  snd <$> (snd <$> list_find (fun l => l.1 = a) ls).

Lemma list_at_elem ls a es :
  NoDup ls.*1 -> (a, es) ∈ ls -> list_at ls a = Some es.
Proof.
  intros Hnd Hin. unfold list_at. induction ls as [|[b es'] ls IH]; [by apply elem_of_nil in Hin|].
  apply NoDup_cons in Hnd as [Hb Hnd]. simpl. case_decide as E; simpl in E.
  - subst b. apply elem_of_cons in Hin as [Hin|Hin]; [by injection Hin as ->|].
    exfalso. apply Hb. apply list_elem_of_fmap. by exists (a, es).
  - apply elem_of_cons in Hin as [Hin|Hin]; [congruence|]. specialize (IH Hnd Hin). simpl in IH.
    destruct (list_find _ ls) as [[i y]|]; [|done]. by injection IH as <-.
Qed.

(** Walking a chain gives its entries. *)
Lemma walk_chain page_size cap mem ls a es E fuel :
  (2 <= cap)%nat ->
  (forall b, b ∈ ls.*1 -> (cap <= Z.to_nat ((page_size - b mod page_size) / 8))%nat) ->
  ((1 < length ls)%nat -> forall b, b ∈ ls.*1 -> Z.to_nat ((page_size - b mod page_size) / 8) = cap) ->
  (forall b es', (b, es') ∈ ls -> mem b = Some es') ->
  ls !! 0%nat = Some (a, es) -> chain cap ls E -> (length ls <= fuel)%nat ->
  prp_walk page_size fuel mem a (length E) = Some E.
Proof.
  intros Hcap. revert a es E fuel. induction ls as [|[a0 es0] ls IH]; intros a es E fuel Hge Heq Hmem Hhd HE Hf; [done|].
  simpl in Hhd. injection Hhd as -> ->. destruct fuel as [|fuel]; [simpl in Hf; lia|].
  cbn [prp_walk]. rewrite (Hmem a es) by left. cbn [mbind option_bind].
  destruct ls as [|[b esb] ls].
  - destruct HE as [-> Hl]. specialize (Hge a ltac:(left)).
    rewrite (proj2 (Nat.leb_le _ _)) by lia. rewrite Nat.leb_refl. by rewrite firstn_all.
  - destruct HE as (e0 & E' & -> & Hc & -> & H2 & HE').
    rewrite (Heq ltac:(simpl; lia) a ltac:(left)). rewrite length_app.
    rewrite (proj2 (Nat.leb_gt _ _)) by lia. rewrite lookup_app_r by lia.
    replace (cap - 1 - length e0)%nat with 0%nat by lia. cbn [lookup list_lookup mbind option_bind].
    replace (length e0 + length E' - (cap - 1))%nat with (length E') by lia.
    rewrite (IH b esb E' fuel); [| | | |done|done|simpl in *; lia].
    + cbn [mbind option_bind]. rewrite take_app_length'; [done|lia].
    + intros b' Hb'. apply Hge. by right.
    + intros Hl b' Hb'. apply Heq; [simpl; lia|by right].
    + intros b' es' Hb'. apply Hmem. by right.
Qed.

Lemma take_seqZ a l k : 0 <= k <= l -> take (Z.to_nat k) (seqZ a l) = seqZ a k.
Proof.
  intros Hk. replace l with (k + (l - k)) by lia. rewrite seqZ_app by lia.
  by rewrite take_app_length' by (by rewrite length_seqZ).
Qed.

(** ** Filling the lists *)

Section fill.
Context (page_size : Z) (cap : nat) (Hps : page_size = 8 * Z.of_nat cap) (Hcap : (32 <= cap)%nat).

(** What filling changes: lists are added from the page pool. *)
Record filled (d d' : nvme_iod) : Prop := mk_filled {
  fl_slots : list_slots d' = list_slots d;
  fl_first : first_dma d' = first_dma d;
  fl_freed : freed d' = freed d;
  fl_new : exists new, prp_page_pool d = new ++ prp_page_pool d' /\
             (lists d').*1 = (lists d).*1 ++ new;
}.

Record fill_ok (small : bool) (d : nvme_iod) (E : list Z) : Prop := mk_fill_ok {
  fo_chain : chain cap (lists d) E;
  fo_count : if small then length (lists d) = 1%nat /\ iod_npages d = 0
             else iod_npages d = Z.of_nat (length (lists d));
}.

Lemma filled_refl d : filled d d.
Proof. split; try done. exists []. by rewrite app_nil_r. Qed.

Lemma filled_trans d1 d2 d3 : filled d1 d2 -> filled d2 d3 -> filled d1 d3.
Proof.
  intros [S1 F1 R1 (n1 & P1 & L1)] [S2 F2 R2 (n2 & P2 & L2)]. split; try congruence.
  exists (n1 ++ n2). by rewrite P1, P2, L2, L1, !app_assoc.
Qed.

Lemma chain_snoc ls E : chain cap ls E -> exists ls0 a es, ls = ls0 ++ [(a, es)].
Proof.
  intros HE. destruct ls as [|x ls] using rev_ind; [done|]. destruct x as [a es]. by exists ls, a, es.
Qed.

Lemma put_last x d ls a es :
  lists d = ls ++ [(a, es)] -> prp_put x d = Ret tt (d <| lists := ls ++ [(a, es ++ [x])] |>).
Proof. intros E. unfold prp_put. rewrite E, last_snoc. by rewrite removelast_last. Qed.

Lemma shift3 : Z.shiftr page_size 3 = Z.of_nat cap.
Proof using Hps. clear Hcap. rewrite Z.shiftr_div_pow2 by lia. change (2 ^ 3) with 8. rewrite Hps, Z.mul_comm. by apply Z.div_mul. Qed.

(** One turn of the loop: the entry is appended, or the pool is empty. *)
Lemma turn_put_ok small d E x m :
  fill_ok small d E -> (length E < m)%nat -> (small = true -> (m <= cap)%nat) ->
  (small = false -> Z.of_nat m <= list_slots d * (Z.of_nat cap - 1)) ->
  (prp_turn page_size small d = Ret false d /\ prp_page_pool d = [] /\ small = false) \/
  exists d1 d', prp_turn page_size small d = Ret true d1 /\ prp_put x d1 = Ret tt d' /\
    fill_ok small d' (E ++ [x]) /\ filled d d'.
Proof using Hps Hcap.
  intros [HE Hcount] Hm Hsmall Hslots.
  destruct (chain_snoc _ _ HE) as (ls & a & es & El). rewrite El in HE.
  destruct (chain_replace _ _ _ _ _ HE) as (Hles & H2 & _). pose proof (chain_length _ _ _ _ _ HE) as Hlen.
  unfold prp_turn. rewrite El, last_snoc, shift3.
  destruct (Z.eqb_spec (Z.of_nat (length es)) (Z.of_nat cap)) as [Efull|Efull].
  - (* the current list is full *)
    destruct small.
    { exfalso. destruct Hcount as [Hone _]. rewrite El, length_app in Hone. simpl in Hone.
      specialize (Hsmall eq_refl). assert (length ls = 0)%nat by lia. lia. }
    specialize (Hslots eq_refl). unfold prp_next_list, bind, dma_pool_alloc.
    destruct (prp_page_pool d) as [|dma pool] eqn:Epool; [left; by split_and!|right].
    assert (Hn : iod_npages d < list_slots d).
    { rewrite Hcount, El, length_app. simpl. nia. }
    destruct (list_slots d <=? iod_npages d) eqn:Eb; [apply Z.leb_le in Eb; lia|].
    change (list_slots (d <| prp_page_pool := pool |>)) with (list_slots d).
    change (iod_npages (d <| prp_page_pool := pool |>)) with (iod_npages d). rewrite Eb.
    change (lists (d <| prp_page_pool := pool |>)) with (lists d). rewrite El, last_snoc.
    destruct es as [|e es _] using rev_ind; [simpl in *; lia|]. rewrite last_snoc, !removelast_last.
    eexists _, _. split; [reflexivity|]. split.
    { eapply (put_last _ _ (ls ++ [(a, es ++ [dma])]) dma [e]). destruct d; simpl. by rewrite <- app_assoc. }
    rewrite length_app in Efull. simpl in Efull. split.
    + split.
      * assert (Hch := chain_next cap ls a es e E dma x ltac:(lia) HE ltac:(lia)).
        destruct d; simpl. by rewrite <- app_assoc.
      * destruct d; simpl in *. rewrite !length_app in *. simpl. rewrite El, length_app in Hcount. simpl in Hcount. lia.
    + split; [by destruct d..|]. exists [dma]. destruct d; simpl in *. subst. split; [done|].
      rewrite !fmap_app. simpl. by rewrite <- app_assoc.
  - right. eexists d, _. split; [done|]. split; [by apply put_last|]. split.
    + split; [destruct d; simpl in *; apply chain_put; [lia|done|lia]|].
      destruct d; simpl in *. subst. by rewrite !length_app in *.
    + split; [by destruct d..|]. exists []. destruct d; simpl in *. subst. rewrite app_nil_r, !fmap_app. done.
Qed.

(** ** The pages of a scatter list

    Every segment but the first of a request begins at a page boundary and
    every segment but the last ends at one (the queue's [virt_boundary]). *)

Fixpoint prp_tail (segs : list segment) : Prop :=
  match segs with
  | [] => True
  | (a, l) :: rest =>
      a mod page_size = 0 /\ 0 < l /\ 0 <= a /\ a + l <= 2 ^ 64 /\
      (rest <> [] -> l mod page_size = 0) /\ prp_tail rest
  end.

Definition total (segs : list segment) : Z := foldr (fun s n => s.2 + n) 0 segs.

Definition bytes_of (segs : list segment) : list Z := concat ((fun s => seqZ s.1 s.2) <$> segs).

Lemma total_nonneg segs : prp_tail segs -> 0 <= total segs.
Proof using Type. clear Hps Hcap. induction segs as [|[a l] segs IH]; simpl; [lia|]. intros (_ & ? & _ & _ & _ & ?). specialize (IH ltac:(done)). lia. Qed.

Lemma multiple_ge l : 0 < l -> l mod page_size = 0 -> page_size <= l.
Proof using Hps Hcap. intros Hl E. destruct (Z.lt_ge_cases l page_size); [|done]. rewrite Z.mod_small in E by lia. lia. Qed.

(** A loop that still has [n] bytes to describe returns, and either the pool
    was exhausted or the pages it appended hold these bytes. *)
Lemma prp_loop_ok small m fuel n l a sg d E :
  fill_ok small d E -> prp_tail ((a, l) :: sg) -> 0 < n <= l + total sg ->
  (length E + Z.to_nat (DIV_ROUND_UP n page_size) <= m)%nat ->
  (small = true -> (m <= cap)%nat) ->
  (small = false -> Z.of_nat m <= list_slots d * (Z.of_nat cap - 1)) ->
  (Z.to_nat (DIV_ROUND_UP n page_size) < fuel)%nat ->
  exists st d', prp_loop page_size fuel small n l a sg d = Ret st d' /\ filled d d' /\
    exists pages, fill_ok small d' (E ++ pages) /\
    ((st = BLK_STS_RESOURCE /\ prp_page_pool d' = [] /\ small = false) \/
     (st = BLK_STS_OK /\ length pages = Z.to_nat (DIV_ROUND_UP n page_size) /\
      page_bytes page_size n pages = take (Z.to_nat n) (bytes_of ((a, l) :: sg)))).
Proof using Hps Hcap.
  revert n l a sg d E. induction fuel as [|fuel IH]; intros n l a sg d E Hok Ht Hn Hm Hsm Hsl Hf; [lia|].
  pose proof Ht as (Ha & Hl & Ha0 & Hal & Hmul & Ht'). pose proof (total_nonneg sg Ht') as Htot.
  assert (Hps0 : 0 < page_size) by lia.
  assert (Hup : 1 <= DIV_ROUND_UP n page_size).
  { unfold DIV_ROUND_UP. apply Z.div_le_lower_bound; lia. }
  cbn [prp_loop]. unfold bind.
  destruct (turn_put_ok small d E a m Hok) as [(-> & Hp & Hsmall)|(d1 & d2 & E1 & E2 & Hok2 & Hfr)]; [lia|done|done| |].
  { cbn [negb ret]. eexists _, d. split; [reflexivity|]. split; [apply filled_refl|].
    exists []. rewrite app_nil_r. split; [done|]. by left. }
  rewrite E1. cbn [negb]. rewrite E2. cbv zeta.
  assert (Hbytes : forall k, 0 <= k -> take (Z.to_nat k) (bytes_of ((a, l) :: sg)) =
            take (Z.to_nat k) (seqZ a l ++ bytes_of sg)) by done.
  destruct (Z.leb_spec (n - page_size) 0) as [Hlast|Hmore].
  - (* the last page *)
    assert (Hone : DIV_ROUND_UP n page_size = 1).
    { unfold DIV_ROUND_UP. symmetry. apply (Z.div_unique _ _ _ (n - 1)); lia. }
    assert (Hnl : n <= l).
    { destruct sg as [|s sg]; [simpl in *; lia|]. pose proof (multiple_ge l Hl (Hmul ltac:(done))). lia. }
    eexists _, d2. split; [reflexivity|]. split; [done|]. exists [a]. split; [done|]. right. split; [done|].
    rewrite Hone. split; [done|]. unfold page_bytes. simpl. rewrite app_nil_r, Hbytes by lia.
    rewrite take_app_le by (rewrite length_seqZ; lia).
    by rewrite !take_seqZ by lia.
  - assert (Hup' : DIV_ROUND_UP n page_size = 1 + DIV_ROUND_UP (n - page_size) page_size).
    { unfold DIV_ROUND_UP. replace (n + page_size - 1) with (n - page_size + page_size - 1 + 1 * page_size) by lia.
      rewrite Z.div_add by lia. lia. }
    assert (Hgoal : forall l' a' sg',
      prp_tail ((a', l') :: sg') -> n - page_size <= l' + total sg' ->
      (forall k, 0 <= k -> take (Z.to_nat (page_size + k)) (bytes_of ((a, l) :: sg)) =
         seqZ a page_size ++ take (Z.to_nat k) (bytes_of ((a', l') :: sg'))) ->
      exists st d', prp_loop page_size fuel small (n - page_size) l' a' sg' d2 = Ret st d' /\ filled d d' /\
        exists pages, fill_ok small d' (E ++ pages) /\
        ((st = BLK_STS_RESOURCE /\ prp_page_pool d' = [] /\ small = false) \/
         (st = BLK_STS_OK /\ length pages = Z.to_nat (DIV_ROUND_UP n page_size) /\
          page_bytes page_size n pages = take (Z.to_nat n) (bytes_of ((a, l) :: sg))))).
    { intros l' a' sg' Ht2 Hn2 Hsplit.
      destruct (IH (n - page_size) l' a' sg' d2 (E ++ [a])) as (st & d' & -> & Hfr' & pages & Hok' & Hres);
        [done|done|lia| |done| |lia|].
      { rewrite length_app. simpl. lia. }
      { intros Es. rewrite (fl_slots _ _ Hfr). by apply Hsl. }
      exists st, d'. split; [done|]. split; [by eapply filled_trans|]. exists (a :: pages).
      split; [by rewrite <- app_assoc in Hok'|]. destruct Hres as [?|(-> & Hlp & Hbp)]; [by left|right].
      split; [done|]. split; [simpl; lia|]. replace n with (page_size + (n - page_size)) at 2 by lia.
      rewrite Hsplit by lia. rewrite <- Hbp. unfold page_bytes. simpl.
      replace (Z.to_nat n) with (length (seqZ a page_size) + Z.to_nat (n - page_size))%nat by (rewrite length_seqZ; lia).
      by rewrite take_app_add. }
    destruct (Z.ltb_spec 0 (l - page_size)) as [Hin|Hend].
    + (* the segment goes on *)
      assert (Ew : u64 (a + page_size) = a + page_size) by (apply wrap_small; lia). rewrite Ew.
      apply Hgoal.
      * simpl. split_and!; [|lia..| |done].
        -- rewrite <- (Z.mul_1_l page_size) at 1. by rewrite Z.mod_add by lia.
        -- intros Hs. specialize (Hmul Hs). replace (l - page_size) with (l + (-1) * page_size) by lia.
           by rewrite Z.mod_add by lia.
      * lia.
      * intros k Hk. rewrite Hbytes by lia. unfold bytes_of. simpl.
        replace l with (page_size + (l - page_size)) at 1 by lia. rewrite seqZ_app by lia. rewrite <- app_assoc.
        replace (Z.to_nat (page_size + k)) with (length (seqZ a page_size) + Z.to_nat k)%nat by (rewrite length_seqZ; lia).
        by rewrite take_app_add.
    + assert (Hsg : sg <> []) by (intros ->; simpl in *; lia).
      pose proof (multiple_ge l Hl (Hmul Hsg)) as Hge.
      destruct (Z.ltb_spec (l - page_size) 0); [lia|]. assert (El : l = page_size) by lia.
      destruct sg as [|[a' l'] sg']; [done|]. apply Hgoal; [done|simpl in *; lia|].
      intros k Hk. rewrite Hbytes by lia. rewrite El.
      replace (Z.to_nat (page_size + k)) with (length (seqZ a page_size) + Z.to_nat k)%nat by (rewrite length_seqZ; lia).
      by rewrite take_app_add.
Qed.
End fill.
