(* ===== verification/NvmePrpTheorems.v ===== *)
(** * Theorems about the data pointers of commands *)

From S2P Require Import Prelude Ring Horae NvmeCore NvmeCoreTheorems NvmePrp NvmePrpFacts.

(** A request as the block layer maps it: the queue's [virt_boundary] keeps
    the inner ends of segments on page boundaries; fresh list bookkeeping
    ([nvme_init_iod]); pools whose pages are aligned and distinct; room for as
    many pointers as [nvme_npages] computes. *)
Record prp_ready (ps : Z) (cap : nat) (sgl : list segment) (payload : Z) (d : nvme_iod) : Prop := mk_prp_ready {
  pr_size : ps = 8 * Z.of_nat cap /\ (32 <= cap)%nat /\ exists k, 0 <= k /\ ps = 2 ^ k;
  pr_first : exists a0 l0 sg, sgl = (a0, l0) :: sg /\ 0 <= a0 /\ 0 < l0 /\ a0 + l0 <= 2 ^ 64 /\
    (sg <> [] -> (a0 + l0) mod ps = 0) /\ prp_tail ps sg;
  pr_payload : 0 < payload <= total sgl /\ payload + ps < 2 ^ 29;
  pr_slots : nvme_npages ps ps payload <= list_slots d;
  pr_fresh : lists d = [] /\ iod_npages d = -1;
  pr_pages : NoDup (prp_page_pool d) /\ Forall (fun a => a mod ps = 0) (prp_page_pool d);
  pr_small : Forall (fun a => a mod 256 = 0) (prp_small_pool d);
}.

Lemma land_page ps k a : 0 <= k -> ps = 2 ^ k -> Z.land a (ps - 1) = a mod ps.
Proof.
  intros Hk ->. replace (2 ^ k - 1) with (Z.ones k) by (rewrite Z.ones_equiv; lia). by apply Z.land_ones.
Qed.

(** The pointers fit: [m] entries need no more lists than [nvme_npages] of a
    payload they are part of. *)
Lemma npages_enough ps cap payload slots m :
  ps = 8 * Z.of_nat cap -> (32 <= cap)%nat -> 0 <= payload -> payload + ps < 2 ^ 29 ->
  nvme_npages ps ps payload <= slots -> m <= DIV_ROUND_UP (payload + ps) ps ->
  m <= slots * (Z.of_nat cap - 1) /\ 1 <= slots.
Proof.
  intros Hps Hcap Hp Hlt Hs Hm. unfold nvme_npages in Hs.
  set (n := DIV_ROUND_UP (payload + ps) ps) in *.
  assert (Hn : 1 <= n <= payload + ps).
  { unfold n, DIV_ROUND_UP. split; [apply Z.div_le_lower_bound; lia|]. apply Z.div_le_upper_bound; nia. }
  assert (2 ^ 29 < 2 ^ 32) by done. assert (2 ^ 32 = 8 * 2 ^ 29) by done.
  rewrite (wrap_small 32 (payload + ps)) in Hs by lia. fold n in Hs.
  rewrite (wrap_small 32 n) in Hs by lia. rewrite (wrap_small 32 (8 * n)) in Hs by lia.
  set (c := Z.of_nat cap) in *. replace (ps - 8) with (8 * (c - 1)) in Hs by lia.
  unfold DIV_ROUND_UP in Hs.
  assert (Hdiv : 8 * n <= slots * (8 * (c - 1))).
  { pose proof (Z.div_mod (8 * n + 8 * (c - 1) - 1) (8 * (c - 1)) ltac:(lia)) as E.
    pose proof (Z.mod_pos_bound (8 * n + 8 * (c - 1) - 1) (8 * (c - 1)) ltac:(lia)). nia. }
  split; nia.
Qed.

(** The segment list behind the first page of a request. *)
Definition behind_first (ps a0 l0 : Z) (sg : list segment) : option (Z * Z * list segment) :=
  let left := ps - a0 mod ps in
  if negb (l0 - left =? 0) then Some (u64 (a0 + left), l0 - left, sg)
  else match sg with [] => None | (a, l) :: sg => Some (a, l, sg) end.

(** A segment that ends on a page boundary covers its first page. *)
Lemma first_covers ps a0 l0 :
  0 < ps -> 0 <= a0 -> 0 < l0 -> (a0 + l0) mod ps = 0 -> ps - a0 mod ps <= l0.
Proof.
  intros Hps Ha0 Hl0 Hend. pose proof (Z.mod_pos_bound a0 ps Hps).
  destruct (Z.lt_ge_cases l0 (ps - a0 mod ps)); [exfalso|done].
  assert (E : (a0 + l0) mod ps = a0 mod ps + l0); [|lia].
  symmetry. apply (Z.mod_unique _ _ (a0 / ps)); [left; lia|]. pose proof (Z.div_mod a0 ps). lia.
Qed.

Lemma behind_first_ok ps cap a0 l0 sg payload :
  ps = 8 * Z.of_nat cap -> (32 <= cap)%nat -> 0 <= a0 -> 0 < l0 -> a0 + l0 <= 2 ^ 64 ->
  (sg <> [] -> (a0 + l0) mod ps = 0) -> prp_tail ps sg ->
  ps - a0 mod ps < payload <= l0 + total sg ->
  exists a l sg', behind_first ps a0 l0 sg = Some (a, l, sg') /\ prp_tail ps ((a, l) :: sg') /\
    payload - (ps - a0 mod ps) <= l + total sg' /\
    bytes_of ((a0, l0) :: sg) = seqZ a0 (ps - a0 mod ps) ++ bytes_of ((a, l) :: sg').
Proof.
  intros Hps Hcap Ha0 Hl0 Hal Hend Ht Hp. unfold behind_first. set (left := ps - a0 mod ps) in *.
  pose proof (Z.mod_pos_bound a0 ps ltac:(lia)) as Hm. pose proof (total_nonneg ps sg Ht) as Htot.
  assert (Hmod : (a0 + left) mod ps = 0).
  { unfold left. pose proof (Z.div_mod a0 ps ltac:(lia)).
    replace (a0 + (ps - a0 mod ps)) with ((a0 / ps + 1) * ps) by lia. apply Z.mod_mul. lia. }
  assert (Hge : left <= l0).
  { destruct sg as [|s sg]; [simpl in *; lia|]. apply first_covers; try lia. by apply Hend. }
  destruct (Z.eqb_spec (l0 - left) 0) as [E|E]; cbn [negb].
  - destruct sg as [|[a l] sg']; [simpl in *; lia|]. exists a, l, sg'. split_and!; [done..|simpl in *; lia|].
    unfold bytes_of. simpl. by replace l0 with left by lia.
  - exists (u64 (a0 + left)), (l0 - left), sg. rewrite wrap_small by lia. split; [done|]. split.
    + simpl. split_and!; [done|lia..| |done]. intros Hs. specialize (Hend Hs).
      rewrite <- (Z.mod_add (l0 - left) ((a0 + left) / ps) ps) by lia.
      rewrite <- Hend at 1. f_equal. pose proof (Z.div_mod (a0 + left) ps). lia.
    + split; [lia|]. unfold bytes_of. simpl. rewrite app_assoc, <- seqZ_app by lia. f_equal. f_equal. lia.
Qed.

(** How a set-up ends: without a list, or with a chain of lists. *)
Inductive prp_end (ps : Z) (cap : nat) (payload : Z) (sgl : list segment) (d : nvme_iod)
    (r : blk_status_t * data_ptr) (d' : nvme_iod) : Prop :=
| end_direct : lists d' = [] -> iod_npages d' = -1 -> freed d' = freed d ->
    (r.1 = BLK_STS_RESOURCE /\ (prp_small_pool d = [] \/ prp_page_pool d = [])) \/
    (exists p1 p2, r = (BLK_STS_OK, PRP p1 p2) /\
       forall fuel mem, device_bytes ps fuel mem payload p1 p2 = Some (take (Z.to_nat payload) (bytes_of sgl))) ->
    prp_end ps cap payload sgl d r d'
| end_lists small a rest E : fill_ok cap small d' E -> freed d' = freed d ->
    (lists d').*1 = a :: rest -> first_dma d' = a ->
    (if small then a ∈ prp_small_pool d /\ (length E <= 32)%nat
     else exists pool, prp_page_pool d = (a :: rest) ++ pool) ->
    (r.1 = BLK_STS_RESOURCE /\ prp_page_pool d' = []) \/
    (exists p1 rest_bytes, r = (BLK_STS_OK, PRP p1 a) /\
       ps < payload - (ps - p1 mod ps) /\ length E = Z.to_nat (DIV_ROUND_UP (payload - (ps - p1 mod ps)) ps) /\
       take (Z.to_nat payload) (bytes_of sgl) = seqZ p1 (ps - p1 mod ps) ++ rest_bytes /\
       page_bytes ps (payload - (ps - p1 mod ps)) E = rest_bytes) ->
    prp_end ps cap payload sgl d r d'.

(** The part of a set-up that needs lists. *)
Lemma setup_lists_ok ps cap sgl payload d a0 n a l sg small d1 prp_dma :
  prp_ready ps cap sgl payload d ->
  n = payload - (ps - a0 mod ps) -> ps < n -> prp_tail ps ((a, l) :: sg) -> n <= l + total sg ->
  bytes_of sgl = seqZ a0 (ps - a0 mod ps) ++ bytes_of ((a, l) :: sg) ->
  small = (DIV_ROUND_UP n ps <=? 32) ->
  d1 = d <| iod_npages := if small then 0 else 1 |> ->
  dma_pool_alloc small d1 = Ret (Some prp_dma)
    (if small then d1 <| prp_small_pool := drop 1 (prp_small_pool d) |>
     else d1 <| prp_page_pool := drop 1 (prp_page_pool d) |>) ->
  (if small then prp_small_pool d else prp_page_pool d) = prp_dma :: drop 1 (if small then prp_small_pool d else prp_page_pool d) ->
  let d2 := (if small then d1 <| prp_small_pool := drop 1 (prp_small_pool d) |>
             else d1 <| prp_page_pool := drop 1 (prp_page_pool d) |>)
            <| lists := [(prp_dma, [])] |> <| first_dma := prp_dma |> in
  exists st d', prp_loop ps (S (Z.to_nat (DIV_ROUND_UP n ps))) small n l a sg d2 = Ret st d' /\
    prp_end ps cap payload sgl d (if bool_decide (st = BLK_STS_OK) then (BLK_STS_OK, PRP a0 (first_dma d'))
                                  else (st, PRP 0 0)) d'.
Proof.
  intros Hr En Hn Ht Htot Hb Esm Ed1 _ Epool d2.
  destruct (pr_size _ _ _ _ _ Hr) as (Hps & Hcap & _). destruct (pr_payload _ _ _ _ _ Hr) as [Hpay Hlt].
  assert (Hps0 : 256 <= ps) by lia. pose proof (Z.mod_pos_bound a0 ps ltac:(lia)) as Hm0.
  set (m := Z.to_nat (DIV_ROUND_UP n ps)).
  assert (Hm : 1 <= DIV_ROUND_UP n ps <= DIV_ROUND_UP (payload + ps) ps).
  { unfold DIV_ROUND_UP. split; [apply Z.div_le_lower_bound; lia|]. apply Z.div_le_mono; lia. }
  destruct (npages_enough ps cap payload (list_slots d) (DIV_ROUND_UP n ps) Hps Hcap ltac:(lia) Hlt
              (pr_slots _ _ _ _ _ Hr) ltac:(lia)) as [Hslots _].
  assert (Esl : list_slots d2 = list_slots d) by (subst d2 d1; destruct small, d; done).
  assert (Hfo : fill_ok cap small d2 []).
  { split; [subst d2 d1; destruct small, d; simpl; (split; [done|lia])|].
    subst d2 d1. destruct small, d; simpl; done. }
  destruct (prp_loop_ok ps cap Hps Hcap small m (S m) n l a sg d2 []) as (st & d' & E & Hfr & pages & Hok & Hres).
  { done. }
  { done. }
  { lia. }
  { simpl. lia. }
  { intros ->. symmetry in Esm. apply Z.leb_le in Esm. lia. }
  { intros _. rewrite Esl. lia. }
  { lia. }
  exists st, d'. split; [done|]. destruct Hfr as [Fs Ff Fr (new & Fp & Fl)]. simpl in Hok.
  assert (Ef2 : first_dma d2 = prp_dma) by (subst d2; destruct small, d1; done).
  assert (El2 : (lists d2).*1 = [prp_dma]) by (subst d2; destruct small, d1; done).
  assert (Er2 : freed d2 = freed d) by (subst d2 d1; destruct small, d; done).
  rewrite El2 in Fl. simpl in Fl. rewrite Ef2 in Ff.
  apply (end_lists _ _ _ _ _ _ _ small prp_dma new pages); try done; [congruence| |].
  - destruct small.
    + rewrite Epool. split; [left|]. symmetry in Esm. apply Z.leb_le in Esm.
      destruct Hok as [Hch [Hone _]]. destruct (lists d') as [|[b es] [|]] eqn:El; try done.
      destruct Hch as [-> Hle]. destruct Hres as [(_ & _ & ?)|(_ & Hlen & _)]; [done|lia].
    + exists (prp_page_pool d'). rewrite Epool. simpl. f_equal.
      rewrite <- Fp. subst d2 d1. by destruct d.
  - destruct Hres as [(-> & Hres & _)|(-> & Hlen & Hbytes)]; [left; by split|right].
    rewrite bool_decide_true by done. exists a0, (page_bytes ps n pages). rewrite Ff, <- En.
    split_and!; [done|lia|done| |done]. rewrite Hb, Hbytes.
    replace (Z.to_nat payload) with (length (seqZ a0 (ps - a0 mod ps)) + Z.to_nat n)%nat by (rewrite length_seqZ; lia).
    apply take_app_add.
Qed.

Lemma setup_prps_ok ps cap sgl payload d :
  prp_ready ps cap sgl payload d ->
  runs (nvme_pci_setup_prps ps payload sgl) d (prp_end ps cap payload sgl d).
Proof.
  intros Hr. destruct (pr_size _ _ _ _ _ Hr) as (Hps & Hcap & k & Hk & Hpk).
  destruct (pr_first _ _ _ _ _ Hr) as (a0 & l0 & sg & -> & Ha0 & Hl0 & Hal & Hend & Ht).
  destruct (pr_payload _ _ _ _ _ Hr) as [Hpay Hlt]. destruct (pr_fresh _ _ _ _ _ Hr) as [Hfl Hfn].
  pose proof (Z.mod_pos_bound a0 ps ltac:(lia)) as Hm0. simpl in Hpay.
  destruct (npages_enough ps cap payload (list_slots d) 1 Hps Hcap ltac:(lia) Hlt
              (pr_slots _ _ _ _ _ Hr)) as [_ Hslot1].
  { unfold DIV_ROUND_UP. apply Z.div_le_lower_bound; lia. }
  unfold nvme_pci_setup_prps. rewrite (land_page ps k) by done. cbv zeta.
  fold (behind_first ps a0 l0 sg). set (first := ps - a0 mod ps) in *.
  destruct (Z.leb_spec (payload - first) 0) as [Hsmallp|Hmore].
  { (* one page *)
    unfold runs, bind, modify, get, ret. apply end_direct; [by destruct d..|]. right. exists a0, 0. split; [by destruct d|].
    intros fuel mem. unfold device_bytes. fold first. rewrite (proj2 (Z.leb_le _ _)) by lia. f_equal.
    assert (Hle : payload <= l0).
    { destruct sg as [|s sg]; [simpl in *; lia|].
      pose proof (first_covers ps a0 l0 ltac:(lia) Ha0 Hl0 (Hend ltac:(done))). lia. }
    unfold bytes_of. simpl. rewrite take_app_le by (rewrite length_seqZ; lia). by rewrite take_seqZ by lia. }
  destruct (behind_first_ok ps cap a0 l0 sg payload Hps Hcap Ha0 Hl0 Hal Hend Ht) as (a & l & sg' & -> & Ht' & Htot' & Hb);
    [fold first; lia|]. fold first in Htot', Hb. pose proof Ht' as (_ & Hl & _). pose proof (total_nonneg ps sg' ltac:(apply Ht')) as Hnn.
  set (n := payload - first) in *.
  destruct (Z.leb_spec n ps) as [Htwo|Hlists].
  { (* two pages *)
    unfold runs, bind, modify, get, ret. apply end_direct; [by destruct d..|]. right. exists a0, a. split; [by destruct d|].
    intros fuel mem. unfold device_bytes. fold first. rewrite (proj2 (Z.leb_gt _ _)) by lia. fold n.
    rewrite (proj2 (Z.leb_le _ _)) by lia. cbn [mbind option_bind]. f_equal. rewrite Hb.
    replace (Z.to_nat payload) with (length (seqZ a0 first) + Z.to_nat n)%nat by (rewrite length_seqZ; lia).
    rewrite take_app_add. f_equal. unfold page_bytes, bytes_of. simpl. rewrite app_nil_r.
    assert (Hnl : n <= l).
    { destruct sg' as [|s sg'']; [simpl in *; lia|]. destruct Ht' as (_ & _ & _ & _ & Hmul & _).
      pose proof (multiple_ge ps cap Hps Hcap l Hl (Hmul ltac:(done))). lia. }
    rewrite take_app_le by (rewrite length_seqZ; lia). by rewrite !take_seqZ by lia. }
  change (256 / 8) with 32. set (small := DIV_ROUND_UP n ps <=? 32).
  apply runs_bind, runs_modify. set (d1 := d <| iod_npages := _ |>).
  apply runs_bind. unfold dma_pool_alloc, runs.
  destruct (if small then prp_small_pool d1 else prp_page_pool d1) as [|prp_dma pool] eqn:Epool.
  { (* no memory for the first list *)
    unfold bind, modify, ret. apply end_direct; [by destruct d..|]. left. split; [done|].
    subst d1. destruct small, d; simpl in *; auto. }
  assert (Epool' : (if small then prp_small_pool d else prp_page_pool d) =
            prp_dma :: drop 1 (if small then prp_small_pool d else prp_page_pool d)).
  { subst d1. destruct small, d; simpl in *; by rewrite Epool. }
  destruct (setup_lists_ok ps cap ((a0, l0) :: sg) payload d a0 n a l sg' small d1 prp_dma Hr) as (st & d' & E & Hend');
    [done|lia|done|lia|done|done|done| |done|].
  { unfold dma_pool_alloc. rewrite Epool. subst d1. destruct small, d; simpl in *; by rewrite Epool. }
  assert (Ed2 : (if small then d1 <| prp_small_pool := pool |> else d1 <| prp_page_pool := pool |>) =
    (if small then d1 <| prp_small_pool := drop 1 (prp_small_pool d) |> else d1 <| prp_page_pool := drop 1 (prp_page_pool d) |>)).
  { subst d1. destruct small, d; simpl in *; by rewrite Epool. }
  rewrite Ed2. unfold bind, get, check. set (d2 := if small then d1 <| prp_small_pool := drop 1 (prp_small_pool d) |>
             else d1 <| prp_page_pool := drop 1 (prp_page_pool d) |>) in *.
  assert (Esl : list_slots d2 = list_slots d) by (subst d2 d1; destruct small, d; done).
  rewrite Esl, (proj2 (Z.leb_le _ _)) by lia. unfold ret at 1, modify at 1. rewrite E.
  by destruct (bool_decide (st = BLK_STS_OK)).
Qed.

Lemma small_page_cap ps b :
  0 < ps -> ps mod 256 = 0 -> b mod 256 = 0 -> (32 <= Z.to_nat ((ps - b mod ps) / 8))%nat.
Proof.
  intros Hps Hp Hb. pose proof (Z.mod_pos_bound b ps Hps).
  assert (Hm : (ps - b mod ps) mod 256 = 0).
  { rewrite Zminus_mod, Hp. replace ((b mod ps) mod 256) with 0; [done|].
    rewrite Z.mod_mod_divide; [done|]. apply Z.mod_divide; lia. }
  assert (256 <= ps - b mod ps).
  { apply Z.mod_divide in Hm as [q Hq]; [|lia]. nia. }
  assert (32 <= (ps - b mod ps) / 8) by (apply Z.div_le_lower_bound; lia). lia.
Qed.

(** Walking the lists a set-up left gives their entries. *)
Lemma walk_lists ps cap sgl payload d d' small a rest E :
  prp_ready ps cap sgl payload d -> fill_ok cap small d' E -> (lists d').*1 = a :: rest ->
  (if small then a ∈ prp_small_pool d /\ (length E <= 32)%nat
   else exists pool, prp_page_pool d = (a :: rest) ++ pool) ->
  prp_walk ps (length (lists d')) (list_at (lists d')) a (length E) = Some E.
Proof.
  intros Hr [Hch Hcount] Ha Hpool. destruct (pr_size _ _ _ _ _ Hr) as (Hps & Hcap & k & Hk & Hpk).
  destruct (lists d') as [|[a1 es] ls] eqn:El; [done|]. simpl in Ha. injection Ha as -> Erest.
  destruct small.
  - destruct Hcount as [Hone _]. destruct ls; [|done]. simpl in Erest. destruct Hpool as [Hin H32].
    destruct Hch as [-> _].
    pose proof (pr_small _ _ _ _ _ Hr) as Hal. rewrite Forall_forall in Hal. specialize (Hal a Hin).
    assert (Hge : (32 <= Z.to_nat ((ps - a mod ps) / 8))%nat).
    { apply small_page_cap; [lia| |done]. rewrite Hpk. apply Z.mod_divide; [lia|].
      exists (2 ^ (k - 8)). change 256 with (2 ^ 8). rewrite <- Z.pow_add_r; [f_equal; lia| |lia].
      destruct (Z.lt_ge_cases k 8); [exfalso|lia]. assert (2 ^ k < 2 ^ 8) by (apply Z.pow_lt_mono_r; lia). change (2 ^ 8) with 256 in *. lia. }
    apply (walk_chain ps 32 _ [(a, es)] a es es 1); simpl; try done; try lia.
    + intros b Hb. by apply list_elem_of_singleton in Hb as ->.
    + intros b es' Hb. apply list_elem_of_singleton in Hb as [= -> ->]. unfold list_at. simpl. by rewrite decide_True.
  - destruct Hpool as [pool Hpool]. destruct (pr_pages _ _ _ _ _ Hr) as [Hnd Hal].
    assert (Eaddr : ((a, es) :: ls).*1 = a :: rest) by (simpl; by rewrite Erest).
    assert (Hfull : forall b, b ∈ ((a, es) :: ls).*1 -> Z.to_nat ((ps - b mod ps) / 8) = cap).
    { intros b Hb. rewrite Eaddr in Hb. rewrite Forall_forall in Hal. rewrite (Hal b).
      - rewrite Z.sub_0_r, Hps, Z.mul_comm, Z.div_mul by lia. lia.
      - rewrite Hpool. apply elem_of_app. by left. }
    apply (walk_chain ps cap _ ((a, es) :: ls) a es); try done; try lia.
    + intros b Hb. rewrite Hfull; [lia|done].
    + intros b es' Hb. apply list_at_elem; [|done]. rewrite Eaddr.
      rewrite Hpool in Hnd. by apply NoDup_app in Hnd as [? _].
Qed.

(** C25: The PRPs a command carries describe exactly its data: for every
    scatter list the block layer may hand over, setting them up returns
    without a fault, and unless a pool ran out of pages, a device that reads
    the two pointers and follows the chain of lists as the standard says finds
    the addresses of the payload's bytes, all of them, in order. *)
Theorem prps_describe_payload ps cap sgl payload d :
  prp_ready ps cap sgl payload d ->
  runs (nvme_pci_setup_prps ps payload sgl) d (fun r d' =>
    (r.1 = BLK_STS_RESOURCE /\ (prp_small_pool d = [] \/ prp_page_pool d = [] \/ prp_page_pool d' = [])) \/
    exists p1 p2, r = (BLK_STS_OK, PRP p1 p2) /\
      device_bytes ps (length (lists d')) (list_at (lists d')) payload p1 p2 =
        Some (take (Z.to_nat payload) (bytes_of sgl))).
Proof.
  intros Hr. eapply runs_conseq; [by apply setup_prps_ok|]. intros r d' Hend.
  destruct Hend as [_ _ _ [[? ?]|(p1 & p2 & -> & Hb)]|small a rest E Hok _ Ha _ Hpool Hres].
  - left. naive_solver.
  - right. exists p1, p2. split; [done|]. apply Hb.
  - destruct Hres as [[? ?]|(p1 & bs & -> & Hn & Hlen & Htake & Hpb)]; [left; auto|right].
    exists p1, a. split; [done|]. pose proof (pr_size _ _ _ _ _ Hr) as (Hps & Hcap & _).
    pose proof (Z.mod_pos_bound p1 ps ltac:(lia)). unfold device_bytes.
    rewrite (proj2 (Z.leb_gt _ _)) by lia. rewrite (proj2 (Z.leb_gt _ _)) by lia.
    rewrite <- Hlen, (walk_lists ps cap sgl payload d d' small a rest E) by done.
    cbn [mbind option_bind]. by rewrite Hpb, Htake.
Qed.

Lemma free_chain ps cap ls E d i dma :
  ps = 8 * Z.of_nat cap -> (32 <= cap)%nat -> chain cap (drop i (lists d)) E ->
  ls = drop i (lists d) -> fst <$> ls !! 0%nat = Some dma ->
  runs (free_loop ps ps false (length ls) i dma) d (fun _ d' =>
    d' = d <| freed ::= (.++ imap (fun j l => (false, (i + j)%nat, l.1)) ls) |>).
Proof.
  intros Hps Hcap. revert i E d dma. induction ls as [|[a es] ls IH]; intros i E d dma HE El Hd; [done|].
  simpl in Hd. injection Hd as ->. cbn [length free_loop]. unfold runs.
  assert (Hi : lists d !! i = Some (dma, es)) by (rewrite <- (Nat.add_0_r i), <- lookup_drop, <- El; done).
  unfold next_list. rewrite Hi. cbn [mbind option_bind].
  assert (El' : ls = drop (S i) (lists d)) by (rewrite <- Nat.add_1_r, <- drop_drop, <- El; done).
  set (d1 := d <| freed ::= (.++ [(false, i, dma)]) |>).
  destruct ls as [|[b esb] ls].
  - cbn [length free_loop]. unfold ret. subst d1. destruct d; unfold update; simpl. by rewrite Nat.add_0_r.
  - rewrite <- El in HE. destruct HE as (es0 & E' & -> & Hc & -> & _ & HE').
    assert (Enext : default 0 ((es0 ++ [b]) !! Z.to_nat (ps / 8 - 1)) = b).
    { rewrite Hps, Z.mul_comm, Z.div_mul by lia.
      replace (Z.to_nat (Z.of_nat cap - 1)) with (length es0) by lia. by rewrite list_lookup_middle. }
    rewrite Enext. specialize (IH (S i) E' d1 b). unfold runs in IH.
    assert (Hl1 : lists d1 = lists d) by by destruct d. rewrite Hl1, <- El' in IH. specialize (IH HE' eq_refl eq_refl).
    destruct (free_loop _ _ _ _ _ _ _) as [x d'| |]; [|done..]. rewrite IH. subst d1. destruct d; unfold update; simpl.
    rewrite Nat.add_0_r, Nat.add_1_r, <- app_assoc. cbn [app]. do 4 f_equal.
    apply imap_ext. intros j x' _. simpl. by rewrite !Nat.add_succ_r.
Qed.

(** The pages a set-up took are in the lists; these were given back. *)
Definition all_freed (d d' : nvme_iod) : Prop :=
  exists small, freed d' = freed d ++ imap (fun i l => (small : bool, i, l.1)) (lists d') /\
    (small = true -> (length (lists d') <= 1)%nat).

(** With no list taken there is none to free. *)
Lemma free_none ps d d' :
  lists d' = [] -> iod_npages d' = -1 -> freed d' = freed d ->
  runs (free_lists ps ps false) d' (fun _ d2 => all_freed d d2).
Proof.
  intros Hl Hn Hf. unfold free_lists, runs, bind, get, ret. rewrite Hn. simpl. unfold runs, bind, ret. exists false.
  rewrite Hl, Hf. simpl. by rewrite app_nil_r.
Qed.

(** Cleaning up after a set-up, from any of its ends. *)
Lemma free_after_setup ps cap payload sgl d r d' :
  ps = 8 * Z.of_nat cap -> (32 <= cap)%nat -> prp_end ps cap payload sgl d r d' ->
  runs (free_lists ps ps false) d' (fun _ d2 => all_freed d d2).
Proof.
  intros Hps Hcap Hend.
  destruct Hend as [Hl Hn Hf _|small a rest E [Hch Hcount] Hf Ha Hfirst _ _]; [by apply free_none|].
  unfold free_lists. apply runs_bind. unfold runs at 1, get.
  - destruct (lists d') as [|[a1 es] ls] eqn:El; [done|]. simpl in Ha. injection Ha as -> Erest.
    destruct small.
    + destruct Hcount as [Hone ->]. destruct ls; [|done]. simpl. unfold runs, bind, modify, ret.
      exists true. destruct d'; simpl in *. subst. split; [done|simpl; lia].
    + rewrite Hcount. rewrite (proj2 (Z.eqb_neq _ _)) by (simpl; lia). rewrite Nat2Z.id, Hfirst.
      apply runs_bind, runs_ret. eapply runs_conseq.
      * apply (free_chain ps cap ((a, es) :: ls) E d' 0 a); [done|done| |by rewrite El, drop_0|done].
        by rewrite El, drop_0.
      * intros x d2 ->. exists false. destruct d'; simpl in *. subst. by split.
Qed.

(** Whether a set-up succeeds or runs out of memory on the way, cleaning
    up after it returns every page it took from the pools exactly once, each
    with the DMA address it was allocated at, which [free_lists] finds by
    following the chain; a set-up that took none returns none. *)
Theorem prp_lists_freed_once ps cap sgl payload d :
  prp_ready ps cap sgl payload d ->
  runs (_ <-- nvme_pci_setup_prps ps payload sgl ;; free_lists ps ps false) d (fun _ d' =>
    exists small, freed d' = freed d ++ imap (fun i l => (small : bool, i, l.1)) (lists d') /\
      (small = true -> (length (lists d') <= 1)%nat)).
Proof.
  intros Hr. pose proof (pr_size _ _ _ _ _ Hr) as (Hps & Hcap & _).
  apply runs_bind. eapply runs_conseq; [by apply setup_prps_ok|]. intros r d' Hend.
  exact (free_after_setup ps cap payload sgl d r d' Hps Hcap Hend).
Qed.

(** ** SGLs *)

Section sgl.
Context `{NvmeHdr} (PS : Z).

Lemma sgl_loop_ok fuel small sgl d a es :
  sgl <> [] -> Z.of_nat (length es + length sgl) <= SGES_PER_PAGE PS -> (length sgl < fuel)%nat ->
  sgl_lists d = [(a, es)] ->
  sgl_loop PS fuel small (Z.of_nat (length sgl)) sgl d =
    Ret BLK_STS_OK (d <| sgl_lists := [(a, es ++ (nvme_pci_sgl_set_data <$> sgl))] |>).
Proof.
  revert sgl d es. induction fuel as [|fuel IH]; intros sgl d es Hne Hlen Hf El; [lia|].
  destruct sgl as [|s sgl]; [done|]. cbn [sgl_loop]. unfold bind, sgl_turn. rewrite El. cbn [last].
  cbn [length] in *. rewrite (proj2 (Z.eqb_neq _ _)) by lia. cbn [negb]. unfold sgl_put. rewrite El. cbn [last removelast app].
  replace (Z.of_nat (S (length sgl)) - 1) with (Z.of_nat (length sgl)) by lia.
  destruct sgl as [|s' sgl]; [by destruct d|]. rewrite (proj2 (Z.ltb_lt _ _)) by (simpl; lia).
  rewrite (IH (s' :: sgl) _ (es ++ [nvme_pci_sgl_set_data s])); [|done| |simpl in *; lia|by destruct d].
  - destruct d; unfold update; simpl. by rewrite <- app_assoc.
  - rewrite length_app. simpl in *. lia.
Qed.
End sgl.

(** With fewer descriptors than fit a page (requests have at most
    NVME_MAX_SEGS = 127), an SGL set-up that gets its page puts one data
    descriptor per segment into it, in order, and the command points to all of
    them as the last segment. *)
Theorem sgls_describe_payload `{NvmeHdr} PS sgl d :
  (2 <= length sgl)%nat -> Z.of_nat (length sgl) < SGES_PER_PAGE PS -> 1 <= list_slots d ->
  runs (nvme_pci_setup_sgls PS (Z.of_nat (length sgl)) sgl) d (fun r d' =>
    (r.1 = BLK_STS_RESOURCE /\ iod_npages d' = -1) \/
    exists a, r = (BLK_STS_OK, SGL (mk_sgl (u64 a) (u32 (Z.of_nat (length sgl) * sizeof_sgl_desc))
                                          (u8 (Z.shiftl NVME_SGL_FMT_LAST_SEG_DESC 4)))) /\
      first_dma d' = a /\ sgl_lists d' = [(a, nvme_pci_sgl_set_data <$> sgl)]).
Proof.
  intros H2 Hlt Hs. unfold nvme_pci_setup_sgls. rewrite (proj2 (Z.eqb_neq _ _)) by lia. cbv zeta.
  set (small := Z.of_nat (length sgl) <=? _). unfold runs, bind, modify, dma_pool_alloc, get.
  set (d1 := d <| iod_npages := _ |>).
  destruct (if small then prp_small_pool d1 else prp_page_pool d1) as [|a pool].
  { left. split; [done|]. by destruct d. }
  set (d2 := if small then d1 <| prp_small_pool := pool |> else d1 <| prp_page_pool := pool |>).
  assert (Es : list_slots d2 = list_slots d) by (subst d2 d1; destruct small, d; done).
  unfold check. rewrite Es, (proj2 (Z.leb_le _ _)) by lia. unfold ret at 1.
  rewrite (sgl_loop_ok PS (S (Z.to_nat (Z.of_nat (length sgl)))) small sgl _ a []);
    [|by destruct sgl; simpl in *; [lia|]|simpl; lia|lia|by destruct d2].
  right. exists a. unfold nvme_pci_sgl_set_seg. rewrite (proj2 (Z.ltb_lt _ _)) by lia. by destruct d2.
Qed.

(** ** The elements of the mempool are too small *)

(** Four megabytes in [NVME_MAX_SEGS] segments. *)
Definition big_sgl : list segment :=
  ((fun i => (i * 32768, 32768)) <$> seqZ 1 126) ++ [(2 ^ 24, 65536)].

Definition mempool_iod (ss : Z) : nvme_iod :=
  mk_iod (-1) 0 [] [] (slots_behind ss (mempool_size 4096 4096 ss) NVME_MAX_SEGS) [512]
    [2 ^ 30; 2 ^ 30 + 4096; 2 ^ 30 + 8192] [].

(** The mempool of scatter lists is sized for SGLs (and with the size limit in
    kilobytes where bytes are meant): behind a list of NVME_MAX_SEGS segments
    it leaves room for one pointer, but a PRP request of the largest size the
    driver announces needs several; the second is stored behind the end of the
    element. *)
Theorem mempool_element_overflows ss :
  0 < ss < 2 ^ 16 ->
  total big_sgl = NVME_MAX_KB_SZ * 1024 /\ Z.of_nat (length big_sgl) = NVME_MAX_SEGS /\
  list_slots (mempool_iod ss) = 1 /\ nvme_npages 4096 4096 (NVME_MAX_KB_SZ * 1024) = 3 /\
  nvme_pci_setup_prps 4096 (NVME_MAX_KB_SZ * 1024) big_sgl (mempool_iod ss) = Oops OutOfBounds.
Proof.
  intros Hss. assert (Eslots : list_slots (mempool_iod ss) = 1).
  { simpl. unfold slots_behind, mempool_size, nvme_pci_iod_alloc_size. rewrite wrap_small.
    - rewrite Z.add_simpl_r. reflexivity.
    - change (8 * nvme_pci_npages_sgl 4096 NVME_MAX_SEGS) with 8. unfold NVME_MAX_SEGS. pow2_consts. lia. }
  split_and!; [vm_compute; reflexivity..|done|vm_compute; reflexivity|].
  assert (Ed : mempool_iod ss = mk_iod (-1) 0 [] [] 1 [512] [2 ^ 30; 2 ^ 30 + 4096; 2 ^ 30 + 8192] []).
  { unfold mempool_iod in *. simpl in Eslots. by rewrite Eslots. }
  rewrite Ed. vm_compute. reflexivity.
Qed.

(** ** The theorems on a request of four pages *)

Definition sgl0 : list segment := [(5000, 3192); (12288, 8192); (40960, 5000)].

Definition iod0 : nvme_iod := mk_iod (-1) 0 [] [] 4 [1792] [2 ^ 20; 2 ^ 20 + 4096] [].

Lemma iod0_ready : prp_ready 4096 512 sgl0 16384 iod0.
Proof.
  split.
  - split; [reflexivity|]. split; [lia|]. exists 12. split; [lia|reflexivity].
  - exists 5000, 3192, [(12288, 8192); (40960, 5000)]. split; [reflexivity|].
    repeat split; try (vm_compute; congruence); try reflexivity; try (intros; vm_compute; congruence).
  - repeat split; vm_compute; congruence.
  - vm_compute. congruence.
  - split; reflexivity.
  - split; [|repeat constructor].
    apply NoDup_cons. split; [|apply NoDup_singleton]. intros Hin%list_elem_of_singleton. vm_compute in Hin. congruence.
  - repeat constructor.
Qed.

Lemma prps_describe_payload_witness :
  runs (nvme_pci_setup_prps 4096 16384 sgl0) iod0 (fun r d' =>
    r.1 = BLK_STS_RESOURCE \/
    exists p1 p2, r = (BLK_STS_OK, PRP p1 p2) /\
      device_bytes 4096 (length (lists d')) (list_at (lists d')) 16384 p1 p2 = Some (bytes_of sgl0)).
Proof.
  eapply runs_conseq.
  - apply (prps_describe_payload 4096 512 sgl0 16384 iod0). exact iod0_ready.
  - intros r d' [[E _]|(p1 & p2 & Er & Eb)]; [left; exact E|right].
    exists p1, p2. split; [exact Er|]. rewrite Eb. reflexivity.
Defined.

Lemma prp_lists_freed_once_witness :
  runs (_ <-- nvme_pci_setup_prps 4096 16384 sgl0 ;; free_lists 4096 4096 false) iod0 (fun _ d' =>
    exists small, freed d' = imap (fun i l => (small : bool, i, l.1)) (lists d')).
Proof.
  eapply runs_conseq.
  - apply (prp_lists_freed_once 4096 512 sgl0 16384 iod0). exact iod0_ready.
  - intros [] d' (small & E & _). exists small. exact E.
Defined.

Lemma sgls_describe_payload_witness :
  runs (nvme_pci_setup_sgls 4096 3 sgl0) iod0 (fun r d' =>
    (r.1 = BLK_STS_RESOURCE /\ iod_npages d' = -1) \/
    exists a, sgl_lists d' = [(a, nvme_pci_sgl_set_data <$> sgl0)]).
Proof.
  eapply runs_conseq.
  - apply (sgls_describe_payload 4096 sgl0 iod0); vm_compute; congruence || lia.
  - intros r d' [E|(a & _ & _ & E)]; [left; exact E|right; exists a; exact E].
Defined.

Lemma mempool_element_overflows_witness :
  nvme_pci_setup_prps 4096 4194304 big_sgl (mempool_iod 32) = Oops OutOfBounds.
Proof. apply (mempool_element_overflows 32). lia. Defined.
