(* ===== verification/NvmeRq.v ===== *)
(** * The NVMe host driver: queueing a request (nvme-host/pci.c)

    [nvme_queue_rq] puts the parts together: the command (NvmeCore), its data
    pointers (NvmePrp), the DMA mappings of data and integrity data and the
    submission queue (NvmeQueue), with the clean-up of each step that fails; and
    the remapping of protection information. *)

From S2P Require Import Prelude Ring Horae NvmeCore NvmeCoreTheorems NvmePrp NvmePrpFacts NvmePrpTheorems NvmeQueue NvmeQueueFacts NvmeQueueTheorems.

(** ** Protection information

    [dif_swap] on the reference tags of [nlb] blocks, from [virt] and [phys] on. *)

Definition nvme_dif_prep (p v ref_tag : Z) : Z := if ref_tag =? v then p else ref_tag.
Definition nvme_dif_complete (p v ref_tag : Z) : Z := if ref_tag =? p then v else ref_tag.

Fixpoint nvme_dif_remap (dif_swap : Z -> Z -> Z -> Z) (phys virt : Z) (tags : list Z) : list Z :=
  match tags with
  | [] => []
  | t :: tags => dif_swap phys virt t :: nvme_dif_remap dif_swap (u32 (phys + 1)) (u32 (virt + 1)) tags
  end.

(** Remapping back on completion undoes the remapping before the write, on any
    buffer in which no tag that is not virtual looks like the physical tag of
    its place. *)
Lemma dif_remap_roundtrip p v tags :
  (forall i t, tags !! i = Some t -> t = u32 (p + Z.of_nat i) -> t = u32 (v + Z.of_nat i)) ->
  nvme_dif_remap nvme_dif_complete (u32 p) (u32 v) (nvme_dif_remap nvme_dif_prep (u32 p) (u32 v) tags) = tags.
Proof.
  revert p v. induction tags as [|t tags IH]; intros p v Ht; simpl; [done|].
  assert (Hs : forall x k, u32 (u32 x + k) = u32 (x + k)) by (intros; unfold u32; apply Zplus_mod_idemp_l).
  rewrite !Hs. rewrite IH.
  - f_equal. specialize (Ht 0%nat t eq_refl). rewrite !Z.add_0_r in Ht. unfold nvme_dif_complete, nvme_dif_prep.
    repeat case_match; rewrite ?Z.eqb_eq, ?Z.eqb_neq in *; try congruence. symmetry. by apply Ht.
  - intros i t' Hi. specialize (Ht (S i) t' Hi). replace (p + 1 + Z.of_nat i) with (p + Z.of_nat (S i)) by lia.
    by replace (v + 1 + Z.of_nat i) with (v + Z.of_nat (S i)) by lia.
Qed.

(** ** State *)

(** What a request has mapped for DMA: its data, its integrity data. *)
Inductive dma_kind := DataSg | MetaSg.

#[export] Instance dma_kind_eq_dec : EqDecision dma_kind.
Proof. solve_decision. Defined.

Record rq_sys := mk_rq_sys {
  rq_q : nvme_queue;
  rq_d : nvme_iod;
  kfreed : Z;                 (* range arrays of discards given back *)
  sg_pooled : bool;           (* [iod->sg] is not [iod->inline_sg] *)
  sg_out : Z;                 (* scatter lists taken from the mempool *)
  dma_live : list dma_kind;   (* mappings that are not undone, the last one first *)
}.

#[export] Instance eta_rq_sys : Eta rq_sys := fun s => mk_rq_sys (rq_q s) (rq_d s) (kfreed s) (sg_pooled s) (sg_out s) (dma_live s).

Definition on_queue {A} (m : M nvme_queue A) : M rq_sys A := fun s =>
  match m (rq_q s) with
  | Ret a q => Ret a (s <| rq_q := q |>)
  | Oops f => Oops f
  | Stall => Stall
  end.

Definition on_iod {A} (m : M nvme_iod A) : M rq_sys A := fun s =>
  match m (rq_d s) with
  | Ret a d => Ret a (s <| rq_d := d |>)
  | Oops f => Oops f
  | Stall => Stall
  end.

(** nvme.h *)
Definition nvme_cleanup_cmd (r : request) : M rq_sys unit :=
  match special r with
  | Some _ => modify (fun s => s <| kfreed ::= fun n => n + 1 |>)
  | None => ret tt
  end.

Definition dma_map (k : dma_kind) : M rq_sys unit := modify (fun s => s <| dma_live ::= cons k |>).

Definition dma_unmap_sg (k : dma_kind) : M rq_sys unit := fun s =>
  match dma_live s with
  | k' :: rest => if decide (k' = k) then Ret tt (s <| dma_live := rest |>) else Oops OutOfBounds
  | [] => Oops OutOfBounds
  end.

(** What the block and DMA layers answer for a request: [e_mapped], the segments
    after [blk_rq_map_sg] and [dma_map_sg_attrs], or the status when one of them
    maps nothing; [e_meta], for a request with integrity data, the address its
    buffer was mapped at, if that succeeded. *)
Record rq_env := mk_rq_env {
  e_segments : Z;                               (* blk_rq_nr_discard_segments *)
  e_alloc : option (list nvme_dsm_range);       (* kmalloc_array *)
  e_nseg : Z;                                   (* blk_rq_nr_phys_segments *)
  e_payload : Z;                                (* blk_rq_payload_bytes *)
  e_use_sgl : bool;                             (* nvme_pci_use_sgls *)
  e_mempool : bool;                             (* mempool_alloc succeeds *)
  e_slots_pool : Z;                             (* pointers behind a scatter list of the pool *)
  e_slots_inline : Z;                           (* ... and of the request itself *)
  e_mapped : blk_status_t + list segment;
  e_meta : option (option Z);
}.

Section rq.
Context `{NvmeHdr} (ps PS : Z).

Definition nvme_init_iod (e : rq_env) : M rq_sys blk_status_t :=
  let from_pool := nvme_init_iod_from_pool ps (e_nseg e) (e_payload e) in
  if from_pool && negb (e_mempool e) then ret BLK_STS_RESOURCE
  else
    modify (fun s => s <| sg_pooled := from_pool |> <| sg_out ::= fun n => if from_pool then n + 1 else n |>) ;;;
    on_iod (modify (fun d =>
      d <| list_slots := if from_pool then e_slots_pool e else e_slots_inline e |>
        <| iod_npages := -1 |> <| lists := [] |> <| sgl_lists := [] |>)) ;;;
    ret BLK_STS_OK.

(** [cmnd] gets the data pointer and the metadata pointer that are returned. *)
Definition nvme_map_data (e : rq_env) : M rq_sys (blk_status_t * data_ptr * Z) :=
  match e_mapped e with
  | inl st => ret (st, PRP 0 0, 0)
  | inr sgl =>
      dma_map DataSg ;;;
      unpack (st, dp) <-- on_iod (if e_use_sgl e then nvme_pci_setup_sgls PS (Z.of_nat (length sgl)) sgl
                                  else nvme_pci_setup_prps ps (e_payload e) sgl) ;;
      if negb (bool_decide (st = BLK_STS_OK)) then dma_unmap_sg DataSg ;;; ret (st, dp, 0)
      else
        match e_meta e with
        | None => ret (BLK_STS_OK, dp, 0)
        | Some None => dma_unmap_sg DataSg ;;; ret (BLK_STS_IOERR, dp, 0)
        | Some (Some a) => dma_map MetaSg ;;; ret (BLK_STS_OK, dp, a)
        end
  end.

Definition nvme_free_iod (use_sgl : bool) : M rq_sys unit :=
  on_iod (free_lists ps PS use_sgl) ;;;
  modify (fun s => s <| sg_out ::= fun n => if sg_pooled s then n - 1 else n |>).

(** The command with its data pointer and metadata pointer. *)
Definition with_data (use_sgl : bool) (dp : data_ptr) (meta : Z) (c : nvme_command) : nvme_command :=
  (if use_sgl then c <| cflags := NVME_CMD_SGL_METABUF |> else c) <| dptr := dp |> <| metadata := u64 meta |>.

Definition nvme_queue_rq (ns : nvme_ns) (e : rq_env) (r : request) (cmnd : nvme_command)
    : M rq_sys blk_status_t :=
  q <-- gets rq_q ;;
  if cq_vector q <? 0 then ret BLK_STS_IOERR
  else
    let '(st, r, cmnd) := nvme_setup_cmd ns (e_segments e) (e_alloc e) r cmnd in
    if negb (bool_decide (st = BLK_STS_OK)) then ret st
    else
      st <-- nvme_init_iod e ;;
      if negb (bool_decide (st = BLK_STS_OK)) then nvme_cleanup_cmd r ;;; ret st
      else if negb (e_nseg e =? 0) then
        unpack (st, dp, meta) <-- nvme_map_data e ;;
        if negb (bool_decide (st = BLK_STS_OK)) then
          nvme_free_iod (e_use_sgl e) ;;; nvme_cleanup_cmd r ;;; ret st
        else on_queue (nvme_submit_cmd (with_data (e_use_sgl e) dp meta cmnd)) ;;; ret BLK_STS_OK
      else on_queue (nvme_submit_cmd cmnd) ;;; ret BLK_STS_OK.
End rq.

(** ** Facts *)

Lemma runs_on_iod {A} (m : M nvme_iod A) s (Q : A -> rq_sys -> Prop) :
  runs m (rq_d s) (fun a d => Q a (s <| rq_d := d |>)) -> runs (on_iod m) s Q.
Proof. unfold runs, on_iod. by destruct (m (rq_d s)). Qed.

Lemma runs_on_queue {A} (m : M nvme_queue A) s (Q : A -> rq_sys -> Prop) :
  runs m (rq_q s) (fun a q => Q a (s <| rq_q := q |>)) -> runs (on_queue m) s Q.
Proof. unfold runs, on_queue. by destruct (m (rq_q s)). Qed.

(** The bookkeeping after [nvme_init_iod]. *)
Definition init_d (ps : Z) (e : rq_env) (d : nvme_iod) : nvme_iod :=
  d <| list_slots := if nvme_init_iod_from_pool ps (e_nseg e) (e_payload e) then e_slots_pool e else e_slots_inline e |>
    <| iod_npages := -1 |> <| lists := [] |> <| sgl_lists := [] |>.

Section facts.
Context `{NvmeHdr}.

Lemma setup_cmd_id ns segs alloc r cmd :
  let '(st, r', c) := nvme_setup_cmd ns segs alloc r cmd in
  (st = BLK_STS_OK -> command_id c = u16 (rq_tag r)) /\
  (special r = None -> st <> BLK_STS_OK -> special r' = None).
Proof.
  unfold nvme_setup_cmd. set (r0 := nvme_clear_nvme_request r).
  assert (E0 : rq_tag r0 = rq_tag r /\ special r0 = special r)
    by (subst r0; unfold nvme_clear_nvme_request; by destruct (dontprep r)).
  destruct E0 as [Et Es].
  assert (Hd : let '(st, r', c) := nvme_setup_discard ns segs alloc r0 cmd in
             rq_tag r' = rq_tag r /\ (special r = None -> st <> BLK_STS_OK -> special r' = None)).
  { unfold nvme_setup_discard. destruct alloc as [raw|]; [|by rewrite Es].
    destruct (discard_loop _ _ _ _) as [n range]. destruct (negb _); [by rewrite Es|]. by rewrite <- Et; destruct r0. }
  destruct (nvme_setup_discard ns segs alloc r0 cmd) as [[st r'] c], Hd as [Ht Hs].
  destruct (nvme_setup_rw ns r0) as [st1 c1].
  destruct (req_op r0); simpl; by rewrite ?Ht, ?Et, ?Es.
Qed.
End facts.

Lemma cleanup_cmd_ok r s :
  runs (nvme_cleanup_cmd r) s (fun _ s' =>
    s' = s <| kfreed := kfreed s + (if special r is Some _ then 1 else 0) |>).
Proof.
  unfold nvme_cleanup_cmd. destruct (special r); unfold runs, modify, ret; destruct s; unfold update; simpl; [done|].
  by rewrite Z.add_0_r.
Qed.

(** The two ends of queueing a request. *)
Definition rq_maps (e : rq_env) : list dma_kind :=
  if e_nseg e =? 0 then [] else match e_meta e with Some _ => [MetaSg; DataSg] | None => [DataSg] end.

Definition rq_queued (e : rq_env) (r : request) (s s' : rq_sys) : Prop :=
  kfreed s' = kfreed s /\ dma_live s' = rq_maps e ++ dma_live s /\ freed (rq_d s') = freed (rq_d s) /\
  sg_out s' = sg_out s + Z.b2z (sg_pooled s') /\
  sq_tail (rq_q s') = (sq_tail (rq_q s) + 1) mod q_depth (rq_q s) /\
  exists c, command_id c = u16 (rq_tag r) /\
    sq_cmds (rq_q s') = <[Z.to_nat (sq_tail (rq_q s)) := c]> (sq_cmds (rq_q s)).

Definition rq_refused (r : request) (s s' : rq_sys) : Prop :=
  rq_q s' = rq_q s /\ (rq_d s' = rq_d s \/ all_freed (rq_d s) (rq_d s')) /\ sg_out s' = sg_out s /\ dma_live s' = dma_live s /\
  (cq_vector (rq_q s) < 0 \/ kfreed s' = kfreed s + (if special r is Some _ then 1 else 0)).

Definition rq_end (e : rq_env) (r r' : request) (s : rq_sys) (st : blk_status_t) (s' : rq_sys) : Prop :=
  (st = BLK_STS_OK /\ rq_queued e r s s') \/ (st <> BLK_STS_OK /\ rq_refused r' s s').

(** The state with the bookkeeping [d] of the mapping, the scatter list from
    the mempool or not, and the mappings [l]. *)
Definition with_iod (s : rq_sys) (d : nvme_iod) (p : bool) (l : list dma_kind) : rq_sys :=
  s <| sg_pooled := p |> <| sg_out := sg_out s + Z.b2z p |> <| rq_d := d |> <| dma_live := l ++ dma_live s |>.

Lemma init_iod_ok ps e s :
  runs (nvme_init_iod ps e) s (fun st s' =>
    (st = BLK_STS_RESOURCE /\ s' = s) \/
    (st = BLK_STS_OK /\ exists p, s' = with_iod s (init_d ps e (rq_d s)) p [])).
Proof.
  unfold nvme_init_iod, init_d. destruct (nvme_init_iod_from_pool ps (e_nseg e) (e_payload e)), (e_mempool e); simpl.
  2: by left.
  1: unfold runs, bind, modify, on_iod, ret; right; split; [done|]; exists true; by destruct s.
  all: unfold runs, bind, modify, on_iod, ret; right; split; [done|]; exists false; destruct s;
    unfold with_iod, update; simpl; by rewrite Z.add_0_r.
Qed.

Section ends.
Context `{NvmeHdr} (ps : Z) (cap : nat) (e : rq_env) (r r' : request) (c : nvme_command) (s : rq_sys).
Context (Hps : ps = 8 * Z.of_nat cap) (Hcap : (32 <= cap)%nat).

Lemma submit_end c' d p :
  sq_ok (rq_q s) ->
  (forall d, dbbuf_sq (rq_q s) = Some d -> 0 <= db_event d < 2 ^ 16 /\ 0 <= db_value d < 2 ^ 16) ->
  command_id c' = u16 (rq_tag r) -> freed d = freed (rq_d s) ->
  runs (on_queue (nvme_submit_cmd c') ;;; ret BLK_STS_OK) (with_iod s d p (rq_maps e)) (rq_end e r r' s).
Proof using Type.
  clear. intros Hsq Hdb Ec Ef. apply runs_bind, runs_on_queue.
  eapply runs_conseq; [by apply submit_cmd_ok|].
  intros [] q' (_ & Ht & Hcm & _). apply runs_ret. left. split; [done|].
  destruct s; unfold rq_queued; simpl in *. split_and!; [done..|]. exists c'. by split.
Qed.

Lemma cleanup_end st s1 :
  st <> BLK_STS_OK -> rq_d s1 = rq_d s \/ all_freed (rq_d s) (rq_d s1) ->
  rq_q s1 = rq_q s -> sg_out s1 = sg_out s -> dma_live s1 = dma_live s -> kfreed s1 = kfreed s ->
  runs (nvme_cleanup_cmd r' ;;; ret st) s1 (rq_end e r r' s).
Proof using Type.
  clear. intros Hst Hd Hq Ho Hl Hk. apply runs_bind. eapply runs_conseq; [apply cleanup_cmd_ok|]. intros [] s2 ->.
  apply runs_ret. right. split; [done|].
  destruct s1; unfold rq_refused; simpl in *. split_and!; [done..|right; congruence].
Qed.

(** Giving back what was taken, then the command's buffer. *)
Lemma free_end st d p :
  st <> BLK_STS_OK -> runs (free_lists ps ps false) d (fun _ d2 => all_freed (rq_d s) d2) ->
  runs (nvme_free_iod ps ps false ;;; nvme_cleanup_cmd r' ;;; ret st) (with_iod s d p []) (rq_end e r r' s).
Proof using Type.
  clear. intros Hst Hfr. apply runs_bind. unfold nvme_free_iod. apply runs_bind, runs_on_iod.
  change (rq_d (with_iod s d p [])) with d. eapply runs_conseq; [apply Hfr|]. intros [] d2 Hd2. apply runs_modify.
  apply cleanup_end; [done|by right|done| |done|done]. destruct s, p; unfold update; simpl; lia.
Qed.

(** The mapping of the data, its clean-up on failure, the submission. *)
Lemma map_end p :
  sq_ok (rq_q s) -> e_use_sgl e = false -> e_nseg e <> 0 ->
  (forall d, dbbuf_sq (rq_q s) = Some d -> 0 <= db_event d < 2 ^ 16 /\ 0 <= db_value d < 2 ^ 16) ->
  command_id c = u16 (rq_tag r) ->
  (forall sgl, e_mapped e = inr sgl -> prp_ready ps cap sgl (e_payload e) (init_d ps e (rq_d s))) ->
  (forall st, e_mapped e = inl st -> st <> BLK_STS_OK) ->
  runs (unpack (st, dp, meta) <-- nvme_map_data ps ps e ;;
        if negb (bool_decide (st = BLK_STS_OK)) then
          nvme_free_iod ps ps false ;;; nvme_cleanup_cmd r' ;;; ret st
        else on_queue (nvme_submit_cmd (with_data false dp meta c)) ;;; ret BLK_STS_OK)
    (with_iod s (init_d ps e (rq_d s)) p []) (rq_end e r r' s).
Proof using Hps Hcap.
  intros Hsq Hsgl Hseg Hdb Hid Hmap Hinl.
  assert (Efr : freed (init_d ps e (rq_d s)) = freed (rq_d s)) by (unfold init_d; by destruct (rq_d s)).
  assert (Em : rq_maps e = match e_meta e with Some _ => [MetaSg; DataSg] | None => [DataSg] end)
    by (unfold rq_maps; destruct (Z.eqb_spec (e_nseg e) 0); [lia|done]).
  apply runs_bind. unfold nvme_map_data. rewrite Hsgl.
  destruct (e_mapped e) as [st1|sgl].
  { apply runs_ret. rewrite bool_decide_false by by apply Hinl. apply free_end; [by apply Hinl|].
    by apply free_none. }
  apply runs_bind. unfold dma_map at 1. apply runs_modify, runs_bind, runs_on_iod.
  match goal with |- runs _ (rq_d ?x) _ => change (rq_d x) with (init_d ps e (rq_d s)) end.
  eapply runs_conseq; [by apply setup_prps_ok, Hmap|]. intros [st dp] d' Hend.
  match goal with |- runs _ ?x _ => change x with (with_iod s d' p [DataSg]) end.
  assert (Hf : freed d' = freed (rq_d s)) by (rewrite <- Efr; by destruct Hend).
  assert (Hfree : runs (free_lists ps ps false) d' (fun _ d2 => all_freed (rq_d s) d2)).
  { eapply runs_conseq; [by eapply free_after_setup|]. intros ? d2. unfold all_freed. by rewrite Efr. }
  assert (Hun : dma_unmap_sg DataSg (with_iod s d' p [DataSg]) = Ret tt (with_iod s d' p [])) by done.
  case_bool_decide as Est; cbn [negb].
  2:{ apply runs_bind. eapply runs_intro; [exact Hun|]. apply runs_ret. rewrite bool_decide_false by done. by apply free_end. }
  destruct (e_meta e) as [[a|]|].
  - apply runs_bind. unfold dma_map. apply runs_modify, runs_ret. rewrite bool_decide_true by done.
    change ((with_iod s d' p [DataSg]) <| dma_live ::= cons MetaSg |>) with (with_iod s d' p [MetaSg; DataSg]). rewrite <- Em. by apply submit_end.
  - apply runs_bind. eapply runs_intro; [exact Hun|]. apply runs_ret. by apply free_end.
  - apply runs_ret. rewrite bool_decide_true by done. rewrite <- Em. by apply submit_end.
Qed.
End ends.

(** C26: Queueing a request is all or nothing.  For a request described by PRPs
    (not SGLs) with room behind its scatter list for as many list pointers as
    [nvme_npages] computes, [nvme_queue_rq] does not fault: it returns
    BLK_STS_OK having put exactly one command, with the request's tag, into the
    submission queue, with its data and its integrity data mapped for DMA; or it
    returns an error with the submission queue as it was, nothing mapped, and every list page,
    the scatter list and the range array of a discard that it took given back.
    (The elements of the mempool do not have that room for the largest
    requests, [mempool_element_overflows].) *)
Theorem queue_rq_all_or_nothing `{NvmeHdr} ps cap ns e r cmnd s :
  sq_ok (rq_q s) -> special r = None -> e_use_sgl e = false ->
  (forall d, dbbuf_sq (rq_q s) = Some d -> 0 <= db_event d < 2 ^ 16 /\ 0 <= db_value d < 2 ^ 16) ->
  ps = 8 * Z.of_nat cap -> (32 <= cap)%nat ->
  (forall sgl, e_mapped e = inr sgl -> prp_ready ps cap sgl (e_payload e) (init_d ps e (rq_d s))) ->
  (forall st, e_mapped e = inl st -> st <> BLK_STS_OK) ->
  runs (nvme_queue_rq ps ps ns e r cmnd) s
    (rq_end e r (nvme_setup_cmd ns (e_segments e) (e_alloc e) r cmnd).1.2 s).
Proof.
  intros Hsq Hsp Hsgl Hdb Hps Hcap Hmap Hinl. unfold nvme_queue_rq.
  apply runs_bind, runs_gets. destruct (Z.ltb_spec (cq_vector (rq_q s)) 0) as [Hv|Hv].
  { apply runs_ret. right. split; [done|]. unfold rq_refused. split_and!; [done|by left|done|done|by left]. }
  pose proof (setup_cmd_id ns (e_segments e) (e_alloc e) r cmnd) as Hc.
  destruct (nvme_setup_cmd ns (e_segments e) (e_alloc e) r cmnd) as [[st r'] c]. destruct Hc as [Hid Hspec]. cbn [fst snd].
  case_bool_decide as Est; cbn [negb].
  2:{ apply runs_ret. right. split; [done|]. unfold rq_refused. split_and!; [done|by left|done|done|right].
      rewrite (Hspec Hsp Est). lia. }
  specialize (Hid Est). apply runs_bind. eapply runs_conseq; [apply init_iod_ok|].
  intros st' s1 [[-> ->]|[-> [p ->]]]; [rewrite bool_decide_false by done|rewrite bool_decide_true by done]; cbn [negb].
  { apply cleanup_end; [done|by left|done..]. }
  rewrite Hsgl. destruct (Z.eqb_spec (e_nseg e) 0) as [E0|E0]; cbn [negb].
  - assert (Em : rq_maps e = []) by (unfold rq_maps; by rewrite E0). rewrite <- Em. apply submit_end; [done..|].
    unfold init_d. by destruct (rq_d s).
  - by apply (map_end ps cap).
Qed.

(** ** The theorem on a write of four pages in three segments *)

Definition write1 : request :=
  mk_request OP_WRITE 0 false None 3 80 16384 0 [] false false zeroed 9 9 0.

Definition env1 : rq_env := mk_rq_env 0 None 3 16384 false true (list_slots iod0) (list_slots iod0) (inr sgl0) None.

Definition rq_sys0 : rq_sys := mk_rq_sys queue0 iod0 0 false 0 [].

Lemma queue_rq_all_or_nothing_witness :
  runs (nvme_queue_rq 4096 4096 ns0 env1 write1 zeroed) rq_sys0 (fun st s' =>
    (st = BLK_STS_OK /\ sq_tail (rq_q s') = 1 /\ dma_live s' = [DataSg]) \/
    (st <> BLK_STS_OK /\ rq_q s' = queue0 /\ dma_live s' = [])).
Proof.
  eapply runs_conseq.
  - apply (queue_rq_all_or_nothing 4096 512 ns0 env1 write1 zeroed rq_sys0).
    + repeat split; vm_compute; congruence.
    + reflexivity.
    + reflexivity.
    + intros d [= <-]. repeat split; vm_compute; congruence.
    + reflexivity.
    + lia.
    + intros sgl [= <-]. exact iod0_ready.
    + intros st [=].
  - intros st s' [[E (_ & D & _ & _ & T & _)]|[E (Q & _ & _ & D & _)]]; [left|right]; split; [exact E|split; [exact T|exact D]|exact E|split; [exact Q|exact D]].
Defined.
