(* ===== verification/Mqfs.v ===== *)
(** * mqfs: the metadata buffers of a transaction (mqfs/filemap_compat.c,
      mqfs/page_sharing.c, [ext4_write_inode] of mqfs/inode.c)

    mqfs writes the dirty buffers associated with an inode, and the buffer that
    holds the inode itself, as journalled blocks of a stream, and waits for
    them after the transaction was committed.  The lists of an inode are linked
    through the buffer heads; here they are lists of buffers.

    Buffers, inodes and mappings are named by numbers; a mapping by its inode.
    Writes complete at moments chosen by [schedule], at the latest when they
    are waited for, with a result chosen by [io_ok]. *)

From S2P Require Import Prelude.

Definition EIO_ret : Z := -5.
Definition ENOMEM_err : Z := -12.

(** ** State *)

Record mbuf := mk_mbuf {
  dirty : bool;
  locked : bool;               (* a write of it is under way *)
  uptodate : bool;
  was_req : bool;              (* buffer_req: it was submitted once *)
  b_count : Z;
  b_assoc_map : option nat;
}.

#[export] Instance eta_mbuf : Eta mbuf := fun b =>
  mk_mbuf (dirty b) (locked b) (uptodate b) (was_req b) (b_count b) (b_assoc_map b).

Record minode := mk_minode {
  private_list : list nat;
  fsmeta_pending_list : list nat;
  inodemeta_pending_list : list nat;
  copyout_inode_list : list nat;
  private_data : bool;         (* mapping->private_data is not NULL *)
  newentry : bool;             (* EXT4_STATE_NEWENTRY *)
  i_dirty : bool;              (* i_state & I_DIRTY_ALL *)
  i_dirty_datasync : bool;     (* i_state & I_DIRTY_DATASYNC *)
  inode_locked : bool;         (* inode_lock, by this task *)
  i_count : Z;
  d_parent : option nat;       (* the inode of the parent of an alias *)
  iloc : Z + nat;              (* the result of __ext4_get_inode_loc: an error or a buffer *)
}.

#[export] Instance eta_minode : Eta minode := fun i =>
  mk_minode (private_list i) (fsmeta_pending_list i) (inodemeta_pending_list i) (copyout_inode_list i)
    (private_data i) (newentry i) (i_dirty i) (i_dirty_datasync i) (inode_locked i) (i_count i)
    (d_parent i) (iloc i).

(** What is given to the stream or to the device, in order, and the point where
    the write of the description block is known to be complete. *)
Inductive mq_event :=
| MqData (sid : Z)             (* the bios of file data *)
| MqBh (b : nat) (sid : Z)     (* stream_submit_bh_force_IPU(bh, REQ_OP_WRITE, REQ_TX | REQ_SYNC, sid) *)
| MqJh (sid : Z)               (* the description block in the journal *)
| MqCommit (sid txid : Z)      (* STREAM_COMMIT_TX *)
| MqJhDone (sid : Z)           (* the description block was waited for *)
| MqFlush (sid : Z).           (* stream_blkdev_issue_flush *)

Record mfs := mk_mfs {
  bhs : nat -> mbuf;
  inodes : nat -> minode;
  wb_err : Z;                  (* an error of the file's write-back not reported yet *)
  schedule : list (list nat);  (* the writes that complete at the next turns *)
  next_bh : nat;               (* the buffer head the next allocation returns *)
  alloc_pages : list bool;     (* whether the next calls of __get_free_pages succeed *)
  released : list nat;         (* copies given back *)
  nr_mq_streams : Z;           (* sbi->nr_streams *)
  mq_streams : list Z;         (* sbi->streams *)
  stream_lock : list bool;     (* held or not *)
  txid_alloc : Z;
  out : list mq_event;
}.

#[export] Instance eta_mfs : Eta mfs := fun s =>
  mk_mfs (bhs s) (inodes s) (wb_err s) (schedule s) (next_bh s) (alloc_pages s) (released s)
    (nr_mq_streams s) (mq_streams s) (stream_lock s) (txid_alloc s) (out s).

Definition upd_bh (b : nat) (f : mbuf -> mbuf) (s : mfs) : mfs := s <| bhs ::= alter f b |>.
Definition upd_inode (i : nat) (f : minode -> minode) (s : mfs) : mfs := s <| inodes ::= alter f i |>.
Definition mq_emit (e : mq_event) : M mfs unit := modify (fun s => s <| out ::= (.++ [e]) |>).

Definition get_bh (b : nat) : M mfs unit := modify (upd_bh b (fun x => x <| b_count ::= fun n => n + 1 |>)).
Definition brelse (b : nat) : M mfs unit := modify (upd_bh b (fun x => x <| b_count ::= fun n => n - 1 |>)).

Section buffers.
Context (io_ok : nat -> bool).

(** The end of a write: [end_buffer_write_sync]. *)
Definition complete (b : nat) (s : mfs) : mfs :=
  if locked (bhs s b) then
    upd_bh b (fun x => x <| locked := false |> <| uptodate := io_ok b |> <| b_count ::= fun n => n - 1 |>) s
  else s.

(** Other processors run. *)
Definition yield_ : M mfs unit := modify (fun s =>
  match schedule s with
  | [] => s
  | bs :: rest => foldr complete (s <| schedule := rest |>) bs
  end).

Definition wait_on_buffer (b : nat) : M mfs unit := modify (complete b).
Definition lock_buffer (b : nat) : M mfs unit :=
  wait_on_buffer b ;;; modify (upd_bh b (fun x => x <| locked := true |>)).
Definition unlock_buffer (b : nat) : M mfs unit := modify (upd_bh b (fun x => x <| locked := false |>)).

(** ** Submitting the buffers of an inode (filemap_compat.c) *)

Definition tx_write_dirty_buffer (b : nat) (sid : Z) : M mfs unit :=
  lock_buffer b ;;;
  d <-- gets (fun s => dirty (bhs s b)) ;;
  if negb d then unlock_buffer b
  else
    modify (upd_bh b (fun x => x <| dirty := false |>)) ;;;
    get_bh b ;;;
    modify (upd_bh b (fun x => x <| was_req := true |>)) ;;;
    mq_emit (MqBh b sid).

(** The buffer at the head of [private_list] is taken off; it goes to the
    pending list when there is something to write or to wait for. *)
Definition submit_turn (ino : nat) (sid : Z) (b : nat) (rest : list nat) : M mfs unit :=
  modify (upd_inode ino (fun i => i <| private_list := rest |>)) ;;;
  mapping <-- gets (fun s => b_assoc_map (bhs s b)) ;;
  modify (upd_bh b (fun x => x <| b_assoc_map := None |>)) ;;;
  x <-- gets (fun s => bhs s b) ;;
  if dirty x || locked x then
    modify (upd_inode ino (fun i => i <| fsmeta_pending_list ::= cons b |>)) ;;;
    modify (upd_bh b (fun x => x <| b_assoc_map := mapping |>)) ;;;
    if dirty x then get_bh b ;;; tx_write_dirty_buffer b sid ;;; brelse b else ret tt
  else ret tt.

Fixpoint submit_loop (fuel : nat) (ino : nat) (sid : Z) : M mfs unit :=
  match fuel with
  | O => fun _ => Stall
  | S fuel =>
      yield_ ;;;
      l <-- gets (fun s => private_list (inodes s ino)) ;;
      match l with
      | [] => ret tt
      | b :: rest => submit_turn ino sid b rest ;;; submit_loop fuel ino sid
      end
  end.

Definition mqfs_submit_buffers_list (ino : nat) (sid : Z) : M mfs Z :=
  n <-- gets (fun s => length (private_list (inodes s ino))) ;;
  submit_loop (S n) ino sid ;;; ret 0.

Definition mqfs_submit_mapping_buffers (ino : nat) (sid : Z) : M mfs Z :=
  i <-- gets (fun s => inodes s ino) ;;
  if negb (private_data i) || bool_decide (private_list i = []) then ret 0
  else mqfs_submit_buffers_list ino sid.

(** ** Waiting for them *)

Definition note_error (b : nat) (err : Z) : M mfs Z :=
  u <-- gets (fun s => uptodate (bhs s b)) ;;
  ret (if u : bool then err else EIO_ret).

(** The last entry of the pending list, which is the oldest. *)
Definition wait_turn (ino b : nat) (err : Z) : M mfs Z :=
  get_bh b ;;;
  mapping <-- gets (fun s => b_assoc_map (bhs s b)) ;;
  modify (upd_inode ino (fun i => i <| fsmeta_pending_list ::= fun l => removelast l |>)) ;;;
  modify (upd_bh b (fun x => x <| b_assoc_map := None |>)) ;;;
  d <-- gets (fun s => dirty (bhs s b)) ;;
  (if d : bool then
     match mapping with
     | Some m => modify (upd_inode m (fun i => i <| private_list ::= cons b |>))
     | None => fun _ => Oops NullDeref
     end ;;;
     modify (upd_bh b (fun x => x <| b_assoc_map := mapping |>))
   else ret tt) ;;;
  wait_on_buffer b ;;;
  err <-- note_error b err ;;
  brelse b ;;;
  ret err.

Fixpoint wait_loop (fuel : nat) (ino : nat) (err : Z) : M mfs Z :=
  match fuel with
  | O => fun _ => Stall
  | S fuel =>
      yield_ ;;;
      l <-- gets (fun s => fsmeta_pending_list (inodes s ino)) ;;
      match last l with
      | None => ret err
      | Some b => err <-- wait_turn ino b err ;; wait_loop fuel ino err
      end
  end.

(** The first locked buffer from the end of the list; then from the start
    again. *)
Fixpoint osync_loop (fuel : nat) (ino : nat) (err : Z) : M mfs Z :=
  match fuel with
  | O => fun _ => Stall
  | S fuel =>
      yield_ ;;;
      s <-- get ;;
      match last (base.filter (fun b => locked (bhs s b) = true) (private_list (inodes s ino))) with
      | None => ret err
      | Some b =>
          get_bh b ;;; wait_on_buffer b ;;; err <-- note_error b err ;; brelse b ;;;
          osync_loop fuel ino err
      end
  end.

Definition osync_buffers_list (ino : nat) : M mfs Z :=
  n <-- gets (fun s => length (private_list (inodes s ino))) ;;
  osync_loop (S n) ino 0.

Definition mqfs_wait_buffers_list (ino : nat) : M mfs Z :=
  n <-- gets (fun s => length (fsmeta_pending_list (inodes s ino))) ;;
  err <-- wait_loop (S n) ino 0 ;;
  err2 <-- osync_buffers_list ino ;;
  ret (if err =? 0 then err2 else err).

Definition mqfs_wait_mapping_buffers (ino : nat) : M mfs Z :=
  p <-- gets (fun s => private_data (inodes s ino)) ;;
  if negb p then ret 0 else mqfs_wait_buffers_list ino.

(** ** The buffer of the inode itself *)

(** page_sharing.c: the page of the copy, then the copy. *)
Definition mqfs_alloc : M mfs bool := fun s =>
  match alloc_pages s with
  | [] => Ret false s
  | ok :: rest => Ret ok (s <| alloc_pages := rest |>)
  end.

Definition copy_out_bh (bh_in : nat) : M mfs (Z + nat) :=
  new_bh <-- gets next_bh ;;
  modify (fun s => s <| next_bh ::= S |>) ;;;
  modify (upd_bh new_bh (fun _ => mk_mbuf false false false false 1 None)) ;;;
  ok <-- mqfs_alloc ;;
  if negb ok then brelse new_bh ;;; ret (inl ENOMEM_err)
  else lock_buffer bh_in ;;; unlock_buffer bh_in ;;; ret (inr new_bh).

Definition release_copy_out_bh (b : nat) : M mfs unit := modify (fun s => s <| released ::= (.++ [b]) |>).

(** inode.c, without a jbd2 journal and called for metadata only
    (WB_SYNC_ALL). *)
Definition ext4_write_inode (ino : nat) (stream : Z) : M mfs Z :=
  l <-- gets (fun s => iloc (inodes s ino)) ;;
  match l with
  | inl err => ret err
  | inr bh =>
      get_bh bh ;;;
      m <-- gets (fun s => b_assoc_map (bhs s bh)) ;;
      r <-- match m with
            | Some _ =>
                c <-- copy_out_bh bh ;;
                match c with
                | inl err => ret (Some err)
                | inr local_bh =>
                    modify (upd_inode ino (fun i => i <| copyout_inode_list ::= cons local_bh |>)) ;;;
                    modify (upd_bh local_bh (fun x => x <| b_assoc_map := Some ino |> <| dirty := true |>)) ;;;
                    tx_write_dirty_buffer local_bh stream ;;; ret None
                end
            | None =>
                modify (upd_inode ino (fun i => i <| inodemeta_pending_list ::= cons bh |> <| private_data := true |>)) ;;;
                modify (upd_bh bh (fun x => x <| b_assoc_map := Some ino |>)) ;;;
                tx_write_dirty_buffer bh stream ;;; ret None
            end ;;
      match r with
      | Some err => brelse bh ;;; ret err
      | None =>
          x <-- gets (fun s => bhs s bh) ;;
          brelse bh ;;;
          ret (if was_req x && negb (uptodate x) then EIO_ret else 0)
      end
  end.

(** One buffer of a list that was waited for: off the list, then waited for. *)
Definition wait_inode_turn (b : nat) (err : Z) : M mfs Z :=
  get_bh b ;;;
  modify (upd_bh b (fun x => x <| b_assoc_map := None |>)) ;;;
  wait_on_buffer b ;;;
  x <-- gets (fun s => bhs s b) ;;
  brelse b ;;;
  ret (if was_req x && negb (uptodate x) then EIO_ret else err).

Fixpoint inodemeta_loop (fuel : nat) (ino : nat) (err : Z) : M mfs Z :=
  match fuel with
  | O => fun _ => Stall
  | S fuel =>
      yield_ ;;;
      l <-- gets (fun s => inodemeta_pending_list (inodes s ino)) ;;
      match last l with
      | None => ret err
      | Some b =>
          modify (upd_inode ino (fun i => i <| inodemeta_pending_list ::= fun l => removelast l |>)) ;;;
          err <-- wait_inode_turn b err ;; inodemeta_loop fuel ino err
      end
  end.

Fixpoint copyout_loop (fuel : nat) (ino : nat) (err : Z) : M mfs Z :=
  match fuel with
  | O => fun _ => Stall
  | S fuel =>
      yield_ ;;;
      l <-- gets (fun s => copyout_inode_list (inodes s ino)) ;;
      match last l with
      | None => ret err
      | Some b =>
          modify (upd_inode ino (fun i => i <| copyout_inode_list ::= fun l => removelast l |>)) ;;;
          err <-- wait_inode_turn b err ;;
          release_copy_out_bh b ;;;
          copyout_loop fuel ino err
      end
  end.

Definition tx_write_wait_inode_buffer (ino : nat) : M mfs Z :=
  i <-- gets (fun s => inodes s ino) ;;
  err <-- (if bool_decide (inodemeta_pending_list i = []) then ret 0
           else if negb (private_data i) then fun _ => Oops NullDeref
           else inodemeta_loop (S (length (inodemeta_pending_list i))) ino 0) ;;
  copyout_loop (S (length (copyout_inode_list i))) ino err.
End buffers.

(** ** Streams of the file system (filemap_compat.c)

    Each mutex of [stream_lock] guards the stream of the same index.
    [mutex_lock] on a mutex that another task holds sleeps: [Stall]. *)

Definition trylock (i : Z) : M mfs bool := fun s =>
  match stream_lock s !! Z.to_nat i with
  | None => Oops OutOfBounds
  | Some true => Ret false s
  | Some false => Ret true (s <| stream_lock ::= <[Z.to_nat i := true]> |>)
  end.

Definition stream_at (i : Z) : M mfs Z := fun s =>
  match mq_streams s !! Z.to_nat i with
  | None => Oops OutOfBounds
  | Some x => Ret x s
  end.

(** [while (--loop)]: [loop] more attempts. *)
Fixpoint stream_loop (loop : nat) (n i : Z) : M mfs (option Z) :=
  match loop with
  | O => ret None
  | S loop =>
      let i := (i + 1) mod n in
      ok <-- trylock i ;;
      if ok : bool then x <-- stream_at i ;; ret (Some x) else stream_loop loop n i
  end.

Definition get_free_stream (cpu : Z) : M mfs Z :=
  n <-- gets nr_mq_streams ;;
  if n =? 0 then fun _ => Oops DivByZero
  else
    let i := cpu mod n in
    ok <-- trylock i ;;
    if ok : bool then stream_at i
    else
      r <-- stream_loop (Z.to_nat (n - 1)) n i ;;
      match r with
      | Some x => ret x
      | None =>
          ok <-- trylock i ;;
          if ok : bool then stream_at i else fun _ => Stall
      end.

Definition put_stream (stream : Z) : M mfs unit :=
  n <-- gets nr_mq_streams ;;
  if n =? 0 then fun _ => Oops DivByZero
  else
    let i := if n <=? stream then stream mod n else stream in
    fun s =>
      match stream_lock s !! Z.to_nat i with
      | None => Oops OutOfBounds
      | Some false => Oops BadUnlock
      | Some true => Ret tt (s <| stream_lock ::= <[Z.to_nat i := false]> |>)
      end.
