(* ===== verification/MqfsFacts.v ===== *)
(** * mqfs: facts on buffers

    The writes under way complete at unknown moments.  [settled] is what a
    buffer looks like once its write is over; it does not depend on the moment,
    and the facts are about it. *)

From S2P Require Import Prelude Mqfs.

Lemma bhs_upd b f s : bhs (upd_bh b f s) b = f (bhs s b).
Proof. unfold upd_bh. destruct s; simpl. by rewrite fn_lookup_alter. Qed.

Lemma bhs_upd_ne b c f s : c <> b -> bhs (upd_bh b f s) c = bhs s c.
Proof. intros Hne. unfold upd_bh. destruct s; simpl. by rewrite fn_lookup_alter_ne by done. Qed.

Lemma upd_bh_rest b f s : upd_bh b f s = s <| bhs := bhs (upd_bh b f s) |>.
Proof. by destruct s. Qed.

Section buffers.
Context (io_ok : nat -> bool).

Definition settle (b : nat) (x : mbuf) : mbuf :=
  if locked x then x <| locked := false |> <| uptodate := io_ok b |> <| b_count ::= fun n => n - 1 |> else x.

Definition settled (s : mfs) (b : nat) : mbuf := settle b (bhs s b).

(** [s'] is [s] but for writes that completed: nothing else has changed, no
    settled buffer has, and no buffer was locked. *)
Record quiesce (s s' : mfs) : Prop := mk_quiesce {
  q_rest : s' = s <| bhs := bhs s' |> <| schedule := schedule s' |>;
  q_settled : forall b, settled s' b = settled s b;
  q_locked : forall b, locked (bhs s' b) = true -> locked (bhs s b) = true;
}.

#[export] Instance quiesce_preorder : PreOrder quiesce.
Proof.
  split.
  - intros s. split; [by destruct s|done|done].
  - intros s1 s2 s3 [R1 S1 L1] [R2 S2 L2]. split.
    + rewrite R2, R1. by destruct s1.
    + intros b. by rewrite S2.
    + auto.
Qed.

Lemma settle_locked b x : locked (settle b x) = false.
Proof. unfold settle. destruct (locked x) eqn:E; [by destruct x|done]. Qed.

Lemma settle_idemp b x : settle b (settle b x) = settle b x.
Proof. unfold settle at 1. by rewrite settle_locked. Qed.

Lemma settle_keeps b x :
  dirty (settle b x) = dirty x /\ b_assoc_map (settle b x) = b_assoc_map x /\ was_req (settle b x) = was_req x.
Proof. unfold settle. destruct (locked x); by destruct x. Qed.

Lemma quiesce_keeps s s' b : quiesce s s' ->
  dirty (bhs s' b) = dirty (bhs s b) /\ b_assoc_map (bhs s' b) = b_assoc_map (bhs s b).
Proof.
  intros [_ Hs _]. specialize (Hs b). unfold settled in Hs.
  destruct (settle_keeps b (bhs s' b)) as (D' & A' & _), (settle_keeps b (bhs s b)) as (D & A & _). split; congruence.
Qed.

Lemma complete_bhs b s : bhs (complete io_ok b s) = <[b := settle b (bhs s b)]> (bhs s) \/ complete io_ok b s = s.
Proof.
  unfold complete, settle. destruct (locked (bhs s b)) eqn:E; [left|by right].
  unfold upd_bh. destruct s; simpl in *. reflexivity.
Qed.

Lemma complete_quiesce b s : quiesce s (complete io_ok b s).
Proof.
  destruct (complete_bhs b s) as [E|E].
  2:{ rewrite E. reflexivity. }
  split.
  - unfold complete. destruct (locked _); by destruct s.
  - intros c. unfold settled. rewrite E. destruct (decide (b = c)) as [<-|Hne].
    + by rewrite fn_lookup_insert, settle_idemp.
    + by rewrite fn_lookup_insert_ne.
  - intros c. rewrite E. destruct (decide (b = c)) as [<-|Hne].
    + by rewrite fn_lookup_insert, settle_locked.
    + by rewrite fn_lookup_insert_ne.
Qed.

Lemma complete_settled b s : bhs (complete io_ok b s) b = settled s b.
Proof.
  unfold settled, settle, complete. destruct (locked (bhs s b)) eqn:E; [|done].
  unfold upd_bh. destruct s; simpl in *. by rewrite fn_lookup_alter.
Qed.

Lemma yield_quiesce s : runs (yield_ io_ok) s (fun _ s' => quiesce s s').
Proof.
  unfold yield_. apply runs_modify. destruct (schedule s) as [|bs rest]; [reflexivity|].
  transitivity (s <| schedule := rest |>).
  { split; by destruct s. }
  induction bs as [|b bs IH]; simpl; [reflexivity|]. etrans; [apply IH|apply complete_quiesce].
Qed.

Lemma wait_quiesce b s : runs (wait_on_buffer io_ok b) s (fun _ s' => quiesce s s' /\ bhs s' b = settled s b).
Proof. apply runs_modify. split; [apply complete_quiesce|apply complete_settled]. Qed.

(** ** Writing a dirty buffer *)

(** A buffer after it was written. *)
Definition written (b : nat) (x : mbuf) : mbuf :=
  x <| dirty := false |> <| was_req := true |> <| uptodate := io_ok b |>.

(** One buffer and the trace change, apart from completions. *)
Definition bh_step (b : nat) (x : mbuf) (evs : list mq_event) (s s' : mfs) : Prop :=
  s' = s <| bhs := bhs s' |> <| schedule := schedule s' |> <| out := out s ++ evs |> /\
  forall c, settled s' c = if decide (c = b) then x else settled s c.

Lemma upd_bh_settled b f s c :
  (forall x, settle b (f x) = f (settle b x)) ->
  settled (upd_bh b f s) c = if decide (c = b) then f (settled s b) else settled s c.
Proof.
  intros Hf. unfold settled, upd_bh. destruct s; simpl. destruct (decide (c = b)) as [->|Hne].
  - by rewrite fn_lookup_alter, Hf.
  - by rewrite fn_lookup_alter_ne by done.
Qed.

Lemma tx_write_ok b sid s :
  dirty (bhs s b) = true ->
  runs (tx_write_dirty_buffer io_ok b sid) s (fun _ s' =>
    bh_step b (written b (settled s b)) [MqBh b sid] s s' /\ dirty (bhs s' b) = false).
Proof.
  intros Hd. unfold tx_write_dirty_buffer. apply runs_bind. unfold lock_buffer. apply runs_bind.
  eapply runs_conseq; [apply wait_quiesce|]. intros [] s1 [Hq Hb]. apply runs_modify.
  assert (Hd1 : dirty (bhs s1 b) = true) by (destruct (quiesce_keeps _ _ b Hq); congruence).
  apply runs_bind, runs_gets. rewrite bhs_upd. replace (dirty ((bhs s1 b) <| locked := true |>)) with true by (by destruct (bhs s1 b)).
  cbn [negb]. unfold get_bh, mq_emit. repeat (apply runs_bind, runs_modify). apply runs_modify.
  destruct Hq as [Hr Hs _]. set (s2 := upd_bh b _ (upd_bh b _ (upd_bh b _ (upd_bh b _ s1)))).
  assert (Hb2 : bhs s2 b = (settled s b) <| dirty := false |> <| was_req := true |> <| locked := true |>
                                        <| b_count ::= fun n => n + 1 |>).
  { subst s2. rewrite !bhs_upd, Hb. by destruct (settled s b). }
  assert (Hne2 : forall c, c <> b -> bhs s2 c = bhs s1 c) by (intros; subst s2; by rewrite !bhs_upd_ne by done).
  assert (Hr2 : s2 = s <| bhs := bhs s2 |> <| schedule := schedule s2 |>).
  { subst s2. clear - Hr. destruct s, s1. injection Hr. intros. by subst. }
  clearbody s2. split; [split|].
  - rewrite Hr2. by destruct s, s2.
  - intros c. destruct (decide (c = b)) as [->|Hne].
    + transitivity (settle b (bhs s2 b)); [by destruct s2|]. rewrite Hb2. unfold settle, written.
      pose proof (settle_locked b (bhs s b)) as Hl. fold (settled s b) in Hl.
      destruct (settled s b); unfold update; simpl in *. subst. f_equal. lia.
    + transitivity (settle c (bhs s2 c)); [by destruct s2|]. rewrite Hne2 by done. apply Hs.
  - transitivity (dirty (bhs s2 b)); [by destruct s2|]. rewrite Hb2. by destruct (settled s b).
Qed.

(** ** One turn, then all of the list *)

(** What changed but for the buffers and the inodes: the trace, by [evs]. *)
Definition rest_is (evs : list mq_event) (s s' : mfs) : Prop :=
  s' = s <| bhs := bhs s' |> <| schedule := schedule s' |> <| inodes := inodes s' |> <| out := out s ++ evs |>.

Lemma rest_is_trans e1 e2 s1 s2 s3 : rest_is e1 s1 s2 -> rest_is e2 s2 s3 -> rest_is (e1 ++ e2) s1 s3.
Proof.
  unfold rest_is. intros E1 E2. destruct s1, s2, s3. injection E1. injection E2. intros. subst.
  unfold update; simpl. by rewrite app_assoc.
Qed.

Lemma rest_is_refl s : rest_is [] s s.
Proof. unfold rest_is. destruct s; unfold update; simpl. by rewrite app_nil_r. Qed.

Lemma rest_is_upd_bh b f s : rest_is [] s (upd_bh b f s).
Proof. unfold rest_is, upd_bh. destruct s; unfold update; simpl. by rewrite app_nil_r. Qed.

Lemma rest_is_upd_inode i f s : rest_is [] s (upd_inode i f s).
Proof. unfold rest_is, upd_inode. destruct s; unfold update; simpl. by rewrite app_nil_r. Qed.

Lemma quiesce_rest_is s s' : quiesce s s' -> rest_is [] s s' /\ inodes s' = inodes s.
Proof.
  intros [Hr _ _]. unfold rest_is. destruct s, s'. injection Hr. intros. subst.
  unfold update; simpl. by rewrite app_nil_r.
Qed.

(** The state changed by [evs], to the inodes [fi] and the settled buffers [fb]. *)
Record moved (evs : list mq_event) (fi : nat -> minode) (fb : nat -> mbuf) (s s' : mfs) : Prop := mk_moved {
  mv_rest : rest_is evs s s';
  mv_inodes : forall i, inodes s' i = fi i;
  mv_bhs : forall b, settled s' b = fb b;
}.

Lemma moved_refl s : moved [] (inodes s) (settled s) s s.
Proof. split; [apply rest_is_refl|done|done]. Qed.

Lemma moved_quiesce s s' : quiesce s s' -> moved [] (inodes s) (settled s) s s'.
Proof. intros Hq. destruct (quiesce_rest_is s s' Hq) as [Hr Hi]. split; [done|by rewrite Hi|apply Hq]. Qed.

Definition at_key {A} (k : nat) (f : A -> A) (g : nat -> A) (i : nat) : A := if decide (i = k) then f (g i) else g i.

Lemma moved_upd_inode evs fi fb s s' k f :
  moved evs fi fb s s' -> moved evs (at_key k f fi) fb s (upd_inode k f s').
Proof.
  intros [Hr Hi Hb]. split.
  - rewrite <- (app_nil_r evs). eapply rest_is_trans; [done|apply rest_is_upd_inode].
  - intros i. unfold at_key, upd_inode. rewrite <- Hi. destruct s'; simpl. case_decide as E.
    + subst. by rewrite fn_lookup_alter.
    + by rewrite fn_lookup_alter_ne by done.
  - intros b. rewrite <- Hb. unfold settled, upd_inode. by destruct s'.
Qed.

(** Updates of a buffer that do not interfere with the end of a write. *)
Definition neutral (f : mbuf -> mbuf) : Prop := forall b x, settle b (f x) = f (settle b x).

Lemma neutral_map m : neutral (fun x => x <| b_assoc_map := m |>).
Proof. intros b x. unfold settle. destruct (locked x) eqn:E; destruct x; simpl in *; by rewrite ?E. Qed.

Lemma neutral_count n : neutral (fun x => x <| b_count ::= fun c => c + n |>).
Proof.
  intros b x. unfold settle. destruct (locked x) eqn:E; destruct x; simpl in *; subst; unfold update; simpl; [|done].
  f_equal. lia.
Qed.

Lemma moved_upd_bh evs fi fb s s' k f :
  neutral f -> moved evs fi fb s s' -> moved evs fi (at_key k f fb) s (upd_bh k f s').
Proof.
  intros Hf [Hr Hi Hb]. split.
  - rewrite <- (app_nil_r evs). eapply rest_is_trans; [done|apply rest_is_upd_bh].
  - intros i. rewrite <- Hi. unfold upd_bh. by destruct s'.
  - intros b. unfold at_key. rewrite upd_bh_settled by apply Hf. rewrite <- Hb. case_decide; by subst.
Qed.

Lemma moved_trans e1 e2 f1 f2 g1 g2 s1 s2 s3 :
  moved e1 f1 g1 s1 s2 -> moved e2 f2 g2 s2 s3 -> moved (e1 ++ e2) f2 g2 s1 s3.
Proof. intros [R1 _ _] [R2 I2 B2]. split; [by eapply rest_is_trans|done|done]. Qed.

Lemma moved_ext evs fi fi' fb fb' s s' :
  moved evs fi fb s s' -> (forall i, fi i = fi' i) -> (forall b, fb b = fb' b) -> moved evs fi' fb' s s'.
Proof. intros [R I B] Hi Hb. split; [done|congruence|congruence]. Qed.

Lemma moved_tx_write b sid s :
  dirty (bhs s b) = true ->
  runs (tx_write_dirty_buffer io_ok b sid) s (fun _ s' =>
    moved [MqBh b sid] (inodes s) (at_key b (written b) (settled s)) s s').
Proof.
  intros Hd. eapply runs_conseq; [by apply tx_write_ok|]. intros [] s' [[Hr Hb] _]. split.
  - rewrite Hr. unfold rest_is. by destruct s, s'.
  - intros i. rewrite Hr. by destruct s.
  - intros c. rewrite Hb. unfold at_key. case_decide; by subst.
Qed.

(** A buffer after its turn. *)
Definition after_submit (b : nat) (keep : bool) (x : mbuf) : mbuf :=
  if dirty x then written b x else if keep then x else x <| b_assoc_map := None |>.

Definition take_off (rest : list nat) (b : nat) (keep : bool) (i : minode) : minode :=
  i <| private_list := rest |> <| fsmeta_pending_list ::= if keep then cons b else id |>.

Lemma dirty_settled s b : dirty (settled s b) = dirty (bhs s b).
Proof. apply settle_keeps. Qed.

Lemma assoc_settled s b : b_assoc_map (settled s b) = b_assoc_map (bhs s b).
Proof. apply settle_keeps. Qed.

Lemma submit_turn_ok ino sid b rest s :
  let keep := dirty (bhs s b) || locked (bhs s b) in
  runs (submit_turn io_ok ino sid b rest) s (fun _ s' =>
    moved (if dirty (bhs s b) then [MqBh b sid] else [])
      (at_key ino (take_off rest b keep) (inodes s)) (at_key b (after_submit b keep) (settled s)) s s').
Proof.
  intros keep. unfold submit_turn. apply runs_bind, runs_modify, runs_bind, runs_gets, runs_bind, runs_modify.
  set (s1 := upd_inode _ _ s). assert (E1 : bhs s1 = bhs s) by (subst s1; by destruct s). rewrite E1.
  pose proof (moved_upd_inode _ _ _ _ _ ino (fun i => i <| private_list := rest |>) (moved_refl s)) as M1. fold s1 in M1.
  apply (moved_upd_bh _ _ _ _ _ b _ (neutral_map None)) in M1.
  apply runs_bind, runs_gets. rewrite bhs_upd, E1. set (x := bhs s b) in *.
  replace (dirty (x <| b_assoc_map := None |>)) with (dirty x) by (by destruct x).
  replace (locked (x <| b_assoc_map := None |>)) with (locked x) by (by destruct x). fold keep.
  assert (Ed : dirty (settled s b) = dirty x) by apply dirty_settled.
  destruct keep eqn:Ek.
  2:{ apply orb_false_iff in Ek as [Ed0 El]. apply runs_ret. rewrite Ed0. eapply moved_ext; [apply M1|..].
      - intros i. unfold at_key. case_decide; [|done]. unfold take_off. by destruct (inodes s i).
      - intros c. unfold at_key. case_decide; [|done]. subst. unfold after_submit. by rewrite Ed, Ed0. }
  apply runs_bind, runs_modify, runs_bind, runs_modify.
  apply (moved_upd_inode _ _ _ _ _ ino (fun i => i <| fsmeta_pending_list ::= cons b |>)) in M1.
  apply (moved_upd_bh _ _ _ _ _ b _ (neutral_map (b_assoc_map x))) in M1.
  assert (Ea : b_assoc_map (settled s b) = b_assoc_map x) by apply settle_keeps.
  set (s2 := upd_bh b _ _) in *.
  assert (M2 : moved [] (at_key ino (take_off rest b true) (inodes s)) (settled s) s s2).
  { eapply moved_ext; [apply M1|..].
    - intros i. unfold at_key. case_decide; [|done]. unfold take_off. by destruct (inodes s i).
    - intros c. unfold at_key. case_decide; [|done]. subst. rewrite <- Ea. by destruct (settled s b). }
  clearbody s2. clear M1.
  assert (Ed2 : dirty (bhs s2 b) = dirty x) by (rewrite <- dirty_settled, (mv_bhs _ _ _ _ _ M2); done).
  destruct (dirty x) eqn:Edx.
  2:{ apply runs_ret. eapply moved_ext; [apply M2|done|]. intros c. unfold at_key. case_decide; [|done].
      unfold after_submit. subst. by rewrite Ed. }
  apply runs_bind, runs_modify.
  apply (moved_upd_bh _ _ _ _ _ b _ (neutral_count 1)) in M2. set (s3 := upd_bh b _ s2) in *.
  assert (Ed3 : dirty (bhs s3 b) = true) by (subst s3; rewrite bhs_upd; by destruct (bhs s2 b)).
  apply runs_bind. eapply runs_conseq; [by apply moved_tx_write|]. intros [] s4 M4. apply runs_modify.
  pose proof (moved_trans _ _ _ _ _ _ _ _ _ M2 M4) as M. apply (moved_upd_bh _ _ _ _ _ b _ (neutral_count (-1))) in M.
  eapply moved_ext; [apply M|..].
  - intros i. by rewrite (mv_inodes _ _ _ _ _ M2).
  - intros c. unfold at_key. case_decide; [|by rewrite (mv_bhs _ _ _ _ _ M2); unfold at_key; rewrite decide_False].
    subst. rewrite (mv_bhs _ _ _ _ _ M2). unfold at_key, after_submit. rewrite decide_True, Ed by done.
    unfold written. destruct (settled s b); unfold update; simpl. f_equal. lia.
Qed.

Lemma yield_moved s : runs (yield_ io_ok) s (fun _ s' => moved [] (inodes s) (settled s) s s' /\
  forall b, locked (bhs s' b) = true -> locked (bhs s b) = true).
Proof. eapply runs_conseq; [apply yield_quiesce|]. intros [] s' Hq. split; [by apply moved_quiesce|apply Hq]. Qed.

(** The whole list: [ks] are the buffers to wait for, all the dirty ones among
    them. *)
Definition submitted (ino : nat) (sid : Z) (l ks : list nat) (s s' : mfs) : Prop :=
  moved ((fun b => MqBh b sid) <$> base.filter (fun b => dirty (settled s b) = true) l)
    (at_key ino (fun i => i <| private_list := [] |> <| fsmeta_pending_list ::= app ks |>) (inodes s))
    (fun b => if decide (b ∈ l) then after_submit b (bool_decide (b ∈ ks)) (settled s b) else settled s b) s s'.

Lemma submit_loop_ok fuel ino sid l s :
  private_list (inodes s ino) = l -> NoDup l -> (length l < fuel)%nat ->
  runs (submit_loop io_ok fuel ino sid) s (fun _ s' => exists ks,
    (forall b, b ∈ ks -> b ∈ l) /\ (forall b, b ∈ l -> dirty (settled s b) = true -> b ∈ ks) /\ NoDup ks /\
    submitted ino sid l ks s s').
Proof.
  revert l s. induction fuel as [|fuel IH]; intros l s El Hnd Hf; [lia|]. cbn [submit_loop].
  apply runs_bind. eapply runs_conseq; [apply yield_moved|]. intros [] s1 [M1 _].
  apply runs_bind, runs_gets. rewrite (mv_inodes _ _ _ _ _ M1), El. destruct l as [|b l].
  { apply runs_ret. exists []. split_and!; [done..|constructor|]. unfold submitted. simpl.
    eapply moved_ext; [apply M1| |done]. intros i. unfold at_key. case_decide; [|done]. subst.
    destruct (inodes s ino); simpl in *. by subst. }
  apply NoDup_cons in Hnd as [Hb Hnd]. simpl in Hf.
  assert (Ed1 : dirty (bhs s1 b) = dirty (settled s b)) by (rewrite <- (mv_bhs _ _ _ _ _ M1); by rewrite dirty_settled).
  set (keep := dirty (bhs s1 b) || locked (bhs s1 b)).
  apply runs_bind. eapply runs_conseq; [apply submit_turn_ok|]. fold keep. intros [] s2 M2.
  pose proof (moved_trans _ _ _ _ _ _ _ _ _ M1 M2) as M12.
  assert (Hs2 : forall c, settled s2 c = at_key b (after_submit b keep) (settled s) c).
  { intros c. rewrite (mv_bhs _ _ _ _ _ M2). unfold at_key. by rewrite (mv_bhs _ _ _ _ _ M1). }
  assert (Hi2 : forall i, inodes s2 i = at_key ino (take_off l b keep) (inodes s) i).
  { intros c. rewrite (mv_inodes _ _ _ _ _ M2). unfold at_key. by rewrite (mv_inodes _ _ _ _ _ M1). }
  assert (Hl2 : forall c, c ∈ l -> settled s2 c = settled s c).
  { intros c Hc. rewrite Hs2. unfold at_key. rewrite decide_False; [done|]. by intros ->. }
  eapply runs_conseq.
  { apply (IH l); [|done|lia]. rewrite Hi2. unfold at_key. rewrite decide_True by done. by destruct (inodes s ino). }
  intros [] s' (ks & Hks & Hdk & Hnk & M3). unfold submitted in M3.
  exists (ks ++ (if keep then [b] else [])). split_and!.
  - intros c [?|?]%elem_of_app; [right; auto|]. destruct keep; [|by apply elem_of_nil in H].
    apply list_elem_of_singleton in H as ->. left.
  - intros c [->|Hc]%elem_of_cons Hd.
    + unfold keep. rewrite Ed1, Hd. simpl. apply elem_of_app. right. left.
    + apply elem_of_app. left. apply Hdk; [done|]. by rewrite Hl2.
  - destruct keep; [|by rewrite app_nil_r]. apply NoDup_app. split_and!; [done| |apply NoDup_singleton].
    intros c Hc ->%list_elem_of_singleton. by apply Hb, Hks.
  - pose proof (moved_trans _ _ _ _ _ _ _ _ _ M12 M3) as M. unfold submitted.
    assert (Efil : base.filter (fun c => dirty (settled s2 c) = true) l = base.filter (fun c => dirty (settled s c) = true) l).
    { apply list_filter_ext. intros c Hc. by rewrite Hl2. }
    rewrite Efil in M. simpl in M. rewrite filter_cons. rewrite Ed1 in M.
    replace ((fun b0 => MqBh b0 sid) <$> (if decide (dirty (settled s b) = true) then
               b :: base.filter (fun c => dirty (settled s c) = true) l else base.filter (fun c => dirty (settled s c) = true) l))
      with ((if dirty (settled s b) then [MqBh b sid] else []) ++ ((fun c => MqBh c sid) <$> base.filter (fun c => dirty (settled s c) = true) l))
      by (destruct (dirty (settled s b)); done).
    eapply moved_ext; [apply M|..].
    + intros i. unfold at_key. case_decide; [|rewrite Hi2; unfold at_key; by rewrite decide_False].
      subst. rewrite Hi2. unfold at_key. rewrite decide_True by done. unfold take_off.
      destruct (inodes s ino); unfold update; simpl. f_equal. destruct keep; [by rewrite <- app_assoc|by rewrite app_nil_r].
    + intros c. cbv beta. destruct (decide (c ∈ l)) as [Hc|Hc].
      * rewrite (decide_True (P := c ∈ b :: l)) by (by right). rewrite Hl2 by done. f_equal. apply bool_decide_ext.
        rewrite elem_of_app. split; [by left|]. intros [?|Hx]; [done|]. destruct keep; [|by apply elem_of_nil in Hx].
        apply list_elem_of_singleton in Hx as ->. done.
      * rewrite Hs2. unfold at_key. destruct (decide (c = b)) as [->|Hne].
        -- rewrite decide_True by left. f_equal. destruct keep.
           ++ symmetry. apply bool_decide_eq_true. apply elem_of_app. right. left.
           ++ rewrite app_nil_r. symmetry. apply bool_decide_eq_false. intros ?. by apply Hb, Hks.
        -- rewrite decide_False; [done|]. intros [?|?]%elem_of_cons; done.
Qed.

(** ** Waiting *)

(** Nothing new is locked. *)
Definition no_lock (s s' : mfs) : Prop := forall c, locked (bhs s' c) = true -> locked (bhs s c) = true.

Lemma locked_upd_bh k f s : (forall x, locked (f x) = locked x) -> no_lock s (upd_bh k f s).
Proof.
  intros Hf c. destruct (decide (c = k)) as [->|]; [by rewrite bhs_upd, Hf|by rewrite bhs_upd_ne].
Qed.

Lemma locked_upd_inode k f s : no_lock s (upd_inode k f s).
Proof. intros c. unfold upd_inode. by destruct s. Qed.

Definition off_map (x : mbuf) : mbuf := x <| b_assoc_map := None |>.

(** The result of waiting for one more buffer. *)
Definition err_of (s : mfs) (b : nat) (err : Z) : Z := if uptodate (settled s b) then err else EIO_ret.

(** Waiting between taking a reference and giving it back. *)
Lemma wait_note_ok b err s (k : Z -> M mfs Z) Q :
  (forall s', no_lock s s' -> locked (bhs s' b) = false ->
     moved [] (inodes s) (at_key b (fun x => x <| b_count ::= fun n => n + -1 |>) (settled s)) s s' ->
     runs (k (err_of s b err)) s' Q) ->
  runs (wait_on_buffer io_ok b ;;; err <-- note_error b err ;; brelse b ;;; k err) s Q.
Proof.
  intros Hk. apply runs_bind. eapply runs_conseq; [apply wait_quiesce|]. intros [] s1 [Hq Hb].
  unfold note_error. apply runs_bind, runs_bind, runs_gets, runs_ret. rewrite Hb.
  apply runs_bind, runs_modify. apply Hk.
  - intros c Hc. apply (q_locked _ _ Hq). revert c Hc. apply locked_upd_bh. by intros [].
  - rewrite bhs_upd, Hb. pose proof (settle_locked b (bhs s b)) as Hl. fold (settled s b) in Hl. by destruct (settled s b).
  - apply (moved_upd_bh _ _ _ _ _ b _ (neutral_count (-1))). by apply moved_quiesce.
Qed.

Lemma wait_turn_ok ino b err s :
  dirty (settled s b) = false ->
  runs (wait_turn io_ok ino b err) s (fun r s' =>
    r = err_of s b err /\ no_lock s s' /\ locked (bhs s' b) = false /\
    moved [] (at_key ino (fun i => i <| fsmeta_pending_list ::= fun l => removelast l |>) (inodes s))
      (at_key b off_map (settled s)) s s').
Proof.
  intros Hd. unfold wait_turn. apply runs_bind, runs_modify, runs_bind, runs_gets, runs_bind, runs_modify, runs_bind, runs_modify.
  set (s1 := upd_bh b _ (upd_inode ino _ (upd_bh b _ s))).
  assert (M1 : moved [] (at_key ino (fun i => i <| fsmeta_pending_list ::= fun l => removelast l |>) (inodes s))
                 (at_key b (fun x => x <| b_assoc_map := None |>) (at_key b (fun x => x <| b_count ::= fun n => n + 1 |>) (settled s))) s s1).
  { apply moved_upd_bh; [apply neutral_map|]. apply moved_upd_inode, moved_upd_bh; [apply neutral_count|]. apply moved_refl. }
  assert (L1 : no_lock s s1).
  { intros c Hc. subst s1. apply locked_upd_bh in Hc; [|by intros []]. apply locked_upd_inode in Hc.
    apply locked_upd_bh in Hc; [done|by intros []]. }
  assert (Ed1 : dirty (bhs s1 b) = false).
  { rewrite <- dirty_settled, (mv_bhs _ _ _ _ _ M1). unfold at_key. rewrite !decide_True by done. by destruct (settled s b). }
  assert (Eu1 : err_of s1 b err = err_of s b err).
  { unfold err_of. rewrite (mv_bhs _ _ _ _ _ M1). unfold at_key. rewrite !decide_True by done. by destruct (settled s b). }
  clearbody s1. apply runs_bind, runs_gets. rewrite Ed1. apply runs_bind, runs_ret.
  apply wait_note_ok. intros s' L2 Hl M2. apply runs_ret.
  split_and!; [done|unfold no_lock in *; auto|done|].
  pose proof (moved_trans _ _ _ _ _ _ _ _ _ M1 M2) as M. eapply moved_ext; [apply M|apply (mv_inodes _ _ _ _ _ M1)|].
  intros c. unfold at_key. rewrite (mv_bhs _ _ _ _ _ M1). unfold at_key. case_decide; [|done].
  unfold off_map. destruct (settled s c); unfold update; simpl. f_equal. lia.
Qed.

Definition all_uptodate (s : mfs) (l : list nat) : bool := forallb (fun b => uptodate (settled s b)) l.

Lemma all_uptodate_ext s s' l :
  (forall b, b ∈ l -> uptodate (settled s' b) = uptodate (settled s b)) -> all_uptodate s' l = all_uptodate s l.
Proof.
  unfold all_uptodate. induction l as [|b l IH]; intros Hl; [done|]. simpl. rewrite Hl by left. f_equal. apply IH.
  intros c Hc. apply Hl. by right.
Qed.

Lemma wait_loop_ok fuel ino err p s :
  fsmeta_pending_list (inodes s ino) = p -> NoDup p -> (length p < fuel)%nat ->
  (forall b, b ∈ p -> dirty (settled s b) = false) ->
  runs (wait_loop io_ok fuel ino err) s (fun r s' =>
    r = (if all_uptodate s p then err else EIO_ret) /\ no_lock s s' /\
    (forall b, b ∈ p -> locked (bhs s' b) = false) /\
    moved [] (at_key ino (fun i => i <| fsmeta_pending_list := [] |>) (inodes s))
      (fun b => if decide (b ∈ p) then off_map (settled s b) else settled s b) s s').
Proof.
  revert err p s. induction fuel as [|fuel IH]; intros err p s Ep Hnd Hf Hd; [lia|]. cbn [wait_loop].
  apply runs_bind. eapply runs_conseq; [apply yield_moved|]. intros [] s1 [M1 L1].
  apply runs_bind, runs_gets. rewrite (mv_inodes _ _ _ _ _ M1), Ep. destruct p as [|b p] using rev_ind.
  { apply runs_ret. split_and!; [done|done|intros ? []%elem_of_nil|].
    eapply moved_ext; [apply M1| |done]. intros i. unfold at_key. case_decide; [|done]. subst.
    destruct (inodes s ino); simpl in *. by subst. }
  clear IHp. rewrite last_snoc. apply NoDup_app in Hnd as (Hnd & Hb & _). rewrite length_app in Hf. simpl in Hf.
  assert (Hnb : b ∉ p) by (intros Hin; apply (Hb b Hin); left).
  apply runs_bind. eapply runs_conseq.
  { apply wait_turn_ok. rewrite (mv_bhs _ _ _ _ _ M1). apply Hd, elem_of_app. right. left. }
  intros r s2 (-> & L2 & Hl2 & M2). pose proof (moved_trans _ _ _ _ _ _ _ _ _ M1 M2) as M12.
  assert (Hs2 : forall c, settled s2 c = at_key b off_map (settled s) c).
  { intros c. rewrite (mv_bhs _ _ _ _ _ M2). unfold at_key. by rewrite (mv_bhs _ _ _ _ _ M1). }
  assert (Hi2 : forall i, inodes s2 i = at_key ino (fun i => i <| fsmeta_pending_list ::= fun l => removelast l |>) (inodes s) i).
  { intros i. rewrite (mv_inodes _ _ _ _ _ M2). unfold at_key. by rewrite (mv_inodes _ _ _ _ _ M1). }
  assert (Hp2 : forall c, c ∈ p -> settled s2 c = settled s c).
  { intros c Hc. rewrite Hs2. unfold at_key. rewrite decide_False; [done|]. by intros ->. }
  eapply runs_conseq.
  { apply (IH (err_of s1 b err) p); [|done|lia|].
    - rewrite Hi2. unfold at_key. rewrite decide_True by done.
      transitivity (removelast (fsmeta_pending_list (inodes s ino))); [by destruct (inodes s ino)|]. by rewrite Ep, removelast_last.
    - intros c Hc. rewrite Hp2 by done. apply Hd, elem_of_app. by left. }
  intros r s' (-> & L3 & Hl3 & M3). split_and!.
  - assert (Ea : all_uptodate s2 p = all_uptodate s p).
    { apply all_uptodate_ext. intros c Hc. by rewrite Hp2. }
    rewrite Ea. unfold err_of. rewrite (mv_bhs _ _ _ _ _ M1). unfold all_uptodate. rewrite forallb_app. simpl.
    rewrite andb_true_r. destruct (forallb _ p), (uptodate (settled s b)); done.
  - unfold no_lock in *. auto.
  - intros c [Hc|Hx%list_elem_of_singleton]%elem_of_app; [by apply Hl3|]. subst c.
    destruct (locked (bhs s' b)) eqn:E; [|done]. apply L3 in E. congruence.
  - pose proof (moved_trans _ _ _ _ _ _ _ _ _ M12 M3) as M. eapply moved_ext; [apply M|..].
    + intros i. unfold at_key. rewrite Hi2. unfold at_key. case_decide; [|done]. by destruct (inodes s i).
    + intros c. cbv beta. destruct (decide (c ∈ p)) as [Hc|Hc].
      * rewrite (decide_True (P := c ∈ p ++ [b])) by (apply elem_of_app; by left). by rewrite Hp2.
      * rewrite Hs2. unfold at_key. destruct (decide (c = b)) as [->|Hne].
        -- rewrite decide_True; [done|]. apply elem_of_app. right. left.
        -- rewrite decide_False; [done|]. intros [?|?%list_elem_of_singleton]%elem_of_app; done.
Qed.

Lemma filter_length_lt {A} (P Q : A -> Prop) `{!forall x, Decision (P x), !forall x, Decision (Q x)} (l : list A) b :
  (forall x, Q x -> P x) -> b ∈ l -> P b -> ~ Q b ->
  (length (base.filter Q l) < length (base.filter P l))%nat.
Proof.
  intros HQP. induction l as [|x l IH]; intros Hin HP HQ; [by apply elem_of_nil in Hin|].
  assert (Hle : (length (base.filter Q l) <= length (base.filter P l))%nat).
  { clear - HQP. induction l as [|y l IH]; [done|]. rewrite !filter_cons. repeat case_decide; simpl; try lia. naive_solver. }
  apply elem_of_cons in Hin as [->|Hin].
  - rewrite filter_cons_False, filter_cons_True by done. simpl. lia.
  - specialize (IH Hin HP HQ). rewrite !filter_cons. repeat case_decide; simpl; try lia. naive_solver.
Qed.

Lemma osync_loop_ok fuel ino err s :
  (length (base.filter (fun b => locked (bhs s b) = true) (private_list (inodes s ino))) < fuel)%nat ->
  runs (osync_loop io_ok fuel ino err) s (fun r s' =>
    (r = err \/ (r = EIO_ret /\ private_list (inodes s ino) <> [])) /\ no_lock s s' /\ moved [] (inodes s) (settled s) s s').
Proof.
  revert err s. induction fuel as [|fuel IH]; intros err s Hf; [lia|]. cbn [osync_loop].
  apply runs_bind. eapply runs_conseq; [apply yield_moved|]. intros [] s1 [M1 L1].
  apply runs_bind. unfold runs at 1, get. rewrite (mv_inodes _ _ _ _ _ M1). set (l := private_list (inodes s ino)) in *.
  destruct (last _) as [b|] eqn:El.
  2:{ apply runs_ret. split_and!; [by left|done|done]. }
  assert (Hb : b ∈ base.filter (fun b => locked (bhs s1 b) = true) l) by (by apply last_Some_elem_of).
  apply list_elem_of_filter in Hb as [Hlb Hin].
  apply runs_bind, runs_modify.
  pose proof (moved_upd_bh _ _ _ _ _ b _ (neutral_count 1) M1) as M2. set (s2 := upd_bh b _ s1) in *.
  assert (L2 : no_lock s1 s2) by (apply locked_upd_bh; by intros []). clearbody s2.
apply wait_note_ok. intros s3 L3 Hl3 M3.
  assert (M : moved [] (inodes s) (settled s) s s3).
  { pose proof (moved_trans _ _ _ _ _ _ _ _ _ M2 M3) as M. eapply moved_ext; [apply M|apply (mv_inodes _ _ _ _ _ M2)|].
    intros c. unfold at_key. rewrite (mv_bhs _ _ _ _ _ M2). unfold at_key. case_decide; [|done].
    destruct (settled s c); unfold update; simpl. f_equal. lia. }
  assert (L : no_lock s s3) by (unfold no_lock in *; auto). clear M2 M3.
  eapply runs_conseq; [apply IH|].
  - rewrite (mv_inodes _ _ _ _ _ M). fold l. eapply Nat.lt_le_trans; [|apply Nat.lt_succ_r, Hf].
    apply (filter_length_lt _ _ l b); [intros x; cbv beta; apply L|done|by apply L1|]. cbv beta. by rewrite Hl3.
  - intros r s' (Hr & L4 & M4). split_and!.
    + rewrite (mv_inodes _ _ _ _ _ M) in Hr. fold l in Hr. unfold err_of in Hr.
      assert (l <> []) by (intros ->; by apply elem_of_nil in Hin).
      destruct Hr as [->|[? ?]]; [|by right]. destruct (uptodate _); [by left|by right].
    + unfold no_lock in *. auto.
    + eapply moved_ext; [apply (moved_trans _ _ _ _ _ _ _ _ _ M M4)|apply (mv_inodes _ _ _ _ _ M)|apply (mv_bhs _ _ _ _ _ M)].
Qed.
End buffers.
