(* ===== verification/MqfsTheorems.v ===== *)
(** * mqfs: theorems on the metadata of a transaction *)

From S2P Require Import Prelude Mqfs MqfsFacts.

(** ** Metadata buffers *)

Lemma submit_mapping_ok io_ok ino sid l s :
  private_data (inodes s ino) = true -> private_list (inodes s ino) = l -> NoDup l ->
  runs (mqfs_submit_mapping_buffers io_ok ino sid) s (fun r s' => r = 0 /\ exists ks,
    (forall b, b ∈ ks -> b ∈ l) /\ (forall b, b ∈ l -> dirty (settled io_ok s b) = true -> b ∈ ks) /\ NoDup ks /\
    submitted io_ok ino sid l ks s s').
Proof.
  intros Hp El Hnd. unfold mqfs_submit_mapping_buffers. apply runs_bind, runs_gets. rewrite Hp, El. cbn [negb orb].
  case_bool_decide as E.
  - apply runs_ret. split; [done|]. exists []. subst l. rewrite E. split_and!; [done..|constructor|].
    unfold submitted. simpl. eapply moved_ext; [apply moved_refl| |done].
    intros i. unfold at_key. case_decide; [|done]. subst. destruct (inodes s ino); simpl in *. by subst.
  - unfold mqfs_submit_buffers_list. apply runs_bind, runs_gets, runs_bind. rewrite El.
    eapply runs_conseq; [apply (submit_loop_ok io_ok (S (length l)) ino sid l s); [done|done|lia]|].
    intros [] s' Hs'. by apply runs_ret.
Qed.

(** A buffer after it was submitted and waited for. *)
Definition after_wait (io_ok : nat -> bool) (s : mfs) (l : list nat) (b : nat) : mbuf :=
  let x := settled io_ok s b in
  if decide (b ∈ l) then off_map (if dirty x then written io_ok b x else x) else x.

Lemma submit_wait_ok io_ok ino sid l s :
  private_data (inodes s ino) = true -> private_list (inodes s ino) = l ->
  fsmeta_pending_list (inodes s ino) = [] -> NoDup l ->
  runs (_ <-- mqfs_submit_mapping_buffers io_ok ino sid ;; mqfs_wait_mapping_buffers io_ok ino) s (fun r s' =>
    exists ks, (forall b, b ∈ ks -> b ∈ l) /\ (forall b, b ∈ l -> dirty (settled io_ok s b) = true -> b ∈ ks) /\
    r = (if all_uptodate io_ok s' ks then 0 else EIO_ret) /\
    out s' = out s ++ ((fun b => MqBh b sid) <$> base.filter (fun b => dirty (settled io_ok s b) = true) l) /\
    private_list (inodes s' ino) = [] /\ fsmeta_pending_list (inodes s' ino) = [] /\
    (forall b, settled io_ok s' b = after_wait io_ok s l b) /\ (forall b, b ∈ ks -> bhs s' b = settled io_ok s' b)).
Proof.
  intros Hp El Ep Hnd. apply runs_bind. eapply runs_conseq; [by apply submit_mapping_ok|].
  intros r0 s1 (_ & ks & Hks & Hdk & Hnk & M1). unfold submitted in M1.
  assert (Ei1 : inodes s1 ino = (inodes s ino) <| private_list := [] |> <| fsmeta_pending_list := ks |>).
  { rewrite (mv_inodes _ _ _ _ _ _ M1). unfold at_key. rewrite decide_True by done.
    destruct (inodes s ino); simpl in *. subst. unfold update; simpl. by rewrite app_nil_r. }
  assert (Hs1 : forall b, b ∈ ks -> settled io_ok s1 b =
            (if dirty (settled io_ok s b) then written io_ok b (settled io_ok s b) else settled io_ok s b)).
  { intros b Hb. rewrite (mv_bhs _ _ _ _ _ _ M1). cbv beta. rewrite decide_True by auto. unfold after_submit.
    by rewrite bool_decide_true by done. }
  unfold mqfs_wait_mapping_buffers. apply runs_bind, runs_gets.
  replace (private_data (inodes s1 ino)) with true by (rewrite Ei1; by destruct (inodes s ino)). cbn [negb].
  unfold mqfs_wait_buffers_list. apply runs_bind, runs_gets.
  replace (fsmeta_pending_list (inodes s1 ino)) with ks by (rewrite Ei1; by destruct (inodes s ino)).
  apply runs_bind. eapply runs_conseq.
  { apply (wait_loop_ok io_ok (S (length ks)) ino 0 ks s1); [rewrite Ei1; by destruct (inodes s ino)|done|lia|].
    intros b Hb. rewrite Hs1 by done. destruct (dirty (settled io_ok s b)) eqn:E; [by destruct (settled io_ok s b)|done]. }
  intros r s2 (-> & _ & Hl2 & M2).
  assert (Ei2 : inodes s2 ino = (inodes s ino) <| private_list := [] |> <| fsmeta_pending_list := [] |>).
  { rewrite (mv_inodes _ _ _ _ _ _ M2). unfold at_key. rewrite decide_True, Ei1 by done. by destruct (inodes s ino). }
  assert (El2 : private_list (inodes s2 ino) = []) by (rewrite Ei2; by destruct (inodes s ino)).
  apply runs_bind. unfold osync_buffers_list. apply runs_bind, runs_gets. rewrite El2.
  eapply runs_conseq; [apply osync_loop_ok; rewrite El2; simpl; lia|]. intros r s3 (Hr & L3 & M3). apply runs_ret.
  rewrite El2 in Hr. destruct Hr as [->|[_ ?]]; [|done].
  assert (Hout : out s3 = out s ++ ((fun b => MqBh b sid) <$> base.filter (fun b => dirty (settled io_ok s b) = true) l)).
  { pose proof (moved_trans _ _ _ _ _ _ _ _ _ _ (moved_trans _ _ _ _ _ _ _ _ _ _ M1 M2) M3) as [R _ _].
    rewrite R, !app_nil_r. by destruct s. }
  assert (Hs3 : forall b, settled io_ok s3 b = after_wait io_ok s l b).
  { intros b. unfold after_wait. rewrite (mv_bhs _ _ _ _ _ _ M3), (mv_bhs _ _ _ _ _ _ M2). destruct (decide (b ∈ ks)) as [Hb|Hb].
    - rewrite Hs1 by done. by rewrite decide_True by auto.
    - rewrite (mv_bhs _ _ _ _ _ _ M1). cbv beta. case_decide as Hin; [|done]. unfold after_submit.
      rewrite bool_decide_false by done. destruct (dirty (settled io_ok s b)) eqn:E; [|done]. by destruct Hb; apply Hdk. }
  assert (Hunl : forall b, b ∈ ks -> bhs s3 b = settled io_ok s3 b).
  { intros b Hb. unfold settled, settle. destruct (locked (bhs s3 b)) eqn:E; [|done].
    apply L3 in E. rewrite Hl2 in E; done. }
  exists ks. split_and!; [done|done| |done| | |done|done].
  - assert (Ea : all_uptodate io_ok s3 ks = all_uptodate io_ok s1 ks); [|rewrite Ea; by destruct (all_uptodate io_ok s1 ks)].
    apply all_uptodate_ext. intros b Hb.
    rewrite (mv_bhs _ _ _ _ _ _ M3), (mv_bhs _ _ _ _ _ _ M2). cbv beta. rewrite decide_True by done.
    by destruct (settled io_ok s1 b).
  - by rewrite (mv_inodes _ _ _ _ _ _ M3).
  - rewrite (mv_inodes _ _ _ _ _ _ M3), Ei2. by destruct (inodes s ino).
Qed.

(** C12: The buffers of an inode that were dirty are written once each, in the
    order of the list, all on the stream of the transaction, however the
    writes complete in the meantime; then all are waited for: none is dirty or
    associated with the inode any more, a written one is unlocked and up to
    date exactly when its write succeeded, every reference is given back, and
    the result is 0 only if every one of these writes succeeded, -EIO only if
    a buffer is not up to date. *)
Theorem metadata_written_once io_ok ino sid l s :
  private_data (inodes s ino) = true -> private_list (inodes s ino) = l ->
  fsmeta_pending_list (inodes s ino) = [] -> NoDup l ->
  runs (_ <-- mqfs_submit_mapping_buffers io_ok ino sid ;; mqfs_wait_mapping_buffers io_ok ino) s (fun r s' =>
    out s' = out s ++ ((fun b => MqBh b sid) <$> base.filter (fun b => dirty (bhs s b) = true) l) /\
    private_list (inodes s' ino) = [] /\ fsmeta_pending_list (inodes s' ino) = [] /\
    (forall b, b ∈ l -> dirty (bhs s' b) = false /\ b_assoc_map (bhs s' b) = None /\
       (dirty (bhs s b) = true -> locked (bhs s' b) = false /\ uptodate (bhs s' b) = io_ok b)) /\
    (forall b, b_count (settled io_ok s' b) = b_count (settled io_ok s b)) /\
    (r = 0 /\ (forall b, b ∈ l -> dirty (bhs s b) = true -> io_ok b = true) \/
     r = EIO_ret /\ exists b, b ∈ l /\ uptodate (bhs s' b) = false)).
Proof.
  intros Hp El Ep Hnd. eapply runs_conseq; [by apply (submit_wait_ok io_ok ino sid l s)|].
  intros r s' (ks & Hks & Hdk & -> & Hout & Hpl & Hfl & Hset & Hunl). unfold after_wait in Hset.
  split_and!; [|done|done|..].
  - rewrite Hout. do 2 f_equal. apply list_filter_ext. intros b _. by rewrite dirty_settled.
  - intros b Hb. rewrite <- (dirty_settled io_ok s'), <- (assoc_settled io_ok s'), Hset, decide_True by done.
    split_and!; [destruct (dirty (settled io_ok s b)) eqn:E; by destruct (settled io_ok s b)
                |by destruct (if dirty _ then _ else _)|].
    intros Hd. rewrite <- (dirty_settled io_ok) in Hd. rewrite (Hunl b (Hdk b Hb Hd)), Hset, decide_True, Hd by done.
    pose proof (settle_locked io_ok b (bhs s b)) as Hl. fold (settled io_ok s b) in Hl. by destruct (settled io_ok s b).
  - intros b. rewrite Hset. case_decide; [|done]. destruct (dirty _); by destruct (settled io_ok s b).
  - destruct (all_uptodate io_ok s' ks) eqn:Ea; [left|right]; (split; [done|]).
    + intros b Hb Hd. rewrite <- (dirty_settled io_ok) in Hd.
      unfold all_uptodate in Ea. rewrite forallb_forall in Ea. specialize (Ea b (proj1 (list_elem_of_In _ _) (Hdk b Hb Hd))).
      rewrite Hset, decide_True, Hd in Ea by auto. by destruct (settled io_ok s b).
    + apply not_true_iff_false in Ea. unfold all_uptodate in Ea. rewrite forallb_forall in Ea.
      destruct (decide (Exists (fun b => uptodate (bhs s' b) = false) ks)) as [Hex|Hno].
      * apply Exists_exists in Hex as (b & Hb & Hu). eauto.
      * destruct Ea. intros b Hb%list_elem_of_In. rewrite <- Hunl by done.
        apply not_false_is_true. intros Hu. apply Hno, Exists_exists. eauto.
Qed.
