(* ===== verification/MqfsSync.v ===== *)
(** * mqfs: fsync and fatomic (mqfs/fsync.c, mqfs/filemap_compat.c)

    A transaction of mqfs is the data of a file, the metadata buffers of its
    inode, the inode, and the same for the parent directories of a new file.
    All of it is submitted on one stream, then committed by a doorbell; fsync
    waits for the writes, fatomic does not. *)

From S2P Require Import Prelude Mqfs.

Definition EROFS_ret : Z := -30.

(** ** What mqfs calls in the VFS

    [fstreamwrite]: [filemap_fstreamwrite_tag_range(.., WB_TX_WRITE, sid)], the
    write-back of the dirty pages of the file; [fdatawait]:
    [file_fdatawait_range]; [check_wb_err]: [file_check_and_advance_wb_err];
    [sync_inode_nowait_data ino write_inode] writes the inode back through the
    given [write_inode] operation. *)
Class Vfs := {
  io_ok : nat -> bool;
  fstreamwrite : Z -> M mfs Z;
  fdatawait : M mfs Z;
  check_wb_err : M mfs Z;
  sync_inode_nowait_data : nat -> M mfs Z -> M mfs Z;
}.

(** The file and the mount, as the two system calls see them. *)
Record sync_env := mk_sync_env {
  e_ino : nat;
  e_cpu : Z;                   (* smp_processor_id() *)
  e_datasync : bool;
  e_forced_shutdown : bool;
  e_rdonly : bool;
  e_aborted : bool;            (* EXT4_MF_FS_ABORTED *)
  e_barrier : bool;            (* the barrier mount option *)
  e_needs_writeback : bool;    (* mapping_needs_writeback *)
}.

Section sync.
Context `{Vfs}.

Definition file_tag_streamwrite_range (e : sync_env) (sid : Z) : M mfs Z :=
  err <-- (if e_needs_writeback e then fstreamwrite sid else ret 0) ;;
  err2 <-- check_wb_err ;;
  ret (if err =? 0 then err2 else err).

Definition tx_write_inode_metadata (ino : nat) (stream : Z) : M mfs Z :=
  sync_inode_nowait_data ino (ext4_write_inode io_ok ino stream).

Definition inode_lock (ino : nat) : M mfs unit :=
  l <-- gets (fun s => inode_locked (inodes s ino)) ;;
  check (negb l) SelfDeadlock ;;;
  modify (upd_inode ino (fun i => i <| inode_locked := true |>)).

Definition inode_unlock (ino : nat) : M mfs unit :=
  l <-- gets (fun s => inode_locked (inodes s ino)) ;;
  check l BadUnlock ;;;
  modify (upd_inode ino (fun i => i <| inode_locked := false |>)).

(** ** The file itself *)

(** [generic_file_atomic_write_submit] is [__generic_file_atomic_write_submit],
    and so on. *)
Definition generic_file_atomic_write_submit (e : sync_env) (stream : Z) : M mfs Z :=
  let ino := e_ino e in
  err <-- file_tag_streamwrite_range e stream ;;
  if negb (err =? 0) then ret err
  else
    inode_lock ino ;;;
    r <-- mqfs_submit_mapping_buffers io_ok ino stream ;;
    i <-- gets (fun s => inodes s ino) ;;
    r <-- (if negb (i_dirty i) || (e_datasync e && negb (i_dirty_datasync i)) then ret r
           else
             err <-- tx_write_inode_metadata ino stream ;;
             ret (if r =? 0 then err else r)) ;;
    err <-- check_wb_err ;;
    ret (if err =? 0 then r else err).

Definition generic_file_atomic_write_wait_nodata (e : sync_env) : M mfs Z :=
  inode_unlock (e_ino e) ;;; ret 0.

Definition generic_file_atomic_write_wait (e : sync_env) : M mfs Z :=
  let ino := e_ino e in
  r <-- tx_write_wait_inode_buffer io_ok ino ;;
  err <-- mqfs_wait_mapping_buffers io_ok ino ;;
  let r := if r =? 0 then err else r in
  inode_unlock ino ;;;
  err <-- fdatawait ;;
  let r := if r =? 0 then err else r in
  err <-- check_wb_err ;;
  ret (if err =? 0 then r else err).

(** ** Its parents

    [leaf]: the inode is still the file.  The result has the list of the
    inodes to wait for. *)

Definition igrab (ino : nat) : M mfs unit := modify (upd_inode ino (fun i => i <| i_count ::= fun n => n + 1 |>)).
Definition iput (ino : nat) : M mfs unit := modify (upd_inode ino (fun i => i <| i_count ::= fun n => n - 1 |>)).
Definition clear_newentry (ino : nat) : M mfs unit := modify (upd_inode ino (fun i => i <| newentry := false |>)).

Fixpoint parent_loop (fuel : nat) (ino : nat) (stream : Z) (leaf : bool) (waiting : list nat)
    : M mfs (Z * list nat) :=
  match fuel with
  | O => fun _ => Stall
  | S fuel =>
      i <-- gets (fun s => inodes s ino) ;;
      if negb (newentry i) then ret (0, waiting)
      else
        (if leaf then clear_newentry ino else ret tt) ;;;
        match d_parent i with
        | None => ret (0, waiting)
        | Some next =>
            igrab next ;;;
            (if leaf then iput ino else ret tt) ;;;
            r <-- mqfs_submit_mapping_buffers io_ok next stream ;;
            if negb (r =? 0) then ret (r, waiting)
            else
              r <-- tx_write_inode_metadata next stream ;;
              if negb (r =? 0) then ret (r, waiting)
              else parent_loop fuel next stream false (waiting ++ [next])
        end
  end.

(** [depth]: a bound on the number of directories above the file. *)
Definition mqfs_atomic_write_parent_submit (depth : nat) (ino : nat) (stream : Z) : M mfs (Z * list nat) :=
  n <-- gets (fun s => newentry (inodes s ino)) ;;
  if negb n then ret (0, [])
  else igrab ino ;;; parent_loop (S depth) ino stream true [].

Fixpoint parent_wait_loop (waiting : list nat) (r : Z) : M mfs Z :=
  match waiting with
  | [] => ret r
  | ino :: waiting =>
      clear_newentry ino ;;;
      _ <-- mqfs_wait_mapping_buffers io_ok ino ;;
      r <-- tx_write_wait_inode_buffer io_ok ino ;;
      iput ino ;;;
      parent_wait_loop waiting r
  end.

Definition mqfs_atomic_write_parent_wait (waiting : list nat) : M mfs Z := parent_wait_loop waiting 0.

(** ** The system calls, without a jbd2 journal *)

(** The description block: a block of the journal of the stream, written at
    once. *)
Definition submit_jh (stream : Z) : M mfs unit := mq_emit (MqJh stream).

(** [wait_for_completion_io(&jh_done)]: [jh_end_io] has run; then the page and
    the bio are given back. *)
Definition wait_jh (stream : Z) : M mfs unit := mq_emit (MqJhDone stream).

Definition next_txid : M mfs Z :=
  modify (fun s => s <| txid_alloc ::= fun t => sext 32 (t + 1) |>) ;;; t <-- gets txid_alloc ;; ret (u64 t).

(** Up to the commit; the last result tells whether the parents were
    submitted. *)
Definition submit_inode_tx (depth : nat) (e : sync_env) (stream : Z) : M mfs (Z * bool * list nat) :=
  txid <-- next_txid ;;
  r <-- generic_file_atomic_write_submit e stream ;;
  unpack (r, sync_parent, waiting) <--
    (if r =? 0 then
       unpack (r, w) <-- mqfs_atomic_write_parent_submit depth (e_ino e) stream ;; ret (r, true, w)
     else ret (r, false, [])) ;;
  submit_jh stream ;;;
  mq_emit (MqCommit stream txid) ;;;
  ret (r, sync_parent, waiting).

Definition flush_tx (e : sync_env) (stream : Z) : M mfs unit :=
  if e_barrier e then mq_emit (MqFlush stream) else ret tt.

Definition ext4_sync_file (depth : nat) (e : sync_env) : M mfs Z :=
  if e_forced_shutdown e then ret EIO_ret
  else if e_rdonly e then ret (if e_aborted e then EROFS_ret else 0)
  else
    stream <-- get_free_stream (e_cpu e) ;;
    unpack (_, sync_parent, waiting) <-- submit_inode_tx depth e stream ;;
    r <-- generic_file_atomic_write_wait e ;;
    r <-- (if sync_parent : bool then mqfs_atomic_write_parent_wait waiting else ret r) ;;
    wait_jh stream ;;;
    flush_tx e stream ;;;
    put_stream stream ;;;
    ret r.

Definition ext4_atomic_file (depth : nat) (e : sync_env) : M mfs Z :=
  if e_forced_shutdown e then ret EIO_ret
  else if e_rdonly e then ret (if e_aborted e then EROFS_ret else 0)
  else
    stream <-- get_free_stream (e_cpu e) ;;
    _ <-- submit_inode_tx depth e stream ;;
    r <-- generic_file_atomic_write_wait_nodata e ;;
    flush_tx e stream ;;;
    put_stream stream ;;;
    ret r.
End sync.
