(* ===== verification/MqfsSyncFacts.v ===== *)
(** * mqfs: facts on the steps of a transaction

    Each step of a transaction returns, submits on its stream only and leaves
    locks, references and streams alone.  [soft]: a step that does not touch
    the lists of associated buffers either. *)

From S2P Require Import Prelude Mqfs MqfsFacts MqfsSync MqfsTheorems.

Definition on_stream (sid : Z) (e : mq_event) : Prop :=
  match e with
  | MqData x | MqBh _ x => x = sid
  | _ => False
  end.

Definition inode_key (i : minode) : bool * bool * Z * option nat :=
  (inode_locked i, newentry i, i_count i, d_parent i).

Definition inode_lists (i : minode) : list nat * list nat := (private_list i, fsmeta_pending_list i).

Definition meta_mapped (i : minode) : Prop := inodemeta_pending_list i <> [] -> private_data i = true.

Definition stream_part (s : mfs) : Z * list Z * list bool := (nr_mq_streams s, mq_streams s, stream_lock s).

(** Well-formed: a buffer is on one list, once; what is waited for is not
    dirty; an inode with its own buffer pending knows the mapping of it. *)
Record wfm (s : mfs) : Prop := mk_wfm {
  wf_lists : forall i, NoDup (private_list (inodes s i) ++ fsmeta_pending_list (inodes s i));
  wf_clean : forall i b, b ∈ fsmeta_pending_list (inodes s i) -> dirty (bhs s b) = false;
  wf_meta : forall i, meta_mapped (inodes s i);
}.

Record quiet (sid : Z) (s s' : mfs) : Prop := mk_quiet {
  qt_out : exists evs, out s' = out s ++ evs /\ Forall (on_stream sid) evs;
  qt_streams : stream_part s' = stream_part s;
  qt_keys : forall i, inode_key (inodes s' i) = inode_key (inodes s i);
  qt_wf : wfm s -> wfm s';
}.

#[export] Instance quiet_preorder sid : PreOrder (quiet sid).
Proof.
  split.
  - intros s. split; [exists []; by rewrite app_nil_r|done..].
  - intros s1 s2 s3 [(e1 & O1 & F1) S1 K1 W1] [(e2 & O2 & F2) S2 K2 W2]. split.
    + exists (e1 ++ e2). split; [by rewrite O2, O1, app_assoc|by apply Forall_app].
    + congruence.
    + intros i. by rewrite K2.
    + auto.
Qed.

Record soft (sid : Z) (s s' : mfs) : Prop := mk_soft {
  sf_out : exists evs, out s' = out s ++ evs /\ Forall (on_stream sid) evs;
  sf_streams : stream_part s' = stream_part s;
  sf_keys : forall i, inode_key (inodes s' i) = inode_key (inodes s i);
  sf_lists : forall i, inode_lists (inodes s' i) = inode_lists (inodes s i);
  sf_meta : forall i, meta_mapped (inodes s i) -> meta_mapped (inodes s' i);
  sf_dirty : forall b, dirty (bhs s' b) = true -> dirty (bhs s b) = true;
}.

#[export] Instance soft_preorder sid : PreOrder (soft sid).
Proof.
  split.
  - intros s. split; [exists []; by rewrite app_nil_r|done..].
  - intros s1 s2 s3 [(e1 & O1 & F1) S1 K1 L1 W1 D1] [(e2 & O2 & F2) S2 K2 L2 W2 D2]. split; [|congruence|..].
    + exists (e1 ++ e2). split; [by rewrite O2, O1, app_assoc|by apply Forall_app].
    + intros i. by rewrite K2.
    + intros i. by rewrite L2.
    + auto.
    + auto.
Qed.

(** Well-formedness depends on the lists and on what is dirty. *)
Lemma wfm_ext s s' :
  (forall i, inode_lists (inodes s' i) = inode_lists (inodes s i)) ->
  (forall i, meta_mapped (inodes s i) -> meta_mapped (inodes s' i)) ->
  (forall b, dirty (bhs s' b) = true -> dirty (bhs s b) = true) -> wfm s -> wfm s'.
Proof.
  intros L M D [Hl Hc Hm].
  assert (E : forall i, private_list (inodes s' i) = private_list (inodes s i) /\
                        fsmeta_pending_list (inodes s' i) = fsmeta_pending_list (inodes s i)).
  { intros i. by pose proof (L i) as [= -> ->]. }
  split; intros i; destruct (E i) as [Ep Ef]; rewrite ?Ep, ?Ef; [done| |auto].
  intros b Hb. specialize (Hc i b Hb). destruct (dirty (bhs s' b)) eqn:Ed; [|done]. apply D in Ed. congruence.
Qed.

Lemma soft_quiet sid s s' : soft sid s s' -> quiet sid s s'.
Proof. intros [O S K L W D]. split; [done..|]. by apply wfm_ext. Qed.

(** ** Small steps *)

Lemma soft_quiesce sid s s' io_ok : quiesce io_ok s s' -> soft sid s s'.
Proof.
  intros Hq. pose proof (fun b => proj1 (quiesce_keeps io_ok s s' b Hq)) as Hd. destruct Hq as [Hr _ _].
  destruct s, s'. injection Hr. intros. subst. split; [exists []; by rewrite app_nil_r|done..|].
  intros b. simpl in *. by rewrite Hd.
Qed.

Lemma soft_upd_bh sid b f s : (forall x, dirty (f x) = true -> dirty x = true) -> soft sid s (upd_bh b f s).
Proof.
  intros Hf. split; try (by destruct s).
  - exists []. rewrite app_nil_r. by destruct s.
  - intros c. destruct (decide (c = b)) as [->|]; [rewrite bhs_upd; apply Hf|by rewrite bhs_upd_ne].
Qed.

Lemma inodes_upd i f s j : inodes (upd_inode i f s) j = if decide (j = i) then f (inodes s i) else inodes s j.
Proof.
  unfold upd_inode. destruct s; simpl. case_decide; [subst; by rewrite fn_lookup_alter|by rewrite fn_lookup_alter_ne].
Qed.

Lemma soft_upd_inode sid i f s :
  (forall x, inode_key (f x) = inode_key x) -> (forall x, inode_lists (f x) = inode_lists x) ->
  (forall x, meta_mapped x -> meta_mapped (f x)) -> soft sid s (upd_inode i f s).
Proof.
  intros Hk Hl Hm. split; [exists []; rewrite app_nil_r; by destruct s|by destruct s|..|by destruct s].
  all: intros j; rewrite inodes_upd; case_decide; subst; auto.
Qed.

Lemma soft_emit sid e s : on_stream sid e -> soft sid s (s <| out ::= (.++ [e]) |>).
Proof. intros He. split; try (by destruct s). exists [e]. split; [by destruct s|by repeat constructor]. Qed.

(** Steps that only touch allocations, from state [s]. *)
Ltac soft_alloc s := destruct s; split; try done; exists []; by rewrite app_nil_r.

(** [softly m]: every run of [m] returns and is soft. *)
Definition softly (sid : Z) {A} (m : M mfs A) : Prop := forall s, runs m s (fun _ s' => soft sid s s').

Lemma softly_bind sid {A B} (m : M mfs A) (k : A -> M mfs B) :
  softly sid m -> (forall a, softly sid (k a)) -> softly sid (bind m k).
Proof.
  intros Hm Hk s. apply runs_bind. eapply runs_conseq; [apply Hm|]. intros a s1 S1.
  eapply runs_conseq; [apply Hk|]. intros b s2 S2. by transitivity s1.
Qed.

Lemma softly_ret sid {A} (a : A) : softly sid (ret a).
Proof. intros s. apply runs_ret. reflexivity. Qed.

Lemma softly_gets sid {A} (f : mfs -> A) : softly sid (gets f).
Proof. intros s. apply runs_gets. reflexivity. Qed.

Lemma softly_upd_bh sid b f : (forall x, dirty (f x) = true -> dirty x = true) -> softly sid (modify (upd_bh b f)).
Proof. intros Hf s. apply runs_modify. by apply soft_upd_bh. Qed.

Lemma softly_upd_inode sid i f :
  (forall x, inode_key (f x) = inode_key x) -> (forall x, inode_lists (f x) = inode_lists x) ->
  (forall x, meta_mapped x -> meta_mapped (f x)) -> softly sid (modify (upd_inode i f)).
Proof. intros ??? s. apply runs_modify. by apply soft_upd_inode. Qed.

Lemma softly_emit sid e : on_stream sid e -> softly sid (mq_emit e).
Proof. intros He s. apply runs_modify. by apply soft_emit. Qed.

Lemma softly_if sid {A} (b : bool) (m1 m2 : M mfs A) : softly sid m1 -> softly sid m2 -> softly sid (if b then m1 else m2).
Proof. by destruct b. Qed.

Create HintDb softly discriminated.
#[export] Hint Resolve softly_bind softly_ret softly_gets softly_if : softly.
#[export] Hint Extern 1 (softly _ (get_bh _)) => apply softly_upd_bh; by intros [] : softly.
#[export] Hint Extern 1 (softly _ (brelse _)) => apply softly_upd_bh; by intros [] : softly.
#[export] Hint Extern 1 (softly _ (unlock_buffer _)) => apply softly_upd_bh; by intros [] : softly.
#[export] Hint Extern 1 (softly _ (modify (upd_bh _ _))) => apply softly_upd_bh; by intros [] : softly.
#[export] Hint Extern 1 (softly _ (mq_emit _)) => apply softly_emit; done : softly.
#[export] Hint Extern 1 (softly _ (let _ := _ in _)) => cbv zeta : softly.

Section steps.
Context (io_ok : nat -> bool) (sid : Z).

Lemma softly_wait b : softly sid (wait_on_buffer io_ok b).
Proof. intros s. eapply runs_conseq; [apply wait_quiesce|]. intros [] s' [Hq _]. by eapply soft_quiesce. Qed.

Lemma softly_yield : softly sid (yield_ io_ok).
Proof. intros s. eapply runs_conseq; [apply yield_quiesce|]. intros [] s' Hq. by eapply soft_quiesce. Qed.

Lemma softly_lock b : softly sid (lock_buffer io_ok b).
Proof. unfold lock_buffer. apply softly_bind; [apply softly_wait|]. intros []. apply softly_upd_bh. by intros []. Qed.
#[local] Hint Resolve softly_wait softly_yield softly_lock : softly.

Lemma softly_tx_write b : softly sid (tx_write_dirty_buffer io_ok b sid).
Proof. unfold tx_write_dirty_buffer. auto 20 with softly. Qed.

Lemma softly_copy_out b : softly sid (copy_out_bh io_ok b).
Proof.
  unfold copy_out_bh. apply softly_bind; [auto with softly|]. intros n.
  apply softly_bind; [intros s; apply runs_modify; soft_alloc s|]. intros _.
  apply softly_bind; [apply softly_upd_bh; done|]. intros _.
  apply softly_bind; [|auto 20 with softly].
  intros s. unfold mqfs_alloc, runs. destruct (alloc_pages s); [reflexivity|]. soft_alloc s.
Qed.

(** Dirtying a buffer and writing it at once. *)
Lemma softly_write_new b f {A} (a : A) :
  (forall x, dirty (f x) = true) -> softly sid (modify (upd_bh b f) ;;; tx_write_dirty_buffer io_ok b sid ;;; ret a).
Proof.
  intros Hf s. apply runs_bind, runs_modify, runs_bind.
  eapply runs_conseq; [apply tx_write_ok; by rewrite bhs_upd|]. intros [] s' [[Hr Hs] Hd]. apply runs_ret.
  split; [|rewrite Hr; by destruct s..|].
  - exists [MqBh b sid]. split; [rewrite Hr; by destruct s|by repeat constructor].
  - intros c Hc. destruct (decide (c = b)) as [->|Hne]; [congruence|].
    specialize (Hs c). rewrite decide_False in Hs by done.
    rewrite <- (dirty_settled io_ok) in Hc. rewrite Hs, dirty_settled in Hc. by rewrite bhs_upd_ne in Hc.
Qed.

Lemma softly_write_inode ino : softly sid (ext4_write_inode io_ok ino sid).
Proof.
  unfold ext4_write_inode. apply softly_bind; [auto with softly|]. intros [err|bh]; [auto with softly|].
  apply softly_bind; [auto with softly|]. intros _. apply softly_bind; [auto with softly|]. intros m.
  apply softly_bind; [|intros []; auto 20 with softly].
  destruct m as [m|].
  - apply softly_bind; [apply softly_copy_out|]. intros [err|l]; [auto with softly|].
    apply softly_bind; [apply softly_upd_inode; by intros []|]. intros _. apply softly_write_new. by intros [].
  - apply softly_bind; [apply softly_upd_inode; by intros []|]. intros _.
    apply softly_bind; [apply softly_upd_bh; by intros []|]. intros _.
    apply softly_bind; [apply softly_tx_write|auto with softly].
Qed.

(** ** Waiting for the buffer of an inode *)

Lemma wait_inode_turn_soft b err s :
  runs (wait_inode_turn io_ok b err) s (fun _ s' => soft sid s s' /\ inodes s' = inodes s).
Proof.
  unfold wait_inode_turn. apply runs_bind, runs_modify, runs_bind, runs_modify, runs_bind.
  eapply runs_conseq; [apply wait_quiesce|]. intros [] s1 [Hq _]. apply runs_bind, runs_gets, runs_bind, runs_modify, runs_ret.
  split.
  - etrans; [|apply soft_upd_bh; by intros []]. etrans; [|by eapply soft_quiesce].
    etrans; apply soft_upd_bh; by intros [].
  - destruct (quiesce_rest_is io_ok _ _ Hq) as [_ Ei]. transitivity (inodes s1); [by destruct s1|]. rewrite Ei. by destruct s.
Qed.

Lemma removelast_nil {A} (l : list A) : removelast l <> [] -> l <> [].
Proof. by destruct l. Qed.

Lemma removelast_length {A} (l : list A) x : last l = Some x -> S (length (removelast l)) = length l.
Proof.
  intros Hl. destruct l as [|y l _] using rev_ind; [done|]. rewrite removelast_last, length_app. simpl. lia.
Qed.

(** Both lists are emptied from the end, the copies given back. *)
Lemma inodemeta_loop_soft fuel ino err s :
  (length (inodemeta_pending_list (inodes s ino)) < fuel)%nat ->
  runs (inodemeta_loop io_ok fuel ino err) s (fun _ s' => soft sid s s' /\
    copyout_inode_list (inodes s' ino) = copyout_inode_list (inodes s ino)).
Proof.
  revert err s. induction fuel as [|fuel IH]; intros err s Hf; [lia|]. cbn [inodemeta_loop].
  apply runs_bind. eapply runs_conseq; [apply yield_quiesce|]. intros [] s1 Hq.
  pose proof (soft_quiesce sid s s1 io_ok Hq) as S1. destruct (quiesce_rest_is io_ok s s1 Hq) as [_ Ei].
  apply runs_bind, runs_gets. rewrite Ei. destruct (last _) as [b|] eqn:El; [|apply runs_ret; by rewrite Ei].
  apply runs_bind, runs_modify. set (s2 := upd_inode ino _ s1).
  assert (S2 : soft sid s1 s2).
  { apply soft_upd_inode; [by intros []..|]. intros x Hx Hne. destruct x; simpl in *. by apply Hx, removelast_nil. }
  assert (Ei2 : inodes s2 ino = (inodes s ino) <| inodemeta_pending_list ::= fun l => removelast l |>).
  { subst s2. by rewrite inodes_upd, decide_True, Ei by done. }
  apply runs_bind. eapply runs_conseq; [apply wait_inode_turn_soft|]. intros r s3 [S3 E3].
  eapply runs_conseq.
  { apply IH. rewrite E3, Ei2. apply removelast_length in El. destruct (inodes s ino); simpl in *. lia. }
  intros r' s' [S4 E4]. split.
  - etrans; [apply S1|]. etrans; [apply S2|]. by etrans.
  - rewrite E4, E3, Ei2. by destruct (inodes s ino).
Qed.

Lemma copyout_loop_soft fuel ino err s :
  (length (copyout_inode_list (inodes s ino)) < fuel)%nat ->
  runs (copyout_loop io_ok fuel ino err) s (fun _ s' => soft sid s s').
Proof.
  revert err s. induction fuel as [|fuel IH]; intros err s Hf; [lia|]. cbn [copyout_loop].
  apply runs_bind. eapply runs_conseq; [apply yield_quiesce|]. intros [] s1 Hq.
  pose proof (soft_quiesce sid s s1 io_ok Hq) as S1. destruct (quiesce_rest_is io_ok s s1 Hq) as [_ Ei].
  apply runs_bind, runs_gets. rewrite Ei. destruct (last _) as [b|] eqn:El; [|by apply runs_ret].
  apply runs_bind, runs_modify. set (s2 := upd_inode ino _ s1).
  assert (S2 : soft sid s1 s2) by (apply soft_upd_inode; by intros []).
  assert (Ei2 : inodes s2 ino = (inodes s ino) <| copyout_inode_list ::= fun l => removelast l |>).
  { subst s2. by rewrite inodes_upd, decide_True, Ei by done. }
  apply runs_bind. eapply runs_conseq; [apply wait_inode_turn_soft|]. intros r s3 [S3 E3].
  apply runs_bind, runs_modify. set (s4 := s3 <| released ::= _ |>).
  assert (S4 : soft sid s3 s4) by (subst s4; soft_alloc s3).
  assert (E4 : inodes s4 = inodes s3) by (subst s4; by destruct s3).
  eapply runs_conseq.
  { apply IH. rewrite E4, E3, Ei2. apply removelast_length in El. destruct (inodes s ino); simpl in *. lia. }
  intros r' s' S5. etrans; [apply S1|]. etrans; [apply S2|]. etrans; [apply S3|]. by etrans.
Qed.

Lemma wait_inode_buffer_quiet ino s :
  wfm s -> runs (tx_write_wait_inode_buffer io_ok ino) s (fun _ s' => quiet sid s s').
Proof.
  intros W. unfold tx_write_wait_inode_buffer. apply runs_bind, runs_gets, runs_bind.
  assert (Hgo : forall s1 err, soft sid s s1 -> copyout_inode_list (inodes s1 ino) = copyout_inode_list (inodes s ino) ->
    runs (copyout_loop io_ok (S (length (copyout_inode_list (inodes s ino)))) ino err) s1 (fun _ s' => quiet sid s s')).
  { intros s1 err S1 E. eapply runs_conseq; [apply copyout_loop_soft; rewrite E; lia|].
    intros r s' S2. apply soft_quiet. by etrans. }
  case_bool_decide as E; [apply runs_ret, Hgo; done|].
  rewrite (wf_meta s W ino E). cbn [negb]. eapply runs_conseq; [apply inodemeta_loop_soft; lia|].
  intros err s1 [S1 E1]. by apply Hgo.
Qed.

(** ** The lists of associated buffers *)

Lemma quiet_moved evs fi fb s s' :
  moved io_ok evs fi fb s s' -> Forall (on_stream sid) evs ->
  (forall i, inode_key (fi i) = inode_key (inodes s i)) -> (wfm s -> wfm s') -> quiet sid s s'.
Proof.
  intros [R I B] He Hk Hw. split; [|..|done].
  - exists evs. split; [|done]. rewrite R. by destruct s.
  - rewrite R. by destruct s.
  - intros i. by rewrite I.
Qed.

Lemma submit_mapping_quiet ino s :
  wfm s -> runs (mqfs_submit_mapping_buffers io_ok ino sid) s (fun r s' => r = 0 /\ quiet sid s s').
Proof.
  intros W. destruct (private_data (inodes s ino)) eqn:Ep.
  2:{ unfold mqfs_submit_mapping_buffers. apply runs_bind, runs_gets. rewrite Ep. simpl. apply runs_ret. by split. }
  pose proof (wf_lists s W ino) as Hnd. apply NoDup_app in Hnd as (Hn1 & Hdis & Hn2).
  eapply runs_conseq; [by eapply submit_mapping_ok|]. intros r s' (-> & ks & Hks & Hdk & Hnk & M). split; [done|].
  eapply quiet_moved; [apply M|..].
  - apply Forall_fmap. apply Forall_true. done.
  - intros i. unfold at_key. case_decide; [|done]. by destruct (inodes s i).
  - intros _. assert (Hi : forall i, inodes s' i = at_key ino (fun i => i <| private_list := [] |> <| fsmeta_pending_list ::= app ks |>) (inodes s) i)
      by apply (mv_inodes _ _ _ _ _ _ M). unfold at_key in Hi. split.
    + intros i. rewrite Hi. case_decide; [|apply W]. subst.
      replace (_ ++ _) with (ks ++ fsmeta_pending_list (inodes s ino)) by (by destruct (inodes s ino)).
      apply NoDup_app. split_and!; [done| |done]. intros b Hb. auto.
    + intros i b Hb. rewrite <- (dirty_settled io_ok), (mv_bhs _ _ _ _ _ _ M). cbv beta.
      assert (Hcl : b ∈ private_list (inodes s ino) \/ dirty (settled io_ok s b) = false).
      { rewrite Hi in Hb. case_decide; [|right; rewrite dirty_settled; by eapply W]. subst.
        replace (fsmeta_pending_list _) with (ks ++ fsmeta_pending_list (inodes s ino)) in Hb by (by destruct (inodes s ino)).
        apply elem_of_app in Hb as [Hb|Hb]; [left; auto|right; rewrite dirty_settled; by eapply W]. }
      unfold after_submit. destruct Hcl as [Hin|Hcl]; [rewrite decide_True by done|]; repeat case_match;
        try done; destruct (settled io_ok s b); simpl in *; congruence.
    + intros i. rewrite Hi. case_decide; [|apply W]. subst. pose proof (wf_meta s W ino) as Hm. by destruct (inodes s ino).
Qed.

Lemma wait_mapping_quiet ino s :
  wfm s -> runs (mqfs_wait_mapping_buffers io_ok ino) s (fun _ s' => quiet sid s s').
Proof.
  intros W. unfold mqfs_wait_mapping_buffers. apply runs_bind, runs_gets.
  destruct (private_data _); cbn [negb]; [|apply runs_ret; reflexivity].
  unfold mqfs_wait_buffers_list. apply runs_bind, runs_gets, runs_bind.
  pose proof (wf_lists s W ino) as Hnd. apply NoDup_app in Hnd as (Hn1 & Hdis & Hn2).
  eapply runs_conseq.
  { apply wait_loop_ok; [done|done|lia|]. intros b Hb. rewrite dirty_settled. by eapply W. }
  intros r s1 (_ & _ & _ & M1).
  assert (Hi : forall i, inodes s1 i = at_key ino (fun i => i <| fsmeta_pending_list := [] |>) (inodes s) i)
    by apply (mv_inodes _ _ _ _ _ _ M1). unfold at_key in Hi.
  assert (Hd : forall b, dirty (bhs s1 b) = dirty (bhs s b)).
  { intros b. rewrite <- !(dirty_settled io_ok), (mv_bhs _ _ _ _ _ _ M1). case_decide; [|done]. by destruct (settled io_ok s b). }
  assert (Q1 : quiet sid s s1).
  { eapply quiet_moved; [apply M1|done|..].
    - intros i. unfold at_key. case_decide; [|done]. by destruct (inodes s i).
    - intros _. split.
      + intros i. rewrite Hi. case_decide; [|apply W]. subst.
        replace (_ ++ _) with (private_list (inodes s ino)); [done|]. destruct (inodes s ino); simpl. by rewrite app_nil_r.
      + intros i b. rewrite Hi, Hd. case_decide; [|apply W]. subst.
        replace (fsmeta_pending_list _) with (@nil nat) by (by destruct (inodes s ino)). by intros ?%elem_of_nil.
      + intros i. rewrite Hi. case_decide; [|apply W]. subst. pose proof (wf_meta s W ino) as Hm. by destruct (inodes s ino). }
  apply runs_bind. unfold osync_buffers_list. apply runs_bind, runs_gets.
  eapply runs_conseq; [apply osync_loop_ok|].
  { apply Nat.lt_succ_r. apply length_filter. }
  intros r2 s2 (_ & _ & M2). apply runs_ret. etrans; [apply Q1|].
  assert (Hd2 : forall b, dirty (bhs s2 b) = dirty (bhs s1 b)).
  { intros b. by rewrite <- !(dirty_settled io_ok), (mv_bhs _ _ _ _ _ _ M2). }
  eapply quiet_moved; [apply M2|done|done|]. intros [W1 W2 W3].
  split; intros i; rewrite (mv_inodes _ _ _ _ _ _ M2); [apply W1| |apply W3]. intros b. rewrite Hd2. apply W2.
Qed.
End steps.

(** ** The steps of a transaction

    [txn]: like [quiet], but the marks of new inodes and the references to
    inodes may change. *)

Record txn (sid : Z) (s s' : mfs) : Prop := mk_txn {
  tx_out : exists evs, out s' = out s ++ evs /\ Forall (on_stream sid) evs;
  tx_streams : stream_part s' = stream_part s;
  tx_locked : forall i, inode_locked (inodes s' i) = inode_locked (inodes s i);
  tx_parent : forall i, d_parent (inodes s' i) = d_parent (inodes s i);
  tx_wf : wfm s -> wfm s';
}.

#[export] Instance txn_preorder sid : PreOrder (txn sid).
Proof.
  split.
  - intros s. split; [exists []; by rewrite app_nil_r|done..].
  - intros s1 s2 s3 [(e1 & O1 & F1) S1 K1 P1 W1] [(e2 & O2 & F2) S2 K2 P2 W2]. split; [|congruence|..|auto].
    + exists (e1 ++ e2). split; [by rewrite O2, O1, app_assoc|by apply Forall_app].
    + intros i. by rewrite K2.
    + intros i. by rewrite P2.
Qed.

Lemma quiet_txn sid s s' : quiet sid s s' -> txn sid s s'.
Proof. intros [O S K W]. split; [done|done|..|done]; intros i; by pose proof (K i) as [= ? ? ? ?]. Qed.

(** What submits on no particular stream submits nothing. *)
Lemma txn_silent s s' : (forall sid, txn sid s s') -> out s' = out s.
Proof.
  intros Ht. destruct (Ht 0) as [(e0 & O0 & F0) _ _ _ _], (Ht 1) as [(e1 & O1 & F1) _ _ _ _].
  assert (e0 = e1) as <- by (apply (app_inv_head (out s)); congruence).
  destruct e0 as [|e e0]; [by rewrite O0, app_nil_r|].
  apply Forall_cons in F0 as [F0 _], F1 as [F1 _]. destruct e; simpl in *; lia.
Qed.

Lemma wfm_upd_inode i f s :
  (forall x, inode_lists (f x) = inode_lists x) -> (forall x, meta_mapped x -> meta_mapped (f x)) ->
  wfm s -> wfm (upd_inode i f s).
Proof.
  intros Hl Hm. apply wfm_ext; [..|by destruct s]; intros j; rewrite inodes_upd; case_decide; subst; auto.
Qed.

Lemma txn_upd_inode sid i f s :
  (forall x, inode_locked (f x) = inode_locked x) -> (forall x, d_parent (f x) = d_parent x) ->
  (forall x, inode_lists (f x) = inode_lists x) -> (forall x, meta_mapped x -> meta_mapped (f x)) ->
  txn sid s (upd_inode i f s).
Proof.
  intros Hk Hp Hl Hm. split; [exists []; rewrite app_nil_r; by destruct s|by destruct s|..].
  - intros j. rewrite inodes_upd. case_decide; subst; auto.
  - intros j. rewrite inodes_upd. case_decide; subst; auto.
  - by apply wfm_upd_inode.
Qed.

Lemma igrab_txn sid i s : runs (igrab i) s (fun _ s' => txn sid s s').
Proof. apply runs_modify, txn_upd_inode; by intros []. Qed.

Lemma iput_txn sid i s : runs (iput i) s (fun _ s' => txn sid s s').
Proof. apply runs_modify, txn_upd_inode; by intros []. Qed.

Lemma clear_newentry_txn sid i s : runs (clear_newentry i) s (fun _ s' => txn sid s s').
Proof. apply runs_modify, txn_upd_inode; by intros []. Qed.

(** Documented behaviour of the VFS: writing the data of the file back submits
    it on the stream and leaves the locks and references alone, whatever
    buffers it dirties; waiting and error reporting submit nothing; the
    write-back of an inode calls its [write_inode] operation or not, after
    clearing its dirty state. *)
Class VfsLaws `{Vfs} : Prop := {
  fstreamwrite_law sid s : wfm s -> runs (fstreamwrite sid) s (fun _ s' => quiet sid s s');
  fdatawait_law s : wfm s -> runs fdatawait s (fun _ s' => forall sid, quiet sid s s');
  check_wb_err_law s : wfm s -> runs check_wb_err s (fun _ s' => forall sid, quiet sid s s');
  sync_inode_law ino wr s : exists d1 d2,
    let s1 := upd_inode ino (fun i => i <| i_dirty := d1 |> <| i_dirty_datasync := d2 |>) s in
    sync_inode_nowait_data ino wr s = Ret 0 s1 \/ sync_inode_nowait_data ino wr s = wr s1;
}.

Section laws.
Context `{VfsLaws}.

Lemma write_inode_metadata_quiet sid ino s :
  wfm s -> runs (tx_write_inode_metadata ino sid) s (fun _ s' => quiet sid s s').
Proof.
  intros W. unfold tx_write_inode_metadata.
  destruct (sync_inode_law ino (ext4_write_inode io_ok ino sid) s) as (d1 & d2 & Hs). cbv zeta in Hs.
  set (s1 := upd_inode _ _ s) in *. assert (S1 : soft sid s s1) by (apply soft_upd_inode; by intros []).
  destruct Hs as [E|E]; unfold runs; rewrite E.
  - by apply soft_quiet.
  - pose proof (softly_write_inode io_ok sid ino s1) as Hw. unfold runs in Hw.
    destruct (ext4_write_inode _ _ _ _); [|done..]. apply soft_quiet. by etrans.
Qed.

Lemma streamwrite_quiet sid e s :
  wfm s -> runs (file_tag_streamwrite_range e sid) s (fun _ s' => quiet sid s s').
Proof.
  intros W. unfold file_tag_streamwrite_range. apply runs_bind.
  apply (runs_conseq _ _ (fun _ s' => quiet sid s s')).
  - destruct (e_needs_writeback e); [by apply fstreamwrite_law|by apply runs_ret].
  - intros r s1 Q1. apply runs_bind. eapply runs_conseq; [apply check_wb_err_law; by apply Q1|].
    intros r2 s2 Q2. apply runs_ret. etrans; [apply Q1|apply Q2].
Qed.

(** ** Under the lock of the inode *)

Definition unlocked (ino : nat) (s : mfs) : mfs := upd_inode ino (fun i => i <| inode_locked := false |>) s.

Definition in_lock (sid : Z) (ino : nat) (s s' : mfs) : Prop :=
  inode_locked (inodes s' ino) = true /\ txn sid s (unlocked ino s').

Lemma unlocked_wf ino s : wfm (unlocked ino s) <-> wfm s.
Proof.
  assert (E : forall i, inode_lists (inodes (unlocked ino s) i) = inode_lists (inodes s i) /\
                        (meta_mapped (inodes (unlocked ino s) i) <-> meta_mapped (inodes s i))).
  { intros i. unfold unlocked. rewrite inodes_upd. case_decide; [|done]. subst. by destruct (inodes s ino). }
  split; apply wfm_ext; try (by destruct s); intros i; destruct (E i); tauto || done.
Qed.

Lemma txn_unlocked sid ino s s' : txn sid s s' -> txn sid (unlocked ino s) (unlocked ino s').
Proof.
  intros [(e & O & F) S K P W]. split.
  - exists e. split; [|done]. unfold unlocked. destruct s, s'. done.
  - unfold unlocked. by destruct s, s'.
  - intros i. unfold unlocked. rewrite !inodes_upd. case_decide; [by destruct (inodes s ino), (inodes s' ino)|done].
  - intros i. unfold unlocked. rewrite !inodes_upd. case_decide; [|done]. subst. specialize (P ino).
    by destruct (inodes s ino), (inodes s' ino).
  - intros Wu. apply unlocked_wf, W. by apply unlocked_wf in Wu.
Qed.

Lemma in_lock_wf sid ino s s' : wfm s -> in_lock sid ino s s' -> wfm s'.
Proof. intros W [_ Ht]. apply (unlocked_wf ino), Ht, W. Qed.

Lemma in_lock_enter sid ino s s1 :
  txn sid s s1 -> inode_locked (inodes s ino) = false ->
  runs (inode_lock ino) s1 (fun _ s' => in_lock sid ino s s' /\ quiet sid s1 (unlocked ino s')).
Proof.
  intros Ht Hl. unfold inode_lock. apply runs_bind, runs_gets. rewrite (tx_locked _ _ _ Ht), Hl.
  apply runs_bind, runs_check; [done|]. apply runs_modify. set (s2 := upd_inode ino _ s1).
  assert (E : forall i, inodes (unlocked ino s2) i = inodes s1 i).
  { intros i. unfold unlocked, s2. rewrite !inodes_upd. case_decide; [|done]. subst. rewrite decide_True by done.
    pose proof (tx_locked _ _ _ Ht ino) as Hl1. rewrite Hl in Hl1. destruct (inodes s1 ino); simpl in *. by subst. }
  assert (Q : quiet sid s1 (unlocked ino s2)).
  { split; [exists []; rewrite app_nil_r; by destruct s1|by destruct s1|intros i; by rewrite E|].
    apply wfm_ext; [intros i; by rewrite E..|by destruct s1]. }
  split; [split|done].
  - unfold s2. rewrite inodes_upd, decide_True by done. by destruct (inodes s1 ino).
  - etrans; [apply Ht|by apply quiet_txn].
Qed.

Lemma in_lock_step sid ino s s1 s2 : in_lock sid ino s s1 -> txn sid s1 s2 -> in_lock sid ino s s2.
Proof.
  intros [Hl Ht] Ht2. split; [by rewrite (tx_locked _ _ _ Ht2)|]. etrans; [apply Ht|by apply txn_unlocked].
Qed.

Lemma in_lock_exit sid ino s s1 : in_lock sid ino s s1 -> runs (inode_unlock ino) s1 (fun _ s' => txn sid s s' /\ s' = unlocked ino s1).
Proof.
  intros [Hl Ht]. unfold inode_unlock. apply runs_bind, runs_gets. rewrite Hl.
  apply runs_bind, runs_check; [done|]. by apply runs_modify.
Qed.

(** From [s], the data of the file is submitted without an error. *)
Definition data_ok (e : sync_env) (sid : Z) (s : mfs) : Prop :=
  runs (file_tag_streamwrite_range e sid) s (fun r _ => r = 0).

(** The steps keep the marks of new inodes too. *)
Definition same_marks (s s' : mfs) : Prop := forall i, newentry (inodes s' i) = newentry (inodes s i).

Lemma quiet_marks sid s s' : quiet sid s s' -> same_marks s s'.
Proof. intros Hq i. by pose proof (qt_keys _ _ _ Hq i) as [= _ -> _ _]. Qed.

Lemma in_lock_quiet sid ino s s1 s2 :
  in_lock sid ino s s1 /\ same_marks s s1 -> quiet sid s1 s2 -> in_lock sid ino s s2 /\ same_marks s s2.
Proof.
  intros [Hl Hm] Hq. split; [eapply in_lock_step; [done|by apply quiet_txn]|].
  intros i. by rewrite (quiet_marks _ _ _ Hq i), (Hm i).
Qed.

Lemma generic_submit_ok sid e s :
  wfm s -> inode_locked (inodes s (e_ino e)) = false -> data_ok e sid s ->
  runs (generic_file_atomic_write_submit e sid) s (fun _ s' => in_lock sid (e_ino e) s s' /\ same_marks s s').
Proof.
  intros W Hl Hd. unfold generic_file_atomic_write_submit. set (ino := e_ino e) in *. apply runs_bind.
  pose proof (streamwrite_quiet sid e s W) as Hq. unfold data_ok, runs in Hd. unfold runs in Hq |- * at 1.
  destruct (file_tag_streamwrite_range e sid s) as [r s1| |]; [|done..]. subst r. cbn [negb Z.eqb].
  apply runs_bind. eapply runs_conseq; [apply (in_lock_enter sid ino s s1); [by apply quiet_txn|done]|].
  intros [] s2 [I2 Q2]. assert (W2 : wfm s2) by (by eapply in_lock_wf).
  assert (J2 : in_lock sid ino s s2 /\ same_marks s s2).
  { split; [done|]. intros i. rewrite <- (quiet_marks _ _ _ Hq i), <- (quiet_marks _ _ _ Q2 i). unfold unlocked.
    rewrite inodes_upd. case_decide; [|done]. subst. by destruct (inodes s2 ino). }
  apply runs_bind. eapply runs_conseq; [by apply submit_mapping_quiet|]. intros r s3 [-> Q3].
  pose proof (in_lock_quiet _ _ _ _ _ J2 Q3) as J3. pose proof (in_lock_wf _ _ _ _ W (proj1 J3)) as W3.
  apply runs_bind, runs_gets, runs_bind.
  apply (runs_conseq _ _ (fun _ s' => in_lock sid ino s s' /\ same_marks s s')).
  - destruct (_ || _); [by apply runs_ret|]. apply runs_bind.
    eapply runs_conseq; [by apply write_inode_metadata_quiet|]. intros r s4 Q4. apply runs_ret. by eapply in_lock_quiet.
  - intros r s4 J4. apply runs_bind. eapply runs_conseq.
    { apply check_wb_err_law. by eapply in_lock_wf, J4. }
    intros r5 s5 Q5. apply runs_ret. eapply in_lock_quiet; [done|apply Q5].
Qed.

Lemma generic_wait_ok ino e s s0 sid0 :
  ino = e_ino e -> wfm s0 -> in_lock sid0 ino s0 s ->
  runs (generic_file_atomic_write_wait e) s (fun _ s' =>
    out s' = out s /\ stream_part s' = stream_part s /\ wfm s' /\
    (forall i, inode_locked (inodes s' i) = inode_locked (inodes s0 i))).
Proof.
  intros -> W0 I0. pose proof (in_lock_wf _ _ _ _ W0 I0) as W. set (ino := e_ino e) in *.
  unfold generic_file_atomic_write_wait. fold ino. apply runs_bind.
  eapply runs_conseq; [apply (runs_forall 0 _ _ (fun sid _ s' => quiet sid s s')); intros sid; by apply wait_inode_buffer_quiet|]. intros r s1 Q1.
  apply runs_bind. eapply runs_conseq;
    [apply (runs_forall 0 _ _ (fun sid _ s' => quiet sid s1 s')); intros sid; apply wait_mapping_quiet; by apply (Q1 sid)|]. intros r2 s2 Q2.
  assert (T2 : forall sid, txn sid s s2) by (intros sid; etrans; apply quiet_txn; [apply Q1|apply Q2]).
  apply runs_bind. eapply runs_conseq; [apply (in_lock_exit sid0 ino s0 s2); by eapply in_lock_step|]. intros [] s3 [T3 E3].
  assert (W3 : wfm s3) by (by apply (tx_wf _ _ _ T3)).
  apply runs_bind. eapply runs_conseq; [by apply fdatawait_law|]. intros r4 s4 Q4.
  apply runs_bind. eapply runs_conseq; [apply check_wb_err_law; by apply (Q4 0)|]. intros r5 s5 Q5. apply runs_ret.
  assert (T5 : forall sid, txn sid s3 s5) by (intros sid; etrans; apply quiet_txn; [apply Q4|apply Q5]).
  split_and!.
  - rewrite (txn_silent s3 s5 T5), E3, <- (txn_silent s s2 T2). by destruct s2.
  - rewrite (tx_streams _ _ _ (T5 0)), E3, <- (tx_streams _ _ _ (T2 0)). by destruct s2.
  - by apply (T5 0).
  - intros i. by rewrite (tx_locked _ _ _ (T5 0)), (tx_locked _ _ _ T3).
Qed.

(** ** Parents *)

Definition acyclic (depth : nat -> nat) (s : mfs) : Prop :=
  forall i p, d_parent (inodes s i) = Some p -> (depth p < depth i)%nat.

Lemma acyclic_txn depth sid s s' : txn sid s s' -> acyclic depth s -> acyclic depth s'.
Proof. intros Ht Ha i p. rewrite (tx_parent _ _ _ Ht). apply Ha. Qed.

Lemma parent_loop_ok depth sid fuel ino leaf w s :
  wfm s -> acyclic depth s -> (depth ino < fuel)%nat ->
  runs (parent_loop fuel ino sid leaf w) s (fun _ s' => txn sid s s').
Proof.
  revert ino leaf w s. induction fuel as [|fuel IH]; intros ino leaf w s W Ha Hf; [lia|]. cbn [parent_loop].
  apply runs_bind, runs_gets. destruct (newentry _); cbn [negb]; [|apply runs_ret; reflexivity].
  apply runs_bind. apply (runs_conseq _ _ (fun _ s' => txn sid s s')).
  { destruct leaf; [apply clear_newentry_txn|apply runs_ret; reflexivity]. }
  intros [] s1 T1. destruct (d_parent (inodes s ino)) as [next|] eqn:Ep; [|by apply runs_ret].
  apply runs_bind. eapply runs_conseq; [apply (igrab_txn sid)|]. intros [] s2 T2.
  apply runs_bind. apply (runs_conseq _ _ (fun _ s' => txn sid s s')).
  { destruct leaf; [eapply runs_conseq; [apply (iput_txn sid)|]|apply runs_ret; by etrans].
    intros [] s3 T3. etrans; [apply T1|by etrans]. }
  intros [] s3 T3. assert (W3 : wfm s3) by (by apply (tx_wf _ _ _ T3)).
  apply runs_bind. eapply runs_conseq; [by apply submit_mapping_quiet|]. intros r s4 [-> Q4]. cbn [negb Z.eqb].
  assert (T4 : txn sid s s4) by (etrans; [apply T3|by apply quiet_txn]).
  apply runs_bind. eapply runs_conseq; [apply write_inode_metadata_quiet; by apply (tx_wf _ _ _ T4)|]. intros r s5 Q5.
  assert (T5 : txn sid s s5) by (etrans; [apply T4|by apply quiet_txn]).
  destruct (negb _); [by apply runs_ret|].
  eapply runs_conseq; [apply IH|].
  - by apply (tx_wf _ _ _ T5).
  - by eapply acyclic_txn.
  - specialize (Ha ino next Ep). lia.
  - intros x s6 T6. by etrans.
Qed.

Lemma parent_submit_ok depth sid ino s :
  wfm s -> acyclic depth s ->
  runs (mqfs_atomic_write_parent_submit (depth ino) ino sid) s (fun rw s' => txn sid s s' /\
    (newentry (inodes s ino) = false -> rw = (0, []))).
Proof.
  intros W Ha. unfold mqfs_atomic_write_parent_submit. apply runs_bind, runs_gets.
  destruct (newentry _); cbn [negb]; [|apply runs_ret; by split].
  apply runs_bind. eapply runs_conseq; [apply (igrab_txn sid)|]. intros [] s1 T1.
  eapply runs_conseq; [apply (parent_loop_ok depth)|].
  - by apply (tx_wf _ _ _ T1).
  - by eapply acyclic_txn.
  - lia.
  - intros x s2 T2. split; [by etrans|done].
Qed.

Lemma parent_wait_ok w r s :
  wfm s -> runs (parent_wait_loop w r) s (fun _ s' => forall sid, txn sid s s').
Proof.
  intros W. apply (runs_forall 0). intros sid. revert r s W. induction w as [|i w IH]; intros r s W; simpl; [apply runs_ret; reflexivity|].
  apply runs_bind. eapply runs_conseq; [apply (clear_newentry_txn sid)|]. intros [] s1 T1.
  apply runs_bind. eapply runs_conseq; [apply (wait_mapping_quiet io_ok sid); by apply (tx_wf _ _ _ T1)|]. intros x s2 Q2.
  assert (T2 : txn sid s s2) by (etrans; [apply T1|by apply quiet_txn]).
  apply runs_bind. eapply runs_conseq; [apply (wait_inode_buffer_quiet io_ok sid); by apply (tx_wf _ _ _ T2)|]. intros y s3 Q3.
  assert (T3 : txn sid s s3) by (etrans; [apply T2|by apply quiet_txn]).
  apply runs_bind. eapply runs_conseq; [apply (iput_txn sid)|]. intros [] s4 T4.
  assert (T4' : txn sid s s4) by (by etrans).
  eapply runs_conseq; [apply IH; by apply (tx_wf _ _ _ T4')|]. intros z s5 T5. by etrans.
Qed.
End laws.
