(* ===== verification/MqfsSyncTheorems.v ===== *)
(** * mqfs: theorems on streams, fsync and fatomic *)

From S2P Require Import Prelude Mqfs MqfsFacts MqfsSync MqfsTheorems MqfsSyncFacts.

(** ** The locks of the streams *)

(** One lock and one stream per index. *)
Record streams_ok (s : mfs) : Prop := mk_streams_ok {
  so_pos : 0 < nr_mq_streams s;
  so_locks : Z.of_nat (length (stream_lock s)) = nr_mq_streams s;
  so_streams : Z.of_nat (length (mq_streams s)) = nr_mq_streams s;
}.

(** The stream at an index was taken. *)
Definition stream_taken (s : mfs) (i : nat) (x : Z) (s' : mfs) : Prop :=
  mq_streams s !! i = Some x /\ stream_lock s !! i = Some false /\ s' = s <| stream_lock := <[i := true]> (stream_lock s) |>.

Lemma try_stream_ok s i {A} (k : M mfs A) (f : Z -> A) (Q : A -> mfs -> Prop) :
  streams_ok s -> 0 <= i < nr_mq_streams s ->
  (forall x s', stream_taken s (Z.to_nat i) x s' -> Q (f x) s') ->
  (stream_lock s !! Z.to_nat i = Some true -> runs k s Q) ->
  runs (ok <-- trylock i ;; if ok : bool then x <-- stream_at i ;; ret (f x) else k) s Q.
Proof.
  intros [Hp Hl Hs] Hi Hx Hk. apply runs_bind. unfold trylock, runs at 1.
  destruct (stream_lock s !! Z.to_nat i) as [[]|] eqn:El; [by apply Hk| |apply lookup_ge_None in El; lia].
  apply runs_bind. unfold stream_at, runs at 1.
  assert (Em : mq_streams (s <| stream_lock ::= <[Z.to_nat i := true]> |>) = mq_streams s) by by destruct s. rewrite Em.
  destruct (mq_streams s !! Z.to_nat i) as [x|] eqn:Ex; [|apply lookup_ge_None in Ex; lia].
  apply runs_ret, Hx. split_and!; [done|done|by destruct s].
Qed.

Lemma stream_loop_ok s loop i :
  streams_ok s -> 0 <= i ->
  runs (stream_loop loop (nr_mq_streams s) i) s (fun r s' =>
    match r with
    | Some x => exists j, stream_taken s j x s'
    | None => s' = s /\ forall k, (1 <= k <= loop)%nat ->
        stream_lock s !! Z.to_nat ((i + Z.of_nat k) mod nr_mq_streams s) = Some true
    end).
Proof.
  intros Hok. pose proof (so_pos s Hok) as Hn. revert i. induction loop as [|loop IH]; intros i Hi; cbn [stream_loop].
  { apply runs_ret. split; [done|lia]. }
  cbv zeta. pose proof (Z.mod_pos_bound (i + 1) (nr_mq_streams s) Hn) as Hb.
  apply (try_stream_ok s _ _ Some); [done|lia|by eauto|]. intros El.
  eapply runs_conseq; [apply IH; lia|]. intros [x|] s'; [done|]. intros [-> Hall]. split; [done|]. intros k Hk.
  destruct (decide (k = 1%nat)) as [->|]; [done|].
  specialize (Hall (k - 1)%nat ltac:(lia)). rewrite Zplus_mod_idemp_l in Hall. rewrite <- Hall. do 3 f_equal. lia.
Qed.

(** Taking a stream returns as soon as one is free. *)
Lemma get_free_stream_ok cpu s :
  streams_ok s -> 0 <= cpu -> false ∈ stream_lock s ->
  runs (get_free_stream cpu) s (fun x s' => exists i, stream_taken s i x s').
Proof.
  intros Hok Hc Hfree. pose proof (so_pos s Hok) as Hn. unfold get_free_stream. apply runs_bind, runs_gets.
  rewrite (proj2 (Z.eqb_neq _ _)) by lia. cbv zeta. set (n := nr_mq_streams s) in *. set (i := cpu mod n).
  pose proof (Z.mod_pos_bound cpu n Hn) as Hi.
  pose proof (fun k Q => try_stream_ok s i k id Q Hok Hi) as Htry. unfold id in Htry.
  assert (Eat : forall s1, (x <-- stream_at i ;; ret x) s1 = stream_at i s1)
    by (intros s1; unfold bind; by destruct (stream_at i s1)).
  assert (Htry' : forall k Q, (forall x s', stream_taken s (Z.to_nat i) x s' -> Q x s') ->
      (stream_lock s !! Z.to_nat i = Some true -> runs k s Q) ->
      runs (ok <-- trylock i ;; if ok : bool then stream_at i else k) s Q).
  { intros k Q H1 H2. specialize (Htry k Q H1 H2). unfold runs, bind in *.
    destruct (trylock i s) as [[] s1| |]; try done. specialize (Eat s1). unfold bind in Eat. by rewrite <- Eat. }
  apply Htry'; [by eauto|]. intros El.
  apply runs_bind. eapply runs_conseq; [apply stream_loop_ok; [done|lia]|].
  intros [x|] s'; [intros Hx; by apply runs_ret|]. intros [-> Hall].
  apply Htry'; [by eauto|]. intros _. exfalso.
  apply list_elem_of_lookup in Hfree as [j Hj]. pose proof (lookup_lt_Some _ _ _ Hj) as Hlt.
  pose proof (so_locks s Hok) as Hlen. fold n in Hlen.
  set (k := (Z.of_nat j - i) mod n). pose proof (Z.mod_pos_bound (Z.of_nat j - i) n Hn) as Hk.
  assert (Ej : (i + k) mod n = Z.of_nat j).
  { unfold k. rewrite Zplus_mod_idemp_r. replace (i + (Z.of_nat j - i)) with (Z.of_nat j) by lia. apply Z.mod_small. lia. }
  destruct (decide (k = 0)) as [E0|Hk0].
  - rewrite E0, Z.add_0_r, Z.mod_small in Ej by lia. rewrite Ej, Nat2Z.id in El. congruence.
  - specialize (Hall (Z.to_nat k) ltac:(lia)). fold n in Hall. rewrite Z2Nat.id, Ej, Nat2Z.id in Hall by lia. congruence.
Qed.

(** Where [put_stream] looks for the lock of a stream. *)
Definition lock_index (s : mfs) (x : Z) : Z := if nr_mq_streams s <=? x then x mod nr_mq_streams s else x.

Lemma put_stream_ok s x i :
  streams_ok s -> lock_index s x = Z.of_nat i -> stream_lock s !! i = Some true ->
  runs (put_stream x) s (fun _ s' => s' = s <| stream_lock := <[i := false]> (stream_lock s) |>).
Proof.
  intros [Hp _ _] Hx Hl. unfold put_stream. apply runs_bind, runs_gets. rewrite (proj2 (Z.eqb_neq _ _)) by lia. cbv zeta.
  fold (lock_index s x). unfold runs. rewrite Hx, Nat2Z.id, Hl. by destruct s.
Qed.

(** When the streams a mount was given are not a permutation that [mod] undoes
    (the second of two mounts with an even number of streams may get
    streams 3 and 4), giving a stream back releases the lock of another one:
    the other user loses its exclusive use of it and this one's is never
    released. *)
Theorem put_stream_releases_another cpu s i j x :
  streams_ok s -> 0 <= cpu -> Z.of_nat i = cpu mod nr_mq_streams s ->
  mq_streams s !! i = Some x -> stream_lock s !! i = Some false ->
  lock_index s x = Z.of_nat j -> j <> i -> stream_lock s !! j = Some true ->
  runs (x <-- get_free_stream cpu ;; put_stream x) s (fun _ s' =>
    stream_lock s' !! i = Some true /\ stream_lock s' !! j = Some false).
Proof.
  intros Hok Hc Ei Hx Hi Hj Hne Hlj. pose proof (so_pos s Hok) as Hn. apply runs_bind.
  unfold get_free_stream. apply runs_bind, runs_gets. rewrite (proj2 (Z.eqb_neq _ _)) by lia. cbv zeta. rewrite <- Ei.
  apply runs_bind. unfold trylock, runs at 1. rewrite Nat2Z.id, Hi. unfold stream_at, runs at 1. rewrite Nat2Z.id.
  set (s1 := s <| stream_lock ::= _ |>).
  assert (E1 : mq_streams s1 = mq_streams s /\ stream_lock s1 = <[i := true]> (stream_lock s) /\ nr_mq_streams s1 = nr_mq_streams s)
    by (subst s1; by destruct s). destruct E1 as (E1 & E2 & E3). rewrite E1, Hx.
  eapply runs_conseq.
  { apply (put_stream_ok s1 x j).
    - destruct Hok. split; rewrite ?E1, ?E2, ?E3, ?length_insert; done.
    - unfold lock_index. by rewrite E3.
    - rewrite E2. by rewrite list_lookup_insert_ne. }
  intros [] s' ->. rewrite E2. pose proof (lookup_lt_Some _ _ _ Hi). pose proof (lookup_lt_Some _ _ _ Hlj).
  replace (stream_lock (s1 <| stream_lock := <[j:=false]> (<[i:=true]> (stream_lock s)) |>))
    with (<[j:=false]> (<[i:=true]> (stream_lock s))) by by destruct s1.
  split.
  - rewrite list_lookup_insert_ne by done. by apply list_lookup_insert_eq.
  - apply list_lookup_insert_eq. by rewrite length_insert.
Qed.

(** ** A transaction up to its commit *)

(** The next transaction identifier was taken; the stream at index [i] and the
    identifier were taken. *)
Definition numbered (s : mfs) : mfs := s <| txid_alloc ::= fun t => sext 32 (t + 1) |>.
Definition held (i : nat) (s : mfs) : mfs := s <| stream_lock := <[i := true]> (stream_lock s) |>.
Definition begun (i : nat) (s : mfs) : mfs := numbered (held i s).

Section tx.
Context `{VfsLaws} (depth : nat -> nat) (e : sync_env).

(** From [s], the submission returns without an error. *)
Definition submit_ok (sid : Z) (s : mfs) : Prop :=
  runs (generic_file_atomic_write_submit e sid) s (fun r _ => r = 0).

Lemma submit_ok_data sid s : wfm s -> submit_ok sid s -> data_ok e sid s.
Proof.
  unfold submit_ok, data_ok, generic_file_atomic_write_submit. intros W Hs. pose proof (streamwrite_quiet sid e s W) as Hq.
  unfold runs, bind at 1 in Hs. unfold runs in Hq |- *. destruct (file_tag_streamwrite_range e sid s) as [r s1| |]; [|done..].
  destruct (Z.eqb_spec r 0) as [->|Hne]; [done|]. cbn [negb] in Hs. by cbn in Hs.
Qed.

Record committed (sid : Z) (s : mfs) (r : Z * bool * list nat) (s' : mfs) : Prop := mk_committed {
  cm_out : exists txid evs, out s' = out s ++ evs ++ [MqJh sid; MqCommit sid txid] /\ Forall (on_stream sid) evs;
  cm_streams : stream_part s' = stream_part s;
  cm_wf : wfm s';
  cm_held : inode_locked (inodes s' (e_ino e)) = true;
  cm_locked : forall i, inode_locked (inodes (unlocked (e_ino e) s') i) = inode_locked (inodes s i);
  cm_waiting : newentry (inodes s (e_ino e)) = false -> submit_ok sid (numbered s) -> r.1.2 = true /\ r.2 = [];
}.

Lemma submit_inode_tx_ok sid s :
  wfm s -> acyclic depth s -> inode_locked (inodes s (e_ino e)) = false -> data_ok e sid (numbered s) ->
  runs (submit_inode_tx (depth (e_ino e)) e sid) s (committed sid s).
Proof.
  intros W Ha Hl Hd. unfold submit_inode_tx, next_txid. set (ino := e_ino e) in *.
  apply runs_bind, runs_bind, runs_modify, runs_bind, runs_gets, runs_ret.
  fold (numbered s). set (txid := u64 _). clearbody txid.
  assert (W1 : wfm (numbered s)) by (destruct s; by destruct W).
  assert (T1 : txn sid s (numbered s)) by (split; [exists []; rewrite app_nil_r; by destruct s|by destruct s..|done]).
  assert (Hl1 : inode_locked (inodes (numbered s) ino) = false) by (by destruct s).
  assert (Hm1 : same_marks s (numbered s)) by (by destruct s). remember (numbered s) as s1 eqn:Es1.
  apply runs_bind. pose proof (generic_submit_ok sid e s1 W1 Hl1 Hd) as Hg.
  assert (Hr : submit_ok sid s1 -> runs (generic_file_atomic_write_submit e sid) s1 (fun r _ => r = 0)) by done.
  unfold runs in Hg, Hr |- * at 1.
  destruct (generic_file_atomic_write_submit e sid s1) as [r s2| |]; [|done..]. destruct Hg as [I2 M2].
  pose proof (in_lock_wf _ _ _ _ W1 I2) as W2.
  apply runs_bind. apply (runs_conseq _ _ (fun rw s' => in_lock sid ino s1 s' /\
    (newentry (inodes s ino) = false -> submit_ok sid s1 -> rw.1.2 = true /\ rw.2 = []))).
  { destruct (Z.eqb_spec r 0) as [->|Hne].
    - apply runs_bind. eapply runs_conseq; [apply (parent_submit_ok depth sid); [done|]|].
      + intros i p Hp. apply (Ha i p). rewrite <- Hp. destruct I2 as [_ T2].
        rewrite <- (tx_parent _ _ _ T1), <- (tx_parent _ _ _ T2). unfold unlocked. rewrite inodes_upd.
        case_decide; [subst; by destruct (inodes s2 ino)|done].
      + intros [r w] s3 [T3 Hw]. apply runs_ret. split; [by eapply in_lock_step|]. intros Hn _.
        rewrite (M2 ino), (Hm1 ino) in Hw. by injection (Hw Hn) as -> ->.
    - apply runs_ret. split; [done|]. intros _ Hs. by specialize (Hr Hs). }
  intros [[r' sp] w] s3 [I3 Hw]. unfold submit_jh, mq_emit. apply runs_bind, runs_modify, runs_bind, runs_modify, runs_ret.
  pose proof (in_lock_wf _ _ _ _ W1 I3) as W3. destruct I3 as [Hh T3].
  assert (T : txn sid s (unlocked ino s3)) by (by etrans). clear T1 T3. destruct T as [(evs & O & F) S K P _].
  split; [|by destruct s3|..|by rewrite <- Es1].
  - exists txid, evs. split; [|done]. replace (out (unlocked ino s3)) with (out s3) in O by (by destruct s3).
    transitivity ((out s3 ++ [MqJh sid]) ++ [MqCommit sid txid]); [by destruct s3|]. rewrite O, <- !app_assoc. done.
  - revert W3. apply wfm_ext; by destruct s3.
  - rewrite <- Hh. by destruct s3.
  - intros i. rewrite <- K. unfold unlocked. rewrite !inodes_upd. by destruct s3.
Qed.

(** What fsync may start from. *)
Record startable (s : mfs) : Prop := mk_startable {
  st_wf : wfm s;
  st_streams : streams_ok s;
  st_cpu : 0 <= e_cpu e;
  st_free : false ∈ stream_lock s;
  st_acyclic : acyclic depth s;
  st_unlocked : inode_locked (inodes s (e_ino e)) = false;
  st_running : e_forced_shutdown e = false;
  st_writable : e_rdonly e = false;
}.

(** The events of a call on stream [sid]. *)
Definition tx_events (sid txid : Z) (evs : list mq_event) : list mq_event :=
  evs ++ [MqJh sid; MqCommit sid txid; MqJhDone sid] ++ (if e_barrier e then [MqFlush sid] else []).

(** fsync held the stream [sid] at index [i] and gave it back. *)
Definition synced (s : mfs) (i : nat) (sid : Z) (r : Z) (s' : mfs) : Prop :=
  (exists txid evs, Forall (on_stream sid) evs /\ out s' = out s ++ tx_events sid txid evs) /\
  stream_lock s' = <[Z.to_nat (lock_index s sid) := false]> (stream_lock (held i s)) /\
  (forall j, inode_locked (inodes s' j) = inode_locked (inodes s j)) /\
  (newentry (inodes s (e_ino e)) = false -> submit_ok sid (begun i s) -> r = 0).

Lemma flush_tx_run sid s :
  flush_tx e sid s = Ret tt (s <| out ::= (.++ (if e_barrier e then [MqFlush sid] else [])) |>).
Proof.
  unfold flush_tx. destruct (e_barrier e); [done|]. unfold ret. destruct s; unfold update; simpl. by rewrite app_nil_r.
Qed.

(** The mutex [put_stream] gives back is held or not. *)
Lemma put_stream_index s i sid s' : streams_ok s -> stream_lock s !! i = Some false -> mq_streams s !! i = Some sid ->
  stream_part s' = stream_part (held i s) ->
  put_stream sid s' = match stream_lock (held i s) !! Z.to_nat (lock_index s sid) with
                      | Some true => Ret tt (s' <| stream_lock := <[Z.to_nat (lock_index s sid) := false]> (stream_lock (held i s)) |>)
                      | _ => Oops BadUnlock
                      end.
Proof.
  intros [Hp Hn _] Hi _ Sp. assert (Sn : nr_mq_streams s' = nr_mq_streams s) by (injection Sp as -> _ _; by destruct s).
  assert (Sl : stream_lock s' = stream_lock (held i s)) by (by injection Sp as _ _ ->). clear Sp.
  unfold put_stream, gets. unfold bind at 1. rewrite Sn, (proj2 (Z.eqb_neq _ _)) by lia. cbv zeta. fold (lock_index s sid). rewrite Sl.
  assert (Hin : (Z.to_nat (lock_index s sid) < length (stream_lock (held i s)))%nat).
  { replace (stream_lock (held i s)) with (<[i := true]> (stream_lock s)) by (by destruct s). rewrite length_insert. unfold lock_index.
    destruct (Z.leb_spec (nr_mq_streams s) sid); [pose proof (Z.mod_pos_bound sid (nr_mq_streams s) Hp)|]; lia. }
  apply lookup_lt_is_Some in Hin as [[] Hl]; rewrite Hl; [|done]. rewrite <- Sl. by destruct s'.
Qed.

(** Up to the point where the stream is given back. *)
Record gathered (s : mfs) (i : nat) (sid : Z) (r : Z) (s' : mfs) : Prop := mk_gathered {
  ga_out : exists txid evs, Forall (on_stream sid) evs /\ out s' = out s ++ tx_events sid txid evs;
  ga_streams : stream_part s' = stream_part (held i s);
  ga_locked : forall j, inode_locked (inodes s' j) = inode_locked (inodes s j);
  ga_result : newentry (inodes s (e_ino e)) = false -> submit_ok sid (begun i s) -> r = 0;
}.

Lemma held_facts i s : inodes (held i s) = inodes s /\ bhs (held i s) = bhs s /\ out (held i s) = out s /\ (wfm s -> wfm (held i s)).
Proof. split_and!; try (by destruct s). apply wfm_ext; by destruct s. Qed.

Lemma sync_gathers s i sid :
  startable s -> get_free_stream (e_cpu e) s = Ret sid (held i s) -> data_ok e sid (begun i s) ->
  exists r s', ext4_sync_file (depth (e_ino e)) e s = (put_stream sid ;;; ret r) s' /\ gathered s i sid r s'.
Proof.
  intros [W _ _ _ Ha Hl Hsd Hro] E1 Hd. destruct (held_facts i s) as (Bi & Bb & Bo & W1). specialize (W1 W).
  unfold ext4_sync_file. rewrite Hsd, Hro, (bind_Ret _ _ _ _ _ E1).
  destruct (proj1 (runs_elim _ _ _) (submit_inode_tx_ok sid (held i s) W1 ltac:(intros j p; rewrite Bi; apply Ha) ltac:(by rewrite Bi) Hd))
    as ([[r0 sp] w] & s2 & E2 & C). rewrite (bind_Ret _ _ _ _ _ E2). cbv beta iota.
  assert (I2 : in_lock sid (e_ino e) (unlocked (e_ino e) s2) s2) by (split; [apply C|reflexivity]).
  destruct (proj1 (runs_elim _ _ _) (generic_wait_ok (e_ino e) e s2 _ sid eq_refl (proj2 (unlocked_wf _ _) (cm_wf _ _ _ _ C)) I2))
    as (r & s3 & E3 & O3 & S3 & W3 & L3). rewrite (bind_Ret _ _ _ _ _ E3).
  assert (Hw : runs (if sp : bool then mqfs_atomic_write_parent_wait w else ret r) s3 (fun r' s' =>
    (forall sid, txn sid s3 s') /\ (sp = true -> w = [] -> r' = 0))).
  { destruct sp; [|apply runs_ret; by split]. unfold mqfs_atomic_write_parent_wait. destruct w as [|i0 w]; [apply runs_ret; by split|].
    eapply runs_conseq; [by apply parent_wait_ok|]. intros r' s' T. by split. }
  destruct (proj1 (runs_elim _ _ _) Hw) as (r' & s4 & E4 & T4 & Hr'). rewrite (bind_Ret _ _ _ _ _ E4).
  unfold wait_jh, mq_emit. rewrite bind_modify, (bind_Ret _ _ _ _ _ (flush_tx_run _ _)). eexists r', _. split; [reflexivity|]. split.
  - destruct (cm_out _ _ _ _ C) as (txid & evs & Oc & F). exists txid, evs. split; [done|].
    transitivity ((out s4 ++ [MqJhDone sid]) ++ (if e_barrier e then [MqFlush sid] else [])); [by destruct s4|].
    rewrite (txn_silent s3 s4 T4), O3, Oc, Bo. unfold tx_events. by rewrite <- !app_assoc.
  - rewrite <- (cm_streams _ _ _ _ C), <- S3, <- (tx_streams _ _ _ (T4 0)). by destruct s4.
  - intros j. transitivity (inode_locked (inodes s4 j)); [by destruct s4|].
    by rewrite (tx_locked _ _ _ (T4 0)), L3, (cm_locked _ _ _ _ C), Bi.
  - intros Hn Hs. destruct (cm_waiting _ _ _ _ C) as [? ?]; [by rewrite Bi|done|]. by apply Hr'.
Qed.

(** The data cannot be submitted: the inode was not locked yet. *)
Lemma inode_unlock_bad ino s : inode_locked (inodes s ino) = false -> inode_unlock ino s = Oops BadUnlock.
Proof. intros Hl. unfold inode_unlock, bind, gets. by rewrite Hl. Qed.

Lemma submit_inode_tx_fails fuel sid s :
  wfm s -> inode_locked (inodes s (e_ino e)) = false -> ~ data_ok e sid (numbered s) ->
  exists r s', submit_inode_tx fuel e sid s = Ret (r, false, []) s' /\ wfm s' /\ inode_locked (inodes s' (e_ino e)) = false.
Proof.
  intros W Hl Hd. unfold submit_inode_tx, next_txid. rewrite !bind_assoc, bind_modify, !bind_assoc, bind_gets, bind_ret.
  fold (numbered s). set (s1 := numbered s) in *. assert (W1 : wfm s1) by (revert W; apply wfm_ext; by destruct s).
  assert (Hl1 : inode_locked (inodes s1 (e_ino e)) = false) by (by destruct s). clearbody s1.
  unfold generic_file_atomic_write_submit. rewrite bind_assoc.
  pose proof (streamwrite_quiet sid e s1 W1) as Q. unfold data_ok, runs in Hd.
  unfold runs in Q. unfold bind at 1. destruct (file_tag_streamwrite_range e sid s1) as [r s2| |]; [|done..].
  assert (E : (r =? 0) = false) by (by apply Z.eqb_neq). rewrite E. cbn [negb]. rewrite bind_ret, E, bind_ret.
  eexists _, _. split; [reflexivity|]. split.
  - generalize (qt_wf _ _ _ Q W1). apply wfm_ext; by destruct s2.
  - pose proof (qt_keys _ _ _ Q (e_ino e)) as [= K _ _ _]. rewrite <- Hl1, <- K. by destruct s2.
Qed.

Lemma sync_data_fails fuel s i sid :
  startable s -> get_free_stream (e_cpu e) s = Ret sid (held i s) -> ~ data_ok e sid (begun i s) ->
  ext4_sync_file fuel e s = Oops BadUnlock /\ ext4_atomic_file fuel e s = Oops BadUnlock.
Proof.
  intros [W _ _ _ _ Hl Hsd Hro] E1 Hd. destruct (held_facts i s) as (Bi & _ & _ & W1). specialize (W1 W).
  unfold ext4_sync_file, ext4_atomic_file. rewrite Hsd, Hro, !(bind_Ret _ _ _ _ _ E1).
  destruct (submit_inode_tx_fails fuel sid (held i s) W1 ltac:(by rewrite Bi) Hd) as (r & s2 & E2 & W2 & Hl2).
  rewrite !(bind_Ret _ _ _ _ _ E2). split.
  - unfold generic_file_atomic_write_wait. rewrite !bind_assoc.
    destruct (proj1 (runs_elim _ _ _) (wait_inode_buffer_quiet io_ok 0 (e_ino e) s2 W2)) as (r3 & s3 & E3 & Q3).
    rewrite (bind_Ret _ _ _ _ _ E3), bind_assoc.
    destruct (proj1 (runs_elim _ _ _) (wait_mapping_quiet io_ok 0 (e_ino e) s3 (qt_wf _ _ _ Q3 W2))) as (r4 & s4 & E4 & Q4).
    rewrite (bind_Ret _ _ _ _ _ E4), bind_assoc. unfold bind at 1. rewrite inode_unlock_bad; [done|].
    pose proof (tx_locked _ _ _ (quiet_txn _ _ _ Q4) (e_ino e)) as ->. by rewrite (tx_locked _ _ _ (quiet_txn _ _ _ Q3)).
  - unfold generic_file_atomic_write_wait_nodata. rewrite !bind_assoc. unfold bind at 1. by rewrite inode_unlock_bad.
Qed.

(** The stream fsync takes. *)
Lemma startable_stream s : startable s ->
  exists i sid, mq_streams s !! i = Some sid /\ stream_lock s !! i = Some false /\ get_free_stream (e_cpu e) s = Ret sid (held i s).
Proof.
  intros St. destruct (proj1 (runs_elim _ _ _) (get_free_stream_ok _ _ (st_streams s St) (st_cpu s St) (st_free s St)))
    as (sid & s1 & E1 & i & Hx & Hi & ->). by exists i, sid.
Qed.

(** Whether the mutex [put_stream] will unlock is one that is held. *)
Definition put_held (s : mfs) (i : nat) (sid : Z) : Prop :=
  stream_lock (held i s) !! Z.to_nat (lock_index s sid) = Some true.

Lemma sync_file_ok s : startable s ->
  exists i sid, mq_streams s !! i = Some sid /\ stream_lock s !! i = Some false /\
    (data_ok e sid (begun i s) -> put_held s i sid -> runs (ext4_sync_file (depth (e_ino e)) e) s (synced s i sid)) /\
    (~ data_ok e sid (begun i s) \/ ~ put_held s i sid -> ext4_sync_file (depth (e_ino e)) e s = Oops BadUnlock).
Proof.
  intros St. destruct (startable_stream s St) as (i & sid & Hx & Hi & E1). exists i, sid. split_and!; [done|done|..].
  - intros Hd Hp. destruct (sync_gathers s i sid St E1 Hd) as (r & s' & E & [O S L R]). unfold runs.
    rewrite E. unfold bind at 1. rewrite (put_stream_index s i sid s' (st_streams s St) Hi Hx S), Hp. unfold ret.
    split_and!; [|by destruct s, s'|intros j; rewrite <- L; by destruct s'|done].
    destruct O as (txid & evs & F & O). exists txid, evs. split; [done|]. rewrite <- O. by destruct s'.
  - intros Hor. assert (Hdec : data_ok e sid (begun i s) \/ ~ data_ok e sid (begun i s)).
    { unfold data_ok, runs. destruct (file_tag_streamwrite_range e sid (begun i s)) as [r s'| |]; [|tauto..].
      destruct (decide (r = 0)); tauto. }
    destruct Hdec as [Hd|Hd]; [|by apply (sync_data_fails _ s i sid)]. destruct Hor as [|Hp]; [done|].
    destruct (sync_gathers s i sid St E1 Hd) as (r & s' & E & [O S L R]).
    rewrite E. unfold bind at 1. rewrite (put_stream_index s i sid s' (st_streams s St) Hi Hx S).
    unfold put_held in Hp. by destruct (stream_lock (held i s) !! Z.to_nat (lock_index s sid)) as [[]|].
Qed.

Lemma held_put s i sid : stream_lock s !! i = Some false -> lock_index s sid = Z.of_nat i ->
  put_held s i sid /\ <[Z.to_nat (lock_index s sid) := false]> (stream_lock (held i s)) = stream_lock s.
Proof.
  intros Hi E. unfold put_held. rewrite E, Nat2Z.id. replace (stream_lock (held i s)) with (<[i := true]> (stream_lock s)) by (by destruct s).
  split; [apply list_lookup_insert_eq; by eapply lookup_lt_Some|]. rewrite list_insert_insert_eq. by apply list_insert_id.
Qed.
End tx.

(** C11: A transaction is committed after everything it consists of.  On a
    running, writable file system with a free stream, fsync takes a free stream
    [sid], at index [i] of the mount.  If from there the data of the file is
    submitted without an error, and the mutex [put_stream] computes from [sid] is
    one that is held, fsync returns: it has submitted data and metadata of the
    file and of its new parents, all on [sid], then the description block and
    the commit, nothing after them but the flush, which comes after the
    description block is known to be complete; the inode is unlocked, and of the
    mutexes of the streams the one of index [i] was locked and the one
    [put_stream] computes unlocked, which is the same one when the stream
    belongs to its index.  In the other cases, the data is refused or the mutex
    is not held, it unlocks what nobody holds. *)
Theorem fsync_submits_then_commits `{VfsLaws} depth e s :
  startable depth e s ->
  exists i sid, mq_streams s !! i = Some sid /\ stream_lock s !! i = Some false /\
    (data_ok e sid (begun i s) -> put_held s i sid ->
      runs (ext4_sync_file (depth (e_ino e)) e) s (fun _ s' =>
        (exists txid evs, Forall (on_stream sid) evs /\
           out s' = out s ++ evs ++ [MqJh sid; MqCommit sid txid; MqJhDone sid] ++ (if e_barrier e then [MqFlush sid] else [])) /\
        stream_lock s' = <[Z.to_nat (lock_index s sid) := false]> (<[i := true]> (stream_lock s)) /\
        (lock_index s sid = Z.of_nat i -> stream_lock s' = stream_lock s) /\
        (forall j, inode_locked (inodes s' j) = inode_locked (inodes s j)))) /\
    (lock_index s sid = Z.of_nat i -> put_held s i sid) /\
    (~ data_ok e sid (begun i s) \/ ~ put_held s i sid -> ext4_sync_file (depth (e_ino e)) e s = Oops BadUnlock).
Proof.
  intros St. destruct (sync_file_ok depth e s St) as (i & sid & Hx & Hi & Hgo & Hbad). exists i, sid. split_and!; [done|done| | |done].
  - intros Hd Hp. eapply runs_conseq; [by apply Hgo|]. intros r s' (O & L & K & _). split_and!; [done| | |done].
    + rewrite L. by destruct s.
    + intros Ei. by rewrite L, (proj2 (held_put s i sid Hi Ei)).
  - intros Ei. by apply held_put.
Qed.

(** C27: fsync of a file that is not new reports success whatever happens to
    the writes it submitted: when the submission returned 0, and whatever the
    waits for the data, the metadata and the inode report, their result is
    overwritten with the result of waiting for the parents, of which there are
    none.  (As above, the mutex [put_stream] computes has to be one that is held.) *)
Theorem fsync_drops_write_errors `{VfsLaws} depth e s :
  startable depth e s -> newentry (inodes s (e_ino e)) = false ->
  exists i sid, mq_streams s !! i = Some sid /\ stream_lock s !! i = Some false /\
    (submit_ok e sid (begun i s) -> put_held s i sid ->
      runs (ext4_sync_file (depth (e_ino e)) e) s (fun r _ => r = 0)).
Proof.
  intros St Hn. destruct (sync_file_ok depth e s St) as (i & sid & Hx & Hi & Hgo & _). exists i, sid. split_and!; [done|done|].
  intros Hs Hp. assert (W : wfm (begun i s)) by (generalize (st_wf _ _ _ St); apply wfm_ext; by destruct s).
  eapply runs_conseq; [apply Hgo; [by apply submit_ok_data|done]|]. intros r s' (_ & _ & _ & Hr). by apply Hr.
Qed.

(** When the write-back of the data fails at once, the inode was not locked
    yet, but fsync and fatomic go on and unlock it. *)
Theorem fsync_unlocks_unlocked_inode `{VfsLaws} depth e s :
  startable depth e s ->
  exists i sid, mq_streams s !! i = Some sid /\ stream_lock s !! i = Some false /\
    (~ data_ok e sid (begun i s) ->
     ext4_sync_file (depth (e_ino e)) e s = Oops BadUnlock /\ ext4_atomic_file (depth (e_ino e)) e s = Oops BadUnlock).
Proof.
  intros St. destruct (startable_stream depth e s St) as (i & sid & Hx & Hi & E1). exists i, sid. split_and!; [done|done|].
  intros Hd. by apply (sync_data_fails depth e _ s i sid).
Qed.

(** ** The theorems on a file with two dirty buffers *)

(** Every write fails; the data is written back by one bio unless [full];
    waiting for it reports the error; the write-back of an inode calls its
    [write_inode]. *)
Definition vfs0 (full : bool) : Vfs := {|
  io_ok := fun _ => false;
  fstreamwrite := fun sid => if full then ret (-28) else mq_emit (MqData sid) ;;; ret 0;
  fdatawait := ret EIO_ret;
  check_wb_err := ret 0;
  sync_inode_nowait_data := fun ino wr =>
    modify (upd_inode ino (fun i => i <| i_dirty := false |> <| i_dirty_datasync := false |>)) ;;; wr;
|}.

Lemma vfs0_laws full : @VfsLaws (vfs0 full).
Proof.
  split.
  - intros sid s _. simpl. destruct full; [apply runs_ret; reflexivity|].
    apply runs_bind, runs_modify, runs_ret, soft_quiet, soft_emit. done.
  - intros s _. apply runs_ret. reflexivity.
  - intros s _. apply runs_ret. reflexivity.
  - intros ino wr s. exists false, false. right. done.
Qed.

Definition blank : minode := mk_minode [] [] [] [] false false false false false 1 None (inl EIO_ret).
Definition file1 : minode := mk_minode [0; 1]%nat [] [] [] true false true true false 1 (Some 0%nat) (inr 2%nat).

Definition mfs0 : mfs :=
  mk_mfs (fun _ => mk_mbuf true false true false 1 (Some 1%nat)) (fun i => if decide (i = 1%nat) then file1 else blank)
    0 [[0]; [1]]%nat 10 [true] [] 2 [0; 1] [true; false] 0 [].

Definition env0 : sync_env := mk_sync_env 1 0 false false false false true true.

Lemma mfs0_wf : wfm mfs0.
Proof.
  split; intros i; simpl; destruct (decide (i = 1%nat)); simpl.
  - apply NoDup_cons. split; [|apply NoDup_singleton]. by intros Hin%list_elem_of_singleton.
  - constructor.
  - by intros b Hb%elem_of_nil.
  - by intros b Hb%elem_of_nil.
  - by intros Hne.
  - by intros Hne.
Qed.

Lemma mfs0_streams : streams_ok mfs0.
Proof. split; reflexivity. Qed.

Lemma mfs0_acyclic : acyclic id mfs0.
Proof. intros i p. simpl. destruct (decide (i = 1%nat)) as [->|]; simpl; [intros [= <-]; unfold id; lia|done]. Qed.

Lemma mfs0_startable : startable id env0 mfs0.
Proof. split; [exact mfs0_wf|exact mfs0_streams|vm_compute; congruence|right; left|exact mfs0_acyclic|reflexivity..]. Qed.

Lemma metadata_written_once_witness :
  runs (_ <-- mqfs_submit_mapping_buffers (fun b => Nat.even b) 1 7 ;; mqfs_wait_mapping_buffers (fun b => Nat.even b) 1) mfs0
    (fun r s' => out s' = [MqBh 0 7; MqBh 1 7] /\
       (r = 0 /\ (forall b, b ∈ [0; 1]%nat -> Nat.even b = true) \/ r = EIO_ret)).
Proof.
  eapply runs_conseq.
  - apply (metadata_written_once (fun b => Nat.even b) 1 7 [0; 1]%nat mfs0); [reflexivity..|].
    apply NoDup_cons. split; [|apply NoDup_singleton]. intros Hin%list_elem_of_singleton. discriminate Hin.
  - intros r s' (O & _ & _ & _ & _ & [[E Hb]|[E _]]); (split; [exact O|]); [left|right; exact E].
    split; [exact E|]. intros b Hin. apply Hb; [exact Hin|reflexivity].
Defined.

(** The second stream is the free one. *)
Lemma mfs0_stream i sid : mq_streams mfs0 !! i = Some sid -> stream_lock mfs0 !! i = Some false -> i = 1%nat /\ sid = 1.
Proof. destruct i as [|[|i]]; [done| |done]. intros [= <-] _. by split. Qed.

(** Data, two buffers, the inode (a copy of its buffer, 10), description block,
    commit, flush. *)
Lemma fsync_submits_then_commits_witness :
  runs (@ext4_sync_file (vfs0 false) 1 env0) mfs0 (fun _ s' => stream_lock s' = [true; false] /\
    out s' = [MqData 1; MqBh 0 1; MqBh 1 1; MqBh 10 1; MqJh 1; MqCommit 1 1; MqJhDone 1; MqFlush 1]).
Proof.
  destruct (@fsync_submits_then_commits (vfs0 false) (vfs0_laws false) id env0 mfs0 mfs0_startable) as (i & sid & Hx & Hi & Hgo & _).
  destruct (mfs0_stream i sid Hx Hi) as [-> ->].
  eapply runs_conseq; [apply runs_and; [apply Hgo; vm_compute; reflexivity|]|].
  - instantiate (1 := fun _ s' => out s' = _). vm_compute. reflexivity.
  - intros r s' [(_ & _ & L & _) O]. split; [exact (L eq_refl)|exact O].
Defined.

(** All writes fail, and waiting for the data, the buffers and the inode says
    so. *)
Lemma fsync_drops_write_errors_witness :
  runs (@ext4_sync_file (vfs0 false) 1 env0) mfs0 (fun r s' => r = 0).
Proof.
  destruct (@fsync_drops_write_errors (vfs0 false) (vfs0_laws false) id env0 mfs0 mfs0_startable eq_refl) as (i & sid & Hx & Hi & Hgo).
  destruct (mfs0_stream i sid Hx Hi) as [-> ->]. apply Hgo; vm_compute; reflexivity.
Defined.

Lemma fsync_unlocks_unlocked_inode_witness :
  @ext4_sync_file (vfs0 true) 1 env0 mfs0 = Oops BadUnlock.
Proof.
  destruct (@fsync_unlocks_unlocked_inode (vfs0 true) (vfs0_laws true) id env0 mfs0) as (i & sid & Hx & Hi & Hgo).
  { destruct mfs0_startable. by split. }
  destruct (mfs0_stream i sid Hx Hi) as [-> ->]. apply Hgo. vm_compute. congruence.
Defined.

(** Streams 3 and 4 of the module. *)
Lemma put_stream_releases_another_witness :
  runs (x <-- get_free_stream 1 ;; put_stream x) (mfs0 <| mq_streams := [3; 4] |>) (fun _ s' =>
    stream_lock s' !! 1%nat = Some true /\ stream_lock s' !! 0%nat = Some false).
Proof.
  apply (put_stream_releases_another 1 (mfs0 <| mq_streams := [3; 4] |>) 1 0 4);
    [split; reflexivity|lia|reflexivity|reflexivity|reflexivity|reflexivity|lia|reflexivity].
Defined.
