(* ===== verification/FsStream.v ===== *)
(** * mqfs on the module

    The events fsync leaves behind ([mq_event]) are calls of the module.  This
    file gives each event the calls it stands for (page-io.c, filemap_compat.c,
    fsync.c) and runs the events of one fsync on the stream it holds: the
    entries of its writes are in persistent memory when the commit returns, if
    the read that ends a flush is one (the parameter [empty_read_drains]). *)

From S2P Require Import Prelude Mqfs MqfsFacts MqfsSync MqfsTheorems MqfsSyncFacts MqfsSyncTheorems.
From S2P Require Import Ring Horae Scan Cmb Checkpoint CheckpointFacts JournalFacts Stream StreamFacts DoorbellFacts TxFacts BlockFacts.

(** What the events are about: the bios page I/O makes of the dirty pages, with
    the mark whether they overwrite blocks, the buffer heads, the bio of the
    description block with its page, and the device of the mount. *)
Record disk_view := mk_disk_view {
  file_bios : list (bool * bio);
  buffer : nat -> buffer_head;
  jh_bio : bio;
  jh_page : Z;
  s_bdev : block_device;
}.

Section run.
Context `{Kernel}.

(** [ext4_io_submit] *)
Definition send_bio (sid : Z) (x : bool * bio) : M kst unit :=
  if x.1 then stream_submit_bio_ipu x.2 sid false else emit (SubmitBio x.2).

(** The description block of [ext4_sync_file] and [ext4_atomic_file]. *)
Definition send_jh (v : disk_view) (sid : Z) : M kst unit :=
  unpack (_, b) <-- alloc_journal_block sid (jh_bio v) 1 ;;
  emit (SubmitBio (b <| bi_io_vec := [mk_bvec (jh_page v) PAGE_SIZE 0] |> <| bi_size := PAGE_SIZE |>)).

Definition run_event (v : disk_view) (ev : mq_event) : M kst unit :=
  match ev with
  | MqData sid => for_each (file_bios v) (send_bio sid)
  | MqBh b sid => _ <-- stream_submit_bh_force_IPU (buffer v b) REQ_OP_WRITE (Z.lor REQ_TX REQ_SYNC) sid ;; ret tt
  | MqJh sid => send_jh v sid
  | MqCommit sid _ => _ <-- stream_commit_tx sid ;; ret tt
  | MqJhDone _ => ret tt
  | MqFlush sid => _ <-- stream_blkdev_issue_flush [s_bdev v] sid ;; ret tt
  end.
End run.

(** ** One entry *)

(** The entry a write of [b] puts into the queue of [s]. *)
Definition describes `{Kernel} (s : stream) (b : bio) (o : nvme_rw_command_) : Prop :=
  lba o = horae_get_lba b /\ clength o = u16 (horae_get_secs b) /\ device_id o = wrap CMB_DEVICE_ID_BITS (MINOR (bi_disk b)) /\
  off_in_journal s <= plba o /\ plba o + horae_get_secs b <= off_in_journal s + nr_journal_block s.

(** What a checkpoint, the journal and the flush leave alone. *)
Definition same_queue (s s' : stream) : Prop :=
  tail s' = tail s /\ last_queue_flushed s' = last_queue_flushed s /\ ometa_start s' = ometa_start s.

Lemma reserve_same_queue s nr ptr s' : reserve_post s nr ptr s' -> same_queue s s'.
Proof. intros (_ & _ & _ & _ & ? & ? & [[-> _]|[-> _]]); done. Qed.

Lemma checkpointed_same_queue s s' : checkpointed s s' -> same_queue s s'.
Proof. intros Hc. destruct (checkpointed_fields s s' Hc) as (_ & ? & _ & ? & _ & _ & _ & ?). done. Qed.

Lemma same_queue_slot s s' i : same_queue s s' -> slot s' i = slot s i.
Proof. intros (_ & _ & E). unfold slot. by rewrite E. Qed.

Lemma fill_ometa_wf l n d p t o : cmd_wf o -> cmd_wf (fill_ometa l n d p t o).
Proof.
  intros (_ & _ & H3 & H4 & _ & H6 & _ & _ & H9).
  exact (conj (wrap_range 64 l ltac:(lia)) (conj (wrap_range 16 n ltac:(lia)) (conj H3 (conj H4 (conj (wrap_range 3 t ltac:(lia))
    (conj H6 (conj (wrap_range 8 d ltac:(lia)) (conj (wrap_range 32 p ltac:(lia)) H9)))))))).
Qed.

(** A stream mqfs may use: its last doorbell covered everything in the queue. *)
Record fs_ready `{Kernel} (sid : Z) (s : stream) (k : kst) : Prop := mk_fs_ready {
  fr_ready : submit_ready sid s k;
  fr_nr : sid < nr_streams k < 2 ^ 32;
  fr_rung : last_queue_flushed s = tail s;
  fr_slots : Forall cmd_wf (ometa_start s);
}.

(** The queue of [s0] got the entries [es] since. *)
Record filling `{Kernel} (sid : Z) (s0 : stream) (k0 : kst) (bs : list bio) (s : stream) (k : kst) : Prop := mk_filling {
  fl_frame : io_frame sid k0 k;
  fl_stream : streams k !! Z.to_nat sid = Some s;
  fl_evolves : evolves no_end_mark s0 s;
  fl_tail : tail s = tail s0 + Z.of_nat (length bs);
  fl_rung : last_queue_flushed s = last_queue_flushed s0;
  fl_slots : Forall cmd_wf (ometa_start s);
  fl_entries : forall i b, bs !! i = Some b -> describes s0 b (slot s (tail s0 + Z.of_nat i)) /\
    holds (view (ci k)) s (tail s0 + Z.of_nat i);
}.

Section fill.
Context `{Kernel} `{!KernelLaws}.

Lemma filling_nil sid s k : fs_ready sid s k -> filling sid s k [] s k.
Proof.
  intros [Hr _ _ Hw]. split; [reflexivity|apply Hr|apply evolves_refl, Hr|cbn; lia|done|done|]. intros i b Hb. by rewrite lookup_nil in Hb.
Qed.

Lemma filling_ready sid s0 k0 bs s k : fs_ready sid s0 k0 -> filling sid s0 k0 bs s k -> submit_ready sid s k /\ sid < nr_streams k < 2 ^ 32.
Proof.
  intros [Hr Hn _ _] [F Hs Hev _ _ _ _]. split; [by apply (submit_ready_step no_end_mark sid s0 k0)|]. destruct (io_frame_fields _ _ _ F) as (_ & _ & -> & _). done.
Qed.

(** Steps that leave queue and device image alone. *)
Lemma filling_step sid s0 k0 bs s k s' k' :
  filling sid s0 k0 bs s k -> io_frame sid k k' -> streams k' !! Z.to_nat sid = Some s' -> evolves no_end_mark s s' ->
  same_queue s s' -> view (ci k') = view (ci k) -> filling sid s0 k0 bs s' k'.
Proof.
  intros [F Hs Hev Ht Hl Hw He] F' Hs' Hev' Hq Ev. pose proof Hq as (Et & El & Eo).
  split; [by etrans|done|by eapply evolves_trans|congruence|congruence|by rewrite Eo|].
  intros i b Hb. destruct (He i b Hb) as [Hd Hh]. rewrite (same_queue_slot s s') by done. split; [done|].
  intros j Hj. rewrite Ev, (same_queue_slot s s') by done. destruct Hev' as [Eg _ _]. injection Eg as _ _ Eo' _.
  unfold slot_addr. rewrite Eo'. by apply Hh.
Qed.

Lemma filling_push sid s0 k0 bs s k b ptr :
  fs_ready sid s0 k0 -> filling sid s0 k0 bs s k -> tail s0 + Z.of_nat (length bs) + 1 < nr_ometa s0 -> bio_ok s b ->
  off_in_journal s0 <= ptr -> ptr + horae_get_secs b <= off_in_journal s0 + nr_journal_block s0 ->
  runs (stream_submit_bio_core sid (horae_get_lba b) (horae_get_secs b) (MINOR (bi_disk b)) ptr HORAE_TX) k (fun _ k' =>
    exists s', filling sid s0 k0 (bs ++ [b]) s' k').
Proof.
  intros Hr0 Hf Hroom Hb Hp1 Hp2. destruct (filling_ready _ _ _ _ _ _ Hr0 Hf) as [Hr _].
  pose proof (wrap_range 32 (bi_size b / 4096) ltac:(lia)) as Hsr. fold (horae_get_secs b) in Hsr.
  pose proof (u16_le (horae_get_secs b) ltac:(lia)) as Hu. pose proof (bo_lba _ _ Hb) as Hl.
  assert (Hl0 : 0 <= horae_get_lba b) by (apply Z.div_pos; [apply Hb|lia]).
  pose proof (fr_ready _ _ _ Hr0) as Hr00. pose proof (sr_ok _ _ _ Hr00) as Hok0. pose proof (so_journal _ Hok0) as [Hj1 Hj2].
  eapply runs_conseq; [apply (submit_core_ok sid s); [done|done|lia]|].
  intros pos k' (_ & F & s1 & Hc & Hsp & _ & Hs' & Ec). set (o := new_entry _ _ _ _ _ _) in *.
  destruct Hf as [F0 Hs Hev Ht Hq Hw He]. pose proof (sr_ok _ _ _ Hr) as Hok. pose proof (checkpointed_ok _ _ Hok Hc) as Hok1.
  pose proof (checkpointed_same_queue _ _ Hc) as Hsq. pose proof Hsq as (E1 & E2 & E3).
  destruct (checkpointed_fields _ _ Hc) as (En1 & _ & _ & _ & _ & Eo1 & _).
  assert (En : nr_ometa s = nr_ometa s0) by (destruct Hev as [[=]]; congruence).
  assert (Hrange : 0 <= tail s0) by apply (so_ring _ Hok0).
  assert (Hwo : cmd_wf o).
  { apply fill_ometa_wf. rewrite Forall_forall in Hw. apply Hw. eapply list_elem_of_lookup_2, slot_lookup; [apply Hok|]. lia. }
  set (s' := pushed s1 o _) in *. assert (Et' : tail s' = tail s + 1).
  { change (tail s') with ((tail s1 + 1) mod nr_ometa s1). rewrite E1, En1, En. apply Z.mod_small. lia. }
  assert (Eo' : ometa_start s' = <[Z.to_nat (tail s) := o]> (ometa_start s)) by (rewrite <- E1, <- E3; done).
  assert (Hother : forall i, 0 <= i < nr_ometa s -> i <> tail s -> slot s' i = slot s i).
  { intros i Hi Hne. unfold slot. by rewrite Eo', list_lookup_insert_ne by lia. }
  assert (Htop : slot s' (tail s) = o) by (rewrite <- E1; apply pushed_slot, Hok1).
  assert (Eaddr : forall i, slot_addr s' i = slot_addr s i) by (intros i; unfold slot_addr; change (off_in_cmb s') with (off_in_cmb s1); by rewrite Eo1).
  assert (Ev : view (ci k') = write_bytes (view (ci k)) (slot_addr s (tail s)) (encode_cmd o)) by (by rewrite Ec).
  exists s'. split; [by etrans|done| |..].
  - eapply evolves_trans; [exact Hev|]. eapply evolves_trans; [by apply evolves_checkpointed|].
    apply evolves_pushed; [done|apply fill_ometa_ok; lia|apply new_entry_no_end; by right|done].
  - rewrite Et', Ht, length_app. cbn. lia.
  - change (last_queue_flushed s') with (last_queue_flushed s1). congruence.
  - rewrite Eo'. by apply Forall_insert.
  - intros i x Hx. destruct (decide (i < length bs)%nat) as [Hi|Hi].
    + rewrite lookup_app_l in Hx by done. destruct (He i x Hx) as [Hd Hh]. assert (Hne : tail s0 + Z.of_nat i <> tail s) by lia.
      rewrite Hother by lia. split; [done|]. intros j Hj. rewrite Ev, Eaddr, write_entry_outside, Hother by (unfold slot_addr, sizeof_cmd in *; lia).
      by apply Hh.
    + rewrite lookup_app_r in Hx by lia. apply list_lookup_singleton_Some in Hx as [Hi' <-].
      replace (tail s0 + Z.of_nat i) with (tail s) by lia. split.
      * rewrite Htop. unfold describes, o, new_entry, fill_ometa. cbn [lba clength device_id plba].
        rewrite (wrap_small 64), (wrap_small 32) by (pow2_consts; lia). split_and!; try done; lia.
      * intros j Hj. rewrite Ev, Eaddr, Htop, write_bytes_lookup, length_encode_cmd, decide_True by (unfold sizeof_cmd in *; lia). f_equal. lia.
Qed.

Definition tx_bio (b : bio) : Prop := op_is_tx_write (u32 (bi_opf b)) = true.

Lemma filling_emit sid s0 k0 bs s k ev :
  filling sid s0 k0 bs s k -> filling sid s0 k0 bs s (k <| trace ::= (.++ [ev]) |>).
Proof.
  intros Hf. eapply filling_step; [exact Hf|split; [by destruct k|done]|apply Hf|apply evolves_refl, Hf|done|done].
Qed.

Lemma filling_bio_ok sid s0 k0 bs s k b : filling sid s0 k0 bs s k -> bio_ok s0 b -> bio_ok s b.
Proof. intros Hf Hb. exact (op_ok_evolves _ _ _ (FsBio b true) (fl_evolves _ _ _ _ _ _ Hf) Hb). Qed.

Lemma filling_ipu sid s0 k0 bs s k b forced :
  fs_ready sid s0 k0 -> filling sid s0 k0 bs s k -> tail s0 + Z.of_nat (length bs) + 1 < nr_ometa s0 ->
  bio_ok s0 b -> tx_bio b -> version_consistency k0 || forced = true ->
  runs (stream_submit_bio_ipu b sid forced) k (fun _ k' => exists s', filling sid s0 k0 (bs ++ [b]) s' k').
Proof.
  intros Hr0 Hf Hroom Hb0 Htx Hvc. destruct (filling_ready _ _ _ _ _ _ Hr0 Hf) as [Hr Hn].
  pose proof (filling_bio_ok _ _ _ _ _ _ _ Hf Hb0) as Hb. pose proof Hb as [Hb1 Hb2 Hb3 Hb4 Hb5 Hb6 Hb7].
  unfold stream_submit_bio_ipu. cbv zeta. rstep. apply clamp_sid_ok; [lia|]. rewrite Htx, Hb6, !orb_true_r. cbn [orb negb].
  destruct (io_frame_fields _ _ _ (fl_frame _ _ _ _ _ _ Hf)) as (_ & _ & _ & Ev & _). rstep. rstep. rewrite Ev, Hvc.
  pose proof Hr as [Hsid Hs Hok _ _ Hwb Hjl _]. rstep. eapply runs_conseq; [by apply (journal_write_alloc_ok sid s)|].
  intros r k1 (F1 & s1 & ptr & k1' & Hs1 & Hpost & -> & _ & _). pose proof Hpost as (_ & Hp1 & Hp2 & _).
  change (horae_get_secs (b <| bi_opf ::= strip_order |>)) with (horae_get_secs b) in Hp2.
  pose proof (so_journal s Hok). destruct (Z.ltb_spec ptr 0); [lia|]. rstep.
  pose proof (ev_geo _ _ _ (fl_evolves _ _ _ _ _ _ Hf)) as Eg. injection Eg as _ _ _ Eg1 Eg2 _ _.
  assert (Hf1 : filling sid s0 k0 bs s1 k1).
  { eapply filling_step; [done|by apply op_io_frame|done|by eapply evolves_reserved|by eapply reserve_same_queue|].
    destruct F1 as [-> _]. done. }
  eapply runs_conseq; [apply (filling_push sid s0 k0 bs s1 k1 b ptr); [done|done|done|by eapply filling_bio_ok|lia|lia]|].
  intros _ k2 (s2 & Hf2). kstep. exists s2. by apply filling_emit.
Qed.

(** The bios that are given an entry. *)
Definition queued_file (vc : bool) (l : list (bool * bio)) : list bio :=
  if vc then (base.filter (fun x => x.1 = true) l).*2 else [].

Definition event_bios (vc : bool) (v : disk_view) (bio_of : nat -> bio) (ev : mq_event) : list bio :=
  match ev with
  | MqData _ => queued_file vc (file_bios v)
  | MqBh b _ => [bio_of b]
  | _ => []
  end.

Definition file_ok (s : stream) (x : bool * bio) : Prop := x.1 = true -> bio_ok s x.2 /\ tx_bio x.2.

Lemma filling_file sid s0 k0 l bs s k :
  fs_ready sid s0 k0 -> filling sid s0 k0 bs s k -> Forall (file_ok s0) l ->
  tail s0 + Z.of_nat (length bs + length (queued_file (version_consistency k0) l)) < nr_ometa s0 ->
  runs (for_each l (send_bio sid)) k (fun _ k' =>
    exists s', filling sid s0 k0 (bs ++ queued_file (version_consistency k0) l) s' k').
Proof.
  intros Hr0. revert bs s k. induction l as [|[ow b] l IH]; intros bs s k Hf Hl Hroom.
  { cbn [for_each]. apply (runs_ret tt). exists s. unfold queued_file. destruct (version_consistency k0); cbn; by rewrite app_nil_r. }
  apply Forall_cons in Hl as [Hb Hl]. cbn [for_each]. rstep.
  destruct (decide (version_consistency k0 = true /\ ow = true)) as [[Hvc ->]|Hno].
  - destruct (Hb eq_refl) as [Hb1 Hb2]. unfold queued_file in *. rewrite Hvc in *.
    rewrite filter_cons_True in * by done. cbn [fmap list_fmap snd length] in *.
    eapply runs_conseq; [apply (filling_ipu sid s0 k0 bs s k); [done|done|lia|done|done|by rewrite Hvc]|].
    intros [] k1 (s1 & Hf1). eapply runs_conseq; [apply (IH (bs ++ [b]) s1); [done|done|rewrite length_app; cbn; lia]|].
    intros [] k2. by rewrite <- app_assoc.
  - assert (Eq : queued_file (version_consistency k0) ((ow, b) :: l) = queued_file (version_consistency k0) l).
    { unfold queued_file. destruct (version_consistency k0); [|done]. rewrite filter_cons_False; [done|]. cbn. intros ->. by apply Hno. }
    rewrite Eq in *. unfold send_bio at 1. cbn [fst snd]. destruct ow; [|kstep; by apply (IH bs s), Hroom; first apply filling_emit].
    destruct (Hb eq_refl) as [Hb1 Hb2]. cbn [fst snd] in Hb1, Hb2. destruct (filling_ready _ _ _ _ _ _ Hr0 Hf) as [_ Hn]. unfold stream_submit_bio_ipu. cbv zeta.
    rstep. apply clamp_sid_ok; [lia|]. rewrite Hb2, (bo_data _ _ Hb1), !orb_true_r. cbn [orb negb].
    destruct (io_frame_fields _ _ _ (fl_frame _ _ _ _ _ _ Hf)) as (_ & _ & _ & Ev & _). rstep. rstep. rewrite Ev.
    destruct (version_consistency k0); [exfalso; by apply Hno|]. cbn [orb]. kstep. apply (IH bs s); [by apply filling_emit|done|done].
Qed.

Definition buffer_ok (s : stream) (v : disk_view) (bio_of : nat -> bio) (b : nat) : Prop :=
  bio_ok s (bio_of b) /\ tx_bio (bio_of b) /\
  exists bh', forall k, bh2bio REQ_OP_WRITE (Z.lor REQ_TX REQ_SYNC) (buffer v b) k = Ret (bio_of b, bh') k.

(** Metadata buffers are sent with the flag of a transaction. *)
Lemma tx_buffer_flags :
  let f := Z.lor REQ_TX REQ_SYNC in
  let f1 := if op_is_ordered_write f then clear_flag f REQ_ORDERED else f in
  let f2 := if op_is_barrier_write f then clear_flag f1 REQ_BARRIER else f1 in
  negb (op_is_ordered_write f || op_is_barrier_write f || op_is_tx_write f2) = false.
Proof.
  cbv zeta. destruct (op_is_ordered_write _); [done|]. destruct (op_is_barrier_write _); [done|]. apply negb_false_iff. cbn [orb].
  pose proof req_nr_bits_range. unfold op_is_tx_write, REQ_TX. rewrite flag_set_bit, Z.lor_spec, Z.shiftl_spec by lia.
  rewrite Z.sub_diag. done.
Qed.

Lemma filling_bh sid s0 k0 v bio_of b bs s k :
  fs_ready sid s0 k0 -> filling sid s0 k0 bs s k -> tail s0 + Z.of_nat (length bs) + 1 < nr_ometa s0 ->
  buffer_ok s0 v bio_of b ->
  runs (run_event v (MqBh b sid)) k (fun _ k' => exists s', filling sid s0 k0 (bs ++ [bio_of b]) s' k').
Proof.
  intros Hr0 Hf Hroom (Hb & Htx & bh' & Hbh). cbn [run_event]. rstep. unfold stream_submit_bh_force_IPU. cbv zeta. rewrite tx_buffer_flags. rstep.
  eapply runs_intro; [apply Hbh|]. cbv beta iota. rstep.
  eapply runs_conseq; [apply (filling_ipu sid s0 k0 bs s); [done|done|done|done|done|apply orb_true_r]|].
  intros [] k' Hk'. kstep. kstep. exact Hk'.
Qed.

Definition event_ok (s : stream) (v : disk_view) (bio_of : nat -> bio) (ev : mq_event) : Prop :=
  match ev with
  | MqData _ => Forall (file_ok s) (file_bios v)
  | MqBh b _ => buffer_ok s v bio_of b
  | _ => True
  end.

Definition events_bios (vc : bool) (v : disk_view) (bio_of : nat -> bio) (evs : list mq_event) : list bio :=
  concat (event_bios vc v bio_of <$> evs).

Lemma filling_events sid s0 k0 v bio_of evs bs s k :
  fs_ready sid s0 k0 -> filling sid s0 k0 bs s k -> Forall (on_stream sid) evs -> Forall (event_ok s0 v bio_of) evs ->
  tail s0 + Z.of_nat (length bs + length (events_bios (version_consistency k0) v bio_of evs)) < nr_ometa s0 ->
  runs (for_each evs (run_event v)) k (fun _ k' =>
    exists s', filling sid s0 k0 (bs ++ events_bios (version_consistency k0) v bio_of evs) s' k').
Proof.
  intros Hr0. revert bs s k. induction evs as [|ev evs IH]; intros bs s k Hf Hon Hok Hroom.
  { cbn [for_each]. apply (runs_ret tt). exists s. by rewrite app_nil_r. }
  apply Forall_cons in Hon as [He Hon], Hok as [Ho Hok]. cbn [for_each]. rstep.
  change (events_bios ?vc v bio_of (ev :: evs)) with (event_bios vc v bio_of ev ++ events_bios vc v bio_of evs) in *.
  rewrite length_app in Hroom.
  apply (runs_conseq _ _ (fun _ k' => exists s', filling sid s0 k0 (bs ++ event_bios (version_consistency k0) v bio_of ev) s' k')).
  - destruct ev; try done; cbn in He; subst.
    + cbn [run_event]. apply (filling_file sid s0 k0 _ bs s); [done|done|done|cbn in Hroom; lia].
    + apply (filling_bh sid s0 k0 v bio_of b bs s); [done|done|cbn in Hroom; lia|done].
  - intros [] k1 (s1 & Hf1). eapply runs_conseq; [apply (IH (bs ++ event_bios (version_consistency k0) v bio_of ev) s1); [done..|rewrite length_app; lia]|].
    intros [] k2. by rewrite <- app_assoc.
Qed.

Lemma filling_jh sid s0 k0 v bs s k :
  fs_ready sid s0 k0 -> filling sid s0 k0 bs s k -> 1 <= nr_journal_block s0 ->
  runs (run_event v (MqJh sid)) k (fun _ k' => exists s', filling sid s0 k0 bs s' k').
Proof.
  intros Hr0 Hf Hj. destruct (filling_ready _ _ _ _ _ _ Hr0 Hf) as [[Hsid Hs Hok _ _ Hwb Hjl _] _].
  pose proof (ev_geo _ _ _ (fl_evolves _ _ _ _ _ _ Hf)) as Eg. injection Eg as _ _ _ Eg _ _ _.
  cbn [run_event]. unfold send_jh, alloc_journal_block. rstep. rstep. eapply runs_get_stream; [done|done|].
  destruct (Z.ltb_spec (nr_journal_block s) 1); [lia|]. rstep.
  eapply runs_conseq; [apply (journal_reserve_post sid s k 1); [done|done|done|done|done|lia]|].
  intros ptr k1 (F1 & s1 & Hs1 & Hpost). rstep. kstep. kstep. kstep. exists s1. apply filling_emit.
  eapply filling_step; [exact Hf|by apply op_io_frame|done|by eapply evolves_reserved|by eapply reserve_same_queue|].
  destruct F1 as [-> _]. done.
Qed.

(** ** The commit and the flush *)

(** The entries [bs] asked for are behind the tail of [s0] in the queue [s], in
    the cached image of the region and in the one the flushes have posted. *)
Definition stored (s0 : stream) (bs : list bio) (s : stream) (c : cmb_info) : Prop :=
  forall i b, bs !! i = Some b -> sizeof_cmd <= slot_addr s0 (tail s0 + Z.of_nat i) ->
    describes s0 b (slot s (tail s0 + Z.of_nat i)) /\ cmd_wf (slot s (tail s0 + Z.of_nat i)) /\
    holds (view c) s (tail s0 + Z.of_nat i) /\ holds (posted c) s (tail s0 + Z.of_nat i).

Record stored_ok (sid : Z) (s0 : stream) (k0 : kst) (bs : list bio) (s : stream) (k : kst) : Prop := mk_stored_ok {
  st_ready : fs_ready sid s k;
  st_frame : io_frame sid k0 k;
  st_evolves : evolves no_end_mark s0 s;
  st_stored : stored s0 bs s (ci k);
  st_drained : empty_read_drains = true -> pmr (ci k) = posted (ci k);
}.

Lemma tagged_wf o : cmd_wf o -> cmd_wf (o <| tag := wrap 3 (Z.shiftl 1 HORAE_TX_END) |>).
Proof.
  intros (H1 & H2 & H3 & H4 & _ & H6 & H7 & H8 & H9). exact (conj H1 (conj H2 (conj H3 (conj H4 (conj (wrap_range 3 _ ltac:(lia))
    (conj H6 (conj H7 (conj H8 H9)))))))).
Qed.

Lemma filling_commit sid s0 k0 bs s k :
  fs_ready sid s0 k0 -> filling sid s0 k0 bs s k -> tail s0 + Z.of_nat (length bs) < nr_ometa s0 ->
  runs (stream_commit_tx sid) k (fun _ k' => exists s', stored_ok sid s0 k0 bs s' k').
Proof.
  intros Hr0 Hf Hroom. destruct (filling_ready _ _ _ _ _ _ Hr0 Hf) as [Hr Hn]. destruct Hf as [F Hs Hev Ht Hl Hw He].
  pose proof Hr as [Hsid _ Hok _ Hg _ _ _]. pose proof (fr_rung _ _ _ Hr0) as Hrung.
  pose proof (so_ring s Hok) as [Hn1 Hn2 _ Ht1 _]. pose proof (sr_ok _ _ _ (fr_ready _ _ _ Hr0)) as Hok0.
  pose proof (so_ring s0 Hok0) as [_ _ _ Ht0 _]. pose proof (ev_geo _ _ _ Hev) as Eg. injection Eg as Eg1 _ Eg3 _ _ _ _.
  eapply runs_conseq; [apply (stream_commit_ok sid s); [done|done|done|done|left; lia]|].
  intros r k' (_ & F' & Hs' & Hd). exists (committed_stream s). pose proof (evolves_committed no_end_mark s Hok) as Hev'.
  assert (Eo : ometa_start (committed_stream s) = <[Z.to_nat (tail s) := (slot s (tail s)) <| tag := wrap 3 (Z.shiftl 1 HORAE_TX_END) |>]> (ometa_start s)) by done.
  assert (Eslot : forall i, 0 <= i -> i <> tail s -> slot (committed_stream s) i = slot s i).
  { intros i Hi Hne. unfold slot at 1. rewrite Eo, list_lookup_insert_ne by lia. done. }
  rewrite Forall_forall in Hw.
  split; [split; [by eapply (submit_ready_step no_end_mark)| |done|]|by etrans|by eapply evolves_trans| |].
  - destruct (io_frame_fields _ _ _ F') as (_ & _ & -> & _). done.
  - rewrite Eo. apply Forall_insert; [by apply Forall_forall|]. apply tagged_wf, Hw. eapply list_elem_of_lookup_2, slot_lookup; [apply Hok|lia].
  - intros i b Hb Ha. pose proof (lookup_lt_Some _ _ _ Hb) as Hi. destruct (He i b Hb) as [Hdesc Hh].
    assert (Ha' : sizeof_cmd <= slot_addr s (tail s0 + Z.of_nat i)) by (unfold slot_addr in *; lia). unfold sizeof_cmd in Ha'.
    assert (Hq : tail s0 + Z.of_nat i ∈ queued s).
    { unfold queued. apply elem_of_ring_range; [lia..|]. split; [lia|]. rewrite Hl, Hrung. rewrite !Z.mod_small by lia. lia. }
    pose proof (doorbell_holds s (ci k) (ci k') _ Hok Hg Hd Hq Hh ltac:(lia)) as Hp.
    assert (Hc : forall m, holds m s (tail s0 + Z.of_nat i) -> holds m (committed_stream s) (tail s0 + Z.of_nat i)).
    { intros m Hm j Hj. rewrite Eslot by lia. exact (Hm j Hj). }
    rewrite Eslot by lia. split_and!; [done|apply Hw; eapply list_elem_of_lookup_2, slot_lookup; [apply Hok|lia]| |by apply Hc].
    apply Hc. intros j Hj. destruct Hd as (c1 & _ & ((_ & V2 & _) & _)). rewrite V2.
    change (write_bytes (view (ci k)) 0 (le_bytes 4 (tail s)) !! (slot_addr s (tail s0 + Z.of_nat i) + j) = encode_cmd (slot s (tail s0 + Z.of_nat i)) !! Z.to_nat j).
    rewrite write_bytes_lookup, decide_False by (rewrite length_le_bytes; lia). exact (Hh j Hj).
  - intros He'. pose proof (doorbell_pmr _ _ _ Hd) as Ep. by rewrite He' in Ep.
Qed.

Lemma stored_flush sid s0 k0 bs s k v :
  stored_ok sid s0 k0 bs s k -> (queue_wc (s_bdev v) = true -> bdev_ready (s_bdev v) = true) ->
  runs (run_event v (MqFlush sid)) k (fun _ k' => exists s', stored_ok sid s0 k0 bs s' k' /\ flushed_log s' = log s').
Proof.
  intros [[Hr Hn Hrung Hw] F Hev Hst Hdr] Hdev. pose proof Hr as [Hsid Hs Hok _ Hg _ _ Hcp]. cbn [run_event]. rstep.
  eapply runs_conseq; [apply (issue_flush_ok sid s); [lia|lia|done|done|done|done|done|]|].
  { intros d Hd. apply list_elem_of_singleton in Hd as ->. done. }
  intros r k' Hk'. apply runs_ret. case_decide as Hht.
  - destruct Hk' as [_ ->]. exists s. split; [by split|]. pose proof (log_split s Hok) as El.
    assert (E : log s = []) by (apply length_zero_iff_nil; pose proof (length_log s (so_ring s Hok)) as Hlen; rewrite Hht, Z.sub_diag, Zmod_0_l in Hlen; lia).
    rewrite E in El. symmetry in El. apply app_eq_nil in El as [El _]. by rewrite El, E.
  - destruct Hk' as (_ & F' & Hs' & _ & (_ & V & _ & O) & Ep). exists (flushed_stream s). pose proof (evolves_flushed no_end_mark s Hok) as Hev'.
    split; [|done]. split; [split; [by eapply (submit_ready_step no_end_mark)| |done|done]|by etrans|by eapply evolves_trans| |by intros He; rewrite He in Ep].
    + destruct (io_frame_fields _ _ _ F') as (_ & _ & -> & _). done.
    + intros i b Hb Ha. destruct (Hst i b Hb Ha) as (H1 & H2 & H3 & H4). split_and!; [done|done|by rewrite V|].
      intros j Hj. destruct (O (slot_addr (flushed_stream s) (tail s0 + Z.of_nat i) + j)) as [-> | ->]; [exact (H4 j Hj)|exact (H3 j Hj)].
Qed.

(** ** All events of one fsync *)

Lemma run_fsync_events sid s0 k0 v bio_of evs txid barrier :
  fs_ready sid s0 k0 -> Forall (on_stream sid) evs -> Forall (event_ok s0 v bio_of) evs -> 1 <= nr_journal_block s0 ->
  (queue_wc (s_bdev v) = true -> bdev_ready (s_bdev v) = true) ->
  let bs := events_bios (version_consistency k0) v bio_of evs in
  tail s0 + Z.of_nat (length bs) < nr_ometa s0 ->
  runs (for_each (evs ++ [MqJh sid; MqCommit sid txid; MqJhDone sid] ++ (if barrier : bool then [MqFlush sid] else [])) (run_event v)) k0
    (fun _ k' => exists s', stored_ok sid s0 k0 bs s' k' /\ (barrier = true -> flushed_log s' = log s')).
Proof.
  intros Hr0 Hon Hok Hj Hdev bs Hroom. unfold runs at 1. rewrite for_each_app. apply runs_bind.
  eapply runs_conseq; [apply (filling_events sid s0 k0 v bio_of evs [] s0); [done|by apply filling_nil|done|done|exact Hroom]|].
  intros [] k1 (s1 & Hf1). cbn [for_each app]. rstep. eapply runs_conseq; [by apply (filling_jh sid s0 k0 v bs s1)|].
  intros [] k2 (s2 & Hf2). rstep. cbn [run_event]. rstep. eapply runs_conseq; [by apply (filling_commit sid s0 k0 bs s2)|].
  intros r k3 (s3 & Hf3). apply runs_ret. rstep. cbn [run_event]. apply (runs_ret tt). destruct barrier; cbn [for_each].
  - rstep. eapply runs_conseq; [by apply (stored_flush sid s0 k0 bs s3)|]. intros [] k4 (s4 & Hf4 & Hfl). apply (runs_ret tt). by exists s4.
  - apply (runs_ret tt). by exists s3.
Qed.
End fill.
