(* ===== verification/FsStreamTheorems.v ===== *)
(** * mqfs on the module: the theorem *)

From S2P Require Import Prelude Mqfs MqfsFacts MqfsSync MqfsTheorems MqfsSyncFacts MqfsSyncTheorems.
From S2P Require Import Ring Horae Scan Cmb Checkpoint CheckpointFacts JournalFacts Stream StreamFacts DoorbellFacts TxFacts BlockFacts FsStream.




(** ** A file with one overwritten page, a dirty buffer and a dirty inode, on the
    second stream of the small module *)

From S2P Require Import Instances.










