(* ===== verification/MqfsPageIo.v ===== *)
(** * mqfs: writing the pages of a file (mqfs/page-io.c)

    Dirty buffers of pages are collected into bios, which mqfs sends through a
    stream when they overwrite allocated blocks; the end of the last bio of a
    page ends its write-back, and an [io_end] shared by the bios of an extent
    converts the extent from unwritten to written when the last is over.

    Pages are numbers; [bufs] is the ring of buffers of a page from its head.
    The file system is built without encryption (an encrypted inode's pages
    cannot be encrypted) and [ext4_convert_unwritten_extents] is a parameter. *)

From S2P Require Import Prelude Ring Horae.

Definition EOPNOTSUPP_err : Z := -95.
Definition ENOMEM_bio : Z := -12.
Definition PAGE_SIZE_4K : Z := 4096.

Record pbuf := mk_pbuf {
  pb_block : Z;
  pb_size : Z;
  pb_off : Z;                  (* bh_offset *)
  pb_dirty : bool;
  pb_delay : bool;
  pb_mapped : bool;
  pb_unwritten : bool;
  pb_new : bool;
  pb_async : bool;             (* buffer_async_write *)
  pb_uptodate : bool;
  pb_overwrite : bool;
}.

#[export] Instance eta_pbuf : Eta pbuf := fun b =>
  mk_pbuf (pb_block b) (pb_size b) (pb_off b) (pb_dirty b) (pb_delay b) (pb_mapped b) (pb_unwritten b) (pb_new b)
    (pb_async b) (pb_uptodate b) (pb_overwrite b).

Record ext4_io_end := mk_io_end {
  ie_unwritten : bool;         (* flag & EXT4_IO_END_UNWRITTEN *)
  ie_count : Z;
  ie_size : Z;
  ie_handle : bool;            (* a reserved handle is attached *)
  ie_bios : list bio;          (* completed bios, the last first *)
  ie_listed : bool;            (* on i_rsv_conversion_list *)
}.

#[export] Instance eta_io_end : Eta ext4_io_end := fun i =>
  mk_io_end (ie_unwritten i) (ie_count i) (ie_size i) (ie_handle i) (ie_bios i) (ie_listed i).

Record pio := mk_pio {
  bufs : Z -> list pbuf;
  writeback : Z -> bool;
  page_error : list Z;
  redirtied : list Z;
  ends : list Z;               (* pages whose write-back was ended, in order *)
  (* struct ext4_io_submit *)
  io_bio : option bio;
  io_next_block : Z;
  io_end : nat;
  overwrite : bool;
  sync_mode : Z;               (* io_wbc->sync_mode *)
  io_stream : Z;               (* io_wbc->stream *)
  (* the inode *)
  io_ends : nat -> ext4_io_end;
  rsv_list : list nat;         (* i_rsv_conversion_list *)
  works : Z;                   (* calls of queue_work *)
  i_unwritten : Z;
  converted : list nat;
  freed_ends : list nat;
  (* the block layer *)
  bio_allocs : list bool;      (* whether the next calls of bio_alloc succeed *)
  sent : list (bool * bio * nat);  (* through the stream or not, the bio, its io_end *)
}.

#[export] Instance eta_pio : Eta pio := fun s =>
  mk_pio (bufs s) (writeback s) (page_error s) (redirtied s) (ends s) (io_bio s) (io_next_block s) (io_end s)
    (overwrite s) (sync_mode s) (io_stream s) (io_ends s) (rsv_list s) (works s) (i_unwritten s) (converted s)
    (freed_ends s) (bio_allocs s) (sent s).

Definition set_bufs (p : Z) (l : list pbuf) (s : pio) : pio := s <| bufs ::= <[p := l]> |>.
Definition upd_end (i : nat) (f : ext4_io_end -> ext4_io_end) (s : pio) : pio := s <| io_ends ::= alter f i |>.

(** ** The end of a bio *)

Definition end_page_writeback (p : Z) : M pio unit := fun s =>
  if writeback s p then Ret tt (s <| writeback ::= <[p := false]> |> <| ends ::= (.++ [p]) |>)
  else Oops BugOn.

(** The buffer lies inside the vector. *)
Definition in_vec (v : bio_vec) (b : pbuf) : bool :=
  (bv_offset v <=? pb_off b) && (pb_off b + pb_size b <=? bv_offset v + bv_len v).

(** One vector: its buffers are done, and the page if no other is under I/O. *)
Definition finish_vec (status : Z) (v : bio_vec) : M pio unit :=
  let p := bv_page v in
  (if status =? 0 then ret tt else modify (fun s => s <| page_error ::= (.++ [p]) |>)) ;;;
  l <-- gets (fun s => bufs s p) ;;
  let under_io := length (base.filter (fun b => in_vec v b = false /\ pb_async b = true) l) in
  modify (set_bufs p ((fun b => if in_vec v b then b <| pb_async := false |> else b) <$> l)) ;;;
  if bool_decide (under_io = 0%nat) then end_page_writeback p else ret tt.

Definition ext4_finish_bio (status : Z) (b : bio) : M pio unit := for_each (bi_io_vec b) (finish_vec status).

(** ** io_end *)

Definition ext4_clear_io_unwritten_flag (i : nat) : M pio unit := modify (fun s =>
  if ie_unwritten (io_ends s i)
  then (upd_end i (fun x => x <| ie_unwritten := false |>) s) <| i_unwritten ::= fun n => n - 1 |>
  else s).

(** [status]: of the bios that wait in the io_end. *)
Definition ext4_release_io_end (status : Z) (i : nat) : M pio unit :=
  x <-- gets (fun s => io_ends s i) ;;
  check (negb (ie_listed x)) BugOn ;;;
  check (negb (ie_unwritten x)) BugOn ;;;
  for_each (ie_bios x) (ext4_finish_bio status) ;;;
  modify (fun s => s <| freed_ends ::= (.++ [i]) |>).

Section io_end.
Context (convert : nat -> Z) (status : Z).

Definition convert_unwritten (i : nat) : M pio Z :=
  modify (fun s => s <| converted ::= (.++ [i]) |>) ;;; ret (convert i).

Definition ext4_end_io (i : nat) : M pio Z :=
  modify (upd_end i (fun x => x <| ie_handle := false |>)) ;;;
  r <-- convert_unwritten i ;;
  ext4_clear_io_unwritten_flag i ;;;
  ext4_release_io_end status i ;;;
  ret r.

Definition ext4_add_complete_io (i : nat) : M pio unit :=
  l <-- gets rsv_list ;;
  (if bool_decide (l = []) then modify (fun s => s <| works ::= fun n => n + 1 |>) else ret tt) ;;;
  modify (fun s => s <| rsv_list ::= (.++ [i]) |>) ;;;
  modify (upd_end i (fun x => x <| ie_listed := true |>)).

Fixpoint flush_loop (l : list nat) (r : Z) : M pio Z :=
  match l with
  | [] => ret r
  | i :: l =>
      x <-- gets (fun s => io_ends s i) ;;
      check (ie_unwritten x) BugOn ;;;
      modify (upd_end i (fun x => x <| ie_listed := false |>)) ;;;
      err <-- ext4_end_io i ;;
      flush_loop l (if (r =? 0) && negb (err =? 0) then err else r)
  end.

(** The work [ext4_end_io_rsv_work]. *)
Definition ext4_do_flush_completed_IO : M pio Z :=
  l <-- gets rsv_list ;;
  modify (fun s => s <| rsv_list := [] |>) ;;;
  flush_loop l 0.

Definition dec_and_test (i : nat) : M pio bool :=
  modify (upd_end i (fun x => x <| ie_count ::= fun n => n - 1 |>)) ;;;
  gets (fun s => ie_count (io_ends s i) =? 0).

Definition ext4_put_io_end_defer (i : nat) : M pio unit :=
  z <-- dec_and_test i ;;
  if z : bool then
    x <-- gets (fun s => io_ends s i) ;;
    if negb (ie_unwritten x) || (ie_size x =? 0) then ext4_release_io_end status i
    else ext4_add_complete_io i
  else ret tt.

Definition ext4_put_io_end (i : nat) : M pio Z :=
  z <-- dec_and_test i ;;
  if z : bool then
    x <-- gets (fun s => io_ends s i) ;;
    err <-- (if ie_unwritten x then
               err <-- convert_unwritten i ;;
               modify (upd_end i (fun x => x <| ie_handle := false |>)) ;;;
               ext4_clear_io_unwritten_flag i ;;;
               ret err
             else ret 0) ;;
    ext4_release_io_end status i ;;;
    ret err
  else ret 0.

Definition ext4_get_io_end (i : nat) : M pio unit :=
  modify (upd_end i (fun x => x <| ie_count ::= fun n => n + 1 |>)).

Definition ext4_init_io_end (i : nat) : M pio unit :=
  modify (upd_end i (fun _ => mk_io_end false 1 0 false [] false)).

Definition ext4_end_bio (b : bio) (i : nat) : M pio unit :=
  x <-- gets (fun s => io_ends s i) ;;
  if ie_unwritten x then
    modify (upd_end i (fun x => x <| ie_bios ::= cons b |>)) ;;;
    ext4_put_io_end_defer i
  else
    ext4_put_io_end_defer i ;;;
    ext4_finish_bio status b.
End io_end.

(** ** Collecting buffers into bios

    [bio_add vs v]: what [bio_add_page] makes of the vectors of a bio, or
    [None] when the bio is full. *)
Class BlockApi := {
  bio_add : list bio_vec -> bio_vec -> option (list bio_vec);
  WB_SYNC_ALL : Z;
  bh_bdev : Z * Z;             (* the device of the file system: disk and partition *)
}.

Section submit.
Context `{Kernel, BlockApi}.

Definition WB_ORDERED_ALL : Z := WB_SYNC_ALL + 1.
Definition WB_BARRIER_ALL : Z := WB_SYNC_ALL + 2.
Definition WB_TX_WRITE : Z := WB_SYNC_ALL + 3.

Definition io_op_flags (ow : bool) (mode : Z) : Z :=
  let f := if mode =? WB_SYNC_ALL then REQ_SYNC else 0 in
  if ow then
    let f := if mode =? WB_TX_WRITE then Z.lor REQ_TX REQ_SYNC else f in
    let f := if mode =? WB_ORDERED_ALL then Z.lor REQ_ORDERED REQ_SYNC else f in
    if mode =? WB_BARRIER_ALL then Z.lor REQ_BARRIER REQ_SYNC else f
  else f.

(** [stream_submit_bio_ipu] or [submit_bio]. *)
Definition ext4_io_submit : M pio unit := modify (fun s =>
  match io_bio s with
  | None => s
  | Some b =>
      let f := Z.lor REQ_OP_WRITE (io_op_flags (overwrite s) (sync_mode s)) in
      s <| sent ::= (.++ [(overwrite s, b <| bi_opf := f |>, io_end s)]) |> <| io_bio := None |>
  end).

(** [ext4_io_submit_init], which leaves [io_end] NULL, and the statement behind
    it in its callers, which sets it to a new one ([ext4_init_io_end]): no
    other step sees it NULL. *)
Definition start_io_submit (mode stream : Z) (i : nat) : M pio unit :=
  modify (fun s => s <| sync_mode := mode |> <| io_stream := stream |> <| io_bio := None |> <| overwrite := false |>) ;;;
  ext4_init_io_end i ;;;
  modify (fun s => s <| io_end := i |>).

Definition bio_alloc : M pio bool := fun s =>
  match bio_allocs s with
  | [] => Ret false s
  | ok :: rest => Ret ok (s <| bio_allocs := rest |>)
  end.

Definition io_submit_init_bio (bh : pbuf) : M pio Z :=
  ok <-- bio_alloc ;;
  if negb ok then ret ENOMEM_bio
  else
    i <-- gets io_end ;;
    ext4_get_io_end i ;;;
    modify (fun s => s <| io_bio := Some (mk_bio bh_bdev.1 bh_bdev.2 (pb_block bh * Z.shiftr (pb_size bh) 9) 0 0 []) |>
                       <| io_next_block := pb_block bh |>) ;;;
    ret 0.

(** [None]: the bio is full, submit and retry. *)
Definition add_to_bio (p : Z) (bh : pbuf) : M pio (option Z) :=
  (if pb_overwrite bh then modify (fun s => s <| overwrite := true |>) else ret tt) ;;;
  b <-- gets io_bio ;;
  match b with
  | None => fun _ => Oops NullDeref
  | Some b =>
      match bio_add (bi_io_vec b) (mk_bvec p (pb_size bh) (pb_off bh)) with
      | None => ret None
      | Some vs =>
          modify (fun s => s <| io_bio := Some (b <| bi_io_vec := vs |> <| bi_size ::= fun n => n + pb_size bh |>) |>
                             <| io_next_block ::= fun n => n + 1 |>) ;;;
          ret (Some 0)
      end
  end.

Definition try_add_bh (p : Z) (bh : pbuf) : M pio (option Z) :=
  b <-- gets io_bio ;;
  r <-- match b with None => io_submit_init_bio bh | Some _ => ret 0 end ;;
  if negb (r =? 0) then ret (Some r) else add_to_bio p bh.

Fixpoint add_retry (fuel : nat) (p : Z) (bh : pbuf) : M pio Z :=
  match fuel with
  | O => fun _ => Stall
  | S fuel =>
      r <-- try_add_bh p bh ;;
      match r with
      | Some r => ret r
      | None => ext4_io_submit ;;; add_retry fuel p bh
      end
  end.

Definition io_submit_add_bh (p : Z) (bh : pbuf) : M pio Z :=
  b <-- gets io_bio ;;
  nb <-- gets io_next_block ;;
  (if bool_decide (b <> None) && negb (pb_block bh =? nb) then ext4_io_submit else ret tt) ;;;
  add_retry 2 p bh.

(** ** One page *)

(** What the first loop makes of a buffer: the buffer, whether it is to be
    submitted, and whether the bio at hand is sent off. *)
Definition mark (len : Z) (b : pbuf) : pbuf * bool * bool :=
  if len <=? pb_off b then (b <| pb_dirty := false |> <| pb_uptodate := true |>, false, false)
  else if negb (pb_dirty b) || pb_delay b || negb (pb_mapped b) || pb_unwritten b then
    ((if pb_mapped b then b else b <| pb_dirty := false |>), false, true)
  else (b <| pb_new := false |> <| pb_async := true |>, true, false).

Fixpoint mark_loop (len : Z) (l : list pbuf) : M pio (list pbuf * Z) :=
  match l with
  | [] => ret ([], 0)
  | b :: l =>
      let '(b, todo, flush) := mark len b in
      (if flush : bool then ext4_io_submit else ret tt) ;;;
      unpack (l, n) <-- mark_loop len l ;;
      ret (b :: l, if todo : bool then n + 1 else n)
  end.

(** The second loop, on the buffers still to visit: the result, the number
    submitted, the buffers done and those not visited. *)
Fixpoint submit_bufs (p : Z) (l : list pbuf) : M pio (Z * Z * list pbuf * list pbuf) :=
  match l with
  | [] => ret (0, 0, [], [])
  | b :: l =>
      if negb (pb_async b) then
        unpack (r, n, done, rest) <-- submit_bufs p l ;; ret (r, n, b :: done, rest)
      else
        r <-- io_submit_add_bh p b ;;
        if negb (r =? 0) then ret (r, 0, [], b :: l)
        else
          unpack (r, n, done, rest) <-- submit_bufs p l ;; ret (r, n + 1, b <| pb_dirty := false |> :: done, rest)
  end.

Definition ext4_bio_write_page (p len : Z) (encrypted : bool) : M pio Z :=
  w <-- gets (fun s => writeback s p) ;;
  check (negb w) BugOn ;;;
  modify (fun s => s <| writeback ::= <[p := true]> |> <| page_error ::= base.filter (fun q => q <> p) |>) ;;;
  l <-- gets (fun s => bufs s p) ;;
  unpack (l, n) <-- mark_loop len l ;;
  modify (set_bufs p l) ;;;
  unpack (r, nr_submitted, done, rest) <--
    (if encrypted && negb (n =? 0) then ret (EOPNOTSUPP_err, 0, [], l) else submit_bufs p l) ;;
  modify (set_bufs p (done ++ (if r =? 0 then rest else (fun b => b <| pb_async := false |>) <$> rest))) ;;;
  (if r =? 0 then ret tt else modify (fun s => s <| redirtied ::= (.++ [p]) |>)) ;;;
  (if nr_submitted =? 0 then end_page_writeback p else ret tt) ;;;
  ret r.
End submit.
