(* ===== verification/MqfsPageIoFacts.v ===== *)
(** * mqfs: facts on collecting buffers into bios

    [image]: for every byte of the bios sent and of the one at hand, in order,
    the byte of the disk it goes to and the byte of the page it comes from. *)

From S2P Require Import Prelude Ring Horae MqfsPageIo.

(** What the block layer promises of [bio_add_page]: an empty bio has room; a
    vector is appended, or merged with the last one when it continues it in the
    same page. *)
Class BlockLaws `{BlockApi} : Prop := {
  bio_add_first v : bio_add [] v <> None;
  bio_add_law vs v vs' : bio_add vs v = Some vs' ->
    vs' = vs ++ [v] \/
    exists vs0 w, vs = vs0 ++ [w] /\ bv_page w = bv_page v /\ bv_offset w + bv_len w = bv_offset v /\
      vs' = vs0 ++ [w <| bv_len ::= fun n => n + bv_len v |>];
}.

Definition vec_bytes (v : bio_vec) : list (Z * Z) := (fun o => (bv_page v, o)) <$> seqZ (bv_offset v) (bv_len v).

Definition payload (vs : list bio_vec) : list (Z * Z) := vs ≫= vec_bytes.

(** Bytes of consecutive places on the disk, from [start] on. *)
Definition placed (start : Z) (bytes : list (Z * Z)) : list (Z * (Z * Z)) :=
  zip (seqZ start (Z.of_nat (length bytes))) bytes.

Definition bio_image (b : bio) : list (Z * (Z * Z)) := placed (bi_sector b * 512) (payload (bi_io_vec b)).

Definition image (s : pio) : list (Z * (Z * Z)) :=
  (sent s ≫= fun x => bio_image x.1.2) ++ from_option bio_image [] (io_bio s).

Definition buf_bytes (p : Z) (b : pbuf) : list (Z * Z) := (fun o => (p, o)) <$> seqZ (pb_off b) (pb_size b).
Definition buf_image (p : Z) (b : pbuf) : list (Z * (Z * Z)) := placed (pb_block b * pb_size b) (buf_bytes p b).

Lemma placed_app start l1 l2 : placed start (l1 ++ l2) = placed start l1 ++ placed (start + Z.of_nat (length l1)) l2.
Proof.
  unfold placed. rewrite length_app, Nat2Z.inj_add, seqZ_app by lia. apply zip_with_app. rewrite length_seqZ. lia.
Qed.

Lemma seqZ_0 m : seqZ m 0 = [].
Proof. done. Qed.

Section adding.
Context `{BlockLaws}.

Definition lens_ok (vs : list bio_vec) : Prop := Forall (fun v => 0 <= bv_len v) vs.

Lemma payload_add vs v vs' :
  bio_add vs v = Some vs' -> lens_ok vs -> 0 <= bv_len v ->
  payload vs' = payload vs ++ vec_bytes v /\ lens_ok vs'.
Proof.
  intros Ha Hl Hv. destruct (bio_add_law _ _ _ Ha) as [->|(vs0 & w & -> & Hp & Ho & ->)].
  - unfold payload. rewrite bind_app, bind_singleton. split; [done|]. apply Forall_app. split; [done|by apply Forall_singleton].
  - apply Forall_app in Hl as [Hl0 Hw]. apply Forall_cons in Hw as [Hw _]. unfold payload. rewrite !bind_app, !bind_singleton.
    split.
    + rewrite <- app_assoc. f_equal. unfold vec_bytes. destruct w as [wp wl wo]; unfold update; simpl in *.
      rewrite seqZ_app, fmap_app by lia. by rewrite Ho, Hp.
    + apply Forall_app. split; [done|]. apply Forall_singleton. destruct w; simpl in *. lia.
Qed.
End adding.

Lemma vec_bytes_buf p b : vec_bytes (mk_bvec p (pb_size b) (pb_off b)) = buf_bytes p b.
Proof. done. Qed.

(** The bio at hand: consecutive blocks of [bs] bytes up to [io_next_block]. *)
Definition pending_ok (bs : Z) (s : pio) : Prop :=
  match io_bio s with
  | None => True
  | Some b => exists first, bi_sector b * 512 = first * bs /\ first <= io_next_block s /\
      Z.of_nat (length (payload (bi_io_vec b))) = (io_next_block s - first) * bs /\ lens_ok (bi_io_vec b)
  end.

(** What does not change while buffers are added. *)
Definition page_part (s : pio) := (bufs s, writeback s, ends s, redirtied s, page_error s, io_end s, sync_mode s, io_stream s).

Section submit.
Context `{Kernel, BlockLaws} (bs : Z) (Hbs : 0 < bs /\ bs mod 512 = 0).

Lemma io_submit_image s :
  runs ext4_io_submit s (fun _ s' => image s' = image s /\ io_bio s' = None /\ page_part s' = page_part s /\
    overwrite s' = overwrite s /\ bio_allocs s' = bio_allocs s).
Proof.
  clear Hbs. unfold ext4_io_submit. apply runs_modify. unfold image, page_part. destruct (io_bio s) as [b|] eqn:E.
  - destruct s; simpl in *. subst. split_and!; try done.
    rewrite bind_app, bind_singleton, app_nil_r. by destruct b.
  - by rewrite E.
Qed.

(** A buffer joins the bio at hand. *)
Lemma placed_next first next b p l :
  Z.of_nat (length l) = (next - first) * bs -> pb_block b = next -> pb_size b = bs ->
  placed (first * bs) (l ++ buf_bytes p b) = placed (first * bs) l ++ buf_image p b.
Proof.
  intros Hl Hb Hs. rewrite placed_app. f_equal. unfold buf_image. f_equal. rewrite Hl, Hb, Hs. lia.
Qed.

Lemma length_buf_bytes p b : 0 <= pb_size b -> Z.of_nat (length (buf_bytes p b)) = pb_size b.
Proof. intros. unfold buf_bytes. rewrite length_fmap, length_seqZ. lia. Qed.

(** The next allocations succeed. *)
Definition allocs_ok (n : nat) (s : pio) : Prop := Forall (eq true) (take n (bio_allocs s)) /\ (n <= length (bio_allocs s))%nat.

(** The result of adding a buffer. *)
Definition added (p : Z) (b : pbuf) (s : pio) (r : Z) (s' : pio) : Prop :=
  pending_ok bs s' /\ page_part s' = page_part s /\
  ((r = 0 /\ image s' = image s ++ buf_image p b) \/ (r = ENOMEM_bio /\ image s' = image s)) /\
  (forall n, allocs_ok (S n) s -> r = 0 /\ allocs_ok n s').

(** With a bio at hand whose next block is the buffer's. *)
Lemma add_to_bio_ok p b s b0 :
  io_bio s = Some b0 -> pending_ok bs s -> pb_size b = bs -> pb_block b = io_next_block s ->
  runs (add_to_bio p b) s (fun r s' => page_part s' = page_part s /\ bio_allocs s' = bio_allocs s /\
    match r with
    | Some r => r = 0 /\ pending_ok bs s' /\ image s' = image s ++ buf_image p b
    | None => bi_io_vec b0 <> [] /\ image s' = image s
    end).
Proof.
  intros Eb Hok Hs Hn. unfold add_to_bio. apply runs_bind. set (s1 := if pb_overwrite b then s <| overwrite := true |> else s).
  apply (runs_conseq _ _ (fun _ s' => s' = s1)); [by destruct (pb_overwrite b); [apply runs_modify|apply runs_ret]|].
  intros [] s1' ->.
  assert (E1 : io_bio s1 = Some b0 /\ io_next_block s1 = io_next_block s /\ sent s1 = sent s /\
               page_part s1 = page_part s /\ bio_allocs s1 = bio_allocs s)
    by (subst s1; destruct (pb_overwrite b); by destruct s).
  destruct E1 as (E1 & E2 & E3 & E4 & E5). clearbody s1. apply runs_bind, runs_gets. rewrite E1.
  unfold pending_ok in Hok. rewrite Eb in Hok. destruct Hok as (first & Hsec & Hle & Hlen & Hl).
  destruct (bio_add _ _) as [vs|] eqn:Ea.
  2:{ apply runs_ret. split_and!; [done|done| |].
      - intros En. rewrite En in Ea. by apply bio_add_first in Ea.
      - unfold image. by rewrite E1, E3, Eb. }
  destruct (payload_add _ _ _ Ea Hl) as [Hp Hl']; [simpl; lia|]. rewrite vec_bytes_buf in Hp.
  pose proof (placed_next first (io_next_block s) b p (payload (bi_io_vec b0)) Hlen Hn Hs) as Hpl.
  apply runs_bind, runs_modify, runs_ret. split_and!; [rewrite <- E4; by destruct s1|rewrite <- E5; by destruct s1|done|..].
  - unfold pending_ok. destruct s1; simpl in *. exists first. destruct b0; simpl in *. split_and!; [done|lia| |done].
    rewrite Hp, length_app, Nat2Z.inj_add, Hlen, length_buf_bytes by lia. rewrite E2, Hs. lia.
  - unfold image. rewrite Eb, <- E3. destruct s1; simpl in *. rewrite <- app_assoc. f_equal. unfold bio_image.
    destruct b0; simpl in *. by rewrite Hp, Hsec.
Qed.

(** Without one. *)
Lemma init_bio_ok b s :
  io_bio s = None -> pb_size b = bs ->
  runs (io_submit_init_bio b) s (fun r s' =>
    page_part s' = page_part s /\ image s' = image s /\ pending_ok bs s' /\
    ((r = ENOMEM_bio /\ forall n, ~ allocs_ok (S n) s) \/
     (r = 0 /\ (forall n, allocs_ok (S n) s -> allocs_ok n s') /\ io_next_block s' = pb_block b /\
      exists b0, io_bio s' = Some b0 /\ bi_io_vec b0 = []))).
Proof.
  intros Eb Hs. unfold io_submit_init_bio. apply runs_bind. unfold bio_alloc, runs at 1.
  destruct (bio_allocs s) as [|ok allocs] eqn:Eal.
  { apply runs_ret. unfold pending_ok. rewrite Eb. split_and!; [done..|]. left. split; [done|].
    intros n [_ Hle]. rewrite Eal in Hle. simpl in Hle. lia. }
  destruct ok; cbn [negb].
  2:{ apply runs_ret. unfold pending_ok, image.
      split_and!; [by destruct s|by destruct s|destruct s; simpl in *; by rewrite Eb|]. left. split; [done|].
      intros n [Ht _]. rewrite Eal in Ht. simpl in Ht. by inversion Ht. }
  apply runs_bind, runs_gets, runs_bind, runs_modify, runs_bind, runs_modify, runs_ret.
  assert (Hsec : pb_block b * Z.shiftr (pb_size b) 9 * 512 = pb_block b * bs).
  { rewrite Hs, Z.shiftr_div_pow2 by lia. change (2 ^ 9) with 512. rewrite <- Z.mul_assoc. f_equal.
    rewrite Z.mul_comm. symmetry. apply Z_div_exact_full_2; lia. }
  split_and!; [by destruct s|unfold image; rewrite Eb; by destruct s| |right].
  - unfold pending_ok. destruct s; simpl. exists (pb_block b). split_and!; [done|lia|simpl; lia|constructor].
  - split_and!; [done| |by destruct s|destruct s; by eexists].
    intros n [Ht Hle]. rewrite Eal in Ht, Hle. unfold allocs_ok. destruct s; simpl in *. subst. inversion Ht. split; [done|lia].
Qed.

(** A new bio, then the buffer. *)
Lemma try_add_none p b s :
  io_bio s = None -> pb_size b = bs ->
  runs (try_add_bh p b) s (fun r s' => exists r', r = Some r' /\ added p b s r' s').
Proof.
  intros Eb Hs. unfold try_add_bh. apply runs_bind, runs_gets. rewrite Eb. apply runs_bind.
  eapply runs_conseq; [by apply init_bio_ok|]. intros r s1 (E1 & I1 & P1 & [[-> Hno]|(-> & Hal & Hnb & b0 & Eb1 & Hv)]).
  - rewrite (proj2 (Z.eqb_neq _ _)) by done. apply runs_ret. eexists. split; [done|].
    split_and!; [done|done|by right|]. intros n Hn. by destruct (Hno n).
  - cbn [negb Z.eqb]. eapply runs_conseq; [by apply (add_to_bio_ok p b s1 b0)|].
    intros [r|] s2 (E2 & A2 & Hr); [|by destruct Hr]. destruct Hr as (-> & P2 & I2). exists 0. split; [done|].
    split_and!; [done|congruence|left; split; [done|congruence]|]. intros n Hn. split; [done|]. unfold allocs_ok. rewrite A2. by apply Hal.
Qed.

Lemma add_bh_ok p b s :
  pending_ok bs s -> pb_size b = bs -> runs (io_submit_add_bh p b) s (added p b s).
Proof.
  intros Hok Hs. unfold io_submit_add_bh. apply runs_bind, runs_gets, runs_bind, runs_gets.
  assert (Hnone : forall fuel s1, io_bio s1 = None -> image s1 = image s -> page_part s1 = page_part s ->
    bio_allocs s1 = bio_allocs s -> runs (add_retry (S fuel) p b) s1 (added p b s)).
  { intros fuel s1 E1 I1 P1 A1. cbn [add_retry]. apply runs_bind.
    eapply runs_conseq; [by apply try_add_none|]. intros r s2 (r' & -> & Hok2 & E2 & Hr & Hal). apply runs_ret.
    split_and!; [done|congruence|by rewrite <- I1|]. unfold allocs_ok in *. by rewrite A1 in Hal. }
  destruct (io_bio s) as [b0|] eqn:Eb.
  2:{ rewrite bool_decide_false by (by intros []). apply runs_bind, runs_ret. by apply Hnone. }
  rewrite bool_decide_true by done. destruct (Z.eqb_spec (pb_block b) (io_next_block s)) as [Hn|Hn]; cbn [andb negb].
  - apply runs_bind, runs_ret.
    change (add_retry 2 p b) with
      (bind (try_add_bh p b) (fun r => match r with Some r => ret r | None => ext4_io_submit ;;; add_retry 1 p b end)).
    apply runs_bind. unfold try_add_bh at 1. apply runs_bind, runs_gets. rewrite Eb. apply runs_bind, runs_ret. cbn [negb Z.eqb].
    eapply runs_conseq; [by apply (add_to_bio_ok p b s b0)|]. intros [r|] s1 (E1 & A1 & Hr).
    + destruct Hr as (-> & P1 & I1). apply runs_ret. split_and!; [done|done|by left|]. intros n [Ht Hle].
      split; [done|]. unfold allocs_ok. rewrite A1. split; [|lia].
      rewrite <- (firstn_skipn n (take (S n) (bio_allocs s))) in Ht. apply Forall_app in Ht as [Ht _].
      by rewrite take_take, Nat.min_l in Ht by lia.
    + destruct Hr as [_ I1]. apply runs_bind. eapply runs_conseq; [apply io_submit_image|].
      intros [] s2 (I2 & E2 & P2 & _ & A2). apply Hnone; congruence.
  - apply runs_bind. eapply runs_conseq; [apply io_submit_image|].
    intros [] s2 (I2 & E2 & P2 & _ & A2). by apply Hnone.
Qed.

(** ** The loops over the buffers of a page *)

Definition to_write (len : Z) (b : pbuf) : bool :=
  (pb_off b <? len) && pb_dirty b && negb (pb_delay b) && pb_mapped b && negb (pb_unwritten b).

Definition marked (len : Z) (b : pbuf) : pbuf := (mark len b).1.1.

Lemma mark_todo len b : (mark len b).1.2 = to_write len b.
Proof.
  unfold mark, to_write. destruct (Z.leb_spec len (pb_off b)), (Z.ltb_spec (pb_off b) len); try lia; [done|].
  destruct (pb_dirty b), (pb_delay b), (pb_mapped b), (pb_unwritten b); done.
Qed.

Lemma mark_loop_ok len l s :
  pending_ok bs s ->
  runs (mark_loop len l) s (fun r s' =>
    r = (marked len <$> l, Z.of_nat (length (base.filter (fun b => to_write len b = true) l))) /\
    image s' = image s /\ page_part s' = page_part s /\ bio_allocs s' = bio_allocs s /\ pending_ok bs s').
Proof.
  revert s. induction l as [|b l IH]; intros s Hok; cbn [mark_loop]; [by apply runs_ret|].
  pose proof (mark_todo len b) as Htodo.
  destruct (mark len b) as [[b' todo] flush] eqn:Em. simpl in *.
  apply runs_bind. apply (runs_conseq _ _ (fun _ s' => image s' = image s /\ page_part s' = page_part s /\
    bio_allocs s' = bio_allocs s /\ pending_ok bs s')).
  { destruct flush; [|by apply runs_ret]. eapply runs_conseq; [apply io_submit_image|].
    intros [] s1 (I1 & E1 & P1 & _ & A1). split_and!; [done..|]. unfold pending_ok. by rewrite E1. }
  intros [] s1 (I1 & P1 & A1 & Hok1). apply runs_bind. eapply runs_conseq; [by apply IH|].
  intros [l' n] s2 ([= -> ->] & I2 & P2 & A2 & Hok2). apply runs_ret. split_and!; [|congruence..|done].
  rewrite filter_cons. subst todo. simpl. replace (marked len b) with b' by (unfold marked; by rewrite Em).
  destruct (to_write len b); simpl; f_equal; lia.
Qed.

Definition cleaned (b : pbuf) : pbuf := if pb_async b then b <| pb_dirty := false |> else b.

Lemma submit_bufs_ok p l s :
  pending_ok bs s -> Forall (fun b => pb_size b = bs) l ->
  runs (submit_bufs p l) s (fun r s' => pending_ok bs s' /\ page_part s' = page_part s /\ exists l1 l2,
    l = l1 ++ l2 /\ r.1.2 = cleaned <$> l1 /\ r.2 = l2 /\
    r.1.1.2 = Z.of_nat (length (base.filter (fun b => pb_async b = true) l1)) /\
    image s' = image s ++ (base.filter (fun b => pb_async b = true) l1 ≫= buf_image p) /\
    ((r.1.1.1 = 0 /\ l2 = []) \/ (r.1.1.1 = ENOMEM_bio /\ exists b l', l2 = b :: l' /\ pb_async b = true)) /\
    (allocs_ok (length (base.filter (fun b => pb_async b = true) l)) s -> r.1.1.1 = 0)).
Proof.
  revert s. induction l as [|b l IH]; intros s Hok Hsz; cbn [submit_bufs].
  { apply runs_ret. split_and!; [done..|]. exists [], []. simpl. rewrite app_nil_r. split_and!; try done. by left. }
  apply Forall_cons in Hsz as [Hb Hsz]. destruct (pb_async b) eqn:Ea; cbn [negb].
  - apply runs_bind. eapply runs_conseq; [by apply add_bh_ok|]. intros r s1 (Hok1 & P1 & Hr & Hal).
    destruct Hr as [[-> I1]|[-> I1]].
    + cbn [negb Z.eqb]. apply runs_bind. eapply runs_conseq; [by apply IH|].
      intros [[[r n] done_] rest] s2 (Hok2 & P2 & l1 & l2 & -> & Ed & Er & En & I2 & Hr & Hal2). simpl in *. subst rest. apply runs_ret.
      split_and!; [done|congruence|]. exists (b :: l1), l2. simpl.
      rewrite !filter_cons_True by done. simpl. unfold cleaned at 1. rewrite Ea. split_and!; try done.
      * by rewrite Ed.
      * lia.
      * rewrite I2, I1, <- app_assoc. done.
      * intros Ha. apply Hal in Ha as [_ Ha]. by apply Hal2.
    + rewrite (proj2 (Z.eqb_neq _ _)) by done. apply runs_ret. split_and!; [done|done|]. exists [], (b :: l). simpl.
      rewrite app_nil_r. split_and!; try done.
      * right. split; [done|]. by exists b, l.
      * rewrite filter_cons_True by done. simpl. intros Ha. by apply Hal in Ha as [? _].
  - apply runs_bind. eapply runs_conseq; [by apply IH|].
    intros [[[r n] done_] rest] s2 (Hok2 & P2 & l1 & l2 & -> & Ed & Er & En & I2 & Hr & Hal2). simpl in *. subst rest. apply runs_ret.
    split_and!; [done|done|]. exists (b :: l1), l2. simpl. rewrite !filter_cons_False by congruence.
    unfold cleaned at 1. rewrite Ea. split_and!; try done. by rewrite Ed.
Qed.
End submit.
