(* ===== verification/MqfsPageIoTheorems.v ===== *)
(** * mqfs: theorems on writing pages *)

From S2P Require Import Prelude Ring Horae Instances MqfsPageIo MqfsPageIoFacts.

(** ** The buffers of a page *)

Lemma buf_image_marked p len b : buf_image p (marked len b) = buf_image p b.
Proof. unfold marked, mark. repeat case_match; by destruct b. Qed.

Lemma marked_async len b : pb_async b = false -> pb_async (marked len b) = to_write len b.
Proof.
  intros Ha. unfold marked, mark, to_write. destruct (Z.leb_spec len (pb_off b)), (Z.ltb_spec (pb_off b) len); try lia.
  - by destruct b.
  - destruct (pb_dirty b), (pb_delay b), (pb_mapped b), (pb_unwritten b); simpl; by destruct b.
Qed.

Lemma filter_marked len l :
  Forall (fun b => pb_async b = false) l ->
  base.filter (fun b => pb_async b = true) (marked len <$> l) = marked len <$> base.filter (fun b => to_write len b = true) l.
Proof.
  induction 1 as [|b l Ha _ IH]; [done|]. rewrite fmap_cons, !filter_cons, IH, marked_async by done. by case_decide.
Qed.

Lemma marked_images p len l : (marked len <$> l) ≫= buf_image p = l ≫= buf_image p.
Proof. induction l as [|b l IH]; [done|]. csimpl. by rewrite buf_image_marked, IH. Qed.

(** After the page: what was submitted is clean, the rest as it was. *)
Lemma cleaned_marked_done len b : pb_async b = false -> to_write len (cleaned (marked len b)) = false.
Proof.
  intros Ha. unfold cleaned. rewrite marked_async by done. unfold marked, mark, to_write.
  destruct (Z.leb_spec len (pb_off b)), (Z.ltb_spec (pb_off b) len); try lia.
  - destruct b; simpl in *. by rewrite (proj2 (Z.ltb_ge _ _)) by lia.
  - destruct b; simpl in *. destruct pb_dirty, pb_delay, pb_mapped, pb_unwritten; simpl; rewrite ?andb_false_r; done.
Qed.

Lemma unmarked_same len b :
  pb_async b = false -> to_write len ((marked len b) <| pb_async := false |>) = to_write len b /\
    pb_block ((marked len b) <| pb_async := false |>) = pb_block b.
Proof.
  intros Ha. unfold marked, mark, to_write. destruct (Z.leb_spec len (pb_off b)), (Z.ltb_spec (pb_off b) len); try lia.
  - destruct b; simpl in *. by rewrite (proj2 (Z.ltb_ge _ _)) by lia.
  - destruct b; simpl in *. destruct pb_dirty, pb_delay, pb_mapped, pb_unwritten; simpl;
    rewrite ?(proj2 (Z.ltb_lt pb_off len)) by lia; done.
Qed.

Lemma rest_blocks len l :
  Forall (fun b => pb_async b = false) l ->
  pb_block <$> base.filter (fun b => to_write len b = true) ((fun b => b <| pb_async := false |>) <$> (marked len <$> l)) =
  pb_block <$> base.filter (fun b => to_write len b = true) l.
Proof.
  induction 1 as [|b l Ha _ IH]; [done|]. rewrite !fmap_cons, !filter_cons.
  destruct (unmarked_same len b Ha) as [-> Eb]. case_decide; rewrite ?fmap_cons, ?IH, ?Eb; done.
Qed.

Lemma done_blocks len l :
  Forall (fun b => pb_async b = false) l ->
  base.filter (fun b => to_write len b = true) (cleaned <$> (marked len <$> l)) = [].
Proof. induction 1 as [|b l Ha _ IH]; [done|]. rewrite !fmap_cons, filter_cons, cleaned_marked_done by done. by rewrite IH. Qed.

Section theorems.
Context `{Kernel, BlockLaws} (bs : Z).

(** The end of the function, with the buffers [l] of the page. *)
Lemma page_epilogue p l r nr s :
  writeback s p = true ->
  runs (modify (set_bufs p l) ;;;
        (if r =? 0 then ret tt else modify (fun s => s <| redirtied ::= (.++ [p]) |>)) ;;;
        (if nr =? 0 then end_page_writeback p else ret tt) ;;; ret r) s (fun r' s' =>
    r' = r /\ image s' = image s /\ (pending_ok bs s -> pending_ok bs s') /\ bufs s' p = l /\
    writeback s' p = negb (nr =? 0) /\ (r <> 0 -> p ∈ redirtied s')).
Proof.
  intros Hw. apply runs_bind, runs_modify, runs_bind.
  set (s1 := if r =? 0 then set_bufs p l s else (set_bufs p l s) <| redirtied ::= (.++ [p]) |>).
  apply (runs_conseq _ _ (fun _ s' => s' = s1)); [subst s1; destruct (r =? 0); [by apply runs_ret|by apply runs_modify]|].
  intros [] s1' ->.
  assert (E1 : image s1 = image s /\ (pending_ok bs s -> pending_ok bs s1) /\ bufs s1 p = l /\ writeback s1 p = true /\
               (r <> 0 -> p ∈ redirtied s1)).
  { subst s1. unfold image, pending_ok, set_bufs. destruct (Z.eqb_spec r 0); destruct s; simpl in *;
      rewrite fn_lookup_insert; split_and!; try done. intros _. apply elem_of_app. right. left. }
  destruct E1 as (I1 & O1 & B1 & W1 & R1). clearbody s1. apply runs_bind.
  destruct (nr =? 0); [|apply runs_ret, runs_ret; by split_and!].
  unfold end_page_writeback, runs at 1. rewrite W1. apply runs_ret. unfold image, pending_ok in *.
  destruct s1; simpl in *. rewrite fn_lookup_insert. by split_and!.
Qed.

(** All about writing one page. *)
Lemma write_page_ok p len s :
  0 < bs -> bs mod 512 = 0 -> pending_ok bs s -> writeback s p = false ->
  Forall (fun b => pb_size b = bs /\ pb_async b = false) (bufs s p) ->
  let todo := base.filter (fun b => to_write len b = true) (bufs s p) in
  runs (ext4_bio_write_page p len false) s (fun r s' => pending_ok bs s' /\ exists k,
    image s' = image s ++ (take k todo ≫= buf_image p) /\
    pb_block <$> base.filter (fun b => to_write len b = true) (bufs s' p) = pb_block <$> drop k todo /\
    (writeback s' p = true <-> (0 < k)%nat) /\
    ((r = 0 /\ k = length todo) \/ (r = ENOMEM_bio /\ (k < length todo)%nat /\ p ∈ redirtied s')) /\
    (allocs_ok (length todo) s -> r = 0)).
Proof.
  intros Hbs Hm Hok Hwb Hl todo. apply Forall_and in Hl as [Hsz Has]. unfold ext4_bio_write_page.
  apply runs_bind, runs_gets. rewrite Hwb. apply runs_bind, runs_check; [done|]. apply runs_bind, runs_modify.
  apply runs_bind, runs_gets. set (s1 := update _ (update _ s)).
  assert (E1 : bufs s1 = bufs s /\ image s1 = image s /\ pending_ok bs s1 /\ bio_allocs s1 = bio_allocs s /\ writeback s1 p = true).
  { subst s1. unfold image, pending_ok in *. destruct s; simpl in *. split_and!; try done. by rewrite fn_lookup_insert. }
  destruct E1 as (Eb1 & I1 & Hok1 & A1 & Hw1). clearbody s1. rewrite Eb1.
  apply runs_bind. eapply runs_conseq; [by apply (mark_loop_ok bs)|].
  intros [l n] s2 ([= -> ->] & I2 & P2 & A2 & Hok2). apply runs_bind, runs_modify. cbn [andb].
  set (s3 := set_bufs p _ s2).
  assert (E3 : image s3 = image s2 /\ pending_ok bs s3 /\ bio_allocs s3 = bio_allocs s2 /\ writeback s3 = writeback s2)
    by (subst s3; unfold image, pending_ok in *; by destruct s2). destruct E3 as (I3 & Hok3 & A3 & Hw3). clearbody s3.
  apply runs_bind. eapply runs_conseq.
  { apply (submit_bufs_ok bs); [done|done|]. apply Forall_fmap. eapply Forall_impl; [apply Hsz|].
    intros b Hb. unfold compose, marked, mark. repeat case_match; by destruct b. }
  intros [[[r nr] done_] rest] s4 (Hok4 & P4 & l1 & l2 & El & Ed & Er & En & I4 & Hr & Hal). simpl in *. subst done_ rest.
  apply fmap_app_inv in El as (a1 & a2 & -> & -> & Ea). subst todo. rewrite Ea in Has |- *.
  apply Forall_app in Has as [Has1 Has2].
  rewrite filter_marked in I4, En by done. rewrite length_fmap in En. rewrite marked_images in I4.
  assert (Hw4 : writeback s4 p = true) by (injection P4 as _ -> _; injection P2 as _ Ew _; rewrite Hw3, Ew; done).
  eapply runs_conseq; [by apply page_epilogue|]. intros r' s' (-> & I5 & Hok5 & B5 & Hw5 & Hred).
  split; [by apply Hok5|]. exists (length (base.filter (fun b => to_write len b = true) a1)).
  rewrite filter_app, take_app_length, drop_app_length, length_app. split_and!.
  - congruence.
  - rewrite B5, filter_app, done_blocks by done. simpl. destruct Hr as [[-> E]|[-> _]]; cbn [Z.eqb].
    + destruct a2; [done|discriminate E].
    + by apply rest_blocks.
  - rewrite Hw5, En, negb_true_iff, Z.eqb_neq. lia.
  - destruct Hr as [[-> E]|[-> (b & l' & E & Hb)]]; [left|right].
    + destruct a2; [simpl; split; [done|lia]|discriminate E].
    + split_and!; [done| |by apply Hred]. destruct a2 as [|b2 a2]; [done|]. injection E as E _. subst b.
      apply Forall_cons in Has2 as [Hb2 _]. rewrite marked_async in Hb by done. rewrite filter_cons_True by done. simpl. lia.
  - intros Ha. apply Hal. rewrite filter_marked, length_fmap by (rewrite Ea; by apply Forall_app).
    rewrite Ea, filter_app, length_app. unfold allocs_ok in *. by rewrite A3, A2, A1.
Qed.

(** C13: Writing a page puts its dirty, mapped buffers below [len], in order and
    each as a whole, at its block on the disk, into bios, and nothing else;
    when memory for a bio runs out it does so for the first [k] of them only,
    redirties the page and keeps exactly the others dirty; the page is under
    write-back afterwards exactly when a buffer of it was submitted. *)
Theorem page_write_covers_dirty_buffers p len s :
  0 < bs -> bs mod 512 = 0 -> pending_ok bs s -> writeback s p = false ->
  Forall (fun b => pb_size b = bs /\ pb_async b = false) (bufs s p) ->
  let todo := base.filter (fun b => to_write len b = true) (bufs s p) in
  runs (ext4_bio_write_page p len false) s (fun r s' => pending_ok bs s' /\ exists k,
    image s' = image s ++ (take k todo ≫= buf_image p) /\
    pb_block <$> base.filter (fun b => to_write len b = true) (bufs s' p) = pb_block <$> drop k todo /\
    (writeback s' p = true <-> (0 < k)%nat) /\
    ((r = 0 /\ k = length todo) \/ (r = ENOMEM_bio /\ (k < length todo)%nat /\ p ∈ redirtied s')) /\
    (allocs_ok (length todo) s -> r = 0)).
Proof. apply write_page_ok. Qed.
End theorems.

(** ** Overwrites go through the stream *)

Definition keeps {S A} (I : S -> Prop) (m : M S A) : Prop := forall s, I s -> match m s with Ret _ s' => I s' | _ => True end.

Lemma keeps_bind {S A B} (I : S -> Prop) (m : M S A) (k : A -> M S B) :
  keeps I m -> (forall a, keeps I (k a)) -> keeps I (bind m k).
Proof. intros Hm Hk s Hs. unfold bind. specialize (Hm s Hs). destruct (m s) as [a s1| |]; [|done..]. by apply Hk. Qed.

Lemma keeps_ret {S A} (I : S -> Prop) (a : A) : keeps I (ret a).
Proof. by intros s Hs. Qed.

Lemma keeps_gets {S A} (I : S -> Prop) (f : S -> A) : keeps I (gets f).
Proof. by intros s Hs. Qed.

Lemma keeps_modify {S} (I : S -> Prop) (f : S -> S) : (forall s, I s -> I (f s)) -> keeps I (modify f).
Proof. intros Hf s Hs. by apply Hf. Qed.

Lemma keeps_check {S} (I : S -> Prop) b f : keeps I (check b f).
Proof. intros s Hs. unfold check, ret. by destruct b. Qed.

Lemma runs_keeps {S A} (I : S -> Prop) (m : M S A) s (Q : A -> S -> Prop) :
  runs m s Q -> keeps I m -> I s -> runs m s (fun a s' => Q a s' /\ I s').
Proof. unfold runs. intros Hq Hk Hs. specialize (Hk s Hs). by destruct (m s). Qed.

#[export] Hint Resolve keeps_bind keeps_ret keeps_gets keeps_check : ccnvme.

Section journal.
Context `{Kernel, BlockLaws} (ow : Z * Z -> Prop).

(** Every bio with a byte of an overwritten buffer was sent through the stream
    as part of the transaction, and the bio at hand will be. *)
Record journal_ok (s : pio) : Prop := mk_journal_ok {
  jo_mode : sync_mode s = WB_TX_WRITE;
  jo_sent : forall x y, x ∈ sent s -> y ∈ payload (bi_io_vec x.1.2) -> ow y ->
    x.1.1 = true /\ bi_opf x.1.2 = Z.lor REQ_OP_WRITE (Z.lor REQ_TX REQ_SYNC);
  jo_pending : forall b y, io_bio s = Some b -> y ∈ payload (bi_io_vec b) -> ow y -> overwrite s = true;
  jo_lens : forall b, io_bio s = Some b -> lens_ok (bi_io_vec b);
}.

Definition buf_ow (p : Z) (b : pbuf) : Prop :=
  0 <= pb_size b /\ forall y, y ∈ buf_bytes p b -> ow y -> pb_overwrite b = true.

Lemma tx_flags s : sync_mode s = WB_TX_WRITE -> io_op_flags true (sync_mode s) = Z.lor REQ_TX REQ_SYNC.
Proof.
  intros ->. unfold io_op_flags. rewrite Z.eqb_refl. unfold WB_TX_WRITE, WB_ORDERED_ALL, WB_BARRIER_ALL.
  rewrite !(proj2 (Z.eqb_neq _ _)) by lia. done.
Qed.

Lemma submit_keeps_journal : keeps journal_ok ext4_io_submit.
Proof.
  apply keeps_modify. intros s Hok. destruct (io_bio s) as [b|] eqn:Eb; [|done]. destruct Hok as [Hm Hs Hp Hl].
  assert (Hf : forall y, y ∈ payload (bi_io_vec b) -> ow y ->
            overwrite s = true /\ io_op_flags (overwrite s) (sync_mode s) = Z.lor REQ_TX REQ_SYNC).
  { intros y Hy How. rewrite (Hp b y Eb Hy How). split; [done|by apply tx_flags]. }
  set (f := io_op_flags (overwrite s) (sync_mode s)) in *. clearbody f. destruct s; simpl in *. split; simpl; [done| |done|done].
  intros x y [Hx|Hx%list_elem_of_singleton]%elem_of_app Hy How; [by eapply Hs|]. subst x. simpl in *.
  destruct b as [bd bp bsec bsz bo bv]; simpl in *. destruct (Hf y Hy How) as [-> ->]. done.
Qed.

Lemma add_to_bio_keeps_journal p b : buf_ow p b -> keeps journal_ok (add_to_bio p b).
Proof.
  intros [Hsz Hb] s Hs. unfold add_to_bio, bind. 
  set (s1 := if pb_overwrite b then s <| overwrite := true |> else s).
  assert (Hj1 : journal_ok s1 /\ (pb_overwrite b = true -> overwrite s1 = true)).
  { destruct Hs as [Hm Hs Hp Hl]. subst s1. destruct (pb_overwrite b); [|done]. destruct s; simpl in *. by split. }
  replace ((if pb_overwrite b then modify (fun s => s <| overwrite := true |>) else ret tt) s) with (Ret tt s1)
    by (subst s1; by destruct (pb_overwrite b)).
  clearbody s1. clear Hs. destruct Hj1 as [Hok How]. unfold gets.
  destruct (io_bio s1) as [b0|] eqn:Eb; [|done]. destruct (bio_add _ _) as [vs|] eqn:Ea; [|done].
  destruct Hok as [Hm Hs Hp Hl]. rewrite Eb in Hp, Hl.
  destruct (payload_add _ _ _ Ea (Hl b0 eq_refl) Hsz) as [Epl Hl']. rewrite vec_bytes_buf in Epl.
  unfold modify, ret. destruct s1; simpl in *. subst. split; simpl; [done|done| |].
  - intros b1 y [= <-] Hy Hyo. destruct b0; simpl in *. rewrite Epl in Hy. apply elem_of_app in Hy as [Hy|Hy]; [by eapply Hp|].
    apply How. by eapply Hb.
  - intros b1 [= <-]. by destruct b0.
Qed.

Lemma init_bio_keeps_journal b : keeps journal_ok (io_submit_init_bio b).
Proof.
  unfold io_submit_init_bio. apply keeps_bind.
  { intros s [Hm Hs Hp Hl]. unfold bio_alloc. destruct (bio_allocs s); [by split|]. destruct s; simpl in *. by split. }
  intros ok. destruct (negb ok); [apply keeps_ret|]. apply keeps_bind; [apply keeps_gets|]. intros i.
  apply keeps_bind; [apply keeps_modify; intros s [Hm Hs Hp Hl]; destruct s; simpl in *; by split|]. intros _.
  apply keeps_bind; [|intros _; apply keeps_ret].
  apply keeps_modify. intros s [Hm Hs Hp Hl]. destruct s; simpl in *. split; simpl; [done|done|..].
  - intros b0 y [= <-] Hy. simpl in Hy. by apply elem_of_nil in Hy.
  - intros b0 [= <-]. constructor.
Qed.

Lemma try_add_keeps_journal p b : buf_ow p b -> keeps journal_ok (try_add_bh p b).
Proof.
  intros Hb. unfold try_add_bh. apply keeps_bind; [apply keeps_gets|]. intros b0. apply keeps_bind.
  - destruct b0; [apply keeps_ret|apply init_bio_keeps_journal].
  - intros r. destruct (negb _); [apply keeps_ret|by apply add_to_bio_keeps_journal].
Qed.

Lemma add_bh_keeps_journal p b : buf_ow p b -> keeps journal_ok (io_submit_add_bh p b).
Proof.
  intros Hb. unfold io_submit_add_bh. apply keeps_bind; [apply keeps_gets|]. intros b0.
  apply keeps_bind; [apply keeps_gets|]. intros nb.
  apply keeps_bind; [destruct (_ && _); [apply submit_keeps_journal|apply keeps_ret]|]. intros _.
  generalize 2%nat. intros fuel. induction fuel as [|fuel IH]; [by intros s|]. cbn [add_retry].
  apply keeps_bind; [by apply try_add_keeps_journal|]. intros [r|]; [apply keeps_ret|].
  apply keeps_bind; [apply submit_keeps_journal|by intros _].
Qed.

Lemma mark_loop_keeps_journal len l : keeps journal_ok (mark_loop len l).
Proof.
  induction l as [|b l IH]; cbn [mark_loop]; [apply keeps_ret|]. destruct (mark len b) as [[b' t] f].
  apply keeps_bind; [destruct f; [apply submit_keeps_journal|apply keeps_ret]|]. intros _.
  apply keeps_bind; [apply IH|]. intros [l' n]. apply keeps_ret.
Qed.

Lemma submit_bufs_keeps_journal p l : Forall (buf_ow p) l -> keeps journal_ok (submit_bufs p l).
Proof.
  induction 1 as [|b l Hb _ IH]; cbn [submit_bufs]; [apply keeps_ret|]. destruct (negb _).
  - apply keeps_bind; [apply IH|]. intros [[[r n] d] rest]. apply keeps_ret.
  - apply keeps_bind; [by apply add_bh_keeps_journal|]. intros r. destruct (negb _); [apply keeps_ret|].
    apply keeps_bind; [apply IH|]. intros [[[r' n] d] rest]. apply keeps_ret.
Qed.

Lemma mark_loop_result len l s : match mark_loop len l s with Ret r _ => r.1 = marked len <$> l | _ => True end.
Proof.
  revert s. induction l as [|b l IH]; intros s; cbn [mark_loop]; [done|].
  pose proof (eq_refl (marked len b)) as Em. unfold marked at 1 in Em. destruct (mark len b) as [[b' t] f]. simpl in Em. subst b'.
  unfold bind. destruct ((if f : bool then ext4_io_submit else ret tt) s) as [[] s1| |]; [|done..].
  specialize (IH s1). destruct (mark_loop len l s1) as [[l' n] s2| |]; [|done..]. simpl in *. by subst.
Qed.

Lemma buf_ow_marked p len b : buf_ow p b -> buf_ow p (marked len b).
Proof. unfold buf_ow, buf_bytes, marked, mark. repeat case_match; by destruct b. Qed.

Lemma journal_ok_ext s s' :
  (sync_mode s', sent s', io_bio s', overwrite s') = (sync_mode s, sent s, io_bio s, overwrite s) ->
  journal_ok s -> journal_ok s'.
Proof. intros [= E1 E2 E3 E4] [Hm Hs Hp Hl]. split; rewrite ?E1, ?E2, ?E3, ?E4; done. Qed.

Lemma write_page_keeps_journal p len s :
  Forall (buf_ow p) (bufs s p) -> journal_ok s ->
  match ext4_bio_write_page p len false s with Ret _ s' => journal_ok s' | _ => True end.
Proof.
  intros Hb Hs. unfold ext4_bio_write_page. rewrite bind_gets. unfold bind at 1, check.
  destruct (negb _); [|done]. unfold ret at 1. rewrite bind_modify, bind_gets. set (s1 := update _ (update _ s)).
  assert (Hs1 : journal_ok s1) by (revert Hs; apply journal_ok_ext; by destruct s).
  assert (Eb1 : bufs s1 p = bufs s p) by (by destruct s). rewrite Eb1. clearbody s1.
  unfold bind at 1. pose proof (mark_loop_result len (bufs s p) s1) as Hr.
  pose proof (mark_loop_keeps_journal len (bufs s p) s1 Hs1) as Hs2.
  destruct (mark_loop len (bufs s p) s1) as [[l n] s2| |]; [|done..]. simpl in Hr. subst l.
  rewrite bind_modify. cbn [andb]. set (s3 := set_bufs _ _ s2).
  assert (Hs3 : journal_ok s3) by (revert Hs2; apply journal_ok_ext; by destruct s2). clearbody s3.
  unfold bind at 1. assert (Hbm : Forall (buf_ow p) (marked len <$> bufs s p)).
  { apply Forall_fmap. eapply Forall_impl; [apply Hb|]. intros b. apply buf_ow_marked. }
  pose proof (submit_bufs_keeps_journal p _ Hbm s3 Hs3) as Hs4.
  destruct (submit_bufs p _ s3) as [[[[r nr] dn] rest] s4| |]; [|done..].
  revert s4 Hs4. apply (keeps_bind journal_ok); [|intros _; apply keeps_bind; [|intros _; apply keeps_bind; [|intros _; apply keeps_ret]]].
  - apply keeps_modify. intros s5. apply journal_ok_ext. by destruct s5.
  - destruct (_ =? _); [apply keeps_ret|]. apply keeps_modify. intros s5. apply journal_ok_ext. by destruct s5.
  - destruct (_ =? _); [|apply keeps_ret]. intros s5 Hs5. unfold end_page_writeback. destruct (writeback s5 p); [|done].
    revert Hs5. apply journal_ok_ext. by destruct s5.
Qed.
End journal.

(** A page written by a transaction: every byte of it that belongs to a buffer
    marked as an overwrite is sent through the stream, in a bio marked as part
    of the transaction, and so is recorded in the log. *)
Theorem overwrites_are_journalled `{Kernel, BlockLaws} bs (ow : Z * Z -> Prop) p len s :
  0 < bs -> bs mod 512 = 0 -> pending_ok bs s -> writeback s p = false ->
  Forall (fun b => pb_size b = bs /\ pb_async b = false) (bufs s p) ->
  Forall (fun b => forall y, y ∈ buf_bytes p b -> ow y -> pb_overwrite b = true) (bufs s p) ->
  journal_ok ow s ->
  runs (_ <-- ext4_bio_write_page p len false ;; ext4_io_submit) s (fun _ s' => io_bio s' = None /\
    forall x y, x ∈ sent s' -> y ∈ payload (bi_io_vec x.1.2) -> ow y ->
      x.1.1 = true /\ bi_opf x.1.2 = Z.lor REQ_OP_WRITE (Z.lor REQ_TX REQ_SYNC)).
Proof.
  intros Hbs Hm Hok Hwb Hl Ho Hj.
  assert (Hb : Forall (buf_ow ow p) (bufs s p)).
  { apply Forall_forall. intros b Hin. rewrite Forall_forall in Hl, Ho. split; [|by apply Ho].
    destruct (Hl b Hin). lia. }
  pose proof (write_page_ok bs p len s Hbs Hm Hok Hwb Hl) as Hw. cbv zeta in Hw.
  pose proof (write_page_keeps_journal ow p len s Hb Hj) as Hk.
  apply runs_bind. unfold runs in Hw |- * at 1. destruct (ext4_bio_write_page p len false s) as [r s1| |]; [|done..].
  pose proof (submit_keeps_journal ow s1 Hk) as Hk2.
  pose proof (io_submit_image s1) as Hi. unfold runs in *. destruct (ext4_io_submit s1) as [[] s2| |]; [|done..].
  split; [apply Hi|apply Hk2].
Qed.

(** ** The end of the write-back of a page *)

(** The vectors that have a buffer of a page under I/O. *)
Definition covering (vs : list bio_vec) (p : Z) (b : pbuf) : nat :=
  length (base.filter (fun v => bv_page v = p /\ in_vec v b = true) vs).

(** Every buffer under I/O is in exactly one of the vectors [vs] in flight or
    still to be submitted ([todo]); each vector has a buffer; the pages under
    write-back are those with a buffer under I/O. *)
Record accounted (todo : Z -> nat -> bool) (vs : list bio_vec) (s : pio) : Prop := mk_accounted {
  ac_count : forall p j b, bufs s p !! j = Some b -> Nat.b2n (pb_async b) = (Nat.b2n (todo p j) + covering vs p b)%nat;
  ac_some : forall v, v ∈ vs -> exists j b, bufs s (bv_page v) !! j = Some b /\ in_vec v b = true;
  ac_wb : forall p, writeback s p = existsb pb_async (bufs s p);
}.

Lemma accounted_perm todo vs vs' s : vs ≡ₚ vs' -> accounted todo vs s -> accounted todo vs' s.
Proof.
  intros Hp [Hc Hs Hw]. split; [|intros v; rewrite <- Hp; apply Hs|done].
  intros p j b Hb. rewrite (Hc p j b Hb). f_equal. unfold covering. by rewrite Hp.
Qed.

(** How often the write-back of [p] was ended between two states. *)
Definition ended (p : Z) (s s' : pio) : Prop :=
  exists new, ends s' = ends s ++ new /\
    length (base.filter (eq p) new) = Nat.b2n (writeback s p && negb (writeback s' p)) /\
    (writeback s' p = true -> writeback s p = true).

Lemma ended_trans p s1 s2 s3 : ended p s1 s2 -> ended p s2 s3 -> ended p s1 s3.
Proof.
  intros (n1 & E1 & C1 & M1) (n2 & E2 & C2 & M2). exists (n1 ++ n2). split_and!; [by rewrite E2, E1, app_assoc| |auto].
  rewrite filter_app, length_app, C1, C2. destruct (writeback s1 p), (writeback s2 p), (writeback s3 p); simpl; try done; naive_solver.
Qed.

(** A buffer after the vector [v] is done. *)
Definition done_in (v : bio_vec) (b : pbuf) : pbuf := if in_vec v b then b <| pb_async := false |> else b.

Lemma under_io_none v l :
  bool_decide (length (base.filter (fun b => in_vec v b = false /\ pb_async b = true) l) = 0%nat) =
  negb (existsb pb_async (done_in v <$> l)).
Proof.
  induction l as [|b l IH]; [done|]. simpl. unfold done_in at 1. rewrite filter_cons. destruct (in_vec v b) eqn:Ev.
  - rewrite decide_False by naive_solver. replace (pb_async (b <| pb_async := false |>)) with false by (by destruct b).
    exact IH.
  - destruct (pb_async b) eqn:Ea; [rewrite decide_True by done; by rewrite bool_decide_false|].
    rewrite decide_False by naive_solver. exact IH.
Qed.

Lemma in_done w v b : in_vec w (done_in v b) = in_vec w b.
Proof. unfold done_in. destruct (in_vec v b); by destruct b. Qed.

(** One vector less covers its buffers, which are no longer under I/O. *)
Lemma done_count v vs n b :
  Nat.b2n (pb_async b) = (n + covering (v :: vs) (bv_page v) b)%nat ->
  Nat.b2n (pb_async (done_in v b)) = (n + covering vs (bv_page v) (done_in v b))%nat.
Proof.
  unfold covering. rewrite (list_filter_ext (fun w => bv_page w = bv_page v /\ in_vec w (done_in v b) = true)
    (fun w => bv_page w = bv_page v /\ in_vec w b = true)) by (intros w _; by rewrite in_done).
  rewrite filter_cons. unfold done_in. destruct (in_vec v b) eqn:Ev.
  - rewrite decide_True by done. simpl. replace (pb_async (b <| pb_async := false |>)) with false by (by destruct b).
    destruct (pb_async b); simpl; lia.
  - rewrite decide_False by naive_solver. done.
Qed.

(** One vector of many. *)
Lemma finish_vec_ok todo st v vs s :
  accounted todo (v :: vs) s ->
  runs (finish_vec st v) s (fun _ s' => accounted todo vs s' /\ forall p, ended p s s').
Proof.
  intros [Hc Hs Hw]. unfold finish_vec. set (p := bv_page v). apply runs_bind.
  set (s1 := if st =? 0 then s else s <| page_error ::= (.++ [p]) |>).
  apply (runs_conseq _ _ (fun _ s' => s' = s1)); [subst s1; destruct (st =? 0); [by apply runs_ret|by apply runs_modify]|].
  intros [] s1' ->. assert (E1 : bufs s1 = bufs s /\ writeback s1 = writeback s /\ ends s1 = ends s)
    by (subst s1; destruct (st =? 0); by destruct s).
  destruct E1 as (Eb & Ew & Ee). clearbody s1. apply runs_bind, runs_gets. rewrite Eb. set (l := bufs s p) in *.
  fold (done_in v). cbv zeta.
  apply runs_bind, runs_modify. set (s2 := set_bufs p _ s1).
  assert (E2 : (forall q, bufs s2 q = if decide (q = p) then done_in v <$> l else bufs s q) /\ writeback s2 = writeback s /\ ends s2 = ends s).
  { subst s2. unfold set_bufs. rewrite <- Eb, <- Ew, <- Ee. destruct s1; simpl. split_and!; [|done|done].
    intros q. case_decide; [subst; by rewrite fn_lookup_insert|by rewrite fn_lookup_insert_ne]. }
  destruct E2 as (Eb2 & Ew2 & Ee2). clearbody s2.
  (* the page is under write-back, and stays so while another buffer is *)
  assert (Hwb : writeback s p = true).
  { destruct (Hs v ltac:(left)) as (j & b & Hj & Hv). fold p l in Hj. rewrite Hw. fold l. apply existsb_exists. exists b.
    split; [apply list_elem_of_In; by eapply list_elem_of_lookup_2|]. specialize (Hc p j b Hj). unfold covering in Hc.
    rewrite filter_cons_True in Hc by done. simpl in Hc. destruct (pb_async b); [done|simpl in Hc; lia]. }
  assert (Hcount : forall q j b, bufs s2 q !! j = Some b -> Nat.b2n (pb_async b) = (Nat.b2n (todo q j) + covering vs q b)%nat).
  { intros q j b. rewrite Eb2. destruct (decide (q = p)) as [Eq|Eq].
    - rewrite Eq. rewrite list_lookup_fmap. intros (b0 & Hj & ->)%fmap_Some.
      by apply done_count, Hc.
    - intros Hj. specialize (Hc q j b Hj). unfold covering in *. rewrite filter_cons_False in Hc; [done|]. by intros [? _]. }
  assert (Hsome : forall w, w ∈ vs -> exists j b, bufs s2 (bv_page w) !! j = Some b /\ in_vec w b = true).
  { intros w Hin. destruct (Hs w ltac:(by right)) as (j & b & Hj & Hv). rewrite Eb2. destruct (decide (bv_page w = p)) as [Eq|Eq]; [|eauto].
    rewrite Eq in Hj. exists j, (done_in v b). rewrite list_lookup_fmap. fold l in Hj. rewrite Hj. split; [done|].
    by rewrite in_done. }
  rewrite under_io_none. destruct (existsb pb_async (done_in v <$> l)) eqn:Eall; cbn [negb].
  - apply runs_ret. split.
    + split; [done|done|]. intros q. rewrite Eb2, Ew2. destruct (decide (q = p)) as [->|]; [by rewrite Eall|by rewrite Hw].
    + intros q. exists []. rewrite Ew2, Ee2, app_nil_r, andb_negb_r. done.
  - unfold end_page_writeback, runs. rewrite Ew2, Hwb.
    set (s3 := update _ (update _ s2)).
    assert (E3 : bufs s3 = bufs s2 /\ (forall q, writeback s3 q = if decide (q = p) then false else writeback s q) /\ ends s3 = ends s ++ [p]).
    { subst s3. rewrite <- Ew2, <- Ee2. destruct s2; simpl. split_and!; [done| |done].
      intros q. destruct (decide (q = p)) as [->|]; [by rewrite fn_lookup_insert|by rewrite fn_lookup_insert_ne]. }
    destruct E3 as (Eb3 & Ew3 & Ee3). split.
    + split; [by rewrite Eb3|by rewrite Eb3|]. intros q. rewrite Eb3, Eb2, Ew3. destruct (decide (q = p)); [done|apply Hw].
    + intros q. exists [p]. rewrite Ee3, Ew3. destruct (decide (q = p)) as [Eq|Eq].
      * rewrite Eq, Hwb. by rewrite filter_cons_True.
      * rewrite filter_cons_False by done. by rewrite andb_negb_r.
Qed.

Lemma finish_vecs_ok todo st vs rest s :
  accounted todo (vs ++ rest) s ->
  runs (for_each vs (finish_vec st)) s (fun _ s' => accounted todo rest s' /\ forall p, ended p s s').
Proof.
  revert s. induction vs as [|v vs IH]; intros s Ha; simpl.
  - apply runs_ret. split; [done|]. intros p. exists []. by rewrite app_nil_r, andb_negb_r.
  - apply runs_bind. eapply runs_conseq; [by apply (finish_vec_ok todo st v (vs ++ rest))|]. intros [] s1 [H1 E1].
    eapply runs_conseq; [by apply IH|]. intros [] s2 [H2 E2]. split; [done|]. intros p. by eapply ended_trans.
Qed.

(** C14: The bios in flight may complete in any order, with any status, also while
    buffers of the same pages are still to be submitted: no completion faults,
    and the write-back of each page is ended exactly once, when its last buffer
    under I/O is done, and not before. *)
Theorem writeback_ends_once todo (bios order : list bio) (st : bio -> Z) s :
  accounted todo (bios ≫= bi_io_vec) s -> order ≡ₚ bios ->
  runs (for_each order (fun b => ext4_finish_bio (st b) b)) s (fun _ s' => forall p,
    (forall j b, bufs s' p !! j = Some b -> pb_async b = todo p j) /\
    writeback s' p = existsb pb_async (bufs s' p) /\
    exists new, ends s' = ends s ++ new /\
      length (base.filter (eq p) new) = Nat.b2n (writeback s p && negb (writeback s' p))).
Proof.
  intros Ha Hp. assert (Ha' : accounted todo (order ≫= bi_io_vec) s) by (eapply accounted_perm; [|done]; by rewrite Hp).
  clear Ha Hp bios. assert (Hgo : runs (for_each order (fun b => ext4_finish_bio (st b) b)) s (fun _ s' =>
    accounted todo [] s' /\ forall p, ended p s s')).
  { revert s Ha'. induction order as [|b order IH]; intros s Ha; simpl.
    - apply runs_ret. split; [done|]. intros p. exists []. by rewrite app_nil_r, andb_negb_r.
    - apply runs_bind. eapply runs_conseq; [by apply (finish_vecs_ok todo (st b) (bi_io_vec b) (order ≫= bi_io_vec))|].
      intros [] s1 [H1 E1]. eapply runs_conseq; [by apply IH|]. intros [] s2 [H2 E2]. split; [done|]. intros p. by eapply ended_trans. }
  eapply runs_conseq; [apply Hgo|]. intros [] s' [[Hc _ Hw] He] p. split_and!.
  - intros j b Hj. specialize (Hc p j b Hj). unfold covering in Hc. simpl in Hc. destruct (pb_async b), (todo p j); done.
  - apply Hw.
  - destruct (He p) as (new & E & C & _). eauto.
Qed.

(** ** The theorems on a page of four buffers *)

(** Bios of at most two vectors. *)
Definition block0 : BlockApi := {|
  bio_add := fun vs v => if bool_decide (length vs < 2)%nat then Some (vs ++ [v]) else None;
  WB_SYNC_ALL := 1;
  bh_bdev := (8, 1);
|}.
#[local] Existing Instance block0.

Lemma block0_laws : BlockLaws.
Proof.
  split.
  - by intros v.
  - intros vs v vs'. simpl. case_bool_decide; [|done]. intros [= <-]. by left.
Qed.

(** Two dirty buffers on consecutive blocks, one clean, one behind the end of
    the file; the second is an overwrite. *)
Definition page0 : list pbuf :=
  [mk_pbuf 50 1024 0 true false true false false false true false;
   mk_pbuf 51 1024 1024 true false true false false false true true;
   mk_pbuf 60 1024 2048 false false true false false false true false;
   mk_pbuf 61 1024 3072 true false true false false false true false].

Definition pio0 : pio :=
  mk_pio (fun p => if decide (p = 7) then page0 else []) (fun _ => false) [] [] [] None 0 0 false (1 + 3) 0
    (fun _ => mk_io_end false 1 0 false [] false) [] 0 0 [] [] [true; true] [].

Lemma page_write_covers_dirty_buffers_witness :
  runs (ext4_bio_write_page 7 3000 false) pio0 (fun r s' =>
    (r = 0 /\ image s' = buf_image 7 (mk_pbuf 50 1024 0 true false true false false false true false) ++
                         buf_image 7 (mk_pbuf 51 1024 1024 true false true false false false true true))).
Proof.
  eapply runs_conseq.
  - apply (@page_write_covers_dirty_buffers kernel0 block0 block0_laws 1024 7 3000 pio0);
      [lia|reflexivity|exact I|reflexivity|repeat constructor].
  - intros r s' (_ & k & Hi & _ & _ & Hr & Ha).
    assert (Er : r = 0) by (apply Ha; split; [repeat constructor|simpl; lia]).
    destruct Hr as [[_ Ek]|[E _]]; [|rewrite Er in E; discriminate E].
    split; [exact Er|]. rewrite Hi, Ek. reflexivity.
Defined.

Lemma overwrites_are_journalled_witness :
  runs (_ <-- ext4_bio_write_page 7 3000 false ;; ext4_io_submit) pio0 (fun _ s' => io_bio s' = None).
Proof.
  eapply runs_conseq.
  - apply (@overwrites_are_journalled kernel0 block0 block0_laws 1024 (fun y => y.1 = 7 /\ 1024 <= y.2 < 2048) 7 3000 pio0);
      [lia|reflexivity|exact I|reflexivity|repeat constructor| |].
    + repeat constructor; intros y (o & -> & Ho)%list_elem_of_fmap [_ Hy]; apply elem_of_seqZ in Ho; simpl in *; lia || reflexivity.
    + split; [reflexivity|..].
      * intros x y Hx. apply elem_of_nil in Hx as [].
      * intros b y [=].
      * intros b [=].
  - intros r s' [E _]. exact E.
Defined.

(** The two buffers in flight in two bios, the second completes first. *)
Definition in_flight (b : pbuf) : pbuf := b <| pb_async := pb_dirty b && (pb_off b <? 3000) |>.
Definition bio_of (b : pbuf) : bio := mk_bio 8 1 (pb_block b * 2) 1024 0 [mk_bvec 7 1024 (pb_off b)].

Definition pio1 : pio := (set_bufs 7 (in_flight <$> page0) pio0) <| writeback := fun p => bool_decide (p = 7) |>.

Lemma writeback_ends_once_witness :
  runs (for_each (reverse (bio_of <$> take 2 page0)) (fun b => ext4_finish_bio 0 b)) pio1 (fun _ s' =>
    writeback s' 7 = false /\ exists new, ends s' = new /\ length (base.filter (eq 7) new) = 1%nat).
Proof.
  assert (Ha : accounted (fun _ _ => false) ((bio_of <$> take 2 page0) ≫= bi_io_vec) pio1).
  { split.
    - intros p j b. change (bufs pio1 p) with (if decide (7 = p) then in_flight <$> page0 else if decide (p = 7) then page0 else []).
      destruct (decide (7 = p)) as [<-|Hne]; [|rewrite decide_False by congruence; done].
      destruct j as [|[|[|[|j]]]]; intros [= <-]; reflexivity.
    - intros v. cbn. intros [->|[->|[]%elem_of_nil]%elem_of_cons]%elem_of_cons; [exists 0%nat|exists 1%nat]; eexists; split; reflexivity.
    - intros p. change (bufs pio1 p) with (if decide (7 = p) then in_flight <$> page0 else if decide (p = 7) then page0 else []).
      change (writeback pio1 p) with (bool_decide (p = 7)).
      destruct (decide (7 = p)) as [<-|Hne]; [reflexivity|]. rewrite decide_False by congruence. by rewrite bool_decide_false. }
  eapply runs_conseq.
  - apply (writeback_ends_once (fun _ _ => false) (bio_of <$> take 2 page0) _ (fun _ => 0) pio1 Ha). apply reverse_Permutation.
  - intros u s' Hs. destruct (Hs 7) as (Hb & Hw & new & E & C).
    assert (Ew : writeback s' 7 = false).
    { rewrite Hw. apply not_true_is_false. intros (b & Hin & Hbt)%existsb_exists.
      apply list_elem_of_In, list_elem_of_lookup in Hin as [j Hj]. rewrite (Hb j b Hj) in Hbt. discriminate Hbt. }
    split; [exact Ew|]. exists new. split; [exact E|]. rewrite C, Ew. reflexivity.
Defined.
