(* ===== verification/Rbtree.v ===== *)
(** * Red-black trees of the kernel (linux/rbtree.h)

    mqfs keeps extents and system zones in the kernel's intrusive search trees.
    The code walks a tree by its left and right links and puts a new node at
    the leaf where its walk ended; the rest of the interface ([rb_insert_color],
    [rb_erase], [rb_next], [rb_prev]) is the kernel's.  Its documented behaviour
    is about the order of the nodes, and leaves the shape of the tree open. *)

From S2P Require Import Prelude.

(** Nodes are named by numbers. *)
Inductive rb_root :=
| RbNull
| RbNode (rb_left : rb_root) (n : nat) (rb_right : rb_root).

Fixpoint inorder (t : rb_root) : list nat :=
  match t with
  | RbNull => []
  | RbNode l n r => inorder l ++ n :: inorder r
  end.

(** The place of a link below the root: [false] is left. *)
Definition rb_path := list bool.

Fixpoint rb_link_node (path : rb_path) (n : nat) (t : rb_root) : rb_root :=
  match path, t with
  | false :: path, RbNode l m r => RbNode (rb_link_node path n l) m r
  | true :: path, RbNode l m r => RbNode l m (rb_link_node path n r)
  | _, _ => RbNode RbNull n RbNull
  end.

Class RbApi := {
  rb_insert_color : nat -> rb_root -> rb_root;
  rb_erase : nat -> rb_root -> rb_root;
  rb_next : rb_root -> nat -> option nat;
  rb_prev : rb_root -> nat -> option nat;
}.

Class RbLaws `{RbApi} : Prop := {
  rb_insert_color_law n t : inorder (rb_insert_color n t) = inorder t;
  rb_erase_law n t l1 l2 : NoDup (inorder t) -> inorder t = l1 ++ n :: l2 -> inorder (rb_erase n t) = l1 ++ l2;
  rb_next_law n t l1 l2 : NoDup (inorder t) -> inorder t = l1 ++ n :: l2 -> rb_next t n = head l2;
  rb_prev_law n t l1 l2 : NoDup (inorder t) -> inorder t = l1 ++ n :: l2 -> rb_prev t n = last l1;
}.

(** ** Trees without rebalancing *)

Fixpoint join (l r : rb_root) : rb_root :=
  match l with
  | RbNull => r
  | RbNode ll n lr => RbNode ll n (join lr r)
  end.

Fixpoint erase_plain (n : nat) (t : rb_root) : rb_root :=
  match t with
  | RbNull => RbNull
  | RbNode l m r =>
      if decide (m = n) then join l r
      else RbNode (erase_plain n l) m (erase_plain n r)
  end.

Fixpoint after (n : nat) (l : list nat) : option nat :=
  match l with
  | [] => None
  | m :: l => if decide (m = n) then head l else after n l
  end.

#[export] Instance rb_plain : RbApi := {|
  rb_insert_color _ t := t;
  rb_erase := erase_plain;
  rb_next t n := after n (inorder t);
  rb_prev t n := after n (rev (inorder t));
|}.

Lemma inorder_join l r : inorder (join l r) = inorder l ++ inorder r.
Proof. induction l as [|ll _ n lr IH]; simpl; [done|]. by rewrite IH, <- app_assoc. Qed.

Lemma erase_plain_filter n t : NoDup (inorder t) -> inorder (erase_plain n t) = base.filter (fun m => m <> n) (inorder t).
Proof.
  induction t as [|l IHl m r IHr]; simpl; [done|]. intros (Hl & Hlr & [Hm Hr]%NoDup_cons)%NoDup_app.
  rewrite filter_app, filter_cons. case_decide as E; simpl.
  - subst. rewrite inorder_join, decide_False by (by intros []). rewrite !filter_ne_notin; [done|done|].
    intros Hn. apply (Hlr n Hn). left.
  - rewrite decide_True by done. by rewrite IHl, IHr.
Qed.

Lemma after_app n l1 l2 : n ∉ l1 -> after n (l1 ++ n :: l2) = head l2.
Proof.
  induction l1 as [|m l1 IH]; intros Hn; simpl; [by rewrite decide_True|].
  rewrite decide_False by (intros ->; apply Hn; left). apply IH. intros ?. apply Hn. by right.
Qed.

#[export] Instance rb_plain_laws : RbLaws.
Proof.
  split; simpl; [done|..]; intros n t l1 l2 Hnd E; rewrite E in Hnd;
    apply NoDup_app in Hnd as (Hd1 & Hd & [Hn Hd2]%NoDup_cons);
    (assert (Hn1 : n ∉ l1) by (intros Hin; apply (Hd n Hin); left)).
  - rewrite erase_plain_filter by (rewrite E; apply NoDup_app; split_and!; [done|done|by constructor]).
    rewrite E, filter_app, filter_cons_False by (by intros []). by rewrite !filter_ne_notin.
  - by rewrite E, after_app.
  - rewrite E, rev_app_distr. simpl. rewrite <- app_assoc. simpl. rewrite after_app by (rewrite list_elem_of_In, <- in_rev, <- list_elem_of_In; done).
    induction l1 as [|x l1 _] using rev_ind; [done|]. by rewrite rev_app_distr, last_snoc.
Qed.
