(* ===== verification/ExtentStatus.v ===== *)
(** * mqfs: the extent status tree (mqfs/extents_status.c, extents_status.h)

    Each inode has a search tree of extents that says what is known of ranges
    of its blocks: written, unwritten, delayed or a hole, and where they are on
    disk.  Delayed extents must not be forgotten; the others are a cache, which
    the shrinker empties when memory is short.

    Nodes are addresses; an access to an address that is not allocated is a
    fault.  The locks are left out, except that [write_trylock] on another inode
    may fail; statistics about time are left out.  ES_DEBUG and
    ES_AGGRESSIVE_TEST are not defined. *)

From S2P Require Import Prelude Rbtree.

Definition ENOMEM_es : Z := -12.
Definition EXT_MAX_BLOCKS : Z := 0xffffffff.

(** ** extents_status.h *)

Definition ES_FLAGS : Z := 5.
Definition ES_SHIFT : Z := 64 - ES_FLAGS.
Definition ES_MASK : Z := u64 (Z.shiftl (2 ^ 64 - 1) ES_SHIFT).
Definition EXTENT_STATUS_WRITTEN : Z := Z.shiftl 1 0.
Definition EXTENT_STATUS_UNWRITTEN : Z := Z.shiftl 1 1.
Definition EXTENT_STATUS_DELAYED : Z := Z.shiftl 1 2.
Definition EXTENT_STATUS_HOLE : Z := Z.shiftl 1 3.
Definition EXTENT_STATUS_REFERENCED : Z := Z.shiftl 1 4.
Definition ES_TYPE_MASK : Z :=
  u64 (Z.shiftl (Z.lor (Z.lor (Z.lor EXTENT_STATUS_WRITTEN EXTENT_STATUS_UNWRITTEN) EXTENT_STATUS_DELAYED)
                   EXTENT_STATUS_HOLE) ES_SHIFT).

Record extent_status := mk_es {
  es_lblk : Z;
  es_len : Z;
  es_pblk : Z;
}.

#[export] Instance eta_es : Eta extent_status := fun e => mk_es (es_lblk e) (es_len e) (es_pblk e).

Definition ext4_es_status (e : extent_status) : Z := u32 (Z.shiftr (es_pblk e) ES_SHIFT).
Definition ext4_es_type (e : extent_status) : Z := u32 (Z.shiftr (Z.land (es_pblk e) ES_TYPE_MASK) ES_SHIFT).
Definition ext4_es_is_written (e : extent_status) : bool := negb (Z.land (ext4_es_type e) EXTENT_STATUS_WRITTEN =? 0).
Definition ext4_es_is_unwritten (e : extent_status) : bool :=
  negb (Z.land (ext4_es_type e) EXTENT_STATUS_UNWRITTEN =? 0).
Definition ext4_es_is_delayed (e : extent_status) : bool := negb (Z.land (ext4_es_type e) EXTENT_STATUS_DELAYED =? 0).
Definition ext4_es_is_hole (e : extent_status) : bool := negb (Z.land (ext4_es_type e) EXTENT_STATUS_HOLE =? 0).
Definition ext4_es_set_referenced (e : extent_status) : extent_status :=
  e <| es_pblk ::= fun p => Z.lor p (Z.shiftl EXTENT_STATUS_REFERENCED ES_SHIFT) |>.
Definition ext4_es_clear_referenced (e : extent_status) : extent_status :=
  e <| es_pblk ::= fun p => Z.ldiff p (Z.shiftl EXTENT_STATUS_REFERENCED ES_SHIFT) |>.
Definition ext4_es_is_referenced (e : extent_status) : bool :=
  negb (Z.land (ext4_es_status e) EXTENT_STATUS_REFERENCED =? 0).
Definition ext4_es_pblock (e : extent_status) : Z := Z.ldiff (es_pblk e) ES_MASK.
Definition ext4_es_store_pblock (pb : Z) (e : extent_status) : extent_status :=
  e <| es_pblk := Z.lor (Z.ldiff pb ES_MASK) (Z.land (es_pblk e) ES_MASK) |>.
Definition ext4_es_store_pblock_status (pb status : Z) (e : extent_status) : extent_status :=
  e <| es_pblk := Z.lor (Z.land (u64 (Z.shiftl status ES_SHIFT)) ES_MASK) (Z.ldiff pb ES_MASK) |>.

(** ** State *)

Record es_inode := mk_es_inode {
  es_root : rb_root;           (* i_es_tree.root *)
  cache_es : option nat;       (* i_es_tree.cache_es *)
  i_es_all_nr : Z;
  i_es_shk_nr : Z;
  i_es_shrink_lblk : Z;
  precached : bool;            (* EXT4_STATE_EXT_PRECACHED *)
}.

#[export] Instance eta_es_inode : Eta es_inode := fun i =>
  mk_es_inode (es_root i) (cache_es i) (i_es_all_nr i) (i_es_shk_nr i) (i_es_shrink_lblk i) (precached i).

Record esfs := mk_esfs {
  es_mem : gmap nat extent_status;
  next_es : nat;               (* the next address the allocator returns *)
  es_allocs : list bool;       (* whether the next allocations succeed; later ones do *)
  trylocks : list bool;        (* the same for write_trylock *)
  es_inodes : nat -> es_inode;
  s_es_list : list nat;
  s_es_nr_inode : Z;
  es_stats_all_cnt : Z;
  es_stats_shk_cnt : Z;
  es_stats_cache_hits : Z;
  es_stats_cache_misses : Z;
  es_stats_shrunk : Z;
}.

#[export] Instance eta_esfs : Eta esfs := fun s =>
  mk_esfs (es_mem s) (next_es s) (es_allocs s) (trylocks s) (es_inodes s) (s_es_list s) (s_es_nr_inode s)
    (es_stats_all_cnt s) (es_stats_shk_cnt s) (es_stats_cache_hits s) (es_stats_cache_misses s)
    (es_stats_shrunk s).

Definition upd_ei (ino : nat) (f : es_inode -> es_inode) (s : esfs) : esfs := s <| es_inodes ::= alter f ino |>.

Definition deref_es (n : nat) : M esfs extent_status := fun s =>
  match es_mem s !! n with Some e => Ret e s | None => Oops OutOfBounds end.
Definition write_es (n : nat) (e : extent_status) : M esfs unit := fun s =>
  match es_mem s !! n with Some _ => Ret tt (s <| es_mem ::= <[n := e]> |>) | None => Oops OutOfBounds end.

Definition next_bool (proj : esfs -> list bool) (upd : list bool -> esfs -> esfs) : M esfs bool := fun s =>
  match proj s with
  | [] => Ret true s
  | b :: l => Ret b (upd l s)
  end.
Definition kmem_cache_alloc : M esfs bool := next_bool es_allocs (fun l s => s <| es_allocs := l |>).
Definition write_trylock : M esfs bool := next_bool trylocks (fun l s => s <| trylocks := l |>).

Definition get_root (ino : nat) : M esfs rb_root := gets (fun s => es_root (es_inodes s ino)).
Definition set_cache (ino : nat) (c : option nat) : M esfs unit := modify (upd_ei ino (fun i => i <| cache_es := c |>)).

Definition ext4_es_init_tree (ino : nat) : M esfs unit :=
  modify (upd_ei ino (fun i => i <| es_root := RbNull |> <| cache_es := None |>)).

(** ** Searching *)

Definition ext4_es_end (e : extent_status) : M esfs Z :=
  check (es_lblk e <=? u32 (es_lblk e + es_len e)) BugOn ;;; ret (u32 (es_lblk e + es_len e - 1)).

Section extents_status.
Context `{RbApi}.

(** The walk: whether the block was found, and the last node visited. *)
Fixpoint search_walk (t : rb_root) (lblk : Z) (es : option nat) : M esfs (bool * option nat) :=
  match t with
  | RbNull => ret (false, es)
  | RbNode l n r =>
      e <-- deref_es n ;;
      if lblk <? es_lblk e then search_walk l lblk (Some n)
      else
        en <-- ext4_es_end e ;;
        if en <? lblk then search_walk r lblk (Some n) else ret (true, Some n)
  end.

Definition __es_tree_search (t : rb_root) (lblk : Z) : M esfs (option nat) :=
  unpack (found, es) <-- search_walk t lblk None ;;
  if found : bool then ret es
  else
    match es with
    | None => ret None
    | Some n =>
        e <-- deref_es n ;;
        if lblk <? es_lblk e then ret (Some n)
        else
          en <-- ext4_es_end e ;;
          if en <? lblk then ret (rb_next t n) else ret None
    end.

Definition es_in_range (b first len : Z) : bool := (first <=? b) && (b <=? u32 (first + len - 1)).

(** The extent the cache points to, if it covers the block. *)
Definition cached_es (ino : nat) (lblk : Z) : M esfs (option nat) :=
  c <-- gets (fun s => cache_es (es_inodes s ino)) ;;
  match c with
  | None => ret None
  | Some n => e <-- deref_es n ;; ret (if es_in_range lblk (es_lblk e) (es_len e) then Some n else None)
  end.

(** From a node that is not delayed to the next delayed one that begins
    before [end_]. *)
Fixpoint delayed_loop (fuel : nat) (t : rb_root) (end_ : Z) (n : nat) : M esfs (option nat) :=
  match fuel with
  | O => stall
  | S fuel =>
      match rb_next t n with
      | None => ret (Some n)
      | Some m =>
          e <-- deref_es m ;;
          if end_ <? es_lblk e then ret None
          else if ext4_es_is_delayed e then ret (Some m)
          else delayed_loop fuel t end_ m
      end
  end.

(** Up to the extent that is tested last. *)
Definition find_delayed (ino : nat) (lblk end_ : Z) : M esfs (option nat) :=
  t <-- get_root ino ;;
  c <-- cached_es ino lblk ;;
  es1 <-- match c with Some n => ret (Some n) | None => __es_tree_search t lblk end ;;
  match es1 with
  | None => ret None
  | Some n =>
      e <-- deref_es n ;;
      if ext4_es_is_delayed e then ret (Some n) else delayed_loop (S (length (inorder t))) t end_ n
  end.

Definition ext4_es_find_delayed_extent_range (ino : nat) (lblk end_ : Z) : M esfs extent_status :=
  check (lblk <=? end_) BugOn ;;;
  es1 <-- find_delayed ino lblk end_ ;;
  match es1 with
  | None => ret (mk_es 0 0 0)
  | Some n =>
      e <-- deref_es n ;;
      if ext4_es_is_delayed e then set_cache ino (Some n) ;;; ret e else ret (mk_es 0 0 0)
  end.

(** ** Allocating and freeing *)

Definition ext4_es_list_add (ino : nat) : M esfs unit := modify (fun s =>
  if bool_decide (ino ∈ s_es_list s) then s
  else s <| s_es_list ::= (.++ [ino]) |> <| s_es_nr_inode ::= fun n => n + 1 |>).

Definition ext4_es_list_del (ino : nat) : M esfs unit := modify (fun s =>
  if bool_decide (ino ∈ s_es_list s)
  then s <| s_es_list ::= base.filter (fun j => j <> ino) |> <| s_es_nr_inode ::= fun n => n - 1 |>
  else s).

Definition ext4_es_alloc_extent (ino : nat) (lblk len pblk : Z) : M esfs (option nat) :=
  ok <-- kmem_cache_alloc ;;
  if negb ok then ret None
  else
    n <-- gets next_es ;;
    let e := mk_es lblk len pblk in
    modify (fun s => s <| es_mem ::= <[n := e]> |> <| next_es ::= S |>) ;;;
    (if ext4_es_is_delayed e then ret tt
     else
       shk <-- gets (fun s => i_es_shk_nr (es_inodes s ino)) ;;
       modify (upd_ei ino (fun i => i <| i_es_shk_nr ::= fun k => u32 (k + 1) |>)) ;;;
       (if shk =? 0 then ext4_es_list_add ino else ret tt) ;;;
       modify (fun s => s <| es_stats_shk_cnt ::= fun k => k + 1 |>)) ;;;
    modify (upd_ei ino (fun i => i <| i_es_all_nr ::= fun k => u32 (k + 1) |>)) ;;;
    modify (fun s => s <| es_stats_all_cnt ::= fun k => k + 1 |>) ;;;
    ret (Some n).

Definition ext4_es_free_extent (ino n : nat) : M esfs unit :=
  modify (upd_ei ino (fun i => i <| i_es_all_nr ::= fun k => u32 (k - 1) |>)) ;;;
  modify (fun s => s <| es_stats_all_cnt ::= fun k => k - 1 |>) ;;;
  e <-- deref_es n ;;
  (if ext4_es_is_delayed e then ret tt
   else
     shk <-- gets (fun s => i_es_shk_nr (es_inodes s ino)) ;;
     check (negb (shk =? 0)) BugOn ;;;
     modify (upd_ei ino (fun i => i <| i_es_shk_nr ::= fun k => u32 (k - 1) |>)) ;;;
     shk <-- gets (fun s => i_es_shk_nr (es_inodes s ino)) ;;
     (if shk =? 0 then ext4_es_list_del ino else ret tt) ;;;
     modify (fun s => s <| es_stats_shk_cnt ::= fun k => k - 1 |>)) ;;;
  modify (fun s => s <| es_mem ::= base.delete n |>).

Definition erase_es (ino n : nat) : M esfs unit :=
  modify (upd_ei ino (fun i => i <| es_root ::= rb_erase n |>)).

(** ** Merging *)

Definition ext4_es_can_be_merged (es1 es2 : extent_status) : bool :=
  if negb (ext4_es_type es1 =? ext4_es_type es2) then false
  else if EXT_MAX_BLOCKS <? u64 (es_len es1 + es_len es2) then false
  else if negb (u64 (es_lblk es1 + es_len es1) =? es_lblk es2) then false
  else if (ext4_es_is_written es1 || ext4_es_is_unwritten es1) &&
          (u64 (ext4_es_pblock es1 + es_len es1) =? ext4_es_pblock es2) then true
  else if ext4_es_is_hole es1 then true
  else ext4_es_is_delayed es1 && negb (ext4_es_is_unwritten es1).

(** [e1] takes over the blocks of [e2]. *)
Definition absorb (e1 e2 : extent_status) : extent_status :=
  let e := e1 <| es_len ::= fun k => u32 (k + es_len e2) |> in
  if ext4_es_is_referenced e2 then ext4_es_set_referenced e else e.

Definition ext4_es_try_to_merge_left (ino n : nat) : M esfs nat :=
  t <-- get_root ino ;;
  match rb_prev t n with
  | None => ret n
  | Some m =>
      e1 <-- deref_es m ;;
      e <-- deref_es n ;;
      if ext4_es_can_be_merged e1 e then
        write_es m (absorb e1 e) ;;;
        erase_es ino n ;;;
        ext4_es_free_extent ino n ;;;
        ret m
      else ret n
  end.

Definition ext4_es_try_to_merge_right (ino n : nat) : M esfs nat :=
  t <-- get_root ino ;;
  match rb_next t n with
  | None => ret n
  | Some m =>
      e <-- deref_es n ;;
      e1 <-- deref_es m ;;
      if ext4_es_can_be_merged e e1 then
        write_es n (absorb e e1) ;;;
        erase_es ino m ;;;
        ext4_es_free_extent ino m ;;;
        ret n
      else ret n
  end.

(** ** Inserting *)

Inductive place :=
| Before (n : nat)             (* merge in front of the node *)
| After (n : nat)              (* merge behind it *)
| Slot (p : rb_path).          (* a new node at the link *)

Definition below (right : bool) (p : place) : place :=
  match p with Slot p => Slot (right :: p) | p => p end.

Fixpoint insert_walk (t : rb_root) (newes : extent_status) : M esfs place :=
  match t with
  | RbNull => ret (Slot [])
  | RbNode l n r =>
      e <-- deref_es n ;;
      if es_lblk newes <? es_lblk e then
        if ext4_es_can_be_merged newes e then ret (Before n)
        else p <-- insert_walk l newes ;; ret (below false p)
      else
        en <-- ext4_es_end e ;;
        if en <? es_lblk newes then
          if ext4_es_can_be_merged e newes then ret (After n)
          else p <-- insert_walk r newes ;; ret (below true p)
        else oops BugOn
  end.

(** [e] takes over the blocks of [newes] in front of it. *)
Definition prepend (newes e : extent_status) : extent_status :=
  let e := e <| es_lblk := es_lblk newes |> <| es_len ::= fun k => u32 (k + es_len newes) |> in
  if ext4_es_is_written e || ext4_es_is_unwritten e then ext4_es_store_pblock (es_pblk newes) e else e.

Definition __es_insert_extent (ino : nat) (newes : extent_status) : M esfs Z :=
  t <-- get_root ino ;;
  p <-- insert_walk t newes ;;
  match p with
  | Before n =>
      e <-- deref_es n ;;
      write_es n (prepend newes e) ;;;
      n <-- ext4_es_try_to_merge_left ino n ;;
      set_cache ino (Some n) ;;; ret 0
  | After n =>
      e <-- deref_es n ;;
      write_es n (e <| es_len ::= fun k => u32 (k + es_len newes) |>) ;;;
      n <-- ext4_es_try_to_merge_right ino n ;;
      set_cache ino (Some n) ;;; ret 0
  | Slot p =>
      o <-- ext4_es_alloc_extent ino (es_lblk newes) (es_len newes) (es_pblk newes) ;;
      match o with
      | None => ret ENOMEM_es
      | Some n =>
          modify (upd_ei ino (fun i => i <| es_root ::= fun t => rb_insert_color n (rb_link_node p n t) |>)) ;;;
          set_cache ino (Some n) ;;; ret 0
      end
  end.
End extents_status.

(** ** The shrinker *)

Section shrinker.
Context `{RbApi}.

Definition set_shrink_lblk (ino : nat) (b : Z) : M esfs unit :=
  modify (upd_ei ino (fun i => i <| i_es_shrink_lblk := b |>)).

(** From node [n]: the result, and what is left of [nr_to_scan]; [nr_shrunk]
    is counted. *)
Fixpoint reclaim_loop (fuel : nat) (ino : nat) (end_ : Z) (n : nat) (nr_to_scan nr_shrunk : Z)
    : M esfs (Z * Z * Z) :=
  match fuel with
  | O => stall
  | S fuel =>
      e <-- deref_es n ;;
      if negb (0 <? nr_to_scan) then set_shrink_lblk ino (es_lblk e) ;;; ret (1, nr_to_scan, nr_shrunk)
      else if end_ <? es_lblk e then set_shrink_lblk ino (u32 (end_ + 1)) ;;; ret (0, nr_to_scan, nr_shrunk)
      else
        t <-- get_root ino ;;
        let node := rb_next t n in
        nr_shrunk <--
          (if ext4_es_is_delayed e then ret nr_shrunk
           else if ext4_es_is_referenced e then write_es n (ext4_es_clear_referenced e) ;;; ret nr_shrunk
           else erase_es ino n ;;; ext4_es_free_extent ino n ;;; ret (nr_shrunk + 1)) ;;
        match node with
        | None => set_shrink_lblk ino 0 ;;; ret (0, nr_to_scan - 1, nr_shrunk)
        | Some m => reclaim_loop fuel ino end_ m (nr_to_scan - 1) nr_shrunk
        end
  end.

Definition es_do_reclaim_extents (ino : nat) (end_ nr_to_scan nr_shrunk : Z) : M esfs (Z * Z * Z) :=
  t <-- get_root ino ;;
  b <-- gets (fun s => i_es_shrink_lblk (es_inodes s ino)) ;;
  es <-- __es_tree_search t b ;;
  match es with
  | None => set_shrink_lblk ino 0 ;;; ret (0, nr_to_scan, nr_shrunk)
  | Some n => reclaim_loop (S (length (inorder t))) ino end_ n nr_to_scan nr_shrunk
  end.

(** The number of extents freed, and what is left of [nr_to_scan]. *)
Definition es_reclaim_extents (ino : nat) (nr_to_scan : Z) : M esfs (Z * Z) :=
  i <-- gets (fun s => es_inodes s ino) ;;
  let start := i_es_shrink_lblk i in
  if i_es_shk_nr i =? 0 then ret (0, nr_to_scan)
  else
    unpack (r, nr_to_scan, nr_shrunk) <-- es_do_reclaim_extents ino EXT_MAX_BLOCKS nr_to_scan 0 ;;
    unpack (_, nr_to_scan, nr_shrunk) <--
      (if (r =? 0) && negb (start =? 0) then es_do_reclaim_extents ino (u32 (start - 1)) nr_to_scan nr_shrunk
       else ret (r, nr_to_scan, nr_shrunk)) ;;
    set_cache ino None ;;;
    ret (nr_shrunk, nr_to_scan).

Inductive walk_end := WalkOut (nr_shrunk : Z) | WalkDone (nr_to_scan nr_shrunk nr_skipped : Z).

Fixpoint shrink_walk (nr_to_walk : nat) (retried : bool) (locked_ei : option nat)
    (nr_to_scan nr_shrunk nr_skipped : Z) : M esfs walk_end :=
  match nr_to_walk with
  | O => ret (WalkDone nr_to_scan nr_shrunk nr_skipped)
  | S nr_to_walk =>
      l <-- gets s_es_list ;;
      match l with
      | [] => ret (WalkOut nr_shrunk)
      | ino :: rest =>
          modify (fun s => s <| s_es_list := rest ++ [ino] |>) ;;;
          i <-- gets (fun s => es_inodes s ino) ;;
          if negb retried && precached i then
            shrink_walk nr_to_walk retried locked_ei nr_to_scan nr_shrunk (nr_skipped + 1)
          else
            skip <-- (if bool_decide (locked_ei = Some ino) then ret true
                      else ok <-- write_trylock ;; ret (negb ok)) ;;
            if skip : bool then shrink_walk nr_to_walk retried locked_ei nr_to_scan nr_shrunk (nr_skipped + 1)
            else
              unpack (k, nr_to_scan) <-- es_reclaim_extents ino nr_to_scan ;;
              let nr_shrunk := nr_shrunk + k in
              if nr_to_scan <=? 0 then ret (WalkOut nr_shrunk)
              else shrink_walk nr_to_walk retried locked_ei nr_to_scan nr_shrunk nr_skipped
      end
  end.

(** After both passes over the list. *)
Definition shrink_locked (locked_ei : option nat) (nr_to_scan nr_shrunk : Z) : M esfs Z :=
  match locked_ei with
  | Some ino =>
      if nr_shrunk =? 0 then unpack (k, _) <-- es_reclaim_extents ino nr_to_scan ;; ret k else ret nr_shrunk
  | None => ret nr_shrunk
  end.

Definition shrink_pass (retried : bool) (locked_ei : option nat) (nr_to_scan nr_shrunk nr_skipped : Z) : M esfs walk_end :=
  nr <-- gets s_es_nr_inode ;;
  shrink_walk (Z.to_nat (sext 32 nr)) retried locked_ei nr_to_scan nr_shrunk nr_skipped.

(** Up to the statistics. *)
Definition shrink_lists (nr_to_scan : Z) (locked_ei : option nat) : M esfs Z :=
  w <-- shrink_pass false locked_ei nr_to_scan 0 0 ;;
  match w with
  | WalkOut k => ret k
  | WalkDone nr_to_scan nr_shrunk nr_skipped =>
      if (nr_shrunk =? 0) && negb (nr_skipped =? 0) then
        w <-- shrink_pass true locked_ei nr_to_scan nr_shrunk nr_skipped ;;
        match w with
        | WalkOut k => ret k
        | WalkDone nr_to_scan nr_shrunk _ => shrink_locked locked_ei nr_to_scan nr_shrunk
        end
      else shrink_locked locked_ei nr_to_scan nr_shrunk
  end.

Definition __es_shrink (nr_to_scan : Z) (locked_ei : option nat) : M esfs Z :=
  nr_shrunk <-- shrink_lists nr_to_scan locked_ei ;;
  modify (fun s => s <| es_stats_shrunk ::= fun k => if k =? 0 then nr_shrunk else u64 (nr_shrunk + k * 3) / 4 |>) ;;;
  ret nr_shrunk.

Definition ext4_es_count : M esfs Z := gets (fun s => Z.max 0 (es_stats_shk_cnt s)).

Definition ext4_es_scan (nr_to_scan : Z) : M esfs Z :=
  r <-- ext4_es_count ;;
  if nr_to_scan =? 0 then ret r else __es_shrink nr_to_scan None.

(** ** Removing *)

(** Nodes that end before [end_] go. *)
Fixpoint remove_loop (fuel : nat) (ino : nat) (end_ : Z) (es : option nat) : M esfs (option nat) :=
  match fuel with
  | O => stall
  | S fuel =>
      match es with
      | None => ret None
      | Some n =>
          e <-- deref_es n ;;
          en <-- ext4_es_end e ;;
          if negb (en <=? end_) then ret (Some n)
          else
            t <-- get_root ino ;;
            let node := rb_next t n in
            erase_es ino n ;;;
            ext4_es_free_extent ino n ;;;
            remove_loop fuel ino end_ node
      end
  end.

(** The blocks of [e] behind [end_], of which there are [len2]. *)
Definition cut_front (end_ len2 orig_len : Z) (e : extent_status) : extent_status :=
  let block := u64 (es_pblk e + orig_len - len2) in
  let e := e <| es_lblk := u32 (end_ + 1) |> <| es_len := len2 |> in
  if ext4_es_is_written e || ext4_es_is_unwritten e then ext4_es_store_pblock block e else e.

Definition split_tail (end_ len2 : Z) (orig_es : extent_status) : extent_status :=
  let block := if ext4_es_is_written orig_es || ext4_es_is_unwritten orig_es
               then u64 (ext4_es_pblock orig_es + es_len orig_es - len2) else 0x7FDEADBEEF in
  ext4_es_store_pblock_status block (ext4_es_status orig_es) (mk_es (u32 (end_ + 1)) len2 0).

(** The last extent, when it begins in the range. *)
Definition trim_last (end_ : Z) (es : option nat) : M esfs unit :=
  match es with
  | None => ret tt
  | Some n =>
      e <-- deref_es n ;;
      if es_lblk e <? u32 (end_ + 1) then
        en <-- ext4_es_end e ;;
        write_es n (cut_front end_ (u32 (en - end_)) (es_len e) e)
      else ret tt
  end.

Fixpoint __es_remove_extent (fuel : nat) (ino : nat) (lblk end_ : Z) : M esfs Z :=
  match fuel with
  | O => stall
  | S fuel =>
      t <-- get_root ino ;;
      o <-- __es_tree_search t lblk ;;
      match o with
      | None => ret 0
      | Some n =>
          orig_es <-- deref_es n ;;
          if end_ <? es_lblk orig_es then ret 0
          else
            set_cache ino None ;;;
            let len1 := if es_lblk orig_es <? lblk then u32 (lblk - es_lblk orig_es) else 0 in
            en <-- ext4_es_end orig_es ;;
            let len2 := if end_ <? en then u32 (en - end_) else 0 in
            (if 0 <? len1 then write_es n (orig_es <| es_len := len1 |>) else ret tt) ;;;
            if 0 <? len2 then
              if 0 <? len1 then
                err <-- __es_insert_extent ino (split_tail end_ len2 orig_es) ;;
                if negb (err =? 0) then
                  e <-- deref_es n ;;
                  write_es n (e <| es_lblk := es_lblk orig_es |> <| es_len := es_len orig_es |>) ;;;
                  if err =? ENOMEM_es then
                    k <-- __es_shrink 128 (Some ino) ;;
                    if negb (k =? 0) then __es_remove_extent fuel ino lblk end_ else ret err
                  else ret err
                else ret 0
              else write_es n (cut_front end_ len2 (es_len orig_es) orig_es) ;;; ret 0
            else
              es <-- (if 0 <? len1 then t <-- get_root ino ;; ret (rb_next t n) else ret (Some n)) ;;
              es <-- remove_loop (S (length (inorder t))) ino end_ es ;;
              trim_last end_ es ;;;
              ret 0
      end
  end.

(** ** The entry points *)

(** Every retry follows the release of an extent. *)
Definition es_fuel : M esfs nat := gets (fun s => S (size (es_mem s))).

Definition ext4_es_remove_extent (ino : nat) (lblk len : Z) : M esfs Z :=
  if len =? 0 then ret 0
  else
    let end_ := u32 (lblk + len - 1) in
    check (lblk <=? end_) BugOn ;;;
    fuel <-- es_fuel ;;
    __es_remove_extent fuel ino lblk end_.

Fixpoint insert_retry (fuel : nat) (ino : nat) (newes : extent_status) : M esfs Z :=
  match fuel with
  | O => stall
  | S fuel =>
      err <-- __es_insert_extent ino newes ;;
      if err =? ENOMEM_es then
        k <-- __es_shrink 128 (Some ino) ;;
        if negb (k =? 0) then insert_retry fuel ino newes else ret err
      else ret err
  end.

Definition ext4_es_insert_extent (ino : nat) (lblk len pblk status : Z) : M esfs Z :=
  let end_ := u32 (lblk + len - 1) in
  if len =? 0 then ret 0
  else
    check (lblk <=? end_) BugOn ;;;
    let newes := ext4_es_store_pblock_status pblk status (mk_es lblk len 0) in
    fuel <-- es_fuel ;;
    err <-- __es_remove_extent fuel ino lblk end_ ;;
    if negb (err =? 0) then ret err
    else
      fuel <-- es_fuel ;;
      err <-- insert_retry fuel ino newes ;;
      ret (if (err =? ENOMEM_es) && negb (ext4_es_is_delayed newes) then 0 else err).

Definition ext4_es_cache_extent (ino : nat) (lblk len pblk status : Z) : M esfs unit :=
  let end_ := u32 (lblk + len - 1) in
  let newes := ext4_es_store_pblock_status pblk status (mk_es lblk len 0) in
  if len =? 0 then ret tt
  else
    check (lblk <=? end_) BugOn ;;;
    t <-- get_root ino ;;
    es <-- __es_tree_search t lblk ;;
    go <-- match es with None => ret true | Some n => e <-- deref_es n ;; ret (end_ <? es_lblk e) end ;;
    if go : bool then _ <-- __es_insert_extent ino newes ;; ret tt else ret tt.

(** [None]: not found. *)
Definition ext4_es_lookup_extent (ino : nat) (lblk : Z) : M esfs (option extent_status) :=
  t <-- get_root ino ;;
  c <-- cached_es ino lblk ;;
  unpack (found, es1) <-- match c with Some n => ret (true, Some n) | None => search_walk t lblk None end ;;
  if found : bool then
    match es1 with
    | None => oops BugOn
    | Some n =>
        e <-- deref_es n ;;
        (if ext4_es_is_referenced e then ret tt else write_es n (ext4_es_set_referenced e)) ;;;
        modify (fun s => s <| es_stats_cache_hits ::= fun k => k + 1 |>) ;;;
        ret (Some e)
    end
  else modify (fun s => s <| es_stats_cache_misses ::= fun k => k + 1 |>) ;;; ret None.
End shrinker.
