(* ===== verification/ExtentFacts.v ===== *)
(** * mqfs: facts on extents and sorted lists of extents

    The status flags and the block share the word [es_pblk]; [look] is the map
    from blocks to their status that a list of extents stands for. *)

From S2P Require Import Prelude Rbtree ExtentStatus.

(** ** The word *)

Lemma testbit_wrap w x i : 0 <= w -> 0 <= i -> Z.testbit (wrap w x) i = (i <? w) && Z.testbit x i.
Proof.
  intros Hw Hi. unfold wrap. destruct (Z.ltb_spec i w).
  - by rewrite Z.mod_pow2_bits_low.
  - by rewrite Z.mod_pow2_bits_high by lia.
Qed.

Lemma testbit_high w x i : 0 <= x < 2 ^ w -> w <= i -> Z.testbit x i = false.
Proof.
  intros Hx Hi. destruct (Z.le_gt_cases 0 w); [|rewrite Z.pow_neg_r in Hx; lia].
  rewrite <- (wrap_small w x Hx), testbit_wrap by lia. by rewrite (proj2 (Z.ltb_ge _ _)).
Qed.

Lemma bits_range w x : 0 <= w -> 0 <= x -> (forall i, w <= i -> Z.testbit x i = false) -> 0 <= x < 2 ^ w.
Proof.
  intros Hw Hx Hb. rewrite <- (Z.mod_small x (2 ^ w)) at 1 2.
  2: { split; [done|]. destruct (Z.lt_ge_cases x (2 ^ w)); [done|]. exfalso.
       assert (w <= Z.log2 x) by (apply Z.log2_le_pow2; [|done]; assert (0 < 2 ^ w) by (by apply Z.pow_pos_nonneg); lia).
       assert (Hx0 : 0 < x) by (assert (0 < 2 ^ w) by (by apply Z.pow_pos_nonneg); lia).
       pose proof (Z.bit_log2 x Hx0) as Hl. by rewrite Hb in Hl. }
  apply Z.mod_pos_bound. by apply Z.pow_pos_nonneg.
Qed.

Lemma testbit_flags k i : 0 <= k -> 0 <= i ->
  Z.testbit (Z.shiftl (Z.ones k) 59) i = (59 <=? i) && (i <? 59 + k).
Proof.
  intros Hk Hi. rewrite Z.shiftl_spec by done. destruct (Z.leb_spec 59 i); simpl.
  - rewrite Z.testbit_ones_nonneg by lia. destruct (Z.ltb_spec (i - 59) k), (Z.ltb_spec i (59 + k)); done || lia.
  - apply Z.testbit_neg_r. lia.
Qed.

Lemma ES_MASK_bits i : 0 <= i -> Z.testbit ES_MASK i = (59 <=? i) && (i <? 64).
Proof. apply (testbit_flags 5). done. Qed.

Lemma ES_TYPE_MASK_bits i : 0 <= i -> Z.testbit ES_TYPE_MASK i = (59 <=? i) && (i <? 63).
Proof. apply (testbit_flags 4). done. Qed.

Lemma REFERENCED_bits i : 0 <= i -> Z.testbit (Z.shiftl EXTENT_STATUS_REFERENCED ES_SHIFT) i = (i =? 63).
Proof. intros Hi. rewrite Z.eqb_sym. exact (Z.pow2_bits_eqb 63 i ltac:(lia)). Qed.

Lemma type_bits e i : 0 <= i -> Z.testbit (ext4_es_type e) i = (i <? 4) && Z.testbit (es_pblk e) (i + 59).
Proof.
  intros Hi. unfold ext4_es_type. rewrite testbit_wrap, Z.shiftr_spec, Z.land_spec by lia.
  change ES_SHIFT with 59. rewrite ES_TYPE_MASK_bits by lia. rewrite (proj2 (Z.leb_le 59 (i + 59))) by lia.
  rewrite andb_true_l, (andb_comm (Z.testbit _ _)), andb_assoc. f_equal.
  destruct (Z.ltb_spec i 32), (Z.ltb_spec (i + 59) 63), (Z.ltb_spec i 4); done || lia.
Qed.

Lemma pblock_bits e i : 0 <= es_pblk e < 2 ^ 64 -> 0 <= i ->
  Z.testbit (ext4_es_pblock e) i = (i <? 59) && Z.testbit (es_pblk e) i.
Proof.
  intros Hp Hi. unfold ext4_es_pblock. rewrite Z.ldiff_spec, ES_MASK_bits by done.
  destruct (Z.ltb_spec i 59).
  - rewrite (proj2 (Z.leb_gt 59 i)) by done. apply andb_true_r.
  - rewrite (proj2 (Z.leb_le 59 i)) by done. destruct (Z.ltb_spec i 64); [apply andb_false_r|].
    by rewrite (testbit_high 64).
Qed.

Lemma type_eq e e' :
  (forall i, 59 <= i < 63 -> Z.testbit (es_pblk e') i = Z.testbit (es_pblk e) i) -> ext4_es_type e' = ext4_es_type e.
Proof.
  intros Hb. apply Z.bits_inj'. intros i Hi. rewrite !type_bits by done.
  destruct (Z.ltb_spec i 4); [|done]. simpl. apply Hb. lia.
Qed.

Lemma pblock_mod e : 0 <= es_pblk e < 2 ^ 64 -> ext4_es_pblock e = es_pblk e mod 2 ^ 59.
Proof.
  intros Hp. apply Z.bits_inj'. intros i Hi. rewrite pblock_bits by done. symmetry. by apply testbit_wrap.
Qed.

(** What the flags do not change. *)
Definition same_es (e e' : extent_status) : Prop :=
  es_lblk e' = es_lblk e /\ es_len e' = es_len e /\ ext4_es_type e' = ext4_es_type e /\
  ext4_es_pblock e' = ext4_es_pblock e /\ 0 <= es_pblk e' < 2 ^ 64.

(** Only bit 63 is free. *)
Lemma word_same e p :
  0 <= es_pblk e < 2 ^ 64 -> 0 <= p -> (forall i, 0 <= i -> i <> 63 -> Z.testbit p i = Z.testbit (es_pblk e) i) ->
  same_es e (e <| es_pblk := p |>).
Proof.
  intros He Hp Hb. assert (Hr : 0 <= p < 2 ^ 64).
  { apply bits_range; [done|done|]. intros i Hi. rewrite Hb by lia. by apply (testbit_high 64). }
  assert (E : es_pblk (e <| es_pblk := p |>) = p) by (by destruct e).
  split_and!; [by destruct e..| | |rewrite E; apply Hr|rewrite E; apply Hr].
  - apply type_eq. rewrite E. intros i Hi. apply Hb; lia.
  - apply Z.bits_inj'. intros i Hi. rewrite !pblock_bits by (rewrite ?E; done). rewrite E.
    destruct (Z.ltb_spec i 59); [|done]. f_equal. apply Hb; lia.
Qed.

Lemma set_referenced_same e : 0 <= es_pblk e < 2 ^ 64 -> same_es e (ext4_es_set_referenced e).
Proof.
  intros Hp. apply (word_same e (Z.lor (es_pblk e) _)); [done| |].
  - apply Z.lor_nonneg. split; [lia|done].
  - intros i Hi Hn. rewrite Z.lor_spec, REFERENCED_bits by done. rewrite (proj2 (Z.eqb_neq _ _) Hn). apply orb_false_r.
Qed.

Lemma clear_referenced_same e : 0 <= es_pblk e < 2 ^ 64 -> same_es e (ext4_es_clear_referenced e).
Proof.
  intros Hp. apply (word_same e (Z.ldiff (es_pblk e) _)); [done| |].
  - apply Z.ldiff_nonneg. left. lia.
  - intros i Hi Hn. rewrite Z.ldiff_spec, REFERENCED_bits by done. rewrite (proj2 (Z.eqb_neq _ _) Hn). apply andb_true_r.
Qed.

(** The word with block [pb] and the flags of [f]. *)
Lemma word_join pb f lb ln :
  0 <= pb < 2 ^ 64 -> 0 <= f < 2 ^ 64 ->
  let e := mk_es lb ln (Z.lor (Z.ldiff pb ES_MASK) (Z.land f ES_MASK)) in
  0 <= es_pblk e < 2 ^ 64 /\ ext4_es_pblock e = pb mod 2 ^ 59 /\ ext4_es_type e = ext4_es_type (mk_es lb ln f).
Proof.
  intros Hp Hf e. assert (Hb : forall i, 0 <= i -> Z.testbit (es_pblk e) i =
    (Z.testbit pb i && negb ((59 <=? i) && (i <? 64))) || (Z.testbit f i && ((59 <=? i) && (i <? 64)))).
  { intros i Hi. simpl. by rewrite Z.lor_spec, Z.ldiff_spec, Z.land_spec, !ES_MASK_bits. }
  assert (Hr : 0 <= es_pblk e < 2 ^ 64).
  { apply bits_range; [done| |].
    - simpl. apply Z.lor_nonneg. split; [apply Z.ldiff_nonneg; left; lia|apply Z.land_nonneg; lia].
    - intros i Hi. rewrite Hb, !(testbit_high 64) by lia. done. }
  split_and!; [apply Hr|apply Hr| |].
  - apply Z.bits_inj'. intros i Hi. rewrite pblock_bits, Hb by done.
    transitivity ((i <? 59) && Z.testbit pb i); [|symmetry; by apply testbit_wrap].
    destruct (Z.ltb_spec i 59); [|done]. rewrite (proj2 (Z.leb_gt 59 i)) by done. simpl.
    by rewrite andb_true_r, andb_false_r, orb_false_r.
  - apply type_eq. intros i Hi. rewrite Hb by lia. rewrite (proj2 (Z.leb_le 59 i)), (proj2 (Z.ltb_lt i 64)) by lia.
    simpl. by rewrite andb_false_r, andb_true_r.
Qed.

Lemma store_pblock_ok pb e :
  0 <= pb < 2 ^ 64 -> 0 <= es_pblk e < 2 ^ 64 ->
  let e' := ext4_es_store_pblock pb e in
  es_lblk e' = es_lblk e /\ es_len e' = es_len e /\ ext4_es_type e' = ext4_es_type e /\
  ext4_es_pblock e' = pb mod 2 ^ 59 /\ 0 <= es_pblk e' < 2 ^ 64.
Proof.
  intros Hp He. destruct e as [lb ln p]. by destruct (word_join pb p lb ln Hp He) as (H1 & H2 & H3).
Qed.

Lemma store_pblock_status_ok pb st lb ln :
  0 <= pb < 2 ^ 64 -> 0 <= st < 2 ^ 5 ->
  let e' := ext4_es_store_pblock_status pb st (mk_es lb ln 0) in
  es_lblk e' = lb /\ es_len e' = ln /\ ext4_es_type e' = st mod 2 ^ 4 /\
  ext4_es_pblock e' = pb mod 2 ^ 59 /\ 0 <= es_pblk e' < 2 ^ 64.
Proof.
  intros Hp Hs. assert (Hf : 0 <= u64 (Z.shiftl st ES_SHIFT) < 2 ^ 64) by (by apply wrap_range).
  destruct (word_join pb _ lb ln Hp Hf) as (H3 & H4 & H2). cbv zeta.
  unfold ext4_es_store_pblock_status. rewrite Z.lor_comm. split_and!; [done|done| |done|apply H3|apply H3].
  etransitivity; [apply H2|]. apply Z.bits_inj'. intros i Hi. rewrite type_bits by done. simpl.
  transitivity ((i <? 4) && Z.testbit st i); [|symmetry; by apply testbit_wrap].
  destruct (Z.ltb_spec i 4); [|done]. simpl. rewrite testbit_wrap by lia. rewrite (proj2 (Z.ltb_lt (i + 59) 64)) by lia.
  simpl. change ES_SHIFT with 59. rewrite Z.shiftl_spec by lia. f_equal. lia.
Qed.

Lemma status_type e :
  0 <= es_pblk e < 2 ^ 64 -> ext4_es_status e mod 2 ^ 4 = ext4_es_type e /\ 0 <= ext4_es_status e < 2 ^ 5.
Proof.
  intros Hp. assert (Hb : forall i, 0 <= i -> Z.testbit (ext4_es_status e) i = Z.testbit (es_pblk e) (i + 59)).
  { intros i Hi. unfold ext4_es_status. rewrite testbit_wrap, Z.shiftr_spec by lia. change ES_SHIFT with 59.
    destruct (Z.ltb_spec i 32); [done|]. by rewrite (testbit_high 64) by lia. }
  split.
  - apply Z.bits_inj'. intros i Hi. rewrite type_bits by done. transitivity ((i <? 4) && Z.testbit (ext4_es_status e) i).
    + by apply testbit_wrap.
    + by rewrite Hb.
  - apply bits_range; [done|by apply wrap_range|]. intros i Hi. rewrite Hb by lia. apply (testbit_high 64); lia.
Qed.

(** ** Extents *)

Definition eend (e : extent_status) : Z := es_lblk e + es_len e.
Definition mapped (e : extent_status) : bool := ext4_es_is_written e || ext4_es_is_unwritten e.

(** A block on disk is not a hole, and delayed only while unwritten. *)
Definition type_ok (e : extent_status) : Prop :=
  mapped e = true -> ext4_es_is_hole e = false /\ (ext4_es_is_delayed e = true -> ext4_es_is_unwritten e = true).

Record es_ok (e : extent_status) : Prop := mk_es_ok {
  eo_lblk : 0 <= es_lblk e;
  eo_len : 0 < es_len e;
  eo_end : eend e <= EXT_MAX_BLOCKS;
  eo_pblk : 0 <= es_pblk e < 2 ^ 64;
  eo_type : type_ok e;
}.

(** What an extent says of a block: its type, and where it is. *)
Definition block_status := (Z * option Z)%type.
Definition val (e : extent_status) (b : Z) : block_status :=
  (ext4_es_type e, if mapped e then Some ((ext4_es_pblock e + (b - es_lblk e)) mod 2 ^ 59) else None).

Definition delayed_status (v : block_status) : bool := negb (Z.land v.1 EXTENT_STATUS_DELAYED =? 0).

Lemma flags_of_type e e' : ext4_es_type e' = ext4_es_type e ->
  mapped e' = mapped e /\ ext4_es_is_delayed e' = ext4_es_is_delayed e /\
  ext4_es_is_hole e' = ext4_es_is_hole e /\ ext4_es_is_unwritten e' = ext4_es_is_unwritten e.
Proof. unfold mapped, ext4_es_is_written, ext4_es_is_unwritten, ext4_es_is_delayed, ext4_es_is_hole. by intros ->. Qed.

Lemma type_ok_of_type e e' : ext4_es_type e' = ext4_es_type e -> type_ok e -> type_ok e'.
Proof. intros (Em & Ed & Eh & Eu)%flags_of_type. unfold type_ok. by rewrite Em, Ed, Eh, Eu. Qed.

Lemma same_es_ok e e' : same_es e e' -> es_ok e -> es_ok e'.
Proof.
  intros (El & En & Et & _ & Hp) [H1 H2 H3 H4 H5]. unfold eend in *. split; [lia|lia|unfold eend; lia|done|].
  by eapply type_ok_of_type.
Qed.

Lemma same_es_val e e' b : same_es e e' -> val e' b = val e b.
Proof.
  intros (El & _ & Et & Ep & _). unfold val. destruct (flags_of_type _ _ Et) as (-> & _). by rewrite Et, Ep, El.
Qed.

(** [e] stands for [e1] followed by [e2]. *)
Record joined (e1 e2 e : extent_status) : Prop := mk_joined {
  jn_adj : eend e1 = es_lblk e2;
  jn_lblk : es_lblk e = es_lblk e1;
  jn_len : es_len e = es_len e1 + es_len e2;
  jn_type1 : ext4_es_type e = ext4_es_type e1;
  jn_type2 : ext4_es_type e = ext4_es_type e2;
  jn_pblock : mapped e = true -> ext4_es_pblock e = ext4_es_pblock e1 /\
    ext4_es_pblock e2 = ext4_es_pblock e1 + es_len e1;
  jn_pblk : 0 <= es_pblk e < 2 ^ 64;
}.

Lemma can_be_merged_inv e1 e2 :
  es_ok e1 -> es_ok e2 -> ext4_es_can_be_merged e1 e2 = true ->
  ext4_es_type e1 = ext4_es_type e2 /\ eend e1 = es_lblk e2 /\ es_len e1 + es_len e2 <= EXT_MAX_BLOCKS /\
  (mapped e1 = true -> ext4_es_pblock e2 = ext4_es_pblock e1 + es_len e1).
Proof.
  intros [L1 N1 E1 P1 T1] [L2 N2 E2 P2 T2]. unfold eend, EXT_MAX_BLOCKS, type_ok in *.
  assert (Hpb : 0 <= ext4_es_pblock e1 < 2 ^ 59) by (rewrite pblock_mod by done; by apply Z.mod_pos_bound).
  unfold ext4_es_can_be_merged. fold (mapped e1). change (2 ^ 59) with 576460752303423488 in *.
  rewrite !(wrap_small 64) by (change (2 ^ 64) with 18446744073709551616; lia). unfold EXT_MAX_BLOCKS.
  destruct (Z.eqb_spec (ext4_es_type e1) (ext4_es_type e2)) as [Et|]; cbn [negb]; [|discriminate].
  destruct (Z.ltb_spec 0xffffffff (es_len e1 + es_len e2)); [discriminate|].
  destruct (Z.eqb_spec (es_lblk e1 + es_len e1) (es_lblk e2)); cbn [negb]; [|discriminate].
  intros Hm. split_and!; [done|done|lia|]. intros Hmap. rewrite Hmap in *. destruct (T1 eq_refl) as [Th Tu].
  rewrite Th in Hm. destruct (Z.eqb_spec (ext4_es_pblock e1 + es_len e1) (ext4_es_pblock e2)) as [Ep|_]; [by rewrite Ep|].
  cbn [andb] in Hm. apply andb_true_iff in Hm as [Hd Hu]. by rewrite (Tu Hd) in Hu.
Qed.

Lemma joined_ok e1 e2 e : joined e1 e2 e -> es_ok e1 -> es_ok e2 -> es_ok e.
Proof.
  intros [Ha Hl Hn Ht1 Ht2 Hp Hw] [H1 H2 H3 H4 H5] [K1 K2 K3 K4 K5]. unfold eend in *.
  split; [lia|lia|unfold eend; lia|done|]. by eapply type_ok_of_type.
Qed.

Lemma joined_val e1 e2 e b : joined e1 e2 e -> val e b = val e1 b /\ val e b = val e2 b.
Proof.
  intros [Ha Hl Hn Ht1 Ht2 Hp _]. unfold val, eend in *.
  destruct (flags_of_type _ _ Ht1) as (M1 & _). destruct (flags_of_type _ _ Ht2) as (M2 & _).
  rewrite <- Ht1, <- Ht2, <- M1, <- M2. destruct (mapped e) eqn:Em; [|done]. destruct (Hp eq_refl) as [E1 E2].
  split; do 3 f_equal; lia.
Qed.

Lemma absorb_joined e1 e2 : es_ok e1 -> es_ok e2 -> ext4_es_can_be_merged e1 e2 = true -> joined e1 e2 (absorb e1 e2).
Proof.
  intros H1 H2 Hm. destruct (can_be_merged_inv _ _ H1 H2 Hm) as (Et & Ea & Es & Ep).
  destruct H1 as [L1 N1 E1 P1 T1], H2 as [L2 N2 E2 P2 T2]. unfold eend, EXT_MAX_BLOCKS in *.
  set (e := e1 <| es_len ::= fun k => u32 (k + es_len e2) |>).
  assert (He : es_lblk e = es_lblk e1 /\ es_len e = es_len e1 + es_len e2 /\ es_pblk e = es_pblk e1).
  { subst e. destruct e1; simpl in *. split_and!; [done| |done]. apply wrap_small. change (2 ^ 32) with 4294967296. lia. }
  destruct He as (El & En & Eb).
  assert (Hs : same_es e (absorb e1 e2)).
  { unfold absorb. fold e. destruct (ext4_es_is_referenced e2); [apply set_referenced_same; by rewrite Eb|].
    unfold same_es. rewrite Eb. done. }
  destruct Hs as (Sl & Sn & St & Sp & Sr).
  assert (Te : ext4_es_type e = ext4_es_type e1 /\ ext4_es_pblock e = ext4_es_pblock e1)
    by (unfold ext4_es_type, ext4_es_pblock; by rewrite Eb).
  destruct Te as [Te Pe]. split; [done|congruence|congruence|congruence|congruence| |done].
  intros Hma. destruct (flags_of_type e1 (absorb e1 e2) ltac:(congruence)) as (Mm & _). rewrite Mm in Hma. split; [congruence|auto].
Qed.

Lemma append_joined e1 e2 :
  es_ok e1 -> es_ok e2 -> ext4_es_can_be_merged e1 e2 = true ->
  joined e1 e2 (e1 <| es_len ::= fun k => u32 (k + es_len e2) |>).
Proof.
  intros H1 H2 Hm. destruct (can_be_merged_inv _ _ H1 H2 Hm) as (Et & Ea & Es & Ep).
  destruct H1 as [L1 N1 E1 P1 T1], H2 as [L2 N2 E2 P2 T2]. unfold eend, EXT_MAX_BLOCKS in *.
  destruct e1 as [lb ln p]; simpl in *. split; simpl; [done|done| |done|done| |done].
  - apply wrap_small. change (2 ^ 32) with 4294967296. lia.
  - auto.
Qed.

Lemma prepend_joined e1 e2 : es_ok e1 -> es_ok e2 -> ext4_es_can_be_merged e1 e2 = true -> joined e1 e2 (prepend e1 e2).
Proof.
  intros H1 H2 Hm. destruct (can_be_merged_inv _ _ H1 H2 Hm) as (Et & Ea & Es & Ep).
  destruct H1 as [L1 N1 E1 P1 T1], H2 as [L2 N2 E2 P2 T2]. unfold eend, EXT_MAX_BLOCKS in *.
  unfold prepend. set (e := (e2 <| es_lblk := _ |>) <| es_len ::= _ |>).
  assert (He : es_lblk e = es_lblk e1 /\ es_len e = es_len e1 + es_len e2 /\ es_pblk e = es_pblk e2).
  { subst e. destruct e1, e2; simpl in *. split_and!; [done| |done]. rewrite wrap_small; [lia|].
    change (2 ^ 32) with 4294967296. lia. }
  destruct He as (El & En & Eb). clearbody e.
  assert (Te : ext4_es_type e = ext4_es_type e2) by (unfold ext4_es_type; by rewrite Eb).
  destruct (flags_of_type _ _ Te) as (Me & _). destruct (flags_of_type _ _ Et) as (M12 & _). fold (mapped e). rewrite Me.
  destruct (mapped e2) eqn:Em.
  - destruct (store_pblock_ok (es_pblk e1) e P1 ltac:(by rewrite Eb)) as (Sl & Sn & St & Sp & Sr).
    split; [done|congruence|congruence|congruence|congruence| |done]. intros _. split; [|auto].
    rewrite Sp. symmetry. by apply pblock_mod.
  - split; [done|done|done|congruence|done| |by rewrite Eb]. congruence.
Qed.

(** ** Sorted lists of extents *)

(** The extents begin at [lo] or later, in order and without overlap. *)
Fixpoint srt (lo : Z) (l : list extent_status) : Prop :=
  match l with
  | [] => True
  | e :: l => lo <= es_lblk e /\ es_ok e /\ srt (eend e) l
  end.

(** Where the list ends. *)
Fixpoint endof (lo : Z) (l : list extent_status) : Z :=
  match l with
  | [] => lo
  | e :: l => endof (eend e) l
  end.

Fixpoint look (l : list extent_status) (b : Z) : option block_status :=
  match l with
  | [] => None
  | e :: l => if (es_lblk e <=? b) && (b <? eend e) then Some (val e b) else look l b
  end.

Lemma endof_app lo l1 l2 : endof lo (l1 ++ l2) = endof (endof lo l1) l2.
Proof. revert lo. induction l1 as [|e l1 IH]; intros lo; [done|apply IH]. Qed.

Lemma srt_app lo l1 l2 : srt lo (l1 ++ l2) <-> srt lo l1 /\ srt (endof lo l1) l2.
Proof.
  revert lo. induction l1 as [|e l1 IH]; intros lo; [naive_solver|]. simpl. rewrite IH. naive_solver.
Qed.

Lemma srt_weaken lo lo' l : lo' <= lo -> srt lo l -> srt lo' l.
Proof. intros Hlo. destruct l as [|e l]; [done|]. intros (H1 & H2 & H3). split; [lia|done]. Qed.

Lemma srt_Forall lo l : srt lo l -> Forall (fun e => lo <= es_lblk e /\ es_ok e) l.
Proof.
  revert lo. induction l as [|e l IH]; intros lo; [done|]. intros (H1 & H2 & H3). constructor; [done|].
  eapply Forall_impl; [by apply IH|]. intros e' [H4 H5]. destruct H2 as [? ? ? ? ?]. unfold eend in *. split; [lia|done].
Qed.

Lemma srt_ends lo l e : srt lo l -> e ∈ l -> eend e <= endof lo l.
Proof.
  assert (Hle : forall lo l, srt lo l -> lo <= endof lo l).
  { intros lo' l'. revert lo'. induction l' as [|e' l' IH]; intros lo'; simpl; [lia|].
    intros (H1 & H2 & H3). specialize (IH _ H3). destruct H2. unfold eend in *. lia. }
  revert lo. induction l as [|e' l IH]; intros lo; [by intros _ ?%elem_of_nil|].
  cbn [endof]. intros (H1 & H2 & H3) [->|He]%elem_of_cons; [by apply Hle|by apply IH].
Qed.

Lemma srt_length lo l : 0 <= lo -> srt lo l -> lo + Z.of_nat (length l) <= endof lo l.
Proof.
  revert lo. induction l as [|e l IH]; intros lo Hlo; simpl; [lia|]. intros (H1 & H2 & H3).
  destruct H2 as [H4 H5 _ _ _]. unfold eend in *. specialize (IH (es_lblk e + es_len e) ltac:(lia) H3). lia.
Qed.

Lemma srt_bounded l : srt 0 l -> Z.of_nat (length l) <= EXT_MAX_BLOCKS.
Proof.
  intros Hl. pose proof (srt_length 0 l ltac:(lia) Hl) as Hn. revert Hl Hn. destruct l as [|e l _] using rev_ind.
  { intros _ _. done. }
  rewrite endof_app. intros (_ & H1 & H2 & _)%srt_app Hn. destruct H2 as [_ _ H3 _ _]. cbn [endof] in Hn. lia.
Qed.

Lemma look_app l1 l2 b : look (l1 ++ l2) b = match look l1 b with Some v => Some v | None => look l2 b end.
Proof. induction l1 as [|e l1 IH]; [done|]. simpl. by destruct (_ && _). Qed.

Lemma look_below lo l b : srt lo l -> b < lo -> look l b = None.
Proof.
  revert lo. induction l as [|e l IH]; intros lo; [done|]. intros (H1 & H2 & H3) Hb. simpl.
  destruct (Z.leb_spec (es_lblk e) b); [lia|]. simpl. eapply IH; [done|]. destruct H2. unfold eend in *. lia.
Qed.

Lemma look_above lo l b : srt lo l -> endof lo l <= b -> look l b = None.
Proof.
  intros Hs Hb. assert (He : Forall (fun e => eend e <= b) l).
  { apply Forall_forall. intros e He. pose proof (srt_ends lo l e Hs He). lia. }
  clear Hs Hb. induction He as [|e l He _ IH]; [done|]. simpl. destruct (Z.ltb_spec b (eend e)); [lia|].
  by rewrite andb_false_r.
Qed.

Lemma look_in l1 l2 e b : srt 0 (l1 ++ e :: l2) -> es_lblk e <= b < eend e -> look (l1 ++ e :: l2) b = Some (val e b).
Proof.
  intros (H1 & H2 & H3 & H4)%srt_app Hb. rewrite look_app, (look_above 0 l1 b) by (done || lia). simpl.
  destruct (Z.leb_spec (es_lblk e) b), (Z.ltb_spec b (eend e)); done || lia.
Qed.

(** Replacing two neighbours by their join. *)
Lemma look_joined l1 l2 e1 e2 e b : joined e1 e2 e -> es_ok e1 -> es_ok e2 ->
  look (l1 ++ e :: l2) b = look (l1 ++ e1 :: e2 :: l2) b.
Proof.
  intros Hj H1 H2. rewrite !look_app. destruct (look l1 b); [done|]. simpl.
  destruct (joined_val _ _ _ b Hj) as [<- <-]. destruct Hj as [Ha Hl Hn _ _ _ _], H1 as [_ K1 _ _ _], H2 as [_ K2 _ _ _].
  unfold eend in *. rewrite Hl, Hn. destruct (Z.leb_spec (es_lblk e1) b), (Z.ltb_spec b (es_lblk e1 + (es_len e1 + es_len e2))),
    (Z.ltb_spec b (es_lblk e1 + es_len e1)), (Z.leb_spec (es_lblk e2) b), (Z.ltb_spec b (es_lblk e2 + es_len e2)); simpl; done || lia.
Qed.

Lemma srt_joined lo l1 l2 e1 e2 e : joined e1 e2 e -> srt lo (l1 ++ e1 :: e2 :: l2) -> srt lo (l1 ++ e :: l2).
Proof.
  rewrite !srt_app. intros Hj (H1 & H2 & H3 & H4 & H5 & H6). split; [done|]. pose proof (joined_ok _ _ _ Hj H3 H5) as Hok.
  destruct Hj as [Ha Hl Hn _ _ _ _]. split_and!; [lia|done|]. eapply srt_weaken; [|done]. unfold eend in *. lia.
Qed.

(** Replacing an extent by one with other flags. *)
Lemma look_same l1 l2 e e' b : same_es e e' -> look (l1 ++ e' :: l2) b = look (l1 ++ e :: l2) b.
Proof.
  intros Hs. rewrite !look_app. simpl. rewrite (same_es_val _ _ b Hs). destruct Hs as (El & En & _). unfold eend.
  by rewrite El, En.
Qed.

Lemma srt_same lo l1 l2 e e' : same_es e e' -> srt lo (l1 ++ e :: l2) -> srt lo (l1 ++ e' :: l2).
Proof.
  rewrite !srt_app. intros Hs (H1 & H2 & H3 & H4). pose proof (same_es_ok _ _ Hs H3). destruct Hs as (El & En & _).
  split; [done|]. split_and!; [lia|done|]. unfold eend in *. by rewrite El, En.
Qed.
