(* ===== verification/ExtentTreeFacts.v ===== *)
(** * mqfs: facts on the nodes of the extent status trees

    A ghost function [P] gives for every inode the nodes of its tree in order,
    with their extents.  [owns]: the memory and the counters are those of [P];
    [trees]: the trees are.  The two differ for a moment while a node is being
    linked or freed. *)

From S2P Require Import Prelude Rbtree ExtentStatus ExtentFacts.

Abbreviation node := (nat * extent_status)%type.
Abbreviation ghost := (nat -> list node).

Lemma ghost_upd (P : ghost) ino l j : (<[ino := l]> P) j = if decide (j = ino) then l else P j.
Proof. case_decide; [subst; by rewrite fn_lookup_insert|by rewrite fn_lookup_insert_ne]. Qed.

(** The nodes the shrinker may free. *)
Definition shk (l : list node) : nat := length (base.filter (fun x => ext4_es_is_delayed x.2 = false) l).

Lemma shk_app l1 l2 : shk (l1 ++ l2) = (shk l1 + shk l2)%nat.
Proof. unfold shk. by rewrite filter_app, length_app. Qed.

Lemma shk_cons x l : shk (x :: l) = ((if ext4_es_is_delayed x.2 then 0 else 1) + shk l)%nat.
Proof.
  unfold shk. rewrite filter_cons. destruct (ext4_es_is_delayed x.2); [by rewrite decide_False|by rewrite decide_True].
Qed.

Lemma shk_le l : (shk l <= length l)%nat.
Proof. unfold shk. apply length_filter. Qed.

Record owns (P : ghost) (s : esfs) : Prop := mk_owns {
  ow_mem n e : es_mem s !! n = Some e <-> exists ino, (n, e) ∈ P ino;
  ow_nodup ino : NoDup (P ino).*1;
  ow_disj i j n : n ∈ (P i).*1 -> n ∈ (P j).*1 -> i = j;
  ow_next n e : es_mem s !! n = Some e -> (n < next_es s)%nat;
  ow_len ino : Z.of_nat (length (P ino)) <= EXT_MAX_BLOCKS;
  ow_all ino : i_es_all_nr (es_inodes s ino) = Z.of_nat (length (P ino));
  ow_shk ino : i_es_shk_nr (es_inodes s ino) = Z.of_nat (shk (P ino));
  ow_list_nodup : NoDup (s_es_list s);
  ow_list ino : ino ∈ s_es_list s <-> shk (P ino) <> 0%nat;
  ow_nr : s_es_nr_inode s = Z.of_nat (length (s_es_list s));
  ow_all_cnt : es_stats_all_cnt s = Z.of_nat (size (es_mem s));
  ow_shk_cnt : es_stats_shk_cnt s = Z.of_nat (size (base.filter (fun x => ext4_es_is_delayed x.2 = false) (es_mem s)));
}.

Definition trees (T : ghost) (s : esfs) : Prop := forall ino, inorder (es_root (es_inodes s ino)) = (T ino).*1.

Definition rep (P : ghost) (s : esfs) : Prop := owns P s /\ trees P s.

(** Trees and caches are left alone, and memory that does not run out. *)
Definition frame (s s' : esfs) : Prop :=
  (forall i, es_root (es_inodes s' i) = es_root (es_inodes s i) /\ cache_es (es_inodes s' i) = cache_es (es_inodes s i)) /\
  (es_allocs s = [] -> es_allocs s' = []).

Lemma frame_refl s : frame s s.
Proof. done. Qed.

Lemma frame_trans s1 s2 s3 : frame s1 s2 -> frame s2 s3 -> frame s1 s3.
Proof.
  intros [H1 E1] [H2 E2]. split; [|auto]. intros i. destruct (H1 i) as [<- <-], (H2 i) as [<- <-]. done.
Qed.

Lemma frame_trees T s s' : frame s s' -> trees T s -> trees T s'.
Proof. intros [Hf _] Ht ino. destruct (Hf ino) as [-> _]. apply Ht. Qed.

Lemma owns_lookup P s ino n e : owns P s -> (n, e) ∈ P ino -> es_mem s !! n = Some e.
Proof. intros Ho Hin. apply (ow_mem _ _ Ho). by exists ino. Qed.

Lemma deref_ok P s ino n e : owns P s -> (n, e) ∈ P ino -> deref_es n s = Ret e s.
Proof. intros Ho Hin. unfold deref_es. by rewrite (owns_lookup _ _ _ _ _ Ho Hin). Qed.

Lemma runs_deref P s ino n e (Q : extent_status -> esfs -> Prop) :
  owns P s -> (n, e) ∈ P ino -> Q e s -> runs (deref_es n) s Q.
Proof. intros Ho Hin HQ. eapply runs_intro; [by eapply deref_ok|done]. Qed.

(** A node of one inode is not a node of another. *)
Lemma owns_other P s i j n e l1 l2 :
  owns P s -> P i = l1 ++ (n, e) :: l2 -> j <> i -> n ∉ (P j).*1.
Proof.
  intros Ho E Hij Hn. apply Hij. eapply (ow_disj _ _ Ho); [done|]. rewrite E, fmap_app. apply elem_of_app. right. left.
Qed.

Lemma owns_split P s i n e l1 l2 :
  owns P s -> P i = l1 ++ (n, e) :: l2 -> (n ∉ l1.*1) /\ (n ∉ l2.*1).
Proof.
  intros Ho E. pose proof (ow_nodup _ _ Ho i) as Hn. rewrite E, fmap_app in Hn. cbn in Hn.
  apply NoDup_app in Hn as (_ & H1 & [H2 _]%NoDup_cons). split; [|done]. intros Hin. apply (H1 _ Hin). left.
Qed.

Lemma elem_of_other (l1 l2 : list node) n e m f : m <> n -> (m, f) ∈ l1 ++ (n, e) :: l2 <-> (m, f) ∈ l1 ++ l2.
Proof.
  intros Hne. rewrite !elem_of_app, elem_of_cons. split; [|tauto]. intros [Hl|[Heq|Hr]]; [by left| |by right].
  by injection Heq as ? ?.
Qed.

(** ** Writing an extent *)
Lemma write_ok P s ino n e e' l1 l2 :
  owns P s -> P ino = l1 ++ (n, e) :: l2 -> ext4_es_is_delayed e' = ext4_es_is_delayed e ->
  runs (write_es n e') s (fun _ s' => owns (<[ino := l1 ++ (n, e') :: l2]> P) s' /\ frame s s' /\
    size (es_mem s') = size (es_mem s) /\ s_es_list s' = s_es_list s).
Proof.
  intros Ho E Hd. assert (Hin : (n, e) ∈ P ino) by (rewrite E; apply elem_of_app; right; left).
  pose proof (owns_lookup _ _ _ _ _ Ho Hin) as Hm. unfold runs, write_es. rewrite Hm.
  set (s' := s <| es_mem ::= _ |>). set (P' := <[ino := _]> P).
  assert (Hfst : forall j, (P' j).*1 = (P j).*1).
  { intros j. subst P'. rewrite ghost_upd. case_decide; [subst j|done]. by rewrite E, !fmap_app. }
  assert (Hlen : forall j, length (P' j) = length (P j)).
  { intros j. subst P'. rewrite ghost_upd. case_decide; [subst j|done]. by rewrite E, !length_app. }
  assert (Hshk : forall j, shk (P' j) = shk (P j)).
  { intros j. subst P'. rewrite ghost_upd. case_decide; [subst j|done]. rewrite E, !shk_app, !shk_cons. cbn [snd]. by rewrite Hd. }
  assert (Es : es_mem s' = <[n := e']> (es_mem s)) by (by destruct s).
  split_and!; [|by destruct s|rewrite Es; apply map_size_insert_Some; by rewrite Hm|by destruct s].
  destruct (owns_split _ _ _ _ _ _ _ Ho E) as [Hn1 Hn2]. destruct Ho as [H1 H2 H3 H4 H5 H6 H7 H8 H9 H10 H11 H12].
  split; rewrite ?Es; try (by destruct s).
  - intros m f. destruct (decide (m = n)) as [->|Hne].
    + rewrite lookup_insert_eq. split.
      * intros [= <-]. exists ino. subst P'. rewrite ghost_upd, decide_True by done. apply elem_of_app. right. left.
      * intros (j & Hj). f_equal. subst P'. rewrite ghost_upd in Hj. case_decide as Ej.
        -- apply elem_of_app in Hj as [Hj|[[= ->]|Hj]%elem_of_cons]; [|done|]; exfalso;
             [apply Hn1|apply Hn2]; apply list_elem_of_fmap; by exists (n, f).
        -- exfalso. apply Ej. apply (H3 j ino n); [apply list_elem_of_fmap; by exists (n, f)|].
           apply list_elem_of_fmap. by exists (n, e).
    + rewrite lookup_insert_ne by done. rewrite H1. apply exist_proper. intros j. subst P'. rewrite ghost_upd.
      case_decide; [subst j|done]. rewrite E. by rewrite ?(elem_of_other _ _ n) by done.
  - intros j. rewrite Hfst. apply H2.
  - intros i j m. rewrite !Hfst. apply H3.
  - intros m f. replace (next_es s') with (next_es s) by (by destruct s).
    destruct (decide (m = n)) as [->|Hne]; [intros _; by eapply H4|]. rewrite lookup_insert_ne by done. apply H4.
  - intros j. rewrite Hlen. apply H5.
  - intros j. rewrite Hlen, <- H6. by destruct s.
  - intros j. rewrite Hshk, <- H7. by destruct s.
  - intros j. rewrite Hshk, <- H9. by destruct s.
  - rewrite map_size_insert_Some by (by rewrite Hm). rewrite <- H11. by destruct s.
  - replace (es_stats_shk_cnt s') with (es_stats_shk_cnt s) by (by destruct s). rewrite H12. f_equal.
    destruct (ext4_es_is_delayed e') eqn:Ed.
    + rewrite map_filter_insert_False by (simpl; by rewrite Ed). f_equal.
      rewrite map_filter_delete, delete_id; [done|]. apply map_lookup_filter_None. right. intros f Hf.
      rewrite Hm in Hf. injection Hf as <-. simpl. by rewrite <- Hd.
    + rewrite map_filter_insert_True by done. symmetry. apply map_size_insert_Some. exists e.
      apply map_lookup_filter_Some. split; [done|]. simpl. by rewrite <- Hd.
Qed.

(** ** Counters *)

(** The effect of counting one node of [ino] up or down. *)
Record counted (d : Z) (del : bool) (ino : nat) (s s' : esfs) : Prop := mk_counted {
  ct_all j : i_es_all_nr (es_inodes s' j) = if decide (j = ino) then i_es_all_nr (es_inodes s j) + d else i_es_all_nr (es_inodes s j);
  ct_shk j : i_es_shk_nr (es_inodes s' j) = if decide (j = ino) then i_es_shk_nr (es_inodes s j) + (if del then 0 else d) else i_es_shk_nr (es_inodes s j);
  ct_all_cnt : es_stats_all_cnt s' = es_stats_all_cnt s + d;
  ct_shk_cnt : es_stats_shk_cnt s' = es_stats_shk_cnt s + (if del then 0 else d);
  ct_list_nodup : NoDup (s_es_list s');
  ct_list j : j ∈ s_es_list s' <-> i_es_shk_nr (es_inodes s' j) <> 0;
  ct_nr : s_es_nr_inode s' = Z.of_nat (length (s_es_list s'));
}.

Lemma shk_insert l1 l2 n e : shk (l1 ++ (n, e) :: l2) = (shk (l1 ++ l2) + if ext4_es_is_delayed e then 0 else 1)%nat.
Proof. rewrite !shk_app, shk_cons. cbn [snd]. destruct (ext4_es_is_delayed e); lia. Qed.

Lemma owns_insert P s s' ino n e l1 l2 :
  owns P s -> P ino = l1 ++ l2 -> Z.of_nat (length (P ino)) < EXT_MAX_BLOCKS -> n = next_es s ->
  es_mem s' = <[n := e]> (es_mem s) -> next_es s' = S n -> counted 1 (ext4_es_is_delayed e) ino s s' ->
  owns (<[ino := l1 ++ (n, e) :: l2]> P) s'.
Proof.
  intros [H1 H2 H3 H4 H5 H6 H7 H8 H9 H10 H11 H12] E Hlen -> Em En [C1 C2 C3 C4 C5 C6 C7]. set (n := next_es s) in *.
  assert (Hfresh : es_mem s !! n = None).
  { destruct (es_mem s !! n) as [f|] eqn:Ef; [|done]. specialize (H4 _ _ Ef). subst n. lia. }
  assert (Hnew : forall j, n ∉ (P j).*1).
  { intros j ([m f] & Ef & Hj)%list_elem_of_fmap. simpl in Ef. subst m.
    assert (es_mem s !! n = Some f) by (apply H1; by exists j). congruence. }
  set (P' := <[ino := _]> P). assert (Hs : forall j, shk (P' j) = (shk (P j) + if decide (j = ino) then if ext4_es_is_delayed e then 0 else 1 else 0)%nat).
  { intros j. subst P'. rewrite ghost_upd. case_decide; [subst j; by rewrite E, shk_insert|lia]. }
  assert (Hl : forall j, length (P' j) = (length (P j) + if decide (j = ino) then 1 else 0)%nat).
  { intros j. subst P'. rewrite ghost_upd. case_decide; [subst j; rewrite E, !length_app; simpl; lia|lia]. }
  split; rewrite ?Em, ?En.
  - intros m f. destruct (decide (m = n)) as [->|Hne].
    + rewrite lookup_insert_eq. split.
      * intros [= <-]. exists ino. subst P'. rewrite ghost_upd, decide_True by done. apply elem_of_app. right. left.
      * intros (j & Hj). f_equal. subst P'. rewrite ghost_upd in Hj. case_decide as Ej.
        -- specialize (Hnew ino). rewrite E, fmap_app in Hnew.
           apply elem_of_app in Hj as [Hj|[[= ->]|Hj]%elem_of_cons]; [|done|]; exfalso; apply Hnew, elem_of_app;
             [left|right]; apply list_elem_of_fmap; by exists (n, f).
        -- exfalso. apply (Hnew j). apply list_elem_of_fmap. by exists (n, f).
    + rewrite lookup_insert_ne by done. rewrite H1. apply exist_proper. intros j. subst P'. rewrite ghost_upd.
      case_decide; [subst j|done]. rewrite E. by rewrite ?(elem_of_other _ _ n) by done.
  - intros j. subst P'. rewrite ghost_upd. case_decide; [|done]. subst j. specialize (H2 ino). specialize (Hnew ino).
    rewrite E, fmap_app in H2, Hnew. rewrite fmap_app. cbn. rewrite <- Permutation_middle. by constructor.
  - intros i j m. subst P'. rewrite !ghost_upd.
    assert (Hi : forall k, m ∈ (if decide (k = ino) then l1 ++ (n, e) :: l2 else P k).*1 -> m = n /\ k = ino \/ m ∈ (P k).*1).
    { intros k. case_decide as Ek; [|by right]. subst k. rewrite E, !fmap_app. cbn. rewrite !elem_of_app, elem_of_cons. tauto. }
    intros [[-> ->]|Hmi]%Hi [[Emn Ej]|Hmj]%Hi; [done|by apply Hnew in Hmj|subst; by apply Hnew in Hmi|by eapply H3].
  - intros m f. destruct (decide (m = n)) as [->|Hne]; [intros _; lia|]. rewrite lookup_insert_ne by done. intros ?%H4. lia.
  - intros j. rewrite Hl. case_decide; [subst j; lia|]. specialize (H5 j). lia.
  - intros j. rewrite C1, Hl, H6. case_decide; lia.
  - intros j. rewrite C2, Hs, H7. case_decide; destruct (ext4_es_is_delayed e); lia.
  - done.
  - intros j. rewrite C6, C2, Hs, H7. case_decide; destruct (ext4_es_is_delayed e); lia.
  - done.
  - rewrite C3, H11, map_size_insert_None by done. lia.
  - rewrite C4, H12. destruct (ext4_es_is_delayed e) eqn:Ed.
    + rewrite map_filter_insert_False by (simpl; by rewrite Ed). rewrite delete_id by done. lia.
    + rewrite map_filter_insert_True by done. rewrite map_size_insert_None; [lia|].
      apply map_lookup_filter_None. by left.
Qed.

Lemma owns_delete P s s' ino n e l1 l2 :
  owns P s -> P ino = l1 ++ (n, e) :: l2 ->
  es_mem s' = base.delete n (es_mem s) -> next_es s' = next_es s -> counted (-1) (ext4_es_is_delayed e) ino s s' ->
  owns (<[ino := l1 ++ l2]> P) s'.
Proof.
  intros Ho E Em En [C1 C2 C3 C4 C5 C6 C7]. destruct (owns_split _ _ _ _ _ _ _ Ho E) as [Hn1 Hn2].
  assert (Hin : (n, e) ∈ P ino) by (rewrite E; apply elem_of_app; right; left).
  pose proof (owns_lookup _ _ _ _ _ Ho Hin) as Hm.
  pose proof (fun j => owns_other P s ino j n e l1 l2 Ho E) as Hother. destruct Ho as [H1 H2 H3 H4 H5 H6 H7 H8 H9 H10 H11 H12].
  set (P' := <[ino := _]> P). assert (Hs : forall j, (shk (P' j) + if decide (j = ino) then if ext4_es_is_delayed e then 0 else 1 else 0)%nat = shk (P j)).
  { intros j. subst P'. rewrite ghost_upd. case_decide; [subst j; by rewrite E, shk_insert|lia]. }
  assert (Hl : forall j, (length (P' j) + if decide (j = ino) then 1 else 0)%nat = length (P j)).
  { intros j. subst P'. rewrite ghost_upd. case_decide; [subst j; rewrite E, !length_app; simpl; lia|lia]. }
  assert (Hsub : forall k m, m ∈ (P' k).*1 -> m ∈ (P k).*1).
  { intros k m. subst P'. rewrite ghost_upd. case_decide as Ek; [|done]. subst k. rewrite E, !fmap_app. cbn.
    rewrite !elem_of_app, elem_of_cons. tauto. }
  split; rewrite ?Em, ?En.
  - intros m f. destruct (decide (m = n)) as [->|Hne].
    + rewrite lookup_delete_eq. split; [done|]. intros (j & Hj). exfalso.
      assert (Hj1 : n ∈ (P' j).*1) by (apply list_elem_of_fmap; by exists (n, f)). subst P'. rewrite ghost_upd in Hj1.
      case_decide; [|by eapply Hother]. rewrite fmap_app, elem_of_app in Hj1. tauto.
    + rewrite lookup_delete_ne by done. rewrite H1. apply exist_proper. intros j. subst P'. rewrite ghost_upd.
      case_decide; [subst j|done]. rewrite E. by rewrite ?(elem_of_other _ _ n) by done.
  - intros j. specialize (H2 j). subst P'. rewrite ghost_upd. case_decide; [|done]. subst j. rewrite E, fmap_app in H2. cbn in H2.
    rewrite <- Permutation_middle in H2. rewrite fmap_app. by apply NoDup_cons in H2 as [_ H2].
  - intros i j m Hi Hj. eapply H3; by apply Hsub.
  - intros m f. destruct (decide (m = n)) as [->|Hne]; [by rewrite lookup_delete_eq|]. rewrite lookup_delete_ne by done. apply H4.
  - intros j. specialize (H5 j). specialize (Hl j). lia.
  - intros j. rewrite C1, H6. specialize (Hl j). case_decide; lia.
  - intros j. rewrite C2, H7. specialize (Hs j). case_decide; destruct (ext4_es_is_delayed e); lia.
  - done.
  - intros j. rewrite C6, C2, H7. specialize (Hs j). case_decide; destruct (ext4_es_is_delayed e); lia.
  - done.
  - rewrite C3, H11, map_size_delete_Some by (by rewrite Hm).
    assert (size (es_mem s) <> 0%nat) by (intros Hz%map_size_empty_inv; rewrite Hz in Hm; done). lia.
  - rewrite C4, H12, map_filter_delete. destruct (ext4_es_is_delayed e) eqn:Ed.
    + rewrite delete_id; [lia|]. apply map_lookup_filter_None. right. intros f Hf. rewrite Hm in Hf. injection Hf as <-.
      simpl. by rewrite Ed.
    + assert (Hf : base.filter (fun x : nat * extent_status => ext4_es_is_delayed x.2 = false) (es_mem s) !! n = Some e)
        by (by apply map_lookup_filter_Some).
      rewrite map_size_delete_Some by (by rewrite Hf).
      assert (size (base.filter (fun x : nat * extent_status => ext4_es_is_delayed x.2 = false) (es_mem s)) <> 0%nat)
        by (intros Hz%map_size_empty_inv; rewrite Hz in Hf; done). lia.
Qed.

Lemma inode_upd ino f s j :
  es_inodes (upd_ei ino f s) j = if decide (j = ino) then f (es_inodes s ino) else es_inodes s j.
Proof. destruct s; simpl. case_decide; [subst; by rewrite fn_lookup_alter|by rewrite fn_lookup_alter_ne]. Qed.

Lemma owns_allocs P s l : owns P s -> owns P (s <| es_allocs := l |>).
Proof. intros [H1 H2 H3 H4 H5 H6 H7 H8 H9 H10 H11 H12]. destruct s; simpl in *. by split. Qed.

(** The list of inodes with nodes to reclaim. *)
Record listed (s : esfs) : Prop := mk_listed {
  ls_nodup : NoDup (s_es_list s);
  ls_list j : j ∈ s_es_list s <-> i_es_shk_nr (es_inodes s j) <> 0;
  ls_nr : s_es_nr_inode s = Z.of_nat (length (s_es_list s));
}.

Lemma owns_listed P s : owns P s -> listed s.
Proof.
  intros [H1 H2 H3 H4 H5 H6 H7 H8 H9 H10 H11 H12]. split; [done| |done]. intros j. rewrite H9, H7. lia.
Qed.

(** The counters of nodes to reclaim change by [d], the others do not. *)
Record shk_counted (d : Z) (ino : nat) (s s' : esfs) : Prop := mk_shk_counted {
  sc_frame : frame s s';
  sc_same : es_mem s' = es_mem s /\ next_es s' = next_es s /\ es_stats_all_cnt s' = es_stats_all_cnt s;
  sc_all j : i_es_all_nr (es_inodes s' j) = i_es_all_nr (es_inodes s j);
  sc_shk j : i_es_shk_nr (es_inodes s' j) = if decide (j = ino) then i_es_shk_nr (es_inodes s j) + d else i_es_shk_nr (es_inodes s j);
  sc_cnt : es_stats_shk_cnt s' = es_stats_shk_cnt s + d;
  sc_listed : listed s';
}.

Lemma shk_counted_0 ino s : listed s -> shk_counted 0 ino s s.
Proof. intros Hl. split; [done|done|done| |lia|done]. intros j. case_decide; lia. Qed.

(** [u]: how the list changes when the counter of [ino] does. *)
Lemma shk_count d ino s (u : M esfs unit) (l : list nat) :
  listed s -> 0 <= i_es_shk_nr (es_inodes s ino) + d <= EXT_MAX_BLOCKS ->
  NoDup l -> (forall j, j ∈ l <-> (if decide (j = ino) then i_es_shk_nr (es_inodes s ino) + d <> 0 else j ∈ s_es_list s)) ->
  (forall s1, s_es_list s1 = s_es_list s -> s_es_nr_inode s1 = s_es_nr_inode s ->
     i_es_shk_nr (es_inodes s1 ino) = i_es_shk_nr (es_inodes s ino) + d ->
     u s1 = Ret tt (s1 <| s_es_list := l |> <| s_es_nr_inode := Z.of_nat (length l) |>)) ->
  runs (u ;;; modify (fun s => s <| es_stats_shk_cnt ::= fun k => k + d |>))
    (upd_ei ino (fun i => i <| i_es_shk_nr ::= fun k => u32 (k + d) |>) s) (fun _ s' => shk_counted d ino s s').
Proof.
  intros [Hn Hl Hr] Hb Hnd Hin Hu. unfold EXT_MAX_BLOCKS in Hb.
  set (f := fun i => i <| i_es_shk_nr ::= fun k => u32 (k + d) |>).
  assert (Hf : es_root (f (es_inodes s ino)) = es_root (es_inodes s ino) /\ cache_es (f (es_inodes s ino)) = cache_es (es_inodes s ino) /\
    i_es_all_nr (f (es_inodes s ino)) = i_es_all_nr (es_inodes s ino) /\ i_es_shk_nr (f (es_inodes s ino)) = i_es_shk_nr (es_inodes s ino) + d).
  { subst f. destruct (es_inodes s ino); simpl in *. split_and!; [done..|]. apply wrap_small. change (2 ^ 32) with 4294967296. lia. }
  destruct Hf as (F1 & F2 & F3 & F4). pose proof (inode_upd ino f s) as Hi. fold f. rstep.
  eapply runs_intro; [apply Hu; [by destruct s|by destruct s|by rewrite Hi, decide_True]|]. apply runs_modify.
  set (s1 := upd_ei ino f s) in *. set (s' := update _ _). assert (E' : es_mem s' = es_mem s /\ next_es s' = next_es s /\ es_stats_all_cnt s' = es_stats_all_cnt s /\
    es_stats_shk_cnt s' = es_stats_shk_cnt s + d /\ s_es_list s' = l /\ s_es_nr_inode s' = Z.of_nat (length l) /\ es_allocs s' = es_allocs s /\
    es_inodes s' = es_inodes s1) by (by destruct s).
  destruct E' as (M1 & N1 & A1 & S1 & L1 & R1 & Al1 & I1). clearbody s' s1 f.
  assert (Hj : forall j, es_root (es_inodes s' j) = es_root (es_inodes s j) /\ cache_es (es_inodes s' j) = cache_es (es_inodes s j) /\
    i_es_all_nr (es_inodes s' j) = i_es_all_nr (es_inodes s j) /\
    i_es_shk_nr (es_inodes s' j) = if decide (j = ino) then i_es_shk_nr (es_inodes s j) + d else i_es_shk_nr (es_inodes s j)).
  { intros j. rewrite I1, Hi. case_decide; [by subst j|done]. }
  split; [split; [|congruence]|done| | |done|split; [by rewrite L1| |congruence]]; try (intros j; by destruct (Hj j) as (? & ? & ? & ?)).
  intros j. rewrite L1, Hin. destruct (Hj j) as (_ & _ & _ & ->). case_decide; [by subst j|apply Hl].
Qed.

Lemma shk_up ino s :
  listed s -> 0 <= i_es_shk_nr (es_inodes s ino) < EXT_MAX_BLOCKS ->
  runs (shk <-- gets (fun s => i_es_shk_nr (es_inodes s ino)) ;;
        modify (upd_ei ino (fun i => i <| i_es_shk_nr ::= fun k => u32 (k + 1) |>)) ;;;
        (if shk =? 0 then ext4_es_list_add ino else ret tt) ;;;
        modify (fun s => s <| es_stats_shk_cnt ::= fun k => k + 1 |>)) s (fun _ s' => shk_counted 1 ino s s').
Proof.
  intros Hls Hb. pose proof Hls as [Hn Hl Hr]. rstep. rstep. rstep. rstep.
  apply (shk_count 1 ino s _ (s_es_list s ++ if i_es_shk_nr (es_inodes s ino) =? 0 then [ino] else [])); [done|lia|..].
  - destruct (Z.eqb_spec (i_es_shk_nr (es_inodes s ino)) 0) as [E0|]; [|by rewrite app_nil_r].
    apply NoDup_app. split_and!; [done| |apply NoDup_singleton]. intros x Hx ->%list_elem_of_singleton. by apply Hl in Hx.
  - intros j. rewrite elem_of_app. destruct (Z.eqb_spec (i_es_shk_nr (es_inodes s ino)) 0) as [E0|E0].
    + rewrite list_elem_of_singleton. case_decide as Ej; [|tauto]. split; [lia|by right].
    + case_decide as Ej; [subst j|]; rewrite elem_of_nil; [rewrite Hl; lia|tauto].
  - intros s1 L1 R1 _. destruct (Z.eqb_spec (i_es_shk_nr (es_inodes s ino)) 0) as [E0|E0].
    + unfold ext4_es_list_add, modify. rewrite bool_decide_false by (rewrite L1, Hl; lia).
      f_equal. destruct s1; cbv [update]; simpl in *. subst. rewrite length_app. simpl. f_equal. lia.
    + unfold ret. f_equal. rewrite app_nil_r, <- Hr, <- L1, <- R1. by destruct s1.
Qed.

Lemma shk_down ino s :
  listed s -> 0 < i_es_shk_nr (es_inodes s ino) <= EXT_MAX_BLOCKS ->
  runs (shk <-- gets (fun s => i_es_shk_nr (es_inodes s ino)) ;;
        check (negb (shk =? 0)) BugOn ;;;
        modify (upd_ei ino (fun i => i <| i_es_shk_nr ::= fun k => u32 (k + -1) |>)) ;;;
        shk <-- gets (fun s => i_es_shk_nr (es_inodes s ino)) ;;
        (if shk =? 0 then ext4_es_list_del ino else ret tt) ;;;
        modify (fun s => s <| es_stats_shk_cnt ::= fun k => k + -1 |>)) s (fun _ s' => shk_counted (-1) ino s s').
Proof.
  intros Hls Hb. pose proof Hls as [Hn Hl Hr]. rstep. rstep. apply runs_bind, runs_check.
  { destruct (Z.eqb_spec (i_es_shk_nr (es_inodes s ino)) 0); [lia|done]. }
  rstep. rstep. apply runs_assoc.
  apply (shk_count (-1) ino s _ (if i_es_shk_nr (es_inodes s ino) + -1 =? 0 then base.filter (fun j => j <> ino) (s_es_list s) else s_es_list s));
    [done|lia|..].
  - destruct (_ =? 0); [by apply NoDup_filter|done].
  - intros j. destruct (Z.eqb_spec (i_es_shk_nr (es_inodes s ino) + -1) 0).
    + rewrite list_elem_of_filter. case_decide; tauto || (split; [tauto|lia]).
    + case_decide; [subst j|done]. rewrite Hl. lia.
  - intros s1 L1 R1 S1. rewrite bind_gets, S1. destruct (Z.eqb_spec (i_es_shk_nr (es_inodes s ino) + -1) 0) as [E0|E0].
    + assert (Hin : ino ∈ s_es_list s) by (rewrite Hl; lia). unfold ext4_es_list_del, modify. rewrite bool_decide_true by (by rewrite L1).
      assert (Hlen : length (base.filter (fun j => j <> ino) (s_es_list s)) = (length (s_es_list s) - 1)%nat).
      { apply list_elem_of_split in Hin as (k1 & k2 & Ek). rewrite Ek in *.
        apply NoDup_app in Hn as (_ & Hd & [Hn2 _]%NoDup_cons).
        assert (Hn1 : ino ∉ k1) by (intros Hin; apply (Hd _ Hin); left).
        rewrite filter_app, filter_cons_False by (by intros []). rewrite !filter_ne_notin by done. rewrite !length_app. simpl. lia. }
      assert (0 < length (s_es_list s))%nat by (destruct (s_es_list s); [by apply elem_of_nil in Hin|simpl; lia]).
      f_equal. destruct s1; cbv [update]; simpl in *. subst. f_equal. lia.
    + unfold ret. f_equal. rewrite <- Hr, <- L1, <- R1. by destruct s1.
Qed.

Lemma all_nr_upd (i : es_inode) (d : Z) :
  0 <= i_es_all_nr i + d <= EXT_MAX_BLOCKS ->
  let i' := i <| i_es_all_nr ::= fun k => u32 (k + d) |> in
  es_root i' = es_root i /\ cache_es i' = cache_es i /\ i_es_shk_nr i' = i_es_shk_nr i /\ i_es_all_nr i' = i_es_all_nr i + d.
Proof.
  unfold EXT_MAX_BLOCKS. intros Hb. destruct i; simpl in *. split_and!; [done..|]. apply wrap_small.
  change (2 ^ 32) with 4294967296. lia.
Qed.

Lemma alloc_ok P s ino lb ln pb l1 l2 :
  owns P s -> P ino = l1 ++ l2 -> Z.of_nat (length (P ino)) < EXT_MAX_BLOCKS ->
  runs (ext4_es_alloc_extent ino lb ln pb) s (fun o s' => frame s s' /\
    match o with
    | Some n => owns (<[ino := l1 ++ (n, mk_es lb ln pb) :: l2]> P) s'
    | None => owns P s' /\ es_mem s' = es_mem s /\ es_allocs s <> []
    end).
Proof.
  intros Ho E Hlen. unfold ext4_es_alloc_extent. apply runs_bind.
  apply (runs_conseq _ _ (fun ok s1 => owns P s1 /\ frame s s1 /\ es_mem s1 = es_mem s /\ (ok = false -> es_allocs s <> []))).
  { unfold kmem_cache_alloc, next_bool, runs. destruct (es_allocs s) as [|ok l] eqn:Ea.
    - split_and!; [done|by split|done|done].
    - split_and!; [by apply owns_allocs|split; [|by rewrite Ea]; by destruct s|by destruct s|done]. }
  intros ok s1 (Ho1 & Hf & Em & Hok). destruct ok; cbn [negb]; [|apply runs_ret; auto]. clear Em Hok.
  set (e := mk_es lb ln pb). rstep. rstep. cbv zeta. rstep. rstep. set (s2 := update _ (update _ s1)).
  assert (E2 : es_mem s2 = <[next_es s1 := e]> (es_mem s1) /\ next_es s2 = S (next_es s1) /\ es_inodes s2 = es_inodes s1 /\
    es_stats_all_cnt s2 = es_stats_all_cnt s1 /\ es_stats_shk_cnt s2 = es_stats_shk_cnt s1 /\ frame s1 s2 /\ listed s2).
  { pose proof (owns_listed _ _ Ho1) as [? ? ?]. split_and!; by destruct s1. }
  destruct E2 as (M2 & N2 & I2 & A2 & S2 & F2 & Ls2). clearbody s2.
  pose proof (ow_all _ _ Ho1 ino) as Hall. pose proof (ow_shk _ _ Ho1 ino) as Hshk. pose proof (shk_le (P ino)) as Hle.
  apply runs_bind. apply (runs_conseq _ _ (fun _ s3 => shk_counted (if ext4_es_is_delayed e then 0 else 1) ino s2 s3)).
  { destruct (ext4_es_is_delayed e); [by apply runs_ret, shk_counted_0|]. apply shk_up; [done|]. rewrite I2. lia. }
  intros [] s3 [F3 (M3 & N3 & A3) Al3 Sh3 C3 [Ln3 Ll3 Lr3]]. rstep. rstep. rstep. rstep. rstep.
  pose proof (inode_upd ino (fun i => i <| i_es_all_nr ::= fun k => u32 (k + 1) |>) s3) as Hi. set (s4 := upd_ei _ _ s3) in *.
  set (s5 := s4 <| es_stats_all_cnt ::= _ |>).
  assert (E5 : es_mem s5 = es_mem s3 /\ next_es s5 = next_es s3 /\ es_inodes s5 = es_inodes s4 /\ es_stats_all_cnt s5 = es_stats_all_cnt s3 + 1 /\
    es_stats_shk_cnt s5 = es_stats_shk_cnt s3 /\ s_es_list s5 = s_es_list s3 /\ s_es_nr_inode s5 = s_es_nr_inode s3 /\ es_allocs s5 = es_allocs s3)
    by (by destruct s3).
  destruct E5 as (M5 & N5 & I5 & A5 & S5 & L5 & R5 & Al5). clearbody s5 s4.
  assert (Hj : forall j, es_root (es_inodes s5 j) = es_root (es_inodes s3 j) /\ cache_es (es_inodes s5 j) = cache_es (es_inodes s3 j) /\
    i_es_shk_nr (es_inodes s5 j) = i_es_shk_nr (es_inodes s3 j) /\
    i_es_all_nr (es_inodes s5 j) = if decide (j = ino) then i_es_all_nr (es_inodes s3 j) + 1 else i_es_all_nr (es_inodes s3 j)).
  { intros j. rewrite I5, Hi. case_decide; [subst j|done]. assert (Hb : i_es_all_nr (es_inodes s3 ino) = i_es_all_nr (es_inodes s1 ino)) by (by rewrite Al3, I2).
    apply (all_nr_upd _ 1). lia. }
  split.
  - apply (frame_trans s s1); [done|]. apply (frame_trans s1 s2); [done|]. apply (frame_trans s2 s3); [done|].
    split; [|rewrite Al5; tauto]. intros j. by destruct (Hj j) as (K1 & K2 & _).
  - eapply (owns_insert P s1); [done|done|done|done|congruence|congruence|].
    split; [| |congruence|rewrite S5, C3, S2; by destruct (ext4_es_is_delayed e)|congruence| |congruence].
    + intros j. destruct (Hj j) as (_ & _ & _ & ->). by rewrite Al3, I2.
    + intros j. destruct (Hj j) as (_ & _ & -> & _). rewrite Sh3, I2. case_decide; [|done]. by destruct (ext4_es_is_delayed e).
    + intros j. destruct (Hj j) as (_ & _ & -> & _). by rewrite L5, Ll3.
Qed.

(** A freed node leaves the memory; the trees are those of [T]. *)
Lemma free_ok P s ino n e l1 l2 :
  owns P s -> P ino = l1 ++ (n, e) :: l2 ->
  runs (ext4_es_free_extent ino n) s (fun _ s' => owns (<[ino := l1 ++ l2]> P) s' /\ frame s s' /\
    S (size (es_mem s')) = size (es_mem s)).
Proof.
  intros Ho E. assert (Hin : (n, e) ∈ P ino) by (rewrite E; apply elem_of_app; right; left).
  pose proof (owns_lookup _ _ _ _ _ Ho Hin) as Hm.
  pose proof (ow_all _ _ Ho ino) as Hall. pose proof (ow_shk _ _ Ho ino) as Hshk. pose proof (ow_len _ _ Ho ino) as Hlen.
  assert (Hl1 : (0 < length (P ino))%nat) by (rewrite E, length_app; simpl; lia).
  pose proof (shk_le (P ino)) as Hsl.
  unfold ext4_es_free_extent. rstep. rstep. rstep. rstep.
  pose proof (inode_upd ino (fun i => i <| i_es_all_nr ::= fun k => u32 (k - 1) |>) s) as Hi. set (s1 := upd_ei _ _ s) in *.
  set (s2 := s1 <| es_stats_all_cnt ::= _ |>).
  assert (E2 : es_mem s2 = es_mem s /\ next_es s2 = next_es s /\ es_inodes s2 = es_inodes s1 /\ es_stats_all_cnt s2 = es_stats_all_cnt s - 1 /\
    es_stats_shk_cnt s2 = es_stats_shk_cnt s /\ s_es_list s2 = s_es_list s /\ s_es_nr_inode s2 = s_es_nr_inode s /\ es_allocs s2 = es_allocs s)
    by (by destruct s).
  destruct E2 as (M2 & N2 & I2 & A2 & S2 & L2 & R2 & Al2). clearbody s2 s1.
  assert (Hj : forall j, es_root (es_inodes s2 j) = es_root (es_inodes s j) /\ cache_es (es_inodes s2 j) = cache_es (es_inodes s j) /\
    i_es_shk_nr (es_inodes s2 j) = i_es_shk_nr (es_inodes s j) /\
    i_es_all_nr (es_inodes s2 j) = if decide (j = ino) then i_es_all_nr (es_inodes s j) + -1 else i_es_all_nr (es_inodes s j)).
  { intros j. rewrite I2, Hi. case_decide; [subst j|done]. apply (all_nr_upd _ (-1)). lia. }
  assert (Ls2 : listed s2).
  { pose proof (owns_listed _ _ Ho) as [K1 K2 K3]. split; [congruence| |congruence]. intros j.
    destruct (Hj j) as (_ & _ & -> & _). by rewrite L2. }
  apply runs_bind. eapply runs_intro; [unfold deref_es; rewrite M2, Hm; done|].
  apply runs_bind. apply (runs_conseq _ _ (fun _ s3 => shk_counted (if ext4_es_is_delayed e then 0 else -1) ino s2 s3)).
  { destruct (ext4_es_is_delayed e) eqn:Ed; [by apply runs_ret, shk_counted_0|]. apply shk_down; [done|].
    destruct (Hj ino) as (_ & _ & -> & _). rewrite Hshk. split; [|lia]. rewrite E, shk_insert, Ed. lia. }
  intros [] s3 [F3 (M3 & N3 & A3) Al3 Sh3 C3 [Ln3 Ll3 Lr3]]. rstep. set (s4 := s3 <| es_mem ::= _ |>).
  assert (E4 : es_mem s4 = base.delete n (es_mem s3) /\ next_es s4 = next_es s3 /\ es_inodes s4 = es_inodes s3 /\ es_stats_all_cnt s4 = es_stats_all_cnt s3 /\
    es_stats_shk_cnt s4 = es_stats_shk_cnt s3 /\ s_es_list s4 = s_es_list s3 /\ s_es_nr_inode s4 = s_es_nr_inode s3 /\ frame s3 s4)
    by (by destruct s3).
  destruct E4 as (M4 & N4 & I4 & A4 & S4 & L4 & R4 & F4). clearbody s4. split_and!.
  - eapply (owns_delete P s); [done|done|congruence|congruence|].
    split; [| |rewrite A4, A3, A2; lia|rewrite S4, C3, S2; by destruct (ext4_es_is_delayed e)|congruence| |congruence].
    + intros j. rewrite I4, Al3. by destruct (Hj j) as (_ & _ & _ & ->).
    + intros j. rewrite I4, Sh3. destruct (Hj j) as (_ & _ & -> & _). case_decide; [|done]. by destruct (ext4_es_is_delayed e).
    + intros j. rewrite I4, L4. apply Ll3.
  - apply (frame_trans s s2); [|by apply (frame_trans s2 s3)]. split; [|rewrite Al2; tauto]. intros j. by destruct (Hj j) as (K1 & K2 & _).
  - rewrite M4, M3, M2, map_size_delete_Some by (by rewrite Hm).
    assert (size (es_mem s) <> 0%nat) by (intros Hz%map_size_empty_inv; rewrite Hz in Hm; done). lia.
Qed.
