(* ===== verification/ExtentInsertFacts.v ===== *)
(** * mqfs: facts on walking and inserting into extent status trees *)

From S2P Require Import Prelude Rbtree ExtentStatus ExtentFacts ExtentTreeFacts.

Lemma owns_upd_ei P s ino f :
  (forall i, i_es_all_nr (f i) = i_es_all_nr i /\ i_es_shk_nr (f i) = i_es_shk_nr i) -> owns P s -> owns P (upd_ei ino f s).
Proof.
  intros Hf [H1 H2 H3 H4 H5 H6 H7 H8 H9 H10 H11 H12].
  assert (Hj : forall j, i_es_all_nr (es_inodes (upd_ei ino f s) j) = i_es_all_nr (es_inodes s j) /\
    i_es_shk_nr (es_inodes (upd_ei ino f s) j) = i_es_shk_nr (es_inodes s j)).
  { intros j. rewrite inode_upd. case_decide; [subst j; apply Hf|done]. }
  split; [by destruct s|done|done|by destruct s|done| | |by destruct s|by destruct s|by destruct s|by destruct s|by destruct s].
  - intros j. destruct (Hj j) as [-> _]. apply H6.
  - intros j. destruct (Hj j) as [_ ->]. apply H7.
Qed.

(** The caches are left alone, and memory that does not run out. *)
Definition cframe (s s' : esfs) : Prop :=
  (forall i, cache_es (es_inodes s' i) = cache_es (es_inodes s i)) /\ (es_allocs s = [] -> es_allocs s' = []).

Lemma cframe_refl s : cframe s s.
Proof. done. Qed.

Lemma cframe_trans s1 s2 s3 : cframe s1 s2 -> cframe s2 s3 -> cframe s1 s3.
Proof. intros [H1 E1] [H2 E2]. split; [|auto]. intros i. by rewrite H2. Qed.

Lemma frame_cframe s s' : frame s s' -> cframe s s'.
Proof. intros [Hf Ha]. split; [|done]. intros i. by destruct (Hf i). Qed.

#[export] Hint Resolve cframe_refl frame_cframe : ccnvme.

Lemma trees_upd (T : ghost) s ino f l :
  trees T s -> inorder (es_root (f (es_inodes s ino))) = l.*1 -> trees (<[ino := l]> T) (upd_ei ino f s).
Proof. intros Ht E j. rewrite inode_upd, ghost_upd. case_decide; [by subst|apply Ht]. Qed.

Lemma ghost_same (P : ghost) ino l : P ino = l -> forall j, (<[ino := l]> P) j = P j.
Proof. intros E j. rewrite ghost_upd. case_decide; [by subst|done]. Qed.

Lemma write_rep P s ino n e e' l1 l2 :
  rep P s -> P ino = l1 ++ (n, e) :: l2 -> ext4_es_is_delayed e' = ext4_es_is_delayed e ->
  runs (write_es n e') s (fun _ s' => rep (<[ino := l1 ++ (n, e') :: l2]> P) s' /\ cframe s s' /\ size (es_mem s') = size (es_mem s)).
Proof.
  intros [Ho Ht] E Hd. eapply runs_conseq; [by eapply write_ok|]. intros [] s' (Ho' & Hf & Hs & _). split_and!; [split; [done|]|auto with ccnvme|done].
  intros j. pose proof (frame_trees _ _ _ Hf Ht j) as Hj. rewrite Hj, ghost_upd. case_decide; [subst j|done]. by rewrite E, !fmap_app.
Qed.

Lemma node_split l1 n l2 (l : list node) :
  l1 ++ n :: l2 = l.*1 -> exists ll e lr, l = ll ++ (n, e) :: lr /\ l1 = ll.*1 /\ l2 = lr.*1.
Proof.
  intros E. symmetry in E. apply fmap_app_inv in E as (ll & lr & -> & E & ->). destruct lr as [|[m e] lr]; [done|].
  injection E as -> ->. by exists ll, e, lr.
Qed.

Section tree.
Context `{RbLaws}.

Lemma rep_tree P s ino : rep P s -> NoDup (inorder (es_root (es_inodes s ino))).
Proof. intros [Ho Ht]. rewrite Ht. apply (ow_nodup _ _ Ho). Qed.

Lemma erase_free_ok P s ino n e l1 l2 :
  rep P s -> P ino = l1 ++ (n, e) :: l2 ->
  runs (erase_es ino n ;;; ext4_es_free_extent ino n) s (fun _ s' =>
    rep (<[ino := l1 ++ l2]> P) s' /\ cframe s s' /\ S (size (es_mem s')) = size (es_mem s)).
Proof.
  intros Hr E. pose proof Hr as [Ho Ht]. rstep. unfold erase_es. rstep. set (s1 := upd_ei _ _ s).
  assert (Ho1 : owns P s1) by (apply owns_upd_ei; [by intros []|done]).
  assert (Ht1 : trees (<[ino := l1 ++ l2]> P) s1).
  { apply trees_upd; [done|]. pose proof (rep_tree _ _ ino Hr) as Hnd. rewrite fmap_app.
    assert (Ei : inorder (es_root (es_inodes s ino)) = l1.*1 ++ n :: l2.*1) by (rewrite Ht, E, fmap_app; done).
    destruct (es_inodes s ino); simpl in *. by apply rb_erase_law. }
  assert (Hc1 : cframe s s1 /\ es_mem s1 = es_mem s).
  { split; [|by destruct s]. split; [|by destruct s]. intros j. unfold s1. rewrite inode_upd. case_decide; [subst j; by destruct (es_inodes s ino)|done]. }
  destruct Hc1 as [Hc1 Hm1]. clearbody s1. eapply runs_conseq; [by eapply free_ok|]. intros [] s' (Ho' & Hf & Hs).
  split_and!; [split; [done|]|apply (cframe_trans s s1); auto with ccnvme|by rewrite <- Hm1]. by eapply frame_trees.
Qed.

Lemma next_ok P s ino n e l1 l2 :
  rep P s -> P ino = l1 ++ (n, e) :: l2 -> rb_next (es_root (es_inodes s ino)) n = head l2.*1.
Proof.
  intros Hr E. apply (rb_next_law _ _ l1.*1); [by eapply rep_tree|]. destruct Hr as [_ Ht]. by rewrite Ht, E, fmap_app.
Qed.

Lemma prev_ok P s ino n e l1 l2 :
  rep P s -> P ino = l1 ++ (n, e) :: l2 -> rb_prev (es_root (es_inodes s ino)) n = last l1.*1.
Proof.
  intros Hr E. apply (rb_prev_law _ _ _ l2.*1); [by eapply rep_tree|]. destruct Hr as [_ Ht]. by rewrite Ht, E, fmap_app.
Qed.

(** ** Searching *)

Lemma es_end_ok e s (Q : Z -> esfs -> Prop) : es_ok e -> Q (eend e - 1) s -> runs (ext4_es_end e) s Q.
Proof.
  intros [H1 H2 H3 _ _] HQ. unfold ext4_es_end, eend, EXT_MAX_BLOCKS in *. apply runs_bind, runs_check.
  - rewrite wrap_small by (change (2 ^ 32) with 4294967296; lia). apply Z.leb_le. lia.
  - apply runs_ret. rewrite wrap_small by (change (2 ^ 32) with 4294967296; lia). done.
Qed.

(** The part [l] of a list, split by a block. *)
Definition ended (lblk : Z) (l : list node) : Prop := Forall (fun x => eend x.2 <= lblk) l.
Definition later (lblk : Z) (l : list node) : Prop := Forall (fun x => lblk <= es_lblk x.2) l.

Lemma srt_split lo (l1 l2 : list node) n e :
  srt lo (l1 ++ (n, e) :: l2).*2 ->
  srt lo l1.*2 /\ es_ok e /\ ended (es_lblk e) l1 /\ later (eend e) l2 /\ srt (eend e) l2.*2.
Proof.
  rewrite fmap_app. cbn. intros (H1 & H2 & H3 & H4)%srt_app. split_and!; [done|done| | |done].
  - apply Forall_forall. intros x Hx. pose proof (srt_ends lo l1.*2 x.2 H1 ltac:(apply list_elem_of_fmap; by exists x)). lia.
  - apply Forall_forall. intros x Hx. pose proof (srt_Forall _ _ H4) as Hf. rewrite Forall_forall in Hf.
    apply Hf. apply list_elem_of_fmap. by exists x.
Qed.

Lemma ended_weaken a b l : a <= b -> ended a l -> ended b l.
Proof. intros Hab Hl. eapply Forall_impl; [done|]. intros x. cbn. lia. Qed.

Lemma later_weaken a b l : a <= b -> later b l -> later a l.
Proof. intros Hab Hl. eapply Forall_impl; [done|]. intros x. cbn. lia. Qed.

(** The last node visited by a walk that found nothing is a neighbour of the
    place where the block would be. *)
Definition neighbour (es0 es : option nat) (l1 l2 : list node) : Prop :=
  l1 = [] /\ l2 = [] /\ es = es0 \/ (exists n e k, l1 = k ++ [(n, e)] /\ es = Some n) \/ (exists n e k, l2 = (n, e) :: k /\ es = Some n).

Lemma search_walk_ok P s ino t (l : list node) lo lblk es0 :
  owns P s -> (forall x, x ∈ l -> x ∈ P ino) -> inorder t = l.*1 -> srt lo l.*2 ->
  runs (search_walk t lblk es0) s (fun r s' => s' = s /\
    if r.1 then exists n e l1 l2, r.2 = Some n /\ l = l1 ++ (n, e) :: l2 /\ es_lblk e <= lblk < eend e
    else exists l1 l2, l = l1 ++ l2 /\ ended lblk l1 /\ later (lblk + 1) l2 /\ neighbour es0 r.2 l1 l2).
Proof.
  intros Ho. revert l lo es0. induction t as [|tl IHl n tr IHr]; intros l lo es0 Hin Ei Hs; cbn [search_walk inorder] in *.
  - destruct l; [|done]. apply runs_ret. split; [done|]. exists [], []. split_and!; [done|constructor|constructor|by left].
  - destruct (node_split _ _ _ _ Ei) as (ll & e & lr & -> & El & Er). destruct (srt_split _ _ _ _ _ Hs) as (S1 & Oe & E1 & L2 & S2).
    apply runs_bind. eapply (runs_deref P); [done|apply Hin, elem_of_app; right; left|]. destruct (Z.ltb_spec lblk (es_lblk e)).
    + eapply runs_conseq; [apply (IHl ll lo (Some n)); [|done|done]|].
      { intros x Hx. apply Hin, elem_of_app. by left. }
      intros [[] es] s' [-> Hr]; (split; [done|]); cbn in *.
      * destruct Hr as (m & f & k1 & k2 & ? & -> & ?). exists m, f, k1, (k2 ++ (n, e) :: lr). by rewrite <- app_assoc.
      * destruct Hr as (k1 & k2 & -> & Hk1 & Hk2 & Hnb). exists k1, (k2 ++ (n, e) :: lr). rewrite <- app_assoc.
        split_and!; [done|done| |].
        -- apply Forall_app. split; [done|]. constructor; [cbn; lia|]. eapply later_weaken; [|done]. destruct Oe. unfold eend. lia.
        -- destruct Hnb as [(-> & -> & ->)|[?|(m & f & k & -> & ->)]]; [right; right; by exists n, e, lr|by right; left|].
           right; right. by exists m, f, (k ++ (n, e) :: lr).
    + apply runs_bind, es_end_ok; [done|]. destruct (Z.ltb_spec (eend e - 1) lblk).
      * eapply runs_conseq; [apply (IHr lr (eend e) (Some n)); [|done|done]|].
        { intros x Hx. apply Hin, elem_of_app. right. by right. }
        intros [[] es] s' [-> Hr]; (split; [done|]); cbn in *.
        -- destruct Hr as (m & f & k1 & k2 & ? & -> & ?). exists m, f, (ll ++ (n, e) :: k1), k2. by rewrite <- app_assoc.
        -- destruct Hr as (k1 & k2 & -> & Hk1 & Hk2 & Hnb). exists (ll ++ (n, e) :: k1), k2. rewrite <- app_assoc.
           split_and!; [done| |done|].
           ++ apply Forall_app. split; [eapply ended_weaken; [|done]; lia|]. constructor; [cbn; lia|done].
           ++ destruct Hnb as [(-> & -> & ->)|[(m & f & k & -> & ->)|?]]; [right; left; by exists n, e, ll| |by right; right].
              right; left. exists m, f, (ll ++ (n, e) :: k). by rewrite <- app_assoc.
      * apply runs_ret. split; [done|]. cbn. exists n, e, ll, lr. split_and!; [done|done|done|lia].
Qed.

(** The first extent that does not end before the block. *)
Lemma tree_search_ok P s ino lblk :
  rep P s -> srt 0 (P ino).*2 ->
  runs (__es_tree_search (es_root (es_inodes s ino)) lblk) s (fun o s' => s' = s /\
    exists l1 l2, P ino = l1 ++ l2 /\ ended lblk l1 /\ o = head l2.*1 /\
      forall x, head l2 = Some x -> lblk < eend x.2).
Proof.
  intros Hr Hs. pose proof Hr as [Ho Ht]. unfold __es_tree_search. apply runs_bind.
  eapply runs_conseq; [by apply (search_walk_ok P s ino _ (P ino) 0)|]. intros [[] es] s' [-> Hw]; cbn [fst snd] in Hw.
  - destruct Hw as (n & e & l1 & l2 & -> & E & Hb). apply runs_ret. split; [done|]. exists l1, ((n, e) :: l2).
    rewrite E in Hs. destruct (srt_split _ _ _ _ _ Hs) as (_ & _ & E1 & _). split_and!; [done|eapply ended_weaken; [|done]; lia|done|].
    intros x [= <-]. cbn. lia.
  - destruct Hw as (l1 & l2 & E & H1 & H2 & Hnb). destruct Hnb as [(-> & -> & ->)|[(n & e & k & -> & ->)|(n & e & k & -> & ->)]].
    + apply runs_ret. split; [done|]. by exists [], [].
    + rewrite <- app_assoc in E. cbn in E. apply Forall_app in H1 as [H1 [Hn _]%Forall_cons]. cbn in Hn.
      rewrite E in Hs. destruct (srt_split _ _ _ _ _ Hs) as (_ & Oe & _ & L2 & S2).
      assert (Hlt : es_lblk e < eend e) by (destruct Oe; unfold eend; lia).
      rstep. eapply (runs_deref P); [done|rewrite E; apply elem_of_app; right; left|].
      destruct (Z.ltb_spec lblk (es_lblk e)); [lia|]. apply runs_bind, es_end_ok; [done|].
      destruct (Z.ltb_spec (eend e - 1) lblk); [|lia]. apply runs_ret. split; [done|]. exists (k ++ [(n, e)]), l2.
      rewrite (next_ok P s ino n e k l2 Hr E). split_and!; [by rewrite <- app_assoc|by apply Forall_app; split; [|constructor]|done|].
      intros x Hx. destruct l2 as [|y l2]; [done|]. injection Hx as <-. apply Forall_cons in H2 as [Hy _].
      destruct S2 as (_ & Oy & _). destruct Oy. unfold eend. lia.
    + rewrite E in Hs. destruct (srt_split _ _ _ _ _ Hs) as (_ & Oe & _ & _ & _). apply Forall_cons in H2 as [Hn _]. cbn in Hn.
      rstep. eapply (runs_deref P); [done|rewrite E; apply elem_of_app; right; left|].
      destruct (Z.ltb_spec lblk (es_lblk e)); [|lia]. apply runs_ret. split; [done|]. exists l1, ((n, e) :: k).
      split_and!; [done|done|done|]. intros x [= <-]. cbn. destruct Oe. unfold eend. lia.
Qed.

(** ** Inserting *)

(** Where the nodes in front of and behind a free range are in a subtree. *)
Lemma split_at (l1 l2 ll lr : list node) x b c :
  l1 ++ l2 = ll ++ x :: lr -> b < c -> ended b l1 -> later c l2 -> es_lblk x.2 < eend x.2 ->
  (b < es_lblk x.2 -> exists k, ll = l1 ++ k /\ l2 = k ++ x :: lr) /\
  (es_lblk x.2 <= b -> exists k, l1 = ll ++ x :: k /\ lr = k ++ l2).
Proof.
  intros E Hbc H1 H2 Hx. unfold ended, later in *. rewrite Forall_forall in H1, H2. apply app_eq_app in E as (k & [[-> Ek]|[-> ->]]).
  - destruct k as [|y k]; cbn in Ek.
    + subst l2. split; [intros _; exists []; by rewrite !app_nil_r|]. intros Hle. specialize (H2 x ltac:(left)). cbn in H2. lia.
    + injection Ek as <- ->. split; [|intros _; by exists k]. intros Hlt.
      specialize (H1 x ltac:(apply elem_of_app; right; left)). cbn in H1. lia.
  - split; [intros _; by exists k|]. intros Hle. specialize (H2 x ltac:(apply elem_of_app; right; left)). cbn in H2. lia.
Qed.

Lemma insert_walk_ok P s ino t (l1 l2 : list node) lo newes :
  owns P s -> (forall x, x ∈ l1 ++ l2 -> x ∈ P ino) -> inorder t = (l1 ++ l2).*1 -> srt lo (l1 ++ l2).*2 ->
  es_ok newes -> ended (es_lblk newes) l1 -> later (eend newes) l2 ->
  runs (insert_walk t newes) s (fun p s' => s' = s /\
    match p with
    | Before n => exists e k, l2 = (n, e) :: k /\ ext4_es_can_be_merged newes e = true
    | After n => exists e k, l1 = k ++ [(n, e)] /\ ext4_es_can_be_merged e newes = true
    | Slot q => forall x, inorder (rb_link_node q x t) = l1.*1 ++ x :: l2.*1
    end).
Proof.
  intros Ho Hin Ei Hs Hok. assert (Hlt : es_lblk newes < eend newes) by (destruct Hok; unfold eend; lia). revert l1 l2 lo Hin Ei Hs.
  induction t as [|tl IHl n tr IHr]; intros l1 l2 lo Hin Ei Hs H1 H2; cbn [insert_walk inorder] in *.
  { apply runs_ret. split; [done|]. intros x. destruct l1, l2; done. }
  destruct (node_split _ _ _ _ Ei) as (ll & e & lr & E & El & Er). rewrite E in Hs, Hin.
  destruct (srt_split _ _ _ _ _ Hs) as (S1 & Oe & E1 & L2 & S2). assert (Hlte : es_lblk e < eend e) by (destruct Oe; unfold eend; lia).
  destruct (split_at _ _ _ _ _ _ _ E Hlt H1 H2 Hlte) as [Hleft Hright]. cbn in Hleft, Hright.
  apply runs_bind. eapply (runs_deref P); [done|apply Hin, elem_of_app; right; left|]. destruct (Z.ltb_spec (es_lblk newes) (es_lblk e)) as [Hc|Hc].
  - destruct (Hleft Hc) as (k & -> & ->). destruct (ext4_es_can_be_merged newes e) eqn:Em.
    + apply runs_ret. split; [done|]. destruct k as [|y k]; [by exists e, lr|]. exfalso.
      destruct (can_be_merged_inv _ _ Hok Oe Em) as (_ & Ea & _). apply Forall_app in E1 as [_ [Hy _]%Forall_cons].
      apply Forall_cons in H2 as [Hy2 _]. rewrite fmap_app in S1. apply srt_app in S1 as (_ & _ & Oy & _). destruct Oy. unfold eend in *. lia.
    + apply runs_bind. eapply runs_conseq; [apply (IHl l1 k lo); [|done|done|done|]|].
      { intros x Hx. apply Hin, elem_of_app. by left. } { by apply Forall_app in H2 as [? _]. }
      intros p s' [-> Hp]. apply runs_ret. split; [done|]. destruct p as [m|m|q]; cbn [below].
      * destruct Hp as (f & k' & -> & Hm). by exists f, (k' ++ (n, e) :: lr).
      * done.
      * intros x. cbn. rewrite Hp, fmap_app, <- app_assoc. cbn. by rewrite Er.
  - destruct (Hright Hc) as (k & -> & ->). apply runs_bind, es_end_ok; [done|].
    apply Forall_app in H1 as [H1l [H1e H1k]%Forall_cons]. cbn in H1e. destruct (Z.ltb_spec (eend e - 1) (es_lblk newes)); [|lia].
    destruct (ext4_es_can_be_merged e newes) eqn:Em.
    + apply runs_ret. split; [done|]. destruct k as [|y k _] using rev_ind; [by exists e, ll|]. exfalso.
      destruct (can_be_merged_inv _ _ Oe Hok Em) as (_ & Ea & _). apply Forall_app in H1k as [_ [Hy _]%Forall_cons].
      assert (Hy2 : y ∈ (k ++ [y]) ++ l2) by (apply elem_of_app; left; apply elem_of_app; right; left).
      unfold later in L2. rewrite Forall_forall in L2. specialize (L2 y Hy2). cbn in L2, Hy.
      pose proof (srt_Forall _ _ S2) as Hf. rewrite Forall_forall in Hf. destruct (Hf y.2) as [_ Oy]; [apply list_elem_of_fmap; by exists y|].
      destruct Oy. unfold eend in *. lia.
    + apply runs_bind. eapply runs_conseq; [apply (IHr k l2 (eend e)); [|done|done|done|done]|].
      { intros x Hx. apply Hin, elem_of_app. right. by right. }
      intros p s' [-> Hp]. apply runs_ret. split; [done|]. destruct p as [m|m|q]; cbn [below].
      * done.
      * destruct Hp as (f & k' & -> & Hm). exists f, (ll ++ (n, e) :: k'). by rewrite <- app_assoc.
      * intros x. cbn. rewrite Hp, fmap_app, <- app_assoc. cbn. by rewrite El.
Qed.

(** The tree of [ino] now says what the list [l] says, and [Q] holds of its
    nodes; the other trees are as before. *)
Definition edited (ino : nat) (P : ghost) (l : list extent_status) (Q : ghost -> Prop) (s' : esfs) : Prop :=
  exists P', rep P' s' /\ (forall j, j <> ino -> P' j = P j) /\ srt 0 (P' ino).*2 /\
    (forall b, look (P' ino).*2 b = look l b) /\ Q P'.

Lemma edited_intro ino P L l (Q : ghost -> Prop) s' :
  rep (<[ino := L]> P) s' -> srt 0 L.*2 -> (forall b, look L.*2 b = look l b) -> Q (<[ino := L]> P) -> edited ino P l Q s'.
Proof.
  intros Hr Hs Hl HQ. exists (<[ino := L]> P). split_and!; [done| | | |done].
  - intros j Hj. by rewrite ghost_upd, decide_False.
  - by rewrite ghost_upd, decide_True.
  - by rewrite ghost_upd, decide_True.
Qed.

Lemma edited_trans ino P P1 l l' (Q : ghost -> Prop) s' :
  (forall j, j <> ino -> P1 j = P j) -> edited ino P1 l Q s' -> (forall b, look l b = look l' b) -> edited ino P l' Q s'.
Proof.
  intros H1 (P' & Hr & Ho & Hs & Hl & HQ) Hll. exists P'. split_and!; [done| |done| |done].
  - intros j Hj. by rewrite Ho, H1.
  - intros b. by rewrite Hl.
Qed.

Lemma ghost_idem (P : ghost) ino l l' j : (<[ino := l]> (<[ino := l']> P)) j = (<[ino := l]> P) j.
Proof. rewrite !ghost_upd. by case_decide. Qed.

Lemma rep_ext P P' s : (forall j, P j = P' j) -> rep P s -> rep P' s.
Proof.
  intros E [[H1 H2 H3 H4 H5 H6 H7 H8 H9 H10 H11 H12] Ht]. split; [split|]; try done.
  - intros n e. rewrite H1. apply exist_proper. intros j. by rewrite E.
  - intros j. rewrite <- E. apply H2.
  - intros i j n. rewrite <- !E. apply H3.
  - intros j. rewrite <- E. apply H5.
  - intros j. rewrite <- E. apply H6.
  - intros j. rewrite <- E. apply H7.
  - intros j. rewrite <- E. apply H9.
  - intros j. rewrite <- E. apply Ht.
Qed.

Lemma edited_self ino P (Q : ghost -> Prop) s : rep P s -> srt 0 (P ino).*2 -> Q P -> edited ino P (P ino).*2 Q s.
Proof. intros Hr Hs HQ. by exists P. Qed.

(** The node [n] takes over its right neighbour. *)
Lemma merge_ok P s ino n m e1 e2 f l1 l2 (Q : nat -> esfs -> Prop) :
  rep P s -> P ino = l1 ++ (n, e1) :: (m, e2) :: l2 -> srt 0 (P ino).*2 -> joined e1 e2 f ->
  (forall s', edited ino P (P ino).*2 (fun P' => n ∈ (P' ino).*1) s' -> cframe s s' -> Q n s') ->
  runs (write_es n f ;;; erase_es ino m ;;; ext4_es_free_extent ino m ;;; ret n) s Q.
Proof.
  intros Hr E Hs Hj HQ. assert (Hs' := Hs). rewrite E, fmap_app in Hs'. cbn in Hs'.
  assert (Hok : es_ok e1 /\ es_ok e2) by (apply srt_app in Hs' as (_ & _ & ? & _ & ? & _); done). destruct Hok as [Ok1 Ok2].
  apply runs_bind. eapply runs_conseq; [eapply (write_rep P s ino n e1 f l1); [done|done|]|].
  { by destruct (flags_of_type _ _ (jn_type1 _ _ _ Hj)) as (_ & -> & _). }
  intros [] s1 (Hr1 & Hc1 & _). apply runs_assoc, runs_bind.
  eapply runs_conseq; [eapply (erase_free_ok _ s1 ino m e2 (l1 ++ [(n, f)]) l2); [done|]|].
  { rewrite ghost_upd, decide_True by done. by rewrite <- app_assoc. }
  intros [] s2 (Hr2 & Hc2 & _). apply runs_ret. rewrite <- app_assoc in Hr2. apply HQ; [|by eapply cframe_trans].
  eapply edited_intro; [eapply rep_ext; [|done]; intros j; apply ghost_idem|..].
  - rewrite fmap_app. by eapply srt_joined.
  - intros b. rewrite E, !fmap_app. by apply look_joined.
  - rewrite ghost_upd, decide_True, fmap_app by done. apply elem_of_app. right. left.
Qed.

Lemma merge_left_ok P s ino n e l1 l2 :
  rep P s -> P ino = l1 ++ (n, e) :: l2 -> srt 0 (P ino).*2 ->
  runs (ext4_es_try_to_merge_left ino n) s (fun m s' =>
    edited ino P (P ino).*2 (fun P' => m ∈ (P' ino).*1) s' /\ cframe s s').
Proof.
  intros Hr E Hs. unfold ext4_es_try_to_merge_left, get_root. rstep. rstep. rewrite (prev_ok P s ino n e l1 l2 Hr E).
  assert (Hself : edited ino P (P ino).*2 (fun P' => n ∈ (P' ino).*1) s).
  { apply edited_self; [done|done|]. rewrite E, fmap_app. apply elem_of_app. right. left. }
  destruct l1 as [|[m e1] k _] using rev_ind; [by apply runs_ret|]. rewrite fmap_app. cbn [fmap list_fmap fst]. rewrite last_snoc. rewrite <- app_assoc in E. cbn in E.
  destruct Hr as [Ho Ht]. rstep. eapply (runs_deref P); [done|rewrite E; apply elem_of_app; right; left|].
  rstep. eapply (runs_deref P); [done|rewrite E; apply elem_of_app; right; right; left|].
  destruct (ext4_es_can_be_merged e1 e) eqn:Em; [|by apply runs_ret]. assert (Hs' := Hs). rewrite E, fmap_app in Hs'.
  apply srt_app in Hs' as (_ & _ & Ok1 & _ & Ok2 & _). eapply (merge_ok P s ino m n e1 e _ k l2); [done|done|done| |by intros].
  by apply absorb_joined.
Qed.

Lemma merge_right_ok P s ino n e l1 l2 :
  rep P s -> P ino = l1 ++ (n, e) :: l2 -> srt 0 (P ino).*2 ->
  runs (ext4_es_try_to_merge_right ino n) s (fun m s' =>
    edited ino P (P ino).*2 (fun P' => m ∈ (P' ino).*1) s' /\ cframe s s').
Proof.
  intros Hr E Hs. unfold ext4_es_try_to_merge_right, get_root. rstep. rstep. rewrite (next_ok P s ino n e l1 l2 Hr E).
  assert (Hself : edited ino P (P ino).*2 (fun P' => n ∈ (P' ino).*1) s).
  { apply edited_self; [done|done|]. rewrite E, fmap_app. apply elem_of_app. right. left. }
  destruct l2 as [|[m e1] k]; [by apply runs_ret|]. cbn [fmap list_fmap head fst].
  destruct Hr as [Ho Ht]. rstep. eapply (runs_deref P); [done|rewrite E; apply elem_of_app; right; left|].
  rstep. eapply (runs_deref P); [done|rewrite E; apply elem_of_app; right; right; left|].
  destruct (ext4_es_can_be_merged e e1) eqn:Em; [|by apply runs_ret]. assert (Hs' := Hs). rewrite E, fmap_app in Hs'.
  apply srt_app in Hs' as (_ & _ & Ok1 & _ & Ok2 & _). eapply (merge_ok P s ino n m e e1 _ l1 k); [done|done|done| |by intros].
  by apply absorb_joined.
Qed.

Definition oframe (ino : nat) (s s' : esfs) : Prop :=
  (forall j, j <> ino -> cache_es (es_inodes s' j) = cache_es (es_inodes s j)) /\ (es_allocs s = [] -> es_allocs s' = []).

Lemma rep_set_cache P s ino c : rep P s ->
  let s' := upd_ei ino (fun i => i <| cache_es := c |>) s in rep P s' /\ oframe ino s s' /\ cache_es (es_inodes s' ino) = c /\ es_mem s' = es_mem s.
Proof.
  intros [Ho Ht] s'. split_and!; [split| | |by destruct s].
  - apply owns_upd_ei; [by intros []|done].
  - intros j. subst s'. rewrite inode_upd. case_decide; [subst j|apply Ht]. rewrite <- Ht. by destruct (es_inodes s ino).
  - split; [|by destruct s]. intros j Hj. subst s'. by rewrite inode_upd, decide_False.
  - subst s'. rewrite inode_upd, decide_True by done. by destruct (es_inodes s ino).
Qed.

Definition cached_in (ino : nat) (s : esfs) (P : ghost) : Prop :=
  exists n, cache_es (es_inodes s ino) = Some n /\ n ∈ (P ino).*1.

(** The end of a successful insertion. *)
Lemma cache_ok P l ino n s0 s :
  edited ino P l (fun P' => n ∈ (P' ino).*1) s -> cframe s0 s ->
  runs (set_cache ino (Some n) ;;; ret 0) s (fun r s' => r = 0 /\ edited ino P l (cached_in ino s') s' /\ oframe ino s0 s').
Proof.
  intros (P' & Hr & Ho & Hs & Hl & Hn) [Hc Ha]. unfold set_cache. rstep. rstep. apply runs_ret.
  destruct (rep_set_cache P' s ino (Some n) Hr) as (Hr' & [Hc' Ha'] & Hc'' & _). set (s' := upd_ei _ _ s) in *.
  split_and!; [done|exists P'; split_and!; try done; by exists n|]. split; [|auto]. intros j Hj. by rewrite Hc'.
Qed.

Lemma edited_conseq ino P P1 l (Q : ghost -> Prop) s :
  (forall j, j <> ino -> P1 j = P j) -> edited ino P1 l Q s -> edited ino P l Q s.
Proof. intros H1 He. by eapply edited_trans. Qed.

(** The outcome of an insertion between [l1] and [l2]. *)
Definition inserted_at (ino : nat) (P : ghost) (l : list extent_status) (s : esfs) (r : Z) (s' : esfs) : Prop :=
  r = 0 /\ edited ino P l (cached_in ino s') s' /\ oframe ino s s' \/
  r = ENOMEM_es /\ rep P s' /\ cframe s s' /\ es_mem s' = es_mem s /\ es_allocs s <> [].

Lemma inserted_cached P l ino n s s1 :
  edited ino P l (fun P' => n ∈ (P' ino).*1) s1 -> cframe s s1 ->
  runs (set_cache ino (Some n) ;;; ret 0) s1 (inserted_at ino P l s).
Proof. intros He Hc. eapply runs_conseq; [by apply cache_ok|]. intros r s' Hr. by left. Qed.

(** A node grows, and may then meet a neighbour. *)
Lemma grow_ok P s ino n e f l1 l2 l (merge : nat -> nat -> M esfs nat) :
  rep P s -> P ino = l1 ++ (n, e) :: l2 -> ext4_es_type f = ext4_es_type e ->
  srt 0 (l1.*2 ++ f :: l2.*2) -> (forall b, look (l1.*2 ++ f :: l2.*2) b = look l b) ->
  (forall P1 s1, rep P1 s1 -> P1 ino = l1 ++ (n, f) :: l2 -> srt 0 (P1 ino).*2 ->
     runs (merge ino n) s1 (fun m s' => edited ino P1 (P1 ino).*2 (fun P' => m ∈ (P' ino).*1) s' /\ cframe s1 s')) ->
  runs (write_es n f ;;; n <-- merge ino n ;; set_cache ino (Some n) ;;; ret 0) s (inserted_at ino P l s).
Proof.
  intros Hr E Ht Hs Hl Hmerge. rstep. eapply runs_conseq; [eapply (write_rep P s ino n e f l1 l2); [done|done|]|].
  { by destruct (flags_of_type _ _ Ht) as (_ & -> & _). }
  intros [] s1 (Hr1 & Hc1 & _). set (P1 := <[ino := _]> P) in *.
  assert (EP1 : P1 ino = l1 ++ (n, f) :: l2) by (subst P1; by rewrite ghost_upd, decide_True).
  rstep. eapply runs_conseq; [apply (Hmerge P1 s1 Hr1 EP1); by rewrite EP1, fmap_app|].
  intros m s2 [He Hc2]. apply inserted_cached; [|by eapply cframe_trans]. eapply edited_trans; [|done|].
  - intros j Hj'. subst P1. by rewrite ghost_upd, decide_False.
  - intros b. by rewrite EP1, fmap_app.
Qed.

(** A new node at the link where the walk ended. *)
Lemma slot_ok P s ino newes l1 l2 q :
  rep P s -> P ino = l1 ++ l2 -> srt 0 (l1.*2 ++ newes :: l2.*2) ->
  (forall x, inorder (rb_link_node q x (es_root (es_inodes s ino))) = l1.*1 ++ x :: l2.*1) ->
  runs (o <-- ext4_es_alloc_extent ino (es_lblk newes) (es_len newes) (es_pblk newes) ;;
        match o with
        | None => ret ENOMEM_es
        | Some n =>
            modify (upd_ei ino (fun i => i <| es_root ::= fun t => rb_insert_color n (rb_link_node q n t) |>)) ;;;
            set_cache ino (Some n) ;;; ret 0
        end) s (inserted_at ino P (l1.*2 ++ newes :: l2.*2) s).
Proof.
  intros [Ho Ht] E Hsrt Hp. pose proof (srt_bounded _ Hsrt) as Hb. rewrite length_app in Hb. cbn in Hb. rewrite !length_fmap in Hb.
  rstep. eapply runs_conseq; [eapply (alloc_ok P s ino _ _ _ l1 l2); [done|done|rewrite E, length_app; lia]|].
  intros [n|] s1 [Hf Hn].
  2: { destruct Hn as (Ho1 & Hm & Ha). apply runs_ret. right. split_and!; [done|split; [done|by eapply frame_trees]|auto with ccnvme|done|done]. }
  replace (mk_es (es_lblk newes) (es_len newes) (es_pblk newes)) with newes in Hn by (by destruct newes).
  rstep. rstep. set (s2 := upd_ei _ _ s1). apply inserted_cached.
  - eapply edited_intro; [split| | |].
    + apply owns_upd_ei; [by intros []|exact Hn].
    + assert (Ht1 : trees P s1) by (by eapply frame_trees). eapply (trees_upd P); [done|]. rewrite fmap_app. cbn [fmap list_fmap fst]. rewrite <- Hp.
      destruct Hf as [Hf _]. destruct (Hf ino) as [<- _]. destruct (es_inodes s1 ino); simpl. apply rb_insert_color_law.
    + by rewrite fmap_app.
    + intros b. by rewrite fmap_app.
    + rewrite ghost_upd, decide_True, fmap_app by done. apply elem_of_app. right. left.
  - apply (cframe_trans s s1); [auto with ccnvme|]. split; [|by destruct s1]. intros j. subst s2. rewrite inode_upd.
    case_decide; [subst j; by destruct (es_inodes s1 ino)|done].
Qed.

Lemma insert_ok P s ino newes l1 l2 :
  rep P s -> P ino = l1 ++ l2 -> srt 0 (l1.*2 ++ newes :: l2.*2) ->
  runs (__es_insert_extent ino newes) s (inserted_at ino P (l1.*2 ++ newes :: l2.*2) s).
Proof.
  intros Hr E Hsrt. pose proof Hr as [Ho Ht]. unfold __es_insert_extent, get_root. rstep. rstep.
  assert (Hsp := Hsrt). apply srt_app in Hsp as (S1 & Hge & Hok & S2).
  assert (H1 : ended (es_lblk newes) l1).
  { apply Forall_forall. intros x Hx. pose proof (srt_ends 0 l1.*2 x.2 S1 ltac:(apply list_elem_of_fmap; by exists x)). lia. }
  assert (H2 : later (eend newes) l2).
  { apply Forall_forall. intros x Hx. pose proof (srt_Forall _ _ S2) as Hf. rewrite Forall_forall in Hf.
    apply Hf. apply list_elem_of_fmap. by exists x. }
  assert (Hs : srt 0 (l1 ++ l2).*2).
  { rewrite fmap_app. apply srt_app. split; [done|]. eapply srt_weaken; [|done]. destruct Hok. unfold eend. lia. }
  apply runs_bind. eapply runs_conseq; [apply (insert_walk_ok P s ino _ l1 l2 0); try done; [by rewrite E|by rewrite Ht, E]|].
  intros p s' [-> Hp]. destruct p as [n|n|q]; [..|by apply slot_ok].
  - destruct Hp as (e & k & -> & Hm). destruct S2 as (_ & Oe & S2). pose proof (prepend_joined _ _ Hok Oe Hm) as Hj.
    rstep. eapply (runs_deref P); [done|rewrite E; apply elem_of_app; right; left|].
    eapply (grow_ok P s ino n e _ l1 k); [done|done|by apply (jn_type2 _ _ _ Hj)|by eapply srt_joined|intros b; by apply look_joined|].
    intros P1 s1. apply merge_left_ok.
  - destruct Hp as (e & k & -> & Hm). rewrite fmap_app in S1. apply srt_app in S1 as (_ & _ & Oe & _). cbn in Oe.
    rewrite <- app_assoc in E. cbn in E. pose proof (append_joined _ _ Oe Hok Hm) as Hj.
    assert (Hl : (k ++ [(n, e)]).*2 ++ newes :: l2.*2 = k.*2 ++ e :: newes :: l2.*2) by (rewrite fmap_app, <- app_assoc; done).
    rewrite Hl in *. rstep. eapply (runs_deref P); [done|rewrite E; apply elem_of_app; right; left|].
    eapply (grow_ok P s ino n e _ k l2); [done|done|by apply (jn_type1 _ _ _ Hj)|by eapply srt_joined|intros b; by apply look_joined|].
    intros P1 s1. apply merge_right_ok.
Qed.
End tree.
