(* ===== verification/ExtentRemoveFacts.v ===== *)
(** * mqfs: lemmas on removing extents and on the shrinker

    The shrinker forgets extents that are not delayed and clears the referenced
    flag of others ([shrunk]). *)

From S2P Require Import Prelude Rbtree ExtentStatus ExtentFacts ExtentTreeFacts ExtentInsertFacts.

(** ** The shrinker *)

Inductive shrunk : list node -> list node -> Prop :=
| shrunk_nil : shrunk [] []
| shrunk_keep n e e' l l' : same_es e e' -> shrunk l l' -> shrunk ((n, e) :: l) ((n, e') :: l')
| shrunk_drop n e l l' : ext4_es_is_delayed e = false -> shrunk l l' -> shrunk ((n, e) :: l) l'.

(** The map [m'] knows less than [m], but all of its delayed blocks. *)
Definition forgets (m m' : Z -> option block_status) : Prop :=
  forall b, m' b = m b \/ m' b = None /\ forall v, m b = Some v -> delayed_status v = false.

Lemma same_es_refl e : es_ok e -> same_es e e.
Proof. intros [_ _ _ Hp _]. unfold same_es. tauto. Qed.

Lemma same_es_trans e1 e2 e3 : same_es e1 e2 -> same_es e2 e3 -> same_es e1 e3.
Proof. intros (A1 & B1 & C1 & D1 & _) (A2 & B2 & C2 & D2 & R). unfold same_es. split_and!; congruence || apply R. Qed.

Lemma shrunk_refl lo l : srt lo l.*2 -> shrunk l l.
Proof.
  revert lo. induction l as [|[n e] l IH]; intros lo; [constructor|]. intros (_ & Hok & Hs). constructor; [by apply same_es_refl|by eapply IH].
Qed.

Lemma shrunk_trans l1 l2 l3 : shrunk l1 l2 -> shrunk l2 l3 -> shrunk l1 l3.
Proof.
  intros H12. revert l3. induction H12 as [|n e e' l l' He _ IH|n e l l' Hd _ IH]; intros l3 H23; [done| |constructor; auto].
  inversion H23 as [|? ? e3 ? ? He3|? ? ? ? Hd3]; subst; constructor; auto.
  - by eapply same_es_trans.
  - destruct He as (_ & _ & Et & _). destruct (flags_of_type _ _ Et) as (_ & <- & _). done.
Qed.

Lemma shrunk_app l1 l1' l2 l2' : shrunk l1 l1' -> shrunk l2 l2' -> shrunk (l1 ++ l2) (l1' ++ l2').
Proof. intros H1 H2. induction H1; cbn; [done|by constructor..]. Qed.

Lemma shrunk_srt lo l l' : shrunk l l' -> srt lo l.*2 -> srt lo l'.*2.
Proof.
  intros Hsh. revert lo. induction Hsh as [|n e e' l l' He _ IH|n e l l' Hd _ IH]; intros lo; cbn; [done|..]; intros (H1 & H2 & H3).
  - pose proof (same_es_ok _ _ He H2). destruct He as (El & En & _). split_and!; [lia|done|]. unfold eend in *. rewrite El, En. by apply IH.
  - eapply srt_weaken; [|by apply IH]. destruct H2. unfold eend. lia.
Qed.

Lemma shrunk_look lo l l' : shrunk l l' -> srt lo l.*2 -> forgets (look l.*2) (look l'.*2).
Proof.
  intros Hsh. revert lo. induction Hsh as [|n e e' l l' He _ IH|n e l l' Hd Hll IH]; intros lo; cbn; [by left|..]; intros (H1 & H2 & H3) b; cbn.
  - rewrite (same_es_val _ _ b He). destruct He as (El & En & _). unfold eend. rewrite El, En. destruct (_ && _); [by left|]. by apply (IH _ H3).
  - destruct (Z.leb_spec (es_lblk e) b), (Z.ltb_spec b (eend e)); cbn; try (by apply (IH _ H3)).
    right. split; [|by intros v [= <-]]. eapply look_below; [by eapply shrunk_srt|done].
Qed.

Lemma forgets_refl m : forgets m m.
Proof. by left. Qed.

Lemma forgets_trans m1 m2 m3 : forgets m1 m2 -> forgets m2 m3 -> forgets m1 m3.
Proof.
  intros H12 H23 b. destruct (H23 b) as [E|[E Hd]].
  - rewrite E. apply H12.
  - right. split; [done|]. intros v Hv. destruct (H12 b) as [E2|[_ Hd2]]; [apply Hd; congruence|by apply Hd2].
Qed.

(** ** Reclaiming from one inode *)

Record reclaimed (ino : nat) (P : ghost) (s : esfs) (k : Z) (P' : ghost) (s' : esfs) : Prop := mk_reclaimed {
  rc_rep : rep P' s';
  rc_other j : j <> ino -> P' j = P j;
  rc_shrunk : shrunk (P ino) (P' ino);
  rc_cframe : cframe s s';
  rc_size : Z.of_nat (size (es_mem s')) + k = Z.of_nat (size (es_mem s));
  rc_pos : 0 <= k;
}.

Lemma reclaimed_trans ino P s k P1 s1 k' P2 s2 :
  reclaimed ino P s k P1 s1 -> reclaimed ino P1 s1 k' P2 s2 -> reclaimed ino P s (k + k') P2 s2.
Proof.
  intros [A1 A2 A3 A4 A5 A6] [B1 B2 B3 B4 B5 B6]. split; [done| |by eapply shrunk_trans|by eapply cframe_trans|lia|lia].
  intros j Hj. by rewrite B2, A2.
Qed.

Section shrinker.
Context `{RbLaws}.

Lemma reclaimed_refl ino P s : rep P s -> srt 0 (P ino).*2 -> reclaimed ino P s 0 P s.
Proof. intros Hr Hs. split; [done|done|by eapply shrunk_refl|done|lia|lia]. Qed.

Lemma set_shrink_ok ino P s b :
  rep P s -> srt 0 (P ino).*2 -> runs (set_shrink_lblk ino b) s (fun _ s' => reclaimed ino P s 0 P s').
Proof.
  intros Hr Hs. unfold set_shrink_lblk. rstep. pose proof Hr as [Ho Ht]. split; [split| |by eapply shrunk_refl| |by destruct s; simpl; lia|lia].
  - apply owns_upd_ei; [by intros []|done].
  - intros j. rewrite inode_upd. case_decide; [subst j|apply Ht]. rewrite <- Ht. by destruct (es_inodes s ino).
  - done.
  - split; [|by destruct s]. intros j. rewrite inode_upd. case_decide; [subst j; by destruct (es_inodes s ino)|done].
Qed.

(** One extent: kept, with its flag cleared, or freed. *)
Lemma reclaim_one ino P s n e l1 l2 (k : Z) :
  rep P s -> P ino = l1 ++ (n, e) :: l2 -> srt 0 (P ino).*2 ->
  runs (if ext4_es_is_delayed e then ret k
        else if ext4_es_is_referenced e then write_es n (ext4_es_clear_referenced e) ;;; ret k
        else erase_es ino n ;;; ext4_es_free_extent ino n ;;; ret (k + 1)) s (fun r s' =>
    exists P' l1', reclaimed ino P s (r - k) P' s' /\ P' ino = l1' ++ l2).
Proof.
  intros Hr E Hs. assert (Hs' := Hs). rewrite E in Hs'. destruct (srt_split _ _ _ _ _ Hs') as (S1 & Oe & _ & _ & S2).
  destruct (ext4_es_is_delayed e) eqn:Ed; [|destruct (ext4_es_is_referenced e)].
  - apply runs_ret. exists P, (l1 ++ [(n, e)]). rewrite Z.sub_diag. split; [by apply reclaimed_refl|by rewrite <- app_assoc].
  - pose proof (clear_referenced_same e (eo_pblk _ Oe)) as Hsame. set (e' := ext4_es_clear_referenced e) in *.
    apply runs_bind. eapply runs_conseq; [eapply (write_rep P s ino n e e' l1 l2); [done|done|]|].
    { destruct Hsame as (_ & _ & Et & _). by destruct (flags_of_type _ _ Et) as (_ & -> & _). }
    intros [] s' (Hr' & Hc & Hsz). apply runs_ret. exists (<[ino := l1 ++ (n, e') :: l2]> P), (l1 ++ [(n, e')]).
    rewrite Z.sub_diag, ghost_upd, decide_True by done. split; [|by rewrite <- app_assoc]. split; [done| | |done|lia|lia].
    + intros j Hj. by rewrite ghost_upd, decide_False.
    + rewrite ghost_upd, decide_True, E by done. apply shrunk_app; [by eapply shrunk_refl|]. constructor; [done|by eapply shrunk_refl].
  - apply runs_assoc, runs_bind. eapply runs_conseq; [by eapply (erase_free_ok P s ino n e l1 l2)|]. intros [] s' (Hr' & Hc & Hsz).
    apply runs_ret. exists (<[ino := l1 ++ l2]> P), l1. rewrite ghost_upd, decide_True by done.
    split; [|done]. split; [done| | |done|lia|lia].
    + intros j Hj. by rewrite ghost_upd, decide_False.
    + rewrite ghost_upd, decide_True, E by done. apply shrunk_app; [by eapply shrunk_refl|]. constructor; [done|by eapply shrunk_refl].
Qed.

Lemma reclaim_loop_ok fuel ino end_ P s n e l1 l2 scan k :
  rep P s -> P ino = l1 ++ (n, e) :: l2 -> srt 0 (P ino).*2 -> (length l2 < fuel)%nat ->
  runs (reclaim_loop fuel ino end_ n scan k) s (fun r s' => exists P', reclaimed ino P s (r.2 - k) P' s').
Proof.
  revert P s n e l1 l2 scan k. induction fuel as [|fuel IH]; intros P s n e l1 l2 scan k Hr E Hs Hf; [lia|]. cbn [reclaim_loop].
  assert (Hin : (n, e) ∈ P ino) by (rewrite E; apply elem_of_app; right; left). pose proof Hr as [Ho Ht].
  rstep. eapply (runs_deref P); [done|done|].
  assert (Hstop : forall b (r : Z * Z), runs (set_shrink_lblk ino b ;;; ret (r, k)) s (fun r s' => exists P', reclaimed ino P s (r.2 - k) P' s')).
  { intros b r. apply runs_bind. eapply runs_conseq; [by apply (set_shrink_ok ino P)|]. intros [] s' Hrc. apply runs_ret.
    exists P. cbn. by rewrite Z.sub_diag. }
  destruct (negb _); [apply Hstop|]. destruct (_ <? _); [apply Hstop|]. unfold get_root. rstep. rstep.
  rewrite (next_ok P s ino n e l1 l2 Hr E). cbv zeta. apply runs_bind. eapply runs_conseq; [by eapply (reclaim_one ino P s n e l1 l2 k)|].
  intros k' s1 (P1 & l1' & Hrc & E1). destruct l2 as [|[m f] l2]; cbn [fmap list_fmap head fst].
  - apply runs_bind. eapply runs_conseq; [apply (set_shrink_ok ino P1); [apply Hrc|eapply shrunk_srt; [apply Hrc|done]]|].
    intros [] s' Hrc'. apply runs_ret. exists P1. cbn. replace (k' - k) with (k' - k + 0) by lia. by eapply reclaimed_trans.
  - eapply runs_conseq; [eapply (IH P1 s1 m f l1' l2); [apply Hrc|done|eapply shrunk_srt; [apply Hrc|done]|cbn in Hf; lia]|].
    intros [[r sc] k''] s' (P' & Hrc'). cbn in *. exists P'. replace (k'' - k) with (k' - k + (k'' - k')) by lia. by eapply reclaimed_trans.
Qed.

Lemma do_reclaim_ok ino end_ P s scan k :
  rep P s -> srt 0 (P ino).*2 ->
  runs (es_do_reclaim_extents ino end_ scan k) s (fun r s' => exists P', reclaimed ino P s (r.2 - k) P' s').
Proof.
  intros Hr Hs. unfold es_do_reclaim_extents, get_root. rstep. rstep. rstep. rstep. apply runs_bind.
  eapply runs_conseq; [by apply (tree_search_ok P s ino)|]. intros o s' (-> & l1 & l2 & E & _ & -> & _). destruct l2 as [|[n e] l2]; cbn [fmap list_fmap head fst].
  - apply runs_bind. eapply runs_conseq; [by apply (set_shrink_ok ino P)|]. intros [] s' Hrc. apply runs_ret. exists P. cbn. by rewrite Z.sub_diag.
  - eapply reclaim_loop_ok; [done|done|done|]. destruct Hr as [_ Ht]. rewrite Ht, E, length_fmap, length_app. cbn. lia.
Qed.

(** ** Reclaiming from all inodes *)

Definition caches_ok (P : ghost) (s : esfs) : Prop := forall j n, cache_es (es_inodes s j) = Some n -> n ∈ (P j).*1.

Record wf (P : ghost) (s : esfs) : Prop := mk_wf {
  wf_rep : rep P s;
  wf_srt j : srt 0 (P j).*2;
  wf_caches : caches_ok P s;
}.

(** From [s] to [s'] the shrinker freed [k] extents. *)
Definition shrinks (P : ghost) (s : esfs) (k : Z) (s' : esfs) : Prop :=
  exists P', wf P' s' /\ (forall j, shrunk (P j) (P' j)) /\ (es_allocs s = [] -> es_allocs s' = []) /\
    Z.of_nat (size (es_mem s')) + k = Z.of_nat (size (es_mem s)) /\ 0 <= k.

Lemma shrinks_refl P s s' :
  wf P s -> wf P s' -> es_mem s' = es_mem s -> es_allocs s' = es_allocs s -> shrinks P s 0 s'.
Proof.
  intros Hw Hw' Hm Ha. exists P. rewrite Hm, Ha. split_and!; [done| |done|lia|lia]. intros j. eapply shrunk_refl, Hw.
Qed.

Lemma reclaim_extents_ok ino P s scan :
  wf P s -> runs (es_reclaim_extents ino scan) s (fun r s' => shrinks P s r.1 s').
Proof.
  intros Hw. pose proof Hw as [Hr Hs Hc]. unfold es_reclaim_extents. rstep. rstep. cbv zeta. destruct (_ =? 0); [by apply runs_ret, shrinks_refl|].
  apply runs_bind. eapply runs_conseq; [by apply (do_reclaim_ok ino EXT_MAX_BLOCKS P s scan 0)|]. intros [[r sc] k] s1 (P1 & Hrc). cbn [snd] in Hrc.
  rewrite Z.sub_0_r in Hrc. pose proof (shrunk_srt 0 _ _ (rc_shrunk _ _ _ _ _ _ Hrc) (Hs ino)) as Hs1.
  apply runs_bind. eapply (runs_conseq _ _ (fun r s2 => exists P2, reclaimed ino P s r.2 P2 s2)).
  { destruct (_ && _).
    - eapply runs_conseq; [apply (do_reclaim_ok ino _ P1 s1); [apply Hrc|done]|]. intros [[r' sc'] k'] s2 (P2 & Hrc2). exists P2. cbn in *.
      replace k' with (k + (k' - k)) by lia. by eapply reclaimed_trans.
    - apply runs_ret. by exists P1. }
  intros [[r' sc'] k'] s2 (P2 & [R1 R2 R3 [R4 R4'] R5 R6]). cbn [snd] in R5, R6. unfold set_cache. rstep. rstep.
  destruct (rep_set_cache P2 s2 ino None R1) as (Hr3 & [Hc3 Ha3] & Hn3 & Hm3). set (s3 := upd_ei _ _ s2) in *. apply runs_ret. cbn.
  exists P2. split_and!; [split; [done| |]| |auto|rewrite Hm3; lia|lia].
  - intros j. destruct (decide (j = ino)) as [->|Hj]; [by eapply shrunk_srt|]. by rewrite R2.
  - intros j n. destruct (decide (j = ino)) as [->|Hj]; [by rewrite Hn3|]. rewrite Hc3, R4, R2 by done. apply Hc.
  - intros j. destruct (decide (j = ino)) as [->|Hj]; [done|]. rewrite R2 by done. by eapply shrunk_refl.
Qed.

Lemma wf_list P s l : Permutation l (s_es_list s) -> wf P s -> wf P (s <| s_es_list := l |>).
Proof.
  intros Hp [[[H1 H2 H3 H4 H5 H6 H7 H8 H9 H10 H11 H12] Ht] Hs Hc].
  assert (Hn : NoDup l) by (by rewrite Hp). assert (Hl : forall j, j ∈ l <-> shk (P j) <> 0%nat) by (intros j; by rewrite Hp).
  assert (Hk : s_es_nr_inode s = Z.of_nat (length l)) by (by rewrite Hp). destruct s; simpl in *. split; [split; [split|]|..]; done.
Qed.

Lemma wf_trylocks P s l : wf P s -> wf P (s <| trylocks := l |>).
Proof. intros [[[H1 H2 H3 H4 H5 H6 H7 H8 H9 H10 H11 H12] Ht] Hs Hc]. destruct s; simpl in *. split; [split; [split|]|..]; done. Qed.

Lemma trylock_ok P s : wf P s -> runs write_trylock s (fun _ s' => wf P s' /\ es_mem s' = es_mem s /\ es_allocs s' = es_allocs s).
Proof.
  intros Hw. unfold write_trylock, next_bool, runs. destruct (trylocks s) as [|b l]; [done|].
  split_and!; [by apply wf_trylocks|by destruct s|by destruct s].
Qed.

Definition walked (w : walk_end) : Z := match w with WalkOut k => k | WalkDone _ k _ => k end.

Lemma shrink_walk_ok nr retried locked P s scan k skipped :
  wf P s -> runs (shrink_walk nr retried locked scan k skipped) s (fun w s' => shrinks P s (walked w - k) s').
Proof.
  revert P s scan k skipped. induction nr as [|nr IH]; intros P s scan k skipped Hw; cbn [shrink_walk].
  { apply runs_ret. cbn. rewrite Z.sub_diag. by apply shrinks_refl. }
  rstep. rstep. destruct (s_es_list s) as [|ino rest] eqn:El.
  { apply runs_ret. cbn. rewrite Z.sub_diag. by apply shrinks_refl. }
  rstep. rstep. assert (Hw1 : wf P (s <| s_es_list := rest ++ [ino] |>)) by (apply wf_list; [rewrite El; apply Permutation_app_comm|done]).
  assert (E1 : es_mem (s <| s_es_list := rest ++ [ino] |>) = es_mem s /\ es_allocs (s <| s_es_list := rest ++ [ino] |>) = es_allocs s) by (by destruct s).
  set (s1 := s <| s_es_list := _ |>) in *. destruct E1 as [M1 A1]. clearbody s1. rstep. rstep.
  (* going on from a state with the same trees *)
  assert (Hgo : forall s2 scan skipped, wf P s2 -> es_mem s2 = es_mem s -> es_allocs s2 = es_allocs s ->
    runs (shrink_walk nr retried locked scan k skipped) s2 (fun w s' => shrinks P s (walked w - k) s')).
  { intros s2 scan' skipped' Hw2 M2 A2. eapply runs_conseq; [by apply (IH P)|]. intros w s' (P' & Hs). exists P'. by rewrite <- M2, <- A2. }
  destruct (_ && _); [by apply Hgo|]. apply runs_bind.
  apply (runs_conseq _ _ (fun _ s2 => wf P s2 /\ es_mem s2 = es_mem s /\ es_allocs s2 = es_allocs s)).
  { destruct (bool_decide _); [by apply runs_ret|]. rstep. eapply runs_conseq; [by apply (trylock_ok P)|]. intros ok s2 (Hw2 & M2 & A2).
    apply runs_ret. split_and!; [done|congruence|congruence]. }
  intros skip s2 (Hw2 & M2 & A2). destruct skip; [by apply Hgo|]. apply runs_bind.
  eapply runs_conseq; [by apply (reclaim_extents_ok ino P)|]. intros [k1 scan1] s3 Hsh. cbn [fst] in Hsh. cbv zeta.
  assert (Hsh' : shrinks P s k1 s3) by (destruct Hsh as (P' & Hsh); exists P'; by rewrite <- M2, <- A2).
  destruct (_ <=? 0); [apply runs_ret; cbn; by replace (k + k1 - k) with k1 by lia|].
  destruct Hsh' as (P3 & Hw3 & Hs3 & Ha3 & Hz3 & Hk3). eapply runs_conseq; [by apply (IH P3)|]. intros w s4 (P4 & Hw4 & Hs4 & Ha4 & Hz4 & Hk4).
  exists P4. split_and!; [done| |auto|lia|lia]. intros j. by eapply shrunk_trans.
Qed.

Lemma shrink_locked_ok locked P s scan k :
  wf P s -> runs (shrink_locked locked scan k) s (fun r s' => shrinks P s (r - k) s').
Proof.
  intros Hw. unfold shrink_locked. destruct locked as [ino|]; [destruct (Z.eqb_spec k 0) as [->|]|].
  - apply runs_bind. eapply runs_conseq; [by apply (reclaim_extents_ok ino P)|]. intros [k1 sc] s' Hs. apply runs_ret. by rewrite Z.sub_0_r.
  - apply runs_ret. rewrite Z.sub_diag. by apply shrinks_refl.
  - apply runs_ret. rewrite Z.sub_diag. by apply shrinks_refl.
Qed.

Lemma shrinks_step P s k s1 (m : M esfs Z) :
  shrinks P s k s1 -> (forall P1, wf P1 s1 -> runs m s1 (fun r s' => shrinks P1 s1 (r - k) s')) ->
  runs m s1 (fun r s' => shrinks P s r s').
Proof.
  intros (P1 & Hw1 & Hs1 & Ha1 & Hz1 & Hk1) Hm. eapply runs_conseq; [by apply (Hm P1)|]. intros r s2 (P2 & Hw2 & Hs2 & Ha2 & Hz2 & Hk2).
  exists P2. split_and!; [done| |auto|lia|lia]. intros j. by eapply shrunk_trans.
Qed.

Lemma shrink_lists_ok locked P s scan :
  wf P s -> runs (shrink_lists scan locked) s (fun k s' => shrinks P s k s').
Proof.
  intros Hw. unfold shrink_lists, shrink_pass. apply runs_bind. rstep. rstep. eapply runs_conseq; [by apply (shrink_walk_ok _ _ _ P)|].
  intros w s1 Hs1. destruct w as [k|scan1 k skipped]; cbn [walked] in Hs1; rewrite Z.sub_0_r in Hs1; [by apply runs_ret|].
  eapply shrinks_step; [done|]. intros P1 Hw1. destruct (_ && _); [|by apply shrink_locked_ok].
  apply runs_bind. rstep. rstep. eapply runs_conseq; [by apply (shrink_walk_ok _ _ _ P1)|].
  intros w s2 Hs2. destruct w as [k'|scan2 k' sk']; cbn [walked] in Hs2; [by apply runs_ret|].
  destruct Hs2 as (P2 & Hw2 & Hsh2 & Ha2 & Hz2 & Hk2). eapply runs_conseq; [by apply (shrink_locked_ok _ P2)|].
  intros r s3 (P3 & Hw3 & Hsh3 & Ha3 & Hz3 & Hk3). exists P3. split_and!; [done| |auto|lia|lia]. intros j. by eapply shrunk_trans.
Qed.

Lemma wf_shrunk P s k : wf P s -> wf P (s <| es_stats_shrunk := k |>).
Proof. intros [[[H1 H2 H3 H4 H5 H6 H7 H8 H9 H10 H11 H12] Ht] Hs Hc]. destruct s; simpl in *. split; [split; [split|]|..]; done. Qed.

Lemma shrink_ok locked P s scan :
  wf P s -> runs (__es_shrink scan locked) s (fun k s' => shrinks P s k s').
Proof.
  intros Hw. unfold __es_shrink. rstep. eapply runs_conseq; [by apply shrink_lists_ok|]. intros k s1 (P1 & Hw1 & Hs1 & Ha1 & Hz1 & Hk1).
  rstep. rstep. apply runs_ret. exists P1. split_and!; [exact (wf_shrunk P1 s1 _ Hw1)|done|by destruct s1|by destruct s1|done].
Qed.
End shrinker.

(** ** Removing a range *)

(** ** Pieces of an extent *)

Record piece (e e' : extent_status) : Prop := mk_piece {
  pc_ok : es_ok e';
  pc_type : ext4_es_type e' = ext4_es_type e;
  pc_val b : val e' b = val e b;
  pc_in : es_lblk e <= es_lblk e' /\ eend e' <= eend e;
}.

Lemma front_piece e k : es_ok e -> 0 < k <= es_len e -> piece e (e <| es_len := k |>).
Proof.
  intros [H1 H2 H3 H4 H5] Hk. unfold eend in *. destruct e as [lb ln p]; simpl in *.
  split; simpl; [split; simpl; [done|lia|unfold eend; simpl; lia|done|done]|done|done|unfold eend; simpl; lia].
Qed.

(** The last [k] blocks, whatever [es_pblk] is when the extent is not mapped. *)
Lemma tail_piece e e' k :
  es_ok e -> 0 < k <= es_len e -> es_lblk e' = eend e - k -> es_len e' = k -> 0 <= es_pblk e' < 2 ^ 64 ->
  ext4_es_type e' = ext4_es_type e ->
  (mapped e = true -> ext4_es_pblock e' = (ext4_es_pblock e + es_len e - k) mod 2 ^ 59) -> piece e e'.
Proof.
  intros Hok Hk El En Hp Ht Hb. pose proof Hok as [H1 H2 H3 H4 H5]. split; [split|done| |unfold eend in *; lia].
  - unfold eend in *. lia.
  - lia.
  - unfold eend in *. lia.
  - done.
  - by eapply type_ok_of_type.
  - intros b. unfold val. destruct (flags_of_type _ _ Ht) as (-> & _). rewrite Ht. destruct (mapped e); [|done].
    rewrite Hb by done. do 2 f_equal. rewrite El, Zplus_mod_idemp_l. f_equal. unfold eend. lia.
Qed.

Lemma pblk_split e : 0 <= es_pblk e < 2 ^ 64 -> exists q, es_pblk e = ext4_es_pblock e + 2 ^ 59 * q.
Proof. intros Hp. exists (es_pblk e / 2 ^ 59). rewrite pblock_mod by done. rewrite Z.add_comm. by apply Z.div_mod. Qed.

Lemma u64_mod x : u64 x mod 2 ^ 59 = x mod 2 ^ 59.
Proof. apply Z.mod_mod_divide. by exists (2 ^ 5). Qed.

Lemma cut_front_piece end_ k e :
  es_ok e -> 0 < k < es_len e -> 0 <= end_ -> end_ + 1 = eend e - k -> piece e (cut_front end_ k (es_len e) e).
Proof.
  intros Hok Hk He Ek. pose proof Hok as [H1 H2 H3 H4 H5]. unfold cut_front. cbv zeta.
  set (e1 := (e <| es_lblk := _ |>) <| es_len := _ |>).
  assert (E1 : es_lblk e1 = eend e - k /\ es_len e1 = k /\ es_pblk e1 = es_pblk e).
  { subst e1. unfold eend, EXT_MAX_BLOCKS in *. destruct e; simpl in *. split_and!; [|done|done]. rewrite wrap_small; [lia|].
    change (2 ^ 32) with 4294967296. lia. }
  destruct E1 as (El & En & Ep). clearbody e1. assert (Ht : ext4_es_type e1 = ext4_es_type e) by (unfold ext4_es_type; by rewrite Ep).
  destruct (flags_of_type _ _ Ht) as (Hm & _). fold (mapped e1). rewrite Hm. destruct (mapped e) eqn:Em.
  - assert (Hw : 0 <= u64 (es_pblk e + es_len e - k) < 2 ^ 64) by (by apply wrap_range).
    destruct (store_pblock_ok _ e1 Hw ltac:(by rewrite Ep)) as (Sl & Sn & St & Sp & Sr).
    apply (tail_piece e _ k); [done|lia|congruence|congruence|done|congruence|]. intros _. rewrite Sp.
    rewrite u64_mod. destruct (pblk_split e H4) as (q & ->).
    replace (ext4_es_pblock e + 2 ^ 59 * q + es_len e - k) with (ext4_es_pblock e + es_len e - k + q * 2 ^ 59) by lia. by apply Z_mod_plus_full.
  - apply (tail_piece e _ k); [done|lia|done|done|by rewrite Ep|done|by rewrite Em].
Qed.

Lemma cut_front_ends end_ k e :
  es_ok e -> 0 < k < es_len e -> 0 <= end_ -> end_ + 1 = eend e - k ->
  es_lblk (cut_front end_ k (es_len e) e) = end_ + 1 /\ eend (cut_front end_ k (es_len e) e) = eend e.
Proof.
  intros [H1 H2 H3 _ _] Hk He Ek. unfold cut_front. cbv zeta. assert (Hu : u32 (end_ + 1) = end_ + 1).
  { apply wrap_small. unfold eend, EXT_MAX_BLOCKS in *. change (2 ^ 32) with 4294967296. lia. }
  rewrite Hu. unfold eend, ext4_es_store_pblock in *. destruct (_ || _); destruct e; simpl in *; lia.
Qed.

Lemma split_tail_piece end_ k e :
  es_ok e -> 0 < k < es_len e -> 0 <= end_ -> end_ + 1 = eend e - k -> piece e (split_tail end_ k e).
Proof.
  intros Hok Hk He Ek. pose proof Hok as [H1 H2 H3 H4 H5]. unfold split_tail. cbv zeta. fold (mapped e).
  set (blk := if mapped e then _ else _). assert (Hb : 0 <= blk < 2 ^ 64) by (subst blk; destruct (mapped e); [by apply wrap_range|done]).
  destruct (status_type e H4) as [Hst Hsr].
  destruct (store_pblock_status_ok blk (ext4_es_status e) (u32 (end_ + 1)) k Hb Hsr) as (Sl & Sn & St & Sp & Sr).
  apply (tail_piece e _ k); [done|lia| |done|done|congruence|].
  - rewrite Sl, Ek. apply wrap_small. unfold eend, EXT_MAX_BLOCKS in *. change (2 ^ 32) with 4294967296. lia.
  - intros Em. rewrite Sp. subst blk. rewrite Em. apply u64_mod.
Qed.

(** ** Clearing a range *)

Definition cleared (lblk end_ : Z) (m : Z -> option block_status) (b : Z) : option block_status :=
  if (lblk <=? b) && (b <=? end_) then None else m b.

(** The same outside of the range. *)
Definition agree (lblk end_ : Z) (m m' : Z -> option block_status) : Prop :=
  forall b, b < lblk \/ end_ < b -> m' b = m b.

Lemma look_gap (l1 l2 : list node) lblk end_ b :
  ended lblk l1 -> later (end_ + 1) l2 -> lblk <= b <= end_ -> look (l1 ++ l2).*2 b = None.
Proof.
  intros H1 H2 Hb. rewrite fmap_app, look_app.
  assert (E1 : look l1.*2 b = None).
  { induction H1 as [|x l Hx _ IH]; [done|]. cbn. destruct (Z.ltb_spec b (eend x.2)); [lia|]. by rewrite andb_false_r. }
  rewrite E1. induction H2 as [|x l Hx _ IH]; [done|]. cbn. destruct (Z.leb_spec (es_lblk x.2) b); [lia|]. done.
Qed.

Lemma agree_cleared lblk end_ m (l1 l2 : list node) :
  agree lblk end_ m (look (l1 ++ l2).*2) -> ended lblk l1 -> later (end_ + 1) l2 ->
  forall b, look (l1 ++ l2).*2 b = cleared lblk end_ m b.
Proof.
  intros Ha H1 H2 b. unfold cleared. destruct (Z.leb_spec lblk b), (Z.leb_spec b end_); cbn; try (apply Ha; lia).
  by apply (look_gap _ _ lblk end_).
Qed.

Lemma agree_trans lblk end_ m1 m2 m3 : agree lblk end_ m1 m2 -> agree lblk end_ m2 m3 -> agree lblk end_ m1 m3.
Proof. intros H1 H2 b Hb. by rewrite H2, H1. Qed.

Lemma agree_replace lblk end_ l1 e k l2 :
  agree lblk end_ (look [e]) (look k) -> agree lblk end_ (look (l1 ++ e :: l2)) (look (l1 ++ k ++ l2)).
Proof.
  intros Ha b Hb. rewrite !look_app. specialize (Ha b Hb). cbn in *. destruct (look l1 b); [done|]. rewrite Ha. by destruct (_ && _).
Qed.

Lemma front_ends e k lblk : es_lblk e + k = lblk -> es_lblk (e <| es_len := k |>) = es_lblk e /\ eend (e <| es_len := k |>) = lblk.
Proof. intros El. destruct e; unfold eend; simpl in *. lia. Qed.

Lemma agree_front lblk end_ e k : piece e (e <| es_len := k |>) -> es_lblk e + k = lblk -> eend e <= end_ + 1 -> agree lblk end_ (look [e]) (look [e <| es_len := k |>]).
Proof.
  intros Hp El He b Hb. pose proof (front_ends _ _ _ El) as E. set (e1 := e <| es_len := k |>) in *. clearbody e1. destruct E as [E1 E2].
  cbn. rewrite (pc_val _ _ Hp b), E1, E2. destruct Hp as [_ _ _ [Hp1 Hp2]]. destruct (Z.leb_spec (es_lblk e) b), (Z.ltb_spec b (eend e)), (Z.ltb_spec b lblk); cbn; done || lia.
Qed.

Lemma agree_tail lblk end_ e e' : piece e e' -> es_lblk e' = end_ + 1 -> eend e' = eend e -> lblk <= es_lblk e -> agree lblk end_ (look [e]) (look [e']).
Proof.
  intros Hp El En He b Hb. cbn. rewrite (pc_val _ _ Hp b), El, En. destruct Hp as [_ _ _ [Hp1 Hp2]]. rewrite El in Hp1.
  destruct (Z.leb_spec (es_lblk e) b), (Z.ltb_spec b (eend e)), (Z.leb_spec (end_ + 1) b); cbn; done || lia.
Qed.

Lemma agree_middle lblk end_ e e1 e' :
  piece e e1 -> es_lblk e1 = es_lblk e -> eend e1 = lblk -> piece e e' -> es_lblk e' = end_ + 1 -> eend e' = eend e ->
  agree lblk end_ (look [e]) (look [e1; e']).
Proof.
  intros Hp E1 E2 Hp' El' En b Hb.
  cbn. rewrite (pc_val _ _ Hp b), (pc_val _ _ Hp' b), El', En, E1, E2. destruct Hp as [_ _ _ [Hp3 Hp4]], Hp' as [_ _ _ [Hp1 Hp2]]. rewrite El' in Hp1.
  rewrite E2 in Hp4. destruct (Z.leb_spec (es_lblk e) b), (Z.ltb_spec b (eend e)), (Z.ltb_spec b lblk), (Z.leb_spec (end_ + 1) b); cbn; done || lia.
Qed.

Lemma srt_pieces lo l1 e k l2 :
  srt lo (l1 ++ e :: l2) -> srt (es_lblk e) k -> endof (es_lblk e) k <= eend e -> srt lo (l1 ++ k ++ l2).
Proof.
  rewrite !srt_app. intros (H1 & H2 & H3 & H4) Hk He. split_and!; [done|by eapply srt_weaken|].
  eapply srt_weaken; [|done]. clear -He H2 Hk. destruct k as [|x k]; [|done]. cbn in *. lia.
Qed.

Lemma srt_one lo l1 e e' l2 : srt lo (l1 ++ e :: l2) -> piece e e' -> srt lo (l1 ++ e' :: l2).
Proof. intros Hs [Hok _ _ [Hl He]]. apply (srt_pieces lo l1 e [e'] l2); [done| |done]. by split_and!. Qed.

Lemma srt_drop lo l1 e l2 : srt lo (l1 ++ e :: l2) -> srt lo (l1 ++ l2).
Proof.
  rewrite !srt_app. intros (H1 & H2 & H3 & H4). split; [done|]. eapply srt_weaken; [|done]. destruct H3. unfold eend. lia.
Qed.

Section remove.
Context `{RbLaws}.

(** The nodes up to [end_] go. *)
Lemma remove_loop_ok fuel ino lblk end_ P s K l :
  rep P s -> P ino = K ++ l -> srt 0 (P ino).*2 -> later lblk l -> (length l < fuel)%nat ->
  runs (remove_loop fuel ino end_ (head l.*1)) s (fun o s' => exists P' l',
    rep P' s' /\ (forall j, j <> ino -> P' j = P j) /\ P' ino = K ++ l' /\ srt 0 (P' ino).*2 /\ later lblk l' /\
    o = head l'.*1 /\ (forall x, head l' = Some x -> end_ + 1 < eend x.2) /\
    agree lblk end_ (look (P ino).*2) (look (P' ino).*2) /\ cframe s s' /\ (size (es_mem s') <= size (es_mem s))%nat).
Proof.
  revert P s l. induction fuel as [|fuel IH]; intros P s l Hr E Hs Hl Hf; [lia|]. cbn [remove_loop].
  destruct l as [|[n e] l]; cbn [fmap list_fmap head fst].
  { apply runs_ret. exists P, []. split_and!; try done. }
  assert (Hs' := Hs). rewrite E in Hs'. destruct (srt_split _ _ _ _ _ Hs') as (S1 & Oe & _ & _ & S2).
  apply Forall_cons in Hl as [Hle Hl]. cbn in Hle. pose proof Hr as [Ho Ht].
  rstep. eapply (runs_deref P); [done|rewrite E; apply elem_of_app; right; left|]. apply runs_bind, es_end_ok; [done|].
  destruct (Z.leb_spec (eend e - 1) end_) as [Hend|Hend]; cbn [negb].
  - unfold get_root. rstep. rstep. rewrite (next_ok P s ino n e K l Hr E). cbv zeta.
    apply runs_assoc, runs_bind. eapply runs_conseq; [by eapply (erase_free_ok P s ino n e K l)|]. intros [] s1 (Hr1 & Hc1 & Hz1).
    set (P1 := <[ino := K ++ l]> P) in *. assert (E1 : P1 ino = K ++ l) by (subst P1; by rewrite ghost_upd, decide_True).
    eapply runs_conseq; [apply (IH P1 s1 l); [done|done| |done|cbn in Hf; lia]|].
    { rewrite E1, fmap_app. rewrite fmap_app in Hs'. by eapply srt_drop. }
    intros o s' (P' & l' & A1 & A2 & A3 & A4 & A5 & A6 & A7 & A8 & A9 & A10). exists P', l'.
    split_and!; [done| |done|done|done|done|done| |by eapply cframe_trans|lia].
    + intros j Hj. rewrite A2 by done. subst P1. by rewrite ghost_upd, decide_False.
    + eapply agree_trans; [|done]. rewrite E1, E, !fmap_app. apply (agree_replace _ _ _ e []). intros b Hb. cbn.
      destruct (Z.leb_spec (es_lblk e) b), (Z.ltb_spec b (eend e)); cbn; done || lia.
  - apply runs_ret. exists P, ((n, e) :: l). split_and!; [done|done|done|done|by constructor|done| |done|done|lia]. intros x [= <-]. cbn. lia.
Qed.

Lemma trim_last_ok ino lblk end_ P s K l :
  rep P s -> P ino = K ++ l -> srt 0 (P ino).*2 -> 0 <= lblk <= end_ -> later lblk l -> (forall x, head l = Some x -> end_ + 1 < eend x.2) ->
  runs (trim_last end_ (head l.*1)) s (fun _ s' => exists P' l',
    rep P' s' /\ (forall j, j <> ino -> P' j = P j) /\ P' ino = K ++ l' /\ srt 0 (P' ino).*2 /\ later (end_ + 1) l' /\
    agree lblk end_ (look (P ino).*2) (look (P' ino).*2) /\ cframe s s' /\ size (es_mem s') = size (es_mem s)).
Proof.
  intros Hr E Hs Hb Hl Hend. unfold trim_last. destruct l as [|[n e] l]; cbn [fmap list_fmap head fst].
  { apply runs_ret. exists P, []. split_and!; try done. constructor. }
  assert (Hs' := Hs). rewrite E in Hs'. destruct (srt_split _ _ _ _ _ Hs') as (S1 & Oe & _ & L2 & S2). pose proof Hr as [Ho Ht].
  apply Forall_cons in Hl as [Hle Hl]. cbn in Hle. specialize (Hend _ eq_refl). cbn in Hend.
  assert (Hu : u32 (end_ + 1) = end_ + 1).
  { apply wrap_small. pose proof (eo_end _ Oe). unfold EXT_MAX_BLOCKS in *. change (2 ^ 32) with 4294967296. lia. }
  rstep. eapply (runs_deref P); [done|rewrite E; apply elem_of_app; right; left|]. rewrite Hu. destruct (Z.ltb_spec (es_lblk e) (end_ + 1)) as [Hlt|Hlt].
  - apply runs_bind, es_end_ok; [done|].
    assert (Hk : u32 (eend e - 1 - end_) = eend e - 1 - end_).
    { apply wrap_small. pose proof (eo_end _ Oe). unfold EXT_MAX_BLOCKS in *. change (2 ^ 32) with 4294967296. lia. }
    rewrite Hk. assert (Hp : piece e (cut_front end_ (eend e - 1 - end_) (es_len e) e)).
    { apply cut_front_piece; [done| |lia|lia]. unfold eend in *. lia. }
    assert (El := cut_front_ends end_ (eend e - 1 - end_) e Oe ltac:(unfold eend in *; lia) ltac:(lia) ltac:(lia)).
    set (e' := cut_front _ _ _ e) in *. destruct El as [El En].
    eapply runs_conseq; [eapply (write_rep P s ino n e e' K l); [done|done|]|].
    { by destruct (flags_of_type _ _ (pc_type _ _ Hp)) as (_ & -> & _). }
    intros [] s' (Hr' & Hc & Hz). set (P' := <[ino := _]> P) in *. assert (E' : P' ino = K ++ (n, e') :: l) by (subst P'; by rewrite ghost_upd, decide_True).
    exists P', ((n, e') :: l). rewrite E'. split_and!; [done| |done| | | |done|done].
    + intros j Hj. subst P'. by rewrite ghost_upd, decide_False.
    + rewrite fmap_app in *. by eapply srt_one.
    + constructor; [cbn; lia|]. eapply later_weaken; [|done]. lia.
    + rewrite E, !fmap_app. apply (agree_replace _ _ _ e [e']). by apply agree_tail.
  - apply runs_ret. exists P, ((n, e) :: l). split_and!; try done. constructor; [done|]. eapply later_weaken; [|done]. lia.
Qed.

(** ** The whole removal *)

(** [m'] is [m], but for extents given up when memory is short. *)
Definition upto (enough : Prop) (m m' : Z -> option block_status) : Prop :=
  forgets m m' /\ (enough -> forall b, m' b = m b).

Lemma upto_eq enough m m' : (forall b, m' b = m b) -> upto enough m m'.
Proof. intros E. split; [intros b; left; apply E|done]. Qed.

(** The outcome of a removal. *)
Definition removed (ino : nat) (lblk end_ : Z) (P : ghost) (s : esfs) (r : Z) (s' : esfs) : Prop :=
  exists P', wf P' s' /\ (es_allocs s = [] -> es_allocs s' = []) /\
    (forall j, j <> ino -> upto (es_allocs s = []) (look (P j).*2) (look (P' j).*2)) /\
    (r = 0 /\ upto (es_allocs s = []) (cleared lblk end_ (look (P ino).*2)) (look (P' ino).*2) \/
     r = ENOMEM_es /\ es_allocs s <> [] /\ forgets (look (P ino).*2) (look (P' ino).*2)).

Lemma removed_done ino lblk end_ P s P' s' :
  wf P s -> rep P' s' -> (forall j, j <> ino -> P' j = P j) -> srt 0 (P' ino).*2 -> oframe ino s s' ->
  (forall n, cache_es (es_inodes s' ino) = Some n -> n ∈ (P' ino).*1) ->
  (forall b, look (P' ino).*2 b = cleared lblk end_ (look (P ino).*2) b) -> removed ino lblk end_ P s 0 s'.
Proof.
  intros [Hr Hs Hc] Hr' Ho Hs' [Hf Ha] Hc' Hl. exists P'. split_and!; [split; [done| |]|done| |left; split; [done|by apply upto_eq]].
  - intros j. destruct (decide (j = ino)) as [->|Hj]; [done|]. by rewrite Ho.
  - intros j n. destruct (decide (j = ino)) as [->|Hj]; [apply Hc'|]. rewrite Hf, Ho by done. apply Hc.
  - intros j Hj. apply upto_eq. by rewrite Ho.
Qed.

(** The range begins in the extent [e] or before it, and [e] ends in it. *)
Lemma remove_rest_ok fuel ino lblk end_ P s s0 n e l1 l2 :
  wf P s -> rep P s0 -> oframe ino s s0 -> cache_es (es_inodes s0 ino) = None ->
  P ino = l1 ++ (n, e) :: l2 -> 0 <= lblk <= end_ -> ended lblk l1 -> lblk < eend e <= end_ + 1 -> (length l2 < fuel)%nat ->
  runs ((if es_lblk e <? lblk then write_es n (e <| es_len := lblk - es_lblk e |>) else ret tt) ;;;
        es <-- (if es_lblk e <? lblk then t <-- get_root ino ;; ret (rb_next t n) else ret (Some n)) ;;
        es <-- remove_loop (S fuel) ino end_ es ;;
        trim_last end_ es ;;;
        ret 0) s0 (removed ino lblk end_ P s).
Proof.
  intros Hw Hr0 [Hf0 Ha0] Hc0 E Hb Hl1 He Hfuel. pose proof Hw as [Hr Hs Hc]. assert (Hs' := Hs ino). rewrite E in Hs'.
  destruct (srt_split _ _ _ _ _ Hs') as (S1 & Oe & E1 & L2 & S2).
  (* what is in front of the range, and what is left to look at *)
  apply runs_bind. apply (runs_conseq _ _ (fun _ s1 => exists P1 K l, rep P1 s1 /\ (forall j, j <> ino -> P1 j = P j) /\ P1 ino = K ++ l /\
    srt 0 (P1 ino).*2 /\ ended lblk K /\ later lblk l /\ (length l <= S (length l2))%nat /\ agree lblk end_ (look (P ino).*2) (look (P1 ino).*2) /\ cframe s0 s1 /\
    runs (if es_lblk e <? lblk then t <-- get_root ino ;; ret (rb_next t n) else ret (Some n)) s1 (fun es s' => s' = s1 /\ es = head l.*1))).
  - destruct (Z.ltb_spec (es_lblk e) lblk) as [Hlt|Hge].
    + set (f := e <| es_len := lblk - es_lblk e |>). assert (Hp : piece e f) by (apply front_piece; [done|unfold eend in *; lia]).
      eapply runs_conseq; [eapply (write_rep P s0 ino n e f l1 l2); [done|done|]|].
      { by destruct (flags_of_type _ _ (pc_type _ _ Hp)) as (_ & -> & _). }
      intros [] s1 (Hr1 & Hc1 & _). set (P1 := <[ino := _]> P) in *. assert (EP1 : P1 ino = l1 ++ (n, f) :: l2) by (subst P1; by rewrite ghost_upd, decide_True).
      exists P1, (l1 ++ [(n, f)]), l2. split_and!; [done| |by rewrite <- app_assoc| | | |lia| |done|].
      * intros j Hj. subst P1. by rewrite ghost_upd, decide_False.
      * rewrite EP1, fmap_app. rewrite fmap_app in Hs'. by eapply srt_one.
      * apply Forall_app. split; [done|]. constructor; [|constructor]. cbn [snd]. destruct (front_ends e (lblk - es_lblk e) lblk ltac:(lia)) as [_ Ef]. fold f in Ef. lia.
      * eapply later_weaken; [|done]. lia.
      * rewrite EP1, E, !fmap_app. apply (agree_replace _ _ _ e [f]). apply agree_front; [done|lia|lia].
      * unfold get_root. rstep. rstep. apply runs_ret. by rewrite (next_ok P1 s1 ino n f l1 l2 Hr1 EP1).
    + apply runs_ret. exists P, l1, ((n, e) :: l2). split_and!; try done. constructor; [done|]. eapply later_weaken; [|done]. lia.
  - intros [] s1 (P1 & K & l & Hr1 & Ho1 & EP1 & Hs1 & HK & Hl & Hlen & Hag & Hc1 & Hnext). apply runs_bind. eapply runs_conseq; [done|].
    intros es s1' [-> ->]. apply runs_bind. eapply runs_conseq; [apply (remove_loop_ok _ ino lblk end_ P1 s1 K l); [done|done|done|done|lia]|].
    intros o s2 (P2 & l' & Hr2 & Ho2 & EP2 & Hs2 & Hl' & -> & Hend & Hag2 & Hc2 & _). apply runs_bind.
    eapply runs_conseq; [by apply (trim_last_ok ino lblk end_ P2 s2 K l')|]. intros [] s3 (P3 & l'' & Hr3 & Ho3 & EP3 & Hs3 & Hl'' & Hag3 & Hc3 & _).
    apply runs_ret. assert (Hcf : cframe s0 s3) by (eapply cframe_trans; [done|by eapply cframe_trans]). destruct Hcf as [Hf3 Ha3].
    apply (removed_done ino lblk end_ P s P3 s3); [done|done| |done| | |].
    + intros j Hj. by rewrite Ho3, Ho2, Ho1.
    + split; [|auto]. intros j Hj. by rewrite Hf3, Hf0.
    + intros m. by rewrite Hf3, Hc0.
    + rewrite EP3 in Hag3 |- *. apply agree_cleared; [|done|done]. eapply agree_trans; [done|]. by eapply agree_trans.
Qed.

Lemma forgets_cleared lblk end_ m m' : forgets m m' -> forgets (cleared lblk end_ m) (cleared lblk end_ m').
Proof. intros Hf b. unfold cleared. destruct (_ && _); [by left|apply Hf]. Qed.

(** The range is inside the extent [e]. *)
Lemma remove_middle_ok (again : M esfs Z) ino lblk end_ P s s0 n e l1 l2 :
  wf P s -> rep P s0 -> oframe ino s s0 -> cache_es (es_inodes s0 ino) = None -> size (es_mem s0) = size (es_mem s) -> es_allocs s0 = es_allocs s ->
  P ino = l1 ++ (n, e) :: l2 -> 0 <= lblk <= end_ -> es_lblk e < lblk -> end_ + 1 < eend e ->
  (forall P2 s2, wf P2 s2 -> (size (es_mem s2) < size (es_mem s))%nat -> runs again s2 (removed ino lblk end_ P2 s2)) ->
  runs (write_es n (e <| es_len := lblk - es_lblk e |>) ;;;
        err <-- __es_insert_extent ino (split_tail end_ (eend e - 1 - end_) e) ;;
        if negb (err =? 0) then
          e' <-- deref_es n ;;
          write_es n (e' <| es_lblk := es_lblk e |> <| es_len := es_len e |>) ;;;
          if err =? ENOMEM_es then
            k <-- __es_shrink 128 (Some ino) ;;
            if negb (k =? 0) then again else ret err
          else ret err
        else ret 0) s0 (removed ino lblk end_ P s).
Proof.
  intros Hw Hr0 Hof Hc0 Hz0 Hal E Hb Hlt Hend Hagain. pose proof Hw as [Hr Hs Hc]. assert (Hs' := Hs ino). rewrite E in Hs'.
  destruct (srt_split _ _ _ _ _ Hs') as (S1 & Oe & E1 & L2 & S2). set (f := e <| es_len := lblk - es_lblk e |>). set (g := split_tail _ _ e).
  assert (Hp : piece e f) by (apply front_piece; [done|unfold eend in *; lia]).
  assert (Hg : piece e g) by (apply split_tail_piece; [done|unfold eend in *; lia|lia|lia]).
  assert (Eg : es_lblk g = end_ + 1 /\ eend g = eend e).
  { subst g. unfold split_tail, eend, ext4_es_store_pblock_status. cbn. rewrite wrap_small; [unfold eend; lia|].
    pose proof (eo_end _ Oe). unfold EXT_MAX_BLOCKS in *. change (2 ^ 32) with 4294967296. lia. }
  destruct Eg as [Eg1 Eg2]. destruct (front_ends e (lblk - es_lblk e) lblk ltac:(lia)) as [Ef1 Ef2]. fold f in Ef1, Ef2.
  assert (Hback : f <| es_lblk := es_lblk e |> <| es_len := es_len e |> = e) by (subst f; by destruct e). clearbody f g.
  assert (Hsrt : srt 0 (l1.*2 ++ [f; g] ++ l2.*2)).
  { rewrite fmap_app in Hs'. apply (srt_pieces 0 l1.*2 e [f; g]); [done| |cbn [endof]; lia]. cbn [srt]. destruct Hp, Hg. split_and!; [lia|done|lia|done|done]. }
  apply runs_bind. eapply runs_conseq; [eapply (write_rep P s0 ino n e f l1 l2); [done|done|]|].
  { by destruct (flags_of_type _ _ (pc_type _ _ Hp)) as (_ & -> & _). }
  intros [] s1 (Hr1 & Hc1 & Hz1). set (P1 := <[ino := _]> P) in *. assert (EP1 : P1 ino = (l1 ++ [(n, f)]) ++ l2) by (subst P1; by rewrite ghost_upd, decide_True, <- app_assoc).
  assert (Ho1 : forall j, j <> ino -> P1 j = P j) by (intros j Hj; subst P1; by rewrite ghost_upd, decide_False).
  apply runs_bind. eapply runs_conseq; [apply (insert_ok P1 s1 ino g (l1 ++ [(n, f)]) l2); [done|done|by rewrite fmap_app, <- app_assoc]|].
  intros r s2 [(-> & (P2 & Hr2 & Ho2 & Hs2 & Hl2 & (m & Hm & Hin)) & Hof2)|(-> & Hr2 & Hc2 & Hm2 & Ha2)]; cbn [Z.eqb negb].
  - apply runs_ret. destruct Hof as [Hf0 Ha0], Hof2 as [Hf2 Ha2], Hc1 as [Hf1 Ha1]. apply (removed_done ino lblk end_ P s P2 s2); [done|done| |done| | |].
    + intros j Hj. by rewrite Ho2, Ho1.
    + split; [|auto]. intros j Hj. by rewrite Hf2, Hf1, Hf0.
    + rewrite Hm. by intros ? [= <-].
    + set (k1 := l1 ++ [(n, f)]) in *. set (k2 := (n, g) :: l2).
      assert (Hk : forall b, look (P2 ino).*2 b = look (k1 ++ k2).*2 b) by (intros b; rewrite Hl2, fmap_app; done).
      intros b. rewrite Hk. revert b. apply agree_cleared.
      * subst k1 k2. rewrite E, <- app_assoc, !fmap_app. apply (agree_replace _ _ _ e [f; g]).
        by apply agree_middle.
      * apply Forall_app. split; [eapply ended_weaken; [|done]; lia|]. constructor; [cbn; lia|constructor].
      * constructor; [cbn; lia|]. eapply later_weaken; [|done]. lia.
  - change (ENOMEM_es =? 0) with false. cbn [negb]. rstep. eapply (runs_deref P1); [apply Hr2|rewrite EP1; apply elem_of_app; left; apply elem_of_app; right; left|]. rewrite Hback.
    rstep. eapply runs_conseq; [eapply (write_rep P1 s2 ino n f e l1 l2); [done|by rewrite EP1, <- app_assoc|]|].
    { by destruct (flags_of_type _ _ (pc_type _ _ Hp)) as (_ & -> & _). }
    intros [] s3 (Hr3 & Hc3 & Hz3). assert (Hw3 : wf P s3).
    { apply (rep_ext _ P) in Hr3; [|intros j; rewrite ghost_upd; case_decide as Ej; [by rewrite Ej|by apply Ho1]].
      split; [done|done|]. destruct Hof as [Hf0 _], Hc1 as [Hf1 _], Hc2 as [Hf2 _], Hc3 as [Hf3 _].
      intros j m. rewrite Hf3, Hf2, Hf1. destruct (decide (j = ino)) as [->|Hj]; [by rewrite Hc0|]. rewrite Hf0 by done. apply Hc. }
    assert (Hal0 : es_allocs s <> []) by (rewrite <- Hal; intros Ha0; apply Ha2, Hc1, Ha0).
    rewrite Z.eqb_refl. rstep. eapply runs_conseq; [by apply (shrink_ok _ P)|]. intros k s4 (P4 & Hw4 & Hs4 & _ & Hz4 & Hk4).
    assert (Hfg : forall j, forgets (look (P j).*2) (look (P4 j).*2)) by (intros j; by eapply shrunk_look).
    destruct (Z.eqb_spec k 0) as [->|Hk]; cbn [negb].
    + apply runs_ret. exists P4. split_and!; [done|done| |right; split_and!; [done|done|apply Hfg]]. intros j Hj. split; [apply Hfg|done].
    + eapply runs_conseq; [apply (Hagain P4 s4 Hw4); rewrite <- Hm2 in *; lia|]. intros r s5 (P5 & Hw5 & _ & Ho5 & Hr5). exists P5.
      split_and!; [done|done| |].
      * intros j Hj. split; [|done]. eapply forgets_trans; [apply Hfg|by apply Ho5].
      * destruct Hr5 as [[-> [Hu _]]|(-> & _ & Hu)]; [left|right].
        -- split; [done|]. split; [|done]. eapply forgets_trans; [by apply forgets_cleared, Hfg|done].
        -- split_and!; [done|done|]. by eapply forgets_trans.
Qed.

Lemma cleared_none (l : list node) l1 l2 lblk end_ :
  l = l1 ++ l2 -> ended lblk l1 -> later (end_ + 1) l2 -> forall b, look l.*2 b = cleared lblk end_ (look l.*2) b.
Proof. intros -> H1 H2. by apply agree_cleared. Qed.

(** The range ends in the extent [e], which begins in it. *)
Lemma remove_head_ok ino lblk end_ P s s0 n e l1 l2 :
  wf P s -> rep P s0 -> oframe ino s s0 -> cache_es (es_inodes s0 ino) = None ->
  P ino = l1 ++ (n, e) :: l2 -> 0 <= lblk <= end_ -> ended lblk l1 -> lblk <= es_lblk e <= end_ -> end_ < eend e - 1 ->
  runs (write_es n (cut_front end_ (eend e - 1 - end_) (es_len e) e) ;;; ret 0) s0 (removed ino lblk end_ P s).
Proof.
  intros Hw Hr0 [Hf0 Ha0] Hc0 E Hb Hl1 He Hend. assert (Hs := wf_srt _ _ Hw ino). rewrite E in Hs.
  destruct (srt_split _ _ _ _ _ Hs) as (S1 & Oe & E1 & L2 & S2).
  assert (Hp : piece e (cut_front end_ (eend e - 1 - end_) (es_len e) e)).
  { apply cut_front_piece; [done| |lia|lia]. unfold eend in *. lia. }
  assert (El := cut_front_ends end_ (eend e - 1 - end_) e Oe ltac:(unfold eend in *; lia) ltac:(lia) ltac:(lia)).
  set (f := cut_front _ _ _ e) in *. clearbody f. destruct El as [El En].
  apply runs_bind. eapply runs_conseq; [eapply (write_rep P s0 ino n e f l1 l2); [done|done|]|].
  { by destruct (flags_of_type _ _ (pc_type _ _ Hp)) as (_ & -> & _). }
  intros [] s1 (Hr1 & [Hf1 Ha1] & _). apply runs_ret. eapply (removed_done ino lblk end_ P s _ s1); [done|done|..].
  - intros j Hj. by rewrite ghost_upd, decide_False.
  - rewrite ghost_upd, decide_True, fmap_app by done. rewrite fmap_app in Hs. by eapply srt_one.
  - split; [|auto]. intros j Hj. by rewrite Hf1, Hf0.
  - intros m. by rewrite Hf1, Hc0.
  - rewrite ghost_upd, decide_True by done. apply agree_cleared; [|done|].
    + rewrite E, !fmap_app. apply (agree_replace _ _ _ e [f]). apply agree_tail; [done|done|done|lia].
    + constructor; [cbn; lia|]. eapply later_weaken; [|done]. lia.
Qed.

Lemma remove_ok fuel ino lblk end_ P s :
  wf P s -> 0 <= lblk <= end_ -> (size (es_mem s) < fuel)%nat ->
  runs (__es_remove_extent fuel ino lblk end_) s (removed ino lblk end_ P s).
Proof.
  revert P s. induction fuel as [|fuel IH]; intros P s Hw Hb Hf; [lia|]. cbn [__es_remove_extent]. pose proof Hw as [Hr Hs Hc]. unfold get_root.
  rstep. rstep. apply runs_bind. eapply runs_conseq; [by apply (tree_search_ok P s ino)|]. intros o s' (-> & l1 & l2 & E & Hl1 & -> & Hh).
  assert (Hnone : later (end_ + 1) l2 -> removed ino lblk end_ P s 0 s).
  { intros Hl2. apply (removed_done ino lblk end_ P s P s); [done|done|done|done|done|apply Hc|by eapply cleared_none]. }
  destruct l2 as [|[n e] l2]; cbn [fmap list_fmap head fst]; [apply runs_ret, Hnone; constructor|]. specialize (Hh _ eq_refl). cbn in Hh.
  assert (Hs' := Hs ino). rewrite E in Hs'. destruct (srt_split _ _ _ _ _ Hs') as (S1 & Oe & E1 & L2 & S2). pose proof Hr as [Ho Ht].
  rstep. eapply (runs_deref P); [done|rewrite E; apply elem_of_app; right; left|]. destruct (Z.ltb_spec end_ (es_lblk e)) as [Hlt|Hge].
  { apply runs_ret, Hnone. constructor; [cbn; lia|]. eapply later_weaken; [|done]. destruct Oe. unfold eend. lia. }
  unfold set_cache. rstep. rstep. destruct (rep_set_cache P s ino None Hr) as (Hr0 & Hof & Hc0 & Hm0).
  assert (Hal0 : es_allocs (upd_ei ino (fun i => i <| cache_es := None |>) s) = es_allocs s) by (by destruct s).
  assert (Hroot : inorder (es_root (es_inodes s ino)) = (P ino).*1) by apply Ht. set (s0 := upd_ei _ _ s) in *. clearbody s0.
  cbv zeta. apply runs_bind, es_end_ok; [done|]. pose proof (eo_end _ Oe) as Hmax. pose proof (eo_lblk _ Oe) as Hmin. unfold EXT_MAX_BLOCKS in Hmax.
  assert (Hw1 : es_lblk e < lblk -> u32 (lblk - es_lblk e) = lblk - es_lblk e) by (intros ?; apply wrap_small; change (2 ^ 32) with 4294967296; lia).
  assert (Hw2 : end_ < eend e - 1 -> u32 (eend e - 1 - end_) = eend e - 1 - end_) by (intros ?; apply wrap_small; change (2 ^ 32) with 4294967296; lia).
  destruct (Z.ltb_spec end_ (eend e - 1)) as [H2|H2].
  - rewrite (Hw2 H2), (proj2 (Z.ltb_lt 0 (eend e - 1 - end_))) by lia. destruct (Z.ltb_spec (es_lblk e) lblk) as [H1|H1].
    + rewrite (Hw1 H1), (proj2 (Z.ltb_lt 0 (lblk - es_lblk e))) by lia.
      eapply (remove_middle_ok _ ino lblk end_ P s s0 n e l1 l2); [done|done|done|done|congruence|done|done|done|done|lia|].
      intros P2 s2 Hw' Hz. apply IH; [done|done|lia].
    + change (0 <? 0) with false. rstep. apply runs_ret. by apply (remove_head_ok ino lblk end_ P s s0 n e l1 l2).
  - change (0 <? 0) with false. pose proof (remove_rest_ok (length (inorder (es_root (es_inodes s ino)))) ino lblk end_ P s s0 n e l1 l2) as Hrest.
    rewrite Hroot, E, length_fmap, length_app in Hrest |- *. cbn in Hrest. specialize (Hrest Hw Hr0 Hof Hc0 eq_refl Hb Hl1 ltac:(lia) ltac:(lia)).
    destruct (Z.ltb_spec (es_lblk e) lblk) as [H1|H1].
    + rewrite (Hw1 H1), (proj2 (Z.ltb_lt 0 (lblk - es_lblk e))) by lia. exact Hrest.
    + change (0 <? 0) with false. exact Hrest.
Qed.
End remove.
