(* ===== verification/ExtentTheorems.v ===== *)
(** * mqfs: theorems on the extent status tree

    A tree stands for a map from the blocks of a file to their status
    ([es_map]).  The entry points are shown to be the operations on that map. *)

From S2P Require Import Prelude Rbtree ExtentStatus ExtentFacts ExtentTreeFacts ExtentInsertFacts ExtentRemoveFacts.

(** The extents of an inode in the order of its tree. *)
Definition extents (s : esfs) (ino : nat) : list extent_status :=
  omap (fun n => es_mem s !! n) (inorder (es_root (es_inodes s ino))).

Definition es_map (s : esfs) (ino : nat) : Z -> option block_status := look (extents s ino).

(** The trees are search trees without overlap, every node is in one tree, the
    counters are right and no cached pointer dangles. *)
Definition es_wf (s : esfs) : Prop := exists P, wf P s.

(** The statuses extents are given. *)
Definition status_ok (status : Z) : Prop :=
  status ∈ [EXTENT_STATUS_WRITTEN; EXTENT_STATUS_UNWRITTEN; EXTENT_STATUS_DELAYED;
            Z.lor EXTENT_STATUS_UNWRITTEN EXTENT_STATUS_DELAYED; EXTENT_STATUS_HOLE].

(** What block [b] is said to be by an extent at [lblk] with [pblk] and [status]. *)
Definition status_at (status pblk lblk b : Z) : block_status :=
  (status, if Z.land status (Z.lor EXTENT_STATUS_WRITTEN EXTENT_STATUS_UNWRITTEN) =? 0 then None
           else Some ((pblk + (b - lblk)) mod 2 ^ 59)).

Definition assigned (lblk len : Z) (v : Z -> block_status) (m : Z -> option block_status) (b : Z) : option block_status :=
  if (lblk <=? b) && (b <? lblk + len) then Some (v b) else m b.

Lemma es_map_rep P s ino : rep P s -> extents s ino = (P ino).*2.
Proof.
  intros [Ho Ht]. unfold extents. rewrite Ht. assert (Hin : forall x, x ∈ P ino -> es_mem s !! x.1 = Some x.2).
  { intros [n e] Hx. by eapply owns_lookup. }
  induction (P ino) as [|[n e] l IH]; [done|]. cbn. pose proof (Hin (n, e) ltac:(left)) as Hn. cbn in Hn. rewrite Hn. f_equal. apply IH. intros x Hx. apply Hin. by right.
Qed.

Lemma es_map_wf P s ino : wf P s -> es_map s ino = look (P ino).*2.
Proof. intros [Hr _ _]. unfold es_map. by rewrite (es_map_rep P). Qed.

(** ** Gaps *)

Lemma gap_split lo (l : list node) lblk end_ :
  srt lo l.*2 -> lblk <= end_ -> (forall b, lblk <= b <= end_ -> look l.*2 b = None) ->
  exists l1 l2, l = l1 ++ l2 /\ ended lblk l1 /\ later (end_ + 1) l2.
Proof.
  intros Hs Hle. revert lo Hs. induction l as [|[n e] l IH]; intros lo Hs Hn; [exists [], []; split_and!; [done|constructor..]|].
  destruct Hs as (H1 & Oe & H3). cbn [snd] in H1, Oe, H3. destruct (Z.le_gt_cases (eend e) lblk) as [Hend|Hend].
  - destruct (IH _ H3) as (l1 & l2 & -> & Hl1 & Hl2).
    + intros b Hb. specialize (Hn b Hb). cbn in Hn. destruct (Z.ltb_spec b (eend e)); [lia|]. by rewrite andb_false_r in Hn.
    + exists ((n, e) :: l1), l2. split_and!; [done|by constructor|done].
  - exists [], ((n, e) :: l). split_and!; [done|constructor|]. assert (Hgt : end_ < es_lblk e).
    { destruct (Z.lt_ge_cases end_ (es_lblk e)) as [|Hle']; [done|]. specialize (Hn (Z.max lblk (es_lblk e)) ltac:(lia)). cbn in Hn.
      destruct Oe. unfold eend in *. destruct (Z.leb_spec (es_lblk e) (Z.max lblk (es_lblk e))); [|lia].
      destruct (Z.ltb_spec (Z.max lblk (es_lblk e)) (es_lblk e + es_len e)); [done|lia]. }
    constructor; [cbn; lia|]. apply Forall_forall. intros x Hx. pose proof (srt_Forall _ _ H3) as Hf. rewrite Forall_forall in Hf.
    destruct (Hf x.2) as [Hx1 _]; [apply list_elem_of_fmap; by exists x|]. destruct Oe. unfold eend in *. lia.
Qed.

Lemma gap_srt (l1 l2 : list node) e :
  srt 0 (l1 ++ l2).*2 -> es_ok e -> ended (es_lblk e) l1 -> later (eend e) l2 -> srt 0 (l1.*2 ++ e :: l2.*2).
Proof.
  rewrite fmap_app, !srt_app. intros [H1 H2] He Hl1 Hl2. cbn [srt]. split_and!; [done| |done|].
  - destruct l1 as [|x k _] using rev_ind; [by destruct He|]. rewrite fmap_app, endof_app. cbn. by apply Forall_app in Hl1 as [_ [Hx _]%Forall_cons].
  - destruct l2 as [|x k]; [done|]. apply Forall_cons in Hl2 as [Hx _]. destruct H2 as (_ & Ox & H2). by split_and!.
Qed.

Lemma look_insert (l1 l2 : list node) e b :
  ended (es_lblk e) l1 -> later (eend e) l2 ->
  look (l1.*2 ++ e :: l2.*2) b = assigned (es_lblk e) (es_len e) (val e) (look (l1 ++ l2).*2) b.
Proof.
  intros H1 H2. unfold assigned. fold (eend e). rewrite fmap_app, !look_app. cbn [look].
  destruct (Z.leb_spec (es_lblk e) b), (Z.ltb_spec b (eend e)); cbn [andb]; try done.
  pose proof (look_gap l1 [] (es_lblk e) b b H1 ltac:(constructor) ltac:(lia)) as Hg. rewrite app_nil_r in Hg. by rewrite Hg.
Qed.

(** ** Inserting *)

Section theorems.
Context `{RbLaws}.

(** The outcome of the second half of an insertion. *)
Definition inserted (ino : nat) (e : extent_status) (P : ghost) (s : esfs) (r : Z) (s' : esfs) : Prop :=
  exists P', wf P' s' /\ (es_allocs s = [] -> es_allocs s' = []) /\
    (forall j, j <> ino -> upto (es_allocs s = []) (look (P j).*2) (look (P' j).*2)) /\
    (r = 0 /\ upto (es_allocs s = []) (assigned (es_lblk e) (es_len e) (val e) (look (P ino).*2)) (look (P' ino).*2) \/
     r = ENOMEM_es /\ es_allocs s <> [] /\ forgets (look (P ino).*2) (look (P' ino).*2)).

Lemma forgets_assigned lblk len v m m' : forgets m m' -> forgets (assigned lblk len v m) (assigned lblk len v m').
Proof. intros Hf b. unfold assigned. destruct (_ && _); [by left|apply Hf]. Qed.

Lemma assigned_cleared lblk len v m b : assigned lblk len v (cleared lblk (lblk + len - 1) m) b = assigned lblk len v m b.
Proof.
  unfold assigned, cleared. destruct (Z.leb_spec lblk b), (Z.ltb_spec b (lblk + len)), (Z.leb_spec b (lblk + len - 1)); cbn; done || lia.
Qed.

Lemma forgets_ext m1 m2 m' : (forall b, m1 b = m2 b) -> forgets m1 m' -> forgets m2 m'.
Proof. intros E Hf b. rewrite <- E. apply Hf. Qed.

(** An undelayed range that is empty was forgotten. *)
Lemma forgets_undelayed lblk len v m m' :
  (forall b, delayed_status (v b) = false) -> forgets (cleared lblk (lblk + len - 1) m) m' -> forgets (assigned lblk len v m) m'.
Proof.
  intros Hv Hf b. specialize (Hf b). unfold assigned, cleared in *.
  destruct (Z.leb_spec lblk b), (Z.ltb_spec b (lblk + len)), (Z.leb_spec b (lblk + len - 1)); cbn in *; try lia; try done.
  right. split; [by destruct Hf as [?|[? _]]|]. by intros ? [= <-].
Qed.

Lemma forgets_none m m' b : forgets m m' -> m b = None -> m' b = None.
Proof. intros Hf Hn. destruct (Hf b) as [->|[? _]]; done. Qed.

Lemma insert_retry_ok fuel ino e P s :
  wf P s -> es_ok e -> (forall b, es_lblk e <= b < eend e -> look (P ino).*2 b = None) -> (size (es_mem s) < fuel)%nat ->
  runs (insert_retry fuel ino e) s (inserted ino e P s).
Proof.
  intros Hw Oe. revert P s Hw. induction fuel as [|fuel IH]; intros P s Hw Hgap Hf; [lia|]. cbn [insert_retry]. pose proof Hw as [Hr Hs Hc].
  destruct (gap_split 0 (P ino) (es_lblk e) (eend e - 1)) as (l1 & l2 & E & Hl1 & Hl2);
    [done|destruct Oe; unfold eend; lia|intros b Hb; apply Hgap; lia|]. replace (eend e - 1 + 1) with (eend e) in Hl2 by lia.
  assert (Hs' := Hs ino). rewrite E in Hs'. apply runs_bind.
  eapply runs_conseq; [apply (insert_ok P s ino e l1 l2); [done|done|by apply gap_srt]|].
  intros r s1 [(-> & (P1 & Hr1 & Ho1 & Hs1 & Hl & (m & Hm & Hin)) & [Hf1 Ha1])|(-> & Hr1 & [Hf1 Ha1] & Hm1 & Ha)].
  - change (0 =? ENOMEM_es) with false. apply runs_ret. exists P1. split_and!; [split; [done| |]|done| |left; split; [done|]].
    + intros j. destruct (decide (j = ino)) as [->|Hj]; [done|]. by rewrite Ho1.
    + intros j n. destruct (decide (j = ino)) as [->|Hj]; [rewrite Hm; by intros [= <-]|]. rewrite Hf1, Ho1 by done. apply Hc.
    + intros j Hj. apply upto_eq. by rewrite Ho1.
    + apply upto_eq. intros b. rewrite Hl, E. by apply look_insert.
  - rewrite Z.eqb_refl. assert (Hw1 : wf P s1) by (split; [done|done|intros j n; rewrite Hf1; apply Hc]).
    apply runs_bind. eapply runs_conseq; [by apply (shrink_ok _ P)|]. intros k s2 (P2 & Hw2 & Hs2 & _ & Hz2 & Hk2).
    assert (Hfg : forall j, forgets (look (P j).*2) (look (P2 j).*2)) by (intros j; by eapply shrunk_look).
    destruct (Z.eqb_spec k 0) as [->|Hk]; cbn [negb].
    + apply runs_ret. exists P2. split_and!; [done|done| |right; split_and!; [done|done|apply Hfg]]. intros j Hj. split; [apply Hfg|done].
    + eapply runs_conseq; [apply (IH P2 s2 Hw2)|].
      { intros b Hb. eapply forgets_none; [apply Hfg|]. by apply Hgap. } { rewrite Hm1 in Hz2. lia. }
      intros r s3 (P3 & Hw3 & _ & Ho3 & Hr3). exists P3. split_and!; [done|done| |].
      * intros j Hj. split; [|done]. eapply forgets_trans; [apply Hfg|by apply Ho3].
      * destruct Hr3 as [[-> [Hu _]]|(-> & _ & Hu)]; [left|right].
        -- split; [done|]. split; [|done]. eapply forgets_trans; [by apply forgets_assigned, Hfg|done].
        -- split_and!; [done|done|]. by eapply forgets_trans.
Qed.

Lemma status_es status pblk lblk len :
  status_ok status -> 0 <= pblk < 2 ^ 64 -> 0 <= lblk -> 0 < len -> lblk + len <= EXT_MAX_BLOCKS ->
  let e := ext4_es_store_pblock_status pblk status (mk_es lblk len 0) in
  es_ok e /\ es_lblk e = lblk /\ es_len e = len /\ (forall b, val e b = status_at status pblk lblk b) /\
  ext4_es_is_delayed e = delayed_status (status, None).
Proof.
  intros Hst Hp Hl Hn Hend e. assert (Hr : 0 <= status < 2 ^ 5 /\ status mod 2 ^ 4 = status).
  { unfold status_ok in Hst. rewrite !elem_of_cons, elem_of_nil in Hst. destruct Hst as [->|[->|[->|[->|[->|[]]]]]]; done. }
  destruct Hr as [Hr Hmod]. destruct (store_pblock_status_ok pblk status lblk len Hp Hr) as (El & En & Et & Eb & Ew). fold e in El, En, Et, Eb, Ew.
  rewrite Hmod in Et. assert (Hflags : mapped e = negb (Z.land status (Z.lor EXTENT_STATUS_WRITTEN EXTENT_STATUS_UNWRITTEN) =? 0) /\ type_ok e).
  { unfold type_ok, mapped, ext4_es_is_written, ext4_es_is_unwritten, ext4_es_is_hole, ext4_es_is_delayed. rewrite Et. clear -Hst.
    unfold status_ok in Hst. rewrite !elem_of_cons, elem_of_nil in Hst. destruct Hst as [->|[->|[->|[->|[->|[]]]]]]; done. }
  destruct Hflags as [Hm Ht]. split_and!; [split; [lia|lia|unfold eend; lia|done|done]|done|done| |].
  - intros b. unfold val, status_at. rewrite Et, Hm, El, Eb. destruct (_ =? 0); [done|]. cbn [negb]. by rewrite Zplus_mod_idemp_l.
  - unfold ext4_es_is_delayed, delayed_status. by rewrite Et.
Qed.

(** C15: Inserting an extent: it returns, the trees stay well formed, and the map of
    the inode says of the range what the extent says, and of the other blocks
    what it said before, unless memory is short.  Then undelayed extents may be
    forgotten, in this and in other inodes, and -ENOMEM leaves the range either
    as it was or, for a delayed extent, empty.  With memory it is exact. *)
Theorem es_insert_assigns_range ino lblk len pblk status s :
  es_wf s -> 0 <= lblk -> 0 < len -> lblk + len <= EXT_MAX_BLOCKS -> 0 <= pblk < 2 ^ 64 -> status_ok status ->
  runs (ext4_es_insert_extent ino lblk len pblk status) s (fun r s' => es_wf s' /\
    let new := assigned lblk len (status_at status pblk lblk) (es_map s ino) in
    (es_allocs s = [] -> r = 0 /\ (forall b, es_map s' ino b = new b) /\ forall j b, j <> ino -> es_map s' j b = es_map s j b) /\
    (r = 0 /\ forgets new (es_map s' ino) \/
     r = ENOMEM_es /\ (forgets (es_map s ino) (es_map s' ino) \/
       delayed_status (status, None) = true /\ forgets (cleared lblk (lblk + len - 1) (es_map s ino)) (es_map s' ino))) /\
    forall j, j <> ino -> forgets (es_map s j) (es_map s' j)).
Proof.
  intros (P & Hw) Hl Hn Hend Hp Hst. destruct (status_es status pblk lblk len Hst Hp Hl Hn Hend) as (Oe & El & En & Ev & Ed).
  unfold ext4_es_insert_extent. cbv zeta. destruct (Z.eqb_spec len 0); [lia|].
  assert (Hu : u32 (lblk + len - 1) = lblk + len - 1) by (apply wrap_small; unfold EXT_MAX_BLOCKS in *; change (2 ^ 32) with 4294967296; lia).
  rewrite Hu. set (e := ext4_es_store_pblock_status pblk status (mk_es lblk len 0)) in *. clearbody e.
  apply runs_bind, runs_check; [apply Z.leb_le; lia|]. unfold es_fuel. rstep. rstep. rstep.
  eapply runs_conseq; [apply (remove_ok _ ino lblk (lblk + len - 1) P s); [done|lia|lia]|].
  intros r s1 (P1 & Hw1 & Ha1 & Ho1 & Hr1).
  rewrite (es_map_wf P s ino Hw). destruct Hr1 as [[-> [Hf1 Hx1]]|(-> & Hna & Hf1)].
  2: { change (negb (ENOMEM_es =? 0)) with true. apply runs_ret. split; [by exists P1|]. rewrite (es_map_wf P1 s1 ino Hw1).
       split_and!; [done|right; split; [done|by left]|]. intros j Hj. rewrite (es_map_wf P s j Hw), (es_map_wf P1 s1 j Hw1). by apply Ho1. }
  cbn [Z.eqb negb]. rstep. rstep. rstep. eapply runs_conseq; [apply (insert_retry_ok _ ino e P1 s1); [done|done| |lia]|].
  { intros b Hb. eapply forgets_none; [done|]. unfold cleared, eend in *. rewrite El, En in Hb.
    by rewrite (proj2 (Z.leb_le lblk b)), (proj2 (Z.leb_le b (lblk + len - 1))) by lia. }
  intros err s2 (P2 & Hw2 & Ha2 & Ho2 & Hr2). rewrite El, En in Hr2. apply runs_ret. split; [by exists P2|]. rewrite (es_map_wf P2 s2 ino Hw2).
  assert (Hother : forall j, j <> ino -> upto (es_allocs s = []) (es_map s j) (es_map s2 j)).
  { intros j Hj. rewrite (es_map_wf P s j Hw), (es_map_wf P2 s2 j Hw2). destruct (Ho1 j Hj) as [F1 X1], (Ho2 j Hj) as [F2 X2].
    split; [by eapply forgets_trans|]. intros Ha b. by rewrite X2, X1 by auto. }
  assert (Hnew : forall m b, assigned lblk len (val e) m b = assigned lblk len (status_at status pblk lblk) m b).
  { intros m b. unfold assigned. by rewrite Ev. }
  destruct Hr2 as [[-> [Hf2 Hx2]]|(-> & Hna & Hf2)].
  - change (0 =? ENOMEM_es) with false. cbn [andb]. split_and!.
    + intros Ha. split_and!; [done| |intros j b Hj; by apply Hother]. intros b. rewrite Hx2 by auto. rewrite Hnew. unfold assigned.
      destruct (_ && _) eqn:Eb; [done|]. rewrite Hx1 by done. unfold cleared.
      destruct (Z.leb_spec lblk b), (Z.ltb_spec b (lblk + len)), (Z.leb_spec b (lblk + len - 1)); cbn in *; done || lia.
    + left. split; [done|]. eapply forgets_trans; [|done]. eapply forgets_ext; [|by apply forgets_assigned].
      intros b. by rewrite Hnew, assigned_cleared.
    + intros j Hj. by apply Hother.
  - rewrite Z.eqb_refl, Ed. cbn [andb]. assert (Hc : forgets (cleared lblk (lblk + len - 1) (look (P ino).*2)) (look (P2 ino).*2)) by (by eapply forgets_trans).
    split_and!; [by intros Ha%Ha1| |intros j Hj; by apply Hother]. destruct (delayed_status (status, None)) eqn:Edel; cbn [negb]; [right|left].
    + split; [done|by right].
    + split; [done|]. by apply forgets_undelayed.
Qed.

(** C16: Removing a range: it returns, the trees stay well formed, and the range is
    empty in the map of the inode, the rest as before; when memory is short
    undelayed extents may be forgotten, and -ENOMEM leaves the range alone. *)
Theorem es_remove_clears_range ino lblk len s :
  es_wf s -> 0 <= lblk -> 0 < len -> lblk + len <= 2 ^ 32 ->
  runs (ext4_es_remove_extent ino lblk len) s (fun r s' => es_wf s' /\
    (es_allocs s = [] -> r = 0 /\ (forall b, es_map s' ino b = cleared lblk (lblk + len - 1) (es_map s ino) b) /\
       forall j b, j <> ino -> es_map s' j b = es_map s j b) /\
    (r = 0 /\ forgets (cleared lblk (lblk + len - 1) (es_map s ino)) (es_map s' ino) \/
     r = ENOMEM_es /\ forgets (es_map s ino) (es_map s' ino)) /\
    forall j, j <> ino -> forgets (es_map s j) (es_map s' j)).
Proof.
  intros (P & Hw) Hl Hn Hend. unfold ext4_es_remove_extent. destruct (Z.eqb_spec len 0); [lia|]. cbv zeta.
  rewrite (wrap_small 32 (lblk + len - 1)) by (split; [lia|]; change (2 ^ 32) with 4294967296 in *; lia).
  apply runs_bind, runs_check; [apply Z.leb_le; lia|]. unfold es_fuel. rstep. rstep.
  eapply runs_conseq; [apply (remove_ok _ ino lblk (lblk + len - 1) P s); [done|lia|lia]|].
  intros r s1 (P1 & Hw1 & Ha1 & Ho1 & Hr1). split; [by exists P1|]. rewrite (es_map_wf P s ino Hw), (es_map_wf P1 s1 ino Hw1).
  assert (Hother : forall j, j <> ino -> upto (es_allocs s = []) (es_map s j) (es_map s1 j)).
  { intros j Hj. rewrite (es_map_wf P s j Hw), (es_map_wf P1 s1 j Hw1). by apply Ho1. }
  split_and!; [|destruct Hr1 as [[-> [? _]]|(-> & _ & ?)]; [by left|by right]|intros j Hj; by apply Hother].
  intros Ha. destruct Hr1 as [[-> [_ Hx]]|(_ & ? & _)]; [|done]. split_and!; [done|by apply Hx|]. intros j b Hj. by apply Hother.
Qed.

(** ** Looking up *)

Lemma wf_stats P s h : wf P s -> wf P (s <| es_stats_cache_hits := h |>).
Proof. intros [[[H1 H2 H3 H4 H5 H6 H7 H8 H9 H10 H11 H12] Ht] Hs Hc]. destruct s; simpl in *. split; [split; [split|]|..]; done. Qed.

Lemma wf_stats' P s h : wf P s -> wf P (s <| es_stats_cache_misses := h |>).
Proof. intros [[[H1 H2 H3 H4 H5 H6 H7 H8 H9 H10 H11 H12] Ht] Hs Hc]. destruct s; simpl in *. split; [split; [split|]|..]; done. Qed.

Lemma cached_ok P s ino lblk :
  wf P s -> runs (cached_es ino lblk) s (fun c s' => s' = s /\
    match c with
    | Some n => exists e l1 l2, P ino = l1 ++ (n, e) :: l2 /\ es_lblk e <= lblk < eend e
    | None => True
    end).
Proof.
  intros [[Ho Ht] Hs Hc]. unfold cached_es. rstep. rstep. destruct (cache_es (es_inodes s ino)) as [n|] eqn:En; [|by apply runs_ret].
  specialize (Hc ino n En). apply list_elem_of_fmap in Hc as ([m e] & -> & Hin). cbn [fst].
  rstep. eapply (runs_deref P); [done|done|]. apply runs_ret. split; [done|]. unfold es_in_range.
  apply list_elem_of_split in Hin as (l1 & l2 & E). specialize (Hs ino). rewrite E in Hs. destruct (srt_split _ _ _ _ _ Hs) as (_ & Oe & _).
  rewrite wrap_small by (destruct Oe; unfold eend, EXT_MAX_BLOCKS in *; change (2 ^ 32) with 4294967296; lia).
  destruct (Z.leb_spec (es_lblk e) lblk), (Z.leb_spec lblk (es_lblk e + es_len e - 1)); cbn; try done.
  exists e, l1, l2. split; [done|]. unfold eend. lia.
Qed.

(** C17: A lookup finds the extent of a block exactly when the map knows the block:
    every block of the extent has the status the map says, whether the answer
    comes from the cache or from the tree; the map does not change. *)
Theorem es_lookup_is_map ino lblk s :
  es_wf s ->
  runs (ext4_es_lookup_extent ino lblk) s (fun o s' => es_wf s' /\ (forall j b, es_map s' j b = es_map s j b) /\
    match o with
    | Some e => es_lblk e <= lblk < eend e /\ forall b, es_lblk e <= b < eend e -> es_map s ino b = Some (val e b)
    | None => es_map s ino lblk = None
    end).
Proof.
  intros (P & Hw). pose proof Hw as [Hr Hs Hc]. pose proof Hr as [Ho Ht]. unfold ext4_es_lookup_extent, get_root. rstep. rstep. apply runs_bind.
  eapply runs_conseq; [by apply (cached_ok P)|]. intros c s' [-> Hcache].
  apply runs_bind. apply (runs_conseq _ _ (fun (r : bool * option nat) s' => s' = s /\
    if r.1 then exists n e l1 l2, r.2 = Some n /\ P ino = l1 ++ (n, e) :: l2 /\ es_lblk e <= lblk < eend e else look (P ino).*2 lblk = None)).
  { destruct c as [n|]; [apply runs_ret; split; [done|]; destruct Hcache as (e & l1 & l2 & ? & ?); by exists n, e, l1, l2|].
    eapply runs_conseq; [by apply (search_walk_ok P s ino _ (P ino) 0)|]. intros [[] es] s' [-> Hres]; (split; [done|]); cbn in *; [done|].
    destruct Hres as (l1 & l2 & E & H1 & H2 & _). rewrite E. by apply (look_gap _ _ lblk lblk). }
  intros [found es] s' [-> Hfound]; cbn [fst snd] in *. destruct found.
  - destruct Hfound as (n & e & l1 & l2 & -> & E & Hb). assert (Hs' := Hs ino). rewrite E in Hs'. destruct (srt_split _ _ _ _ _ Hs') as (_ & Oe & _).
    rstep. eapply (runs_deref P); [done|rewrite E; apply elem_of_app; right; left|]. apply runs_bind.
    apply (runs_conseq _ _ (fun _ s1 => exists P1, wf P1 s1 /\ forall j b, look (P1 j).*2 b = look (P j).*2 b)).
    { destruct (ext4_es_is_referenced e); [apply runs_ret; by exists P|]. pose proof (set_referenced_same e (eo_pblk _ Oe)) as Hsame.
      set (f := ext4_es_set_referenced e) in *. eapply runs_conseq; [eapply (write_rep P s ino n e f l1 l2); [done|done|]|].
      { destruct Hsame as (_ & _ & Et & _). by destruct (flags_of_type _ _ Et) as (_ & -> & _). }
      intros [] s1 (Hr1 & [Hf1 _] & _). exists (<[ino := l1 ++ (n, f) :: l2]> P). split; [split; [done| |]|].
      - intros j. rewrite ghost_upd. case_decide; [|done]. rewrite fmap_app in *. by eapply srt_same.
      - intros j m. rewrite Hf1, ghost_upd. intros Hm%Hc. case_decide; [subst j|done]. rewrite E, fmap_app in Hm. by rewrite fmap_app.
      - intros j b. rewrite ghost_upd. case_decide; [subst j|done]. rewrite E, !fmap_app. by apply look_same. }
    intros [] s1 (P1 & Hw1 & Hl1). rstep. rstep. apply runs_ret. assert (Hw2 : wf P1 (s1 <| es_stats_cache_hits ::= fun k => k + 1 |>)) by (by apply wf_stats).
    split_and!; [by exists P1| |apply Hb|apply Hb|].
    + intros j b. rewrite (es_map_wf P1 _ j Hw2), (es_map_wf P s j Hw). apply Hl1.
    + intros b Hbb. rewrite (es_map_wf P s ino Hw), E, fmap_app. rewrite fmap_app in Hs'. by apply look_in.
  - rstep. rstep. apply runs_ret. assert (Hw2 : wf P (s <| es_stats_cache_misses ::= fun k => k + 1 |>)) by (by apply wf_stats').
    split_and!; [by exists P| |by rewrite (es_map_wf P s ino Hw)]. intros j b. by rewrite (es_map_wf P _ j Hw2), (es_map_wf P s j Hw).
Qed.

(** ** Delayed extents *)

Definition undelayed (l : list node) : Prop := Forall (fun x => ext4_es_is_delayed x.2 = false) l.

Lemma look_undelayed (l k : list node) b v :
  undelayed l -> look (l ++ k).*2 b = Some v -> later (b + 1) k -> delayed_status v = false.
Proof.
  intros Hl Hv Hk. rewrite fmap_app, look_app in Hv. induction Hl as [|x l Hx _ IH]; cbn in Hv.
  - pose proof (look_gap [] k b b b ltac:(constructor) Hk ltac:(lia)) as Hn. cbn in Hn. by rewrite Hn in Hv.
  - destruct (_ && _); [|by apply IH]. injection Hv as <-. exact Hx.
Qed.

Lemma delayed_loop_ok fuel P s ino end_ n e l1 l2 :
  rep P s -> P ino = l1 ++ (n, e) :: l2 -> (length l2 < fuel)%nat -> ext4_es_is_delayed e = false ->
  runs (delayed_loop fuel (es_root (es_inodes s ino)) end_ n) s (fun o s' => s' = s /\ exists a k, l2 = a ++ k /\ undelayed a /\
    match o with
    | Some m => (exists f k', k = (m, f) :: k' /\ ext4_es_is_delayed f = true) \/
                (k = [] /\ exists f, (m, f) ∈ P ino /\ ext4_es_is_delayed f = false)
    | None => exists m f k', k = (m, f) :: k' /\ end_ < es_lblk f
    end).
Proof.
  intros Hr. revert n e l1 l2. induction fuel as [|fuel IH]; intros n e l1 l2 E Hf Hd; [lia|]. cbn [delayed_loop].
  rewrite (next_ok P s ino n e l1 l2 Hr E). destruct l2 as [|[m f] l2]; cbn [fmap list_fmap head fst].
  { apply runs_ret. split; [done|]. exists [], []. split_and!; [done|constructor|]. right. split; [done|]. exists e. split; [|done].
    rewrite E. apply elem_of_app. right. left. }
  rstep. eapply (runs_deref P); [apply Hr|rewrite E; apply elem_of_app; right; right; left|]. destruct (Z.ltb_spec end_ (es_lblk f)).
  { apply runs_ret. split; [done|]. exists [], ((m, f) :: l2). split_and!; [done|constructor|]. by exists m, f, l2. }
  destruct (ext4_es_is_delayed f) eqn:Ef.
  { apply runs_ret. split; [done|]. exists [], ((m, f) :: l2). split_and!; [done|constructor|]. left. by exists f, l2. }
  eapply runs_conseq; [apply (IH m f (l1 ++ [(n, e)]) l2); [by rewrite <- app_assoc|cbn in Hf; lia|done]|].
  intros o s' (-> & a & k & -> & Ha & Ho). split; [done|]. exists ((m, f) :: a), k. split_and!; [done|by constructor|done].
Qed.

(** Where the search for a delayed extent ends: at a delayed one with only
    undelayed ones in front of it, or behind the last block of interest. *)
Lemma find_delayed_ok P s ino lblk end_ :
  wf P s -> lblk <= end_ ->
  runs (find_delayed ino lblk end_) s (fun o s' => s' = s /\ exists l1 a k, P ino = l1 ++ a ++ k /\ ended lblk l1 /\ undelayed a /\
    match o with
    | Some m => (exists f k', k = (m, f) :: k' /\ lblk < eend f /\ ext4_es_is_delayed f = true) \/
                (k = [] /\ exists f, (m, f) ∈ P ino /\ ext4_es_is_delayed f = false)
    | None => later (end_ + 1) k
    end).
Proof.
  intros Hw Hle. pose proof Hw as [Hr Hs Hc]. pose proof Hr as [Ho Ht]. unfold find_delayed, get_root. rstep. rstep. apply runs_bind.
  eapply runs_conseq; [by apply (cached_ok P)|]. intros c s' [-> Hcache]. apply runs_bind.
  apply (runs_conseq _ _ (fun o s' => s' = s /\ exists l1 l2, P ino = l1 ++ l2 /\ ended lblk l1 /\ o = head l2.*1 /\
      forall x, head l2 = Some x -> lblk < eend x.2)).
  { destruct c as [n|]; [|by apply tree_search_ok]. destruct Hcache as (e & l1 & l2 & E & Hb). apply runs_ret. split; [done|].
    exists l1, ((n, e) :: l2). assert (Hs' := Hs ino). rewrite E in Hs'. destruct (srt_split _ _ _ _ _ Hs') as (_ & _ & He & _).
    split_and!; [done|eapply ended_weaken; [|done]; lia|done|]. intros x [= <-]. cbn. lia. }
  intros o s' (-> & l1 & l2 & E & Hl1 & -> & Hh). destruct l2 as [|[n e] l2]; cbn [fmap list_fmap head fst].
  { apply runs_ret. split; [done|]. exists l1, [], []. rewrite E. split_and!; [done|done|constructor|constructor]. }
  specialize (Hh _ eq_refl). cbn in Hh. rstep. eapply (runs_deref P); [done|rewrite E; apply elem_of_app; right; left|].
  destruct (ext4_es_is_delayed e) eqn:Ed.
  { apply runs_ret. split; [done|]. exists l1, [], ((n, e) :: l2). split_and!; [done|done|constructor|]. left. by exists e, l2. }
  eapply runs_conseq; [apply (delayed_loop_ok _ P s ino end_ n e l1 l2); [done|done| |done]|].
  { rewrite Ht, E, length_fmap, length_app. cbn. lia. }
  intros o s' (-> & a & k & -> & Ha & Hres). split; [done|]. exists l1, ((n, e) :: a), k. split_and!; [done|done|by constructor|].
  assert (Hs' := Hs ino). rewrite E in Hs'. destruct o as [m|].
  - destruct Hres as [(f & k' & -> & Hf)|?]; [left|by right]. exists f, k'. split_and!; [done| |done].
    destruct (srt_split _ _ _ _ _ Hs') as (_ & _ & _ & Hlat & S2). rewrite fmap_app in S2. apply srt_app in S2 as (_ & _ & Of & _).
    apply Forall_app in Hlat as [_ [Hf1 _]%Forall_cons]. cbn in Hf1, Of. destruct Of. unfold eend in *. lia.
  - destruct Hres as (m & f & k' & -> & Hf). rewrite app_comm_cons, app_assoc in Hs'. destruct (srt_split _ _ _ _ _ Hs') as (_ & Of & _ & Hlat & _).
    constructor; [cbn; lia|]. eapply later_weaken; [|done]. destruct Of. unfold eend. lia.
Qed.

(** The search for a delayed extent gives the first one that does not end
    before [lblk], with no delayed block in front of it; when it gives none,
    there is no delayed block in the range.  The map does not change. *)
Theorem es_find_delayed_is_first ino lblk end_ s :
  es_wf s -> lblk <= end_ ->
  runs (ext4_es_find_delayed_extent_range ino lblk end_) s (fun e s' => es_wf s' /\ (forall j b, es_map s' j b = es_map s j b) /\
    if es_len e =? 0 then forall b v, lblk <= b <= end_ -> es_map s ino b = Some v -> delayed_status v = false
    else lblk < eend e /\ ext4_es_is_delayed e = true /\
      (forall b, es_lblk e <= b < eend e -> es_map s ino b = Some (val e b)) /\
      forall b v, lblk <= b < es_lblk e -> es_map s ino b = Some v -> delayed_status v = false).
Proof.
  intros (P & Hw) Hle. pose proof Hw as [Hr Hs Hc]. pose proof Hr as [Ho Ht]. rewrite (es_map_wf P s ino Hw).
  unfold ext4_es_find_delayed_extent_range. apply runs_bind, runs_check; [by apply Z.leb_le|].
  assert (Hnb : forall l1 a k b v, P ino = l1 ++ a ++ k -> ended lblk l1 -> undelayed a -> later (b + 1) k -> lblk <= b ->
    look (P ino).*2 b = Some v -> delayed_status v = false).
  { intros l1 a k b v E H1 H2 H3 Hb Hv. rewrite E, fmap_app, look_app in Hv.
    pose proof (look_gap l1 [] b b b ltac:(by eapply ended_weaken) ltac:(constructor) ltac:(lia)) as Hn. rewrite app_nil_r in Hn. rewrite Hn in Hv.
    by eapply look_undelayed. }
  apply runs_bind. eapply runs_conseq; [by apply (find_delayed_ok P s)|]. intros o s' (-> & l1 & a & k & E & Hl1 & Ha & Hres).
  assert (Hzero : later (end_ + 1) k -> es_wf s /\ (forall j b, es_map s j b = es_map s j b) /\
    forall b v, lblk <= b <= end_ -> look (P ino).*2 b = Some v -> delayed_status v = false).
  { intros Hk. split_and!; [by exists P|done|]. intros b v Hb. eapply Hnb; [done|done|done| |lia]. eapply later_weaken; [|done]. lia. }
  destruct o as [m|]; [|apply runs_ret; by apply Hzero].
  destruct Hres as [(f & k' & -> & Hf & Hd)|(-> & f & Hin & Hd)].
  - rstep. eapply (runs_deref P); [done|rewrite E; apply elem_of_app; right; apply elem_of_app; right; left|]. rewrite Hd. unfold set_cache. rstep. rstep.
    destruct (rep_set_cache P s ino (Some m) Hr) as (Hr' & [Hc' _] & Hm' & _). set (s' := upd_ei _ _ s) in *. apply runs_ret.
    assert (Hw' : wf P s').
    { split; [done|done|]. intros j n. destruct (decide (j = ino)) as [->|Hj]; [|rewrite Hc' by done; apply Hc]. rewrite Hm'. intros [= <-].
      rewrite E, !fmap_app. apply elem_of_app. right. apply elem_of_app. right. left. }
    assert (Hs' := Hs ino). rewrite E, app_assoc in Hs'. destruct (srt_split _ _ _ _ _ Hs') as (_ & Of & _ & Hlat & _).
    rewrite (proj2 (Z.eqb_neq (es_len f) 0)) by (destruct Of; lia). split_and!; [by exists P| |done|done| |].
    + intros j b. by rewrite (es_map_wf P s' j Hw'), (es_map_wf P s j Hw).
    + intros b Hb. rewrite E, app_assoc, fmap_app. rewrite fmap_app in Hs'. by apply look_in.
    + intros b v Hb. eapply Hnb; [done|done|done| |lia]. constructor; [cbn; lia|]. eapply later_weaken; [|done]. destruct Of. unfold eend. lia.
  - rstep. eapply (runs_deref P); [done|done|]. rewrite Hd. apply runs_ret. apply Hzero. constructor.
Qed.

(** C18: The shrinker called for memory returns, forgets only undelayed extents and
    reports how many it freed. *)
Theorem es_scan_keeps_delayed nr s :
  es_wf s -> nr <> 0 ->
  runs (ext4_es_scan nr) s (fun k s' => es_wf s' /\ 0 <= k /\
    es_stats_all_cnt s' + k = es_stats_all_cnt s /\ forall j, forgets (es_map s j) (es_map s' j)).
Proof.
  intros (P & Hw) Hnr. unfold ext4_es_scan, ext4_es_count. rstep. rstep. rewrite (proj2 (Z.eqb_neq _ _) Hnr).
  eapply runs_conseq; [by apply (shrink_ok None P)|]. intros k s1 (P1 & Hw1 & Hs1 & _ & Hz & Hk). split_and!; [by exists P1|done| |].
  - destruct Hw as [[Ho _] _ _], Hw1 as [[Ho1 _] _ _]. rewrite (ow_all_cnt _ _ Ho), (ow_all_cnt _ _ Ho1). lia.
  - intros j. rewrite (es_map_wf P s j Hw), (es_map_wf P1 s1 j Hw1). eapply shrunk_look; [done|apply Hw].
Qed.

(** Caching what the extent tree on disk says adds to the map only where
    nothing is known of any block of the range. *)
Theorem es_cache_extent_adds ino lblk len pblk status s :
  es_wf s -> 0 <= lblk -> 0 < len -> lblk + len <= EXT_MAX_BLOCKS -> 0 <= pblk < 2 ^ 64 -> status_ok status ->
  runs (ext4_es_cache_extent ino lblk len pblk status) s (fun _ s' => es_wf s' /\
    (forall j b, j <> ino -> es_map s' j b = es_map s j b) /\
    ((forall b, es_map s' ino b = es_map s ino b) /\ (es_allocs s = [] -> exists b, lblk <= b < lblk + len /\ es_map s ino b <> None) \/
     (forall b, lblk <= b < lblk + len -> es_map s ino b = None) /\
     forall b, es_map s' ino b = assigned lblk len (status_at status pblk lblk) (es_map s ino) b)).
Proof.
  intros (P & Hw) Hl Hn Hend Hp Hst. destruct (status_es status pblk lblk len Hst Hp Hl Hn Hend) as (Oe & El & En & Ev & Ed).
  unfold ext4_es_cache_extent. cbv zeta. destruct (Z.eqb_spec len 0); [lia|].
  assert (Hu : u32 (lblk + len - 1) = lblk + len - 1) by (apply wrap_small; unfold EXT_MAX_BLOCKS in *; change (2 ^ 32) with 4294967296; lia).
  rewrite Hu. set (e := ext4_es_store_pblock_status pblk status (mk_es lblk len 0)) in *. clearbody e.
  apply runs_bind, runs_check; [apply Z.leb_le; lia|]. pose proof Hw as [Hr Hs Hc]. pose proof Hr as [Ho Ht]. unfold get_root. rstep. rstep. apply runs_bind.
  eapply runs_conseq; [by apply (tree_search_ok P s ino)|]. intros o s' (-> & l1 & l2 & E & Hl1 & -> & Hh). apply runs_bind.
  apply (runs_conseq _ _ (fun go s' => s' = s /\ if go : bool then later (lblk + len) l2 else exists b, lblk <= b < lblk + len /\ es_map s ino b <> None)).
  { destruct l2 as [|[m f] l2]; cbn [fmap list_fmap head fst]; [apply runs_ret; split; [done|constructor]|].
    specialize (Hh _ eq_refl). cbn in Hh. rstep. eapply (runs_deref P); [done|rewrite E; apply elem_of_app; right; left|]. apply runs_ret. split; [done|].
    assert (Hs' := Hs ino). rewrite E in Hs'. destruct (srt_split _ _ _ _ _ Hs') as (_ & Of & _ & L2 & _).
    assert (Hlt : es_lblk f < eend f) by (destruct Of; unfold eend; lia). destruct (Z.ltb_spec (lblk + len - 1) (es_lblk f)).
    - constructor; [cbn; lia|]. eapply later_weaken; [|done]. lia.
    - exists (Z.max lblk (es_lblk f)). split; [lia|]. rewrite (es_map_wf P s ino Hw), E, fmap_app. rewrite fmap_app in Hs'.
      cbn [fmap list_fmap snd]. rewrite look_in; [done|done|lia]. }
  intros go s' [-> Hgo]. destruct go.
  2: { apply runs_ret. split_and!; [by exists P|done|left; by split]. }
  assert (He : ended (es_lblk e) l1 /\ later (eend e) l2) by (unfold eend; by rewrite El, En). destruct He as [He1 He2].
  assert (Hs' := Hs ino). rewrite E in Hs'. assert (Hgap : forall b, lblk <= b < lblk + len -> es_map s ino b = None).
  { intros b Hb. rewrite (es_map_wf P s ino Hw), E. apply (look_gap _ _ lblk (lblk + len - 1)); [done| |lia]. by replace (lblk + len - 1 + 1) with (lblk + len) by lia. }
  apply runs_bind. eapply runs_conseq; [apply (insert_ok P s ino e l1 l2); [done|done|by apply gap_srt]|].
  intros r s1 [(-> & (P1 & Hr1 & Ho1 & Hs1 & Hlook & (m & Hm & Hin)) & [Hf1 _])|(-> & Hr1 & [Hf1 _] & Hm1 & Ha)]; apply runs_ret.
  - assert (Hw1 : wf P1 s1).
    { split; [done| |].
      - intros j. destruct (decide (j = ino)) as [->|Hj]; [done|]. by rewrite Ho1.
      - intros j n'. destruct (decide (j = ino)) as [->|Hj]; [rewrite Hm; by intros [= <-]|]. rewrite Hf1, Ho1 by done. apply Hc. }
    split_and!; [by exists P1| |right; split; [done|]].
    + intros j b Hj. by rewrite (es_map_wf P1 s1 j Hw1), (es_map_wf P s j Hw), Ho1.
    + intros b. rewrite (es_map_wf P1 s1 ino Hw1), (es_map_wf P s ino Hw), Hlook, E, look_insert by done. rewrite El, En. unfold assigned. by rewrite Ev.
  - assert (Hw1 : wf P s1) by (split; [done|done|intros j n'; rewrite Hf1; apply Hc]).
    assert (Hsame : forall j, es_map s1 j = es_map s j) by (intros j; by rewrite (es_map_wf P s1 _ Hw1), (es_map_wf P s _ Hw)).
    split_and!; [by exists P|intros j b _; by rewrite Hsame|left; split; [intros b; by rewrite Hsame|done]].
Qed.
End theorems.

(** ** A small file system

    Inode 1 has five written blocks from 10 on and three delayed ones from 20
    on. *)

Definition es_a : extent_status := ext4_es_store_pblock_status 100 EXTENT_STATUS_WRITTEN (mk_es 10 5 0).
Definition es_b : extent_status := ext4_es_store_pblock_status 0 EXTENT_STATUS_DELAYED (mk_es 20 3 0).

Definition ei_none : es_inode := mk_es_inode RbNull None 0 0 0 false.
Definition ei_one : es_inode := mk_es_inode (RbNode (RbNode RbNull 0 RbNull) 1 RbNull) (Some 0%nat) 2 1 0 false.

Definition es_small : esfs :=
  mk_esfs {[ 0%nat := es_a; 1%nat := es_b ]} 2 [] [] (fun i => if decide (i = 1%nat) then ei_one else ei_none) [1%nat] 1 2 1 0 0 0.

Definition ghost_small : ghost := fun i => if decide (i = 1%nat) then [(0%nat, es_a); (1%nat, es_b)] else [].

Lemma es_small_wf : es_wf es_small.
Proof.
  exists ghost_small. unfold ghost_small. split; [split; [split|]|..].
  - intros n e. cbn [es_mem es_small]. split.
    + rewrite lookup_insert_Some, lookup_singleton_Some. intros [[<- <-]|[_ [<- <-]]]; exists 1%nat; rewrite decide_True by done; rewrite !elem_of_cons; tauto.
    + intros (i & Hi). case_decide; [|by apply elem_of_nil in Hi]. rewrite !elem_of_cons, elem_of_nil in Hi.
      by destruct Hi as [[= -> ->]|[[= -> ->]|[]]].
  - intros i. case_decide; cbn; repeat constructor; rewrite ?elem_of_cons, ?elem_of_nil; by intros [|[]] || by intros [].
  - intros i j n. case_decide; case_decide; cbn; subst; try done; by intros ?%elem_of_nil || by intros ? ?%elem_of_nil.
  - intros n e. cbn [es_mem es_small next_es]. rewrite lookup_insert_Some, lookup_singleton_Some.
    intros [[<- _]|[_ [<- _]]]; lia.
  - intros i. by case_decide.
  - intros i. cbn. by case_decide.
  - intros i. cbn. by case_decide.
  - apply NoDup_singleton.
  - intros i. cbn [s_es_list es_small]. rewrite list_elem_of_singleton. by case_decide.
  - done.
  - done.
  - done.
  - intros i. cbn. by case_decide.
  - intros i. case_decide; [|done]. cbn. split_and!; try done; split; try done.
  - intros i n. cbn. case_decide; [|done]. intros [= <-]. left.
Qed.

(** Overwriting the middle of the written extent with an unwritten one. *)
Lemma es_insert_assigns_range_witness :
  runs (ext4_es_insert_extent 1 12 2 500 EXTENT_STATUS_UNWRITTEN) es_small (fun r s' => r = 0 /\ es_map s' 1 13 = Some (2, Some 501)).
Proof.
  eapply runs_conseq; [apply (es_insert_assigns_range 1 12 2 500 EXTENT_STATUS_UNWRITTEN es_small); [apply es_small_wf|lia|lia|done|done|]|].
  - unfold status_ok. right. left.
  - cbv zeta. intros r s' (_ & Hex & _). destruct (Hex eq_refl) as (-> & Hm & _). split; [done|]. by rewrite Hm.
Defined.

Lemma es_remove_clears_range_witness :
  runs (ext4_es_remove_extent 1 12 9) es_small (fun r s' => r = 0 /\ es_map s' 1 20 = None /\ es_map s' 1 21 = Some (4, None) /\ es_map s' 1 11 = Some (1, Some 101)).
Proof.
  eapply runs_conseq; [apply (es_remove_clears_range 1 12 9 es_small); [apply es_small_wf|lia|lia|done]|].
  cbv zeta. intros r s' (_ & Hex & _). destruct (Hex eq_refl) as (-> & Hm & _). by rewrite !Hm.
Defined.

Lemma es_lookup_is_map_witness :
  runs (ext4_es_lookup_extent 1 22) es_small (fun o _ => match o with Some e => es_lblk e <= 22 < eend e | None => False end).
Proof.
  eapply runs_conseq; [apply (es_lookup_is_map 1 22 es_small es_small_wf)|]. intros [e|] s' (_ & _ & Ho); [apply Ho|]. by vm_compute in Ho.
Defined.

Lemma es_find_delayed_is_first_witness :
  runs (ext4_es_find_delayed_extent_range 1 3 30) es_small (fun e _ => ext4_es_is_delayed e = true).
Proof.
  eapply runs_conseq; [apply (es_find_delayed_is_first 1 3 30 es_small es_small_wf); lia|]. intros e s' (_ & _ & He). destruct (es_len e =? 0); [|apply He].
  specialize (He 20 _ ltac:(lia) eq_refl). by vm_compute in He.
Defined.

Lemma es_scan_keeps_delayed_witness :
  runs (ext4_es_scan 128) es_small (fun k s' => 0 <= k /\ es_map s' 1 20 = Some (4, None)).
Proof.
  eapply runs_conseq; [by apply (es_scan_keeps_delayed 128 es_small es_small_wf)|]. intros k s' (_ & Hk & _ & Hf). split; [done|].
  destruct (Hf 1%nat 20) as [->|[_ Hd]]; [done|]. by specialize (Hd _ eq_refl).
Defined.

Lemma es_cache_extent_adds_witness :
  runs (ext4_es_cache_extent 1 30 4 700 EXTENT_STATUS_WRITTEN) es_small (fun _ s' => es_wf s').
Proof.
  eapply runs_conseq; [apply (es_cache_extent_adds 1 30 4 700 EXTENT_STATUS_WRITTEN es_small); [apply es_small_wf|lia|lia|done|done|]|].
  - left.
  - by intros _ s' (Hw & _).
Defined.
