(* ===== verification/BlockGroup.v ===== *)
(** * mqfs: block groups (balloc.c and its helpers in ext4.h, super.c, ialloc.c
    and bitmap.c)

    The geometry of the file system, the clusters of a group that hold metadata,
    and the bitmap of a group that was never written. *)

From S2P Require Import Prelude.

(** The fields of [ext4_sb_info] and [ext4_super_block] that are read here;
    features and options are booleans. *)
Record ext4_sb_info := mk_sbi {
  s_blocksize : Z;
  s_blocksize_bits : Z;
  s_cluster_bits : Z;
  s_cluster_ratio : Z;
  s_blocks_per_group : Z;
  s_clusters_per_group : Z;
  s_desc_per_block : Z;
  s_desc_per_block_bits : Z;
  s_desc_size : Z;
  s_groups_count : Z;
  s_itb_per_group : Z;         (* blocks of an inode table *)
  s_gdb_count : Z;
  s_log_groups_per_flex : Z;
  s_csum_seed : Z;
  s_first_data_block : Z;
  s_blocks_count_lo : Z;
  s_blocks_count_hi : Z;
  s_r_blocks_count_lo : Z;
  s_r_blocks_count_hi : Z;
  s_first_meta_bg : Z;
  s_reserved_gdt_blocks : Z;
  s_backup_bgs : Z * Z;
  std_group_size : bool;       (* test_opt2(sb, STD_GROUP_SIZE) *)
  feature_meta_bg : bool;
  feature_flex_bg : bool;
  feature_sparse_super : bool;
  feature_sparse_super2 : bool;
  feature_gdt_csum : bool;
  metadata_csum : bool;
}.

Record ext4_group_desc := mk_gdp {
  bg_block_bitmap_lo : Z;
  bg_block_bitmap_hi : Z;
  bg_inode_bitmap_lo : Z;
  bg_inode_bitmap_hi : Z;
  bg_inode_table_lo : Z;
  bg_inode_table_hi : Z;
  bg_free_blocks_count_lo : Z;
  bg_free_blocks_count_hi : Z;
  bg_free_inodes_count_lo : Z;
  bg_free_inodes_count_hi : Z;
  bg_flags : Z;
  bg_block_bitmap_csum_lo : Z;
  bg_block_bitmap_csum_hi : Z;
}.

(** ** Numbers kept in two halves *)

Definition EXT4_MIN_DESC_SIZE_64BIT : Z := 64.

(** [lo | hi << w], with the high half only in descriptors of 64 bytes. *)
Definition desc_halves (sbi : ext4_sb_info) (w lo hi : Z) : Z :=
  Z.lor lo (if EXT4_MIN_DESC_SIZE_64BIT <=? s_desc_size sbi then Z.shiftl hi w else 0).

Definition ext4_block_bitmap (sbi : ext4_sb_info) (bg : ext4_group_desc) : Z :=
  desc_halves sbi 32 (bg_block_bitmap_lo bg) (bg_block_bitmap_hi bg).
Definition ext4_inode_bitmap (sbi : ext4_sb_info) (bg : ext4_group_desc) : Z :=
  desc_halves sbi 32 (bg_inode_bitmap_lo bg) (bg_inode_bitmap_hi bg).
Definition ext4_inode_table (sbi : ext4_sb_info) (bg : ext4_group_desc) : Z :=
  desc_halves sbi 32 (bg_inode_table_lo bg) (bg_inode_table_hi bg).
Definition ext4_free_group_clusters (sbi : ext4_sb_info) (bg : ext4_group_desc) : Z :=
  desc_halves sbi 16 (bg_free_blocks_count_lo bg) (bg_free_blocks_count_hi bg).
Definition ext4_free_inodes_count (sbi : ext4_sb_info) (bg : ext4_group_desc) : Z :=
  desc_halves sbi 16 (bg_free_inodes_count_lo bg) (bg_free_inodes_count_hi bg).

Definition ext4_blocks_count (sbi : ext4_sb_info) : Z :=
  Z.lor (Z.shiftl (s_blocks_count_hi sbi) 32) (s_blocks_count_lo sbi).
Definition ext4_r_blocks_count (sbi : ext4_sb_info) : Z :=
  Z.lor (Z.shiftl (s_r_blocks_count_hi sbi) 32) (s_r_blocks_count_lo sbi).

(** ** Blocks, clusters and groups *)

Definition EXT4_B2C (sbi : ext4_sb_info) (blk : Z) : Z := Z.shiftr blk (s_cluster_bits sbi).
Definition EXT4_C2B (sbi : ext4_sb_info) (cluster : Z) : Z := Z.shiftl cluster (s_cluster_bits sbi).
(** of an [unsigned int] *)
Definition EXT4_NUM_B2C (sbi : ext4_sb_info) (blks : Z) : Z :=
  Z.shiftr (u32 (blks + s_cluster_ratio sbi - 1)) (s_cluster_bits sbi).

Definition ext4_group_first_block_no (sbi : ext4_sb_info) (group_no : Z) : Z :=
  u64 (group_no * s_blocks_per_group sbi + s_first_data_block sbi).

Definition ext4_flex_bg_size (sbi : ext4_sb_info) : Z := u32 (Z.shiftl 1 (s_log_groups_per_flex sbi)).

Definition ext4_get_group_no_and_offset (sbi : ext4_sb_info) (blocknr : Z) : Z * Z :=
  let blocknr := u64 (blocknr - s_first_data_block sbi) in
  (u32 (blocknr / s_blocks_per_group sbi), Z.shiftr (blocknr mod s_blocks_per_group sbi) (s_cluster_bits sbi)).

Definition ext4_get_group_number (sbi : ext4_sb_info) (block : Z) : Z :=
  if std_group_size sbi then
    u32 (Z.shiftr (u64 (block - s_first_data_block sbi)) (s_blocksize_bits sbi + s_cluster_bits sbi + 3))
  else (ext4_get_group_no_and_offset sbi block).1.

Definition ext4_block_in_group (sbi : ext4_sb_info) (block block_group : Z) : bool :=
  ext4_get_group_number sbi block =? block_group.

(** ** Copies of the superblock and of the descriptors *)

(** Every turn divides [a], by at least 2. *)
Fixpoint test_root_loop (fuel : nat) (a b : Z) : bool :=
  match fuel with
  | O => false
  | S fuel =>
      if a <? b then false
      else if a =? b then true
      else if negb (a mod b =? 0) then false
      else test_root_loop fuel (a / b) b
  end.

Definition test_root (a b : Z) : bool := test_root_loop (S (Z.to_nat (Z.log2 a))) a b.

Definition ext4_bg_has_super (sbi : ext4_sb_info) (group : Z) : bool :=
  if group =? 0 then true
  else if feature_sparse_super2 sbi then
    (group =? (s_backup_bgs sbi).1) || (group =? (s_backup_bgs sbi).2)
  else if (group <=? 1) || negb (feature_sparse_super sbi) then true
  else if Z.land group 1 =? 0 then false
  else test_root group 3 || test_root group 5 || test_root group 7.

Definition ext4_bg_num_gdb_meta (sbi : ext4_sb_info) (group : Z) : Z :=
  let metagroup := group / s_desc_per_block sbi in
  let first := u32 (metagroup * s_desc_per_block sbi) in
  let last := u32 (first + s_desc_per_block sbi - 1) in
  if (group =? first) || (group =? u32 (first + 1)) || (group =? last) then 1 else 0.

Definition ext4_bg_num_gdb_nometa (sbi : ext4_sb_info) (group : Z) : Z :=
  if negb (ext4_bg_has_super sbi group) then 0
  else if feature_meta_bg sbi then s_first_meta_bg sbi
  else s_gdb_count sbi.

Definition ext4_bg_num_gdb (sbi : ext4_sb_info) (group : Z) : Z :=
  let first_meta_bg := s_first_meta_bg sbi in
  let metagroup := group / s_desc_per_block sbi in
  if negb (feature_meta_bg sbi) || (metagroup <? first_meta_bg) then ext4_bg_num_gdb_nometa sbi group
  else ext4_bg_num_gdb_meta sbi group.

Definition ext4_num_base_meta_clusters (sbi : ext4_sb_info) (block_group : Z) : Z :=
  let num := if ext4_bg_has_super sbi block_group then 1 else 0 in
  let num :=
    if negb (feature_meta_bg sbi) || (block_group <? s_first_meta_bg sbi * s_desc_per_block sbi) then
      if num =? 0 then num
      else u32 (u32 (num + ext4_bg_num_gdb sbi block_group) + s_reserved_gdt_blocks sbi)
    else u32 (num + ext4_bg_num_gdb sbi block_group) in
  EXT4_NUM_B2C sbi num.

(** ** Clusters of a group used by metadata *)

(** A bitmap block: the cluster to be counted at the end (or -1), and the
    number of clusters counted so far. *)
Definition bitmap_cluster (sbi : ext4_sb_info) (block_group start blk num_clusters : Z) : Z * Z :=
  if ext4_block_in_group sbi blk block_group then
    let c := sext 32 (EXT4_B2C sbi (u64 (blk - start))) in
    if u32 c <? num_clusters then (-1, num_clusters)
    else if u32 c =? num_clusters then (-1, u32 (num_clusters + 1))
    else (c, num_clusters)
  else (-1, num_clusters).

(** One block of the inode table: [num_clusters] and [itbl_cluster]. *)
Definition itable_block (sbi : ext4_sb_info) (block_group start itbl_blk block_cluster inode_cluster : Z)
    (st : Z * Z) (i : Z) : Z * Z :=
  let num_clusters := st.1 in
  let itbl_cluster := st.2 in
  if ext4_block_in_group sbi (u64 (itbl_blk + i)) block_group then
    let c := sext 32 (EXT4_B2C sbi (u64 (itbl_blk + i - start))) in
    if (u32 c <? num_clusters) || (c =? inode_cluster) || (c =? block_cluster) || (c =? itbl_cluster) then st
    else if u32 c =? num_clusters then (u32 (num_clusters + 1), itbl_cluster)
    else (u32 (num_clusters + 1), c)
  else st.

Definition ext4_num_overhead_clusters (sbi : ext4_sb_info) (block_group : Z) (gdp : ext4_group_desc) : Z :=
  let start := ext4_group_first_block_no sbi block_group in
  let num_clusters := ext4_num_base_meta_clusters sbi block_group in
  let '(block_cluster, num_clusters) := bitmap_cluster sbi block_group start (ext4_block_bitmap sbi gdp) num_clusters in
  let '(inode_cluster, num_clusters) := bitmap_cluster sbi block_group start (ext4_inode_bitmap sbi gdp) num_clusters in
  let st := fold_left (itable_block sbi block_group start (ext4_inode_table sbi gdp) block_cluster inode_cluster)
              (seqZ 0 (s_itb_per_group sbi)) (num_clusters, -1) in
  let num_clusters := if block_cluster =? -1 then st.1 else u32 (st.1 + 1) in
  if inode_cluster =? -1 then num_clusters else u32 (num_clusters + 1).

Definition num_clusters_in_group (sbi : ext4_sb_info) (block_group : Z) : Z :=
  let blocks :=
    if block_group =? u32 (s_groups_count sbi - 1)
    then u32 (ext4_blocks_count sbi - ext4_group_first_block_no sbi block_group)
    else u32 (s_blocks_per_group sbi) in
  EXT4_NUM_B2C sbi blocks.

Definition ext4_free_clusters_after_init (sbi : ext4_sb_info) (block_group : Z) (gdp : ext4_group_desc) : Z :=
  u32 (num_clusters_in_group sbi block_group - ext4_num_overhead_clusters sbi block_group gdp).

(** ** Bitmaps

    The bits of a buffer, from bit 0 of its first byte on. *)

Abbreviation bitmap := (list bool).

Definition ext4_set_bit (i : Z) : M bitmap unit := fun bm =>
  if (0 <=? i) && (i <? Z.of_nat (length bm)) then Ret tt (<[Z.to_nat i := true]> bm) else Oops OutOfBounds.

Definition ext4_test_bit (i : Z) (bm : bitmap) : bool := default false (bm !! Z.to_nat i).

(** [memset(bitmap + (i >> 3), 0xff, n)]: whole bytes. *)
Definition memset_ff (byte n : Z) : M bitmap unit := fun bm =>
  if (0 <=? byte) && (0 <=? n) && (8 * (byte + n) <=? Z.of_nat (length bm)) then
    Ret tt (imap (fun j b => if (8 * byte <=? Z.of_nat j) && (Z.of_nat j <? 8 * (byte + n)) then true else b) bm)
  else Oops OutOfBounds.

Definition ext4_mark_bitmap_end (start_bit end_bit : Z) : M bitmap unit :=
  if end_bit <=? start_bit then ret tt
  else
    let stop := Z.ldiff (start_bit + 7) 7 in
    for_each (seqZ start_bit (stop - start_bit)) ext4_set_bit ;;;
    if stop <? end_bit then memset_ff (Z.shiftr stop 3) (Z.shiftr (end_bit - stop) 3) else ret tt.

Definition EFSCORRUPTED : Z := -117.
Definition EFSBADCRC : Z := -74.
Definition EIO_bg : Z := -5.
Definition ENOMEM_bg : Z := -12.

Definition mark_block (sbi : ext4_sb_info) (block_group start blk : Z) : M bitmap unit :=
  if ext4_block_in_group sbi blk block_group then ext4_set_bit (EXT4_B2C sbi (u64 (blk - start))) else ret tt.

(** [ext4_init_block_bitmap] behind the test of the checksum. *)
Definition init_bits (sbi : ext4_sb_info) (block_group : Z) (gdp : ext4_group_desc) : M bitmap Z :=
  modify (fun bm => replicate (length bm) false) ;;;
  b_size <-- gets (fun bm => Z.of_nat (length bm) / 8) ;;
  let bit_max := ext4_num_base_meta_clusters sbi block_group in
  if b_size <=? Z.shiftr bit_max 3 then ret EFSCORRUPTED
  else
    for_each (seqZ 0 bit_max) ext4_set_bit ;;;
    let start := ext4_group_first_block_no sbi block_group in
    mark_block sbi block_group start (ext4_block_bitmap sbi gdp) ;;;
    mark_block sbi block_group start (ext4_inode_bitmap sbi gdp) ;;;
    for_each (seqZ (ext4_inode_table sbi gdp) (s_itb_per_group sbi)) (mark_block sbi block_group start) ;;;
    ext4_mark_bitmap_end (num_clusters_in_group sbi block_group) (s_blocksize sbi * 8) ;;;
    ret 0.

(** [memweight] counts the bits that are set. *)
Definition memweight (bm : bitmap) : Z := Z.of_nat (length (base.filter (fun b => b = true) bm)).
Definition ext4_count_free (bm : bitmap) (numchars : Z) : Z :=
  u32 (numchars * 8 - memweight (take (Z.to_nat (numchars * 8)) bm)).

(** ** Validation *)

Fixpoint find_next_zero (fuel : nat) (bm : bitmap) (size i : Z) : Z :=
  match fuel with
  | O => size
  | S fuel => if size <=? i then size else if ext4_test_bit i bm then find_next_zero fuel bm size (i + 1) else i
  end.

(** The first clear bit from [i] on below [size], or [size]. *)
Definition ext4_find_next_zero_bit (bm : bitmap) (size i : Z) : Z := find_next_zero (Z.to_nat (size - i)) bm size i.

Definition bit_missing (sbi : ext4_sb_info) (max_bit offset : Z) (bm : bitmap) : bool :=
  (offset <? 0) || (max_bit <=? EXT4_B2C sbi offset) || negb (ext4_test_bit (EXT4_B2C sbi offset) bm).

Definition ext4_valid_block_bitmap (sbi : ext4_sb_info) (desc : ext4_group_desc) (block_group : Z) (bm : bitmap) : Z :=
  let max_bit := s_clusters_per_group sbi in
  if feature_flex_bg sbi then 0
  else
    let group_first_block := ext4_group_first_block_no sbi block_group in
    let offset blk := sext 32 (blk - group_first_block) in
    let bb := ext4_block_bitmap sbi desc in
    if bit_missing sbi max_bit (offset bb) bm then bb
    else
      let ib := ext4_inode_bitmap sbi desc in
      if bit_missing sbi max_bit (offset ib) bm then ib
      else
        let it := ext4_inode_table sbi desc in
        let o := offset it in
        let o_end := EXT4_B2C sbi (o + s_itb_per_group sbi) in
        if (o <? 0) || (max_bit <=? EXT4_B2C sbi o) || (max_bit <=? o_end) then it
        else if ext4_find_next_zero_bit bm o_end (EXT4_B2C sbi o) <? o_end then it
        else 0.
