(* ===== verification/BlockGroupFacts.v ===== *)
(** * mqfs: lemmas on block groups *)

From S2P Require Import Prelude BlockGroup.

(** ** Geometry *)

(** What mounting checks: groups of whole clusters whose bitmap fits a block,
    and group numbers of 32 bits. *)
Record geo_ok (sbi : ext4_sb_info) : Prop := mk_geo_ok {
  geo_cbits : 0 <= s_cluster_bits sbi;
  geo_ratio : s_cluster_ratio sbi = 2 ^ s_cluster_bits sbi;
  geo_bpg : s_blocks_per_group sbi = s_clusters_per_group sbi * s_cluster_ratio sbi;
  geo_small : s_blocks_per_group sbi < 2 ^ 30;
  geo_bits : 0 < s_clusters_per_group sbi <= s_blocksize sbi * 8;
  geo_size : 0 <= s_blocksize sbi < 2 ^ 20;
  geo_std : std_group_size sbi = true -> 0 <= s_blocksize_bits sbi /\
    s_blocks_per_group sbi = 2 ^ (s_blocksize_bits sbi + s_cluster_bits sbi + 3);
  geo_first : 0 <= s_first_data_block sbi;
  geo_groups : 0 < s_groups_count sbi < 2 ^ 32;
  geo_last : s_first_data_block sbi + (s_groups_count sbi - 1) * s_blocks_per_group sbi < ext4_blocks_count sbi;
  geo_count : ext4_blocks_count sbi <= s_first_data_block sbi + s_groups_count sbi * s_blocks_per_group sbi;
  geo_total : ext4_blocks_count sbi < 2 ^ 64;
}.

(** The first block of a group, and the blocks that exist. *)
Definition group_start (sbi : ext4_sb_info) (g : Z) : Z := s_first_data_block sbi + g * s_blocks_per_group sbi.
Definition fs_block (sbi : ext4_sb_info) (b : Z) : Prop := s_first_data_block sbi <= b < ext4_blocks_count sbi.

Section geo.
Context (sbi : ext4_sb_info) (G : geo_ok sbi).

Lemma ratio_pos : 0 < s_cluster_ratio sbi.
Proof. rewrite (geo_ratio _ G). apply Z.pow_pos_nonneg; [lia|apply G]. Qed.

Lemma bpg_pos : 0 < s_blocks_per_group sbi.
Proof. rewrite (geo_bpg _ G). pose proof ratio_pos. pose proof (geo_bits _ G). nia. Qed.

Lemma b2c_div b : EXT4_B2C sbi b = b / s_cluster_ratio sbi.
Proof. unfold EXT4_B2C. rewrite Z.shiftr_div_pow2 by apply G. by rewrite (geo_ratio _ G). Qed.

Lemma c2b_mul c : EXT4_C2B sbi c = c * s_cluster_ratio sbi.
Proof. unfold EXT4_C2B. rewrite Z.shiftl_mul_pow2 by apply G. by rewrite (geo_ratio _ G). Qed.

Lemma group_start_lt g : 0 <= g < s_groups_count sbi -> group_start sbi g < ext4_blocks_count sbi.
Proof. intros Hg. pose proof (geo_last _ G). pose proof bpg_pos. unfold group_start. nia. Qed.

Lemma first_block_spec g : 0 <= g < s_groups_count sbi -> ext4_group_first_block_no sbi g = group_start sbi g.
Proof.
  intros Hg. unfold ext4_group_first_block_no. pose proof (group_start_lt g Hg) as Hs. pose proof (geo_total _ G). pose proof (geo_first _ G). pose proof bpg_pos.
  unfold group_start in *. rewrite wrap_small by nia. lia.
Qed.

(** Both ways of finding the group of a block are the division. *)
Lemma group_number_spec b : fs_block sbi b ->
  ext4_get_group_number sbi b = (b - s_first_data_block sbi) / s_blocks_per_group sbi /\
  (ext4_get_group_no_and_offset sbi b).1 = (b - s_first_data_block sbi) / s_blocks_per_group sbi.
Proof.
  intros [H1 H2]. pose proof (geo_total _ G). pose proof (geo_first _ G). pose proof (geo_count _ G). pose proof (geo_groups _ G). pose proof bpg_pos.
  assert (Hq : 0 <= (b - s_first_data_block sbi) / s_blocks_per_group sbi < 2 ^ 32).
  { split; [apply Z.div_pos; lia|]. apply Z.div_lt_upper_bound; [lia|]. nia. }
  assert (E : (ext4_get_group_no_and_offset sbi b).1 = (b - s_first_data_block sbi) / s_blocks_per_group sbi).
  { unfold ext4_get_group_no_and_offset. cbn [fst]. rewrite (wrap_small 64) by lia. by apply wrap_small. }
  split; [|done]. unfold ext4_get_group_number. destruct (std_group_size sbi) eqn:Es; [|done].
  destruct (geo_std _ G Es) as [Hb Hp]. pose proof (geo_cbits _ G). rewrite Z.shiftr_div_pow2, <- Hp, (wrap_small 64) by lia. by apply wrap_small.
Qed.

Lemma in_group_iff b g : fs_block sbi b ->
  ext4_block_in_group sbi b g = true <-> group_start sbi g <= b < group_start sbi g + s_blocks_per_group sbi.
Proof.
  intros Hb. unfold ext4_block_in_group. rewrite Z.eqb_eq, (proj1 (group_number_spec b Hb)). pose proof bpg_pos as Hp. unfold group_start.
  pose proof (Z.div_mod (b - s_first_data_block sbi) (s_blocks_per_group sbi) ltac:(lia)) as Hd.
  pose proof (Z.mod_pos_bound (b - s_first_data_block sbi) (s_blocks_per_group sbi) Hp). split; [intros <-; lia|].
  intros Hr. symmetry. apply (Z.div_unique_pos _ _ _ (b - s_first_data_block sbi - g * s_blocks_per_group sbi)); lia.
Qed.

(** The cluster of a block of the group. *)
Definition cluster_of (g b : Z) : Z := (b - group_start sbi g) / s_cluster_ratio sbi.

Lemma cluster_range g b :
  group_start sbi g <= b < group_start sbi g + s_blocks_per_group sbi -> 0 <= cluster_of g b < s_clusters_per_group sbi.
Proof.
  intros Hb. pose proof ratio_pos. unfold cluster_of. split; [apply Z.div_pos; lia|]. apply Z.div_lt_upper_bound; [lia|]. pose proof (geo_bpg _ G). nia.
Qed.

Lemma cluster_small g b :
  group_start sbi g <= b < group_start sbi g + s_blocks_per_group sbi -> 0 <= cluster_of g b < 2 ^ 30.
Proof. intros Hb. pose proof (cluster_range g b Hb). pose proof (geo_bpg _ G). pose proof (geo_small _ G). pose proof ratio_pos. nia. Qed.

Lemma cluster_spec g b :
  0 <= g < s_groups_count sbi -> fs_block sbi b -> ext4_block_in_group sbi b g = true ->
  EXT4_B2C sbi (u64 (b - ext4_group_first_block_no sbi g)) = cluster_of g b.
Proof.
  intros Hg Hf Hb. rewrite first_block_spec by done. apply in_group_iff in Hb; [|done]. pose proof (geo_small _ G).
  rewrite b2c_div, wrap_small; [done|]. split; [lia|]. change (2 ^ 64) with 18446744073709551616. change (2 ^ 30) with 1073741824 in *. lia.
Qed.

(** The clusters of consecutive blocks. *)
Lemma cluster_next g b : cluster_of g (b + 1) = cluster_of g b \/ cluster_of g (b + 1) = cluster_of g b + 1.
Proof.
  unfold cluster_of. pose proof ratio_pos as Hr. set (x := b - group_start sbi g). replace (b + 1 - group_start sbi g) with (x + 1) by lia.
  set (r := s_cluster_ratio sbi) in *. pose proof (Z.div_mod x r ltac:(lia)). pose proof (Z.div_mod (x + 1) r ltac:(lia)).
  pose proof (Z.mod_pos_bound x r Hr). pose proof (Z.mod_pos_bound (x + 1) r Hr). nia.
Qed.
End geo.

Lemma wrap32_int x : 0 <= x < 2 ^ 30 -> sext 32 x = x /\ u32 x = x.
Proof.
  change (2 ^ 30) with 1073741824. intros Hx. assert (E : u32 x = x) by (apply wrap_small; change (2 ^ 32) with 4294967296; lia).
  split; [|done]. unfold sext. rewrite E. cbv zeta. change (2 ^ (32 - 1)) with 2147483648. by destruct (Z.ltb_spec x 2147483648); [|lia].
Qed.

(** ** Powers *)

Lemma test_root_loop_spec fuel a b :
  2 <= b -> 0 <= a < 2 ^ Z.of_nat fuel -> test_root_loop fuel a b = true <-> exists n, 1 <= n /\ a = b ^ n.
Proof.
  intros Hb. revert a. induction fuel as [|fuel IH]; intros a Ha; cbn [test_root_loop].
  { change (2 ^ Z.of_nat 0) with 1 in Ha. split; [done|]. intros (n & Hn & ->). assert (0 < b ^ n) by (apply Z.pow_pos_nonneg; lia).
    assert (b ^ 1 <= b ^ n) by (apply Z.pow_le_mono_r; lia). rewrite Z.pow_1_r in *. lia. }
  rewrite Nat2Z.inj_succ, Z.pow_succ_r in Ha by lia.
  assert (Hpow : forall n, 1 <= n -> b ^ n = b * b ^ (n - 1)).
  { intros n Hn. replace n with (Z.succ (n - 1)) at 1 by lia. apply Z.pow_succ_r. lia. }
  destruct (Z.ltb_spec a b).
  { split; [done|]. intros (n & Hn & ->). assert (b ^ 1 <= b ^ n) by (apply Z.pow_le_mono_r; lia). rewrite Z.pow_1_r in *. lia. }
  destruct (Z.eqb_spec a b) as [->|Hne]; [split; [|done]; intros _; exists 1; split; [lia|by rewrite Z.pow_1_r]|].
  destruct (Z.eqb_spec (a mod b) 0) as [Em|Em]; cbn [negb].
  - pose proof (Z.div_mod a b ltac:(lia)) as Hd. rewrite Em, Z.add_0_r in Hd.
    assert (Hq : 0 <= a / b < 2 ^ Z.of_nat fuel) by (split; [apply Z.div_pos; lia|apply Z.div_lt_upper_bound; nia]).
    rewrite (IH _ Hq). split.
    + intros (n & Hn & E). exists (n + 1). split; [lia|]. rewrite (Hpow (n + 1)) by lia. replace (n + 1 - 1) with n by lia. congruence.
    + intros (n & Hn & E). rewrite (Hpow n) in E by done. destruct (decide (n = 1)) as [->|]; [rewrite Z.sub_diag, Z.pow_0_r in E; lia|].
      exists (n - 1). split; [lia|]. rewrite E, Z.mul_comm, Z.div_mul by lia. done.
  - split; [done|]. intros (n & Hn & ->). exfalso. apply Em. rewrite (Hpow n) by done. by rewrite Z.mul_comm, Z.mod_mul by lia.
Qed.

Lemma test_root_spec a b : 2 <= b -> 0 <= a -> test_root a b = true <-> exists n, 1 <= n /\ a = b ^ n.
Proof.
  intros Hb Ha. apply test_root_loop_spec; [done|]. split; [done|]. rewrite Nat2Z.inj_succ, Z2Nat.id by apply Z.log2_nonneg.
  destruct (decide (a = 0)) as [->|]; [done|]. by apply Z.log2_spec; lia.
Qed.

(** ** Sets of clusters *)

(** The clusters below [n]. *)
Definition below (n : Z) : gset Z := list_to_set (seqZ 0 n).

Lemma elem_of_below n x : x ∈ below n <-> 0 <= x < n.
Proof. unfold below. rewrite elem_of_list_to_set, elem_of_seqZ. lia. Qed.

Lemma size_below n : 0 <= n -> Z.of_nat (size (below n)) = n.
Proof. intros Hn. unfold below. rewrite size_list_to_set by apply NoDup_seqZ. rewrite length_seqZ. lia. Qed.

Lemma size_add (X : gset Z) x : x ∉ X -> Z.of_nat (size ({[x]} ∪ X)) = Z.of_nat (size X) + 1.
Proof. intros Hx. rewrite size_union by set_solver. rewrite size_singleton. lia. Qed.

Lemma size_within (X : gset Z) n : (forall x, x ∈ X -> 0 <= x < n) -> 0 <= n -> Z.of_nat (size X) <= n.
Proof.
  intros HX Hn. rewrite <- (size_below n) by done. apply inj_le, subseteq_size. intros x Hx. apply elem_of_below. by apply HX.
Qed.

(** The clusters counted at the end. *)
Definition explicit (c : Z) : gset Z := if c =? -1 then ∅ else {[c]}.

Lemma elem_of_explicit c x : 0 <= x -> x ∈ explicit c <-> x = c.
Proof. intros Hx. unfold explicit. destruct (Z.eqb_spec c (-1)); set_solver by lia. Qed.

Lemma size_explicit c : Z.of_nat (size (explicit c)) = if c =? -1 then 0 else 1.
Proof. unfold explicit. destruct (c =? -1); [by rewrite size_empty|by rewrite size_singleton]. Qed.

(** ** Counting the clusters of metadata *)

Section count.
Context (sbi : ext4_sb_info) (G : geo_ok sbi) (g : Z) (Hg : 0 <= g < s_groups_count sbi).

#[local] Abbreviation start := (ext4_group_first_block_no sbi g).

(** The clusters of those of the blocks that are in the group. *)
Definition clusters (bs : list Z) : gset Z :=
  list_to_set (cluster_of sbi g <$> base.filter (fun b => ext4_block_in_group sbi b g = true) bs).

Lemma clusters_app bs bs' : clusters (bs ++ bs') = clusters bs ∪ clusters bs'.
Proof using. unfold clusters. by rewrite filter_app, fmap_app, list_to_set_app_L. Qed.

Lemma clusters_one b : clusters [b] = if ext4_block_in_group sbi b g then {[cluster_of sbi g b]} else ∅.
Proof using.
  clear G Hg. unfold clusters. destruct (ext4_block_in_group sbi b g) eqn:E.
  - rewrite filter_cons_True, filter_nil by done. cbn. set_solver.
  - rewrite filter_cons_False, filter_nil; [done|]. by rewrite E.
Qed.

Lemma clusters_range bs x : Forall (fs_block sbi) bs -> x ∈ clusters bs -> 0 <= x < s_clusters_per_group sbi.
Proof.
  intros Hbs. unfold clusters. rewrite elem_of_list_to_set, list_elem_of_fmap. intros (b & -> & [Hb Hin]%list_elem_of_filter).
  rewrite Forall_forall in Hbs. apply (cluster_range sbi G). by apply in_group_iff; [|apply Hbs|].
Qed.

Lemma in_group_cluster b :
  fs_block sbi b -> ext4_block_in_group sbi b g = true ->
  EXT4_B2C sbi (u64 (b - start)) = cluster_of sbi g b /\ 0 <= cluster_of sbi g b < 2 ^ 30 /\
  sext 32 (cluster_of sbi g b) = cluster_of sbi g b /\ u32 (cluster_of sbi g b) = cluster_of sbi g b.
Proof.
  intros Hb Hin. rewrite (cluster_spec sbi G g b Hg Hb Hin). pose proof Hin as Hr. apply in_group_iff in Hr; [|done|done].
  pose proof (cluster_small sbi G g b Hr) as Hc. destruct (wrap32_int _ Hc). done.
Qed.

(** One bitmap block: [num] clusters in front are in use, [num'] afterwards. *)
Lemma bitmap_cluster_spec blk num :
  fs_block sbi blk -> 0 <= num < 2 ^ 30 ->
  let '(c, num') := bitmap_cluster sbi g start blk num in
  below num ∪ clusters [blk] = below num' ∪ explicit c /\ num <= num' <= num + 1 /\ (c = -1 \/ num' < c /\ c ∈ clusters [blk] /\ num' = num).
Proof.
  intros Hb Hn. unfold bitmap_cluster. rewrite clusters_one. destruct (ext4_block_in_group sbi blk g) eqn:Hin.
  2: { change (explicit (-1)) with (∅ : gset Z). split_and!; [done|lia|lia|by left]. }
  destruct (in_group_cluster blk Hb Hin) as (-> & Hc & -> & Eu). rewrite Eu. set (c := cluster_of sbi g blk) in *. clearbody c.
  destruct (Z.ltb_spec c num); [|destruct (Z.eqb_spec c num) as [->|]].
  - change (explicit (-1)) with (∅ : gset Z). split_and!; [|lia|lia|by left]. apply set_eq. intros x. rewrite !elem_of_union, elem_of_below. set_solver by lia.
  - change (explicit (-1)) with (∅ : gset Z). rewrite (wrap_small 32) by (change (2 ^ 32) with 4294967296; change (2 ^ 30) with 1073741824 in *; lia).
    split_and!; [|lia|lia|by left]. apply set_eq. intros x. rewrite !elem_of_union, !elem_of_below, elem_of_singleton. set_solver by lia.
  - split_and!; [|lia|lia|right; split_and!; [lia|set_solver|done]]. unfold explicit. by destruct (Z.eqb_spec c (-1)); [lia|].
Qed.

(** The blocks of the inode table are looked at in order.  As long as they
    extend the clusters in front, [num] counts these; from the first that does
    not, their clusters lie above everything counted but the bitmaps. *)
Record counted (bc ic : Z) (X : gset Z) (next num it : Z) : Prop := mk_counted {
  cn_size : Z.of_nat (size X) = num + Z.of_nat (size (explicit bc ∪ explicit ic));
  cn_explicit : explicit bc ∪ explicit ic ⊆ X;
  cn_num : 0 <= num;
  cn_phase : it = -1 /\ X = below num ∪ (explicit bc ∪ explicit ic) /\ (forall x, x ∈ explicit bc ∪ explicit ic -> num <= x) \/
    exists l, 0 <= it <= l /\ l ∈ X /\ (l = it \/ l ∈ explicit bc ∪ explicit ic) /\
      (forall x, x ∈ X -> x <= l \/ x ∈ explicit bc ∪ explicit ic) /\ num <= l /\
      group_start sbi g <= next - 1 /\ (next - 1 < group_start sbi g + s_blocks_per_group sbi -> l = cluster_of sbi g (next - 1));
}.

Lemma counted_step bc ic X it_blk i num it :
  (bc = -1 \/ 0 <= bc) -> (ic = -1 \/ 0 <= ic) ->
  fs_block sbi (it_blk + i) -> (forall x, x ∈ X -> 0 <= x < s_clusters_per_group sbi) ->
  counted bc ic X (it_blk + i) num it ->
  let st := itable_block sbi g start it_blk bc ic (num, it) i in
  counted bc ic (X ∪ clusters [it_blk + i]) (it_blk + (i + 1)) st.1 st.2.
Proof.
  intros Hbc Hic Hb HX [Hs HE Hn Hph]. cbv zeta. unfold itable_block. cbn [fst snd].
  assert (Hu : u64 (it_blk + i) = it_blk + i) by (apply wrap_small; pose proof (geo_first _ G); pose proof (geo_total _ G); destruct Hb; lia).
  rewrite Hu, clusters_one. assert (Hnext : it_blk + (i + 1) - 1 = it_blk + i) by lia. set (next := it_blk + (i + 1)) in *. clearbody next.
  assert (Hnum : num < 2 ^ 30).
  { pose proof (size_within X (s_clusters_per_group sbi) HX). pose proof (geo_bits _ G). pose proof (geo_bpg _ G). pose proof (geo_small _ G). pose proof (ratio_pos _ G). nia. }
  destruct (ext4_block_in_group sbi (it_blk + i) g) eqn:Hin.
  2: { rewrite union_empty_r_L. split; [done|done|done|]. destruct Hph as [?|(l & H1 & H2 & H3 & H4 & H5 & H6 & H7)]; [by left|right].
       exists l. rewrite Hnext. cbn [fst snd]. split_and!; try done; try lia. intros Hlt. exfalso. pose proof (in_group_iff sbi G _ g Hb) as [_ Hc]. rewrite Hc in Hin; [done|]. lia. }
  pose proof Hin as Hr. apply in_group_iff in Hr; [|done|done].
  destruct (in_group_cluster _ Hb Hin) as (-> & Hc & -> & ->). set (c := cluster_of sbi g (it_blk + i)) in *.
  assert (HcE : c ∈ explicit bc ∪ explicit ic <-> c = bc \/ c = ic) by (rewrite elem_of_union, !elem_of_explicit by lia; done).
  assert (Hw : u32 (num + 1) = num + 1) by (apply wrap_small; change (2 ^ 32) with 4294967296; change (2 ^ 30) with 1073741824 in *; lia).
  rewrite Hw. destruct Hph as [(-> & EX & Hge)|(l & H1 & H2 & H3 & H4 & H5 & H6 & H7)].
  - assert (Hkeep : c ∈ X -> counted bc ic (X ∪ {[c]}) next num (-1)).
    { intros Hcin. replace (X ∪ {[c]}) with X by set_solver. split; [done|done|done|by left]. }
    destruct (Z.ltb_spec c num) as [Hlt|Hlt]; cbn [orb fst snd]; [apply Hkeep; rewrite EX, elem_of_union, elem_of_below; left; lia|].
    destruct (Z.eqb_spec c ic) as [Ei|Ei]; cbn [orb fst snd]; [apply Hkeep, HE, HcE; by right|].
    destruct (Z.eqb_spec c bc) as [Eb|Eb]; cbn [orb fst snd]; [apply Hkeep, HE, HcE; by left|].
    destruct (Z.eqb_spec c (-1)); [lia|]. cbn [orb fst snd].
    assert (HnE : c ∉ explicit bc ∪ explicit ic) by tauto.
    assert (HnX : c ∉ X) by (rewrite EX, elem_of_union, elem_of_below; intros [?|?]; [lia|done]).
    assert (Hsz : Z.of_nat (size (X ∪ {[c]})) = num + 1 + Z.of_nat (size (explicit bc ∪ explicit ic))) by (rewrite (union_comm_L X), size_add by done; lia).
    destruct (Z.eqb_spec c num) as [En|En]; cbn [fst snd]; (split; [done|set_solver|lia|]).
    + left. split_and!; [done| |].
      * rewrite EX. apply set_eq. intros x. rewrite !elem_of_union, !elem_of_below, elem_of_singleton. set_solver by lia.
      * intros x Hx. specialize (Hge x Hx). assert (x <> num) by (intros ->; apply HnE; by rewrite En). lia.
    + right. exists c. rewrite Hnext. split_and!; [lia|lia|set_solver|by left| |lia|lia|done]. intros x. rewrite EX, !elem_of_union, elem_of_below, elem_of_singleton.
      intros [[Hx|Hx]| ->]; [left; lia|by right|left; lia].
  - assert (Hcl : c = l \/ c = l + 1).
    { destruct (cluster_next sbi G g (it_blk + i - 1)) as [E|E]; replace (it_blk + i - 1 + 1) with (it_blk + i) in E by lia; fold c in E; rewrite H7 by lia; lia. }
    destruct (Z.ltb_spec c num) as [Hlt|Hlt]; [lia|]. cbn [orb].
    destruct (decide (c ∈ X)) as [Hcin|HnX].
    + assert (Hskip : (c =? ic) || (c =? bc) || (c =? it) = true).
      { destruct (H4 c Hcin) as [Hle|HcE']; [assert (c = l) as -> by lia; destruct H3 as [->|HlE]; [by rewrite Z.eqb_refl, orb_true_r|]|];
          [|apply HcE in HcE'; destruct HcE' as [-> | ->]; rewrite Z.eqb_refl, ?orb_true_r; done].
        rewrite elem_of_union, !elem_of_explicit in HlE by lia. destruct HlE as [-> | ->]; rewrite Z.eqb_refl, ?orb_true_r; done. }
      rewrite Hskip. cbn [fst snd]. replace (X ∪ {[c]}) with X by set_solver. split; try done. right. exists c. rewrite Hnext. split_and!; try done; try lia.
      * destruct Hcl as [-> | Hc1]; [done|]. right. destruct (H4 c Hcin); [lia|done].
      * intros x Hx. destruct (H4 x Hx); [left; lia|by right].
    + assert (HnE : c ∉ explicit bc ∪ explicit ic) by (intros Hx; apply HnX, HE, Hx). assert (c = l + 1) by (destruct Hcl as [-> | ?]; [done|done]).
      destruct (Z.eqb_spec c ic); [tauto|]. destruct (Z.eqb_spec c bc); [tauto|]. destruct (Z.eqb_spec c it); [lia|]. destruct (Z.eqb_spec c num); [lia|].
      cbn [orb fst snd]. split; [rewrite (union_comm_L X), size_add by done; lia|set_solver|lia|]. right. exists c. rewrite Hnext.
      split_and!; [lia|lia|set_solver|by left| |lia|lia|done]. intros x. rewrite elem_of_union, elem_of_singleton.
      intros [Hx| ->]; [destruct (H4 x Hx); [left; lia|by right]|left; lia].
Qed.

(** The blocks of metadata of a descriptor. *)
Definition itable_blocks (gdp : ext4_group_desc) : list Z := seqZ (ext4_inode_table sbi gdp) (s_itb_per_group sbi).

Definition meta_clusters (gdp : ext4_group_desc) : gset Z :=
  below (ext4_num_base_meta_clusters sbi g) ∪ clusters [ext4_block_bitmap sbi gdp] ∪ clusters [ext4_inode_bitmap sbi gdp] ∪
  clusters (itable_blocks gdp).

Record meta_ok (gdp : ext4_group_desc) : Prop := mk_meta_ok {
  mo_base : 0 <= ext4_num_base_meta_clusters sbi g <= s_clusters_per_group sbi;
  mo_block_bitmap : fs_block sbi (ext4_block_bitmap sbi gdp);
  mo_inode_bitmap : fs_block sbi (ext4_inode_bitmap sbi gdp);
  mo_itable : Forall (fs_block sbi) (itable_blocks gdp);
}.

(** The bitmaps do not share a cluster behind the copies of the descriptors. *)
Definition bitmaps_apart (gdp : ext4_group_desc) : Prop :=
  forall c, c ∈ clusters [ext4_block_bitmap sbi gdp] -> c ∈ clusters [ext4_inode_bitmap sbi gdp] -> c <= ext4_num_base_meta_clusters sbi g.

Lemma meta_clusters_range gdp x : meta_ok gdp -> x ∈ meta_clusters gdp -> 0 <= x < s_clusters_per_group sbi.
Proof.
  intros [Hb H1 H2 H3]. unfold meta_clusters. rewrite !elem_of_union, elem_of_below.
  intros [[[?|Hx]|Hx]|Hx]; [lia|eapply clusters_range; [|exact Hx]; by apply Forall_singleton..|by eapply clusters_range].
Qed.

Lemma counted_itable gdp bc ic X num n :
  (bc = -1 \/ 0 <= bc) -> (ic = -1 \/ 0 <= ic) -> (forall x, x ∈ X -> 0 <= x < s_clusters_per_group sbi) ->
  (Z.of_nat n <= s_itb_per_group sbi) -> Forall (fs_block sbi) (itable_blocks gdp) ->
  counted bc ic X (ext4_inode_table sbi gdp) num (-1) ->
  let st := fold_left (itable_block sbi g start (ext4_inode_table sbi gdp) bc ic) (seqZ 0 (Z.of_nat n)) (num, -1) in
  counted bc ic (X ∪ clusters (seqZ (ext4_inode_table sbi gdp) (Z.of_nat n))) (ext4_inode_table sbi gdp + Z.of_nat n) st.1 st.2.
Proof.
  intros Hbc Hic HX Hn Hit H0. cbv zeta. induction n as [|n IH].
  { change (seqZ 0 (Z.of_nat 0)) with (@nil Z). change (seqZ (ext4_inode_table sbi gdp) (Z.of_nat 0)) with (@nil Z).
    change (clusters []) with (∅ : gset Z). rewrite union_empty_r_L, Z.add_0_r. done. }
  rewrite !seqZ_S, fold_left_app, clusters_app, union_assoc_L. cbn [fold_left]. rewrite Z.add_0_l.
  set (st := fold_left _ _ _) in *. specialize (IH ltac:(lia)). rewrite (surjective_pairing st).
  rewrite Nat2Z.inj_succ. unfold Z.succ. rewrite Forall_forall in Hit. apply counted_step; [done|done| | |done].
  - apply Hit. apply elem_of_seqZ. lia.
  - intros x [Hx|Hx]%elem_of_union; [by apply HX|]. eapply clusters_range; [|exact Hx]. apply Forall_forall. intros b Hb%elem_of_seqZ.
    apply Hit, elem_of_seqZ. lia.
Qed.

Lemma overhead_spec gdp :
  meta_ok gdp -> bitmaps_apart gdp -> 0 <= s_itb_per_group sbi ->
  ext4_num_overhead_clusters sbi g gdp = Z.of_nat (size (meta_clusters gdp)).
Proof.
  intros Hok Hap Hitb. pose proof Hok as [Hbase Hbb Hib Hit]. unfold ext4_num_overhead_clusters. unfold bitmaps_apart in Hap.
  set (base := ext4_num_base_meta_clusters sbi g) in *.
  assert (Hcpg : s_clusters_per_group sbi < 2 ^ 30) by (pose proof (geo_bpg _ G); pose proof (geo_small _ G); pose proof (ratio_pos _ G); pose proof (geo_bits _ G); nia).
  pose proof (bitmap_cluster_spec (ext4_block_bitmap sbi gdp) base Hbb ltac:(lia)) as H1.
  destruct (bitmap_cluster sbi g start (ext4_block_bitmap sbi gdp) base) as [bc n1]. destruct H1 as (E1 & Hn1 & Hc1).
  assert (Hn1' : n1 <= s_clusters_per_group sbi).
  { destruct (decide (n1 = base)) as [->|]; [lia|]. assert (Hx : n1 - 1 ∈ below base ∪ clusters [ext4_block_bitmap sbi gdp]).
    { rewrite E1, elem_of_union, elem_of_below. left. lia. }
    apply elem_of_union in Hx as [Hx%elem_of_below|Hx]; [lia|]. apply clusters_range in Hx; [lia|by apply Forall_singleton]. }
  pose proof (bitmap_cluster_spec (ext4_inode_bitmap sbi gdp) n1 Hib ltac:(lia)) as H2.
  destruct (bitmap_cluster sbi g start (ext4_inode_bitmap sbi gdp) n1) as [ic n2]. destruct H2 as (E2 & Hn2 & Hc2).
  set (X := below base ∪ clusters [ext4_block_bitmap sbi gdp] ∪ clusters [ext4_inode_bitmap sbi gdp]).
  assert (EX : X = below n2 ∪ (explicit bc ∪ explicit ic)).
  { unfold X. rewrite E1. rewrite <- union_assoc_L, (union_comm_L (explicit bc)), union_assoc_L, E2. set_solver. }
  assert (HX : forall x, x ∈ X -> 0 <= x < s_clusters_per_group sbi).
  { intros x Hx. apply (meta_clusters_range gdp x Hok). unfold meta_clusters. fold base. fold X. set_solver. }
  assert (Hbc : bc = -1 \/ 0 <= bc) by (destruct Hc1 as [|(? & _)]; [by left|right; lia]).
  assert (Hic : ic = -1 \/ 0 <= ic) by (destruct Hc2 as [|(? & _)]; [by left|right; lia]).
  assert (Hge : forall x, x ∈ explicit bc ∪ explicit ic -> n2 <= x).
  { intros x. unfold explicit. destruct (Z.eqb_spec bc (-1)), (Z.eqb_spec ic (-1)); intros Hx; set_solver by lia. }
  assert (Hne : bc <> -1 -> ic <> -1 -> bc <> ic).
  { intros Hb1 Hi1 ->. destruct Hc1 as [|(? & Hin1 & ?)], Hc2 as [|(? & Hin2 & ?)]; [done..|]. specialize (Hap _ Hin1 Hin2). lia. }
  assert (HsE : Z.of_nat (size (explicit bc ∪ explicit ic)) = (if bc =? -1 then 0 else 1) + (if ic =? -1 then 0 else 1)).
  { rewrite size_union, Nat2Z.inj_add, !size_explicit; [done|]. unfold explicit. destruct (Z.eqb_spec bc (-1)), (Z.eqb_spec ic (-1)); set_solver. }
  assert (H0 : counted bc ic X (ext4_inode_table sbi gdp) n2 (-1)).
  { split; [|rewrite EX; set_solver|lia|by left]. rewrite EX, size_union, Nat2Z.inj_add, size_below by lia || (intros x Hx%elem_of_below Hx'%Hge; lia). done. }
  pose proof (counted_itable gdp bc ic X n2 (Z.to_nat (s_itb_per_group sbi)) Hbc Hic HX ltac:(lia) Hit H0) as Hfin. cbv zeta in Hfin.
  rewrite Z2Nat.id in Hfin by lia. destruct (fold_left _ _ _) as [num it]. cbn [fst snd] in *. destruct Hfin as [Hs _ Hnum _].
  change (X ∪ clusters (seqZ (ext4_inode_table sbi gdp) (s_itb_per_group sbi))) with (meta_clusters gdp) in Hs.
  pose proof (size_within (meta_clusters gdp) _ (fun x => meta_clusters_range gdp x Hok) ltac:(lia)) as Hmax. rewrite HsE in Hs.
  change (2 ^ 30) with 1073741824 in *. destruct (Z.eqb_spec bc (-1)), (Z.eqb_spec ic (-1)); rewrite ?(wrap_small 32 (num + 1)), ?(wrap_small 32 (num + 1 + 1)) by (change (2 ^ 32) with 4294967296; lia); lia.
Qed.
End count.

(** ** Bitmaps *)

(** The bits of [bm] that are set are those in [S]. *)
Definition marks (n : Z) (S : gset Z) (bm : bitmap) : Prop :=
  Z.of_nat (length bm) = n /\ forall i, 0 <= i < n -> bm !! Z.to_nat i = Some (bool_decide (i ∈ S)).

Lemma marks_clear (bm : bitmap) : marks (Z.of_nat (length bm)) ∅ (replicate (length bm) false).
Proof.
  split; [by rewrite length_replicate|]. intros i Hi. rewrite lookup_replicate_2 by lia. by rewrite bool_decide_eq_false_2 by set_solver.
Qed.

Lemma set_bit_ok n S bm i :
  marks n S bm -> 0 <= i < n -> runs (ext4_set_bit i) bm (fun _ bm' => marks n (S ∪ {[i]}) bm').
Proof.
  intros [Hl Hb] Hi. unfold runs, ext4_set_bit. destruct (Z.leb_spec 0 i); [|lia]. destruct (Z.ltb_spec i (Z.of_nat (length bm))); [|lia]. cbn [andb].
  split; [by rewrite length_insert|]. intros j Hj. destruct (decide (j = i)) as [->|Hne].
  - rewrite list_lookup_insert_eq by lia. by rewrite bool_decide_eq_true_2 by set_solver.
  - rewrite list_lookup_insert_ne by lia. rewrite Hb by done. do 2 f_equal. apply bool_decide_ext. set_solver.
Qed.

Lemma set_bits_ok n S bm l :
  marks n S bm -> (forall i, i ∈ l -> 0 <= i < n) ->
  runs (for_each l ext4_set_bit) bm (fun _ bm' => marks n (S ∪ list_to_set l) bm').
Proof.
  intros Hm Hl. apply (runs_for_each (fun dn bm' => marks n (S ∪ list_to_set dn) bm')); [change (list_to_set [] : gset Z) with (∅ : gset Z); by rewrite union_empty_r_L|].
  intros dn i rest bm1 -> Hm1. rewrite list_to_set_app_L, union_assoc_L, list_to_set_singleton_L.
  apply set_bit_ok; [done|]. apply Hl, elem_of_app. right. left.
Qed.

Lemma memset_ff_ok n S bm byte k :
  marks n S bm -> 0 <= byte -> 0 <= k -> 8 * (byte + k) <= n ->
  runs (memset_ff byte k) bm (fun _ bm' => marks n (S ∪ list_to_set (seqZ (8 * byte) (8 * k))) bm').
Proof.
  intros [Hl Hb] H1 H2 H3. unfold runs, memset_ff. rewrite Hl. destruct (Z.leb_spec 0 byte); [|lia]. destruct (Z.leb_spec 0 k); [|lia].
  destruct (Z.leb_spec (8 * (byte + k)) n); [|lia]. cbn [andb]. split; [by rewrite length_imap|]. intros i Hi.
  rewrite list_lookup_imap, Hb by done. cbn. rewrite Z2Nat.id by lia. f_equal.
  destruct (Z.leb_spec (8 * byte) i), (Z.ltb_spec i (8 * (byte + k))); cbn [andb];
    first [symmetry; apply bool_decide_eq_true_2; rewrite elem_of_union, elem_of_list_to_set, elem_of_seqZ; right; lia
          |apply bool_decide_ext; rewrite elem_of_union, elem_of_list_to_set, elem_of_seqZ; split; [tauto|intros [?|?]; [done|lia]]].
Qed.

Lemma mark_bitmap_end_ok n S bm start :
  marks n S bm -> 0 <= start <= n -> n mod 8 = 0 ->
  runs (ext4_mark_bitmap_end start n) bm (fun _ bm' => marks n (S ∪ list_to_set (seqZ start (n - start))) bm').
Proof.
  intros Hm Hs H8. unfold ext4_mark_bitmap_end. destruct (Z.leb_spec n start).
  { apply runs_ret. replace (n - start) with 0 by lia. change (seqZ start 0) with (@nil Z). change (list_to_set [] : gset Z) with (∅ : gset Z). by rewrite union_empty_r_L. }
  assert (Estop : Z.ldiff (start + 7) 7 = 8 * ((start + 7) / 8)).
  { change 7 with (Z.ones 3) at 2. rewrite Z.ldiff_ones_r, Z.shiftl_mul_pow2, Z.shiftr_div_pow2 by lia. change (2 ^ 3) with 8. lia. }
  cbv zeta. rewrite Estop. set (q := (start + 7) / 8). pose proof (Z.div_mod (start + 7) 8 ltac:(lia)) as Hd. fold q in Hd.
  pose proof (Z.mod_pos_bound (start + 7) 8 ltac:(lia)). pose proof (Z.div_mod n 8 ltac:(lia)) as Hn. rewrite H8 in Hn.
  apply runs_bind. eapply runs_conseq; [apply (set_bits_ok n S bm); [done|intros i Hi%elem_of_seqZ; lia]|].
  intros [] bm1 Hm1. destruct (Z.ltb_spec (8 * q) n).
  - rewrite !Z.shiftr_div_pow2 by lia. change (2 ^ 3) with 8. rewrite (Z.mul_comm 8 q), Z.div_mul by lia.
    assert (Ek : (n - q * 8) / 8 = n / 8 - q) by (rewrite Hn at 1; replace (8 * (n / 8) + 0 - q * 8) with ((n / 8 - q) * 8) by lia; apply Z.div_mul; lia).
    rewrite Ek. eapply runs_conseq; [apply (memset_ff_ok n (S ∪ list_to_set (seqZ start (8 * q - start))) bm1); [done|lia|lia|lia]|]. intros [] bm2 Hm2. rewrite <- union_assoc_L in Hm2.
    replace (list_to_set (seqZ start (n - start)) : gset Z) with (list_to_set (seqZ start (8 * q - start)) ∪ list_to_set (seqZ (8 * q) (8 * (n / 8 - q))) : gset Z); [done|].
    apply set_eq. intros x. rewrite elem_of_union, !elem_of_list_to_set, !elem_of_seqZ. lia.
  - apply runs_ret. replace (8 * q) with n in Hm1 by lia. done.
Qed.

Lemma filter_fmap_length {A} (f : A -> bool) (l : list A) :
  length (base.filter (fun b => b = true) (f <$> l)) = length (base.filter (fun x => f x = true) l).
Proof. induction l as [|x l IH]; [done|]. cbn [fmap list_fmap]. rewrite !filter_cons. destruct (decide (f x = true)); cbn; by rewrite IH. Qed.

Lemma memweight_marks n S bm k :
  marks n S bm -> 0 <= k <= n -> memweight (take (Z.to_nat k) bm) = Z.of_nat (size (S ∩ below k)).
Proof.
  intros [Hl Hb] Hk. unfold memweight. f_equal.
  assert (E : take (Z.to_nat k) bm = (fun i => bool_decide (i ∈ S)) <$> seqZ 0 k).
  { apply list_eq. intros i. destruct (decide (Z.of_nat i < k)) as [Hi|Hi].
    - rewrite lookup_take_lt by lia. rewrite list_lookup_fmap, lookup_seqZ_lt by lia. cbn. rewrite <- (Hb (0 + Z.of_nat i)) by lia. f_equal. lia.
    - rewrite lookup_take_ge by lia. rewrite list_lookup_fmap, lookup_seqZ_ge by lia. done. }
  rewrite E, filter_fmap_length.
  rewrite <- (size_list_to_set (C := gset Z) (base.filter _ (seqZ 0 k))) by apply NoDup_filter, NoDup_seqZ.
  f_equal. apply set_eq. intros x. rewrite elem_of_list_to_set, list_elem_of_filter, elem_of_intersection, elem_of_below, elem_of_seqZ. cbn.
  rewrite bool_decide_eq_true. split; intros [? ?]; split; try done; lia.
Qed.
