(* ===== verification/BlockGroupTheorems.v ===== *)
(** * mqfs: theorems on block groups *)

From S2P Require Import Prelude BlockGroup BlockGroupFacts.

(** Blocks and pairs of a group and a cluster are two names of the same thing:
    the group of a block contains it, whichever way it is computed; the block is
    in the cluster at the offset; the first block of a cluster that exists has
    that group and offset. *)
Theorem group_and_offset_roundtrip sbi :
  geo_ok sbi ->
  (forall b, fs_block sbi b -> let '(g, o) := ext4_get_group_no_and_offset sbi b in
     0 <= g < s_groups_count sbi /\ 0 <= o < s_clusters_per_group sbi /\
     ext4_get_group_number sbi b = g /\ (forall g', ext4_block_in_group sbi b g' = true <-> g' = g) /\
     ext4_group_first_block_no sbi g + EXT4_C2B sbi o <= b < ext4_group_first_block_no sbi g + EXT4_C2B sbi (o + 1)) /\
  (forall g o, 0 <= g < s_groups_count sbi -> 0 <= o < s_clusters_per_group sbi ->
     fs_block sbi (ext4_group_first_block_no sbi g + EXT4_C2B sbi o) ->
     ext4_get_group_no_and_offset sbi (ext4_group_first_block_no sbi g + EXT4_C2B sbi o) = (g, o)).
Proof.
  intros G. pose proof (bpg_pos _ G) as Hb. pose proof (ratio_pos _ G) as Hr. pose proof (geo_bpg _ G) as Eb.
  assert (Hoff : forall b, fs_block sbi b -> (ext4_get_group_no_and_offset sbi b).2 =
            ((b - s_first_data_block sbi) mod s_blocks_per_group sbi) / s_cluster_ratio sbi).
  { intros b [H1 H2]. unfold ext4_get_group_no_and_offset. cbn [snd]. pose proof (geo_total _ G). pose proof (geo_first _ G).
    rewrite (wrap_small 64) by lia. apply (b2c_div sbi G). }
  split.
  - intros b Hfs. destruct (group_number_spec sbi G b Hfs) as [En Eg]. specialize (Hoff b Hfs).
    destruct (ext4_get_group_no_and_offset sbi b) as [g o]. cbn [fst snd] in *. subst g o.
    set (x := b - s_first_data_block sbi) in *. set (q := x / s_blocks_per_group sbi) in *. set (m := x mod s_blocks_per_group sbi).
    pose proof (Z.div_mod x (s_blocks_per_group sbi) ltac:(lia)) as Hd. fold q m in Hd. pose proof (Z.mod_pos_bound x _ Hb) as Hm. fold m in Hm.
    pose proof (geo_count _ G). destruct Hfs as [H1 H2]. pose proof (geo_groups _ G).
    assert (Hq : 0 <= q < s_groups_count sbi) by (split; [apply Z.div_pos; lia|apply Z.div_lt_upper_bound; [lia|]; nia]).
    assert (Ho : 0 <= m / s_cluster_ratio sbi < s_clusters_per_group sbi) by (split; [apply Z.div_pos; lia|apply Z.div_lt_upper_bound; [lia|]; nia]).
    split_and!; [lia|lia|lia|lia|done| | |].
    + intros g'. unfold ext4_block_in_group. rewrite Z.eqb_eq, En. split; congruence.
    + rewrite (first_block_spec sbi G) by done. rewrite (c2b_mul sbi G). unfold group_start. pose proof (Z.mul_div_le m _ Hr). lia.
    + rewrite (first_block_spec sbi G) by done. rewrite (c2b_mul sbi G). unfold group_start. pose proof (Z.mul_succ_div_gt m _ Hr). nia.
  - intros g o Hg Ho Hfs. specialize (Hoff _ Hfs). destruct (group_number_spec sbi G _ Hfs) as [_ Eg].
    rewrite (surjective_pairing (ext4_get_group_no_and_offset sbi _)), Eg, Hoff.
    rewrite (first_block_spec sbi G), (c2b_mul sbi G) by done. unfold group_start.
    replace (s_first_data_block sbi + g * s_blocks_per_group sbi + o * s_cluster_ratio sbi - s_first_data_block sbi)
      with (o * s_cluster_ratio sbi + g * s_blocks_per_group sbi) by lia.
    assert (Hlt : 0 <= o * s_cluster_ratio sbi < s_blocks_per_group sbi) by nia.
    rewrite Z.div_add, Z.mod_add, (Z.div_small (_ * _)), (Z.mod_small (_ * _)), Z.div_mul by lia. done.
Qed.

(** With sparse superblocks the copies are in group 0, in group 1 and in the
    groups that are powers of 3, 5 and 7. *)
Theorem sparse_super_copies sbi g :
  feature_sparse_super sbi = true -> feature_sparse_super2 sbi = false -> 0 <= g ->
  ext4_bg_has_super sbi g = true <->
  g = 0 \/ g = 1 \/ exists n, 1 <= n /\ (g = 3 ^ n \/ g = 5 ^ n \/ g = 7 ^ n).
Proof.
  intros Hs Hs2 Hg. unfold ext4_bg_has_super. rewrite Hs, Hs2, orb_false_r. destruct (Z.eqb_spec g 0) as [->|H0]; [split; [by left|done]|].
  destruct (Z.leb_spec g 1); [split; [right; left; lia|done]|].
  assert (Hodd : Z.land g 1 = g mod 2) by (change 1 with (Z.ones 1); rewrite Z.land_ones by lia; done). rewrite Hodd.
  pose proof (test_root_spec g 3 ltac:(lia) Hg) as H3. pose proof (test_root_spec g 5 ltac:(lia) Hg) as H5. pose proof (test_root_spec g 7 ltac:(lia) Hg) as H7.
  assert (Hpow : forall b n, 0 <= n -> b mod 2 = 1 -> (b ^ n) mod 2 = 1).
  { intros b n Hn Hb. rewrite <- (Z2Nat.id n) by done. induction (Z.to_nat n) as [|k IH]; [done|].
    rewrite Nat2Z.inj_succ, Z.pow_succ_r, Z.mul_mod, Hb, IH by lia. done. }
  destruct (Z.eqb_spec (g mod 2) 0) as [Ev|_].
  - split; [done|]. intros [?|[?|(n & Hn & Hp)]]; [lia|lia|]. exfalso.
    destruct Hp as [-> |[-> | ->]]; rewrite Hpow in Ev; (done || lia).
  - rewrite !orb_true_iff, H3, H5, H7. split.
    + intros [[(n & Hn & E)|(n & Hn & E)]|(n & Hn & E)]; right; right; exists n; split; tauto.
    + intros [?|[?|(n & Hn & Hp)]]; [lia|lia|]. destruct Hp as [Hp|[Hp|Hp]]; [left; left|left; right|right]; by exists n.
Qed.

(** ** The bitmap of a group that was never written *)

Section init.
Context (sbi : ext4_sb_info) (G : geo_ok sbi) (g : Z) (Hg : 0 <= g < s_groups_count sbi) (gdp : ext4_group_desc).

Lemma num_clusters_range : 0 < num_clusters_in_group sbi g <= s_clusters_per_group sbi.
Proof.
  pose proof (geo_small _ G) as Hs. pose proof (bpg_pos _ G) as Hb. pose proof (ratio_pos _ G) as Hr. pose proof (geo_bpg _ G) as Eb. pose proof (geo_bits _ G).
  assert (Hn : forall x, 0 < x <= s_blocks_per_group sbi -> 0 < EXT4_NUM_B2C sbi x <= s_clusters_per_group sbi).
  { intros x Hx. unfold EXT4_NUM_B2C. change (Z.shiftr ?a (s_cluster_bits sbi)) with (EXT4_B2C sbi a). rewrite (b2c_div sbi G).
    change (2 ^ 30) with 1073741824 in *. rewrite wrap_small by (change (2 ^ 32) with 4294967296; nia). split.
    - apply Z.div_str_pos. lia.
    - apply Z.lt_succ_r, Z.div_lt_upper_bound; [lia|]. nia. }
  unfold num_clusters_in_group. cbv zeta. apply Hn. change (2 ^ 30) with 1073741824 in *.
  destruct (Z.eqb_spec g (u32 (s_groups_count sbi - 1))) as [El|_]; [|rewrite wrap_small by (change (2 ^ 32) with 4294967296; lia); lia].
  pose proof (geo_groups _ G). rewrite wrap_small in El by (change (2 ^ 32) with 4294967296 in *; lia).
  rewrite (first_block_spec sbi G) by done. pose proof (geo_last _ G). pose proof (geo_count _ G). unfold group_start. subst g.
  rewrite wrap_small by (change (2 ^ 32) with 4294967296 in *; nia). nia.
Qed.

Hypothesis Hok : meta_ok sbi g gdp.
Hypothesis Hbase : ext4_num_base_meta_clusters sbi g < s_blocksize sbi * 8.

Lemma mark_block_ok n S bm b :
  marks n S bm -> fs_block sbi b -> s_clusters_per_group sbi <= n ->
  runs (mark_block sbi g (ext4_group_first_block_no sbi g) b) bm (fun _ bm' => marks n (S ∪ clusters sbi g [b]) bm').
Proof.
  intros Hm Hb Hn. unfold mark_block. rewrite clusters_one. destruct (ext4_block_in_group sbi b g) eqn:Hin; [|apply runs_ret; by rewrite union_empty_r_L].
  destruct (in_group_cluster sbi G g Hg b Hb Hin) as (-> & _). apply set_bit_ok; [done|]. apply in_group_iff in Hin; [|done|done].
  pose proof (cluster_range sbi G g b Hin). lia.
Qed.

(** Exactly the clusters of metadata and those behind the end of the group. *)
Lemma init_bits_ok bm :
  Z.of_nat (length bm) = s_blocksize sbi * 8 ->
  runs (init_bits sbi g gdp) bm (fun r bm' => r = 0 /\
    marks (s_blocksize sbi * 8) (meta_clusters sbi g gdp ∪
      list_to_set (seqZ (num_clusters_in_group sbi g) (s_blocksize sbi * 8 - num_clusters_in_group sbi g))) bm').
Proof.
  intros Hl. pose proof (geo_bits _ G) as Hbits. pose proof Hok as [Hb Hbb Hib Hit]. pose proof num_clusters_range as Hncl.
  unfold init_bits. apply runs_bind, runs_modify, runs_bind, runs_gets. rewrite length_replicate, Hl, Z.div_mul by lia. cbv zeta.
  rewrite Z.shiftr_div_pow2 by lia. change (2 ^ 3) with 8. set (n := s_blocksize sbi * 8) in *. set (base := ext4_num_base_meta_clusters sbi g) in *.
  destruct (Z.leb_spec (s_blocksize sbi) (base / 8)) as [Hle|_]; [pose proof (Z.mul_div_le base 8 ltac:(lia)); lia|].
  pose proof (marks_clear bm) as Hm0. rewrite Hl in Hm0.
  apply runs_bind. eapply runs_conseq; [apply (set_bits_ok n ∅); [done|intros i Hi%elem_of_seqZ; lia]|]. intros [] bm1 Hm1. rewrite union_empty_l_L in Hm1.
  fold (below base) in Hm1. apply runs_bind. eapply runs_conseq; [apply (mark_block_ok n _ _ _ Hm1); [done|lia]|]. intros [] bm2 Hm2.
  apply runs_bind. eapply runs_conseq; [apply (mark_block_ok n _ _ _ Hm2); [done|lia]|]. intros [] bm3 Hm3. clear Hm1 Hm2.
  set (S3 := below base ∪ _ ∪ _) in *. apply runs_bind.
  apply (runs_conseq _ _ (fun _ bm' => marks n (S3 ∪ clusters sbi g (itable_blocks sbi gdp)) bm')).
  { apply (runs_for_each (fun dn bm' => marks n (S3 ∪ clusters sbi g dn) bm')).
    - change (clusters sbi g []) with (∅ : gset Z). by rewrite union_empty_r_L.
    - intros dn b rest bm4 E Hm4. rewrite clusters_app, union_assoc_L. apply mark_block_ok; [done| |lia]. rewrite Forall_forall in Hit. apply Hit.
      rewrite E. apply elem_of_app. right. left. }
  intros [] bm4 Hm4. change (S3 ∪ clusters sbi g (itable_blocks sbi gdp)) with (meta_clusters sbi g gdp) in Hm4.
  apply runs_bind. eapply runs_conseq; [apply (mark_bitmap_end_ok n _ _ (num_clusters_in_group sbi g) Hm4); [lia|apply Z.mod_mul; lia]|].
  intros [] bm5 Hm5. by apply runs_ret.
Qed.
End init.

(** The number of free clusters computed for a group whose bitmap was never
    written is the number of clear bits of the bitmap that is made for it. *)
Theorem free_after_init_counts_bitmap sbi g gdp bm :
  geo_ok sbi -> 0 <= g < s_groups_count sbi -> meta_ok sbi g gdp -> bitmaps_apart sbi g gdp -> 0 <= s_itb_per_group sbi ->
  (forall c, c ∈ meta_clusters sbi g gdp -> c < num_clusters_in_group sbi g) ->
  ext4_num_base_meta_clusters sbi g < s_blocksize sbi * 8 -> s_clusters_per_group sbi mod 8 = 0 ->
  Z.of_nat (length bm) = s_blocksize sbi * 8 ->
  runs (init_bits sbi g gdp) bm (fun r bm' => r = 0 /\
    ext4_count_free bm' (s_clusters_per_group sbi / 8) = ext4_free_clusters_after_init sbi g gdp).
Proof.
  intros G Hg Hok Hap Hitb Hfit Hbase H8 Hl. eapply runs_conseq; [by apply init_bits_ok|]. intros r bm' [-> Hm]. split; [done|].
  unfold ext4_count_free, ext4_free_clusters_after_init. rewrite (overhead_spec sbi G g Hg gdp Hok Hap Hitb).
  pose proof (num_clusters_range sbi G g Hg) as Hncl. pose proof (geo_bits _ G). pose proof (Z.div_mod (s_clusters_per_group sbi) 8 ltac:(lia)) as Hd.
  replace (s_clusters_per_group sbi / 8 * 8) with (s_clusters_per_group sbi) by lia. rewrite (memweight_marks _ _ _ _ Hm) by lia.
  set (ncl := num_clusters_in_group sbi g) in *. set (cpg := s_clusters_per_group sbi) in *. set (X := meta_clusters sbi g gdp) in *.
  f_equal. set (Y := (X ∪ _) ∩ below cpg).
  assert (EY : Y = X ∪ list_to_set (seqZ ncl (cpg - ncl))).
  { apply set_eq. intros x. unfold Y. rewrite elem_of_intersection, !elem_of_union, !elem_of_list_to_set, !elem_of_seqZ, elem_of_below.
    pose proof (meta_clusters_range sbi G g gdp x Hok) as Hx. fold X cpg in Hx. split; [intros [[?|?] ?]; [by left|right; lia]|].
    intros [Hin|?]; [split; [by left|by apply Hx]|split; [right|]; lia]. }
  rewrite EY, size_union, Nat2Z.inj_add, size_list_to_set, length_seqZ by first [apply NoDup_seqZ|intros x Hx%Hfit Hx'%elem_of_list_to_set%elem_of_seqZ; lia].
  lia.
Qed.

(** ** Validation *)

Lemma find_next_zero_full bm size i :
  (forall j, i <= j < size -> ext4_test_bit j bm = true) -> i <= size -> ext4_find_next_zero_bit bm size i = size.
Proof.
  intros Hall Hle. unfold ext4_find_next_zero_bit.
  assert (Hgen : forall fuel k, Z.of_nat fuel = size - k -> i <= k -> find_next_zero fuel bm size k = size).
  { induction fuel as [|fuel IH]; intros k Hf Hk; cbn [find_next_zero]; [done|]. destruct (Z.leb_spec size k); [done|].
    rewrite Hall by lia. apply IH; lia. }
  apply Hgen; lia.
Qed.

Lemma marks_test n S bm i : marks n S bm -> 0 <= i < n -> ext4_test_bit i bm = bool_decide (i ∈ S).
Proof. intros [_ Hb] Hi. unfold ext4_test_bit. by rewrite Hb. Qed.

(** The offset of a block of the group, as the [int] it is kept in. *)
Lemma group_offset sbi g b :
  geo_ok sbi -> 0 <= g < s_groups_count sbi -> fs_block sbi b -> ext4_block_in_group sbi b g = true ->
  sext 32 (b - ext4_group_first_block_no sbi g) = b - group_start sbi g /\ 0 <= b - group_start sbi g < s_blocks_per_group sbi.
Proof.
  intros G Hg Hb Hin. rewrite (first_block_spec sbi G) by done. apply (in_group_iff sbi G) in Hin; [|done]. pose proof (geo_small _ G).
  split; [|lia]. apply wrap32_int. lia.
Qed.

(** The bitmap made for a group that holds all its metadata passes the
    validation, unless the inode table ends with the group: the validation looks
    at the cluster behind the table, and returns the table as the bad block. *)
Theorem fresh_bitmap_validation sbi g gdp bm :
  geo_ok sbi -> 0 <= g < s_groups_count sbi -> meta_ok sbi g gdp -> 0 < s_itb_per_group sbi ->
  (forall c, c ∈ meta_clusters sbi g gdp -> c < num_clusters_in_group sbi g) ->
  ext4_num_base_meta_clusters sbi g < s_blocksize sbi * 8 -> Z.of_nat (length bm) = s_blocksize sbi * 8 ->
  feature_flex_bg sbi = false ->
  (forall b, b ∈ ext4_block_bitmap sbi gdp :: ext4_inode_bitmap sbi gdp :: itable_blocks sbi gdp -> ext4_block_in_group sbi b g = true) ->
  runs (init_bits sbi g gdp) bm (fun r bm' => r = 0 /\
    ext4_valid_block_bitmap sbi gdp g bm' =
    if ext4_inode_table sbi gdp + s_itb_per_group sbi <? ext4_group_first_block_no sbi g + s_blocks_per_group sbi then 0
    else ext4_inode_table sbi gdp).
Proof.
  intros G Hg Hok Hitb Hfit Hbase Hl Hflex Hin. eapply runs_conseq; [apply init_bits_ok; try done; lia|]. intros r bm' [-> Hm]. split; [done|].
  pose proof Hok as [_ Hbb Hib Hit]. pose proof (ratio_pos _ G) as Hr. pose proof (geo_bpg _ G) as Eb. pose proof (geo_bits _ G) as Hbits.
  pose proof (bpg_pos _ G) as Hbp. set (X := meta_clusters sbi g gdp) in *. set (n := s_blocksize sbi * 8) in *.
  assert (Hset : forall c, c ∈ X -> ext4_test_bit c bm' = true).
  { intros c Hc. pose proof (meta_clusters_range sbi G g gdp c Hok Hc). rewrite (marks_test _ _ _ _ Hm) by lia. apply bool_decide_eq_true_2. set_solver. }
  assert (Hone : forall b, b ∈ [ext4_block_bitmap sbi gdp; ext4_inode_bitmap sbi gdp] -> fs_block sbi b ->
            bit_missing sbi (s_clusters_per_group sbi) (sext 32 (b - ext4_group_first_block_no sbi g)) bm' = false).
  { intros b Hb Hfs. assert (Hi : ext4_block_in_group sbi b g = true) by (apply Hin; set_solver). destruct (group_offset sbi g b G Hg Hfs Hi) as [-> Ho].
    unfold bit_missing. rewrite (b2c_div sbi G). fold (cluster_of sbi g b). pose proof (cluster_range sbi G g b ltac:(lia)) as Hc.
    rewrite Hset by (unfold X, meta_clusters; assert (cluster_of sbi g b ∈ clusters sbi g [b]) by (rewrite clusters_one, Hi; set_solver); set_solver).
    destruct (Z.ltb_spec (b - group_start sbi g) 0); [lia|]. destruct (Z.leb_spec (s_clusters_per_group sbi) (cluster_of sbi g b)); [lia|done]. }
  unfold ext4_valid_block_bitmap. rewrite Hflex, !Hone by (done || set_solver). cbv zeta. set (it := ext4_inode_table sbi gdp) in *.
  assert (Hitin : forall b, it <= b < it + s_itb_per_group sbi -> fs_block sbi b /\ ext4_block_in_group sbi b g = true).
  { intros b Hb. assert (Hbin : b ∈ itable_blocks sbi gdp) by (apply elem_of_seqZ; fold it; lia). rewrite Forall_forall in Hit. split; [by apply Hit|].
    apply Hin. by do 2 right. }
  destruct (Hitin it ltac:(lia)) as [Hfs Hi]. destruct (group_offset sbi g it G Hg Hfs Hi) as [-> Ho].
  destruct (Hitin (it + s_itb_per_group sbi - 1) ltac:(lia)) as [Hfs' Hi']. apply (in_group_iff sbi G) in Hi'; [|done].
  rewrite (first_block_spec sbi G) by done. set (o := it - group_start sbi g) in *. rewrite !(b2c_div sbi G).
  destruct (Z.ltb_spec o 0); [lia|]. cbn [orb]. assert (Hoc : o / s_cluster_ratio sbi < s_clusters_per_group sbi) by (apply Z.div_lt_upper_bound; lia).
  destruct (Z.leb_spec (s_clusters_per_group sbi) (o / s_cluster_ratio sbi)); [lia|]. cbn [orb].
  assert (Hend : s_clusters_per_group sbi <= (o + s_itb_per_group sbi) / s_cluster_ratio sbi <-> s_blocks_per_group sbi <= o + s_itb_per_group sbi).
  { rewrite Eb. split.
    - intros Hd. pose proof (Z.mul_div_le (o + s_itb_per_group sbi) _ Hr). nia.
    - intros Hd. apply Z.div_le_lower_bound; lia. }
  destruct (Z.leb_spec (s_clusters_per_group sbi) ((o + s_itb_per_group sbi) / s_cluster_ratio sbi)) as [Hge|Hlt].
  { destruct (Z.ltb_spec (it + s_itb_per_group sbi) (group_start sbi g + s_blocks_per_group sbi)); [lia|done]. }
  destruct (Z.ltb_spec (it + s_itb_per_group sbi) (group_start sbi g + s_blocks_per_group sbi)); [|lia].
  rewrite find_next_zero_full, Z.ltb_irrefl; [done| |apply Z.div_le_mono; lia].
  intros c Hc. apply Hset. unfold X, meta_clusters. apply elem_of_union_r. unfold clusters. apply elem_of_list_to_set, list_elem_of_fmap.
  pose proof (Z.mul_div_le (o + s_itb_per_group sbi) _ Hr). pose proof (Z.mul_succ_div_gt o _ Hr). pose proof (Z.mul_div_le o _ Hr).
  set (b := group_start sbi g + Z.max o (c * s_cluster_ratio sbi)). assert (Hb : it <= b < it + s_itb_per_group sbi) by (unfold b, o in *; nia).
  exists b. split; [|apply list_elem_of_filter; split; [by apply Hitin|apply elem_of_seqZ; fold it; lia]].
  unfold cluster_of, b. replace (group_start sbi g + Z.max o (c * s_cluster_ratio sbi) - group_start sbi g) with (Z.max o (c * s_cluster_ratio sbi)) by lia.
  apply Z.div_unique_pos with (Z.max o (c * s_cluster_ratio sbi) - c * s_cluster_ratio sbi); nia.
Qed.

(** ** A file system of three groups

    256 clusters of two blocks per group, the last group cut short; group 1 has
    copies of the superblock and of the descriptors, its bitmaps and an inode
    table of eight blocks behind them. *)

Definition sbi0 : ext4_sb_info :=
  mk_sbi 64 6 1 2 512 256 4 2 64 3 8 1 0 17 1 1400 0 40 0 0 4 (0, 0) false false false true false true true.

(** Group 1 begins at block 513. *)
Definition gdp1 : ext4_group_desc := mk_gdp 519 0 521 0 522 0 248 0 64 0 2 0 0.

Lemma geo0 : geo_ok sbi0.
Proof. split; try (vm_compute; done); try (vm_compute; split; congruence). Qed.

Lemma fs_block0 b : 1 <= b < 1400 -> fs_block sbi0 b.
Proof. intros Hb. exact Hb. Qed.

Lemma meta1 : meta_ok sbi0 1 gdp1.
Proof.
  split; [vm_compute; split; congruence|apply fs_block0; vm_compute; split; congruence..|].
  apply Forall_forall. intros b Hb%elem_of_seqZ. apply fs_block0. change (ext4_inode_table sbi0 gdp1) with 522 in Hb. change (s_itb_per_group sbi0) with 8 in Hb. lia.
Qed.

Lemma apart1 : bitmaps_apart sbi0 1 gdp1.
Proof.
  intros c H1 H2. change (c ∈ clusters sbi0 1 [519]) in H1. change (c ∈ clusters sbi0 1 [521]) in H2. rewrite clusters_one in H1, H2.
  change (ext4_block_in_group sbi0 519 1) with true in H1. change (ext4_block_in_group sbi0 521 1) with true in H2.
  apply elem_of_singleton in H1, H2. subst c. vm_compute in H2. discriminate H2.
Qed.

Lemma fit1 c : c ∈ meta_clusters sbi0 1 gdp1 -> c < num_clusters_in_group sbi0 1.
Proof. intros Hc%(meta_clusters_range sbi0 geo0 1 gdp1 c meta1). apply Hc. Qed.

Definition dirty_block : bitmap := replicate 512 true.

Lemma group_and_offset_roundtrip_witness :
  ext4_get_group_no_and_offset sbi0 700 = (1, 93) /\ ext4_block_in_group sbi0 700 1 = true /\
  ext4_get_group_no_and_offset sbi0 (ext4_group_first_block_no sbi0 2 + EXT4_C2B sbi0 7) = (2, 7).
Proof.
  pose proof (group_and_offset_roundtrip sbi0 geo0) as [H1 H2]. split_and!; [reflexivity| |].
  - specialize (H1 700 ltac:(apply fs_block0; lia)). change (ext4_get_group_no_and_offset sbi0 700) with (1, 93) in H1. cbv iota in H1.
    destruct H1 as (_ & _ & _ & H1 & _). by apply H1.
  - apply H2; [vm_compute; split; congruence|vm_compute; split; congruence|apply fs_block0; vm_compute; split; congruence].
Defined.

Lemma sparse_super_copies_witness : ext4_bg_has_super sbi0 49 = true /\ exists n, 1 <= n /\ (49 = 3 ^ n \/ 49 = 5 ^ n \/ 49 = 7 ^ n).
Proof.
  split; [reflexivity|]. pose proof (proj1 (sparse_super_copies sbi0 49 eq_refl eq_refl ltac:(lia)) eq_refl) as [H|[H|H]]; [lia|lia|exact H].
Defined.

Lemma free_after_init_counts_bitmap_witness :
  runs (init_bits sbi0 1 gdp1) dirty_block (fun r bm => r = 0 /\ ext4_count_free bm 32 = 247).
Proof.
  eapply runs_conseq.
  - apply (free_after_init_counts_bitmap sbi0 1 gdp1 dirty_block);
      [exact geo0|vm_compute; split; congruence|exact meta1|exact apart1|vm_compute; congruence|exact fit1|reflexivity|reflexivity|reflexivity].
  - intros r bm [-> E]. split; [reflexivity|exact E].
Defined.

Lemma fresh_bitmap_validation_witness :
  runs (init_bits sbi0 1 gdp1) dirty_block (fun r bm => r = 0 /\ ext4_valid_block_bitmap sbi0 gdp1 1 bm = 0).
Proof.
  eapply runs_conseq.
  - apply (fresh_bitmap_validation sbi0 1 gdp1 dirty_block);
      [exact geo0|vm_compute; split; congruence|exact meta1|reflexivity|exact fit1|reflexivity|reflexivity|reflexivity|].
    intros b Hb. assert (Hr : 513 <= b < 1025).
    { apply elem_of_cons in Hb as [-> |Hb]; [vm_compute; split; congruence|]. apply elem_of_cons in Hb as [-> |Hb]; [vm_compute; split; congruence|].
      apply elem_of_seqZ in Hb. change (ext4_inode_table sbi0 gdp1) with 522 in Hb. change (s_itb_per_group sbi0) with 8 in Hb. lia. }
    apply (in_group_iff sbi0 geo0); [apply fs_block0; lia|exact Hr].
  - intros r bm [-> E]. split; [reflexivity|exact E].
Defined.
