(* ===== verification/Balloc.v ===== *)
(** * mqfs: reading block bitmaps and claiming free clusters (balloc.c,
    [ext4_mark_group_bitmap_corrupted] of super.c, [ext4_end_bitmap_read] of
    ialloc.c, [ext4_block_bitmap_csum_verify] of bitmap.c) *)

From S2P Require Import Prelude BlockGroup.

(** Counters of the kernel that keep a part of their value per CPU
    (linux/percpu_counter.h): [percpu_counter_read_positive] may be off by what
    the CPUs hold back, [percpu_counter_sum_positive] is not. *)
Class PercpuApi := {
  percpu_counter : Type;
  percpu_value : percpu_counter -> Z;
  percpu_counter_read_positive : percpu_counter -> Z;
  percpu_counter_sum_positive : percpu_counter -> Z;
  percpu_counter_add : percpu_counter -> Z -> percpu_counter;
  percpu_counter_batch : Z;
  nr_cpu_ids : Z;
}.

Class PercpuLaws `{PercpuApi} : Prop := {
  percpu_batch_law : 0 <= percpu_counter_batch * nr_cpu_ids;
  percpu_sum_law c : percpu_counter_sum_positive c = Z.max 0 (percpu_value c);
  percpu_read_law c : Z.abs (percpu_counter_read_positive c - Z.max 0 (percpu_value c)) <= percpu_counter_batch * nr_cpu_ids;
  percpu_add_law c n : percpu_value (percpu_counter_add c n) = percpu_value c + n;
}.

(** Checksums: [ext4_chksum] is the CRC of the kernel's crypto interface; the
    checksum of a descriptor (super.c) is left abstract. *)
Class CsumApi := {
  ext4_chksum : Z -> bitmap -> Z;                              (* seed and bytes *)
  ext4_group_desc_csum_verify : Z -> ext4_group_desc -> bool;
}.

(** The buffer of a bitmap block. *)
Record bitmap_bh := mk_bitmap_bh {
  b_data : bitmap;
  b_uptodate : bool;
  b_bitmap_uptodate : bool;    (* BH_BITMAP_UPTODATE *)
  b_verified : bool;
  b_new : bool;
  b_locked : bool;
  b_reading : bool;            (* submitted for reading, not completed *)
  b_count : Z;
}.
#[export] Instance bitmap_bh_eta : Eta bitmap_bh := fun b =>
  mk_bitmap_bh (b_data b) (b_uptodate b) (b_bitmap_uptodate b) (b_verified b) (b_new b) (b_locked b) (b_reading b) (b_count b).

Record ext4_group_info := mk_grp {
  bbitmap_corrupt : bool;
  ibitmap_corrupt : bool;
  bb_free : Z;
}.
#[export] Instance ext4_group_info_eta : Eta ext4_group_info := fun g =>
  mk_grp (bbitmap_corrupt g) (ibitmap_corrupt g) (bb_free g).

Section balloc.
Context `{PercpuApi} `{CsumApi}.

Record bfs := mk_bfs {
  sbi : ext4_sb_info;
  s_group_desc : list (option (list ext4_group_desc));   (* the descriptors of each block of them *)
  s_group_info : list ext4_group_info;
  group_locked : gset Z;
  bh_of : Z -> bitmap_bh;                                (* by block number *)
  getblk_ok : list bool;                                 (* whether the next calls of sb_getblk succeed; then they do *)
  bitmap_disk : Z -> option bitmap;                      (* None: the read fails *)
  s_freeclusters_counter : percpu_counter;
  s_freeinodes_counter : percpu_counter;
  s_dirtyclusters_counter : percpu_counter;
  s_resv_clusters : Z;
  s_mb_free_pending : Z;
  may_use_reserved : bool;                               (* s_resuid, s_resgid or CAP_SYS_RESOURCE *)
}.
#[export] Instance bfs_eta : Eta bfs := fun s =>
  mk_bfs (sbi s) (s_group_desc s) (s_group_info s) (group_locked s) (bh_of s) (getblk_ok s) (bitmap_disk s)
    (s_freeclusters_counter s) (s_freeinodes_counter s) (s_dirtyclusters_counter s) (s_resv_clusters s)
    (s_mb_free_pending s) (may_use_reserved s).

(** ** Descriptors *)

Definition ext4_get_group_desc (block_group : Z) : M bfs (option ext4_group_desc) :=
  sb <-- gets sbi ;;
  if s_groups_count sb <=? block_group then ret None
  else
    let group_desc := Z.shiftr block_group (s_desc_per_block_bits sb) in
    let offset := Z.land block_group (s_desc_per_block sb - 1) in
    ds <-- gets s_group_desc ;;
    match ds !! Z.to_nat group_desc with
    | None => oops OutOfBounds
    | Some None => ret None
    | Some (Some descs) =>
        match descs !! Z.to_nat offset with
        | None => oops OutOfBounds
        | Some desc => ret (Some desc)
        end
    end.

Definition ext4_get_group_info (group : Z) : M bfs ext4_group_info :=
  sb <-- gets sbi ;;
  check (group <? s_groups_count sb) BugOn ;;;
  gs <-- gets s_group_info ;;
  match gs !! Z.to_nat group with None => oops OutOfBounds | Some grp => ret grp end.

Definition upd_group (group : Z) (f : ext4_group_info -> ext4_group_info) : M bfs unit :=
  modify (fun s => s <| s_group_info ::= alter f (Z.to_nat group) |>).

Definition EXT4_GROUP_INFO_BBITMAP_CORRUPT : Z := 4.
Definition EXT4_GROUP_INFO_IBITMAP_CORRUPT : Z := 8.

Definition ext4_mark_group_bitmap_corrupted (group flags : Z) : M bfs unit :=
  grp <-- ext4_get_group_info group ;;
  gdp <-- ext4_get_group_desc group ;;
  (if negb (Z.land flags EXT4_GROUP_INFO_BBITMAP_CORRUPT =? 0) then
     upd_group group (fun g => g <| bbitmap_corrupt := true |>) ;;;
     if negb (bbitmap_corrupt grp) then
       modify (fun s => s <| s_freeclusters_counter ::= fun c => percpu_counter_add c (- bb_free grp) |>)
     else ret tt
   else ret tt) ;;;
  if negb (Z.land flags EXT4_GROUP_INFO_IBITMAP_CORRUPT =? 0) then
    upd_group group (fun g => g <| ibitmap_corrupt := true |>) ;;;
    match gdp with
    | Some gdp =>
        if negb (ibitmap_corrupt grp) then
          sb <-- gets sbi ;;
          modify (fun s => s <| s_freeinodes_counter ::= fun c => percpu_counter_add c (- ext4_free_inodes_count sb gdp) |>)
        else ret tt
    | None => ret tt
    end
  else ret tt.

(** ** Buffers and locks *)

Definition get_buf (b : Z) : M bfs bitmap_bh := gets (fun s => bh_of s b).
Definition upd_buf (b : Z) (f : bitmap_bh -> bitmap_bh) : M bfs unit :=
  modify (fun s => s <| bh_of ::= fun m x => if x =? b then f (m x) else m x |>).

Definition bitmap_uptodate (x : bitmap_bh) : bool := b_uptodate x && b_bitmap_uptodate x.

Definition put_bh_bm (b : Z) : M bfs unit := upd_buf b (fun x => x <| b_count ::= fun c => c - 1 |>).
Definition get_bh_bm (b : Z) : M bfs unit := upd_buf b (fun x => x <| b_count ::= fun c => c + 1 |>).

Definition unlock_buffer_bm (b : Z) : M bfs unit :=
  x <-- get_buf b ;; check (b_locked x) BadUnlock ;;; upd_buf b (fun x => x <| b_locked := false |>).

(** Called when a read of [b] has ended. *)
Definition ext4_end_bitmap_read (b : Z) (uptodate : bool) : M bfs unit :=
  (if uptodate then upd_buf b (fun x => x <| b_uptodate := true |> <| b_bitmap_uptodate := true |>) else ret tt) ;;;
  unlock_buffer_bm b ;;;
  put_bh_bm b.

(** The device completes the read: the data arrives before the call-back. *)
Definition complete_read (b : Z) : M bfs unit :=
  d <-- gets (fun s => bitmap_disk s b) ;;
  upd_buf b (fun x => x <| b_reading := false |>) ;;;
  match d with
  | Some data => upd_buf b (fun x => x <| b_data := data |>) ;;; ext4_end_bitmap_read b true
  | None => ext4_end_bitmap_read b false
  end.

(** A locked buffer that nobody reads would be waited for for ever. *)
Definition wait_on_buffer_bm (b : Z) : M bfs unit :=
  x <-- get_buf b ;;
  if negb (b_locked x) then ret tt else if b_reading x then complete_read b else stall.

Definition lock_buffer_bm (b : Z) : M bfs unit :=
  wait_on_buffer_bm b ;;; upd_buf b (fun x => x <| b_locked := true |>).

Definition ext4_lock_group (g : Z) : M bfs unit := fun s =>
  if decide (g ∈ group_locked s) then Oops SelfDeadlock else Ret tt (s <| group_locked ::= union {[g]} |>).
Definition ext4_unlock_group (g : Z) : M bfs unit := fun s =>
  if decide (g ∈ group_locked s) then Ret tt (s <| group_locked ::= (.∖ {[g]}) |>) else Oops BadUnlock.

(** ** Reading a bitmap *)

Definition EXT4_BG_BLOCK_BITMAP_CSUM_HI_END : Z := 58.

Definition ext4_block_bitmap_csum_verify (sb : ext4_sb_info) (gdp : ext4_group_desc) (data : bitmap) : bool :=
  if negb (metadata_csum sb) then true
  else
    let sz := s_clusters_per_group sb / 8 in
    let provided := bg_block_bitmap_csum_lo gdp in
    let calculated := ext4_chksum (s_csum_seed sb) (take (Z.to_nat (8 * sz)) data) in
    if EXT4_BG_BLOCK_BITMAP_CSUM_HI_END <=? s_desc_size sb
    then Z.lor provided (u32 (Z.shiftl (bg_block_bitmap_csum_hi gdp) 16)) =? calculated
    else provided =? Z.land calculated 0xFFFF.

Definition ext4_init_block_bitmap (b block_group : Z) (gdp : ext4_group_desc) : M bfs Z :=
  if negb (ext4_group_desc_csum_verify block_group gdp) then
    ext4_mark_group_bitmap_corrupted block_group
      (Z.lor EXT4_GROUP_INFO_BBITMAP_CORRUPT EXT4_GROUP_INFO_IBITMAP_CORRUPT) ;;;
    ret EFSBADCRC
  else
    sb <-- gets sbi ;;
    x <-- get_buf b ;;
    match init_bits sb block_group gdp (b_data x) with
    | Ret r bm => upd_buf b (fun x => x <| b_data := bm |>) ;;; ret r
    | Oops f => oops f
    | Stall => stall
    end.

Definition ext4_validate_block_bitmap (desc : ext4_group_desc) (block_group b : Z) : M bfs Z :=
  grp <-- ext4_get_group_info block_group ;;
  x <-- get_buf b ;;
  if b_verified x then ret 0
  else if bbitmap_corrupt grp then ret EFSCORRUPTED
  else
    ext4_lock_group block_group ;;;
    x <-- get_buf b ;;
    if b_verified x then ext4_unlock_group block_group ;;; ret 0
    else
      sb <-- gets sbi ;;
      if negb (ext4_block_bitmap_csum_verify sb desc (b_data x)) then
        ext4_unlock_group block_group ;;;
        ext4_mark_group_bitmap_corrupted block_group EXT4_GROUP_INFO_BBITMAP_CORRUPT ;;;
        ret EFSBADCRC
      else if negb (ext4_valid_block_bitmap sb desc block_group (b_data x) =? 0) then
        ext4_unlock_group block_group ;;;
        ext4_mark_group_bitmap_corrupted block_group EXT4_GROUP_INFO_BBITMAP_CORRUPT ;;;
        ret EFSCORRUPTED
      else
        upd_buf b (fun x => x <| b_verified := true |>) ;;;
        ext4_unlock_group block_group ;;;
        ret 0.

(** [sb_getblk] takes a reference. *)
Definition sb_getblk_bm (b : Z) : M bfs bool :=
  l <-- gets getblk_ok ;;
  match l with
  | false :: l => modify (fun s => s <| getblk_ok := l |>) ;;; ret false
  | true :: l => modify (fun s => s <| getblk_ok := l |>) ;;; get_bh_bm b ;;; ret true
  | [] => get_bh_bm b ;;; ret true
  end.

Definition EXT4_BG_BLOCK_UNINIT : Z := 2.
Definition ext4_has_group_desc_csum (sb : ext4_sb_info) : bool := feature_gdt_csum sb || metadata_csum sb.

(** The labels [verify] and [out]. *)
Definition out_bitmap (b err : Z) : M bfs (Z + Z) := put_bh_bm b ;;; ret (inl err).
Definition verify_bitmap (desc : ext4_group_desc) (block_group b : Z) : M bfs (Z + Z) :=
  err <-- ext4_validate_block_bitmap desc block_group b ;;
  if negb (err =? 0) then out_bitmap b err else ret (inr b).

(** What is done under the lock of the buffer. *)
Definition load_bitmap (desc : ext4_group_desc) (block_group b : Z) : M bfs (Z + Z) :=
  x <-- get_buf b ;;
  if bitmap_uptodate x then unlock_buffer_bm b ;;; verify_bitmap desc block_group b
  else
    ext4_lock_group block_group ;;;
    sb <-- gets sbi ;;
    if ext4_has_group_desc_csum sb && negb (Z.land (bg_flags desc) EXT4_BG_BLOCK_UNINIT =? 0) then
      if block_group =? 0 then
        ext4_unlock_group block_group ;;;
        unlock_buffer_bm b ;;;
        out_bitmap b EFSCORRUPTED
      else
        err <-- ext4_init_block_bitmap b block_group desc ;;
        upd_buf b (fun x => x <| b_bitmap_uptodate := true |> <| b_uptodate := true |> <| b_verified := true |>) ;;;
        ext4_unlock_group block_group ;;;
        unlock_buffer_bm b ;;;
        if negb (err =? 0) then out_bitmap b err else verify_bitmap desc block_group b
    else
      ext4_unlock_group block_group ;;;
      x <-- get_buf b ;;
      if b_uptodate x then
        upd_buf b (fun x => x <| b_bitmap_uptodate := true |>) ;;;
        unlock_buffer_bm b ;;;
        verify_bitmap desc block_group b
      else
        upd_buf b (fun x => x <| b_new := true |>) ;;;
        get_bh_bm b ;;;
        upd_buf b (fun x => x <| b_reading := true |>) ;;;
        ret (inr b).

(** The block of the buffer, or an error. *)
Definition ext4_read_block_bitmap_nowait (block_group : Z) : M bfs (Z + Z) :=
  d <-- ext4_get_group_desc block_group ;;
  match d with
  | None => ret (inl EFSCORRUPTED)
  | Some desc =>
      sb <-- gets sbi ;;
      let bitmap_blk := ext4_block_bitmap sb desc in
      if (bitmap_blk <=? s_first_data_block sb) || (ext4_blocks_count sb <=? bitmap_blk) then
        ext4_mark_group_bitmap_corrupted block_group EXT4_GROUP_INFO_BBITMAP_CORRUPT ;;;
        ret (inl EFSCORRUPTED)
      else
        ok <-- sb_getblk_bm bitmap_blk ;;
        if negb ok then ret (inl ENOMEM_bg)
        else
          x <-- get_buf bitmap_blk ;;
          if bitmap_uptodate x then verify_bitmap desc block_group bitmap_blk
          else lock_buffer_bm bitmap_blk ;;; load_bitmap desc block_group bitmap_blk
  end.

Definition ext4_wait_block_bitmap (block_group b : Z) : M bfs Z :=
  x <-- get_buf b ;;
  if negb (b_new x) then ret 0
  else
    d <-- ext4_get_group_desc block_group ;;
    match d with
    | None => ret EFSCORRUPTED
    | Some desc =>
        wait_on_buffer_bm b ;;;
        x <-- get_buf b ;;
        if negb (b_uptodate x) then
          ext4_mark_group_bitmap_corrupted block_group EXT4_GROUP_INFO_BBITMAP_CORRUPT ;;;
          ret EIO_bg
        else
          upd_buf b (fun x => x <| b_new := false |>) ;;;
          ext4_validate_block_bitmap desc block_group b
    end.

Definition ext4_read_block_bitmap (block_group : Z) : M bfs (Z + Z) :=
  r <-- ext4_read_block_bitmap_nowait block_group ;;
  match r with
  | inl err => ret (inl err)
  | inr b =>
      err <-- ext4_wait_block_bitmap block_group b ;;
      if negb (err =? 0) then put_bh_bm b ;;; ret (inl err) else ret (inr b)
  end.

(** ** Free clusters *)

Definition EXT4_FREECLUSTERS_WATERMARK : Z := 4 * (percpu_counter_batch * nr_cpu_ids).
Definition EXT4_MB_USE_ROOT_BLOCKS : Z := 0x1000.
Definition EXT4_MB_USE_RESERVED : Z := 0x2000.
Definition ENOSPC_bg : Z := -28.

(** The test is on one state of the counters: claims of other tasks come before or
    after [ext4_claim_free_clusters], not between its test and its addition.  The
    sums are those of s64 as long as the counters stay below 2^62. *)
Definition ext4_has_free_clusters (s : bfs) (nclusters flags : Z) : bool :=
  let fcc := s_freeclusters_counter s in
  let dcc := s_dirtyclusters_counter s in
  let resv_clusters := s_resv_clusters s in
  let rsv := Z.shiftr (ext4_r_blocks_count (sbi s)) (s_cluster_bits (sbi s)) + resv_clusters in
  let free := percpu_counter_read_positive fcc in
  let dirty := percpu_counter_read_positive dcc in
  let '(free_clusters, dirty_clusters) :=
    if free - (nclusters + rsv + dirty) <? EXT4_FREECLUSTERS_WATERMARK
    then (percpu_counter_sum_positive fcc, percpu_counter_sum_positive dcc)
    else (free, dirty) in
  if rsv + nclusters + dirty_clusters <=? free_clusters then true
  else if (may_use_reserved s || negb (Z.land flags EXT4_MB_USE_ROOT_BLOCKS =? 0)) &&
          (nclusters + dirty_clusters + resv_clusters <=? free_clusters) then true
  else negb (Z.land flags EXT4_MB_USE_RESERVED =? 0) && (nclusters + dirty_clusters <=? free_clusters).

Definition ext4_claim_free_clusters (nclusters flags : Z) : M bfs Z :=
  ok <-- gets (fun s => ext4_has_free_clusters s nclusters flags) ;;
  if ok then modify (fun s => s <| s_dirtyclusters_counter ::= fun c => percpu_counter_add c nclusters |>) ;;; ret 0
  else ret ENOSPC_bg.

(** Adds up the clusters free according to the descriptors. *)
Definition count_one (i desc_count : Z) : M bfs Z :=
  gdp <-- ext4_get_group_desc i ;;
  match gdp with
  | None => ret desc_count
  | Some gdp =>
      infos <-- gets s_group_info ;;
      sb <-- gets sbi ;;
      let add := ret (u64 (desc_count + ext4_free_group_clusters sb gdp)) in
      match infos with
      | [] => add                                  (* s_group_info is not allocated yet *)
      | _ => grp <-- ext4_get_group_info i ;; if bbitmap_corrupt grp then ret desc_count else add
      end
  end.

Fixpoint count_loop (groups : list Z) (desc_count : Z) : M bfs Z :=
  match groups with
  | [] => ret desc_count
  | i :: groups => c <-- count_one i desc_count ;; count_loop groups c
  end.

Definition ext4_count_free_clusters : M bfs Z :=
  sb <-- gets sbi ;; count_loop (seqZ 0 (s_groups_count sb)) 0.
End balloc.
