(* ===== verification/BallocTheorems.v ===== *)
(** * mqfs: theorems on reading block bitmaps and claiming clusters *)

From S2P Require Import Prelude BlockGroup BlockGroupFacts BlockGroupTheorems Balloc.

(** ** Claiming free clusters *)

Section claim.
Context `{PercpuLaws} `{CsumApi}.

(** The values of the counters, and the clusters set aside for root and for
    the file system itself. *)
Definition free_value (s : bfs) : Z := Z.max 0 (percpu_value (s_freeclusters_counter s)).
Definition dirty_value (s : bfs) : Z := Z.max 0 (percpu_value (s_dirtyclusters_counter s)).
Definition root_clusters (s : bfs) : Z := Z.shiftr (ext4_r_blocks_count (sbi s)) (s_cluster_bits (sbi s)).

(** [n] clusters may be claimed. *)
Definition claimable (s : bfs) (n flags : Z) : Prop :=
  n + dirty_value s + root_clusters s + s_resv_clusters s <= free_value s \/
  (may_use_reserved s = true \/ Z.land flags EXT4_MB_USE_ROOT_BLOCKS <> 0) /\ n + dirty_value s + s_resv_clusters s <= free_value s \/
  Z.land flags EXT4_MB_USE_RESERVED <> 0 /\ n + dirty_value s <= free_value s.

Lemma has_free_exact s n flags : ext4_has_free_clusters s n flags = true <-> claimable s n flags.
Proof.
  unfold ext4_has_free_clusters, claimable, root_clusters. cbv zeta. set (root := Z.shiftr _ _). set (resv := s_resv_clusters s).
  pose proof (percpu_read_law (s_freeclusters_counter s)) as Hf. pose proof (percpu_read_law (s_dirtyclusters_counter s)) as Hd. pose proof percpu_batch_law as Hb.
  fold (free_value s) in Hf. fold (dirty_value s) in Hd. unfold EXT4_FREECLUSTERS_WATERMARK.
  set (free := percpu_counter_read_positive (s_freeclusters_counter s)) in *. set (dirty := percpu_counter_read_positive (s_dirtyclusters_counter s)) in *.
  set (batch := percpu_counter_batch * nr_cpu_ids) in *. clearbody root resv free dirty batch.
  destruct (Z.ltb_spec (free - (n + (root + resv) + dirty)) (4 * batch)) as [Hlow|Hhigh].
  - rewrite !percpu_sum_law. fold (free_value s) (dirty_value s).
    destruct (Z.leb_spec (root + resv + n + dirty_value s) (free_value s)); [split; [|done]; left; lia|].
    destruct (Z.leb_spec (n + dirty_value s + resv) (free_value s)); rewrite ?andb_true_r, ?andb_false_r.
    + destruct (may_use_reserved s || negb (Z.land flags EXT4_MB_USE_ROOT_BLOCKS =? 0)) eqn:Ep.
      { split; [|done]. intros _. right. left. split; [|done]. apply orb_true_iff in Ep as [?|Ep]; [by left|right]. by apply negb_true_iff, Z.eqb_neq in Ep. }
      apply orb_false_iff in Ep as [Ep1 Ep2]. apply negb_false_iff, Z.eqb_eq in Ep2. rewrite andb_true_iff, negb_true_iff, Z.eqb_neq, Z.leb_le. split; [tauto|].
      intros [?|[[[?|?] _]|?]]; [lia|congruence|done|done].
    + rewrite andb_true_iff, negb_true_iff, Z.eqb_neq, Z.leb_le. split; [tauto|]. intros [?|[[_ ?]|?]]; [lia|lia|done].
  - destruct (Z.leb_spec (root + resv + n + dirty) free); [|lia]. split; [|done]. intros _. left. lia.
Qed.

(** C21: A claim succeeds exactly when the clusters are there, although the counters
    are read without their parts on the CPUs: then the clusters are counted as
    dirty, and a failed claim changes nothing. *)
Theorem claim_is_exact n flags s :
  runs (ext4_claim_free_clusters n flags) s (fun r s' =>
    (r = 0 <-> claimable s n flags) /\ (r = 0 \/ r = ENOSPC_bg) /\
    s' = s <| s_dirtyclusters_counter := s_dirtyclusters_counter s' |> /\
    percpu_value (s_dirtyclusters_counter s') = percpu_value (s_dirtyclusters_counter s) + (if r =? 0 then n else 0) /\
    (r <> 0 -> s' = s)).
Proof.
  unfold ext4_claim_free_clusters. apply runs_bind, runs_gets. pose proof (has_free_exact s n flags) as Hx.
  destruct (ext4_has_free_clusters s n flags).
  - apply runs_bind, runs_modify, runs_ret. split_and!; [split; [intros _; by apply Hx|done]|by left|by destruct s|by destruct s; apply percpu_add_law|done].
  - apply runs_ret. split_and!; [|by right|by destruct s|cbn; lia|done]. split; [done|]. intros Hc%Hx. discriminate Hc.
Qed.

End claim.

(** ** Reading a bitmap *)

Section read.
Context `{PercpuApi} `{CsumApi} (s0 : bfs) (g : Z) (desc : ext4_group_desc).

(** The descriptor of the group is loaded. *)
Definition desc_loaded : Prop :=
  0 <= g < s_groups_count (sbi s0) /\ g < Z.of_nat (length (s_group_info s0)) /\
  exists descs, s_group_desc s0 !! Z.to_nat (Z.shiftr g (s_desc_per_block_bits (sbi s0))) = Some (Some descs) /\
    descs !! Z.to_nat (Z.land g (s_desc_per_block (sbi s0) - 1)) = Some desc.

#[local] Abbreviation blk := (ext4_block_bitmap (sbi s0) desc).

(** States reached from [s0] in which the locks of the groups are [L] and the
    buffer of the bitmap is [x]; [clean]: no group was marked as corrupted. *)
Context (clean : bool).

Record at_ (L : gset Z) (x : bitmap_bh) (s : bfs) : Prop := mk_at {
  at_locks : group_locked s = L;
  at_buf : bh_of s blk = x;
  at_sbi : sbi s = sbi s0;
  at_descs : s_group_desc s = s_group_desc s0;
  at_infos : length (s_group_info s) = length (s_group_info s0);
  at_disk : bitmap_disk s = bitmap_disk s0;
  at_others : forall b, b <> blk -> bh_of s b = bh_of s0 b;
  at_getblk : Forall (eq true) (getblk_ok s0) -> Forall (eq true) (getblk_ok s);
  at_clean : clean = true -> s_group_info s = s_group_info s0;
}.

Context (Hd : desc_loaded).

Lemma get_desc_at L x s Q : at_ L x s -> Q (Some desc) s -> runs (ext4_get_group_desc g) s Q.
Proof.
  intros [_ _ E1 E2 _ _ _ _ _] HQ. destruct Hd as (Hg & _ & descs & D1 & D2). unfold ext4_get_group_desc. rstep. rstep. rewrite E1.
  destruct (Z.leb_spec (s_groups_count (sbi s0)) g); [lia|]. cbv zeta. rstep. rstep. rewrite E2, D1, D2. by apply runs_ret.
Qed.

Lemma get_info_at L x s Q : at_ L x s -> (forall grp, Q grp s) -> runs (ext4_get_group_info g) s Q.
Proof.
  intros [_ _ E1 _ E3 _ _ _ _] HQ. destruct Hd as (Hg & Hl & _). unfold ext4_get_group_info. rstep. rstep. rewrite E1. rstep.
  apply runs_check; [apply Z.ltb_lt; lia|]. rstep. rstep. destruct (s_group_info s !! Z.to_nat g) as [grp|] eqn:E; [by apply runs_ret|].
  apply lookup_ge_None in E. lia.
Qed.

Lemma get_info_clean_at L x s grp Q :
  at_ L x s -> clean = true -> s_group_info s0 !! Z.to_nat g = Some grp -> Q grp s -> runs (ext4_get_group_info g) s Q.
Proof.
  intros [_ _ E1 _ _ _ _ _ E3] Hc Eg HQ. destruct Hd as (Hg & Hl & _). unfold ext4_get_group_info. rstep. rstep. rewrite E1. rstep.
  apply runs_check; [apply Z.ltb_lt; lia|]. rstep. rstep. rewrite (E3 Hc), Eg. by apply runs_ret.
Qed.

Lemma upd_group_at L x s f (Q : unit -> bfs -> Prop) :
  clean = false -> at_ L x s -> (forall s', at_ L x s' -> Q tt s') -> runs (upd_group g f) s Q.
Proof. intros Hc [] HQ. apply runs_modify, HQ. destruct s. cbn in *. split; cbn; try done; [by rewrite length_alter|congruence]. Qed.

Lemma mark_corrupted_at L x s flags (Q : unit -> bfs -> Prop) :
  clean = false -> at_ L x s -> (forall s', at_ L x s' -> Q tt s') -> runs (ext4_mark_group_bitmap_corrupted g flags) s Q.
Proof.
  intros Hc Ha HQ. unfold ext4_mark_group_bitmap_corrupted. rstep. apply (get_info_at L x); [done|]. intros grp. rstep.
  eapply get_desc_at; [done|]. rstep. apply (runs_conseq _ _ (fun _ s' => at_ L x s')).
  - destruct (negb _); [|by apply runs_ret]. rstep. apply (upd_group_at L x); [done|done|]. intros s1 Ha1. destruct (negb _); [|by apply runs_ret].
    apply runs_modify. destruct Ha1. destruct s1. split; done.
  - intros [] s1 Ha1. destruct (negb _); [|apply runs_ret; by apply HQ]. rstep. apply (upd_group_at L x); [done|done|]. intros s2 Ha2.
    destruct (negb _); [|apply runs_ret; by apply HQ]. rstep. rstep. apply runs_modify, HQ. destruct Ha2. destruct s2. split; done.
Qed.

Lemma get_buf_at L x s Q : at_ L x s -> Q x s -> runs (get_buf blk) s Q.
Proof. intros Ha HQ. apply runs_gets. by rewrite (at_buf _ _ _ Ha). Qed.

Lemma upd_buf_at L x s f (Q : unit -> bfs -> Prop) :
  at_ L x s -> (forall s', at_ L (f x) s' -> Q tt s') -> runs (upd_buf blk f) s Q.
Proof.
  intros Ha HQ. apply runs_modify, HQ. destruct Ha as [E0 E1 E2 E3 E4 E5 E6 E7 E8]. destruct s. cbn in *. split; cbn; try done.
  - by rewrite Z.eqb_refl, E1.
  - intros b Hb. rewrite (proj2 (Z.eqb_neq _ _)) by done. by apply E6.
Qed.

Lemma lock_group_at L x s (Q : unit -> bfs -> Prop) :
  at_ L x s -> g ∉ L -> (forall s', at_ ({[g]} ∪ L) x s' -> Q tt s') -> runs (ext4_lock_group g) s Q.
Proof.
  intros Ha Hl HQ. unfold runs, ext4_lock_group. rewrite (at_locks _ _ _ Ha), decide_False by done. apply HQ. destruct Ha. subst. destruct s. split; done.
Qed.

Lemma unlock_group_at L x s (Q : unit -> bfs -> Prop) :
  at_ ({[g]} ∪ L) x s -> g ∉ L -> (forall s', at_ L x s' -> Q tt s') -> runs (ext4_unlock_group g) s Q.
Proof.
  intros Ha Hl HQ. unfold runs, ext4_unlock_group. rewrite (at_locks _ _ _ Ha), decide_True by set_solver. apply HQ. destruct Ha as [E0 ? ? ? ? ? ? ? ?].
  destruct s. cbn in *. split; cbn; try done. rewrite E0. set_solver.
Qed.

Lemma unlock_buffer_at L x s (Q : unit -> bfs -> Prop) :
  at_ L x s -> b_locked x = true -> (forall s', at_ L (x <| b_locked := false |>) s' -> Q tt s') -> runs (unlock_buffer_bm blk) s Q.
Proof.
  intros Ha Hl HQ. unfold unlock_buffer_bm. rstep. eapply get_buf_at; [done|]. rstep. apply runs_check; [done|]. by eapply upd_buf_at.
Qed.

(** The bitmap of the group need not be read from disk. *)
Definition uninit : Prop :=
  ext4_has_group_desc_csum (sbi s0) = true /\ Z.land (bg_flags desc) EXT4_BG_BLOCK_UNINIT <> 0.

Definition bits_ok (data : bitmap) : Prop := Z.of_nat (length data) = s_blocksize (sbi s0) * 8.

(** A bitmap that may be used: checked, or made for the group. *)
Definition accepted (data : bitmap) : Prop :=
  ext4_block_bitmap_csum_verify (sbi s0) desc data = true /\ ext4_valid_block_bitmap (sbi s0) desc g data = 0 \/
  uninit /\ exists bm, init_bits (sbi s0) g desc bm = Ret 0 data.

(** The bitmap cannot be made, because the descriptor of the group is damaged or
    its fixed metadata fills the bitmap: the buffer is marked as verified all the
    same. *)
Definition crowded : Prop := s_blocksize (sbi s0) * 8 <= ext4_num_base_meta_clusters (sbi s0) g.
Definition unmade : Prop := uninit /\ (ext4_group_desc_csum_verify g desc = false \/ crowded).

(** [P]: why a buffer may be marked as verified although its data was not
    accepted. *)
Record buf_ok (P : Prop) (x : bitmap_bh) : Prop := mk_buf_ok {
  bk_locked : b_locked x = b_reading x;
  bk_verified : b_verified x = true -> bitmap_uptodate x = true /\ (accepted (b_data x) \/ P);
  bk_reading : b_reading x = true -> bitmap_uptodate x = false;
  bk_bits : bits_ok (b_data x);
}.

(** References other than that of a read under way. *)
Definition refs (x : bitmap_bh) : Z := b_count x - (if b_reading x then 1 else 0).

Definition at_rest (x : bitmap_bh) : Prop := b_locked x = false /\ b_reading x = false /\ bitmap_uptodate x = true.

Context (P : Prop).

(** What a call returns, the buffer having been referenced [n] times before. *)
Definition read_post (L : gset Z) (n : Z) (r : Z + Z) (s' : bfs) : Prop :=
  exists x', at_ L x' s' /\
    match r with
    | inr b => buf_ok P x' /\ b = blk /\ at_rest x' /\ b_verified x' = true /\ refs x' = n + 1
    | inl e => buf_ok (P \/ unmade) x' /\ e < 0 /\ refs x' = n
    end.

Lemma buf_ok_weaken x : buf_ok P x -> buf_ok (P \/ unmade) x.
Proof. intros [H1 H2 H3 H4]. split; [done| |done|done]. intros Hv. destruct (H2 Hv) as [? [?|?]]; tauto. Qed.

Hypothesis Hclean : clean = false.

Lemma validate_at L x s :
  at_ L x s -> g ∉ L -> buf_ok P x -> at_rest x ->
  runs (ext4_validate_block_bitmap desc g blk) s (fun r s' => exists x', at_ L x' s' /\ buf_ok P x' /\ at_rest x' /\ refs x' = refs x /\
    (r = 0 /\ b_verified x' = true \/ r < 0 /\ x' = x)).
Proof.
  intros Ha Hl Hx Hr. unfold ext4_validate_block_bitmap. rstep. apply (get_info_at L x); [done|]. intros grp. rstep. eapply get_buf_at; [done|].
  destruct (b_verified x) eqn:Ev; [apply runs_ret; exists x; split_and!; try done; by left|].
  destruct (bbitmap_corrupt grp); [apply runs_ret; exists x; split_and!; try done; by right|].
  rstep. apply (lock_group_at L x); [done|done|]. intros s1 Ha1. rstep. eapply get_buf_at; [done|]. rewrite Ev. rstep. rstep. rewrite (at_sbi _ _ _ Ha1).
  assert (Hbad : forall e, e < 0 -> runs (ext4_unlock_group g ;;; ext4_mark_group_bitmap_corrupted g EXT4_GROUP_INFO_BBITMAP_CORRUPT ;;; ret e) s1
    (fun r s' => exists x', at_ L x' s' /\ buf_ok P x' /\ at_rest x' /\ refs x' = refs x /\ (r = 0 /\ b_verified x' = true \/ r < 0 /\ x' = x))).
  { intros e He. rstep. apply (unlock_group_at L x); [done|done|]. intros s2 Ha2. rstep. apply (mark_corrupted_at L x); [done|done|]. intros s3 Ha3.
    apply runs_ret. exists x. split_and!; try done. by right. }
  destruct (ext4_block_bitmap_csum_verify _ _ _) eqn:Ec; cbn [negb]; [|by apply Hbad].
  destruct (Z.eqb_spec (ext4_valid_block_bitmap (sbi s0) desc g (b_data x)) 0) as [E0|E0]; cbn [negb]; [|by apply Hbad].
  rstep. eapply upd_buf_at; [exact Ha1|]. intros s2 Ha2. rstep. eapply unlock_group_at; [exact Ha2|done|]. intros s3 Ha3. apply runs_ret.
  eexists. split_and!; [exact Ha3| |exact Hr|done|by left]. destruct Hx as [H1 H2 H3 H4]. split; [exact H1| |exact H3|exact H4].
  intros _. split; [apply Hr|]. left. left. done.
Qed.

Lemma verify_at L x s n :
  at_ L x s -> g ∉ L -> buf_ok P x -> at_rest x -> refs x = n + 1 ->
  runs (verify_bitmap desc g blk) s (read_post L n).
Proof.
  intros Ha Hl Hx Hr Hn. unfold verify_bitmap. rstep. eapply runs_conseq; [by apply (validate_at L x)|].
  intros r s1 (x1 & Ha1 & Hx1 & Hr1 & Hn1 & [[-> Hv]|[Hneg ->]]).
  - apply runs_ret. exists x1. split_and!; try done. lia.
  - destruct (Z.eqb_spec r 0); [lia|]. cbn [negb]. unfold out_bitmap. rstep. apply (upd_buf_at L x); [done|]. intros s2 Ha2. apply runs_ret.
    eexists. split_and!; [exact Ha2|apply buf_ok_weaken; destruct Hx as [H1 H2 H3 H4]; by split|done|]. unfold refs in *. destruct x. cbn in *. lia.
Qed.

(** What the group and the disk have to provide. *)
Hypothesis Hinit : uninit -> ext4_group_desc_csum_verify g desc = true ->
  forall bm, bits_ok bm -> runs (init_bits (sbi s0) g desc) bm (fun r bm' => (r = 0 \/ r < 0 /\ crowded) /\ bits_ok bm').
Hypothesis Hdisk : forall data, bitmap_disk s0 blk = Some data -> bits_ok data.

(** A read was submitted. *)
Definition pending (L : gset Z) (n : Z) (r : Z + Z) (s' : bfs) : Prop :=
  r = inr blk /\ exists x', at_ L x' s' /\ buf_ok P x' /\ b_new x' = true /\ b_reading x' = true /\ b_uptodate x' = false /\ refs x' = n + 1.

Lemma load_at L x s n :
  at_ L x s -> g ∉ L -> b_locked x = true -> b_reading x = false -> buf_ok P (x <| b_locked := false |>) -> refs x = n + 1 ->
  runs (load_bitmap desc g blk) s (fun r s' => read_post L n r s' \/ pending L n r s').
Proof.
  intros Ha Hl Hlk Hrd [_ H2 _ H4] Hn. change (bits_ok (b_data x)) in H4.
  change (b_verified x = true -> bitmap_uptodate x = true /\ (accepted (b_data x) \/ P)) in H2. unfold load_bitmap. rstep. eapply get_buf_at; [done|].
  destruct (bitmap_uptodate x) eqn:Eu in |- *.
  { rstep. eapply unlock_buffer_at; [done|done|]. intros s1 Ha1. eapply runs_conseq; [eapply (verify_at L); [exact Ha1|done| | |done]|by left].
    - split; [done|exact H2|cbn; congruence|exact H4].
    - done. }
  assert (Hv : b_verified x = false) by (destruct (b_verified x) eqn:E; [destruct (H2 eq_refl); congruence|done]).
  rstep. apply (lock_group_at L x); [done|done|]. intros s1 Ha1. rstep. rstep. rewrite (at_sbi _ _ _ Ha1).
  destruct (ext4_has_group_desc_csum (sbi s0) && _) eqn:Euc.
  - apply andb_true_iff in Euc as [Euc1 Euc2]. apply negb_true_iff, Z.eqb_neq in Euc2. assert (Hui : uninit) by by split.
    destruct (Z.eqb_spec g 0).
    + rstep. eapply unlock_group_at; [done|done|]. intros s2 Ha2. rstep. eapply unlock_buffer_at; [done|done|]. intros s3 Ha3. unfold out_bitmap. rstep.
      eapply upd_buf_at; [exact Ha3|]. intros s4 Ha4. apply runs_ret. left. eexists. split_and!; [exact Ha4| |done|unfold refs in *; destruct x; cbn in *; subst; lia].
      split; [done|cbn; congruence|cbn; congruence|exact H4].
    + rstep. apply (runs_conseq _ _ (fun r s' => exists bm, at_ ({[g]} ∪ L) (x <| b_data := bm |>) s' /\ bits_ok bm /\
        (r = 0 /\ accepted bm \/ r < 0 /\ unmade))).
      { pose proof (Hinit Hui) as Hi. unfold ext4_init_block_bitmap. case_eq (ext4_group_desc_csum_verify g desc); intros Hc; cbn [negb].
        - rstep. rstep. rewrite (at_sbi _ _ _ Ha1). rstep. eapply get_buf_at; [done|].
          destruct (proj1 (runs_elim _ _ _) (Hi Hc _ H4)) as (r & bm & Ei & Hres & Hbm). rewrite Ei. rstep. eapply upd_buf_at; [done|]. intros s2 Ha2.
          apply runs_ret. exists bm. split_and!; [exact Ha2|exact Hbm|]. destruct Hres as [->|[? ?]]; [left|right].
          + split; [done|]. right. split; [done|]. by exists (b_data x).
          + split; [done|]. split; [done|]. by right.
        - rstep. apply (mark_corrupted_at ({[g]} ∪ L) x); [done|done|]. intros s2 Ha2. apply runs_ret. exists (b_data x).
          split_and!; [by destruct x|done|right]. split; [done|]. split; [done|]. by left. }
      intros r s2 (bm & Ha2 & Hbm & Hres).
      rstep. eapply upd_buf_at; [exact Ha2|]. intros s3 Ha3. rstep. eapply unlock_group_at; [done|done|]. intros s4 Ha4.
      rstep. eapply unlock_buffer_at; [done|done|]. intros s5 Ha5. destruct Hres as [[-> Hacc]|[Hneg Hun]].
      * cbn [negb Z.eqb]. eapply runs_conseq; [eapply (verify_at L); [exact Ha5|done| |done|done]|by left].
        split; [done| |cbn; congruence|exact Hbm]. intros _. split; [done|]. left. exact Hacc.
      * destruct (Z.eqb_spec r 0); [lia|]. cbn [negb]. unfold out_bitmap. rstep. eapply upd_buf_at; [exact Ha5|]. intros s6 Ha6. apply runs_ret. left.
        eexists. split_and!; [exact Ha6| |done|unfold refs in *; destruct x; cbn in *; subst; lia].
        split; [done| |cbn; congruence|exact Hbm]. intros _. split; [done|]. right. by right.
  - rstep. eapply unlock_group_at; [done|done|]. intros s2 Ha2. rstep. eapply get_buf_at; [done|]. destruct (b_uptodate x) eqn:Eup.
    + rstep. eapply upd_buf_at; [done|]. intros s3 Ha3. rstep. eapply unlock_buffer_at; [done|done|]. intros s4 Ha4.
      eapply runs_conseq; [eapply (verify_at L); [exact Ha4|done| | |done]|by left].
      * split; [done|cbn; congruence|cbn; congruence|exact H4].
      * split_and!; [done|done|]. unfold bitmap_uptodate. cbn. by rewrite Eup.
    + rstep. eapply upd_buf_at; [done|]. intros s3 Ha3. rstep. eapply upd_buf_at; [exact Ha3|]. intros s4 Ha4. rstep. eapply upd_buf_at; [exact Ha4|].
      intros s5 Ha5. apply runs_ret. right. split; [done|]. eexists. split_and!; [exact Ha5| |done|done|done|unfold refs in *; destruct x; cbn in *; subst; lia].
      split; [done|cbn; congruence|intros _; unfold bitmap_uptodate; cbn; by rewrite Eup|exact H4].
Qed.

(** The data of a read arrives, or the read fails. *)
Lemma wait_pending_at L x s :
  at_ L x s -> buf_ok P x -> b_reading x = true -> b_uptodate x = false ->
  runs (wait_on_buffer_bm blk) s (fun _ s' => exists x', at_ L x' s' /\ buf_ok P x' /\ b_locked x' = false /\ b_reading x' = false /\
    refs x' = refs x /\ b_new x' = b_new x /\ (b_uptodate x' = true -> bitmap_uptodate x' = true)).
Proof.
  intros Ha [H1 H2 H3 H4] Hr Hu. unfold wait_on_buffer_bm. rstep. eapply get_buf_at; [done|]. rewrite H1, Hr. cbn [negb]. unfold complete_read. rstep. rstep.
  rewrite (at_disk _ _ _ Ha). rstep. eapply upd_buf_at; [done|]. intros s1 Ha1. assert (Hlk : b_locked x = true) by congruence.
  assert (Hv : b_verified x = false) by (destruct (b_verified x); [destruct (H2 eq_refl); specialize (H3 Hr); congruence|done]).
  assert (Hrefs : b_count x - 1 = refs x) by (unfold refs; by rewrite Hr).
  destruct (bitmap_disk s0 blk) as [data|] eqn:Ed.
  - rstep. eapply upd_buf_at; [exact Ha1|]. intros s2 Ha2. unfold ext4_end_bitmap_read. rstep. eapply upd_buf_at; [exact Ha2|]. intros s3 Ha3.
    rstep. eapply unlock_buffer_at; [exact Ha3|exact Hlk|]. intros s4 Ha4. eapply upd_buf_at; [exact Ha4|]. intros s5 Ha5. eexists.
    split_and!; [exact Ha5| |done|done|rewrite <- Hrefs; unfold refs; destruct x; cbn; lia|done|done]. split; [done|cbn; congruence|cbn; congruence|]. by apply Hdisk.
  - unfold ext4_end_bitmap_read. rstep. apply runs_ret. rstep. eapply unlock_buffer_at; [exact Ha1|exact Hlk|]. intros s4 Ha4.
    eapply upd_buf_at; [exact Ha4|]. intros s5 Ha5. eexists.
    split_and!; [exact Ha5| |done|done|rewrite <- Hrefs; unfold refs; destruct x; cbn; lia|done|cbn; congruence]. split; [done|cbn; congruence|cbn; congruence|exact H4].
Qed.

Lemma lock_at L x s (Q : unit -> bfs -> Prop) :
  at_ L x s -> buf_ok P x -> bitmap_uptodate x = false ->
  (forall x' s', at_ L x' s' -> b_locked x' = true -> b_reading x' = false -> buf_ok P (x' <| b_locked := false |>) -> refs x' = refs x -> Q tt s') ->
  (b_reading x = true -> b_uptodate x = false) ->
  runs (lock_buffer_bm blk) s Q.
Proof.
  intros Ha Hx Hu HQ Hru. unfold lock_buffer_bm. rstep. destruct (b_reading x) eqn:Hr.
  - eapply runs_conseq; [apply (wait_pending_at L x); auto|]. intros [] s1 (x1 & Ha1 & Hx1 & Hl1 & Hr1 & Hn1 & _).
    eapply upd_buf_at; [done|]. intros s2 Ha2. eapply HQ; [exact Ha2|done|done| |exact Hn1].
    destruct Hx1 as [G1 G2 G3 G4]. split; [cbn; congruence|exact G2|exact G3|exact G4].
  - unfold wait_on_buffer_bm. rstep. eapply get_buf_at; [done|]. rewrite (bk_locked _ _ Hx), Hr. cbn [negb]. apply runs_ret.
    eapply upd_buf_at; [done|]. intros s2 Ha2. eapply HQ; [exact Ha2|done|done| |done].
    destruct Hx as [G1 G2 G3 G4]. split; [cbn; congruence|exact G2|exact G3|exact G4].
Qed.

Lemma wait_bitmap_at L n r s :
  read_post L n r s \/ pending L n r s -> g ∉ L ->
  runs (match r with
        | inl err => ret (inl err)
        | inr b => err <-- ext4_wait_block_bitmap g b ;; if negb (err =? 0) then put_bh_bm b ;;; ret (inl err) else ret (inr b)
        end) s (read_post L n).
Proof.
  intros Hpost Hl.
  assert (Hval : forall x s1, at_ L x s1 -> buf_ok P x -> at_rest x -> refs x = n + 1 ->
    runs (ext4_validate_block_bitmap desc g blk) s1 (fun err s2 =>
      runs (if negb (err =? 0) then put_bh_bm blk ;;; ret (inl err) else ret (inr blk)) s2 (read_post L n))).
  { intros x s1 Ha1 Hx Hr Hn. eapply runs_conseq; [by apply (validate_at L x)|]. intros e s2 (x2 & Ha2 & Hx2 & Hr2 & Hn2 & [[-> Hv]|[He ->]]).
    - cbn [negb Z.eqb]. apply runs_ret. exists x2. split_and!; try done. lia.
    - destruct (Z.eqb_spec e 0); [lia|]. cbn [negb]. rstep. eapply upd_buf_at; [exact Ha2|]. intros s3 Ha3. apply runs_ret. eexists.
      split_and!; [exact Ha3|apply buf_ok_weaken; destruct Hx as [H1 H2 H3 H4]; by split|done|unfold refs in *; destruct x; cbn in *; lia]. }
  destruct Hpost as [(x & Ha & Hr)|(-> & x & Ha & Hx & Hnew & Hrd & Hu & Hn)].
  - destruct r as [e|b]; [apply runs_ret; by exists x|]. destruct Hr as (Hx & -> & Hr & Hv & Hn). rstep. unfold ext4_wait_block_bitmap. rstep.
    eapply get_buf_at; [done|]. destruct (b_new x); cbn [negb].
    + rstep. eapply get_desc_at; [done|]. rstep. unfold wait_on_buffer_bm. rstep. eapply get_buf_at; [done|]. destruct Hr as (Hr1 & Hr2 & Hr3). rewrite Hr1.
      cbn [negb]. apply runs_ret. rstep. eapply get_buf_at; [done|]. pose proof Hr3 as Hr3'. unfold bitmap_uptodate in Hr3'. apply andb_true_iff in Hr3' as [-> _].
      cbn [negb]. rstep. eapply upd_buf_at; [done|]. intros s1 Ha1.
      assert (Hx1 : buf_ok P (x <| b_new := false |>)) by (destruct Hx as [H1 H2 H3 H4]; by split).
      specialize (Hval _ _ Ha1 Hx1 ltac:(done) Hn). exact Hval.
    + apply runs_ret. cbn [negb Z.eqb]. apply runs_ret. by exists x.
  - rstep. unfold ext4_wait_block_bitmap. rstep. eapply get_buf_at; [done|]. rewrite Hnew. cbn [negb]. rstep. eapply get_desc_at; [done|]. rstep.
    eapply runs_conseq; [by apply (wait_pending_at L x)|]. intros [] s1 (x1 & Ha1 & Hx1 & Hl1 & Hr1 & Hn1 & Hnew1 & Hup1). rstep. eapply get_buf_at; [done|].
    destruct (b_uptodate x1) eqn:Eu1; cbn [negb].
    + rstep. eapply upd_buf_at; [done|]. intros s2 Ha2.
      assert (Hx2 : buf_ok P (x1 <| b_new := false |>)) by (destruct Hx1 as [H1 H2 H3 H4]; by split).
      apply (Hval _ _ Ha2 Hx2); [split; [exact Hl1|split; [exact Hr1|by apply Hup1]]|]. change (refs x1 = n + 1). lia.
    + rstep. apply (mark_corrupted_at L x1); [done|done|]. intros s2 Ha2. apply runs_ret. change (negb (EIO_bg =? 0)) with true. cbv iota. rstep. unfold put_bh_bm. eapply upd_buf_at; [exact Ha2|].
      intros s3 Ha3. apply runs_ret. eexists. split_and!; [exact Ha3|apply buf_ok_weaken; destruct Hx1 as [H1 H2 H3 H4]; by split|done|].
      rewrite Hn in Hn1. unfold refs in *. destruct x1. cbn in *. lia.
Qed.

Hypothesis Hx0 : buf_ok P (bh_of s0 blk).
Hypothesis Hread0 : b_reading (bh_of s0 blk) = true -> b_uptodate (bh_of s0 blk) = false.

Lemma at_start : at_ (group_locked s0) (bh_of s0 blk) s0.
Proof. by split. Qed.

Lemma read_nowait_at :
  g ∉ group_locked s0 ->
  runs (ext4_read_block_bitmap_nowait g) s0 (fun r s' =>
    read_post (group_locked s0) (refs (bh_of s0 blk)) r s' \/ pending (group_locked s0) (refs (bh_of s0 blk)) r s').
Proof.
  intros Hl. set (L := group_locked s0). set (x := bh_of s0 blk). set (n := refs x). unfold ext4_read_block_bitmap_nowait. rstep.
  eapply get_desc_at; [exact at_start|]. rstep. rstep. cbv zeta.
  destruct (_ || _).
  { rstep. apply (mark_corrupted_at L x); [done|exact at_start|]. intros s1 Ha1. apply runs_ret. left. exists x. split_and!; try done. by apply buf_ok_weaken. }
  rstep. apply (runs_conseq _ _ (fun ok s' => exists x', at_ L x' s' /\ buf_ok P x' /\ (b_reading x' = true -> b_uptodate x' = false) /\
    bitmap_uptodate x' = bitmap_uptodate x /\ refs x' = n + (if ok : bool then 1 else 0))).
  { assert (Hget : forall s1, at_ L x s1 -> runs (get_bh_bm blk ;;; ret true) s1 (fun ok s' => exists x', at_ L x' s' /\ buf_ok P x' /\
      (b_reading x' = true -> b_uptodate x' = false) /\ bitmap_uptodate x' = bitmap_uptodate x /\ refs x' = n + (if ok : bool then 1 else 0))).
    { intros s1 Ha1. rstep. eapply upd_buf_at; [exact Ha1|]. intros s2 Ha2. apply runs_ret. eexists.
      split_and!; [exact Ha2|destruct Hx0 as [H1 H2 H3 H4]; by split|exact Hread0|done|]. unfold n, refs. change (b_reading (x <| b_count ::= fun c => c + 1 |>)) with (b_reading x).
      change (b_count (x <| b_count ::= fun c => c + 1 |>)) with (b_count x + 1). lia. }
    assert (Ha : forall b l, getblk_ok s0 = b :: l -> at_ L x (s0 <| getblk_ok := l |>)).
    { intros b l E. split; try (by destruct s0). rewrite E. intros [_ Hf]%Forall_cons. by destruct s0. }
    unfold sb_getblk_bm. rstep. rstep. destruct (getblk_ok s0) as [|[] l] eqn:E.
    - apply Hget, at_start.
    - rstep. rstep. by eapply Hget, Ha.
    - rstep. rstep. apply runs_ret. exists x. split_and!; [by eapply Ha|done|exact Hread0|done|lia]. }
  intros ok s1 (x1 & Ha1 & Hx1 & Hr1 & Hu1 & Hn1). destruct ok; cbn [negb]; [|apply runs_ret; left; exists x1; split_and!; [done|by apply buf_ok_weaken|done|lia]].
  rstep. eapply get_buf_at; [done|]. destruct (bitmap_uptodate x1) eqn:Eu.
  - eapply runs_conseq; [apply (verify_at L x1); try done|by left].
    assert (Hrd : b_reading x1 = false) by (destruct (b_reading x1) eqn:E; [|done]; rewrite (bk_reading _ _ Hx1 E) in Eu; done).
    split_and!; [|done|done]. by rewrite (bk_locked _ _ Hx1).
  - rstep. eapply lock_at; [done|done|done| |exact Hr1]. intros x2 s2 Ha2 Hl2 Hr2 Hx2 Hn2. apply (load_at L x2); try done. lia.
Qed.

Lemma read_at : g ∉ group_locked s0 ->
  runs (ext4_read_block_bitmap g) s0 (read_post (group_locked s0) (refs (bh_of s0 blk))).
Proof.
  intros Hl. unfold ext4_read_block_bitmap. rstep. eapply runs_conseq; [by apply read_nowait_at|]. intros r s1 Hr. by apply wait_bitmap_at.
Qed.
End read.

(** With memory, [sb_getblk] takes a reference. *)
Lemma getblk_at `{PercpuApi} `{CsumApi} s0 desc clean L x s (Q : bool -> bfs -> Prop) :
  at_ s0 desc clean L x s -> Forall (eq true) (getblk_ok s0) ->
  (forall s', at_ s0 desc clean L (x <| b_count ::= fun c => c + 1 |>) s' -> Q true s') ->
  runs (sb_getblk_bm (ext4_block_bitmap (sbi s0) desc)) s Q.
Proof.
  intros Ha Hf HQ. pose proof (at_getblk _ _ _ _ _ _ Ha Hf) as Hf'. unfold sb_getblk_bm. rstep. rstep. destruct (getblk_ok s) as [|b l] eqn:E.
  - rstep. eapply upd_buf_at; [exact Ha|]. intros s1 Ha1. apply runs_ret. by apply HQ.
  - apply Forall_cons in Hf' as [<- Hf']. rstep. rstep. rstep. eapply (upd_buf_at s0 desc clean L x); [|intros s1 Ha1; apply runs_ret; by apply HQ].
    destruct Ha. destruct s. split; done.
Qed.

(** The bitmap of the group is on the disk and good, or has to be made; and
    there is memory. *)
Record readable `{PercpuApi} `{CsumApi} (s : bfs) (g : Z) (desc : ext4_group_desc) : Prop := mk_readable {
  rd_range : s_first_data_block (sbi s) < ext4_block_bitmap (sbi s) desc < ext4_blocks_count (sbi s);
  rd_getblk : Forall (eq true) (getblk_ok s);
  rd_group : exists grp, s_group_info s !! Z.to_nat g = Some grp /\ bbitmap_corrupt grp = false;
  rd_data : uninit s desc /\ g <> 0 /\ ~ unmade s g desc \/
    ~ uninit s desc /\ exists data, bitmap_disk s (ext4_block_bitmap (sbi s) desc) = Some data /\
      ext4_block_bitmap_csum_verify (sbi s) desc data = true /\ ext4_valid_block_bitmap (sbi s) desc g data = 0;
}.

(** The bitmap of a group that was never written can be made: the blocks of
    its metadata exist. *)
Definition can_init `{PercpuApi} `{CsumApi} (s : bfs) (g : Z) (desc : ext4_group_desc) : Prop :=
  geo_ok (sbi s) /\ meta_ok (sbi s) g desc.

Lemma can_init_bits `{PercpuApi} `{CsumApi} s g desc bm :
  desc_loaded s g desc -> can_init s g desc -> bits_ok s bm ->
  runs (init_bits (sbi s) g desc) bm (fun r bm' => (r = 0 \/ r < 0 /\ crowded s g) /\ bits_ok s bm') /\
  (~ crowded s g -> runs (init_bits (sbi s) g desc) bm (fun r _ => r = 0)).
Proof.
  intros (Hg & _) [G Hm] Hbm. unfold crowded, bits_ok in *. destruct (decide (s_blocksize (sbi s) * 8 <= ext4_num_base_meta_clusters (sbi s) g)) as [Hc|Hc].
  - split; [|done]. unfold init_bits. apply runs_bind, runs_modify, runs_bind, runs_gets. rewrite length_replicate, Hbm, Z.div_mul by lia. cbv zeta.
    rewrite Z.shiftr_div_pow2 by lia. change (2 ^ 3) with 8.
    destruct (Z.leb_spec (s_blocksize (sbi s)) (ext4_num_base_meta_clusters (sbi s) g / 8)) as [_|Hlt].
    + apply runs_ret. split; [right; split; [done|lia]|]. by rewrite length_replicate.
    + exfalso. apply Z.lt_nge in Hlt. apply Hlt. apply Z.div_le_lower_bound; lia.
  - pose proof (init_bits_ok (sbi s) G g Hg desc Hm ltac:(lia) bm Hbm) as Hrun. split; intros; (eapply runs_conseq; [exact Hrun|]); intros r bm' [-> [Hl _]]; [|done].
    split; [by left|exact Hl].
Qed.

(** Rewrites the flag tested next. *)
Ltac flag v :=
  match goal with
  | |- runs (if negb ?b then _ else _) _ _ => change b with v; try (cbn [negb])
  | |- runs (if ?b then _ else _) _ _ => change b with v; try (cbv iota)
  end.

(** The part of the call behind the lock of the buffer, when it is read. *)
Lemma readable_load_disk `{PercpuApi} `{CsumApi} s0 g desc x s :
  desc_loaded s0 g desc -> g ∉ group_locked s0 -> readable s0 g desc -> ~ uninit s0 desc ->
  at_ s0 desc true (group_locked s0) x s -> b_locked x = true -> b_uptodate x = false -> b_verified x = false ->
  let blk := ext4_block_bitmap (sbi s0) desc in
  runs (r <-- load_bitmap desc g blk ;;
        match r with
        | inl err => ret (inl err)
        | inr b => err <-- ext4_wait_block_bitmap g b ;; if negb (err =? 0) then put_bh_bm b ;;; ret (inl err) else ret (inr b)
        end) s (fun r _ => r = inr blk).
Proof.
  intros Hd Hl [_ _ (grp & Eg & Ecor) Hdata] Hui Ha Hlk Hu Hv blk. destruct Hdata as [[Hu' _]|[_ (data & Ed & Ec & Ev)]]; [done|].
  set (L := group_locked s0) in *. unfold load_bitmap. do 2 rstep.
  eapply (get_buf_at s0 desc true); [exact Ha|]. unfold bitmap_uptodate. rewrite Hu. cbn [andb]. rstep.
  eapply (lock_group_at s0 g desc true); [exact Ha|done|]. intros s1 Ha1. rstep. rstep. rewrite (at_sbi _ _ _ _ _ _ Ha1).
  assert (Huc : ext4_has_group_desc_csum (sbi s0) && negb (Z.land (bg_flags desc) EXT4_BG_BLOCK_UNINIT =? 0) = false).
  { apply not_true_iff_false. intros [E1 E2%negb_true_iff%Z.eqb_neq]%andb_true_iff. by apply Hui. }
  rewrite Huc. rstep. eapply (unlock_group_at s0 g desc true Hd); [exact Ha1|done|]. intros s2 Ha2. rstep. eapply (get_buf_at s0 desc true); [exact Ha2|]. rewrite Hu.
  rstep. eapply (upd_buf_at s0 desc true); [exact Ha2|]. intros s3 Ha3. rstep. eapply (upd_buf_at s0 desc true); [exact Ha3|]. intros s4 Ha4.
  rstep. eapply (upd_buf_at s0 desc true); [exact Ha4|]. intros s5 Ha5. rstep. rstep. unfold ext4_wait_block_bitmap. rstep. fold blk.
  eapply (get_buf_at s0 desc true); [exact Ha5|]. flag true. rstep. eapply (get_desc_at s0 g desc true Hd); [exact Ha5|]. rstep. unfold wait_on_buffer_bm. rstep.
  eapply (get_buf_at s0 desc true); [exact Ha5|]. flag (b_locked x). rewrite Hlk. cbn [negb]. flag true. unfold complete_read. rstep. rstep.
  rewrite (at_disk _ _ _ _ _ _ Ha5). fold blk in Ed. rewrite Ed. rstep. eapply (upd_buf_at s0 desc true); [exact Ha5|]. intros s6 Ha6.
  rstep. eapply (upd_buf_at s0 desc true); [exact Ha6|]. intros s7 Ha7. unfold ext4_end_bitmap_read. rstep. eapply (upd_buf_at s0 desc true); [exact Ha7|]. intros s8 Ha8.
  rstep. eapply (unlock_buffer_at s0 desc true); [exact Ha8|exact Hlk|]. intros s9 Ha9. eapply (upd_buf_at s0 desc true); [exact Ha9|]. intros s10 Ha10.
  rstep. eapply (get_buf_at s0 desc true); [exact Ha10|]. flag true. rstep. eapply (upd_buf_at s0 desc true); [exact Ha10|]. intros s11 Ha11.
  unfold ext4_validate_block_bitmap. rstep. eapply (get_info_clean_at s0 g desc true Hd); [exact Ha11|done|exact Eg|].
  rstep. eapply (get_buf_at s0 desc true); [exact Ha11|]. flag (b_verified x). rewrite Hv, Ecor. rstep.
  eapply (lock_group_at s0 g desc true); [exact Ha11|done|]. intros s12 Ha12. rstep. eapply (get_buf_at s0 desc true); [exact Ha12|]. flag (b_verified x). rewrite Hv.
  rstep. rstep. rewrite (at_sbi _ _ _ _ _ _ Ha12). match goal with |- context [b_data ?y] => change (b_data y) with data end. rewrite Ec, Ev. cbn [negb Z.eqb].
  rstep. eapply (upd_buf_at s0 desc true); [exact Ha12|]. intros s13 Ha13. rstep. eapply (unlock_group_at s0 g desc true Hd); [exact Ha13|done|]. intros s14 Ha14.
  rstep. cbn [negb Z.eqb]. by apply runs_ret.
Qed.

(** The same when it is made. *)
Lemma readable_load_init `{PercpuApi} `{CsumApi} s0 g desc x s :
  desc_loaded s0 g desc -> g ∉ group_locked s0 -> uninit s0 desc -> g <> 0 -> ~ unmade s0 g desc -> can_init s0 g desc -> bits_ok s0 (b_data x) ->
  at_ s0 desc true (group_locked s0) x s -> b_locked x = true -> b_uptodate x = false ->
  let blk := ext4_block_bitmap (sbi s0) desc in
  runs (r <-- load_bitmap desc g blk ;;
        match r with
        | inl err => ret (inl err)
        | inr b => err <-- ext4_wait_block_bitmap g b ;; if negb (err =? 0) then put_bh_bm b ;;; ret (inl err) else ret (inr b)
        end) s (fun r _ => r = inr blk).
Proof.
  intros Hd Hl [Hu1 Hu2] Hg Hmade Hcan Hbits Ha Hlk Hu blk. set (L := group_locked s0) in *.
  assert (Hc : ext4_group_desc_csum_verify g desc = true) by (apply not_false_iff_true; intros Hc; apply Hmade; split; [by split|by left]).
  assert (Hcr : ~ crowded s0 g) by (intros Hcr; apply Hmade; split; [by split|by right]).
  unfold load_bitmap. do 2 rstep.
  eapply (get_buf_at s0 desc true); [exact Ha|]. unfold bitmap_uptodate. rewrite Hu. cbn [andb]. rstep.
  eapply (lock_group_at s0 g desc true); [exact Ha|done|]. intros s1 Ha1. rstep. rstep. rewrite (at_sbi _ _ _ _ _ _ Ha1), Hu1, (proj2 (Z.eqb_neq _ 0) Hu2). cbn [negb andb].
  rewrite (proj2 (Z.eqb_neq g 0) Hg). rstep. unfold ext4_init_block_bitmap. rewrite Hc. cbn [negb]. rstep. rstep. rewrite (at_sbi _ _ _ _ _ _ Ha1). rstep.
  eapply (get_buf_at s0 desc true); [exact Ha1|]. destruct (proj1 (runs_elim _ _ _) (proj2 (can_init_bits s0 g desc _ Hd Hcan Hbits) Hcr)) as (r & bm & Ei & ->). rewrite Ei.
  rstep. eapply (upd_buf_at s0 desc true); [exact Ha1|]. intros s2 Ha2. rstep. rstep. eapply (upd_buf_at s0 desc true); [exact Ha2|]. intros s3 Ha3.
  rstep. eapply (unlock_group_at s0 g desc true Hd); [exact Ha3|done|]. intros s4 Ha4. rstep. eapply (unlock_buffer_at s0 desc true); [exact Ha4|exact Hlk|]. intros s5 Ha5.
  cbn [negb Z.eqb]. unfold verify_bitmap, ext4_validate_block_bitmap. rstep. rstep. apply (get_info_at s0 g desc true Hd _ _ _ _ Ha5). intros grp.
  rstep. eapply (get_buf_at s0 desc true); [exact Ha5|]. flag true. rstep. cbn [negb Z.eqb]. rstep. rstep. unfold ext4_wait_block_bitmap. rstep. fold blk.
  eapply (get_buf_at s0 desc true); [exact Ha5|]. flag (b_new x). destruct (b_new x); cbn [negb]; [|rstep; cbn [negb Z.eqb]; by apply runs_ret].
  rstep. eapply (get_desc_at s0 g desc true Hd); [exact Ha5|]. rstep. unfold wait_on_buffer_bm. rstep. eapply (get_buf_at s0 desc true); [exact Ha5|]. flag false.
  rstep. rstep. eapply (get_buf_at s0 desc true); [exact Ha5|]. flag true. rstep. eapply (upd_buf_at s0 desc true); [exact Ha5|]. intros s6 Ha6.
  unfold ext4_validate_block_bitmap. rstep. apply (get_info_at s0 g desc true Hd _ _ _ _ Ha6). intros grp'. rstep. eapply (get_buf_at s0 desc true); [exact Ha6|]. flag true.
  rstep. cbn [negb Z.eqb]. by apply runs_ret.
Qed.

Lemma readable_is_read `{PercpuApi} `{CsumApi} s g desc :
  desc_loaded s g desc -> g ∉ group_locked s -> readable s g desc -> (uninit s desc -> can_init s g desc) ->
  let x := bh_of s (ext4_block_bitmap (sbi s) desc) in
  bits_ok s (b_data x) -> b_locked x = false -> b_uptodate x = false -> b_verified x = false ->
  runs (ext4_read_block_bitmap g) s (fun r _ => r = inr (ext4_block_bitmap (sbi s) desc)).
Proof.
  intros Hd Hl Hr Hi x Hbits Hlk Hu Hv. set (blk := ext4_block_bitmap (sbi s) desc) in *. pose proof (at_start s desc true) as Ha. fold blk x in Ha.
  unfold ext4_read_block_bitmap, ext4_read_block_bitmap_nowait. apply runs_flat. rstep. eapply (get_desc_at s g desc true Hd); [exact Ha|].
  apply runs_flat. rstep. rstep. cbv zeta. fold blk. pose proof (rd_range _ _ _ Hr) as Hrange. fold blk in Hrange.
  destruct (Z.leb_spec blk (s_first_data_block (sbi s))); [lia|]. destruct (Z.leb_spec (ext4_blocks_count (sbi s)) blk); [lia|]. cbn [orb].
  apply runs_flat. rstep. apply (getblk_at s desc true (group_locked s) x); [exact Ha|apply Hr|]. intros s1 Ha1. cbn [negb]. apply runs_flat. rstep.
  eapply (get_buf_at s desc true); [exact Ha1|]. unfold bitmap_uptodate. change (b_uptodate (x <| b_count ::= fun c => c + 1 |>)) with (b_uptodate x). rewrite Hu. cbn [andb].
  apply runs_flat. rstep. unfold lock_buffer_bm, wait_on_buffer_bm. rstep. rstep. eapply (get_buf_at s desc true); [exact Ha1|]. flag (b_locked x). rewrite Hlk. cbn [negb]. rstep.
  eapply (upd_buf_at s desc true); [exact Ha1|]. intros s2 Ha2. destruct (rd_data _ _ _ Hr) as [(Hui & Hg & Hmade)|[Hui _]].
  - by eapply (readable_load_init s g desc (x <| b_count ::= fun c => c + 1 |> <| b_locked := true |>) s2); [..|exact Hbits|exact Ha2| |]; auto.
  - by apply (readable_load_disk s g desc _ s2 Hd Hl Hr Hui Ha2).
Qed.

(** C20: Reading the bitmap of a group returns, with the locks as before and the
    other buffers left alone.  A buffer that is returned is up to date, not
    locked and marked as verified, with one reference more; its data passed
    checksum and validation, or was made for the group, or was trusted before
    this read because an earlier one failed to make it (the descriptor has a
    bad checksum, or the fixed metadata fills the bitmap) and marked it all the
    same.  After an error the buffer has the references it had, and its mark, if
    it has one, has one of these three reasons.  A bitmap that is good on the
    disk, or has to be made and can be, is read without error when there is
    memory and its group is not marked as corrupt. *)
Theorem read_bitmap_contract `{PercpuApi} `{CsumApi} s g desc :
  desc_loaded s g desc -> g ∉ group_locked s ->
  let blk := ext4_block_bitmap (sbi s) desc in
  buf_ok s g desc (unmade s g desc) (bh_of s blk) -> (b_reading (bh_of s blk) = true -> b_uptodate (bh_of s blk) = false) ->
  (uninit s desc -> can_init s g desc) ->
  (forall data, bitmap_disk s blk = Some data -> bits_ok s data) ->
  runs (ext4_read_block_bitmap g) s (fun r s' =>
    group_locked s' = group_locked s /\ (forall b, b <> blk -> bh_of s' b = bh_of s b) /\
    (readable s g desc -> b_reading (bh_of s blk) = false -> b_uptodate (bh_of s blk) = false -> r = inr blk) /\
    let x := bh_of s' blk in
    match r with
    | inr b => b = blk /\ bitmap_uptodate x = true /\ b_locked x = false /\ b_verified x = true /\
        (accepted s g desc (b_data x) \/ b_verified (bh_of s blk) = true /\ unmade s g desc) /\
        refs x = refs (bh_of s blk) + 1
    | inl err => err < 0 /\ refs x = refs (bh_of s blk) /\
        (b_verified x = true -> accepted s g desc (b_data x) \/ unmade s g desc)
    end).
Proof.
  intros Hd Hl blk Hx Hr Hinit Hdisk. set (P := b_verified (bh_of s blk) = true /\ unmade s g desc).
  assert (HxP : buf_ok s g desc P (bh_of s blk)).
  { destruct Hx as [H1 H2 H3 H4]. split; [done| |done|done]. intros Hv. destruct (H2 Hv) as [? [?|?]]; [tauto|]. split; [done|]. right. by split. }
  assert (Hi : uninit s desc -> ext4_group_desc_csum_verify g desc = true -> forall bm, bits_ok s bm ->
    runs (init_bits (sbi s) g desc) bm (fun r bm' => (r = 0 \/ r < 0 /\ crowded s g) /\ bits_ok s bm')).
  { intros Hui _ bm Hbm. exact (proj1 (can_init_bits s g desc bm Hd (Hinit Hui) Hbm)). }
  pose proof (read_at s g desc false Hd P eq_refl Hi Hdisk HxP Hr Hl) as Hrun.
  apply runs_elim in Hrun as (r & s' & E & x' & Ha & Hres). eapply runs_intro; [exact E|].
  pose proof Ha as [E1 E2 _ _ _ _ E3 _]. cbv zeta. fold blk in E2. rewrite E2. split_and!; [done|exact E3| |].
  - intros Hrd Hn Hu. assert (Hlk : b_locked (bh_of s blk) = false) by (by rewrite (bk_locked _ _ _ _ _ Hx)).
    assert (Hv : b_verified (bh_of s blk) = false).
    { destruct (b_verified (bh_of s blk)) eqn:Ev; [|done]. destruct (bk_verified _ _ _ _ _ Hx Ev) as [Eu _]. unfold bitmap_uptodate in Eu. by rewrite Hu in Eu. }
    pose proof (readable_is_read s g desc Hd Hl Hrd Hinit (bk_bits _ _ _ _ _ Hx) Hlk Hu Hv) as Hgood. unfold runs in Hgood. by rewrite E in Hgood.
  - destruct r as [e|b].
    + destruct Hres as (Hx' & He & Hn). split_and!; [done|done|]. intros Hv. destruct (bk_verified _ _ _ _ _ Hx' Hv) as [_ [?|[[_ ?]|?]]]; auto.
    + destruct Hres as (Hx' & -> & (Hlk & _ & Hu) & Hv & Hn). split_and!; try done. by apply (bk_verified _ _ _ _ _ Hx').
Qed.

(** When the descriptor of a group whose bitmap was never written has a bad
    checksum, the first read of the bitmap fails, but marks the buffer, which
    still holds whatever was in the block, as read and verified: the next read
    returns it as a good bitmap. *)
Theorem failed_bitmap_is_trusted_later `{PercpuApi} `{CsumApi} s g desc :
  desc_loaded s g desc -> g ∉ group_locked s -> g <> 0 -> uninit s desc -> ext4_group_desc_csum_verify g desc = false ->
  let blk := ext4_block_bitmap (sbi s) desc in
  s_first_data_block (sbi s) < blk < ext4_blocks_count (sbi s) -> Forall (eq true) (getblk_ok s) ->
  let x := bh_of s blk in
  bitmap_uptodate x = false -> b_locked x = false -> b_new x = false ->
  runs (r1 <-- ext4_read_block_bitmap g ;; r2 <-- ext4_read_block_bitmap g ;; ret (r1, r2)) s (fun r s' =>
    r = (inl EFSBADCRC, inr blk) /\ b_data (bh_of s' blk) = b_data x /\ b_verified (bh_of s' blk) = true).
Proof.
  intros Hd Hl Hg [Hu1 Hu2] Hc blk Hblk Hget x Hup Hlk Hnew. pose proof (at_start s desc false) as Ha. fold blk x in Ha. set (L := group_locked s) in *.
  assert (Hrange : (blk <=? s_first_data_block (sbi s)) || (ext4_blocks_count (sbi s) <=? blk) = false).
  { apply orb_false_iff. split; apply Z.leb_gt; lia. }
  rstep. apply (runs_conseq _ _ (fun r s1 => r = inl EFSBADCRC /\ exists y, at_ s desc false L y s1 /\
    b_data y = b_data x /\ bitmap_uptodate y = true /\ b_verified y = true /\ b_new y = false)).
  - unfold ext4_read_block_bitmap. rstep. unfold ext4_read_block_bitmap_nowait. rstep. eapply (get_desc_at s g desc false Hd); [exact Ha|]. rstep. rstep. cbv zeta. fold blk.
    rewrite Hrange. rstep. apply (getblk_at s desc false L x); [exact Ha|done|]. intros s1 Ha1. cbn [negb]. rstep. eapply (get_buf_at s desc false); [exact Ha1|].
    change (bitmap_uptodate (x <| b_count ::= fun c => c + 1 |>)) with (bitmap_uptodate x). rewrite Hup. rstep. unfold lock_buffer_bm, wait_on_buffer_bm. rstep. rstep.
    eapply (get_buf_at s desc false); [exact Ha1|]. change (b_locked (x <| b_count ::= fun c => c + 1 |>)) with (b_locked x). rewrite Hlk. cbn [negb]. rstep.
    eapply (upd_buf_at s desc false); [exact Ha1|]. intros s2 Ha2. unfold load_bitmap. rstep. eapply (get_buf_at s desc false); [exact Ha2|].
    change (bitmap_uptodate (x <| b_count ::= fun c => c + 1 |> <| b_locked := true |>)) with (bitmap_uptodate x). rewrite Hup. rstep.
    eapply (lock_group_at s g desc false); [exact Ha2|done|]. intros s3 Ha3. rstep. rstep. rewrite (at_sbi _ _ _ _ _ _ Ha3), Hu1, (proj2 (Z.eqb_neq _ 0) Hu2). cbn [negb andb].
    rewrite (proj2 (Z.eqb_neq g 0) Hg). rstep. unfold ext4_init_block_bitmap. rewrite Hc. cbn [negb]. rstep. eapply (mark_corrupted_at s g desc false Hd); [done|exact Ha3|].
    intros s4 Ha4. rstep. rstep. eapply (upd_buf_at s desc false); [exact Ha4|]. intros s5 Ha5. rstep. eapply (unlock_group_at s g desc false Hd); [exact Ha5|done|].
    intros s6 Ha6. rstep. eapply (unlock_buffer_at s desc false); [exact Ha6|done|]. intros s7 Ha7. change (negb (EFSBADCRC =? 0)) with true. cbv iota.
    unfold out_bitmap. rstep. eapply (upd_buf_at s desc false); [exact Ha7|]. intros s8 Ha8. rstep. rstep. split; [done|]. eexists. split; [exact Ha8|]. by split_and!.
  - intros r1 s1 (-> & y & Ha1 & Ed & Eu & Ev & En). rstep. unfold ext4_read_block_bitmap. rstep. unfold ext4_read_block_bitmap_nowait. rstep.
    eapply (get_desc_at s g desc false Hd); [exact Ha1|]. rstep. rstep. rewrite (at_sbi _ _ _ _ _ _ Ha1). cbv zeta. fold blk. rewrite Hrange. rstep.
    apply (getblk_at s desc false L y); [exact Ha1|done|]. intros s2 Ha2. cbn [negb]. rstep. eapply (get_buf_at s desc false); [exact Ha2|].
    change (bitmap_uptodate (y <| b_count ::= fun c => c + 1 |>)) with (bitmap_uptodate y). rewrite Eu. unfold verify_bitmap, ext4_validate_block_bitmap. rstep. rstep.
    eapply (get_info_at s g desc false Hd); [exact Ha2|]. intros grp. rstep. eapply (get_buf_at s desc false); [exact Ha2|].
    change (b_verified (y <| b_count ::= fun c => c + 1 |>)) with (b_verified y). rewrite Ev. rstep. cbn [negb Z.eqb]. rstep. rstep. unfold ext4_wait_block_bitmap. rstep.
    eapply (get_buf_at s desc false); [exact Ha2|]. change (b_new (y <| b_count ::= fun c => c + 1 |>)) with (b_new y). rewrite En. cbn [negb]. rstep. cbn [negb Z.eqb]. rstep. rstep.
    fold blk. pose proof (at_buf _ _ _ _ _ _ Ha2) as Eb. fold blk in Eb. rewrite Eb. split_and!; [done|exact Ed|exact Ev].
Qed.

(** ** The theorems on the file system of three groups *)

(** One CPU that keeps up to 31 back. *)
#[local] Instance percpu0 : PercpuApi := {|
  percpu_counter := Z;
  percpu_value v := v;
  percpu_counter_read_positive v := Z.max 0 (32 * (v / 32));
  percpu_counter_sum_positive v := Z.max 0 v;
  percpu_counter_add v n := v + n;
  percpu_counter_batch := 32;
  nr_cpu_ids := 1;
|}.

#[local] Instance percpu0_laws : PercpuLaws.
Proof.
  split; [vm_compute; congruence|done| |done]. intros c. cbn. pose proof (Z.div_mod c 32 ltac:(lia)). pose proof (Z.mod_pos_bound c 32 ltac:(lia)). lia.
Qed.

(** A checksum that counts bits; the descriptor of group 2 is damaged. *)
#[local] Instance csum0 : CsumApi := {|
  ext4_chksum _ bm := memweight bm;
  ext4_group_desc_csum_verify g _ := g =? 1;
|}.

Definition bfs0 : bfs :=
  mk_bfs sbi0 [Some [gdp1; gdp1; mk_gdp 1030 0 1031 0 1032 0 0 0 0 0 2 0 0]] (replicate 3 (mk_grp false false 100)) ∅
    (fun _ => mk_bitmap_bh dirty_block false false false false false false 0) [] (fun _ => None) 300 0 60 10 0 false.

Lemma claim_is_exact_witness :
  runs (ext4_claim_free_clusters 210 0) bfs0 (fun r s' => r = 0 /\ s_dirtyclusters_counter s' = 270).
Proof.
  eapply runs_conseq; [apply (claim_is_exact 210 0 bfs0)|]. intros r s' (Hx & _ & _ & E & _).
  assert (r = 0) as -> by (apply Hx; left; vm_compute; congruence). split; [reflexivity|exact E].
Defined.

Lemma read_bitmap_contract_witness :
  runs (ext4_read_block_bitmap 1) bfs0 (fun r s' =>
    r = inr 519 /\ group_locked s' = ∅ /\ bitmap_uptodate (bh_of s' 519) = true /\ refs (bh_of s' 519) = 1).
Proof.
  eapply runs_conseq.
  - apply (read_bitmap_contract bfs0 1 gdp1).
    + split_and!; [vm_compute; congruence|vm_compute; reflexivity|vm_compute; reflexivity|]. eexists. split; reflexivity.
    + apply not_elem_of_empty.
    + split; [reflexivity|intros Hf; discriminate Hf|intros Hf; discriminate Hf|reflexivity].
    + intros Hf. discriminate Hf.
    + intros _. split; [exact geo0|exact meta1].
    + intros data Hf. discriminate Hf.
  - intros r s' (E & _ & Hok & Hr). assert (Hrd : readable bfs0 1 gdp1).
    { split; [vm_compute; split; reflexivity|constructor|eexists; split; reflexivity|left]. split_and!; [split; [reflexivity|vm_compute; congruence]|lia|].
      intros [_ [Hc|Hc]]; [discriminate Hc|vm_compute in Hc; congruence]. }
    specialize (Hok Hrd eq_refl eq_refl). change (ext4_block_bitmap (sbi bfs0) gdp1) with 519 in Hok, Hr. subst r.
    destruct Hr as (_ & Hu & _ & _ & _ & Hn). split_and!; [reflexivity|exact E|exact Hu|exact Hn].
Defined.

Lemma failed_bitmap_is_trusted_later_witness :
  runs (r1 <-- ext4_read_block_bitmap 2 ;; r2 <-- ext4_read_block_bitmap 2 ;; ret (r1, r2)) bfs0 (fun r s' =>
    r = (inl EFSBADCRC, inr 1030) /\ b_data (bh_of s' 1030) = dirty_block).
Proof.
  eapply runs_conseq.
  - apply (failed_bitmap_is_trusted_later bfs0 2 (mk_gdp 1030 0 1031 0 1032 0 0 0 0 0 2 0 0)).
    + split_and!; [vm_compute; congruence|vm_compute; reflexivity|vm_compute; reflexivity|]. eexists. split; reflexivity.
    + apply not_elem_of_empty.
    + lia.
    + split; [reflexivity|vm_compute; congruence].
    + reflexivity.
    + vm_compute. split; reflexivity.
    + constructor.
    + reflexivity.
    + reflexivity.
    + reflexivity.
  - intros r s' (E1 & E2 & _). split; [exact E1|exact E2].
Defined.
