(* ===== verification/SystemZone.v ===== *)
(** * mqfs: blocks of metadata that files must not use (block_validity.c) *)

From S2P Require Import Prelude Rbtree BlockGroup.

Record ext4_system_zone := mk_zone {
  start_blk : Z;
  count : Z;
}.
#[export] Instance zone_eta : Eta ext4_system_zone := fun z => mk_zone (start_blk z) (count z).

(** The tree [sbi->system_blks] with its nodes in memory. *)
Record zonefs := mk_zonefs {
  system_blks : rb_root;
  zone_mem : gmap nat ext4_system_zone;
  zone_next : nat;             (* the node the next allocation returns *)
  zone_allocs : list bool;     (* whether the next allocations succeed; then they do *)
  s_last_error_block : Z;
  inode_errors : list Z;       (* blocks reported by ext4_error_inode *)
}.
#[export] Instance zonefs_eta : Eta zonefs := fun s =>
  mk_zonefs (system_blks s) (zone_mem s) (zone_next s) (zone_allocs s) (s_last_error_block s) (inode_errors s).

Section zones.
Context `{RbApi} (sbi : ext4_sb_info).

Definition zone_end (z : ext4_system_zone) : Z := u64 (start_blk z + count z).

Definition deref_zone (n : nat) : M zonefs ext4_system_zone := fun s =>
  match zone_mem s !! n with Some z => Ret z s | None => Oops NullDeref end.
Definition write_zone (n : nat) (z : ext4_system_zone) : M zonefs unit :=
  _ <-- deref_zone n ;; modify (fun s => s <| zone_mem ::= <[n := z]> |>).

Definition can_merge (entry1 entry2 : ext4_system_zone) : bool := zone_end entry1 =? start_blk entry2.

(** [kmem_cache_alloc]; the new object is filled in at once. *)
Definition alloc_zone (z : ext4_system_zone) : M zonefs (option nat) :=
  l <-- gets zone_allocs ;;
  match l with
  | false :: l => modify (fun s => s <| zone_allocs := l |>) ;;; ret None
  | _ =>
      modify (fun s => s <| zone_allocs := tail l |>) ;;;
      n <-- gets zone_next ;;
      modify (fun s => s <| zone_mem ::= <[n := z]> |> <| zone_next := S n |>) ;;;
      ret (Some n)
  end.

Definition free_zone (n : nat) : M zonefs unit := modify (fun s => s <| zone_mem ::= delete n |>).

(** ** Adding a zone *)

Inductive zone_place := ZoneAt (n : nat) | ZoneSlot (p : rb_path).

Definition zone_below (right : bool) (p : zone_place) : zone_place :=
  match p with ZoneSlot p => ZoneSlot (right :: p) | p => p end.

(** The loop of [add_system_zone]: the node that holds the block, or the link
    where its node belongs. *)
Fixpoint zone_walk (t : rb_root) (start : Z) : M zonefs zone_place :=
  match t with
  | RbNull => ret (ZoneSlot [])
  | RbNode l n r =>
      entry <-- deref_zone n ;;
      if start <? start_blk entry then p <-- zone_walk l start ;; ret (zone_below false p)
      else if zone_end entry <=? start then p <-- zone_walk r start ;; ret (zone_below true p)
      else ret (ZoneAt n)
  end.

Definition merge_zone_left (n : nat) : M zonefs unit :=
  t <-- gets system_blks ;;
  match rb_prev t n with
  | None => ret tt
  | Some m =>
      entry <-- deref_zone m ;;
      new_entry <-- deref_zone n ;;
      if can_merge entry new_entry then
        write_zone n (mk_zone (start_blk entry) (u32 (count new_entry + count entry))) ;;;
        modify (fun s => s <| system_blks ::= rb_erase m |>) ;;;
        free_zone m
      else ret tt
  end.

Definition merge_zone_right (n : nat) : M zonefs unit :=
  t <-- gets system_blks ;;
  match rb_next t n with
  | None => ret tt
  | Some m =>
      entry <-- deref_zone m ;;
      new_entry <-- deref_zone n ;;
      if can_merge new_entry entry then
        write_zone n (new_entry <| count := u32 (count new_entry + count entry) |>) ;;;
        modify (fun s => s <| system_blks ::= rb_erase m |>) ;;;
        free_zone m
      else ret tt
  end.

Definition ENOMEM_zone : Z := -12.

Definition add_system_zone (start cnt : Z) : M zonefs Z :=
  t <-- gets system_blks ;;
  p <-- zone_walk t start ;;
  n <-- match p with
        | ZoneAt n =>
            entry <-- deref_zone n ;;
            (if zone_end entry <? u64 (start + cnt)
             then write_zone n (entry <| count := u32 (start + cnt - start_blk entry) |>) else ret tt) ;;;
            ret (Some n)
        | ZoneSlot q =>
            n <-- alloc_zone (mk_zone start cnt) ;;
            match n with
            | None => ret None
            | Some n => modify (fun s => s <| system_blks ::= fun t => rb_insert_color n (rb_link_node q n t) |>) ;;; ret (Some n)
            end
        end ;;
  match n with
  | None => ret ENOMEM_zone
  | Some n => merge_zone_left n ;;; merge_zone_right n ;;; ret 0
  end.

(** ** All zones of the file system *)

(** [ext4_get_group_desc]; [None] is the null pointer. *)
Context (group_desc : Z -> option ext4_group_desc).

(** The body of the loop; [Some r]: return [r]. *)
Definition setup_group (flex_size i : Z) : M zonefs (option Z) :=
  (if ext4_bg_has_super sbi i then
     check ((i <? 5) || negb (flex_size =? 0)) DivByZero ;;;
     if (i <? 5) || (i mod flex_size =? 0) then
       _ <-- add_system_zone (ext4_group_first_block_no sbi i) (u32 (ext4_bg_num_gdb sbi i + 1)) ;; ret tt
     else ret tt
   else ret tt) ;;;
  match group_desc i with
  | None => oops NullDeref
  | Some gdp =>
      r <-- add_system_zone (ext4_block_bitmap sbi gdp) 1 ;;
      if negb (r =? 0) then ret (Some r)
      else
        r <-- add_system_zone (ext4_inode_bitmap sbi gdp) 1 ;;
        if negb (r =? 0) then ret (Some r)
        else
          r <-- add_system_zone (ext4_inode_table sbi gdp) (u32 (s_itb_per_group sbi)) ;;
          if negb (r =? 0) then ret (Some r) else ret None
  end.

Fixpoint setup_loop (groups : list Z) (flex_size : Z) : M zonefs Z :=
  match groups with
  | [] => ret 0
  | i :: groups =>
      r <-- setup_group flex_size i ;;
      match r with Some r => ret r | None => setup_loop groups flex_size end
  end.

(** Every node is freed. *)
Definition ext4_release_system_zone : M zonefs unit :=
  t <-- gets system_blks ;;
  for_each (inorder t) free_zone ;;;
  modify (fun s => s <| system_blks := RbNull |>).

Definition ext4_setup_system_zone (block_validity : bool) : M zonefs Z :=
  t <-- gets system_blks ;;
  let empty := match t with RbNull => true | _ => false end in
  if negb block_validity then
    (if empty then ret tt else ext4_release_system_zone) ;;; ret 0
  else if negb empty then ret 0
  else
    setup_loop (seqZ 0 (s_groups_count sbi)) (ext4_flex_bg_size sbi).

(** ** Checking blocks *)

Fixpoint valid_walk (t : rb_root) (start cnt : Z) : M zonefs bool :=
  match t with
  | RbNull => ret true
  | RbNode l n r =>
      entry <-- deref_zone n ;;
      if u64 (start + cnt - 1) <? start_blk entry then valid_walk l start cnt
      else if zone_end entry <=? start then valid_walk r start cnt
      else
        modify (fun s => s <| s_last_error_block := start |>) ;;;
        ret false
  end.

Definition ext4_data_block_valid (start cnt : Z) : M zonefs bool :=
  if (start <=? s_first_data_block sbi) || (u64 (start + cnt) <? start) || (ext4_blocks_count sbi <? u64 (start + cnt)) then
    modify (fun s => s <| s_last_error_block := start |>) ;;; ret false
  else
    t <-- gets system_blks ;; valid_walk t start cnt.

(** The block numbers of an indirect block. *)
Fixpoint ext4_check_blockref (refs : list Z) : M zonefs Z :=
  match refs with
  | [] => ret 0
  | blk :: refs =>
      ok <-- (if blk =? 0 then ret true else ext4_data_block_valid blk 1) ;;
      if negb ok then
        modify (fun s => s <| s_last_error_block := blk |> <| inode_errors ::= (.++ [blk]) |>) ;;;
        ret EFSCORRUPTED
      else ext4_check_blockref refs
  end.
End zones.
