(* ===== verification/SystemZoneFacts.v ===== *)
(** * mqfs: facts on the tree of system zones

    The nodes of the tree in order, with their zones, are a ghost list: sorted,
    without overlap, and all of the memory. *)

From S2P Require Import Prelude Rbtree BlockGroup SystemZone.

Abbreviation znode := (nat * ext4_system_zone)%type.

Definition zend (z : ext4_system_zone) : Z := start_blk z + count z.

Record zone_ok (z : ext4_system_zone) : Prop := mk_zone_ok {
  zok_start : 0 <= start_blk z;
  zok_count : 0 < count z < 2 ^ 32;
  zok_end : zend z < 2 ^ 64;
}.

Fixpoint zsorted (lo : Z) (l : list znode) : Prop :=
  match l with
  | [] => True
  | x :: l => lo <= start_blk x.2 /\ zone_ok x.2 /\ zsorted (zend x.2) l
  end.

Fixpoint zlast (lo : Z) (l : list znode) : Z :=
  match l with [] => lo | x :: l => zlast (zend x.2) l end.

Fixpoint ztotal (l : list znode) : Z :=
  match l with [] => 0 | x :: l => count x.2 + ztotal l end.

(** Block [b] is in one of the zones. *)
Definition in_zone (l : list znode) (b : Z) : Prop := exists x, x ∈ l /\ start_blk x.2 <= b < zend x.2.

Definition apart (start cnt : Z) (z : ext4_system_zone) : Prop := start + cnt <= start_blk z \/ zend z <= start.

Definition zmap (l : list znode) : gmap nat ext4_system_zone := list_to_map l.

Record zones (l : list znode) (s : zonefs) : Prop := mk_zones {
  zo_tree : inorder (system_blks s) = l.*1;
  zo_mem : zone_mem s = zmap l;
  zo_nodup : NoDup l.*1;
  zo_fresh n : n ∈ l.*1 -> (n < zone_next s)%nat;
  zo_sorted : zsorted 0 l;
}.

(** ** Lists of zones *)

Lemma zone_end_ok z : zone_ok z -> zone_end z = zend z.
Proof. intros [? [? ?] ?]. unfold zone_end, zend in *. rewrite wrap_small; [done|lia]. Qed.

Lemma zlast_app lo l1 l2 : zlast lo (l1 ++ l2) = zlast (zlast lo l1) l2.
Proof. revert lo. induction l1 as [|x l1 IH]; intros lo; cbn; [done|apply IH]. Qed.

Lemma zsorted_app lo l1 l2 : zsorted lo (l1 ++ l2) <-> zsorted lo l1 /\ zsorted (zlast lo l1) l2.
Proof. revert lo. induction l1 as [|x l1 IH]; intros lo; cbn; [tauto|]. rewrite IH. tauto. Qed.

Lemma zsorted_weaken lo lo' l : lo' <= lo -> zsorted lo l -> zsorted lo' l.
Proof. destruct l as [|x l]; [done|]. cbn. intros ? (? & ? & ?). split_and!; [lia|done|done]. Qed.

Lemma zsorted_Forall lo l : zsorted lo l -> Forall (fun x => zone_ok x.2 /\ lo <= start_blk x.2 /\ zend x.2 <= zlast lo l) l /\ lo <= zlast lo l.
Proof.
  revert lo. induction l as [|x l IH]; intros lo; cbn; [split; [constructor|lia]|]. intros (H1 & Ok & Hs). destruct (IH _ Hs) as [Hf Hle].
  assert (start_blk x.2 < zend x.2) by (destruct Ok; unfold zend; lia). split; [|lia]. constructor; [split_and!; [done|lia|done]|].
  eapply Forall_impl; [done|]. intros y (? & ? & ?). split_and!; [done|lia|done].
Qed.

(** What is known of the nodes around one. *)
Lemma zsorted_middle lo l1 n z l2 :
  zsorted lo (l1 ++ (n, z) :: l2) ->
  zone_ok z /\ zsorted lo l1 /\ zsorted (zend z) l2 /\ lo <= start_blk z /\
  Forall (fun x => zend x.2 <= start_blk z) l1 /\ Forall (fun x => zend z <= start_blk x.2) l2.
Proof.
  intros (H1 & H2 & Ok & H3)%zsorted_app. cbn in *. destruct (zsorted_Forall _ _ H1) as [F1 Hle], (zsorted_Forall _ _ H3) as [F3 _].
  split_and!; [done|done|done|lia| |].
  - eapply Forall_impl; [done|]. cbn. intros x (? & ? & ?). lia.
  - eapply Forall_impl; [done|]. cbn. tauto.
Qed.

(** A node is replaced within the gap around it. *)
Lemma zsorted_replace lo l1 l2 n z :
  zsorted lo l1 -> zone_ok z -> lo <= start_blk z -> Forall (fun x => zend x.2 <= start_blk z) l1 -> zsorted (zend z) l2 ->
  zsorted lo (l1 ++ (n, z) :: l2).
Proof.
  intros H1 Ok Hlo F1 H2. apply zsorted_app. split; [done|]. cbn. split_and!; [|done|done].
  destruct l1 as [|x l1 _] using rev_ind; [done|]. rewrite zlast_app. cbn. apply Forall_app in F1 as [_ [? _]%Forall_cons]. done.
Qed.

Lemma zsorted_tail lo l b : zsorted lo l -> Forall (fun x => b <= start_blk x.2) l -> zsorted b l.
Proof. destruct l as [|x l]; [done|]. cbn. intros (? & ? & ?) [? _]%Forall_cons. done. Qed.

Lemma ztotal_app l1 l2 : ztotal (l1 ++ l2) = ztotal l1 + ztotal l2.
Proof. induction l1 as [|x l1 IH]; cbn; [done|]. lia. Qed.

Lemma ztotal_nonneg lo l : zsorted lo l -> 0 <= ztotal l.
Proof. revert lo. induction l as [|x l IH]; intros lo; cbn; [done|]. intros (_ & [_ ? _] & ?%IH). lia. Qed.

Lemma in_zone_app l1 l2 b : in_zone (l1 ++ l2) b <-> in_zone l1 b \/ in_zone l2 b.
Proof. unfold in_zone. setoid_rewrite elem_of_app. naive_solver. Qed.

Lemma in_zone_cons x l b : in_zone (x :: l) b <-> start_blk x.2 <= b < zend x.2 \/ in_zone l b.
Proof. unfold in_zone. setoid_rewrite elem_of_cons. naive_solver. Qed.

Lemma in_zone_nil b : ~ in_zone [] b.
Proof. by intros (x & []%elem_of_nil & _). Qed.

(** ** Memory *)

Lemma zmap_middle l1 n z l2 : NoDup (l1 ++ (n, z) :: l2).*1 -> zmap (l1 ++ (n, z) :: l2) = <[n := z]> (zmap (l1 ++ l2)).
Proof.
  intros Hnd. transitivity (zmap ((n, z) :: l1 ++ l2)); [|done]. apply list_to_map_proper; [done|]. symmetry. apply Permutation_middle.
Qed.

Lemma nodup_middle (l1 l2 : list znode) n z : NoDup (l1 ++ (n, z) :: l2).*1 <-> (n ∉ (l1 ++ l2).*1) /\ NoDup (l1 ++ l2).*1.
Proof. rewrite <- Permutation_middle. cbn. apply NoDup_cons. Qed.

Lemma zmap_fresh (l : list znode) n : n ∉ l.*1 -> zmap l !! n = None.
Proof. apply not_elem_of_list_to_map_1. Qed.

Lemma zlookup l s x : zones l s -> x ∈ l -> zone_mem s !! x.1 = Some x.2.
Proof. intros Hz Hin. rewrite (zo_mem _ _ Hz). apply elem_of_list_to_map_1; [apply (zo_nodup _ _ Hz)|]. by destruct x. Qed.

Lemma runs_deref_zone l s n z (Q : ext4_system_zone -> zonefs -> Prop) :
  zones l s -> (n, z) ∈ l -> Q z s -> runs (deref_zone n) s Q.
Proof. intros Hz Hin HQ. pose proof (zlookup _ _ _ Hz Hin) as E. cbn in E. unfold runs, deref_zone. by rewrite E. Qed.

Lemma znode_split l1 n l2 (l : list znode) :
  l1 ++ n :: l2 = l.*1 -> exists ll z lr, l = ll ++ (n, z) :: lr /\ l1 = ll.*1 /\ l2 = lr.*1.
Proof.
  intros E. symmetry in E. apply fmap_app_inv in E as (ll & lr & -> & E & ->). destruct lr as [|[m z] lr]; [done|].
  injection E as -> ->. by exists ll, z, lr.
Qed.

Lemma mid_elem {A} (l1 l2 : list A) x : x ∈ l1 ++ x :: l2.
Proof. apply elem_of_app. right. left. Qed.

Lemma write_zone_ok l1 n z z' l2 s (Q : unit -> zonefs -> Prop) :
  zones (l1 ++ (n, z) :: l2) s -> zsorted 0 (l1 ++ (n, z') :: l2) ->
  (let s' := s <| zone_mem ::= <[n := z']> |> in zones (l1 ++ (n, z') :: l2) s' -> Q tt s') ->
  runs (write_zone n z') s Q.
Proof.
  intros Hz Hs HQ. unfold write_zone. rstep. eapply runs_deref_zone; [done|apply mid_elem|]. apply runs_modify, HQ.
  assert (E : (l1 ++ (n, z') :: l2).*1 = (l1 ++ (n, z) :: l2).*1) by (by rewrite !fmap_app).
  destruct Hz as [H1 H2 H3 H4 _]. destruct s. cbn in *. split; cbn; rewrite ?E; try done.
  rewrite H2, !zmap_middle by (by rewrite ?E). apply insert_insert_eq.
Qed.

(** ** Walking *)

(** A zone is looked up in the part [k] of the nodes. *)
Lemma zone_walk_ok l s t (k : list znode) lo start :
  zones l s -> (forall x, x ∈ k -> x ∈ l) -> inorder t = k.*1 -> zsorted lo k ->
  runs (zone_walk t start) s (fun p s' => s' = s /\
    match p with
    | ZoneAt n => exists l1 z l2, k = l1 ++ (n, z) :: l2 /\ start_blk z <= start < zend z
    | ZoneSlot q => exists l1 l2, k = l1 ++ l2 /\ Forall (fun x => zend x.2 <= start) l1 /\ Forall (fun x => start < start_blk x.2) l2 /\
        forall x, inorder (rb_link_node q x t) = l1.*1 ++ x :: l2.*1
    end).
Proof.
  intros Hz. revert k lo. induction t as [|tl IHl n tr IHr]; intros k lo Hin Ei Hs; cbn [zone_walk inorder] in *.
  { apply runs_ret. split; [done|]. destruct k; [|done]. exists [], []. split_and!; [done|constructor|constructor|done]. }
  destruct (znode_split _ _ _ _ Ei) as (ll & z & lr & -> & El & Er). destruct (zsorted_middle _ _ _ _ _ Hs) as (Ok & S1 & S2 & _ & F1 & F2).
  assert (Hlt : start_blk z < zend z) by (destruct Ok; unfold zend; lia).
  rstep. eapply runs_deref_zone; [done|apply Hin, mid_elem|]. rewrite (zone_end_ok z Ok).
  destruct (Z.ltb_spec start (start_blk z)) as [Hc|Hc]; [|destruct (Z.leb_spec (zend z) start) as [Hc'|Hc']].
  - rstep. eapply runs_conseq; [apply (IHl ll lo); [|done|done]; intros x Hx; apply Hin, elem_of_app; by left|].
    intros p s' [-> Hp]. apply runs_ret. split; [done|]. destruct p as [m|q]; cbn [zone_below].
    + destruct Hp as (l1 & e & l2 & -> & He). exists l1, e, (l2 ++ (n, z) :: lr). by rewrite <- app_assoc.
    + destruct Hp as (l1 & l2 & -> & H1 & H2 & Hl). exists l1, (l2 ++ (n, z) :: lr). split_and!; [by rewrite <- app_assoc|done| |].
      * apply Forall_app. split; [done|]. constructor; [done|]. eapply Forall_impl; [done|]. cbn. intros. lia.
      * intros x. cbn. rewrite Hl, fmap_app, <- app_assoc. cbn. by rewrite Er.
  - rstep. eapply runs_conseq; [apply (IHr lr (zend z)); [|done|done]; intros x Hx; apply Hin, elem_of_app; right; by right|].
    intros p s' [-> Hp]. apply runs_ret. split; [done|]. destruct p as [m|q]; cbn [zone_below].
    + destruct Hp as (l1 & e & l2 & -> & He). exists (ll ++ (n, z) :: l1), e, l2. by rewrite <- app_assoc.
    + destruct Hp as (l1 & l2 & -> & H1 & H2 & Hl). exists (ll ++ (n, z) :: l1), l2. split_and!; [by rewrite <- app_assoc| |done|].
      * apply Forall_app. split; [eapply Forall_impl; [done|]; cbn; intros; lia|]. by constructor.
      * intros x. cbn. rewrite Hl, fmap_app, <- app_assoc. cbn. by rewrite El.
  - apply runs_ret. split; [done|]. by exists ll, z, lr.
Qed.

Lemma valid_walk_ok l s t (k : list znode) lo start cnt :
  zones l s -> (forall x, x ∈ k -> x ∈ l) -> inorder t = k.*1 -> zsorted lo k ->
  0 <= start -> 0 < cnt -> start + cnt <= 2 ^ 64 ->
  runs (valid_walk t start cnt) s (fun r s' =>
    if r then s' = s /\ Forall (fun x => apart start cnt x.2) k
    else s' = s <| s_last_error_block := start |> /\ Exists (fun x => ~ apart start cnt x.2) k).
Proof.
  intros Hz Hin Ei Hs H0 Hc He. revert k lo Hin Ei Hs. induction t as [|tl IHl n tr IHr]; intros k lo Hin Ei Hs; cbn [valid_walk inorder] in *.
  { apply runs_ret. destruct k; [|done]. by split. }
  destruct (znode_split _ _ _ _ Ei) as (ll & z & lr & -> & El & Er). destruct (zsorted_middle _ _ _ _ _ Hs) as (Ok & S1 & S2 & _ & F1 & F2).
  assert (Hlt : start_blk z < zend z) by (destruct Ok; unfold zend; lia).
  rstep. eapply runs_deref_zone; [done|apply Hin, mid_elem|]. rewrite (zone_end_ok z Ok), wrap_small by lia.
  destruct (Z.ltb_spec (start + cnt - 1) (start_blk z)) as [Hl|Hl]; [|destruct (Z.leb_spec (zend z) start) as [Hr|Hr]].
  - eapply runs_conseq; [apply (IHl ll lo); [|done|done]; intros x Hx; apply Hin, elem_of_app; by left|].
    intros [] s' [-> Hp]; (split; [done|]); [|apply Exists_app; by left]. apply Forall_app. split; [done|].
    constructor; [left; cbn; lia|]. eapply Forall_impl; [done|]. cbn. intros. left. lia.
  - eapply runs_conseq; [apply (IHr lr (zend z)); [|done|done]; intros x Hx; apply Hin, elem_of_app; right; by right|].
    intros [] s' [-> Hp]; (split; [done|]); [|apply Exists_app; right; by right]. apply Forall_app. split; [|constructor; [by right|done]].
    eapply Forall_impl; [done|]. cbn. intros. right. lia.
  - rstep. apply runs_modify, runs_ret. split; [done|]. apply Exists_app. right. left. cbn. unfold apart. lia.
Qed.

(** ** Merging *)

(** Two neighbours become one zone, kept in the node of one of them. *)
Definition joins (e z z' : ext4_system_zone) : Prop := start_blk z' = start_blk e /\ count z' = count e + count z /\ zend e = start_blk z.

Lemma joins_sorted lo l1 m e n z l2 k z' :
  zsorted lo (l1 ++ (m, e) :: (n, z) :: l2) -> joins e z z' -> count z' < 2 ^ 32 -> zsorted lo (l1 ++ (k, z') :: l2).
Proof.
  intros (Hs1 & Hs2)%zsorted_app (E1 & E2 & E3) Hc. cbn in Hs2. destruct Hs2 as (H1 & [? ? ?] & H2 & [? ? ?] & H3). unfold zend in *.
  apply zsorted_app. split; [done|]. cbn. unfold zend. split_and!; [lia|split; unfold zend; lia|]. replace (start_blk z' + count z') with (start_blk z + count z) by lia. done.
Qed.

Lemma joins_in l1 m e n z l2 k z' b :
  joins e z z' -> zone_ok e -> zone_ok z -> in_zone (l1 ++ (k, z') :: l2) b <-> in_zone (l1 ++ (m, e) :: (n, z) :: l2) b.
Proof.
  intros (E1 & E2 & E3) [] []. rewrite !in_zone_app, !in_zone_cons. cbn. unfold zend in *.
  assert (start_blk z' <= b < start_blk z' + count z' <-> start_blk e <= b < start_blk e + count e \/ start_blk z <= b < start_blk z + count z) by lia.
  tauto.
Qed.

Section merge.
Context `{RbLaws}.

Lemma rb_erase_middle (t : rb_root) (l1 l2 : list znode) m e :
  NoDup (l1 ++ (m, e) :: l2).*1 -> inorder t = (l1 ++ (m, e) :: l2).*1 -> inorder (rb_erase m t) = (l1 ++ l2).*1.
Proof. intros Hnd E. rewrite fmap_app. apply rb_erase_law; [by rewrite E|]. by rewrite E, fmap_app. Qed.

(** The other node leaves the tree and its memory is freed: the zone [z'] is
    already in the node that stays. *)
Lemma drop_zone_ok l1 m e l2 s (Q : unit -> zonefs -> Prop) :
  inorder (system_blks s) = (l1 ++ (m, e) :: l2).*1 -> zone_mem s = zmap (l1 ++ (m, e) :: l2) ->
  NoDup (l1 ++ (m, e) :: l2).*1 -> (forall n, n ∈ (l1 ++ (m, e) :: l2).*1 -> (n < zone_next s)%nat) -> zsorted 0 (l1 ++ l2) ->
  (forall s', zones (l1 ++ l2) s' -> zone_allocs s' = zone_allocs s -> s_last_error_block s' = s_last_error_block s -> inode_errors s' = inode_errors s -> Q tt s') ->
  runs (modify (fun s => s <| system_blks ::= rb_erase m |>) ;;; free_zone m) s Q.
Proof.
  intros Et Em Hnd Hf Hs HQ. pose proof Hnd as [Hm Hnd']%nodup_middle. unfold free_zone. rstep. apply runs_modify, runs_modify, HQ; [|by destruct s..].
  destruct s. cbn in *. split; cbn; [by eapply rb_erase_middle| |done| |done].
  - rewrite Em, zmap_middle by done. by rewrite delete_insert_id by (by apply zmap_fresh).
  - intros n Hn. apply Hf. rewrite <- Permutation_middle. cbn. by right.
Qed.

(** The effect of a step that keeps the blocks in zones. *)
Record rezoned (l : list znode) (s : zonefs) (l' : list znode) (s' : zonefs) : Prop := mk_rezoned {
  rz_zones : zones l' s';
  rz_total : ztotal l' = ztotal l;
  rz_in b : in_zone l' b <-> in_zone l b;
  rz_allocs : zone_allocs s' = zone_allocs s;
  rz_error : s_last_error_block s' = s_last_error_block s;
  rz_errors : inode_errors s' = inode_errors s;
}.

Lemma rezoned_refl l s : zones l s -> rezoned l s l s.
Proof. by split. Qed.

Lemma rb_prev_middle (t : rb_root) (l1 l2 : list znode) n z :
  NoDup (l1 ++ (n, z) :: l2).*1 -> inorder t = (l1 ++ (n, z) :: l2).*1 -> rb_prev t n = last l1.*1.
Proof. intros Hnd E. apply (rb_prev_law n t l1.*1 l2.*1); [by rewrite E|by rewrite E, fmap_app]. Qed.

Lemma rb_next_middle (t : rb_root) (l1 l2 : list znode) n z :
  NoDup (l1 ++ (n, z) :: l2).*1 -> inorder t = (l1 ++ (n, z) :: l2).*1 -> rb_next t n = head l2.*1.
Proof. intros Hnd E. apply (rb_next_law n t l1.*1 l2.*1); [by rewrite E|by rewrite E, fmap_app]. Qed.

(** The zone of node [n] takes in its neighbour, node [m]; [l] are the nodes
    with both, [k1] and [k2] those around the one to drop. *)
Lemma absorb_zone_ok l k1 k2 m e n z z' r s :
  zones l s -> l ≡ₚ (m, e) :: (n, z) :: r -> NoDup (k1 ++ (m, e) :: k2).*1 -> l.*1 = (k1 ++ (m, e) :: k2).*1 ->
  k1 ++ (m, e) :: k2 ≡ₚ (m, e) :: (n, z') :: r -> zsorted 0 (k1 ++ k2) ->
  ztotal (k1 ++ k2) = ztotal l -> (forall b, in_zone (k1 ++ k2) b <-> in_zone l b) ->
  runs (write_zone n z' ;;; modify (fun s => s <| system_blks ::= rb_erase m |>) ;;; free_zone m) s (fun _ s' => rezoned l s (k1 ++ k2) s').
Proof.
  intros Hz Pl Hnd El Pk Hs Et Hin. pose proof Hz as [Ht Hm Hn Hf _]. rstep. unfold write_zone. rstep.
  eapply runs_deref_zone; [done|rewrite Pl; right; left|]. rstep.
  eapply (drop_zone_ok k1 m e k2); [by destruct s; cbn in *; rewrite Ht| |done| |done|].
  - destruct s. cbn in *. rewrite Hm. unfold zmap. rewrite (list_to_map_proper _ _ Hn Pl), (list_to_map_proper _ _ Hnd Pk). cbn.
    assert (n <> m) by (rewrite Pl in Hn; cbn in Hn; apply NoDup_cons in Hn as [Hn _]; set_solver).
    rewrite insert_insert_ne by done. by rewrite insert_insert_eq.
  - destruct s. cbn in *. by rewrite <- El.
  - intros s' Hz' E1 E2 E3. destruct s. cbn in *. by split.
Qed.

Lemma merge_left_zone_ok l1 n z l2 s :
  zones (l1 ++ (n, z) :: l2) s -> ztotal (l1 ++ (n, z) :: l2) < 2 ^ 32 ->
  runs (merge_zone_left n) s (fun _ s' => exists l1' z', rezoned (l1 ++ (n, z) :: l2) s (l1' ++ (n, z') :: l2) s').
Proof.
  intros Hz Ht. unfold merge_zone_left. rstep. rstep. pose proof Hz as [Et Em Hnd Hf Hs].
  rewrite (rb_prev_middle _ _ _ _ _ Hnd Et). destruct l1 as [|[m e] l1 _] using rev_ind.
  { apply runs_ret. exists [], z. by apply rezoned_refl. }
  rewrite fmap_app. cbn. rewrite last_snoc. rewrite <- app_assoc in Hz, Ht, Et, Em, Hnd, Hf, Hs |- *. cbn [app] in *.
  pose proof (zsorted_middle _ _ _ _ _ Hs) as (Oe & S1 & (_ & Oz & S2) & _). cbn in Oz.
  rstep. eapply runs_deref_zone; [done|apply mid_elem|]. rstep. eapply runs_deref_zone; [done|apply elem_of_app; right; right; left|].
  unfold can_merge. rewrite (zone_end_ok e Oe). destruct (Z.eqb_spec (zend e) (start_blk z)) as [Ej|_]; [|apply runs_ret; exists (l1 ++ [(m, e)]), z; rewrite <- app_assoc; by apply rezoned_refl].
  rewrite ztotal_app in Ht. cbn in Ht. pose proof (ztotal_nonneg 0 l1 S1). pose proof (ztotal_nonneg _ _ S2). pose proof (zok_count _ Oe). pose proof (zok_count _ Oz).
  rewrite wrap_small by lia. set (z' := mk_zone _ _). assert (J : joins e z z') by (split_and!; cbn; lia).
  eapply runs_conseq; [apply (absorb_zone_ok (l1 ++ (m, e) :: (n, z) :: l2) l1 ((n, z') :: l2) m e n z z' (l1 ++ l2)); [done|..]|intros [] s' Hr; by exists l1, z'].
  - by rewrite <- !Permutation_middle.
  - by rewrite !fmap_app in *.
  - by rewrite !fmap_app.
  - by rewrite <- !Permutation_middle.
  - eapply joins_sorted; [done|done|cbn; lia].
  - rewrite !ztotal_app. cbn. lia.
  - intros b. by apply joins_in.
Qed.

Lemma merge_right_zone_ok l1 n z l2 s :
  zones (l1 ++ (n, z) :: l2) s -> ztotal (l1 ++ (n, z) :: l2) < 2 ^ 32 ->
  runs (merge_zone_right n) s (fun _ s' => exists l', rezoned (l1 ++ (n, z) :: l2) s l' s').
Proof.
  intros Hz Ht. unfold merge_zone_right. rstep. rstep. pose proof Hz as [Et Em Hnd Hf Hs].
  rewrite (rb_next_middle _ _ _ _ _ Hnd Et). destruct l2 as [|[m e] l2]; cbn [fmap list_fmap head fst].
  { apply runs_ret. eexists. by apply rezoned_refl. }
  pose proof (zsorted_middle _ _ _ _ _ Hs) as (Oz & S1 & (_ & Oe & S2) & _). cbn in Oe.
  rstep. eapply runs_deref_zone; [done|apply elem_of_app; right; right; left|]. rstep. eapply runs_deref_zone; [done|apply mid_elem|].
  unfold can_merge. rewrite (zone_end_ok z Oz). destruct (Z.eqb_spec (zend z) (start_blk e)) as [Ej|_]; [|apply runs_ret; eexists; by apply rezoned_refl].
  rewrite ztotal_app in Ht. cbn in Ht. pose proof (ztotal_nonneg 0 l1 S1). pose proof (ztotal_nonneg _ _ S2). pose proof (zok_count _ Oe). pose proof (zok_count _ Oz).
  rewrite wrap_small by lia. set (z' := z <| count := _ |>). assert (J : joins z e z') by (destruct z; split_and!; cbn in *; lia).
  eapply runs_conseq; [apply (absorb_zone_ok (l1 ++ (n, z) :: (m, e) :: l2) (l1 ++ [(n, z')]) l2 m e n z z' (l1 ++ l2)); [done|..]|intros [] s' Hr; by eexists];
    rewrite <- ?app_assoc; cbn [app].
  - rewrite <- !Permutation_middle. constructor.
  - by rewrite !fmap_app in *.
  - by rewrite !fmap_app.
  - rewrite <- !Permutation_middle. constructor.
  - eapply joins_sorted; [done|done|]. destruct z. cbn in *. lia.
  - rewrite !ztotal_app. destruct z. cbn in *. lia.
  - intros b. by apply joins_in.
Qed.

Lemma merge_zones_ok l1 n z l2 s :
  zones (l1 ++ (n, z) :: l2) s -> ztotal (l1 ++ (n, z) :: l2) < 2 ^ 32 ->
  runs (merge_zone_left n ;;; merge_zone_right n ;;; ret 0) s (fun r s' => r = 0 /\ exists l', rezoned (l1 ++ (n, z) :: l2) s l' s').
Proof.
  intros Hz Ht. rstep. eapply runs_conseq; [by eapply merge_left_zone_ok|]. intros [] s1 (l1' & z' & R1). rstep.
  eapply runs_conseq; [apply merge_right_zone_ok; [apply R1|rewrite (rz_total _ _ _ _ R1); done]|].
  intros [] s2 (l' & R2). apply runs_ret. split; [done|]. exists l'. destruct R1, R2. split; try congruence. intros b. by rewrite rz_in1.
Qed.

(** ** Adding *)

Definition range_ok (start cnt : Z) : Prop := 0 <= start /\ 0 < cnt < 2 ^ 32 /\ start + cnt < 2 ^ 64.

(** The range overlaps no zone but the one that holds its start. *)
Definition addable (l : list znode) (start cnt : Z) : Prop :=
  forall x, x ∈ l -> start_blk x.2 <= start < zend x.2 \/ apart start cnt x.2.

Record added (l : list znode) (s : zonefs) (start cnt r : Z) (s' : zonefs) : Prop := mk_added {
  ad_result : r = 0 /\ (exists l', zones l' s' /\ ztotal l' <= ztotal l + cnt /\ forall b, in_zone l' b <-> in_zone l b \/ start <= b < start + cnt) \/
    r = ENOMEM_zone /\ zones l s' /\ head (zone_allocs s) = Some false;
  ad_fails : ~ in_zone l start -> head (zone_allocs s) = Some false -> r = ENOMEM_zone;
  ad_allocs : zone_allocs s' = tail (zone_allocs s) \/ in_zone l start /\ zone_allocs s' = zone_allocs s;
  ad_error : s_last_error_block s' = s_last_error_block s;
  ad_errors : inode_errors s' = inode_errors s;
}.

Lemma zsorted_grow l1 n z l2 z' :
  zsorted 0 (l1 ++ (n, z) :: l2) -> start_blk z' = start_blk z -> zone_ok z' -> Forall (fun x => zend z' <= start_blk x.2) l2 ->
  zsorted 0 (l1 ++ (n, z') :: l2).
Proof.
  intros Hs E Ok Hf. destruct (zsorted_middle _ _ _ _ _ Hs) as (_ & S1 & S2 & Hlo & F1 & F2).
  apply zsorted_replace; [done|done|lia|by rewrite E|by eapply zsorted_tail].
Qed.

Lemma in_zone_grow l1 n z l2 z' b :
  (start_blk z <= b < zend z -> start_blk z' <= b < zend z') ->
  in_zone (l1 ++ (n, z') :: l2) b <-> in_zone (l1 ++ (n, z) :: l2) b \/ start_blk z' <= b < zend z'.
Proof. intros Hz. rewrite !in_zone_app, !in_zone_cons. cbn. tauto. Qed.

(** The start is in the zone of node [n]. *)
Lemma add_at_ok l1 n z l2 s start cnt :
  zones (l1 ++ (n, z) :: l2) s -> range_ok start cnt -> ztotal (l1 ++ (n, z) :: l2) + cnt < 2 ^ 32 -> addable (l1 ++ (n, z) :: l2) start cnt ->
  start_blk z <= start < zend z ->
  runs (entry <-- deref_zone n ;;
        (if zone_end entry <? u64 (start + cnt) then write_zone n (entry <| count := u32 (start + cnt - start_blk entry) |>) else ret tt) ;;; ret (Some n)) s
    (fun o s' => o = Some n /\ exists z', zones (l1 ++ (n, z') :: l2) s' /\
      ztotal (l1 ++ (n, z') :: l2) <= ztotal (l1 ++ (n, z) :: l2) + cnt /\
      (forall b, in_zone (l1 ++ (n, z') :: l2) b <-> in_zone (l1 ++ (n, z) :: l2) b \/ start <= b < start + cnt) /\
      zone_allocs s' = zone_allocs s /\ s_last_error_block s' = s_last_error_block s /\ inode_errors s' = inode_errors s).
Proof.
  intros Hz (Hr1 & Hr2 & Hr3) Ht Ha Hst. pose proof (zo_sorted _ _ Hz) as Hs. destruct (zsorted_middle _ _ _ _ _ Hs) as (Ok & S1 & S2 & Hlo & F1 & F2).
  pose proof Ok as [? ? ?]. rewrite ztotal_app in Ht. cbn in Ht. pose proof (ztotal_nonneg _ _ S1). pose proof (ztotal_nonneg _ _ S2).
  rstep. eapply runs_deref_zone; [done|apply mid_elem|]. rewrite (zone_end_ok z Ok), (wrap_small 64) by lia.
  destruct (Z.ltb_spec (zend z) (start + cnt)) as [Hlt|Hge].
  - unfold zend in *. rewrite wrap_small by lia. set (z' := z <| count := _ |>).
    assert (Es : start_blk z' = start_blk z /\ count z' = start + cnt - start_blk z) by (by destruct z). destruct Es as [Es Ec].
    assert (Hs' : zsorted 0 (l1 ++ (n, z') :: l2)).
    { eapply zsorted_grow; [done|done|split; unfold zend; lia|]. apply Forall_forall. intros x Hx. unfold zend. rewrite Es, Ec.
      rewrite Forall_forall in F2. specialize (F2 x Hx). destruct (Ha x) as [?|[?|?]]; [apply elem_of_app; right; by right|lia|lia|].
      destruct (zsorted_Forall _ _ S2) as [Fo _]. rewrite Forall_forall in Fo. destruct (Fo x Hx) as ([] & _). unfold zend in *. lia. }
    rstep. eapply write_zone_ok; [done|done|]. intros s' Hz'. apply runs_ret. split; [done|]. exists z'. split_and!; [done| | |by destruct s..].
    + rewrite !ztotal_app. cbn [ztotal snd]. rewrite Ec. lia.
    + intros b. rewrite (in_zone_grow l1 n z l2 z') by (unfold zend; lia). rewrite in_zone_app, in_zone_cons. cbn [snd]. unfold zend. rewrite Es, Ec.
      assert (start_blk z <= b < start_blk z + (start + cnt - start_blk z) <-> start_blk z <= b < start_blk z + count z \/ start <= b < start + cnt) by lia. tauto.
  - rstep. apply runs_ret, runs_ret. split; [done|]. exists z. split_and!; [done|lia| |done..].
    intros b. rewrite in_zone_app, in_zone_cons. cbn. assert (start <= b < start + cnt -> start_blk z <= b < zend z) by lia. tauto.
Qed.

(** The zone [z] got a new node between [l1] and [l2], or there was no memory. *)
Definition slotted (l1 l2 : list znode) (z : ext4_system_zone) (s : zonefs) (o : option nat) (s' : zonefs) : Prop :=
  zone_allocs s' = tail (zone_allocs s) /\ s_last_error_block s' = s_last_error_block s /\ inode_errors s' = inode_errors s /\
  match o with
  | Some n => zones (l1 ++ (n, z) :: l2) s' /\ head (zone_allocs s) <> Some false
  | None => zones (l1 ++ l2) s' /\ head (zone_allocs s) = Some false
  end.

Lemma add_slot_ok l1 l2 q s start cnt :
  zones (l1 ++ l2) s -> range_ok start cnt -> addable (l1 ++ l2) start cnt ->
  Forall (fun x => zend x.2 <= start) l1 -> Forall (fun x => start < start_blk x.2) l2 ->
  (forall x, inorder (rb_link_node q x (system_blks s)) = l1.*1 ++ x :: l2.*1) ->
  runs (n <-- alloc_zone (mk_zone start cnt) ;;
        match n with
        | None => ret None
        | Some n => modify (fun s => s <| system_blks ::= fun t => rb_insert_color n (rb_link_node q n t) |>) ;;; ret (Some n)
        end) s
    (slotted l1 l2 (mk_zone start cnt) s).
Proof.
  intros Hz (Hr1 & Hr2 & Hr3) Ha F1 F2 Hq. pose proof Hz as [Et Em Hnd Hf Hs]. unfold alloc_zone. rstep. rstep. rstep.
  assert (Hdone : forall s0, s0 = s <| zone_allocs := tail (zone_allocs s) |> -> head (zone_allocs s) <> Some false ->
    runs (n <-- gets zone_next ;; modify (fun s => s <| zone_mem ::= <[n := mk_zone start cnt]> |> <| zone_next := S n |>) ;;; ret (Some n)) s0 
      (fun o s1 => runs (match o with None => ret None | Some n => modify (fun s => s <| system_blks ::= fun t => rb_insert_color n (rb_link_node q n t) |>) ;;; ret (Some n) end) s1
        (slotted l1 l2 (mk_zone start cnt) s))).
  { intros s0 -> Hh. do 4 rstep. rstep. do 3 rstep. unfold slotted. split_and!; [by destruct s..| |done]. set (n := zone_next _). 
    assert (Hn : n ∉ (l1 ++ l2).*1) by (intros Hin%Hf; unfold n in Hin; destruct s; cbn in Hin; lia).
    assert (Hnd' : NoDup (l1 ++ (n, mk_zone start cnt) :: l2).*1) by (by apply nodup_middle).
    assert (S12 := Hs). apply zsorted_app in S12 as [S1 S2].
    destruct s. cbn in *. split; cbn.
    - rewrite rb_insert_color_law, Hq. by rewrite fmap_app.
    - by rewrite Em, zmap_middle.
    - done.
    - intros m Hm. rewrite <- Permutation_middle in Hm. cbn in Hm. apply elem_of_cons in Hm as [->|Hm%Hf]; [|lia]. unfold n. lia.
    - apply zsorted_replace; [done|split; unfold zend; cbn; lia|done|done|]. eapply zsorted_tail; [done|]. apply Forall_forall. intros x Hx.
      rewrite Forall_forall in F2. specialize (F2 x Hx). unfold zend. cbn. destruct (Ha x) as [?|[?|?]]; [apply elem_of_app; by right|lia|lia|].
      destruct (zsorted_Forall _ _ S2) as [Fo _]. rewrite Forall_forall in Fo. destruct (Fo x Hx) as ([] & _). unfold zend in *. lia. }
  destruct (zone_allocs s) as [|[] rest] eqn:Ea.
  - rstep. rstep. by apply Hdone.
  - rstep. rstep. by apply Hdone.
  - rstep. rstep. apply runs_ret, runs_ret. unfold slotted. rewrite Ea. split_and!; [by destruct s..|split; by destruct s|done].
Qed.

Lemma add_zone_ok l s start cnt :
  zones l s -> range_ok start cnt -> ztotal l + cnt < 2 ^ 32 -> addable l start cnt ->
  runs (add_system_zone start cnt) s (fun r s' => added l s start cnt r s').
Proof.
  intros Hz Hr Ht Ha. unfold add_system_zone. rstep. rstep. rstep.
  eapply runs_conseq; [apply (zone_walk_ok l s _ l 0); [done|done|apply Hz|apply Hz]|]. intros p s1 [-> Hp]. rstep. destruct p as [n|q].
  - destruct Hp as (l1 & z & l2 & -> & Hst). eapply runs_conseq; [by eapply add_at_ok|]. intros o s1 (-> & z' & Hz1 & Ht1 & Hin1 & A1 & A2 & A3).
    eapply runs_conseq; [apply merge_zones_ok; [done|lia]|]. intros r s2 (-> & l' & [R1 R2 R3 R4 R5 R6]).
    assert (Hi : in_zone (l1 ++ (n, z) :: l2) start) by (exists (n, z); split; [apply mid_elem|done]).
    split; [left; split; [done|]|done|right; split; [done|]; congruence|congruence|congruence].
    exists l'. split_and!; [done|lia|]. intros b. by rewrite R3.
  - destruct Hp as (l1 & l2 & -> & F1 & F2 & Hq). eapply runs_conseq; [by apply add_slot_ok|]. intros [n|] s1 (A1 & A2 & A3 & Hz1 & Hh).
    + assert (Et : ztotal (l1 ++ (n, mk_zone start cnt) :: l2) = ztotal (l1 ++ l2) + cnt) by (rewrite !ztotal_app; cbn; lia).
      eapply runs_conseq; [apply merge_zones_ok; [done|lia]|]. intros r s2 (-> & l' & [R1 R2 R3 R4 R5 R6]).
      split; [left; split; [done|]|done|left; congruence|congruence|congruence].
      exists l'. split_and!; [done|lia|]. intros b. rewrite R3, !in_zone_app, in_zone_cons. cbn. tauto.
    + apply runs_ret. split; [by right|done|by left|done|done].
Qed.
End merge.
