(* ===== verification/SystemZoneTheorems.v ===== *)
(** * mqfs: theorems on system zones

    Which blocks the zones of a file system keep from files, with and without
    memory for all of them. *)

From S2P Require Import Prelude Rbtree BlockGroup SystemZone SystemZoneFacts BlockGroupFacts BlockGroupTheorems.

(** ** Ranges of blocks *)

Definition in_ranges (L : list (Z * Z)) (b : Z) : Prop := exists r, r ∈ L /\ r.1 <= b < r.1 + r.2.

Definition ranges_apart (r r' : Z * Z) : Prop := r.1 + r.2 <= r'.1 \/ r'.1 + r'.2 <= r.1.

Fixpoint disjoint_ranges (L : list (Z * Z)) : Prop :=
  match L with
  | [] => True
  | r :: L => Forall (ranges_apart r) L /\ disjoint_ranges L
  end.

Fixpoint blocks_of (L : list (Z * Z)) : Z :=
  match L with [] => 0 | r :: L => r.2 + blocks_of L end.

Definition ranges_ok (L : list (Z * Z)) : Prop :=
  Forall (fun r => range_ok r.1 r.2) L /\ disjoint_ranges L /\ blocks_of L < 2 ^ 32.

Lemma blocks_of_app L1 L2 : blocks_of (L1 ++ L2) = blocks_of L1 + blocks_of L2.
Proof. induction L1 as [|r L1 IH]; cbn; [done|]. lia. Qed.

Lemma in_ranges_app L1 L2 b : in_ranges (L1 ++ L2) b <-> in_ranges L1 b \/ in_ranges L2 b.
Proof. unfold in_ranges. setoid_rewrite elem_of_app. naive_solver. Qed.

Lemma in_ranges_one r b : in_ranges [r] b <-> r.1 <= b < r.1 + r.2.
Proof. unfold in_ranges. setoid_rewrite list_elem_of_singleton. naive_solver. Qed.

Lemma disjoint_ranges_app L1 L2 : disjoint_ranges (L1 ++ L2) <->
  disjoint_ranges L1 /\ disjoint_ranges L2 /\ Forall (fun r => Forall (ranges_apart r) L2) L1.
Proof. induction L1 as [|r L1 IH]; cbn; [rewrite Forall_nil; tauto|]. rewrite Forall_app, Forall_cons, IH. tauto. Qed.

Lemma blocks_of_nonneg L : Forall (fun r => range_ok r.1 r.2) L -> 0 <= blocks_of L.
Proof. induction 1 as [|r L (_ & Hr & _) _ IH]; cbn; lia. Qed.

Lemma ranges_ok_prefix L1 L2 : ranges_ok (L1 ++ L2) -> ranges_ok L1.
Proof.
  intros ([H1 H1']%Forall_app & (H2 & _)%disjoint_ranges_app & H3). split_and!; [done|done|]. rewrite blocks_of_app in H3. pose proof (blocks_of_nonneg _ H1'). lia.
Qed.

(** What is left of the ranges when some are dropped. *)
Lemma ranges_sublist L1 L2 : L1 `sublist_of` L2 -> ranges_ok L2 -> ranges_ok L1.
Proof.
  intros Hsub (H1 & H2 & H3). assert (Hin : forall P : Z * Z -> Prop, Forall P L2 -> Forall P L1).
  { intros P. rewrite !Forall_forall. intros HP x Hx. apply HP. eapply elem_of_submseteq; [done|by apply sublist_submseteq]. }
  assert (H1' : Forall (fun r => range_ok r.1 r.2) L1) by auto. split_and!; [done| |].
  - clear H1 H1' H3 Hin. induction Hsub as [|x l1 l2 Hs IH|x l1 l2 Hs IH]; cbn in *; [done| |apply IH, H2].
    destruct H2 as [Hx H2]. split; [|by apply IH]. rewrite Forall_forall in *. intros y Hy. apply Hx. eapply elem_of_submseteq; [done|by apply sublist_submseteq].
  - enough (blocks_of L1 <= blocks_of L2) by lia. clear H2 H3 H1' Hin.
    induction Hsub as [|x l1 l2 Hs IH|x l1 l2 Hs IH]; cbn; [done|..]; apply Forall_cons in H1 as [(_ & Hx & _) H1]; specialize (IH H1); lia.
Qed.

Lemma zone_positive l s x : zones l s -> x ∈ l -> start_blk x.2 < zend x.2.
Proof.
  intros Hz Hx. destruct (zsorted_Forall _ _ (zo_sorted _ _ Hz)) as [Fo _]. rewrite Forall_forall in Fo. destruct (Fo x Hx) as ([] & _). unfold zend. lia.
Qed.

(** The zones of [s] are the blocks of the ranges [L]. *)
Definition zones_are (L : list (Z * Z)) (s : zonefs) : Prop :=
  exists l, zones l s /\ ztotal l <= blocks_of L /\ forall b, in_zone l b <-> in_ranges L b.

Section zones.
Context `{RbLaws} (sbi : ext4_sb_info).

(** No allocation will fail. *)
Definition memory (s : zonefs) : Prop := false ∉ zone_allocs s.

Definition run_out (s s' : zonefs) : Prop := memory s -> memory s'.

(** A range becomes part of the zones, or there was no memory for it. *)
Lemma add_range_ok L r s :
  zones_are L s -> ranges_ok (L ++ [r]) ->
  runs (add_system_zone r.1 r.2) s (fun e s' => run_out s s' /\
    (e = 0 /\ zones_are (L ++ [r]) s' \/ e = ENOMEM_zone /\ ~ memory s /\ zones_are L s')).
Proof.
  intros (l & Hz & Ht & Hin) (Hok & Hd & Hb). apply Forall_app in Hok as [Hok [Hr _]%Forall_cons].
  apply disjoint_ranges_app in Hd as (_ & _ & Hd). rewrite blocks_of_app in Hb. cbn in Hb.
  eapply runs_conseq; [apply (add_zone_ok l); [done|done|lia|]|].
  - intros x Hx. destruct (decide (start_blk x.2 <= r.1 < zend x.2)) as [?|Hst]; [by left|right].
    destruct (decide (r.1 + r.2 <= start_blk x.2)) as [?|H1]; [by left|]. destruct (decide (zend x.2 <= r.1)) as [?|H2]; [by right|]. exfalso.
    pose proof (zone_positive l s x Hz Hx). assert (Hx' : in_zone l (start_blk x.2)) by (exists x; split; [done|]; lia).
    apply Hin in Hx' as (r' & Hr' & Hb'). rewrite Forall_forall in Hd. specialize (Hd r' Hr'). apply Forall_cons in Hd as [Hd _].
    unfold ranges_apart in Hd. lia.
  - intros e s' [A1 _ A3 _ _]. split.
    + unfold run_out, memory. destruct A3 as [->|[_ ->]]; [|done]. intros Hm Hin'. apply Hm. destruct (zone_allocs s); [done|by right].
    + destruct A1 as [(-> & l' & Hz' & Ht' & Hin')|(-> & Hz' & Hf)]; [left|right].
      * split; [done|]. exists l'. split_and!; [done|rewrite blocks_of_app; cbn; lia|]. intros b. by rewrite Hin', in_ranges_app, in_ranges_one, Hin.
      * split_and!; [done| |by exists l]. unfold memory. intros Hm. apply Hm. destruct (zone_allocs s) as [|x ?]; [done|]. injection Hf as ->. left.
Qed.

(** ** The metadata of the groups *)

Context (group_desc : Z -> option ext4_group_desc) (gdp : Z -> ext4_group_desc).

(** The copy of the superblock and of the descriptors at the start of a group
    that has one. *)
Definition super_copy (i : Z) : list (Z * Z) :=
  if ext4_bg_has_super sbi i then [(ext4_group_first_block_no sbi i, u32 (ext4_bg_num_gdb sbi i + 1))] else [].

(** The copies that are guarded: of the first five groups, and of the first
    group of each flexible group. *)
Definition guarded (i : Z) : bool := (i <? 5) || (i mod ext4_flex_bg_size sbi =? 0).

Definition table_ranges (i : Z) : list (Z * Z) :=
  [(ext4_block_bitmap sbi (gdp i), 1); (ext4_inode_bitmap sbi (gdp i), 1); (ext4_inode_table sbi (gdp i), u32 (s_itb_per_group sbi))].

(** The bitmaps and inode tables of the groups, and the copies [keep] says. *)
Definition metadata_of (keep : Z -> bool) (groups : list Z) : list (Z * Z) :=
  flat_map (fun i => (if keep i then super_copy i else []) ++ table_ranges i) groups.

Definition all_groups : list Z := seqZ 0 (s_groups_count sbi).

(** All metadata of the file system. *)
Definition metadata : list (Z * Z) := metadata_of (fun _ => true) all_groups.

Definition descs_loaded : Prop := forall i, 0 <= i < s_groups_count sbi -> group_desc i = Some (gdp i).

Lemma metadata_sublist keep groups : metadata_of keep groups `sublist_of` metadata_of (fun _ => true) groups.
Proof.
  induction groups as [|i groups IH]; [done|]. cbn [metadata_of flat_map]. apply sublist_app; [|exact IH]. apply sublist_app; [|done].
  destruct (keep i); [done|apply sublist_nil_l].
Qed.

(** The copy of a group: guarded when it should be, if there is memory. *)
Lemma super_ok L i s :
  zones_are L s -> ranges_ok (L ++ super_copy i) -> ext4_flex_bg_size sbi <> 0 ->
  runs (if ext4_bg_has_super sbi i then
          check ((i <? 5) || negb (ext4_flex_bg_size sbi =? 0)) DivByZero ;;;
          if (i <? 5) || (i mod ext4_flex_bg_size sbi =? 0) then
            _ <-- add_system_zone (ext4_group_first_block_no sbi i) (u32 (ext4_bg_num_gdb sbi i + 1)) ;; ret tt
          else ret tt
        else ret tt) s (fun _ s' => run_out s s' /\ exists k : bool, (k = true -> guarded i = true) /\ (memory s -> k = guarded i) /\
          zones_are (L ++ if k then super_copy i else []) s').
Proof.
  intros Hz Hr Hf. unfold guarded. set (r0 := (ext4_group_first_block_no sbi i, u32 (ext4_bg_num_gdb sbi i + 1))).
  unfold super_copy in *. fold r0 in Hr |- *. destruct (ext4_bg_has_super sbi i).
  2:{ apply runs_ret. split; [by intros ?|]. exists ((i <? 5) || (i mod ext4_flex_bg_size sbi =? 0)). split_and!; [done|done|]. by destruct ((i <? 5) || (i mod ext4_flex_bg_size sbi =? 0)); rewrite app_nil_r. }
  rstep. apply runs_check; [by rewrite (proj2 (Z.eqb_neq _ _) Hf), orb_true_r|].
  destruct ((i <? 5) || (i mod ext4_flex_bg_size sbi =? 0)); [|apply runs_ret; split; [by intros ?|]; exists false; by rewrite app_nil_r].
  rstep. eapply runs_conseq; [by apply (add_range_ok L r0)|]. intros e s' [Ho [[_ Hz']|(_ & Hm & Hz')]]; apply runs_ret; (split; [done|]).
  - by exists true.
  - exists false. rewrite app_nil_r. by split_and!.
Qed.

(** How the rest of the body of the loop ends. *)
Definition group_end (L : list (Z * Z)) (s : zonefs) (o : option Z) (s' : zonefs) : Prop :=
  run_out s s' /\ (o = None /\ zones_are L s' \/ o = Some ENOMEM_zone /\ ~ memory s).

Lemma tables_ok L i s :
  zones_are L s -> ranges_ok (L ++ table_ranges i) -> group_desc i = Some (gdp i) ->
  runs (match group_desc i with
        | None => oops NullDeref
        | Some gdp =>
            r <-- add_system_zone (ext4_block_bitmap sbi gdp) 1 ;;
            if negb (r =? 0) then ret (Some r)
            else
              r <-- add_system_zone (ext4_inode_bitmap sbi gdp) 1 ;;
              if negb (r =? 0) then ret (Some r)
              else
                r <-- add_system_zone (ext4_inode_table sbi gdp) (u32 (s_itb_per_group sbi)) ;;
                if negb (r =? 0) then ret (Some r) else ret None
        end) s (group_end (L ++ table_ranges i) s).
Proof.
  intros Hz Hr ->. unfold table_ranges in *. set (r1 := (ext4_block_bitmap sbi (gdp i), 1)) in *. set (r2 := (ext4_inode_bitmap sbi (gdp i), 1)) in *.
  set (r3 := (ext4_inode_table sbi (gdp i), u32 (s_itb_per_group sbi))) in *.
  change [r1; r2; r3] with ([r1] ++ [r2] ++ [r3]) in *. rewrite !app_assoc in *. pose proof (ranges_ok_prefix _ _ Hr) as Hr2. pose proof (ranges_ok_prefix _ _ Hr2) as Hr1.
  rstep. eapply runs_conseq; [by apply (add_range_ok L r1)|]. intros e s1 [O1 [[-> Hz1]|(-> & Hm & _)]]; cbn [negb Z.eqb].
  2:{ apply runs_ret. split; [done|right; by split]. }
  rstep. eapply runs_conseq; [by apply (add_range_ok (L ++ [r1]) r2)|]. intros e s2 [O2 [[-> Hz2]|(-> & Hm & _)]]; cbn [negb Z.eqb].
  2:{ apply runs_ret. split; [unfold run_out in *; auto|right; split; [done|]; intros ?; auto]. }
  rstep. eapply runs_conseq; [by apply (add_range_ok ((L ++ [r1]) ++ [r2]) r3)|]. intros e s3 [O3 [[-> Hz3]|(-> & Hm & _)]]; apply runs_ret.
  - split; [unfold run_out in *; auto|by left].
  - split; [unfold run_out in *; auto|right; split; [done|]; intros ?; auto].
Qed.

(** How the set-up ends: out of memory, or with the zones of all bitmaps and
    inode tables and of guarded copies; of all of them, if there was memory. *)
Definition setup_end (L : list (Z * Z)) (groups : list Z) (s : zonefs) (r : Z) (s' : zonefs) : Prop :=
  r = ENOMEM_zone /\ ~ memory s \/
  r = 0 /\ exists keep, (forall i, keep i = true -> guarded i = true) /\ (memory s -> forall i, keep i = guarded i) /\
    zones_are (L ++ metadata_of keep groups) s'.

Lemma metadata_ext keep keep' groups : (forall i, i ∈ groups -> keep i = keep' i) -> metadata_of keep groups = metadata_of keep' groups.
Proof.
  induction groups as [|i groups IH]; intros He; [done|]. cbn [metadata_of flat_map]. rewrite (He i) by left. f_equal. apply IH.
  intros j Hj. apply He. by right.
Qed.

Lemma setup_loop_ok L groups s :
  zones_are L s -> ranges_ok (L ++ metadata_of (fun _ => true) groups) -> ext4_flex_bg_size sbi <> 0 -> NoDup groups ->
  (forall i, i ∈ groups -> group_desc i = Some (gdp i)) ->
  runs (setup_loop sbi group_desc groups (ext4_flex_bg_size sbi)) s (setup_end L groups s).
Proof.
  intros Hz Hr Hf Hnd Hg. revert L s Hz Hr. induction groups as [|i groups IH]; intros L s Hz Hr; cbn [setup_loop] in *.
  { apply runs_ret. right. split; [done|]. exists guarded. split_and!; [done|done|]. by rewrite app_nil_r. }
  apply NoDup_cons in Hnd as [Hni Hnd]. change (metadata_of (fun _ => true) (i :: groups)) with ((super_copy i ++ table_ranges i) ++ metadata_of (fun _ => true) groups) in Hr.
  rewrite !app_assoc in *. pose proof (ranges_ok_prefix _ _ Hr) as Hr2. pose proof (ranges_ok_prefix _ _ Hr2) as Hr1.
  rstep. unfold setup_group. rstep. eapply runs_conseq; [by apply (super_ok L)|]. intros [] s1 (O1 & k & Hk & Hkm & Hz1).
  set (L1 := L ++ (if k then super_copy i else [])) in *.
  assert (Hsub : forall M, L1 ++ M `sublist_of` (L ++ super_copy i) ++ M).
  { intros M. unfold L1. apply sublist_app; [|done]. apply sublist_app; [done|]. destruct k; [done|apply sublist_nil_l]. }
  eapply runs_conseq; [apply (tables_ok L1 i); [done| |apply Hg; left]|].
  { eapply ranges_sublist; [apply Hsub|exact Hr2]. }
  intros o s2 [O2 [[-> Hz2]|[-> Hm]]]; [|apply runs_ret; left; split; [done|]; intros ?; auto].
  eapply runs_conseq; [apply (IH Hnd); [intros j Hj; apply Hg; by right|done|]|].
  { eapply ranges_sublist; [|exact Hr]. rewrite <- !app_assoc, (app_assoc L). apply Hsub. }
  intros r s3 [[-> Hm]|(-> & keep & Hkp & Hkpm & Hz3)]; [left; split; [done|]; intros ?; auto|right]. split; [done|].
  exists (fun j => if decide (j = i) then k else keep j). split_and!.
  - intros j. case_decide; [subst; done|apply Hkp].
  - intros Hm j. case_decide; [subst; auto|]. apply Hkpm. auto.
  - cbn [metadata_of flat_map]. rewrite decide_True by done. fold (metadata_of (fun j => if decide (j = i) then k else keep j) groups).
    rewrite (metadata_ext _ keep groups) by (intros j Hj; rewrite decide_False; [done|congruence]).
    unfold L1 in Hz3. by rewrite !app_assoc.
Qed.

(** ** The check *)

(** The blocks are on the device behind its first block, and in no range of [L]. *)
Definition data_range (L : list (Z * Z)) (start cnt : Z) : Prop :=
  s_first_data_block sbi < start /\ start + cnt <= ext4_blocks_count sbi /\ forall b, start <= b < start + cnt -> ~ in_ranges L b.

Lemma data_block_valid_ok L s start cnt :
  zones_are L s -> 0 <= s_first_data_block sbi -> ext4_blocks_count sbi < 2 ^ 64 -> 0 <= start < 2 ^ 64 -> 0 < cnt < 2 ^ 32 ->
  runs (ext4_data_block_valid sbi start cnt) s (fun ok s' =>
    (ok = true <-> data_range L start cnt) /\ s' = if ok then s else s <| s_last_error_block := start |>).
Proof.
  intros (l & Hz & _ & Hin) Hf Hb Hs Hc. unfold ext4_data_block_valid, data_range.
  destruct (Z.leb_spec start (s_first_data_block sbi)); cbn [orb]; [rstep; rstep; apply runs_ret; split; [split; [done|lia]|done]|].
  assert (Hw : u64 (start + cnt) = start + cnt \/ 2 ^ 64 <= start + cnt /\ u64 (start + cnt) = start + cnt - 2 ^ 64).
  { destruct (decide (start + cnt < 2 ^ 64)); [left; apply wrap_small; lia|right]. split; [lia|]. unfold wrap. symmetry. apply Z.mod_unique with 1; lia. }
  destruct (Z.ltb_spec (u64 (start + cnt)) start); cbn [orb]; [rstep; rstep; apply runs_ret; split; [split; [done|lia]|done]|].
  destruct (Z.ltb_spec (ext4_blocks_count sbi) (u64 (start + cnt))); [rstep; rstep; apply runs_ret; split; [split; [done|lia]|done]|].
  rstep. rstep. eapply runs_conseq; [apply (valid_walk_ok l s _ l 0); [done|done|apply Hz|apply Hz|lia..]|].
  intros [] s' [-> Hw']; (split; [|done]).
  - split; [intros _|done]. split_and!; [done|lia|]. intros b Hb' (x & Hx & Hxb)%Hin. rewrite Forall_forall in Hw'. specialize (Hw' x Hx). unfold apart in Hw'. lia.
  - split; [done|]. intros (_ & _ & Hno). exfalso. apply Exists_exists in Hw' as (x & Hx & Hap). unfold apart in Hap.
    apply (Hno (Z.max start (start_blk x.2))); [lia|]. apply Hin. exists x. split; [done|].
    pose proof (zone_positive l s x Hz Hx). lia.
Qed.

(** The tree is empty. *)
Definition no_zones (s : zonefs) : Prop := system_blks s = RbNull /\ zone_mem s = ∅.

Lemma no_zones_are s : no_zones s -> zones_are [] s.
Proof.
  intros [E1 E2]. exists []. split_and!; [|done|]; [|intros b; split; [intros []%in_zone_nil|by intros (r & []%elem_of_nil & _)]].
  split; [by rewrite E1|done|constructor|by intros n []%elem_of_nil|done].
Qed.

(** C19: The set-up of the zones of a file system whose metadata does not
    overlap returns 0 or, when an allocation fails, -ENOMEM.  When it returns 0, a
    range of blocks is found valid for a file exactly when it is on the device
    behind its first block and holds none of: the block bitmap, the inode bitmap
    and the inode table of every group, and the copies of superblock and
    descriptors of certain groups.  With memory for every zone these are the
    groups with a copy among the first five and at the start of flexible groups; the
    other copies are never guarded, and a copy whose zone could not be
    allocated is not either. *)
Theorem data_blocks_avoid_metadata s :
  no_zones s -> ext4_flex_bg_size sbi <> 0 -> descs_loaded -> ranges_ok metadata ->
  0 <= s_first_data_block sbi -> ext4_blocks_count sbi < 2 ^ 64 ->
  runs (ext4_setup_system_zone sbi group_desc true) s (fun r s' =>
    r = ENOMEM_zone /\ ~ memory s \/
    r = 0 /\ exists keep, (forall i, keep i = true -> guarded i = true) /\ (memory s -> forall i, keep i = guarded i) /\
      forall start cnt, 0 <= start < 2 ^ 64 -> 0 < cnt < 2 ^ 32 ->
      runs (ext4_data_block_valid sbi start cnt) s' (fun ok s'' =>
        (ok = true <-> data_range (metadata_of keep all_groups) start cnt) /\
        s'' = if ok then s' else s' <| s_last_error_block := start |>)).
Proof.
  intros Hn Hf Hd Hr Hb1 Hb2. unfold ext4_setup_system_zone. rstep. rstep. rewrite (proj1 Hn). cbn [negb].
  eapply runs_conseq; [apply (setup_loop_ok []); [by apply no_zones_are|done|done|apply NoDup_seqZ|]|].
  { intros i Hi%elem_of_seqZ. apply Hd. lia. }
  intros r s' [[-> Hm]|(-> & keep & Hk & Hkm & Hz)]; [by left|right]. split; [done|]. exists keep. split_and!; [done|done|].
  intros start cnt Hs Hc. by apply data_block_valid_ok.
Qed.

(** When there is no memory for the zone of the first superblock, the set-up
    succeeds all the same, and the blocks of the group descriptors are found
    valid for files. *)
Theorem superblock_zone_lost s :
  no_zones s -> zone_allocs s = [false] -> ext4_flex_bg_size sbi <> 0 -> descs_loaded -> ranges_ok metadata -> 0 < s_groups_count sbi ->
  0 <= s_first_data_block sbi -> ext4_blocks_count sbi < 2 ^ 64 ->
  runs (ext4_setup_system_zone sbi group_desc true) s (fun r s' => r = 0 /\
    forall b, s_first_data_block sbi < b < s_first_data_block sbi + u32 (ext4_bg_num_gdb sbi 0 + 1) -> b < ext4_blocks_count sbi ->
    runs (ext4_data_block_valid sbi b 1) s' (fun ok _ => ok = true)).
Proof.
  intros Hn Ha Hf Hd Hr Hg Hb1 Hb2. unfold ext4_setup_system_zone. rstep. rstep. rewrite (proj1 Hn). cbn [negb].
  assert (E0 : seqZ 0 (s_groups_count sbi) = 0 :: seqZ 1 (s_groups_count sbi - 1)) by (rewrite seqZ_cons by lia; done).
  unfold metadata, all_groups in Hr. rewrite E0 in *. cbn [setup_loop] in *. set (groups := seqZ 1 _) in *.
  set (r0 := (ext4_group_first_block_no sbi 0, u32 (ext4_bg_num_gdb sbi 0 + 1))). set (rest := table_ranges 0 ++ metadata_of (fun _ => true) groups).
  change (metadata_of (fun _ => true) (0 :: groups)) with (r0 :: rest) in Hr. destruct Hr as ([Hr0 Hok]%Forall_cons & [Hd0 Hdis] & Hbl). cbn [blocks_of] in Hbl.
  assert (Hrest : ranges_ok rest) by (split_and!; [done|done|destruct Hr0 as (_ & ? & _); lia]).
  rstep. unfold setup_group. rstep. change (ext4_bg_has_super sbi 0) with true. change (0 <? 5) with true. cbn [orb]. rstep. apply runs_check; [done|]. rstep.
  destruct (no_zones_are _ Hn) as (l & Hz & Ht & Hin). assert (El : forall b, ~ in_zone l b) by (intros b (r & []%elem_of_nil & _)%Hin).
  eapply runs_conseq; [apply (add_zone_ok l s r0.1 r0.2 Hz Hr0)|].
  { cbn in Ht. pose proof (blocks_of_nonneg _ (proj1 Hrest)). lia. }
  { intros x Hx. exfalso. apply (El (start_blk x.2)). exists x. split; [done|]. pose proof (zone_positive l s x Hz Hx). lia. }
  intros e s1 [A1 A2 A3 _ _]. rewrite Ha in *. rewrite (A2 (El _) eq_refl) in A1. destruct A1 as [[[=] _]|(_ & Hz1 & _)].
  destruct A3 as [Ha1|[[]%El _]]. apply runs_ret. pose proof (ranges_ok_prefix _ _ Hrest) as Hr1.
  assert (Hm1 : memory s1) by (unfold memory; rewrite Ha1; apply not_elem_of_nil).
  assert (Hz1' : zones_are [] s1) by (by exists l).
  eapply runs_conseq; [apply (tables_ok [] 0); [done|done|apply Hd; lia]|]. intros o s2 [O2 [[-> Hz2]|[_ []]]]; [|done].
  eapply runs_conseq; [apply (setup_loop_ok (table_ranges 0)); [done|done|done|apply NoDup_seqZ|]|].
  { intros i Hi%elem_of_seqZ. apply Hd. lia. }
  intros r s' [[_ []]|(-> & keep & _ & _ & Hz')]; [by apply O2|]. split; [done|]. intros b Hb Hbc.
  eapply runs_conseq; [apply (data_block_valid_ok _ s' b 1 Hz'); [done|done|lia|lia]|]. intros ok s'' [Hv _]. apply Hv.
  split_and!; [lia|lia|]. intros b' Hb' (r & Hr & Hrb). rewrite Forall_forall in Hd0.
  assert (Hr' : r ∈ rest).
  { eapply elem_of_submseteq; [exact Hr|]. apply sublist_submseteq, sublist_app; [done|apply metadata_sublist]. }
  specialize (Hd0 r Hr'). unfold ranges_apart in Hd0. cbn in Hd0.
  assert (E1 : ext4_group_first_block_no sbi 0 = s_first_data_block sbi) by (unfold ext4_group_first_block_no; apply wrap_small; lia). lia.
Qed.

(** The references of an indirect block are checked in order, holes apart: all
    are blocks of files, or the first that is not is reported and returned as
    the last error. *)
Theorem blockref_reports_first_bad L refs s :
  zones_are L s -> 0 <= s_first_data_block sbi -> ext4_blocks_count sbi < 2 ^ 64 -> Forall (fun b => 0 <= b < 2 ^ 32) refs ->
  runs (ext4_check_blockref sbi refs) s (fun r s' =>
    r = 0 /\ s' = s /\ Forall (fun b => b = 0 \/ data_range L b 1) refs \/
    r = EFSCORRUPTED /\ exists good b rest, refs = good ++ b :: rest /\ Forall (fun b => b = 0 \/ data_range L b 1) good /\ b <> 0 /\ ~ data_range L b 1 /\
      s' = s <| s_last_error_block := b |> <| inode_errors ::= (.++ [b]) |>).
Proof.
  intros Hz Hf Hb. induction refs as [|b refs IH]; intros Hr; cbn [ext4_check_blockref].
  { apply runs_ret. left. split_and!; [done|done|constructor]. }
  apply Forall_cons in Hr as [Hr0 Hr].
  assert (Hgo : b = 0 \/ data_range L b 1 -> runs (ext4_check_blockref sbi refs) s (fun r s' =>
    r = 0 /\ s' = s /\ Forall (fun b => b = 0 \/ data_range L b 1) (b :: refs) \/
    r = EFSCORRUPTED /\ exists good b' rest, b :: refs = good ++ b' :: rest /\ Forall (fun b => b = 0 \/ data_range L b 1) good /\ b' <> 0 /\ ~ data_range L b' 1 /\
      s' = s <| s_last_error_block := b' |> <| inode_errors ::= (.++ [b']) |>)).
  { intros Hb0. eapply runs_conseq; [by apply IH|]. intros r s' [(-> & -> & Hall)|(-> & good & b' & rest & -> & Hg & Hrest)]; [left; split_and!; [done|done|by constructor]|right].
    split; [done|]. exists (b :: good), b', rest. split_and!; [done|by constructor|apply Hrest..]. }
  rstep. destruct (Z.eqb_spec b 0) as [E0|E0]; [rstep; cbn [negb]; apply Hgo; by left|].
  eapply runs_conseq; [apply (data_block_valid_ok L s b 1); [done|done|done|lia|lia]|]. intros [] s' [Hv ->]; cbn [negb]; [apply Hgo; right; by apply Hv|].
  rstep. rstep. apply runs_ret. right. split; [done|]. exists [], b, refs. split_and!; [done|constructor|done|by intros ?%Hv|by destruct s].
Qed.

(** Without the option the tree is emptied, and every node freed. *)
Theorem zones_are_released L s :
  zones_are L s -> runs (ext4_setup_system_zone sbi group_desc false) s (fun r s' => r = 0 /\ no_zones s').
Proof.
  intros (l & Hz & _). pose proof (zo_tree _ _ Hz) as Et. pose proof (zo_mem _ _ Hz) as Em.
  assert (Hrel : runs ext4_release_system_zone s (fun _ s' => no_zones s')).
  { unfold ext4_release_system_zone. rstep. rstep. rstep. rewrite Et.
    set (gone := fun (dn : list nat) s' => forall n, zone_mem s' !! n = None \/ (n ∉ dn) /\ zone_mem s' !! n = zone_mem s !! n).
    apply (runs_conseq _ _ (fun _ s' => gone l.*1 s')).
    - apply (runs_for_each gone); [intros n; right; split; [apply not_elem_of_nil|done]|].
      intros dn m rest s1 _ IH. apply runs_modify. intros n. specialize (IH n). destruct s1. cbn in *.
      destruct (decide (n = m)) as [->|Hn]; [left; apply lookup_delete_eq|]. rewrite lookup_delete_ne by done.
      destruct IH as [?|[? ?]]; [by left|right; split; [|done]]. by intros [?|?%list_elem_of_singleton]%elem_of_app.
    - intros [] s1 H1. apply runs_modify. split; [by destruct s1|]. apply map_empty. intros n. specialize (H1 n).
      destruct s1. cbn in *. destruct H1 as [?|[? ->]]; [done|]. rewrite Em. by apply zmap_fresh. }
  unfold ext4_setup_system_zone. rstep. rstep. cbn [negb]. rstep. destruct (system_blks s) eqn:Es.
  - apply runs_ret, runs_ret. split; [done|]. split; [done|]. destruct l; [done|]. done.
  - eapply runs_conseq; [done|]. intros [] s' Hs'. by apply runs_ret.
Qed.
End zones.

(** ** The file system of three groups *)

Definition zone_gdp (i : Z) : ext4_group_desc :=
  mk_gdp (512 * i + 3) 0 (512 * i + 4) 0 (512 * i + 5) 0 248 0 64 0 2 0 0.
Definition zone_desc (i : Z) : option ext4_group_desc := Some (zone_gdp i).

Definition zones0 : zonefs := mk_zonefs RbNull ∅ 0 [] 0 [].

Lemma metadata0 : metadata sbi0 zone_gdp =
  [(1, 2); (3, 1); (4, 1); (5, 8); (513, 2); (515, 1); (516, 1); (517, 8); (1027, 1); (1028, 1); (1029, 8)].
Proof. vm_compute. reflexivity. Qed.

Lemma metadata0_ok : ranges_ok (metadata sbi0 zone_gdp).
Proof.
  rewrite metadata0. split_and!; [|cbn|reflexivity].
  - repeat (constructor; [unfold range_ok; cbn; lia|]). constructor.
  - split_and!; try done; repeat (constructor; [unfold ranges_apart; cbn; lia|]); constructor.
Qed.

Lemma descs0 : descs_loaded sbi0 zone_desc zone_gdp.
Proof. done. Qed.

Lemma data_range0 start cnt : 12 < start -> start + cnt <= 513 -> data_range sbi0 (metadata sbi0 zone_gdp) start cnt.
Proof.
  intros H1 H2. split_and!; [cbn; lia|change (ext4_blocks_count sbi0) with 1400; lia|]. intros b Hb (r & Hr & Hrb). rewrite metadata0 in Hr.
  repeat (apply elem_of_cons in Hr as [->|Hr]; [cbn in Hrb; lia|]). by apply elem_of_nil in Hr.
Qed.

(** There is memory; the groups 0 and 1 have a copy, both guarded. *)
Lemma data_blocks_avoid_metadata_witness :
  runs (ext4_setup_system_zone sbi0 zone_desc true) zones0 (fun r s => r = 0 /\
    runs (ext4_data_block_valid sbi0 13 500) s (fun ok _ => ok = true) /\
    runs (ext4_data_block_valid sbi0 13 501) s (fun ok s' => ok = false /\ s_last_error_block s' = 13)).
Proof.
  eapply runs_conseq.
  - apply (data_blocks_avoid_metadata sbi0 zone_desc zone_gdp zones0);
      [split; reflexivity|vm_compute; congruence|exact descs0|exact metadata0_ok|vm_compute; congruence|reflexivity].
  - assert (Hm : memory zones0) by (intros []%elem_of_nil).
    intros r s [[_ Hno]|(-> & keep & _ & Hk & Hv)]; [destruct (Hno Hm)|]. specialize (Hk Hm).
    assert (E : metadata_of sbi0 zone_gdp keep (all_groups sbi0) = metadata sbi0 zone_gdp)
      by (apply metadata_ext; intros i Hi%elem_of_seqZ; rewrite (Hk i); change (s_groups_count sbi0) with 3 in Hi; unfold guarded; by rewrite (proj2 (Z.ltb_lt i 5)) by lia).
    rewrite E in Hv. split_and!; [reflexivity| |].
    + eapply runs_conseq; [apply (Hv 13 500); lia|]. intros ok s' [Hi _]. apply Hi, data_range0; lia.
    + eapply runs_conseq; [apply (Hv 13 501); lia|]. intros ok s' [Hi ->]. destruct ok; [exfalso|by destruct s].
      destruct (proj1 Hi eq_refl) as (_ & _ & Hno). apply (Hno 513); [lia|]. rewrite metadata0. exists (513, 2). split; [set_solver|cbn; lia].
Defined.

Lemma superblock_zone_lost_witness :
  runs (ext4_setup_system_zone sbi0 zone_desc true) (zones0 <| zone_allocs := [false] |>) (fun r s => r = 0 /\
    runs (ext4_data_block_valid sbi0 2 1) s (fun ok _ => ok = true)).
Proof.
  eapply runs_conseq.
  - apply (superblock_zone_lost sbi0 zone_desc zone_gdp);
      [split; reflexivity|reflexivity|vm_compute; congruence|exact descs0|exact metadata0_ok|reflexivity|vm_compute; congruence|reflexivity].
  - intros r s [-> Hv]. split; [reflexivity|]. apply Hv; [vm_compute; split; reflexivity|reflexivity].
Defined.

Lemma blockref_reports_first_bad_witness :
  runs (ext4_check_blockref sbi0 [0; 20; 1; 30]) zones0 (fun r s => r = EFSCORRUPTED /\ inode_errors s = [1]).
Proof.
  eapply runs_conseq.
  - apply (blockref_reports_first_bad sbi0 [] [0; 20; 1; 30] zones0);
      [apply no_zones_are; split; reflexivity|vm_compute; congruence|reflexivity|repeat (constructor; [lia|]); constructor].
  - assert (H20 : data_range sbi0 [] 20 1) by (split_and!; [reflexivity|vm_compute; congruence|intros b _ (r & []%elem_of_nil & _)]).
    assert (H1 : ~ data_range sbi0 [] 1 1) by (intros [H1 _]; discriminate H1).
    intros r s [(_ & _ & Hall)|(-> & good & b & rest & E & Hg & Hb0 & Hb & ->)].
    + exfalso. rewrite Forall_forall in Hall. destruct (Hall 1) as [?|?]; [set_solver|lia|done].
    + split; [reflexivity|]. destruct good as [|? [|? [|? good]]]; simplify_eq/=; [done..|].
      exfalso. rewrite Forall_forall in Hg. destruct (Hg 1) as [?|?]; [set_solver|lia|done].
Defined.
