(* ===== verification/Buddy.v ===== *)
(** * mqfs: the buddy bitmaps of a block group (mballoc.c)

    The allocator keeps for each group a copy of its bitmap and one block with
    the bitmaps of the orders 1, 2, ...: a clear bit [i] of order [o] stands for
    a free chunk of [2^o] clusters that begins at cluster [i * 2^o].  The state
    is what a [struct ext4_buddy] points to.  Signed counters stay far below
    their width and are not wrapped.  The debugging copies of DOUBLE_CHECK and
    AGGRESSIVE_CHECK are not built. *)

From S2P Require Import Prelude BlockGroup.

(** The fields of [ext4_group_info] that describe the free space. *)
Record mb_group_info := mk_mgi {
  grp_need_init : bool;
  grp_corrupt : bool;                (* EXT4_MB_GRP_BBITMAP_CORRUPT *)
  bb_first_free : Z;
  bb_free : Z;
  bb_fragments : Z;
  bb_largest_free_order : Z;
  bb_counters : list Z;
}.
#[export] Instance mb_group_info_eta : Eta mb_group_info := fun g =>
  mk_mgi (grp_need_init g) (grp_corrupt g) (bb_first_free g) (bb_free g) (bb_fragments g) (bb_largest_free_order g) (bb_counters g).

Record ext4_buddy := mk_e4b {
  bd_bitmap : bitmap;
  bd_buddy : bitmap;
  bd_info : mb_group_info;
  mb_freeclusters : Z;               (* its share of s_freeclusters_counter *)
  s_mb_buddies_generated : Z;        (* its share of that counter *)
  grp_errors : list Z;               (* blocks reported by ext4_grp_locked_error *)
}.
#[export] Instance ext4_buddy_eta : Eta ext4_buddy := fun e =>
  mk_e4b (bd_bitmap e) (bd_buddy e) (bd_info e) (mb_freeclusters e) (s_mb_buddies_generated e) (grp_errors e).

Record ext4_free_extent := mk_ex {
  fe_logical : Z;
  fe_start : Z;
  fe_group : Z;
  fe_len : Z;
}.
#[export] Instance ext4_free_extent_eta : Eta ext4_free_extent := fun e =>
  mk_ex (fe_logical e) (fe_start e) (fe_group e) (fe_len e).

(** ** Bits

    An address is one of the two blocks and a byte in it; both blocks are
    aligned in memory. *)

Inductive mb_block := BdBitmap | BdBuddy.
#[export] Instance mb_block_eq : EqDecision mb_block.
Proof. solve_decision. Defined.
Abbreviation mb_addr := (mb_block * Z)%type.

Definition block_bits (m : mb_block) (e : ext4_buddy) : bitmap :=
  match m with BdBitmap => bd_bitmap e | BdBuddy => bd_buddy e end.

Definition upd_bits (m : mb_block) (f : bitmap -> bitmap) (e : ext4_buddy) : ext4_buddy :=
  match m with BdBitmap => e <| bd_bitmap ::= f |> | BdBuddy => e <| bd_buddy ::= f |> end.

(** [ext4_test_bit], [ext4_set_bit] and [ext4_clear_bit] at an address. *)
Definition test_bit_at (bit : Z) (addr : mb_addr) : M ext4_buddy bool := fun e =>
  let i := 8 * addr.2 + bit in
  match (if i <? 0 then None else block_bits addr.1 e !! Z.to_nat i) with
  | Some b => Ret b e
  | None => Oops OutOfBounds
  end.
Definition write_bit_at (v : bool) (bit : Z) (addr : mb_addr) : M ext4_buddy unit :=
  _ <-- test_bit_at bit addr ;;
  modify (upd_bits addr.1 (<[Z.to_nat (8 * addr.2 + bit) := v]>)).

Definition mb_correct_addr_and_bit (bit : Z) (addr : mb_addr) : Z * mb_addr :=
  (bit + Z.shiftl (Z.land addr.2 7) 3, (addr.1, Z.ldiff addr.2 7)).

Definition mb_test_bit (bit : Z) (addr : mb_addr) : M ext4_buddy bool :=
  let '(bit, addr) := mb_correct_addr_and_bit bit addr in test_bit_at bit addr.
Definition mb_set_bit (bit : Z) (addr : mb_addr) : M ext4_buddy unit :=
  let '(bit, addr) := mb_correct_addr_and_bit bit addr in write_bit_at true bit addr.
Definition mb_clear_bit (bit : Z) (addr : mb_addr) : M ext4_buddy unit :=
  let '(bit, addr) := mb_correct_addr_and_bit bit addr in write_bit_at false bit addr.
Definition mb_test_and_clear_bit (bit : Z) (addr : mb_addr) : M ext4_buddy bool :=
  let '(bit, addr) := mb_correct_addr_and_bit bit addr in
  b <-- test_bit_at bit addr ;; write_bit_at false bit addr ;;; ret b.

(** The first set bit from [i] on below [size], or [size]. *)
Definition ext4_find_next_bit (bm : bitmap) (size i : Z) : Z := ext4_find_next_zero_bit (negb <$> bm) size i.

(** The bits from an address on; [size] of them are read. *)
Definition bits_from (addr : mb_addr) (size : Z) : M ext4_buddy bitmap := fun e =>
  let bits := block_bits addr.1 e in
  if (0 <=? addr.2) && (8 * addr.2 + size <=? Z.of_nat (length bits)) then Ret (drop (Z.to_nat (8 * addr.2)) bits) e else Oops OutOfBounds.

Definition mb_find_next_zero_bit (addr : mb_addr) (max start : Z) : M ext4_buddy Z :=
  let '(fix_, addr) := mb_correct_addr_and_bit 0 addr in
  let tmpmax := max + fix_ in
  bits <-- bits_from addr tmpmax ;;
  let r := ext4_find_next_zero_bit bits tmpmax (start + fix_) - fix_ in
  ret (if max <? r then max else r).
Definition mb_find_next_bit (addr : mb_addr) (max start : Z) : M ext4_buddy Z :=
  let '(fix_, addr) := mb_correct_addr_and_bit 0 addr in
  let tmpmax := max + fix_ in
  bits <-- bits_from addr tmpmax ;;
  let r := ext4_find_next_bit bits tmpmax (start + fix_) - fix_ in
  ret (if max <? r then max else r).

(** A 32-bit word: [addr = bm + (cur >> 3)]. *)
Definition word_at (bm : mb_addr) (cur : Z) : mb_addr := (bm.1, bm.2 + Z.shiftr cur 3).
Definition read_word (addr : mb_addr) : M ext4_buddy bitmap := bits <-- bits_from addr 32 ;; ret (take 32 bits).
Definition write_word (v : bool) (addr : mb_addr) : M ext4_buddy unit :=
  _ <-- bits_from addr 32 ;;
  modify (upd_bits addr.1 (list_inserts (Z.to_nat (8 * addr.2)) (replicate 32 v))).

(** The fast path of the three loops is taken. *)
Definition whole_word (cur stop : Z) : bool := (Z.land cur 31 =? 0) && (32 <=? stop - cur).

Fixpoint clear_loop (fuel : nat) (bm : mb_addr) (cur stop : Z) : M ext4_buddy unit :=
  match fuel with
  | O => stall
  | S fuel =>
      if stop <=? cur then ret tt
      else if whole_word cur stop then write_word false (word_at bm cur) ;;; clear_loop fuel bm (cur + 32) stop
      else mb_clear_bit cur bm ;;; clear_loop fuel bm (cur + 1) stop
  end.
Definition mb_clear_bits (bm : mb_addr) (cur len : Z) : M ext4_buddy unit := clear_loop (S (Z.to_nat len)) bm cur (cur + len).

Fixpoint test_clear_loop (fuel : nat) (bm : mb_addr) (cur stop zero_bit : Z) : M ext4_buddy Z :=
  match fuel with
  | O => stall
  | S fuel =>
      if stop <=? cur then ret zero_bit
      else if whole_word cur stop then
        w <-- read_word (word_at bm cur) ;;
        zero_bit <-- (if negb (forallb id w) && (zero_bit =? -1)
                      then z <-- mb_find_next_zero_bit (word_at bm cur) 32 0 ;; ret (cur + z) else ret zero_bit) ;;
        write_word false (word_at bm cur) ;;;
        test_clear_loop fuel bm (cur + 32) stop zero_bit
      else
        b <-- mb_test_and_clear_bit cur bm ;;
        test_clear_loop fuel bm (cur + 1) stop (if negb b && (zero_bit =? -1) then cur else zero_bit)
  end.
Definition mb_test_and_clear_bits (bm : mb_addr) (cur len : Z) : M ext4_buddy Z :=
  test_clear_loop (S (Z.to_nat len)) bm cur (cur + len) (-1).

Fixpoint set_loop (fuel : nat) (bm : mb_addr) (cur stop : Z) : M ext4_buddy unit :=
  match fuel with
  | O => stall
  | S fuel =>
      if stop <=? cur then ret tt
      else if whole_word cur stop then write_word true (word_at bm cur) ;;; set_loop fuel bm (cur + 32) stop
      else mb_set_bit cur bm ;;; set_loop fuel bm (cur + 1) stop
  end.
Definition ext4_set_bits (bm : mb_addr) (cur len : Z) : M ext4_buddy unit := set_loop (S (Z.to_nat len)) bm cur (cur + len).

(** ** Orders *)

Section buddy.
Context (sbi : ext4_sb_info) (bd_group : Z).

#[local] Abbreviation bd_blkbits := (s_blocksize_bits sbi).

(** The loop of [ext4_mb_init]: where the bits of each order are, in bytes, and
    how many there are. *)
Fixpoint mb_table (fuel : nat) (i offset offset_incr max : Z) : list (Z * Z) :=
  match fuel with
  | O => []
  | S fuel =>
      (wrap 16 offset, max) ::
      (if i + 1 <=? bd_blkbits + 1
       then mb_table fuel (i + 1) (u32 (offset + offset_incr)) (Z.shiftr offset_incr 1) (Z.shiftr max 1) else [])
  end.
Definition ext4_mb_init_tables : list (Z * Z) :=
  (0, u32 (Z.shiftl (s_blocksize sbi) 3)) ::
  mb_table (Z.to_nat (bd_blkbits + 1)) 1 0 (u32 (Z.shiftl 1 (bd_blkbits - 1))) (u32 (Z.shiftl (s_blocksize sbi) 2)).

(** [sbi->s_mb_offsets] and [sbi->s_mb_maxs]. *)
Definition mb_order (order : Z) : M ext4_buddy (Z * Z) :=
  match (if order <? 0 then None else ext4_mb_init_tables !! Z.to_nat order) with
  | Some t => ret t
  | None => oops OutOfBounds
  end.

(** The address of the bits of an order, if there is one, and their number. *)
Definition mb_find_buddy (order : Z) : M ext4_buddy (option mb_addr * Z) :=
  if bd_blkbits + 1 <? order then ret (None, 0)
  else if order =? 0 then ret (Some (BdBitmap, 0), Z.shiftl 1 (bd_blkbits + 3))
  else t <-- mb_order order ;; ret (Some (BdBuddy, t.1), t.2).

(** A use of the address that is not tested. *)
Definition mb_the_buddy (order : Z) : M ext4_buddy (mb_addr * Z) :=
  b <-- mb_find_buddy order ;;
  match b with (Some a, max) => ret (a, max) | (None, _) => oops NullDeref end.

Definition upd_info (f : mb_group_info -> mb_group_info) : M ext4_buddy unit := modify (fun e => e <| bd_info ::= f |>).
Definition info {A} (f : mb_group_info -> A) : M ext4_buddy A := gets (fun e => f (bd_info e)).

(** [bb_counters[order] += d]. *)
Definition add_counter (order d : Z) : M ext4_buddy unit :=
  c <-- info bb_counters ;;
  check ((0 <=? order) && (order <? Z.of_nat (length c))) OutOfBounds ;;;
  upd_info (fun g => g <| bb_counters ::= alter (fun k => k + d) (Z.to_nat order) |>).

Fixpoint find_order_loop (fuel : nat) (order block bb bb_incr : Z) : M ext4_buddy Z :=
  match fuel with
  | O => stall
  | S fuel =>
      if bd_blkbits + 1 <? order then ret 0
      else
        let block := Z.shiftr block 1 in
        b <-- mb_test_bit block (BdBuddy, bb) ;;
        if negb b then ret order
        else find_order_loop fuel (order + 1) block (bb + bb_incr) (Z.shiftr bb_incr 1)
  end.
Definition mb_find_order_for_block (block : Z) : M ext4_buddy Z :=
  check (block <? Z.shiftl 1 (bd_blkbits + 3)) BugOn ;;;
  find_order_loop (Z.to_nat (bd_blkbits + 2)) 1 block 0 (Z.shiftl 1 (bd_blkbits - 1)).

(** ** Counters and flags of the group *)

Fixpoint largest_loop (fuel : nat) (i : Z) : M ext4_buddy unit :=
  match fuel with
  | O => ret tt
  | S fuel =>
      c <-- info bb_counters ;;
      match c !! Z.to_nat i with
      | None => oops OutOfBounds
      | Some k => if 0 <? k then upd_info (fun g => g <| bb_largest_free_order := i |>) else largest_loop fuel (i - 1)
      end
  end.
Definition mb_set_largest_free_order : M ext4_buddy unit :=
  upd_info (fun g => g <| bb_largest_free_order := -1 |>) ;;;
  largest_loop (Z.to_nat (bd_blkbits + 2)) (bd_blkbits + 1).

(** [ext4_mark_group_bitmap_corrupted(sb, group, EXT4_GROUP_INFO_BBITMAP_CORRUPT)] *)
Definition mark_bbitmap_corrupted : M ext4_buddy unit :=
  g <-- info id ;;
  upd_info (fun g => g <| grp_corrupt := true |>) ;;;
  if grp_corrupt g then ret tt else modify (fun e => e <| mb_freeclusters ::= fun c => c - bb_free g |>).

Definition ext4_grp_locked_error (blocknr : Z) : M ext4_buddy unit := modify (fun e => e <| grp_errors ::= (.++ [blocknr]) |>).

(** ** Building the buddy from the bitmap *)

(** The positions of the lowest and of the highest set bit, from 1. *)
Fixpoint ctz (p : positive) : Z := match p with xO p => 1 + ctz p | _ => 0 end.
Definition ffs (x : Z) : Z := match x with Z0 => 0 | Zpos p | Zneg p => ctz p + 1 end.
Definition fls (x : Z) : Z := if x <=? 0 then 0 else Z.log2 x + 1.

Fixpoint mark_free_loop (fuel : nat) (first len : Z) : M ext4_buddy unit :=
  match fuel with
  | O => stall
  | S fuel =>
      if len <=? 0 then ret tt
      else
        let border := Z.shiftl 2 bd_blkbits in
        let max := ffs (Z.lor first border) - 1 in
        let min := fls len - 1 in
        let min := if max <? min then max else min in
        let chunk := Z.shiftl 1 min in
        add_counter min 1 ;;;
        (if 0 <? min then t <-- mb_order min ;; mb_clear_bit (Z.shiftr first min) (BdBuddy, t.1) else ret tt) ;;;
        mark_free_loop fuel (first + chunk) (len - chunk)
  end.
Definition ext4_mb_mark_free_simple (first len : Z) : M ext4_buddy unit :=
  check (len <=? s_clusters_per_group sbi) BugOn ;;;
  mark_free_loop (S (Z.to_nat len)) first len.

(** The free runs of the bitmap: the number of free clusters and of runs. *)
Fixpoint generate_loop (fuel : nat) (i free fragments : Z) : M ext4_buddy (Z * Z) :=
  let max := s_clusters_per_group sbi in
  match fuel with
  | O => stall
  | S fuel =>
      if max <=? i then ret (free, fragments)
      else
        let first := i in
        i <-- mb_find_next_bit (BdBitmap, 0) max i ;;
        let len := i - first in
        (if 1 <? len then ext4_mb_mark_free_simple first len else add_counter 0 1) ;;;
        i <-- (if i <? max then mb_find_next_zero_bit (BdBitmap, 0) max i else ret i) ;;
        generate_loop fuel i (u32 (free + len)) (u32 (fragments + 1))
  end.

Definition ext4_mb_generate_buddy : M ext4_buddy unit :=
  let max := s_clusters_per_group sbi in
  i <-- mb_find_next_zero_bit (BdBitmap, 0) max 0 ;;
  upd_info (fun g => g <| bb_first_free := i |>) ;;;
  r <-- generate_loop (S (Z.to_nat max)) i 0 0 ;;
  let '(free, fragments) := r in
  upd_info (fun g => g <| bb_fragments := fragments |>) ;;;
  bfree <-- info bb_free ;;
  (if negb (free =? bfree) then
     ext4_grp_locked_error 0 ;;;
     upd_info (fun g => g <| bb_free := free |>) ;;;
     mark_bbitmap_corrupted
   else ret tt) ;;;
  mb_set_largest_free_order ;;;
  upd_info (fun g => g <| grp_need_init := false |>) ;;;
  modify (fun e => e <| s_mb_buddies_generated ::= fun n => n + 1 |>).

(** The block of the buddy in [ext4_mb_init_cache], when its bitmap is there. *)
Definition mb_init_cache_buddy : M ext4_buddy unit :=
  upd_info (fun g => g <| bb_fragments := 0 |> <| bb_counters ::= fun c => replicate (length c) 0 |>) ;;;
  modify (fun e => e <| bd_buddy := replicate (Z.to_nat (8 * s_blocksize sbi)) true |>) ;;;
  ext4_mb_generate_buddy.

Fixpoint regenerate_loop (fuel : nat) (order : Z) : M ext4_buddy unit :=
  match fuel with
  | O => stall
  | S fuel =>
      b <-- mb_find_buddy order ;;
      match b with
      | (Some buddy, count) => ext4_set_bits buddy 0 count ;;; regenerate_loop fuel (order + 1)
      | (None, _) => ret tt
      end
  end.
Definition mb_regenerate_buddy : M ext4_buddy unit :=
  regenerate_loop (Z.to_nat (bd_blkbits + 2)) 1 ;;;
  upd_info (fun g => g <| bb_fragments := 0 |> <| bb_counters ::= fun c => replicate (length c) 0 |>) ;;;
  ext4_mb_generate_buddy.

(** ** Freeing *)

(** The change of the counter, and the new border. *)
Definition mb_buddy_adjust_border (bit : Z) (buddy : mb_addr) (side : Z) : M ext4_buddy (Z * Z) :=
  b <-- mb_test_bit (bit + side) buddy ;;
  if b : bool then mb_clear_bit bit buddy ;;; ret (1, bit - side)
  else mb_set_bit (bit + side) buddy ;;; ret (-1, bit + side).

Definition adjust (order border : Z) (buddy : mb_addr) (side : Z) : M ext4_buddy Z :=
  r <-- mb_buddy_adjust_border border buddy side ;;
  add_counter order r.1 ;;; ret r.2.

Fixpoint buddy_free_loop (fuel : nat) (buddy : mb_addr) (order first last : Z) : M ext4_buddy unit :=
  match fuel with
  | O => stall
  | S fuel =>
      first <-- (if Z.odd first then adjust order first buddy (-1) else ret first) ;;
      last <-- (if Z.odd last then ret last else adjust order last buddy 1) ;;
      if last <? first then ret tt
      else
        let finish := mb_clear_bits buddy first (last - first + 1) ;;; add_counter order (last - first + 1) in
        if first =? last then finish
        else
          b <-- mb_find_buddy (order + 1) ;;
          match b with
          | (None, _) => finish
          | (Some buddy2, _) => buddy_free_loop fuel buddy2 (order + 1) (Z.shiftr first 1) (Z.shiftr last 1)
          end
  end.
Definition mb_buddy_mark_free (first last : Z) : M ext4_buddy unit :=
  b <-- mb_find_buddy 1 ;;
  match b with
  | (None, _) => ret tt
  | (Some buddy, _) => buddy_free_loop (Z.to_nat (bd_blkbits + 1)) buddy 1 first last
  end.

(** Bits 0 of the borders: alone, or with the free neighbour. *)
Definition free_borders (first last : Z) (left_is_free right_is_free : bool) : M ext4_buddy unit :=
  first <-- (if Z.odd first then add_counter 0 (if left_is_free then -1 else 1) ;;; ret (if left_is_free then first else first + 1) else ret first) ;;
  last <-- (if Z.odd last then ret last else add_counter 0 (if right_is_free then -1 else 1) ;;; ret (if right_is_free then last else last - 1)) ;;
  if first <=? last then mb_buddy_mark_free (Z.shiftr first 1) (Z.shiftr last 1) else ret tt.

Definition mb_free_blocks (first count : Z) : M ext4_buddy unit :=
  let last := first + count - 1 in
  if count =? 0 then ret tt
  else
    check (last <? Z.shiftl (s_blocksize sbi) 3) BugOn ;;;
    corrupt <-- info grp_corrupt ;;
    if corrupt : bool then ret tt
    else
      upd_info (fun g => g <| bb_free ::= fun k => k + count |>) ;;;
      upd_info (fun g => g <| bb_first_free ::= fun k => if first <? k then first else k |>) ;;;
      left_is_free <-- (if negb (first =? 0) then b <-- mb_test_bit (first - 1) (BdBitmap, 0) ;; ret (negb b) else ret false) ;;
      block <-- mb_test_and_clear_bits (BdBitmap, 0) first count ;;
      maxs <-- mb_order 0 ;;
      right_is_free <-- (if last + 1 <? maxs.2 then b <-- mb_test_bit (last + 1) (BdBitmap, 0) ;; ret (negb b) else ret false) ;;
      (if negb (block =? -1) then
         ext4_grp_locked_error (u64 (ext4_group_first_block_no sbi bd_group + EXT4_C2B sbi block)) ;;;
         mark_bbitmap_corrupted ;;;
         mb_regenerate_buddy
       else
         upd_info (fun g => g <| bb_fragments ::= fun k =>
           if left_is_free && right_is_free then k - 1 else if negb left_is_free && negb right_is_free then k + 1 else k |>) ;;;
         free_borders first last left_is_free right_is_free) ;;;
      mb_set_largest_free_order.

(** ** Finding and using *)

Fixpoint extent_loop (fuel : nat) (order block needed : Z) (ex : ext4_free_extent) : M ext4_buddy ext4_free_extent :=
  match fuel with
  | O => stall
  | S fuel =>
      if needed <=? fe_len ex then ret ex
      else
        b <-- mb_find_buddy order ;;
        match b with
        | (None, _) => ret ex
        | (Some _, max) =>
            if max <=? block + 1 then ret ex
            else
              let next := (block + 1) * Z.shiftl 1 order in
              b <-- mb_test_bit next (BdBitmap, 0) ;;
              if b : bool then ret ex
              else
                order <-- mb_find_order_for_block next ;;
                extent_loop fuel order (Z.shiftr next order) needed (ex <| fe_len ::= fun k => k + Z.shiftl 1 order |>)
        end
  end.

Definition mb_find_extent (block needed : Z) (ex : ext4_free_extent) : M ext4_buddy ext4_free_extent :=
  let none (ex : ext4_free_extent) := ex <| fe_len := 0 |> <| fe_start := 0 |> <| fe_group := 0 |> in
  b <-- mb_the_buddy 0 ;;
  let '(buddy, max) := b in
  check (block <? max) BugOn ;;;
  busy <-- mb_test_bit block buddy ;;
  if busy : bool then ret (none ex)
  else
    order <-- mb_find_order_for_block block ;;
    let blk := Z.shiftr block order in
    let next := block - Z.shiftl blk order in
    ex <-- extent_loop (S (Z.to_nat max)) order blk needed
             (ex <| fe_len := Z.shiftl 1 order - next |> <| fe_start := Z.shiftl blk order + next |> <| fe_group := bd_group |>) ;;
    ret (if Z.shiftl 1 (bd_blkbits + 3) <? fe_start ex + fe_len ex then none ex else ex).

Fixpoint use_loop (fuel : nat) (start len ret_ : Z) : M ext4_buddy Z :=
  match fuel with
  | O => stall
  | S fuel =>
      if len =? 0 then ret ret_
      else
        ord <-- mb_find_order_for_block start ;;
        if (Z.shiftl (Z.shiftr start ord) ord =? start) && (Z.shiftl 1 ord <=? len) then
          let mlen := Z.shiftl 1 ord in
          b <-- mb_the_buddy ord ;;
          let '(buddy, max) := b in
          check (Z.shiftr start ord <? max) BugOn ;;;
          mb_set_bit (Z.shiftr start ord) buddy ;;;
          add_counter ord (-1) ;;;
          check (0 <=? len - mlen) BugOn ;;;
          use_loop fuel (start + mlen) (len - mlen) ret_
        else
          let ret_ := if ret_ =? 0 then Z.lor len (Z.shiftl ord 16) else ret_ in
          check (0 <? ord) BugOn ;;;
          b <-- mb_the_buddy ord ;;
          mb_set_bit (Z.shiftr start ord) b.1 ;;;
          add_counter ord (-1) ;;;
          let ord := ord - 1 in
          let cur := Z.ldiff (Z.shiftr start ord) 1 in
          b <-- mb_the_buddy ord ;;
          mb_clear_bit cur b.1 ;;;
          mb_clear_bit (cur + 1) b.1 ;;;
          add_counter ord 1 ;;;
          add_counter ord 1 ;;;
          use_loop fuel start len ret_
  end.

Definition mb_mark_used (ex : ext4_free_extent) : M ext4_buddy Z :=
  let start := fe_start ex in
  let len := fe_len ex in
  check (start + len <=? Z.shiftl (s_blocksize sbi) 3) BugOn ;;;
  check (bd_group =? fe_group ex) BugOn ;;;
  upd_info (fun g => g <| bb_free ::= fun k => k - len |>) ;;;
  upd_info (fun g => g <| bb_first_free ::= fun k => if k =? start then k + len else k |>) ;;;
  mlen <-- (if negb (start =? 0) then b <-- mb_test_bit (start - 1) (BdBitmap, 0) ;; ret (negb b) else ret false) ;;
  maxs <-- mb_order 0 ;;
  max <-- (if start + len <? maxs.2 then b <-- mb_test_bit (start + len) (BdBitmap, 0) ;; ret (negb b) else ret false) ;;
  upd_info (fun g => g <| bb_fragments ::= fun k => if mlen && max then k + 1 else if negb mlen && negb max then k - 1 else k |>) ;;;
  r <-- use_loop (S (Z.to_nat ((len + 1) * (bd_blkbits + 3)))) start len 0 ;;
  mb_set_largest_free_order ;;;
  ext4_set_bits (BdBitmap, 0) start len ;;;
  ret r.
End buddy.
