(* ===== verification/BuddyChunks.v ===== *)
(** * mqfs: free space as maximal chunks

    What the buddy bitmaps stand for, without the bitmaps: the free clusters of
    a group are a function [f]; the chunk [i] of order [o] is the [2^o] clusters
    from [i * 2^o] on.  A free cluster is in exactly one free chunk that no
    larger free chunk contains. *)

From S2P Require Import Prelude.

(** ** Counting *)

Definition cnt (p : Z -> bool) (m : Z) : Z := Z.of_nat (length (base.filter (fun i => p i = true) (seqZ 0 m))).

Lemma cnt_ext p q m : (forall i, 0 <= i < m -> p i = q i) -> cnt p m = cnt q m.
Proof.
  intros E. unfold cnt. do 2 f_equal. apply list_filter_ext. intros i Hi%elem_of_seqZ. rewrite E by lia. done.
Qed.


Lemma cnt_split p m j : 0 <= j < m -> cnt p m = cnt p j + Z.b2z (p j) + Z.of_nat (length (base.filter (fun i => p i = true) (seqZ (j + 1) (m - j - 1)))).
Proof.
  intros Hj. unfold cnt. replace m with (j + (m - j)) at 1 by lia. rewrite seqZ_app by lia. rewrite (seqZ_cons (0 + j)) by lia.
  rewrite filter_app, length_app, filter_cons. replace (Z.succ (0 + j)) with (j + 1) by lia. replace (Z.pred (m - j)) with (m - j - 1) by lia.
  replace (0 + j) with j by lia. destruct (p j); [rewrite decide_True by done|rewrite decide_False by done]; cbn [length Z.b2z]; lia.
Qed.

(** One value changes. *)
Lemma cnt_upd p q m j : 0 <= j < m -> (forall i, 0 <= i < m -> i <> j -> p i = q i) -> cnt p m = cnt q m + Z.b2z (p j) - Z.b2z (q j).
Proof.
  intros Hj E. rewrite (cnt_split p m j Hj), (cnt_split q m j Hj). rewrite (cnt_ext p q j) by (intros i Hi; apply E; lia).
  assert (Hr : base.filter (fun i => p i = true) (seqZ (j + 1) (m - j - 1)) = base.filter (fun i => q i = true) (seqZ (j + 1) (m - j - 1))).
  { apply list_filter_ext. intros i Hi%elem_of_seqZ. rewrite E by lia. done. }
  rewrite Hr. lia.
Qed.

(** A range of values changes. *)
Lemma cnt_range p q m a b :
  0 <= a -> a <= b -> b <= m -> (forall i, 0 <= i < m -> ~ (a <= i < b) -> p i = q i) -> (forall i, a <= i < b -> p i = true /\ q i = false) ->
  cnt p m = cnt q m + (b - a).
Proof.
  intros Ha Hab Hb. replace b with (a + Z.of_nat (Z.to_nat (b - a))) in * by lia. generalize dependent (Z.to_nat (b - a)). clear b.
  intros d _ Hd. revert p Hd. induction d as [|d IH]; intros p Hd E Hr.
  { rewrite (cnt_ext p q) by (intros i Hi; apply E; lia). lia. }
  set (p' := fun i => if i =? a + Z.of_nat d then false else p i).
  rewrite (cnt_upd p p' m (a + Z.of_nat d)); [|lia|intros i Hi Hne; unfold p'; by rewrite (proj2 (Z.eqb_neq _ _))].
  unfold p' at 2. rewrite Z.eqb_refl. destruct (Hr (a + Z.of_nat d) ltac:(lia)) as [-> Hq]. rewrite (IH p'); [cbn; lia|lia| |].
  - intros i Hi Hn. unfold p'. destruct (Z.eqb_spec i (a + Z.of_nat d)) as [->|Hne]; [done|]. apply E; lia.
  - intros i Hi. unfold p'. rewrite (proj2 (Z.eqb_neq _ _)) by lia. apply Hr. lia.
Qed.

Lemma cnt_pos p m : 0 < cnt p m <-> exists i, 0 <= i < m /\ p i = true.
Proof.
  unfold cnt. split.
  - intros Hl. destruct (base.filter _ _) as [|i l] eqn:E; [done|]. assert (Hi : i ∈ base.filter (fun i => p i = true) (seqZ 0 m)) by (rewrite E; left).
    apply list_elem_of_filter in Hi as [Hp Hi%elem_of_seqZ]. exists i. split; [lia|done].
  - intros (i & Hi & Hp). assert (Hin : i ∈ base.filter (fun i => p i = true) (seqZ 0 m)) by (apply list_elem_of_filter; split; [done|apply elem_of_seqZ; lia]).
    destruct (base.filter _ _); [by apply elem_of_nil in Hin|cbn; lia].
Qed.

Lemma cnt_bound p m : 0 <= m -> 0 <= cnt p m <= m.
Proof. intros Hm. unfold cnt. pose proof (length_filter (fun i => p i = true) (seqZ 0 m)) as Hl. rewrite length_seqZ in Hl. lia. Qed.

(** ** Chunks *)

Lemma div_pow_succ b o : 0 <= o -> b / 2 ^ o / 2 = b / 2 ^ (o + 1).
Proof. intros Ho. rewrite Z.div_div by lia. by rewrite Z.pow_add_r by lia. Qed.

Lemma div_pow_add b o d : 0 <= o -> 0 <= d -> b / 2 ^ o / 2 ^ d = b / 2 ^ (o + d).
Proof. intros Ho Hd. rewrite Z.div_div by lia. by rewrite Z.pow_add_r by lia. Qed.

(** Cluster [b] is in chunk [i] of order [o]. *)
Lemma in_chunk b o i : 0 <= o -> i * 2 ^ o <= b < (i + 1) * 2 ^ o <-> b / 2 ^ o = i.
Proof.
  intros Ho. pose proof (Z.pow_pos_nonneg 2 o ltac:(lia) Ho) as Hp. split.
  - intros Hb. symmetry. apply Z.div_unique with (b - i * 2 ^ o); lia.
  - intros <-. pose proof (Z.mul_div_le b _ Hp). pose proof (Z.mul_succ_div_gt b _ Hp). lia.
Qed.

Definition allfree (f : Z -> bool) (o i : Z) : bool := forallb f (seqZ (i * 2 ^ o) (2 ^ o)).

Lemma allfree_spec f o i : 0 <= o -> allfree f o i = true <-> forall b, b / 2 ^ o = i -> f b = true.
Proof.
  intros Ho. unfold allfree. rewrite forallb_forall. split.
  - intros H b Hb. apply H, list_elem_of_In, elem_of_seqZ. apply in_chunk in Hb; [lia|done].
  - intros H b Hb. apply H. apply list_elem_of_In, elem_of_seqZ in Hb. apply in_chunk; lia.
Qed.

Lemma allfree_false f o i : 0 <= o -> allfree f o i = false <-> exists b, b / 2 ^ o = i /\ f b = false.
Proof.
  intros Ho. split.
  - intros H. unfold allfree in H. assert (Hex : exists b, b ∈ seqZ (i * 2 ^ o) (2 ^ o) /\ f b = false).
    { revert H. induction (seqZ (i * 2 ^ o) (2 ^ o)) as [|x l IH]; cbn; [done|]. destruct (f x) eqn:E; cbn; [|intros _; exists x; split; [left|done]].
      intros (b & Hb & Hf)%IH. exists b. split; [by right|done]. }
    destruct Hex as (b & Hb%elem_of_seqZ & Hf). exists b. split; [apply in_chunk; lia|done].
  - intros (b & Hb & Hf). apply not_true_iff_false. intros H. rewrite allfree_spec in H by done. rewrite H in Hf by done. done.
Qed.

Lemma allfree_0 f i : allfree f 0 i = f i.
Proof.
  apply eq_true_iff_eq. rewrite allfree_spec by lia. change (2 ^ 0) with 1. split; [intros Hf; apply Hf, Z.div_1_r|].
  intros Hf b Hb. rewrite Z.div_1_r in Hb. by subst.
Qed.

Lemma allfree_ext f g o i : 0 <= o -> (forall b, b / 2 ^ o = i -> f b = g b) -> allfree f o i = allfree g o i.
Proof.
  intros Ho E. destruct (allfree g o i) eqn:Eg.
  - apply allfree_spec; [done|]. intros b Hb. rewrite E by done. by apply (proj1 (allfree_spec g o i Ho)).
  - apply allfree_false; [done|]. apply allfree_false in Eg as (b & Hb & Hf); [|done]. exists b. rewrite E by done. done.
Qed.

Lemma allfree_mono f g o i : 0 <= o -> (forall b, f b = true -> g b = true) -> allfree f o i = true -> allfree g o i = true.
Proof. intros Ho E H. apply allfree_spec; [done|]. intros b Hb. apply E. by apply (proj1 (allfree_spec f o i Ho)). Qed.

(** A part of a free chunk is free. *)
Lemma allfree_part f o o' b : 0 <= o <= o' -> allfree f o' (b / 2 ^ o') = true -> allfree f o (b / 2 ^ o) = true.
Proof.
  intros Ho Hf. rewrite allfree_spec in Hf by lia. apply allfree_spec; [lia|]. intros x Hx. apply Hf.
  replace o' with (o + (o' - o)) by lia. rewrite <- !div_pow_add by lia. by rewrite Hx.
Qed.

Lemma allfree_split f o k : 0 <= o -> allfree f (o + 1) k = allfree f o (2 * k) && allfree f o (2 * k + 1).
Proof.
  intros Ho. apply eq_true_iff_eq. rewrite andb_true_iff, !allfree_spec by lia. split.
  - intros H. split; intros b Hb; apply H; rewrite <- div_pow_succ by lia; rewrite Hb; Z.to_euclidean_division_equations; lia.
  - intros [H1 H2] b Hb. rewrite <- div_pow_succ in Hb by lia.
    destruct (decide (b / 2 ^ o = 2 * k)); [by apply H1|]. apply H2. pose proof (Z.div_mod (b / 2 ^ o) 2 ltac:(lia)). pose proof (Z.mod_pos_bound (b / 2 ^ o) 2 ltac:(lia)). lia.
Qed.

(** The sibling of a chunk. *)
Definition sib (i : Z) : Z := if Z.odd i then i - 1 else i + 1.

Lemma odd_cases i : Z.odd i = true /\ i = 2 * (i / 2) + 1 \/ Z.odd i = false /\ i = 2 * (i / 2).
Proof. rewrite <- Z.div2_div. pose proof (Z.div2_odd i) as E. destruct (Z.odd i); cbn [Z.b2z] in E; [left|right]; split; try done; lia. Qed.

Lemma allfree_parent f o i : 0 <= o -> allfree f (o + 1) (i / 2) = allfree f o i && allfree f o (sib i).
Proof.
  intros Ho. rewrite allfree_split by done. unfold sib. destruct (odd_cases i) as [[-> E]|[-> E]].
  - rewrite andb_comm. f_equal; f_equal; lia.
  - f_equal; f_equal; lia.
Qed.

Section chunks.
Context (n top : Z) (Hn : 0 <= top < n).

Definition inside (f : Z -> bool) : Prop := forall b, f b = true -> 0 <= b < 2 ^ n.

(** A free chunk that is in no larger one. *)
Definition chunk (f : Z -> bool) (o i : Z) : bool :=
  allfree f o i && ((o =? top) || negb (allfree f (o + 1) (i / 2))).

Lemma chunk_allfree f o i : chunk f o i = true -> allfree f o i = true.
Proof. unfold chunk. intros [H _]%andb_true_iff. exact H. Qed.

Lemma chunk_below f o i : 0 <= o -> o <> top -> chunk f o i = allfree f o i && negb (allfree f o (sib i)).
Proof.
  intros Ho Hne. unfold chunk. rewrite (proj2 (Z.eqb_neq _ _)) by done. rewrite allfree_parent by done. cbn [orb]. destruct (allfree f o i); done.
Qed.

Lemma chunk_top f i : chunk f top i = allfree f top i.
Proof. unfold chunk. by rewrite Z.eqb_refl, andb_true_r. Qed.

Lemma chunk_unique f o o' b :
  0 <= o <= top -> 0 <= o' <= top -> chunk f o (b / 2 ^ o) = true -> chunk f o' (b / 2 ^ o') = true -> o = o'.
Proof.
  assert (Hgen : forall o o', 0 <= o <= top -> 0 <= o' <= top -> chunk f o (b / 2 ^ o) = true -> chunk f o' (b / 2 ^ o') = true -> ~ o < o').
  { clear o o'. intros o o' Ho Ho' H1 H2 Hlt. apply chunk_allfree in H2. unfold chunk in H1. apply andb_true_iff in H1 as [_ H1].
    rewrite (proj2 (Z.eqb_neq _ _)) in H1 by lia. cbn in H1. rewrite div_pow_succ in H1 by lia.
    rewrite (allfree_part f (o + 1) o') in H1 by (done || lia). done. }
  intros Ho Ho' H1 H2. pose proof (Hgen o o' Ho Ho' H1 H2). pose proof (Hgen o' o Ho' Ho H2 H1). lia.
Qed.

(** A free chunk is in a maximal one. *)
Lemma chunk_exists f o b : 0 <= o <= top -> allfree f o (b / 2 ^ o) = true -> exists o', o <= o' <= top /\ chunk f o' (b / 2 ^ o') = true.
Proof.
  intros Ho. replace o with (top - Z.of_nat (Z.to_nat (top - o))) in * by lia. generalize dependent (Z.to_nat (top - o)). clear o. intros d. induction d as [|d IH]; intros Ho Hf.
  - exists top. split; [lia|]. replace (top - Z.of_nat 0) with top in Hf by lia. by rewrite chunk_top.
  - set (o := top - Z.of_nat (S d)) in *. destruct (chunk f o (b / 2 ^ o)) eqn:Ec; [exists o; split; [lia|done]|].
    unfold chunk in Ec. rewrite Hf, (proj2 (Z.eqb_neq _ _)) in Ec by lia. cbn in Ec. apply negb_false_iff in Ec. rewrite div_pow_succ in Ec by lia.
    replace (o + 1) with (top - Z.of_nat d) in Ec by lia. destruct IH as (o' & Ho' & Hc); [lia|done|]. exists o'. split; [lia|done].
Qed.

Lemma chunk_inside f o i : inside f -> 0 <= o <= top -> allfree f o i = true -> 0 <= i < 2 ^ (n - o).
Proof.
  intros Hi Ho Hf. rewrite allfree_spec in Hf by lia. pose proof (Z.pow_pos_nonneg 2 o ltac:(lia) ltac:(lia)).
  assert (H0 : 0 <= i * 2 ^ o < 2 ^ n) by (apply Hi, Hf, Z.div_mul; lia).
  replace n with ((n - o) + o) in H0 by lia. rewrite Z.pow_add_r in H0 by lia. nia.
Qed.

(** ** Freeing a range, level by level

    At order [o] the chunks [a] to [b] are free in [f'] and were not in [f];
    the others are as they were. *)

Definition gained (f f' : Z -> bool) (o a b : Z) : Prop :=
  forall i, allfree f' o i = allfree f o i || ((a <=? i) && (i <=? b)) /\ (a <= i <= b -> allfree f o i = false).

(** The new left and right border, and the chunks of this order. *)
Definition left_border (d : Z -> bool) (a : Z) : Z := if Z.odd a then if d (a - 1) then a - 1 else a + 1 else a.
Definition right_border (d : Z -> bool) (b : Z) : Z := if Z.odd b then b else if d (b + 1) then b + 1 else b - 1.
Definition left_bits (d : Z -> bool) (a : Z) : Z -> bool :=
  if Z.odd a then if d (a - 1) then <[a - 1 := false]> d else <[a := true]> d else d.
Definition right_bits (d : Z -> bool) (b : Z) : Z -> bool :=
  if Z.odd b then d else if d (b + 1) then <[b + 1 := false]> d else <[b := true]> d.

Lemma fn_upd {A} (d : Z -> A) j v i : <[j := v]> d i = if i =? j then v else d i.
Proof. destruct (Z.eqb_spec i j) as [->|]; [by rewrite fn_lookup_insert|by rewrite fn_lookup_insert_ne]. Qed.

Lemma right_border_left d a b : a <= b -> right_border (left_bits d a) b = right_border d b.
Proof.
  intros Hab. unfold right_border, left_bits. destruct (odd_cases a) as [[-> Ea]|[-> Ea]]; [|done].
  destruct (odd_cases b) as [[-> Eb]|[-> Eb]]; [done|]. destruct (d (a - 1)); rewrite fn_upd, (proj2 (Z.eqb_neq _ _)) by lia; done.
Qed.

(** The border of the left side, told by the free chunks. *)
Lemma borders f f' o a b :
  0 <= o < top -> gained f f' o a b -> a <= b ->
  left_border (chunk f o) a = (if Z.odd a then if allfree f o (a - 1) then a - 1 else a + 1 else a) /\
  right_border (chunk f o) b = (if Z.odd b then b else if allfree f o (b + 1) then b + 1 else b - 1).
Proof.
  intros Ho Hg Hab. unfold left_border, right_border. destruct (Hg a) as [_ Ha]. destruct (Hg b) as [_ Hb]. split.
  - destruct (odd_cases a) as [[-> Ea]|[-> Ea]]; [|done]. rewrite chunk_below by lia. unfold sib.
    destruct (odd_cases (a - 1)) as [[-> E1]|[-> E1]]; [lia|]. replace (a - 1 + 1) with a by lia. by rewrite Ha, andb_true_r by lia.
  - destruct (odd_cases b) as [[-> Eb]|[-> Eb]]; [done|]. rewrite chunk_below by lia. unfold sib.
    destruct (odd_cases (b + 1)) as [[-> E1]|[-> E1]]; [|lia]. replace (b + 1 - 1) with b by lia. by rewrite Hb, andb_true_r by lia.
Qed.

Lemma level_bits f f' o a b i :
  0 <= o < top -> gained f f' o a b -> a <= b -> right_bits (left_bits (chunk f o) a) b i = chunk f' o i.
Proof.
  intros Ho Hg Hab. set (d := chunk f o).
  assert (Hd : forall j, d j = allfree f o j && negb (allfree f o (sib j))) by (intros j; apply chunk_below; lia).
  assert (HA : forall j, a <= j <= b -> allfree f o j = false) by (intros j; apply Hg).
  assert (Hin : forall j, a <= j <= b -> allfree f' o j = true) by (intros j Hj; rewrite (proj1 (Hg j)); destruct (Z.leb_spec a j), (Z.leb_spec j b); (lia || by rewrite orb_true_r)).
  assert (Hout : forall j, ~ (a <= j <= b) -> allfree f' o j = allfree f o j) by (intros j Hj; rewrite (proj1 (Hg j)); destruct (Z.leb_spec a j), (Z.leb_spec j b); (lia || by rewrite orb_false_r)).
  assert (Hl : Z.odd a = true -> d (a - 1) = allfree f o (a - 1)).
  { intros Hodd. rewrite Hd. unfold sib. destruct (odd_cases a) as [[_ Ea]|[Ea' _]]; [|congruence]. destruct (odd_cases (a - 1)) as [[-> E1]|[-> E1]]; [lia|].
    replace (a - 1 + 1) with a by lia. by rewrite (HA a), andb_true_r by lia. }
  assert (Hr : Z.odd b = false -> d (b + 1) = allfree f o (b + 1)).
  { intros Hodd. rewrite Hd. unfold sib. destruct (odd_cases b) as [[Ea' _]|[_ Eb]]; [congruence|]. destruct (odd_cases (b + 1)) as [[-> E1]|[-> E1]]; [|lia].
    replace (b + 1 - 1) with b by lia. by rewrite (HA b), andb_true_r by lia. }
  assert (Hrb : Z.odd b = false -> left_bits d a (b + 1) = d (b + 1)).
  { intros Hodd. unfold left_bits. destruct (odd_cases a) as [[-> Ea]|[-> Ea]]; [|done]. destruct (d (a - 1)); rewrite fn_upd, (proj2 (Z.eqb_neq _ _)) by lia; done. }
  rewrite chunk_below by lia. unfold right_bits.
  destruct (decide (Z.odd a = true /\ i = a - 1)) as [[Hodd ->]|Hn1].
  { (* the left neighbour *)
    assert (E : left_bits d a (a - 1) = false) by (unfold left_bits; rewrite Hodd; destruct (d (a - 1)) eqn:E; [by rewrite fn_upd, Z.eqb_refl|rewrite fn_upd, (proj2 (Z.eqb_neq _ _)) by lia; done]).
    assert (Es : sib (a - 1) = a) by (unfold sib; destruct (odd_cases a) as [[_ Ea]|[Ea' _]]; [|congruence]; destruct (odd_cases (a - 1)) as [[-> E1]|[-> E1]]; lia).
    rewrite Es, (Hin a), andb_false_r by lia. destruct (Z.odd b) eqn:Eb; [done|]. rewrite Hrb by done.
    destruct (d (b + 1)); rewrite fn_upd, (proj2 (Z.eqb_neq _ _)) by lia; done. }
  destruct (decide (Z.odd b = false /\ i = b + 1)) as [[Hodd ->]|Hn2].
  { assert (Es : sib (b + 1) = b) by (unfold sib; destruct (odd_cases b) as [[Ea' _]|[_ Eb]]; [congruence|]; destruct (odd_cases (b + 1)) as [[-> E1]|[-> E1]]; lia).
    rewrite Es, (Hin b), andb_false_r, Hodd, Hrb by (done || lia). destruct (d (b + 1)) eqn:E; [by rewrite fn_upd, Z.eqb_refl|].
    rewrite fn_upd, (proj2 (Z.eqb_neq _ _)) by lia. by rewrite Hrb. }
  assert (Hleft : ~ (Z.odd a = true /\ i = a) -> left_bits d a i = d i).
  { intros Hna. unfold left_bits. destruct (Z.odd a) eqn:Ea; [|done]. destruct (d (a - 1)); rewrite fn_upd, (proj2 (Z.eqb_neq _ _)) by (intros ->; tauto); done. }
  assert (Hright : ~ (Z.odd b = false /\ i = b) -> (if Z.odd b then left_bits d a else if left_bits d a (b + 1) then <[b + 1 := false]> (left_bits d a) else <[b := true]> (left_bits d a)) i = left_bits d a i).
  { intros Hnb. destruct (Z.odd b) eqn:Eb; [done|]. destruct (left_bits d a (b + 1)); rewrite fn_upd, (proj2 (Z.eqb_neq _ _)) by (intros ->; tauto); done. }
  destruct (decide (a <= i <= b)) as [Hi|Hi].
  - rewrite (Hin i) by done. cbn [andb]. assert (Hdi : d i = false) by (by rewrite Hd, HA).
    destruct (decide (Z.odd a = true /\ i = a)) as [[Hodd ->]|Hna].
    + assert (Es : sib a = a - 1) by (unfold sib; by rewrite Hodd). rewrite Es, Hout, <- Hl by (done || lia). rewrite Hright by (intros [? ->]; congruence).
      unfold left_bits. rewrite Hodd. destruct (d (a - 1)); [|by rewrite fn_upd, Z.eqb_refl]. rewrite fn_upd, (proj2 (Z.eqb_neq _ _)) by lia. done.
    + destruct (decide (Z.odd b = false /\ i = b)) as [[Hodd ->]|Hnb].
      * assert (Es : sib b = b + 1) by (unfold sib; by rewrite Hodd). rewrite Es, Hout, <- Hr by (done || lia). rewrite Hodd, Hrb by done.
        destruct (d (b + 1)); rewrite fn_upd; [|by rewrite Z.eqb_refl]. rewrite (proj2 (Z.eqb_neq _ _)) by lia. by rewrite Hleft.
      * rewrite Hright, Hleft by done. rewrite Hin; [done|]. unfold sib. destruct (Z.odd i) eqn:Eo.
        { assert (i <> a) by (intros ->; tauto). lia. } { assert (i <> b) by (intros ->; tauto). lia. }
  - rewrite (Hout i) by done. rewrite Hright, Hleft by (intros [? ->]; lia). rewrite Hd. f_equal. f_equal. symmetry. apply Hout. unfold sib.
    destruct (odd_cases i) as [[-> Ei]|[-> Ei]]; intros Hs.
    + assert (i = b + 1) as -> by lia. apply Hn2. split; [|done]. destruct (odd_cases b) as [[_ Eb]|[-> _]]; [lia|done].
    + assert (i = a - 1) as -> by lia. apply Hn1. split; [|done]. destruct (odd_cases a) as [[-> _]|[_ Ea]]; [done|lia].
Qed.

Lemma level_up f f' o a b :
  0 <= o < top -> gained f f' o a b -> a <= b ->
  let a' := left_border (chunk f o) a in let b' := right_border (chunk f o) b in
  Z.odd a' = false /\ Z.odd b' = true /\ a - 1 <= a' <= a + 1 /\ b - 1 <= b' <= b + 1 /\ gained f f' (o + 1) (a' / 2) (b' / 2).
Proof.
  intros Ho Hg Hab a' b'. destruct (borders f f' o a b Ho Hg Hab) as [Ea Eb]. fold a' in Ea. fold b' in Eb.
  assert (Ha' : Z.odd a' = false /\ a - 1 <= a' <= a + 1).
  { rewrite Ea. destruct (odd_cases a) as [[-> E]|[E' E]]; [|rewrite E'; split; [done|lia]]. destruct (allfree f o (a - 1)); (split; [|lia]).
    - destruct (odd_cases (a - 1)) as [[_ E1]|[E1 _]]; [lia|done].
    - destruct (odd_cases (a + 1)) as [[_ E1]|[E1 _]]; [lia|done]. }
  assert (Hb' : Z.odd b' = true /\ b - 1 <= b' <= b + 1).
  { rewrite Eb. destruct (odd_cases b) as [[E' E]|[-> E]]; [rewrite E'; split; [done|lia]|]. destruct (allfree f o (b + 1)); (split; [|lia]).
    - destruct (odd_cases (b + 1)) as [[E1 _]|[_ E1]]; [done|lia].
    - destruct (odd_cases (b - 1)) as [[E1 _]|[_ E1]]; [done|lia]. }
  destruct Ha' as [Oa Ra]. destruct Hb' as [Ob Rb]. split_and!; [done|done|lia|lia|lia|lia|].
  pose proof (odd_cases a') as [[? _]|[_ Ea2]]; [congruence|]. pose proof (odd_cases b') as [[_ Eb2]|[? _]]; [|congruence].
  assert (HA : forall j, a <= j <= b -> allfree f o j = false) by (intros j; apply Hg).
  assert (H2 : forall j, a' <= j <= b' -> allfree f' o j = true).
  { intros j Hj. rewrite (proj1 (Hg j)). destruct (Z.leb_spec a j), (Z.leb_spec j b); cbn [andb]; try (by rewrite orb_true_r); rewrite orb_false_r.
    - assert (j = b + 1) as -> by lia. revert Eb. destruct (Z.odd b); [intros; lia|]. destruct (allfree f o (b + 1)); [done|intros; lia].
    - assert (j = a - 1) as -> by lia. revert Ea. destruct (Z.odd a); [|intros; lia]. destruct (allfree f o (a - 1)); [done|intros; lia].
    - lia. }
  intros k. rewrite !allfree_split by lia. split.
  - destruct (Z.leb_spec (a' / 2) k) as [H3|H3]; destruct (Z.leb_spec k (b' / 2)) as [H4|H4]; cbn [andb]; rewrite ?orb_true_r, ?orb_false_r; [rewrite !H2 by lia; done|..].
    1: assert (Hk : b < 2 * k \/ b' = b - 1 /\ b = 2 * k) by lia.
    2: assert (Hk : 2 * k + 1 < a \/ a' = a + 1 /\ a = 2 * k + 1) by lia.
    3: assert (Hk : False) by lia; done.
    + rewrite !(proj1 (Hg _)). destruct Hk as [Hk|[Hk Ek]].
      * rewrite !(proj2 (Z.leb_gt _ b)) by lia. by rewrite !andb_false_r, !orb_false_r.
      * assert (Hnb : allfree f o (2 * k + 1) = false).
        { revert Eb. rewrite <- Ek. destruct (odd_cases b) as [[-> _]|[-> _]]; [intros; lia|]. destruct (allfree f o (b + 1)); [intros; lia|done]. }
        rewrite Hnb, (proj2 (Z.leb_gt (2 * k + 1) b)) by lia. by rewrite andb_false_r, orb_false_r, !andb_false_r.
    + rewrite !(proj1 (Hg _)). destruct Hk as [Hk|[Hk Ek]].
      * rewrite !(proj2 (Z.leb_gt a _)) by lia. by rewrite !andb_false_l, !orb_false_r.
      * assert (Hna : allfree f o (2 * k) = false).
        { replace (2 * k) with (a - 1) by lia. revert Ea. destruct (odd_cases a) as [[-> _]|[-> _]]; [|intros; lia]. destruct (allfree f o (a - 1)); [intros; lia|done]. }
        rewrite Hna, (proj2 (Z.leb_gt a (2 * k))) by lia. cbn [andb orb]. done.
  - intros Hk. destruct (decide (a <= 2 * k <= b)) as [Hin|Hin]; [by rewrite (HA (2 * k))|]. rewrite (HA (2 * k + 1)) by lia. apply andb_false_r.
Qed.

Lemma gained_start f f' a b :
  (forall x, f' x = f x || ((a <=? x) && (x <=? b))) -> (forall x, a <= x <= b -> f x = false) -> gained f f' 0 a b.
Proof. intros E Hb i. rewrite !allfree_0. split; [apply E|apply Hb]. Qed.

Lemma gained_eq f f' o a b a' b' : gained f f' o a b -> a = a' -> b = b' -> gained f f' o a' b'.
Proof. by intros Hg -> ->. Qed.

(** Nothing was gained: all larger chunks are as they were. *)
Lemma gained_none f f' o a b o' i : 0 <= o <= o' -> b < a -> gained f f' o a b -> allfree f' o' i = allfree f o' i.
Proof.
  intros Ho Hab Hg. replace o' with (o + Z.of_nat (Z.to_nat (o' - o))) by lia. revert i. induction (Z.to_nat (o' - o)) as [|d IH]; intros i.
  - rewrite Z.add_0_r, (proj1 (Hg i)). destruct (Z.leb_spec a i), (Z.leb_spec i b); (lia || apply orb_false_r).
  - replace (o + Z.of_nat (S d)) with (o + Z.of_nat d + 1) by lia. rewrite !allfree_split by lia. by rewrite !IH.
Qed.

(** At the highest order the rest of the range is cleared as well. *)
Lemma level_top f f' a b :
  gained f f' top a b -> a <= b ->
  let d := chunk f top in let a' := left_border d a in let b' := right_border d b in
  Z.odd a' = false /\ Z.odd b' = true /\ a - 1 <= a' <= a + 1 /\ b - 1 <= b' <= b + 1 /\
  forall i, if (a' <=? i) && (i <=? b') then chunk f' top i = true /\ right_bits (left_bits d a) b i = false
            else right_bits (left_bits d a) b i = chunk f' top i.
Proof.
  intros Hg Hab d a' b'. assert (Hd : forall j, d j = allfree f top j) by (intros j; apply chunk_top).
  assert (Ha' : Z.odd a' = false /\ a - 1 <= a' <= a + 1).
  { unfold a', left_border. destruct (odd_cases a) as [[-> E]|[E' E]]; [|rewrite E'; split; [done|lia]]. destruct (d (a - 1)); (split; [|lia]).
    - destruct (odd_cases (a - 1)) as [[_ E1]|[E1 _]]; [lia|done].
    - destruct (odd_cases (a + 1)) as [[_ E1]|[E1 _]]; [lia|done]. }
  assert (Hb' : Z.odd b' = true /\ b - 1 <= b' <= b + 1).
  { unfold b', right_border. destruct (odd_cases b) as [[E' E]|[-> E]]; [rewrite E'; split; [done|lia]|]. destruct (d (b + 1)); (split; [|lia]).
    - destruct (odd_cases (b + 1)) as [[E1 _]|[_ E1]]; [done|lia].
    - destruct (odd_cases (b - 1)) as [[E1 _]|[_ E1]]; [done|lia]. }
  destruct Ha' as [Oa Ra]. destruct Hb' as [Ob Rb]. split_and!; [done|done|lia|lia|lia|lia|]. intros i. rewrite !chunk_top, (proj1 (Hg i)).
  assert (HA : forall j, a <= j <= b -> d j = false) by (intros j Hj; rewrite Hd; by apply Hg).
  assert (Hlr : Z.odd b = false -> left_bits d a (b + 1) = d (b + 1)).
  { intros Hodd. unfold left_bits. destruct (odd_cases a) as [[-> Ea]|[-> Ea]]; [|done]. destruct (d (a - 1)); rewrite fn_upd, (proj2 (Z.eqb_neq _ _)) by lia; done. }
  unfold right_bits. unfold a', left_border in Oa, Ra |- *. unfold b', right_border in Ob, Rb |- *. clear a' b'. rewrite <- Hd.
  assert (Hab' : Z.odd a = true -> Z.odd b = false -> a < b) by (intros Ha1 Hb1; destruct (decide (a = b)) as [->|]; [congruence|lia]).
  destruct (Z.odd a) eqn:Ea; destruct (Z.odd b) eqn:Eb; rewrite ?Hlr by done; unfold left_bits in *; rewrite Ea in *;
    repeat match goal with |- context [if d ?x then _ else _] => destruct (d x) eqn:? end;
    repeat match goal with
    | |- context [?x <=? ?y] => destruct (Z.leb_spec x y); cbn [andb orb]
    end; try lia; rewrite ?fn_upd, ?orb_false_r, ?orb_true_r;
    repeat match goal with |- context [?x =? ?y] => destruct (Z.eqb_spec x y) end; subst; try lia; try split; rewrite ?HA by lia; try done; try congruence.
  all: try (rewrite HA by lia; done).
Qed.

(** ** Taking chunks apart

    [q o i]: the chunk is a piece.  The pieces are disjoint and cover what is
    free in [g]. *)

Record part (g : Z -> bool) (q : Z -> Z -> bool) : Prop := mk_part {
  pa_free o i : 0 <= o <= top -> q o i = true -> allfree g o i = true;
  pa_one o o' b : 0 <= o <= top -> 0 <= o' <= top -> q o (b / 2 ^ o) = true -> q o' (b / 2 ^ o') = true -> o = o';
  pa_all b : g b = true -> exists o, 0 <= o <= top /\ q o (b / 2 ^ o) = true;
}.

Definition upd2 (c : Z -> Z -> bool) (o i : Z) (v : bool) : Z -> Z -> bool := <[o := <[i := v]> (c o)]> c.

Lemma upd2_eq c o i v o' i' : upd2 c o i v o' i' = if (o' =? o) && (i' =? i) then v else c o' i'.
Proof. unfold upd2. rewrite fn_upd. destruct (Z.eqb_spec o' o) as [->|]; cbn [andb]; [by rewrite fn_upd|done]. Qed.

Lemma upd2_hit c o i v : upd2 c o i v o i = v.
Proof. by rewrite upd2_eq, !Z.eqb_refl. Qed.

Lemma upd2_miss c o i v o' i' : o' <> o \/ i' <> i -> upd2 c o i v o' i' = c o' i'.
Proof. intros Hne. rewrite upd2_eq. destruct (Z.eqb_spec o' o), (Z.eqb_spec i' i); cbn; done || lia. Qed.

Lemma part_chunk f : part f (chunk f).
Proof.
  split; [intros o i _; apply chunk_allfree|intros o o' b; apply chunk_unique|].
  intros b Hb. destruct (chunk_exists f 0 b ltac:(lia)) as (o & Ho & Hc); [by rewrite Z.div_1_r, allfree_0|]. by exists o.
Qed.

(** The chunk is used. *)
Definition minus (g : Z -> bool) (o k : Z) : Z -> bool := fun b => g b && negb (b / 2 ^ o =? k).

Lemma part_use g q o k : part g q -> 0 <= o <= top -> q o k = true -> part (minus g o k) (upd2 q o k false).
Proof.
  intros [P1 P2 P3] Ho Hq. split.
  - intros o' i Ho' Hi. destruct (decide (o' = o /\ i = k)) as [[-> ->]|Hne]; [by rewrite upd2_hit in Hi|]. rewrite upd2_miss in Hi by lia.
    apply allfree_spec; [lia|]. intros b Hb. unfold minus. rewrite (proj1 (allfree_spec g o' i ltac:(lia)) (P1 _ _ Ho' Hi) b Hb). cbn.
    apply negb_true_iff, Z.eqb_neq. intros Hk. assert (o' = o) as -> by (eapply (P2 _ _ b); [done|done|by rewrite Hb|by rewrite Hk]). apply Hne. split; [done|]. congruence.
  - intros o1 o2 b Ho1 Ho2 H1 H2. rewrite upd2_eq in H1, H2. destruct ((o1 =? o) && _); [done|]. destruct ((o2 =? o) && _); [done|]. by apply (P2 o1 o2 b).
  - intros b [Hb Hk]%andb_true_iff. destruct (P3 b Hb) as (o' & Ho' & Hq'). exists o'. split; [done|]. rewrite upd2_miss; [done|].
    destruct (decide (o' = o)) as [->|]; [right|by left]. by apply negb_true_iff, Z.eqb_neq in Hk.
Qed.

(** The chunk is split in two. *)
Definition halves (q : Z -> Z -> bool) (o k : Z) : Z -> Z -> bool :=
  upd2 (upd2 (upd2 q o k false) (o - 1) (2 * k) true) (o - 1) (2 * k + 1) true.

Lemma halves_eq q o k o' i : halves q o k o' i = true <-> o' = o - 1 /\ i / 2 = k \/ q o' i = true /\ ~ (o' = o /\ i = k).
Proof.
  clear n top Hn. unfold halves. destruct (decide (o' = o - 1 /\ i / 2 = k)) as [[-> Hi]|Hnot].
  - split; [intros _; by left|intros _]. rewrite !upd2_eq, Z.eqb_refl. destruct (Z.eqb_spec i (2 * k + 1)); [done|].
    destruct (Z.eqb_spec i (2 * k)); [done|]. destruct (odd_cases i) as [[_ ?]|[_ ?]]; lia.
  - assert (o' <> o - 1 \/ i <> 2 * k /\ i <> 2 * k + 1) by (destruct (odd_cases i) as [[_ ?]|[_ ?]]; lia).
    rewrite !(upd2_miss _ (o - 1)) by lia. rewrite upd2_eq. destruct (Z.eqb_spec o' o) as [->|], (Z.eqb_spec i k) as [->|]; cbn [andb]; naive_solver.
Qed.

Lemma part_split g q o k : part g q -> 1 <= o <= top -> q o k = true -> part g (halves q o k).
Proof.
  intros [P1 P2 P3] Ho Hq.
  assert (Hdiv : forall b, b / 2 ^ (o - 1) / 2 = b / 2 ^ o) by (intros b; rewrite div_pow_succ by lia; by replace (o - 1 + 1) with o by lia). split.
  - intros o' i Ho' [[-> Hi]|[Hi _]]%halves_eq; [|by apply P1]. apply allfree_spec; [lia|]. intros b Hb.
    apply (proj1 (allfree_spec g o k ltac:(lia)) (P1 o k ltac:(lia) Hq)). rewrite <- Hdiv. by rewrite Hb.
  - assert (Hup : forall o' b, 0 <= o' <= top -> halves q o k o' (b / 2 ^ o') = true -> o' = o - 1 /\ b / 2 ^ o = k \/ q o' (b / 2 ^ o') = true /\ b / 2 ^ o <> k).
    { intros o' b Ho' [[-> Hi]|[Hi Hne]]%halves_eq; [left; by rewrite <- Hdiv|]. right. split; [done|]. intros Hk. apply Hne.
      assert (o' = o) as -> by (apply (P2 _ _ b); [done|lia|done|by rewrite Hk]). done. }
    intros o1 o2 b Ho1 Ho2 [[-> E1]|[H1 N1]]%Hup [[-> E2]|[H2 N2]]%Hup; try done; try lia. by apply (P2 o1 o2 b).
  - intros b Hb. destruct (decide (b / 2 ^ o = k)) as [Hk|Hk].
    + exists (o - 1). split; [lia|]. apply halves_eq. left. split; [done|]. by rewrite Hdiv.
    + destruct (P3 b Hb) as (o' & Ho' & Hq'). exists o'. split; [done|]. apply halves_eq. right. split; [done|]. intros [-> E]. done.
Qed.

Lemma part_max g q o i :
  part g q -> (forall o i, 0 <= o < top -> q o i = true -> allfree g (o + 1) (i / 2) = false) -> 0 <= o <= top -> q o i = chunk g o i.
Proof.
  intros [P1 P2 P3] Hmax Ho.
  assert (Hc : forall o i, 0 <= o <= top -> q o i = true -> chunk g o i = true).
  { intros o' j Ho' Hq. unfold chunk. rewrite (P1 _ _ Ho' Hq). destruct (Z.eqb_spec o' top) as [|Hne]; [done|]. cbn. by rewrite (Hmax o' j ltac:(lia) Hq). }
  apply eq_true_iff_eq. split; [by apply Hc|]. intros Hi. assert (Hb : i * 2 ^ o / 2 ^ o = i) by (apply Z.div_mul; pose proof (Z.pow_pos_nonneg 2 o); lia).
  pose proof (proj1 (allfree_spec g o i ltac:(lia)) (chunk_allfree _ _ _ Hi) _ Hb) as Hg. destruct (P3 _ Hg) as (o' & Ho' & Hq).
  assert (o' = o) as -> by (eapply (chunk_unique g _ _ (i * 2 ^ o)); [done|done|by apply Hc|by rewrite Hb]). by rewrite Hb in Hq.
Qed.

(** ** Cutting a free run into chunks from the left *)

(** No chunk crosses [p]. *)
Definition boundary (f : Z -> bool) (p : Z) : Prop :=
  forall o i, 0 <= o <= top -> chunk f o i = true -> (i + 1) * 2 ^ o <= p \/ p <= i * 2 ^ o.

(** The chunks that end at [p] or before. *)
Definition upto (f : Z -> bool) (p o i : Z) : bool := chunk f o i && ((i + 1) * 2 ^ o <=? p).

Lemma chunk_free f o i b : 0 <= o -> chunk f o i = true -> i * 2 ^ o <= b < (i + 1) * 2 ^ o -> f b = true.
Proof. intros Ho Hc%chunk_allfree Hb. apply (proj1 (allfree_spec f o i Ho) Hc). by apply in_chunk. Qed.

Lemma boundary_busy f p : f (p - 1) = false -> boundary f p.
Proof.
  intros Hf o i Ho Hc. destruct (Z.le_gt_cases ((i + 1) * 2 ^ o) p) as [|H1]; [by left|]. destruct (Z.le_gt_cases p (i * 2 ^ o)) as [|H2]; [by right|].
  rewrite (chunk_free f o i (p - 1)) in Hf by (done || lia). done.
Qed.

Lemma greedy f p len v :
  boundary f p -> 0 < len -> (forall b, p <= b < p + len -> f b = true) -> f (p + len) = false ->
  0 <= v <= top -> p mod 2 ^ v = 0 -> (v < top -> p mod 2 ^ (v + 1) <> 0) ->
  let m := Z.min v (Z.log2 len) in 0 <= m <= top /\ 2 ^ m <= len /\ p / 2 ^ m * 2 ^ m = p /\ chunk f m (p / 2 ^ m) = true.
Proof.
  intros Hb Hl Hrun Hend Hv Hal Hmax m. pose proof (Z.log2_nonneg len). pose proof (Z.log2_spec len Hl) as [Hlog1 Hlog2].
  assert (Hm : 0 <= m <= top) by lia. pose proof (Z.pow_pos_nonneg 2 m ltac:(lia) ltac:(lia)) as Hpm.
  assert (Hmlen : 2 ^ m <= len) by (etransitivity; [apply Z.pow_le_mono_r; [lia|apply Z.le_min_r]|done]).
  assert (Hpd : p / 2 ^ m * 2 ^ m = p).
  { assert (Hd : (2 ^ m | p)) by (apply (Z.divide_trans _ (2 ^ v)); [exists (2 ^ (v - m)); rewrite <- Z.pow_add_r by lia; f_equal; lia|by apply Z.mod_divide; [pose proof (Z.pow_pos_nonneg 2 v); lia|]]).
    destruct Hd as [z ->]. by rewrite Z.div_mul by lia. }
  split_and!; [lia|lia|done|done|]. unfold chunk. apply andb_true_iff. split.
  { apply allfree_spec; [lia|]. intros b Hbm. apply Hrun. apply in_chunk in Hbm; lia. }
  destruct (Z.eqb_spec m top) as [|Hnt]; [done|]. cbn. apply negb_true_iff, not_true_iff_false. rewrite div_pow_succ by lia. intros Hpar.
  destruct (decide (p mod 2 ^ (m + 1) = 0)) as [Ha|Ha].
  - assert (Hmv : m = Z.log2 len).
    { destruct (Z.min_spec v (Z.log2 len)) as [[Hlt E]|[Hle E]]; [|lia]. exfalso. assert (m = v) by lia. subst m. rewrite E in *. apply Hmax; [lia|done]. }
    pose proof (proj1 (allfree_spec f (m + 1) _ ltac:(lia)) Hpar (p + len)) as Hf. rewrite Hf in Hend; [done|]. apply in_chunk; [lia|].
    pose proof (Z.div_mod p (2 ^ (m + 1)) ltac:(pose proof (Z.pow_pos_nonneg 2 (m + 1)); lia)). replace (Z.succ (Z.log2 len)) with (m + 1) in Hlog2 by lia. nia.
  - destruct (chunk_exists f (m + 1) p ltac:(lia) Hpar) as (o & Ho & Hc). destruct (Hb o (p / 2 ^ o) ltac:(lia) Hc) as [H1|H1].
    + pose proof (proj2 (in_chunk p o _ ltac:(lia)) eq_refl). lia.
    + pose proof (proj2 (in_chunk p o _ ltac:(lia)) eq_refl). assert (Ep : p = p / 2 ^ o * 2 ^ o) by lia. apply Ha. rewrite Ep.
      replace (2 ^ o) with (2 ^ (o - (m + 1)) * 2 ^ (m + 1)) by (rewrite <- Z.pow_add_r by lia; f_equal; lia). rewrite Z.mul_assoc.
      apply Z.mod_mul. pose proof (Z.pow_pos_nonneg 2 (m + 1)). lia.
Qed.

Lemma upto_chunk f p m :
  boundary f p -> 0 <= m <= top -> p / 2 ^ m * 2 ^ m = p -> chunk f m (p / 2 ^ m) = true ->
  boundary f (p + 2 ^ m) /\ upto f p m (p / 2 ^ m) = false /\
  forall o i, 0 <= o <= top -> upto f (p + 2 ^ m) o i = upd2 (upto f p) m (p / 2 ^ m) true o i.
Proof.
  intros Hb Hm Hp Hc. set (k := p / 2 ^ m) in *. pose proof (Z.pow_pos_nonneg 2 m ltac:(lia) ltac:(lia)) as Hpm.
  assert (Hsame : forall o i b, 0 <= o <= top -> chunk f o i = true -> i * 2 ^ o <= b < (i + 1) * 2 ^ o -> p <= b < p + 2 ^ m -> o = m /\ i = k).
  { intros o i b Ho Hci Hi Hpb. apply in_chunk in Hi; [|lia]. assert (Hbk : b / 2 ^ m = k) by (apply in_chunk; lia).
    assert (o = m) as -> by (apply (chunk_unique f _ _ b); [lia|lia|by rewrite Hi|by rewrite Hbk]). split; [done|]. congruence. }
  assert (Ep : upto f p m k = false) by (unfold upto; rewrite Hc; cbn; apply Z.leb_gt; lia).
  split_and!; [|done|].
  - intros o i Ho Hci. pose proof (Z.pow_pos_nonneg 2 o ltac:(lia) ltac:(lia)). destruct (Z.le_gt_cases ((i + 1) * 2 ^ o) (p + 2 ^ m)) as [|H1]; [by left|].
    destruct (Z.le_gt_cases (p + 2 ^ m) (i * 2 ^ o)) as [|H2]; [by right|]. destruct (Hsame o i (p + 2 ^ m - 1) Ho Hci) as [-> ->]; lia.
  - intros o i Ho. pose proof (Z.pow_pos_nonneg 2 o ltac:(lia) ltac:(lia)). destruct (decide (o = m /\ i = k)) as [[-> ->]|Hne].
    + rewrite upd2_hit. unfold upto. rewrite Hc. cbn. apply Z.leb_le. lia.
    + rewrite upd2_miss by lia. unfold upto. destruct (chunk f o i) eqn:Ei; [|done]. cbn. apply eq_true_iff_eq. rewrite !Z.leb_le. split; [|lia].
      intros Hle. destruct (Hb o i Ho Ei) as [|H1]; [done|]. exfalso. apply Hne. apply (Hsame o i ((i + 1) * 2 ^ o - 1)); [done|done|lia|lia].
Qed.

Lemma upto_skip f p r o i : 0 <= o -> p <= r -> (forall b, p <= b < r -> f b = false) -> upto f r o i = upto f p o i.
Proof.
  intros Ho Hpr Hbusy. pose proof (Z.pow_pos_nonneg 2 o ltac:(lia) ltac:(lia)). unfold upto. destruct (chunk f o i) eqn:Ei; [|done]. cbn. apply eq_true_iff_eq. rewrite !Z.leb_le.
  split; [|lia]. intros Hle. destruct (Z.le_gt_cases ((i + 1) * 2 ^ o) p) as [|Hgt]; [done|]. exfalso.
  pose proof (chunk_free f o i ((i + 1) * 2 ^ o - 1) Ho Ei ltac:(lia)) as Hf. rewrite Hbusy in Hf by lia. done.
Qed.

Lemma upto_start f o i : inside f -> 0 <= o -> upto f 0 o i = false.
Proof.
  intros Hin Ho. unfold upto. destruct (chunk f o i) eqn:Ei; [|done]. cbn. apply Z.leb_gt. pose proof (Z.pow_pos_nonneg 2 o ltac:(lia) Ho).
  pose proof (Hin _ (chunk_free f o i ((i + 1) * 2 ^ o - 1) Ho Ei ltac:(lia))). lia.
Qed.

Lemma upto_end f p o i : inside f -> 0 <= o -> 2 ^ n <= p -> upto f p o i = chunk f o i.
Proof.
  intros Hin Ho Hp. unfold upto. destruct (chunk f o i) eqn:Ei; [|done]. cbn. apply Z.leb_le. pose proof (Z.pow_pos_nonneg 2 o ltac:(lia) Ho).
  pose proof (Hin _ (chunk_free f o i ((i + 1) * 2 ^ o - 1) Ho Ei ltac:(lia))). lia.
Qed.
End chunks.

(** ** Runs *)

(** A run of free clusters begins at [b]. *)
Definition run_start (f : Z -> bool) (b : Z) : bool := f b && negb (f (b - 1)).

(** A busy range is freed: the runs on its sides grow together with it. *)
Lemma runs_freed f f' m a b :
  0 <= a <= b -> b < m -> (forall x, f x = true -> 0 <= x < m) ->
  (forall x, f' x = f x || ((a <=? x) && (x <=? b))) -> (forall x, a <= x <= b -> f x = false) ->
  cnt (run_start f') m = cnt (run_start f) m + 1 - Z.b2z (f (a - 1)) - Z.b2z (f (b + 1)).
Proof.
  intros Hab Hb Hin E Hbusy.
  assert (Hv : forall x, a <= x <= b -> f' x = true) by (intros x Hx; rewrite E; destruct (Z.leb_spec a x), (Z.leb_spec x b); (lia || apply orb_true_r)).
  assert (Hs : forall x, ~ (a <= x <= b) -> f' x = f x) by (intros x Hx; rewrite E; destruct (Z.leb_spec a x), (Z.leb_spec x b); (lia || apply orb_false_r)).
  set (mid := <[b + 1 := run_start f' (b + 1)]> (run_start f)).
  assert (E1 : cnt (run_start f') m = cnt mid m + Z.b2z (run_start f' a) - Z.b2z (mid a)).
  { apply cnt_upd; [lia|]. intros x Hx Hne. unfold mid. rewrite fn_upd. destruct (Z.eqb_spec x (b + 1)) as [->|Hne']; [done|]. unfold run_start.
    destruct (decide (a <= x <= b)) as [Hr|Hr]; [rewrite (Hv x), (Hv (x - 1)), (Hbusy x) by lia; done|]. by rewrite !Hs by lia. }
  rewrite E1. unfold mid at 2. rewrite fn_upd, (proj2 (Z.eqb_neq a (b + 1))) by lia.
  assert (Ea : Z.b2z (run_start f' a) - Z.b2z (run_start f a) = 1 - Z.b2z (f (a - 1))).
  { unfold run_start. rewrite (Hv a), (Hs (a - 1)), (Hbusy a) by lia. by destruct (f (a - 1)). }
  assert (Eb : cnt mid m = cnt (run_start f) m - Z.b2z (f (b + 1))); [|lia].
  assert (Er : run_start f' (b + 1) = false) by (unfold run_start; replace (b + 1 - 1) with b by lia; rewrite (Hv b) by lia; apply andb_false_r).
  destruct (decide (b + 1 < m)) as [Hlt|Hge].
  - rewrite (cnt_upd mid (run_start f) m (b + 1)); [|lia|intros x Hx Hne; unfold mid; by rewrite fn_upd, (proj2 (Z.eqb_neq _ _))].
    unfold mid. rewrite fn_upd, Z.eqb_refl, Er. unfold run_start. replace (b + 1 - 1) with b by lia. rewrite (Hbusy b), andb_true_r by lia. cbn. lia.
  - rewrite (cnt_ext mid (run_start f)); [|intros x Hx; unfold mid; rewrite fn_upd, (proj2 (Z.eqb_neq _ _)) by lia; done].
    destruct (f (b + 1)) eqn:Ef; [apply Hin in Ef; lia|cbn; lia].
Qed.
