(* ===== verification/BuddyBits.v ===== *)
(** * mqfs: the buddy block as bitmaps of orders

    [view c k e]: in [e], bit [i] of order [o] is clear exactly when [c o i],
    and the counter of order [o] is [k o].  Each operation on bits is an update
    of these functions that leaves everything else of the group alone. *)

From S2P Require Import Prelude BlockGroup Buddy BuddyChunks.

(** The geometry the allocator is set up for: blocks of at most 64 KiB, and no
    more clusters in a group than its bitmap has bits. *)
Class mb_geo (sbi : ext4_sb_info) : Prop := mk_mb_geo {
  mg_bits : 1 <= s_blocksize_bits sbi <= 16;
  mg_size : s_blocksize sbi = 2 ^ s_blocksize_bits sbi;
  mg_clusters : 0 < s_clusters_per_group sbi <= 2 ^ (s_blocksize_bits sbi + 3);
}.

(** What the bits do not say. *)
Definition stats (e : ext4_buddy) :=
  (grp_need_init (bd_info e), grp_corrupt (bd_info e), bb_first_free (bd_info e), bb_free (bd_info e), bb_fragments (bd_info e),
   bb_largest_free_order (bd_info e), mb_freeclusters e, s_mb_buddies_generated e, grp_errors e).

Lemma correct_addr bit addr :
  let '(bit', addr') := mb_correct_addr_and_bit bit addr in addr'.1 = addr.1 /\ 8 * addr'.2 + bit' = 8 * addr.2 + bit.
Proof.
  unfold mb_correct_addr_and_bit. cbn. split; [done|]. change 7 with (Z.ones 3).
  rewrite Z.ldiff_ones_r, Z.land_ones, Z.shiftr_div_pow2, !Z.shiftl_mul_pow2 by lia. change (2 ^ 3) with 8. pose proof (Z.div_mod addr.2 8 ltac:(lia)). lia.
Qed.

(** The first clear bit. *)
Lemma next_zero_spec bm size i :
  0 <= i <= size -> let r := ext4_find_next_zero_bit bm size i in
  i <= r <= size /\ (forall j, i <= j < r -> ext4_test_bit j bm = true) /\ (r < size -> ext4_test_bit r bm = false).
Proof.
  unfold ext4_find_next_zero_bit. intros Hi. cbv zeta.
  assert (Hgen : forall fuel k, Z.of_nat fuel = size - k -> i <= k -> let r := find_next_zero fuel bm size k in
    k <= r <= size /\ (forall j, k <= j < r -> ext4_test_bit j bm = true) /\ (r < size -> ext4_test_bit r bm = false)).
  { induction fuel as [|fuel IH]; intros k Hf Hk; cbn [find_next_zero]; cbv zeta; [split_and!; lia|].
    destruct (Z.leb_spec size k); [lia|]. destruct (ext4_test_bit k bm) eqn:E; [|split_and!; [lia|lia|lia|done]].
    destruct (IH (k + 1) ltac:(lia) ltac:(lia)) as (H1 & H2 & H3). cbv zeta in *. split_and!; [lia|lia| |done].
    intros j Hj. destruct (decide (j = k)) as [->|]; [done|]. apply H2. lia. }
  apply (Hgen (Z.to_nat (size - i)) i); lia.
Qed.

Section bits.
Context (sbi : ext4_sb_info) {G : mb_geo sbi}.
#[local] Abbreviation bits := (s_blocksize_bits sbi).
#[local] Abbreviation n := (s_blocksize_bits sbi + 3).
#[local] Abbreviation top := (s_blocksize_bits sbi + 1).

Definition off (o : Z) : Z := if o =? 0 then 0 else 2 ^ bits - 2 ^ (bits - o + 1).
Definition addr_of (o : Z) : mb_addr := (if o =? 0 then BdBitmap else BdBuddy, off o).

Lemma mb_table_lookup fuel i offset incr max j :
  1 <= i <= top -> offset = 2 ^ bits - 2 ^ (bits - i + 1) -> incr = Z.shiftr (2 ^ (bits - 1)) (i - 1) -> max = 2 ^ (n - i) ->
  i <= j <= top -> Z.of_nat fuel = top - i + 1 ->
  mb_table sbi fuel i offset incr max !! Z.to_nat (j - i) = Some (off j, 2 ^ (n - j)).
Proof.
  pose proof (@mg_bits sbi G) as Hbits. revert i offset incr max. induction fuel as [|fuel IH]; intros i offset incr max Hi -> -> -> Hj Hf; [lia|].
  cbn [mb_table]. pose proof (Z.pow_le_mono_r 2 bits 16 ltac:(lia) ltac:(lia)).
  assert (Hoff : 0 <= 2 ^ bits - 2 ^ (bits - i + 1) < 2 ^ 16).
  { pose proof (Z.pow_le_mono_r 2 (bits - i + 1) bits ltac:(lia) ltac:(lia)).
    pose proof (Z.pow_pos_nonneg 2 (bits - i + 1) ltac:(lia) ltac:(lia)). lia. }
  destruct (decide (j = i)) as [->|Hne].
  { replace (i - i) with 0 by lia. cbn. rewrite wrap_small by done. unfold off. rewrite (proj2 (Z.eqb_neq i 0)) by lia. done. }
  destruct (Z.leb_spec (i + 1) (bits + 1)); [|lia]. replace (Z.to_nat (j - i)) with (S (Z.to_nat (j - (i + 1)))) by lia. cbn.
  apply IH; [lia| | | |lia|lia].
  - rewrite Z.shiftr_div_pow2, <- Z.pow_sub_r by lia. replace (bits - 1 - (i - 1)) with (bits - i) by lia.
    pose proof (Z.pow_pos_nonneg 2 (bits - i) ltac:(lia) ltac:(lia)). replace (2 ^ (bits - i + 1)) with (2 * 2 ^ (bits - i)) in * by (rewrite Z.pow_add_r by lia; lia).
    rewrite wrap_small by (change (2 ^ 16) with 65536 in *; change (2 ^ 32) with 4294967296; lia). replace (bits - (i + 1) + 1) with (bits - i) by lia. lia.
  - rewrite Z.shiftr_shiftr by lia. f_equal. lia.
  - rewrite Z.shiftr_div_pow2, <- Z.pow_sub_r by lia. f_equal. lia.
Qed.

Lemma pow_n_bound : 0 < 2 ^ n < 2 ^ 32.
Proof. pose proof (@mg_bits sbi G). split; [apply Z.pow_pos_nonneg; lia|]. apply Z.pow_lt_mono_r; lia. Qed.

Lemma mb_order_ok o e (Q : Z * Z -> ext4_buddy -> Prop) : 0 <= o <= top -> Q (off o, 2 ^ (n - o)) e -> runs (mb_order sbi o) e Q.
Proof.
  pose proof (@mg_bits sbi G) as Hbits. pose proof pow_n_bound as Hn. intros Ho HQ. unfold mb_order. rewrite (proj2 (Z.ltb_ge o 0)) by lia.
  assert (E3 : 2 ^ n = 8 * 2 ^ bits) by (rewrite Z.pow_add_r by lia; lia). unfold ext4_mb_init_tables.
  rewrite (@mg_size sbi G), !Z.shiftl_mul_pow2 by lia. change (2 ^ 3) with 8. change (2 ^ 2) with 4.
  destruct (decide (o = 0)) as [->|Hne].
  { cbn. apply runs_ret. rewrite wrap_small by lia. replace (2 ^ bits * 8) with (2 ^ n) by lia. replace (n - 0) with n in HQ by lia. exact HQ. }
  replace (Z.to_nat o) with (S (Z.to_nat (o - 1))) by lia. cbn [lookup list_lookup].
  pose proof (Z.pow_pos_nonneg 2 (bits - 1) ltac:(lia) ltac:(lia)). assert (E1 : 2 ^ bits = 2 * 2 ^ (bits - 1)) by (rewrite <- Z.pow_succ_r by lia; f_equal; lia).
  rewrite (mb_table_lookup _ 1 _ _ _ o); [by apply runs_ret|lia| | | |lia|lia].
  - replace (bits - 1 + 1) with bits by lia. lia.
  - rewrite Z.shiftr_0_r, wrap_small by lia. lia.
  - rewrite wrap_small by lia. replace (n - 1) with (bits + 2) by lia. rewrite Z.pow_add_r by lia. lia.
Qed.

Lemma find_buddy_ok o e (Q : option mb_addr * Z -> ext4_buddy -> Prop) :
  0 <= o <= top -> Q (Some (addr_of o), 2 ^ (n - o)) e -> runs (mb_find_buddy sbi o) e Q.
Proof.
  intros Ho HQ. unfold mb_find_buddy. destruct (Z.ltb_spec (bits + 1) o); [lia|]. unfold addr_of in HQ. destruct (Z.eqb_spec o 0) as [->|Hne].
  - apply runs_ret. rewrite Z.shiftl_1_l. unfold off in HQ. rewrite Z.eqb_refl in HQ. by replace (n - 0) with n in HQ by lia.
  - rstep. apply mb_order_ok; [done|]. by apply runs_ret.
Qed.

Lemma find_buddy_none o e (Q : option mb_addr * Z -> ext4_buddy -> Prop) : top < o -> Q (None, 0) e -> runs (mb_find_buddy sbi o) e Q.
Proof. intros Ho HQ. unfold mb_find_buddy. destruct (Z.ltb_spec (bits + 1) o); [|lia]. by apply runs_ret. Qed.

Lemma the_buddy_ok o e (Q : mb_addr * Z -> ext4_buddy -> Prop) :
  0 <= o <= top -> Q (addr_of o, 2 ^ (n - o)) e -> runs (mb_the_buddy sbi o) e Q.
Proof. intros Ho HQ. unfold mb_the_buddy. rstep. apply find_buddy_ok; [done|]. by apply runs_ret. Qed.

(** ** Positions of bits *)

Definition pos (o i : Z) : Z := 8 * off o + i.
Definition valid (o i : Z) : Prop := 0 <= o <= top /\ 0 <= i < 2 ^ (n - o).

Lemma pos_range o i : valid o i -> 0 <= pos o i < 2 ^ n /\ (o <> 0 -> 2 ^ n - 2 ^ (n - o + 1) <= pos o i < 2 ^ n - 2 ^ (n - o)).
Proof.
  pose proof (@mg_bits sbi G) as Hbits. intros [Ho Hi]. unfold pos, off. destruct (Z.eqb_spec o 0) as [->|Hne]; [split; [replace (n - 0) with n in Hi by lia; lia|done]|].
  assert (E1 : 2 ^ n = 8 * 2 ^ bits) by (rewrite Z.pow_add_r by lia; lia).
  assert (E2 : 2 ^ (n - o + 1) = 8 * 2 ^ (bits - o + 1)) by (replace (n - o + 1) with ((bits - o + 1) + 3) by lia; rewrite Z.pow_add_r by lia; lia).
  assert (E3 : 2 ^ (n - o + 1) = 2 * 2 ^ (n - o)) by (rewrite Z.pow_add_r by lia; lia).
  pose proof (Z.pow_le_mono_r 2 (bits - o + 1) bits ltac:(lia) ltac:(lia)). pose proof (Z.pow_pos_nonneg 2 (n - o) ltac:(lia) ltac:(lia)).
  assert (2 ^ n - 2 ^ (n - o + 1) <= 8 * (2 ^ bits - 2 ^ (bits - o + 1)) + i < 2 ^ n - 2 ^ (n - o)) by lia. split; [lia|done].
Qed.

Lemma pos_inj o i o' i' : valid o i -> valid o' i' -> (addr_of o).1 = (addr_of o').1 -> pos o i = pos o' i' -> o = o' /\ i = i'.
Proof.
  pose proof (@mg_bits sbi G) as Hbits. intros Hv Hv'. unfold addr_of. cbn.
  assert (Hgen : forall o o' i i', valid o i -> valid o' i' -> o <> 0 -> o' <> 0 -> o < o' -> pos o i < pos o' i').
  { clear - G. intros o o' i i' Hv Hv' Ho Ho' Hlt. destruct (pos_range o i Hv) as [_ H1]. destruct (pos_range o' i' Hv') as [_ H2].
    specialize (H1 Ho). specialize (H2 Ho'). destruct Hv, Hv'. pose proof (Z.pow_le_mono_r 2 (n - o' + 1) (n - o) ltac:(lia) ltac:(lia)). lia. }
  destruct (Z.eqb_spec o 0) as [->|H1]; destruct (Z.eqb_spec o' 0) as [->|H2]; intros Ea Ep; try done.
  assert (o = o') as ->.
  { destruct (Z.lt_trichotomy o o') as [Hlt|[?|Hlt]]; [|done|]; [pose proof (Hgen o o' i i')|pose proof (Hgen o' o i' i)]; naive_solver lia. }
  split; [done|]. unfold pos in Ep. lia.
Qed.

(** ** The view *)

Record view (c : Z -> Z -> bool) (k : Z -> Z) (e : ext4_buddy) : Prop := mk_view {
  vw_bitmap : Z.of_nat (length (bd_bitmap e)) = 2 ^ n;
  vw_buddy : Z.of_nat (length (bd_buddy e)) = 2 ^ n;
  vw_bit o i : valid o i -> block_bits (addr_of o).1 e !! Z.to_nat (pos o i) = Some (negb (c o i));
  vw_counters : Z.of_nat (length (bb_counters (bd_info e))) = top + 1;
  vw_counter o : 0 <= o <= top -> bb_counters (bd_info e) !! Z.to_nat o = Some (k o);
}.

Lemma view_ext c k c' k' e :
  view c k e -> (forall o i, valid o i -> c o i = c' o i) -> (forall o, 0 <= o <= top -> k o = k' o) -> view c' k' e.
Proof. intros [V1 V2 V3 V4 V5] Ec Ek. split; try done; [intros o i Hv; rewrite <- Ec by done; by apply V3|intros o Ho; rewrite <- Ek by done; by apply V5]. Qed.

Lemma view_same c k e e' :
  bd_bitmap e' = bd_bitmap e -> bd_buddy e' = bd_buddy e -> bb_counters (bd_info e') = bb_counters (bd_info e) -> view c k e -> view c k e'.
Proof. intros E1 E2 E3 [V1 V2 V3 V4 V5]. split; rewrite ?E1, ?E2, ?E3; try done. intros o i Hv. rewrite <- V3 by done. unfold block_bits. destruct (addr_of o).1; by rewrite ?E1, ?E2. Qed.

Lemma block_len c k e m : view c k e -> Z.of_nat (length (block_bits m e)) = 2 ^ n.
Proof. intros [V1 V2 _ _ _]. by destruct m. Qed.

Lemma test_at_ok c k e o i bit addr (Q : bool -> ext4_buddy -> Prop) :
  view c k e -> valid o i -> addr.1 = (addr_of o).1 -> 8 * addr.2 + bit = pos o i -> Q (negb (c o i)) e -> runs (test_bit_at bit addr) e Q.
Proof.
  intros V Hv E1 E2 HQ. unfold runs, test_bit_at. cbv zeta. rewrite E1, E2. destruct (pos_range o i Hv) as [Hp _]. rewrite (proj2 (Z.ltb_ge _ _)) by lia.
  by rewrite (vw_bit _ _ _ V o i Hv).
Qed.

Lemma test_ok c k e o i (Q : bool -> ext4_buddy -> Prop) : view c k e -> valid o i -> Q (negb (c o i)) e -> runs (mb_test_bit i (addr_of o)) e Q.
Proof.
  intros V Hv HQ. unfold mb_test_bit. pose proof (correct_addr i (addr_of o)) as Hc. destruct (mb_correct_addr_and_bit i (addr_of o)) as [bit' addr'].
  destruct Hc as [E1 E2]. by eapply test_at_ok.
Qed.

Lemma block_upd m f e : block_bits m (upd_bits m f e) = f (block_bits m e) /\ (forall m', m' <> m -> block_bits m' (upd_bits m f e) = block_bits m' e) /\
  bd_info (upd_bits m f e) = bd_info e /\ stats (upd_bits m f e) = stats e.
Proof. destruct m, e; (split_and!; [done|by intros []|done|done]). Qed.

(** Bits are changed: those of [p] get the value [negb v]. *)
Lemma view_upd c k e m f o (p : Z -> bool) v :
  view c k e -> 0 <= o <= top -> m = (addr_of o).1 -> (forall l, length (f l) = length l) ->
  (forall o' i, valid o' i -> (addr_of o').1 = m ->
     f (block_bits m e) !! Z.to_nat (pos o' i) = if (o' =? o) && p i then Some v else block_bits m e !! Z.to_nat (pos o' i)) ->
  view (fun o' i => if (o' =? o) && p i then negb v else c o' i) k (upd_bits m f e).
Proof.
  intros V Ho Em Hlen Hf. pose proof (block_upd m f e) as (B1 & B2 & B3 & _). pose proof V as [V1 V2 V3 V4 V5].
  assert (Hl : forall m', Z.of_nat (length (block_bits m' (upd_bits m f e))) = 2 ^ n).
  { intros m'. destruct (decide (m' = m)) as [->|Hne]; [by rewrite B1, Hlen, (block_len _ _ _ m V)|]. rewrite B2 by done. apply (block_len _ _ _ m' V). }
  split; [apply (Hl BdBitmap)|apply (Hl BdBuddy)| |by rewrite B3|intros o' Ho'; rewrite B3; by apply V5].
  intros o' i Hv. destruct (decide ((addr_of o').1 = m)) as [E|E].
  - rewrite E, B1, Hf by done. destruct ((o' =? o) && p i); [by rewrite negb_involutive|]. rewrite <- E. by apply V3.
  - rewrite B2 by done. rewrite V3 by done. destruct (Z.eqb_spec o' o) as [->|]; [congruence|done].
Qed.

Lemma write_at_ok v c k e o i bit addr (Q : unit -> ext4_buddy -> Prop) :
  view c k e -> valid o i -> addr.1 = (addr_of o).1 -> 8 * addr.2 + bit = pos o i ->
  (forall e', view (upd2 c o i (negb v)) k e' -> stats e' = stats e -> Q tt e') -> runs (write_bit_at v bit addr) e Q.
Proof.
  intros V Hv E1 E2 HQ. unfold write_bit_at. rstep. eapply test_at_ok; [done|done|done|done|]. apply runs_modify, HQ; [|apply (block_upd addr.1)].
  eapply view_ext; [apply (view_upd c k e addr.1 _ o (fun j => j =? i) v V); [apply Hv|done|intros l; apply length_insert|]|intros o' j _; by rewrite upd2_eq|done].
  intros o' j Hj Ea. rewrite E2. destruct (decide (o' = o /\ j = i)) as [[-> ->]|Hne].
  - rewrite !Z.eqb_refl. cbn [andb]. apply list_lookup_insert_eq. pose proof (block_len _ _ _ addr.1 V). destruct (pos_range o i Hv) as [Hp _]. lia.
  - rewrite list_lookup_insert_ne.
    + destruct (Z.eqb_spec o' o), (Z.eqb_spec j i); cbn [andb]; done || lia.
    + intros Ep. apply Hne. destruct (pos_range o i Hv) as [Hp _]. destruct (pos_range o' j Hj) as [Hp' _]. apply pos_inj; [done|done|congruence|lia].
Qed.

Lemma set_ok c k e o i (Q : unit -> ext4_buddy -> Prop) :
  view c k e -> valid o i -> (forall e', view (upd2 c o i false) k e' -> stats e' = stats e -> Q tt e') -> runs (mb_set_bit i (addr_of o)) e Q.
Proof.
  intros V Hv HQ. unfold mb_set_bit. pose proof (correct_addr i (addr_of o)) as Hc. destruct (mb_correct_addr_and_bit i (addr_of o)) as [bit' addr'].
  destruct Hc as [E1 E2]. by eapply (write_at_ok true).
Qed.

Lemma clear_ok c k e o i (Q : unit -> ext4_buddy -> Prop) :
  view c k e -> valid o i -> (forall e', view (upd2 c o i true) k e' -> stats e' = stats e -> Q tt e') -> runs (mb_clear_bit i (addr_of o)) e Q.
Proof.
  intros V Hv HQ. unfold mb_clear_bit. pose proof (correct_addr i (addr_of o)) as Hc. destruct (mb_correct_addr_and_bit i (addr_of o)) as [bit' addr'].
  destruct Hc as [E1 E2]. by eapply (write_at_ok false).
Qed.

Lemma test_clear_ok c k e o i (Q : bool -> ext4_buddy -> Prop) :
  view c k e -> valid o i -> (forall e', view (upd2 c o i true) k e' -> stats e' = stats e -> Q (negb (c o i)) e') ->
  runs (mb_test_and_clear_bit i (addr_of o)) e Q.
Proof.
  intros V Hv HQ. unfold mb_test_and_clear_bit. pose proof (correct_addr i (addr_of o)) as Hc. destruct (mb_correct_addr_and_bit i (addr_of o)) as [bit' addr'].
  destruct Hc as [E1 E2]. rstep. eapply test_at_ok; [done|done|done|done|]. rstep. eapply (write_at_ok false); [done|done|done|done|].
  intros e' V' S'. apply runs_ret. by apply HQ.
Qed.

(** ** Words and ranges *)

Definition updr (c : Z -> Z -> bool) (o a b : Z) (v : bool) : Z -> Z -> bool :=
  fun o' i => if (o' =? o) && ((a <=? i) && (i <? b)) then v else c o' i.

(** The words of order [o]. *)
Definition word_of (o cur : Z) : Prop := 0 <= o <= top /\ 0 <= cur /\ cur + 32 <= 2 ^ (n - o) /\ Z.land cur 31 = 0.

Lemma word_pos o cur : word_of o cur -> (word_at (addr_of o) cur).1 = (addr_of o).1 /\ 0 <= (word_at (addr_of o) cur).2 /\ 8 * (word_at (addr_of o) cur).2 = pos o cur.
Proof.
  intros (Ho & H1 & H2 & H3). unfold word_at, pos. cbn. split; [done|]. rewrite Z.shiftr_div_pow2 by lia. change (2 ^ 3) with 8.
  change 31 with (Z.ones 5) in H3. rewrite Z.land_ones in H3 by lia. change (2 ^ 5) with 32 in H3.
  assert (E : cur = 8 * (cur / 8)) by (Z.to_euclidean_division_equations; lia). pose proof (pos_range o 0 ltac:(split; [done|lia])) as [Hp _]. unfold pos in Hp.
  assert (0 <= cur / 8) by (apply Z.div_pos; lia). split; lia.
Qed.

Lemma word_pos_in o cur t : word_of o cur -> 0 <= t < 32 -> valid o (cur + t) /\ pos o (cur + t) = pos o cur + t.
Proof. intros (Ho & H1 & H2 & H3) Ht. split; [split; [done|lia]|unfold pos; lia]. Qed.

Lemma bits_from_ok c k e (addr : mb_addr) size (Q : bitmap -> ext4_buddy -> Prop) :
  view c k e -> 0 <= addr.2 -> 8 * addr.2 + size <= 2 ^ n -> Q (drop (Z.to_nat (8 * addr.2)) (block_bits addr.1 e)) e -> runs (bits_from addr size) e Q.
Proof.
  intros V H1 H2 HQ. unfold runs, bits_from. cbv zeta. rewrite (block_len _ _ _ addr.1 V). by rewrite (proj2 (Z.leb_le 0 _)), (proj2 (Z.leb_le _ (2 ^ n))) by done.
Qed.

Lemma write_word_ok v c k e o cur (Q : unit -> ext4_buddy -> Prop) :
  view c k e -> word_of o cur -> (forall e', view (updr c o cur (cur + 32) (negb v)) k e' -> stats e' = stats e -> Q tt e') ->
  runs (write_word v (word_at (addr_of o) cur)) e Q.
Proof.
  intros V Hw HQ. destruct (word_pos o cur Hw) as (E1 & E2 & E3). unfold write_word. rstep.
  destruct (word_pos_in o cur 31 Hw ltac:(lia)) as [Hv31 Ep31]. pose proof (pos_range o _ Hv31) as [Hp31 _].
  destruct (word_pos_in o cur 0 Hw ltac:(lia)) as [Hv0 _]. rewrite Z.add_0_r in Hv0. pose proof (pos_range o _ Hv0) as [Hp0 _].
  eapply bits_from_ok; [done|done|lia|]. apply runs_modify, HQ; [|apply (block_upd (word_at (addr_of o) cur).1)].
  apply (view_upd c k e _ _ o (fun i => (cur <=? i) && (i <? cur + 32)) v V); [apply Hw|done|intros l; apply length_inserts|].
  intros o' i Hi Ea. rewrite E3. pose proof (block_len _ _ _ (word_at (addr_of o) cur).1 V) as Hlen. destruct (pos_range o' i Hi) as [Hpi _].
  destruct (decide (pos o cur <= pos o' i < pos o cur + 32)) as [Hin|Hin].
  - assert (o' = o /\ i = cur + (pos o' i - pos o cur)) as [-> Ei].
    { destruct (word_pos_in o cur (pos o' i - pos o cur) Hw ltac:(lia)) as [Hv' Ep']. apply pos_inj; [done|done|congruence|lia]. }
    rewrite Z.eqb_refl, (proj2 (Z.leb_le cur i)), (proj2 (Z.ltb_lt i _)) by lia. cbn [andb].
    rewrite list_lookup_inserts by (rewrite ?length_replicate; lia). apply lookup_replicate_2. lia.
  - assert (Hno : (o' =? o) && ((cur <=? i) && (i <? cur + 32)) = false).
    { apply not_true_iff_false. rewrite !andb_true_iff, Z.eqb_eq, Z.leb_le, Z.ltb_lt. intros (-> & H1 & H2). apply Hin.
      destruct (word_pos_in o cur (i - cur) Hw ltac:(lia)) as [_ Ep']. replace (cur + (i - cur)) with i in Ep' by lia. lia. }
    rewrite Hno. destruct (decide (pos o' i < pos o cur)); [apply list_lookup_inserts_lt; lia|apply list_lookup_inserts_ge; rewrite length_replicate; lia].
Qed.

(** Finding bits from an address [d] bytes behind the start of an order. *)
Lemma find_zero_ok c k e o d max start (Q : Z -> ext4_buddy -> Prop) :
  view c k e -> 0 <= o <= top -> 0 <= d -> 8 * d + max <= 2 ^ (n - o) -> 0 <= start <= max ->
  (forall r, start <= r <= max -> (forall j, start <= j < r -> c o (8 * d + j) = false) -> (r < max -> c o (8 * d + r) = true) -> Q r e) ->
  runs (mb_find_next_zero_bit ((addr_of o).1, off o + d) max start) e Q.
Proof.
  intros V Ho Hd Hmax Hst HQ. unfold mb_find_next_zero_bit. pose proof (correct_addr 0 ((addr_of o).1, off o + d)) as Hc.
  assert (Hfix : let '(fx, a) := mb_correct_addr_and_bit 0 ((addr_of o).1, off o + d) in 0 <= fx /\ 0 <= a.2).
  { cbn. pose proof (@mg_bits sbi G). pose proof (pos_range o 0 ltac:(split; [done|apply conj; [lia|apply Z.pow_pos_nonneg; lia]])) as [Hp _]. unfold pos in Hp.
    split; [apply Z.shiftl_nonneg, Z.land_nonneg; lia|]. change 7 with (Z.ones 3). rewrite Z.ldiff_ones_r, Z.shiftr_div_pow2 by lia. apply Z.shiftl_nonneg, Z.div_pos; lia. }
  destruct (mb_correct_addr_and_bit 0 ((addr_of o).1, off o + d)) as [fx a]. destruct Hc as [E1 E2], Hfix as [Hf Ha]. cbn [fst snd] in E1, E2. rewrite Z.add_0_r in E2.
  assert (Hpn : forall t, 0 <= t < max -> valid o (8 * d + t) /\ pos o (8 * d + t) = 8 * a.2 + (fx + t)) by (intros t Ht; split; [split; [done|lia]|unfold pos; lia]).
  assert (Hbound : 8 * a.2 + (max + fx) <= 2 ^ n).
  { destruct (decide (max = 0)) as [->|]; [|destruct (Hpn (max - 1) ltac:(lia)) as [Hv Ep]; pose proof (pos_range o _ Hv) as [Hp _]; lia].
    destruct (decide (d = 0)) as [->|].
    - pose proof (@mg_bits sbi G). pose proof (pos_range o 0 ltac:(split; [done|apply conj; [lia|apply Z.pow_pos_nonneg; lia]])) as [Hp _]. unfold pos in Hp. lia.
    - pose proof (pos_range o (8 * d - 1) ltac:(split; [done|lia])) as [Hp _]. unfold pos in Hp. lia. }
  cbv zeta. rstep. eapply (bits_from_ok c k e); [done|done|done|]. apply runs_ret.
  pose proof (next_zero_spec (drop (Z.to_nat (8 * a.2)) (block_bits a.1 e)) (max + fx) (start + fx) ltac:(lia)) as (R1 & R2 & R3). cbv zeta in *.
  set (r := ext4_find_next_zero_bit _ _ _) in *. rewrite (proj2 (Z.ltb_ge max (r - fx))) by lia.
  assert (Hbit : forall t, 0 <= t < max -> ext4_test_bit (fx + t) (drop (Z.to_nat (8 * a.2)) (block_bits a.1 e)) = negb (c o (8 * d + t))).
  { intros t Ht. destruct (Hpn t Ht) as [Hv Ep]. unfold ext4_test_bit. rewrite lookup_drop, E1.
    replace (Z.to_nat (8 * a.2) + Z.to_nat (fx + t))%nat with (Z.to_nat (pos o (8 * d + t))) by lia. by rewrite (vw_bit _ _ _ V o _ Hv). }
  apply HQ; [lia| |].
  - intros j Hj. specialize (R2 (fx + j) ltac:(lia)). rewrite Hbit in R2 by lia. by apply negb_true_iff in R2.
  - intros Hr. specialize (R3 ltac:(lia)). replace r with (fx + (r - fx)) in R3 by lia. rewrite Hbit in R3 by lia. by apply negb_false_iff in R3.
Qed.

(** The first bit that is set in the bitmap itself. *)
Lemma find_bit_ok c k e max start (Q : Z -> ext4_buddy -> Prop) :
  view c k e -> max <= 2 ^ n -> 0 <= start <= max ->
  (forall r, start <= r <= max -> (forall j, start <= j < r -> c 0 j = true) -> (r < max -> c 0 r = false) -> Q r e) ->
  runs (mb_find_next_bit (BdBitmap, 0) max start) e Q.
Proof.
  intros V Hmax Hst HQ. unfold mb_find_next_bit. cbn [mb_correct_addr_and_bit fst snd]. change (Z.shiftl (Z.land 0 7) 3) with 0. change (Z.ldiff 0 7) with 0. rewrite !Z.add_0_r.
  cbv zeta. rstep. eapply (bits_from_ok c k e); [done|done|cbn [snd]; lia|]. apply runs_ret. cbn [fst snd block_bits]. change (Z.to_nat (8 * 0)) with 0%nat. rewrite drop_0.
  pose proof (next_zero_spec (negb <$> bd_bitmap e) max start ltac:(lia)) as (R1 & R2 & R3). cbv zeta in *. unfold ext4_find_next_bit.
  set (r := ext4_find_next_zero_bit _ _ _) in *. rewrite Z.sub_0_r, (proj2 (Z.ltb_ge max r)) by lia.
  assert (Hbit : forall t, 0 <= t < max -> ext4_test_bit t (negb <$> bd_bitmap e) = c 0 t).
  { intros t Ht. unfold ext4_test_bit. rewrite list_lookup_fmap. pose proof (@mg_bits sbi G).
    pose proof (vw_bit _ _ _ V 0 t ltac:(split; [lia|replace (n - 0) with n by lia; lia])) as Hb. cbn [addr_of Z.eqb fst block_bits] in Hb.
    change (pos 0 t) with (0 + t) in Hb. rewrite Z.add_0_l in Hb. rewrite Hb. cbn. by rewrite negb_involutive. }
  apply HQ; [lia| |].
  - intros j Hj. rewrite <- Hbit by lia. apply R2. lia.
  - intros Hr. rewrite <- Hbit by lia. by apply R3.
Qed.

Lemma whole_word_of o cur stop : 0 <= o <= top -> 0 <= cur -> stop <= 2 ^ (n - o) -> whole_word cur stop = true -> word_of o cur /\ cur + 32 <= stop.
Proof. intros Ho Hc Hs [E1%Z.eqb_eq E2%Z.leb_le]%andb_true_iff. split; [split; [done|split_and!; [done|lia|done]]|lia]. Qed.

Lemma updr_step c o cur mid stop v o' i :
  cur <= mid <= stop -> updr (updr c o cur mid v) o mid stop v o' i = updr c o cur stop v o' i.
Proof.
  intros Hm. unfold updr. destruct (Z.eqb_spec o' o), (Z.leb_spec cur i), (Z.leb_spec mid i), (Z.ltb_spec i mid), (Z.ltb_spec i stop); cbn; done || lia.
Qed.

Lemma updr_one c o cur v o' i : upd2 c o cur v o' i = updr c o cur (cur + 1) v o' i.
Proof. rewrite upd2_eq. unfold updr. destruct (Z.eqb_spec o' o), (Z.eqb_spec i cur), (Z.leb_spec cur i), (Z.ltb_spec i (cur + 1)); cbn; done || lia. Qed.

Lemma updr_none c o cur stop v o' i : stop <= cur -> updr c o cur stop v o' i = c o' i.
Proof. intros Hs. unfold updr. destruct (Z.eqb_spec o' o), (Z.leb_spec cur i), (Z.ltb_spec i stop); cbn; done || lia. Qed.

Lemma view_step c c' o cur mid stop v k e :
  cur <= mid <= stop -> (forall o' i, c' o' i = updr c o cur mid v o' i) -> view (updr c' o mid stop v) k e -> view (updr c o cur stop v) k e.
Proof.
  intros Hm Ec V. eapply view_ext; [exact V| |done]. intros o' i _. rewrite <- (updr_step c o cur mid) by done. unfold updr at 1 2. by rewrite Ec.
Qed.

Lemma clear_loop_ok fuel c k e o cur stop (Q : unit -> ext4_buddy -> Prop) :
  view c k e -> 0 <= o <= top -> 0 <= cur <= stop -> stop <= 2 ^ (n - o) -> stop - cur < Z.of_nat fuel ->
  (forall e', view (updr c o cur stop true) k e' -> stats e' = stats e -> Q tt e') -> runs (clear_loop fuel (addr_of o) cur stop) e Q.
Proof.
  revert c e cur. induction fuel as [|fuel IH]; intros c e cur V Ho Hc Hs Hf HQ; [lia|]. cbn [clear_loop].
  destruct (Z.leb_spec stop cur); [apply runs_ret, HQ; [|done]; eapply view_ext; [exact V|intros; by rewrite updr_none|done]|].
  destruct (whole_word cur stop) eqn:Ew.
  - destruct (whole_word_of o cur stop) as [Hw Hw2]; [done|lia|done|done|]. rstep. eapply write_word_ok; [done|done|]. intros e1 V1 S1.
    eapply IH; [exact V1|done|lia|done|lia|]. intros e2 V2 S2. apply HQ; [|congruence]. by eapply (view_step c _ o cur (cur + 32)); [lia|done|].
  - rstep. eapply clear_ok; [done|split; [done|lia]|]. intros e1 V1 S1.
    eapply IH; [exact V1|done|lia|done|lia|]. intros e2 V2 S2. apply HQ; [|congruence]. eapply (view_step c _ o cur (cur + 1)); [lia|intros; by rewrite updr_one|done].
Qed.

Lemma clear_bits_ok c k e o cur len (Q : unit -> ext4_buddy -> Prop) :
  view c k e -> 0 <= o <= top -> 0 <= cur -> 0 <= len -> cur + len <= 2 ^ (n - o) ->
  (forall e', view (updr c o cur (cur + len) true) k e' -> stats e' = stats e -> Q tt e') -> runs (mb_clear_bits (addr_of o) cur len) e Q.
Proof. intros V Ho Hc Hl Hs HQ. eapply clear_loop_ok; [exact V|done|lia|lia|lia|done]. Qed.

Lemma set_loop_ok fuel c k e o cur stop (Q : unit -> ext4_buddy -> Prop) :
  view c k e -> 0 <= o <= top -> 0 <= cur <= stop -> stop <= 2 ^ (n - o) -> stop - cur < Z.of_nat fuel ->
  (forall e', view (updr c o cur stop false) k e' -> stats e' = stats e -> Q tt e') -> runs (set_loop fuel (addr_of o) cur stop) e Q.
Proof.
  revert c e cur. induction fuel as [|fuel IH]; intros c e cur V Ho Hc Hs Hf HQ; [lia|]. cbn [set_loop].
  destruct (Z.leb_spec stop cur); [apply runs_ret, HQ; [|done]; eapply view_ext; [exact V|intros; by rewrite updr_none|done]|].
  destruct (whole_word cur stop) eqn:Ew.
  - destruct (whole_word_of o cur stop) as [Hw Hw2]; [done|lia|done|done|]. rstep. eapply write_word_ok; [done|done|]. intros e1 V1 S1.
    eapply IH; [exact V1|done|lia|done|lia|]. intros e2 V2 S2. apply HQ; [|congruence]. by eapply (view_step c _ o cur (cur + 32)); [lia|done|].
  - rstep. eapply set_ok; [done|split; [done|lia]|]. intros e1 V1 S1.
    eapply IH; [exact V1|done|lia|done|lia|]. intros e2 V2 S2. apply HQ; [|congruence]. eapply (view_step c _ o cur (cur + 1)); [lia|intros; by rewrite updr_one|done].
Qed.

Lemma set_range_ok c k e o cur len (Q : unit -> ext4_buddy -> Prop) :
  view c k e -> 0 <= o <= top -> 0 <= cur -> 0 <= len -> cur + len <= 2 ^ (n - o) ->
  (forall e', view (updr c o cur (cur + len) false) k e' -> stats e' = stats e -> Q tt e') -> runs (ext4_set_bits (addr_of o) cur len) e Q.
Proof. intros V Ho Hc Hl Hs HQ. eapply set_loop_ok; [exact V|done|lia|lia|lia|done]. Qed.

(** The first bit of the range that was clear, or -1. *)
Definition first_clear (c : Z -> Z -> bool) (o cur stop z : Z) : Prop :=
  z = -1 /\ (forall i, cur <= i < stop -> c o i = false) \/ cur <= z < stop /\ c o z = true /\ (forall i, cur <= i < z -> c o i = false).

Lemma first_clear_skip c c' o cur mid stop z :
  (forall i, cur <= i < mid -> c o i = false) -> cur <= mid -> (forall i, mid <= i -> c' o i = c o i) -> first_clear c' o mid stop z -> first_clear c o cur stop z.
Proof.
  intros Hskip Hm Ec [[-> Hz]|(Hz1 & Hz2 & Hz3)].
  - left. split; [done|]. intros i Hi. destruct (Z.lt_ge_cases i mid); [apply Hskip; lia|]. rewrite <- Ec by lia. apply Hz. lia.
  - right. split_and!; [lia|lia|rewrite <- Ec by lia; done|]. intros i Hi. destruct (Z.lt_ge_cases i mid); [apply Hskip; lia|]. rewrite <- Ec by lia. apply Hz3. lia.
Qed.

Lemma read_word_ok c k e o cur (Q : bitmap -> ext4_buddy -> Prop) :
  view c k e -> word_of o cur ->
  (forall w, forallb id w = true <-> (forall i, cur <= i < cur + 32 -> c o i = false) -> Q w e) ->
  runs (read_word (word_at (addr_of o) cur)) e Q.
Proof.
  intros V Hw HQ. destruct (word_pos o cur Hw) as (E1 & E2 & E3). unfold read_word. rstep.
  destruct (word_pos_in o cur 31 Hw ltac:(lia)) as [Hv31 Ep31]. pose proof (pos_range o _ Hv31) as [Hp31 _].
  destruct (word_pos_in o cur 0 Hw ltac:(lia)) as [Hv0 Ep0]. pose proof (pos_range o _ Hv0) as [Hp0 _].
  eapply bits_from_ok; [exact V|done|lia|]. apply runs_ret, HQ. rewrite E1, E3, forallb_forall.
  assert (Hl : forall t, 0 <= t < 32 -> take 32 (drop (Z.to_nat (pos o cur)) (block_bits (addr_of o).1 e)) !! Z.to_nat t = Some (negb (c o (cur + t)))).
  { intros t Ht. destruct (word_pos_in o cur t Hw Ht) as [Hv Ep]. rewrite lookup_take_lt by lia. rewrite lookup_drop.
    replace (Z.to_nat (pos o cur) + Z.to_nat t)%nat with (Z.to_nat (pos o (cur + t))) by lia. by apply (vw_bit _ _ _ V). }
  split.
  - intros Hall i Hi. specialize (Hl (i - cur) ltac:(lia)). replace (cur + (i - cur)) with i in Hl by lia.
    apply negb_true_iff, Hall, list_elem_of_In, list_elem_of_lookup. by eexists.
  - intros Hall x [t Ht]%list_elem_of_In%list_elem_of_lookup. assert ((t < 32)%nat) by (apply lookup_lt_Some in Ht; rewrite length_take in Ht; lia).
    specialize (Hl (Z.of_nat t) ltac:(lia)). rewrite Nat2Z.id, Ht in Hl. injection Hl as ->. rewrite Hall by lia. done.
Qed.

Lemma find_zero_word c k e o cur (Q : Z -> ext4_buddy -> Prop) :
  view c k e -> word_of o cur ->
  (forall r, 0 <= r <= 32 -> (forall j, 0 <= j < r -> c o (cur + j) = false) -> (r < 32 -> c o (cur + r) = true) -> Q r e) ->
  runs (mb_find_next_zero_bit (word_at (addr_of o) cur) 32 0) e Q.
Proof.
  intros V Hw HQ. pose proof Hw as (Ho & H1 & H2 & H3). unfold word_at. cbn [addr_of fst snd]. change 31 with (Z.ones 5) in H3.
  rewrite Z.land_ones in H3 by lia. change (2 ^ 5) with 32 in H3. assert (E : 8 * Z.shiftr cur 3 = cur) by (rewrite Z.shiftr_div_pow2 by lia; change (2 ^ 3) with 8; Z.to_euclidean_division_equations; lia).
  eapply (find_zero_ok c k e o (Z.shiftr cur 3) 32 0 Q V Ho); [apply Z.shiftr_nonneg; lia|lia|lia|]. rewrite E. exact HQ.
Qed.

Lemma test_clear_loop_ok fuel c k e o cur stop zb (Q : Z -> ext4_buddy -> Prop) :
  view c k e -> 0 <= o <= top -> 0 <= cur <= stop -> stop <= 2 ^ (n - o) -> stop - cur < Z.of_nat fuel ->
  (forall z e', (if zb =? -1 then first_clear c o cur stop z else z = zb) -> view (updr c o cur stop true) k e' -> stats e' = stats e -> Q z e') ->
  runs (test_clear_loop fuel (addr_of o) cur stop zb) e Q.
Proof.
  revert c e cur zb. induction fuel as [|fuel IH]; intros c e cur zb V Ho Hc Hs Hf HQ; [lia|]. cbn [test_clear_loop].
  destruct (Z.leb_spec stop cur).
  { apply runs_ret, HQ; [|eapply view_ext; [exact V|intros; by rewrite updr_none|done]|done]. destruct (Z.eqb_spec zb (-1)); [left; split; [done|lia]|done]. }
  assert (Hnext : forall mid zb' c' e1, cur < mid <= stop -> (forall o' i, c' o' i = updr c o cur mid true o' i) -> view c' k e1 -> stats e1 = stats e ->
    (zb <> -1 -> zb' = zb) -> (zb = -1 -> zb' = -1 /\ (forall i, cur <= i < mid -> c o i = false) \/ 0 <= zb' /\ first_clear c o cur mid zb') ->
    runs (test_clear_loop fuel (addr_of o) mid stop zb') e1 Q).
  { intros mid zb' c' e1 Hm Ec V1 S1 Hz1 Hz2. eapply IH; [exact V1|done|lia|done|lia|]. intros z e2 Hz V2 S2. apply HQ; [|by eapply (view_step c c' o cur mid); [lia|done|]|congruence].
    destruct (Z.eqb_spec zb (-1)) as [E|E]; [|rewrite (Hz1 E), (proj2 (Z.eqb_neq _ _)) in Hz by done; done].
    destruct (Hz2 E) as [[-> Hskip]|[Hz3 Hz4]].
    - rewrite Z.eqb_refl in Hz. apply (first_clear_skip c c' o cur mid); [done|lia| |done]. intros i Hi. rewrite Ec. unfold updr. by rewrite (proj2 (Z.ltb_ge i mid)), !andb_false_r by lia.
    - rewrite (proj2 (Z.eqb_neq zb' (-1))) in Hz by lia. subst z. destruct Hz4 as [[-> _]|(Hz5 & Hz6 & Hz7)]; [lia|]. right. split_and!; [lia|lia|done|done]. }
  destruct (whole_word cur stop) eqn:Ew.
  - destruct (whole_word_of o cur stop) as [Hw Hw2]; [done|lia|done|done|]. rstep. eapply read_word_ok; [done|done|]. intros w Hall. rstep.
    apply runs_conseq with (P := fun zb' e1 => e1 = e /\ (zb <> -1 -> zb' = zb) /\
      (zb = -1 -> zb' = -1 /\ (forall i, cur <= i < cur + 32 -> c o i = false) \/ 0 <= zb' /\ first_clear c o cur (cur + 32) zb')).
    + destruct (negb (forallb id w) && (zb =? -1)) eqn:Et.
      * apply andb_true_iff in Et as [Et ->%Z.eqb_eq]. rstep. eapply find_zero_word; [done|done|]. intros r Hr1 Hr2 Hr3. apply runs_ret. split_and!; [done|done|]. intros _.
        destruct (decide (r < 32)) as [Hr|Hr].
        { right. split; [lia|]. right. split_and!; [lia|lia|by apply Hr3|]. intros i Hi. replace i with (cur + (i - cur)) by lia. apply Hr2. lia. }
        exfalso. apply negb_true_iff, not_true_iff_false in Et. apply Et, Hall. intros i Hi. replace i with (cur + (i - cur)) by lia. apply Hr2. lia.
      * apply runs_ret. split_and!; [done|done|]. intros ->. rewrite Z.eqb_refl, andb_true_r in Et. apply negb_false_iff in Et. left. split; [done|]. by apply Hall.
    + intros zb' ? (-> & Hz1 & Hz2). rstep. eapply write_word_ok; [done|done|]. intros e1 V1 S1. eapply (Hnext (cur + 32) zb' _ e1); [lia|done|exact V1|done|done|done].
  - rstep. eapply test_clear_ok; [done|split; [done|lia]|]. intros e1 V1 S1. eapply (Hnext (cur + 1) _ _ e1); [lia|intros; by rewrite updr_one|exact V1|done| |].
    + intros E. by rewrite (proj2 (Z.eqb_neq zb (-1))), andb_false_r by done.
    + intros ->. rewrite Z.eqb_refl, andb_true_r, negb_involutive. destruct (c o cur) eqn:Ec; [|left; split; [done|]; intros i Hi; by replace i with cur by lia].
      right. split; [lia|]. right. split_and!; [lia|lia|done|lia].
Qed.

Lemma test_clear_bits_ok c k e o cur len (Q : Z -> ext4_buddy -> Prop) :
  view c k e -> 0 <= o <= top -> 0 <= cur -> 0 <= len -> cur + len <= 2 ^ (n - o) ->
  (forall z e', first_clear c o cur (cur + len) z -> view (updr c o cur (cur + len) true) k e' -> stats e' = stats e -> Q z e') ->
  runs (mb_test_and_clear_bits (addr_of o) cur len) e Q.
Proof. intros V Ho Hc Hl Hs HQ. eapply test_clear_loop_ok; [exact V|done|lia|lia|lia|done]. Qed.

(** ** Counters *)

Lemma add_counter_ok c k e o d (Q : unit -> ext4_buddy -> Prop) :
  view c k e -> 0 <= o <= top -> (forall e', view c (<[o := k o + d]> k) e' -> stats e' = stats e -> Q tt e') -> runs (add_counter o d) e Q.
Proof.
  intros V Ho HQ. unfold add_counter. rstep. unfold info at 1. apply runs_gets. rstep. apply runs_check; [rewrite (vw_counters _ _ _ V); apply andb_true_iff; split; [apply Z.leb_le|apply Z.ltb_lt]; lia|].
  apply runs_modify, HQ; [|by destruct e as [? ? [] ? ? ?]]. pose proof V as [V1 V2 V3 V4 V5]. split; [by destruct e|by destruct e| | |].
  - intros o' i Hv. rewrite <- (V3 o' i Hv). unfold block_bits. by destruct (addr_of o').1, e.
  - rewrite <- V4. destruct e as [? ? [] ? ? ?]. cbn. by rewrite length_alter.
  - intros o' Ho'. specialize (V5 o' Ho'). rewrite fn_upd. destruct e as [? ? [] ? ? ?]. cbn in V5 |- *. destruct (Z.eqb_spec o' o) as [->|Hne].
    + by rewrite list_lookup_alter_eq, V5.
    + rewrite list_lookup_alter_ne by lia. done.
Qed.

(** The order of the piece with cluster [b]; 0 if no order has one. *)
Definition order_of (c : Z -> Z -> bool) (b o : Z) : Prop :=
  (forall o', 1 <= o' <= top -> (o = 0 \/ o' < o) -> c o' (b / 2 ^ o') = false) /\ (o = 0 \/ 1 <= o <= top /\ c o (b / 2 ^ o) = true).

Lemma div_valid o b : 0 <= o <= top -> 0 <= b < 2 ^ n -> valid o (b / 2 ^ o).
Proof.
  intros Ho Hb. split; [done|]. pose proof (Z.pow_pos_nonneg 2 o ltac:(lia) ltac:(lia)). split; [apply Z.div_pos; lia|].
  apply Z.div_lt_upper_bound; [lia|]. rewrite <- Z.pow_add_r by lia. replace (o + (n - o)) with n by lia. lia.
Qed.

Lemma find_order_loop_ok fuel c k e b o incr (Q : Z -> ext4_buddy -> Prop) :
  view c k e -> 0 <= b < 2 ^ n -> 1 <= o <= top + 1 -> Z.of_nat fuel = top + 2 - o -> incr = Z.shiftr (2 ^ (bits - 1)) (o - 1) ->
  (forall o', 1 <= o' < o -> c o' (b / 2 ^ o') = false) -> (forall r, order_of c b r -> Q r e) ->
  runs (find_order_loop sbi fuel o (b / 2 ^ (o - 1)) (if o <=? top then off o else 0) incr) e Q.
Proof.
  intros V Hb. pose proof (@mg_bits sbi G) as Hbits. revert o incr. induction fuel as [|fuel IH]; intros o incr Ho Hf -> Hlow HQ; [lia|]. cbn [find_order_loop].
  destruct (Z.ltb_spec (bits + 1) o) as [Hlt|Hle]; [apply runs_ret, HQ; split; [intros o' Ho' _; apply Hlow; lia|by left]|].
  rewrite (proj2 (Z.leb_le o _)), Z.shiftr_div_pow2 by lia. change (2 ^ 1) with 2. cbv zeta.
  rewrite div_pow_succ by lia. replace (o - 1 + 1) with o by lia. rstep. pose proof (div_valid o b ltac:(lia) Hb) as Hv.
  replace (BdBuddy, off o) with (addr_of o) by (unfold addr_of; by rewrite (proj2 (Z.eqb_neq o 0)) by lia). eapply test_ok; [done|done|]. rewrite negb_involutive.
  destruct (c o (b / 2 ^ o)) eqn:Ec.
  { apply runs_ret, HQ. split; [|right; split; [lia|done]]. intros o' Ho' [->|Hlt]; [lia|]. apply Hlow. lia. }
  assert (Hlow' : forall o', 1 <= o' < o + 1 -> c o' (b / 2 ^ o') = false) by (intros o' Ho'; destruct (decide (o' = o)) as [->|]; [done|apply Hlow; lia]).
  specialize (IH (o + 1) (Z.shiftr (Z.shiftr (2 ^ (bits - 1)) (o - 1)) 1)). replace (o + 1 - 1) with o in IH by lia.
  destruct (Z.leb_spec (o + 1) (bits + 1)) as [H1|H1].
  - replace (off o + _) with (off (o + 1)); [apply IH; [lia|lia|rewrite Z.shiftr_shiftr by lia; f_equal; lia|done|done]|].
    unfold off. rewrite !(proj2 (Z.eqb_neq _ 0)) by lia. rewrite Z.shiftr_div_pow2, <- Z.pow_sub_r by lia. replace (bits - (o + 1) + 1) with (bits - o) by lia.
    replace (bits - 1 - (o - 1)) with (bits - o) by lia. rewrite Z.pow_add_r by lia. lia.
  - destruct fuel as [|fuel]; [lia|]. cbn [find_order_loop]. rewrite (proj2 (Z.ltb_lt _ (o + 1))) by lia. apply runs_ret, HQ. split; [intros o' Ho' _; apply Hlow'; lia|by left].
Qed.

Lemma find_order_ok c k e b (Q : Z -> ext4_buddy -> Prop) :
  view c k e -> 0 <= b < 2 ^ n -> (forall r, order_of c b r -> Q r e) -> runs (mb_find_order_for_block sbi b) e Q.
Proof.
  intros V Hb HQ. pose proof (@mg_bits sbi G) as Hbits. unfold mb_find_order_for_block. rstep. apply runs_check; [rewrite Z.shiftl_1_l; apply Z.ltb_lt; lia|]. rewrite Z.shiftl_1_l.
  pose proof (find_order_loop_ok (Z.to_nat (bits + 2)) c k e b 1 (2 ^ (bits - 1)) Q V Hb) as Hl. rewrite Z.div_1_r in Hl.
  rewrite (proj2 (Z.leb_le 1 _)) in Hl by lia. assert (E : off 1 = 0) by (unfold off; cbn; replace (bits - 1 + 1) with bits by lia; lia).
  rewrite E in Hl. apply Hl; [lia|lia|by rewrite Z.shiftr_0_r|lia|done].
Qed.

(** [l] is the largest order with a free chunk, -1 if there is none. *)
Definition largest (k : Z -> Z) (l : Z) : Prop :=
  -1 <= l <= top /\ (0 <= l -> 0 < k l) /\ forall o, l < o <= top -> 0 <= o -> k o <= 0.

Lemma set_largest_ok c k e (Q : unit -> ext4_buddy -> Prop) :
  view c k e -> (forall l, largest k l -> Q tt (e <| bd_info ::= fun g => g <| bb_largest_free_order := l |> |>)) -> runs (mb_set_largest_free_order sbi) e Q.
Proof.
  intros V HQ. pose proof (@mg_bits sbi G) as Hbits. unfold mb_set_largest_free_order. rstep. apply runs_modify. set (e1 := e <| bd_info ::= _ |>).
  assert (V1 : view c k e1) by (apply (view_same c k e); by destruct e as [? ? [] ? ? ?]).
  assert (Hgen : forall fuel i, Z.of_nat fuel = i + 1 -> -1 <= i <= top -> (forall o, i < o <= top -> k o <= 0) -> runs (largest_loop fuel i) e1 Q); [|apply Hgen; lia].
  induction fuel as [|fuel IH]; intros i Hf Hi Hup; cbn [largest_loop].
  - apply runs_ret. apply (HQ (-1)). split_and!; [lia|lia|lia|]. intros o Ho Ho0. apply Hup. lia.
  - rstep. unfold info at 1. apply runs_gets. rewrite (vw_counter _ _ _ V1 i) by lia. destruct (Z.ltb_spec 0 (k i)) as [Hp|Hp].
    + apply runs_modify. assert (Hl : largest k i) by (split_and!; [lia|lia|done|intros o Ho _; by apply Hup]). specialize (HQ i Hl). by destruct e as [? ? [] ? ? ?].
    + apply IH; [lia|lia|]. intros o Ho. destruct (decide (o = i)) as [->|]; [lia|]. apply Hup. lia.
Qed.
End bits.

(** ** The lowest set bit *)

Lemma ctz_spec p : 0 <= ctz p /\ Z.testbit (Zpos p) (ctz p) = true /\ forall j, j < ctz p -> Z.testbit (Zpos p) j = false.
Proof.
  induction p as [p IH|p IH|]; cbn [ctz]; [split_and!; [lia|done|intros j Hj; apply Z.testbit_neg_r; lia]| |split_and!; [lia|done|intros j Hj; apply Z.testbit_neg_r; lia]].
  destruct IH as (I1 & I2 & I3). change (Zpos p~0) with (2 * Zpos p). split_and!; [lia| |].
  - rewrite Z.double_bits. by replace (Z.pred (1 + ctz p)) with (ctz p) by lia.
  - intros j Hj. rewrite Z.double_bits. apply I3. lia.
Qed.

Lemma mod_pow_bits a v : 0 <= v -> a mod 2 ^ v = 0 <-> forall j, 0 <= j < v -> Z.testbit a j = false.
Proof.
  intros Hv. split.
  - intros H j Hj. rewrite <- (Z.mod_pow2_bits_low a v) by lia. rewrite H. apply Z.bits_0.
  - intros H. apply Z.bits_inj_0. intros j. destruct (Z.lt_ge_cases j 0); [by apply Z.testbit_neg_r|].
    destruct (Z.lt_ge_cases j v); [rewrite Z.mod_pow2_bits_low by done; apply H; lia|apply Z.mod_pow2_bits_high; lia].
Qed.

(** [ffs(first | border) - 1]: the alignment of [first], at most the highest order. *)
Lemma ffs_align p top :
  0 <= p -> 0 <= top -> let v := ffs (Z.lor p (2 ^ top)) - 1 in
  0 <= v <= top /\ p mod 2 ^ v = 0 /\ (v < top -> p mod 2 ^ (v + 1) <> 0).
Proof.
  intros Hp Ht v. pose proof (Z.pow_pos_nonneg 2 top ltac:(lia) Ht). assert (Hb : forall j, 0 <= j -> Z.testbit (Z.lor p (2 ^ top)) j = Z.testbit p j || (j =? top)).
  { intros j Hj. rewrite Z.lor_spec, Z.pow2_bits_eqb by done. by rewrite Z.eqb_sym. }
  assert (Hpos : 0 < Z.lor p (2 ^ top)).
  { assert (0 <= Z.lor p (2 ^ top)) by (apply Z.lor_nonneg; lia). assert (Z.lor p (2 ^ top) <> 0) by (intros [_ ?]%Z.lor_eq_0_iff; lia). lia. }
  unfold v in *. clear v. destruct (Z.lor p (2 ^ top)) as [|x|x]; [lia| |lia]. cbn [ffs]. rewrite Z.add_simpl_r. destruct (ctz_spec x) as (C1 & C2 & C3).
  assert (Hle : ctz x <= top) by (destruct (Z.lt_ge_cases top (ctz x)) as [Hlt|]; [|done]; pose proof (Hb top Ht) as E; rewrite (C3 top), Z.eqb_refl, orb_true_r in E by done; done).
  split_and!; [done|done| |].
  - apply mod_pow_bits; [done|]. intros j Hj. pose proof (Hb j ltac:(lia)) as E. rewrite C3 in E by lia. symmetry in E. by apply orb_false_iff in E as [-> _].
  - intros Hlt Hm. rewrite mod_pow_bits in Hm by lia. pose proof (Hb (ctz x) C1) as E. rewrite C2, Hm, (proj2 (Z.eqb_neq _ top)) in E by lia. done.
Qed.
