(* ===== verification/BuddyFacts.v ===== *)
(** * mqfs: the invariant of a group's buddy, and freeing

    [pieces f q e]: the bitmap of [e] is [f], the orders from 1 on are the
    pieces [q], and every counter is the number of its pieces.  The invariant
    [mb_inv f e] is that the pieces are the maximal free chunks of [f]. *)

From S2P Require Import Prelude BlockGroup Buddy BuddyChunks BuddyBits.

Section facts.
Context (sbi : ext4_sb_info) {G : mb_geo sbi}.
#[local] Abbreviation bits := (s_blocksize_bits sbi).
#[local] Abbreviation n := (s_blocksize_bits sbi + 3).
#[local] Abbreviation top := (s_blocksize_bits sbi + 1).
#[local] Abbreviation chunk := (chunk (s_blocksize_bits sbi + 1)).

Lemma orders : 0 <= top < n.
Proof using G. pose proof (@mg_bits sbi G). lia. Qed.

Definition piece_bits (f : Z -> bool) (q : Z -> Z -> bool) : Z -> Z -> bool := fun o i => if o =? 0 then f i else q o i.
Definition piece_counts (q : Z -> Z -> bool) : Z -> Z := fun o => cnt (q o) (2 ^ (n - o)).
Definition pieces (f : Z -> bool) (q : Z -> Z -> bool) (e : ext4_buddy) : Prop := view sbi (piece_bits f q) (piece_counts q) e.

Lemma pieces_ext f q f' q' e :
  pieces f q e -> (forall i, 0 <= i < 2 ^ n -> f i = f' i) -> (forall o i, 0 <= o <= top -> 0 <= i < 2 ^ (n - o) -> q o i = q' o i) -> pieces f' q' e.
Proof.
  intros V Ef Eq. eapply view_ext; [exact V| |].
  - intros o i [Ho Hi]. unfold piece_bits. destruct (Z.eqb_spec o 0) as [->|]; [apply Ef; by replace (n - 0) with n in Hi by lia|by apply Eq].
  - intros o Ho. apply cnt_ext. intros i Hi. by apply Eq.
Qed.

(** A piece appears or disappears, with its counter. *)
Lemma pieces_upd f q o i v d e :
  valid sbi o i -> d = Z.b2z v - Z.b2z (q o i) ->
  view sbi (upd2 (piece_bits f q) o i v) (<[o := piece_counts q o + d]> (piece_counts q)) e ->
  pieces (if o =? 0 then <[i := v]> f else f) (upd2 q o i v) e.
Proof.
  intros [Ho Hi] -> V. eapply view_ext; [exact V| |].
  - intros o' j _. unfold piece_bits. rewrite !upd2_eq. destruct (Z.eqb_spec o' o) as [->|Hne]; cbn [andb].
    + destruct (Z.eqb_spec o 0) as [->|]; [by rewrite fn_upd|done].
    + destruct (Z.eqb_spec o' 0) as [->|]; [|done]. by destruct (Z.eqb_spec o 0); [lia|].
  - intros o' _. rewrite fn_upd. unfold piece_counts. destruct (Z.eqb_spec o' o) as [->|Hne].
    + rewrite (cnt_upd (upd2 q o i v o) (q o) _ i); [by rewrite upd2_hit; lia|done|]. intros j _ Hj. by rewrite upd2_miss by lia.
    + apply cnt_ext. intros j _. by rewrite upd2_miss by lia.
Qed.

Lemma piece_bits_eq f q o i : o <> 0 -> piece_bits f q o i = q o i.
Proof. intros Ho. unfold piece_bits. by rewrite (proj2 (Z.eqb_neq _ _)). Qed.

(** ** The invariant *)

(** Cluster [b] is free in the bitmap. *)
Definition free_at (e : ext4_buddy) (b : Z) : bool :=
  (0 <=? b) && match bd_bitmap e !! Z.to_nat b with Some v => negb v | None => false end.

Record mb_inv (f : Z -> bool) (e : ext4_buddy) : Prop := mk_mb_inv {
  mi_inside : inside n f;
  mi_pieces : pieces f (chunk f) e;
  mi_free : bb_free (bd_info e) = cnt f (2 ^ n);
  mi_fragments : bb_fragments (bd_info e) = cnt (run_start f) (2 ^ n);
  mi_first : 0 <= bb_first_free (bd_info e) /\ forall b, f b = true -> bb_first_free (bd_info e) <= b;
  mi_largest : largest sbi (piece_counts (chunk f)) (bb_largest_free_order (bd_info e));
}.

(** The buddy agrees with the bitmap. *)
Definition mb_ok (e : ext4_buddy) : Prop := mb_inv (free_at e) e.

Lemma chunk_ext f f' o i : 0 <= o -> (forall b, f b = f' b) -> chunk f o i = chunk f' o i.
Proof. intros Ho E. unfold BuddyChunks.chunk. by rewrite (allfree_ext f f'), (allfree_ext f f' (o + 1)) by (done || lia). Qed.

Lemma pieces_free f q e b : pieces f q e -> 0 <= b < 2 ^ n -> free_at e b = f b.
Proof using G.
  intros V Hb. unfold free_at. rewrite (proj2 (Z.leb_le 0 b)) by lia. pose proof orders.
  pose proof (vw_bit _ _ _ _ V 0 b ltac:(split; [lia|by replace (n - 0) with n by lia])) as E. cbn [addr_of Z.eqb fst block_bits] in E.
  change (pos sbi 0 b) with (0 + b) in E. rewrite Z.add_0_l in E. rewrite E. cbn. apply negb_involutive.
Qed.

Lemma free_at_range f q e b : pieces f q e -> free_at e b = true -> 0 <= b < 2 ^ n.
Proof.
  intros V [Hb Hl]%andb_true_iff. apply Z.leb_le in Hb. destruct (_ !! _) eqn:E; [|done]. apply lookup_lt_Some in E. pose proof (vw_bitmap _ _ _ _ V). lia.
Qed.

Lemma mb_inv_free f e b : inside n f -> pieces f (chunk f) e -> free_at e b = f b.
Proof using G.
  intros Hin V. destruct (decide (0 <= b < 2 ^ n)) as [Hb|Hb]; [by eapply pieces_free|].
  transitivity false; [|symmetry]; apply not_true_iff_false; [intros Hf; by eapply free_at_range in Hf|intros Hf; by apply Hin in Hf].
Qed.

Lemma mb_inv_ext f f' e : (forall b, f b = f' b) -> mb_inv f e -> mb_inv f' e.
Proof.
  intros E [I1 I2 I3 I4 I5 I6]. split.
  - intros b Hb. apply I1. by rewrite E.
  - eapply pieces_ext; [exact I2|done|]. intros o i Ho _. by apply chunk_ext; [lia|].
  - rewrite I3. by apply cnt_ext.
  - rewrite I4. apply cnt_ext. intros i _. unfold run_start. by rewrite !E.
  - split; [apply I5|]. intros b Hb. apply I5. by rewrite E.
  - assert (Ek : forall o, 0 <= o -> piece_counts (chunk f') o = piece_counts (chunk f) o) by (intros o Ho; apply cnt_ext; intros i _; symmetry; by apply chunk_ext).
    destruct I6 as (L1 & L2 & L3). split_and!; [lia|lia|intros Hl; rewrite Ek by done; by apply L2|intros o Ho Ho0; rewrite Ek by done; by apply L3].
Qed.

Lemma mb_inv_ok f e : mb_inv f e -> mb_ok e /\ forall b, free_at e b = f b.
Proof using G.
  intros I. assert (E : forall b, free_at e b = f b) by (intros b; apply mb_inv_free; apply I). split; [|done]. eapply mb_inv_ext; [|exact I]. done.
Qed.

(** ** Freeing *)

(** The orders below [o] are those of [f'] already. *)
Definition mix (f f' : Z -> bool) (o : Z) : Z -> Z -> bool := fun o' i => if o' <? o then chunk f' o' i else chunk f o' i.

Lemma row_upd (q : Z -> Z -> bool) o i v o' : upd2 q o i v o' = if o' =? o then <[i := v]> (q o) else q o'.
Proof. unfold upd2. apply fn_upd. Qed.

Lemma adjust_ok f q e o bit side (Q : Z -> ext4_buddy -> Prop) :
  pieces f q e -> 1 <= o -> valid sbi o bit -> valid sbi o (bit + side) -> q o bit = false ->
  (forall e', (if q o (bit + side) then pieces f (upd2 q o (bit + side) false) e' else pieces f (upd2 q o bit true) e') -> stats e' = stats e ->
     Q (if q o (bit + side) then bit + side else bit - side) e') ->
  runs (adjust o bit (addr_of sbi o) side) e Q.
Proof using G.
  intros V Ho Hv Hv' Hq HQ. assert (Ho0 : (o =? 0) = false) by (apply Z.eqb_neq; lia). pose proof (proj1 Hv) as Hor. unfold adjust, mb_buddy_adjust_border.
  rstep. rstep. eapply (test_ok sbi); [exact V|done|]. rewrite piece_bits_eq by lia.
  destruct (q o (bit + side)) eqn:E; cbn [negb]; rstep.
  - eapply (set_ok sbi); [exact V|done|]. intros e1 V1 S1. apply runs_ret. cbn [fst snd]. rstep. eapply (add_counter_ok sbi); [exact V1|done|]. intros e2 V2 S2. apply runs_ret, HQ; [|congruence].
    apply (pieces_upd f q o _ false (-1)) in V2; [by rewrite Ho0 in V2|done|by rewrite E].
  - eapply (clear_ok sbi); [exact V|done|]. intros e1 V1 S1. apply runs_ret. cbn [fst snd]. rstep. eapply (add_counter_ok sbi); [exact V1|done|]. intros e2 V2 S2. apply runs_ret, HQ; [|congruence].
    apply (pieces_upd f q o _ true 1) in V2; [by rewrite Ho0 in V2|done|by rewrite Hq].
Qed.

Lemma valid_pair o i : valid sbi o i -> (Z.odd i = true -> valid sbi o (i + -1)) /\ (Z.odd i = false -> valid sbi o (i + 1)).
Proof using G.
  intros [Ho Hi]. pose proof orders. split; intros Hodd; (split; [done|]).
  - destruct (odd_cases i) as [[_ E]|[? _]]; [lia|congruence].
  - destruct (odd_cases i) as [[? _]|[_ E]]; [congruence|]. replace (n - o) with (n - o - 1 + 1) in * by lia. rewrite Z.pow_add_r in * by lia. lia.
Qed.

Lemma adjust_left f q e o a (Q : Z -> ext4_buddy -> Prop) :
  pieces f q e -> 1 <= o -> valid sbi o a -> q o a = false ->
  (forall e', pieces f (<[o := left_bits (q o) a]> q) e' -> stats e' = stats e -> Q (left_border (q o) a) e') ->
  runs (if Z.odd a then adjust o a (addr_of sbi o) (-1) else ret a) e Q.
Proof using G.
  intros V Ho Hv Hq HQ. unfold left_bits, left_border in HQ. destruct (Z.odd a) eqn:Ea.
  - apply (adjust_ok f q e o a (-1) Q V Ho Hv); [by apply valid_pair|done|]. intros e' V' S'. change (a + -1) with (a - 1) in *. specialize (HQ e').
    destruct (q o (a - 1)); apply HQ; done.
  - apply runs_ret, HQ; [|done]. eapply pieces_ext; [exact V|done|]. intros o' i _ _. rewrite fn_upd. by destruct (Z.eqb_spec o' o) as [->|].
Qed.

Lemma adjust_right f q e o b (Q : Z -> ext4_buddy -> Prop) :
  pieces f q e -> 1 <= o -> valid sbi o b -> (Z.odd b = false -> q o b = false) ->
  (forall e', pieces f (<[o := right_bits (q o) b]> q) e' -> stats e' = stats e -> Q (right_border (q o) b) e') ->
  runs (if Z.odd b then ret b else adjust o b (addr_of sbi o) 1) e Q.
Proof using G.
  intros V Ho Hv Hq HQ. unfold right_bits, right_border in HQ. destruct (Z.odd b) eqn:Eb.
  - apply runs_ret, HQ; [|done]. eapply pieces_ext; [exact V|done|]. intros o' i _ _. rewrite fn_upd. by destruct (Z.eqb_spec o' o) as [->|].
  - apply (adjust_ok f q e o b 1 Q V Ho Hv); [by apply valid_pair|by apply Hq|]. intros e' V' S'. specialize (HQ e').
    destruct (q o (b + 1)); apply HQ; done.
Qed.

(** A whole range of one order is cleared and counted. *)
Lemma clear_range_ok f q e o a b (Q : unit -> ext4_buddy -> Prop) :
  pieces f q e -> 1 <= o <= top -> 0 <= a <= b -> b < 2 ^ (n - o) -> (forall i, a <= i <= b -> q o i = false) ->
  (forall e', pieces f (fun o' i => if (o' =? o) && ((a <=? i) && (i <=? b)) then true else q o' i) e' -> stats e' = stats e -> Q tt e') ->
  runs (mb_clear_bits (addr_of sbi o) a (b - a + 1) ;;; add_counter o (b - a + 1)) e Q.
Proof using G.
  intros V Ho Ha Hb Hq HQ. rstep. eapply (clear_bits_ok sbi); [exact V|lia|lia|lia|lia|]. intros e1 V1 S1. eapply (add_counter_ok sbi); [exact V1|lia|]. intros e2 V2 S2.
  apply HQ; [|congruence]. eapply view_ext; [exact V2| |].
  - intros o' i _. unfold updr, piece_bits. replace (i <? a + (b - a + 1)) with (i <=? b) by (apply eq_true_iff_eq; rewrite Z.leb_le, Z.ltb_lt; lia).
    destruct (Z.eqb_spec o' o) as [->|]; cbn [andb]; [|done]. by rewrite (proj2 (Z.eqb_neq o 0)) by lia.
  - intros o' _. rewrite fn_upd. unfold piece_counts. destruct (Z.eqb_spec o' o) as [->|Hne]; cbn [andb]; [|done].
    replace (b - a + 1) with (b + 1 - a) by lia. symmetry. apply cnt_range; [lia|lia|lia| |].
    + intros i _ Hi. destruct (Z.leb_spec a i), (Z.leb_spec i b); done || lia.
    + intros i Hi. rewrite (proj2 (Z.leb_le a i)), (proj2 (Z.leb_le i b)), Hq by lia. done.
Qed.

Lemma mix_done f f' o o' i : 0 <= o' <= top -> (forall i, o <= o' -> allfree f' o' i = allfree f o' i) -> (forall i, o <= o' -> allfree f' (o' + 1) i = allfree f (o' + 1) i) ->
  mix f f' o o' i = chunk f' o' i.
Proof. intros Ho H1 H2. unfold mix. destruct (Z.ltb_spec o' o); [done|]. unfold BuddyChunks.chunk. by rewrite H1, H2. Qed.

(** The highest order: what is left of the range is cleared there. *)
Lemma free_top_ok f0 f f' q e a b (above : mb_addr -> M ext4_buddy unit) (Q : unit -> ext4_buddy -> Prop) :
  inside n f' -> gained f f' top a b -> a <= b -> pieces f0 q e ->
  (forall o i, q o i = if o =? top then right_bits (left_bits (chunk f top) a) b i else mix f f' top o i) ->
  (forall e', pieces f0 (chunk f') e' -> stats e' = stats e -> Q tt e') ->
  let a' := left_border (chunk f top) a in let b' := right_border (chunk f top) b in
  runs (if b' <? a' then ret tt
        else if a' =? b' then mb_clear_bits (addr_of sbi top) a' (b' - a' + 1) ;;; add_counter top (b' - a' + 1)
        else c <-- mb_find_buddy sbi (top + 1) ;;
             match c with
             | (None, _) => mb_clear_bits (addr_of sbi top) a' (b' - a' + 1) ;;; add_counter top (b' - a' + 1)
             | (Some buddy2, _) => above buddy2
             end) e Q.
Proof using G.
  intros Hin Hg Hab V Eq HQ a' b'. pose proof orders as Hord. destruct (level_top top f f' a b Hg Hab) as (Oa & Ob & Ra & Rb & Hbits). fold a' in Oa, Ra, Hbits. fold b' in Ob, Rb, Hbits.
  assert (Hfin : forall o' i, 0 <= o' <= top -> (if (o' =? top) && ((a' <=? i) && (i <=? b')) then true else q o' i) = chunk f' o' i).
  { intros o' i Ho'. rewrite Eq. destruct (Z.eqb_spec o' top) as [->|Hne]; cbn [andb]; [|unfold mix; by rewrite (proj2 (Z.ltb_lt _ _)) by lia].
    specialize (Hbits i). destruct ((a' <=? i) && (i <=? b')); [by destruct Hbits|done]. }
  destruct (Z.ltb_spec b' a') as [Hba|Hba].
  { apply runs_ret, HQ; [|done]. eapply pieces_ext; [exact V|done|]. intros o' i Ho' _. rewrite <- Hfin by done. destruct (Z.leb_spec a' i), (Z.leb_spec i b'); (lia || by rewrite ?andb_false_r). }
  assert (Hne : a' <> b') by (intros E; congruence). rewrite (proj2 (Z.eqb_neq a' b')) by done. rstep. apply find_buddy_none; [lia|].
  assert (Hva : 0 <= a' /\ b' < 2 ^ (n - top)).
  { assert (Hc : forall i, a' <= i <= b' -> 0 <= i < 2 ^ (n - top)); [|pose proof (Hc a' ltac:(lia)); pose proof (Hc b' ltac:(lia)); lia].
    intros i Hi. specialize (Hbits i). rewrite (proj2 (Z.leb_le a' i)), (proj2 (Z.leb_le i b')) in Hbits by lia. destruct Hbits as [Hc _].
    apply (chunk_inside n top Hord f' top i Hin); [lia|]. by eapply chunk_allfree. }
  pose proof (@mg_bits sbi G). eapply clear_range_ok; [exact V|lia|lia|lia| |].
  - intros i Hi. rewrite Eq, Z.eqb_refl. specialize (Hbits i). rewrite (proj2 (Z.leb_le a' i)), (proj2 (Z.leb_le i b')) in Hbits by lia. by destruct Hbits.
  - intros e3 V3 S3. apply HQ; [|done]. eapply pieces_ext; [exact V3|done|]. intros o' i Ho' _. by apply Hfin.
Qed.

Lemma buddy_free_ok fuel f0 f f' e o a b (Q : unit -> ext4_buddy -> Prop) :
  inside n f' -> pieces f0 (mix f f' o) e -> 1 <= o <= top -> gained f f' o a b -> a <= b -> top - o < Z.of_nat fuel ->
  (forall e', pieces f0 (chunk f') e' -> stats e' = stats e -> Q tt e') ->
  runs (buddy_free_loop sbi fuel (addr_of sbi o) o a b) e Q.
Proof using G.
  intros Hin. revert e o a b. induction fuel as [|fuel IH]; intros e o a b V Ho Hg Hab Hf HQ; [lia|]. cbn [buddy_free_loop]. pose proof orders as Hord.
  assert (Hvl : forall i, a <= i <= b -> valid sbi o i).
  { intros i Hi. split; [lia|]. apply (chunk_inside n top Hord f' o i Hin); [lia|]. rewrite (proj1 (Hg i)). destruct (Z.leb_spec a i), (Z.leb_spec i b); (lia || apply orb_true_r). }
  assert (Ed : forall i, mix f f' o o i = chunk f o i) by (intros i; unfold mix; by rewrite Z.ltb_irrefl).
  assert (Hnew : forall i, a <= i <= b -> chunk f o i = false) by (intros i Hi; unfold BuddyChunks.chunk; by rewrite (proj2 (Hg i) Hi)).
  assert (Ed' : mix f f' o o = chunk f o) by (unfold mix; by rewrite Z.ltb_irrefl).
  rstep. eapply (adjust_left f0 _ e o a); [exact V|lia|apply Hvl; lia|rewrite Ed; apply Hnew; lia|]. intros e1 V1 S1. rewrite Ed' in V1 |- *.
  set (q1 := <[o := left_bits (chunk f o) a]> (mix f f' o)) in *. assert (Eq1 : q1 o = left_bits (chunk f o) a) by (unfold q1; apply fn_lookup_insert).
  rstep. eapply (adjust_right f0 q1 e1 o b); [exact V1|lia|apply Hvl; lia| |].
  { intros Hodd. rewrite Eq1. unfold left_bits. destruct (odd_cases a) as [[-> Ea]|[-> Ea]]; [|apply Hnew; lia]. destruct (odd_cases b) as [[? _]|[_ Eb]]; [congruence|].
    destruct (chunk f o (a - 1)); rewrite fn_upd, (proj2 (Z.eqb_neq b _)) by lia; apply Hnew; lia. }
  intros e2 V2 S2. rewrite Eq1, right_border_left in * by done.
  assert (E2 : forall o' i, <[o := right_bits (left_bits (chunk f o) a) b]> q1 o' i = if o' =? o then right_bits (left_bits (chunk f o) a) b i else mix f f' o o' i).
  { intros o' i. rewrite fn_upd. destruct (Z.eqb_spec o' o) as [|Hne]; [done|]. unfold q1. by rewrite fn_upd, (proj2 (Z.eqb_neq _ _)). }
  set (a' := left_border (chunk f o) a). set (b' := right_border (chunk f o) b).
  destruct (decide (o = top)) as [Etop|Hlt].
  - subst o. apply (free_top_ok f0 f f' (<[top := right_bits (left_bits (chunk f top) a) b]> q1) e2 a b (fun buddy2 => buddy_free_loop sbi fuel buddy2 (top + 1) (Z.shiftr a' 1) (Z.shiftr b' 1))); [done|done|done|exact V2|exact E2|].
    intros e3 V3 S3. apply HQ; [done|congruence].
  - destruct (level_up top f f' o a b ltac:(lia) Hg Hab) as (Oa & Ob & Ra & Rb & Hg'). fold a' in Oa, Ra, Hg'. fold b' in Ob, Rb, Hg'.
    assert (V3 : pieces f0 (mix f f' (o + 1)) e2).
    { eapply pieces_ext; [exact V2|done|]. intros o' i Ho' _. rewrite E2. destruct (Z.eqb_spec o' o) as [->|Hne].
      - rewrite (level_bits n top Hord f f') by (done || lia). unfold mix. by rewrite (proj2 (Z.ltb_lt _ _)) by lia.
      - unfold mix. destruct (Z.ltb_spec o' o), (Z.ltb_spec o' (o + 1)); done || lia. }
    destruct (odd_cases a') as [[? _]|[_ Ea]]; [congruence|]. destruct (odd_cases b') as [[_ Eb]|[? _]]; [|congruence].
    destruct (Z.ltb_spec b' a') as [Hba|Hba].
    + apply runs_ret, HQ; [|congruence]. eapply pieces_ext; [exact V3|done|]. intros o' i Ho' _.
      apply mix_done; [lia|intros j Hj; apply (gained_none f f' (o + 1) (a' / 2) (b' / 2)); (done || lia)..].
    + cbv zeta. rewrite (proj2 (Z.eqb_neq a' b')) by lia. rstep. apply find_buddy_ok; [done|lia|]. rewrite !Z.shiftr_div_pow2 by lia. change (2 ^ 1) with 2.
      apply IH; [done|lia|done|lia|lia|]. intros e3 V4 S4. apply HQ; [done|congruence].
Qed.
End facts.

(** ** [mb_free_blocks] on clusters that are in use *)

(** What neither freeing nor using changes. *)
Definition mb_frame (e : ext4_buddy) :=
  (grp_need_init (bd_info e), grp_corrupt (bd_info e), mb_freeclusters e, s_mb_buddies_generated e, grp_errors e).
(** The figures of the group that depend on its bits. *)
Definition figures (e : ext4_buddy) :=
  (bb_first_free (bd_info e), bb_free (bd_info e), bb_fragments (bd_info e)).

Lemma stats_eq e e' : stats e' = stats e -> mb_frame e' = mb_frame e /\ figures e' = figures e.
Proof. unfold stats, mb_frame, figures. intros [= H1 H2 H3 H4 H5 H6 H7 H8 H9]. by rewrite H1, H2, H3, H4, H5, H7, H8, H9. Qed.

(** Changes of the figures leave the bits alone. *)
Definition figure_upd (h : mb_group_info -> mb_group_info) : Prop := forall g, bb_counters (h g) = bb_counters g.

Section free.
Context (sbi : ext4_sb_info) {G : mb_geo sbi}.
#[local] Abbreviation bits := (s_blocksize_bits sbi).
#[local] Abbreviation n := (s_blocksize_bits sbi + 3).
#[local] Abbreviation top := (s_blocksize_bits sbi + 1).
#[local] Abbreviation chunk := (chunk (s_blocksize_bits sbi + 1)).

Lemma view_figures c k e h : figure_upd h -> view sbi c k e -> view sbi c k (e <| bd_info ::= h |>).
Proof. intros Hh. apply view_same; destruct e; cbn; done. Qed.

Lemma count_row f q e row d (Q : unit -> ext4_buddy -> Prop) :
  pieces sbi f q e -> cnt row (2 ^ n) = cnt (q 0) (2 ^ n) + d ->
  (forall e', pieces sbi f (<[0 := row]> q) e' -> stats e' = stats e -> Q tt e') -> runs (add_counter 0 d) e Q.
Proof using G.
  intros V Hc HQ. pose proof (orders sbi). eapply (add_counter_ok sbi); [exact V|lia|]. intros e' V' S'. apply HQ; [|done]. eapply view_ext; [exact V'| |].
  - intros o i _. unfold piece_bits. destruct (Z.eqb_spec o 0) as [|Hne]; [done|]. by rewrite fn_upd, (proj2 (Z.eqb_neq _ _)).
  - intros o _. rewrite fn_upd. unfold piece_counts. rewrite fn_upd. destruct (Z.eqb_spec o 0) as [->|]; [|done]. replace (n - 0) with n by lia. by rewrite Hc.
Qed.

Lemma cnt_left d m a : 0 <= a < m -> d a = false -> Z.odd a = true -> cnt (left_bits d a) m = cnt d m + (if d (a - 1) then -1 else 1).
Proof.
  intros Ha Hd Hodd. destruct (odd_cases a) as [[_ E]|[? _]]; [|congruence]. unfold left_bits. rewrite Hodd. destruct (d (a - 1)) eqn:Ed.
  - rewrite (cnt_upd _ d m (a - 1)); [rewrite fn_lookup_insert, Ed; cbn; lia|lia|]. intros i _ Hi. by rewrite fn_lookup_insert_ne.
  - rewrite (cnt_upd _ d m a); [rewrite fn_lookup_insert, Hd; cbn; lia|lia|]. intros i _ Hi. by rewrite fn_lookup_insert_ne.
Qed.

Lemma cnt_right d m b : 0 <= b -> b + 1 < m -> d b = false -> Z.odd b = false -> cnt (right_bits d b) m = cnt d m + (if d (b + 1) then -1 else 1).
Proof.
  intros Hb Hm Hd Hodd. unfold right_bits. rewrite Hodd. destruct (d (b + 1)) eqn:Ed.
  - rewrite (cnt_upd _ d m (b + 1)); [rewrite fn_lookup_insert, Ed; cbn; lia|lia|]. intros i _ Hi. by rewrite fn_lookup_insert_ne.
  - rewrite (cnt_upd _ d m b); [rewrite fn_lookup_insert, Hd; cbn; lia|lia|]. intros i _ Hi. by rewrite fn_lookup_insert_ne.
Qed.

(** The borders in the code, and where the freed range ends at order 1. *)
Definition code_left (a : Z) (lf : bool) : Z := if Z.odd a then if lf then a else a + 1 else a.
Definition code_right (b : Z) (rf : bool) : Z := if Z.odd b then b else if rf then b else b - 1.

(** The two steps on order 0: only its counter changes, the bitmap has the bits. *)
Lemma border_counts_ok {A} f f' e a b lf rf (rest : Z -> Z -> M ext4_buddy A) (Q : A -> ext4_buddy -> Prop) :
  inside n f' -> pieces sbi f' (chunk f) e -> gained f f' 0 a b -> a <= b -> lf = f (a - 1) -> rf = f (b + 1) ->
  (forall e', pieces sbi f' (mix sbi f f' 1) e' -> stats e' = stats e -> runs (rest (code_left a lf) (code_right b rf)) e' Q) ->
  runs (first <-- (if Z.odd a then add_counter 0 (if lf then -1 else 1) ;;; ret (if lf then a else a + 1) else ret a) ;;
        last <-- (if Z.odd b then ret b else add_counter 0 (if rf then -1 else 1) ;;; ret (if rf then b else b - 1)) ;;
        rest first last) e Q.
Proof using G.
  intros Hin V Hg Hab El Er HQ. pose proof (orders sbi) as Hord. pose proof (@mg_bits sbi G) as Hbits.
  assert (Hvl : forall i, a <= i <= b -> valid sbi 0 i).
  { intros i Hi. split; [lia|]. apply (chunk_inside n top Hord f' 0 i Hin); [lia|]. rewrite (proj1 (Hg i)). destruct (Z.leb_spec a i), (Z.leb_spec i b); (lia || apply orb_true_r). }
  assert (Hnew : forall i, a <= i <= b -> chunk f 0 i = false) by (intros i Hi; unfold BuddyChunks.chunk; by rewrite (proj2 (Hg i) Hi)).
  pose proof (Hvl a ltac:(lia)) as [_ Ha]. replace (n - 0) with n in * by lia.
  destruct (borders top f f' 0 a b ltac:(lia) Hg Hab) as [Bl Br]. rewrite allfree_0, <- El in Bl. rewrite allfree_0, <- Er in Br.
  assert (Edl : Z.odd a = true -> chunk f 0 (a - 1) = lf) by (intros Ho; unfold left_border in Bl; rewrite Ho in Bl; destruct (chunk f 0 (a - 1)), lf; (done || lia)).
  assert (Edr : Z.odd b = false -> chunk f 0 (b + 1) = rf) by (intros Ho; unfold right_border in Br; rewrite Ho in Br; destruct (chunk f 0 (b + 1)), rf; (done || lia)).
  rstep. apply runs_conseq with (P := fun x e1 => x = code_left a lf /\ pieces sbi f' (<[0 := left_bits (chunk f 0) a]> (chunk f)) e1 /\ stats e1 = stats e).
  { unfold code_left. destruct (Z.odd a) eqn:Ea.
    - rstep. eapply (count_row f' _ e (left_bits (chunk f 0) a)); [exact V|rewrite cnt_left by (done || apply Hnew; lia); by rewrite Edl|]. intros e1 V1 S1. by apply runs_ret.
    - apply runs_ret. split_and!; [done| |done]. unfold left_bits. rewrite Ea. eapply pieces_ext; [exact V|done|]. intros o i _ _. rewrite fn_upd. by destruct (Z.eqb_spec o 0) as [->|]. }
  intros x e1 (-> & V1 & S1). set (q1 := <[0 := left_bits (chunk f 0) a]> (chunk f)) in *. assert (Eq1 : q1 0 = left_bits (chunk f 0) a) by apply fn_lookup_insert.
  assert (Elb : Z.odd b = false -> left_bits (chunk f 0) a b = false /\ left_bits (chunk f 0) a (b + 1) = rf).
  { intros Ho. rewrite <- (Edr Ho). unfold left_bits. destruct (odd_cases b) as [[? _]|[_ Eb]]; [congruence|]. destruct (odd_cases a) as [[-> Ea]|[-> Ea]]; [|split; [apply Hnew; lia|done]].
    destruct (chunk f 0 (a - 1)); rewrite !fn_upd, !(proj2 (Z.eqb_neq _ _)) by lia; (split; [apply Hnew; lia|done]). }
  rstep. apply runs_conseq with (P := fun x e2 => x = code_right b rf /\ pieces sbi f' (<[0 := right_bits (left_bits (chunk f 0) a) b]> q1) e2 /\ stats e2 = stats e).
  { unfold code_right. destruct (Z.odd b) eqn:Eb.
    - apply runs_ret. split_and!; [done| |done]. unfold right_bits. rewrite Eb. eapply pieces_ext; [exact V1|done|]. intros o i _ _. rewrite <- Eq1, fn_upd. by destruct (Z.eqb_spec o 0) as [->|].
    - destruct (Elb eq_refl) as [E1 E2]. rstep. eapply (count_row f' _ e1 (right_bits (left_bits (chunk f 0) a) b)); [exact V1| |].
      + rewrite Eq1. destruct (valid_pair sbi 0 b ltac:(apply Hvl; lia)) as [_ Hp]. specialize (Hp Eb). destruct Hp as [_ Hp]. replace (n - 0) with n in Hp by lia.
        rewrite cnt_right by (done || lia). by rewrite E2.
      + intros e2 V2 S2. apply runs_ret. split_and!; [done|done|congruence]. }
  intros y e2 (-> & V2 & S2). apply HQ; [|done]. eapply pieces_ext; [exact V2|done|]. intros o i Ho _. unfold mix. rewrite fn_upd. destruct (Z.eqb_spec o 0) as [->|Hne].
  - by rewrite (level_bits n top Hord f f') by (done || lia).
  - unfold q1. rewrite fn_upd, (proj2 (Z.eqb_neq _ _)) by done. by rewrite (proj2 (Z.ltb_ge _ _)) by lia.
Qed.

(** The borders of the code lie in the same chunks of order 1. *)
Lemma code_borders f f' a b :
  gained f f' 0 a b -> a <= b -> let a1 := code_left a (f (a - 1)) in let b1 := code_right b (f (b + 1)) in
  gained f f' 1 (a1 / 2) (b1 / 2) /\ (a1 <= b1 <-> a1 / 2 <= b1 / 2).
Proof using G.
  intros Hg Hab. cbv zeta. pose proof (@mg_bits sbi G) as Hbits. destruct (borders top f f' 0 a b ltac:(lia) Hg Hab) as [Bl Br]. rewrite allfree_0 in Bl, Br.
  destruct (level_up top f f' 0 a b ltac:(lia) Hg Hab) as (Oa & Ob & Ra & Rb & Hg'). rewrite Bl in *. rewrite Br in *. unfold code_left, code_right.
  destruct (odd_cases a) as [[Ea E]|[Ea E]], (odd_cases b) as [[Eb E']|[Eb E']]; rewrite Ea, Eb in *; destruct (f (a - 1)), (f (b + 1));
    (split; [|Z.to_euclidean_division_equations; lia]);
    (eapply gained_eq; [exact Hg'|Z.to_euclidean_division_equations; lia|Z.to_euclidean_division_equations; lia]).
Qed.

Lemma free_borders_ok f f' e a b lf rf (Q : unit -> ext4_buddy -> Prop) :
  inside n f' -> pieces sbi f' (chunk f) e -> gained f f' 0 a b -> a <= b -> lf = f (a - 1) -> rf = f (b + 1) ->
  (forall e', pieces sbi f' (chunk f') e' -> stats e' = stats e -> Q tt e') -> runs (free_borders sbi a b lf rf) e Q.
Proof using G.
  intros Hin V Hg Hab El Er HQ. pose proof (@mg_bits sbi G) as Hbits. apply (border_counts_ok f f' e a b lf rf (fun first last => if first <=? last then mb_buddy_mark_free sbi (Z.shiftr first 1) (Z.shiftr last 1) else ret tt));
    [done|done|done|done|done|done|]. intros e2 V2 S2. destruct (code_borders f f' a b Hg Hab) as [Hg1 Hle]. rewrite <- El, <- Er in Hg1, Hle.
  set (a1 := code_left a lf) in *. set (b1 := code_right b rf) in *. destruct (Z.leb_spec a1 b1) as [H|H].
  - unfold mb_buddy_mark_free. rstep. apply find_buddy_ok; [done|lia|]. rewrite !Z.shiftr_div_pow2 by lia. change (2 ^ 1) with 2.
    apply (buddy_free_ok sbi _ f' f f'); [done|done|lia|done|lia|lia|]. intros e3 V3 S3. apply HQ; [done|congruence].
  - apply runs_ret, HQ; [|done]. eapply pieces_ext; [exact V2|done|]. intros o i Ho _.
    apply mix_done; [lia|intros j Hj; apply (gained_none f f' 1 (a1 / 2) (b1 / 2)); (done || lia)..].
Qed.
End free.
