(* ===== verification/BuddyGenerate.v ===== *)
(** * mqfs: building the buddy from the bitmap, and [mb_free_blocks] as a whole

    [ext4_mb_generate_buddy] cuts every free run into chunks from the left; the
    chunks are the maximal ones.  [mb_free_blocks] frees the clusters and the
    buddy stays in agreement with the bitmap; a cluster that was free already
    makes the group corrupt, and the buddy is built again. *)

From S2P Require Import Prelude BlockGroup Buddy BuddyChunks BuddyBits BuddyFacts.

Lemma cnt_0 p m : m <= 0 -> cnt p m = 0.
Proof. intros Hm. unfold cnt. rewrite seqZ_nil by done. done. Qed.

Lemma cnt_succ p m : 0 <= m -> cnt p (m + 1) = cnt p m + Z.b2z (p m).
Proof. intros Hm. rewrite (cnt_split p (m + 1) m) by lia. rewrite seqZ_nil by lia. cbn. lia. Qed.

Lemma cnt_extend p a b v : 0 <= a <= b -> (forall x, a <= x < b -> p x = v) -> cnt p b = cnt p a + (if v then b - a else 0).
Proof.
  intros [Ha Hab]. replace b with (a + Z.of_nat (Z.to_nat (b - a))) by lia. clear Hab. induction (Z.to_nat (b - a)) as [|d IH]; intros Hp.
  { rewrite Z.add_0_r, Z.sub_diag. destruct v; lia. }
  replace (a + Z.of_nat (S d)) with (a + Z.of_nat d + 1) in * by lia. rewrite cnt_succ, IH, (Hp (a + Z.of_nat d)) by (lia || intros x Hx; apply Hp; lia).
  destruct v; cbn [Z.b2z]; lia.
Qed.

Section generate.
Context (sbi : ext4_sb_info) {G : mb_geo sbi}.
#[local] Abbreviation bits := (s_blocksize_bits sbi).
#[local] Abbreviation n := (s_blocksize_bits sbi + 3).
#[local] Abbreviation top := (s_blocksize_bits sbi + 1).
#[local] Abbreviation max := (s_clusters_per_group sbi).
#[local] Abbreviation chunk := (chunk (s_blocksize_bits sbi + 1)).
#[local] Abbreviation upto := (upto (s_blocksize_bits sbi + 1)).
#[local] Abbreviation boundary := (boundary (s_blocksize_bits sbi + 1)).

(** A chunk of the run from [p] on is counted and its bit cleared. *)
Lemma count_chunk_ok f e p m (Q : unit -> ext4_buddy -> Prop) :
  pieces sbi f (upto f p) e -> boundary f p -> 0 <= p < 2 ^ n -> 0 <= m <= top -> p / 2 ^ m * 2 ^ m = p -> chunk f m (p / 2 ^ m) = true ->
  (forall e', pieces sbi f (upto f (p + 2 ^ m)) e' -> stats e' = stats e -> Q tt e') ->
  runs (add_counter m 1 ;;; (if 0 <? m then t <-- mb_order sbi m ;; mb_clear_bit (Z.shiftr p m) (BdBuddy, t.1) else ret tt)) e Q.
Proof using G.
  intros V Hb Hp Hm Ep Hc HQ. pose proof (orders sbi) as Hord. destruct (upto_chunk top f p m Hb Hm Ep Hc) as (Hb' & Hno & Hup).
  pose proof (div_valid sbi m p Hm Hp) as Hv. rstep. eapply (add_counter_ok sbi); [exact V|done|]. intros e1 V1 S1.
  assert (Hfin : forall e', view sbi (upd2 (piece_bits f (upto f p)) m (p / 2 ^ m) true) (<[m := piece_counts sbi (upto f p) m + 1]> (piece_counts sbi (upto f p))) e' -> stats e' = stats e -> Q tt e').
  { intros e' V' S'. apply HQ; [|done]. apply (pieces_upd sbi f (upto f p) m _ true 1) in V'; [|done|by rewrite Hno]. eapply pieces_ext; [exact V'| |intros o i Ho _; by rewrite Hup].
    intros i _. destruct (Z.eqb_spec m 0) as [->|]; [|done]. rewrite fn_upd. destruct (Z.eqb_spec i (p / 2 ^ 0)) as [->|]; [|done]. apply chunk_allfree in Hc. by rewrite allfree_0 in Hc. }
  destruct (Z.ltb_spec 0 m) as [Hpos|Hz].
  - rstep. apply mb_order_ok; [done|done|]. cbn [fst]. rewrite Z.shiftr_div_pow2 by lia.
    replace (BdBuddy, off sbi m) with (addr_of sbi m) by (unfold addr_of; by rewrite (proj2 (Z.eqb_neq m 0)) by lia).
    eapply (clear_ok sbi); [exact V1|done|]. intros e2 V2 S2. apply Hfin; [done|congruence].
  - apply runs_ret, Hfin; [|done]. eapply view_ext; [exact V1| |done]. intros o i _. assert (m = 0) as -> by lia. rewrite upd2_eq. unfold piece_bits.
    destruct (Z.eqb_spec o 0) as [->|]; [|done]. destruct (Z.eqb_spec i (p / 2 ^ 0)) as [->|]; [|done]. apply chunk_allfree in Hc. by rewrite allfree_0 in Hc.
Qed.

Lemma mark_free_loop_ok fuel f e p len (Q : unit -> ext4_buddy -> Prop) :
  pieces sbi f (upto f p) e -> boundary f p -> 0 <= p -> 0 <= len -> p + len <= 2 ^ n -> (forall b, p <= b < p + len -> f b = true) -> f (p + len) = false ->
  len < Z.of_nat fuel -> (forall e', pieces sbi f (upto f (p + len)) e' -> stats e' = stats e -> Q tt e') -> runs (mark_free_loop sbi fuel p len) e Q.
Proof using G.
  revert e p len. induction fuel as [|fuel IH]; intros e p len V Hb Hp Hl Hpl Hrun Hend Hf HQ; [lia|]. cbn [mark_free_loop]. pose proof (orders sbi) as Hord. pose proof (@mg_bits sbi G) as Hbits.
  destruct (Z.leb_spec len 0); [apply runs_ret, HQ; [by replace (p + len) with p by lia|done]|]. cbv zeta.
  rewrite (Z.shiftl_mul_pow2 2) by lia. replace (2 * 2 ^ bits) with (2 ^ top) by (rewrite Z.pow_add_r by lia; lia).
  destruct (ffs_align p top Hp ltac:(lia)) as (A1 & A2 & A3). cbv zeta in *. set (v := ffs (Z.lor p (2 ^ top)) - 1) in *.
  assert (Elog : fls len - 1 = Z.log2 len) by (unfold fls; rewrite (proj2 (Z.leb_gt len 0)) by lia; lia). rewrite Elog.
  replace (if v <? Z.log2 len then v else Z.log2 len) with (Z.min v (Z.log2 len)) by (destruct (Z.ltb_spec v (Z.log2 len)); lia).
  destruct (greedy n top Hord f p len v) as (M1 & M2 & M3 & M4); [done|lia|done|done|done|done|done|]. cbv zeta in *. set (m := Z.min v (Z.log2 len)) in *.
  rewrite Z.shiftl_1_l. pose proof (Z.pow_pos_nonneg 2 m ltac:(lia) ltac:(lia)). apply runs_assoc. rstep. apply (count_chunk_ok f e p m); [done|done|lia|done|done|done|]. intros e1 V1 S1.
  destruct (upto_chunk top f p m Hb M1 M3 M4) as (Hb' & _ & _).
  apply IH; [done|done|lia|lia|lia| |by replace (p + 2 ^ m + (len - 2 ^ m)) with (p + len) by lia|lia|].
  - intros b Hbr. apply Hrun. lia.
  - replace (p + 2 ^ m + (len - 2 ^ m)) with (p + len) by lia. intros e2 V2 S2. apply HQ; [done|congruence].
Qed.

(** A whole run. *)
Lemma mark_run_ok f e p len (Q : unit -> ext4_buddy -> Prop) :
  pieces sbi f (upto f p) e -> boundary f p -> 0 <= p -> 0 < len -> p + len <= max -> (forall b, p <= b < p + len -> f b = true) -> f (p + len) = false ->
  (forall e', pieces sbi f (upto f (p + len)) e' -> stats e' = stats e -> Q tt e') ->
  runs (if 1 <? len then ext4_mb_mark_free_simple sbi p len else add_counter 0 1) e Q.
Proof using G.
  intros V Hb Hp Hl Hpl Hrun Hend HQ. pose proof (@mg_clusters sbi G) as Hm. destruct (Z.ltb_spec 1 len).
  - unfold ext4_mb_mark_free_simple. rstep. apply runs_check; [apply Z.leb_le; lia|]. apply (mark_free_loop_ok _ f e p len); [done|done|done|lia|lia|done|done|lia|done].
  - assert (len = 1) as -> by lia. pose proof (orders sbi) as Hord. destruct (ffs_align p top Hp ltac:(lia)) as (A1 & A2 & A3).
    destruct (greedy n top Hord f p 1 _ Hb ltac:(lia) Hrun Hend A1 A2 A3) as (M1 & M2 & M3 & M4). change (Z.log2 1) with 0 in *. rewrite Z.min_r in * by lia.
    pose proof (count_chunk_ok f e p 0 Q V Hb ltac:(lia) M1 M3 M4) as Hc. change (2 ^ 0) with 1 in Hc. specialize (Hc HQ). cbn [Z.ltb Z.compare] in Hc.
    apply runs_elim in Hc as (? & ? & E & HQ'). apply bind_inv in E as (u & s1 & E1 & E2). destruct u. unfold ret in E2. injection E2 as <- <-. by eapply runs_intro.
Qed.

Lemma generate_loop_ok fuel f e i (Q : Z * Z -> ext4_buddy -> Prop) :
  (forall b, f b = true -> 0 <= b < max) -> pieces sbi f (upto f i) e -> 0 <= i <= max -> (i < max -> f i = true /\ f (i - 1) = false) -> max - i < Z.of_nat fuel ->
  (forall e', pieces sbi f (chunk f) e' -> stats e' = stats e -> Q (cnt f (2 ^ n), cnt (run_start f) (2 ^ n)) e') ->
  runs (generate_loop sbi fuel i (cnt f i) (cnt (run_start f) i)) e Q.
Proof using G.
  intros Hin. pose proof (@mg_clusters sbi G) as Hm. pose proof (orders sbi) as Hord. pose proof (pow_n_bound sbi) as Hpn.
  assert (Hout : forall b, max <= b -> f b = false) by (intros b Hb; apply not_true_iff_false; intros Hf%Hin; lia).
  assert (Hinside : inside n f) by (intros b Hf%Hin; lia).
  revert e i. induction fuel as [|fuel IH]; intros e i V Hi Hs Hf HQ; [lia|]. cbn [generate_loop].
  destruct (Z.leb_spec max i) as [Hle|Hlt].
  { assert (i = max) as -> by lia. apply runs_ret. rewrite <- (Z.add_0_r (cnt f max)), <- (Z.add_0_r (cnt (run_start f) max)).
    rewrite <- (cnt_extend f max (2 ^ n) false) by (lia || intros x Hx; apply Hout; lia).
    rewrite <- (cnt_extend (run_start f) max (2 ^ n) false) by (lia || intros x Hx; unfold run_start; rewrite Hout by lia; done).
    apply HQ; [|done]. eapply pieces_ext; [exact V|done|]. intros o j Ho _.
    rewrite <- (upto_skip top f max (2 ^ n)) by (lia || intros b Hb; apply Hout; lia). apply (upto_end n top Hord); [done|lia|lia]. }
  destruct (Hs Hlt) as [Hfi Hfi']. cbv zeta. rstep. eapply (find_bit_ok sbi); [exact V|lia|lia|]. intros j Hj Hrun Hend.
  assert (Hij : i < j). { destruct (Z.eq_dec i j) as [<-|]; [|lia]. specialize (Hend Hlt). cbn in Hend. congruence. }
  assert (Hfj : f j = false) by (destruct (Z.lt_ge_cases j max); [by apply Hend|by apply Hout]). rstep.
  eapply (mark_run_ok f e i (j - i)); [exact V|by apply (boundary_busy top)|lia|lia|lia| | |].
  { intros b Hb. apply (Hrun b). lia. } { by replace (i + (j - i)) with j by lia. }
  replace (i + (j - i)) with j by lia. intros e1 V1 S1. rstep.
  apply runs_conseq with (P := fun r e2 => e2 = e1 /\ j <= r <= max /\ (forall b, j <= b < r -> f b = false) /\ (r < max -> f r = true)).
  { destruct (Z.ltb_spec j max).
    - pose proof (find_zero_ok sbi _ _ e1 0 0 max j (fun r e2 => e2 = e1 /\ j <= r <= max /\ (forall b, j <= b < r -> f b = false) /\ (r < max -> f r = true)) V1) as Hz.
      apply Hz; [lia|lia|replace (n - 0) with n by lia; lia|lia|]. intros r Hr1 Hr2 Hr3. done.
    - apply runs_ret. split_and!; [done|lia|lia|lia|lia]. }
  intros r ? (-> & Hr1 & Hr2 & Hr3).
  assert (Hrb : r < max -> f (r - 1) = false) by (intros Hr; destruct (Z.eq_dec r j) as [->|]; [specialize (Hr3 Hr); congruence|apply Hr2; lia]).
  assert (Ec : cnt f r = cnt f i + (j - i)).
  { rewrite (cnt_extend f j r false) by (done || lia). rewrite (cnt_extend f i j true) by (lia || intros x Hx; apply (Hrun x); lia). lia. }
  assert (Ef : cnt (run_start f) r = cnt (run_start f) i + 1).
  { rewrite (cnt_extend (run_start f) (i + 1) r false); [|lia|].
    - rewrite cnt_succ by lia. unfold run_start at 2. by rewrite Hfi, Hfi', Z.add_0_r.
    - intros x Hx. unfold run_start. destruct (Z.lt_ge_cases x j); [|rewrite Hr2 by lia; done]. pose proof (Hrun (x - 1) ltac:(lia)) as E. cbn in E. rewrite E. apply andb_false_r. }
  pose proof (cnt_bound f r ltac:(lia)). pose proof (cnt_bound (run_start f) r ltac:(lia)). rewrite <- Ec, <- Ef, !wrap_small by lia.
  apply IH; [|lia|intros Hr; split; [by apply Hr3|by apply Hrb]|lia|].
  - eapply pieces_ext; [exact V1|done|]. intros o k Ho _. symmetry. apply (upto_skip top); [lia|lia|done].
  - intros e2 V2 S2. apply HQ; [done|congruence].
Qed.

(** The group when its buddy has been generated, [free] clusters being free: a
    wrong count is reported and replaced, and the group is marked. *)
Definition gen_frame (e : ext4_buddy) (free : Z) :=
  let bad := negb (free =? bb_free (bd_info e)) in
  (false, grp_corrupt (bd_info e) || bad, if bad && negb (grp_corrupt (bd_info e)) then mb_freeclusters e - free else mb_freeclusters e,
   s_mb_buddies_generated e + 1, if bad then grp_errors e ++ [0] else grp_errors e).

Lemma generate_fix_ok c k e free (Q : unit -> ext4_buddy -> Prop) :
  view sbi c k e ->
  (forall e', view sbi c k e' -> bb_free (bd_info e') = free -> bb_first_free (bd_info e') = bb_first_free (bd_info e) -> bb_fragments (bd_info e') = bb_fragments (bd_info e) ->
     gen_frame e' free = gen_frame e free -> Q tt e') ->
  runs (bfree <-- info bb_free ;;
        if negb (free =? bfree) then
          ext4_grp_locked_error 0 ;;; upd_info (fun g => g <| bb_free := free |>) ;;; mark_bbitmap_corrupted
        else ret tt) e Q.
Proof.
  intros V HQ. rstep. apply runs_gets. destruct (Z.eqb_spec free (bb_free (bd_info e))) as [E|E]; cbn [negb]; [by apply runs_ret, HQ|].
  rstep. apply runs_modify. rstep. apply runs_modify. unfold mark_bbitmap_corrupted. rstep. apply runs_gets. rstep. apply runs_modify.
  destruct e as [bm bd [nd cr ff fr fg lg ct] fc gn er]. cbn in E, HQ |- *.
  destruct cr; [apply runs_ret|apply runs_modify]; cbn; apply HQ; try done; try (eapply view_same; [..|exact V]; done); unfold gen_frame; cbn; rewrite Z.eqb_refl, (proj2 (Z.eqb_neq free fr)) by done; done.
Qed.

Lemma figures_fields e e' : figures e' = figures e ->
  bb_first_free (bd_info e') = bb_first_free (bd_info e) /\ bb_free (bd_info e') = bb_free (bd_info e) /\ bb_fragments (bd_info e') = bb_fragments (bd_info e).
Proof. unfold figures. by intros [= -> -> ->]. Qed.

Lemma upto_first f i : inside n f -> 0 <= i -> (forall b, 0 <= b < i -> f b = false) ->
  (forall o j, 0 <= o -> upto f i o j = false) /\ cnt f i = 0 /\ cnt (run_start f) i = 0.
Proof.
  intros Hin Hi Hb. split_and!.
  - intros o j Ho. rewrite (upto_skip top f 0) by (done || lia). by apply (upto_start n).
  - by rewrite (cnt_extend f 0 i false), cnt_0 by (done || lia).
  - rewrite (cnt_extend (run_start f) 0 i false), cnt_0 by (done || lia || intros x Hx; unfold run_start; rewrite Hb by lia; done). done.
Qed.

Lemma generate_ok f e (Q : unit -> ext4_buddy -> Prop) :
  pieces sbi f (fun _ _ => false) e -> (forall b, f b = true -> 0 <= b < max) ->
  (forall e', mb_inv sbi f e' -> mb_frame e' = gen_frame e (cnt f (2 ^ n)) -> Q tt e') -> runs (ext4_mb_generate_buddy sbi) e Q.
Proof using G.
  intros V Hin HQ. pose proof (@mg_clusters sbi G) as Hm. pose proof (orders sbi) as Hord. assert (Hinside : inside n f) by (intros b Hb%Hin; lia).
  unfold ext4_mb_generate_buddy. cbv zeta. rstep.
  eapply (find_zero_ok sbi _ _ e 0 0 max 0 _ V); [lia|lia|replace (n - 0) with n by lia; lia|lia|]. intros i Hi Hbusy Hfree.
  change (forall b, 0 <= b < i -> f b = false) in Hbusy. change (i < max -> f i = true) in Hfree.
  destruct (upto_first f i Hinside ltac:(lia) Hbusy) as (Eu & E1 & E2). rstep. apply runs_modify. set (e1 := e <| bd_info ::= _ |>).
  assert (V1 : pieces sbi f (fun _ _ => false) e1) by (by apply view_figures). rstep.
  replace (generate_loop sbi (S (Z.to_nat max)) i 0 0) with (generate_loop sbi (S (Z.to_nat max)) i (cnt f i) (cnt (run_start f) i)) by (by rewrite E1, E2).
  eapply (generate_loop_ok _ f e1 i); [done| |lia| |lia|].
  { eapply pieces_ext; [exact V1|done|]. intros o j Ho _. symmetry. apply Eu. lia. }
  { intros Hlt. split; [by apply Hfree|]. destruct (Z.eq_dec i 0) as [->|]; [|apply Hbusy; lia]. apply not_true_iff_false. intros Hf%Hin. lia. }
  intros e2 V2 S2. rstep. apply runs_modify. set (e3 := e2 <| bd_info ::= _ |>). assert (V3 : pieces sbi f (chunk f) e3) by (by apply view_figures).
  apply runs_assoc. rstep. eapply generate_fix_ok; [exact V3|]. intros e4 V4 F1 F2 F3 F4. rstep. eapply (set_largest_ok sbi); [exact V4|]. intros l Hl.
  rstep. apply runs_modify, runs_modify, HQ.
  - assert (Hff : bb_first_free (bd_info e2) = i) by (apply stats_eq in S2 as [_ S2]; apply figures_fields in S2 as (-> & _); by destruct e as [? ? [] ? ? ?]).
    unfold e3 in F2, F3. destruct e2 as [? ? [] ? ? ?], e4 as [? ? [] ? ? ?]. cbn in F1, F2, F3, Hff. split; cbn; [done| |done|by rewrite F3| |done].
    + eapply view_same; [..|exact V4]; done.
    + rewrite F2, Hff. split; [lia|]. intros b Hb. destruct (Z.lt_ge_cases b i); [|done]. assert (0 <= b) by (by apply Hin). rewrite Hbusy in Hb by lia. done.
  - assert (Eg : gen_frame e3 (cnt f (2 ^ n)) = gen_frame e (cnt f (2 ^ n))).
    { unfold stats in S2. unfold e3, e1 in *. destruct e as [? ? [] ? ? ?], e2 as [? ? [] ? ? ?]. cbn in S2. injection S2 as -> -> -> -> -> -> -> -> ->. done. }
    rewrite <- Eg, <- F4. destruct e4 as [? ? [] ? ? ?]. cbn in F1. subst. unfold gen_frame. cbn. rewrite Z.eqb_refl. cbn. by rewrite orb_false_r.
Qed.

(** ** Building it again *)

Lemma regenerate_loop_ok fuel c k e o (Q : unit -> ext4_buddy -> Prop) :
  view sbi c k e -> 1 <= o <= top + 1 -> Z.of_nat fuel = top + 2 - o ->
  (forall e', view sbi (fun o' i => if o <=? o' then false else c o' i) k e' -> stats e' = stats e -> Q tt e') -> runs (regenerate_loop sbi fuel o) e Q.
Proof using G.
  revert c e o. induction fuel as [|fuel IH]; intros c e o V Ho Hf HQ; [lia|]. cbn [regenerate_loop]. destruct (decide (o = top + 1)) as [->|Hne].
  - rstep. apply find_buddy_none; [lia|]. apply runs_ret, HQ; [|done]. eapply view_ext; [exact V| |done]. intros o' i [Ho' _]. by rewrite (proj2 (Z.leb_gt _ o')) by lia.
  - rstep. apply find_buddy_ok; [done|lia|]. rstep. eapply (set_range_ok sbi); [exact V|lia|lia|apply Z.pow_nonneg; lia|lia|]. intros e1 V1 S1.
    eapply IH; [exact V1|lia|lia|]. intros e2 V2 S2. apply HQ; [|congruence]. eapply view_ext; [exact V2| |done]. intros o' i [_ Hi]. cbn. unfold updr.
    destruct (Z.eqb_spec o' o) as [->|Hno]; cbn [andb].
    + rewrite (proj2 (Z.leb_le 0 i)), (proj2 (Z.ltb_lt i _)), (proj2 (Z.leb_le o o)) by lia. by destruct (o + 1 <=? o).
    + destruct (Z.leb_spec (o + 1) o'), (Z.leb_spec o o'); done || lia.
Qed.

Lemma regenerate_ok f q e (Q : unit -> ext4_buddy -> Prop) :
  pieces sbi f q e -> (forall b, f b = true -> 0 <= b < max) ->
  (forall e', mb_inv sbi f e' -> mb_frame e' = gen_frame e (cnt f (2 ^ n)) -> Q tt e') -> runs (mb_regenerate_buddy sbi) e Q.
Proof using G.
  intros V Hin HQ. pose proof (orders sbi) as Hord. unfold mb_regenerate_buddy. rstep. eapply regenerate_loop_ok; [exact V|lia|lia|]. intros e1 V1 S1. rstep. apply runs_modify.
  set (e2 := e1 <| bd_info ::= _ |>).
  assert (V2 : pieces sbi f (fun _ _ => false) e2).
  { unfold e2. clear e2. destruct V1 as [W1 W2 W3 W4 W5]. destruct e1 as [? ? [] ? ? ?]. cbn in W1, W2, W4. split; cbn; [done|done| |by rewrite length_replicate|].
    - intros o i Hv. transitivity (Some (negb (if 1 <=? o then false else piece_bits f q o i))); [rewrite <- (W3 o i Hv); cbn; by destruct (o =? 0)|]. unfold piece_bits. destruct Hv as [Ho _].
      destruct (Z.eqb_spec o 0) as [->|]; [done|]. by rewrite (proj2 (Z.leb_le 1 o)) by lia.
    - intros o Ho. rewrite lookup_replicate_2 by lia. f_equal. unfold piece_counts. symmetry. apply Z.le_antisymm; [|apply cnt_bound, Z.pow_nonneg; lia].
      apply Z.nlt_ge. intros (i & _ & Hi)%cnt_pos. done. }
  eapply generate_ok; [exact V2|done|]. intros e3 I F. apply HQ; [done|]. rewrite F. unfold e2, stats in *. destruct e as [? ? [] ? ? ?], e1 as [? ? [] ? ? ?]. cbn in S1. by injection S1 as -> -> -> -> -> -> -> -> ->.
Qed.
End generate.

(** ** [mb_free_blocks] *)

(** The clusters [first], ..., [first + count - 1] are freed. *)
Definition freed (f : Z -> bool) (first count : Z) : Z -> bool := fun b => f b || ((first <=? b) && (b <=? first + count - 1)).

Lemma cnt_le p q m : (forall i, p i = true -> q i = true) -> cnt p m <= cnt q m.
Proof.
  intros Hpq. destruct (Z.le_gt_cases m 0); [by rewrite !cnt_0|]. replace m with (Z.of_nat (Z.to_nat m)) by lia. induction (Z.to_nat m) as [|d IH]; [by rewrite !cnt_0|].
  replace (Z.of_nat (S d)) with (Z.of_nat d + 1) by lia. rewrite !cnt_succ by lia. specialize (Hpq (Z.of_nat d)). destruct (p _), (q _); cbn; try lia; by discriminate Hpq.
Qed.

Lemma cnt_mono p a b : a <= b -> cnt p a <= cnt p b.
Proof.
  intros Hab. destruct (Z.le_gt_cases a 0); [rewrite (cnt_0 p a) by done; destruct (Z.le_gt_cases b 0); [by rewrite cnt_0|apply cnt_bound; lia]|].
  replace b with (a + Z.of_nat (Z.to_nat (b - a))) by lia. induction (Z.to_nat (b - a)) as [|d IH]; [rewrite Z.add_0_r; lia|].
  replace (a + Z.of_nat (S d)) with (a + Z.of_nat d + 1) by lia. rewrite cnt_succ by lia. destruct (p _); cbn; lia.
Qed.

Lemma cnt_less p q m j : 0 <= j < m -> (forall i, p i = true -> q i = true) -> p j = false -> q j = true -> cnt p m < cnt q m.
Proof.
  intros Hj Hpq Hp Hq. rewrite (cnt_upd q (<[j := false]> q) m j); [|done|intros i _ Hi; by rewrite fn_lookup_insert_ne]. rewrite fn_lookup_insert, Hq.
  assert (cnt p m <= cnt (<[j := false]> q) m); [|cbn; lia]. apply cnt_le. intros i Hi. rewrite fn_upd. destruct (Z.eqb_spec i j) as [->|]; [congruence|by apply Hpq].
Qed.

Section blocks.
Context (sbi : ext4_sb_info) {G : mb_geo sbi} (bd_group : Z).
#[local] Abbreviation bits := (s_blocksize_bits sbi).
#[local] Abbreviation n := (s_blocksize_bits sbi + 3).
#[local] Abbreviation top := (s_blocksize_bits sbi + 1).
#[local] Abbreviation chunk := (chunk (s_blocksize_bits sbi + 1)).

(** What [mb_free_blocks] does when the bits are cleared. *)
Definition free_tail (first last : Z) (left_is_free right_is_free : bool) (block : Z) : M ext4_buddy unit :=
  (if negb (block =? -1) then
     ext4_grp_locked_error (u64 (ext4_group_first_block_no sbi bd_group + EXT4_C2B sbi block)) ;;;
     mark_bbitmap_corrupted ;;;
     mb_regenerate_buddy sbi
   else
     upd_info (fun g => g <| bb_fragments ::= fun k =>
       if left_is_free && right_is_free then k - 1 else if negb left_is_free && negb right_is_free then k + 1 else k |>) ;;;
     free_borders sbi first last left_is_free right_is_free) ;;;
  mb_set_largest_free_order sbi.

Lemma outside f b : inside n f -> b < 0 \/ 2 ^ n <= b -> f b = false.
Proof. intros Hin Hb. apply not_true_iff_false. intros Hf%Hin. lia. Qed.

(** The bit of a neighbour, if there is one. *)
Lemma neighbour_ok f q e b (Q : bool -> ext4_buddy -> Prop) :
  pieces sbi f q e -> 0 <= b < 2 ^ n -> Q (f b) e -> runs (v <-- mb_test_bit b (BdBitmap, 0) ;; ret (negb v)) e Q.
Proof using G.
  intros V Hb HQ. pose proof (orders sbi). rstep. eapply (test_ok sbi _ _ e 0 b); [exact V|split; [lia|by replace (n - 0) with n by lia]|].
  apply runs_ret. by rewrite negb_involutive.
Qed.

Lemma free_prefix f e first count (Q : unit -> ext4_buddy -> Prop) :
  mb_inv sbi f e -> grp_corrupt (bd_info e) = false -> 0 <= first -> 0 < count -> first + count <= 2 ^ n ->
  (forall z e2, first_clear (fun _ => f) 0 first (first + count) z -> pieces sbi (freed f first count) (chunk f) e2 ->
     figures e2 = (Z.min first (bb_first_free (bd_info e)), bb_free (bd_info e) + count, bb_fragments (bd_info e)) -> mb_frame e2 = mb_frame e ->
     runs (free_tail first (first + count - 1) (f (first - 1)) (f (first + count)) z) e2 Q) ->
  runs (mb_free_blocks sbi bd_group first count) e Q.
Proof using G.
  intros I Hcorr H1 H2 H3 HQ. pose proof (orders sbi) as Hord. pose proof (@mg_bits sbi G) as Hbits. pose proof (mi_inside _ _ _ I) as Hin. unfold mb_free_blocks. cbv zeta.
  rewrite (proj2 (Z.eqb_neq count 0)) by lia. rstep. apply runs_check.
  { rewrite Z.shiftl_mul_pow2, (@mg_size sbi G), <- Z.pow_add_r by lia. apply Z.ltb_lt. lia. }
  rstep. apply runs_gets. rewrite Hcorr. rstep. apply runs_modify. rstep. apply runs_modify. set (e1 := _ <| bd_info ::= _ |>).
  assert (V1 : pieces sbi f (chunk f) e1) by (apply view_figures, view_figures, I; done).
  assert (F1 : figures e1 = (Z.min first (bb_first_free (bd_info e)), bb_free (bd_info e) + count, bb_fragments (bd_info e)) /\ mb_frame e1 = mb_frame e).
  { unfold e1. destruct e as [? ? [? ? ff ? ? ? ?] ? ? ?]. unfold figures, mb_frame. cbn. split; [|done]. repeat f_equal. destruct (Z.ltb_spec first ff); lia. }
  rstep. apply runs_conseq with (P := fun lf e' => lf = f (first - 1) /\ e' = e1).
  { destruct (Z.eqb_spec first 0) as [->|Hne]; cbn [negb]; [apply runs_ret; split; [symmetry; apply outside; [done|lia]|done]|]. by eapply neighbour_ok; [exact V1|lia|]. }
  intros lf ? [-> ->]. rstep. eapply (test_clear_bits_ok sbi _ _ e1 0 first count); [exact V1|lia|lia|lia|replace (n - 0) with n by lia; lia|]. intros z e2 Hz V2 S2.
  assert (V2' : pieces sbi (freed f first count) (chunk f) e2).
  { eapply view_ext; [exact V2| |done]. intros o i _. unfold updr, piece_bits, freed. destruct (Z.eqb_spec o 0) as [->|]; [|done]. cbn [andb].
    destruct (Z.leb_spec first i), (Z.ltb_spec i (first + count)), (Z.leb_spec i (first + count - 1)); cbn; rewrite ?orb_true_r, ?orb_false_r; done || lia. }
  rstep. apply mb_order_ok; [done|lia|]. cbn [snd]. replace (n - 0) with n by lia. rewrite Z.sub_add.
  rstep. apply runs_conseq with (P := fun rf e' => rf = f (first + count) /\ e' = e2).
  { destruct (Z.ltb_spec (first + count) (2 ^ n)); [|apply runs_ret; split; [symmetry; apply outside; [done|lia]|done]].
    eapply neighbour_ok; [exact V2'|lia|]. split; [|done]. unfold freed. rewrite (proj2 (Z.leb_gt (first + count) (first + count - 1))) by lia. by rewrite andb_false_r, orb_false_r. }
  intros rf ? [-> ->]. apply stats_eq in S2 as [S2 S2']. destruct F1 as [F1 F1']. apply HQ; [exact Hz|done|congruence|congruence].
Qed.

Lemma freed_cnt f first count : 0 <= first -> 0 <= count -> first + count <= 2 ^ n -> (forall b, first <= b < first + count -> f b = false) ->
  cnt (freed f first count) (2 ^ n) = cnt f (2 ^ n) + count.
Proof.
  intros H1 H2 H3 Hb. replace count with (first + count - first) at 2 by lia. apply cnt_range; [lia|lia|lia| |].
  - intros i _ Hi. unfold freed. destruct (Z.leb_spec first i), (Z.leb_spec i (first + count - 1)); (lia || apply orb_false_r).
  - intros i Hi. split; [|by apply Hb]. unfold freed. rewrite (proj2 (Z.leb_le first i)), (proj2 (Z.leb_le i _)) by lia. apply orb_true_r.
Qed.

Lemma freed_inside f first count : inside n f -> 0 <= first -> first + count <= 2 ^ n -> inside n (freed f first count).
Proof. intros Hin H1 H2 b [Hb|[Hb1%Z.leb_le Hb2%Z.leb_le]%andb_true_iff]%orb_true_iff; [by apply Hin|lia]. Qed.

(** All clusters are in use: they are freed, and nothing else happens. *)
Lemma free_busy_ok f e first count (Q : unit -> ext4_buddy -> Prop) :
  mb_inv sbi f e -> grp_corrupt (bd_info e) = false -> 0 <= first -> 0 < count -> first + count <= 2 ^ n ->
  (forall b, first <= b < first + count -> f b = false) ->
  (forall e', mb_inv sbi (freed f first count) e' -> mb_frame e' = mb_frame e -> Q tt e') ->
  runs (mb_free_blocks sbi bd_group first count) e Q.
Proof using G.
  intros I Hcorr H1 H2 H3 Hbusy HQ. apply (free_prefix f); [done|done|done|done|done|]. intros z e2 Hz V2 F2 F2'.
  assert (z = -1) as ->. { destruct Hz as [[-> _]|(Hz1 & Hz2 & _)]; [done|]. rewrite Hbusy in Hz2 by lia. done. }
  pose proof I as [Hin _ I3 I4 I5 _]. set (f' := freed f first count) in *. assert (Hin' : inside n f') by (by apply freed_inside).
  unfold free_tail. rewrite Z.eqb_refl. cbn [negb]. rstep. rstep. apply runs_modify. set (e3 := e2 <| bd_info ::= _ |>).
  assert (V3 : pieces sbi f' (chunk f) e3) by (by apply view_figures).
  eapply (free_borders_ok sbi f f' e3 first (first + count - 1)); [done|done| |lia|done|f_equal; lia|].
  { apply gained_start; [done|]. intros x Hx. apply Hbusy. lia. }
  intros e4 V4 S4. eapply (set_largest_ok sbi); [exact V4|]. intros l Hl. apply stats_eq in S4 as [S4 S4']. apply HQ.
  - assert (F4 : figures e4 = (Z.min first (bb_first_free (bd_info e)), bb_free (bd_info e) + count, cnt (run_start f') (2 ^ n))).
    { rewrite S4'. unfold e3. rewrite (runs_freed f f' _ first (first + count - 1)); [|lia|lia|done|done|intros x Hx; apply Hbusy; lia].
      replace (first + count - 1 + 1) with (first + count) by lia. rewrite <- I4. destruct e2 as [? ? [] ? ? ?]. unfold figures in *. cbn in F2 |- *. injection F2 as -> -> ->.
      f_equal. destruct (f (first - 1)), (f (first + count)); cbn; lia. }
    destruct e4 as [? ? [] ? ? ?]. unfold figures in F4. cbn in F4. injection F4 as E1 E2 E3. split; cbn; [done| |unfold f'; by rewrite E2, I3, freed_cnt by (done || lia)|done| |done].
    + eapply view_same; [..|exact V4]; done.
    + rewrite E1. destruct I5 as [I5' I5]. split; [lia|]. intros b [Hb|[Hb1%Z.leb_le _]%andb_true_iff]%orb_true_iff; [apply I5 in Hb|]; lia.
  - rewrite <- F2'. assert (Ef : mb_frame e3 = mb_frame e2) by (unfold e3; by destruct e2 as [? ? [] ? ? ?]). rewrite <- Ef, <- S4. by destruct e4 as [? ? [] ? ? ?].
Qed.

Lemma freed_cnt_less f first count z : 0 <= first -> first + count <= 2 ^ n -> first <= z < first + count -> f z = true ->
  cnt (freed f first count) (2 ^ n) < cnt f (2 ^ n) + count.
Proof.
  intros H1 H3 Hz Hf. set (g := fun b => f b && negb ((first <=? b) && (b <=? first + count - 1))).
  assert (Hr : forall b, (first <=? b) && (b <=? first + count - 1) = true <-> first <= b < first + count) by (intros b; rewrite andb_true_iff, !Z.leb_le; lia).
  rewrite (cnt_range (freed f first count) g (2 ^ n) first (first + count)); [|lia|lia|lia| |].
  - assert (cnt g (2 ^ n) < cnt f (2 ^ n)); [|lia]. apply (cnt_less g f _ z); [lia| |unfold g; rewrite (proj2 (Hr z) Hz); apply andb_false_r|done].
    intros i [Hi _]%andb_true_iff. done.
  - intros i _ Hi. unfold freed, g. rewrite <- Hr, not_true_iff_false in Hi. rewrite Hi. by rewrite orb_false_r, andb_true_r.
  - intros i Hi. unfold freed, g. rewrite (proj2 (Hr i) Hi). by rewrite orb_true_r, andb_false_r.
Qed.

(** Some cluster is free already: the first one is reported, the group is
    marked and its free clusters are taken off the count of the file system,
    and the buddy is built again. *)
Lemma free_twice_ok f e first count (Q : unit -> ext4_buddy -> Prop) :
  mb_inv sbi f e -> grp_corrupt (bd_info e) = false -> 0 <= first -> 0 < count -> first + count <= s_clusters_per_group sbi ->
  (forall b, f b = true -> b < s_clusters_per_group sbi) -> (exists b, first <= b < first + count /\ f b = true) ->
  (forall z e', first <= z < first + count -> f z = true -> (forall b, first <= b < z -> f b = false) -> mb_inv sbi (freed f first count) e' ->
     mb_frame e' = (false, true, mb_freeclusters e - (bb_free (bd_info e) + count), s_mb_buddies_generated e + 1,
       grp_errors e ++ [u64 (ext4_group_first_block_no sbi bd_group + EXT4_C2B sbi z); 0]) -> Q tt e') ->
  runs (mb_free_blocks sbi bd_group first count) e Q.
Proof using G.
  intros I Hcorr H1 H2 H3 Hmax (x & Hx & Hfx) HQ. pose proof (@mg_clusters sbi G) as Hcl. apply (free_prefix f); [done|done|done|done|lia|]. intros z e2 Hz V2 F2 F2'.
  destruct Hz as [[_ Hz]|(Hz1 & Hz2 & Hz3)]; [rewrite Hz in Hfx by done; done|]. pose proof I as [Hin _ I3 _ _ _]. set (f' := freed f first count) in *.
  assert (Hin' : forall b, f' b = true -> 0 <= b < s_clusters_per_group sbi).
  { intros b [Hb|[Hb1%Z.leb_le Hb2%Z.leb_le]%andb_true_iff]%orb_true_iff; [split; [by apply Hin|by apply Hmax]|lia]. }
  unfold free_tail. rewrite (proj2 (Z.eqb_neq z (-1))) by lia. cbn [negb]. rstep. rstep. apply runs_modify. unfold mark_bbitmap_corrupted. rstep. rstep. apply runs_gets. rstep. apply runs_modify.
  assert (Hc2 : grp_corrupt (bd_info e2) = false) by (unfold mb_frame in F2'; congruence).
  replace (grp_corrupt (id _)) with false by (by destruct e2 as [? ? [] ? ? ?]). apply runs_modify. set (e3 := _ <| mb_freeclusters ::= _ |>).
  assert (V3 : pieces sbi f' (chunk f) e3) by (unfold e3; eapply view_same; [..|exact V2]; by destruct e2 as [? ? [] ? ? ?]).
  eapply (regenerate_ok sbi f'); [exact V3|done|]. intros e4 I4 F4. eapply (set_largest_ok sbi); [apply I4|]. intros l Hl.
  apply (HQ z); [lia|done|done| |].
  - destruct I4 as [J1 J2 J3 J4 J5 J6]. destruct e4 as [? ? [] ? ? ?]. split; cbn; try done. eapply view_same; [..|exact J2]; done.
  - transitivity (mb_frame e4); [by destruct e4 as [? ? [] ? ? ?]|]. rewrite F4. pose proof (freed_cnt_less f first count z H1 ltac:(lia) Hz1 Hz2) as Hless. fold f' in Hless. rewrite <- I3 in Hless.
    unfold e3, gen_frame. unfold figures, mb_frame in *. destruct e2 as [? ? [] ? ? ?]. cbn in F2, F2', Hc2 |- *. injection F2 as -> -> ->. injection F2' as -> -> -> -> ->.
    rewrite (proj2 (Z.eqb_neq _ _)) by lia. cbn. by rewrite <- app_assoc.
Qed.

Lemma free_none_ok e (Q : unit -> ext4_buddy -> Prop) first : Q tt e -> runs (mb_free_blocks sbi bd_group first 0) e Q.
Proof. intros HQ. unfold mb_free_blocks. by apply runs_ret. Qed.
End blocks.
