(* ===== verification/BuddyUse.v ===== *)
(** * mqfs: [mb_mark_used]: the free chunks are taken apart

    The loop walks over the range; [used f a s] is what is free when it has come
    from [a] to [s]. A piece that does not meet the rest of the range is maximal
    for what will be free at the end.  [mb_find_extent] finds the free run from a
    cluster on. *)

From S2P Require Import Prelude BlockGroup Buddy BuddyChunks BuddyBits BuddyFacts BuddyGenerate.

Definition used (f : Z -> bool) (a s : Z) : Z -> bool := fun b => f b && negb ((a <=? b) && (b <? s)).

Lemma used_true f a s b : used f a s b = true <-> f b = true /\ ~ (a <= b < s).
Proof. unfold used. rewrite andb_true_iff, negb_true_iff, andb_false_iff, Z.leb_gt, Z.ltb_ge. intuition lia. Qed.

Section use.
Context (sbi : ext4_sb_info) {G : mb_geo sbi} (bd_group : Z).
#[local] Abbreviation bits := (s_blocksize_bits sbi).
#[local] Abbreviation n := (s_blocksize_bits sbi + 3).
#[local] Abbreviation top := (s_blocksize_bits sbi + 1).
#[local] Abbreviation chunk := (chunk (s_blocksize_bits sbi + 1)).
#[local] Abbreviation part := (part (s_blocksize_bits sbi + 1)).

Lemma part_ext g g' q : (forall b, g b = g' b) -> part g q -> part g' q.
Proof.
  intros E [P1 P2 P3]. split; [|done|intros b Hb; apply P3; by rewrite E]. intros o i Ho Hq. rewrite <- (allfree_ext g g') by (done || lia). by apply P1.
Qed.

(** The pieces while the range from [a] to [z] is taken, from [s] on. *)
Record taking (f : Z -> bool) (a z s : Z) (f0 : Z -> bool) (q : Z -> Z -> bool) : Prop := mk_taking {
  tk_part : part (used f a s) q;
  tk_max o i : 0 <= o < top -> q o i = true -> (forall b, s <= b < z -> b / 2 ^ o <> i) -> allfree (used f a z) (o + 1) (i / 2) = false;
  tk_bits b : 0 <= b < 2 ^ n -> ~ (a <= b < z) -> f0 b = f b;
}.

Lemma taking_start f a z : taking f a z a f (chunk f).
Proof using G.
  pose proof (orders sbi) as Hord. split; [|intros o i Ho Hq _|done].
  - apply (part_ext f); [|by apply (part_chunk n)]. intros b. apply eq_true_iff_eq. rewrite used_true. intuition lia.
  - apply not_true_iff_false. intros Hc. apply andb_true_iff in Hq as [_ Hq]. rewrite (proj2 (Z.eqb_neq o _)) in Hq by lia. cbn in Hq.
    rewrite (allfree_mono (used f a z) f) in Hq; [done|lia| |done]. intros b [Hb _]%used_true. done.
Qed.

(** The piece with cluster [s]. *)
Lemma taking_piece f a z s f0 q : taking f a z s f0 q -> f s = true -> exists o, 0 <= o <= top /\ q o (s / 2 ^ o) = true.
Proof. intros T Hs. apply (pa_all _ _ _ (tk_part _ _ _ _ _ _ T)). apply used_true. split; [done|lia]. Qed.

Lemma taking_use f a z s f0 q o :
  taking f a z s f0 q -> a <= s -> 0 <= o <= top -> s / 2 ^ o * 2 ^ o = s -> s + 2 ^ o <= z -> q o (s / 2 ^ o) = true ->
  taking f a z (s + 2 ^ o) (if o =? 0 then <[s / 2 ^ o := false]> f0 else f0) (upd2 q o (s / 2 ^ o) false).
Proof.
  intros [T1 T2 T3] Ha Ho Es Hz Hq. pose proof (Z.pow_pos_nonneg 2 o ltac:(lia) ltac:(lia)) as Hp. set (k := s / 2 ^ o) in *.
  assert (Hin : forall b, b / 2 ^ o = k <-> s <= b < s + 2 ^ o) by (intros b; rewrite <- (in_chunk b o k) by lia; lia). split.
  - eapply part_ext; [|by apply (part_use _ (used f a s))]. intros b. apply eq_true_iff_eq. unfold minus. rewrite andb_true_iff, !used_true, negb_true_iff, Z.eqb_neq, Hin. intuition lia.
  - intros o' i Ho' Hi Hb. rewrite upd2_eq in Hi. destruct ((o' =? o) && (i =? k)) eqn:Ed; [done|]. apply (T2 o' i Ho' Hi). intros b Hbr Ebi.
    destruct (Z.lt_ge_cases b (s + 2 ^ o)); [|by apply (Hb b); [lia|]]. assert (Ebk : b / 2 ^ o = k) by (apply Hin; lia).
    assert (o' = o) as -> by (apply (pa_one _ _ _ T1 _ _ b); [lia|lia|by rewrite Ebi|by rewrite Ebk]). rewrite Ebk in Ebi. subst i. by rewrite !Z.eqb_refl in Ed.
  - intros b Hb Hne. destruct (Z.eqb_spec o 0) as [->|]; [|by apply T3]. rewrite fn_upd. destruct (Z.eqb_spec b k) as [->|]; [|by apply T3].
    exfalso. apply Hne. change (2 ^ 0) with 1 in *. lia.
Qed.

Lemma taking_split f a z s f0 q o :
  taking f a z s f0 q -> a <= s < z -> 1 <= o <= top -> q o (s / 2 ^ o) = true ->
  taking f a z s (if o - 1 =? 0 then <[2 * (s / 2 ^ o) + 1 := true]> (<[2 * (s / 2 ^ o) := true]> f0) else f0) (halves q o (s / 2 ^ o)).
Proof using G.
  intros [T1 T2 T3] Hs Ho Hq. pose proof (orders sbi) as Hord. set (k := s / 2 ^ o) in *. split.
  - by apply (part_split top).
  - intros o' i Ho' [[-> Hi]|[Hi _]]%halves_eq Hb; [|by apply T2]. replace (o - 1 + 1) with o by lia. rewrite Hi. apply allfree_false; [lia|].
    exists s. split; [done|]. apply not_true_iff_false. rewrite used_true. lia.
  - intros b Hb Hne. destruct (Z.eqb_spec (o - 1) 0) as [E|]; [|by apply T3]. assert (o = 1) as -> by lia. change (2 ^ 1) with 2 in *.
    assert (Hf : b / 2 = k -> f b = true).
    { intros Eb. pose proof (pa_free _ _ _ T1 1 k ltac:(lia) Hq) as Hall. rewrite allfree_spec in Hall by lia. specialize (Hall b). change (2 ^ 1) with 2 in Hall.
      by apply Hall, used_true in Eb as [? _]. }
    rewrite !fn_upd. destruct (Z.eqb_spec b (2 * k + 1)) as [->|]; [symmetry; apply Hf; Z.to_euclidean_division_equations; lia|].
    destruct (Z.eqb_spec b (2 * k)) as [->|]; [symmetry; apply Hf; Z.to_euclidean_division_equations; lia|]. by apply T3.
Qed.

Lemma taking_end f a z f0 q o i : taking f a z z f0 q -> 0 <= o <= top -> q o i = chunk (used f a z) o i.
Proof using G. intros [T1 T2 _] Ho. pose proof (orders sbi) as Hord. apply (part_max top); [done| |done]. intros o' j Ho' Hq. apply T2; [done|done|lia]. Qed.

(** The piece of a cluster is the one the search by orders finds. *)
Lemma order_of_piece f a z s f0 q w r b :
  taking f a z s f0 q -> 0 <= w <= top -> q w (b / 2 ^ w) = true -> order_of sbi (piece_bits f0 q) b r -> r = w.
Proof.
  intros T Hw Hq [Hlow [->|[Hr Hc]]].
  - destruct (Z.eq_dec w 0) as [->|]; [done|]. specialize (Hlow w ltac:(lia) (or_introl eq_refl)). rewrite piece_bits_eq in Hlow by done. congruence.
  - rewrite piece_bits_eq in Hc by lia. apply (pa_one _ _ _ (tk_part _ _ _ _ _ _ T) _ _ b); [lia|done|done|done].
Qed.

Lemma counts_upd q o i v : valid sbi o i -> piece_counts sbi (upd2 q o i v) o = piece_counts sbi q o + Z.b2z v - Z.b2z (q o i).
Proof. intros [Ho Hi]. unfold piece_counts. rewrite (cnt_upd (upd2 q o i v o) (q o) _ i); [by rewrite upd2_hit|done|]. intros j _ Hj. by rewrite upd2_miss by lia. Qed.

Lemma counts_other q o i v o' : o' <> o -> piece_counts sbi (upd2 q o i v) o' = piece_counts sbi q o'.
Proof. intros Hne. apply cnt_ext. intros j _. by rewrite upd2_miss by lia. Qed.

(** The two halves appear. *)
Lemma two_halves_ok {A} f q e o i (rest : M ext4_buddy A) (Q : A -> ext4_buddy -> Prop) :
  pieces sbi f q e -> valid sbi o i -> valid sbi o (i + 1) -> q o i = false -> q o (i + 1) = false ->
  (forall e', pieces sbi (if o =? 0 then <[i + 1 := true]> (<[i := true]> f) else f) (upd2 (upd2 q o i true) o (i + 1) true) e' -> stats e' = stats e -> runs rest e' Q) ->
  runs (mb_clear_bit i (addr_of sbi o) ;;; mb_clear_bit (i + 1) (addr_of sbi o) ;;; add_counter o 1 ;;; add_counter o 1 ;;; rest) e Q.
Proof using G.
  intros V Hv Hv' Hq Hq' HQ. pose proof (proj1 Hv) as Ho. rstep. eapply (clear_ok sbi); [exact V|done|]. intros e1 V1 S1. rstep. eapply (clear_ok sbi); [exact V1|done|]. intros e2 V2 S2.
  rstep. eapply (add_counter_ok sbi); [exact V2|done|]. intros e3 V3 S3. rstep. eapply (add_counter_ok sbi); [exact V3|done|]. intros e4 V4 S4. apply HQ; [|congruence].
  eapply view_ext; [exact V4| |].
  - intros o' j _. unfold piece_bits. rewrite !upd2_eq. destruct (Z.eqb_spec o' o) as [->|Hne]; cbn [andb].
    + destruct (Z.eqb_spec o 0) as [->|]; [by rewrite !fn_upd|done].
    + destruct (Z.eqb_spec o' 0) as [->|]; [|done]. by destruct (Z.eqb_spec o 0); [lia|].
  - intros o' _. rewrite !fn_upd. destruct (Z.eqb_spec o' o) as [->|Hne]; [|by rewrite !counts_other].
    rewrite Z.eqb_refl, !counts_upd by done. rewrite upd2_miss, Hq, Hq' by lia. cbn. lia.
Qed.

Lemma use_loop_ok fuel f a z s f0 q e r (Q : Z -> ext4_buddy -> Prop) :
  pieces sbi f0 q e -> taking f a z s f0 q -> 0 <= a <= s -> s <= z <= 2 ^ n -> (forall b, a <= b < z -> f b = true) ->
  (s = z /\ (1 <= fuel)%nat \/ exists w, s < z /\ 0 <= w <= top /\ q w (s / 2 ^ w) = true /\ (z - s) * (top + 2) + w + 1 <= Z.of_nat fuel) ->
  (forall r e' f1 q1, pieces sbi f1 q1 e' -> taking f a z z f1 q1 -> stats e' = stats e -> Q r e') ->
  runs (use_loop sbi fuel s (z - s) r) e Q.
Proof using G.
  pose proof (orders sbi) as Hord. revert s f0 q e r. induction fuel as [|fuel IH]; intros s f0 q e r V T Ha Hz Hf Hfuel HQ.
  { destruct Hfuel as [[_ ?]|(w & ? & ? & _ & ?)]; [lia|nia]. }
  cbn [use_loop]. destruct Hfuel as [[-> _]|(w & Hsz & Hw & Hq & Hfuel)]; [rewrite Z.sub_diag; by apply runs_ret, (HQ _ _ f0 q)|].
  rewrite (proj2 (Z.eqb_neq (z - s) 0)) by lia. rstep. eapply (find_order_ok sbi); [exact V|lia|]. intros o Ho.
  assert (o = w) as -> by (by eapply (order_of_piece f a z s)). clear Ho. rewrite !Z.shiftr_div_pow2, Z.shiftl_1_l, !Z.shiftl_mul_pow2 by lia.
  pose proof (Z.pow_pos_nonneg 2 w ltac:(lia) ltac:(lia)) as Hpw. set (k := s / 2 ^ w) in *. pose proof (div_valid sbi w s Hw ltac:(lia)) as Hv. fold k in Hv.
  destruct ((k * 2 ^ w =? s) && (2 ^ w <=? z - s)) eqn:Ecase.
  - apply andb_true_iff in Ecase as [Ek%Z.eqb_eq Hlen%Z.leb_le]. cbv zeta. rstep. apply the_buddy_ok; [done|done|]. rstep. apply runs_check; [apply Z.ltb_lt, Hv|].
    rstep. eapply (set_ok sbi); [exact V|done|]. intros e1 V1 S1. rstep. eapply (add_counter_ok sbi); [exact V1|done|]. intros e2 V2 S2.
    apply (pieces_upd sbi f0 q w k false (-1)) in V2; [|done|by rewrite Hq]. rstep. apply runs_check; [apply Z.leb_le; lia|].
    replace (z - s - 2 ^ w) with (z - (s + 2 ^ w)) by lia. pose proof (taking_use f a z s f0 q w T ltac:(lia) Hw Ek ltac:(lia) Hq) as T2. fold k in T2.
    eapply IH; [exact V2|exact T2|lia|lia|done| |intros r' e' f1 q1 V3 T3 S3; apply (HQ _ _ f1 q1); [done|done|congruence]].
    destruct (Z.eq_dec (s + 2 ^ w) z) as [E|E]; [left; split; [done|nia]|]. right.
    destruct (taking_piece f a z _ _ _ T2) as (w' & Hw' & Hq'); [apply Hf; lia|]. exists w'. split_and!; [lia|lia|lia|done|nia].
  - assert (Hw1 : 1 <= w).
    { destruct (Z.eq_dec w 0) as [->|]; [|lia]. unfold k in Ecase. change (2 ^ 0) with 1 in Ecase. rewrite Z.div_1_r, Z.mul_1_r, Z.eqb_refl, (proj2 (Z.leb_le _ _)) in Ecase by lia. done. }
    cbv zeta. rstep. apply runs_check; [apply Z.ltb_lt; lia|]. rstep. apply the_buddy_ok; [done|done|]. cbn [fst]. rstep. eapply (set_ok sbi); [exact V|done|]. intros e1 V1 S1.
    rstep. eapply (add_counter_ok sbi); [exact V1|done|]. intros e2 V2 S2. apply (pieces_upd sbi f0 q w k false (-1)) in V2; [|done|by rewrite Hq].
    rewrite (proj2 (Z.eqb_neq w 0)) in V2 by lia. rstep. apply the_buddy_ok; [done|lia|]. cbn [fst].
    assert (Ecur : Z.ldiff (Z.shiftr s (w - 1)) 1 = 2 * k).
    { change 1 with (Z.ones 1) at 2. rewrite Z.ldiff_ones_r, (Z.shiftr_div_pow2 s) by lia. rewrite Z.shiftr_div_pow2, Z.shiftl_mul_pow2 by lia. change (2 ^ 1) with 2.
      rewrite div_pow_succ by lia. replace (w - 1 + 1) with w by lia. fold k. lia. }
    rewrite Ecur. assert (Hno : forall t, t = 2 * k \/ t = 2 * k + 1 -> valid sbi (w - 1) t /\ upd2 q w k false (w - 1) t = false).
    { intros t Ht. destruct Hv as [_ Hv]. assert (E2 : 2 ^ (n - (w - 1)) = 2 * 2 ^ (n - w)) by (replace (n - (w - 1)) with (n - w + 1) by lia; rewrite Z.pow_add_r by lia; lia).
      split; [split; lia|]. rewrite upd2_miss by lia. apply not_true_iff_false. intros Hqt. pose proof (Z.pow_pos_nonneg 2 (w - 1) ltac:(lia) ltac:(lia)).
      assert (Et : t * 2 ^ (w - 1) / 2 ^ (w - 1) = t) by (apply Z.div_mul; lia).
      assert (w - 1 = w); [|lia]. apply (pa_one _ _ _ (tk_part _ _ _ _ _ _ T) _ _ (t * 2 ^ (w - 1))); [lia|lia|by rewrite Et|].
      pose proof (div_pow_succ (t * 2 ^ (w - 1)) (w - 1) ltac:(lia)) as Ed. replace (w - 1 + 1) with w in Ed by lia. rewrite Et in Ed. rewrite <- Ed.
      by replace (t / 2) with k by (Z.to_euclidean_division_equations; lia). }
    destruct (Hno (2 * k) ltac:(lia)) as [Hv1 Hq1]. destruct (Hno (2 * k + 1) ltac:(lia)) as [Hv2 Hq2].
    eapply two_halves_ok; [exact V2|done|done|done|done|]. intros e3 V3 S3. pose proof (taking_split f a z s f0 q w T ltac:(lia) ltac:(lia) Hq) as T2. fold k in T2.
    eapply IH; [exact V3|exact T2|lia|lia|done| |intros r' e' f1 q1 V4 T4 S4; apply (HQ _ _ f1 q1); [done|done|congruence]].
    right. exists (w - 1). split_and!; [lia|lia|lia| |lia]. apply halves_eq. left. split; [done|]. rewrite div_pow_succ by lia. by replace (w - 1 + 1) with w by lia.
Qed.

Lemma used_inside f a s : inside n f -> inside n (used f a s).
Proof. intros Hin b [Hb _]%used_true. by apply Hin. Qed.

Lemma used_outside f a s b : ~ (a <= b < s) -> used f a s b = f b.
Proof. intros Hb. apply eq_true_iff_eq. rewrite used_true. tauto. Qed.

Lemma used_range f a s b : a <= b < s -> used f a s b = false.
Proof. intros Hb. apply not_true_iff_false. rewrite used_true. tauto. Qed.

(** The figures when a free range is used. *)
Lemma used_figures f a len :
  inside n f -> 0 <= a -> 0 < len -> a + len <= 2 ^ n -> (forall b, a <= b < a + len -> f b = true) ->
  cnt (used f a (a + len)) (2 ^ n) = cnt f (2 ^ n) - len /\
  cnt (run_start (used f a (a + len))) (2 ^ n) = cnt (run_start f) (2 ^ n) + Z.b2z (f (a - 1)) + Z.b2z (f (a + len)) - 1.
Proof.
  intros Hin H1 H2 H3 Hf. set (h := used f a (a + len)). split.
  - rewrite (cnt_range f h (2 ^ n) a (a + len)); [lia|lia|lia|lia| |].
    + intros i _ Hi. by rewrite <- (used_outside f a (a + len)).
    + intros i Hi. split; [by apply Hf|by apply used_range].
  - rewrite (runs_freed h f (2 ^ n) a (a + len - 1)); [|lia|lia|by apply used_inside| |intros x Hx; apply used_range; lia].
    + replace (a + len - 1 + 1) with (a + len) by lia. unfold h. rewrite !(used_outside f) by lia. lia.
    + intros x. destruct (Z.leb_spec a x), (Z.leb_spec x (a + len - 1)); cbn [andb]; rewrite ?orb_true_r, ?orb_false_r; [apply Hf; lia|symmetry; apply used_outside; lia..].
Qed.

Lemma mark_used_ok f e ex (Q : Z -> ext4_buddy -> Prop) :
  mb_inv sbi f e -> fe_group ex = bd_group -> 0 <= fe_start ex -> 0 < fe_len ex -> fe_start ex + fe_len ex <= 2 ^ n ->
  (forall b, fe_start ex <= b < fe_start ex + fe_len ex -> f b = true) ->
  (forall r e', mb_inv sbi (used f (fe_start ex) (fe_start ex + fe_len ex)) e' -> mb_frame e' = mb_frame e -> Q r e') ->
  runs (mb_mark_used sbi bd_group ex) e Q.
Proof using G.
  intros I Hg. set (a := fe_start ex). set (len := fe_len ex). intros H1 H2 H3 Hf HQ. pose proof (orders sbi) as Hord. pose proof (@mg_bits sbi G) as Hbits.
  pose proof I as [Hin IV I3 I4 I5 _]. destruct (used_figures f a len Hin H1 H2 H3 Hf) as [E1 E2]. set (h := used f a (a + len)) in *.
  unfold mb_mark_used. fold a len. cbv zeta. rstep. apply runs_check; [rewrite Z.shiftl_mul_pow2, (@mg_size sbi G), <- Z.pow_add_r by lia; apply Z.leb_le; lia|].
  rstep. apply runs_check; [apply Z.eqb_eq; done|]. rstep. apply runs_modify. rstep. apply runs_modify. set (e1 := _ <| bd_info ::= _ |>).
  assert (V1 : pieces sbi f (chunk f) e1) by (apply view_figures, view_figures, IV; done).
  rstep. apply runs_conseq with (P := fun lf e' => lf = f (a - 1) /\ e' = e1).
  { destruct (Z.eqb_spec a 0) as [->|Hne]; cbn [negb]; [apply runs_ret; split; [symmetry; apply (outside sbi); [done|lia]|done]|]. by eapply (neighbour_ok sbi); [exact V1|lia|]. }
  intros lf ? [-> ->]. rstep. apply mb_order_ok; [done|lia|]. cbn [snd]. replace (n - 0) with n by lia.
  rstep. apply runs_conseq with (P := fun rf e' => rf = f (a + len) /\ e' = e1).
  { destruct (Z.ltb_spec (a + len) (2 ^ n)); [|apply runs_ret; split; [symmetry; apply (outside sbi); [done|lia]|done]]. by eapply (neighbour_ok sbi); [exact V1|lia|]. }
  intros rf ? [-> ->]. rstep. apply runs_modify. set (e2 := e1 <| bd_info ::= _ |>). assert (V2 : pieces sbi f (chunk f) e2) by (by apply view_figures).
  rstep. replace len with (a + len - a) at 2 by lia. eapply (use_loop_ok _ f a (a + len) a); [exact V2|apply taking_start|lia|lia|done| |].
  { right. destruct (taking_piece f a (a + len) a f _ (taking_start f a (a + len))) as (w & Hw & Hq); [apply Hf; lia|]. exists w. split_and!; [lia|lia|lia|done|nia]. }
  intros r e3 f1 q1 V3 T3 S3. rstep. eapply (set_largest_ok sbi); [exact V3|]. intros l Hl. set (e4 := e3 <| bd_info ::= _ |>).
  assert (V4 : pieces sbi f1 q1 e4) by (by apply view_figures). rstep.
  eapply (set_range_ok sbi _ _ e4 0 a len); [exact V4|lia|lia|lia|replace (n - 0) with n by lia; lia|]. intros e5 V5 S5. apply runs_ret, HQ.
  - assert (Ek : forall o, 0 <= o <= top -> piece_counts sbi q1 o = piece_counts sbi (chunk h) o) by (intros o Ho; apply cnt_ext; intros i _; by apply (taking_end f a (a + len) f1)).
    assert (VV : pieces sbi h (chunk h) e5).
    { eapply view_ext; [exact V5| |done]. intros o i [Ho Hi]. unfold updr, piece_bits. destruct (Z.eqb_spec o 0) as [->|]; cbn [andb]; [|by apply (taking_end f a (a + len) f1)].
      replace (n - 0) with n in Hi by lia. destruct (Z.leb_spec a i), (Z.ltb_spec i (a + len)); cbn [andb]; [symmetry; apply used_range; lia|..];
        (rewrite (tk_bits _ _ _ _ _ _ T3) by lia; symmetry; apply used_outside; lia). }
    assert (F5 : stats e5 = (grp_need_init (bd_info e), grp_corrupt (bd_info e), if bb_first_free (bd_info e) =? a then a + len else bb_first_free (bd_info e),
      bb_free (bd_info e) - len, cnt (run_start h) (2 ^ n), l, mb_freeclusters e, s_mb_buddies_generated e, grp_errors e)).
    { rewrite S5, E2, <- I4. unfold e4, e2, e1, stats in *. destruct e as [? ? [? ? ff ? ? ? ?] ? ? ?], e3 as [? ? [] ? ? ?]. cbn in S3 |- *. injection S3 as -> -> -> -> -> _ -> -> ->.
      repeat f_equal; [destruct (Z.eqb_spec ff a) as [->|]; done|]. destruct (f (a - 1)), (f (a + len)); cbn; lia. }
    unfold stats in F5. injection F5 as _ _ F1 F2 F3 F4 _ _ _. split; [by apply used_inside|done|by rewrite F2, E1, I3|done| |].
    + rewrite F1. destruct I5 as [I5' I5]. split; [destruct (_ =? _); lia|]. intros b [Hb Hnb]%used_true. apply I5 in Hb. destruct (Z.eqb_spec (bb_first_free (bd_info e)) a); lia.
    + rewrite F4. destruct Hl as (L1 & L2 & L3). split_and!; [lia|lia|intros Hl0; rewrite <- Ek by lia; by apply L2|intros o Ho Ho0; rewrite <- Ek by lia; by apply L3].
  - apply stats_eq in S5 as [S5 _]. apply stats_eq in S3 as [S3 _]. rewrite S5. transitivity (mb_frame e3); [by destruct e3 as [? ? [] ? ? ?]|]. rewrite S3. by destruct e as [? ? [] ? ? ?].
Qed.
End use.

(** ** [mb_find_extent] *)

Section extent.
Context (sbi : ext4_sb_info) {G : mb_geo sbi} (bd_group : Z).
#[local] Abbreviation bits := (s_blocksize_bits sbi).
#[local] Abbreviation n := (s_blocksize_bits sbi + 3).
#[local] Abbreviation top := (s_blocksize_bits sbi + 1).
#[local] Abbreviation chunk := (chunk (s_blocksize_bits sbi + 1)).

(** The extent is free, begins at [b], and is long enough unless the run of
    free clusters ends with it. *)
Definition good_extent (f : Z -> bool) (b needed : Z) (ex : ext4_free_extent) : Prop :=
  fe_start ex = b /\ 0 < fe_len ex /\ b + fe_len ex <= 2 ^ n /\ (forall x, b <= x < b + fe_len ex -> f x = true) /\
  (needed <= fe_len ex \/ f (b + fe_len ex) = false).

Lemma order_of_free f b o : f b = true -> order_of sbi (piece_bits f (chunk f)) b o -> 0 <= o <= top /\ chunk f o (b / 2 ^ o) = true.
Proof using G.
  intros Hf Ho. pose proof (taking_start sbi f 0 0) as T. destruct (pa_all _ _ _ (part_chunk n top (orders sbi) f) b Hf) as (w & Hw & Hq).
  by rewrite (order_of_piece sbi f 0 0 0 f (chunk f) w o b T Hw Hq Ho).
Qed.

(** The chunk behind a chunk begins where that one ends. *)
Lemma next_chunk f o i o' :
  0 <= o <= top -> 0 <= o' <= top -> chunk f o i = true -> chunk f o' ((i + 1) * 2 ^ o / 2 ^ o') = true ->
  (i + 1) * 2 ^ o / 2 ^ o' * 2 ^ o' = (i + 1) * 2 ^ o.
Proof.
  intros Ho Ho' Hc Hc'. set (p := (i + 1) * 2 ^ o) in *. pose proof (Z.pow_pos_nonneg 2 o ltac:(lia) ltac:(lia)). pose proof (Z.pow_pos_nonneg 2 o' ltac:(lia) ltac:(lia)).
  pose proof (proj2 (in_chunk p o' (p / 2 ^ o') ltac:(lia)) eq_refl) as Hp. destruct (Z.eq_dec (p / 2 ^ o' * 2 ^ o') p) as [|Hne]; [done|exfalso].
  assert (E1 : (p - 1) / 2 ^ o' = p / 2 ^ o') by (apply in_chunk; lia). assert (E2 : (p - 1) / 2 ^ o = i) by (apply in_chunk; lia).
  assert (o' = o) as -> by (apply (chunk_unique top f _ _ (p - 1)); [done|done|by rewrite E1|by rewrite E2]). rewrite E1 in E2. rewrite E2 in Hp. lia.
Qed.

Lemma extent_loop_ok fuel f e o i b needed ex (Q : ext4_free_extent -> ext4_buddy -> Prop) :
  inside n f -> pieces sbi f (chunk f) e -> 0 <= b -> 0 <= o <= top -> chunk f o i = true ->
  fe_start ex = b -> 0 < fe_len ex -> b + fe_len ex = (i + 1) * 2 ^ o -> (forall x, b <= x < b + fe_len ex -> f x = true) -> 2 ^ n - (b + fe_len ex) < Z.of_nat fuel ->
  (forall ex', good_extent f b needed ex' -> fe_group ex' = fe_group ex -> fe_logical ex' = fe_logical ex -> Q ex' e) ->
  runs (extent_loop sbi fuel o i needed ex) e Q.
Proof using G.
  intros Hin V Hb. pose proof (orders sbi) as Hord. revert o i ex. induction fuel as [|fuel IH]; intros o i ex Ho Hc Es Hl El Hf Hfuel HQ.
  { assert (b + fe_len ex <= 2 ^ n); [|lia]. pose proof (Hin _ (Hf (b + fe_len ex - 1) ltac:(lia))). lia. }
  assert (Hend : b + fe_len ex <= 2 ^ n) by (pose proof (Hin _ (Hf (b + fe_len ex - 1) ltac:(lia))); lia).
  cbn [extent_loop]. destruct (Z.leb_spec needed (fe_len ex)) as [Hn|Hn]; [apply runs_ret, HQ; [|done|done]; split_and!; try done; by left|].
  rstep. apply find_buddy_ok; [done|done|]. rewrite Z.shiftl_1_l, <- El. pose proof (Z.pow_pos_nonneg 2 o ltac:(lia) ltac:(lia)) as Hpo.
  assert (Epow : 2 ^ n = 2 ^ (n - o) * 2 ^ o) by (rewrite <- Z.pow_add_r by lia; f_equal; lia).
  destruct (Z.leb_spec (2 ^ (n - o)) (i + 1)) as [Hm|Hm].
  { apply runs_ret, HQ; [|done|done]. split_and!; try done. right. apply (outside sbi); [done|]. nia. }
  assert (Hnext : 0 <= b + fe_len ex < 2 ^ n) by nia. cbv zeta. rstep.
  eapply (test_ok sbi _ _ e 0 (b + fe_len ex)); [exact V|split; [lia|by replace (n - 0) with n by lia]|]. cbn [piece_bits Z.eqb].
  destruct (f (b + fe_len ex)) eqn:Ef; cbn [negb]; [|apply runs_ret, HQ; [|done|done]; split_and!; try done; by right].
  rstep. eapply (find_order_ok sbi); [exact V|lia|]. intros o' Ho'. apply order_of_free in Ho' as [Ho' Hc']; [|done]. rewrite !Z.shiftl_1_l, Z.shiftr_div_pow2 by lia.
  set (p := b + fe_len ex) in *. pose proof (Z.pow_pos_nonneg 2 o' ltac:(lia) ltac:(lia)) as Hpo'.
  assert (Ep : p / 2 ^ o' * 2 ^ o' = p) by (rewrite El in Hc' |- *; by apply (next_chunk f)).
  apply IH; destruct ex as [lo st gr ln]; cbn in *; [done|done|done|lia|lia| |lia|exact HQ].
  intros x Hx. destruct (Z.lt_ge_cases x p); [apply Hf; lia|]. apply (chunk_free top f o' (p / 2 ^ o')); [lia|done|lia].
Qed.

(** A busy cluster. *)
Lemma find_extent_busy f q e b needed ex (Q : ext4_free_extent -> ext4_buddy -> Prop) :
  pieces sbi f q e -> 0 <= b < 2 ^ n -> f b = false -> Q (ex <| fe_len := 0 |> <| fe_start := 0 |> <| fe_group := 0 |>) e ->
  runs (mb_find_extent sbi bd_group b needed ex) e Q.
Proof using G.
  intros V Hb Hf HQ. pose proof (orders sbi) as Hord. unfold mb_find_extent. cbv zeta. rstep. apply the_buddy_ok; [done|lia|]. replace (n - 0) with n by lia.
  rstep. apply runs_check; [apply Z.ltb_lt; lia|]. rstep. eapply (test_ok sbi); [exact V|split; [lia|by replace (n - 0) with n by lia]|]. cbn [piece_bits Z.eqb]. rewrite Hf. by apply runs_ret.
Qed.

Lemma find_extent_free f e b needed ex (Q : ext4_free_extent -> ext4_buddy -> Prop) :
  inside n f -> pieces sbi f (chunk f) e -> f b = true ->
  (forall ex', good_extent f b needed ex' -> fe_group ex' = bd_group -> fe_logical ex' = fe_logical ex -> Q ex' e) ->
  runs (mb_find_extent sbi bd_group b needed ex) e Q.
Proof using G.
  intros Hin V Hf HQ. pose proof (Hin b Hf) as Hb. pose proof (orders sbi) as Hord. unfold mb_find_extent. cbv zeta. rstep. apply the_buddy_ok; [done|lia|]. replace (n - 0) with n by lia.
  rstep. apply runs_check; [apply Z.ltb_lt; lia|]. rstep. eapply (test_ok sbi); [exact V|split; [lia|by replace (n - 0) with n by lia]|]. cbn [piece_bits Z.eqb]. rewrite Hf. cbn [negb].
  rstep. eapply (find_order_ok sbi); [exact V|lia|]. intros o Ho. apply order_of_free in Ho as [Ho Hc]; [|done]. rewrite !Z.shiftl_1_l, !Z.shiftr_div_pow2, !Z.shiftl_mul_pow2 by lia.
  pose proof (proj2 (in_chunk b o (b / 2 ^ o) ltac:(lia)) eq_refl) as Hbo. set (i := b / 2 ^ o) in *. rstep.
  eapply (extent_loop_ok _ f e o i b); [done|exact V|lia|done|done| | | | | |]; destruct ex as [lo st gr ln]; cbn; [lia|lia|lia| |lia|].
  - intros x Hx. apply (chunk_free top f o i); [lia|done|lia].
  - intros ex' Hg E1 E2. apply runs_ret. destruct Hg as (Es & H1 & H2 & H3). rewrite Es, (proj2 (Z.ltb_ge (2 ^ n) _)) by lia. by apply HQ.
Qed.
End extent.
