(* ===== verification/BuddyTheorems.v ===== *)
(** * mqfs: properties of the buddy bitmaps

    [mb_ok sbi e] is the invariant of a loaded group: the buddy and the counters
    describe exactly the maximal free chunks of the bitmap.  Every operation of
    the buddy keeps it and changes the bitmap as its name says. *)

From S2P Require Import Prelude BlockGroup Buddy BuddyChunks BuddyBits BuddyFacts BuddyGenerate BuddyUse.

Section theorems.
Context (sbi : ext4_sb_info) {G : mb_geo sbi}.
#[local] Abbreviation bits := (s_blocksize_bits sbi).
#[local] Abbreviation n := (s_blocksize_bits sbi + 3).
#[local] Abbreviation top := (s_blocksize_bits sbi + 1).

(** ** Starting from the bitmap *)

(** The blocks have their sizes. *)
Definition mb_sized (e : ext4_buddy) : Prop :=
  Z.of_nat (length (bd_bitmap e)) = 2 ^ n /\ Z.of_nat (length (bb_counters (bd_info e))) = bits + 2.

Lemma init_cache_ok e (Q : unit -> ext4_buddy -> Prop) :
  mb_sized e -> (forall b, free_at e b = true -> b < s_clusters_per_group sbi) ->
  (forall e', mb_inv sbi (free_at e) e' -> mb_frame e' = gen_frame e (cnt (free_at e) (2 ^ n)) -> Q tt e') -> runs (mb_init_cache_buddy sbi) e Q.
Proof using G.
  intros [L1 L2] Hin HQ. pose proof (orders sbi) as Hord. pose proof (@mg_bits sbi G) as Hbits. unfold mb_init_cache_buddy. rstep. apply runs_modify. rstep. apply runs_modify. set (e1 := _ <| bd_buddy := _ |>).
  assert (E8 : Z.of_nat (Z.to_nat (8 * s_blocksize sbi)) = 2 ^ n).
  { rewrite (@mg_size sbi G). assert (E : 2 ^ n = 8 * 2 ^ bits) by (rewrite Z.pow_add_r by lia; lia). pose proof (Z.pow_nonneg 2 bits). lia. }
  assert (V1 : pieces sbi (free_at e) (fun _ _ => false) e1).
  { unfold e1. destruct e as [bm bd [] fc gn er]. cbn in L1, L2. split; cbn; [done|by rewrite length_replicate| |rewrite length_replicate; lia|].
    - intros o i Hv. destruct (pos_range sbi o i Hv) as [Hp _]. unfold piece_bits, addr_of. destruct (Z.eqb_spec o 0) as [->|Hne]; cbn.
      + unfold pos, off in *. cbn in *. rewrite Z.add_0_l in *. destruct (lookup_lt_is_Some_2 bm (Z.to_nat i)) as [v Ev]; [lia|]. unfold free_at. cbn. rewrite Ev, (proj2 (Z.leb_le 0 i)) by lia. cbn. by rewrite negb_involutive.
      + apply lookup_replicate_2. lia.
    - intros o Ho. rewrite lookup_replicate_2 by lia. f_equal. unfold piece_counts. symmetry. apply Z.le_antisymm; [|apply cnt_bound, Z.pow_nonneg; lia].
      apply Z.nlt_ge. intros (i & _ & Hi)%cnt_pos. done. }
  eapply (generate_ok sbi (free_at e)); [exact V1| |].
  - intros b Hb. split; [|by apply Hin]. unfold free_at in Hb. apply andb_true_iff in Hb as [Hb _]. by apply Z.leb_le in Hb.
  - intros e2 I F. apply HQ; [done|]. rewrite F. unfold e1. by destruct e as [bm bd [] fc gn er].
Qed.

(** ** The buddy is determined by the bitmap *)

(** The bitmaps, the orders of the buddy, and the figures that do not depend on
    the history of the group. *)
Definition same_buddy (e e' : ext4_buddy) : Prop :=
  bd_bitmap e' = bd_bitmap e /\ bb_counters (bd_info e') = bb_counters (bd_info e) /\
  (forall o i, 1 <= o <= top -> 0 <= i < 2 ^ (n - o) -> bd_buddy e' !! Z.to_nat (pos sbi o i) = bd_buddy e !! Z.to_nat (pos sbi o i)) /\
  bb_free (bd_info e') = bb_free (bd_info e) /\ bb_fragments (bd_info e') = bb_fragments (bd_info e) /\
  bb_largest_free_order (bd_info e') = bb_largest_free_order (bd_info e).

Lemma view_list c k e e' : view sbi c k e -> view sbi c k e' -> bd_bitmap e' = bd_bitmap e /\ bb_counters (bd_info e') = bb_counters (bd_info e).
Proof using G.
  intros [V1 V2 V3 V4 V5] [W1 W2 W3 W4 W5]. pose proof (orders sbi) as Hord. split; apply (list_eq_same_length _ _ _ eq_refl).
  - lia.
  - intros j x y Hj Hx Hy. assert (Hv : valid sbi 0 (Z.of_nat j)) by (split; [lia|replace (n - 0) with n by lia; lia]).
    specialize (V3 0 _ Hv). specialize (W3 0 _ Hv). cbn [addr_of Z.eqb fst block_bits] in V3, W3. change (pos sbi 0 (Z.of_nat j)) with (0 + Z.of_nat j) in V3, W3.
    rewrite Z.add_0_l, Nat2Z.id in V3, W3. congruence.
  - lia.
  - intros j x y Hj Hx Hy. specialize (V5 (Z.of_nat j) ltac:(lia)). specialize (W5 (Z.of_nat j) ltac:(lia)). rewrite Nat2Z.id in V5, W5. congruence.
Qed.

Lemma largest_unique k l l' : largest sbi k l -> largest sbi k l' -> l = l'.
Proof.
  intros (A1 & A2 & A3) (B1 & B2 & B3). destruct (Z.lt_trichotomy l l') as [Hlt|[?|Hlt]]; [|done|].
  - specialize (A3 l' ltac:(lia) ltac:(lia)). specialize (B2 ltac:(lia)). lia.
  - specialize (B3 l ltac:(lia) ltac:(lia)). specialize (A2 ltac:(lia)). lia.
Qed.

Lemma mb_inv_same f e e' : mb_inv sbi f e -> mb_inv sbi f e' -> same_buddy e e'.
Proof using G.
  intros [I1 I2 I3 I4 _ I6] [J1 J2 J3 J4 _ J6]. destruct (view_list _ _ _ _ I2 J2) as [E1 E2]. split_and!; [done|done| |congruence|congruence|by eapply largest_unique].
  intros o i Ho Hi. assert (Hv : valid sbi o i) by (split; [lia|done]). pose proof (vw_bit _ _ _ _ I2 o i Hv) as A. pose proof (vw_bit _ _ _ _ J2 o i Hv) as B.
  unfold addr_of in A, B. rewrite (proj2 (Z.eqb_neq o 0)) in A, B by lia. cbn in A, B. congruence.
Qed.

(** C33: [ext4_mb_init_cache] builds the buddy of a group from its bitmap: the
    buddy holds exactly the maximal free chunks, the counters their numbers, and
    the figures the free clusters, the runs and the largest order; a count of
    free clusters that does not agree with the bitmap is reported and corrected,
    and the group marked. *)
Theorem init_cache_builds_buddy e :
  mb_sized e -> (forall b, free_at e b = true -> b < s_clusters_per_group sbi) ->
  runs (mb_init_cache_buddy sbi) e (fun _ e' =>
    mb_ok sbi e' /\ (forall b, free_at e' b = free_at e b) /\ mb_frame e' = gen_frame e (cnt (free_at e) (2 ^ n))).
Proof using G. intros Hs Hin. apply init_cache_ok; [done|done|]. intros e' I F. destruct (mb_inv_ok sbi _ _ I) as [Hok E]. done. Qed.

(** C31: Freeing clusters that are in use keeps the buddy in agreement with the
    bitmap, whatever merges with them on both sides and at every order: the
    bitmap gains exactly these clusters and no other state of the group changes. *)
Theorem free_blocks_merges bd_group e first count :
  mb_ok sbi e -> grp_corrupt (bd_info e) = false -> 0 <= first -> 0 < count -> first + count <= 2 ^ n ->
  (forall b, first <= b < first + count -> free_at e b = false) ->
  runs (mb_free_blocks sbi bd_group first count) e (fun _ e' =>
    mb_ok sbi e' /\ (forall b, free_at e' b = freed (free_at e) first count b) /\ mb_frame e' = mb_frame e).
Proof using G.
  intros Hok Hc H1 H2 H3 Hb. apply (free_busy_ok sbi bd_group (free_at e)); [done|done|done|done|done|done|]. intros e' I F. destruct (mb_inv_ok sbi _ _ I) as [Hok' E]. done.
Qed.

(** What freeing leaves behind, step by step and order by order, is what
    building the buddy again from the bitmap would give. *)
Theorem free_equals_rebuild bd_group e first count :
  mb_ok sbi e -> grp_corrupt (bd_info e) = false -> 0 <= first -> 0 < count -> first + count <= s_clusters_per_group sbi ->
  (forall b, free_at e b = true -> b < s_clusters_per_group sbi) -> (forall b, first <= b < first + count -> free_at e b = false) ->
  runs (mb_free_blocks sbi bd_group first count ;;; e1 <-- gets id ;; mb_regenerate_buddy sbi ;;; e2 <-- gets id ;; ret (e1, e2)) e
    (fun r _ => same_buddy r.1 r.2 /\ grp_errors r.2 = grp_errors e /\ mb_freeclusters r.2 = mb_freeclusters e).
Proof using G.
  intros Hok Hc H1 H2 H3 Hin Hb. pose proof (@mg_clusters sbi G) as Hm. rstep. apply (free_busy_ok sbi bd_group (free_at e)); [done|done|done|done|lia|done|]. intros e1 I1 F1.
  rstep. apply runs_gets. rstep. eapply (regenerate_ok sbi (freed (free_at e) first count)); [apply I1| |].
  - intros b [Hf|[Hb1%Z.leb_le Hb2%Z.leb_le]%andb_true_iff]%orb_true_iff; [|lia]. split; [|by apply Hin]. by apply (mi_inside _ _ _ Hok).
  - intros e2 I2 F2. rstep. apply runs_gets, runs_ret. cbn. split; [by eapply mb_inv_same|].
    unfold gen_frame in F2. rewrite (mi_free _ _ _ I1), Z.eqb_refl in F2. cbn in F2. unfold mb_frame in *. split; congruence.
Qed.

(** C32: Using a free extent takes exactly its clusters out of the bitmap and
    leaves the buddy in agreement with it, however many chunks have to be taken
    apart for it. *)
Theorem mark_used_splits bd_group e ex :
  mb_ok sbi e -> fe_group ex = bd_group -> 0 <= fe_start ex -> 0 < fe_len ex -> fe_start ex + fe_len ex <= 2 ^ n ->
  (forall b, fe_start ex <= b < fe_start ex + fe_len ex -> free_at e b = true) ->
  runs (mb_mark_used sbi bd_group ex) e (fun _ e' =>
    mb_ok sbi e' /\ (forall b, free_at e' b = used (free_at e) (fe_start ex) (fe_start ex + fe_len ex) b) /\ mb_frame e' = mb_frame e).
Proof using G.
  intros Hok Hg H1 H2 H3 Hf. apply (mark_used_ok sbi bd_group (free_at e)); [done|done|done|done|done|done|]. intros r e' I F. destruct (mb_inv_ok sbi _ _ I) as [Hok' E]. done.
Qed.

Lemma freed_used f a len b : (forall x, a <= x < a + len -> f x = true) -> freed (used f a (a + len)) a len b = f b.
Proof.
  intros Hf. apply eq_true_iff_eq. unfold freed. rewrite orb_true_iff, andb_true_iff, !Z.leb_le, used_true. split; [|intros Hb; destruct (decide (a <= b < a + len)); [right; lia|by left]].
  intros [[Hb _]|Hb]; [done|]. apply Hf. lia.
Qed.

(** An extent that is used and freed again leaves no trace: the bitmap, every
    order of the buddy, the counters and the figures are as before. *)
Theorem use_then_free_restores bd_group e ex :
  mb_ok sbi e -> grp_corrupt (bd_info e) = false -> fe_group ex = bd_group -> 0 <= fe_start ex -> 0 < fe_len ex -> fe_start ex + fe_len ex <= 2 ^ n ->
  (forall b, fe_start ex <= b < fe_start ex + fe_len ex -> free_at e b = true) ->
  runs (_ <-- mb_mark_used sbi bd_group ex ;; mb_free_blocks sbi bd_group (fe_start ex) (fe_len ex)) e (fun _ e' =>
    mb_ok sbi e' /\ same_buddy e e' /\ mb_frame e' = mb_frame e).
Proof using G.
  intros Hok Hc Hg H1 H2 H3 Hf. rstep. apply (mark_used_ok sbi bd_group (free_at e)); [done|done|done|done|done|done|]. intros r e1 I1 F1.
  eapply (free_busy_ok sbi bd_group); [exact I1|unfold mb_frame in F1; congruence|done|done|done|intros b Hb; by apply used_range|]. intros e2 I2 F2.
  assert (I3 : mb_inv sbi (free_at e) e2) by (eapply mb_inv_ext; [|exact I2]; intros b; by apply freed_used).
  destruct (mb_inv_ok sbi _ _ I3) as [Hok' _]. split_and!; [done|by eapply mb_inv_same|congruence].
Qed.

(** The search for an extent from a cluster on changes nothing; it gives an
    extent of free clusters that begins there and has the length asked for or
    reaches the end of the free run, and nothing if the cluster is in use. *)
Theorem find_extent_is_free_run bd_group e block needed ex :
  mb_ok sbi e -> 0 <= block < 2 ^ n ->
  runs (mb_find_extent sbi bd_group block needed ex) e (fun ex' e' =>
    e' = e /\ if free_at e block then good_extent sbi (free_at e) block needed ex' /\ fe_group ex' = bd_group else fe_len ex' = 0).
Proof using G.
  intros Hok Hb. destruct (free_at e block) eqn:Ef.
  - apply (find_extent_free sbi bd_group (free_at e)); [apply Hok|apply Hok|done|]. intros ex' Hg E _. done.
  - eapply (find_extent_busy sbi bd_group (free_at e)); [apply Hok|done|done|]. by destruct ex.
Qed.

(** Freeing a range with a cluster that is free already reports the first
    such cluster, marks the group so that nothing is allocated from it, takes
    its clusters off the free space of the file system, and leaves a buddy that
    agrees with the bitmap. *)
Theorem double_free_detected bd_group e first count :
  mb_ok sbi e -> grp_corrupt (bd_info e) = false -> 0 <= first -> 0 < count -> first + count <= s_clusters_per_group sbi ->
  (forall b, free_at e b = true -> b < s_clusters_per_group sbi) -> (exists b, first <= b < first + count /\ free_at e b = true) ->
  runs (mb_free_blocks sbi bd_group first count) e (fun _ e' =>
    mb_ok sbi e' /\ (forall b, free_at e' b = freed (free_at e) first count b) /\ grp_corrupt (bd_info e') = true /\
    mb_freeclusters e' = mb_freeclusters e - (bb_free (bd_info e) + count) /\
    exists z, first <= z < first + count /\ free_at e z = true /\ (forall b, first <= b < z -> free_at e b = false) /\
      grp_errors e' = grp_errors e ++ [u64 (ext4_group_first_block_no sbi bd_group + EXT4_C2B sbi z); 0]).
Proof using G.
  intros Hok Hc H1 H2 H3 Hin Hex. apply (free_twice_ok sbi bd_group (free_at e)); [done|done|done|done|done|done|done|]. intros z e' Hz1 Hz2 Hz3 I F.
  destruct (mb_inv_ok sbi _ _ I) as [Hok' E]. unfold mb_frame in F. injection F as F1 F2 F3 F4 F5. split_and!; [done|done|done|done|]. by exists z.
Qed.
End theorems.

(** ** A small group

    64 bits of which 60 are clusters; the clusters 0 to 2, 13 and 40 to 47 are in
    use.  The buddy has never been built. *)

Definition sbi3 : ext4_sb_info :=
  mk_sbi 8 3 1 2 120 60 4 2 64 3 8 1 0 17 1 300 0 40 0 0 4 (0, 0) false false false true false true true.

#[export] Instance geo3 : mb_geo sbi3.
Proof. split; vm_compute; try done; split; done. Qed.

Definition bitmap3 : bitmap :=
  replicate 3 true ++ replicate 10 false ++ [true] ++ replicate 26 false ++ replicate 8 true ++ replicate 12 false ++ replicate 4 true.
Definition buddy0 : ext4_buddy := mk_e4b bitmap3 [] (mk_mgi true false 7 48 3 2 [9; 9; 9; 9; 9]) 1000 5 [].
Definition buddy1 : ext4_buddy := match mb_init_cache_buddy sbi3 buddy0 with Ret _ e => e | _ => buddy0 end.

Lemma free_below_check e m : 0 <= m -> forallb id (drop (Z.to_nat m) (bd_bitmap e)) = true -> forall b, free_at e b = true -> b < m.
Proof.
  intros Hm Hall b Hb. destruct (Z.lt_ge_cases b m) as [|Hge]; [done|exfalso]. unfold free_at in Hb. apply andb_true_iff in Hb as [_ Hb]. destruct (bd_bitmap e !! Z.to_nat b) as [v|] eqn:E; [|done].
  rewrite forallb_forall in Hall. specialize (Hall v). destruct v; [done|]. assert (Hin : In false (drop (Z.to_nat m) (bd_bitmap e))); [|by apply Hall in Hin].
  apply list_elem_of_In, list_elem_of_lookup. exists (Z.to_nat (b - m)). rewrite lookup_drop, <- E. f_equal. lia.
Qed.

Lemma range_check (p : Z -> bool) a len v : forallb (fun b => eqb (p b) v) (seqZ a len) = true -> forall b, a <= b < a + len -> p b = v.
Proof. intros Hall b Hb. rewrite forallb_forall in Hall. apply eqb_prop, Hall, list_elem_of_In, elem_of_seqZ. lia. Qed.

Lemma below0 b : free_at buddy0 b = true -> b < s_clusters_per_group sbi3.
Proof. apply (free_below_check buddy0 60); [done|]. vm_compute. done. Qed.
Lemma below1 b : free_at buddy1 b = true -> b < s_clusters_per_group sbi3.
Proof. apply (free_below_check buddy1 60); [done|]. vm_compute. done. Qed.

Lemma after_run {S A} (m : M S A) s d (P : S -> Prop) : runs m s (fun _ s' => P s') -> P (match m s with Ret _ s' => s' | _ => d end).
Proof. unfold runs. by destruct (m s). Qed.

Lemma ok1 : mb_ok sbi3 buddy1.
Proof.
  apply (after_run (mb_init_cache_buddy sbi3) buddy0 buddy0 (mb_ok sbi3)), (init_cache_ok sbi3); [vm_compute; done|apply below0|].
  intros e' I _. by apply (mb_inv_ok sbi3) in I as [I _].
Qed.

Lemma init_cache_builds_buddy_witness :
  runs (mb_init_cache_buddy sbi3) buddy0 (fun _ e' =>
    mb_ok sbi3 e' /\ (forall b, free_at e' b = free_at buddy0 b) /\ mb_frame e' = gen_frame buddy0 (cnt (free_at buddy0) (2 ^ (s_blocksize_bits sbi3 + 3)))).
Proof. apply (init_cache_builds_buddy sbi3 buddy0); [vm_compute; done|apply below0]. Defined.

Lemma free_blocks_merges_witness :
  runs (mb_free_blocks sbi3 0 40 8) buddy1 (fun _ e' =>
    mb_ok sbi3 e' /\ (forall b, free_at e' b = freed (free_at buddy1) 40 8 b) /\ mb_frame e' = mb_frame buddy1).
Proof.
  apply (free_blocks_merges sbi3 0 buddy1 40 8); [apply ok1|vm_compute; done|lia|lia|vm_compute; done|]. apply range_check. vm_compute. done.
Defined.

Lemma free_equals_rebuild_witness :
  runs (mb_free_blocks sbi3 0 13 1 ;;; e1 <-- gets id ;; mb_regenerate_buddy sbi3 ;;; e2 <-- gets id ;; ret (e1, e2)) buddy1
    (fun r _ => same_buddy sbi3 r.1 r.2 /\ grp_errors r.2 = grp_errors buddy1 /\ mb_freeclusters r.2 = mb_freeclusters buddy1).
Proof.
  apply (free_equals_rebuild sbi3 0 buddy1 13 1); [apply ok1|vm_compute; done|lia|lia|vm_compute; done|apply below1|]. apply range_check. vm_compute. done.
Defined.

Lemma mark_used_splits_witness :
  runs (mb_mark_used sbi3 0 (mk_ex 0 17 0 7)) buddy1 (fun _ e' =>
    mb_ok sbi3 e' /\ (forall b, free_at e' b = used (free_at buddy1) 17 24 b) /\ mb_frame e' = mb_frame buddy1).
Proof.
  apply (mark_used_splits sbi3 0 buddy1 (mk_ex 0 17 0 7)); [apply ok1|done|cbn; lia|cbn; lia|vm_compute; done|]. apply range_check. vm_compute. done.
Defined.

Lemma use_then_free_restores_witness :
  runs (_ <-- mb_mark_used sbi3 0 (mk_ex 0 17 0 7) ;; mb_free_blocks sbi3 0 17 7) buddy1 (fun _ e' =>
    mb_ok sbi3 e' /\ same_buddy sbi3 buddy1 e' /\ mb_frame e' = mb_frame buddy1).
Proof.
  apply (use_then_free_restores sbi3 0 buddy1 (mk_ex 0 17 0 7)); [apply ok1|vm_compute; done|done|cbn; lia|cbn; lia|vm_compute; done|]. apply range_check. vm_compute. done.
Defined.

Lemma find_extent_is_free_run_witness :
  runs (mb_find_extent sbi3 0 5 20 (mk_ex 0 0 0 0)) buddy1 (fun ex' e' =>
    e' = buddy1 /\ good_extent sbi3 (free_at buddy1) 5 20 ex' /\ fe_group ex' = 0).
Proof. apply (find_extent_is_free_run sbi3 0 buddy1 5 20 (mk_ex 0 0 0 0)); [apply ok1|vm_compute; done]. Defined.

Lemma double_free_detected_witness :
  runs (mb_free_blocks sbi3 0 38 6) buddy1 (fun _ e' =>
    mb_ok sbi3 e' /\ (forall b, free_at e' b = freed (free_at buddy1) 38 6 b) /\ grp_corrupt (bd_info e') = true /\
    mb_freeclusters e' = mb_freeclusters buddy1 - (bb_free (bd_info buddy1) + 6) /\
    exists z, 38 <= z < 38 + 6 /\ free_at buddy1 z = true /\ (forall b, 38 <= b < z -> free_at buddy1 b = false) /\
      grp_errors e' = grp_errors buddy1 ++ [u64 (ext4_group_first_block_no sbi3 0 + EXT4_C2B sbi3 z); 0]).
Proof.
  apply (double_free_detected sbi3 0 buddy1 38 6); [apply ok1|vm_compute; done|lia|lia|vm_compute; done|apply below1|]. exists 38. split; [lia|vm_compute; done].
Defined.

(** The extent from cluster 5 on ends with the run; using it needs several
    chunks, and the counters say what is left. *)
Example extent_5 : mb_find_extent sbi3 0 5 20 (mk_ex 0 0 0 0) buddy1 = Ret (mk_ex 0 5 0 8) buddy1.
Proof. vm_compute. reflexivity. Qed.
Example counters_1 : bb_counters (bd_info buddy1) = [2; 1; 3; 2; 1].
Proof. vm_compute. reflexivity. Qed.
