(* ===== verification/BuddyAlloc.v ===== *)
(** * mqfs: the regular allocator (mballoc.c)

    One task searches the groups for the extent of an allocation context.  The
    groups are the loaded buddies of the file system; the pages they lie in are
    not modelled, [load_err] and [init_err] say how loading and building a group
    end.  Other tasks work on a group until its lock is taken: [others k g e] is
    what they have made of group [g] when the lock is taken for the [k]-th time. *)

From S2P Require Import Prelude BlockGroup Buddy.

Definition EXT4_MB_HINT_MERGE : Z := 0x0001.
Definition EXT4_MB_HINT_FIRST : Z := 0x0008.
Definition EXT4_MB_HINT_DATA : Z := 0x0020.
Definition EXT4_MB_HINT_GOAL_ONLY : Z := 0x0100.
Definition EXT4_MB_HINT_TRY_GOAL : Z := 0x0200.
Definition EXT4_MB_STREAM_ALLOC : Z := 0x0800.
Definition AC_STATUS_CONTINUE : Z := 1.
Definition AC_STATUS_FOUND : Z := 2.
Definition AC_STATUS_BREAK : Z := 3.
Definition EXT4_FLEX_SIZE_DIR_ALLOC_SCHEME : Z := 4.

Record ext4_allocation_context := mk_ac {
  ac_g_ex : ext4_free_extent;
  ac_b_ex : ext4_free_extent;
  ac_f_ex : ext4_free_extent;
  ac_groups_scanned : Z;
  ac_found : Z;
  ac_tail : Z;
  ac_buddy : Z;
  ac_flags : Z;
  ac_status : Z;
  ac_criteria : Z;
  ac_2order : Z;
}.
#[export] Instance ac_eta : Eta ext4_allocation_context := fun a =>
  mk_ac (ac_g_ex a) (ac_b_ex a) (ac_f_ex a) (ac_groups_scanned a) (ac_found a) (ac_tail a) (ac_buddy a) (ac_flags a) (ac_status a)
    (ac_criteria a) (ac_2order a).

Record mb_alloc := mk_alloc {
  al_ac : ext4_allocation_context;
  al_groups : list ext4_buddy;
  al_locks : nat;
  s_mb_last_group : Z;
  s_mb_last_start : Z;
  s_mb_lost_chunks : Z;
  s_bal_2orders : Z;
}.
#[export] Instance mb_alloc_eta : Eta mb_alloc := fun s =>
  mk_alloc (al_ac s) (al_groups s) (al_locks s) (s_mb_last_group s) (s_mb_last_start s) (s_mb_lost_chunks s) (s_bal_2orders s).

(** The settings of the allocator in [ext4_sb_info], and of the inode. *)
Record mb_tunables := mk_tun {
  s_mb_max_to_scan : Z;
  s_mb_min_to_scan : Z;
  s_mb_order2_reqs : Z;
  s_stripe : Z;
  s_mb_stats : bool;
  s_blockfile_groups : Z;
  inode_extents : bool;              (* EXT4_INODE_EXTENTS *)
}.

Definition has_flag (flags flag : Z) : bool := negb (Z.land flags flag =? 0).

(** An operation on the buddy of a group. *)
Definition on_group {A} (group : Z) (m : M ext4_buddy A) : M mb_alloc A := fun s =>
  match (if group <? 0 then None else al_groups s !! Z.to_nat group) with
  | None => Oops OutOfBounds
  | Some e =>
      match m e with
      | Ret a e' => Ret a (s <| al_groups ::= <[Z.to_nat group := e']> |>)
      | Oops f => Oops f
      | Stall => Stall
      end
  end.

Definition ac {A} (f : ext4_allocation_context -> A) : M mb_alloc A := gets (fun s => f (al_ac s)).
Definition upd_ac (f : ext4_allocation_context -> ext4_allocation_context) : M mb_alloc unit := modify (fun s => s <| al_ac ::= f |>).

(** What a variable of this type holds before it is assigned. *)
Definition no_extent : ext4_free_extent := mk_ex 0 0 0 0.

Section alloc.
Context (sbi : ext4_sb_info) (tun : mb_tunables).
Context (load_err init_err : Z -> Z) (others : nat -> Z -> ext4_buddy -> ext4_buddy).
#[local] Abbreviation clusters := (s_clusters_per_group sbi).

(** Other tasks act on a group, under its lock, before the lock is taken here; what
    they do to it until then is an arbitrary function of the group.  The figures
    that are read without the lock are those of a moment at which nobody holds it. *)
Definition mb_lock_group (group : Z) : M mb_alloc unit :=
  k <-- gets al_locks ;;
  modify (fun s => s <| al_locks := S k |>) ;;;
  on_group group (modify (others k group)).

Definition ext4_mb_init_group (group : Z) : M mb_alloc Z :=
  if negb (init_err group =? 0) then ret (init_err group)
  else
    need <-- on_group group (info grp_need_init) ;;
    (if need : bool then on_group group (mb_init_cache_buddy sbi) else ret tt) ;;; ret 0.

Definition ext4_mb_load_buddy (group : Z) : M mb_alloc Z :=
  need <-- on_group group (info grp_need_init) ;;
  r <-- (if need : bool then ext4_mb_init_group group else ret 0) ;;
  if negb (r =? 0) then ret r else ret (load_err group).

(** ** Taking what was found *)

Definition ext4_mb_use_best_found (bd_group : Z) : M mb_alloc unit :=
  a <-- ac id ;;
  check (fe_group (ac_b_ex a) =? bd_group) BugOn ;;;
  check (negb (ac_status a =? AC_STATUS_FOUND)) BugOn ;;;
  upd_ac (fun a => a <| ac_b_ex ::= fun b => b <| fe_len := Z.min (fe_len b) (fe_len (ac_g_ex a)) |> <| fe_logical := fe_logical (ac_g_ex a) |> |>) ;;;
  b <-- ac ac_b_ex ;;
  r <-- on_group bd_group (mb_mark_used sbi bd_group b) ;;
  upd_ac (fun a => a <| ac_f_ex := ac_b_ex a |> <| ac_status := AC_STATUS_FOUND |> <| ac_tail := Z.land r 0xffff |> <| ac_buddy := wrap 16 (Z.shiftr r 16) |>) ;;;
  a <-- ac id ;;
  if has_flag (ac_flags a) EXT4_MB_STREAM_ALLOC
  then modify (fun s => s <| s_mb_last_group := fe_group (ac_f_ex a) |> <| s_mb_last_start := fe_start (ac_f_ex a) |>)
  else ret tt.

Definition found : M mb_alloc unit := upd_ac (fun a => a <| ac_found ::= fun k => wrap 16 (k + 1) |>).

(** [*bex = *ex; ext4_mb_use_best_found(ac, e4b)] *)
Definition take_extent (bd_group : Z) (ex : ext4_free_extent) : M mb_alloc unit :=
  upd_ac (fun a => a <| ac_b_ex := ex |>) ;;; ext4_mb_use_best_found bd_group.

Definition ext4_mb_check_limits (bd_group : Z) (finish_group : bool) : M mb_alloc unit :=
  a <-- ac id ;;
  let bex := ac_b_ex a in
  let gex := ac_g_ex a in
  if ac_status a =? AC_STATUS_FOUND then ret tt
  else if (s_mb_max_to_scan tun <? ac_found a) && negb (has_flag (ac_flags a) EXT4_MB_HINT_FIRST)
  then upd_ac (fun a => a <| ac_status := AC_STATUS_BREAK |>)
  else if fe_len bex <? fe_len gex then ret tt
  else if (finish_group || (s_mb_min_to_scan tun <? ac_found a)) && (fe_group bex =? bd_group) then
    ex <-- on_group bd_group (mb_find_extent sbi bd_group (fe_start bex) (fe_len gex) no_extent) ;;
    if fe_len gex <=? fe_len ex then ext4_mb_use_best_found bd_group else ret tt
  else ret tt.

Definition ext4_mb_measure_extent (ex : ext4_free_extent) (bd_group : Z) : M mb_alloc unit :=
  check (0 <? fe_len ex) BugOn ;;;
  check (fe_len ex <=? clusters) BugOn ;;;
  check (fe_start ex <? clusters) BugOn ;;;
  a <-- ac id ;;
  check (ac_status a =? AC_STATUS_CONTINUE) BugOn ;;;
  found ;;;
  let bex := ac_b_ex a in
  let gex := ac_g_ex a in
  if has_flag (ac_flags a) EXT4_MB_HINT_FIRST then take_extent bd_group ex
  else if fe_len ex =? fe_len gex then take_extent bd_group ex
  else if fe_len bex =? 0 then upd_ac (fun a => a <| ac_b_ex := ex |>)
  else
    (if fe_len bex <? fe_len gex then
       (if fe_len bex <? fe_len ex then upd_ac (fun a => a <| ac_b_ex := ex |>) else ret tt)
     else if fe_len gex <? fe_len ex then
       (if fe_len ex <? fe_len bex then upd_ac (fun a => a <| ac_b_ex := ex |>) else ret tt)
     else ret tt) ;;;
    ext4_mb_check_limits bd_group false.

Definition ext4_mb_try_best_found : M mb_alloc Z :=
  ex <-- ac ac_b_ex ;;
  let group := fe_group ex in
  check (0 <? fe_len ex) BugOn ;;;
  err <-- ext4_mb_load_buddy group ;;
  if negb (err =? 0) then ret err
  else
    mb_lock_group group ;;;
    ex' <-- on_group group (mb_find_extent sbi group (fe_start ex) (fe_len ex) ex) ;;
    (if 0 <? fe_len ex' then take_extent group ex' else ret tt) ;;; ret 0.

Definition ext4_mb_find_by_goal : M mb_alloc Z :=
  a <-- ac id ;;
  let gex := ac_g_ex a in
  let group := fe_group gex in
  bfree <-- on_group group (info bb_free) ;;
  if negb (has_flag (ac_flags a) EXT4_MB_HINT_TRY_GOAL) then ret 0
  else if bfree =? 0 then ret 0
  else
    err <-- ext4_mb_load_buddy group ;;
    if negb (err =? 0) then ret err
    else
      corrupt <-- on_group group (info grp_corrupt) ;;
      if corrupt : bool then ret 0
      else
        mb_lock_group group ;;;
        ex <-- on_group group (mb_find_extent sbi group (fe_start gex) (fe_len gex) no_extent) ;;
        let ex := ex <| fe_logical := 0xDEADFA11 |> in
        let max := fe_len ex in
        let same := check (0 <? fe_len ex) BugOn ;;; check (fe_group ex =? group) BugOn ;;; check (fe_start ex =? fe_start gex) BugOn in
        (if (fe_len gex <=? max) && (fe_len gex =? s_stripe tun) then
           if u64 (ext4_group_first_block_no sbi group + fe_start ex) mod s_stripe tun =? 0 then found ;;; take_extent group ex else ret tt
         else if fe_len gex <=? max then same ;;; found ;;; take_extent group ex
         else if (0 <? max) && has_flag (ac_flags a) EXT4_MB_HINT_MERGE then same ;;; found ;;; take_extent group ex
         else ret tt) ;;; ret 0.

(** ** Scanning a group *)

Fixpoint simple_loop (fuel : nat) (bd_group i : Z) : M mb_alloc unit :=
  match fuel with
  | O => stall
  | S fuel =>
      if s_blocksize_bits sbi + 1 <? i then ret tt
      else
        c <-- on_group bd_group (info bb_counters) ;;
        match c !! Z.to_nat i with
        | None => oops OutOfBounds
        | Some k =>
            if k =? 0 then simple_loop fuel bd_group (i + 1)
            else
              b <-- on_group bd_group (mb_the_buddy sbi i) ;;
              let '(buddy, max) := b in
              k <-- on_group bd_group (mb_find_next_zero_bit buddy max 0) ;;
              check (k <? max) BugOn ;;;
              found ;;;
              upd_ac (fun a => a <| ac_b_ex ::= fun b => b <| fe_len := Z.shiftl 1 i |> <| fe_start := Z.shiftl k i |> <| fe_group := bd_group |> |>) ;;;
              ext4_mb_use_best_found bd_group ;;;
              a <-- ac id ;;
              check (fe_len (ac_b_ex a) =? fe_len (ac_g_ex a)) BugOn ;;;
              if s_mb_stats tun then modify (fun s => s <| s_bal_2orders ::= fun n => n + 1 |>) else ret tt
        end
  end.
Definition ext4_mb_simple_scan_group (bd_group : Z) : M mb_alloc unit :=
  o <-- ac ac_2order ;;
  check (0 <? o) BugOn ;;;
  simple_loop (Z.to_nat (s_blocksize_bits sbi + 3)) bd_group o.

Fixpoint complex_loop (fuel : nat) (bd_group i free : Z) : M mb_alloc unit :=
  match fuel with
  | O => stall
  | S fuel =>
      a <-- ac id ;;
      if negb (free =? 0) && (ac_status a =? AC_STATUS_CONTINUE) then
        i <-- on_group bd_group (mb_find_next_zero_bit (BdBitmap, 0) clusters i) ;;
        let corrupted := on_group bd_group (ext4_grp_locked_error 0 ;;; mark_bbitmap_corrupted) in
        if clusters <=? i then corrupted
        else
          ex <-- on_group bd_group (mb_find_extent sbi bd_group i (fe_len (ac_g_ex a)) no_extent) ;;
          check (0 <? fe_len ex) BugOn ;;;
          if free <? fe_len ex then corrupted
          else
            ext4_mb_measure_extent (ex <| fe_logical := 0xDEADC0DE |>) bd_group ;;;
            complex_loop fuel bd_group (i + fe_len ex) (free - fe_len ex)
      else ret tt
  end.
Definition ext4_mb_complex_scan_group (bd_group : Z) : M mb_alloc unit :=
  g <-- on_group bd_group (info id) ;;
  check (0 <? bb_free g) BugOn ;;;
  complex_loop (S (Z.to_nat (bb_free g))) bd_group (bb_first_free g) (bb_free g) ;;;
  ext4_mb_check_limits bd_group true.

Fixpoint aligned_loop (fuel : nat) (bd_group i : Z) : M mb_alloc unit :=
  match fuel with
  | O => stall
  | S fuel =>
      if clusters <=? i then ret tt
      else
        busy <-- on_group bd_group (mb_test_bit i (BdBitmap, 0)) ;;
        ex <-- (if busy : bool then ret no_extent else on_group bd_group (mb_find_extent sbi bd_group i (s_stripe tun) no_extent)) ;;
        if negb busy && (s_stripe tun <=? fe_len ex)
        then found ;;; take_extent bd_group (ex <| fe_logical := 0xDEADF00D |>)
        else aligned_loop fuel bd_group (i + s_stripe tun)
  end.
Definition ext4_mb_scan_aligned (bd_group : Z) : M mb_alloc unit :=
  check (negb (s_stripe tun =? 0)) BugOn ;;;
  let first_group_block := ext4_group_first_block_no sbi bd_group in
  let a := u64 (first_group_block + s_stripe tun - 1) / s_stripe tun in
  aligned_loop (S (Z.to_nat clusters)) bd_group (a * s_stripe tun - first_group_block).

(** ** Choosing groups *)

Definition ext4_mb_good_group (group cr : Z) : M mb_alloc Z :=
  a <-- ac id ;;
  let flex_size := ext4_flex_bg_size sbi in
  let len := fe_len (ac_g_ex a) in
  check (negb ((cr <? 0) || (4 <=? cr))) BugOn ;;;
  g <-- on_group group (info id) ;;
  let free := bb_free g in
  if free =? 0 then ret 0
  else if (cr <=? 2) && (free <? len) then ret 0
  else if grp_corrupt g then ret 0
  else
    r <-- (if grp_need_init g then ext4_mb_init_group group else ret 0) ;;
    if negb (r =? 0) then ret r
    else
      g <-- on_group group (info id) ;;
      let fragments := bb_fragments g in
      if fragments =? 0 then ret 0
      else if cr =? 0 then
        check (negb (ac_2order a =? 0)) BugOn ;;;
        if has_flag (ac_flags a) EXT4_MB_HINT_DATA && (EXT4_FLEX_SIZE_DIR_ALLOC_SCHEME <=? flex_size) && (group mod flex_size =? 0) then ret 0
        else if (s_blocksize_bits sbi + 1 <? ac_2order a) || (len <=? free / fragments) then ret 1
        else if bb_largest_free_order g <? ac_2order a then ret 0 else ret 1
      else if cr =? 1 then ret (if len <=? free / fragments then 1 else 0)
      else if cr =? 2 then ret (if len <=? free then 1 else 0)
      else ret 1.

Definition scan_group (group cr : Z) : M mb_alloc unit :=
  upd_ac (fun a => a <| ac_groups_scanned ::= fun k => wrap 16 (k + 1) |>) ;;;
  a <-- ac id ;;
  if cr =? 0 then ext4_mb_simple_scan_group group
  else if (cr =? 1) && negb (s_stripe tun =? 0) && (fe_len (ac_g_ex a) mod s_stripe tun =? 0) then ext4_mb_scan_aligned group
  else ext4_mb_complex_scan_group group.

Definition mb_ngroups : Z := if inode_extents tun then s_groups_count sbi else s_blockfile_groups tun.

(** The loop over the groups: the error that ends the search, or the first
    error so far. *)
Fixpoint group_loop (todo : nat) (group cr first_err : Z) : M mb_alloc (Z + Z) :=
  match todo with
  | O => ret (inr first_err)
  | S todo =>
      let group := if mb_ngroups <=? group then 0 else group in
      let next ret_ := group_loop todo (group + 1) cr (if first_err =? 0 then ret_ else first_err) in
      r <-- ext4_mb_good_group group cr ;;
      if r <=? 0 then next r
      else
        err <-- ext4_mb_load_buddy group ;;
        if negb (err =? 0) then ret (inl err)
        else
          mb_lock_group group ;;;
          r <-- ext4_mb_good_group group cr ;;
          if r <=? 0 then next r
          else
            scan_group group cr ;;;
            st <-- ac ac_status ;;
            if negb (st =? AC_STATUS_CONTINUE) then ret (inr first_err)
            else group_loop todo (group + 1) cr first_err
  end.

Fixpoint cr_loop (fuel : nat) (cr first_err : Z) : M mb_alloc (Z + Z) :=
  match fuel with
  | O => stall
  | S fuel =>
      a <-- ac id ;;
      if (cr <? 4) && (ac_status a =? AC_STATUS_CONTINUE) then
        upd_ac (fun a => a <| ac_criteria := cr |>) ;;;
        r <-- group_loop (Z.to_nat mb_ngroups) (fe_group (ac_g_ex a)) cr first_err ;;
        match r with
        | inl err => ret (inl err)
        | inr first_err => cr_loop fuel (cr + 1) first_err
        end
      else ret (inr first_err)
  end.

(** From the label [repeat] on. *)
Fixpoint search_loop (fuel : nat) (cr first_err : Z) : M mb_alloc Z :=
  match fuel with
  | O => stall
  | S fuel =>
      r <-- cr_loop 5 cr first_err ;;
      match r with
      | inl err => ret err
      | inr first_err =>
          a <-- ac id ;;
          let out := st <-- ac ac_status ;; ret (if negb (st =? AC_STATUS_FOUND) && negb (first_err =? 0) then first_err else 0) in
          if (0 <? fe_len (ac_b_ex a)) && negb (ac_status a =? AC_STATUS_FOUND) && negb (has_flag (ac_flags a) EXT4_MB_HINT_FIRST) then
            _ <-- ext4_mb_try_best_found ;;
            st <-- ac ac_status ;;
            if negb (st =? AC_STATUS_FOUND) then
              upd_ac (fun a => a <| ac_b_ex ::= fun b => b <| fe_group := 0 |> <| fe_start := 0 |> <| fe_len := 0 |> |>
                                 <| ac_status := AC_STATUS_CONTINUE |> <| ac_flags ::= fun f => Z.lor f EXT4_MB_HINT_FIRST |>) ;;;
              modify (fun s => s <| s_mb_lost_chunks ::= fun n => n + 1 |>) ;;;
              search_loop fuel 3 first_err
            else out
          else out
      end
  end.

Definition order2 (len : Z) : Z :=
  let i := fls len in
  if (s_mb_order2_reqs tun <=? i) && (i <=? s_blocksize_bits sbi + 2) && (Z.land len (Z.lnot (Z.shiftl 1 (i - 1))) =? 0) then i - 1 else 0.

Definition ext4_mb_regular_allocator : M mb_alloc Z :=
  a <-- ac id ;;
  check (negb (ac_status a =? AC_STATUS_FOUND)) BugOn ;;;
  err <-- ext4_mb_find_by_goal ;;
  a <-- ac id ;;
  if negb (err =? 0) then ret err
  else if (ac_status a =? AC_STATUS_FOUND) || has_flag (ac_flags a) EXT4_MB_HINT_GOAL_ONLY then ret 0
  else
    upd_ac (fun a => a <| ac_2order := order2 (fe_len (ac_g_ex a)) |>) ;;;
    (if has_flag (ac_flags a) EXT4_MB_STREAM_ALLOC then
       s <-- gets id ;;
       upd_ac (fun a => a <| ac_g_ex ::= fun g => g <| fe_group := s_mb_last_group s |> <| fe_start := s_mb_last_start s |> |>)
     else ret tt) ;;;
    o <-- ac ac_2order ;;
    search_loop 2 (if negb (o =? 0) then 0 else 1) 0.
End alloc.
