(* ===== verification/BuddyAllocFacts.v ===== *)
(** * mqfs: what the search for free space does to the groups

    While a group is locked, the search looks at its buddy and may take one
    extent; [scan_post] says so for each way of scanning. *)

From S2P Require Import Prelude BlockGroup Buddy BuddyChunks BuddyBits BuddyFacts BuddyGenerate BuddyUse BuddyTheorems BuddyAlloc.

Section facts.
Context (sbi : ext4_sb_info) {G : mb_geo sbi} (tun : mb_tunables).
#[local] Abbreviation bits := (s_blocksize_bits sbi).
#[local] Abbreviation n := (s_blocksize_bits sbi + 3).
#[local] Abbreviation top := (s_blocksize_bits sbi + 1).
#[local] Abbreviation clusters := (s_clusters_per_group sbi).
#[local] Abbreviation gid := Z.to_nat.

(** ** Groups *)

Definition below_end (e : ext4_buddy) : Prop := forall b, free_at e b = true -> b < clusters.

(** A group: its bitmap has free clusters only where there are clusters, and its
    buddy, once built, agrees with it. *)
Definition grp_ok (e : ext4_buddy) : Prop := below_end e /\ if grp_need_init (bd_info e) then mb_sized sbi e else mb_ok sbi e.

Definition put (g : Z) (e : ext4_buddy) (s : mb_alloc) : mb_alloc := s <| al_groups ::= <[gid g := e]> |>.
Definition grp (s : mb_alloc) (g : Z) (e : ext4_buddy) : Prop := 0 <= g /\ al_groups s !! gid g = Some e.

Lemma put_same s g e : grp s g e -> put g e s = s.
Proof. intros [_ E]. unfold put. destruct s as [a gs k lg ls lc b2]. cbn in E. transitivity (mk_alloc a (<[gid g := e]> gs) k lg ls lc b2); [done|]. by rewrite list_insert_id. Qed.

Lemma group_ok {A} s g e (m : M ext4_buddy A) (Q : A -> mb_alloc -> Prop) :
  grp s g e -> runs m e (fun a e' => Q a (put g e' s)) -> runs (on_group g m) s Q.
Proof.
  intros [Hg E] Hm. unfold runs, on_group in *. rewrite (proj2 (Z.ltb_ge g 0)), E by done. by destruct (m e).
Qed.

(** An operation that only looks. *)
Lemma look_ok {A} s g e (m : M ext4_buddy A) (P : A -> Prop) (Q : A -> mb_alloc -> Prop) :
  grp s g e -> runs m e (fun a e' => e' = e /\ P a) -> (forall a, P a -> Q a s) -> runs (on_group g m) s Q.
Proof. intros Hg Hm HQ. apply (group_ok s g e); [done|]. eapply runs_conseq; [exact Hm|]. intros a e' [-> Ha]. rewrite put_same by done. by apply HQ. Qed.

Lemma look_info {A} s g e (f : mb_group_info -> A) (Q : A -> mb_alloc -> Prop) : grp s g e -> Q (f (bd_info e)) s -> runs (on_group g (info f)) s Q.
Proof. intros Hg HQ. apply (look_ok s g e _ (fun a => a = f (bd_info e))); [done|apply runs_gets; done|]. by intros ? ->. Qed.

Lemma grp_put s g e e' : grp s g e -> grp (put g e' s) g e'.
Proof. intros [Hg E]. split; [done|]. unfold put. cbn. apply list_lookup_insert_eq. by eapply lookup_lt_Some. Qed.

Lemma grp_upd s g e f : grp s g e -> grp (s <| al_ac ::= f |>) g e.
Proof. done. Qed.

(** ** Taking an extent *)

(** What is asked for. *)
Definition asked (a : ext4_allocation_context) := (ac_g_ex a, ac_flags a, ac_2order a).

(** One extent was taken from group [g], which was [e]. *)
Definition taken (s : mb_alloc) (g : Z) (e : ext4_buddy) (s' : mb_alloc) : Prop :=
  let b := ac_b_ex (al_ac s') in
  exists e', al_groups s' = <[gid g := e']> (al_groups s) /\ mb_ok sbi e' /\ mb_frame e' = mb_frame e /\ ac_status (al_ac s') = AC_STATUS_FOUND /\
    ac_f_ex (al_ac s') = b /\ fe_group b = g /\ 0 <= fe_start b /\ 0 < fe_len b <= fe_len (ac_g_ex (al_ac s')) /\
    (forall x, fe_start b <= x < fe_start b + fe_len b -> free_at e x = true) /\
    (forall x, free_at e' x = used (free_at e) (fe_start b) (fe_start b + fe_len b) x).

Lemma use_best_ok s g e (Q : unit -> mb_alloc -> Prop) :
  grp s g e -> mb_ok sbi e -> ac_status (al_ac s) <> AC_STATUS_FOUND -> fe_group (ac_b_ex (al_ac s)) = g -> 0 <= fe_start (ac_b_ex (al_ac s)) ->
  0 < fe_len (ac_b_ex (al_ac s)) -> 0 < fe_len (ac_g_ex (al_ac s)) ->
  (forall x, fe_start (ac_b_ex (al_ac s)) <= x < fe_start (ac_b_ex (al_ac s)) + Z.min (fe_len (ac_b_ex (al_ac s))) (fe_len (ac_g_ex (al_ac s))) -> free_at e x = true) ->
  (forall s', taken s g e s' -> asked (al_ac s') = asked (al_ac s) -> al_locks s' = al_locks s -> fe_start (ac_b_ex (al_ac s')) = fe_start (ac_b_ex (al_ac s)) ->
     fe_len (ac_b_ex (al_ac s')) = Z.min (fe_len (ac_b_ex (al_ac s))) (fe_len (ac_g_ex (al_ac s))) -> Q tt s') ->
  runs (ext4_mb_use_best_found sbi g) s Q.
Proof using G.
  intros Hg Hok Hst Hbg Hs Hl Hgl Hfree HQ. unfold ext4_mb_use_best_found. rstep. apply runs_gets. cbn [id].
  rstep. apply runs_check; [by apply Z.eqb_eq|]. rstep. apply runs_check; [by apply negb_true_iff, Z.eqb_neq|]. rstep. apply runs_modify.
  set (b := ac_b_ex (al_ac s)) in *. set (len := Z.min (fe_len b) (fe_len (ac_g_ex (al_ac s)))) in *.
  rstep. apply runs_gets. rstep. eapply (group_ok _ g e); [done|].
  set (ex := ac_b_ex _). assert (Eex : fe_start ex = fe_start b /\ fe_len ex = len /\ fe_group ex = g) by (unfold ex; by destruct s as [[? [] ? ? ? ? ? ? ? ? ?] ? ? ? ? ? ?]).
  assert (Hx : ex = b <| fe_len := len |> <| fe_logical := fe_logical (ac_g_ex (al_ac s)) |>) by (by destruct s as [[] ? ? ? ? ? ?]). clearbody ex.
  destruct Eex as (E1 & E2 & E3). assert (Hend : fe_start b + len <= 2 ^ n).
  { pose proof (mi_inside _ _ _ Hok (fe_start b + len - 1) (Hfree (fe_start b + len - 1) ltac:(lia))). lia. }
  eapply (mark_used_ok sbi g (free_at e)); [exact Hok|done|lia|lia|lia|rewrite E1, E2; exact Hfree|]. intros r e' I F. destruct (mb_inv_ok sbi _ _ I) as [Hok' Ef]. rewrite E1, E2 in Ef.
  rstep. apply runs_modify. rstep. apply runs_gets. cbn [id].
  assert (Hdone : forall s', al_ac s' = (al_ac s) <| ac_b_ex := ex |> <| ac_f_ex := ex |> <| ac_status := AC_STATUS_FOUND |> <| ac_tail := Z.land r 0xffff |> <| ac_buddy := wrap 16 (Z.shiftr r 16) |> ->
    al_groups s' = <[gid g := e']> (al_groups s) -> al_locks s' = al_locks s -> Q tt s').
  { intros s' Ea Egr El. apply HQ; rewrite ?Ea; try done. unfold taken. rewrite Ea. exists e'. cbn. rewrite E1, E2. split_and!; try done; lia. }
  destruct (has_flag _ _); [apply runs_modify|apply runs_ret]; apply Hdone; rewrite ?Hx; destruct s as [[] ? ? ? ? ? ?]; done.
Qed.

(** ** The allocation context *)

Record ctx_ok (ng : nat) (a : ext4_allocation_context) : Prop := mk_ctx_ok {
  cx_goal : 0 < fe_len (ac_g_ex a);
  cx_best : 0 <= fe_len (ac_b_ex a);
  cx_in : 0 < fe_len (ac_b_ex a) -> 0 <= fe_start (ac_b_ex a) < clusters /\ 0 <= fe_group (ac_b_ex a) < Z.of_nat ng;
  cx_found : 0 <= ac_found a /\ (has_flag (ac_flags a) EXT4_MB_HINT_FIRST = false -> ac_found a <> 0 -> 0 < fe_len (ac_b_ex a));
  cx_status : ac_status a = AC_STATUS_CONTINUE \/ ac_status a = AC_STATUS_BREAK /\ 0 < fe_len (ac_b_ex a);
}.

(** The best extent is still the same, or begins at a free cluster of [g]; it
    does not change when the first one is to be taken. *)
Definition best_from (flags g : Z) (e : ext4_buddy) (b b' : ext4_free_extent) : Prop :=
  b' = b \/ has_flag flags EXT4_MB_HINT_FIRST = false /\ 0 < fe_len b' /\ fe_group b' = g /\ free_at e (fe_start b') = true.

Definition kept (s : mb_alloc) (g : Z) (e : ext4_buddy) (s' : mb_alloc) : Prop :=
  al_groups s' = al_groups s /\ ctx_ok (length (al_groups s)) (al_ac s') /\ best_from (ac_flags (al_ac s)) g e (ac_b_ex (al_ac s)) (ac_b_ex (al_ac s')).

Definition scan_post (s : mb_alloc) (g : Z) (e : ext4_buddy) (s' : mb_alloc) : Prop :=
  asked (al_ac s') = asked (al_ac s) /\ al_locks s' = al_locks s /\ (taken s g e s' \/ kept s g e s').

(** Something was taken or is at hand. *)
Definition progress (s : mb_alloc) : Prop := ac_status (al_ac s) = AC_STATUS_FOUND \/ 0 < fe_len (ac_b_ex (al_ac s)).

Lemma best_from_trans fl g e b1 b2 b3 : best_from fl g e b1 b2 -> best_from fl g e b2 b3 -> best_from fl g e b1 b3.
Proof. intros H1 [->|H2]; [done|]. by right. Qed.

Lemma scan_trans s s1 s2 g e : asked (al_ac s1) = asked (al_ac s) -> al_locks s1 = al_locks s -> kept s g e s1 -> scan_post s1 g e s2 -> scan_post s g e s2.
Proof.
  intros R1 L1 (E1 & C1 & B1) (R2 & L2 & [T|(E2 & C2 & B2)]); (split_and!; [congruence|congruence|]).
  - left. destruct T as (e' & T). rewrite E1 in T. by exists e'.
  - right. split_and!; [congruence|by rewrite <- E1|eapply best_from_trans; [exact B1|]]. unfold asked in R1. by replace (ac_flags (al_ac s)) with (ac_flags (al_ac s1)) by congruence.
Qed.

Lemma kept_refl s g e : ctx_ok (length (al_groups s)) (al_ac s) -> kept s g e s.
Proof. intros C. split_and!; [done|done|by left]. Qed.

Lemma not_found ng a : ctx_ok ng a -> ac_status a <> AC_STATUS_FOUND.
Proof. intros C. destruct (cx_status _ _ C) as [->|[-> _]]; done. Qed.

Lemma find_extent_look s g e b needed ex (Q : ext4_free_extent -> mb_alloc -> Prop) :
  grp s g e -> mb_ok sbi e -> 0 <= b < clusters ->
  (forall ex', (if free_at e b then good_extent sbi (free_at e) b needed ex' /\ fe_group ex' = g else fe_len ex' = 0) -> Q ex' s) ->
  runs (on_group g (mb_find_extent sbi g b needed ex)) s Q.
Proof using G.
  intros Hg Hok Hb HQ. pose proof (@mg_clusters sbi G) as Hm.
  apply (look_ok s g e _ (fun ex' => if free_at e b then good_extent sbi (free_at e) b needed ex' /\ fe_group ex' = g else fe_len ex' = 0)); [done| |done].
  destruct (free_at e b) eqn:Ef.
  - apply (find_extent_free sbi g (free_at e)); [apply Hok|apply Hok|done|]. intros ex' Hge E _. done.
  - eapply (find_extent_busy sbi g (free_at e)); [apply Hok|lia|done|]. by destruct ex.
Qed.

(** [take_extent] on a free extent of the group. *)
Lemma take_extent_ok s g e ex (Q : unit -> mb_alloc -> Prop) :
  grp s g e -> mb_ok sbi e -> ac_status (al_ac s) <> AC_STATUS_FOUND -> 0 < fe_len (ac_g_ex (al_ac s)) -> fe_group ex = g -> 0 <= fe_start ex -> 0 < fe_len ex ->
  (forall x, fe_start ex <= x < fe_start ex + fe_len ex -> free_at e x = true) ->
  (forall s', scan_post s g e s' -> ac_status (al_ac s') = AC_STATUS_FOUND -> fe_start (ac_b_ex (al_ac s')) = fe_start ex ->
     fe_len (ac_b_ex (al_ac s')) = Z.min (fe_len ex) (fe_len (ac_g_ex (al_ac s))) -> Q tt s') ->
  runs (take_extent sbi g ex) s Q.
Proof using G.
  intros Hg Hok Hst Hgl E1 E2 E3 Hfree HQ. unfold take_extent. rstep. apply runs_modify. eapply (use_best_ok _ g e); [by apply grp_upd|done|done|done|done|done|done| |].
  - intros x Hx. cbn in Hx. apply Hfree. lia.
  - intros s' T R L B1 B2. cbn in *. apply HQ; [|by destruct T as (? & _ & _ & _ & ? & _)|done|done]. split_and!; [by destruct s as [[] ? ? ? ? ? ?]|done|by left].
Qed.

Context (Hscan : 0 <= s_mb_max_to_scan tun).

Lemma check_limits_ok s g e fin (Q : unit -> mb_alloc -> Prop) :
  grp s g e -> mb_ok sbi e -> ctx_ok (length (al_groups s)) (al_ac s) ->
  (forall s', scan_post s g e s' -> (progress s -> progress s') -> Q tt s') -> runs (ext4_mb_check_limits sbi tun g fin) s Q.
Proof using G Hscan.
  intros Hg Hok C HQ. unfold ext4_mb_check_limits. rstep. apply runs_gets. cbn [id]. cbv zeta. pose proof (not_found _ _ C) as Hst. pose proof C as [C1 C2 C3 C4 C5].
  assert (Hsame : Q tt s) by (apply HQ; [split_and!; [done|done|right; by apply kept_refl]|done]).
  rewrite (proj2 (Z.eqb_neq _ _)) by done. destruct ((s_mb_max_to_scan tun <? ac_found (al_ac s)) && _) eqn:Eb.
  { apply andb_true_iff in Eb as [Eb%Z.ltb_lt Efl%negb_true_iff]. apply runs_modify, HQ; [|intros _; right; cbn; apply C4; [done|lia]]. split_and!; [by destruct s as [[] ? ? ? ? ? ?]|done|]. right. split_and!; [done| |by left].
    destruct s as [[] ? ? ? ? ? ?]. cbn in *. split; cbn; try done. right. split; [done|]. apply C4; [done|lia]. }
  destruct (Z.ltb_spec (fe_len (ac_b_ex (al_ac s))) (fe_len (ac_g_ex (al_ac s)))) as [Hlt|Hge]; [by apply runs_ret|].
  destruct (_ && (fe_group (ac_b_ex (al_ac s)) =? g)) eqn:Eg; [|by apply runs_ret]. apply andb_true_iff in Eg as [_ Eg%Z.eqb_eq].
  destruct (C3 ltac:(lia)) as [Hbs _]. rstep. eapply (find_extent_look s g e); [done|done|done|]. intros ex Hex.
  destruct (Z.leb_spec (fe_len (ac_g_ex (al_ac s))) (fe_len ex)) as [Hle|]; [|by apply runs_ret].
  destruct (free_at e (fe_start (ac_b_ex (al_ac s)))) eqn:Ef; [|lia]. destruct Hex as [(X1 & X2 & X3 & X4 & _) _].
  eapply (use_best_ok s g e); [done|done|done|done|lia|lia|lia|intros x Hx; apply X4; lia|]. intros s' T R L _ _. apply HQ; [split_and!; [done|done|by left]|].
  intros _. left. by destruct T as (? & _ & _ & _ & ? & _).
Qed.

Lemma measure_ok s g e ex (Q : unit -> mb_alloc -> Prop) :
  grp s g e -> mb_ok sbi e -> ctx_ok (length (al_groups s)) (al_ac s) -> ac_status (al_ac s) = AC_STATUS_CONTINUE ->
  fe_group ex = g -> 0 <= fe_start ex -> 0 < fe_len ex -> fe_start ex + fe_len ex <= clusters -> (forall x, fe_start ex <= x < fe_start ex + fe_len ex -> free_at e x = true) ->
  (forall s', scan_post s g e s' -> progress s' -> Q tt s') -> runs (ext4_mb_measure_extent sbi tun ex g) s Q.
Proof using G Hscan.
  intros Hg Hok C Hst E1 E2 E3 E4 Hfree HQ. pose proof (not_found _ _ C) as Hnf. pose proof C as [C1 C2 C3 C4 C5]. pose proof Hg as [Hg0 Hgl%lookup_lt_Some].
  unfold ext4_mb_measure_extent. rstep. apply runs_check; [by apply Z.ltb_lt|]. rstep. apply runs_check; [apply Z.leb_le; lia|]. rstep. apply runs_check; [apply Z.ltb_lt; lia|].
  rstep. apply runs_gets. rstep. apply runs_check; [by apply Z.eqb_eq|]. rstep. apply runs_modify. cbn [id]. cbv zeta. set (s1 := s <| al_ac ::= _ |>).
  assert (Htake : runs (take_extent sbi g ex) s1 Q).
  { eapply (take_extent_ok s1 g e); [done|done|done|done|done|done|done|done|]. intros s' P F _ _. apply HQ; [|by left]. destruct P as (R & L & T). split_and!; [by rewrite R; destruct s as [[] ? ? ? ? ? ?]|done|].
    left. destruct T as [T|(_ & C' & _)]; [done|]. by apply not_found in C'. }
  destruct (has_flag _ _) eqn:Efl; [done|]. destruct (fe_len ex =? _); [done|].
  assert (K1 : forall b, b = ac_b_ex (al_ac s) /\ 0 < fe_len b \/ b = ex -> kept s g e (s1 <| al_ac ::= fun a => a <| ac_b_ex := b |> |>)).
  { intros b Hb. unfold s1. destruct s as [[? b0 ? ? fd ? ? ? ? ? ?] ? ? ? ? ? ?]. cbn in *. assert (0 < fe_len b) by (destruct Hb as [[-> ?]| ->]; lia).
    split_and!; [done| |destruct Hb as [[-> _]| ->]; [by left|right; cbn; split_and!; [done|lia|done|apply Hfree; lia]]]. split; cbn; [done|lia| |split; [apply Z.mod_pos_bound; done|done]|by left].
    intros _. destruct Hb as [[-> _]| ->]; [by apply C3|lia]. }
  assert (Hset : forall b, b = ac_b_ex (al_ac s) /\ 0 < fe_len b \/ b = ex -> let s2 := s1 <| al_ac ::= fun a => a <| ac_b_ex := b |> |> in
    Q tt s2 /\ runs (ext4_mb_check_limits sbi tun g false) s2 Q).
  { intros b Hb s2. pose proof (K1 b Hb) as K. assert (Hp : progress s2) by (right; unfold s2, s1; cbn; destruct Hb as [[-> ?]| ->]; done).
    split; [apply HQ; [|done]; split_and!; [unfold s2, s1; by destruct s as [[] ? ? ? ? ? ?]|done|by right]|].
    eapply (check_limits_ok s2 g e); [done|done|destruct K as (_ & K & _); exact K|]. intros s' P Hpp. apply HQ; [|by apply Hpp]. eapply (scan_trans s s2); [unfold s2, s1; by destruct s as [[] ? ? ? ? ? ?]|done|done|done]. }
  assert (Eid : s1 = s1 <| al_ac ::= fun a => a <| ac_b_ex := ac_b_ex (al_ac s) |> |>) by (unfold s1; by destruct s as [[] ? ? ? ? ? ?]).
  destruct (Z.eqb_spec (fe_len (ac_b_ex (al_ac s))) 0) as [|Hb0]; [apply runs_modify; by apply (Hset ex (or_intror eq_refl))|].
  assert (Hnew : runs (ext4_mb_check_limits sbi tun g false) (s1 <| al_ac ::= fun a => a <| ac_b_ex := ex |> |>) Q) by (by apply (Hset ex (or_intror eq_refl))).
  assert (Hold : runs (ext4_mb_check_limits sbi tun g false) s1 Q) by (rewrite Eid; assert (Hp : 0 < fe_len (ac_b_ex (al_ac s))) by lia; by apply (Hset (ac_b_ex (al_ac s)) (or_introl (conj eq_refl Hp)))).
  rstep. destruct (_ <? _); [destruct (_ <? _); [by apply runs_modify|by apply runs_ret]|]. destruct (_ <? _); [|by apply runs_ret]. destruct (_ <? _); [by apply runs_modify|by apply runs_ret].
Qed.

(** ** Scanning a group *)

Lemma complex_loop_stop fuel s g i free (Q : unit -> mb_alloc -> Prop) :
  free = 0 \/ ac_status (al_ac s) <> AC_STATUS_CONTINUE -> Q tt s -> runs (complex_loop sbi tun (S fuel) g i free) s Q.
Proof.
  intros Hstop HQ. cbn [complex_loop]. rstep. apply runs_gets. cbn [id]. destruct (_ && _) eqn:E; [|by apply runs_ret].
  apply andb_true_iff in E as [E1%negb_true_iff%Z.eqb_neq E2%Z.eqb_eq]. tauto.
Qed.

Lemma complex_loop_ok fuel s g e i free (Q : unit -> mb_alloc -> Prop) :
  grp s g e -> mb_ok sbi e -> below_end e -> ctx_ok (length (al_groups s)) (al_ac s) -> 0 <= i <= clusters ->
  cnt (free_at e) (2 ^ n) = cnt (free_at e) i + free -> 0 <= free < Z.of_nat fuel ->
  (forall s', scan_post s g e s' -> (0 < free -> ac_status (al_ac s) = AC_STATUS_CONTINUE -> progress s') -> (progress s -> progress s') -> Q tt s') ->
  runs (complex_loop sbi tun fuel g i free) s Q.
Proof using G Hscan.
  pose proof (@mg_clusters sbi G) as Hm. revert s i free. induction fuel as [|fuel IH]; intros s i free Hg Hok Hbel C Hi Hcnt Hf HQ; [lia|].
  assert (Hsame : scan_post s g e s) by (split_and!; [done|done|right; by apply kept_refl]).
  destruct (decide (free = 0)) as [->|Hf0]; [apply complex_loop_stop; [by left|]; apply HQ; [done|lia|done]|].
  destruct (decide (ac_status (al_ac s) = AC_STATUS_CONTINUE)) as [Hst|Hst]; [|apply complex_loop_stop; [by right|]; apply HQ; done].
  cbn [complex_loop]. rstep. apply runs_gets. cbn [id]. rewrite (proj2 (Z.eqb_neq free 0)), Hst, Z.eqb_refl by done. cbn [negb andb]. set (f := free_at e) in *.
  rstep. apply (look_ok s g e _ (fun r => i <= r <= clusters /\ (forall b, i <= b < r -> f b = false) /\ (r < clusters -> f r = true))); [done| |].
  { eapply (find_zero_ok sbi _ _ e 0 0 clusters i _ (mi_pieces _ _ _ Hok)); [pose proof (orders sbi); lia|lia|replace (n - 0) with n by lia; lia|lia|]. intros r R1 R2 R3. done. }
  intros r (R1 & R2 & R3). cbv zeta. assert (Er : cnt f r = cnt f i) by (rewrite (cnt_extend f i r false) by (done || lia); lia).
  destruct (Z.leb_spec clusters r) as [Hr|Hr].
  { exfalso. assert (Eall : cnt f (2 ^ n) = cnt f r); [|lia]. rewrite (cnt_extend f r (2 ^ n) false) by (lia || intros x Hx; apply not_true_iff_false; intros Hfx%Hbel; lia). lia. }
  specialize (R3 Hr). rstep. eapply (find_extent_look s g e); [done|done|lia|]. fold f. rewrite R3. intros ex [(X1 & X2 & X3 & X4 & _) X5].
  rstep. apply runs_check; [by apply Z.ltb_lt|].
  assert (Hend : r + fe_len ex <= clusters) by (pose proof (Hbel _ (X4 (r + fe_len ex - 1) ltac:(lia))); lia).
  assert (Eex : cnt f (r + fe_len ex) = cnt f r + fe_len ex) by (rewrite (cnt_extend f r (r + fe_len ex) true) by (done || lia); lia).
  assert (Hle : fe_len ex <= free).
  { pose proof (cnt_mono f (r + fe_len ex) (2 ^ n) ltac:(lia)). lia. }
  rewrite (proj2 (Z.ltb_ge free _)) by done. rstep.
  eapply (measure_ok s g e); [done|done|done|done|by destruct ex|destruct ex; cbn in *; lia|by destruct ex|destruct ex; cbn in *; lia|destruct ex; cbn in *; intros x Hx; apply X4; lia|].
  intros s1 P1 G1. pose proof P1 as (Rq & L1 & [T|K]).
  - destruct fuel; [lia|]. assert (Hnc : ac_status (al_ac s1) <> AC_STATUS_CONTINUE) by (by destruct T as (? & _ & _ & _ & -> & _)).
    apply complex_loop_stop; [by right|]. by apply HQ.
  - pose proof K as (Eg & C1 & _). eapply (IH s1 (r + fe_len ex)); [split; [apply Hg|rewrite Eg; apply Hg]|done|done|by rewrite Eg|lia|lia|lia|].
    intros s2 P2 _ G2. apply HQ; [by eapply (scan_trans s s1)|intros _ _; by apply G2|intros _; by apply G2].
Qed.

Lemma complex_scan_ok s g e (Q : unit -> mb_alloc -> Prop) :
  grp s g e -> mb_ok sbi e -> below_end e -> ctx_ok (length (al_groups s)) (al_ac s) -> ac_status (al_ac s) = AC_STATUS_CONTINUE -> 0 < bb_free (bd_info e) ->
  (forall s', scan_post s g e s' -> progress s' -> Q tt s') -> runs (ext4_mb_complex_scan_group sbi tun g) s Q.
Proof using G Hscan.
  intros Hg Hok Hbel C Hst Hfree HQ. unfold ext4_mb_complex_scan_group. rstep. apply (look_info s g e); [done|]. cbn [id]. rstep. apply runs_check; [by apply Z.ltb_lt|].
  pose proof Hok as [I1 _ I3 _ [I5 I6] _]. assert (Hex : exists x, free_at e x = true) by (rewrite I3 in Hfree; apply cnt_pos in Hfree as (x & _ & Hx); by exists x).
  destruct Hex as [x Hx]. pose proof (Hbel x Hx). pose proof (I6 x Hx). rstep. eapply (complex_loop_ok _ s g e); [done|done|done|done|lia| |lia|].
  { rewrite (cnt_extend (free_at e) 0 (bb_first_free (bd_info e)) false), (cnt_0 (free_at e) 0); [lia|lia|lia|]. intros b Hb. apply not_true_iff_false. intros Hf%I6. lia. }
  intros s1 P1 G1 _. specialize (G1 Hfree Hst). pose proof P1 as (R1 & L1 & [T|K]).
  - unfold ext4_mb_check_limits. rstep. apply runs_gets. cbn [id]. destruct T as (e' & T1 & T2 & T3 & T4 & T5). rewrite T4. cbv zeta. rewrite Z.eqb_refl. apply runs_ret, HQ; [|done].
    split_and!; [done|done|left; by exists e'].
  - pose proof K as (Eg & C1 & _). eapply (check_limits_ok s1 g e); [split; [apply Hg|rewrite Eg; apply Hg]|done|by rewrite Eg|]. intros s2 P2 G2. apply HQ; [by eapply (scan_trans s s1)|by apply G2].
Qed.

Lemma simple_loop_ok fuel s g e i (Q : unit -> mb_alloc -> Prop) :
  grp s g e -> mb_ok sbi e -> ctx_ok (length (al_groups s)) (al_ac s) -> 1 <= i <= top + 1 -> top + 2 - i <= Z.of_nat fuel -> fe_len (ac_g_ex (al_ac s)) <= 2 ^ i ->
  (forall s', scan_post s g e s' -> (i <= bb_largest_free_order (bd_info e) -> ac_status (al_ac s') = AC_STATUS_FOUND /\ fe_len (ac_b_ex (al_ac s')) = fe_len (ac_g_ex (al_ac s'))) -> Q tt s') ->
  runs (simple_loop sbi tun fuel g i) s Q.
Proof using G.
  intros Hg Hok C. pose proof Hok as [I1 I2 _ _ _ (L1 & L2 & L3)]. pose proof (not_found _ _ C) as Hst. revert i. induction fuel as [|fuel IH]; intros i Hi Hf Hlen HQ; [lia|]. cbn [simple_loop].
  destruct (Z.ltb_spec (bits + 1) i) as [Hout|Hin].
  { apply runs_ret, HQ; [split_and!; [done|done|right; by apply kept_refl]|lia]. }
  rstep. apply (look_info s g e); [done|]. rewrite (vw_counter _ _ _ _ I2 i) by lia. destruct (Z.eqb_spec (piece_counts sbi (chunk (s_blocksize_bits sbi + 1) (free_at e)) i) 0) as [E0|E0].
  { apply IH; [lia|lia|pose proof (Z.pow_le_mono_r 2 i (i + 1)); lia|]. intros s' P Hl. apply HQ; [done|]. intros Hle. apply Hl. destruct (Z.eq_dec i (bb_largest_free_order (bd_info e))) as [->|]; [|lia].
    specialize (L2 ltac:(lia)). lia. }
  set (f := free_at e) in *. assert (Hpos : 0 < piece_counts sbi (chunk (s_blocksize_bits sbi + 1) f) i) by (pose proof (cnt_bound (chunk (s_blocksize_bits sbi + 1) f i) (2 ^ (n - i)) ltac:(apply Z.pow_nonneg; lia)); unfold piece_counts in *; lia).
  apply cnt_pos in Hpos as (j & Hj & Hcj).
  rstep. apply (look_ok s g e _ (fun b => b = (addr_of sbi i, 2 ^ (n - i)))); [done|by apply the_buddy_ok; [done|lia|]|]. intros ? ->.
  rstep. apply (look_ok s g e _ (fun r => 0 <= r < 2 ^ (n - i) /\ chunk (s_blocksize_bits sbi + 1) f i r = true)); [done| |].
  { replace (addr_of sbi i) with ((addr_of sbi i).1, off sbi i + 0) by (unfold addr_of; cbn; by rewrite Z.add_0_r).
    eapply (find_zero_ok sbi _ _ e i 0 _ 0 _ I2); [lia|lia|lia|lia|]. intros r R1 R2 R3. split; [done|].
    assert (Hr : r < 2 ^ (n - i)) by (destruct (Z.lt_ge_cases r (2 ^ (n - i))) as [|Hr]; [done|]; specialize (R2 j ltac:(lia)); rewrite piece_bits_eq, Z.mul_0_r, Z.add_0_l in R2 by lia; by rewrite R2 in Hcj).
    specialize (R3 Hr). rewrite piece_bits_eq, Z.mul_0_r, Z.add_0_l in R3 by lia. split; [lia|done]. }
  intros r [Hr Hcr]. rewrite Z.shiftl_1_l, Z.shiftl_mul_pow2 by lia. pose proof (Z.pow_pos_nonneg 2 i ltac:(lia) ltac:(lia)) as Hpi. rstep. apply runs_check; [apply Z.ltb_lt; lia|].
  rstep. apply runs_modify. rstep. apply runs_modify. rstep. pose proof (cx_goal _ _ C) as Hgl.
  eapply (use_best_ok _ g e); [done|done|done|done|cbn; nia|cbn; lia|done|cbn; intros x Hx; apply (chunk_free top f i r); (done || lia)|].
  intros s' T R L B1 B2. rstep. apply runs_gets. cbn [id] in *. cbn in B1, B2, L. assert (Eg : ac_g_ex (al_ac s') = ac_g_ex (al_ac s)) by (unfold asked in R; destruct s as [[] ? ? ? ? ? ?]; cbn in R |- *; congruence).
  rewrite Z.min_r in B2 by done. rstep. apply runs_check; [apply Z.eqb_eq; congruence|].
  assert (Hdone : forall s2, al_ac s2 = al_ac s' -> al_groups s2 = al_groups s' -> al_locks s2 = al_locks s' -> Q tt s2).
  { intros s2 Ea Egr El. apply HQ; [split_and!; [rewrite Ea, R; by destruct s as [[] ? ? ? ? ? ?]|congruence|]|].
    - left. destruct T as (e' & T). exists e'. rewrite Egr, Ea. exact T.
    - intros _. rewrite Ea. split; [by destruct T as (? & _ & _ & _ & ? & _)|congruence]. }
  destruct (s_mb_stats tun); [apply runs_modify|apply runs_ret]; by apply Hdone.
Qed.

Lemma aligned_loop_ok fuel s g e i (Q : unit -> mb_alloc -> Prop) :
  grp s g e -> mb_ok sbi e -> ctx_ok (length (al_groups s)) (al_ac s) -> 0 <= i -> 0 < s_stripe tun -> clusters - i < Z.of_nat fuel -> (0 < fuel)%nat ->
  (forall s', scan_post s g e s' -> (progress s -> progress s') -> Q tt s') -> runs (aligned_loop sbi tun fuel g i) s Q.
Proof using G.
  intros Hg Hok C. pose proof (not_found _ _ C) as Hst. pose proof (@mg_clusters sbi G) as Hm. revert i. induction fuel as [|fuel IH]; intros i Hi Hs Hf Hf0 HQ; [lia|]. cbn [aligned_loop].
  destruct (Z.leb_spec clusters i) as [Hout|Hin]; [apply runs_ret, HQ; [split_and!; [done|done|right; by apply kept_refl]|done]|].
  rstep. apply (look_ok s g e _ (fun v => v = negb (free_at e i))); [done| |].
  { eapply (test_ok sbi _ _ e 0 i); [apply Hok|split; [pose proof (orders sbi); lia|replace (n - 0) with n by lia; lia]|]. done. }
  intros ? ->. rstep. apply runs_conseq with (P := fun ex s' => s' = s /\ (free_at e i = true -> good_extent sbi (free_at e) i (s_stripe tun) ex /\ fe_group ex = g)).
  { destruct (free_at e i) eqn:Ef; cbn [negb]; [|by apply runs_ret]. eapply (find_extent_look s g e); [done|done|lia|]. intros ex Hex. rewrite Ef in Hex. done. }
  intros ex s1 [-> Hex]. rewrite negb_involutive. destruct (free_at e i) eqn:Ef; cbn [andb].
  - destruct (Hex eq_refl) as [(X1 & X2 & X3 & X4 & _) X5]. destruct (Z.leb_spec (s_stripe tun) (fe_len ex)).
    + rstep. apply runs_modify. eapply (take_extent_ok _ g e); [by apply grp_upd|done|done|apply C|by destruct ex|destruct ex; cbn in *; lia|by destruct ex|destruct ex; cbn in *; intros x Hx; apply X4; lia|].
      intros s' P F _ _. apply HQ; [|intros _; by left]. destruct P as (R & L & T). cbn in *. split_and!; [rewrite R; by destruct s as [[] ? ? ? ? ? ?]|done|]. left. destruct T as [T|(_ & C' & _)]; [done|]. by apply not_found in C'.
    + apply IH; [lia|lia|lia|lia|done].
  - apply IH; [lia|lia|lia|lia|done].
Qed.
End facts.
