(* ===== verification/BuddySearch.v ===== *)
(** * mqfs: the search over the groups

    What other tasks do between two critical sections is a relation [R] on
    groups; building a group for the first time belongs to it.  The loops of the
    regular allocator keep the groups and the context well formed along it and
    take at most one extent, at the end. *)

From S2P Require Import Prelude BlockGroup Buddy BuddyChunks BuddyBits BuddyFacts BuddyGenerate BuddyUse BuddyTheorems BuddyAlloc BuddyAllocFacts.

(** A group with free clusters that is not marked as corrupt.  While its buddy is
    not built, the count of free clusters is that of its descriptor: it has to
    agree with the bitmap, or building the buddy marks the group. *)
Definition live (sbi : ext4_sb_info) (e : ext4_buddy) : Prop :=
  grp_corrupt (bd_info e) = false /\ 0 < bb_free (bd_info e) /\
  (grp_need_init (bd_info e) = true -> bb_free (bd_info e) = cnt (free_at e) (2 ^ (s_blocksize_bits sbi + 3))).

(** The buddy of a group is built: its bitmap stays, and it stays alive. *)
Definition init_step (sbi : ext4_sb_info) (e e' : ext4_buddy) : Prop :=
  grp_need_init (bd_info e) = true /\ grp_need_init (bd_info e') = false /\ grp_ok sbi e' /\ (forall b, free_at e' b = free_at e b) /\
  (live sbi e -> live sbi e').

(** What the search relies on of the tasks it shares the groups with. *)
Class interference (sbi : ext4_sb_info) (others : nat -> Z -> ext4_buddy -> ext4_buddy) (R : ext4_buddy -> ext4_buddy -> Prop) : Prop := mk_interference {
  in_refl e : R e e;
  in_trans e1 e2 e3 : R e1 e2 -> R e2 e3 -> R e1 e3;
  in_init e e' : grp_ok sbi e -> init_step sbi e e' -> R e e';
  in_ok k g e : grp_ok sbi e -> grp_ok sbi (others k g e);
  in_step k g e : grp_ok sbi e -> R e (others k g e);
  in_built e e' : R e e' -> grp_need_init (bd_info e) = false -> grp_need_init (bd_info e') = false;
}.

Section search.
Context (sbi : ext4_sb_info) {G : mb_geo sbi} (tun : mb_tunables).
Context (load_err init_err : Z -> Z) (others : nat -> Z -> ext4_buddy -> ext4_buddy).
Context (R : ext4_buddy -> ext4_buddy -> Prop) {I : interference sbi others R}.
Context (Hscan : 0 <= s_mb_max_to_scan tun) (Hstripe : 0 <= s_stripe tun).
Context (Hload : forall g, load_err g <= 0) (Hinit : forall g, init_err g <= 0).
Context (Hblocks : forall g, 0 <= g < s_groups_count sbi -> 0 <= ext4_group_first_block_no sbi g /\ ext4_group_first_block_no sbi g + s_stripe tun <= 2 ^ 64).
#[local] Abbreviation n := (s_blocksize_bits sbi + 3).
#[local] Abbreviation top := (s_blocksize_bits sbi + 1).
#[local] Abbreviation clusters := (s_clusters_per_group sbi).
#[local] Abbreviation gid := Z.to_nat.
#[local] Abbreviation grp_ok := (grp_ok sbi).
#[local] Abbreviation init_step := (init_step sbi).
#[local] Abbreviation live := (live sbi).

(** ** Loading *)

Lemma init_group_ok s g e (Q : Z -> mb_alloc -> Prop) :
  grp s g e -> grp_ok e ->
  (forall r e', grp_ok e' -> e' = e \/ init_step e e' -> r <= 0 -> (r = 0 -> grp_need_init (bd_info e') = false) -> (r <> 0 -> init_err g <> 0) -> Q r (put g e' s)) ->
  runs (ext4_mb_init_group sbi init_err g) s Q.
Proof using G Hinit.
  intros Hg Hok HQ. unfold ext4_mb_init_group. destruct (Z.eqb_spec (init_err g) 0) as [E|E]; cbn [negb].
  2: { apply runs_ret. rewrite <- (put_same s g e) by done. apply HQ; [done|by left|apply Hinit|lia|done]. }
  rstep. apply (look_info s g e); [done|]. destruct (grp_need_init (bd_info e)) eqn:En.
  - destruct Hok as [Hb Hs]. rewrite En in Hs. rstep. apply (group_ok s g e); [done|]. apply (init_cache_ok sbi); [done|done|]. intros e' Hi F. destruct (mb_inv_ok sbi _ _ Hi) as [Hok' Ef].
    assert (En' : grp_need_init (bd_info e') = false) by (unfold mb_frame, gen_frame in F; congruence).
    assert (Hok2 : grp_ok e') by (split; [intros b; rewrite Ef; apply Hb|by rewrite En']). apply runs_ret, HQ; [done| |lia|done|done]. right. split_and!; [done..|].
    intros (Hc & Hf & Hcnt). specialize (Hcnt En). pose proof (mi_free _ _ _ Hi) as Ebf. unfold BuddySearch.live.
    rewrite En', Ebf, <- Hcnt. unfold mb_frame, gen_frame in F. rewrite <- Hcnt, Z.eqb_refl, Hc in F. cbn in F. injection F as _ -> _ _ _. by split_and!.
  - rstep. apply runs_ret, runs_ret. rewrite <- (put_same s g e) by done. apply HQ; [done|by left|lia|done|done].
Qed.

Lemma load_buddy_ok s g e (Q : Z -> mb_alloc -> Prop) :
  grp s g e -> grp_ok e ->
  (forall r e', grp_ok e' -> e' = e \/ init_step e e' -> (r = 0 -> grp_need_init (bd_info e') = false) -> (grp_need_init (bd_info e) = false -> r = load_err g) ->
     (r <> 0 -> load_err g <> 0 \/ init_err g <> 0) -> Q r (put g e' s)) ->
  runs (ext4_mb_load_buddy sbi load_err init_err g) s Q.
Proof using G Hinit.
  intros Hg Hok HQ. unfold ext4_mb_load_buddy. rstep. apply (look_info s g e); [done|]. rstep. destruct (grp_need_init (bd_info e)) eqn:En.
  - apply (init_group_ok s g e); [done|done|]. intros r e' Hok' Hi _ Hr He. destruct (Z.eqb_spec r 0) as [->|Hr0]; cbn [negb]; apply runs_ret, HQ; try done; [intros _; by apply Hr|by left|intros _; right; by apply He].
  - apply runs_ret. cbn [Z.eqb negb]. apply runs_ret. rewrite <- (put_same s g e) by done. apply HQ; [done|by left|done|done|by left].
Qed.

Lemma lock_ok s g e (Q : unit -> mb_alloc -> Prop) :
  grp s g e -> (forall k, Q tt (put g (others k g e) (s <| al_locks := S k |>))) -> runs (mb_lock_group others g) s Q.
Proof. intros Hg HQ. unfold mb_lock_group. rstep. apply runs_gets. rstep. apply runs_modify. apply (group_ok _ g e); [done|]. apply runs_modify, HQ. Qed.

(** ** Choosing a group *)

(** Free clusters make a run. *)
Lemma free_has_run f m : (forall b, f b = true -> 0 <= b) -> 0 < cnt f m <-> 0 < cnt (run_start f) m.
Proof.
  intros Hpos. rewrite !cnt_pos. split; [|intros (i & Hi & [Hf _]%andb_true_iff); by exists i].
  intros (i & Hi & Hf). assert (Hn : exists d : nat, d = gid i) by eauto. destruct Hn as [d Hd]. revert i Hi Hf Hd. induction d as [|d IH]; intros i Hi Hf Hd.
  - exists i. split; [done|]. unfold run_start. rewrite Hf. destruct (f (i - 1)) eqn:E; [apply Hpos in E; lia|done].
  - destruct (f (i - 1)) eqn:E; [apply (IH (i - 1)); [lia|done|lia]|]. exists i. split; [done|]. unfold run_start. by rewrite Hf, E.
Qed.

Definition order_ok (a : ext4_allocation_context) : Prop := 1 <= ac_2order a <= top /\ fe_len (ac_g_ex a) <= 2 ^ ac_2order a.

Lemma good_group_ok s g e cr (Q : Z -> mb_alloc -> Prop) :
  grp s g e -> grp_ok e -> 0 <= cr < 4 -> (cr = 0 -> order_ok (al_ac s)) ->
  (forall r e', grp_ok e' -> e' = e \/ init_step e e' -> (0 < r -> grp_need_init (bd_info e') = false /\ 0 < bb_free (bd_info e')) -> (cr = 3 -> live e -> init_err g = 0 -> 0 < r) -> Q r (put g e' s)) ->
  runs (ext4_mb_good_group sbi init_err g cr) s Q.
Proof using G Hinit.
  intros Hg Hok Hcr Hord HQ. unfold ext4_mb_good_group. rstep. apply runs_gets. cbn [id]. cbv zeta.
  rstep. apply runs_check; [apply negb_true_iff, orb_false_iff; split; [apply Z.ltb_ge|apply Z.leb_gt]; lia|]. rstep. apply (look_info s g e); [done|]. cbn [id].
  assert (Hno : (cr = 3 -> live e -> False) -> runs (ret 0) s Q) by (intros Hl; apply runs_ret; rewrite <- (put_same s g e) by done; apply HQ; [done|by left|lia|intros ? ? _; exfalso; tauto]).
  destruct (Z.eqb_spec (bb_free (bd_info e)) 0) as [E|E]; [apply Hno; intros _ (_ & ? & _); lia|].
  destruct ((cr <=? 2) && _) eqn:E1; [apply Hno; intros ->; by cbn in E1|]. destruct (grp_corrupt (bd_info e)) eqn:Ec; [apply Hno; intros _ (? & _); congruence|].
  rstep. apply runs_conseq with (P := fun r s' => exists e', s' = put g e' s /\ grp_ok e' /\ (e' = e \/ init_step e e') /\ r <= 0 /\ (r = 0 -> grp_need_init (bd_info e') = false) /\
    (init_err g = 0 -> r = 0)).
  { destruct (grp_need_init (bd_info e)) eqn:En; [|apply runs_ret; exists e; rewrite put_same by done; split_and!; (done || by left)].
    apply (init_group_ok s g e); [done|done|]. intros r e' Hok' Hi Hr0 Hr Her. exists e'. split_and!; try done. intros E0. destruct (Z.eq_dec r 0) as [|Hr1]; [done|]. by destruct (Her Hr1). }
  intros r s' (e' & -> & Hok' & Hi & Hr0 & Hr & Hr'). destruct (Z.eqb_spec r 0) as [->|Er]; cbn [negb].
  2: { apply runs_ret, HQ; [done|done|lia|intros _ _ He; specialize (Hr' He); lia]. }
  specialize (Hr eq_refl). destruct Hok' as [Hb' Hm']. rewrite Hr in Hm'. rstep. apply (look_info _ g e'); [by eapply grp_put|]. cbn [id].
  assert (Efr : 0 < bb_free (bd_info e') <-> bb_fragments (bd_info e') <> 0).
  { pose proof Hm' as [J1 _ -> -> _ _]. rewrite (free_has_run (free_at e')) by (intros b Hb; by apply J1). pose proof (cnt_bound (run_start (free_at e')) (2 ^ n) ltac:(apply Z.pow_nonneg; lia)). lia. }
  assert (Hq : forall v, (0 < v -> bb_fragments (bd_info e') <> 0) -> (cr = 3 -> live e -> 0 < v) -> runs (ret v) (put g e' s) Q).
  { intros v Hv Hl. apply runs_ret, HQ; [split; [done|by rewrite Hr]|done|intros Hv0; split; [done|by apply Efr, Hv]|intros ? ? _; by apply Hl]. }
  destruct (Z.eqb_spec (bb_fragments (bd_info e')) 0) as [E0|E0].
  { apply Hq; [lia|]. intros _ Hl. assert (Hl' : live e') by (destruct Hi as [->|(_ & _ & _ & _ & Hi)]; [done|by apply Hi]). destruct Hl' as (_ & Hf & _). by apply Efr in Hf. }
  destruct (Z.eqb_spec cr 0) as [->|Hc0].
  { rstep. apply runs_check; [apply negb_true_iff, Z.eqb_neq; destruct (Hord eq_refl); lia|]. repeat (match goal with |- runs (if ?b then _ else _) _ _ => destruct b end); by apply Hq. }
  destruct (Z.eqb_spec cr 1) as [->|Hc1]; [by apply Hq|]. destruct (Z.eqb_spec cr 2) as [->|Hc2]; by apply Hq.
Qed.

(** ** The groups and the context between critical sections *)

Definition evolved (s s' : mb_alloc) : Prop :=
  length (al_groups s') = length (al_groups s) /\ forall i e, al_groups s !! i = Some e -> exists e', al_groups s' !! i = Some e' /\ R e e'.

(** The best extent was free once. *)
Definition best_known (s : mb_alloc) : Prop :=
  let b := ac_b_ex (al_ac s) in 0 < fe_len b -> exists e1 e2, grp_ok e1 /\ free_at e1 (fe_start b) = true /\ grp_need_init (bd_info e1) = false /\ R e1 e2 /\ grp s (fe_group b) e2.

Record world (s : mb_alloc) : Prop := mk_world {
  w_ok i e : al_groups s !! i = Some e -> grp_ok e;
  w_len : Z.of_nat (length (al_groups s)) = s_groups_count sbi;
  w_ctx : ctx_ok sbi (length (al_groups s)) (al_ac s);
  w_best : best_known s;
  w_first : has_flag (ac_flags (al_ac s)) EXT4_MB_HINT_FIRST = true -> fe_len (ac_b_ex (al_ac s)) = 0;
}.

Lemma evolved_refl s : evolved s s.
Proof using I. split; [done|]. intros i e E. exists e. split; [done|apply in_refl]. Qed.

Lemma evolved_trans s1 s2 s3 : evolved s1 s2 -> evolved s2 s3 -> evolved s1 s3.
Proof using I. intros [L1 M1] [L2 M2]. split; [congruence|]. intros i e (e' & E' & R1)%M1. apply M2 in E' as (e'' & E'' & R2). exists e''. split; [done|by eapply in_trans]. Qed.

Lemma put_groups s g e : al_groups (put g e s) = <[gid g := e]> (al_groups s).
Proof. done. Qed.

Lemma evolved_put s g e e' : grp s g e -> R e e' -> evolved s (put g e' s).
Proof using I.
  intros [Hg E] HR. unfold evolved. rewrite !put_groups. split; [apply length_insert|]. intros i x Ex. destruct (decide (i = gid g)) as [->|Hne].
  - exists e'. rewrite list_lookup_insert_eq by (by eapply lookup_lt_Some). split; [done|]. congruence.
  - exists x. rewrite list_lookup_insert_ne by done. split; [done|apply in_refl].
Qed.

Lemma grp_evolved s s' g e : evolved s s' -> grp s g e -> exists e', grp s' g e' /\ R e e'.
Proof. intros [_ M] [Hg E]. apply M in E as (e' & E' & HR). by exists e'. Qed.

Lemma world_grp s g : world s -> 0 <= g < s_groups_count sbi -> exists e, grp s g e /\ grp_ok e.
Proof. intros W Hg. destruct (lookup_lt_is_Some_2 (al_groups s) (gid g)) as [e E]; [pose proof (w_len _ W); lia|]. exists e. split; [by split; [lia|]|by eapply (w_ok _ W)]. Qed.

Lemma world_put s g e e' : world s -> grp s g e -> grp_ok e' -> R e e' -> world (put g e' s).
Proof using I.
  intros [W1 W2 W3 W4 W5] Hg Hok HR. pose proof (evolved_put s g e e' Hg HR) as M. pose proof M as [L _]. split; [|by rewrite L|by rewrite L| |done].
  - intros i x. rewrite put_groups. intros [[_ [<- _]]|[_ Ex]]%list_lookup_insert_Some; [done|by eapply W1].
  - intros Hb. destruct (W4 Hb) as (e1 & e2 & H1 & H2 & H2' & H3 & H4). destruct (grp_evolved _ _ _ _ M H4) as (e3 & H5 & H6). exists e1, e3. split_and!; [done|done|done|by eapply in_trans|done].
Qed.

(** Changes of the context that the search does not rely on. *)
Lemma world_same s s' :
  al_groups s' = al_groups s -> fe_len (ac_g_ex (al_ac s')) = fe_len (ac_g_ex (al_ac s)) -> ac_flags (al_ac s') = ac_flags (al_ac s) -> ac_b_ex (al_ac s') = ac_b_ex (al_ac s) ->
  ac_found (al_ac s') = ac_found (al_ac s) -> ac_status (al_ac s') = ac_status (al_ac s) -> world s -> world s'.
Proof.
  intros Eg E1 E2 Eb Ef Es [W1 W2 W3 W4 W5]. split; rewrite ?Eg; [done|done| | |rewrite E2, Eb; done].
  - destruct W3 as [C1 C2 C3 C4 C5]. split; rewrite ?E1, ?E2, ?Eb, ?Ef, ?Es; done.
  - unfold best_known, grp in *. rewrite Eb, Eg. done.
Qed.

(** ** A critical section *)

(** One extent was taken, from a group that was as it should be. *)
Definition got_extent (s s' : mb_alloc) : Prop :=
  exists s1 g e, evolved s s1 /\ grp s1 g e /\ grp_ok e /\ grp_need_init (bd_info e) = false /\ taken sbi s1 g e s' /\ forall i x, al_groups s1 !! i = Some x -> grp_ok x.

(** What may have happened when control is back. *)
Definition search_post (s s' : mb_alloc) : Prop :=
  asked (al_ac s') = asked (al_ac s) /\ (got_extent s s' \/ world s' /\ evolved s s').

Lemma got_evolved s s1 s2 : evolved s s1 -> got_extent s1 s2 -> got_extent s s2.
Proof using I. intros M (s3 & g & e & M' & H). exists s3, g, e. split; [by eapply evolved_trans|done]. Qed.

Lemma search_trans s s1 s2 : asked (al_ac s1) = asked (al_ac s) -> evolved s s1 -> search_post s1 s2 -> search_post s s2.
Proof using I. intros E M (E2 & [A|[W M2]]); (split; [congruence|]); [left; by eapply got_evolved|right; split; [done|by eapply evolved_trans]]. Qed.

Lemma found_not_continue s s' : got_extent s s' -> ac_status (al_ac s') = AC_STATUS_FOUND.
Proof. intros (? & ? & ? & _ & _ & _ & _ & (? & _ & _ & _ & ? & _) & _). done. Qed.

Lemma scan_search s g e s' : world s -> grp s g e -> grp_ok e -> grp_need_init (bd_info e) = false -> scan_post sbi s g e s' -> search_post s s'.
Proof using I.
  intros W Hg Hok Hn (Er & _ & [T|(Eg & C & B)]); (split; [done|]).
  - left. exists s, g, e. split_and!; [apply evolved_refl|done|done|done|done|apply (w_ok _ W)].
  - right. split; [|split; [by rewrite Eg|intros i x Ex; exists x; rewrite Eg; split; [done|apply in_refl]]]. destruct W as [W1 W2 W3 W4 W5].
    split; rewrite ?Eg; [done|done|done| |].
    + intros Hb. destruct B as [E|(_ & _ & E1 & E2)].
      * rewrite E in Hb |- *. destruct (W4 Hb) as (e1 & e2 & H1 & H2 & H2' & H3 & H4). exists e1, e2. split_and!; [done|done|done|done|]. unfold grp. by rewrite Eg.
      * exists e, e. split_and!; [done|done|done|apply in_refl|]. rewrite E1. unfold grp. by rewrite Eg.
    + unfold asked in Er. replace (ac_flags (al_ac s')) with (ac_flags (al_ac s)) by congruence. intros Hf. destruct B as [->|(Hf' & _)]; [by apply W5|congruence].
Qed.

Lemma scan_progress s g e s' : ac_status (al_ac s) = AC_STATUS_CONTINUE -> scan_post sbi s g e s' -> progress s -> progress s'.
Proof.
  intros Hst (_ & _ & [(? & _ & _ & _ & ? & _)|(_ & _ & B)]) [Hp|Hp]; [by left|by left|rewrite Hst in Hp; done|]. right. destruct B as [->|(_ & ? & _)]; done.
Qed.

Lemma scan_group_ok s g e cr (Q : unit -> mb_alloc -> Prop) :
  world s -> grp s g e -> grp_ok e -> grp_need_init (bd_info e) = false -> 0 < bb_free (bd_info e) -> ac_status (al_ac s) = AC_STATUS_CONTINUE -> (cr = 0 -> order_ok (al_ac s)) ->
  (forall s', search_post s s' -> (progress s \/ cr = 3 -> progress s') -> Q tt s') -> runs (scan_group sbi tun g cr) s Q.
Proof using G I Hscan Hstripe Hblocks.
  intros W Hg Hok Hn Hfree Hst Hord HQ. pose proof Hok as [Hb Hm]. rewrite Hn in Hm. unfold scan_group. rstep. apply runs_modify. set (s1 := s <| al_ac ::= _ |>).
  assert (Er : asked (al_ac s1) = asked (al_ac s)) by (unfold s1; by destruct s as [[] ? ? ? ? ? ?]).
  assert (W1 : world s1) by (apply (world_same s); done). assert (M1 : evolved s s1) by exact (evolved_refl s).
  assert (Hfin : forall s', scan_post sbi s1 g e s' -> (cr = 3 -> progress s') -> Q tt s').
  { intros s' P Hp. apply HQ; [eapply (search_trans s s1); [done|done|by eapply scan_search]|]. intros [Hpr|Hc]; [|by apply Hp]. by eapply (scan_progress s1 g e). }
  rstep. apply runs_gets. cbn [id]. destruct (Z.eqb_spec cr 0) as [->|Hc].
  - destruct (Hord eq_refl) as [Ho1 Ho2]. unfold ext4_mb_simple_scan_group. rstep. apply runs_gets. rstep. apply runs_check; [apply Z.ltb_lt; cbn; lia|].
    apply (simple_loop_ok sbi tun _ s1 g e); [done|done|apply W1|cbn; lia|cbn; lia|done|]. intros s' P _. by apply Hfin.
  - destruct (_ && _ && _) eqn:Ea.
    + apply andb_true_iff in Ea as [[Ec%Z.eqb_eq Es%negb_true_iff%Z.eqb_neq]%andb_true_iff _]. unfold ext4_mb_scan_aligned. rstep. apply runs_check; [by apply negb_true_iff, Z.eqb_neq|]. cbv zeta.
      assert (Hgr : 0 <= g < s_groups_count sbi) by (destruct Hg as [? ?%lookup_lt_Some]; pose proof (w_len _ W); lia). destruct (Hblocks g Hgr) as [B1 B2].
      set (fb := ext4_group_first_block_no sbi g) in *. rewrite wrap_small by lia. assert (fb <= (fb + s_stripe tun - 1) / s_stripe tun * s_stripe tun) by (Z.to_euclidean_division_equations; nia).
      apply (aligned_loop_ok sbi tun _ s1 g e); [done|done|apply W1|lia|lia|lia|lia|]. intros s' P _. apply Hfin; [done|lia].
    + apply (complex_scan_ok sbi tun Hscan s1 g e); [done|done|done|apply W1|done|done|]. intros s' P Hp. by apply Hfin.
Qed.

(** ** The loop over the groups *)

#[local] Abbreviation ng := (mb_ngroups sbi tun).
Context (Hng : 0 < mb_ngroups sbi tun <= s_groups_count sbi).

Definition norm (group : Z) : Z := if ng <=? group then 0 else group.

Lemma norm_range group : 0 <= group -> 0 <= norm group < ng.
Proof using Hng. intros Hg. unfold norm. destruct (Z.leb_spec ng group); lia. Qed.

Lemma norm_next group d : 0 <= group < ng -> (norm (group + 1) + d) mod ng = (group + 1 + d) mod ng.
Proof. intros Hg. unfold norm. destruct (Z.leb_spec ng (group + 1)); [|done]. replace (group + 1 + d) with (d + 1 * ng) by lia. by rewrite Z.mod_add by lia. Qed.

(** Group [g0] has something for everybody, whatever the others do. *)
Definition alive (g0 : Z) (e0 : ext4_buddy) (s : mb_alloc) : Prop := (forall e, R e0 e -> live e) /\ exists e, grp s g0 e /\ R e0 e.

Lemma alive_evolved g0 e0 s s' : evolved s s' -> alive g0 e0 s -> alive g0 e0 s'.
Proof using I. intros M (Hl & e & Hg & HR). split; [done|]. destruct (grp_evolved _ _ _ _ M Hg) as (e' & Hg' & HR'). exists e'. split; [done|by eapply in_trans]. Qed.

Lemma alive_live g0 e0 s e : alive g0 e0 s -> grp s g0 e -> live e.
Proof. intros (Hl & e' & [_ E'] & HR) [_ E]. apply Hl. congruence. Qed.

Definition no_errors : Prop := forall g, load_err g = 0 /\ init_err g = 0.

Definition sure (cr : Z) (visits : Z -> Prop) (s s' : mb_alloc) : Prop :=
  forall g0 e0, cr = 3 -> alive g0 e0 s -> no_errors -> visits g0 -> progress s'.

Record loop_post (cr : Z) (visits : Z -> Prop) (s : mb_alloc) (r : Z + Z) (s' : mb_alloc) : Prop := mk_loop_post {
  lp_search : search_post s s';
  lp_progress : progress s -> progress s';
  lp_err err : r = inl err -> err <> 0 /\ exists g, load_err g <> 0;
  lp_sure : sure cr visits s s';
}.

Definition visited (group : Z) (todo : nat) : Z -> Prop := fun g0 => exists d, 0 <= d < Z.of_nat todo /\ g0 = (norm group + d) mod ng.

(** The group was left without a scan: it was not the one that is sure. *)
Lemma loop_skip cr group todo s s1 s2 r :
  0 <= group -> asked (al_ac s1) = asked (al_ac s) -> evolved s s1 -> (progress s -> progress s1) -> (forall e0, cr = 3 -> alive (norm group) e0 s -> no_errors -> False) ->
  loop_post cr (visited (norm group + 1) todo) s1 r s2 -> loop_post cr (visited group (S todo)) s r s2.
Proof using I Hng.
  intros Hg Er M Hp Hno [P1 P2 P3 P4]. pose proof (norm_range group Hg) as Hgr. split; [by eapply search_trans|intros H; by apply P2, Hp|done|].
  intros g0 e0 Hc Ha Hl (d & Hd & ->). destruct (Z.eq_dec d 0) as [->|Hd0]; [exfalso; rewrite Z.add_0_r, Z.mod_small in Ha by done; by eapply Hno|].
  apply (P4 ((norm group + d) mod ng) e0 Hc); [by eapply alive_evolved|done|]. exists (d - 1). split; [lia|]. rewrite norm_next by done. f_equal. lia.
Qed.

(** The group was scanned. *)
Lemma loop_scan cr group todo s s1 s2 r :
  asked (al_ac s1) = asked (al_ac s) -> evolved s s1 -> search_post s1 s2 -> (progress s \/ cr = 3 -> progress s2) -> (forall err, r = inl err -> err <> 0 /\ exists g, load_err g <> 0) ->
  loop_post cr (visited group todo) s r s2.
Proof using I. intros Er M P Hp He. split; [by eapply search_trans|intros H; apply Hp; by left|done|]. intros g0 e0 Hc _ _ _. apply Hp. by right. Qed.

Lemma enter_ok s g e e' : world s -> grp s g e -> grp_ok e' -> e' = e \/ init_step e e' -> world (put g e' s) /\ evolved s (put g e' s).
Proof using I.
  intros W Hg Hok Hi. assert (HR : R e e') by (destruct Hi as [->|Hi]; [apply in_refl|by eapply in_init; [by eapply (w_ok _ W), Hg|]]).
  split; [by eapply world_put|by eapply evolved_put].
Qed.

Lemma group_loop_ok todo s group cr fe (Q : Z + Z -> mb_alloc -> Prop) :
  world s -> ac_status (al_ac s) = AC_STATUS_CONTINUE -> 0 <= group -> 0 <= cr < 4 -> (cr = 0 -> order_ok (al_ac s)) ->
  (forall r s', loop_post cr (visited group todo) s r s' -> Q r s') ->
  runs (group_loop sbi tun load_err init_err others todo group cr fe) s Q.
Proof using G I Hscan Hstripe Hblocks Hinit Hng.
  revert s group fe Q. induction todo as [|todo IH]; intros s group fe Q W Hst Hg0 Hcr Hord HQ; cbn [group_loop].
  { apply runs_ret, HQ. split; [split; [done|right; split; [done|apply evolved_refl]]|done|done|]. intros g0 e0 _ _ _ (d & Hd & _). lia. }
  cbv zeta. fold (norm group). pose proof (norm_range group Hg0) as Hgr. set (g := norm group) in *. destruct (world_grp s g W ltac:(lia)) as (e & Hg & Hok).
  assert (Hnext : forall s1 fe1, world s1 -> asked (al_ac s1) = asked (al_ac s) -> evolved s s1 -> al_ac s1 = al_ac s -> (forall e0, cr = 3 -> alive g e0 s -> no_errors -> False) ->
    runs (group_loop sbi tun load_err init_err others todo (g + 1) cr fe1) s1 Q).
  { intros s1 fe1 W1 Er M Ea Hno. apply IH; [done|by rewrite Ea|lia|done|by rewrite Ea|]. intros r s' P. apply HQ. eapply loop_skip; [done|done|done|unfold progress; by rewrite Ea|done|done]. }
  rstep. apply (good_group_ok s g e cr); [done|done|done|done|]. intros r1 e1 Hok1 Hi1 Hr1 Hl1. destruct (enter_ok s g e e1 W Hg Hok1 Hi1) as [W1 M1].
  pose proof (grp_put s g e e1 Hg) as Hg1. set (s1 := put g e1 s) in *.
  destruct (Z.leb_spec r1 0) as [Hle|Hgt]; [apply Hnext; [done|done|done|done|]; intros e0 Hc Ha He; pose proof (Hl1 Hc (alive_live _ _ _ _ Ha Hg) (proj2 (He g))); lia|].
  destruct (Hr1 Hgt) as [Hn1 _]. rstep. apply (load_buddy_ok s1 g e1); [done|done|]. intros r2 e2 Hok2 Hi2 Hr2 Hr2' _. destruct (enter_ok s1 g e1 e2 W1 Hg1 Hok2 Hi2) as [W2 M2].
  pose proof (grp_put s1 g e1 e2 Hg1) as Hg2. set (s2 := put g e2 s1) in *. specialize (Hr2' Hn1).
  destruct (Z.eqb_spec r2 0) as [E2|E2]; cbn [negb].
  2: { apply runs_ret, HQ. split; [split; [done|right; split; [done|by eapply evolved_trans]]|done| |].
       - intros err [= <-]. split; [done|]. exists g. congruence.
       - intros g0 e0 _ _ Hl _. rewrite (proj1 (Hl g)) in Hr2'. lia. }
  rstep. apply (lock_ok s2 g e2); [done|]. intros k. set (s2' := s2 <| al_locks := S k |>). set (e3 := others k g e2).
  assert (W3 : world (put g e3 s2')) by (eapply (world_put s2' g e2); [by apply (world_same s2)|done|by apply (in_ok (R := R))|by apply (in_step (R := R))]).
  assert (M3 : evolved s (put g e3 s2')) by (eapply evolved_trans; [exact M1|]; eapply evolved_trans; [exact M2|]; apply (evolved_put s2' g e2); [done|by apply in_step]).
  pose proof (grp_put s2' g e2 e3 Hg2) as Hg3. set (s3 := put g e3 s2') in *.
  rstep. apply (good_group_ok s3 g e3 cr); [done|by apply (w_ok _ W3 _ _ (proj2 Hg3))|done|done|]. intros r4 e4 Hok4 Hi4 Hr4 Hl4. destruct (enter_ok s3 g e3 e4 W3 Hg3 Hok4 Hi4) as [W4 M4].
  pose proof (grp_put s3 g e3 e4 Hg3) as Hg4. set (s4 := put g e4 s3) in *. assert (M04 : evolved s s4) by (by eapply evolved_trans).
  destruct (Z.leb_spec r4 0) as [Hle4|Hgt4].
  { apply Hnext; [done|done|done|done|]. intros e0 Hc Ha He. pose proof (Hl4 Hc (alive_live _ _ _ _ (alive_evolved _ _ _ _ M3 Ha) Hg3) (proj2 (He g))). lia. }
  destruct (Hr4 Hgt4) as [Hn4 Hf4]. rstep. apply (scan_group_ok s4 g e4 cr); [done|done|done|done|done|done|done|]. intros s5 P5 Hp5. rstep. apply runs_gets.
  destruct (Z.eqb_spec (ac_status (al_ac s5)) AC_STATUS_CONTINUE) as [Hst5|Hst5]; cbn [negb].
  - pose proof P5 as (Er5 & [A|[W5 M5]]); [by rewrite (found_not_continue _ _ A) in Hst5|].
    apply IH; [done|done|lia|done|intros Hc; unfold order_ok in *; unfold asked in Er5; assert (Ex : al_ac s4 = al_ac s) by done; rewrite Ex in Er5; injection Er5 as -> _ ->; by apply Hord|].
    intros r s' [P1 P2 P3 P4]. apply HQ. eapply (loop_scan cr group (S todo) s s4); [done|done|eapply (search_trans s4 s5); [by destruct P5|done|done]|intros H; by apply P2, Hp5|done].
  - apply runs_ret, HQ. by eapply (loop_scan cr group (S todo) s s4).
Qed.

Lemma visited_all group g0 : 0 <= group -> 0 <= g0 < ng -> visited group (gid ng) g0.
Proof using Hng.
  intros Hg Hg0. exists ((g0 - norm group) mod ng). pose proof (Z.mod_pos_bound (g0 - norm group) ng ltac:(lia)). split; [lia|].
  rewrite Z.add_mod_idemp_r by lia. replace (norm group + (g0 - norm group)) with g0 by lia. by rewrite Z.mod_small.
Qed.

Lemma world_progress s : world s -> ac_status (al_ac s) <> AC_STATUS_CONTINUE -> progress s.
Proof. intros W Hst. destruct (cx_status _ _ _ (w_ctx _ W)) as [?|[_ ?]]; [done|by right]. Qed.

Lemma progress_found s s' : got_extent s s' -> progress s'.
Proof. intros A. left. by eapply found_not_continue. Qed.

(** ** The criteria *)

Definition in_groups : Z -> Prop := fun g0 => 0 <= g0 < ng.
Definition sure_upto (cr : Z) (s s' : mb_alloc) : Prop := cr <= 3 -> sure 3 in_groups s s'.

Lemma cr_loop_ok fuel s cr fe (Q : Z + Z -> mb_alloc -> Prop) :
  world s -> 0 <= cr <= 4 -> (cr = 0 -> order_ok (al_ac s)) -> 0 <= fe_group (ac_g_ex (al_ac s)) -> 4 - cr < Z.of_nat fuel ->
  (forall r s', search_post s s' -> (progress s -> progress s') -> (forall err, r = inl err -> err <> 0 /\ exists g, load_err g <> 0) -> sure_upto cr s s' -> Q r s') ->
  runs (cr_loop sbi tun load_err init_err others fuel cr fe) s Q.
Proof using G I Hscan Hstripe Hblocks Hinit Hng.
  revert s cr fe Q. induction fuel as [|fuel IH]; intros s cr fe Q W Hcr Hord Hgrp Hf HQ; [lia|]. cbn [cr_loop]. rstep. apply runs_gets. cbn [id].
  destruct (Z.ltb_spec cr 4) as [Hlt|Hge]; cbn [andb].
  2: { apply runs_ret, HQ; [split; [done|right; split; [done|apply evolved_refl]]|done|done|intros ?; lia]. }
  destruct (Z.eqb_spec (ac_status (al_ac s)) AC_STATUS_CONTINUE) as [Hst|Hst].
  2: { apply runs_ret, HQ; [split; [done|right; split; [done|apply evolved_refl]]|done|done|]. intros _ g0 e0 _ _ _ _. by apply world_progress. }
  rstep. apply runs_modify. set (s1 := s <| al_ac ::= _ |>). assert (W1 : world s1) by (by apply (world_same s)). assert (M1 : evolved s s1) by exact (evolved_refl s).
  assert (Er1 : asked (al_ac s1) = asked (al_ac s)) by done.
  rstep. apply (group_loop_ok _ s1); [done|done|done|lia|done|]. intros r s2 [P1 P2 P3 P4]. pose proof (search_trans s s1 s2 Er1 M1 P1) as P1'.
  assert (Hsure : cr = 3 -> sure 3 in_groups s s2).
  { intros Hc g0 e0 _ Ha Hl Hg0. apply (P4 g0 e0 Hc); [exact Ha|done|by apply visited_all]. }
  destruct r as [err|fe2].
  { apply runs_ret, HQ; [done|done|intros ? [= <-]; by apply P3|]. intros _ g0 e0 _ Ha Hl _. destruct (P3 err eq_refl) as (_ & g & Hg). by rewrite (proj1 (Hl g)) in Hg. }
  pose proof P1' as (Er2 & [A|[W2 M2]]).
  - destruct fuel as [|fuel]; [lia|]. cbn [cr_loop]. rstep. apply runs_gets. cbn [id]. rewrite (found_not_continue _ _ A). rewrite andb_false_r.
    apply runs_ret, HQ; [done|done|done|]. intros _ g0 e0 _ _ _ _. by eapply progress_found.
  - unfold asked in Er2. apply (IH s2); [done|lia|lia|by replace (ac_g_ex (al_ac s2)) with (ac_g_ex (al_ac s)) by congruence|lia|]. intros r s3 Q1 Q2 Q3 Q4.
    apply HQ; [by eapply (search_trans s s2)|intros Hp; by apply Q2, P2|done|]. intros Hc g0 e0 _ Ha Hl Hg0.
    destruct (Z.eq_dec cr 3) as [Hc3|Hc3]; [apply Q2; by eapply (Hsure Hc3)|]. apply (Q4 ltac:(lia) g0 e0 eq_refl); [by eapply alive_evolved|done|done].
Qed.

(** ** The goal and the best extent found *)

(** Loading a group for use. *)
Lemma load_world s g e (Q : Z -> mb_alloc -> Prop) :
  world s -> grp s g e ->
  (forall r s' e', world s' -> evolved s s' -> al_ac s' = al_ac s -> s_mb_last_group s' = s_mb_last_group s -> grp s' g e' -> (r = 0 -> grp_need_init (bd_info e') = false) ->
     (grp_need_init (bd_info e) = false -> r = load_err g) -> (r <> 0 -> load_err g <> 0 \/ init_err g <> 0) -> Q r s') ->
  runs (ext4_mb_load_buddy sbi load_err init_err g) s Q.
Proof using G I Hinit.
  intros W Hg HQ. apply (load_buddy_ok s g e); [done|by apply (w_ok _ W _ _ (proj2 Hg))|]. intros r e' Hok' Hi Hr Hr' He. destruct (enter_ok s g e e' W Hg Hok' Hi) as [W1 M1].
  apply (HQ r _ e'); try done. by apply (grp_put s g e).
Qed.

Lemma lock_world s g e (Q : unit -> mb_alloc -> Prop) :
  world s -> grp s g e -> grp_need_init (bd_info e) = false ->
  (forall s' e', world s' -> evolved s s' -> al_ac s' = al_ac s -> s_mb_last_group s' = s_mb_last_group s -> grp s' g e' -> grp_ok e' -> grp_need_init (bd_info e') = false -> Q tt s') ->
  runs (mb_lock_group others g) s Q.
Proof using I.
  intros W Hg Hn HQ. apply (lock_ok s g e); [done|]. intros k. set (s1 := s <| al_locks := S k |>). assert (W1 : world s1) by (by apply (world_same s)).
  assert (Hok : grp_ok e) by (by apply (w_ok _ W _ _ (proj2 Hg))). assert (HR : R e (others k g e)) by (by apply in_step). assert (Hok' : grp_ok (others k g e)) by (by apply (in_ok (R := R))).
  apply (HQ _ (others k g e)); [by eapply (world_put s1 g e)|by apply (evolved_put s1 g e)|done|done|by apply (grp_put s1 g e)|done|by eapply in_built].
Qed.

(** What others leave free stays free. *)
Definition undisturbed : Prop := forall e e' b, R e e' -> free_at e b = true -> free_at e' b = true.

Lemma try_best_ok s (Q : Z -> mb_alloc -> Prop) :
  world s -> 0 < fe_len (ac_b_ex (al_ac s)) ->
  (forall r s', search_post s s' -> (undisturbed -> (forall g, load_err g = 0) -> got_extent s s') -> Q r s') -> runs (ext4_mb_try_best_found sbi load_err init_err others) s Q.
Proof using G I Hinit.
  intros W Hb HQ. destruct (w_best _ W Hb) as (e1 & e & Hok1 & Hf1 & Hn1 & HR1 & Hg). pose proof (cx_in _ _ _ (w_ctx _ W) Hb) as [Hbs _]. pose proof (cx_goal _ _ _ (w_ctx _ W)) as Hgl.
  unfold ext4_mb_try_best_found. rstep. apply runs_gets. cbv zeta. rstep. apply runs_check; [by apply Z.ltb_lt|]. set (b := ac_b_ex (al_ac s)) in *. set (g := fe_group b) in *.
  rstep. apply (load_world s g e); [done|done|]. intros r s1 e2 W1 M1 Ea1 _ Hg1 Hn2 Hl1 _. destruct (Z.eqb_spec r 0) as [->|Hr]; cbn [negb].
  2: { apply runs_ret, HQ; [split; [by rewrite Ea1|by right]|]. intros _ Hl. rewrite Hl in Hl1. exfalso. apply Hr, Hl1. by eapply in_built. }
  rstep. apply (lock_world s1 g e2); [done|done|by apply Hn2|]. intros s2 e3 W2 M2 Ea2 _ Hg2 Hok3 Hn3. pose proof Hok3 as [_ Hm3]. rewrite Hn3 in Hm3. assert (M02 : evolved s s2) by (by eapply evolved_trans).
  assert (Er2 : asked (al_ac s2) = asked (al_ac s)) by congruence.
  rstep. eapply (find_extent_look sbi s2 g e3); [done|done|done|]. intros ex Hex. rstep. destruct (free_at e3 (fe_start b)) eqn:Ef.
  - destruct Hex as [(X1 & X2 & X3 & X4 & _) X5]. rewrite (proj2 (Z.ltb_lt 0 _)) by done.
    eapply (take_extent_ok sbi s2 g e3); [done|done|by eapply not_found, W2|by rewrite Ea2, Ea1|done|lia|done|intros x Hx; apply X4; lia|]. intros s3 P F _ _.
    pose proof (scan_search s2 g e3 s3 W2 Hg2 Hok3 Hn3 P) as P3. pose proof (search_trans s s2 s3 Er2 M02 P3) as P3'. apply runs_ret, HQ; [done|]. intros _ _. destruct P3' as [_ [A|[W3 _]]]; [done|].
    by apply w_ctx, not_found in W3.
  - rewrite (proj2 (Z.ltb_ge 0 _)) by lia. apply runs_ret, runs_ret, HQ; [split; [done|by right]|]. intros Hu _. exfalso.
    assert (Hfree : free_at e3 (fe_start b) = true); [|congruence]. destruct (grp_evolved _ _ _ _ M02 Hg) as (e3' & [_ E3'] & HR3). destruct Hg2 as [_ E3]. assert (e3' = e3) as -> by congruence.
    eapply Hu; [exact HR3|]. by eapply Hu.
Qed.

(** The allocator begins with nothing found. *)
Lemma find_by_goal_ok s (Q : Z -> mb_alloc -> Prop) :
  world s -> 0 <= fe_group (ac_g_ex (al_ac s)) < s_groups_count sbi -> 0 <= fe_start (ac_g_ex (al_ac s)) < clusters ->
  (forall r s', search_post s s' -> (r <> 0 -> exists g, load_err g <> 0 \/ init_err g <> 0) -> (ac_status (al_ac s') <> AC_STATUS_FOUND -> s_mb_last_group s' = s_mb_last_group s) -> Q r s') ->
  runs (ext4_mb_find_by_goal sbi tun load_err init_err others) s Q.
Proof using G I Hinit.
  intros W Hgr Hgs HQ. unfold ext4_mb_find_by_goal. rstep. apply runs_gets. cbn [id]. cbv zeta. set (gex := ac_g_ex (al_ac s)) in *. set (g := fe_group gex) in *. pose proof (cx_goal _ _ _ (w_ctx _ W)) as Hgl. fold gex in Hgl.
  destruct (world_grp s g W Hgr) as (e & Hg & Hok). rstep. apply (look_info s g e); [done|].
  assert (H0 : runs (ret 0) s Q) by (apply runs_ret, HQ; [split; [done|right; split; [done|apply evolved_refl]]|done|done]).
  destruct (negb (has_flag _ _)); [done|]. destruct (bb_free (bd_info e) =? 0); [done|]. clear H0.
  rstep. apply (load_world s g e); [done|done|]. intros r s1 e2 W1 M1 Ea1 El1 Hg1 Hn2 _ He. assert (Er1 : asked (al_ac s1) = asked (al_ac s)) by congruence. destruct (Z.eqb_spec r 0) as [->|Hr]; cbn [negb].
  2: { apply runs_ret, HQ; [split; [done|by right]|intros _; exists g; by apply He|done]. }
  rstep. apply (look_info s1 g e2); [done|]. destruct (grp_corrupt (bd_info e2)); [apply runs_ret, HQ; [split; [done|by right]|done|done]|].
  rstep. apply (lock_world s1 g e2); [done|done|by apply Hn2|]. intros s2 e3 W2 M2 Ea2 El2 Hg2 Hok3 Hn3. pose proof Hok3 as [_ Hm3]. rewrite Hn3 in Hm3. assert (M02 : evolved s s2) by (by eapply evolved_trans).
  assert (Er2 : asked (al_ac s2) = asked (al_ac s)) by congruence.
  assert (Hno : runs (ret 0) s2 Q) by (apply runs_ret, HQ; [split; [done|by right]|done|intros _; congruence]).
  rstep. eapply (find_extent_look sbi s2 g e3); [done|done|done|]. intros ex Hex.
  assert (Htake : 0 < fe_len ex -> runs (found ;;; take_extent sbi g (ex <| fe_logical := 0xDEADFA11 |>)) s2 (fun _ s' => runs (ret 0) s' Q)).
  { intros Hl. destruct (free_at e3 (fe_start gex)) eqn:Ef; [|lia]. destruct Hex as [(X1 & X2 & X3 & X4 & _) X5]. rstep. apply runs_modify.
    eapply (take_extent_ok sbi _ g e3); [by apply grp_upd|done|exact (not_found sbi _ _ (w_ctx _ W2))|cbn; rewrite Ea2, Ea1; done|by destruct ex|destruct ex; cbn in *; lia|by destruct ex|destruct ex; cbn in *; intros x Hx; apply X4; lia|].
    intros s3 (R3 & _ & T3) F _ _. destruct T3 as [T3|(_ & C3 & _)]; [|by apply not_found in C3]. apply runs_ret, HQ; [|done|done]. split.
    - rewrite R3, <- Er2. by destruct s2 as [[] ? ? ? ? ? ?].
    - left. exists s2, g, e3. split_and!; [done|done|done|done|exact T3|apply W2]. }
  assert (Hsame : 0 < fe_len ex -> fe_group ex = g /\ fe_start ex = fe_start gex) by (intros Hl; destruct (free_at e3 (fe_start gex)); [|lia]; destruct Hex as [(X1 & _) X5]; done).
  replace (fe_len (ex <| fe_logical := 0xDEADFA11 |>)) with (fe_len ex) by (by destruct ex). replace (fe_group (ex <| fe_logical := 0xDEADFA11 |>)) with (fe_group ex) by (by destruct ex).
  replace (fe_start (ex <| fe_logical := 0xDEADFA11 |>)) with (fe_start ex) by (by destruct ex).
  assert (Hcheck : 0 < fe_len ex -> runs ((check (0 <? fe_len ex) BugOn ;;; check (fe_group ex =? g) BugOn ;;; check (fe_start ex =? fe_start gex) BugOn) ;;; found ;;;
    take_extent sbi g (ex <| fe_logical := 0xDEADFA11 |>)) s2 (fun _ s' => runs (ret 0) s' Q)).
  { intros Hl. destruct (Hsame Hl) as [S1 S2]. rstep. rstep. apply runs_check; [by apply Z.ltb_lt|]. rstep. apply runs_check; [by apply Z.eqb_eq|]. apply runs_check; [by apply Z.eqb_eq|]. by apply Htake. }
  rstep. destruct (Z.leb_spec (fe_len gex) (fe_len ex)); cbn [andb].
  - destruct (_ =? s_stripe tun); [|apply Hcheck; lia]. destruct (_ =? 0); [apply Htake; lia|by apply runs_ret].
  - destruct (Z.ltb_spec 0 (fe_len ex)); cbn [andb]; [|by apply runs_ret]. destruct (has_flag _ _); [by apply Hcheck|by apply runs_ret].
Qed.

(** ** The whole search *)

Lemma has_first f : has_flag (Z.lor f EXT4_MB_HINT_FIRST) EXT4_MB_HINT_FIRST = true.
Proof.
  unfold has_flag. apply negb_true_iff, Z.eqb_neq. intros E. apply Z.bits_inj_iff in E. specialize (E 3). rewrite Z.land_spec, Z.lor_spec, Z.bits_0 in E. change (Z.testbit EXT4_MB_HINT_FIRST 3) with true in E.
  by rewrite orb_true_r in E.
Qed.

(** The allocation is made, or nothing but time has passed. *)
Definition alloc_post (s s' : mb_alloc) : Prop := ac_g_ex (al_ac s') = ac_g_ex (al_ac s) /\ (got_extent s s' \/ world s' /\ evolved s s').

Lemma search_alloc s s1 s2 : ac_g_ex (al_ac s1) = ac_g_ex (al_ac s) -> evolved s s1 -> alloc_post s1 s2 -> alloc_post s s2.
Proof using I. intros E M (E2 & [A|[W M2]]); (split; [congruence|]); [left; by eapply got_evolved|right; split; [done|by eapply evolved_trans]]. Qed.

Lemma search_is_alloc s s' : search_post s s' -> alloc_post s s'.
Proof. intros (Er & H). unfold asked in Er. split; [congruence|done]. Qed.

(** A group that has free clusters is there, and nothing goes wrong. *)
Definition no_obstacle (s : mb_alloc) : Prop :=
  undisturbed /\ (forall g, load_err g = 0) /\ (forall g, init_err g = 0) /\ exists g0 e0, 0 <= g0 < ng /\ alive g0 e0 s.

Lemma world_reset s : world s ->
  world (s <| al_ac ::= fun a => a <| ac_b_ex ::= fun b => b <| fe_group := 0 |> <| fe_start := 0 |> <| fe_len := 0 |> |>
                                 <| ac_status := AC_STATUS_CONTINUE |> <| ac_flags ::= fun f => Z.lor f EXT4_MB_HINT_FIRST |> |>).
Proof.
  intros [W1 W2 W3 W4 W5]. destruct s as [[] ? ? ? ? ? ?]. cbn in *. split; cbn; [done|done| |intros Hb; cbn in Hb; lia|done].
  destruct W3 as [C1 C2 C3 [C4 _] C5]. cbn in *. split; cbn; [done|lia|lia|split; [done|]|by left]. rewrite has_first. done.
Qed.

Lemma search_loop_ok fuel s cr fe (Q : Z -> mb_alloc -> Prop) :
  world s -> 0 <= cr <= 3 -> (cr = 0 -> order_ok (al_ac s)) -> 0 <= fe_group (ac_g_ex (al_ac s)) ->
  (if has_flag (ac_flags (al_ac s)) EXT4_MB_HINT_FIRST then 1 <= fuel else 2 <= fuel)%nat ->
  (forall r s', alloc_post s s' -> (no_obstacle s -> r = 0 /\ got_extent s s') -> Q r s') ->
  runs (search_loop sbi tun load_err init_err others fuel cr fe) s Q.
Proof using G I Hscan Hstripe Hblocks Hinit Hng.
  revert s cr fe Q. induction fuel as [|fuel IH]; intros s cr fe Q W Hcr Hord Hgrp Hf HQ; [destruct (has_flag _ _); lia|]. cbn [search_loop].
  rstep. apply cr_loop_ok; [done|lia|done|done|lia|]. intros r s1 P1 _ P3 P4. destruct r as [err|fe1].
  { apply runs_ret, HQ; [by apply search_is_alloc|]. intros (_ & Hl & _). destruct (P3 err eq_refl) as (_ & g & Hg). by rewrite Hl in Hg. }
  rstep. apply runs_gets. cbn [id]. cbv zeta. pose proof P1 as (Er1 & Hcase). assert (Ea1 : ac_g_ex (al_ac s1) = ac_g_ex (al_ac s)) by (unfold asked in Er1; congruence).
  assert (Hout : forall s2 fe2, alloc_post s s2 -> (no_obstacle s -> got_extent s s2) ->
    runs (st <-- ac ac_status ;; ret (if negb (st =? AC_STATUS_FOUND) && negb (fe2 =? 0) then fe2 else 0)) s2 Q).
  { intros s2 fe2 P Hn. rstep. apply runs_gets, runs_ret, HQ; [done|]. intros Ho. split; [|by apply Hn]. by rewrite (found_not_continue _ _ (Hn Ho)). }
  destruct Hcase as [A|[W1 M1]].
  { rewrite (found_not_continue _ _ A). rewrite Z.eqb_refl, andb_false_r. apply Hout; [by apply search_is_alloc|done]. }
  assert (Hpr : no_obstacle s -> 0 < fe_len (ac_b_ex (al_ac s1))).
  { intros (_ & Hl & Hi & g0 & e0 & Hg0 & Ha). destruct (P4 ltac:(lia) g0 e0 eq_refl Ha (fun g => conj (Hl g) (Hi g)) Hg0) as [Hfd|Hb]; [|done]. by eapply not_found in Hfd; [|apply W1]. }
  assert (Hnf : (ac_status (al_ac s1) =? AC_STATUS_FOUND) = false) by (apply Z.eqb_neq; eapply not_found, W1). rewrite Hnf. cbn [negb]. rewrite andb_true_r.
  destruct ((0 <? fe_len (ac_b_ex (al_ac s1))) && _) eqn:Eb.
  - apply andb_true_iff in Eb as [Eb%Z.ltb_lt Efl%negb_true_iff]. rstep. apply try_best_ok; [done|done|]. intros r2 s2 P2 Hbest. assert (P02 : search_post s s2) by (by eapply search_trans).
    rstep. apply runs_gets. destruct (Z.eqb_spec (ac_status (al_ac s2)) AC_STATUS_FOUND) as [Hfd|Hfd]; cbn [negb].
    { apply Hout; [by apply search_is_alloc|]. intros _. destruct P02 as (_ & [A|[W2 _]]); [done|]. by eapply not_found in Hfd; [|apply W2]. }
    destruct P02 as (Er2 & [A|[W2 M2]]); [by rewrite (found_not_continue _ _ A) in Hfd|].
    rstep. apply runs_modify. rstep. apply runs_modify. set (s3 := _ <| s_mb_lost_chunks ::= _ |>). assert (W3 : world s3) by (apply (world_same (s2 <| al_ac ::= fun a => a <| ac_b_ex ::= fun b => b <| fe_group := 0 |> <| fe_start := 0 |> <| fe_len := 0 |> |>
      <| ac_status := AC_STATUS_CONTINUE |> <| ac_flags ::= fun f => Z.lor f EXT4_MB_HINT_FIRST |> |>)); [done..|by apply world_reset]).
    assert (Eg3 : ac_g_ex (al_ac s3) = ac_g_ex (al_ac s)) by (transitivity (ac_g_ex (al_ac s2)); [done|unfold asked in Er2; congruence]).
    assert (Ef0 : has_flag (ac_flags (al_ac s)) EXT4_MB_HINT_FIRST = false) by (unfold asked in Er1; by replace (ac_flags (al_ac s)) with (ac_flags (al_ac s1)) by congruence).
    rewrite Ef0 in Hf. assert (M3 : evolved s s3) by exact M2. apply (IH s3); [done|lia|lia|by rewrite Eg3|unfold s3; cbn; rewrite has_first; lia|]. intros r4 s4 P4' _. apply HQ; [by eapply search_alloc|].
    intros Ho. exfalso. destruct Ho as (Hu & Hl & _). destruct (Hbest Hu Hl) as (x1 & x2 & x3 & A). apply Hfd. eapply found_not_continue. by exists x1, x2, x3.
  - apply Hout; [by apply search_is_alloc|]. intros Ho. exfalso. specialize (Hpr Ho). rewrite (proj2 (Z.ltb_lt 0 _)) in Eb by done. cbn in Eb. apply negb_false_iff in Eb.
    pose proof (w_first _ W1 Eb). lia.
Qed.

Lemma order2_ok len : 0 < len -> order2 sbi tun len <> 0 -> 1 <= order2 sbi tun len <= top /\ len <= 2 ^ order2 sbi tun len.
Proof.
  intros Hlen. unfold order2. cbv zeta. destruct (_ && _) eqn:E; [|done]. apply andb_true_iff in E as [[_ E1%Z.leb_le]%andb_true_iff E2%Z.eqb_eq]. intros Hne.
  assert (Ef : fls len = Z.log2 len + 1) by (unfold fls; by rewrite (proj2 (Z.leb_gt len 0)) by lia). rewrite Ef in *. rewrite Z.add_simpl_r in *. pose proof (Z.log2_nonneg len). split; [lia|].
  rewrite <- Z.ldiff_land, Z.shiftl_1_l in E2. apply Z.ldiff_le in E2; [lia|]. apply Z.pow_nonneg. lia.
Qed.

Lemma regular_ok s (Q : Z -> mb_alloc -> Prop) :
  world s -> 0 <= fe_group (ac_g_ex (al_ac s)) < s_groups_count sbi -> 0 <= fe_start (ac_g_ex (al_ac s)) < clusters -> 0 <= s_mb_last_group s ->
  (forall r s', fe_len (ac_g_ex (al_ac s')) = fe_len (ac_g_ex (al_ac s)) -> got_extent s s' \/ world s' /\ evolved s s' ->
     (has_flag (ac_flags (al_ac s)) EXT4_MB_HINT_GOAL_ONLY = false -> no_obstacle s -> r = 0 /\ got_extent s s') -> Q r s') ->
  runs (ext4_mb_regular_allocator sbi tun load_err init_err others) s Q.
Proof using G I Hscan Hstripe Hblocks Hinit Hng.
  intros W Hgr Hgs Hlast HQ. unfold ext4_mb_regular_allocator. rstep. apply runs_gets. cbn [id]. rstep. apply runs_check; [apply negb_true_iff, Z.eqb_neq; eapply not_found, W|].
  rstep. apply find_by_goal_ok; [done|done|done|]. intros r s1 P1 Herr Hl1. rstep. apply runs_gets. cbn [id]. pose proof P1 as (Er1 & Hcase). assert (Eg1 : ac_g_ex (al_ac s1) = ac_g_ex (al_ac s)) by (unfold asked in Er1; congruence).
  assert (Ef1 : ac_flags (al_ac s1) = ac_flags (al_ac s)) by (unfold asked in Er1; congruence).
  destruct (Z.eqb_spec r 0) as [->|Hr]; cbn [negb].
  2: { apply runs_ret, HQ; [by rewrite Eg1|done|]. intros _ (_ & Hl & Hi & _). destruct (Herr Hr) as (g & [Hg|Hg]); [by rewrite Hl in Hg|by rewrite Hi in Hg]. }
  destruct Hcase as [A|[W1 M1]].
  { rewrite (found_not_continue _ _ A). rewrite Z.eqb_refl. cbn [orb]. apply runs_ret, HQ; [by rewrite Eg1|by left|done]. }
  assert (Hnf : ac_status (al_ac s1) <> AC_STATUS_FOUND) by (eapply not_found, W1). rewrite (proj2 (Z.eqb_neq _ _)) by done. cbn [orb]. rewrite Ef1.
  destruct (has_flag (ac_flags (al_ac s)) EXT4_MB_HINT_GOAL_ONLY); [apply runs_ret, HQ; [by rewrite Eg1|by right|done]|].
  rstep. apply runs_modify. set (s2 := s1 <| al_ac ::= _ |>). rstep.
  apply runs_conseq with (P := fun _ s3 => world s3 /\ evolved s1 s3 /\ fe_len (ac_g_ex (al_ac s3)) = fe_len (ac_g_ex (al_ac s)) /\ 0 <= fe_group (ac_g_ex (al_ac s3)) /\ ac_2order (al_ac s3) = order2 sbi tun (fe_len (ac_g_ex (al_ac s)))).
  { assert (W2 : world s2) by (by apply (world_same s1)). assert (E2 : ac_2order (al_ac s2) = order2 sbi tun (fe_len (ac_g_ex (al_ac s)))) by (rewrite <- Eg1; done).
    destruct (has_flag _ _).
    - rstep. apply runs_gets, runs_modify. cbn [id]. split_and!; [apply (world_same s2); try done|exact (evolved_refl s1)|by rewrite <- Eg1|cbn; rewrite Hl1 by done; done|done].
    - apply runs_ret. split_and!; [done|exact (evolved_refl s1)|by rewrite <- Eg1|cbn; rewrite Eg1; lia|done]. }
  intros [] s3 (W3 & M3 & E3 & E4 & E5). assert (M03 : evolved s s3) by (by eapply evolved_trans). rstep. apply runs_gets. rewrite E5. pose proof (cx_goal _ _ _ (w_ctx _ W)) as Hgl.
  apply search_loop_ok; [done|destruct (_ =? 0); cbn; lia| |done|destruct (has_flag _ _); lia|].
  - intros Hc. destruct (Z.eqb_spec (order2 sbi tun (fe_len (ac_g_ex (al_ac s)))) 0) as [|Hne]; [done|]. unfold order_ok. rewrite E5, E3. by apply order2_ok.
  - intros r s4 (Eg4 & Hcase) Hsure. apply HQ; [congruence|destruct Hcase as [A|[W4 M4]]; [left; by eapply got_evolved|right; split; [done|by eapply evolved_trans]]|].
    intros _ (Hu & Hl & Hi & g0 & e0 & Hg0 & Ha). destruct Hsure as [-> A]; [|split; [done|by eapply got_evolved]]. split_and!; [done|done|done|]. exists g0, e0. split; [done|by eapply alive_evolved].
Qed.
End search.
