(* ===== verification/BuddyAllocTheorems.v ===== *)
(** * mqfs: properties of the regular allocator

    What it takes was free when the lock of the group was taken, whatever other
    tasks do to the groups in between; and when it runs alone, it finds
    something as long as there is anything. *)

From S2P Require Import Prelude BlockGroup Buddy BuddyChunks BuddyBits BuddyFacts BuddyGenerate BuddyUse BuddyTheorems BuddyAlloc BuddyAllocFacts BuddySearch.

(** The settings of a mounted file system; errors are negative. *)
Record alloc_config (sbi : ext4_sb_info) (tun : mb_tunables) (load_err init_err : Z -> Z) : Prop := mk_alloc_config {
  ag_scan : 0 <= s_mb_max_to_scan tun;
  ag_stripe : 0 <= s_stripe tun;
  ag_load g : load_err g <= 0;
  ag_init g : init_err g <= 0;
  ag_blocks g : 0 <= g < s_groups_count sbi -> 0 <= ext4_group_first_block_no sbi g /\ ext4_group_first_block_no sbi g + s_stripe tun <= 2 ^ 64;
  ag_groups : 0 < mb_ngroups sbi tun <= s_groups_count sbi;
}.

(** A request as [ext4_mb_initialize_context] and [ext4_mb_normalize_request]
    leave it: nothing has been found, and the goal is a cluster of a group. *)
Record start_ok (sbi : ext4_sb_info) (s : mb_alloc) : Prop := mk_start_ok {
  st_groups i e : al_groups s !! i = Some e -> grp_ok sbi e;
  st_count : Z.of_nat (length (al_groups s)) = s_groups_count sbi;
  st_status : ac_status (al_ac s) = AC_STATUS_CONTINUE;
  st_found : ac_found (al_ac s) = 0;
  st_best : fe_len (ac_b_ex (al_ac s)) = 0;
  st_len : 0 < fe_len (ac_g_ex (al_ac s));
  st_group : 0 <= fe_group (ac_g_ex (al_ac s)) < s_groups_count sbi;
  st_start : 0 <= fe_start (ac_g_ex (al_ac s)) < s_clusters_per_group sbi;
  st_last : 0 <= s_mb_last_group s;
}.

Lemma start_world sbi R s : start_ok sbi s -> world sbi R s.
Proof.
  intros [S1 S2 S3 S4 S5 S6 S7 S8 S9]. split; [done|done| |intros Hb; lia|done]. split; [done|lia|lia|split; [lia|by rewrite S4]|by left].
Qed.

(** ** Other tasks *)

(** They leave groups in order and buddies built. *)
Definition considerate (sbi : ext4_sb_info) (others : nat -> Z -> ext4_buddy -> ext4_buddy) : Prop :=
  forall k g e, (grp_ok sbi e -> grp_ok sbi (others k g e)) /\ (grp_need_init (bd_info e) = false -> grp_need_init (bd_info (others k g e)) = false).

Definition keeps_order (sbi : ext4_sb_info) (e e' : ext4_buddy) : Prop :=
  (grp_ok sbi e -> grp_ok sbi e') /\ (grp_need_init (bd_info e) = false -> grp_need_init (bd_info e') = false).

Lemma any_others sbi others : considerate sbi others -> interference sbi others (keeps_order sbi).
Proof.
  intros Hc. split; [done|intros e1 e2 e3 [A1 A2] [B1 B2]; split; auto| |intros k g e; apply Hc|intros k g e _; apply Hc|intros e e' [_ H]; done].
  intros e e' _ (H1 & H2 & H3 & _). done.
Qed.

Definition nobody : nat -> Z -> ext4_buddy -> ext4_buddy := fun _ _ e => e.
Definition only_built (sbi : ext4_sb_info) (e e' : ext4_buddy) : Prop := e' = e \/ init_step sbi e e'.

#[export] Instance alone sbi : interference sbi nobody (only_built sbi).
Proof.
  split; [by left| |by right|done|by left|].
  - intros e1 e2 e3 [->|H1] [->|H2]; [by left|by right|by right|]. destruct H1 as (_ & ? & _), H2 as (? & _). congruence.
  - intros e e' [->|(Hn & _)] Hb; [done|congruence].
Qed.

Section theorems.
Context (sbi : ext4_sb_info) {G : mb_geo sbi} (tun : mb_tunables) (load_err init_err : Z -> Z).
Context (cfg : alloc_config sbi tun load_err init_err).

(** The extent of the context was free in group [e] of the time, and is taken
    from it alone. *)
Definition took_extent (e : ext4_buddy) (s' : mb_alloc) : Prop :=
  let b := ac_b_ex (al_ac s') in
  ac_f_ex (al_ac s') = b /\ 0 <= fe_start b /\ 0 < fe_len b <= fe_len (ac_g_ex (al_ac s')) /\
  (forall x, fe_start b <= x < fe_start b + fe_len b -> free_at e x = true) /\
  exists e', grp s' (fe_group b) e' /\ mb_ok sbi e' /\ forall x, free_at e' x = used (free_at e) (fe_start b) (fe_start b + fe_len b) x.

Lemma got_took R s s' : got_extent sbi R s s' ->
  ac_status (al_ac s') = AC_STATUS_FOUND /\ (forall i x, al_groups s' !! i = Some x -> grp_ok sbi x) /\ exists e, grp_ok sbi e /\ took_extent e s'.
Proof.
  intros (s1 & g & e & _ & Hg & [Hb Hm] & Hn & (e' & E1 & E2 & E3 & E4 & E5 & E6 & E7 & E8 & E9 & E10) & Hall). rewrite Hn in Hm.
  assert (Hn' : grp_need_init (bd_info e') = false) by (unfold mb_frame in E3; congruence). destruct Hg as [Hg0 Hg].
  split; [done|split; [|exists e; split; [split; [done|by rewrite Hn]|]]].
  - intros i x. rewrite E1. intros [[_ [<- _]]|[_ Hx]]%list_lookup_insert_Some; [|by eapply Hall]. split; [|by rewrite Hn']. intros x' Hx'. rewrite E10 in Hx'. apply used_true in Hx' as [Hx' _]. by apply Hb.
  - unfold took_extent. split_and!; [done|done|lia|lia|done|]. exists e'. rewrite E6. split_and!; [split; [done|]|done|done]. rewrite E1. apply list_lookup_insert_eq. by eapply lookup_lt_Some.
Qed.

(** C29: The regular allocator returns, whatever the request and its hints, however
    loading groups fails, and whatever other tasks do to a group before its lock
    is taken, as long as they leave it in order.  No assertion of the code is
    violated, every group is in order afterwards, and when an extent is found,
    its clusters were free in the group when it was locked, it is not longer than
    asked for, and exactly these clusters are no longer free. *)
Theorem allocator_takes_free_extent others s :
  considerate sbi others -> start_ok sbi s ->
  runs (ext4_mb_regular_allocator sbi tun load_err init_err others) s (fun _ s' =>
    (forall i e, al_groups s' !! i = Some e -> grp_ok sbi e) /\ fe_len (ac_g_ex (al_ac s')) = fe_len (ac_g_ex (al_ac s)) /\
    (ac_status (al_ac s') = AC_STATUS_FOUND -> exists e, grp_ok sbi e /\ took_extent e s')).
Proof using G cfg.
  intros Ho S. destruct cfg as [C1 C2 C3 C4 C5 C6]. pose proof (any_others sbi others Ho) as Hi.
  apply (regular_ok sbi tun load_err init_err others (keeps_order sbi)); try done; [by apply start_world|apply S|apply S|apply S|]. intros r s' E [A|[W _]] _.
  - apply got_took in A as (A1 & A2 & A3). done.
  - split_and!; [apply W|done|]. intros Hf. by eapply not_found in Hf; [|apply W].
Qed.

(** C30: When no other task interferes and no group fails to load, the regular
    allocator finds an extent whenever any group it may use has a free cluster
    and is not marked as corrupt, unless it was told to try the goal only; the
    free clusters of all groups are as before without the extent.  Of a group
    whose buddy is not built yet, the count of free clusters has to agree with
    its bitmap: otherwise building it marks the group as corrupt. *)
Theorem allocator_finds_space s g0 e0 :
  start_ok sbi s -> (forall g, load_err g = 0) -> (forall g, init_err g = 0) -> has_flag (ac_flags (al_ac s)) EXT4_MB_HINT_GOAL_ONLY = false ->
  0 <= g0 < mb_ngroups sbi tun -> grp s g0 e0 -> live sbi e0 ->
  runs (ext4_mb_regular_allocator sbi tun load_err init_err nobody) s (fun r s' =>
    r = 0 /\ ac_status (al_ac s') = AC_STATUS_FOUND /\ exists e, grp s (fe_group (ac_b_ex (al_ac s'))) e /\ took_extent e s' /\
      forall g x, grp s g x -> g <> fe_group (ac_b_ex (al_ac s')) -> exists x', grp s' g x' /\ forall b, free_at x' b = free_at x b).
Proof using G cfg.
  intros S Hl Hi Hflag Hg0 Hg Hlive. destruct cfg as [C1 C2 C3 C4 C5 C6].
  assert (Hfree : forall e e', only_built sbi e e' -> forall b, free_at e' b = free_at e b) by (intros e e' [->|(_ & _ & _ & H & _)]; done).
  apply (regular_ok sbi tun load_err init_err nobody (only_built sbi)); try done; [by apply start_world|apply S|apply S|apply S|]. intros r s' E _ Hsure. destruct Hsure as [-> A].
  - done.
  - split_and!; [intros e e' b HR Hb; by rewrite (Hfree _ _ HR)|done|done|]. exists g0, e0. split; [done|]. split; [|exists e0; split; [done|by left]]. intros e [->|(_ & _ & _ & _ & H)]; [done|by apply H].
  - pose proof (got_took _ _ _ A) as (A1 & _ & _). destruct A as (s1 & g & e & M & Hge & Hok & Hn & (e' & T) & _). cbv zeta in T. destruct T as (T1 & T2 & T3 & T4 & T5 & T6 & T7 & T8 & T9 & T10).
    split_and!; [done|done|]. rewrite T6. destruct (lookup_lt_is_Some_2 (al_groups s) (Z.to_nat g)) as [x0 Hx0].
    { destruct M as [ML _]. rewrite <- ML. eapply lookup_lt_Some, Hge. }
    assert (Hg1 : grp s g x0) by (split; [apply Hge|done]). exists x0. split; [done|]. destruct (grp_evolved _ _ _ _ _ M Hg1) as (x1 & [_ Hx1] & HR). destruct Hge as [Hge0 Hge]. assert (x1 = e) as -> by congruence.
    pose proof (Hfree _ _ HR) as Hsame. split.
    + unfold took_extent. rewrite T6. split_and!; [done|done|lia|lia|intros x Hx; rewrite <- Hsame; by apply T9|]. exists e'. split_and!; [split; [done|]|done|intros x; rewrite T10; unfold used; by rewrite Hsame].
      rewrite T1. apply list_lookup_insert_eq. by eapply lookup_lt_Some.
    + intros g' x Hgx Hne. destruct (grp_evolved _ _ _ _ _ M Hgx) as (x' & [Hg'0 Hx'] & HR'). exists x'. split; [|by apply Hfree]. split; [done|]. rewrite T1. rewrite list_lookup_insert_ne; [done|]. destruct Hgx. lia.
Qed.
End theorems.

(** ** Three groups

    Group 0 is full, group 1 is the small group above, group 2 has the same
    bitmap but no buddy yet.  While the allocator is on its way to group 1,
    somebody else takes seven clusters there. *)

Definition buddy_full : ext4_buddy :=
  match mb_init_cache_buddy sbi3 (mk_e4b (replicate 64 true) [] (mk_mgi true false 0 0 0 0 [0; 0; 0; 0; 0]) 0 0 []) with Ret _ e => e | _ => buddy0 end.
Definition buddy2 : ext4_buddy := match mb_mark_used sbi3 1 (mk_ex 0 17 1 7) buddy1 with Ret _ e => e | _ => buddy1 end.
Definition others0 (k : nat) (g : Z) (e : ext4_buddy) : ext4_buddy := if (k =? 0)%nat && (g =? 1) then buddy2 else e.
Definition tun0 : mb_tunables := mk_tun 200 10 2 0 false 3 true.
Definition alloc0 : mb_alloc := mk_alloc (mk_ac (mk_ex 0 20 0 20) no_extent no_extent 0 0 0 0 0x20 1 0 0) [buddy_full; buddy1; buddy0] 0 0 0 0 0.

Lemma built_ok e : grp_need_init (bd_info e) = false -> mb_ok sbi3 e -> forallb id (drop 60 (bd_bitmap e)) = true -> grp_ok sbi3 e.
Proof. intros Hn Hok Hb. split; [exact (free_below_check e 60 ltac:(done) Hb)|by rewrite Hn]. Qed.

Lemma full_ok : grp_ok sbi3 buddy_full.
Proof.
  apply built_ok; [vm_compute; done| |vm_compute; done].
  apply (after_run (mb_init_cache_buddy sbi3) (mk_e4b (replicate 64 true) [] (mk_mgi true false 0 0 0 0 [0; 0; 0; 0; 0]) 0 0 []) buddy0 (mb_ok sbi3)), (init_cache_ok sbi3); [vm_compute; done| |].
  - apply (free_below_check _ 60); vm_compute; done.
  - intros e' I _. by apply (mb_inv_ok sbi3) in I as [I _].
Qed.

Lemma buddy1_ok : grp_ok sbi3 buddy1.
Proof. apply built_ok; [vm_compute; done|apply ok1|vm_compute; done]. Qed.

Lemma buddy2_ok : grp_ok sbi3 buddy2.
Proof.
  apply built_ok; [vm_compute; done| |vm_compute; done].
  apply (after_run (mb_mark_used sbi3 1 (mk_ex 0 17 1 7)) buddy1 buddy1 (mb_ok sbi3)), (mark_used_ok sbi3 1 (free_at buddy1)); [apply ok1|done|cbn; lia|cbn; lia|vm_compute; done| |].
  - apply range_check. vm_compute. done.
  - intros r e' I _. by apply (mb_inv_ok sbi3) in I as [I _].
Qed.

Lemma buddy0_ok : grp_ok sbi3 buddy0.
Proof. split; [exact below0|vm_compute; done]. Qed.

Lemma others0_considerate : considerate sbi3 others0.
Proof. intros k g e. unfold others0. destruct (_ && _); [|done]. split; intros _; [apply buddy2_ok|vm_compute; done]. Qed.

Lemma cfg0 : alloc_config sbi3 tun0 (fun _ => 0) (fun _ => 0).
Proof.
  split; [done|done|done|done| |vm_compute; done]. intros g Hg. change (s_groups_count sbi3) with 3 in Hg.
  assert (g = 0 \/ g = 1 \/ g = 2) as [->|[->| ->]] by lia; vm_compute; (split; [done|done]).
Qed.

Lemma start0 : start_ok sbi3 alloc0.
Proof.
  split; try done. intros i e E. apply list_elem_of_lookup_2 in E. change (al_groups alloc0) with [buddy_full; buddy1; buddy0] in E.
  rewrite !elem_of_cons, elem_of_nil in E. destruct E as [->|[->|[->|[]]]]; [apply full_ok|apply buddy1_ok|apply buddy0_ok].
Qed.

Lemma allocator_takes_free_extent_witness :
  runs (ext4_mb_regular_allocator sbi3 tun0 (fun _ => 0) (fun _ => 0) others0) alloc0 (fun _ s' =>
    (forall i e, al_groups s' !! i = Some e -> grp_ok sbi3 e) /\ fe_len (ac_g_ex (al_ac s')) = fe_len (ac_g_ex (al_ac alloc0)) /\
    (ac_status (al_ac s') = AC_STATUS_FOUND -> exists e, grp_ok sbi3 e /\ took_extent sbi3 e s')).
Proof. apply (allocator_takes_free_extent sbi3 tun0 (fun _ => 0) (fun _ => 0) cfg0 others0 alloc0); [apply others0_considerate|apply start0]. Defined.

Lemma allocator_finds_space_witness :
  runs (ext4_mb_regular_allocator sbi3 tun0 (fun _ => 0) (fun _ => 0) nobody) alloc0 (fun r s' =>
    r = 0 /\ ac_status (al_ac s') = AC_STATUS_FOUND /\ exists e, grp alloc0 (fe_group (ac_b_ex (al_ac s'))) e /\ took_extent sbi3 e s' /\
      forall g x, grp alloc0 g x -> g <> fe_group (ac_b_ex (al_ac s')) -> exists x', grp s' g x' /\ forall b, free_at x' b = free_at x b).
Proof.
  apply (allocator_finds_space sbi3 tun0 (fun _ => 0) (fun _ => 0) cfg0 alloc0 1 buddy1); [apply start0|done|done|done|vm_compute; done|split; [lia|done]|vm_compute; done].
Defined.

(** Twenty clusters come from the free run that begins at 14 in group 1; when
    the other task has taken the ones from 17 on, from the same run of group 2,
    whose buddy is built on the way. *)
Example alloc_alone :
  match ext4_mb_regular_allocator sbi3 tun0 (fun _ => 0) (fun _ => 0) nobody alloc0 with
  | Ret r s => (r, ac_b_ex (al_ac s)) = (0, mk_ex 0 14 1 20) | _ => False end.
Proof. vm_compute. reflexivity. Qed.
Example alloc_raced :
  match ext4_mb_regular_allocator sbi3 tun0 (fun _ => 0) (fun _ => 0) others0 alloc0 with
  | Ret r s => (r, ac_b_ex (al_ac s)) = (0, mk_ex 0 14 2 20) | _ => False end.
Proof. vm_compute. reflexivity. Qed.
