(* ===== verification/Dirent.v ===== *)
(** * mqfs: directory blocks (hash.c, namei.c, dir.c)

    The state is a directory: the bytes of its blocks by logical number, and
    its inode.  A directory entry is the offset of its first byte in a block.
    Reads and writes outside a block fault.  mqfs has no journal and no
    encryption here; buffers are never given up, so their reference counts are
    left out. *)

From S2P Require Import Prelude.

(** ** The hash of a name (hash.c) *)

Definition DX_HASH_LEGACY : Z := 0.
Definition DX_HASH_HALF_MD4 : Z := 1.
Definition DX_HASH_TEA : Z := 2.
Definition DX_HASH_LEGACY_UNSIGNED : Z := 3.
Definition DX_HASH_HALF_MD4_UNSIGNED : Z := 4.
Definition DX_HASH_TEA_UNSIGNED : Z := 5.
Definition EXT4_HTREE_EOF_32BIT : Z := Z.shiftl 1 31 - 1.

Record dx_hash_info := mk_hinfo {
  hi_hash : Z;
  hi_minor_hash : Z;
  hi_hash_version : Z;
  hi_seed : list Z;
}.
#[export] Instance hinfo_eta : Eta dx_hash_info := fun h =>
  mk_hinfo (hi_hash h) (hi_minor_hash h) (hi_hash_version h) (hi_seed h).

(** The four words [buf] of the state. *)
Record hash_buf := mk_hbuf { hb0 : Z; hb1 : Z; hb2 : Z; hb3 : Z }.

Definition rol32 (x s : Z) : Z := Z.lor (u32 (Z.shiftl x s)) (Z.shiftr x (32 - s)).

(** ** TEA *)

Definition DELTA : Z := 0x9E3779B9.

Definition tea_round (a b c d : Z) (st : Z * Z * Z) : Z * Z * Z :=
  let '(sum, b0, b1) := st in
  let sum := u32 (sum + DELTA) in
  let b0 := u32 (b0 + Z.lxor (Z.lxor (u32 (u32 (Z.shiftl b1 4) + a)) (u32 (b1 + sum))) (u32 (Z.shiftr b1 5 + b))) in
  let b1 := u32 (b1 + Z.lxor (Z.lxor (u32 (u32 (Z.shiftl b0 4) + c)) (u32 (b0 + sum))) (u32 (Z.shiftr b0 5 + d))) in
  (sum, b0, b1).

Definition TEA_transform (buf : hash_buf) (in_ : list Z) : hash_buf :=
  let '(_, b0, b1) := Nat.iter 16 (tea_round (in_ !!! 0%nat) (in_ !!! 1%nat) (in_ !!! 2%nat) (in_ !!! 3%nat)) (0, hb0 buf, hb1 buf) in
  mk_hbuf (u32 (hb0 buf + b0)) (u32 (hb1 buf + b1)) (hb2 buf) (hb3 buf).

(** ** Half MD4 *)

Definition F (x y z : Z) : Z := Z.lxor z (Z.land x (Z.lxor y z)).
Definition G (x y z : Z) : Z := Z.land x y + Z.land (Z.lxor x y) z.
Definition H (x y z : Z) : Z := Z.lxor (Z.lxor x y) z.
Definition ROUND (f : Z -> Z -> Z -> Z) (a b c d x s : Z) : Z := rol32 (u32 (a + (f b c d + x))) s.
Definition K1 : Z := 0.
Definition K2 : Z := 0x5A827999.  (* 013240474631UL *)
Definition K3 : Z := 0x6ED9EBA1.  (* 015666365641UL *)

Definition half_md4_transform (buf : hash_buf) (in_ : list Z) : hash_buf :=
  let '(mk_hbuf a b c d) := buf in
  let a := ROUND F a b c d (in_ !!! 0%nat + K1) 3 in
  let d := ROUND F d a b c (in_ !!! 1%nat + K1) 7 in
  let c := ROUND F c d a b (in_ !!! 2%nat + K1) 11 in
  let b := ROUND F b c d a (in_ !!! 3%nat + K1) 19 in
  let a := ROUND F a b c d (in_ !!! 4%nat + K1) 3 in
  let d := ROUND F d a b c (in_ !!! 5%nat + K1) 7 in
  let c := ROUND F c d a b (in_ !!! 6%nat + K1) 11 in
  let b := ROUND F b c d a (in_ !!! 7%nat + K1) 19 in
  let a := ROUND G a b c d (in_ !!! 1%nat + K2) 3 in
  let d := ROUND G d a b c (in_ !!! 3%nat + K2) 5 in
  let c := ROUND G c d a b (in_ !!! 5%nat + K2) 9 in
  let b := ROUND G b c d a (in_ !!! 7%nat + K2) 13 in
  let a := ROUND G a b c d (in_ !!! 0%nat + K2) 3 in
  let d := ROUND G d a b c (in_ !!! 2%nat + K2) 5 in
  let c := ROUND G c d a b (in_ !!! 4%nat + K2) 9 in
  let b := ROUND G b c d a (in_ !!! 6%nat + K2) 13 in
  let a := ROUND H a b c d (in_ !!! 3%nat + K3) 3 in
  let d := ROUND H d a b c (in_ !!! 7%nat + K3) 9 in
  let c := ROUND H c d a b (in_ !!! 2%nat + K3) 11 in
  let b := ROUND H b c d a (in_ !!! 6%nat + K3) 15 in
  let a := ROUND H a b c d (in_ !!! 1%nat + K3) 3 in
  let d := ROUND H d a b c (in_ !!! 5%nat + K3) 9 in
  let c := ROUND H c d a b (in_ !!! 0%nat + K3) 11 in
  let b := ROUND H b c d a (in_ !!! 4%nat + K3) 15 in
  mk_hbuf (u32 (hb0 buf + a)) (u32 (hb1 buf + b)) (u32 (hb2 buf + c)) (u32 (hb3 buf + d)).

(** ** The legacy hash *)

(** The characters of a name as the variants read them. *)
Definition signed_char (c : Z) : Z := sext 8 c.
Definition unsigned_char (c : Z) : Z := wrap 8 c.

Definition hack_step (conv : Z -> Z) (h : Z * Z) (c : Z) : Z * Z :=
  let '(hash0, hash1) := h in
  let hash := u32 (hash1 + Z.lxor hash0 (u32 (conv c * 7152373))) in
  let hash := if negb (Z.land hash 0x80000000 =? 0) then u32 (hash - 0x7fffffff) else hash in
  (hash, hash0).

Definition dx_hack_hash (conv : Z -> Z) (name : list Z) : Z :=
  u32 (Z.shiftl (fold_left (hack_step conv) name (0x12a3fe2d, 0x37abe8f9)).1 1).
Definition dx_hack_hash_unsigned : list Z -> Z := dx_hack_hash unsigned_char.
Definition dx_hack_hash_signed : list Z -> Z := dx_hack_hash signed_char.

(** ** Words of a message *)

(** The loop over the characters: the words so far, the word begun, and how
    many words are still to be written. *)
Fixpoint hashbuf_loop (conv : Z -> Z) (pad : Z) (msg : list Z) (i val num : Z) (buf : list Z) : list Z :=
  match msg with
  | [] => buf ++ (if 0 <=? num - 1 then val :: replicate (Z.to_nat (num - 1)) pad else [])
  | c :: msg =>
      let val := u32 (conv c + u32 (Z.shiftl val 8)) in
      if i mod 4 =? 3 then hashbuf_loop conv pad msg (i + 1) pad (num - 1) (buf ++ [val])
      else hashbuf_loop conv pad msg (i + 1) val num buf
  end.

Definition str2hashbuf (conv : Z -> Z) (msg : list Z) (num : Z) : list Z :=
  let len := Z.of_nat (length msg) in
  let pad := Z.lor (u32 len) (u32 (Z.shiftl len 8)) in
  let pad := Z.lor pad (u32 (Z.shiftl pad 16)) in
  let len := if num * 4 <? len then num * 4 else len in
  hashbuf_loop conv pad (take (Z.to_nat len) msg) 0 pad num [].
Definition str2hashbuf_signed : list Z -> Z -> list Z := str2hashbuf signed_char.
Definition str2hashbuf_unsigned : list Z -> Z -> list Z := str2hashbuf unsigned_char.

(** [while (len > 0)], [4 * words] characters at a time. *)
Fixpoint hash_chunks (fuel : nat) (to_words : list Z -> Z -> list Z) (transform : hash_buf -> list Z -> hash_buf) (words : Z)
    (p : list Z) (buf : hash_buf) : hash_buf :=
  match fuel with
  | O => buf
  | S fuel =>
      match p with
      | [] => buf
      | _ => hash_chunks fuel to_words transform words (drop (Z.to_nat (4 * words)) p) (transform buf (to_words p words))
      end
  end.

(** ** The hash of a name *)

Definition default_buf : hash_buf := mk_hbuf 0x67452301 0xefcdab89 0x98badcfe 0x10325476.

Definition seed_buf (seed : list Z) : hash_buf :=
  if forallb (fun x => x =? 0) (take 4 seed) then default_buf
  else mk_hbuf (seed !!! 0%nat) (seed !!! 1%nat) (seed !!! 2%nat) (seed !!! 3%nat).

(** The hash and the minor hash by version, none for an unknown version. *)
Definition dirhash_words (version : Z) (name : list Z) (buf : hash_buf) : option (Z * Z) :=
  let md4 to_words := let b := hash_chunks (length name) to_words half_md4_transform 8 name buf in Some (hb1 b, hb2 b) in
  let tea to_words := let b := hash_chunks (length name) to_words TEA_transform 4 name buf in Some (hb0 b, hb1 b) in
  if version =? DX_HASH_LEGACY_UNSIGNED then Some (dx_hack_hash_unsigned name, 0)
  else if version =? DX_HASH_LEGACY then Some (dx_hack_hash_signed name, 0)
  else if version =? DX_HASH_HALF_MD4_UNSIGNED then md4 str2hashbuf_unsigned
  else if version =? DX_HASH_HALF_MD4 then md4 str2hashbuf_signed
  else if version =? DX_HASH_TEA_UNSIGNED then tea str2hashbuf_unsigned
  else if version =? DX_HASH_TEA then tea str2hashbuf_signed
  else None.

Definition ext4fs_dirhash (name : list Z) (hinfo : dx_hash_info) : Z * dx_hash_info :=
  match dirhash_words (hi_hash_version hinfo) name (seed_buf (hi_seed hinfo)) with
  | None => (-1, hinfo <| hi_hash := 0 |>)
  | Some (hash, minor_hash) =>
      let hash := Z.land hash (u32 (Z.lnot 1)) in
      let hash := if hash =? Z.shiftl EXT4_HTREE_EOF_32BIT 1 then Z.shiftl (EXT4_HTREE_EOF_32BIT - 1) 1 else hash in
      (0, hinfo <| hi_hash := hash |> <| hi_minor_hash := minor_hash |>)
  end.

(** ** Directory blocks (namei.c, dir.c) *)

Definition EXT4_FT_UNKNOWN : Z := 0.
Definition EXT4_FT_REG_FILE : Z := 1.
Definition EXT4_FT_DIR : Z := 2.
Definition EXT4_FT_CHRDEV : Z := 3.
Definition EXT4_FT_BLKDEV : Z := 4.
Definition EXT4_FT_FIFO : Z := 5.
Definition EXT4_FT_SOCK : Z := 6.
Definition EXT4_FT_SYMLINK : Z := 7.
Definition EXT4_FT_DIR_CSUM : Z := 0xDE.
Definition EXT4_NAME_LEN : Z := 255.
Definition sizeof_dir_entry_tail : Z := 12.
Definition S_IFMT : Z := 0xF000.
Definition S_IFDIR : Z := 0x4000.
Definition EIO : Z := 5.
Definition ENOENT : Z := 2.
Definition EEXIST : Z := 17.
Definition EINVAL : Z := 22.
Definition ENOSPC : Z := 28.
Definition EFSBADCRC : Z := 74.
Definition EFSCORRUPTED : Z := 117.
Definition ERR_BAD_DX_DIR : Z := - (4095 - 1).

(** ** State *)

(** The buffer of a block. *)
Record dir_bh := mk_dbh {
  db_data : list Z;
  db_verified : bool;
  db_dirty : bool;
}.
#[export] Instance dir_bh_eta : Eta dir_bh := fun b => mk_dbh (db_data b) (db_verified b) (db_dirty b).

(** The directory: its blocks, and the fields of its inode that are used. *)
Record dir_st := mk_dir {
  d_bufs : list dir_bh;
  d_size : Z;                    (* i_size *)
  d_index : bool;                (* EXT4_INODE_INDEX *)
  d_version : Z;                 (* i_version *)
  d_mtime : Z;                   (* i_mtime and i_ctime *)
  d_nlink : Z;
  d_dirty : bool;                (* ext4_mark_inode_dirty *)
  d_start_lookup : Z;            (* i_dir_start_lookup *)
  d_newentry : list Z;           (* inodes put into state EXT4_STATE_NEWENTRY *)
  d_errors : list Z;             (* errors reported, by the offset or block they name *)
}.
#[export] Instance dir_st_eta : Eta dir_st := fun d =>
  mk_dir (d_bufs d) (d_size d) (d_index d) (d_version d) (d_mtime d) (d_nlink d) (d_dirty d) (d_start_lookup d) (d_newentry d) (d_errors d).

(** What is fixed: the file system and the number of the directory. *)
Record dir_sb := mk_dsb {
  ds_blocksize : Z;
  ds_blocksize_bits : Z;
  ds_inodes_count : Z;
  ds_metadata_csum : bool;
  ds_filetype : bool;
  ds_dir_index : bool;
  ds_large_dir : bool;
  ds_hash_unsigned : Z;
  ds_hash_seed : list Z;
  ds_def_hash_version : Z;
  ds_max_dir_size_kb : Z;
  ds_ino : Z;                    (* i_ino of the directory *)
  ds_needs_sync : bool;          (* inode_needs_sync *)
  ds_now : Z;                    (* current_time *)
}.

(** The inode an entry names. *)
Record dir_inode := mk_dino { i_ino : Z; i_mode : Z }.

(** The comparison of names of fscrypt, the checksums, and the block layer:
    whether the write of a synchronous directory fails; the error of allocating
    a block, or 0, and what the new block of some size holds; the error of
    finding a block, or 0, and whether reading it fails. *)
Class DirApi := {
  fscrypt_match_name : list Z -> list Z -> bool;
  ext4_chksum : Z -> list Z -> Z;
  i_csum_seed : Z;
  sync_fails : Z -> bool;
  create_err : Z -> Z;
  fresh_block : Z -> Z -> list Z;
  getblk_err : Z -> Z;
  read_fails : Z -> bool;
}.
Class DirLaws `{DirApi} := {
  match_name_law n m : fscrypt_match_name n m = true <-> n = m;
  fresh_law size b : Z.of_nat (length (fresh_block size b)) = Z.max 0 size /\ Forall (fun x => 0 <= x < 256) (fresh_block size b);
  create_err_law b : ERR_BAD_DX_DIR < create_err b <= 0;
  getblk_err_law b : ERR_BAD_DX_DIR < getblk_err b <= 0;
}.

(** ** Bytes *)

Fixpoint le_get (l : list Z) : Z := match l with [] => 0 | b :: l => b + 256 * le_get l end.
Fixpoint le_put (n : nat) (v : Z) : list Z := match n with O => [] | S n => v mod 256 :: le_put n (v / 256) end.

Definition buf_at (bh : Z) (d : dir_st) : option dir_bh := if bh <? 0 then None else d_bufs d !! Z.to_nat bh.

Definition with_buf (bh : Z) (f : dir_bh -> dir_bh) : M dir_st unit := fun d =>
  match buf_at bh d with
  | None => Oops OutOfBounds
  | Some _ => Ret tt (d <| d_bufs ::= alter f (Z.to_nat bh) |>)
  end.

Definition read_bytes (bh off n : Z) : M dir_st (list Z) := fun d =>
  match buf_at bh d with
  | None => Oops OutOfBounds
  | Some b =>
      if (0 <=? off) && (0 <=? n) && (off + n <=? Z.of_nat (length (db_data b)))
      then Ret (take (Z.to_nat n) (drop (Z.to_nat off) (db_data b))) d else Oops OutOfBounds
  end.

Definition write_bytes (bh off : Z) (l : list Z) : M dir_st unit :=
  _ <-- read_bytes bh off (Z.of_nat (length l)) ;;
  with_buf bh (fun b => b <| db_data ::= list_inserts (Z.to_nat off) l |>).

Definition read_le (n : nat) (bh off : Z) : M dir_st Z := l <-- read_bytes bh off (Z.of_nat n) ;; ret (le_get l).
Definition write_le (n : nat) (bh off v : Z) : M dir_st unit := write_bytes bh off (le_put n v).

(** The fields of [struct ext4_dir_entry_2]. *)
Definition de_inode (bh de : Z) : M dir_st Z := read_le 4 bh de.
Definition de_rec_len (bh de : Z) : M dir_st Z := read_le 2 bh (de + 4).
Definition de_name_len (bh de : Z) : M dir_st Z := read_le 1 bh (de + 6).
Definition de_name (bh de n : Z) : M dir_st (list Z) := read_bytes bh (de + 8) n.
Definition set_de_inode (bh de v : Z) : M dir_st unit := write_le 4 bh de v.
Definition set_de_rec_len (bh de v : Z) : M dir_st unit := write_le 2 bh (de + 4) v.
Definition set_de_name_len (bh de v : Z) : M dir_st unit := write_le 1 bh (de + 6) v.
Definition set_de_file_type (bh de v : Z) : M dir_st unit := write_le 1 bh (de + 7) v.
Definition set_de_name (bh de : Z) (l : list Z) : M dir_st unit := write_bytes bh (de + 8) l.

Definition EXT4_DIR_REC_LEN (name_len : Z) : Z := Z.land (name_len + 8 + 3) (Z.lnot 3).

(** Pages are smaller than 64 KB: the length on disk is the length. *)
Definition ext4_rec_len_from_disk (dlen : Z) : Z := dlen.
Definition ext4_rec_len_to_disk (len blocksize : Z) : M dir_st Z :=
  check (negb ((blocksize <? u32 len) || (Z.shiftl 1 18 <? blocksize) || negb (Z.land len 3 =? 0))) BugOn ;;; ret (wrap 16 len).

Definition ext4_error_dir (what : Z) : M dir_st unit := modify (fun d => d <| d_errors ::= (.++ [what]) |>).

Section dir.
Context `{DirApi} (sb : dir_sb).
#[local] Abbreviation blocksize := (ds_blocksize sb).

Definition csum_size : Z := if ds_metadata_csum sb then sizeof_dir_entry_tail else 0.
Definition is_dx (d : dir_st) : bool := ds_dir_index sb && d_index d.

Definition rec_len (bh de : Z) : M dir_st Z := l <-- de_rec_len bh de ;; ret (ext4_rec_len_from_disk l).
Definition set_rec_len (bh de len bsize : Z) : M dir_st unit := l <-- ext4_rec_len_to_disk len bsize ;; set_de_rec_len bh de l.

Definition ext4_next_entry (bh p : Z) : M dir_st Z := l <-- rec_len bh p ;; ret (p + l).

(** ** Checking and matching *)

Definition ext4_check_dir_entry (bh de size offset : Z) : M dir_st Z :=
  rlen <-- rec_len bh de ;;
  name_len <-- de_name_len bh de ;;
  inode <-- de_inode bh de ;;
  if (rlen <? EXT4_DIR_REC_LEN 1) || negb (rlen mod 4 =? 0) || (rlen <? EXT4_DIR_REC_LEN name_len)
     || (size <? de + rlen) || (ds_inodes_count sb <? inode)
  then ext4_error_dir offset ;;; ret 1 else ret 0.

Definition ext4_match (fname : list Z) (bh de : Z) : M dir_st bool :=
  inode <-- de_inode bh de ;;
  if inode =? 0 then ret false
  else name_len <-- de_name_len bh de ;; name <-- de_name bh de name_len ;; ret (fscrypt_match_name fname name).

(** ** Searching a block: the result, and the entry found. *)

Fixpoint search_loop (fuel : nat) (bh : Z) (fname : list Z) (dlimit de offset : Z) : M dir_st (Z * option Z) :=
  match fuel with
  | O => stall
  | S fuel =>
      if de <? dlimit then
        name_len <-- de_name_len bh de ;;
        m <-- (if de + name_len <=? dlimit then ext4_match fname bh de else ret false) ;;
        if m : bool then
          bad <-- ext4_check_dir_entry bh de blocksize offset ;;
          if negb (bad =? 0) then ret (-1, None) else ret (1, Some de)
        else
          de_len <-- rec_len bh de ;;
          if de_len <=? 0 then ret (-1, None)
          else search_loop fuel bh fname dlimit (de + de_len) (u32 (offset + de_len))
      else ret (0, None)
  end.
Definition ext4_search_dir (bh buf_size : Z) (fname : list Z) (offset : Z) : M dir_st (Z * option Z) :=
  search_loop (S (Z.to_nat buf_size)) bh fname buf_size 0 offset.
Definition search_dirblock (bh : Z) (fname : list Z) (offset : Z) : M dir_st (Z * option Z) :=
  ext4_search_dir bh blocksize fname offset.

(** ** Room for a new entry *)

Fixpoint dest_loop (fuel : nat) (bh buf_size : Z) (fname : list Z) (reclen de offset : Z) : M dir_st (Z + Z) :=
  match fuel with
  | O => stall
  | S fuel =>
      if de <=? buf_size - reclen then
        bad <-- ext4_check_dir_entry bh de buf_size offset ;;
        if negb (bad =? 0) then ret (inl (- EFSCORRUPTED))
        else
          m <-- ext4_match fname bh de ;;
          if m : bool then ret (inl (- EEXIST))
          else
            name_len <-- de_name_len bh de ;;
            rlen <-- rec_len bh de ;;
            inode <-- de_inode bh de ;;
            if reclen <=? (if inode =? 0 then rlen else rlen - EXT4_DIR_REC_LEN name_len) then ret (inr de)
            else dest_loop fuel bh buf_size fname reclen (de + rlen) (u32 (offset + rlen))
      else ret (inr de)
  end.
(** The entry with room, or the error. *)
Definition ext4_find_dest_de (bh buf_size : Z) (fname : list Z) : M dir_st (Z + Z) :=
  let reclen := wrap 16 (EXT4_DIR_REC_LEN (Z.of_nat (length fname))) in
  r <-- dest_loop (S (Z.to_nat buf_size)) bh buf_size fname reclen 0 0 ;;
  match r with
  | inl err => ret (inl err)
  | inr de => ret (if buf_size - reclen <? de then inl (- ENOSPC) else inr de)
  end.

(** ** Writing entries *)

(** [ext4_type_by_mode], from the mode without its permissions. *)
Definition ext4_type_by_mode (fmt : Z) : Z :=
  if fmt =? 8 then EXT4_FT_REG_FILE else if fmt =? 4 then EXT4_FT_DIR else if fmt =? 2 then EXT4_FT_CHRDEV
  else if fmt =? 6 then EXT4_FT_BLKDEV else if fmt =? 1 then EXT4_FT_FIFO else if fmt =? 12 then EXT4_FT_SOCK
  else if fmt =? 10 then EXT4_FT_SYMLINK else 0.
Definition ext4_set_de_type (bh de mode : Z) : M dir_st unit :=
  if ds_filetype sb then set_de_file_type bh de (ext4_type_by_mode (Z.shiftr (Z.land mode S_IFMT) 12)) else ret tt.

Definition ext4_insert_dentry (inode : dir_inode) (bh de buf_size : Z) (fname : list Z) : M dir_st unit :=
  name_len <-- de_name_len bh de ;;
  let nlen := EXT4_DIR_REC_LEN name_len in
  rlen <-- rec_len bh de ;;
  used <-- de_inode bh de ;;
  de <-- (if negb (used =? 0) then
            set_rec_len bh (de + nlen) (rlen - nlen) buf_size ;;;
            set_rec_len bh de nlen buf_size ;;;
            ret (de + nlen)
          else ret de) ;;
  set_de_file_type bh de EXT4_FT_UNKNOWN ;;;
  set_de_inode bh de (i_ino inode) ;;;
  ext4_set_de_type bh de (i_mode inode) ;;;
  set_de_name_len bh de (Z.of_nat (length fname)) ;;;
  set_de_name bh de fname.

(** ** The checksum at the end of a leaf block *)

Definition initialize_dirent_tail (bh : Z) : M dir_st unit :=
  let t := blocksize - sizeof_dir_entry_tail in
  write_bytes bh t (replicate (Z.to_nat sizeof_dir_entry_tail) 0) ;;;
  set_rec_len bh t sizeof_dir_entry_tail blocksize ;;;
  set_de_file_type bh t EXT4_FT_DIR_CSUM.

Definition get_dirent_tail (bh : Z) : M dir_st (option Z) :=
  let t := blocksize - sizeof_dir_entry_tail in
  zero1 <-- de_inode bh t ;;
  rlen <-- de_rec_len bh t ;;
  zero2 <-- de_name_len bh t ;;
  ft <-- read_le 1 bh (t + 7) ;;
  ret (if negb (zero1 =? 0) || negb (rlen =? sizeof_dir_entry_tail) || negb (zero2 =? 0) || negb (ft =? EXT4_FT_DIR_CSUM)
       then None else Some t).

Definition ext4_dirent_csum (bh size : Z) : M dir_st Z := l <-- read_bytes bh 0 size ;; ret (u32 (ext4_chksum i_csum_seed l)).

Definition ext4_dirent_csum_verify (bh : Z) : M dir_st bool :=
  if negb (ds_metadata_csum sb) then ret true
  else
    t <-- get_dirent_tail bh ;;
    match t with
    | None => ret false
    | Some t => c <-- read_le 4 bh (t + 8) ;; csum <-- ext4_dirent_csum bh t ;; ret (c =? csum)
    end.

Definition ext4_dirent_csum_set (bh : Z) : M dir_st unit :=
  if negb (ds_metadata_csum sb) then ret tt
  else
    t <-- get_dirent_tail bh ;;
    match t with
    | None => ret tt
    | Some t => csum <-- ext4_dirent_csum bh t ;; write_le 4 bh (t + 8) csum
    end.

(** [ext4_handle_dirty_metadata] without a journal. *)
Definition ext4_handle_dirty_metadata (bh : Z) : M dir_st Z :=
  with_buf bh (fun b => b <| db_dirty := true |>) ;;;
  if ds_needs_sync sb then
    with_buf bh (fun b => b <| db_dirty := false |>) ;;;
    if sync_fails bh then ext4_error_dir bh ;;; ret (- EIO) else ret 0
  else ret 0.

Definition ext4_handle_dirty_dirent_node (bh : Z) : M dir_st Z := ext4_dirent_csum_set bh ;;; ext4_handle_dirty_metadata bh.

Definition ext4_update_dx_flag : M dir_st unit :=
  if negb (ds_dir_index sb) then modify (fun d => d <| d_index := false |>) else ret tt.
Definition inode_inc_iversion : M dir_st unit := modify (fun d => d <| d_version ::= fun v => u64 (v + 1) |>).
Definition ext4_mark_inode_dirty : M dir_st unit := modify (fun d => d <| d_dirty := true |>).

Definition add_dirent_to_buf (fname : list Z) (inode : dir_inode) (de : option Z) (bh : Z) : M dir_st Z :=
  r <-- (match de with
         | Some de => ret (inr de)
         | None => ext4_find_dest_de bh (blocksize - csum_size) fname
         end) ;;
  match r with
  | inl err => ret err
  | inr de =>
      ext4_insert_dentry inode bh de blocksize fname ;;;
      modify (fun d => d <| d_mtime := ds_now sb |>) ;;;
      ext4_update_dx_flag ;;;
      inode_inc_iversion ;;;
      ext4_mark_inode_dirty ;;;
      err <-- ext4_handle_dirty_dirent_node bh ;;
      (if negb (err =? 0) then ext4_error_dir err else ret tt) ;;;
      ret 0
  end.

(** ** Deleting an entry *)

Fixpoint delete_loop (fuel : nat) (bh de_del limit i : Z) (pde : option Z) : M dir_st Z :=
  match fuel with
  | O => stall
  | S fuel =>
      if i <? limit then
        bad <-- ext4_check_dir_entry bh i blocksize i ;;
        if negb (bad =? 0) then ret (- EFSCORRUPTED)
        else if i =? de_del then
          (match pde with
           | Some pde => pl <-- rec_len bh pde ;; l <-- rec_len bh i ;; set_rec_len bh pde (pl + l) blocksize
           | None => set_de_inode bh i 0
           end) ;;;
          inode_inc_iversion ;;;
          ret 0
        else
          l <-- rec_len bh i ;;
          delete_loop fuel bh de_del limit (i + l) (Some i)
      else ret (- ENOENT)
  end.
Definition ext4_generic_delete_entry (de_del bh buf_size csum : Z) : M dir_st Z :=
  delete_loop (S (Z.to_nat buf_size)) bh de_del (buf_size - csum) 0 None.

Definition ext4_delete_entry (de_del bh : Z) : M dir_st Z :=
  err <-- ext4_generic_delete_entry de_del bh blocksize csum_size ;;
  err <-- (if negb (err =? 0) then ret err else ext4_handle_dirty_dirent_node bh) ;;
  (if negb (err =? 0) && negb (err =? - ENOENT) then ext4_error_dir err else ret tt) ;;;
  ret err.

(** ** A new directory *)

(** The bytes of "." and ".." with their terminators. *)
Definition dot : list Z := [46].
Definition dotdot : list Z := [46; 46].

Definition ext4_init_dot_dotdot (ino bh de csum parent_ino : Z) (dotdot_real_len : bool) : M dir_st Z :=
  set_de_inode bh de ino ;;;
  set_de_name_len bh de 1 ;;;
  set_rec_len bh de (EXT4_DIR_REC_LEN 1) blocksize ;;;
  set_de_name bh de (dot ++ [0]) ;;;
  ext4_set_de_type bh de S_IFDIR ;;;
  de <-- ext4_next_entry bh de ;;
  set_de_inode bh de parent_ino ;;;
  set_de_name_len bh de 2 ;;;
  (if negb dotdot_real_len then set_rec_len bh de (blocksize - (csum + EXT4_DIR_REC_LEN 1)) blocksize
   else set_rec_len bh de (EXT4_DIR_REC_LEN 2) blocksize) ;;;
  set_de_name bh de (dotdot ++ [0]) ;;;
  ext4_set_de_type bh de S_IFDIR ;;;
  ext4_next_entry bh de.
End dir.
