(* ===== verification/Dir.v ===== *)
(** * mqfs: directories (namei.c)

    Linear and indexed directories: reading and appending blocks, the index
    (its entries are numbered from the count and limit, entry 0), splitting of
    leaf and index blocks, looking up and adding names, new and empty
    directories.  A frame of the path through the index holds the block, the
    offset of the entries in it and the number of the entry taken. *)

From S2P Require Import Prelude Dirent.

Definition EXT4_HTREE_LEVEL_COMPAT : Z := 2.
Definition EXT4_HTREE_LEVEL : Z := 3.
Definition NAMEI_RA_SIZE : Z := 8.
Definition sizeof_dx_entry : Z := 8.
Definition sizeof_dx_tail : Z := 8.
Definition sizeof_dx_map_entry : Z := 8.
Definition root_info : Z := 24.            (* offset of dx_root.info *)
Definition sizeof_root_info : Z := 8.
Definition node_entries : Z := 8.          (* offset of dx_node.entries *)

Inductive dirblock_type_t := EITHER | INDEX | DIRENT.

Record dx_frame := mk_frame { fr_bh : Z; fr_entries : Z; fr_at : Z }.
#[export] Instance dx_frame_eta : Eta dx_frame := fun f => mk_frame (fr_bh f) (fr_entries f) (fr_at f).

(** [struct ext4_filename]: the name and its hash. *)
Record ext4_filename := mk_fname { disk_name : list Z; hinfo : dx_hash_info }.
#[export] Instance fname_eta : Eta ext4_filename := fun f => mk_fname (disk_name f) (hinfo f).
Definition no_hinfo : dx_hash_info := mk_hinfo 0 0 0 [].

Section dir.
Context `{DirApi} (sb : dir_sb).
#[local] Abbreviation blocksize := (ds_blocksize sb).

Definition ext4_dir_htree_level : Z := if ds_large_dir sb then EXT4_HTREE_LEVEL else EXT4_HTREE_LEVEL_COMPAT.

(** ** Appending and reading blocks *)

(** The new block, or the error.  The blocks of a directory are those below
    its size. *)
Definition ext4_append : M dir_st (Z + Z) :=
  d <-- get ;;
  if negb (ds_max_dir_size_kb sb =? 0) && (ds_max_dir_size_kb sb <=? Z.shiftr (d_size d) 10) then ret (inl (- ENOSPC))
  else
    let block := Z.shiftr (d_size d) (ds_blocksize_bits sb) in
    if negb (create_err block =? 0) then ret (inl (create_err block))
    else
      check (block =? Z.of_nat (length (d_bufs d))) OutOfBounds ;;;
      modify (fun d => d <| d_bufs ::= (.++ [mk_dbh (fresh_block blocksize block) false true]) |> <| d_size ::= fun n => n + blocksize |>) ;;;
      ret (inr block).

(** ** The checksum of index blocks *)

Definition get_dx_countlimit (bh : Z) : M dir_st (option Z) :=
  l <-- de_rec_len bh 0 ;;
  if l =? blocksize then ret (Some 8)
  else if l =? 12 then
    l2 <-- de_rec_len bh 12 ;;
    if negb (l2 =? blocksize - 12) then ret None
    else
      zero <-- read_le 4 bh 24 ;;
      ilen <-- read_le 1 bh 29 ;;
      ret (if negb (zero =? 0) || negb (ilen =? sizeof_root_info) then None else Some 32)
  else ret None.

Definition ext4_dx_csum (bh count_offset count t : Z) : M dir_st Z :=
  l <-- read_bytes bh 0 (count_offset + count * sizeof_dx_entry) ;;
  lt <-- read_bytes bh t 4 ;;
  ret (u32 (ext4_chksum (u32 (ext4_chksum (u32 (ext4_chksum i_csum_seed l)) lt)) [0; 0; 0; 0])).

(** The limit and the count of the index, if there is room for the checksum. *)
Definition dx_tail_of (bh : Z) : M dir_st (option (Z * Z * Z)) :=
  c <-- get_dx_countlimit bh ;;
  match c with
  | None => ext4_error_dir bh ;;; ret None
  | Some count_offset =>
      limit <-- read_le 2 bh count_offset ;;
      count <-- read_le 2 bh (count_offset + 2) ;;
      ret (if blocksize - sizeof_dx_tail <? count_offset + limit * sizeof_dx_entry then None
           else Some (count_offset, count, count_offset + limit * sizeof_dx_entry))
  end.

Definition ext4_dx_csum_verify (bh : Z) : M dir_st bool :=
  if negb (ds_metadata_csum sb) then ret true
  else
    t <-- dx_tail_of bh ;;
    match t with
    | None => ret false
    | Some (count_offset, count, t) => c <-- read_le 4 bh (t + 4) ;; csum <-- ext4_dx_csum bh count_offset count t ;; ret (c =? csum)
    end.

Definition ext4_dx_csum_set (bh : Z) : M dir_st unit :=
  if negb (ds_metadata_csum sb) then ret tt
  else
    t <-- dx_tail_of bh ;;
    match t with
    | None => ret tt
    | Some (count_offset, count, t) => csum <-- ext4_dx_csum bh count_offset count t ;; write_le 4 bh (t + 4) csum
    end.

Definition ext4_handle_dirty_dx_node (bh : Z) : M dir_st Z := ext4_dx_csum_set bh ;;; ext4_handle_dirty_metadata sb bh.

Definition set_buffer_verified (bh : Z) : M dir_st unit := with_buf bh (fun b => b <| db_verified := true |>).
Definition buffer_verified (bh : Z) : M dir_st bool := gets (fun d => match buf_at bh d with Some b => db_verified b | None => false end).

(** [ext4_bread] of a block that exists: 0 or the error.  Blocks behind the
    size of the directory are holes. *)
Definition ext4_bread (block : Z) : M dir_st (Z + bool) :=
  if negb (getblk_err block =? 0) then ret (inl (getblk_err block))
  else
    b <-- gets (buf_at block) ;;
    match b with
    | None => ret (inr false)
    | Some _ => if read_fails block then ret (inl (- EIO)) else ret (inr true)
    end.

Definition __ext4_read_dirblock (block : Z) (type : dirblock_type_t) : M dir_st (Z + Z) :=
  r <-- ext4_bread block ;;
  match r with
  | inl err => ret (inl err)
  | inr false => ext4_error_dir block ;;; ret (inl (- EFSCORRUPTED))
  | inr true =>
      d <-- get ;;
      is_dx_block <-- (if is_dx sb d then (if block =? 0 then ret true else l <-- rec_len block 0 ;; ret (l =? blocksize)) else ret false) ;;
      let index := match type with INDEX => true | _ => false end in
      if negb is_dx_block && index then ext4_error_dir block ;;; ret (inl (- EFSCORRUPTED))
      else
        v <-- buffer_verified block ;;
        if negb (ds_metadata_csum sb) || v then ret (inr block)
        else
          let bad := ext4_error_dir block ;;; ret false in
          ok <-- (if is_dx_block && index then ok <-- ext4_dx_csum_verify block ;; if ok : bool then set_buffer_verified block ;;; ret true else bad
                  else ret true) ;;
          if negb ok then ret (inl (- EFSBADCRC))
          else
            ok <-- (if negb is_dx_block then ok <-- ext4_dirent_csum_verify sb block ;; if ok : bool then set_buffer_verified block ;;; ret true else bad
                    else ret true) ;;
            if negb ok then ret (inl (- EFSBADCRC)) else ret (inr block)
  end.

(** ** Entries of the index *)

Definition dx_get_block (bh entries i : Z) : M dir_st Z := v <-- read_le 4 bh (entries + 8 * i + 4) ;; ret (Z.land v 0x0fffffff).
Definition dx_set_block (bh entries i v : Z) : M dir_st unit := write_le 4 bh (entries + 8 * i + 4) v.
Definition dx_get_hash (bh entries i : Z) : M dir_st Z := read_le 4 bh (entries + 8 * i).
Definition dx_set_hash (bh entries i v : Z) : M dir_st unit := write_le 4 bh (entries + 8 * i) v.
Definition dx_get_count (bh entries : Z) : M dir_st Z := read_le 2 bh (entries + 2).
Definition dx_get_limit (bh entries : Z) : M dir_st Z := read_le 2 bh entries.
Definition dx_set_count (bh entries v : Z) : M dir_st unit := write_le 2 bh (entries + 2) v.
Definition dx_set_limit (bh entries v : Z) : M dir_st unit := write_le 2 bh entries v.

Definition dx_root_limit (infosize : Z) : Z :=
  let entry_space := u32 (blocksize - EXT4_DIR_REC_LEN 1 - EXT4_DIR_REC_LEN 2 - infosize) in
  let entry_space := if ds_metadata_csum sb then u32 (entry_space - sizeof_dx_tail) else entry_space in
  entry_space / sizeof_dx_entry.
Definition dx_node_limit : Z :=
  let entry_space := blocksize - EXT4_DIR_REC_LEN 0 in
  let entry_space := if ds_metadata_csum sb then entry_space - sizeof_dx_tail else entry_space in
  entry_space / sizeof_dx_entry.

(** ** Finding the leaf of a hash *)

(** The binary search of a node: [p] when the loop ends. *)
Fixpoint probe_search (fuel : nat) (bh entries hash p q : Z) : M dir_st Z :=
  match fuel with
  | O => stall
  | S fuel =>
      if p <=? q then
        let m := p + (q - p) / 2 in
        h <-- dx_get_hash bh entries m ;;
        if hash <? h then probe_search fuel bh entries hash p (m - 1) else probe_search fuel bh entries hash (m + 1) q
      else ret p
  end.

(** The linear search that the source keeps as a cross check. *)
Fixpoint cross_check (n : nat) (bh entries hash at_ : Z) : M dir_st Z :=
  match n with
  | O => ret at_
  | S n => h <-- dx_get_hash bh entries (at_ + 1) ;; if hash <? h then ret at_ else cross_check n bh entries hash (at_ + 1)
  end.

(** The loop over the levels: the frames from the root, or the error. *)
Fixpoint probe_loop (fuel : nat) (hash indirect bh entries : Z) (frames : list dx_frame) : M dir_st (Z + list dx_frame) :=
  match fuel with
  | O => stall
  | S fuel =>
      count <-- dx_get_count bh entries ;;
      limit <-- dx_get_limit bh entries ;;
      if (count =? 0) || (limit <? count) then ret (inl ERR_BAD_DX_DIR)
      else
        p <-- probe_search (S (Z.to_nat count)) bh entries hash 1 (count - 1) ;;
        let frames := frames ++ [mk_frame bh entries (p - 1)] in
        if indirect =? 0 then ret (inr frames)
        else
          block <-- dx_get_block bh entries (p - 1) ;;
          r <-- __ext4_read_dirblock block INDEX ;;
          match r with
          | inl err => ret (inl err)
          | inr bh =>
              limit <-- dx_get_limit bh node_entries ;;
              if negb (limit =? dx_node_limit) then ret (inl ERR_BAD_DX_DIR)
              else probe_loop fuel hash (indirect - 1) bh node_entries frames
          end
  end.

(** The hash of a name under the version of the index. *)
Definition dx_hash (version : Z) (fname : ext4_filename) : ext4_filename :=
  let v := if version <=? DX_HASH_TEA then version + ds_hash_unsigned sb else version in
  fname <| hinfo := snd (ext4fs_dirhash (disk_name fname) ((hinfo fname) <| hi_hash_version := v |> <| hi_seed := ds_hash_seed sb |>)) |>.

Definition dx_probe (fname : ext4_filename) : M dir_st (Z + list dx_frame * ext4_filename) :=
  r <-- __ext4_read_dirblock 0 INDEX ;;
  match r with
  | inl err => ret (inl err)
  | inr bh =>
      version <-- read_le 1 bh 28 ;;
      let fail := ret (inl ERR_BAD_DX_DIR) in
      if negb (version =? DX_HASH_TEA) && negb (version =? DX_HASH_HALF_MD4) && negb (version =? DX_HASH_LEGACY) then fail
      else
        let fname := dx_hash version fname in
        let hash := hi_hash (hinfo fname) in
        flags <-- read_le 1 bh 31 ;;
        if negb (Z.land flags 1 =? 0) then fail
        else
          indirect <-- read_le 1 bh 30 ;;
          if ext4_dir_htree_level <=? indirect then fail
          else
            ilen <-- read_le 1 bh 29 ;;
            let entries := root_info + ilen in
            limit <-- dx_get_limit bh entries ;;
            if negb (limit =? dx_root_limit ilen) then fail
            else
              r <-- probe_loop (S (Z.to_nat indirect)) hash indirect bh entries [] ;;
              match r with
              | inl err => ret (inl err)
              | inr frames => ret (inr (frames, fname))
              end
  end.

(** ** The next leaf *)

(** [++(p->at)], upwards while the nodes are exhausted: the frames down to the
    one that has a next entry, and how many levels are below it. *)
Fixpoint next_up (rev_frames : list dx_frame) (num_frames : nat) : M dir_st (option (list dx_frame * nat)) :=
  match rev_frames with
  | [] => ret None
  | p :: up =>
      let p := p <| fr_at ::= fun a => a + 1 |> in
      count <-- dx_get_count (fr_bh p) (fr_entries p) ;;
      if fr_at p <? count then ret (Some (p :: up, num_frames)) else next_up up (S num_frames)
  end.

(** Down again, to the first entries. *)
Fixpoint next_down (n : nat) (rev_frames : list dx_frame) : M dir_st (Z + list dx_frame) :=
  match n with
  | O => ret (inr rev_frames)
  | S n =>
      match rev_frames with
      | [] => oops NullDeref
      | p :: _ =>
          block <-- dx_get_block (fr_bh p) (fr_entries p) (fr_at p) ;;
          r <-- __ext4_read_dirblock block INDEX ;;
          match r with
          | inl err => ret (inl err)
          | inr bh => next_down n (mk_frame bh node_entries 0 :: rev_frames)
          end
      end
  end.

(** An error, or the new frames when the search is to go on.  [frames] has the
    frame of the leaf last. *)
Definition ext4_htree_next_block (hash : Z) (frames : list dx_frame) : M dir_st (Z + option (list dx_frame)) :=
  u <-- next_up (rev frames) 0 ;;
  match u with
  | None => ret (inr None)
  | Some (rf, num_frames) =>
      bhash <-- match rf with p :: _ => dx_get_hash (fr_bh p) (fr_entries p) (fr_at p) | [] => oops NullDeref end ;;
      if (Z.land hash 1 =? 0) && negb (Z.land bhash (u32 (Z.lnot 1)) =? hash) then ret (inr None)
      else
        r <-- next_down num_frames rf ;;
        match r with
        | inl err => ret (inl err)
        | inr rf => ret (inr (Some (rev rf)))
        end
  end.
End dir.

(** ** Splitting, looking up and adding *)

Section dir.
Context `{DirApi} (sb : dir_sb).
#[local] Abbreviation blocksize := (ds_blocksize sb).

(** ** The map of a leaf block, kept at the end of another block

    An entry of the map: the hash, the offset in words and the size. *)

Definition map_hash (bh map i : Z) : M dir_st Z := read_le 4 bh (map + 8 * i).
Definition map_offs (bh map i : Z) : M dir_st Z := read_le 2 bh (map + 8 * i + 4).
Definition map_size (bh map i : Z) : M dir_st Z := read_le 2 bh (map + 8 * i + 6).
Definition map_swap (bh map i j : Z) : M dir_st unit :=
  x <-- read_bytes bh (map + 8 * i) sizeof_dx_map_entry ;;
  y <-- read_bytes bh (map + 8 * j) sizeof_dx_map_entry ;;
  write_bytes bh (map + 8 * i) y ;;;
  write_bytes bh (map + 8 * j) x.

Fixpoint make_map_loop (fuel : nat) (bh : Z) (h : dx_hash_info) (bh2 de map_tail count : Z) : M dir_st Z :=
  match fuel with
  | O => stall
  | S fuel =>
      if de <? blocksize then
        name_len <-- de_name_len bh de ;;
        inode <-- de_inode bh de ;;
        r <-- (if negb (name_len =? 0) && negb (inode =? 0) then
                 name <-- de_name bh de name_len ;;
                 let h := snd (ext4fs_dirhash name h) in
                 let map_tail := map_tail - sizeof_dx_map_entry in
                 size <-- de_rec_len bh de ;;
                 write_le 4 bh2 map_tail (hi_hash h) ;;;
                 write_le 2 bh2 (map_tail + 4) (Z.shiftr de 2) ;;;
                 write_le 2 bh2 (map_tail + 6) size ;;;
                 ret (h, map_tail, count + 1)
               else ret (h, map_tail, count)) ;;
        let '(h, map_tail, count) := r in
        de <-- ext4_next_entry bh de ;;
        make_map_loop fuel bh h bh2 de map_tail count
      else ret count
  end.
Definition dx_make_map (bh : Z) (hinfo : dx_hash_info) (bh2 map_tail : Z) : M dir_st Z :=
  make_map_loop (S (Z.to_nat blocksize)) bh hinfo bh2 0 map_tail 0.

(** [for (p = top, q = p - count; q >= map; p--, q--)], [q + 1] rounds. *)
Fixpoint comb_pass (rounds : nat) (bh map gap : Z) : M dir_st unit :=
  match rounds with
  | O => ret tt
  | S r =>
      let q := Z.of_nat r in
      hp <-- map_hash bh map (q + gap) ;;
      hq <-- map_hash bh map q ;;
      (if hp <? hq then map_swap bh map (q + gap) q else ret tt) ;;;
      comb_pass r bh map gap
  end.
Fixpoint comb_loop (fuel : nat) (bh map top count : Z) : M dir_st unit :=
  match fuel with
  | O => stall
  | S fuel =>
      if 2 <? count then
        let count := u32 (count * 10) / 13 in
        let count := if u32 (count - 9) <? 2 then 11 else count in
        comb_pass (Z.to_nat (top - count + 1)) bh map count ;;;
        comb_loop fuel bh map top count
      else ret tt
  end.
(** [while (q-- > map)], [q] rounds. *)
Fixpoint bubble_pass (q : nat) (bh map : Z) (more : bool) : M dir_st bool :=
  match q with
  | O => ret more
  | S r =>
      let q := Z.of_nat r in
      h1 <-- map_hash bh map (q + 1) ;;
      h0 <-- map_hash bh map q ;;
      if h0 <=? h1 then bubble_pass r bh map more
      else map_swap bh map (q + 1) q ;;; bubble_pass r bh map true
  end.
Fixpoint bubble_loop (fuel : nat) (bh map top : Z) : M dir_st unit :=
  match fuel with
  | O => stall
  | S fuel => more <-- bubble_pass (Z.to_nat top) bh map false ;; if more : bool then bubble_loop fuel bh map top else ret tt
  end.
Definition dx_sort_map (bh map count : Z) : M dir_st unit :=
  let top := count - 1 in
  comb_loop (S (Z.to_nat count)) bh map top count ;;;
  bubble_loop (S (Z.to_nat count)) bh map top.

(** ** Moving and packing entries *)

(** The offset of the last entry moved. *)
Fixpoint move_loop (count : nat) (from to_bh to_ map_bh map rlen : Z) : M dir_st Z :=
  match count with
  | O => ret (to_ - rlen)
  | S count =>
      offs <-- map_offs map_bh map 0 ;;
      let de := Z.shiftl offs 2 in
      name_len <-- de_name_len from de ;;
      let rlen := EXT4_DIR_REC_LEN name_len in
      x <-- read_bytes from de rlen ;;
      write_bytes to_bh to_ x ;;;
      set_rec_len to_bh to_ rlen blocksize ;;;
      set_de_inode from de 0 ;;;
      move_loop count from to_bh (to_ + rlen) map_bh (map + sizeof_dx_map_entry) rlen
  end.
Definition dx_move_dirents (from to_bh map_bh map count : Z) : M dir_st Z := move_loop (Z.to_nat count) from to_bh 0 map_bh map 0.

Fixpoint pack_loop (fuel : nat) (bh de to_ prev : Z) : M dir_st Z :=
  match fuel with
  | O => stall
  | S fuel =>
      if de <? blocksize then
        next <-- ext4_next_entry bh de ;;
        inode <-- de_inode bh de ;;
        name_len <-- de_name_len bh de ;;
        if negb (inode =? 0) && negb (name_len =? 0) then
          let rlen := EXT4_DIR_REC_LEN name_len in
          (if to_ <? de then x <-- read_bytes bh de rlen ;; write_bytes bh to_ x else ret tt) ;;;
          set_rec_len bh to_ rlen blocksize ;;;
          pack_loop fuel bh next (to_ + rlen) to_
        else pack_loop fuel bh next to_ prev
      else ret prev
  end.
Definition dx_pack_dirents (bh : Z) : M dir_st Z := pack_loop (S (Z.to_nat blocksize)) bh 0 0 0.

(** ** Inserting into the index *)

Definition dx_insert_block (frame : dx_frame) (hash block : Z) : M dir_st unit :=
  let bh := fr_bh frame in
  let entries := fr_entries frame in
  let new := fr_at frame + 1 in
  count <-- dx_get_count bh entries ;;
  limit <-- dx_get_limit bh entries ;;
  check (count <? limit) BugOn ;;;
  check (fr_at frame <? count) BugOn ;;;
  x <-- read_bytes bh (entries + 8 * new) (8 * (count - new)) ;;
  write_bytes bh (entries + 8 * (new + 1)) x ;;;
  dx_set_hash bh entries new hash ;;;
  dx_set_block bh entries new block ;;;
  dx_set_count bh entries (count + 1).

(** ** Splitting a leaf *)

(** [for (i = count-1; i >= 0; i--)]: how many entries to move. *)
Fixpoint split_loop (i : nat) (bh map size move : Z) : M dir_st Z :=
  match i with
  | O => ret move
  | S i =>
      s <-- map_size bh map (Z.of_nat i) ;;
      if blocksize / 2 <? size + s / 2 then ret move else split_loop i bh map (size + s) (move + 1)
  end.

(** The entry and the block for the new name, or the error. *)
Definition do_split (bh : Z) (frame : dx_frame) (hinfo : dx_hash_info) : M dir_st (Z + Z * Z) :=
  a <-- ext4_append sb ;;
  match a with
  | inl err => ret (inl err)
  | inr newblock =>
      let bh2 := newblock in
      count <-- dx_make_map bh hinfo bh2 blocksize ;;
      let map := blocksize - sizeof_dx_map_entry * count in
      dx_sort_map bh2 map count ;;;
      move <-- split_loop (Z.to_nat count) bh2 map 0 0 ;;
      let split := count - move in
      hash2 <-- map_hash bh2 map split ;;
      hash1 <-- map_hash bh2 map (u32 (split - 1)) ;;
      let continued := if hash2 =? hash1 then 1 else 0 in
      de2 <-- dx_move_dirents bh bh2 bh2 (map + sizeof_dx_map_entry * split) (count - split) ;;
      de <-- dx_pack_dirents bh ;;
      set_rec_len bh de (blocksize - csum_size sb - de) blocksize ;;;
      set_rec_len bh2 de2 (blocksize - csum_size sb - de2) blocksize ;;;
      (if ds_metadata_csum sb then initialize_dirent_tail sb bh2 ;;; initialize_dirent_tail sb bh else ret tt) ;;;
      let '(bh, bh2, de) := if hash2 <=? hi_hash hinfo then (bh2, bh, de2) else (bh, bh2, de) in
      dx_insert_block frame (u32 (hash2 + continued)) newblock ;;;
      err <-- ext4_handle_dirty_dirent_node sb bh2 ;;
      err <-- (if negb (err =? 0) then ret err else ext4_handle_dirty_dx_node sb (fr_bh frame)) ;;
      if negb (err =? 0) then ext4_error_dir err ;;; ret (inl err)
      else ret (inr (de, bh))
  end.

(** ** From a linear to an indexed directory *)

(** [while ((de2 = ext4_next_entry(de)) < top) de = de2] *)
Fixpoint last_entry (fuel : nat) (bh de top : Z) : M dir_st Z :=
  match fuel with
  | O => stall
  | S fuel => de2 <-- ext4_next_entry bh de ;; if de2 <? top then last_entry fuel bh de2 top else ret de
  end.

Definition make_indexed_dir (fname : ext4_filename) (inode : dir_inode) (bh : Z) : M dir_st Z :=
  l <-- rec_len bh 12 ;;
  let de := 12 + l in
  if blocksize <=? de then ext4_error_dir bh ;;; ret (- EFSCORRUPTED)
  else
    let len := blocksize - csum_size sb - de in
    a <-- ext4_append sb ;;
    match a with
    | inl err => ret err
    | inr bh2 =>
        modify (fun d => d <| d_index := true |>) ;;;
        x <-- read_bytes bh de len ;;
        write_bytes bh2 0 x ;;;
        de <-- last_entry (S (Z.to_nat blocksize)) bh2 0 len ;;
        set_rec_len bh2 de (blocksize - csum_size sb - de) blocksize ;;;
        (if ds_metadata_csum sb then initialize_dirent_tail sb bh2 else ret tt) ;;;
        set_rec_len bh 12 (blocksize - EXT4_DIR_REC_LEN 2) blocksize ;;;
        write_bytes bh root_info (replicate (Z.to_nat sizeof_root_info) 0) ;;;
        write_le 1 bh (root_info + 5) sizeof_root_info ;;;
        write_le 1 bh (root_info + 4) (ds_def_hash_version sb) ;;;
        let entries := root_info + sizeof_root_info in
        dx_set_block bh entries 0 1 ;;;
        dx_set_count bh entries 1 ;;;
        dx_set_limit bh entries (dx_root_limit sb sizeof_root_info) ;;;
        version <-- read_le 1 bh (root_info + 4) ;;
        let fname := dx_hash sb version fname in
        let frame := mk_frame bh entries 0 in
        let out r := (if negb (r =? 0) then ext4_mark_inode_dirty else ret tt) ;;; ret r in
        err <-- ext4_handle_dirty_dx_node sb bh ;;
        if negb (err =? 0) then out err
        else
          err <-- ext4_handle_dirty_dirent_node sb bh2 ;;
          if negb (err =? 0) then out err
          else
            r <-- do_split bh2 frame (hinfo fname) ;;
            match r with
            | inl err => out err
            | inr (de, bh2) => r <-- add_dirent_to_buf sb (disk_name fname) inode (Some de) bh2 ;; out r
            end
    end.

(** ** Looking up a name *)

(** The leaves of the hash: an error, nothing, or the block and the entry. *)
Fixpoint dx_find_loop (fuel : nat) (fname : ext4_filename) (frames : list dx_frame) : M dir_st (Z + option (Z * Z)) :=
  match fuel with
  | O => stall
  | S fuel =>
      match last frames with
      | None => oops NullDeref
      | Some frame =>
          block <-- dx_get_block (fr_bh frame) (fr_entries frame) (fr_at frame) ;;
          r <-- __ext4_read_dirblock sb block DIRENT ;;
          match r with
          | inl err => ret (inl err)
          | inr bh =>
              s <-- search_dirblock sb bh (disk_name fname) (u32 (Z.shiftl block (ds_blocksize_bits sb))) ;;
              match s with
              | (1, Some de) => ret (inr (Some (bh, de)))
              | (r, _) =>
                  if r =? -1 then ret (inl ERR_BAD_DX_DIR)
                  else
                    n <-- ext4_htree_next_block sb (hi_hash (hinfo fname)) frames ;;
                    match n with
                    | inl err => ret (inl err)
                    | inr None => ret (inr None)
                    | inr (Some frames) => dx_find_loop fuel fname frames
                    end
              end
          end
      end
  end.
Definition ext4_dx_find_entry (fname : ext4_filename) : M dir_st (Z + option (Z * Z)) :=
  r <-- dx_probe sb fname ;;
  match r with
  | inl err => ret (inl err)
  | inr (frames, fname) => n <-- gets (fun d => length (d_bufs d)) ;; dx_find_loop (S n) fname frames
  end.

Definition is_dx_internal_node (block : Z) : M dir_st bool :=
  d <-- get ;;
  if negb (is_dx sb d) then ret false
  else if block =? 0 then ret true
  else inode <-- de_inode block 0 ;; l <-- rec_len block 0 ;; ret ((inode =? 0) && (l =? blocksize)).

(** [ext4_bread_batch]: the first error of [n] blocks. *)
Fixpoint ext4_bread_batch (n : nat) (block : Z) : Z :=
  match n with
  | O => 0
  | S n => if getblk_err block =? 0 then ext4_bread_batch n (block + 1) else getblk_err block
  end.

(** The loop at [restart]: the result, or none when all blocks were searched. *)
Fixpoint find_loop (fuel : nat) (fname : list Z) (start nblocks block ra_ptr ra_max : Z) : M dir_st (option (Z + option (Z * Z))) :=
  match fuel with
  | O => stall
  | S fuel =>
      let refill := ra_max <=? ra_ptr in
      let ra_max' := Z.min (if block <? start then start - block else nblocks - block) NAMEI_RA_SIZE in
      let err := if refill then ext4_bread_batch (Z.to_nat ra_max') block else 0 in
      if negb (err =? 0) then ret (Some (inl err))
      else
        let ra_ptr := (if refill then 0 else ra_ptr) + 1 in
        let ra_max := if refill then ra_max' else ra_max in
        let next :=
          let block := if nblocks <=? block + 1 then 0 else block + 1 in
          if negb (block =? start) then find_loop fuel fname start nblocks block ra_ptr ra_max else ret None in
        b <-- gets (buf_at block) ;;
        match b with
        | None => next
        | Some _ =>
            if read_fails block then ext4_error_dir block ;;; ret (Some (inl (- EIO)))
            else
              v <-- buffer_verified block ;;
              ok <-- (if v : bool then ret true
                      else n <-- is_dx_internal_node block ;; if n : bool then ret true else ext4_dirent_csum_verify sb block) ;;
              if negb ok then ext4_error_dir block ;;; ret (Some (inl (- EFSBADCRC)))
              else
                set_buffer_verified block ;;;
                s <-- search_dirblock sb block fname (u32 (Z.shiftl block (ds_blocksize_bits sb))) ;;
                match s with
                | (1, Some de) => modify (fun d => d <| d_start_lookup := block |>) ;;; ret (Some (inr (Some (block, de))))
                | (i, _) => if i <? 0 then ret (Some (inr None)) else next
                end
        end
  end.

(** [goto restart] once more when the directory has more blocks.  The blocks read
    ahead are used up by then: they never reach past [nblocks] or [start]. *)
Definition find_blocks (fname : list Z) (start nblocks : Z) : M dir_st (Z + option (Z * Z)) :=
  n <-- gets (fun d => Z.shiftr (d_size d) (ds_blocksize_bits sb)) ;;
  r <-- find_loop (S (Z.to_nat nblocks)) fname start nblocks start 0 0 ;;
  match r with
  | Some r => ret r
  | None =>
      if nblocks <? n then
        r <-- find_loop (S (Z.to_nat n)) fname 0 n nblocks 0 0 ;;
        ret (match r with Some r => r | None => inr None end)
      else ret (inr None)
  end.

Definition ext4_find_entry (name : list Z) : M dir_st (Z + option (Z * Z)) :=
  if EXT4_NAME_LEN <? Z.of_nat (length name) then ret (inr None)
  else
    let fname := mk_fname name no_hinfo in
    if bool_decide (name = dot) || bool_decide (name = dotdot) then find_blocks name 0 1
    else
      d <-- get ;;
      r <-- (if is_dx sb d then r <-- ext4_dx_find_entry fname ;; ret (Some r) else ret None) ;;
      let linear :=
        d <-- get ;;
        let nblocks := Z.shiftr (d_size d) (ds_blocksize_bits sb) in
        if nblocks =? 0 then ret (inr None)
        else
          let start := u32 (d_start_lookup d) in
          find_blocks name (if nblocks <=? start then 0 else start) nblocks in
      match r with
      | None => linear
      | Some (inl err) => if err =? ERR_BAD_DX_DIR then linear else ret (inl err)
      | Some r => ret r
      end.

(** ** Adding a name *)

(** [while (frame > frames)]: which node to split, whether its parent has no
    room either, and whether a higher node is split. *)
Fixpoint split_level (rev_frames : list dx_frame) (restart : bool) : M dir_st (list dx_frame * bool * bool) :=
  match rev_frames with
  | _ :: ((up :: _) as rest) =>
      count <-- dx_get_count (fr_bh up) (fr_entries up) ;;
      limit <-- dx_get_limit (fr_bh up) (fr_entries up) ;;
      if count <? limit then ret (rev_frames, false, restart) else split_level rest true
  | _ => ret (rev_frames, true, restart)
  end.

(** Splitting a node of the index: the error, or the frame to split the leaf
    under, or none when the path is to be found again. *)
Definition dx_split_index (frames : list dx_frame) : M dir_st (Z + option dx_frame) :=
  let levels := Z.of_nat (length frames) in
  s <-- split_level (rev frames) false ;;
  let '(rf, add_level, restart) := s in
  match rf with
  | [] => oops NullDeref
  | frame :: up =>
      if add_level && (levels =? ext4_dir_htree_level sb) then ret (inl (- ENOSPC))
      else
        let bh := fr_bh frame in
        let entries := fr_entries frame in
        icount <-- dx_get_count bh entries ;;
        a <-- ext4_append sb ;;
        match a with
        | inl err => ret (inl err)
        | inr newblock =>
            let bh2 := newblock in
            write_bytes bh2 0 (replicate 8 0) ;;;
            set_rec_len bh2 0 blocksize blocksize ;;;
            if negb add_level then
              let icount1 := icount / 2 in
              let icount2 := icount - icount1 in
              hash2 <-- dx_get_hash bh entries icount1 ;;
              x <-- read_bytes bh (entries + 8 * icount1) (icount2 * sizeof_dx_entry) ;;
              write_bytes bh2 node_entries x ;;;
              dx_set_count bh entries icount1 ;;;
              dx_set_count bh2 node_entries icount2 ;;;
              dx_set_limit bh2 node_entries (dx_node_limit sb) ;;;
              let '(frame, bh2) := if icount1 <=? fr_at frame then (mk_frame bh2 node_entries (fr_at frame - icount1), bh) else (frame, bh2) in
              match up with
              | [] => oops NullDeref
              | parent :: _ =>
                  dx_insert_block parent hash2 newblock ;;;
                  err <-- ext4_handle_dirty_dx_node sb bh2 ;;
                  err <-- (if negb (err =? 0) then ret err else ext4_handle_dirty_dx_node sb (fr_bh parent)) ;;
                  if negb (err =? 0) then ext4_error_dir err ;;; ret (inl err)
                  else if restart : bool then
                    err <-- ext4_handle_dirty_dx_node sb (fr_bh frame) ;;
                    if negb (err =? 0) then ext4_error_dir err ;;; ret (inl err) else ret (inr None)
                  else ret (inr (Some frame))
              end
            else
              x <-- read_bytes bh entries (icount * sizeof_dx_entry) ;;
              write_bytes bh2 node_entries x ;;;
              dx_set_limit bh2 node_entries (dx_node_limit sb) ;;;
              dx_set_count bh entries 1 ;;;
              dx_set_block bh entries 0 newblock ;;;
              levels <-- match frames with root :: _ => read_le 1 (fr_bh root) (root_info + 6) | [] => oops NullDeref end ;;
              match frames with root :: _ => write_le 1 (fr_bh root) (root_info + 6) (levels + 1) | [] => oops NullDeref end ;;;
              err <-- ext4_handle_dirty_dx_node sb bh ;;
              if negb (err =? 0) then ext4_error_dir err ;;; ret (inl err)
              else
                err <-- ext4_handle_dirty_dx_node sb bh2 ;;
                if negb (err =? 0) then ext4_error_dir err ;;; ret (inl err) else ret (inr None)
        end
  end.

Fixpoint dx_add_loop (fuel : nat) (fname : ext4_filename) (inode : dir_inode) : M dir_st Z :=
  match fuel with
  | O => stall
  | S fuel =>
      r <-- dx_probe sb fname ;;
      match r with
      | inl err => ret err
      | inr (frames, fname) =>
          match last frames with
          | None => oops NullDeref
          | Some frame =>
              block <-- dx_get_block (fr_bh frame) (fr_entries frame) (fr_at frame) ;;
              r <-- __ext4_read_dirblock sb block DIRENT ;;
              match r with
              | inl err => ret err
              | inr bh =>
                  err <-- add_dirent_to_buf sb (disk_name fname) inode None bh ;;
                  if negb (err =? - ENOSPC) then ret err
                  else
                    count <-- dx_get_count (fr_bh frame) (fr_entries frame) ;;
                    limit <-- dx_get_limit (fr_bh frame) (fr_entries frame) ;;
                    r <-- (if count =? limit then dx_split_index frames else ret (inr (Some frame))) ;;
                    match r with
                    | inl err => ret err
                    | inr None => dx_add_loop fuel fname inode
                    | inr (Some frame) =>
                        r <-- do_split bh frame (hinfo fname) ;;
                        match r with
                        | inl err => ret err
                        | inr (de, bh) => add_dirent_to_buf sb (disk_name fname) inode (Some de) bh
                        end
                    end
              end
          end
      end
  end.
(** Each round but the last splits a node of the path or adds a level. *)
Definition ext4_dx_add_entry (fname : ext4_filename) (inode : dir_inode) : M dir_st Z :=
  dx_add_loop (2 * Z.to_nat EXT4_HTREE_LEVEL) fname inode.

(** The blocks of a linear directory; none when all are full. *)
Fixpoint add_loop (n : nat) (block blocks : Z) (dx_fallback : bool) (fname : list Z) (inode : dir_inode) : M dir_st (option Z) :=
  match n with
  | O => ret None
  | S n =>
      r <-- __ext4_read_dirblock sb block DIRENT ;;
      match r with
      | inl err => ret (Some err)
      | inr bh =>
          retval <-- add_dirent_to_buf sb fname inode None bh ;;
          if negb (retval =? - ENOSPC) then ret (Some retval)
          else if (blocks =? 1) && negb dx_fallback && ds_dir_index sb then
            r <-- make_indexed_dir (mk_fname fname no_hinfo) inode bh ;; ret (Some r)
          else add_loop n (block + 1) blocks dx_fallback fname inode
      end
  end.

(** The body of [ext4_add_entry] up to the label [out]. *)
Definition add_entry_body (name : list Z) (inode : dir_inode) : M dir_st Z :=
  d <-- get ;;
  r <-- (if is_dx sb d then
           r <-- ext4_dx_add_entry (mk_fname name no_hinfo) inode ;;
           if negb (r =? ERR_BAD_DX_DIR) then ret (Some r)
           else modify (fun d => d <| d_index := false |>) ;;; ext4_mark_inode_dirty ;;; ret None
         else ret None) ;;
  match r with
  | Some r => ret r
  | None =>
      let dx_fallback := is_dx sb d in
      d <-- get ;;
      let blocks := Z.shiftr (d_size d) (ds_blocksize_bits sb) in
      r <-- add_loop (Z.to_nat blocks) 0 blocks dx_fallback name inode ;;
      match r with
      | Some r => ret r
      | None =>
          a <-- ext4_append sb ;;
          match a with
          | inl err => ret err
          | inr bh =>
              set_de_inode bh 0 0 ;;;
              set_rec_len bh 0 (blocksize - csum_size sb) blocksize ;;;
              (if ds_metadata_csum sb then initialize_dirent_tail sb bh else ret tt) ;;;
              add_dirent_to_buf sb name inode (Some 0) bh
          end
      end
  end.

Definition ext4_add_entry (name : list Z) (inode : dir_inode) : M dir_st Z :=
  if Z.of_nat (length name) =? 0 then ret (- EINVAL)
  else
    r <-- add_entry_body name inode ;;
    (if r =? 0 then modify (fun d => d <| d_newentry ::= (.++ [i_ino inode]) |>) else ret tt) ;;;
    ret r.

(** ** New and empty directories *)

Definition ext4_init_new_dir (parent_ino : Z) : M dir_st Z :=
  modify (fun d => d <| d_size := 0 |>) ;;;
  a <-- ext4_append sb ;;
  match a with
  | inl err => ret err
  | inr bh =>
      _ <-- ext4_init_dot_dotdot sb (ds_ino sb) bh 0 (csum_size sb) parent_ino false ;;
      modify (fun d => d <| d_nlink := 2 |>) ;;;
      (if ds_metadata_csum sb then initialize_dirent_tail sb bh else ret tt) ;;;
      err <-- ext4_handle_dirty_dirent_node sb bh ;;
      if negb (err =? 0) then ret err else set_buffer_verified bh ;;; ret 0
  end.

(** [strcmp] of a name of an entry with a string: its bytes and the terminator. *)
Definition name_is (bh de : Z) (s : list Z) : M dir_st bool :=
  x <-- de_name bh de (Z.of_nat (length s) + 1) ;; ret (bool_decide (x = s ++ [0])).

Fixpoint empty_loop (fuel : nat) (bh de offset : Z) : M dir_st bool :=
  match fuel with
  | O => stall
  | S fuel =>
      size <-- gets d_size ;;
      if offset <? size then
        r <-- (if blocksize <=? de
               then r <-- __ext4_read_dirblock sb (Z.shiftr offset (ds_blocksize_bits sb)) EITHER ;; ret (match r with inl e => inl e | inr bh => inr (bh, 0) end)
               else ret (inr (bh, de))) ;;
        match r with
        | inl _ => ret true
        | inr (bh, de) =>
            bad <-- ext4_check_dir_entry sb bh de blocksize offset ;;
            if negb (bad =? 0) then empty_loop fuel bh blocksize (u32 (Z.lor offset (blocksize - 1) + 1))
            else
              inode <-- de_inode bh de ;;
              if negb (inode =? 0) then ret false
              else l <-- rec_len bh de ;; empty_loop fuel bh (de + l) (u32 (offset + l))
        end
      else ret true
  end.
Definition ext4_empty_dir : M dir_st bool :=
  size <-- gets d_size ;;
  if size <? EXT4_DIR_REC_LEN 1 + EXT4_DIR_REC_LEN 2 then ext4_error_dir 0 ;;; ret true
  else
    r <-- __ext4_read_dirblock sb 0 EITHER ;;
    match r with
    | inl _ => ret true
    | inr bh =>
        de1 <-- ext4_next_entry bh 0 ;;
        i <-- de_inode bh 0 ;;
        missing <-- (if negb (i =? ds_ino sb) then ret true
                     else
                       i1 <-- de_inode bh de1 ;;
                       if i1 =? 0 then ret true
                       else d0 <-- name_is bh 0 dot ;; if negb d0 then ret true else d1 <-- name_is bh de1 dotdot ;; ret (negb d1)) ;;
        if missing : bool then ret true
        else de <-- ext4_next_entry bh de1 ;; empty_loop (S (Z.to_nat size)) bh de de
    end.
End dir.
