(* ===== verification/DirentFacts.v ===== *)
(** * mqfs: directory blocks as lists of entries

    A block is the concatenation of its entries: [lay es] are the bytes of the
    entries [es].  The lemmas say what the operations on bytes do to the list. *)

From S2P Require Import Prelude Dirent.

(** ** Bytes *)

Lemma le_put_length n v : length (le_put n v) = n.
Proof. revert v. induction n as [|n IH]; intros v; [done|]. simpl. by rewrite IH. Qed.

Lemma le_get_put n v : 0 <= v < 256 ^ Z.of_nat n -> le_get (le_put n v) = v.
Proof.
  revert v. induction n as [|n IH]; intros v Hv; [simpl in *; lia|].
  simpl. rewrite IH; [pose proof (Z.div_mod v 256); lia|].
  replace (Z.of_nat (S n)) with (Z.of_nat n + 1) in Hv by lia. rewrite Z.pow_add_r, Z.pow_1_r in Hv by lia.
  split; [apply Z.div_pos; lia|]. apply Z.div_lt_upper_bound; lia.
Qed.

Lemma list_inserts_mid {A} (a x l c : list A) : length l = length x -> list_inserts (length a) l (a ++ x ++ c) = a ++ l ++ c.
Proof.
  intros Hl. apply list_eq. intros i. destruct (decide (i < length a)%nat).
  { rewrite list_lookup_inserts_lt by done. by rewrite !lookup_app_l. }
  destruct (decide (i < length a + length l)%nat).
  - rewrite list_lookup_inserts by (rewrite ?length_app; lia).
    rewrite (lookup_app_r a), lookup_app_l by lia. done.
  - rewrite list_lookup_inserts_ge by lia. rewrite !(lookup_app_r a), !lookup_app_r by lia. by rewrite Hl.
Qed.

(** ** One block of the state *)

Definition data (bh : Z) (d : dir_st) : option (list Z) := db_data <$> buf_at bh d.
Definition set_data (bh : Z) (b : list Z) (d : dir_st) : dir_st :=
  d <| d_bufs ::= alter (fun x => x <| db_data := b |>) (Z.to_nat bh) |>.

Lemma buf_at_set bh bh' b d :
  buf_at bh' (set_data bh b d) = if decide (Z.to_nat bh' = Z.to_nat bh) then (fun x => x <| db_data := b |>) <$> buf_at bh' d else buf_at bh' d.
Proof.
  unfold buf_at, set_data. cbn. destruct (bh' <? 0); [by case_decide|].
  case_decide as E; [rewrite E; by rewrite list_lookup_alter_eq|by rewrite list_lookup_alter_ne].
Qed.

Lemma data_set bh b b0 d : data bh d = Some b0 -> data bh (set_data bh b d) = Some b.
Proof. unfold data. rewrite buf_at_set, decide_True by done. by destruct (buf_at bh d). Qed.

Lemma data_nonneg bh b d : data bh d = Some b -> 0 <= bh.
Proof. unfold data, buf_at. destruct (bh <? 0) eqn:?; [done|lia]. Qed.

Lemma data_set_ne bh bh' b d x : bh <> bh' -> 0 <= bh -> data bh' d = Some x -> data bh' (set_data bh b d) = Some x.
Proof.
  intros Hne Hbh Hx. pose proof (data_nonneg _ _ _ Hx). unfold data. by rewrite buf_at_set, decide_False by lia.
Qed.

Lemma set_data_twice bh b b' d : set_data bh b (set_data bh b' d) = set_data bh b d.
Proof.
  unfold set_data, update. destruct d as [bufs]; cbn. f_equal. apply list_eq. intros i.
  destruct (decide (i = Z.to_nat bh)) as [->|]; [|by rewrite !list_lookup_alter_ne].
  rewrite !list_lookup_alter_eq. by destruct (bufs !! _).
Qed.

Lemma set_data_id bh b d : data bh d = Some b -> set_data bh b d = d.
Proof.
  unfold data, buf_at, set_data, update. destruct (bh <? 0); [done|]. destruct d as [bufs]; cbn. intros Hb. f_equal.
  apply list_eq. intros i. destruct (decide (i = Z.to_nat bh)) as [->|]; [|by rewrite list_lookup_alter_ne].
  rewrite list_lookup_alter_eq. destruct (bufs !! Z.to_nat bh) as [[]|]; [|done]. simplify_option_eq. done.
Qed.

Lemma read_bytes_mid bh d a x c off n :
  data bh d = Some (a ++ x ++ c) -> off = Z.of_nat (length a) -> n = Z.of_nat (length x) -> read_bytes bh off n d = Ret x d.
Proof.
  unfold data, read_bytes. destruct (buf_at bh d) as [b|]; [|done]. intros [= E] -> ->. rewrite E, !length_app.
  assert (Hin : (0 <=? Z.of_nat (length a)) && (0 <=? Z.of_nat (length x)) && (Z.of_nat (length a) + Z.of_nat (length x) <=? Z.of_nat (length a + (length x + length c))) = true)
    by (rewrite !andb_true_iff, !Z.leb_le; lia).
  rewrite Hin, !Nat2Z.id, drop_app_length, take_app_length. done.
Qed.

Lemma write_bytes_mid bh d a x c off l :
  data bh d = Some (a ++ x ++ c) -> off = Z.of_nat (length a) -> length l = length x ->
  write_bytes bh off l d = Ret tt (set_data bh (a ++ l ++ c) d).
Proof.
  intros Hd -> Hl. unfold write_bytes. erewrite bind_Ret by (apply (read_bytes_mid _ _ a x c); [done..|lia]).
  unfold data in Hd. unfold with_buf. destruct (buf_at bh d) as [b|] eqn:Hb; [|done]. simpl in Hd. injection Hd as Hd.
  rewrite Nat2Z.id. f_equal. unfold set_data, update. destruct d; cbn. f_equal. unfold buf_at in Hb. cbn in Hb.
  destruct (bh <? 0); [done|]. apply list_eq. intros i. destruct (decide (i = Z.to_nat bh)) as [->|]; [|by rewrite !list_lookup_alter_ne].
  rewrite !list_lookup_alter_eq, Hb. cbn. f_equal. destruct b; cbn in *. f_equal. rewrite Hd. by apply list_inserts_mid.
Qed.

Lemma read_le_mid n bh d a v c off :
  data bh d = Some (a ++ le_put n v ++ c) -> off = Z.of_nat (length a) -> 0 <= v < 256 ^ Z.of_nat n -> read_le n bh off d = Ret v d.
Proof.
  intros Hd -> Hv. unfold read_le. erewrite bind_Ret by (apply (read_bytes_mid _ _ a (le_put n v) c); [done..|by rewrite le_put_length]).
  unfold ret. by rewrite le_get_put.
Qed.

Lemma write_le_mid n bh d a x c off v :
  data bh d = Some (a ++ x ++ c) -> off = Z.of_nat (length a) -> length x = n ->
  write_le n bh off v d = Ret tt (set_data bh (a ++ le_put n v ++ c) d).
Proof. intros Hd -> Hx. by apply (write_bytes_mid _ _ a x c); [..|rewrite le_put_length]. Qed.

(** ** Entries *)

Record dent := mk_dent { e_ino : Z; e_nlen : Z; e_ft : Z; e_body : list Z }.
#[export] Instance dent_eta : Eta dent := fun e => mk_dent (e_ino e) (e_nlen e) (e_ft e) (e_body e).

Definition e_rec (e : dent) : Z := 8 + Z.of_nat (length (e_body e)).
Definition e_name (e : dent) : list Z := take (Z.to_nat (e_nlen e)) (e_body e).
Definition enc (e : dent) : list Z := le_put 4 (e_ino e) ++ le_put 2 (e_rec e) ++ le_put 1 (e_nlen e) ++ le_put 1 (e_ft e) ++ e_body e.
Definition lay (es : list dent) : list Z := es ≫= enc.
Definition off (es : list dent) : Z := Z.of_nat (length (lay es)).

Lemma enc_length e : Z.of_nat (length (enc e)) = e_rec e.
Proof. unfold enc, e_rec. rewrite !length_app, !le_put_length. lia. Qed.

Lemma lay_app es1 es2 : lay (es1 ++ es2) = lay es1 ++ lay es2.
Proof. apply bind_app. Qed.
Lemma lay_cons e es : lay (e :: es) = enc e ++ lay es.
Proof. done. Qed.

Lemma lay_mid pre e post : lay ((pre ++ [e]) ++ post) = lay pre ++ enc e ++ lay post.
Proof. by rewrite <- app_assoc, lay_app. Qed.

Lemma off_nil : off [] = 0.
Proof. done. Qed.
Lemma off_app es1 es2 : off (es1 ++ es2) = off es1 + off es2.
Proof. unfold off. rewrite lay_app, length_app. lia. Qed.
Lemma off_cons e es : off (e :: es) = e_rec e + off es.
Proof. unfold off. rewrite lay_cons, length_app, Nat2Z.inj_add, enc_length. lia. Qed.
Lemma off_nonneg es : 0 <= off es.
Proof. unfold off. lia. Qed.
Lemma e_rec_pos e : 8 <= e_rec e.
Proof. unfold e_rec. lia. Qed.

Create Rewrite HintDb dir.
#[export] Hint Rewrite off_nil off_app off_cons : dir.

Lemma rec_len_spec n : EXT4_DIR_REC_LEN n = (n + 11) / 4 * 4.
Proof.
  unfold EXT4_DIR_REC_LEN. replace (n + 8 + 3) with (n + 11) by lia.
  rewrite <- Z.ldiff_land. change 3 with (Z.ones 2). rewrite Z.ldiff_ones_r, Z.shiftl_mul_pow2, Z.shiftr_div_pow2 by lia. done.
Qed.

Lemma rec_len_bounds n : n + 8 <= EXT4_DIR_REC_LEN n <= n + 11 /\ (EXT4_DIR_REC_LEN n) mod 4 = 0.
Proof.
  rewrite rec_len_spec. split; [|apply Z.mod_mul; lia]. pose proof (Z.div_mod (n + 11) 4). pose proof (Z.mod_pos_bound (n + 11) 4). lia.
Qed.

Lemma rec_len_min n : 1 <= n -> 12 <= EXT4_DIR_REC_LEN n.
Proof. intros Hn. rewrite rec_len_spec. assert (3 <= (n + 11) / 4) by (apply Z.div_le_lower_bound; lia). lia. Qed.

Lemma rec_len_max n : n < 256 -> EXT4_DIR_REC_LEN n <= 264.
Proof. intros Hn. rewrite rec_len_spec. assert ((n + 11) / 4 < 67) by (apply Z.div_lt_upper_bound; lia). lia. Qed.

(** What a sound entry is, in a file system of [count] inodes. *)
Record dent_ok (count : Z) (e : dent) : Prop := {
  do_ino : 0 <= e_ino e <= count;
  do_nlen : 0 <= e_nlen e < 256;
  do_ft : 0 <= e_ft e < 256;
  do_min : 12 <= e_rec e < 65536;
  do_mult : e_rec e mod 4 = 0;
  do_fits : EXT4_DIR_REC_LEN (e_nlen e) <= e_rec e;
  do_named : e_ino e <> 0 -> 0 < e_nlen e;
}.

Lemma e_name_length count e : dent_ok count e -> Z.of_nat (length (e_name e)) = e_nlen e.
Proof.
  intros [_ ? _ _ _ Hf _]. unfold e_name. rewrite length_take. pose proof (rec_len_bounds (e_nlen e)) as [? _]. unfold e_rec in *. lia.
Qed.

Definition live (e : dent) : Prop := e_ino e <> 0.
#[export] Instance live_dec e : Decision (live e).
Proof. unfold live. apply _. Defined.

(** Deleting merges an entry with the one in front of it, so only the first
    entry of a block is ever unused. *)
Definition tidy (es : list dent) : Prop := Forall live (tail es).

Lemma Forall_tidy es : Forall live es -> tidy es.
Proof. unfold tidy. destruct 1; [constructor|done]. Qed.

(** The names of a block and their inodes. *)
Definition entries (es : list dent) : list (list Z * Z) := (fun e => (e_name e, e_ino e)) <$> base.filter live es.

Lemma entries_app es1 es2 : entries (es1 ++ es2) = entries es1 ++ entries es2.
Proof. unfold entries. by rewrite filter_app, fmap_app. Qed.
Lemma entries_live e es : live e -> entries (e :: es) = (e_name e, e_ino e) :: entries es.
Proof. intros He. unfold entries. by rewrite filter_cons_True. Qed.
Lemma entries_dead e es : ~ live e -> entries (e :: es) = entries es.
Proof. intros He. unfold entries. by rewrite filter_cons_False. Qed.

Definition named (n : list Z) (e : dent) : Prop := live e /\ e_name e = n.
#[export] Instance named_dec n e : Decision (named n e).
Proof. unfold named. apply _. Defined.

Lemma entries_named n es : n ∈ (entries es).*1 <-> exists e, e ∈ es /\ named n e.
Proof.
  unfold entries. rewrite <- list_fmap_compose. setoid_rewrite list_elem_of_fmap. setoid_rewrite list_elem_of_filter.
  unfold named, compose. cbn. naive_solver.
Qed.

(** Does the entry leave room for a record of [r] bytes? *)
Definition room (r : Z) (e : dent) : Prop := r <= if e_ino e =? 0 then e_rec e else e_rec e - EXT4_DIR_REC_LEN (e_nlen e).
#[export] Instance room_dec r e : Decision (room r e).
Proof. unfold room. apply _. Defined.

(** ** Reading entries *)

(** Sizes and numbers of a file system on pages of 4 KB. *)
Class dir_geo (sb : dir_sb) : Prop := {
  dg_block : 1024 <= ds_blocksize sb <= 4096;
  dg_mult : ds_blocksize sb mod 4 = 0;
  dg_bits : ds_blocksize sb = 2 ^ ds_blocksize_bits sb;
  dg_bits_pos : 0 <= ds_blocksize_bits sb;
  dg_inodes : 0 <= ds_inodes_count sb < 2 ^ 32;
  dg_limit : 0 <= ds_max_dir_size_kb sb;
}.

Section facts.
Context `{HA : DirApi} {HL : DirLaws} (sb : dir_sb) {HG : dir_geo sb}.
#[local] Abbreviation entry_ok := (dent_ok (ds_inodes_count sb)).
#[local] Abbreviation blocksize := (ds_blocksize sb).

Section entry.
Context (bh : Z) (d : dir_st) (a : list Z) (e : dent) (c : list Z) (de : Z).
Context (Hd : data bh d = Some (a ++ enc e ++ c)) (Hok : entry_ok e) (Hde : de = Z.of_nat (length a)).

Lemma de_inode_at : de_inode bh de d = Ret (e_ino e) d.
Proof using HG Hd Hok Hde.
  apply (read_le_mid 4 bh d a (e_ino e) (le_put 2 (e_rec e) ++ le_put 1 (e_nlen e) ++ le_put 1 (e_ft e) ++ e_body e ++ c)).
  - rewrite Hd. unfold enc. by rewrite <- !app_assoc.
  - done.
  - pose proof (do_ino _ _ Hok). pose proof dg_inodes. change (256 ^ Z.of_nat 4) with (2 ^ 32). lia.
Qed.

Lemma de_rec_len_field : de_rec_len bh de d = Ret (e_rec e) d.
Proof using Hd Hok Hde.
  apply (read_le_mid 2 bh d (a ++ le_put 4 (e_ino e)) (e_rec e) (le_put 1 (e_nlen e) ++ le_put 1 (e_ft e) ++ e_body e ++ c)).
  - rewrite Hd. unfold enc. by rewrite <- !app_assoc.
  - rewrite length_app, le_put_length. lia.
  - pose proof (do_min _ _ Hok). change (256 ^ Z.of_nat 2) with 65536. lia.
Qed.

Lemma de_rec_len_at : rec_len bh de d = Ret (e_rec e) d.
Proof using Hd Hok Hde. unfold rec_len. by rewrite (bind_Ret _ _ _ _ _ de_rec_len_field). Qed.

Lemma de_file_type_at : read_le 1 bh (de + 7) d = Ret (e_ft e) d.
Proof using Hd Hok Hde.
  apply (read_le_mid 1 bh d (a ++ le_put 4 (e_ino e) ++ le_put 2 (e_rec e) ++ le_put 1 (e_nlen e)) (e_ft e) (e_body e ++ c)).
  - rewrite Hd. unfold enc. by rewrite <- !app_assoc.
  - rewrite !length_app, !le_put_length. lia.
  - pose proof (do_ft _ _ Hok). change (256 ^ Z.of_nat 1) with 256. lia.
Qed.

Lemma de_name_len_at : de_name_len bh de d = Ret (e_nlen e) d.
Proof using Hd Hok Hde.
  apply (read_le_mid 1 bh d (a ++ le_put 4 (e_ino e) ++ le_put 2 (e_rec e)) (e_nlen e) (le_put 1 (e_ft e) ++ e_body e ++ c)).
  - rewrite Hd. unfold enc. by rewrite <- !app_assoc.
  - rewrite !length_app, !le_put_length. lia.
  - pose proof (do_nlen _ _ Hok). change (256 ^ Z.of_nat 1) with 256. lia.
Qed.

Lemma de_name_at : de_name bh de (e_nlen e) d = Ret (e_name e) d.
Proof using Hd Hok Hde.
  apply (read_bytes_mid bh d (a ++ le_put 4 (e_ino e) ++ le_put 2 (e_rec e) ++ le_put 1 (e_nlen e) ++ le_put 1 (e_ft e)) (e_name e)
           (drop (Z.to_nat (e_nlen e)) (e_body e) ++ c)).
  - rewrite Hd. unfold enc, e_name. rewrite (app_assoc (take _ _)), take_drop. by rewrite <- !app_assoc.
  - rewrite !length_app, !le_put_length. lia.
  - by rewrite (e_name_length _ _ Hok).
Qed.

Lemma check_at size o : de + e_rec e <= size -> ext4_check_dir_entry sb bh de size o d = Ret 0 d.
Proof using HG Hd Hok Hde.
  intros Hs. unfold ext4_check_dir_entry. rewrite (bind_Ret _ _ _ _ _ de_rec_len_at), (bind_Ret _ _ _ _ _ de_name_len_at), (bind_Ret _ _ _ _ _ de_inode_at).
  destruct Hok as [? ? ? ? E ? _]. change (EXT4_DIR_REC_LEN 1) with 12. rewrite E, Z.eqb_refl.
  destruct (Z.ltb_spec (e_rec e) 12), (Z.ltb_spec (e_rec e) (EXT4_DIR_REC_LEN (e_nlen e))), (Z.ltb_spec size (de + e_rec e)),
    (Z.ltb_spec (ds_inodes_count sb) (e_ino e)); try lia. done.
Qed.

Lemma match_at n : ext4_match n bh de d = Ret (bool_decide (named n e)) d.
Proof using HG HL Hd Hok Hde.
  unfold ext4_match. rewrite (bind_Ret _ _ _ _ _ de_inode_at). unfold named, live. destruct (Z.eqb_spec (e_ino e) 0) as [E|E].
  - by rewrite bool_decide_false by (intros [? _]; congruence).
  - rewrite (bind_Ret _ _ _ _ _ de_name_len_at), (bind_Ret _ _ _ _ _ de_name_at). unfold ret. f_equal.
    apply eq_true_iff_eq. rewrite match_name_law, bool_decide_eq_true. naive_solver.
Qed.
End entry.

(** ** Walking over a block *)

Definition find_named (n : list Z) (es : list dent) : option Z := (fun p => off (take p.1 es)) <$> list_find (named n) es.

Lemma find_named_cons n e es :
  find_named n (e :: es) = if decide (named n e) then Some 0 else Z.add (e_rec e) <$> find_named n es.
Proof.
  unfold find_named. simpl. case_decide; [done|]. destruct (list_find (named n) es) as [[i x]|]; [|done].
  cbn. by rewrite off_cons.
Qed.

Lemma search_loop_at bh d n post pre fuel o :
  data bh d = Some (lay (pre ++ post)) -> Forall entry_ok post -> off (pre ++ post) = blocksize -> (length post < fuel)%nat ->
  search_loop sb fuel bh n blocksize (off pre) o d =
    Ret (match find_named n post with Some x => (1, Some (off pre + x)) | None => (0, None) end) d.
Proof.
  intros Hd Hok Hlen. revert pre o fuel Hd Hlen. induction Hok as [|e post He Hok IH]; intros pre o fuel Hd Hlen Hf;
    (destruct fuel as [|fuel]; [simpl in Hf; lia|]); cbn [search_loop].
  { rewrite app_nil_r in Hlen. destruct (Z.ltb_spec (off pre) blocksize); [lia|done]. }
  autorewrite with dir in Hlen. pose proof (off_nonneg post). pose proof (e_rec_pos e).
  destruct (Z.ltb_spec (off pre) blocksize); [|lia].
  rewrite lay_app, lay_cons in Hd.
  rewrite (bind_Ret _ _ _ _ _ (de_name_len_at bh d (lay pre) e (lay post) _ Hd He eq_refl)).
  pose proof (do_fits _ _ He). pose proof (rec_len_bounds (e_nlen e)).
  destruct (Z.leb_spec (off pre + e_nlen e) blocksize); [|lia].
  rewrite (bind_Ret _ _ _ _ _ (match_at bh d (lay pre) e (lay post) _ Hd He eq_refl n)), find_named_cons.
  case_bool_decide as Hn.
  { rewrite decide_True by done. erewrite bind_Ret by (apply (check_at bh d (lay pre) e (lay post)); [done..|lia]).
    cbn. by rewrite Z.add_0_r. }
  rewrite decide_False, (bind_Ret _ _ _ _ _ (de_rec_len_at bh d (lay pre) e (lay post) _ Hd He eq_refl)) by done.
  destruct (Z.leb_spec (e_rec e) 0); [lia|].
  replace (off pre + e_rec e) with (off (pre ++ [e])) by (autorewrite with dir; lia).
  rewrite IH; [|by rewrite lay_mid|autorewrite with dir; lia|simpl in Hf; lia].
  autorewrite with dir. destruct (find_named n post); cbn; [|done]. by rewrite Z.add_0_r, Z.add_assoc.
Qed.

Lemma Forall_length_off es : Forall entry_ok es -> 12 * Z.of_nat (length es) <= off es.
Proof.
  induction 1 as [|e es He _ IH]; [done|]. rewrite off_cons. simpl. pose proof (do_min _ _ He). lia.
Qed.

Lemma search_at bh d es n o :
  data bh d = Some (lay es) -> Forall entry_ok es -> off es = blocksize ->
  search_dirblock sb bh n o d = Ret (match find_named n es with Some x => (1, Some x) | None => (0, None) end) d.
Proof.
  intros Hd Hok Hlen. unfold search_dirblock, ext4_search_dir. pose proof (Forall_length_off _ Hok).
  change 0 with (off []). rewrite (search_loop_at bh d n es [] _ o); [by rewrite off_nil|done..|lia].
Qed.

(** The first entry with the name or with room. *)
Definition dest_of (n : list Z) (r : Z) (es : list dent) : Z + Z :=
  match list_find (fun e => named n e \/ room r e) es with
  | None => inl (- ENOSPC)
  | Some (i, e) => if decide (named n e) then inl (- EEXIST) else inr (off (take i es))
  end.

Lemma dest_of_cons n r e es :
  dest_of n r (e :: es) =
    if decide (named n e) then inl (- EEXIST) else if decide (room r e) then inr 0
    else match dest_of n r es with inl x => inl x | inr o => inr (e_rec e + o) end.
Proof.
  unfold dest_of. simpl. repeat case_decide; try tauto; try done.
  destruct (list_find _ es) as [[i x]|]; [|done]. cbn. case_decide; [done|]. by rewrite off_cons.
Qed.

Lemma dest_loop_at bh d n post tl pre fuel o (r := EXT4_DIR_REC_LEN (Z.of_nat (length n))) size :
  data bh d = Some (lay (pre ++ post) ++ tl) -> Forall entry_ok post -> off (pre ++ post) = size -> (length post < fuel)%nat ->
  match dest_of n r post with
  | inl x => if decide (x = - ENOSPC)
             then exists de, dest_loop sb fuel bh size n r (off pre) o d = Ret (inr de) d /\ size - r < de
             else dest_loop sb fuel bh size n r (off pre) o d = Ret (inl x) d
  | inr x => dest_loop sb fuel bh size n r (off pre) o d = Ret (inr (off pre + x)) d /\ off pre + x <= size - r
  end.
Proof.
  intros Hd Hok Hlen. revert pre o fuel Hd Hlen. induction Hok as [|e post He Hok IH]; intros pre o fuel Hd Hlen Hf;
    (destruct fuel as [|fuel]; [simpl in Hf; lia|]); cbn [dest_loop]; pose proof (rec_len_bounds (Z.of_nat (length n))) as [Hr _]; fold r in Hr.
  { rewrite app_nil_r in Hlen. cbn. exists (off pre). destruct (Z.leb_spec (off pre) (size - r)); [lia|]. split; [done|lia]. }
  autorewrite with dir in Hlen. pose proof (off_nonneg post). pose proof (e_rec_pos e). pose proof (rec_len_bounds (e_nlen e)) as [Hre _].
  rewrite dest_of_cons. pose proof (do_fits _ _ He) as Hfit. pose proof (do_nlen _ _ He).
  rewrite lay_app, lay_cons, <- !app_assoc in Hd.
  destruct (Z.leb_spec (off pre) (size - r)) as [Htop|Htop].
  - erewrite bind_Ret by (apply (check_at bh d (lay pre) e (lay post ++ tl)); [done..|lia]).
    cbn [negb Z.eqb]. erewrite bind_Ret by (by apply (match_at bh d (lay pre) e (lay post ++ tl))).
    case_bool_decide as Hn; [by rewrite !decide_True, decide_False by done|].
    rewrite (decide_False (P := named n e)) by done.
    erewrite bind_Ret by (by apply (de_name_len_at bh d (lay pre) e (lay post ++ tl))).
    erewrite bind_Ret by (by apply (de_rec_len_at bh d (lay pre) e (lay post ++ tl))).
    erewrite bind_Ret by (by apply (de_inode_at bh d (lay pre) e (lay post ++ tl))).
    unfold room. case_decide as Hroom; destruct (Z.leb_spec r (if e_ino e =? 0 then e_rec e else e_rec e - EXT4_DIR_REC_LEN (e_nlen e)));
      try lia; [by rewrite Z.add_0_r|].
    replace (off pre + e_rec e) with (off (pre ++ [e])) by (autorewrite with dir; lia).
    specialize (IH (pre ++ [e]) (u32 (o + e_rec e)) fuel). autorewrite with dir in IH.
    rewrite lay_mid, <- !app_assoc in IH. specialize (IH Hd ltac:(lia) ltac:(simpl in Hf; lia)).
    autorewrite with dir. rewrite !Z.add_0_r in *. destruct (dest_of n r post); [done|]. by rewrite Z.add_assoc.
  - assert (Hnone : forall x, x ∈ e :: post -> ~ (named n x \/ room r x)).
    { intros x Hx. assert (Hok' : Forall entry_ok (e :: post)) by by constructor. apply list_elem_of_split in Hx as (l1 & l2 & E).
      rewrite E in Hok'. apply Forall_app in Hok' as [_ Hx]. inversion_clear Hx as [|?? Hx' _].
      assert (off (e :: post) = off l1 + (e_rec x + off l2)) by (rewrite E; by autorewrite with dir). rewrite off_cons in *.
      pose proof (off_nonneg l1). pose proof (off_nonneg l2). pose proof (rec_len_bounds (e_nlen x)).
      pose proof (do_fits _ _ Hx'). pose proof (do_nlen _ _ Hx').
      unfold room. intros [[_ <-]|Hroom].
      - unfold r in *. rewrite (e_name_length _ _ Hx') in *. lia.
      - destruct (e_ino x =? 0); lia. }
    rewrite <- dest_of_cons. unfold dest_of. destruct (list_find _ (e :: post)) as [[i x]|] eqn:Ef.
    { apply list_find_Some in Ef as (Hx & Hp & _). exfalso. eapply Hnone; [by eapply list_elem_of_lookup_2|exact Hp]. }
    rewrite decide_True by done. exists (off pre). split; [done|lia].
Qed.

Lemma find_dest_at bh d n es tl size (r := EXT4_DIR_REC_LEN (Z.of_nat (length n))) :
  data bh d = Some (lay es ++ tl) -> Forall entry_ok es -> off es = size -> Z.of_nat (length n) < 256 ->
  ext4_find_dest_de sb bh size n d = Ret (dest_of n r es) d.
Proof.
  intros Hd Hok Hlen Hn. unfold ext4_find_dest_de. pose proof (rec_len_bounds (Z.of_nat (length n))) as [Hr _]. fold r in Hr |- *.
  replace (wrap 16 r) with r by (symmetry; apply wrap_small; change (2 ^ 16) with 65536; lia).
  pose proof (Forall_length_off _ Hok).
  pose proof (dest_loop_at bh d n es tl [] (S (Z.to_nat size)) 0 size Hd Hok Hlen ltac:(lia)) as Hl. fold r in Hl.
  change (off []) with 0 in Hl. destruct (dest_of n r es) as [x|x] eqn:Ed.
  - case_decide as Hx.
    + destruct Hl as (de & El & Hde). rewrite (bind_Ret _ _ _ _ _ El). cbv beta iota.
      destruct (Z.ltb_spec (size - r) de); [by rewrite Hx|lia].
    + by rewrite (bind_Ret _ _ _ _ _ Hl).
  - destruct Hl as [El Hx]. rewrite (bind_Ret _ _ _ _ _ El). cbv beta iota. rewrite Z.add_0_l in *.
    destruct (Z.ltb_spec (size - r) x); [lia|done].
Qed.
End facts.

(** ** Writing entries and checksums *)

(** The bytes of a header and what follows. *)
Lemma split_header (x : list Z) : (8 <= length x)%nat ->
  exists i r n f body, x = i ++ r ++ n ++ f ++ body /\ length i = 4%nat /\ length r = 2%nat /\ length n = 1%nat /\ length f = 1%nat.
Proof.
  intros Hx. exists (take 4 x), (take 2 (drop 4 x)), (take 1 (drop 6 x)), (take 1 (drop 7 x)), (drop 8 x).
  split; [|rewrite !length_take, !length_drop; lia].
  rewrite <- (take_drop 4 x) at 1. f_equal. rewrite <- (take_drop 2 (drop 4 x)) at 1. f_equal. rewrite drop_drop.
  change (4 + 2)%nat with 6%nat. rewrite <- (take_drop 1 (drop 6 x)) at 1. f_equal. rewrite drop_drop.
  change (6 + 1)%nat with 7%nat. rewrite <- (take_drop 1 (drop 7 x)) at 1. f_equal. by rewrite drop_drop.
Qed.

Lemma set_inode_raw bh d a i c v de :
  data bh d = Some (a ++ i ++ c) -> length i = 4%nat -> de = Z.of_nat (length a) ->
  set_de_inode bh de v d = Ret tt (set_data bh (a ++ le_put 4 v ++ c) d).
Proof. intros Hd Hi ->. by apply (write_le_mid 4 bh d a i c). Qed.

Lemma set_rec_raw bh d a i r c v de :
  data bh d = Some (a ++ i ++ r ++ c) -> length i = 4%nat -> length r = 2%nat -> de = Z.of_nat (length a) ->
  set_de_rec_len bh de v d = Ret tt (set_data bh (a ++ i ++ le_put 2 v ++ c) d).
Proof.
  intros Hd Hi Hr ->. unfold set_de_rec_len. rewrite (write_le_mid 2 bh d (a ++ i) r c); [by rewrite <- app_assoc|by rewrite <- app_assoc| |done].
  rewrite length_app. lia.
Qed.

Lemma set_nlen_raw bh d a i r n c v de :
  data bh d = Some (a ++ i ++ r ++ n ++ c) -> length i = 4%nat -> length r = 2%nat -> length n = 1%nat -> de = Z.of_nat (length a) ->
  set_de_name_len bh de v d = Ret tt (set_data bh (a ++ i ++ r ++ le_put 1 v ++ c) d).
Proof.
  intros Hd Hi Hr Hn ->. unfold set_de_name_len.
  rewrite (write_le_mid 1 bh d (a ++ i ++ r) n c); [by rewrite <- !app_assoc|by rewrite <- !app_assoc| |done]. rewrite !length_app. lia.
Qed.

Lemma set_ft_raw bh d a i r n f c v de :
  data bh d = Some (a ++ i ++ r ++ n ++ f ++ c) -> length i = 4%nat -> length r = 2%nat -> length n = 1%nat -> length f = 1%nat ->
  de = Z.of_nat (length a) ->
  set_de_file_type bh de v d = Ret tt (set_data bh (a ++ i ++ r ++ n ++ le_put 1 v ++ c) d).
Proof.
  intros Hd Hi Hr Hn Hf ->. unfold set_de_file_type.
  rewrite (write_le_mid 1 bh d (a ++ i ++ r ++ n) f c); [by rewrite <- !app_assoc|by rewrite <- !app_assoc| |done]. rewrite !length_app. lia.
Qed.

Lemma set_name_raw bh d a i r n f x c l de :
  data bh d = Some (a ++ i ++ r ++ n ++ f ++ x ++ c) -> length i = 4%nat -> length r = 2%nat -> length n = 1%nat -> length f = 1%nat ->
  length l = length x -> de = Z.of_nat (length a) ->
  set_de_name bh de l d = Ret tt (set_data bh (a ++ i ++ r ++ n ++ f ++ l ++ c) d).
Proof.
  intros Hd Hi Hr Hn Hf Hl ->. unfold set_de_name.
  rewrite (write_bytes_mid bh d (a ++ i ++ r ++ n ++ f) x c); [by rewrite <- !app_assoc|by rewrite <- !app_assoc| |done]. rewrite !length_app. lia.
Qed.

Lemma rec_len_to_disk_ok len bs d :
  0 <= len <= bs -> bs <= 4096 -> len mod 4 = 0 -> ext4_rec_len_to_disk len bs d = Ret len d.
Proof.
  intros Hl Hb Hm. unfold ext4_rec_len_to_disk. change (Z.shiftl 1 18) with 262144.
  change 3 with (Z.ones 2). rewrite Z.land_ones by lia. change (2 ^ 2) with 4. rewrite Hm, Z.eqb_refl.
  rewrite (wrap_small 32) by lia. destruct (Z.ltb_spec bs len), (Z.ltb_spec 262144 bs); try lia. unfold check, bind, ret. cbn. f_equal.
  apply wrap_small. change (2 ^ 16) with 65536. lia.
Qed.

Section facts.
Context `{HA : DirApi} {HL : DirLaws} (sb : dir_sb) {HG : dir_geo sb}.
#[local] Abbreviation entry_ok := (dent_ok (ds_inodes_count sb)).
#[local] Abbreviation blocksize := (ds_blocksize sb).

Lemma set_rec_len_raw bh d a i r c v de :
  data bh d = Some (a ++ i ++ r ++ c) -> length i = 4%nat -> length r = 2%nat -> de = Z.of_nat (length a) ->
  0 <= v <= blocksize -> v mod 4 = 0 ->
  set_rec_len bh de v blocksize d = Ret tt (set_data bh (a ++ i ++ le_put 2 v ++ c) d).
Proof.
  intros Hd Hi Hr Hde Hv Hm. unfold set_rec_len. pose proof dg_block. rewrite (bind_Ret _ _ _ _ _ (rec_len_to_disk_ok v blocksize d Hv ltac:(lia) Hm)).
  by apply (set_rec_raw bh d a i r c).
Qed.

(** ** Adding an entry *)

(** The file type that is stored. *)
Definition type_of (mode : Z) : Z := if ds_filetype sb then ext4_type_by_mode (Z.shiftr (Z.land mode S_IFMT) 12) else EXT4_FT_UNKNOWN.

Definition new_entry (inode : dir_inode) (n body : list Z) : dent :=
  mk_dent (i_ino inode) (Z.of_nat (length n)) (type_of (i_mode inode)) (n ++ drop (length n) body).

(** What becomes of the entry with room. *)
Definition put_entry (inode : dir_inode) (n : list Z) (e : dent) : list dent :=
  if e_ino e =? 0 then [new_entry inode n (e_body e)]
  else let k := Z.to_nat (EXT4_DIR_REC_LEN (e_nlen e) - 8) in
    [e <| e_body := take k (e_body e) |>; new_entry inode n (drop (k + 8) (e_body e))].

Lemma type_range mode : 0 <= type_of mode < 256.
Proof. unfold type_of, ext4_type_by_mode. repeat case_match; cbv; split; congruence. Qed.

Lemma new_entry_rec inode n body : (length n <= length body)%nat -> e_rec (new_entry inode n body) = 8 + Z.of_nat (length body).
Proof. intros Hn. unfold e_rec. cbn. rewrite length_app, length_drop. lia. Qed.

Lemma fill_entry bh d a i body nb fb c inode n de :
  data bh d = Some (a ++ i ++ le_put 2 (8 + Z.of_nat (length body)) ++ nb ++ fb ++ body ++ c) ->
  length i = 4%nat -> length nb = 1%nat -> length fb = 1%nat -> (length n <= length body)%nat -> de = Z.of_nat (length a) ->
  (set_de_file_type bh de EXT4_FT_UNKNOWN ;;;
   set_de_inode bh de (i_ino inode) ;;;
   ext4_set_de_type sb bh de (i_mode inode) ;;;
   set_de_name_len bh de (Z.of_nat (length n)) ;;;
   set_de_name bh de n) d = Ret tt (set_data bh (a ++ enc (new_entry inode n body) ++ c) d).
Proof.
  set (r := le_put 2 (8 + Z.of_nat (length body))). intros Hd Hi Hn Hf Hlen Hde.
  assert (Hr : length r = 2%nat) by apply le_put_length.
  rewrite (bind_Ret _ _ _ _ _ (set_ft_raw bh d a i r nb fb (body ++ c) _ de Hd Hi Hr Hn Hf Hde)).
  match goal with |- bind _ _ ?d' = _ => set (d1 := d') end. assert (Hd1 := data_set bh _ _ d Hd : data bh d1 = _).
  rewrite (bind_Ret _ _ _ _ _ (set_inode_raw bh d1 a i _ (i_ino inode) de Hd1 Hi Hde)). unfold d1. rewrite set_data_twice. clear d1 Hd1.
  match goal with |- bind _ _ ?d' = _ => set (d1 := d') end. assert (Hd1 := data_set bh _ _ d Hd : data bh d1 = _).
  assert (Ht : ext4_set_de_type sb bh de (i_mode inode) d1 =
    Ret tt (set_data bh (a ++ le_put 4 (i_ino inode) ++ r ++ nb ++ le_put 1 (type_of (i_mode inode)) ++ body ++ c) d)).
  { unfold ext4_set_de_type, type_of. destruct (ds_filetype sb); [|done].
    rewrite (set_ft_raw bh d1 a _ r nb _ (body ++ c) _ de Hd1); try done. unfold d1. by rewrite set_data_twice. }
  rewrite (bind_Ret _ _ _ _ _ Ht). clear d1 Hd1 Ht.
  match goal with |- bind _ _ ?d' = _ => set (d1 := d') end. assert (Hd1 := data_set bh _ _ d Hd : data bh d1 = _).
  rewrite (bind_Ret _ _ _ _ _ (set_nlen_raw bh d1 a _ r nb _ _ de Hd1 eq_refl Hr Hn Hde)). unfold d1. rewrite set_data_twice. clear d1 Hd1.
  match goal with |- set_de_name _ _ _ ?d' = _ => set (d1 := d') end. assert (Hd1 := data_set bh _ _ d Hd : data bh d1 = _).
  rewrite <- (take_drop (length n) body), <- (app_assoc (take _ _)) in Hd1.
  rewrite (set_name_raw bh d1 a _ r _ _ (take (length n) body) (drop (length n) body ++ c) n de Hd1); try done; [|rewrite length_take; lia].
  unfold d1. rewrite set_data_twice. do 2 f_equal. unfold enc. rewrite new_entry_rec by done. cbn [new_entry e_ino e_nlen e_ft e_body].
  fold r. by rewrite <- !app_assoc.
Qed.

Lemma put_entry_off inode n e :
  entry_ok e -> room (EXT4_DIR_REC_LEN (Z.of_nat (length n))) e -> off (put_entry inode n e) = e_rec e.
Proof.
  intros He Hr. pose proof (rec_len_bounds (Z.of_nat (length n))) as [? _]. pose proof (rec_len_bounds (e_nlen e)) as [? _].
  pose proof (do_nlen _ _ He). pose proof (do_fits _ _ He).
  unfold put_entry, room in *. destruct (e_ino e =? 0).
  - autorewrite with dir. rewrite new_entry_rec; unfold e_rec in *; lia.
  - autorewrite with dir. unfold e_rec at 1 in Hr. rewrite new_entry_rec by (rewrite length_drop; lia).
    unfold e_rec, update. cbn. rewrite length_take, length_drop. unfold e_rec in *. lia.
Qed.

Lemma insert_dentry_at bh d a e c inode n de :
  data bh d = Some (a ++ enc e ++ c) -> entry_ok e -> room (EXT4_DIR_REC_LEN (Z.of_nat (length n))) e -> de = Z.of_nat (length a) ->
  e_rec e <= blocksize ->
  ext4_insert_dentry sb inode bh de blocksize n d = Ret tt (set_data bh (a ++ lay (put_entry inode n e) ++ c) d).
Proof.
  intros Hd He Hroom Hde Hbs. unfold ext4_insert_dentry.
  rewrite (bind_Ret _ _ _ _ _ (de_name_len_at sb bh d a e c de Hd He Hde)), (bind_Ret _ _ _ _ _ (de_rec_len_at sb bh d a e c de Hd He Hde)),
    (bind_Ret _ _ _ _ _ (de_inode_at sb bh d a e c de Hd He Hde)).
  pose proof (rec_len_bounds (Z.of_nat (length n))) as [? _]. pose proof (rec_len_bounds (e_nlen e)) as [? Hm4].
  pose proof (do_nlen _ _ He). pose proof (do_fits _ _ He).
  unfold put_entry, room in *. destruct (Z.eqb_spec (e_ino e) 0) as [E|E]; cbn [negb].
  - rewrite bind_ret. cbn [lay mbind list_bind]. rewrite app_nil_r.
    apply (fill_entry bh d a (le_put 4 (e_ino e)) (e_body e) (le_put 1 (e_nlen e)) (le_put 1 (e_ft e)) c); try done. unfold e_rec in *. lia.
  - set (nlen := EXT4_DIR_REC_LEN (e_nlen e)) in *. set (k := Z.to_nat (nlen - 8)).
    destruct (split_header (drop k (e_body e))) as (i & r & nb & fb & body & Ex & Hi & Hr & Hnb & Hfb).
    { rewrite length_drop. unfold e_rec in *. lia. }
    assert (Hbody : length body = (length (e_body e) - k - 8)%nat).
    { pose proof (f_equal length Ex) as El. rewrite length_drop, !length_app in El. lia. }
    assert (Hdr : drop (k + 8) (e_body e) = body).
    { rewrite <- drop_drop, Ex. do 4 (rewrite drop_app_ge by lia; rewrite ?Hi, ?Hr, ?Hnb, ?Hfb; cbn [Nat.sub]). done. }
    assert (Hbd : e_body e = take k (e_body e) ++ i ++ r ++ nb ++ fb ++ body) by (by rewrite <- Ex, take_drop).
    set (a1 := a ++ le_put 4 (e_ino e)). set (a2 := le_put 1 (e_nlen e) ++ le_put 1 (e_ft e) ++ take k (e_body e)).
    assert (Hd0 : data bh d = Some ((a1 ++ le_put 2 (e_rec e) ++ a2) ++ i ++ r ++ nb ++ fb ++ body ++ c)).
    { rewrite Hd. unfold enc, a1, a2. rewrite Hbd at 1. by rewrite <- !app_assoc. }
    rewrite bind_assoc.
    assert (Hl1 : de + nlen = Z.of_nat (length (a1 ++ le_put 2 (e_rec e) ++ a2))).
    { unfold a1, a2. rewrite !length_app, !le_put_length, length_take. unfold e_rec in *. lia. }
    rewrite (bind_Ret _ _ _ _ _ (set_rec_len_raw bh d (a1 ++ le_put 2 (e_rec e) ++ a2) i r (nb ++ fb ++ body ++ c) (e_rec e - nlen) (de + nlen) Hd0 Hi Hr Hl1 ltac:(lia)
      ltac:(rewrite Zminus_mod, (do_mult _ _ He), Hm4; done))).
    match goal with |- bind _ _ ?d' = _ => set (d1 := d') end. assert (Hd1 := data_set bh _ _ d Hd : data bh d1 = _).
    rewrite bind_assoc. unfold a1 in Hd1. rewrite <- !app_assoc in Hd1.
    rewrite (bind_Ret _ _ _ _ _ (set_rec_len_raw bh d1 a (le_put 4 (e_ino e)) (le_put 2 (e_rec e)) _ nlen de Hd1 eq_refl eq_refl Hde ltac:(lia) Hm4)).
    unfold d1. rewrite set_data_twice. clear d1 Hd1. rewrite bind_ret.
    match goal with |- bind _ _ ?d' = _ => set (d1 := d') end.
    set (a3 := a ++ enc (e <| e_body := take k (e_body e) |>)).
    assert (Ha3 : a3 = a ++ le_put 4 (e_ino e) ++ le_put 2 nlen ++ a2).
    { unfold a3, enc, a2, update. cbn. unfold e_rec. cbn. rewrite length_take.
      replace (8 + Z.of_nat (k `min` length (e_body e))) with nlen by (unfold e_rec in *; lia). done. }
    assert (Hd1 : data bh d1 = Some (a3 ++ i ++ le_put 2 (8 + Z.of_nat (length body)) ++ nb ++ fb ++ body ++ c)).
    { unfold d1. rewrite (data_set _ _ _ _ Hd), Ha3, <- !app_assoc. replace (e_rec e - nlen) with (8 + Z.of_nat (length body)); [done|].
      unfold e_rec in *. lia. }
    rewrite (fill_entry bh d1 a3 i body nb fb c inode n (de + nlen) Hd1 Hi Hnb Hfb); [|unfold e_rec in *; lia|].
    + unfold d1. rewrite set_data_twice. do 2 f_equal. unfold a3. rewrite Hdr. cbn [lay mbind list_bind]. rewrite app_nil_r. by rewrite <- !app_assoc.
    + rewrite Hl1, Ha3. unfold a1. rewrite !length_app, !le_put_length. lia.
Qed.

Lemma new_entry_name inode n body : e_name (new_entry inode n body) = n.
Proof. unfold e_name, new_entry. cbn. by rewrite Nat2Z.id, take_app_length. Qed.

Lemma put_entry_ok inode n e :
  entry_ok e -> room (EXT4_DIR_REC_LEN (Z.of_nat (length n))) e -> 0 < Z.of_nat (length n) < 256 -> 0 < i_ino inode <= ds_inodes_count sb ->
  Forall entry_ok (put_entry inode n e).
Proof.
  intros He Hr Hn Hi. pose proof (rec_len_bounds (Z.of_nat (length n))) as [? _]. pose proof (rec_len_bounds (e_nlen e)) as [? Hm4].
  pose proof (type_range (i_mode inode)). destruct He as [E1 E2 E3 E4 E5 E6 E7].
  unfold put_entry, room in *. destruct (Z.eqb_spec (e_ino e) 0) as [E|E].
  - repeat constructor; cbn [new_entry e_ino e_nlen e_ft]; rewrite ?new_entry_rec by (unfold e_rec in *; lia); try lia; fold (e_rec e); lia.
  - set (k := Z.to_nat _). assert (Hk : Z.of_nat (length (drop (k + 8) (e_body e))) = e_rec e - EXT4_DIR_REC_LEN (e_nlen e) - 8).
    { rewrite length_drop. unfold k, e_rec in *. lia. }
    assert (Hc : e_rec (e <| e_body := take k (e_body e) |>) = EXT4_DIR_REC_LEN (e_nlen e)).
    { unfold e_rec, update. cbn. rewrite length_take. unfold k, e_rec in *. lia. }
    assert (Hmod : (e_rec e - EXT4_DIR_REC_LEN (e_nlen e)) mod 4 = 0) by (rewrite Zminus_mod, E5, Hm4; done).
    pose proof (rec_len_min (e_nlen e) ltac:(specialize (E7 E); lia)). pose proof (rec_len_min (Z.of_nat (length n))).
    repeat constructor; rewrite ?Hc; cbn [new_entry e_ino e_nlen e_ft]; rewrite ?new_entry_rec by lia; unfold update; cbn; rewrite ?Hk; try lia.
    all: replace (8 + (e_rec e - EXT4_DIR_REC_LEN (e_nlen e) - 8)) with (e_rec e - EXT4_DIR_REC_LEN (e_nlen e)) by lia; lia.
Qed.

Lemma put_entry_entries inode n e :
  entry_ok e -> room (EXT4_DIR_REC_LEN (Z.of_nat (length n))) e -> i_ino inode <> 0 ->
  entries (put_entry inode n e) ≡ₚ (n, i_ino inode) :: entries [e].
Proof.
  intros He Hr Hi. pose proof (do_fits _ _ He). pose proof (do_nlen _ _ He). pose proof (rec_len_bounds (e_nlen e)) as [? _].
  unfold put_entry. destruct (Z.eqb_spec (e_ino e) 0) as [E|E].
  - rewrite (entries_dead e) by (unfold live; congruence). rewrite entries_live by done. by rewrite new_entry_name.
  - rewrite (entries_live e) by done. rewrite entries_live by done. rewrite entries_live by done. rewrite new_entry_name.
    replace (e_name _) with (e_name e); [by apply Permutation_swap|].
    unfold e_name, update. cbn. rewrite take_take. f_equal. lia.
Qed.

(** ** Leaf blocks *)

(** The entry that holds the checksum. *)
Definition dtail (c : list Z) : list dent := if ds_metadata_csum sb then [mk_dent 0 0 EXT4_FT_DIR_CSUM c] else [].

Record leaf (bh : Z) (d : dir_st) (es : list dent) : Prop := {
  lf_data : exists c, length c = 4%nat /\ data bh d = Some (lay (es ++ dtail c));
  lf_ok : Forall entry_ok es;
  lf_off : off es = blocksize - csum_size sb;
}.

(** What an operation on one block keeps. *)
Record only (bh : Z) (d d' : dir_st) : Prop := {
  on_bufs : forall bh', bh' <> bh -> buf_at bh' d' = buf_at bh' d;
  on_verified : db_verified <$> buf_at bh d' = db_verified <$> buf_at bh d;
  on_count : length (d_bufs d') = length (d_bufs d);
  on_size : d_size d' = d_size d;
  on_dx : is_dx sb d' = is_dx sb d;
  on_nlink : d_nlink d' = d_nlink d;
  on_lookup : d_start_lookup d' = d_start_lookup d;
}.

(** The checksum of the block is right, in every state with its bytes. *)
Definition verifies (bh : Z) (d : dir_st) : Prop := forall d', data bh d' = data bh d -> ext4_dirent_csum_verify sb bh d' = Ret true d'.

Lemma only_refl bh d : only bh d d.
Proof. by split. Qed.
Lemma only_trans bh d d' d'' : only bh d d' -> only bh d' d'' -> only bh d d''.
Proof. intros [] []. split; [|congruence..]. intros bh' Hne. by rewrite on_bufs1, on_bufs0. Qed.

Lemma with_buf_ok bh f d b :
  buf_at bh d = Some b -> with_buf bh f d = Ret tt (d <| d_bufs ::= alter f (Z.to_nat bh) |>).
Proof. unfold with_buf. by intros ->. Qed.

Lemma only_alter bh d f : 0 <= bh -> (forall b, db_verified (f b) = db_verified b) -> only bh d (d <| d_bufs ::= alter f (Z.to_nat bh) |>).
Proof.
  intros Hbh Hf. split; try done; unfold update; cbn; [|rewrite ?length_alter; try done..].
  - intros bh' Hne. unfold buf_at. cbn. destruct (Z.ltb_spec bh' 0); [done|]. by rewrite list_lookup_alter_ne by lia.
  - unfold buf_at. cbn. destruct (Z.ltb_spec bh 0); [lia|]. rewrite list_lookup_alter_eq. destruct (d_bufs d !! _); [|done]. cbn. by rewrite Hf.
Qed.

Lemma only_set_data bh d b : 0 <= bh -> only bh d (set_data bh b d).
Proof. intros Hbh. by apply only_alter. Qed.

Lemma dtail_length c : length c = 4%nat -> off (dtail c) = csum_size sb.
Proof.
  intros Hc. unfold dtail, csum_size. destruct (ds_metadata_csum sb); [|done]. rewrite off_cons, off_nil. unfold e_rec. cbn [e_body]. rewrite Hc. done.
Qed.

Lemma dtail_ok c : length c = 4%nat -> Forall entry_ok (dtail c).
Proof.
  intros Hc. unfold dtail. destruct (ds_metadata_csum sb); [|done]. pose proof dg_inodes.
  constructor; [|done]. assert (E : e_rec (mk_dent 0 0 EXT4_FT_DIR_CSUM c) = 12) by (unfold e_rec; cbn [e_body]; by rewrite Hc).
  split; rewrite ?E; cbn [e_ino e_nlen e_ft]; try done; lia.
Qed.

Lemma dtail_dead c : entries (dtail c) = [].
Proof. unfold dtail. by destruct (ds_metadata_csum sb). Qed.

(** The checksum that belongs to the entries. *)
Definition csum_of (es : list dent) : list Z := le_put 4 (u32 (ext4_chksum i_csum_seed (lay es))).

Section csum.
Context (bh : Z) (d : dir_st) (es : list dent) (c : list Z).
Context (Hd : data bh d = Some (lay (es ++ dtail c))) (Hc : length c = 4%nat) (Hl : off es = blocksize - csum_size sb).

Lemma get_tail_at : ds_metadata_csum sb = true -> get_dirent_tail sb bh d = Ret (Some (off es)) d.
Proof using HG Hd Hc Hl.
  intros Hcs. unfold csum_size, dtail in *. rewrite Hcs in *. unfold get_dirent_tail. rewrite <- Hl.
  rewrite lay_app, lay_cons in Hd. assert (Hok : entry_ok (mk_dent 0 0 EXT4_FT_DIR_CSUM c)).
  { pose proof (dtail_ok c Hc) as Ht. unfold dtail in Ht. rewrite Hcs in Ht. by inversion Ht. }
  rewrite (bind_Ret _ _ _ _ _ (de_inode_at sb bh d (lay es) _ (lay []) (off es) Hd Hok eq_refl)).
  rewrite (bind_Ret _ _ _ _ _ (de_rec_len_field sb bh d (lay es) _ (lay []) (off es) Hd Hok eq_refl)).
  rewrite (bind_Ret _ _ _ _ _ (de_name_len_at sb bh d (lay es) _ (lay []) (off es) Hd Hok eq_refl)).
  rewrite (bind_Ret _ _ _ _ _ (de_file_type_at sb bh d (lay es) _ (lay []) (off es) Hd Hok eq_refl)).
  unfold e_rec. cbn [e_ino e_nlen e_ft e_body]. by rewrite Hc.
Qed.

Lemma dirent_csum_at : ext4_dirent_csum bh (off es) d = Ret (u32 (ext4_chksum i_csum_seed (lay es))) d.
Proof using Hd.
  unfold ext4_dirent_csum. rewrite lay_app in Hd.
  by rewrite (bind_Ret _ _ _ _ _ (read_bytes_mid bh d [] (lay es) (lay (dtail c)) 0 (off es) Hd eq_refl eq_refl)).
Qed.

Lemma csum_set_at : ext4_dirent_csum_set sb bh d = Ret tt (set_data bh (lay (es ++ dtail (csum_of es))) d).
Proof using HG Hd Hc Hl.
  unfold ext4_dirent_csum_set. destruct (ds_metadata_csum sb) eqn:Hcs; cbn [negb].
  - rewrite (bind_Ret _ _ _ _ _ (get_tail_at Hcs)). cbv beta iota. rewrite (bind_Ret _ _ _ _ _ dirent_csum_at).
    unfold dtail in *. rewrite Hcs in *. rewrite lay_app, lay_cons in *. unfold enc in Hd. cbn [e_ino e_nlen e_ft e_body] in Hd.
    rewrite <- !app_assoc in Hd. set (r := le_put 2 _) in Hd.
    rewrite (write_le_mid 4 bh d (lay es ++ le_put 4 0 ++ r ++ le_put 1 0 ++ le_put 1 EXT4_FT_DIR_CSUM) c (lay [])); [|by rewrite <- !app_assoc| |done].
    + do 2 f_equal. rewrite <- !app_assoc. unfold enc, r, e_rec, csum_of. cbn [e_ino e_nlen e_ft e_body]. by rewrite le_put_length, Hc, <- !app_assoc.
    + unfold off. rewrite !length_app, !le_put_length. unfold r. rewrite le_put_length. lia.
  - unfold ret. f_equal. symmetry. apply set_data_id. unfold dtail in *. by rewrite Hcs in *.
Qed.

End csum.

Lemma csum_of_length es : length (csum_of es) = 4%nat.
Proof. apply le_put_length. Qed.

Lemma csum_of_verifies bh d es :
  data bh d = Some (lay (es ++ dtail (csum_of es))) -> off es = blocksize - csum_size sb -> verifies bh d.
Proof.
  intros Hd0 Hl d' E'. rewrite <- E' in Hd0. clear d E'. rename d' into d, Hd0 into Hd. unfold ext4_dirent_csum_verify. destruct (ds_metadata_csum sb) eqn:Hcs; [|done]. cbn [negb].
  rewrite (bind_Ret _ _ _ _ _ (get_tail_at bh d es _ Hd (csum_of_length es) Hl Hcs)). cbv beta iota.
  pose proof (dirent_csum_at bh d es _ Hd) as Ec. unfold dtail in Hd. rewrite Hcs, lay_app, lay_cons in Hd. unfold enc in Hd.
  cbn [e_ino e_nlen e_ft e_body] in Hd. rewrite <- !app_assoc in Hd. set (r := le_put 2 _) in Hd.
  set (v := u32 (ext4_chksum i_csum_seed (lay es))) in *.
  assert (Er : read_le 4 bh (off es + 8) d = Ret v d).
  { apply (read_le_mid 4 bh d (lay es ++ le_put 4 0 ++ r ++ le_put 1 0 ++ le_put 1 EXT4_FT_DIR_CSUM) v (lay [])).
    - rewrite Hd. by rewrite <- !app_assoc.
    - unfold off. rewrite !length_app, !le_put_length. unfold r. rewrite le_put_length. lia.
    - apply wrap_range. lia. }
  rewrite (bind_Ret _ _ _ _ _ Er), (bind_Ret _ _ _ _ _ Ec). unfold ret. by rewrite Z.eqb_refl.
Qed.

Lemma leaf_data_eq bh d es c : data bh d = Some (lay (es ++ dtail c)) -> length c = 4%nat -> Forall entry_ok es -> off es = blocksize - csum_size sb -> leaf bh d es.
Proof. intros Hd Hc Hok Hl. split; [by exists c|done..]. Qed.

(** Marking a block dirty does not change its bytes. *)
Lemma handle_dirty_at bh d b :
  data bh d = Some b ->
  runs (ext4_handle_dirty_metadata sb bh) d (fun r d' =>
    data bh d' = Some b /\ only bh d d' /\ r = (if ds_needs_sync sb && sync_fails bh then - EIO else 0)).
Proof.
  intros Hd. pose proof (data_nonneg _ _ _ Hd) as Hbh.
  assert (Hany : forall d2 v, data bh d2 = Some b -> only bh d d2 ->
    let d3 := d2 <| d_bufs ::= alter (fun x => x <| db_dirty := v |>) (Z.to_nat bh) |> in
    with_buf bh (fun x => x <| db_dirty := v |>) d2 = Ret tt d3 /\ data bh d3 = Some b /\ only bh d d3).
  { intros d2 v E2 Ho2 d3. unfold data in E2. destruct (buf_at bh d2) as [x|] eqn:Eb; [|done].
    split; [by eapply with_buf_ok|]. split; [|eapply only_trans; [exact Ho2|by apply only_alter]].
    rewrite <- E2. unfold data, d3, buf_at, update in *. cbn. destruct (bh <? 0); [done|]. rewrite list_lookup_alter_eq, Eb. done. }
  unfold ext4_handle_dirty_metadata. destruct (Hany d true Hd (only_refl _ _)) as (E1 & Ed2 & Ho2).
  eapply runs_bind, runs_intro; [exact E1|]. clear E1. set (d2 := d <| d_bufs ::= _ |>) in *. clearbody d2.
  destruct (ds_needs_sync sb); [|by apply runs_ret].
  destruct (Hany d2 false Ed2 Ho2) as (E3 & Ed3 & Ho3). eapply runs_bind, runs_intro; [exact E3|]. clear E3.
  set (d3 := d2 <| d_bufs ::= _ |>) in *. clearbody d3. cbn [andb].
  destruct (sync_fails bh); [|by apply runs_ret]. apply runs_bind, runs_modify, runs_ret. split; [done|]. split; [by destruct Ho3; split|done].
Qed.

(** Marking a leaf dirty makes its checksum right. *)
Lemma dirty_node_at bh d es :
  leaf bh d es ->
  runs (ext4_handle_dirty_dirent_node sb bh) d (fun r d' =>
    leaf bh d' es /\ verifies bh d' /\ only bh d d' /\ r = (if ds_needs_sync sb && sync_fails bh then - EIO else 0)).
Proof.
  intros [(c & Hc & Hd) Hok Hl]. pose proof (data_nonneg _ _ _ Hd) as Hbh. unfold ext4_handle_dirty_dirent_node.
  eapply runs_bind, runs_intro; [by apply (csum_set_at bh d es c)|].
  set (d1 := set_data _ _ _). assert (Hd1 := data_set bh _ _ d Hd : data bh d1 = _). assert (Ho : only bh d d1) by by apply only_set_data. clearbody d1.
  eapply runs_conseq; [by apply handle_dirty_at|]. intros r d2 (Hd2 & Ho2 & ->). split; [by eapply leaf_data_eq; [|apply csum_of_length|..]|].
  split; [by eapply csum_of_verifies|]. split; [by eapply only_trans|done].
Qed.
End facts.

(** ** Entering and deleting in a leaf *)

Section leaf.
Context `{HA : DirApi} {HL : DirLaws} (sb : dir_sb) {HG : dir_geo sb}.
#[local] Abbreviation entry_ok := (dent_ok (ds_inodes_count sb)).
#[local] Abbreviation blocksize := (ds_blocksize sb).
#[local] Abbreviation reclen n := (EXT4_DIR_REC_LEN (Z.of_nat (length n))).

(** A name and an inode that can be entered. *)
Record enterable (n : list Z) (inode : dir_inode) : Prop := {
  en_name : 0 < Z.of_nat (length n) < 256;
  en_ino : 0 < i_ino inode <= ds_inodes_count sb;
}.

Lemma leaf_mid bh d pre e post : leaf sb bh d (pre ++ e :: post) ->
  exists c, length c = 4%nat /\ data bh d = Some (lay pre ++ enc e ++ lay (post ++ dtail sb c)) /\ entry_ok e /\ e_rec e <= blocksize.
Proof.
  intros [(c & Hc & Hd) Hok Hl]. exists c. split; [done|]. split.
  { rewrite Hd. rewrite <- app_assoc, lay_app. done. }
  apply Forall_app in Hok as [_ Hok]. inversion_clear Hok as [|?? He _]. split; [done|].
  autorewrite with dir in Hl. pose proof (off_nonneg pre). pose proof (off_nonneg post). unfold csum_size, sizeof_dir_entry_tail in Hl.
  destruct (ds_metadata_csum sb); lia.
Qed.

Lemma add_at bh d pre e post inode n :
  leaf sb bh d (pre ++ e :: post) -> room (reclen n) e -> enterable n inode ->
  runs (add_dirent_to_buf sb n inode (Some (off pre)) bh) d (fun r d' =>
    r = 0 /\ leaf sb bh d' (pre ++ put_entry sb inode n e ++ post) /\ verifies sb bh d' /\ only sb bh d d').
Proof.
  intros Hleaf Hroom [Hn Hi]. destruct (leaf_mid _ _ _ _ _ Hleaf) as (c & Hc & Hd & He & Hbs).
  pose proof (data_nonneg _ _ _ Hd) as Hbh. unfold add_dirent_to_buf. apply runs_bind, runs_ret. cbv beta iota.
  eapply runs_bind, runs_intro; [by apply (insert_dentry_at sb bh d (lay pre) e (lay (post ++ dtail sb c)))|].
  set (d1 := set_data _ _ _). assert (Hd1 := data_set bh _ _ d Hd : data bh d1 = _).
  assert (Ho1 : only sb bh d d1) by by apply only_set_data. clearbody d1. apply runs_bind, runs_modify. set (d2 := d1 <| d_mtime := _ |>).
  assert (exists d3, ext4_update_dx_flag sb d2 = Ret tt d3 /\ only sb bh d d3 /\ data bh d3 = data bh d1) as (d3 & E3 & Ho3 & Hd3).
  { unfold ext4_update_dx_flag. destruct (ds_dir_index sb) eqn:Ei; cbn [negb]; (eexists; split; [reflexivity|]); (split; [|done]);
      destruct Ho1; split; try done. unfold is_dx. by rewrite Ei. }
  eapply runs_bind, runs_intro; [exact E3|]. clear E3. clearbody d2.
  apply runs_bind, runs_modify. set (d4 := d3 <| d_version ::= _ |>). apply runs_bind, runs_modify. set (d5 := d4 <| d_dirty := _ |>).
  assert (Hl5 : leaf sb bh d5 (pre ++ put_entry sb inode n e ++ post)).
  { apply (leaf_data_eq sb bh d5 _ c); [| |..]; try done.
    - change (data bh d5) with (data bh d3). rewrite Hd3, Hd1, <- !app_assoc, !lay_app. done.
    - pose proof (lf_ok _ _ _ _ Hleaf) as Hok. apply Forall_app in Hok as [H1 H2]. inversion_clear H2. rewrite !Forall_app. split; [done|].
      split; [by apply put_entry_ok|done].
    - rewrite <- (lf_off _ _ _ _ Hleaf). autorewrite with dir. by rewrite (put_entry_off sb). }
  assert (Ho5 : only sb bh d d5) by (destruct Ho3; by split). clearbody d5.
  apply runs_bind. eapply runs_conseq; [by apply dirty_node_at|]. intros err d6 (Hl6 & Hv & Ho6 & _).
  apply runs_bind. assert (Ho : only sb bh d d6) by by eapply only_trans. destruct (negb (err =? 0)).
  - apply runs_modify, runs_ret. split; [done|]. destruct Hl6 as [? ? ?]. split; [done|]. by destruct Ho.
  - by apply runs_ret, runs_ret.
Qed.

(** Adding a name: what [add_dirent_to_buf] returns, and the entries after it. *)
Lemma put_entry_tidy inode n pre e post : i_ino inode <> 0 -> tidy (pre ++ e :: post) -> tidy (pre ++ put_entry sb inode n e ++ post).
Proof.
  intros Hi Ht. assert (Hput : live e -> Forall live (put_entry sb inode n e)).
  { intros He. unfold put_entry. case_match; repeat constructor; done. }
  unfold tidy in *. destruct pre as [|p pre]; cbn [app tail] in *.
  - unfold put_entry in *. destruct (Z.eqb_spec (e_ino e) 0) as [E|E]; cbn [app tail]; [done|]. by constructor.
  - apply Forall_app in Ht as [H1 H2]. inversion_clear H2 as [|?? He Hpost]. rewrite !Forall_app. split; [done|]. split; [by apply Hput|done].
Qed.

Lemma add_dirent_at bh d es inode n :
  leaf sb bh d es -> enterable n inode ->
  runs (add_dirent_to_buf sb n inode None bh) d (fun r d' =>
    match dest_of n (reclen n) es with
    | inl err => r = err /\ d' = d
    | inr _ => r = 0 /\ exists es', leaf sb bh d' es' /\ entries es' ≡ₚ (n, i_ino inode) :: entries es /\ verifies sb bh d' /\ only sb bh d d' /\
               exists pre e post, es = pre ++ e :: post /\ room (reclen n) e /\ es' = pre ++ put_entry sb inode n e ++ post
    end).
Proof.
  intros Hleaf Hen. pose proof Hleaf as [(c & Hc & Hd) Hok Hl]. rewrite lay_app in Hd.
  pose proof (find_dest_at sb bh d n es (lay (dtail sb c)) (blocksize - csum_size sb) Hd Hok Hl (proj2 (en_name _ _ Hen))) as Ef.
  destruct (dest_of n (reclen n) es) as [err|o] eqn:Ed.
  - unfold add_dirent_to_buf. eapply runs_bind, runs_intro; [exact Ef|]. by apply runs_ret.
  - assert (exists pre e post, es = pre ++ e :: post /\ room (reclen n) e /\ o = off pre) as (pre & e & post & -> & Hr & ->).
    { unfold dest_of in Ed. destruct (list_find _ es) as [[i e]|] eqn:El; [|done]. case_decide as Hn; [done|]. injection Ed as <-.
      apply list_find_Some in El as (Hi & Hp & _). exists (take i es), e, (drop (S i) es). split; [by rewrite take_drop_middle|].
      by destruct Hp. }
    assert (Eq : add_dirent_to_buf sb n inode None bh d = add_dirent_to_buf sb n inode (Some (off pre)) bh d).
    { unfold add_dirent_to_buf. by rewrite (bind_Ret _ _ _ _ _ Ef). }
    pose proof (add_at bh d pre e post inode n Hleaf Hr Hen) as Hrun. unfold runs in *. rewrite Eq. clear Eq.
    destruct (add_dirent_to_buf _ _ _ _ _ d) as [r d'| |]; [|done..]. destruct Hrun as (-> & Hl' & Hv & Ho). split; [done|].
    exists (pre ++ put_entry sb inode n e ++ post). split; [done|]. split; [|split; [done|]; split; [done|]; by exists pre, e, post].
    rewrite !entries_app, (put_entry_entries sb); [| |done|].
    + change (e :: post) with ([e] ++ post). rewrite entries_app. symmetry. apply Permutation_middle.
    + by destruct (leaf_mid _ _ _ _ _ Hleaf) as (_ & _ & _ & ? & _).
    + pose proof (en_ino _ _ Hen). lia.
Qed.

(** ** Deleting *)

(** The list without the entry behind [pre]. *)
Definition drop_entry (pre : list dent) (e : dent) (post : list dent) : list dent :=
  match last pre with
  | None => e <| e_ino := 0 |> :: post
  | Some p => removelast pre ++ p <| e_body := e_body p ++ enc e |> :: post
  end.

Lemma drop_entry_entries pre e post : Forall entry_ok pre -> entries (drop_entry pre e post) = entries (pre ++ post).
Proof.
  intros Hok. unfold drop_entry. destruct pre as [|p pre _] using rev_ind; [done|].
  apply Forall_app in Hok as [_ Hp]. inversion_clear Hp as [|?? Hp' _]. pose proof (e_name_length _ _ Hp') as En.
  rewrite last_snoc, removelast_last, <- app_assoc, !entries_app. f_equal. cbn [app].
  assert (Ee : e_name (p <| e_body := e_body p ++ enc e |>) = e_name p).
  { unfold e_name, update in *. cbn. apply take_app_le. pose proof (do_nlen _ _ Hp'). rewrite length_take in En. lia. }
  destruct (decide (live p)).
  - rewrite !entries_live by done. by rewrite Ee.
  - by rewrite !entries_dead by done.
Qed.

Lemma drop_entry_tidy pre e post : tidy (pre ++ e :: post) -> tidy (drop_entry pre e post).
Proof.
  unfold drop_entry, tidy. destruct pre as [|p pre _] using rev_ind; [done|]. rewrite last_snoc, removelast_last, <- app_assoc. cbn [app].
  destruct pre as [|q pre]; cbn [app tail]; [by inversion 1|]. rewrite !Forall_app. intros [H1 H2]. split; [done|].
  inversion_clear H2 as [|?? Hp H3]. inversion_clear H3. by constructor.
Qed.

Lemma drop_entry_off pre e post : off (drop_entry pre e post) = off (pre ++ e :: post).
Proof.
  unfold drop_entry. destruct pre as [|p pre _] using rev_ind; [done|]. rewrite last_snoc, removelast_last. autorewrite with dir.
  unfold e_rec at 1. unfold update. cbn [e_body]. rewrite length_app, Nat2Z.inj_add, enc_length. unfold e_rec. lia.
Qed.

Lemma drop_entry_ok pre e post : Forall entry_ok (pre ++ e :: post) -> off (pre ++ e :: post) <= blocksize -> Forall entry_ok (drop_entry pre e post).
Proof.
  intros Hok Hl. pose proof dg_block. apply Forall_app in Hok as [Hpre Hok]. inversion_clear Hok as [|?? He Hpost].
  unfold drop_entry. destruct pre as [|p pre _] using rev_ind.
  - constructor; [|done]. destruct He. split; try done. unfold update. cbn. lia.
  - rewrite last_snoc, removelast_last. apply Forall_app in Hpre as [Hpre Hp]. inversion_clear Hp as [|?? Hp' _].
    apply Forall_app. split; [done|]. constructor; [|done].
    assert (E : e_rec (p <| e_body := e_body p ++ enc e |>) = e_rec p + e_rec e).
    { unfold e_rec at 1, update. cbn [e_body]. rewrite length_app, Nat2Z.inj_add, enc_length. unfold e_rec. lia. }
    autorewrite with dir in Hl. pose proof (off_nonneg pre). pose proof (off_nonneg post). pose proof (e_rec_pos e).
    destruct Hp' as [? ? ? ? Hm ? ?], He as [? ? ? ? Hm' ? ?].
    split; rewrite ?E; try done; [lia|by rewrite Zplus_mod, Hm, Hm'|unfold update; cbn; lia].
Qed.

(** The write that removes an entry. *)
Lemma remove_at bh d pre e post tl (c := lay post ++ tl) :
  data bh d = Some (lay pre ++ enc e ++ c) -> Forall entry_ok (pre ++ e :: post) -> off (pre ++ e :: post) <= blocksize ->
  (match (fun _ => off (removelast pre)) <$> last pre with
   | Some pde => pl <-- rec_len bh pde ;; l <-- rec_len bh (off pre) ;; set_rec_len bh pde (pl + l) blocksize
   | None => set_de_inode bh (off pre) 0
   end) d = Ret tt (set_data bh (lay (drop_entry pre e post) ++ tl) d).
Proof.
  intros Hd Hok Hl. apply Forall_app in Hok as [Hpre Hok]. inversion_clear Hok as [|?? He Hpost].
  unfold drop_entry. destruct pre as [|p pre _] using rev_ind.
  - cbn -[lay enc set_de_inode]. rewrite (set_inode_raw bh d [] (le_put 4 (e_ino e)) (le_put 2 (e_rec e) ++ le_put 1 (e_nlen e) ++ le_put 1 (e_ft e) ++ e_body e ++ c));
      [|rewrite Hd; unfold enc; cbn [app]; by rewrite <- !app_assoc|done..].
    do 2 f_equal. rewrite lay_cons. unfold enc, update. cbn [e_ino e_nlen e_ft e_body app]. unfold c. by rewrite <- !app_assoc.
  - rewrite last_snoc, removelast_last. cbn [fmap option_fmap option_map]. apply Forall_app in Hpre as [Hpre Hp]. inversion_clear Hp as [|?? Hp' _].
    assert (Hd0 : data bh d = Some (lay pre ++ enc p ++ enc e ++ c)) by (rewrite Hd, lay_app, lay_cons, app_nil_r; by rewrite <- !app_assoc).
    rewrite (bind_Ret _ _ _ _ _ (de_rec_len_at sb bh d (lay pre) p (enc e ++ c) (off pre) Hd0 Hp' eq_refl)).
    rewrite (bind_Ret _ _ _ _ _ (de_rec_len_at sb bh d (lay (pre ++ [p])) e c (off (pre ++ [p])) Hd He eq_refl)).
    autorewrite with dir in Hl. pose proof (off_nonneg pre). pose proof (off_nonneg post). pose proof (e_rec_pos e). pose proof (e_rec_pos p).
    rewrite (set_rec_len_raw sb bh d (lay pre) (le_put 4 (e_ino p)) (le_put 2 (e_rec p)) (le_put 1 (e_nlen p) ++ le_put 1 (e_ft p) ++ e_body p ++ enc e ++ c));
      [|rewrite Hd0; unfold enc at 1; by rewrite <- !app_assoc|done..|lia|by rewrite Zplus_mod, (do_mult _ _ Hp'), (do_mult _ _ He)].
    assert (E : enc (p <| e_body := e_body p ++ enc e |>) =
      le_put 4 (e_ino p) ++ le_put 2 (e_rec p + e_rec e) ++ le_put 1 (e_nlen p) ++ le_put 1 (e_ft p) ++ e_body p ++ enc e).
    { unfold enc at 1, update. cbn [e_ino e_nlen e_ft e_body]. unfold e_rec at 1. cbn [e_body].
      rewrite length_app, Nat2Z.inj_add, enc_length, Z.add_assoc. done. }
    do 2 f_equal. rewrite lay_app, lay_cons, E. unfold c. by rewrite <- !app_assoc.
Qed.

Lemma delete_loop_at bh d mid pre e post tl fuel :
  data bh d = Some (lay (pre ++ mid ++ e :: post) ++ tl) -> Forall entry_ok (pre ++ mid ++ e :: post) -> off (pre ++ mid ++ e :: post) <= blocksize -> (length mid < fuel)%nat ->
  delete_loop sb fuel bh (off (pre ++ mid)) (off (pre ++ mid ++ e :: post)) (off pre) ((fun _ => off (removelast pre)) <$> last pre) d =
    Ret 0 ((set_data bh (lay (drop_entry (pre ++ mid) e post) ++ tl) d) <| d_version ::= fun v => u64 (v + 1) |>).
Proof.
  revert pre fuel. induction mid as [|x mid IH]; intros pre fuel Hd Hok Hl Hf; (destruct fuel as [|fuel]; [simpl in Hf; lia|]); cbn [delete_loop].
  - rewrite !app_nil_r in *. cbn [app] in *. pose proof Hok as Hok'. apply Forall_app in Hok as [Hpre Hok]. inversion_clear Hok as [|?? He Hpost].
    rewrite lay_app, lay_cons, <- !app_assoc in Hd. pose proof (off_nonneg post). pose proof (e_rec_pos e).
    destruct (Z.ltb_spec (off pre) (off (pre ++ e :: post))) as [_|Hge]; [|autorewrite with dir in Hge; lia].
    erewrite bind_Ret by (apply (check_at sb bh d (lay pre) e (lay post ++ tl)); [done..|autorewrite with dir in Hl; lia]). cbn [negb Z.eqb].
    rewrite Z.eqb_refl. by erewrite bind_Ret by (by apply remove_at).
  - rewrite lay_app, <- app_assoc in Hd. cbn [app] in Hd. rewrite lay_cons, <- app_assoc in Hd.
    pose proof Hok as Hok'. apply Forall_app in Hok as [Hpre Hok]. inversion_clear Hok as [|?? Hx Hpost].
    pose proof (off_nonneg mid). pose proof (off_nonneg (mid ++ e :: post)). pose proof (e_rec_pos x).
    destruct (Z.ltb_spec (off pre) (off (pre ++ (x :: mid) ++ e :: post))) as [_|Hge]; [|cbn [app] in Hge; rewrite off_app, off_cons in Hge; lia].
    erewrite bind_Ret by (apply (check_at sb bh d (lay pre) x (lay (mid ++ e :: post) ++ tl)); [done..|cbn [app] in Hl; rewrite off_app, off_cons in Hl; lia]). cbn [negb Z.eqb].
    destruct (Z.eqb_spec (off pre) (off (pre ++ x :: mid))) as [Heq|_]; [rewrite off_app, off_cons in Heq; lia|].
    erewrite bind_Ret by (by apply (de_rec_len_at sb bh d (lay pre) x (lay (mid ++ e :: post) ++ tl))).
    replace (off pre + e_rec x) with (off (pre ++ [x])) by (autorewrite with dir; lia).
    specialize (IH (pre ++ [x]) fuel). rewrite <- !(app_assoc pre [x]) in IH. cbn [app] in IH.
    rewrite last_snoc, removelast_last in IH. apply IH; [|done..|simpl in Hf; lia].
    rewrite Hd, (lay_app pre (x :: _)), lay_cons. by rewrite <- !app_assoc.
Qed.

Lemma delete_at bh d pre e post :
  leaf sb bh d (pre ++ e :: post) ->
  runs (ext4_delete_entry sb (off pre) bh) d (fun r d' =>
    leaf sb bh d' (drop_entry pre e post) /\ entries (drop_entry pre e post) = entries (pre ++ post) /\ verifies sb bh d' /\ only sb bh d d' /\
    r = (if ds_needs_sync sb && sync_fails bh then - EIO else 0)).
Proof.
  intros Hleaf. pose proof Hleaf as [(c & Hc & Hd) Hok Hl]. pose proof (data_nonneg _ _ _ Hd) as Hbh. rewrite lay_app in Hd.
  assert (Hl0 : off (pre ++ e :: post) <= blocksize) by (unfold csum_size, sizeof_dir_entry_tail in Hl; destruct (ds_metadata_csum sb); lia).
  pose proof (Forall_length_off sb _ Hok) as Hlen. rewrite length_app in Hlen. simpl in Hlen.
  unfold ext4_delete_entry, ext4_generic_delete_entry. apply runs_bind.
  pose proof (delete_loop_at bh d pre [] e post (lay (dtail sb c)) (S (Z.to_nat blocksize)) Hd Hok Hl0 ltac:(lia)) as E. cbn [app last fmap option_fmap option_map] in E.
  rewrite Hl in E. eapply runs_intro; [exact E|]. clear E. set (d1 := _ <| d_version ::= _ |>). cbn [negb Z.eqb].
  assert (Hl1 : leaf sb bh d1 (drop_entry pre e post)).
  { apply (leaf_data_eq sb bh d1 _ c); [|done|by apply drop_entry_ok|by rewrite drop_entry_off].
    change (data bh d1) with (data bh (set_data bh (lay (drop_entry pre e post) ++ lay (dtail sb c)) d)). by rewrite (data_set _ _ _ _ Hd), lay_app. }
  assert (Ho1 : only sb bh d d1) by (destruct (only_set_data sb bh d (lay (drop_entry pre e post) ++ lay (dtail sb c)) Hbh); by split). clearbody d1.
  apply runs_bind. eapply runs_conseq; [by apply dirty_node_at|]. intros err d2 (Hl2 & Hv & Ho2 & Herr).
  assert (Ho : only sb bh d d2) by by eapply only_trans. apply Forall_app in Hok as [Hpre _].
  apply runs_bind. destruct (negb (err =? 0) && negb (err =? - ENOENT)).
  - apply runs_modify, runs_ret. destruct Hl2 as [? ? ?]. split; [done|]. split; [by apply drop_entry_entries|]. split; [done|]. by destruct Ho.
  - apply runs_ret, runs_ret. split; [done|]. by rewrite drop_entry_entries.
Qed.
End leaf.
