(* ===== verification/DirFacts.v ===== *)
(** * mqfs: linear directories

    A linear directory is a list of leaf blocks; its contents are a finite map
    from names to inodes. *)

From S2P Require Import Prelude Dirent DirentFacts Dir.

(** Names to inodes. *)
Definition contents (ess : list (list dent)) : gmap (list Z) Z := list_to_map (entries (concat ess)).
Definition unique_names (ess : list (list dent)) : Prop := NoDup (entries (concat ess)).*1.

Lemma contents_lookup ess n ino : unique_names ess -> contents ess !! n = Some ino <-> (n, ino) ∈ entries (concat ess).
Proof. intros Hu. symmetry. by apply elem_of_list_to_map. Qed.

Lemma contents_absent ess n : contents ess !! n = None <-> n ∉ (entries (concat ess)).*1.
Proof. unfold contents. symmetry. apply not_elem_of_list_to_map. Qed.

Lemma contents_insert ess ess' n ino :
  unique_names ess -> contents ess !! n = None -> entries (concat ess') ≡ₚ (n, ino) :: entries (concat ess) ->
  unique_names ess' /\ contents ess' = <[n := ino]> (contents ess).
Proof.
  intros Hu Hn Hp. assert (Hu' : unique_names ess').
  { unfold unique_names. rewrite Hp. cbn. apply NoDup_cons. split; [by apply contents_absent|done]. }
  split; [done|]. unfold contents. rewrite <- list_to_map_cons. apply list_to_map_proper; [done|exact Hp].
Qed.

Lemma contents_delete ess ess' n ino :
  unique_names ess -> (n, ino) :: entries (concat ess') ≡ₚ entries (concat ess) ->
  unique_names ess' /\ contents ess' = delete n (contents ess).
Proof.
  intros Hu Hp. unfold unique_names in Hu. rewrite <- Hp in Hu. cbn in Hu. apply NoDup_cons in Hu as [Hn Hu]. split; [done|].
  assert (Hu' : NoDup ((n, ino) :: entries (concat ess')).*1) by (cbn; by apply NoDup_cons).
  unfold contents. rewrite <- (list_to_map_proper _ _ Hu' Hp). cbn. rewrite delete_insert_id; [done|]. by apply not_elem_of_list_to_map_1.
Qed.

Lemma concat_split {A} (ess : list (list A)) i es : ess !! i = Some es ->
  concat ess = concat (take i ess) ++ es ++ concat (drop (S i) ess).
Proof. intros Hi. rewrite <- (take_drop_middle _ _ _ Hi) at 1. by rewrite concat_app. Qed.

Lemma concat_insert {A} (ess : list (list A)) i es es' : ess !! i = Some es ->
  concat (<[i := es']> ess) = concat (take i ess) ++ es' ++ concat (drop (S i) ess).
Proof.
  intros Hi. pose proof (lookup_lt_Some _ _ _ Hi). rewrite insert_take_drop by done. by rewrite concat_app.
Qed.

Section linear.
Context `{HA : DirApi} {HL : DirLaws} (sb : dir_sb) {HG : dir_geo sb}.
#[local] Abbreviation entry_ok := (dent_ok (ds_inodes_count sb)).
#[local] Abbreviation blocksize := (ds_blocksize sb).
#[local] Abbreviation reclen n := (EXT4_DIR_REC_LEN (Z.of_nat (length n))).

Record lindir (d : dir_st) (ess : list (list dent)) : Prop := {
  ld_count : length (d_bufs d) = length ess;
  ld_size : d_size d = blocksize * Z.of_nat (length ess);
  ld_leaf : forall i es, ess !! i = Some es -> leaf sb (Z.of_nat i) d es;
  ld_sum : forall i es, ess !! i = Some es -> verifies sb (Z.of_nat i) d;
  ld_linear : is_dx sb d = false;
}.

Lemma leaf_frame bh d d' es : data bh d' = data bh d -> leaf sb bh d es -> leaf sb bh d' es.
Proof. intros E [(c & Hc & Hd) Hok Hl]. split; [exists c; by rewrite E|done..]. Qed.

Lemma verifies_frame bh d d' : data bh d' = data bh d -> verifies sb bh d -> verifies sb bh d'.
Proof. intros E Hv d2 E2. apply Hv. by rewrite E2. Qed.

(** States with the same bytes. *)
Record same (d d' : dir_st) : Prop := {
  sm_data : forall bh, data bh d' = data bh d;
  sm_count : length (d_bufs d') = length (d_bufs d);
  sm_size : d_size d' = d_size d;
  sm_dx : is_dx sb d' = is_dx sb d;
}.

Lemma same_refl d : same d d.
Proof. by split. Qed.
Lemma same_trans d d' d'' : same d d' -> same d' d'' -> same d d''.
Proof. intros [] []. split; [|congruence..]. intros bh. by rewrite sm_data1. Qed.

Lemma lindir_same d d' ess : same d d' -> lindir d ess -> lindir d' ess.
Proof.
  intros [Hd Hc Hs Hx] [L1 L2 L3 L4 L5]. split; [congruence..| | |congruence].
  - intros i es Hi. eapply leaf_frame; [apply Hd|by apply L3].
  - intros i es Hi. eapply verifies_frame; [apply Hd|by eapply L4].
Qed.

Lemma lindir_change d d' ess i es es' :
  lindir d ess -> ess !! i = Some es -> leaf sb (Z.of_nat i) d' es' -> verifies sb (Z.of_nat i) d' -> only sb (Z.of_nat i) d d' ->
  lindir d' (<[i := es']> ess).
Proof.
  intros [L1 L2 L3 L4 L5] Hi Hl Hv [O1 O2 O3 O4 O5 _ _]. split; rewrite ?length_insert; [congruence..| | |congruence].
  - intros j x Hj. apply list_lookup_insert_Some in Hj as [(<- & <- & _)|(Hne & Hj)]; [done|].
    eapply leaf_frame; [|by apply L3]. unfold data. by rewrite O1 by lia.
  - intros j x Hj. apply list_lookup_insert_Some in Hj as [(<- & <- & _)|(Hne & Hj)]; [done|].
    eapply verifies_frame; [|by eapply L4]. unfold data. by rewrite O1 by lia.
Qed.

Lemma error_same d x : same d (d <| d_errors ::= (.++ [x]) |>).
Proof. by split. Qed.

Lemma alter_same d bh f : (forall b, db_data (f b) = db_data b) -> same d (d <| d_bufs ::= alter f bh |>).
Proof.
  intros Hf. split; try done; unfold update; cbn.
  - intros b. unfold data, buf_at. cbn. destruct (b <? 0); [done|]. destruct (decide (Z.to_nat b = bh)) as [<-|].
    + rewrite list_lookup_alter_eq. destruct (d_bufs d !! _); [|done]. cbn. by rewrite Hf.
    + by rewrite list_lookup_alter_ne.
  - by rewrite length_alter.
Qed.

(** A block could not be read. *)
Definition unreadable (b : Z) : Prop := getblk_err b <> 0 \/ read_fails b = true.
#[export] Instance unreadable_dec b : Decision (unreadable b).
Proof. unfold unreadable. apply _. Defined.

Lemma read_dirblock_at d ess i es type :
  lindir d ess -> ess !! i = Some es -> type <> INDEX ->
  runs (__ext4_read_dirblock sb (Z.of_nat i) type) d (fun r d' =>
    same d d' /\ (r = inr (Z.of_nat i) /\ ~ unreadable (Z.of_nat i) \/ unreadable (Z.of_nat i) /\ exists err, r = inl err /\ err < 0)).
Proof.
  intros L Hi Hty. pose proof L as [L1 L2 L3 L4 L5]. unfold __ext4_read_dirblock, ext4_bread.
  destruct (Z.eqb_spec (getblk_err (Z.of_nat i)) 0) as [E0|E0]; cbn [negb].
  2:{ apply runs_bind, runs_ret, runs_ret. split; [by apply same_refl|]. right. split; [by left|]. eexists. split; [done|].
      pose proof (getblk_err_law (Z.of_nat i)). lia. }
  destruct (L3 i es Hi) as [(c & Hc & Hd) _ _]. unfold data in Hd. destruct (buf_at (Z.of_nat i) d) as [b|] eqn:Eb; [|done].
  apply runs_bind, runs_bind, runs_gets. rewrite Eb. destruct (read_fails (Z.of_nat i)) eqn:Er.
  { apply runs_ret, runs_ret. split; [by apply same_refl|]. right. split; [by right|]. by exists (- EIO). }
  assert (Hr : ~ unreadable (Z.of_nat i)) by (intros [?|?]; congruence).
  apply runs_ret. apply runs_bind, runs_intro with (a := d) (s' := d); [done|]. rewrite L5. apply runs_bind, runs_ret. cbn [negb andb].
  destruct type; [|done|]; (apply runs_bind, runs_gets; rewrite Eb; destruct (negb (ds_metadata_csum sb) || db_verified b);
    [apply runs_ret; split; [apply same_refl|by left]|]; apply runs_bind, runs_ret; cbn [negb andb]; apply runs_bind, runs_bind;
    (eapply runs_intro; [by apply (L4 i es Hi)|]); apply runs_bind; (eapply runs_intro; [by eapply with_buf_ok|]); apply runs_ret, runs_ret;
    (split; [by apply alter_same|by left])).
Qed.

(** ** Adding *)

Lemma dest_of_absent n r es : n ∉ (entries es).*1 -> dest_of n r es = inl (- ENOSPC) \/ exists o, dest_of n r es = inr o.
Proof.
  intros Hn. unfold dest_of. destruct (list_find _ es) as [[i e]|] eqn:El; [|by left]. right.
  rewrite decide_False; [by eexists|]. intros Hnm. apply Hn, entries_named. exists e. split; [|done].
  apply list_find_Some in El as (Hi & _). by eapply list_elem_of_lookup_2.
Qed.

Lemma entries_part ess i es n : ess !! i = Some es -> contents ess !! n = None -> n ∉ (entries es).*1.
Proof.
  intros Hi Hn Hin. apply contents_absent in Hn. apply Hn. rewrite (concat_split _ _ _ Hi), !entries_app, !fmap_app.
  apply elem_of_app. right. apply elem_of_app. by left.
Qed.

Lemma entries_insert ess i es es' x :
  ess !! i = Some es -> entries es' ≡ₚ x :: entries es -> entries (concat (<[i := es']> ess)) ≡ₚ x :: entries (concat ess).
Proof.
  intros Hi Hp. rewrite (concat_insert _ _ _ _ Hi), (concat_split _ _ _ Hi), !entries_app, Hp. symmetry. apply Permutation_middle.
Qed.

(** The new name was entered: what the directory holds then. *)
Definition entered (n : list Z) (ino : Z) (ess : list (list dent)) (d' : dir_st) : Prop :=
  exists ess', lindir d' ess' /\ entries (concat ess') ≡ₚ (n, ino) :: entries (concat ess).

Lemma add_loop_at ess n inode fb :
  contents ess !! n = None -> enterable sb n inode -> ds_dir_index sb = false ->
  forall todo k d, lindir d ess -> (k + todo = length ess)%nat ->
  runs (add_loop sb todo (Z.of_nat k) (Z.of_nat (length ess)) fb n inode) d (fun r d' =>
    r = None /\ lindir d' ess \/ r = Some 0 /\ entered n (i_ino inode) ess d' \/
    exists err b, r = Some err /\ err < 0 /\ 0 <= b < Z.of_nat (length ess) /\ unreadable b /\ lindir d' ess).
Proof.
  intros Hn Hen Hix todo. induction todo as [|todo IH]; intros k d L Hk; cbn [add_loop].
  { apply runs_ret. by left. }
  destruct (lookup_lt_is_Some_2 ess k ltac:(lia)) as [es Hi].
  apply runs_bind. eapply runs_conseq; [by apply (read_dirblock_at d ess k es DIRENT)|].
  intros r d1 [Hs [[-> _]|(Hu & err & -> & Hneg)]].
  2:{ apply runs_ret. right. right. exists err, (Z.of_nat k). split; [done|]. split; [done|]. split; [lia|]. split; [done|]. by eapply lindir_same. }
  assert (L1 : lindir d1 ess) by by eapply lindir_same. clear d L Hs. cbv beta iota.
  pose proof (ld_leaf _ _ L1 k es Hi) as Hleaf.
  apply runs_bind. eapply runs_conseq; [by apply (add_dirent_at sb (Z.of_nat k) d1 es inode n)|]. intros r d2 Hr.
  destruct (dest_of_absent n (reclen n) es (entries_part _ _ _ _ Hi Hn)) as [E|[o E]]; rewrite E in Hr.
  - destruct Hr as [-> ->]. rewrite Z.eqb_refl. cbn [negb]. rewrite Hix, andb_false_r.
    replace (Z.of_nat k + 1) with (Z.of_nat (S k)) by lia. apply IH; [done|lia].
  - destruct Hr as (-> & es' & Hl' & Hp & Hv & Ho & _). cbn [negb Z.eqb Z.opp ENOSPC]. apply runs_ret. right. left. split; [done|].
    exists (<[k := es']> ess). split; [by eapply lindir_change|]. by eapply entries_insert.
Qed.

(** ** A new block *)

Lemma size_blocks d ess : lindir d ess -> Z.shiftr (d_size d) (ds_blocksize_bits sb) = Z.of_nat (length ess).
Proof.
  intros [_ -> _ _ _]. rewrite Z.shiftr_div_pow2 by apply dg_bits_pos. rewrite <- dg_bits. pose proof dg_block. rewrite Z.mul_comm. apply Z.div_mul. lia.
Qed.

(** The size limit of directories is reached. *)
Definition at_limit (d : dir_st) : Prop := ds_max_dir_size_kb sb <> 0 /\ ds_max_dir_size_kb sb <= Z.shiftr (d_size d) 10.

Definition appended (b : Z) (d : dir_st) : dir_st :=
  d <| d_bufs ::= (.++ [mk_dbh (fresh_block blocksize b) false true]) |> <| d_size ::= fun n => n + blocksize |>.

Lemma append_at d (ess : list (list dent)) (b := Z.of_nat (length ess)) :
  length (d_bufs d) = length ess -> Z.shiftr (d_size d) (ds_blocksize_bits sb) = b ->
  ext4_append sb d = Ret (inr b) (appended b d) \/
  exists err, ext4_append sb d = Ret (inl err) d /\ ERR_BAD_DX_DIR < err < 0 /\ (at_limit d \/ create_err b <> 0).
Proof.
  intros Hc Hb. unfold ext4_append, bind, get, at_limit. rewrite Hb.
  destruct (negb (ds_max_dir_size_kb sb =? 0) && (ds_max_dir_size_kb sb <=? Z.shiftr (d_size d) 10)) eqn:Elim.
  { right. exists (- ENOSPC). apply andb_true_iff in Elim as [E1 E2]. apply negb_true_iff in E1. split; [done|]. split; [done|]. left. lia. }
  destruct (Z.eqb_spec (create_err b) 0) as [E0|E0]; cbn [negb].
  - left. rewrite Hc. unfold b. by rewrite Z.eqb_refl.
  - right. eexists. split; [done|]. pose proof (create_err_law b). split; [lia|by right].
Qed.

Lemma appended_old b d bh : bh <> Z.of_nat (length (d_bufs d)) -> buf_at bh (appended b d) = buf_at bh d.
Proof.
  intros Hne. unfold appended, buf_at, update. cbn. destruct (Z.ltb_spec bh 0); [done|].
  destruct (decide (Z.to_nat bh < length (d_bufs d))%nat); [by apply lookup_app_l|].
  rewrite lookup_ge_None_2 by (rewrite length_app; simpl; lia). symmetry. apply lookup_ge_None_2. lia.
Qed.

Lemma appended_new b d (bh := Z.of_nat (length (d_bufs d))) : data bh (appended b d) = Some (fresh_block blocksize b).
Proof.
  unfold appended, data, buf_at, update, bh. cbn. destruct (Z.ltb_spec (Z.of_nat (length (d_bufs d))) 0); [lia|].
  rewrite Nat2Z.id, lookup_app_r, Nat.sub_diag by done. done.
Qed.

(** Bytes that hold one dead entry. *)
Lemma bytes_of_header (x : list Z) : (8 <= length x)%nat -> Forall (fun v => 0 <= v < 256) x ->
  exists i r nl ft body, x = i ++ r ++ le_put 1 nl ++ le_put 1 ft ++ body /\ length i = 4%nat /\ length r = 2%nat /\ 0 <= nl < 256 /\ 0 <= ft < 256.
Proof.
  intros Hx Hb. destruct (split_header x Hx) as (i & r & n & f & body & -> & Hi & Hr & Hn & Hf).
  destruct n as [|nl [|? ?]]; [done| |done]. destruct f as [|ft [|? ?]]; [done| |done].
  rewrite !Forall_app in Hb. destruct Hb as (_ & _ & Hnl & Hft & _). inversion_clear Hnl. inversion_clear Hft.
  exists i, r, nl, ft, body. simpl. rewrite !Z.mod_small by lia. done.
Qed.

Lemma csum_size_cases : csum_size sb = 0 /\ ds_metadata_csum sb = false \/ csum_size sb = 12 /\ ds_metadata_csum sb = true.
Proof. unfold csum_size. destruct (ds_metadata_csum sb); [by right|by left]. Qed.

(** The tail of a block is written behind its entries. *)
Lemma init_tail_at bh d es x :
  data bh d = Some (lay es ++ x) -> off es = blocksize - 12 -> length x = 12%nat ->
  initialize_dirent_tail sb bh d = Ret tt (set_data bh (lay (es ++ [mk_dent 0 0 EXT4_FT_DIR_CSUM [0; 0; 0; 0]])) d).
Proof.
  intros Hd Hl Hx. unfold initialize_dirent_tail, sizeof_dir_entry_tail. rewrite <- Hl. pose proof dg_block.
  rewrite <- (app_nil_r x) in Hd.
  rewrite (bind_Ret _ _ _ _ _ (write_bytes_mid bh d (lay es) x [] (off es) (replicate 12 0) Hd eq_refl ltac:(by rewrite Hx))).
  match goal with |- bind _ _ ?d' = _ => set (d1 := d') end. assert (Hd1 := data_set bh _ _ d Hd : data bh d1 = _).
  rewrite (bind_Ret _ _ _ _ _ (set_rec_len_raw sb bh d1 (lay es) (replicate 4 0) (replicate 2 0) (replicate 6 0) 12 (off es) Hd1 eq_refl eq_refl eq_refl ltac:(lia) eq_refl)).
  unfold d1. rewrite set_data_twice. clear d1 Hd1.
  match goal with |- set_de_file_type _ _ _ ?d' = _ => set (d1 := d') end. assert (Hd1 := data_set bh _ _ d Hd : data bh d1 = _).
  rewrite (set_ft_raw bh d1 (lay es) (replicate 4 0) (le_put 2 12) [0] [0] (replicate 4 0) EXT4_FT_DIR_CSUM (off es) Hd1) by done.
  unfold d1. rewrite set_data_twice. do 2 f_equal. by rewrite lay_app.
Qed.

(** The block of [ext4_add_entry] before the name is entered. *)
Lemma fresh_leaf_at bh d x :
  data bh d = Some x -> Z.of_nat (length x) = blocksize -> Forall (fun v => 0 <= v < 256) x ->
  exists e d', (set_de_inode bh 0 0 ;;; set_rec_len bh 0 (blocksize - csum_size sb) blocksize ;;;
     (if ds_metadata_csum sb then initialize_dirent_tail sb bh else ret tt)) d = Ret tt d' /\
    (exists b, d' = set_data bh b d) /\ leaf sb bh d' [e] /\ e_ino e = 0.
Proof.
  intros Hd Hx Hb. pose proof dg_block. pose proof csum_size_cases as Hcs.
  set (k := Z.to_nat (blocksize - csum_size sb)).
  destruct (bytes_of_header (take k x)) as (i & r & nl & ft & body & Ex & Hi & Hr & Hnl & Hft).
  { rewrite length_take. lia. } { by apply Forall_take. }
  assert (Hbody : Z.of_nat (length body) = blocksize - csum_size sb - 8).
  { pose proof (f_equal length Ex) as El. rewrite length_take, !length_app, !le_put_length in El. lia. }
  set (e := mk_dent 0 nl ft body). exists e.
  assert (Hrec : e_rec e = blocksize - csum_size sb) by (unfold e_rec, e; cbn [e_body]; lia).
  assert (He : entry_ok e).
  { assert (Hm : (blocksize - csum_size sb) mod 4 = 0).
    { rewrite Zminus_mod, dg_mult. by destruct Hcs as [[-> _]|[-> _]]. }
    split; rewrite ?Hrec; cbn [e_ino e_nlen e_ft e]; try done; try lia; [pose proof dg_inodes; lia|].
    pose proof (rec_len_max nl). lia. }
  rewrite <- (take_drop k x), Ex, <- !app_assoc in Hd.
  rewrite (bind_Ret _ _ _ _ _ (set_inode_raw bh d [] i _ 0 0 Hd Hi eq_refl)).
  match goal with |- context [bind _ _ ?d' = _] => set (d1 := d') end. assert (Hd1 := data_set bh _ _ d Hd : data bh d1 = _).
  rewrite (bind_Ret _ _ _ _ _ (set_rec_len_raw sb bh d1 [] (le_put 4 0) r _ (blocksize - csum_size sb) 0 Hd1 eq_refl Hr eq_refl ltac:(lia) (eq_trans (f_equal (fun z => z mod 4) (eq_sym Hrec)) (do_mult _ _ He)))).
  unfold d1. rewrite set_data_twice. clear d1 Hd1.
  assert (Henc : [] ++ le_put 4 0 ++ le_put 2 (blocksize - csum_size sb) ++ le_put 1 nl ++ le_put 1 ft ++ body ++ drop k x = lay [e] ++ drop k x).
  { rewrite lay_cons. unfold enc. rewrite Hrec. cbn [e_ino e_nlen e_ft e_body e]. cbn [lay mbind list_bind]. rewrite app_nil_r. by rewrite <- !app_assoc. }
  rewrite Henc. set (d2 := set_data bh _ d). assert (Hd2 : data bh d2 = Some (lay [e] ++ drop k x)) by (by eapply data_set).
  assert (Hk : length (drop k x) = Z.to_nat (csum_size sb)) by (rewrite length_drop; lia).
  assert (Hoff : off [e] = blocksize - csum_size sb) by (autorewrite with dir; lia).
  destruct Hcs as [[Ec Em]|[Ec Em]]; rewrite Em.
  - exists d2. split; [done|]. split; [by eexists|]. split; [|done].
    apply (leaf_data_eq sb bh d2 [e] [0; 0; 0; 0]); [|done|by constructor|done].
    unfold dtail. rewrite Em, app_nil_r, Hd2. rewrite Ec in Hk. destruct (drop k x); [by rewrite app_nil_r|done].
  - rewrite Ec in *. rewrite (init_tail_at bh d2 [e] (drop k x) Hd2 Hoff Hk). eexists. split; [done|].
    unfold d2. rewrite set_data_twice. split; [by eexists|]. split; [|done].
    apply (leaf_data_eq sb bh _ [e] [0; 0; 0; 0]); [|done|by constructor|by rewrite Ec].
    unfold dtail. rewrite Em. by eapply data_set.
Qed.

(** Appending a leaf to the list. *)
Lemma lindir_append d d1 d' ess b es :
  lindir d ess -> d1 = set_data (Z.of_nat (length ess)) b (appended (Z.of_nat (length ess)) d) ->
  leaf sb (Z.of_nat (length ess)) d' es -> verifies sb (Z.of_nat (length ess)) d' -> only sb (Z.of_nat (length ess)) d1 d' ->
  lindir d' (ess ++ [es]).
Proof.
  intros L -> Hl Hv [O1 O2 O3 O4 O5 _ _]. pose proof L as [L1 L2 L3 L4 L5].
  assert (Hold : forall i, (i < length ess)%nat -> data (Z.of_nat i) d' = data (Z.of_nat i) d).
  { intros i Hi. unfold data. rewrite O1 by lia. rewrite buf_at_set, decide_False by lia. by rewrite appended_old by lia. }
  split.
  - rewrite O3, length_app, <- L1. unfold set_data, appended, update. cbn. by rewrite length_alter, length_app.
  - rewrite O4. unfold set_data, appended, update. cbn. rewrite L2, length_app. simpl. lia.
  - intros i x Hi. apply lookup_snoc_Some in Hi as [[Hlt Hi]|[-> ->]]; [|done]. eapply leaf_frame; [by apply Hold|by apply L3].
  - intros i x Hi. apply lookup_snoc_Some in Hi as [[Hlt Hi]|[-> ->]]; [|done]. eapply verifies_frame; [by apply Hold|by eapply L4].
  - rewrite O5. done.
Qed.

(** What adding a name to a linear directory does. *)
Definition add_failed (d : dir_st) (ess : list (list dent)) : Prop :=
  at_limit d \/ create_err (Z.of_nat (length ess)) <> 0 \/ exists b, 0 <= b < Z.of_nat (length ess) /\ unreadable b.

Lemma add_body_at d ess n inode :
  lindir d ess -> contents ess !! n = None -> enterable sb n inode -> ds_dir_index sb = false ->
  runs (add_entry_body sb n inode) d (fun r d' =>
    r = 0 /\ entered n (i_ino inode) ess d' \/ r < 0 /\ add_failed d ess /\ lindir d' ess).
Proof.
  intros L Hn Hen Hix. unfold add_entry_body. apply runs_bind, runs_intro with (a := d) (s' := d); [done|].
  rewrite (ld_linear _ _ L). apply runs_bind, runs_ret. apply runs_bind, runs_intro with (a := d) (s' := d); [done|].
  rewrite (size_blocks _ _ L), Nat2Z.id. apply runs_bind.
  eapply runs_conseq; [by apply (add_loop_at ess n inode false Hn Hen Hix (length ess) 0 d)|].
  intros r d1 [[-> L1]|[[-> Hent]|(err & b & -> & Hneg & Hb & Hu & L1)]].
  2:{ apply runs_ret. by left. }
  2:{ apply runs_ret. right. split; [done|]. split; [right; right; by exists b|done]. }
  pose proof (size_blocks _ _ L1) as Hsz. pose proof (ld_size _ _ L1) as S1. pose proof (ld_size _ _ L) as S0.
  destruct (append_at d1 ess (ld_count _ _ L1) Hsz) as [E|(err & E & Hneg & Hf)].
  2:{ eapply runs_bind, runs_intro; [exact E|]. apply runs_ret. right. split; [lia|]. split; [|done]. unfold add_failed, at_limit in *.
      rewrite S1 in Hf. rewrite S0. tauto. }
  eapply runs_bind, runs_intro; [exact E|]. cbv beta iota. clear E. set (bh := Z.of_nat (length ess)) in *. set (d2 := appended bh d1).
  assert (Hd2 : data bh d2 = Some (fresh_block blocksize bh)) by (pose proof (appended_new bh d1) as Hnew; by rewrite (ld_count _ _ L1) in Hnew).
  pose proof dg_block. destruct (fresh_law blocksize bh) as [Hlen Hbytes].
  destruct (fresh_leaf_at bh d2 _ Hd2 ltac:(lia) Hbytes) as (e & d3 & E3 & (b3 & Hb3) & Hl3 & He).
  apply bind_inv in E3 as ([] & x1 & Ea & E3). apply bind_inv in E3 as ([] & x2 & Eb & E3).
  eapply runs_bind, runs_intro; [exact Ea|]. eapply runs_bind, runs_intro; [exact Eb|]. eapply runs_bind, runs_intro; [exact E3|].
  clear Ea Eb E3 x1 x2. assert (Hr : room (reclen n) e).
  { unfold room. rewrite He. cbn. pose proof (lf_off _ _ _ _ Hl3) as Hoff. autorewrite with dir in Hoff.
    pose proof (rec_len_max (Z.of_nat (length n)) ltac:(apply (en_name _ _ _ Hen))). pose proof csum_size_cases. lia. }
  eapply runs_conseq; [by apply (add_at sb bh d3 [] e [] inode n)|]. intros r d4 (-> & Hl4 & Hv & Ho). left. split; [done|].
  cbn [app] in Hl4. rewrite app_nil_r in Hl4. exists (ess ++ [put_entry sb inode n e]). split.
  - by apply (lindir_append d1 d3 d4 ess b3).
  - rewrite concat_app, entries_app. cbn [concat]. rewrite app_nil_r, (put_entry_entries sb).
    + rewrite entries_dead by (intros Hx; by apply Hx). apply (Permutation_app_comm _ [_]).
    + pose proof (lf_ok _ _ _ _ Hl3) as Hok. by inversion Hok.
    + done.
    + pose proof (en_ino _ _ _ Hen). lia.
Qed.

(** ** Looking up *)

Lemma find_named_Some n es o : find_named n es = Some o -> exists pre e post, es = pre ++ e :: post /\ o = off pre /\ named n e.
Proof.
  unfold find_named. destruct (list_find (named n) es) as [[i e]|] eqn:El; [|done]. cbn. intros [= <-].
  apply list_find_Some in El as (Hi & Hn & _). exists (take i es), e, (drop (S i) es). by rewrite take_drop_middle.
Qed.

Lemma find_named_None n es : find_named n es = None -> n ∉ (entries es).*1.
Proof.
  unfold find_named. destruct (list_find (named n) es) as [?|] eqn:El; [done|]. intros _ Hin.
  apply entries_named in Hin as (e & He & Hn). apply list_find_None in El. rewrite Forall_forall in El. by eapply El.
Qed.

Lemma find_named_tail n es c : find_named n (es ++ dtail sb c) = find_named n es.
Proof.
  induction es as [|e es IH]; cbn [app].
  - unfold dtail. destruct (ds_metadata_csum sb); [|done]. rewrite find_named_cons, decide_False; [done|]. by intros [? _].
  - rewrite !find_named_cons, IH. done.
Qed.

Lemma search_leaf_at bh d es n o :
  leaf sb bh d es -> search_dirblock sb bh n o d = Ret (match find_named n es with Some x => (1, Some x) | None => (0, None) end) d.
Proof.
  intros [(c & Hc & Hd) Hok Hl]. rewrite <- (find_named_tail n es c). apply search_at; [done|done| |].
  - apply Forall_app. split; [done|by apply dtail_ok].
  - rewrite off_app, (dtail_length sb c Hc), Hl. lia.
Qed.

(** An entry of the directory with the name. *)
Definition entry_at (ess : list (list dent)) (n : list Z) (bh de : Z) : Prop :=
  exists i pre e post, bh = Z.of_nat i /\ ess !! i = Some (pre ++ e :: post) /\ de = off pre /\ named n e.

Definition lookup_result (ess : list (list dent)) (n : list Z) (r : Z + option (Z * Z)) : Prop :=
  match r with
  | inl err => err < 0 /\ exists b, 0 <= b < Z.of_nat (length ess) /\ unreadable b
  | inr (Some (bh, de)) => entry_at ess n bh de
  | inr None => n ∉ (entries (concat ess)).*1
  end.

(** The blocks still to be searched: up to the end, then up to [start]. *)
Definition to_search (start nblocks block : Z) : list Z :=
  if start <=? block then seqZ block (nblocks - block) ++ seqZ 0 start else seqZ block (start - block).

Lemma to_search_cons start nblocks block (next := if nblocks <=? block + 1 then 0 else block + 1) :
  0 <= start < nblocks -> 0 <= block < nblocks ->
  to_search start nblocks block = block :: (if next =? start then [] else to_search start nblocks next).
Proof.
  intros Hs Hb. unfold to_search, next. destruct (Z.leb_spec start block), (Z.leb_spec nblocks (block + 1)).
  - replace (nblocks - block) with 1 by lia. destruct (Z.eqb_spec 0 start) as [<-|].
    + done.
    + destruct (Z.leb_spec start 0); [lia|]. by rewrite Z.sub_0_r.
  - rewrite (seqZ_cons block (nblocks - block)) by lia. destruct (Z.eqb_spec (block + 1) start); [lia|].
    destruct (Z.leb_spec start (block + 1)); [|lia]. cbn. by replace (Z.pred (nblocks - block)) with (nblocks - (block + 1)) by lia.
  - lia.
  - rewrite seqZ_cons by lia. destruct (Z.eqb_spec (block + 1) start) as [<-|].
    + by replace (Z.pred (block + 1 - block)) with 0 by lia.
    + destruct (Z.leb_spec start (block + 1)); [lia|]. by replace (Z.pred (start - block)) with (start - (block + 1)) by lia.
Qed.

Lemma bread_batch_err k b : ext4_bread_batch k b <> 0 ->
  ext4_bread_batch k b < 0 /\ exists b', b <= b' < b + Z.of_nat k /\ getblk_err b' <> 0.
Proof.
  revert b. induction k as [|k IH]; intros b Hne; cbn [ext4_bread_batch] in *; [done|].
  destruct (Z.eqb_spec (getblk_err b) 0).
  - destruct (IH (b + 1) Hne) as (? & b' & ? & ?). split; [done|]. exists b'. split; [lia|done].
  - pose proof (getblk_err_law b). split; [lia|]. exists b. split; [lia|done].
Qed.

Definition found_none (ess : list (list dent)) (n : list Z) (bs : list Z) : Prop :=
  forall b es, b ∈ bs -> ess !! Z.to_nat b = Some es -> n ∉ (entries es).*1.

Lemma found_none_cons ess n b bs es : ess !! Z.to_nat b = Some es -> n ∉ (entries es).*1 -> found_none ess n bs -> found_none ess n (b :: bs).
Proof.
  intros Hb Hn Hbs b' es' Hin Hb'. apply elem_of_cons in Hin as [->|Hin]; [|by eapply Hbs]. by simplify_eq.
Qed.

Lemma find_loop_at ess n start nblocks : nblocks <= Z.of_nat (length ess) ->
  forall fuel d block ra_ptr ra_max, lindir d ess -> (length (to_search start nblocks block) < fuel)%nat ->
  0 <= start < nblocks -> 0 <= block < nblocks ->
  runs (find_loop sb fuel n start nblocks block ra_ptr ra_max) d (fun r d' => same d d' /\
    match r with
    | None => found_none ess n (to_search start nblocks block)
    | Some (inl err) => err < 0 /\ exists b, 0 <= b < Z.of_nat (length ess) /\ unreadable b
    | Some (inr (Some (bh, de))) => entry_at ess n bh de
    | Some (inr None) => False
    end).
Proof.
  intros Hlen fuel. induction fuel as [|fuel IH]; intros d block ra_ptr ra_max L Hf Hs Hb; [lia|]. cbn [find_loop].
  rewrite (to_search_cons start nblocks block) in * by done. set (next := if nblocks <=? block + 1 then 0 else block + 1) in *.
  set (refill := ra_max <=? ra_ptr). set (ra' := Z.min _ NAMEI_RA_SIZE).
  match goal with |- runs (if negb (?x =? 0) then _ else _) _ _ => destruct (Z.eqb_spec x 0) as [E0|E0] end; cbn [negb].
  2:{ apply runs_ret. split; [apply same_refl|]. destruct refill; [|done]. destruct (bread_batch_err _ _ E0) as (Hneg & b & Hr & Hu).
      split; [done|]. exists b. split; [|by left]. unfold ra', NAMEI_RA_SIZE in Hr. destruct (Z.ltb_spec block start); lia. }
  clear E0. destruct (lookup_lt_is_Some_2 ess (Z.to_nat block) ltac:(lia)) as [es Hi].
  assert (Eblk : Z.of_nat (Z.to_nat block) = block) by lia.
  pose proof (ld_leaf _ _ L _ _ Hi) as Hleaf. pose proof (ld_sum _ _ L _ _ Hi) as Hv. rewrite Eblk in *.
  pose proof Hleaf as [(c & Hc & Hd) _ _]. unfold data in Hd. destruct (buf_at block d) as [b|] eqn:Eb; [|done].
  apply runs_bind, runs_gets. rewrite Eb. destruct (read_fails block) eqn:Er.
  { apply runs_bind, runs_modify, runs_ret. split; [apply error_same|]. split; [done|]. exists block. split; [lia|by right]. }
  apply runs_bind, runs_gets. rewrite Eb. apply runs_bind. eapply runs_intro with (a := true) (s' := d).
  { destruct (db_verified b); [done|]. unfold is_dx_internal_node, bind, get. rewrite (ld_linear _ _ L). cbn. by apply Hv. }
  cbn [negb]. apply runs_bind. eapply runs_intro; [by eapply with_buf_ok|]. set (d1 := d <| d_bufs ::= _ |>).
  assert (Hs1 : same d d1) by by apply alter_same. assert (L1 : lindir d1 ess) by by eapply lindir_same. clearbody d1.
  apply runs_bind. eapply runs_intro; [apply search_leaf_at; eapply leaf_frame; [apply (sm_data _ _ Hs1)|done]|].
  destruct (find_named n es) as [o|] eqn:Ef.
  - apply runs_bind, runs_modify, runs_ret. split.
    { eapply same_trans; [exact Hs1|]. by split. }
    apply find_named_Some in Ef as (pre & e & post & -> & -> & Hn). exists (Z.to_nat block), pre, e, post. done.
  - cbn [Z.ltb Z.compare]. apply find_named_None in Ef. destruct (Z.eqb_spec next start) as [En|En]; cbn [negb].
    + apply runs_ret. split; [done|]. eapply found_none_cons; [exact Hi|done|]. intros b' es' Hin _. by apply not_elem_of_nil in Hin.
    + eapply runs_conseq; [apply IH; [done| |done|]|].
      * simpl in Hf. lia.
      * unfold next. destruct (Z.leb_spec nblocks (block + 1)); lia.
      * intros r d2 [Hs2 Hr]. split; [by eapply same_trans|]. destruct r as [[?|[[? ?]|]]|]; try done. by eapply found_none_cons.
Qed.

Lemma found_none_all ess n : (forall b, 0 <= b < Z.of_nat (length ess) -> found_none ess n [b]) -> n ∉ (entries (concat ess)).*1.
Proof.
  intros Hall Hin. apply entries_named in Hin as (e & He & Hn). apply list_elem_of_In, in_concat in He as (es & Hes & He).
  apply list_elem_of_In in Hes, He. apply list_elem_of_lookup_1 in Hes as [i Hi]. pose proof (lookup_lt_Some _ _ _ Hi).
  eapply (Hall (Z.of_nat i) ltac:(lia) (Z.of_nat i) es); [by left|by rewrite Nat2Z.id|]. apply entries_named. by exists e.
Qed.

Lemma to_search_elem start nblocks block b : 0 <= start < nblocks -> 0 <= block ->
  start <= block /\ block <= b < nblocks \/ start <= block /\ 0 <= b < start \/ block < start /\ block <= b < start ->
  b ∈ to_search start nblocks block.
Proof.
  intros Hs Hb Hr. unfold to_search. destruct (Z.leb_spec start block); rewrite ?elem_of_app, !elem_of_seqZ; lia.
Qed.

Lemma to_search_length start nblocks block :
  0 <= start < nblocks -> 0 <= block < nblocks -> (length (to_search start nblocks block) <= Z.to_nat nblocks)%nat.
Proof. intros Hs Hb. unfold to_search. destruct (Z.leb_spec start block); rewrite ?length_app, !length_seqZ; lia. Qed.

Lemma found_none_sub ess n bs bs' : (forall b, b ∈ bs' -> b ∈ bs) -> found_none ess n bs -> found_none ess n bs'.
Proof. intros Hsub Hn b es Hb. by apply Hn, Hsub. Qed.

(** The whole directory is searched from any of its blocks. *)
Lemma find_all_at d ess n start :
  lindir d ess -> 0 <= start < Z.of_nat (length ess) ->
  runs (find_blocks sb n start (Z.of_nat (length ess))) d (fun r d' => same d d' /\ lookup_result ess n r).
Proof.
  intros L Hs. unfold find_blocks. apply runs_bind, runs_gets. rewrite (size_blocks _ _ L). apply runs_bind.
  eapply runs_conseq; [apply (find_loop_at ess n start); [done|done| |done..]|].
  { pose proof (to_search_length start (Z.of_nat (length ess)) start). lia. }
  intros r d1 [Hs1 Hr]. destruct r as [r|].
  - apply runs_ret. split; [done|]. by destruct r as [?|[[? ?]|]].
  - destruct (Z.ltb_spec (Z.of_nat (length ess)) (Z.of_nat (length ess))); [lia|]. apply runs_ret. split; [done|]. cbn.
    apply found_none_all. intros b Hb. eapply found_none_sub; [|exact Hr]. intros x Hx. apply list_elem_of_singleton in Hx as ->.
    apply to_search_elem; lia.
Qed.

(** For "." and ".." the first block comes first. *)
Lemma find_dots_at d ess n :
  lindir d ess -> ess <> [] -> runs (find_blocks sb n 0 1) d (fun r d' => same d d' /\ lookup_result ess n r).
Proof.
  intros L Hne. assert (0 < Z.of_nat (length ess)) by (destruct ess; [done|simpl; lia]).
  unfold find_blocks. apply runs_bind, runs_gets. rewrite (size_blocks _ _ L). apply runs_bind.
  eapply runs_conseq; [apply (find_loop_at ess n 0 1); [lia|done|by apply (bool_decide_unpack _)|lia..]|]. intros r d1 [Hs1 Hr]. destruct r as [r|].
  { apply runs_ret. split; [done|]. by destruct r as [?|[[? ?]|]]. }
  change (to_search 0 1 0) with [0] in Hr. destruct (Z.ltb_spec 1 (Z.of_nat (length ess))).
  - apply runs_bind. assert (L1 : lindir d1 ess) by by eapply lindir_same.
    eapply runs_conseq; [apply (find_loop_at ess n 0 (Z.of_nat (length ess))); [lia|done| |lia..]|].
    { pose proof (to_search_length 0 (Z.of_nat (length ess)) 1). lia. }
    intros r d2 [Hs2 Hr2]. apply runs_ret. split; [by eapply same_trans|]. destruct r as [[?|[[? ?]|]]|]; try done. cbn.
    apply found_none_all. intros b Hb. destruct (decide (b = 0)) as [->|]; [done|]. eapply found_none_sub; [|exact Hr2].
    intros x Hx. apply list_elem_of_singleton in Hx as ->. apply to_search_elem; lia.
  - apply runs_ret. split; [done|]. cbn. apply found_none_all. intros b Hb. by replace b with 0 by lia.
Qed.

Lemma find_entry_at d ess n :
  lindir d ess -> ess <> [] -> Z.of_nat (length n) < 256 ->
  runs (ext4_find_entry sb n) d (fun r d' => same d d' /\ lookup_result ess n r).
Proof.
  intros L Hne Hn. assert (0 < Z.of_nat (length ess)) by (destruct ess; [done|simpl; lia]).
  unfold ext4_find_entry. destruct (Z.ltb_spec EXT4_NAME_LEN (Z.of_nat (length n))) as [Hgt|_]; [unfold EXT4_NAME_LEN in Hgt; lia|].
  destruct (_ || _); [by apply find_dots_at|].
  apply runs_bind, runs_intro with (a := d) (s' := d); [done|]. rewrite (ld_linear _ _ L). apply runs_bind, runs_ret. cbv beta iota.
  apply runs_bind, runs_intro with (a := d) (s' := d); [done|]. rewrite (size_blocks _ _ L).
  destruct (Z.eqb_spec (Z.of_nat (length ess)) 0); [lia|]. apply find_all_at; [done|].
  pose proof (wrap_range 32 (d_start_lookup d)). destruct (Z.leb_spec (Z.of_nat (length ess)) (u32 (d_start_lookup d))); lia.
Qed.

(** ** Deleting *)

Lemma delete_entry_at d ess n bh de :
  lindir d ess -> entry_at ess n bh de ->
  runs (ext4_delete_entry sb de bh) d (fun r d' => (r = 0 \/ r = - EIO /\ ds_needs_sync sb = true /\ sync_fails bh = true) /\
    exists ess' ino, lindir d' ess' /\ (n, ino) :: entries (concat ess') ≡ₚ entries (concat ess)).
Proof.
  intros L (i & pre & e & post & -> & Hi & -> & Hlive & Hname). pose proof (ld_leaf _ _ L _ _ Hi) as Hleaf.
  eapply runs_conseq; [by apply delete_at|]. intros r d' (Hl & He & Hv & Ho & Hr). split.
  { destruct (ds_needs_sync sb), (sync_fails (Z.of_nat i)); naive_solver. }
  exists (<[i := drop_entry pre e post]> ess), (e_ino e). split; [by eapply lindir_change|].
  rewrite (concat_insert _ _ _ _ Hi), (concat_split _ _ _ Hi), !entries_app, He, !entries_app, entries_live, Hname by done.
  rewrite !(Permutation_app_comm (entries (concat (take i ess)))). cbn. rewrite <- !app_assoc. cbn. by rewrite Permutation_middle.
Qed.
End linear.

(** ** New and empty directories *)

Section newdir.
Context `{HA : DirApi} {HL : DirLaws} (sb : dir_sb) {HG : dir_geo sb}.
#[local] Abbreviation entry_ok := (dent_ok (ds_inodes_count sb)).
#[local] Abbreviation blocksize := (ds_blocksize sb).

(** ** The entries "." and ".." *)

(** The first entries of a directory, with the terminators of their names. *)
Record dots (es : list dent) : Prop := {
  dt_split : exists e0 e1 rest, es = e0 :: e1 :: rest /\ e_ino e0 = ds_ino sb /\ live e0 /\ live e1 /\
    e_nlen e0 = 1 /\ e_nlen e1 = 2 /\ take 2 (e_body e0) = dot ++ [0] /\ take 3 (e_body e1) = dotdot ++ [0];
}.

Definition ft_bytes (f : list Z) : list Z := if ds_filetype sb then le_put 1 (type_of sb S_IFDIR) else f.

Lemma fill_dots bh d a i r n f nm c ino nl rl s de :
  data bh d = Some (a ++ i ++ r ++ n ++ f ++ nm ++ c) -> length i = 4%nat -> length r = 2%nat -> length n = 1%nat -> length f = 1%nat ->
  length nm = length s -> de = Z.of_nat (length a) -> 0 <= rl <= blocksize -> rl mod 4 = 0 ->
  (set_de_inode bh de ino ;;; set_de_name_len bh de nl ;;; set_rec_len bh de rl blocksize ;;; set_de_name bh de s ;;;
   ext4_set_de_type sb bh de S_IFDIR) d = Ret tt (set_data bh (a ++ le_put 4 ino ++ le_put 2 rl ++ le_put 1 nl ++ ft_bytes f ++ s ++ c) d).
Proof.
  intros Hd Hi Hr Hn Hf Hs Hde Hrl Hm.
  rewrite (bind_Ret _ _ _ _ _ (set_inode_raw bh d a i _ ino de Hd Hi Hde)).
  match goal with |- bind _ _ ?d' = _ => set (d1 := d') end. assert (Hd1 := data_set bh _ _ d Hd : data bh d1 = _).
  rewrite (bind_Ret _ _ _ _ _ (set_nlen_raw bh d1 a _ r n _ nl de Hd1 eq_refl Hr Hn Hde)). unfold d1. rewrite set_data_twice. clear d1 Hd1.
  match goal with |- bind _ _ ?d' = _ => set (d1 := d') end. assert (Hd1 := data_set bh _ _ d Hd : data bh d1 = _).
  rewrite (bind_Ret _ _ _ _ _ (set_rec_len_raw sb bh d1 a _ r _ rl de Hd1 eq_refl Hr Hde Hrl Hm)). unfold d1. rewrite set_data_twice. clear d1 Hd1.
  match goal with |- bind _ _ ?d' = _ => set (d1 := d') end. assert (Hd1 := data_set bh _ _ d Hd : data bh d1 = _).
  rewrite (bind_Ret _ _ _ _ _ (set_name_raw bh d1 a _ _ _ f nm c s de Hd1 eq_refl eq_refl eq_refl Hf (eq_sym Hs) Hde)). unfold d1. rewrite set_data_twice. clear d1 Hd1.
  match goal with |- ext4_set_de_type _ _ _ _ ?d' = _ => set (d1 := d') end. assert (Hd1 := data_set bh _ _ d Hd : data bh d1 = _).
  unfold ext4_set_de_type, ft_bytes, type_of. destruct (ds_filetype sb); [|done].
  rewrite (set_ft_raw bh d1 a _ _ _ f _ _ de Hd1) by done. unfold d1. by rewrite set_data_twice.
Qed.

Lemma mod4_sub a b : a mod 4 = 0 -> b mod 4 = 0 -> (a - b) mod 4 = 0.
Proof. intros Ha Hb. by rewrite Zminus_mod, Ha, Hb. Qed.

Lemma cut_at {A} (n : nat) (x : list A) : (n <= length x)%nat -> exists a b, x = a ++ b /\ length a = n.
Proof. intros Hn. exists (take n x), (drop n x). rewrite take_drop, length_take. split; [done|lia]. Qed.

Lemma ft_bytes_val ft : 0 <= ft < 256 -> exists ft', ft_bytes (le_put 1 ft) = le_put 1 ft' /\ 0 <= ft' < 256.
Proof. intros Hft. unfold ft_bytes. destruct (ds_filetype sb); [|by exists ft]. exists (type_of sb S_IFDIR). split; [done|apply type_range]. Qed.

Lemma init_dots_at bh d x parent :
  data bh d = Some x -> Z.of_nat (length x) = blocksize -> Forall (fun v => 0 <= v < 256) x ->
  0 < ds_ino sb <= ds_inodes_count sb -> 0 < parent <= ds_inodes_count sb ->
  exists e0 e1 tl b, ext4_init_dot_dotdot sb (ds_ino sb) bh 0 (csum_size sb) parent false d = Ret (blocksize - csum_size sb) (set_data bh b d) /\
    b = lay [e0; e1] ++ tl /\ Z.of_nat (length tl) = csum_size sb /\ Forall entry_ok [e0; e1] /\ off [e0; e1] = blocksize - csum_size sb /\
    dots [e0; e1] /\ entries [e0; e1] = [(dot, ds_ino sb); (dotdot, parent)] /\ e_rec e0 = 12.
Proof.
  intros Hd Hx Hb Hino Hpar. pose proof dg_block as Hbs. pose proof (csum_size_cases sb) as Hcs.
  destruct (bytes_of_header x) as (i & r & nl & ft & y & -> & Hi & Hr & Hnl & Hft); [lia|done|].
  rewrite !length_app, !le_put_length in Hx. rewrite !Forall_app in Hb. destruct Hb as (_ & _ & _ & _ & Hb).
  destruct (cut_at 4 y) as (b4 & y1 & -> & Hb4); [lia|]. destruct (cut_at 2 b4) as (b2 & b2' & -> & Hb2); [lia|].
  rewrite !Forall_app in Hb. destruct Hb as [_ Hb]. rewrite !length_app in *.
  destruct (bytes_of_header y1) as (i' & r' & nl' & ft' & y2 & -> & Hi' & Hr' & Hnl' & Hft'); [lia|done|].
  rewrite !length_app, !le_put_length in *.
  destruct (cut_at (Z.to_nat (blocksize - csum_size sb - 20)) y2) as (body & tl & -> & Hbody); [lia|]. rewrite !length_app in *.
  destruct (cut_at 3 body) as (b3 & body' & -> & Hb3); [lia|]. rewrite !length_app in *.
  destruct (ft_bytes_val ft Hft) as (ft0 & Eft & Hft0). destruct (ft_bytes_val ft' Hft') as (ft1 & Eft' & Hft1).
  set (e0 := mk_dent (ds_ino sb) 1 ft0 (dot ++ [0] ++ b2')). set (e1 := mk_dent parent 2 ft1 (dotdot ++ [0] ++ body')).
  assert (Hr0 : e_rec e0 = 12) by (unfold e_rec, e0; cbn [e_body]; rewrite !length_app; simpl; lia).
  assert (Hr1 : e_rec e1 = blocksize - csum_size sb - 12) by (unfold e_rec, e1; cbn [e_body]; rewrite !length_app; simpl; lia).
  assert (Hm : (blocksize - csum_size sb - 12) mod 4 = 0).
  { apply mod4_sub; [|done]. apply mod4_sub; [apply dg_mult|]. by destruct Hcs as [[-> _]|[-> _]]. }
  pose proof dg_inodes as Hinodes.
  assert (Hok : Forall entry_ok [e0; e1]).
  { repeat constructor; rewrite ?Hr0, ?Hr1; cbn [e_ino e_nlen e_ft e0 e1]; try done; try lia.
    pose proof (rec_len_max 2). lia. }
  exists e0, e1, tl, (lay [e0; e1] ++ tl).
  set (rest := i' ++ r' ++ le_put 1 nl' ++ le_put 1 ft' ++ b3 ++ body' ++ tl).
  assert (Hd0 : data bh d = Some ([] ++ i ++ r ++ le_put 1 nl ++ le_put 1 ft ++ b2 ++ (b2' ++ rest))).
  { rewrite Hd. unfold rest. cbn [app]. by rewrite <- !app_assoc. }
  split; [|repeat split].
  - unfold ext4_init_dot_dotdot. change (EXT4_DIR_REC_LEN 1) with 12.
    pose proof (fill_dots bh d [] i r (le_put 1 nl) (le_put 1 ft) b2 (b2' ++ rest) (ds_ino sb) 1 12 (dot ++ [0]) 0 Hd0 Hi Hr eq_refl eq_refl
      ltac:(simpl; lia) eq_refl ltac:(lia) eq_refl) as E.
    rewrite Eft in E. set (d1 := set_data _ _ _) in E.
    assert (Hd1 : data bh d1 = Some (enc e0 ++ rest)).
    { unfold d1. rewrite (data_set _ _ _ _ Hd). f_equal. cbn [app]. unfold enc. rewrite Hr0. cbn [e_ino e_nlen e_ft e_body e0]. by rewrite <- !app_assoc. }
    apply bind_inv in E as ([] & x1 & E1 & E). rewrite (bind_Ret _ _ _ _ _ E1). apply bind_inv in E as ([] & x2 & E2 & E). rewrite (bind_Ret _ _ _ _ _ E2).
    apply bind_inv in E as ([] & x3 & E3 & E). rewrite (bind_Ret _ _ _ _ _ E3). apply bind_inv in E as ([] & x4 & E4 & E). rewrite (bind_Ret _ _ _ _ _ E4).
    rewrite (bind_Ret _ _ _ _ _ E). clear E1 E2 E3 E4 E x1 x2 x3 x4.
    inversion Hok as [|?? Hok0 Hok1]; subst. inversion Hok1 as [|?? Hok1' _]; subst.
    unfold ext4_next_entry at 1. rewrite bind_assoc. rewrite (bind_Ret _ _ _ _ _ (de_rec_len_at sb bh d1 [] e0 rest 0 Hd1 Hok0 eq_refl)), bind_ret, Hr0.
    pose proof (fill_dots bh d1 (enc e0) i' r' (le_put 1 nl') (le_put 1 ft') b3 (body' ++ tl) parent 2 (blocksize - (csum_size sb + 12)) (dotdot ++ [0]) 12 Hd1 Hi' Hr' eq_refl eq_refl
      ltac:(simpl; lia) ltac:(rewrite enc_length; lia) ltac:(lia) ltac:(by replace (blocksize - (csum_size sb + 12)) with (blocksize - csum_size sb - 12) by lia)) as E.
    rewrite Eft' in E. unfold d1 in E at 2. rewrite set_data_twice in E. set (d2 := set_data bh _ d) in E.
    assert (Hb' : lay [e0; e1] ++ tl = enc e0 ++ le_put 4 parent ++ le_put 2 (blocksize - (csum_size sb + 12)) ++ le_put 1 2 ++ le_put 1 ft1 ++ (dotdot ++ [0]) ++ body' ++ tl).
    { rewrite !lay_cons. unfold enc at 2. rewrite Hr1. cbn [e_ino e_nlen e_ft e_body e1]. cbn [lay mbind list_bind].
      replace (blocksize - (csum_size sb + 12)) with (blocksize - csum_size sb - 12) by lia. rewrite app_nil_r. by rewrite <- !app_assoc. }
    rewrite Hb'. fold d2. assert (Hd2 : data bh d2 = Some (enc e0 ++ enc e1 ++ tl)).
    { unfold d2. rewrite (data_set _ _ _ _ Hd), <- Hb', !lay_cons. cbn [lay mbind list_bind]. rewrite app_nil_r. by rewrite <- !app_assoc. }
    cbn [negb]. apply bind_inv in E as ([] & x1 & E1 & E). rewrite (bind_Ret _ _ _ _ _ E1). apply bind_inv in E as ([] & x2 & E2 & E). rewrite (bind_Ret _ _ _ _ _ E2).
    apply bind_inv in E as ([] & x3 & E3 & E). rewrite (bind_Ret _ _ _ _ _ E3). apply bind_inv in E as ([] & x4 & E4 & E). rewrite (bind_Ret _ _ _ _ _ E4).
    rewrite (bind_Ret _ _ _ _ _ E). unfold ext4_next_entry.
    rewrite (bind_Ret _ _ _ _ _ (de_rec_len_at sb bh d2 (enc e0) e1 tl 12 Hd2 Hok1' ltac:(rewrite enc_length; lia))), Hr1. unfold ret. f_equal. lia.
  - lia.
  - done.
  - autorewrite with dir. lia.
  - exists e0, e1, []. split; [done|]. cbn. unfold live. cbn. repeat split; lia.
  - rewrite !entries_live by (unfold live; cbn; lia). done.
  - done.
Qed.

Lemma new_dir_at d parent :
  d_bufs d = [] -> is_dx sb d = false -> 0 < ds_ino sb <= ds_inodes_count sb -> 0 < parent <= ds_inodes_count sb ->
  runs (ext4_init_new_dir sb parent) d (fun r d' =>
    (r = 0 -> d_nlink d' = 2 /\ exists e0 e1, lindir sb d' [[e0; e1]] /\ dots [e0; e1] /\ entries [e0; e1] = [(dot, ds_ino sb); (dotdot, parent)] /\ e_rec e0 = 12) /\
    (r <> 0 -> create_err 0 <> 0 \/ ds_needs_sync sb && sync_fails 0 = true)).
Proof.
  intros Hnil Hdx Hino Hpar. pose proof dg_block as Hbs. unfold ext4_init_new_dir. apply runs_bind, runs_modify. set (d0 := d <| d_size := 0 |>).
  assert (Hs0 : Z.shiftr (d_size d0) (ds_blocksize_bits sb) = 0) by apply Z.shiftr_0_l. apply runs_bind.
  destruct (append_at sb d0 [] ltac:(unfold d0, update; cbn; by rewrite Hnil) Hs0) as [E|(err & E & Hneg & Hf)].
  2:{ eapply runs_intro; [exact E|]. apply runs_ret. split; [lia|]. intros _. destruct Hf as [[H1 H2]|Hf]; [|by left].
      change (Z.shiftr (d_size d0) 10) with (Z.shiftr 0 10) in H2. rewrite Z.shiftr_0_l in H2. pose proof dg_limit. lia. }
  eapply runs_intro; [exact E|]. clear E. cbv beta iota. change (Z.of_nat (length [])) with 0. set (d1 := appended sb 0 d0).
  assert (Hd1 : data 0 d1 = Some (fresh_block blocksize 0)).
  { pose proof (appended_new sb 0 d0) as Hnew. change (d_bufs d0) with (d_bufs d) in Hnew. by rewrite Hnil in Hnew. }
  destruct (fresh_law blocksize 0) as [Hlen Hbytes].
  destruct (init_dots_at 0 d1 _ parent Hd1 ltac:(lia) Hbytes Hino Hpar) as (e0 & e1 & tl & b & E & Hb & Htl & Hok & Hoff & Hdots & Hent & Hrec).
  apply runs_bind. eapply runs_intro; [exact E|]. clear E. apply runs_bind, runs_modify. set (d2 := _ <| d_nlink := 2 |>).
  assert (Hd2 : data 0 d2 = Some (lay [e0; e1] ++ tl)) by (change (data 0 d2) with (data 0 (set_data 0 b d1)); rewrite (data_set _ _ _ _ Hd1); by rewrite Hb).
  assert (exists d3 b3, (if ds_metadata_csum sb then initialize_dirent_tail sb 0 else ret tt) d2 = Ret tt d3 /\ d3 = set_data 0 b3 d2 /\ leaf sb 0 d3 [e0; e1])
    as (d3 & b3 & E3 & Hb3 & Hl3).
  { destruct (csum_size_cases sb) as [[Ec Em]|[Ec Em]]; rewrite Em, Ec in *.
    - exists d2, (lay [e0; e1] ++ tl). split; [done|]. split; [symmetry; by apply set_data_id|].
      apply (leaf_data_eq sb 0 d2 _ [0; 0; 0; 0]); [|done|done|by rewrite Ec]. unfold dtail. rewrite Em, app_nil_r, Hd2. destruct tl; [by rewrite app_nil_r|done].
    - rewrite (init_tail_at sb 0 d2 [e0; e1] tl Hd2 Hoff ltac:(lia)). eexists _, _. split; [done|]. split; [done|].
      apply (leaf_data_eq sb 0 _ _ [0; 0; 0; 0]); [|done|done|by rewrite Ec]. unfold dtail. rewrite Em. by eapply data_set. }
  apply runs_bind. eapply runs_intro; [exact E3|]. apply runs_bind. eapply runs_conseq; [by apply dirty_node_at|].
  intros r d4 (Hl4 & Hv4 & Ho4 & Hr). destruct (Z.eqb_spec r 0) as [->|Hne]; cbn [negb].
  2:{ apply runs_ret. split; [done|]. intros _. right. by destruct (ds_needs_sync sb && sync_fails 0). }
  pose proof Hl4 as [(c & _ & Hd4) _ _]. unfold data in Hd4. destruct (buf_at 0 d4) as [bf|] eqn:Eb; [|done].
  apply runs_bind. eapply runs_intro; [by eapply with_buf_ok|]. apply runs_ret. set (d5 := d4 <| d_bufs ::= _ |>). split; [|done]. intros _.
  assert (Hs5 : same sb d4 d5) by by apply alter_same. split; [change (d_nlink d5) with (d_nlink d4); by rewrite (on_nlink _ _ _ _ Ho4), Hb3|].
  exists e0, e1. split; [|done]. apply (lindir_same sb d4 d5); [done|].
  destruct Ho4 as [O1 O2 O3 O4 O5 _ _]. split.
  - rewrite O3, Hb3. unfold d2, d1, set_data, appended, d0, update. cbn. by rewrite !length_alter, Hnil.
  - rewrite O4, Hb3. unfold d2, d1, set_data, appended, d0, update. cbn. lia.
  - intros i es Hi. by apply list_lookup_singleton_Some in Hi as [-> <-].
  - intros i es Hi. by apply list_lookup_singleton_Some in Hi as [-> <-].
  - rewrite O5, Hb3. exact Hdx.
Qed.

(** ** Is the directory empty? *)

(** The blocks from [b] on, as the code looks at them: a block that cannot be
    read ends the search as the end of the directory does. *)
Fixpoint seems_empty (b : Z) (ess : list (list dent)) : bool :=
  match ess with
  | [] => true
  | es :: ess => if decide (unreadable b) then true else if decide (entries es = []) then seems_empty (b + 1) ess else false
  end.

(** Every block with entries is at or behind one that cannot be read. *)
Lemma seems_empty_spec ess b : seems_empty b ess = true <->
  forall i es, ess !! i = Some es -> entries es <> [] -> exists j, (j <= i)%nat /\ unreadable (b + Z.of_nat j).
Proof.
  revert b. induction ess as [|es ess IH]; intros b; cbn [seems_empty]; [done|]. destruct (decide (unreadable b)) as [Hu|Hu].
  { split; [|done]. intros _ i x _ _. exists 0%nat. rewrite Z.add_0_r. split; [lia|done]. }
  assert (Hb : forall j, unreadable (b + Z.of_nat j) -> exists k, j = S k /\ unreadable (b + 1 + Z.of_nat k)).
  { intros [|k] Hj; [by rewrite Z.add_0_r in Hj|]. exists k. split; [done|]. by replace (b + 1 + Z.of_nat k) with (b + Z.of_nat (S k)) by lia. }
  destruct (decide (entries es = [])) as [He|He].
  - rewrite IH. split; intros H.
    + intros [|i] x Hi Hx; [by simplify_eq/=|]. destruct (H i x Hi Hx) as (j & Hj & Hu'). exists (S j). split; [lia|]. by replace (b + Z.of_nat (S j)) with (b + 1 + Z.of_nat j) by lia.
    + intros i x Hi Hx. destruct (H (S i) x Hi Hx) as (j & Hj & Hu'). destruct (Hb j Hu') as (k & -> & ?). exists k. split; [lia|done].
  - split; [done|]. intros H. destruct (H 0%nat es eq_refl He) as (j & Hj & Hu'). destruct (Hb j Hu') as (k & -> & _). lia.
Qed.

Section loop.
Context (ess : list (list dent)) (Hsmall : blocksize * Z.of_nat (length ess) < 2 ^ 32).

(** From the end of block [i] on, or from within it. *)
Definition answer (i : nat) (post : list dent) : bool :=
  if decide (entries post = []) then seems_empty (Z.of_nat (S i)) (drop (S i) ess) else false.

Lemma answer_dead i e post : ~ live e -> answer i (e :: post) = answer i post.
Proof. intros He. unfold answer, entries. by rewrite filter_cons_False. Qed.
Lemma answer_live i e post : live e -> answer i (e :: post) = false.
Proof. intros He. unfold answer. by rewrite entries_live by done. Qed.
Lemma answer_tail i es c : answer i (es ++ dtail sb c) = answer i es.
Proof. unfold answer. by rewrite entries_app, dtail_dead, app_nil_r. Qed.
Lemma answer_next i es : ess !! S i = Some es -> answer i [] = if decide (unreadable (Z.of_nat (S i))) then true else answer (S i) es.
Proof.
  intros Hi. unfold answer at 1. rewrite decide_True by done. rewrite (drop_S _ _ _ Hi). cbn [seems_empty].
  case_decide; [done|]. unfold answer. by replace (Z.of_nat (S i) + 1) with (Z.of_nat (S (S i))) by lia.
Qed.

Definition empty_from (fuel : nat) : Prop := forall d i es c pre post,
  lindir sb d ess -> ess !! i = Some es -> length c = 4%nat -> data (Z.of_nat i) d = Some (lay (es ++ dtail sb c)) -> es ++ dtail sb c = pre ++ post ->
  (Z.to_nat (blocksize * Z.of_nat (length ess) - (blocksize * Z.of_nat i + off pre)) < fuel)%nat ->
  runs (empty_loop sb fuel (Z.of_nat i) (off pre) (blocksize * Z.of_nat i + off pre)) d (fun r d' =>
    same sb d d' /\ r = answer i post).

(** The part of the loop behind the change of blocks. *)
Definition empty_step (fuel : nat) (bh de offset : Z) : M dir_st bool :=
  bad <-- ext4_check_dir_entry sb bh de blocksize offset ;;
  if negb (bad =? 0) then empty_loop sb fuel bh blocksize (u32 (Z.lor offset (blocksize - 1) + 1))
  else
    inode <-- de_inode bh de ;;
    if negb (inode =? 0) then ret false
    else l <-- rec_len bh de ;; empty_loop sb fuel bh (de + l) (u32 (offset + l)).

Lemma empty_step_at fuel d j es c pre e post :
  empty_from fuel -> lindir sb d ess -> ess !! j = Some es -> length c = 4%nat ->
  data (Z.of_nat j) d = Some (lay (es ++ dtail sb c)) -> es ++ dtail sb c = pre ++ e :: post ->
  (Z.to_nat (blocksize * Z.of_nat (length ess) - (blocksize * Z.of_nat j + off pre)) < S fuel)%nat ->
  runs (empty_step fuel (Z.of_nat j) (off pre) (blocksize * Z.of_nat j + off pre)) d
    (fun r d' => same sb d d' /\ r = answer j (e :: post)).
Proof using HG HL Hsmall.
  intros IH L Hj Hc Hd Hsp Hf. pose proof dg_block as Hbs.
  pose proof (ld_leaf _ _ _ L _ _ Hj) as [_ Hok Hl]. pose proof (lookup_lt_Some _ _ _ Hj) as Hlt.
  assert (Hx : Forall entry_ok (pre ++ e :: post)) by (rewrite <- Hsp; apply Forall_app; split; [done|by apply dtail_ok]).
  apply Forall_app in Hx as [_ Hx]. inversion_clear Hx as [|?? He Hpost].
  assert (Hall : off pre + e_rec e + off post = blocksize).
  { pose proof (f_equal off Hsp) as Ho. rewrite !off_app, off_cons, (dtail_length sb c Hc), Hl in Ho. lia. }
  assert (Hd' : data (Z.of_nat j) d = Some (lay pre ++ enc e ++ lay post)) by (rewrite Hd, Hsp, lay_app; done).
  pose proof (off_nonneg post). pose proof (off_nonneg pre). pose proof (do_min _ _ He).
  apply runs_bind. eapply runs_intro; [apply (check_at sb _ d (lay pre) e (lay post)); [done..|lia]|]. cbn [negb Z.eqb].
  apply runs_bind. eapply runs_intro; [by apply (de_inode_at sb _ d (lay pre) e (lay post))|].
  destruct (Z.eqb_spec (e_ino e) 0) as [E|E]; cbn [negb].
  2:{ apply runs_ret. split; [apply same_refl|]. by rewrite answer_live. }
  apply runs_bind. eapply runs_intro; [by apply (de_rec_len_at sb _ d (lay pre) e (lay post))|].
  assert (blocksize * Z.of_nat j + blocksize <= blocksize * Z.of_nat (length ess)) by nia.
  assert (Epre : off (pre ++ [e]) = off pre + e_rec e) by (autorewrite with dir; lia).
  replace (u32 (blocksize * Z.of_nat j + off pre + e_rec e)) with (blocksize * Z.of_nat j + off (pre ++ [e]))
    by (rewrite Epre; symmetry; etransitivity; [apply wrap_small|]; lia).
  rewrite <- Epre. eapply runs_conseq; [eapply (IH d j es c (pre ++ [e]) post); [done..| |]|].
  - by rewrite <- app_assoc.
  - rewrite Epre. lia.
  - intros r d' [Hs ->]. split; [done|]. symmetry. apply answer_dead. intros Hx. by apply Hx.
Qed.

Lemma empty_loop_at fuel : empty_from fuel.
Proof using HG HL Hsmall.
  pose proof dg_block as Hbs. induction fuel as [|fuel IH]; intros d i es c pre post L Hi Hc Hd Hsp Hf; [lia|].
  pose proof (lookup_lt_Some _ _ _ Hi) as Hlt. pose proof (ld_leaf _ _ _ L _ _ Hi) as [_ Hok Hl].
  assert (Hall : off pre + off post = blocksize).
  { rewrite <- off_app, <- Hsp, off_app, (dtail_length sb c Hc), Hl. lia. }
  cbn [empty_loop]. apply runs_bind, runs_gets. rewrite (ld_size _ _ _ L).
  assert (blocksize * Z.of_nat i + blocksize <= blocksize * Z.of_nat (length ess)) by nia.
  destruct post as [|e post].
  - rewrite off_nil, Z.add_0_r in Hall. rewrite Hall. cbn [app].
    destruct (Z.ltb_spec (blocksize * Z.of_nat i + blocksize) (blocksize * Z.of_nat (length ess))) as [Hmore|Hmore].
    2:{ apply runs_ret. split; [apply same_refl|]. unfold answer. rewrite decide_True by done. by rewrite drop_ge by nia. }
    assert (Hlt' : (S i < length ess)%nat) by nia. destruct (lookup_lt_is_Some_2 ess (S i) Hlt') as [es' Hi'].
    destruct (Z.leb_spec blocksize blocksize); [|lia].
    replace (blocksize * Z.of_nat i + blocksize) with (Z.of_nat (S i) * blocksize) by lia.
    rewrite Z.shiftr_div_pow2, <- dg_bits, Z.div_mul by (apply dg_bits_pos || lia).
    apply runs_bind, runs_bind. eapply runs_conseq; [by apply (read_dirblock_at sb d ess (S i) es' EITHER)|].
    intros r d1 [Hs [[-> Hu]|(Hu & err & -> & _)]]; apply runs_ret; cbv beta iota; rewrite (answer_next i es' Hi').
    2:{ apply runs_ret. split; [done|]. by rewrite decide_True. }
    rewrite decide_False by done.
    assert (L1 : lindir sb d1 ess) by by eapply lindir_same.
    pose proof (ld_leaf _ _ _ L1 _ _ Hi') as [(c' & Hc' & Hd1) Hok' Hl']. destruct (es' ++ dtail sb c') as [|e' p'] eqn:Ep.
    { pose proof (f_equal off Ep) as Ho. rewrite off_app, (dtail_length sb c' Hc'), Hl', off_nil in Ho. lia. }
    replace (Z.of_nat (S i) * blocksize) with (blocksize * Z.of_nat (S i) + off []) by (rewrite off_nil; lia). change 0 with (off []).
    eapply runs_conseq; [eapply (empty_step_at fuel d1 (S i) es' c' [] e' p'); [done..|by rewrite Ep|exact Ep|rewrite off_nil; lia]|].
    intros r d' [Hs' ->]. split; [by eapply same_trans|]. rewrite <- Ep. apply answer_tail.
  - pose proof (off_nonneg post). rewrite off_cons in Hall. pose proof (e_rec_pos e).
    destruct (Z.ltb_spec (blocksize * Z.of_nat i + off pre) (blocksize * Z.of_nat (length ess))); [|lia].
    destruct (Z.leb_spec blocksize (off pre)); [lia|]. apply runs_bind, runs_ret. cbv beta iota. by eapply empty_step_at.
Qed.
End loop.

Lemma name_is_at bh d a e t s de :
  data bh d = Some (a ++ enc e ++ t) -> de = Z.of_nat (length a) -> take (S (length s)) (e_body e) = s ++ [0] -> name_is bh de s d = Ret true d.
Proof.
  intros Hd -> Ht. unfold name_is, de_name.
  rewrite (bind_Ret _ _ _ _ _ (read_bytes_mid bh d (a ++ le_put 4 (e_ino e) ++ le_put 2 (e_rec e) ++ le_put 1 (e_nlen e) ++ le_put 1 (e_ft e))
    (take (S (length s)) (e_body e)) (drop (S (length s)) (e_body e) ++ t) (Z.of_nat (length a) + 8) (Z.of_nat (length s) + 1)
    ltac:(rewrite Hd; unfold enc; rewrite (app_assoc (take _ _)), take_drop; by rewrite <- !app_assoc)
    ltac:(rewrite !length_app, !le_put_length; lia) ltac:(rewrite Ht, length_app; simpl; lia))).
  rewrite Ht. by rewrite bool_decide_true.
Qed.

Lemma next_entry_at bh d a e t de :
  data bh d = Some (a ++ enc e ++ t) -> entry_ok e -> de = Z.of_nat (length a) -> ext4_next_entry bh de d = Ret (de + e_rec e) d.
Proof. intros Hd He Hde. unfold ext4_next_entry. by rewrite (bind_Ret _ _ _ _ _ (de_rec_len_at sb bh d a e t de Hd He Hde)). Qed.

(** The answer on the blocks of a directory, less its first two entries. *)
Lemma empty_dir_at d es ess :
  lindir sb d (es :: ess) -> dots es -> blocksize * Z.of_nat (S (length ess)) < 2 ^ 32 ->
  runs (ext4_empty_dir sb) d (fun r d' => same sb d d' /\ r = seems_empty 0 (drop 2 es :: ess)).
Proof.
  intros L [(e0 & e1 & rest & -> & Hino & Hl0 & Hl1 & Hn0 & Hn1 & Hb0 & Hb1)] Hsmall. pose proof dg_block as Hbs.
  unfold ext4_empty_dir. apply runs_bind, runs_gets. rewrite (ld_size _ _ _ L). change (EXT4_DIR_REC_LEN 1 + EXT4_DIR_REC_LEN 2) with 24.
  destruct (Z.ltb_spec (blocksize * Z.of_nat (length ((e0 :: e1 :: rest) :: ess))) 24) as [Hlt|_]; [simpl in Hlt; lia|].
  apply runs_bind. change 0 with (Z.of_nat 0) at 1. eapply runs_conseq; [by apply (read_dirblock_at sb d ((e0 :: e1 :: rest) :: ess) 0 (e0 :: e1 :: rest) EITHER)|].
  intros r d1 [Hs [[-> Hu]|(Hu & err & -> & _)]]; cbv beta iota; change (Z.of_nat 0) with 0 in Hu; cbn [seems_empty drop].
  2:{ apply runs_ret. split; [done|]. by rewrite decide_True. }
  rewrite decide_False by done.
  assert (L1 : lindir sb d1 ((e0 :: e1 :: rest) :: ess)) by by eapply lindir_same.
  pose proof (ld_leaf _ _ _ L1 0 _ eq_refl) as [(c & Hc & Hd) Hok Hl]. change (Z.of_nat 0) with 0 in *.
  inversion Hok as [|?? He0 Hok1]; subst. inversion Hok1 as [|?? He1 Hok2]; subst.
  assert (Hd0 : data 0 d1 = Some ([] ++ enc e0 ++ lay (e1 :: rest ++ dtail sb c))) by (rewrite Hd; done).
  assert (Hd1 : data 0 d1 = Some (enc e0 ++ enc e1 ++ lay (rest ++ dtail sb c))) by (rewrite Hd; cbn [app]; by rewrite !lay_cons).
  assert (Hr0 : 0 + e_rec e0 = Z.of_nat (length (enc e0))) by (rewrite enc_length; lia).
  assert (Hr1 : 0 + e_rec e0 + e_rec e1 = off [e0; e1]) by (autorewrite with dir; lia).
  apply runs_bind. eapply runs_intro; [by apply (next_entry_at 0 d1 [] e0 (lay (e1 :: rest ++ dtail sb c)))|].
  apply runs_bind. eapply runs_intro; [by apply (de_inode_at sb 0 d1 [] e0 (lay (e1 :: rest ++ dtail sb c)))|].
  rewrite Hino, Z.eqb_refl. cbn [negb]. apply runs_bind.
  apply runs_bind. eapply runs_intro; [by apply (de_inode_at sb 0 d1 (enc e0) e1 (lay (rest ++ dtail sb c)))|].
  destruct (Z.eqb_spec (e_ino e1) 0); [done|].
  apply runs_bind. eapply runs_intro; [by apply (name_is_at 0 d1 [] e0 (lay (e1 :: rest ++ dtail sb c)))|]. cbn [negb].
  apply runs_bind. eapply runs_intro; [by apply (name_is_at 0 d1 (enc e0) e1 (lay (rest ++ dtail sb c)))|]. apply runs_ret. cbn [negb].
  apply runs_bind. eapply runs_intro; [by apply (next_entry_at 0 d1 (enc e0) e1 (lay (rest ++ dtail sb c)))|]. rewrite Hr1.
  pose proof (empty_loop_at ((e0 :: e1 :: rest) :: ess) Hsmall (S (Z.to_nat (blocksize * Z.of_nat (S (length ess))))) d1 0%nat (e0 :: e1 :: rest) c [e0; e1] (rest ++ dtail sb c)
    L1 eq_refl Hc Hd eq_refl ltac:(pose proof (off_nonneg [e0; e1]); simpl length; lia)) as Hrun.
  change (blocksize * Z.of_nat 0 + off [e0; e1]) with (blocksize * 0 + off [e0; e1]) in Hrun. rewrite Z.mul_0_r, Z.add_0_l in Hrun.
  eapply runs_conseq; [exact Hrun|]. intros r d2 [Hs2 ->]. split; [by eapply same_trans|]. by rewrite answer_tail.
Qed.
End newdir.
