(* ===== verification/DirMap.v ===== *)
(** * mqfs: the steps of splitting a leaf block

    [do_split] of namei.c works in two blocks: the map of the entries is made
    and sorted at the end of the new block, the entries it names are moved to
    the beginning of that block, and the others are packed in place. *)

From stdpp Require Import sorting.
From S2P Require Import Prelude Dirent DirentFacts Dir DirFacts.

(** ** Sorting the map *)

Record ment := mk_ment { m_hash : Z; m_offs : Z; m_size : Z }.
Definition encm (m : ment) : list Z := le_put 4 (m_hash m) ++ le_put 2 (m_offs m) ++ le_put 2 (m_size m).
Definition laym (ms : list ment) : list Z := ms ≫= encm.

Record ment_ok (m : ment) : Prop := {
  mo_hash : 0 <= m_hash m < 2 ^ 32;
  mo_offs : 0 <= m_offs m < 2 ^ 16;
  mo_size : 0 <= m_size m < 2 ^ 16;
}.

Lemma encm_length m : length (encm m) = 8%nat.
Proof. done. Qed.
Lemma laym_app l1 l2 : laym (l1 ++ l2) = laym l1 ++ laym l2.
Proof. apply bind_app. Qed.
Lemma laym_cons m l : laym (m :: l) = encm m ++ laym l.
Proof. done. Qed.
Lemma laym_length l : length (laym l) = (8 * length l)%nat.
Proof. induction l as [|m l IH]; [done|]. rewrite laym_cons, length_app, encm_length, IH. simpl. lia. Qed.

Definition hash_le (x y : ment) : Prop := m_hash x <= m_hash y.

(** ** One pass of bubble sort, from the end of the list *)

Definition bubble_in (x : ment) (r : bool * list ment) : bool * list ment :=
  match r with
  | (m, []) => (m, [x])
  | (m, y :: t) => if m_hash x <=? m_hash y then (m, x :: y :: t) else (true, y :: x :: t)
  end.
Definition bpass (l : list ment) : bool * list ment := foldr bubble_in (false, []) l.

Lemma bubble_in_perm x r : (bubble_in x r).2 ≡ₚ x :: r.2.
Proof. destruct r as [m [|y t]]; simpl; [done|]. case_match; [done|]. simpl. apply Permutation_swap. Qed.

Lemma bpass_perm l : (bpass l).2 ≡ₚ l.
Proof. induction l as [|x l IH]; [done|]. simpl. by rewrite bubble_in_perm, IH. Qed.

Lemma bpass_head l y t : (bpass l).2 = y :: t -> Forall (hash_le y) l.
Proof.
  revert y t. induction l as [|x l IH]; intros y t; [done|]. simpl. pose proof (bpass_perm l) as Hp.
  destruct (bpass l) as [m [|z u]]; simpl in *.
  - assert (l = []) as -> by (destruct l; [done|by apply Permutation_length in Hp]). intros [= <- <-]. constructor; [unfold hash_le; lia|constructor].
  - specialize (IH z u eq_refl). destruct (Z.leb_spec (m_hash x) (m_hash z)); simpl; intros [= <- <-]; constructor; unfold hash_le in *; try lia.
    + eapply Forall_impl; [exact IH|]. simpl. intros. lia.
    + done.
Qed.

Lemma bpass_false l : (bpass l).1 = false -> (bpass l).2 = l /\ StronglySorted hash_le l.
Proof.
  induction l as [|x l IH]; [split; [done|constructor]|]. simpl. pose proof (bpass_head l) as Hh. destruct (bpass l) as [m [|y t]] eqn:E; simpl in *.
  - intros ->. destruct IH as [<- _]; [done|]. split; [done|]. constructor; constructor.
  - destruct (Z.leb_spec (m_hash x) (m_hash y)); [|done]. simpl. intros ->. destruct IH as [El Hs]; [done|]. split; [by rewrite El|].
    constructor; [done|]. eapply Forall_impl; [by eapply Hh|]. unfold hash_le. intros. simpl in *. lia.
Qed.

(** A sorted prefix below the rest stays. *)
Lemma bpass_prefix s t :
  StronglySorted hash_le s -> Forall (fun x => Forall (hash_le x) t) s -> bpass (s ++ t) = ((bpass t).1, s ++ (bpass t).2).
Proof.
  induction s as [|x s IH]; intros Hs Ht; [apply surjective_pairing|]. inversion_clear Hs as [|?? Hs' Hx]. inversion_clear Ht as [|?? Hxt Ht'].
  simpl. fold (bpass (s ++ t)). rewrite IH by done. destruct s as [|y s]; simpl.
  - pose proof (bpass_perm t) as Hp. destruct (bpass t) as [m [|y u]]; simpl in *; [done|]. rewrite <- Hp in Hxt. inversion_clear Hxt as [|?? Hxy _].
    destruct (Z.leb_spec (m_hash x) (m_hash y)); [done|unfold hash_le in *; lia].
  - inversion_clear Hx as [|?? Hxy _]. destruct (Z.leb_spec (m_hash x) (m_hash y)); [done|unfold hash_le in *; lia].
Qed.

(** Passes until nothing is swapped. *)
Fixpoint bubbles (fuel : nat) (l : list ment) : option (list ment) :=
  match fuel with
  | O => None
  | S fuel => let '(more, l) := bpass l in if more then bubbles fuel l else Some l
  end.

Lemma bubbles_sort t : forall fuel s, (length t < fuel)%nat -> StronglySorted hash_le s -> Forall (fun x => Forall (hash_le x) t) s ->
  exists l, bubbles fuel (s ++ t) = Some l /\ l ≡ₚ s ++ t /\ StronglySorted hash_le l.
Proof.
  remember (length t) as n eqn:Hn. revert t Hn. induction n as [|n IH]; intros t Hn fuel s Hf Hs Ht; (destruct fuel as [|fuel]; [lia|]); cbn [bubbles];
    rewrite (bpass_prefix s t Hs Ht); cbv beta iota.
  - apply symmetry, nil_length_inv in Hn as ->. simpl. exists (s ++ []). by rewrite app_nil_r.
  - destruct (bpass t).1 eqn:E.
    + pose proof (bpass_perm t) as Hp. destruct (bpass t).2 as [|y u] eqn:Eu; [destruct t; [done|by apply Permutation_length in Hp]|].
      pose proof (bpass_head t y u Eu) as Hy. assert (Hl : length u = n) by (apply Permutation_length in Hp; simpl in Hp; lia).
      destruct (IH u (eq_sym Hl) fuel (s ++ [y])) as (l & El & Hpl & Hsl); [lia| | |].
      * apply StronglySorted_app. split; [|split; [done|constructor; constructor]].
        intros x z Hx Hz. apply list_elem_of_singleton in Hz as ->. rewrite Forall_forall in Ht. specialize (Ht x Hx). rewrite <- Hp in Ht. by inversion Ht.
      * apply Forall_app. split.
        -- eapply Forall_impl; [exact Ht|]. simpl. intros x Hx. rewrite <- Hp in Hx. by inversion Hx.
        -- constructor; [|done]. rewrite <- Hp in Hy. by inversion Hy.
      * exists l. rewrite <- app_assoc in El, Hpl. cbn [app] in El, Hpl. split; [done|]. split; [|done]. by rewrite Hpl, Hp.
    + destruct (bpass_false t E) as [-> Hst]. exists (s ++ t). split; [done|]. split; [done|]. apply StronglySorted_app. split; [|done].
      intros x z Hx Hz. rewrite Forall_forall in Ht. specialize (Ht x Hx). rewrite Forall_forall in Ht. by apply Ht.
Qed.

(** ** The map in the bytes of a block *)

Section bytes.
Context (bh : Z) (a c : list Z).
#[local] Abbreviation map := (Z.of_nat (length a)).

(** The map holds [ms], between [a] and [c]. *)
Definition holds (ms : list ment) (d : dir_st) : Prop := data bh d = Some (a ++ laym ms ++ c) /\ Forall ment_ok ms.
(** The state with another map. *)
Definition remap (ms : list ment) (d : dir_st) : dir_st := set_data bh (a ++ laym ms ++ c) d.

Lemma remap_holds ms ms' d : holds ms d -> ms' ≡ₚ ms -> holds ms' (remap ms' d).
Proof. intros [Hd Hok] Hp. split; [by eapply data_set|by rewrite Hp]. Qed.

Lemma remap_id ms d : holds ms d -> remap ms d = d.
Proof. intros [Hd _]. by apply set_data_id. Qed.

Lemma remap_twice ms ms' d : remap ms (remap ms' d) = remap ms d.
Proof. apply set_data_twice. Qed.

Lemma laym_mid ms i m : ms !! i = Some m ->
  a ++ laym ms ++ c = (a ++ laym (take i ms)) ++ encm m ++ (laym (drop (S i) ms) ++ c) /\
  map + 8 * Z.of_nat i = Z.of_nat (length (a ++ laym (take i ms))).
Proof.
  intros Hi. pose proof (lookup_lt_Some _ _ _ Hi). split.
  - rewrite <- (take_drop_middle _ _ _ Hi) at 1. rewrite laym_app, laym_cons. by rewrite <- !app_assoc.
  - rewrite length_app, laym_length, length_take. lia.
Qed.

Lemma map_hash_at ms i m d : holds ms d -> ms !! i = Some m -> map_hash bh map (Z.of_nat i) d = Ret (m_hash m) d.
Proof.
  intros [Hd Hok] Hi. destruct (laym_mid ms i m Hi) as [El Ho]. rewrite El in Hd. apply (read_le_mid 4 bh d _ _ _ _ Hd Ho).
  by apply (mo_hash m), (Forall_lookup_1 _ _ _ _ Hok Hi).
Qed.

Lemma map_offs_at ms i m d : holds ms d -> ms !! i = Some m -> map_offs bh map (Z.of_nat i) d = Ret (m_offs m) d.
Proof.
  intros [Hd Hok] Hi. destruct (laym_mid ms i m Hi) as [El Ho]. rewrite El in Hd.
  apply (read_le_mid 2 bh d ((a ++ laym (take i ms)) ++ le_put 4 (m_hash m)) (m_offs m) (le_put 2 (m_size m) ++ laym (drop (S i) ms) ++ c)).
  - rewrite Hd. unfold encm. by rewrite <- !app_assoc.
  - rewrite (length_app (_ ++ _)), le_put_length. lia.
  - by apply (mo_offs m), (Forall_lookup_1 _ _ _ _ Hok Hi).
Qed.

Lemma map_size_at ms i m d : holds ms d -> ms !! i = Some m -> map_size bh map (Z.of_nat i) d = Ret (m_size m) d.
Proof.
  intros [Hd Hok] Hi. destruct (laym_mid ms i m Hi) as [El Ho]. rewrite El in Hd.
  apply (read_le_mid 2 bh d ((a ++ laym (take i ms)) ++ le_put 4 (m_hash m) ++ le_put 2 (m_offs m)) (m_size m) (laym (drop (S i) ms) ++ c)).
  - rewrite Hd. unfold encm. by rewrite <- !app_assoc.
  - rewrite (length_app (a ++ _)), (length_app (le_put _ _)), !le_put_length. lia.
  - by apply (mo_size m), (Forall_lookup_1 _ _ _ _ Hok Hi).
Qed.

Lemma write_entry_at ms i m m' d : data bh d = Some (a ++ laym ms ++ c) -> ms !! i = Some m ->
  write_bytes bh (map + 8 * Z.of_nat i) (encm m') d = Ret tt (remap (<[i := m']> ms) d).
Proof.
  intros Hd Hi. destruct (laym_mid ms i m Hi) as [El Ho]. pose proof Hd as Hd'. rewrite El in Hd'.
  rewrite (write_bytes_mid bh d _ (encm m) _ _ (encm m') Hd' Ho eq_refl). unfold remap. do 2 f_equal.
  rewrite insert_take_drop by by eapply lookup_lt_Some. rewrite laym_app, laym_cons. by rewrite <- !app_assoc.
Qed.

Lemma map_swap_at ms i j x y d : holds ms d -> ms !! i = Some x -> ms !! j = Some y -> i <> j ->
  map_swap bh map (Z.of_nat i) (Z.of_nat j) d = Ret tt (remap (<[j := x]> (<[i := y]> ms)) d).
Proof.
  intros [Hd Hok] Hi Hj Hne. destruct (laym_mid ms i x Hi) as [Ei Hoi]. destruct (laym_mid ms j y Hj) as [Ej Hoj]. unfold map_swap.
  assert (Ri : read_bytes bh (map + 8 * Z.of_nat i) 8 d = Ret (encm x) d) by (rewrite Ei in Hd; by apply (read_bytes_mid bh d _ _ _ _ _ Hd Hoi)).
  assert (Rj : read_bytes bh (map + 8 * Z.of_nat j) 8 d = Ret (encm y) d) by (rewrite Ej in Hd; by apply (read_bytes_mid bh d _ _ _ _ _ Hd Hoj)).
  rewrite (bind_Ret _ _ _ _ _ Ri), (bind_Ret _ _ _ _ _ Rj), (bind_Ret _ _ _ _ _ (write_entry_at ms i x y d Hd Hi)).
  rewrite (write_entry_at (<[i := y]> ms) j y x); [by rewrite remap_twice|by eapply data_set|by rewrite list_lookup_insert_ne].
Qed.

(** ** The passes *)

Lemma comb_pass_at ms d gap rounds : holds ms d -> (0 < gap)%nat -> (rounds + gap <= length ms)%nat ->
  exists ms', comb_pass rounds bh map (Z.of_nat gap) d = Ret tt (remap ms' d) /\ ms' ≡ₚ ms.
Proof.
  intros Hd Hg. revert ms d Hd. induction rounds as [|r IH]; intros ms d Hd Hr; cbn [comb_pass].
  { exists ms. split; [unfold ret; by rewrite (remap_id ms d)|done]. }
  destruct (lookup_lt_is_Some_2 ms (r + gap) ltac:(lia)) as [x Hx]. destruct (lookup_lt_is_Some_2 ms r ltac:(lia)) as [y Hy].
  replace (Z.of_nat r + Z.of_nat gap) with (Z.of_nat (r + gap)) by lia.
  rewrite (bind_Ret _ _ _ _ _ (map_hash_at ms _ x d Hd Hx)), (bind_Ret _ _ _ _ _ (map_hash_at ms _ y d Hd Hy)).
  destruct (m_hash x <? m_hash y).
  - rewrite (bind_Ret _ _ _ _ _ (map_swap_at ms (r + gap) r x y d Hd Hx Hy ltac:(lia))). set (ms1 := <[r := x]> _).
    assert (Hp : ms1 ≡ₚ ms) by (by apply Permutation_insert_swap).
    destruct (IH ms1 (remap ms1 d)) as (ms' & E & Hp'); [by eapply remap_holds|rewrite Hp; lia|].
    exists ms'. rewrite E, remap_twice. split; [done|]. by rewrite Hp'.
  - rewrite bind_ret. apply IH; [done|lia].
Qed.

Lemma comb_gap count : 2 < count < 2 ^ 20 ->
  let g := if u32 (u32 (count * 10) / 13 - 9) <? 2 then 11 else u32 (count * 10) / 13 in 0 < g < count.
Proof.
  intros Hc. assert (E : u32 (count * 10) = count * 10) by (apply wrap_small; lia). rewrite E.
  set (q := count * 10 / 13). assert (Hq : 0 < q < count).
  { unfold q. split; [apply Z.div_str_pos; lia|apply Z.div_lt_upper_bound; lia]. }
  assert (Hq' : 13 * q <= count * 10) by (unfold q; apply Z.mul_div_le; lia).
  destruct (Z.ltb_spec (u32 (q - 9)) 2) as [Hl|Hl]; [|done]. cbv zeta. split; [done|].
  destruct (decide (q < 9)); [|lia]. unfold wrap in Hl. replace (q - 9) with ((q - 9 + 2 ^ 32) + (-1) * 2 ^ 32) in Hl by lia.
  rewrite Z.mod_add, Z.mod_small in Hl by lia. lia.
Qed.

Lemma comb_loop_at fuel : forall ms d count, holds ms d -> (Z.to_nat count < fuel)%nat -> count < 2 ^ 20 ->
  exists ms', comb_loop fuel bh map (Z.of_nat (length ms) - 1) count d = Ret tt (remap ms' d) /\ ms' ≡ₚ ms.
Proof.
  induction fuel as [|fuel IH]; intros ms d count Hd Hf Hc; [lia|]. cbn [comb_loop]. destruct (Z.ltb_spec 2 count).
  2:{ exists ms. split; [unfold ret; by rewrite (remap_id ms d)|done]. }
  pose proof (comb_gap count ltac:(lia)) as Hg. cbv zeta in Hg. set (g := if _ <? 2 then 11 else _) in *.
  assert (exists ms1, comb_pass (Z.to_nat (Z.of_nat (length ms) - 1 - g + 1)) bh map g d = Ret tt (remap ms1 d) /\ ms1 ≡ₚ ms) as (ms1 & E1 & Hp1).
  { destruct (decide (g <= Z.of_nat (length ms))).
    - clearbody g. destruct (Z_of_nat_complete g ltac:(lia)) as [k ->]. apply comb_pass_at; [done|lia..].
    - exists ms. replace (Z.to_nat _) with 0%nat by lia. split; [unfold ret; cbn; unfold ret; by rewrite (remap_id ms d)|done]. }
  rewrite (bind_Ret _ _ _ _ _ E1). destruct (IH ms1 (remap ms1 d) g) as (ms2 & E2 & Hp2); [by eapply remap_holds|lia|lia|].
  rewrite (Permutation_length Hp1) in E2. exists ms2. rewrite E2, remap_twice. split; [done|]. by rewrite Hp2.
Qed.

Lemma bubble_pass_at l1 : forall l2 l2o d more, holds (l1 ++ l2) d -> l2 <> [] -> bpass l2o = (more, l2) ->
  bubble_pass (length l1) bh map more d = Ret (bpass (l1 ++ l2o)).1 (remap (bpass (l1 ++ l2o)).2 d).
Proof.
  induction l1 as [|x l1 IH] using rev_ind; intros l2 l2o d more Hd Hne Hb; cbn [length bubble_pass app].
  { rewrite Hb. cbn. unfold ret. by rewrite (remap_id l2 d). }
  rewrite length_app, Nat.add_comm. cbn [length bubble_pass Nat.add]. destruct l2 as [|y t]; [done|]. rewrite <- app_assoc in Hd. cbn [app] in Hd.
  assert (Hx : (l1 ++ x :: y :: t) !! length l1 = Some x) by by apply list_lookup_middle.
  assert (Hy : (l1 ++ x :: y :: t) !! S (length l1) = Some y) by (rewrite lookup_app_r by lia; replace (S (length l1) - length l1)%nat with 1%nat by lia; done).
  replace (Z.of_nat (length l1) + 1) with (Z.of_nat (S (length l1))) by lia.
  rewrite (bind_Ret _ _ _ _ _ (map_hash_at _ _ y d Hd Hy)), (bind_Ret _ _ _ _ _ (map_hash_at _ _ x d Hd Hx)).
  assert (Hbx : bpass (x :: l2o) = if m_hash x <=? m_hash y then (more, x :: y :: t) else (true, y :: x :: t)) by (simpl; by rewrite Hb).
  rewrite <- app_assoc. cbn [app]. destruct (m_hash x <=? m_hash y).
  - by apply (IH (x :: y :: t)).
  - rewrite (bind_Ret _ _ _ _ _ (map_swap_at _ _ _ y x d Hd Hy Hx ltac:(lia))). set (ms1 := <[length l1 := y]> _).
    assert (E : ms1 = l1 ++ y :: x :: t).
    { unfold ms1. rewrite insert_app_r_alt by lia. replace (S (length l1) - length l1)%nat with 1%nat by lia. cbn.
      rewrite insert_app_r_alt by lia. by rewrite Nat.sub_diag. }
    assert (Hp : ms1 ≡ₚ l1 ++ x :: y :: t) by (by apply Permutation_insert_swap). rewrite E in *.
    rewrite (IH (y :: x :: t) (x :: l2o)); [by rewrite remap_twice|by eapply remap_holds|done|done].
Qed.

Lemma bubble_pass_all ms d : holds ms d ->
  bubble_pass (Z.to_nat (Z.of_nat (length ms) - 1)) bh map false d = Ret (bpass ms).1 (remap (bpass ms).2 d).
Proof.
  intros Hd. destruct ms as [|z l1 _] using rev_ind.
  - cbn. unfold ret. by rewrite (remap_id [] d).
  - rewrite length_app. cbn [length]. replace (Z.to_nat _) with (length l1) by lia. by apply (bubble_pass_at l1 [z] [z]).
Qed.

Lemma bubble_loop_at fuel : forall ms d l, holds ms d -> bubbles fuel ms = Some l ->
  bubble_loop fuel bh map (Z.of_nat (length ms) - 1) d = Ret tt (remap l d).
Proof.
  induction fuel as [|fuel IH]; intros ms d l Hd El; [done|]. cbn [bubble_loop bubbles] in *.
  rewrite (bind_Ret _ _ _ _ _ (bubble_pass_all ms d Hd)). pose proof (bpass_perm ms) as Hp. destruct (bpass ms) as [[] l']; cbn in *.
  - pose proof (remap_holds _ _ _ Hd Hp) as Hd'. rewrite <- (Permutation_length Hp). rewrite (IH l' _ l Hd' El). by rewrite remap_twice.
  - by simplify_eq.
Qed.

(** The map is sorted by hash. *)
Lemma sort_map_at ms d : holds ms d -> Z.of_nat (length ms) < 2 ^ 20 ->
  exists ms', dx_sort_map bh map (Z.of_nat (length ms)) d = Ret tt (remap ms' d) /\ ms' ≡ₚ ms /\ StronglySorted hash_le ms'.
Proof.
  intros Hd Hl. unfold dx_sort_map. destruct (comb_loop_at (S (Z.to_nat (Z.of_nat (length ms)))) ms d (Z.of_nat (length ms)) Hd) as (ms1 & E1 & Hp1); [lia|done|].
  rewrite (bind_Ret _ _ _ _ _ E1). rewrite <- (Permutation_length Hp1).
  destruct (bubbles_sort ms1 (S (Z.to_nat (Z.of_nat (length ms1)))) []) as (ms2 & E2 & Hp2 & Hs2); [lia|constructor|constructor|].
  exists ms2. rewrite (bubble_loop_at _ ms1 (remap ms1 d) ms2); [|by eapply remap_holds|done]. rewrite remap_twice. split; [done|].
  split; [by rewrite Hp2|done].
Qed.
End bytes.

(** ** Making the map *)

#[export] Instance dent_inhabited : Inhabited dent := populate (mk_dent 0 0 0 []).

(** ** The hash of a name *)

Definition name_hash (h : dx_hash_info) (n : list Z) : Z := hi_hash (snd (ext4fs_dirhash n h)).

Lemma dirhash_keeps n h : hi_hash_version (snd (ext4fs_dirhash n h)) = hi_hash_version h /\ hi_seed (snd (ext4fs_dirhash n h)) = hi_seed h.
Proof. unfold ext4fs_dirhash. by destruct (dirhash_words _ _ _) as [[? ?]|]. Qed.

Lemma name_hash_ext h h' n : hi_hash_version h' = hi_hash_version h -> hi_seed h' = hi_seed h -> name_hash h' n = name_hash h n.
Proof. intros E1 E2. unfold name_hash, ext4fs_dirhash. rewrite E1, E2. by destruct (dirhash_words _ _ _) as [[? ?]|]. Qed.

(** Hashes are even, and below the mark for the end of a directory. *)
Lemma name_hash_range h n : 0 <= name_hash h n < 2 ^ 32 - 2 /\ Z.even (name_hash h n) = true.
Proof.
  unfold name_hash, ext4fs_dirhash. destruct (dirhash_words _ _ _) as [[x ?]|]; cbn [snd hi_hash update]; [|unfold update; cbn; lia].
  unfold update. cbn [hi_hash]. change (u32 (Z.lnot 1)) with 4294967294. change (Z.shiftl EXT4_HTREE_EOF_32BIT 1) with 4294967294.
  change (Z.shiftl (EXT4_HTREE_EOF_32BIT - 1) 1) with 4294967292. change (2 ^ 32 - 2) with 4294967294.
  assert (H0 : 0 <= Z.land x 4294967294) by (apply Z.land_nonneg; by right).
  assert (H1 : Z.land x 4294967294 <= 4294967294) by
    (apply Z.ldiff_le; [done|]; by rewrite Z.ldiff_land, <- Z.land_assoc, Z.land_lnot_diag, Z.land_0_r).
  assert (H2 : Z.even (Z.land x 4294967294) = true).
  { rewrite <- Z.negb_odd, <- Z.bit0_odd, Z.land_spec. by rewrite andb_false_r. }
  destruct (Z.eqb_spec (Z.land x 4294967294) 4294967294); [done|]. split; [lia|done].
Qed.

Lemma name_hash_u32 h n : 0 <= name_hash h n < 2 ^ 32.
Proof. pose proof (name_hash_range h n). lia. Qed.

(** ** Two blocks *)

Section two.
Context (bh bh2 : Z) (Hne : bh <> bh2).

Definition two (b1 b2 : list Z) (d : dir_st) : dir_st := set_data bh b1 (set_data bh2 b2 d).

Context (d : dir_st) (o1 o2 : list Z) (Ho1 : data bh d = Some o1) (Ho2 : data bh2 d = Some o2).

Lemma two_left b1 b2 : data bh (two b1 b2 d) = Some b1.
Proof using Hne Ho1 Ho2. apply (data_set bh b1 o1). apply data_set_ne; [done|by eapply data_nonneg|done]. Qed.

Lemma two_right b1 b2 : data bh2 (two b1 b2 d) = Some b2.
Proof using Hne Ho1 Ho2. apply data_set_ne; [done|by eapply data_nonneg|by eapply data_set]. Qed.

Lemma set_left b b1 b2 : set_data bh b (two b1 b2 d) = two b b2 d.
Proof. apply set_data_twice. Qed.

Lemma set_right b b1 b2 : set_data bh2 b (two b1 b2 d) = two b1 b d.
Proof using Hne Ho1 Ho2.
  unfold two, set_data, update. destruct d as [bufs]; cbn. f_equal. apply list_eq. intros i.
  pose proof (data_nonneg _ _ _ Ho1). pose proof (data_nonneg _ _ _ Ho2).
  destruct (decide (i = Z.to_nat bh)) as [->|]; [|destruct (decide (i = Z.to_nat bh2)) as [->|]];
    repeat first [rewrite list_lookup_alter_eq|rewrite list_lookup_alter_ne by lia]; try done.
  by destruct (bufs !! Z.to_nat bh2).
Qed.

Lemma two_id : two o1 o2 d = d.
Proof using Ho1 Ho2. unfold two. rewrite (set_data_id bh2 o2 d Ho2). by apply set_data_id. Qed.
End two.

Lemma split_at_tail {A} (n : nat) (x : list A) : (n <= length x)%nat -> exists a b, x = a ++ b /\ length b = n.
Proof. intros Hn. exists (take (length x - n) x), (drop (length x - n) x). rewrite take_drop, length_drop. split; [done|lia]. Qed.

(** ** Making the map *)

(** The entry of the map for entry [i], and the live entries below [k]. *)
Definition ment_of (h : dx_hash_info) (fs : list dent) (i : nat) : ment :=
  mk_ment (name_hash h (e_name (fs !!! i))) (off (take i fs) / 4) (e_rec (fs !!! i)).
Definition live_below (fs : list dent) (k : nat) : list nat := base.filter (fun i => live (fs !!! i)) (seq 0 k).

Lemma live_below_S fs k : live_below fs (S k) = live_below fs k ++ (if decide (live (fs !!! k)) then [k] else []).
Proof.
  unfold live_below. by rewrite seq_S, filter_app.
Qed.

Lemma live_below_length fs k : (length (live_below fs k) <= k)%nat.
Proof. unfold live_below. rewrite length_filter. by rewrite length_seq. Qed.

Section map.
Context `{HA : DirApi} {HL : DirLaws} (sb : dir_sb) {HG : dir_geo sb}.
#[local] Abbreviation entry_ok := (dent_ok (ds_inodes_count sb)).
#[local] Abbreviation blocksize := (ds_blocksize sb).
Context (bh bh2 : Z) (Hne : bh <> bh2) (d : dir_st) (o1 o2 : list Z) (Ho1 : data bh d = Some o1) (Ho2 : data bh2 d = Some o2).
Context (h : dx_hash_info) (fs : list dent) (Hok : Forall entry_ok fs) (Hoff : off fs = blocksize).
#[local] Abbreviation st b1 b2 := (two bh bh2 b1 b2 d).
#[local] Abbreviation at_ k := (ment_of h fs k).

Lemma fs_mid k : (k < length fs)%nat -> fs = take k fs ++ (fs !!! k) :: drop (S k) fs /\ entry_ok (fs !!! k).
Proof using Hok.
  intros Hk. destruct (lookup_lt_is_Some_2 fs k Hk) as [e He]. rewrite (list_lookup_total_correct _ _ _ He).
  split; [by rewrite take_drop_middle|]. by eapply Forall_lookup_1.
Qed.

Lemma off_take_S k : (k < length fs)%nat -> off (take (S k) fs) = off (take k fs) + e_rec (fs !!! k).
Proof using Hok.
  intros Hk. destruct (lookup_lt_is_Some_2 fs k Hk) as [e He]. rewrite (list_lookup_total_correct _ _ _ He), (take_S_r _ _ _ He).
  autorewrite with dir. lia.
Qed.

Lemma off_take_le k : off (take k fs) <= blocksize.
Proof using Hoff. pose proof (f_equal off (take_drop k fs)) as E. rewrite off_app in E. pose proof (off_nonneg (drop k fs)). lia. Qed.

Lemma ment_of_ok k : (k < length fs)%nat -> ment_ok (at_ k).
Proof using Hok Hoff HG.
  intros Hk. destruct (fs_mid k Hk) as [_ He]. pose proof dg_block. pose proof (off_take_le k). pose proof (off_nonneg (take k fs)).
  split; cbn; [apply name_hash_u32| |pose proof (do_min _ _ He); lia].
  split; [apply Z.div_pos; lia|apply Z.div_lt_upper_bound; lia].
Qed.

Lemma write_ment_at b1 a2 y ms k m :
  length y = 8%nat -> m = at_ k ->
  (write_le 4 bh2 (Z.of_nat (length a2)) (m_hash m) ;;;
   write_le 2 bh2 (Z.of_nat (length a2) + 4) (m_offs m) ;;;
   write_le 2 bh2 (Z.of_nat (length a2) + 6) (m_size m)) (st b1 ((a2 ++ y) ++ laym ms)) = Ret tt (st b1 (a2 ++ laym (m :: ms))).
Proof using Hne Ho1 Ho2.
  intros Hy _. rewrite <- (take_drop 4 y), <- (take_drop 2 (drop 4 y)). set (y1 := take 4 y). set (y2 := take 2 (drop 4 y)). set (y3 := drop 2 (drop 4 y)).
  assert (length y1 = 4%nat /\ length y2 = 2%nat /\ length y3 = 2%nat) as (H1 & H2 & H3).
  { unfold y1, y2, y3. rewrite !length_take, !length_drop. lia. }
  rewrite <- !app_assoc. erewrite bind_Ret by (apply (write_le_mid 4 bh2 _ a2 y1); [by apply (two_right bh bh2 Hne d o1 o2)|done|done]).
  rewrite (set_right bh bh2 Hne d o1 o2 Ho1 Ho2).
  erewrite bind_Ret by (apply (write_le_mid 2 bh2 _ (a2 ++ le_put 4 (m_hash m)) y2 (y3 ++ laym ms)); [rewrite (two_right bh bh2 Hne d o1 o2) by done; by rewrite <- !app_assoc|rewrite length_app, le_put_length; lia|done]).
  rewrite (set_right bh bh2 Hne d o1 o2 Ho1 Ho2), <- !app_assoc.
  rewrite (write_le_mid 2 bh2 _ (a2 ++ le_put 4 (m_hash m) ++ le_put 2 (m_offs m)) y3 (laym ms));
    [|rewrite (two_right bh bh2 Hne d o1 o2) by done; by rewrite <- !app_assoc|rewrite !length_app, !le_put_length; lia|done].
  rewrite (set_right bh bh2 Hne d o1 o2 Ho1 Ho2), laym_cons. unfold encm. by rewrite <- !app_assoc.
Qed.

Lemma make_map_loop_at fuel : forall k a2 h',
  (k <= length fs)%nat -> (length fs - k < fuel)%nat -> hi_hash_version h' = hi_hash_version h -> hi_seed h' = hi_seed h ->
  (length a2 + 8 * length (live_below fs k) = Z.to_nat blocksize)%nat ->
  exists a2', make_map_loop sb fuel bh h' bh2 (off (take k fs)) (Z.of_nat (length a2)) (Z.of_nat (length (live_below fs k)))
      (st (lay fs) (a2 ++ laym (rev (ment_of h fs <$> live_below fs k)))) =
    Ret (Z.of_nat (length (live_below fs (length fs)))) (st (lay fs) (a2' ++ laym (rev (ment_of h fs <$> live_below fs (length fs))))) /\
    (length a2' + 8 * length (live_below fs (length fs)) = Z.to_nat blocksize)%nat.
Proof using Hne Ho1 Ho2 Hok Hoff HG.
  pose proof dg_block as Hbs. pose proof (Forall_length_off sb fs Hok) as Hlen.
  induction fuel as [|fuel IH]; intros k a2 h' Hk Hf Hv Hsd Ha; [lia|]. cbn [make_map_loop].
  destruct (decide (k = length fs)) as [->|Hkn].
  { rewrite take_ge, Hoff by done. destruct (Z.ltb_spec blocksize blocksize); [lia|]. by exists a2. }
  destruct (fs_mid k ltac:(lia)) as [Efs He]. pose proof (off_take_S k ltac:(lia)) as ES. pose proof (off_take_le (S k)). pose proof (e_rec_pos (fs !!! k)).
  destruct (Z.ltb_spec (off (take k fs)) blocksize); [|lia]. set (e := fs !!! k) in *.
  assert (Hst : forall b2, data bh (st (lay fs) b2) = Some (lay (take k fs) ++ enc e ++ lay (drop (S k) fs))).
  { intros b2. rewrite (two_left bh bh2 Hne d o1 o2) by done. rewrite Efs at 1. by rewrite lay_app. }
  rewrite (bind_Ret _ _ _ _ _ (de_name_len_at sb bh _ (lay (take k fs)) e _ _ (Hst _) He eq_refl)).
  rewrite (bind_Ret _ _ _ _ _ (de_inode_at sb bh _ (lay (take k fs)) e _ _ (Hst _) He eq_refl)).
  pose proof (live_below_S fs k) as ELB. fold e in ELB. destruct (decide (live e)) as [Hlive|Hdead].
  - pose proof (do_named _ _ He Hlive). destruct (Z.eqb_spec (e_nlen e) 0); [lia|]. destruct (Z.eqb_spec (e_ino e) 0); [done|]. cbn [negb andb].
    rewrite bind_assoc. rewrite (bind_Ret _ _ _ _ _ (de_name_at sb bh _ (lay (take k fs)) e _ _ (Hst _) He eq_refl)). cbv zeta.
    assert (Hh : hi_hash (ext4fs_dirhash (e_name e) h').2 = m_hash (at_ k)) by (cbn; fold e; by apply name_hash_ext).
    destruct (dirhash_keeps (e_name e) h') as [Hv' Hs']. set (h2 := (ext4fs_dirhash (e_name e) h').2) in *.
    rewrite bind_assoc, (bind_Ret _ _ _ _ _ (de_rec_len_field sb bh _ (lay (take k fs)) e _ _ (Hst _) He eq_refl)).
    pose proof (live_below_length fs k) as Hlb. assert (8 <= length a2)%nat by lia.
    destruct (split_at_tail 8 a2 ltac:(lia)) as (a2' & y & -> & Hy). rewrite length_app in *.
    unfold sizeof_dx_map_entry. replace (Z.of_nat (length a2' + length y) - 8) with (Z.of_nat (length a2')) by lia.
    rewrite Hh. replace (Z.shiftr (off (take k fs)) 2) with (m_offs (at_ k)) by (cbn; rewrite Z.shiftr_div_pow2 by lia; done).
    change (e_rec e) with (m_size (at_ k)).
    pose proof (write_ment_at (lay fs) a2' y (rev (ment_of h fs <$> live_below fs k)) k (at_ k) Hy eq_refl) as Ew.
    apply bind_inv in Ew as ([] & x1 & E1 & Ew). rewrite bind_assoc, (bind_Ret _ _ _ _ _ E1).
    apply bind_inv in Ew as ([] & x2 & E2 & Ew). rewrite bind_assoc, (bind_Ret _ _ _ _ _ E2). rewrite bind_assoc, (bind_Ret _ _ _ _ _ Ew), bind_ret. cbv beta iota.
    clear E1 E2 Ew x1 x2. unfold ext4_next_entry. rewrite bind_assoc, (bind_Ret _ _ _ _ _ (de_rec_len_at sb bh _ (lay (take k fs)) e _ _ (Hst _) He eq_refl)), bind_ret.
    rewrite <- ES. specialize (IH (S k) a2' h2 ltac:(lia) ltac:(lia) ltac:(congruence) ltac:(congruence)).
    rewrite ELB, fmap_app, rev_app_distr, length_app in IH. cbn [fmap list_fmap rev app length] in IH.
    replace (Z.of_nat (length (live_below fs k)) + 1) with (Z.of_nat (length (live_below fs k) + 1)) by lia. apply IH. lia.
  - assert (E0 : negb (e_nlen e =? 0) && negb (e_ino e =? 0) = false).
    { unfold live in Hdead. destruct (Z.eqb_spec (e_ino e) 0); [by rewrite andb_false_r|]. by destruct Hdead. }
    rewrite E0, bind_ret. cbv beta iota. unfold ext4_next_entry.
    rewrite bind_assoc, (bind_Ret _ _ _ _ _ (de_rec_len_at sb bh _ (lay (take k fs)) e _ _ (Hst _) He eq_refl)), bind_ret.
    rewrite <- ES. rewrite app_nil_r in ELB. specialize (IH (S k) a2 h' ltac:(lia) ltac:(lia) Hv Hsd). rewrite ELB in IH. by apply IH.
Qed.
End map.

(** ** Packing *)

(** An entry without its slack. *)
Definition pack (e : dent) : dent := e <| e_body := take (Z.to_nat (EXT4_DIR_REC_LEN (e_nlen e) - 8)) (e_body e) |>.

(** The entries with the numbers [K] marked unused. *)
Definition kill (K : list nat) (fs : list dent) : list dent := imap (fun i e => if decide (i ∈ K) then e <| e_ino := 0 |> else e) fs.

Section pack.
Context `{HA : DirApi} {HL : DirLaws} (sb : dir_sb) {HG : dir_geo sb}.
#[local] Abbreviation entry_ok := (dent_ok (ds_inodes_count sb)).
#[local] Abbreviation blocksize := (ds_blocksize sb).

Lemma pack_rec e : entry_ok e -> e_rec (pack e) = EXT4_DIR_REC_LEN (e_nlen e).
Proof.
  intros He. pose proof (do_fits _ _ He). pose proof (do_nlen _ _ He). pose proof (rec_len_bounds (e_nlen e)) as [? _].
  unfold pack, e_rec, update in *. cbn. rewrite length_take. lia.
Qed.

Lemma pack_le e : entry_ok e -> e_rec (pack e) <= e_rec e.
Proof. intros He. rewrite pack_rec by done. apply (do_fits _ _ He). Qed.

Lemma pack_ok e : entry_ok e -> live e -> entry_ok (pack e).
Proof.
  intros He Hl. pose proof (pack_rec e He) as E. pose proof (pack_le e He). destruct He as [? ? ? ? ? ? Hn]. specialize (Hn Hl).
  pose proof (rec_len_bounds (e_nlen e)) as [? ?]. pose proof (rec_len_min (e_nlen e) ltac:(lia)).
  split; rewrite ?E; unfold pack, update; cbn [e_ino e_nlen e_ft]; try done; lia.
Qed.

Lemma pack_name e : entry_ok e -> e_name (pack e) = e_name e.
Proof.
  intros He. pose proof (do_nlen _ _ He). pose proof (rec_len_bounds (e_nlen e)) as [? _].
  unfold e_name, pack, update. cbn. rewrite take_take. f_equal. lia.
Qed.

Lemma pack_entries l : Forall entry_ok l -> entries (pack <$> l) = entries l.
Proof.
  induction 1 as [|e l He _ IH]; [done|]. cbn [fmap list_fmap]. destruct (decide (live e)).
  - rewrite !entries_live by done. by rewrite IH, pack_name.
  - by rewrite !entries_dead by done.
Qed.

(** The bytes that are copied. *)
Lemma copied_bytes e : entry_ok e ->
  enc e = (le_put 4 (e_ino e) ++ le_put 2 (e_rec e) ++ le_put 1 (e_nlen e) ++ le_put 1 (e_ft e) ++ e_body (pack e))
          ++ drop (Z.to_nat (EXT4_DIR_REC_LEN (e_nlen e) - 8)) (e_body e).
Proof. intros He. unfold enc, pack, update. cbn [e_body]. rewrite <- !app_assoc. by rewrite take_drop. Qed.

Lemma copied_length e : entry_ok e ->
  Z.of_nat (length (le_put 4 (e_ino e) ++ le_put 2 (e_rec e) ++ le_put 1 (e_nlen e) ++ le_put 1 (e_ft e) ++ e_body (pack e))) = EXT4_DIR_REC_LEN (e_nlen e).
Proof. intros He. rewrite <- (pack_rec e He). unfold e_rec. rewrite !length_app, !le_put_length. lia. Qed.

Lemma relen_copied bh d a e c to_ :
  data bh d = Some (a ++ (le_put 4 (e_ino e) ++ le_put 2 (e_rec e) ++ le_put 1 (e_nlen e) ++ le_put 1 (e_ft e) ++ e_body (pack e)) ++ c) ->
  entry_ok e -> to_ = Z.of_nat (length a) -> EXT4_DIR_REC_LEN (e_nlen e) <= blocksize ->
  set_rec_len bh to_ (EXT4_DIR_REC_LEN (e_nlen e)) blocksize d = Ret tt (set_data bh (a ++ enc (pack e) ++ c) d).
Proof.
  intros Hd He Hto Hbs. pose proof (rec_len_bounds (e_nlen e)) as [? ?]. pose proof (do_nlen _ _ He).
  rewrite (set_rec_len_raw sb bh d a (le_put 4 (e_ino e)) (le_put 2 (e_rec e)) (le_put 1 (e_nlen e) ++ le_put 1 (e_ft e) ++ e_body (pack e) ++ c));
    [|rewrite Hd; by rewrite <- !app_assoc|done..|lia|done].
  do 2 f_equal. unfold enc at 1. rewrite (pack_rec e He). by rewrite <- !app_assoc.
Qed.

(** ** Packing in place *)

Lemma pack_loop_at bh : forall post P G d fuel,
  data bh d = Some (lay P ++ G ++ lay post) -> Forall entry_ok post -> off P + Z.of_nat (length G) + off post = blocksize ->
  (length post < fuel)%nat ->
  let P' := P ++ (pack <$> base.filter live post) in
  exists G', pack_loop sb fuel bh (off P + Z.of_nat (length G)) (off P) (off (removelast P)) d = Ret (off (removelast P')) (set_data bh (lay P' ++ G') d) /\
    off P' + Z.of_nat (length G') = blocksize /\ (base.filter live post = [] -> G' = G ++ lay post).
Proof.
  pose proof dg_block as Hbs. intros post. induction post as [|e post IH]; intros P G d fuel Hd Hok Hl Hf; (destruct fuel as [|fuel]; [simpl in Hf; lia|]);
    cbn [pack_loop]; cbv zeta.
  { rewrite off_nil, Z.add_0_r in Hl. rewrite Hl. destruct (Z.ltb_spec blocksize blocksize); [lia|].
    exists G. cbn [base.filter list_filter fmap list_fmap]. rewrite app_nil_r. cbn [lay mbind list_bind] in Hd. rewrite app_nil_r in Hd. split; [|split; [done|intros _; by rewrite app_nil_r]].
    unfold ret. by rewrite set_data_id. }
  inversion_clear Hok as [|?? He Hok']. rewrite off_cons in Hl. pose proof (off_nonneg post). pose proof (e_rec_pos e). pose proof (off_nonneg P).
  set (de := off P + Z.of_nat (length G)) in *. destruct (Z.ltb_spec de blocksize); [|lia].
  rewrite lay_cons in Hd. assert (Hd0 : data bh d = Some ((lay P ++ G) ++ enc e ++ lay post)) by (rewrite Hd; by rewrite <- !app_assoc).
  assert (Hde : de = Z.of_nat (length (lay P ++ G))) by (rewrite length_app; unfold de, off; lia).
  unfold ext4_next_entry. rewrite bind_assoc, (bind_Ret _ _ _ _ _ (de_rec_len_at sb bh d _ e _ de Hd0 He Hde)), bind_ret.
  rewrite (bind_Ret _ _ _ _ _ (de_inode_at sb bh d _ e _ de Hd0 He Hde)), (bind_Ret _ _ _ _ _ (de_name_len_at sb bh d _ e _ de Hd0 He Hde)).
  destruct (decide (live e)) as [Hlive|Hdead].
  - pose proof (do_named _ _ He Hlive). destruct (Z.eqb_spec (e_ino e) 0); [done|]. destruct (Z.eqb_spec (e_nlen e) 0); [lia|]. cbn [negb andb].
    set (x := le_put 4 (e_ino e) ++ le_put 2 (e_rec e) ++ le_put 1 (e_nlen e) ++ le_put 1 (e_ft e) ++ e_body (pack e)).
    pose proof (copied_length e He) as Hx. fold x in Hx. pose proof (copied_bytes e He) as Ex. fold x in Ex. set (rl := EXT4_DIR_REC_LEN (e_nlen e)) in *.
    pose proof (do_fits _ _ He) as Hfit. fold rl in Hfit. set (G1 := drop (length x) (G ++ enc e)).
    assert (HG1 : Z.of_nat (length G1) = Z.of_nat (length G) + e_rec e - rl).
    { unfold G1. rewrite length_drop, length_app. pose proof (enc_length e). lia. }
    assert (exists d1, (if off P <? de then y <-- read_bytes bh de rl ;; write_bytes bh (off P) y else ret tt) d = Ret tt d1 /\
              d1 = set_data bh (lay P ++ x ++ G1 ++ lay post) d) as (d1 & E1 & Ed1).
    { destruct (Z.ltb_spec (off P) de) as [Hlt|Hge].
      - rewrite Ex, <- !app_assoc in Hd0.
        rewrite (bind_Ret _ _ _ _ _ (read_bytes_mid bh d (lay P ++ G) x _ de rl ltac:(rewrite Hd0; by rewrite <- !app_assoc) Hde ltac:(lia))).
        eexists. split; [|reflexivity]. rewrite (write_bytes_mid bh d (lay P) (take (length x) (G ++ enc e)) (G1 ++ lay post) (off P) x); [done| |done|].
        + rewrite Hd. f_equal. f_equal. rewrite !app_assoc. f_equal. unfold G1. by rewrite take_drop.
        + rewrite length_take, length_app. pose proof (enc_length e). lia.
      - exists d. split; [done|]. assert (G = []) as -> by (destruct G; [done|simpl in *; lia]). unfold G1. cbn [app].
        rewrite Ex, drop_app_length. symmetry. apply set_data_id. rewrite Hd. cbn [app]. rewrite Ex at 1. by rewrite <- !app_assoc. }
    rewrite (bind_Ret _ _ _ _ _ E1). assert (Hd1 : data bh d1 = Some (lay P ++ x ++ G1 ++ lay post)) by (rewrite Ed1; by eapply data_set).
    rewrite (bind_Ret _ _ _ _ _ (relen_copied bh d1 (lay P) e (G1 ++ lay post) (off P) Hd1 He eq_refl ltac:(fold rl; lia))). rewrite Ed1, set_data_twice.
    fold rl. set (d2 := set_data bh _ d). assert (Hd2 : data bh d2 = Some (lay (P ++ [pack e]) ++ G1 ++ lay post)).
    { unfold d2. rewrite (data_set _ _ _ _ Hd), lay_app. cbn [lay mbind list_bind]. rewrite app_nil_r. by rewrite <- !app_assoc. }
    assert (HP : off (P ++ [pack e]) = off P + rl) by (autorewrite with dir; rewrite pack_rec by done; fold rl; lia).
    destruct (IH (P ++ [pack e]) G1 d2 fuel Hd2 Hok' ltac:(lia) ltac:(simpl in Hf; lia)) as (G' & E & HG' & _).
    rewrite removelast_last, HP in E. replace (off P + rl + Z.of_nat (length G1)) with (de + e_rec e) in E by (unfold de; lia).
    exists G'. rewrite filter_cons_True by done. cbn [fmap list_fmap]. rewrite <- app_assoc in E, HG'. cbn [app] in E, HG'. rewrite E. unfold d2. by rewrite set_data_twice.
  - assert (E0 : negb (e_ino e =? 0) && negb (e_nlen e =? 0) = false).
    { unfold live in Hdead. destruct (Z.eqb_spec (e_ino e) 0); [done|]. by destruct Hdead. }
    rewrite E0. pose proof (enc_length e) as Hen.
    destruct (IH P (G ++ enc e) d fuel ltac:(rewrite Hd; by rewrite <- !app_assoc) Hok' ltac:(rewrite length_app; lia) ltac:(simpl in Hf; lia)) as (G' & E & HG' & HG2).
    rewrite length_app in E. replace (off P + Z.of_nat (length G + length (enc e))) with (de + e_rec e) in E by (unfold de; lia).
    exists G'. rewrite filter_cons_False by done. split; [done|]. split; [done|]. intros Hnil. rewrite (HG2 Hnil), lay_cons. by rewrite <- app_assoc.
Qed.

Lemma pack_at bh d fs :
  data bh d = Some (lay fs) -> Forall entry_ok fs -> off fs = blocksize ->
  let P := pack <$> base.filter live fs in
  exists G, dx_pack_dirents sb bh d = Ret (off (removelast P)) (set_data bh (lay P ++ G) d) /\ off P + Z.of_nat (length G) = blocksize /\
    (P = [] -> G = lay fs).
Proof.
  intros Hd Hok Hl P. unfold dx_pack_dirents. pose proof (Forall_length_off sb fs Hok).
  destruct (pack_loop_at bh fs [] [] d (S (Z.to_nat blocksize)) Hd Hok ltac:(rewrite off_nil; simpl; lia) ltac:(lia)) as (G & E & HGl & Hnil).
  exists G. split; [exact E|]. split; [done|]. intros HP. apply Hnil. by apply fmap_nil_inv in HP.
Qed.
End pack.

(** ** Moving *)

(** ** Entries that were moved away *)

Lemma kill_length K fs : length (kill K fs) = length fs.
Proof. apply length_imap. Qed.

Lemma kill_lookup K fs i e : fs !! i = Some e -> kill K fs !! i = Some (if decide (i ∈ K) then e <| e_ino := 0 |> else e).
Proof. intros Hi. unfold kill. by rewrite list_lookup_imap, Hi. Qed.

Lemma kill_nil fs : kill [] fs = fs.
Proof.
  apply list_eq. intros i. destruct (fs !! i) as [e|] eqn:E; [by rewrite (kill_lookup _ _ _ _ E), decide_False by apply not_elem_of_nil|].
  apply lookup_ge_None_2. rewrite kill_length. by apply lookup_ge_None_1.
Qed.

Lemma kill_cons_insert j K fs e : fs !! j = Some e -> j ∉ K -> kill (j :: K) fs = <[j := e <| e_ino := 0 |>]> (kill K fs).
Proof.
  intros Hj HK. apply list_eq. intros i. destruct (fs !! i) as [x|] eqn:E.
  - rewrite (kill_lookup _ _ _ _ E). destruct (decide (i = j)) as [->|Hne].
    + simplify_eq. rewrite decide_True by by left. symmetry. apply list_lookup_insert_eq. rewrite kill_length. by eapply lookup_lt_Some.
    + rewrite list_lookup_insert_ne, (kill_lookup _ _ _ _ E) by done. do 2 case_decide; try done; exfalso; set_solver.
  - apply lookup_ge_None_1 in E. rewrite !lookup_ge_None_2; rewrite ?length_insert, ?kill_length; done.
Qed.

Lemma lay_length_rec l l' : e_rec <$> l = e_rec <$> l' -> off l = off l'.
Proof.
  revert l'. induction l as [|x l IH]; intros [|y l']; cbn [fmap list_fmap]; try done. intros [= E1 E2]. rewrite !off_cons, E1. by rewrite (IH l').
Qed.

Lemma kill_rec K fs : e_rec <$> kill K fs = e_rec <$> fs.
Proof.
  apply list_eq. intros i. rewrite !list_lookup_fmap. destruct (fs !! i) as [e|] eqn:E.
  - rewrite (kill_lookup _ _ _ _ E). simpl. by case_decide.
  - apply lookup_ge_None_1 in E. by rewrite (lookup_ge_None_2 (kill K fs)) by (rewrite kill_length; lia).
Qed.

Lemma kill_off K fs i : off (take i (kill K fs)) = off (take i fs).
Proof. apply lay_length_rec. by rewrite !fmap_take, kill_rec. Qed.

(** What is left is what was live and is not in [K]. *)
Lemma kill_live K fs k : live_below (kill K fs) k = base.filter (fun i => i ∉ K) (live_below fs k).
Proof.
  unfold live_below. rewrite list_filter_filter. apply list_filter_iff. intros i.
  destruct (fs !! i) as [e|] eqn:E.
  - rewrite (list_lookup_total_correct _ _ _ (kill_lookup K _ _ _ E)), (list_lookup_total_correct _ _ _ E). case_decide; unfold live, update; cbn; tauto.
  - assert (E' : kill K fs !! i = None) by (apply lookup_ge_None_2; rewrite kill_length; by apply lookup_ge_None_1).
    rewrite !list_lookup_total_alt, E, E'. unfold live. cbn. tauto.
Qed.

Lemma filter_live_below fs : base.filter live fs = (fun i => fs !!! i) <$> live_below fs (length fs).
Proof.
  induction fs as [|e fs IH] using rev_ind; [done|]. rewrite length_app, Nat.add_comm. cbn [length Nat.add]. rewrite live_below_S, filter_app, fmap_app, IH.
  f_equal.
  - assert (E : live_below (fs ++ [e]) (length fs) = live_below fs (length fs)).
    { unfold live_below. apply list_filter_ext. intros i Hi. apply elem_of_seq in Hi. by rewrite lookup_total_app_l by lia. }
    rewrite E. apply list_fmap_ext. intros j i Hi. apply list_elem_of_lookup_2 in Hi. unfold live_below in Hi. apply list_elem_of_filter in Hi as [_ Hi].
    apply elem_of_seq in Hi. by rewrite lookup_total_app_l by lia.
  - assert (Elk : (fs ++ [e]) !!! length fs = e) by (by rewrite lookup_total_app_r, Nat.sub_diag by lia). rewrite Elk.
    destruct (decide (live e)); [rewrite filter_cons_True by done|rewrite filter_cons_False by done]; cbn [fmap list_fmap]; by rewrite ?Elk.
Qed.

Lemma off_mult4 count l : Forall (dent_ok count) l -> off l mod 4 = 0.
Proof. induction 1 as [|e l He _ IH]; [done|]. rewrite off_cons, Zplus_mod, (do_mult _ _ He), IH. done. Qed.

Lemma words_back x : x mod 4 = 0 -> Z.shiftl (x / 4) 2 = x.
Proof. intros Hm. rewrite Z.shiftl_mul_pow2 by lia. change (2 ^ 2) with 4. pose proof (Z.div_mod x 4). lia. Qed.

Section move.
Context `{HA : DirApi} {HL : DirLaws} (sb : dir_sb) {HG : dir_geo sb}.
#[local] Abbreviation entry_ok := (dent_ok (ds_inodes_count sb)).
#[local] Abbreviation blocksize := (ds_blocksize sb).
Context (bh bh2 : Z) (Hne : bh <> bh2) (d : dir_st) (o1 o2 : list Z) (Ho1 : data bh d = Some o1) (Ho2 : data bh2 d = Some o2).
Context (h : dx_hash_info) (fs : list dent) (Hok : Forall entry_ok fs) (Hoff : off fs = blocksize).
#[local] Abbreviation st b1 b2 := (two bh bh2 b1 b2 d).
#[local] Abbreviation packed i := (pack (fs !!! i)).

Lemma kill_ok K : Forall entry_ok (kill K fs).
Proof using Hok HG.
  apply Forall_lookup_2. intros i e Hi. assert (Hlt : (i < length fs)%nat) by (rewrite <- (kill_length K); by eapply lookup_lt_Some).
  destruct (lookup_lt_is_Some_2 fs i Hlt) as [x Hx]. rewrite (kill_lookup K _ _ _ Hx) in Hi. pose proof (Forall_lookup_1 _ _ _ _ Hok Hx) as He.
  case_decide; simplify_eq; [|done]. destruct He. split; unfold update; cbn; try done; lia.
Qed.

(** One entry is copied to the new block and marked unused in the old one. *)
Lemma move_entry_at K j P G ms :
  (j < length fs)%nat -> j ∉ K -> live (fs !!! j) ->
  off P + Z.of_nat (length G) + 8 + 8 * Z.of_nat (length ms) = blocksize -> EXT4_DIR_REC_LEN (e_nlen (fs !!! j)) <= Z.of_nat (length G) + 8 ->
  Forall ment_ok (ment_of h fs j :: ms) ->
  exists G', (offs <-- map_offs bh2 (off P + Z.of_nat (length G)) 0 ;;
      let de := Z.shiftl offs 2 in
      name_len <-- de_name_len bh de ;;
      let rlen := EXT4_DIR_REC_LEN name_len in
      x <-- read_bytes bh de rlen ;;
      write_bytes bh2 (off P) x ;;;
      set_rec_len bh2 (off P) rlen blocksize ;;;
      set_de_inode bh de 0 ;;; ret rlen) (st (lay (kill K fs)) (lay P ++ G ++ laym (ment_of h fs j :: ms))) =
    Ret (e_rec (packed j)) (st (lay (kill (j :: K) fs)) (lay (P ++ [packed j]) ++ G' ++ laym ms)) /\
    off (P ++ [packed j]) + Z.of_nat (length G') + 8 * Z.of_nat (length ms) = blocksize.
Proof using Hne Ho1 Ho2 Hok Hoff HG HL.
  intros Hj HK Hlive Hlen Hfit Hms. pose proof dg_block as Hbs. destruct (lookup_lt_is_Some_2 fs j Hj) as [e He].
  rewrite (list_lookup_total_correct _ _ _ He) in *. pose proof (Forall_lookup_1 _ _ _ _ Hok He) as Heok.
  set (m := ment_of h fs j) in *. set (b1 := lay (kill K fs)). set (b2 := lay P ++ G ++ laym (m :: ms)).
  assert (Hm : map_offs bh2 (off P + Z.of_nat (length G)) 0 (st b1 b2) = Ret (m_offs m) (st b1 b2)).
  { replace (off P + Z.of_nat (length G)) with (Z.of_nat (length (lay P ++ G))) by (rewrite length_app; unfold off; lia).
    change 0 with (Z.of_nat 0). apply (map_offs_at bh2 (lay P ++ G) [] (m :: ms) 0 m); [|done]. split; [|done].
    rewrite (two_right bh bh2 Hne d o1 o2) by done. unfold b2. rewrite app_nil_r. by rewrite <- !app_assoc. }
  rewrite (bind_Ret _ _ _ _ _ Hm). cbv zeta. clear Hm.
  assert (Hde : Z.shiftl (m_offs m) 2 = off (take j (kill K fs))).
  { rewrite kill_off. apply words_back. apply (off_mult4 (ds_inodes_count sb)). by apply Forall_take. }
  rewrite Hde. pose proof (kill_lookup K _ _ _ He) as Hk. rewrite decide_False in Hk by done.
  assert (Hb1 : b1 = lay (take j (kill K fs)) ++ enc e ++ lay (drop (S j) (kill K fs))).
  { unfold b1. rewrite <- (take_drop_middle _ _ _ Hk) at 1. by rewrite lay_app, lay_cons. }
  assert (Hd1 : forall x, data bh (st b1 x) = Some (lay (take j (kill K fs)) ++ enc e ++ lay (drop (S j) (kill K fs)))).
  { intros x. rewrite (two_left bh bh2 Hne d o1 o2) by done. by rewrite Hb1. }
  rewrite (bind_Ret _ _ _ _ _ (de_name_len_at sb bh _ (lay (take j (kill K fs))) e _ _ (Hd1 b2) Heok eq_refl)).
  set (x := le_put 4 (e_ino e) ++ le_put 2 (e_rec e) ++ le_put 1 (e_nlen e) ++ le_put 1 (e_ft e) ++ e_body (pack e)).
  pose proof (copied_length sb e Heok) as Hx. fold x in Hx. pose proof (copied_bytes sb e Heok) as Ex. fold x in Ex. set (rl := EXT4_DIR_REC_LEN (e_nlen e)) in *.
  rewrite (bind_Ret _ _ _ _ _ (read_bytes_mid bh _ (lay (take j (kill K fs))) x (drop (Z.to_nat (rl - 8)) (e_body e) ++ lay (drop (S j) (kill K fs))) _ rl
    ltac:(rewrite (Hd1 b2), Ex; by rewrite <- !app_assoc) eq_refl ltac:(lia))).
  destruct (cut_at (length x) (G ++ encm m)) as (z1 & G' & EG & Hz1); [rewrite length_app, encm_length; lia|].
  assert (HlG : Z.of_nat (length G') = Z.of_nat (length G) + 8 - rl).
  { pose proof (f_equal length EG) as El. rewrite !length_app, encm_length in El. lia. }
  assert (Hb2 : b2 = lay P ++ z1 ++ G' ++ laym ms).
  { unfold b2. rewrite laym_cons, (app_assoc G), EG. by rewrite <- !app_assoc. }
  rewrite (bind_Ret _ _ _ _ _ (write_bytes_mid bh2 (st b1 b2) (lay P) z1 (G' ++ laym ms) (off P) x ltac:(rewrite (two_right bh bh2 Hne d o1 o2) by done; by rewrite Hb2) eq_refl ltac:(lia))).
  rewrite (set_right bh bh2 Hne d o1 o2 Ho1 Ho2). pose proof (pack_rec sb e Heok) as Hpr. fold rl in Hpr. pose proof (pack_le sb e Heok).
  assert (e_rec e <= blocksize).
  { rewrite <- Hoff, <- (take_drop_middle _ _ _ He). autorewrite with dir. pose proof (off_nonneg (take j fs)). pose proof (off_nonneg (drop (S j) fs)). lia. }
  rewrite (bind_Ret _ _ _ _ _ (relen_copied sb bh2 _ (lay P) e (G' ++ laym ms) (off P) (two_right bh bh2 Hne d o1 o2 Ho1 Ho2 _ _) Heok eq_refl ltac:(fold rl; lia))).
  rewrite (set_right bh bh2 Hne d o1 o2 Ho1 Ho2).
  rewrite (bind_Ret _ _ _ _ _ (set_inode_raw bh _ (lay (take j (kill K fs))) (le_put 4 (e_ino e)) _ 0 _ (Hd1 _) eq_refl eq_refl)).
  rewrite set_left. exists G'. split.
  - unfold ret. rewrite Hpr. f_equal. f_equal.
    + rewrite (kill_cons_insert j K fs e He HK), insert_take_drop by (rewrite kill_length; done). rewrite lay_app, lay_cons. done.
    + rewrite lay_app. cbn [lay mbind list_bind]. rewrite app_nil_r. by rewrite <- !app_assoc.
  - autorewrite with dir. lia.
Qed.

Lemma move_loop_at js : forall K P G rl,
  Forall (fun j => (j < length fs)%nat /\ (j ∉ K) /\ live (fs !!! j)) js -> NoDup js ->
  off P + Z.of_nat (length G) + 8 * Z.of_nat (length js) = blocksize ->
  off P + off ((fun i => packed i) <$> js) <= blocksize -> off P - rl = off (removelast P) ->
  let P' := P ++ ((fun i => packed i) <$> js) in
  exists G' K', move_loop sb (length js) bh bh2 (off P) bh2 (off P + Z.of_nat (length G)) rl (st (lay (kill K fs)) (lay P ++ G ++ laym (ment_of h fs <$> js))) =
      Ret (off (removelast P')) (st (lay (kill K' fs)) (lay P' ++ G')) /\ off P' + Z.of_nat (length G') = blocksize /\
    (forall i, i ∈ K' <-> i ∈ js \/ i ∈ K).
Proof using Hne Ho1 Ho2 Hok Hoff HG HL.
  induction js as [|j js IH]; intros K P G rl Hjs Hnd Hlen Hfit Hrl; cbn [length move_loop fmap list_fmap]; cbv zeta.
  { exists G, K. rewrite app_nil_r. cbn [fmap list_fmap laym mbind list_bind]. rewrite !app_nil_r, <- Hrl. split; [done|]. split; [simpl in Hlen; lia|].
    intros i. split; [by right|intros [Hi|?]; [by apply not_elem_of_nil in Hi|done]]. }
  inversion_clear Hjs as [|?? (Hj & HK & Hlive) Hjs']. apply NoDup_cons in Hnd as [Hjn Hnd].
  assert (Hrest : 8 * Z.of_nat (length js) <= off ((fun i => packed i) <$> js)).
  { clear. induction js as [|i js IH]; [done|]. cbn [fmap list_fmap length]. rewrite off_cons. pose proof (e_rec_pos (packed i)). lia. }
  cbn [fmap list_fmap] in Hfit. rewrite off_cons in Hfit. cbn [length] in Hlen.
  assert (Hjok : entry_ok (fs !!! j)) by (destruct (lookup_lt_is_Some_2 fs j Hj) as [e He]; rewrite (list_lookup_total_correct _ _ _ He); by eapply Forall_lookup_1).
  pose proof (pack_rec sb _ Hjok) as Hpr.
  destruct (move_entry_at K j P G (ment_of h fs <$> js) Hj HK Hlive ltac:(rewrite length_fmap; lia) ltac:(lia)) as (G' & E & Hl').
  { constructor; [by eapply ment_of_ok|]. apply Forall_fmap, Forall_forall. intros i Hi. rewrite Forall_forall in Hjs'. eapply ment_of_ok; [done..|]. by apply Hjs'. }
  rewrite length_fmap in Hl'.
  apply bind_inv in E as (offs & x0 & E0 & E). rewrite (bind_Ret _ _ _ _ _ E0). cbv zeta in E.
  apply bind_inv in E as (nl & x1 & E1 & E). rewrite (bind_Ret _ _ _ _ _ E1). apply bind_inv in E as (y & x2 & E2 & E). rewrite (bind_Ret _ _ _ _ _ E2).
  apply bind_inv in E as ([] & x3 & E3 & E). rewrite (bind_Ret _ _ _ _ _ E3). apply bind_inv in E as ([] & x4 & E4 & E). rewrite (bind_Ret _ _ _ _ _ E4).
  apply bind_inv in E as ([] & x5 & E5 & E). rewrite (bind_Ret _ _ _ _ _ E5). injection E as Hnl ->. rewrite Hnl in *. clear E0 E1 E2 E3 E4 E5 x0 x1 x2 x3 x4.
  assert (EP : off (P ++ [packed j]) = off P + e_rec (packed j)) by (autorewrite with dir; lia).
  destruct (IH (j :: K) (P ++ [packed j]) G' (e_rec (packed j))) as (G2 & K2 & E & Hl2 & HK2).
  - rewrite Forall_forall in Hjs' |- *. intros i Hi. destruct (Hjs' i Hi) as (H1 & H2 & H3). split; [done|]. split; [|done]. apply not_elem_of_cons. split; [|done]. by intros ->.
  - done.
  - done.
  - lia.
  - rewrite removelast_last. lia.
  - exists G2, K2. rewrite <- app_assoc in E, Hl2. cbn [app] in E, Hl2. rewrite EP in E. unfold sizeof_dx_map_entry.
    replace (off P + Z.of_nat (length G) + 8) with (off P + e_rec (packed j) + Z.of_nat (length G')) by lia.
    split; [exact E|]. split; [done|]. intros i. rewrite HK2, !elem_of_cons. tauto.
Qed.
End move.
