(* ===== verification/DirSplit.v ===== *)
(** * mqfs: nodes of the index, and splitting a leaf block

    A node is a list of pairs of hash and block behind a header; entry 0 holds
    the limit and the count in the place of its hash.  A split divides the
    entries of a leaf at a hash and enters the new block into the node. *)

From stdpp Require Import sorting.
From S2P Require Import Prelude Dirent DirentFacts Dir DirFacts DirMap.

Definition encx (x : Z * Z) : list Z := le_put 4 x.1 ++ le_put 4 x.2.
Definition layx (xs : list (Z * Z)) : list Z := xs ≫= encx.

Lemma layx_app l1 l2 : layx (l1 ++ l2) = layx l1 ++ layx l2.
Proof. apply bind_app. Qed.
Lemma layx_cons x l : layx (x :: l) = encx x ++ layx l.
Proof. done. Qed.
Lemma layx_length l : length (layx l) = (8 * length l)%nat.
Proof. induction l as [|x l IH]; [done|]. rewrite layx_cons, length_app, IH. simpl. lia. Qed.

Section index.
Context `{HA : DirApi} {HL : DirLaws} (sb : dir_sb) {HG : dir_geo sb}.
#[local] Abbreviation blocksize := (ds_blocksize sb).

(** The bytes in front of the entries: an unused entry that covers the block,
    or the entries of a root and its description. *)
Inductive index_head : list Z -> Prop :=
| node_head : index_head (le_put 4 0 ++ le_put 2 blocksize ++ [0; 0])
| root_head ino ft nm parent ft' nm' version levels flags : length nm = 4%nat -> length nm' = 4%nat -> index_head
    ((le_put 4 ino ++ le_put 2 12 ++ [1; ft] ++ nm) ++ (le_put 4 parent ++ le_put 2 (blocksize - 12) ++ [2; ft'] ++ nm')
     ++ le_put 4 0 ++ [version; 8; levels; flags]).

(** The node has room for [limit] entries, and for the checksum. *)
Record node (fb : Z) (A : list Z) (limit blk0 : Z) (xs : list (Z * Z)) (S : list Z) (d : dir_st) : Prop := {
  nd_data : data fb d = Some (A ++ le_put 2 limit ++ le_put 2 (1 + Z.of_nat (length xs)) ++ le_put 4 blk0 ++ layx xs ++ S);
  nd_head : index_head A;
  nd_limit : 0 <= limit < 2 ^ 16;
  nd_count : 1 + Z.of_nat (length xs) <= limit;
  nd_blk0 : 0 <= blk0 < 2 ^ 28;
  nd_xs : Forall (fun x => 0 <= x.1 < 2 ^ 32 /\ 0 <= x.2 < 2 ^ 28) xs;
  nd_slack : Z.of_nat (length S) = blocksize - Z.of_nat (length A) - 8 * (1 + Z.of_nat (length xs));
  nd_fits : Z.of_nat (length A) + 8 * limit + (if ds_metadata_csum sb then sizeof_dx_tail else 0) <= blocksize;
}.

Section node.
Context (fb : Z) (A : list Z) (limit blk0 : Z) (xs : list (Z * Z)) (S : list Z) (d : dir_st) (N : node fb A limit blk0 xs S d).
#[local] Abbreviation ent := (Z.of_nat (length A)).

Lemma get_limit_at : dx_get_limit fb ent d = Ret limit d.
Proof using N. pose proof (nd_data _ _ _ _ _ _ _ N) as Hd. apply (read_le_mid 2 fb d A limit _ _ Hd eq_refl), (nd_limit _ _ _ _ _ _ _ N). Qed.

Lemma get_count_at : dx_get_count fb ent d = Ret (1 + Z.of_nat (length xs)) d.
Proof using N.
  destruct N as [Hd _ Hl Hc _ _ _ _]. apply (read_le_mid 2 fb d (A ++ le_put 2 limit) _ (le_put 4 blk0 ++ layx xs ++ S)).
  - rewrite Hd. by rewrite <- !app_assoc.
  - rewrite length_app, le_put_length. lia.
  - change (256 ^ Z.of_nat 2) with (2 ^ 16). lia.
Qed.

Lemma node_mid i x : xs !! i = Some x ->
  data fb d = Some ((A ++ le_put 2 limit ++ le_put 2 (1 + Z.of_nat (length xs)) ++ le_put 4 blk0 ++ layx (take i xs)) ++ le_put 4 x.1 ++ le_put 4 x.2 ++ layx (drop (Datatypes.S i) xs) ++ S) /\
  ent + 8 * (1 + Z.of_nat i) = Z.of_nat (length (A ++ le_put 2 limit ++ le_put 2 (1 + Z.of_nat (length xs)) ++ le_put 4 blk0 ++ layx (take i xs))).
Proof using N.
  intros Hi. split.
  - rewrite (nd_data _ _ _ _ _ _ _ N). f_equal. rewrite <- (take_drop_middle _ _ _ Hi) at 2. rewrite layx_app, layx_cons. unfold encx. by rewrite <- !app_assoc.
  - pose proof (lookup_lt_Some _ _ _ Hi). rewrite !length_app, !le_put_length, layx_length, length_take. lia.
Qed.

Lemma get_hash_at i x : xs !! i = Some x -> dx_get_hash fb ent (1 + Z.of_nat i) d = Ret x.1 d.
Proof using N.
  intros Hi. destruct (node_mid i x Hi) as [Hd Ho]. apply (read_le_mid 4 fb d _ _ _ _ Hd Ho).
  by apply (Forall_lookup_1 _ _ _ _ (nd_xs _ _ _ _ _ _ _ N) Hi).
Qed.

Lemma get_block_at i x : xs !! i = Some x -> dx_get_block fb ent (1 + Z.of_nat i) d = Ret x.2 d.
Proof using N.
  intros Hi. destruct (node_mid i x Hi) as [Hd Ho]. destruct (Forall_lookup_1 _ _ _ _ (nd_xs _ _ _ _ _ _ _ N) Hi) as [_ Hb]. unfold dx_get_block.
  erewrite bind_Ret; [unfold ret; f_equal; change 0x0fffffff with (Z.ones 28); rewrite Z.land_ones by lia; by apply Z.mod_small|].
  rewrite (app_assoc (_ ++ _)) in Hd. eapply (read_le_mid 4 fb d _ _ _ _ Hd).
  - rewrite length_app, le_put_length, Nat2Z.inj_add, <- Ho. lia.
  - change (256 ^ Z.of_nat 4) with (2 ^ 32). lia.
Qed.

Lemma get_block0_at : dx_get_block fb ent 0 d = Ret blk0 d.
Proof using N.
  destruct N as [Hd _ Hl Hc Hb _ _ _]. unfold dx_get_block.
  erewrite bind_Ret; [unfold ret; f_equal; change 0x0fffffff with (Z.ones 28); rewrite Z.land_ones by lia; by apply Z.mod_small|].
  apply (read_le_mid 4 fb d (A ++ le_put 2 limit ++ le_put 2 (1 + Z.of_nat (length xs))) _ (layx xs ++ S)).
  - rewrite Hd. by rewrite <- !app_assoc.
  - rewrite !length_app, !le_put_length. lia.
  - change (256 ^ Z.of_nat 4) with (2 ^ 32). lia.
Qed.
End node.

Lemma read_bytes_in bh d b o n : data bh d = Some b -> 0 <= o -> 0 <= n -> o + n <= Z.of_nat (length b) -> exists x, read_bytes bh o n d = Ret x d.
Proof.
  intros Hd Ho Hn Hl. unfold data in Hd. unfold read_bytes. destruct (buf_at bh d) as [x|]; [|done]. injection Hd as ->.
  assert (E : (0 <=? o) && (0 <=? n) && (o + n <=? Z.of_nat (length b)) = true) by (rewrite !andb_true_iff, !Z.leb_le; lia). rewrite E. by eexists.
Qed.

(** ** Inserting *)

Definition insert_after (at_ : nat) (x : Z * Z) (xs : list (Z * Z)) : list (Z * Z) := take at_ xs ++ x :: drop at_ xs.

Lemma insert_block_at fb A limit blk0 xs S d at_ hash block :
  node fb A limit blk0 xs S d -> 1 + Z.of_nat (length xs) < limit -> (at_ <= length xs)%nat -> 0 <= hash < 2 ^ 32 -> 0 <= block < 2 ^ 28 ->
  exists S' b, dx_insert_block (mk_frame fb (Z.of_nat (length A)) (Z.of_nat at_)) hash block d = Ret tt (set_data fb b d) /\
    node fb A limit blk0 (insert_after at_ (hash, block) xs) S' (set_data fb b d).
Proof.
  intros N Hroom Hat Hh Hb. pose proof N as [Hd Hhd Hl Hc Hb0 Hxs Hs Hft]. unfold dx_insert_block. cbn [fr_bh fr_entries fr_at].
  rewrite (bind_Ret _ _ _ _ _ (get_count_at _ _ _ _ _ _ _ N)), (bind_Ret _ _ _ _ _ (get_limit_at _ _ _ _ _ _ _ N)).
  rewrite bind_check by (by apply Z.ltb_lt). rewrite bind_check by (apply Z.ltb_lt; lia).
  assert (Hcsum : (if ds_metadata_csum sb then sizeof_dx_tail else 0) >= 0) by (by destruct (ds_metadata_csum sb)).
  destruct (cut_at 8 S) as (s8 & S' & -> & Hs8); [lia|]. rewrite length_app in Hs.
  set (hd := A ++ le_put 2 limit ++ le_put 2 (1 + Z.of_nat (length xs)) ++ le_put 4 blk0 ++ layx (take at_ xs)).
  assert (Hhdl : Z.of_nat (length hd) = Z.of_nat (length A) + 8 * (Z.of_nat at_ + 1)).
  { unfold hd. rewrite !length_app, !le_put_length, layx_length, length_take. lia. }
  assert (Hd1 : data fb d = Some (hd ++ layx (drop at_ xs) ++ s8 ++ S')).
  { rewrite Hd. unfold hd. f_equal. rewrite <- (take_drop at_ xs) at 2. rewrite layx_app. by rewrite <- !app_assoc. }
  rewrite (bind_Ret _ _ _ _ _ (read_bytes_mid fb d hd (layx (drop at_ xs)) _ _ (8 * (1 + Z.of_nat (length xs) - (Z.of_nat at_ + 1))) Hd1 (eq_sym Hhdl)
    ltac:(rewrite layx_length, length_drop; lia))).
  destruct (cut_at 8 (layx (drop at_ xs) ++ s8)) as (y8 & Y' & EY & Hy8); [rewrite length_app; lia|].
  assert (HY' : length (layx (drop at_ xs)) = length Y') by (pose proof (f_equal length EY) as El; rewrite !length_app in El; lia).
  assert (Hd2 : data fb d = Some ((hd ++ y8) ++ Y' ++ S')) by (rewrite Hd1, (app_assoc (layx _)), EY; by rewrite <- !app_assoc).
  rewrite (bind_Ret _ _ _ _ _ (write_bytes_mid fb d (hd ++ y8) Y' S' (Z.of_nat (length A) + 8 * (Z.of_nat at_ + 1 + 1)) (layx (drop at_ xs)) Hd2
    ltac:(rewrite length_app; lia) HY')).
  match goal with |- context [bind _ _ ?d' = _] => set (d1 := d') end. assert (Hd3 := data_set fb _ _ d Hd : data fb d1 = _).
  destruct (cut_at 4 y8) as (y4 & y4' & -> & Hy4); [lia|]. rewrite length_app in Hy8. rewrite <- !app_assoc in Hd3.
  rewrite (bind_Ret _ _ _ _ _ (write_le_mid 4 fb d1 hd y4 _ (Z.of_nat (length A) + 8 * (Z.of_nat at_ + 1)) hash Hd3 ltac:(lia) Hy4)).
  unfold d1. rewrite set_data_twice. clear d1 Hd3.
  match goal with |- context [bind _ _ ?d' = _] => set (d1 := d') end. assert (Hd3 := data_set fb _ _ d Hd : data fb d1 = _).
  rewrite app_assoc in Hd3.
  rewrite (bind_Ret _ _ _ _ _ (write_le_mid 4 fb d1 (hd ++ le_put 4 hash) y4' _ (Z.of_nat (length A) + 8 * (Z.of_nat at_ + 1) + 4) block Hd3
    ltac:(rewrite length_app, le_put_length; lia) ltac:(lia))).
  unfold d1. rewrite set_data_twice. clear d1 Hd3.
  match goal with |- context [dx_set_count _ _ _ ?d' = _] => set (d1 := d') end. assert (Hd3 := data_set fb _ _ d Hd : data fb d1 = _).
  unfold hd in Hd3. rewrite <- !app_assoc in Hd3. unfold dx_set_count.
  rewrite (write_le_mid 2 fb d1 (A ++ le_put 2 limit) (le_put 2 (1 + Z.of_nat (length xs))) (le_put 4 blk0 ++ layx (take at_ xs) ++ le_put 4 hash ++ le_put 4 block ++ layx (drop at_ xs) ++ S'));
    [|rewrite Hd3; by rewrite <- !app_assoc|rewrite length_app, le_put_length; lia|done].
  unfold d1. rewrite set_data_twice. clear d1 Hd3. eexists S', _. split; [done|].
  assert (Hlen : length (insert_after at_ (hash, block) xs) = Datatypes.S (length xs)).
  { unfold insert_after. rewrite length_app. cbn [length]. rewrite length_take, length_drop. lia. }
  split; try done.
  - rewrite (data_set _ _ _ _ Hd). f_equal. rewrite Hlen. replace (1 + Z.of_nat (length xs) + 1) with (1 + Z.of_nat (Datatypes.S (length xs))) by lia.
    unfold insert_after. rewrite layx_app, layx_cons. unfold encx. cbn [fst snd]. by rewrite <- !app_assoc.
  - rewrite Hlen. lia.
  - unfold insert_after. rewrite <- (take_drop at_ xs) in Hxs. apply Forall_app in Hxs as [H1 H2]. apply Forall_app. split; [done|]. by constructor.
  - rewrite Hlen. lia.
Qed.

(** ** The checksum of a node *)

Lemma countlimit_at fb A rest d : data fb d = Some (A ++ rest) -> index_head A -> get_dx_countlimit sb fb d = Ret (Some (Z.of_nat (length A))) d.
Proof.
  pose proof dg_block as Hbs. intros Hd HA'. unfold get_dx_countlimit. destruct HA' as [|ino ft nm parent ft' nm' version levels flags Hnm Hnm'].
  - rewrite <- !app_assoc in Hd. rewrite (bind_Ret _ _ _ _ _ (read_le_mid 2 fb d (le_put 4 0) blocksize ([0; 0] ++ rest) (0 + 4) Hd eq_refl ltac:(change (256 ^ Z.of_nat 2) with 65536; lia))).
    by rewrite Z.eqb_refl.
  - assert (Hl : Z.of_nat (length ((le_put 4 ino ++ le_put 2 12 ++ [1; ft] ++ nm) ++ (le_put 4 parent ++ le_put 2 (blocksize - 12) ++ [2; ft'] ++ nm') ++ le_put 4 0 ++ [version; 8; levels; flags])) = 32)
      by (rewrite !length_app, !le_put_length, Hnm, Hnm'; done).
    rewrite Hl. rewrite <- !app_assoc in Hd.
    rewrite (bind_Ret _ _ _ _ _ (read_le_mid 2 fb d (le_put 4 ino) 12 _ (0 + 4) Hd eq_refl ltac:(done))).
    destruct (Z.eqb_spec 12 blocksize); [lia|]. rewrite Z.eqb_refl.
    set (p1 := le_put 4 ino ++ le_put 2 12 ++ [1; ft] ++ nm ++ le_put 4 parent).
    assert (Hp1 : Z.of_nat (length p1) = 16) by (unfold p1; rewrite !length_app, !le_put_length, Hnm; done).
    assert (Hd1 : data fb d = Some (p1 ++ le_put 2 (blocksize - 12) ++ [2; ft'] ++ nm' ++ le_put 4 0 ++ [version; 8; levels; flags] ++ rest)) by (rewrite Hd; unfold p1; by rewrite <- !app_assoc).
    rewrite (bind_Ret _ _ _ _ _ (read_le_mid 2 fb d p1 (blocksize - 12) _ (12 + 4) Hd1 ltac:(lia) ltac:(change (256 ^ Z.of_nat 2) with 65536; lia))).
    rewrite Z.eqb_refl. cbn [negb]. set (p2 := p1 ++ le_put 2 (blocksize - 12) ++ [2; ft'] ++ nm').
    assert (Hp2 : Z.of_nat (length p2) = 24) by (unfold p2; rewrite !length_app, !le_put_length, Hnm', !Nat2Z.inj_add, Hp1; done).
    assert (Hd2 : data fb d = Some (p2 ++ le_put 4 0 ++ [version; 8; levels; flags] ++ rest)) by (rewrite Hd1; unfold p2; by rewrite <- !app_assoc).
    rewrite (bind_Ret _ _ _ _ _ (read_le_mid 4 fb d p2 0 _ 24 Hd2 ltac:(lia) ltac:(done))).
    assert (Hd3 : data fb d = Some ((p2 ++ le_put 4 0 ++ [version]) ++ le_put 1 8 ++ [levels; flags] ++ rest)) by (rewrite Hd2; by rewrite <- !app_assoc).
    rewrite (bind_Ret _ _ _ _ _ (read_le_mid 1 fb d _ 8 _ 29 Hd3 ltac:(rewrite !length_app, le_put_length, !Nat2Z.inj_add, Hp2; done) ltac:(done))). done.
Qed.

(** The checksum of the node is right, in every state with its bytes. *)
Definition dx_verifies (fb : Z) (d : dir_st) : Prop := forall d', data fb d' = data fb d -> ext4_dx_csum_verify sb fb d' = Ret true d'.

Lemma read_prefix bh d p x o n : data bh d = Some (p ++ x) -> 0 <= o -> 0 <= n -> o + n <= Z.of_nat (length p) ->
  read_bytes bh o n d = Ret (take (Z.to_nat n) (drop (Z.to_nat o) p)) d.
Proof.
  intros Hd Ho Hn Hl. rewrite <- (take_drop (Z.to_nat o) p) in Hd. rewrite <- (take_drop (Z.to_nat n) (drop (Z.to_nat o) p)) in Hd. rewrite <- !app_assoc in Hd.
  apply (read_bytes_mid bh d _ _ _ _ _ Hd); rewrite ?length_take, ?length_drop; lia.
Qed.

(** The checksum over the bytes up to the entries' end and the head of the tail. *)
Definition dx_csum_of (p : list Z) (n t : Z) : Z :=
  u32 (ext4_chksum (u32 (ext4_chksum (u32 (ext4_chksum i_csum_seed (take (Z.to_nat n) p))) (take 4 (drop (Z.to_nat t) p)))) [0; 0; 0; 0]).

Lemma dx_csum_at bh d p x co count t : data bh d = Some (p ++ x) -> t + 4 = Z.of_nat (length p) -> 0 <= co + count * 8 <= t ->
  ext4_dx_csum bh co count t d = Ret (dx_csum_of p (co + count * 8) t) d.
Proof.
  intros Hd Ht Hn. unfold ext4_dx_csum, sizeof_dx_entry. rewrite (bind_Ret _ _ _ _ _ (read_prefix bh d p x 0 (co + count * 8) Hd ltac:(lia) ltac:(lia) ltac:(lia))).
  by rewrite (bind_Ret _ _ _ _ _ (read_prefix bh d p x t 4 Hd ltac:(lia) ltac:(lia) ltac:(lia))).
Qed.

Lemma dx_tail_at fb A limit blk0 xs S d : node fb A limit blk0 xs S d -> ds_metadata_csum sb = true ->
  dx_tail_of sb fb d = Ret (Some (Z.of_nat (length A), 1 + Z.of_nat (length xs), Z.of_nat (length A) + limit * 8)) d.
Proof.
  intros N Ecs. pose proof N as [Hd Hhd Hl Hc Hb0 Hxs Hs Hft]. rewrite Ecs in Hft. unfold sizeof_dx_tail in Hft. unfold dx_tail_of. rewrite (bind_Ret _ _ _ _ _ (countlimit_at fb A _ d Hd Hhd)).
  pose proof (get_limit_at _ _ _ _ _ _ _ N) as El. unfold dx_get_limit in El. rewrite (bind_Ret _ _ _ _ _ El).
  pose proof (get_count_at _ _ _ _ _ _ _ N) as Ec. unfold dx_get_count in Ec. rewrite (bind_Ret _ _ _ _ _ Ec).
  unfold sizeof_dx_tail, sizeof_dx_entry. destruct (Z.ltb_spec (blocksize - 8) (Z.of_nat (length A) + limit * 8)); [lia|done].
Qed.

Lemma node_data fb A limit blk0 xs S d d' : data fb d' = data fb d -> node fb A limit blk0 xs S d -> node fb A limit blk0 xs S d'.
Proof. intros E []. split; try done. by rewrite E. Qed.

Lemma dx_csum_set_at fb A limit blk0 xs S d : node fb A limit blk0 xs S d ->
  exists S' b, ext4_dx_csum_set sb fb d = Ret tt (set_data fb b d) /\ node fb A limit blk0 xs S' (set_data fb b d) /\ dx_verifies fb (set_data fb b d).
Proof.
  intros N. pose proof N as [Hd Hhd Hl Hc Hb0 Hxs Hs Hft]. unfold dx_verifies, ext4_dx_csum_set, ext4_dx_csum_verify. destruct (ds_metadata_csum sb) eqn:Ecs; cbn [negb].
  2:{ exists S, (A ++ le_put 2 limit ++ le_put 2 (1 + Z.of_nat (length xs)) ++ le_put 4 blk0 ++ layx xs ++ S). rewrite (set_data_id _ _ _ Hd). done. }
  unfold sizeof_dx_tail in Hft. rewrite (bind_Ret _ _ _ _ _ (dx_tail_at fb A limit blk0 xs S d N Ecs)). cbv beta iota.
  set (k := Z.to_nat (8 * (limit - 1 - Z.of_nat (length xs)))). set (t := Z.of_nat (length A) + limit * 8). set (n := 1 + Z.of_nat (length xs)) in *.
  destruct (cut_at (k + 4) S) as (sa & S' & -> & Hsa); [unfold k; lia|]. rewrite length_app in Hs.
  destruct (cut_at 4 S') as (c4 & S'' & -> & Hc4); [unfold k in *; lia|]. rewrite length_app in Hs.
  set (p := A ++ le_put 2 limit ++ le_put 2 n ++ le_put 4 blk0 ++ layx xs ++ sa).
  assert (Hp : t + 4 = Z.of_nat (length p)) by (unfold p; rewrite !length_app, !le_put_length, layx_length; unfold k, t in *; lia).
  assert (Hd1 : data fb d = Some (p ++ c4 ++ S'')) by (rewrite Hd; unfold p; by rewrite <- !app_assoc).
  rewrite (bind_Ret _ _ _ _ _ (dx_csum_at fb d p _ (Z.of_nat (length A)) n t Hd1 Hp ltac:(unfold t; lia))). set (v := dx_csum_of p _ _).
  rewrite (write_le_mid 4 fb d p c4 S'' (t + 4) v Hd1 Hp Hc4).
  exists (sa ++ le_put 4 v ++ S''), (p ++ le_put 4 v ++ S''). split; [done|].
  assert (N1 : node fb A limit blk0 xs (sa ++ le_put 4 v ++ S'') (set_data fb (p ++ le_put 4 v ++ S'') d)).
  { split; try done; [rewrite (data_set _ _ _ _ Hd); unfold p; by rewrite <- !app_assoc|rewrite !length_app, le_put_length; lia|by rewrite Ecs]. }
  split; [done|]. intros d' E'. pose proof (node_data _ _ _ _ _ _ _ _ E' N1) as N2. rewrite (data_set _ _ _ _ Hd) in E'.
  rewrite (bind_Ret _ _ _ _ _ (dx_tail_at fb A limit blk0 xs _ d' N2 Ecs)). cbv beta iota. fold t n.
  rewrite (bind_Ret _ _ _ _ _ (read_le_mid 4 fb d' p v S'' (t + 4) E' Hp ltac:(apply wrap_range; lia))).
  rewrite (bind_Ret _ _ _ _ _ (dx_csum_at fb d' p _ (Z.of_nat (length A)) n t E' Hp ltac:(unfold t; lia))). fold v. unfold ret. by rewrite Z.eqb_refl.
Qed.

Lemma dirty_dx_at fb A limit blk0 xs S d :
  node fb A limit blk0 xs S d ->
  runs (ext4_handle_dirty_dx_node sb fb) d (fun r d' => (exists S', node fb A limit blk0 xs S' d') /\ dx_verifies fb d' /\ only sb fb d d' /\
    r = (if ds_needs_sync sb && sync_fails fb then - EIO else 0)).
Proof.
  intros N. pose proof (data_nonneg _ _ _ (nd_data _ _ _ _ _ _ _ N)) as Hfb. destruct (dx_csum_set_at _ _ _ _ _ _ _ N) as (S1 & b & E1 & N1 & V1).
  unfold ext4_handle_dirty_dx_node. eapply runs_bind, runs_intro; [exact E1|]. pose proof (nd_data _ _ _ _ _ _ _ N1) as Hd1.
  eapply runs_conseq; [by apply (handle_dirty_at sb fb _ _ Hd1)|]. intros r d2 (Hd2 & Ho2 & ->). rewrite <- Hd1 in Hd2.
  split; [exists S1; by eapply node_data|]. split; [intros d' E'; apply V1; by rewrite E'|]. split; [|done].
  eapply only_trans; [by apply only_set_data|exact Ho2].
Qed.

(** ** Searching a node *)

(** The hashes up to [k] are not greater than the hash, those behind it are. *)
Definition is_slot (xs : list (Z * Z)) (hash : Z) (k : nat) : Prop :=
  (k <= length xs)%nat /\ (forall i x, xs !! i = Some x -> (i < k)%nat -> x.1 <= hash) /\ (forall i x, xs !! i = Some x -> (k <= i)%nat -> hash < x.1).

Lemma is_slot_unique xs hash k k' : is_slot xs hash k -> is_slot xs hash k' -> k = k'.
Proof.
  intros (H1 & H2 & H3) (H1' & H2' & H3'). destruct (Nat.lt_trichotomy k k') as [Hlt|[?|Hlt]]; [|done|].
  - destruct (lookup_lt_is_Some_2 xs k ltac:(lia)) as [x Hx]. specialize (H3 k x Hx ltac:(lia)). specialize (H2' k x Hx Hlt). lia.
  - destruct (lookup_lt_is_Some_2 xs k' ltac:(lia)) as [x Hx]. specialize (H3' k' x Hx ltac:(lia)). specialize (H2 k' x Hx Hlt). lia.
Qed.

Definition hash_sorted (xs : list (Z * Z)) : Prop := forall i j x y, (i <= j)%nat -> xs !! i = Some x -> xs !! j = Some y -> x.1 <= y.1.

Section probe.
Context (fb : Z) (A : list Z) (limit blk0 : Z) (xs : list (Z * Z)) (S : list Z) (d : dir_st) (N : node fb A limit blk0 xs S d).
Context (Hsort : hash_sorted xs) (hash : Z).
#[local] Abbreviation ent := (Z.of_nat (length A)).

Lemma probe_search_at fuel : forall p q,
  1 <= p <= q + 1 -> q <= Z.of_nat (length xs) -> (Z.to_nat (q - p + 1) < fuel)%nat ->
  (forall i x, xs !! i = Some x -> Z.of_nat i < p - 1 -> x.1 <= hash) -> (forall i x, xs !! i = Some x -> q <= Z.of_nat i -> hash < x.1) ->
  exists k, probe_search fuel fb ent hash p q d = Ret (1 + Z.of_nat k) d /\ is_slot xs hash k.
Proof using N Hsort HL.
  induction fuel as [|fuel IH]; intros p q Hp Hq Hf Hlo Hhi; [lia|]. cbn [probe_search]. destruct (Z.leb_spec p q) as [Hle|Hgt].
  - set (m := p + (q - p) / 2). assert (Hm : p <= m <= q).
    { unfold m. pose proof (Z.div_pos (q - p) 2). pose proof (Z.div_le_upper_bound (q - p) 2 (q - p)). lia. }
    destruct (lookup_lt_is_Some_2 xs (Z.to_nat (m - 1)) ltac:(lia)) as [x Hx].
    pose proof (get_hash_at _ _ _ _ _ _ _ N _ x Hx) as Eh. replace (1 + Z.of_nat (Z.to_nat (m - 1))) with m in Eh by lia. rewrite (bind_Ret _ _ _ _ _ Eh).
    destruct (Z.ltb_spec hash x.1).
    + apply IH; [lia|lia|lia|done|]. intros i y Hy Hi. pose proof (Hsort (Z.to_nat (m - 1)) i _ _ ltac:(lia) Hx Hy). lia.
    + apply IH; [lia|lia|lia| |done]. intros i y Hy Hi. pose proof (Hsort i (Z.to_nat (m - 1)) _ _ ltac:(lia) Hy Hx). lia.
  - exists (Z.to_nat (p - 1)). split; [unfold ret; f_equal; lia|]. split; [lia|]. split.
    + intros i x Hx Hi. apply (Hlo i); [done|lia].
    + intros i x Hx Hi. apply (Hhi i); [done|lia].
Qed.

Lemma cross_check_at n : forall k,
  (k + n = length xs)%nat -> (forall i x, xs !! i = Some x -> (i < k)%nat -> x.1 <= hash) ->
  exists k', cross_check n fb ent hash (Z.of_nat k) d = Ret (Z.of_nat k') d /\ is_slot xs hash k'.
Proof using N Hsort HL.
  induction n as [|n IH]; intros k Hk Hlo; cbn [cross_check].
  { exists k. split; [done|]. split; [lia|]. split; [done|]. intros i x Hx Hi. apply lookup_lt_Some in Hx. lia. }
  destruct (lookup_lt_is_Some_2 xs k ltac:(lia)) as [x Hx]. replace (Z.of_nat k + 1) with (1 + Z.of_nat k) by lia.
  rewrite (bind_Ret _ _ _ _ _ (get_hash_at _ _ _ _ _ _ _ N _ x Hx)). destruct (Z.ltb_spec hash x.1).
  - exists k. split; [done|]. split; [lia|]. split; [done|]. intros i y Hy Hi. pose proof (Hsort k i _ _ ltac:(lia) Hx Hy). lia.
  - replace (1 + Z.of_nat k) with (Z.of_nat (Datatypes.S k)) by lia. apply IH; [lia|]. intros i y Hy Hi.
    pose proof (Hsort i k _ _ ltac:(lia) Hy Hx). lia.
Qed.
End probe.
End index.

(** ** Splitting a leaf *)

(** ** Sums of sizes *)

Definition sizes (ms : list ment) : Z := foldr (fun m s => m_size m + s) 0 ms.

Lemma sizes_app l1 l2 : sizes (l1 ++ l2) = sizes l1 + sizes l2.
Proof. induction l1 as [|m l1 IH]; [done|]. cbn [app sizes foldr]. fold (sizes (l1 ++ l2)) (sizes l1). lia. Qed.

Lemma off_perm l l' : l ≡ₚ l' -> off l = off l'.
Proof. induction 1; rewrite ?off_cons; lia. Qed.

Lemma off_filter_le l : off (base.filter live l) <= off l.
Proof.
  induction l as [|e l IH]; [done|]. destruct (decide (live e)); [rewrite filter_cons_True by done|rewrite filter_cons_False by done];
    rewrite ?off_cons; pose proof (e_rec_pos e); lia.
Qed.

Lemma filter_all {A} (P : A -> Prop) `{!forall x, Decision (P x)} l : Forall P l -> base.filter P l = l.
Proof. induction 1 as [|x l Hx _ IH]; [done|]. by rewrite filter_cons_True, IH. Qed.

Lemma filter_none {A} (P : A -> Prop) `{!forall x, Decision (P x)} l : Forall (fun x => ~ P x) l -> base.filter P l = [].
Proof. induction 1 as [|x l Hx _ IH]; [done|]. by rewrite filter_cons_False. Qed.

Section split.
Context `{HA : DirApi} {HL : DirLaws} (sb : dir_sb) {HG : dir_geo sb}.
#[local] Abbreviation entry_ok := (dent_ok (ds_inodes_count sb)).
#[local] Abbreviation blocksize := (ds_blocksize sb).

(** Where the sorted map is cut: the part behind the cut is at most half a
    block, up to half of its first entry, and would be more with the next one. *)
Lemma split_loop_at bh a c l1 : forall l2 size mv d,
  holds bh a c (l1 ++ l2) d ->
  exists l1' lm, l1 = l1' ++ lm /\
    split_loop sb (length l1) bh (Z.of_nat (length a)) size mv d = Ret (mv + Z.of_nat (length lm)) d /\
    (forall m t, lm = m :: t -> size + sizes t + m_size m / 2 <= blocksize / 2) /\
    (forall m t, l1' = t ++ [m] -> blocksize / 2 < size + sizes lm + m_size m / 2).
Proof.
  induction l1 as [|x l1 IH] using rev_ind; intros l2 size mv d Hd.
  { exists [], []. cbn. split; [done|]. split; [unfold ret; f_equal; lia|]. split; [done|]. intros m [|? ?]; done. }
  rewrite length_app, Nat.add_comm. cbn [length Nat.add split_loop]. rewrite <- app_assoc in Hd. cbn [app] in Hd.
  rewrite (bind_Ret _ _ _ _ _ (map_size_at bh a c _ (length l1) x d Hd ltac:(by apply list_lookup_middle))).
  destruct (Z.ltb_spec (blocksize / 2) (size + m_size x / 2)) as [Hlt|Hge].
  - exists (l1 ++ [x]), []. rewrite app_nil_r. cbn. split; [done|]. split; [unfold ret; f_equal; lia|]. split; [done|].
    intros m t E. apply app_inj_tail in E as [_ ->]. lia.
  - destruct (IH (x :: l2) (size + m_size x) (mv + 1) d Hd) as (l1' & lm & -> & E & H1 & H2). exists l1', (lm ++ [x]).
    split; [by rewrite app_assoc|]. split; [rewrite E, length_app; cbn [length]; f_equal; lia|]. split.
    + intros m t Et. destruct lm as [|m' lm]; cbn [app] in Et; injection Et as <- <-; [cbn; lia|]. specialize (H1 _ _ eq_refl). rewrite sizes_app. cbn [sizes foldr]. lia.
    + intros m t Et. specialize (H2 m t Et). rewrite sizes_app. cbn [sizes foldr]. lia.
Qed.

(** ** The last entry covers the rest of the block *)

Definition extend (p : dent) (g : list Z) : dent := p <| e_body := e_body p ++ g |>.

Lemma extend_rec p g : e_rec (extend p g) = e_rec p + Z.of_nat (length g).
Proof. unfold extend, e_rec, update. cbn. rewrite length_app. lia. Qed.

Lemma extend_ok p g : entry_ok p -> e_rec p + Z.of_nat (length g) <= blocksize -> Z.of_nat (length g) mod 4 = 0 -> entry_ok (extend p g).
Proof.
  intros [? ? ? ? Hm ? ?] Hl Hg. pose proof dg_block. pose proof (extend_rec p g) as E.
  split; rewrite ?E; unfold extend, update; cbn [e_ino e_nlen e_ft]; try done; try lia. by rewrite Zplus_mod, Hm, Hg.
Qed.

Lemma extend_entries p g : entry_ok p -> entries [extend p g] = entries [p].
Proof.
  intros Hp. pose proof (e_name_length _ _ Hp) as Hn. pose proof (do_nlen _ _ Hp). destruct (decide (live p)).
  - rewrite !entries_live by done. do 2 f_equal. unfold e_name, extend, update in *. cbn. apply take_app_le. rewrite length_take in Hn. lia.
  - by rewrite !entries_dead by done.
Qed.

Lemma finish_at bh d l p G (m := Z.to_nat (Z.of_nat (length G) - csum_size sb)) :
  data bh d = Some (lay l ++ enc p ++ G) -> Forall entry_ok l -> entry_ok p -> off l + e_rec p + Z.of_nat (length G) = blocksize ->
  csum_size sb <= Z.of_nat (length G) ->
  let p' := extend p (take m G) in
  set_rec_len bh (off l) (blocksize - csum_size sb - off l) blocksize d = Ret tt (set_data bh (lay (l ++ [p']) ++ drop m G) d) /\
  entry_ok p' /\ off (l ++ [p']) = blocksize - csum_size sb /\ Z.of_nat (length (drop m G)) = csum_size sb.
Proof.
  intros Hd Hl Hp Hlen Hcs p'. pose proof (csum_size_cases sb) as Hc. pose proof (off_nonneg l). pose proof (e_rec_pos p). pose proof dg_block.
  assert (Hm : Z.of_nat (length (take m G)) = Z.of_nat (length G) - csum_size sb) by (rewrite length_take; unfold m; lia).
  assert (Hmod : (blocksize - csum_size sb - off l) mod 4 = 0).
  { apply mod4_sub; [|by eapply off_mult4]. apply mod4_sub; [apply dg_mult|]. by destruct Hc as [[-> _]|[-> _]]. }
  assert (Hrec : e_rec p' = blocksize - csum_size sb - off l) by (unfold p'; rewrite extend_rec; lia).
  assert (Hp' : entry_ok p').
  { apply extend_ok; [done|lia|]. replace (Z.of_nat (length (take m G))) with (blocksize - csum_size sb - off l - e_rec p) by lia.
    apply mod4_sub; [done|apply (do_mult _ _ Hp)]. }
  split; [|split; [done|]].
  - rewrite (set_rec_len_raw sb bh d (lay l) (le_put 4 (e_ino p)) (le_put 2 (e_rec p)) (le_put 1 (e_nlen p) ++ le_put 1 (e_ft p) ++ e_body p ++ G));
      [|rewrite Hd; unfold enc; by rewrite <- !app_assoc|done..|lia|done].
    do 2 f_equal. rewrite lay_app. cbn [lay mbind list_bind]. unfold enc. rewrite Hrec. unfold p', extend, update. cbn [e_ino e_nlen e_ft e_body].
    rewrite app_nil_r. rewrite <- !app_assoc. by rewrite take_drop.
  - split; [autorewrite with dir; lia|]. rewrite length_drop. unfold m. lia.
Qed.

(** ** How much is moved and how much is kept *)

Lemma pack_off_le l : Forall entry_ok l -> off (pack <$> l) <= off l.
Proof. induction 1 as [|e l He _ IH]; [done|]. cbn [fmap list_fmap]. rewrite !off_cons. pose proof (pack_le sb e He). lia. Qed.

Lemma pack_half e : entry_ok e -> e_rec (pack e) <= e_rec e / 2 + 132.
Proof.
  intros He. pose proof (pack_le sb e He). pose proof (pack_rec sb e He) as E. pose proof (rec_len_max (e_nlen e) ltac:(apply (do_nlen _ _ He))).
  pose proof (do_mult _ _ He) as Hm. assert (e_rec e = 2 * (e_rec e / 2)); [|lia]. apply Z.div_exact; [lia|].
  rewrite <- (Z.mod_mod_divide _ 4 2), Hm by (by exists 2). done.
Qed.

(** The moved entries and the kept ones fill at most half a block and half of
    the largest entry. *)
Lemma moved_bound e l : entry_ok e -> Forall entry_ok l -> off l + e_rec e / 2 <= blocksize / 2 -> off (pack <$> e :: l) <= blocksize / 2 + 132.
Proof. intros He Hl Hb. cbn [fmap list_fmap]. rewrite off_cons. pose proof (pack_off_le l Hl). pose proof (pack_half e He). lia. Qed.

Lemma kept_bound e l moved free : Forall entry_ok (l ++ [e]) -> off (l ++ [e]) + moved <= blocksize - free -> blocksize / 2 < moved + e_rec e / 2 ->
  off (pack <$> l ++ [e]) + free <= blocksize - blocksize / 2 + 132.
Proof.
  intros Hl Ho Hb. apply Forall_app in Hl as [Hl He]. inversion_clear He as [|?? He' _]. rewrite fmap_app. autorewrite with dir in *. cbn [fmap list_fmap] in *.
  autorewrite with dir in *. pose proof (pack_off_le l Hl). pose proof (pack_half e He').
  assert (e_rec e / 2 <= e_rec e) by (pose proof (e_rec_pos e); apply Z.div_le_upper_bound; lia).
  assert (e_rec e / 2 + e_rec e / 2 <= e_rec e) by (pose proof (Z.mul_div_le (e_rec e) 2); lia). lia.
Qed.

(** ** A half of a split block

    The entries [es] fill a block, the last one has room for every name, and
    only the first one may be unused. *)
Record roomy (de : Z) (es : list dent) : Prop := {
  ry_ok : Forall entry_ok es;
  ry_off : off es = blocksize - csum_size sb;
  ry_last : exists pre e, es = pre ++ [e] /\ de = off pre /\ room 264 e;
  ry_tidy : tidy es;
}.
Definition half (b : list Z) (es : list dent) : Prop := exists x, b = lay es ++ x /\ Z.of_nat (length x) = csum_size sb.

Lemma finish_packed bh d l p G (P := pack <$> l ++ [p]) :
  data bh d = Some (lay P ++ G) -> Forall entry_ok (l ++ [p]) -> Forall live (l ++ [p]) ->
  off P + Z.of_nat (length G) = blocksize -> off P + csum_size sb + 264 <= blocksize ->
  let de := off (removelast P) in
  exists b es, set_rec_len bh de (blocksize - csum_size sb - de) blocksize d = Ret tt (set_data bh b d) /\ half b es /\ roomy de es /\ entries es = entries (l ++ [p]).
Proof.
  intros Hd Hok Hlive Hlen Hroom de. pose proof Hok as Hok'. apply Forall_app in Hok' as [Hl Hp]. inversion_clear Hp as [|?? Hp' _].
  apply Forall_app in Hlive as [Hll Hlp]. inversion_clear Hlp as [|?? Hlp' _].
  assert (Hpl : Forall entry_ok (pack <$> l)).
  { apply Forall_fmap, Forall_forall. intros e He. rewrite Forall_forall in Hl, Hll. apply (pack_ok sb); [by apply Hl|by apply Hll]. }
  assert (Hpp : entry_ok (pack p)) by by apply (pack_ok sb).
  assert (EP : P = (pack <$> l) ++ [pack p]) by (unfold P; by rewrite fmap_app). unfold de. clear de. rewrite EP, removelast_last in *. clear EP P. autorewrite with dir in Hlen, Hroom.
  rewrite lay_app in Hd. cbn [lay mbind list_bind] in Hd. rewrite app_nil_r, <- app_assoc in Hd.
  destruct (finish_at bh d (pack <$> l) (pack p) G Hd Hpl Hpp ltac:(lia) ltac:(lia)) as (E & Hokp & Ho & Hx). eexists _, _. split; [exact E|]. clear E.
  set (m := Z.to_nat _) in *. split; [by eexists|]. split.
  - split; [by apply Forall_app; split; [|constructor]|done| |].
    2:{ apply Forall_tidy, Forall_app. split; [by apply Forall_fmap|by constructor]. }
    eexists _, _. split; [done|]. split; [done|]. unfold room. rewrite extend_rec. cbn [extend update e_ino e_nlen pack]. destruct (Z.eqb_spec (e_ino p) 0); [done|].
    rewrite <- (pack_rec sb p Hp'), length_take. unfold m. pose proof (csum_size_cases sb). lia.
  - rewrite !entries_app, (extend_entries (pack p) _ Hpp). change [pack p] with (pack <$> [p]). rewrite <- !entries_app, <- fmap_app. by apply (pack_entries sb).
Qed.

(** Nothing is left in the block. *)
Lemma finish_dead bh d e rest :
  data bh d = Some (lay (e :: rest)) -> Forall entry_ok (e :: rest) -> e_ino e = 0 -> off (e :: rest) = blocksize -> csum_size sb <= off rest ->
  exists b es, set_rec_len bh 0 (blocksize - csum_size sb - 0) blocksize d = Ret tt (set_data bh b d) /\ half b es /\ roomy 0 es /\ entries es = [].
Proof.
  intros Hd Hok He Hoff Hcs. inversion_clear Hok as [|?? Heok Hrest]. rewrite off_cons in Hoff. pose proof dg_block.
  destruct (finish_at bh d [] e (lay rest) Hd ltac:(constructor) Heok ltac:(rewrite off_nil; exact Hoff) Hcs) as (E & Hokp & Ho & Hx).
  eexists _, _. split; [exact E|]. clear E. split; [by eexists|]. split.
  - split; [by constructor|done| |constructor]. eexists [], _. split; [done|]. split; [done|].
    set (p := extend e _) in *. assert (Hz : e_ino p = 0) by done. clearbody p. unfold room. rewrite Hz. cbn [app Z.eqb] in *. autorewrite with dir in Ho.
    pose proof (csum_size_cases sb). lia.
  - cbn [app]. rewrite entries_dead; [done|]. intros Hl. by apply Hl.
Qed.

(** ** The steps of a split, one after the other *)

Section steps.
Context (bh bh2 : Z) (Hne : bh <> bh2) (d : dir_st) (o1 o2 : list Z) (Ho1 : data bh d = Some o1) (Ho2 : data bh2 d = Some o2).
Context (h : dx_hash_info) (fs : list dent) (Hok : Forall entry_ok fs) (Hoff : off fs = blocksize).
#[local] Abbreviation st b1 b2 := (two bh bh2 b1 b2 d).
#[local] Abbreviation ms js := (ment_of h fs <$> js).
#[local] Abbreviation alive := (live_below fs (length fs)).

Lemma sorted_map_at b2 : length b2 = Z.to_nat blocksize ->
  exists a js, let n := Z.of_nat (length js) in let map := blocksize - sizeof_dx_map_entry * n in
    dx_make_map sb bh h bh2 blocksize (st (lay fs) b2) = Ret n (st (lay fs) (a ++ laym (rev (ms alive)))) /\
    dx_sort_map bh2 map n (st (lay fs) (a ++ laym (rev (ms alive)))) = Ret tt (st (lay fs) (a ++ laym (ms js))) /\
    js ≡ₚ alive /\ StronglySorted hash_le (ms js) /\ map = Z.of_nat (length a).
Proof using Hne Ho1 Ho2 Hok Hoff HG.
  intros Hb2. pose proof dg_block as Hbs. pose proof (Forall_length_off sb fs Hok) as Hlen.
  destruct (make_map_loop_at sb bh bh2 Hne d o1 o2 Ho1 Ho2 h fs Hok Hoff (S (Z.to_nat blocksize)) 0 b2 h) as (a & E & Ha); [lia..|done|done|simpl; lia|].
  rewrite Hb2, Z2Nat.id in E by lia. cbn [live_below seq base.filter list_filter fmap list_fmap rev laym mbind list_bind take] in E. rewrite app_nil_r in E.
  pose proof (live_below_length fs (length fs)) as Hlb.
  assert (Hms : Forall ment_ok (rev (ms alive))).
  { apply Forall_rev, Forall_fmap, Forall_forall. intros i Hi. eapply ment_of_ok; [done..|]. unfold live_below in Hi. apply list_elem_of_filter in Hi as [_ Hi]. apply elem_of_seq in Hi. lia. }
  set (D := st (lay fs) (a ++ laym (rev (ms alive)))) in *.
  assert (Hh : holds bh2 a [] (rev (ms alive)) D).
  { split; [|done]. unfold D. rewrite (two_right bh bh2 Hne d o1 o2) by done. by rewrite app_nil_r. }
  destruct (sort_map_at bh2 a [] _ D Hh) as (ms' & Es & Hp & Hs); [rewrite length_rev, length_fmap; lia|].
  rewrite length_rev, length_fmap in Es. assert (Hp2 : ms alive ≡ₚ ms') by (rewrite Hp; apply Permutation_rev).
  destruct (Permutation_map_inv _ _ (symmetry Hp2)) as (js & -> & Hjs).
  exists a, js. cbv zeta. rewrite <- (Permutation_length Hjs). change (map (ment_of h fs) js) with (ms js) in *.
  assert (Hmap : blocksize - sizeof_dx_map_entry * Z.of_nat (length alive) = Z.of_nat (length a)) by (unfold sizeof_dx_map_entry; lia).
  rewrite Hmap. fold D. split; [exact E|]. split; [|done]. rewrite Es. unfold remap, D. rewrite (set_right bh bh2 Hne d o1 o2 Ho1 Ho2). by rewrite app_nil_r.
Qed.

Lemma sizes_off js : sizes (ms js) = off ((fun i => fs !!! i) <$> js).
Proof. induction js as [|j js IH]; [done|]. cbn [fmap list_fmap sizes foldr]. fold (sizes (ms js)). rewrite IH, off_cons. done. Qed.

Lemma cut_map_at D a js : js <> [] -> holds bh2 a [] (ms js) D -> Forall (fun i => i < length fs)%nat js ->
  exists js1 j js2, js = js1 ++ j :: js2 /\
    split_loop sb (length js) bh2 (Z.of_nat (length a)) 0 0 D = Ret (Z.of_nat (length (j :: js2))) D /\
    off ((fun i => fs !!! i) <$> js2) + e_rec (fs !!! j) / 2 <= blocksize / 2 /\
    (forall k t, js1 = t ++ [k] -> blocksize / 2 < off ((fun i => fs !!! i) <$> j :: js2) + e_rec (fs !!! k) / 2).
Proof using Hok Hoff HG HL.
  intros Hjs HD Hlt. pose proof dg_block as Hbs. rewrite <- (app_nil_r (ms js)) in HD. destruct (split_loop_at bh2 a [] (ms js) [] 0 0 D HD) as (l1 & l2 & E & Es & H1 & H2).
  rewrite length_fmap in Es. apply fmap_app_inv in E as (js1 & js2 & -> & -> & ->). destruct js2 as [|j js2].
  - exfalso. rewrite app_nil_r in *. destruct js1 as [|k t _] using rev_ind; [done|]. specialize (H2 (ment_of h fs k) (ms t) ltac:(by rewrite fmap_app)).
    cbn in H2. apply Forall_app in Hlt as [_ Hk]. inversion_clear Hk as [|?? Hk' _]. destruct (fs_mid sb fs Hok k Hk') as [Ef _].
    rewrite Ef in Hoff. autorewrite with dir in Hoff. pose proof (off_nonneg (take k fs)). pose proof (off_nonneg (drop (S k) fs)).
    pose proof (Z.div_le_mono (e_rec (fs !!! k)) blocksize 2). lia.
  - exists js1, j, js2. split; [done|]. split; [rewrite Es, length_fmap; done|]. split.
    + specialize (H1 _ _ eq_refl). rewrite sizes_off in H1. cbn in H1. lia.
    + intros k t ->. specialize (H2 (ment_of h fs k) (ms t) ltac:(by rewrite fmap_app)). rewrite sizes_off in H2. cbn [m_size ment_of] in H2. lia.
Qed.

Lemma kept_perm K js1 js2 : js1 ++ js2 ≡ₚ alive -> (forall i, i ∈ K <-> i ∈ js2) -> base.filter live (kill K fs) ≡ₚ (fun i => fs !!! i) <$> js1.
Proof.
  intros Hp HK. assert (Hnd : NoDup (js1 ++ js2)) by (rewrite Hp; apply NoDup_filter, NoDup_seq).
  apply NoDup_app in Hnd as (_ & Hdisj & _). rewrite filter_live_below, kill_length, kill_live. 
  transitivity ((fun i => kill K fs !!! i) <$> js1).
  - apply Permutation_map. rewrite <- Hp, filter_app. rewrite (filter_all _ js1), (filter_none _ js2), app_nil_r; [done| |].
    + apply Forall_forall. intros i Hi Hn. by apply Hn, HK.
    + apply Forall_forall. intros i Hi Hin. apply HK in Hin. by eapply Hdisj.
  - erewrite list_fmap_ext; [done|]. intros k i Hi. apply list_elem_of_lookup_2 in Hi.
    assert (Ha : i ∈ alive) by (rewrite <- Hp; apply elem_of_app; by left). unfold live_below in Ha. apply list_elem_of_filter in Ha as [_ Ha].
    apply elem_of_seq in Ha. destruct (lookup_lt_is_Some_2 fs i ltac:(lia)) as [e He].
    rewrite (list_lookup_total_correct _ _ _ He), (list_lookup_total_correct _ _ _ (kill_lookup K _ _ _ He)), decide_False; [done|].
    intros Hin. apply HK in Hin. by eapply Hdisj.
Qed.

#[local] Abbreviation tail0 := (dtail sb [0; 0; 0; 0]).

Lemma tails_at b1 b2 es1 es2 : half b1 es1 -> half b2 es2 -> off es1 = blocksize - csum_size sb -> off es2 = blocksize - csum_size sb ->
  (if ds_metadata_csum sb then initialize_dirent_tail sb bh2 ;;; initialize_dirent_tail sb bh else ret tt) (st b1 b2) =
    Ret tt (st (lay (es1 ++ tail0)) (lay (es2 ++ tail0))).
Proof using Hne Ho1 Ho2 HG.
  intros (x1 & -> & Hx1) (x2 & -> & Hx2) E1 E2. unfold dtail. destruct (csum_size_cases sb) as [[Ec ->]|[Ec ->]]; rewrite Ec in *.
  - destruct x1; [|simpl in *; lia]. destruct x2; [|simpl in *; lia]. by rewrite !app_nil_r.
  - rewrite (bind_Ret _ _ _ _ _ (init_tail_at sb bh2 _ es2 x2 (two_right bh bh2 Hne d o1 o2 Ho1 Ho2 _ _) E2 ltac:(lia))).
    rewrite (set_right bh bh2 Hne d o1 o2 Ho1 Ho2).
    rewrite (init_tail_at sb bh _ es1 x1 (two_left bh bh2 Hne d o1 o2 Ho1 Ho2 _ _) E1 ltac:(lia)). by rewrite set_left.
Qed.

Lemma first_half D K js1 moved G (l := base.filter live (kill K fs)) (P := pack <$> l) :
  l ≡ₚ (fun i => fs !!! i) <$> js1 -> (forall e r, fs = e :: r -> e_rec e <= blocksize - csum_size sb) ->
  off ((fun i => fs !!! i) <$> js1) + moved <= blocksize - csum_size sb ->
  (forall k t, js1 = t ++ [k] -> blocksize / 2 < moved + e_rec (fs !!! k) / 2) ->
  data bh D = Some (lay P ++ G) -> off P + Z.of_nat (length G) = blocksize -> (P = [] -> G = lay (kill K fs)) ->
  let de := off (removelast P) in
  exists b es, set_rec_len bh de (blocksize - csum_size sb - de) blocksize D = Ret tt (set_data bh b D) /\ half b es /\ roomy de es /\ entries es = entries l.
Proof using Hok Hoff HG HL.
  intros Hl Hfirst Htot Hcut HD HlG Hnil de. pose proof dg_block as Hbs. pose proof (csum_size_cases sb) as Hcs. pose proof (kill_ok sb fs Hok K) as Hkok.
  assert (Hlok : Forall entry_ok l) by (apply Forall_forall; intros e He; apply list_elem_of_filter in He as [_ He]; by eapply Forall_forall in Hkok). assert (Hll : Forall live l) by (apply Forall_forall; intros e He; by apply list_elem_of_filter in He as [? _]).
  assert (Hhalf : 2 * (blocksize / 2) <= blocksize < 2 * (blocksize / 2) + 2) by (pose proof (Z.div_mod blocksize 2); pose proof (Z.mod_pos_bound blocksize 2); lia).
  destruct js1 as [|k t _] using rev_ind.
  - cbn [fmap list_fmap] in Hl. apply symmetry, Permutation_nil in Hl. unfold de, P in *. rewrite Hl in *. specialize (Hnil eq_refl) as ->.
    cbn [fmap list_fmap lay mbind list_bind app] in HD. destruct (kill K fs) as [|e rest] eqn:Ek.
    { pose proof (lay_length_rec _ _ (kill_rec K fs)) as Ho. rewrite Ek, off_nil in Ho. lia. }
    assert (Hrec : e_rec e <= blocksize - csum_size sb).
    { pose proof (kill_rec K fs) as Er. rewrite Ek in Er. destruct fs as [|f fs']; [done|]. injection Er as -> _. by eapply Hfirst. }
    assert (Hok1 : off (e :: rest) = blocksize) by (rewrite <- Hoff, <- Ek; apply lay_length_rec, kill_rec).
    apply (finish_dead bh D e rest HD Hkok); [|done|rewrite off_cons in Hok1; lia].
    destruct (decide (live e)) as [He|He]; [|unfold live in He; lia]. exfalso. unfold l in Hl. by rewrite filter_cons_True in Hl.
  - assert (Hkt : Forall entry_ok ((fun i => fs !!! i) <$> t ++ [k])) by (by rewrite <- Hl). rewrite fmap_app in Hkt, Htot. cbn [fmap list_fmap] in Hkt, Htot.
    pose proof (kept_bound (fs !!! k) _ moved (csum_size sb) Hkt Htot (Hcut k t eq_refl)) as Hb.
    assert (HP : off P + csum_size sb + 264 <= blocksize).
    { unfold P. rewrite (off_perm _ (pack <$> ((fun i => fs !!! i) <$> t) ++ [fs !!! k])); [lia|]. apply Permutation_map. rewrite Hl, fmap_app. done. }
    clearbody l. destruct l as [|p l' _] using rev_ind; [apply Permutation_length in Hl; rewrite length_fmap, length_app in Hl; simpl in Hl; lia|].
    by apply (finish_packed bh D l' p G).
Qed.

Lemma halves_at a js1 j js2 :
  js1 ++ j :: js2 ≡ₚ alive -> off (base.filter live fs) <= blocksize - csum_size sb -> (forall e r, fs = e :: r -> e_rec e <= blocksize - csum_size sb) ->
  off ((fun i => fs !!! i) <$> js2) + e_rec (fs !!! j) / 2 <= blocksize / 2 ->
  (forall k t, js1 = t ++ [k] -> blocksize / 2 < off ((fun i => fs !!! i) <$> j :: js2) + e_rec (fs !!! k) / 2) ->
  Z.of_nat (length a) + 8 * Z.of_nat (length (js1 ++ j :: js2)) = blocksize ->
  exists de es1 de2 es2,
    (de2 <-- dx_move_dirents sb bh bh2 bh2 (Z.of_nat (length a) + 8 * Z.of_nat (length js1)) (Z.of_nat (length (j :: js2))) ;;
     de <-- dx_pack_dirents sb bh ;;
     set_rec_len bh de (blocksize - csum_size sb - de) blocksize ;;;
     set_rec_len bh2 de2 (blocksize - csum_size sb - de2) blocksize ;;;
     (if ds_metadata_csum sb then initialize_dirent_tail sb bh2 ;;; initialize_dirent_tail sb bh else ret tt) ;;;
     ret (de, de2)) (st (lay fs) (a ++ laym (ms (js1 ++ j :: js2)))) =
      Ret (de, de2) (st (lay (es1 ++ tail0)) (lay (es2 ++ tail0))) /\
    roomy de es1 /\ roomy de2 es2 /\
    entries es1 ≡ₚ entries ((fun i => fs !!! i) <$> js1) /\ entries es2 = entries ((fun i => fs !!! i) <$> j :: js2).
Proof using Hne Ho1 Ho2 Hok Hoff HG HL.
  intros Hp Hlv Hfirst Hcut1 Hcut2 Ha. pose proof dg_block as Hbs. pose proof (csum_size_cases sb) as Hcs.
  assert (Hin : forall i, i ∈ js1 ++ j :: js2 -> (i < length fs)%nat /\ live (fs !!! i)).
  { intros i Hi. rewrite Hp in Hi. unfold live_below in Hi. apply list_elem_of_filter in Hi as [Hi1 Hi2]. apply elem_of_seq in Hi2. split; [lia|done]. }
  assert (Hall : forall l, (forall i, i ∈ l -> i ∈ js1 ++ j :: js2) -> Forall entry_ok ((fun i => fs !!! i) <$> l) /\ Forall live ((fun i => fs !!! i) <$> l)).
  { intros l Hl. split; apply Forall_fmap, Forall_forall; intros i Hi; destruct (Hin i (Hl i Hi)); [|done]. by apply (fs_mid sb fs Hok). }
  assert (Hnd : NoDup (js1 ++ j :: js2)) by (rewrite Hp; apply NoDup_filter, NoDup_seq).
  assert (Htot : off ((fun i => fs !!! i) <$> js1) + off ((fun i => fs !!! i) <$> j :: js2) <= blocksize - csum_size sb).
  { rewrite <- off_app, <- fmap_app. rewrite filter_live_below in Hlv. erewrite off_perm; [exact Hlv|]. by apply Permutation_map. }
  destruct (Hall js2) as [Hok2 Hlv2]; [set_solver|]. destruct (Hall [j]) as [Hokj Hlvj]; [set_solver|]. destruct (Hall js1) as [Hok1 Hlv1]; [set_solver|].
  inversion_clear Hokj as [|?? Hokj' _]. inversion_clear Hlvj as [|?? Hlvj' _].
  pose proof (moved_bound (fs !!! j) _ Hokj' Hok2 Hcut1) as Hmv. assert (Hhalf : 2 * (blocksize / 2) <= blocksize < 2 * (blocksize / 2) + 2) by (pose proof (Z.div_mod blocksize 2); pose proof (Z.mod_pos_bound blocksize 2); lia).
  set (P2 := (fun i => pack (fs !!! i)) <$> j :: js2). assert (EP2 : P2 = pack <$> ((fun i => fs !!! i) <$> j :: js2)) by (by rewrite <- list_fmap_compose).
  change ((fs !!! j) :: _) with ((fun i => fs !!! i) <$> j :: js2) in Hmv. rewrite <- EP2 in Hmv.
  rewrite length_app in Ha.
  destruct (move_loop_at sb bh bh2 Hne d o1 o2 Ho1 Ho2 h fs Hok Hoff (j :: js2) [] [] (a ++ laym (ms js1)) 0) as (G2 & K & E2 & HG2 & HK).
  { apply Forall_forall. intros i Hi. destruct (Hin i) as [? ?]; [set_solver|]. split; [done|]. split; [apply not_elem_of_nil|done]. }
  { by apply NoDup_app in Hnd as (_ & _ & ?). }
  { rewrite off_nil, length_app, laym_length, length_fmap. lia. }
  { rewrite off_nil. fold P2. lia. }
  { done. }
  cbn [app] in E2, HG2. fold P2 in E2, HG2. rewrite kill_nil, off_nil, Z.add_0_l, length_app, laym_length, length_fmap in E2. cbn [lay mbind list_bind] in E2.
  assert (HK' : forall i, i ∈ K <-> i ∈ j :: js2) by (intros i; rewrite HK; set_solver).
  pose proof (kept_perm K js1 (j :: js2) Hp HK') as Hkp.
  assert (Hoff1 : off (kill K fs) = blocksize) by (rewrite <- Hoff; apply lay_length_rec, kill_rec).
  destruct (pack_at sb bh (st (lay (kill K fs)) (lay P2 ++ G2)) (kill K fs) (two_left bh bh2 Hne d o1 o2 Ho1 Ho2 _ _) (kill_ok sb fs Hok K) Hoff1) as (G1 & E1 & HG1 & Hnil).
  rewrite set_left in E1. set (P1 := pack <$> base.filter live (kill K fs)) in *.
  destruct (first_half (st (lay P1 ++ G1) (lay P2 ++ G2)) K js1 (off ((fun i => fs !!! i) <$> j :: js2)) G1 Hkp Hfirst Htot Hcut2
    (two_left bh bh2 Hne d o1 o2 Ho1 Ho2 _ _) HG1 Hnil) as (b1 & es1 & F1 & Hh1 & Hr1 & He1). fold P1 in F1, Hr1. rewrite set_left in F1.
  destruct (exists_last (l := (fun i => fs !!! i) <$> j :: js2)) as (l' & p & El); [done|].
  destruct (finish_packed bh2 (st b1 (lay P2 ++ G2)) l' p G2) as (b2 & es2 & F2 & Hh2 & Hr2 & He2).
  { rewrite <- El, <- EP2. apply (two_right bh bh2 Hne d o1 o2 Ho1 Ho2). }
  { rewrite <- El. by constructor. }
  { rewrite <- El. by constructor. }
  { by rewrite <- El, <- EP2. }
  { rewrite <- El, <- EP2. lia. }
  rewrite <- El, <- EP2 in F2, Hr2. rewrite <- El in He2. rewrite (set_right bh bh2 Hne d o1 o2 Ho1 Ho2) in F2.
  exists (off (removelast P1)), es1, (off (removelast P2)), es2. split; [|split; [done|]; split; [done|]; split; [rewrite He1; by apply Permutation_map, filter_Permutation|done]].
  unfold dx_move_dirents. rewrite Nat2Z.id. rewrite fmap_app, laym_app, (app_assoc a). 
  replace (Z.of_nat (length a) + 8 * Z.of_nat (length js1)) with (Z.of_nat (length a + 8 * length js1)) by lia.
  rewrite (bind_Ret _ _ _ _ _ E2), (bind_Ret _ _ _ _ _ E1), (bind_Ret _ _ _ _ _ F1), (bind_Ret _ _ _ _ _ F2).
  by rewrite (bind_Ret _ _ _ _ _ (tails_at b1 b2 es1 es2 Hh1 Hh2 (ry_off _ _ Hr1) (ry_off _ _ Hr2))).
Qed.

Lemma hash1_at D a js1 js2 : holds bh2 a [] (ms (js1 ++ js2)) D -> js1 <> [] -> Z.of_nat (length js1) < 2 ^ 32 ->
  exists x, map_hash bh2 (Z.of_nat (length a)) (u32 (Z.of_nat (length js1) - 1)) D = Ret x D /\ forall t k, js1 = t ++ [k] -> x = name_hash h (e_name (fs !!! k)).
Proof using HL.
  intros HD Hjs1 Hlt. destruct js1 as [|k t _] using rev_ind; [done|]. exists (name_hash h (e_name (fs !!! k))). split; [|intros t' k' [_ ->]%app_inj_tail; done].
  rewrite length_app in Hlt |- *. cbn [length] in Hlt |- *. rewrite wrap_small by lia. replace (Z.of_nat (length t + 1) - 1) with (Z.of_nat (length t)) by lia.
  apply (map_hash_at bh2 a [] _ (length t) (ment_of h fs k) D HD). rewrite list_lookup_fmap, <- app_assoc. cbn [app]. by rewrite list_lookup_middle.
Qed.
End steps.

(** ** The split as a whole *)

(** [e] is an entry in use of the lowest hash, and [rest] are the others. *)
Definition lowest (h : dx_hash_info) (es : list dent) (e : dent) (rest : list dent) : Prop :=
  base.filter live es ≡ₚ e :: rest /\ Forall (fun x => name_hash h (e_name e) <= name_hash h (e_name x)) rest.

(** The others and half of that entry take at most half a block: all entries
    are moved, and the map is read in front of its first entry.  Of entries of
    the same lowest hash the sort may leave any one in front. *)
Definition half_fits (e : dent) (rest : list dent) : Prop := off rest + e_rec e / 2 <= blocksize / 2.
Definition lopsided (h : dx_hash_info) (es : list dent) : Prop := exists e rest, lowest h es e rest /\ half_fits e rest.
Definition all_lopsided (h : dx_hash_info) (es : list dent) : Prop := forall e rest, lowest h es e rest -> half_fits e rest.

(** The entries are divided at a hash; [c] tells that the hash may go on from
    the first part to the second. *)
Record split_of (h : dx_hash_info) (es es1 es2 : list dent) (hash2 c : Z) : Prop := {
  so_perm : entries es1 ++ entries es2 ≡ₚ entries es;
  so_low : forall n, n ∈ (entries es1).*1 -> name_hash h n < hash2 + c;
  so_high : forall n, n ∈ (entries es2).*1 -> hash2 <= name_hash h n;
  so_hash : 0 <= hash2 < 2 ^ 32 - 2 /\ Z.even hash2 = true;
  so_cont : c = 0 \/ c = 1;
  so_mem : exists n, n ∈ (entries es2).*1 /\ name_hash h n = hash2;
}.

(** Otherwise entries stay in front of the cut. *)
Lemma sorted_lowest h fs es j js :
  base.filter live fs = base.filter live es -> j :: js ≡ₚ live_below fs (length fs) -> StronglySorted hash_le (ment_of h fs <$> j :: js) ->
  lowest h es (fs !!! j) ((fun i => fs !!! i) <$> js).
Proof.
  intros Hlive Hp Hs. split; [rewrite <- Hlive, filter_live_below, <- Hp; done|]. cbn [fmap list_fmap] in Hs. apply StronglySorted_inv in Hs as [_ Hs].
  rewrite Forall_forall in Hs. apply Forall_forall. intros x Hx. apply list_elem_of_fmap in Hx as (i & -> & Hi). apply (Hs (ment_of h fs i)). by apply list_elem_of_fmap_2.
Qed.

Lemma lopsided_cut h fs es js1 j js2 :
  base.filter live fs = base.filter live es -> js1 ++ j :: js2 ≡ₚ live_below fs (length fs) -> StronglySorted hash_le (ment_of h fs <$> js1 ++ j :: js2) ->
  off ((fun i => fs !!! i) <$> js2) + e_rec (fs !!! j) / 2 <= blocksize / 2 -> ~ lopsided h es -> js1 <> [].
Proof.
  intros Hlive Hp Hs Hc Hn ->. apply Hn. exists (fs !!! j), ((fun i => fs !!! i) <$> js2). split; [by apply sorted_lowest|done].
Qed.

(** With the lowest entry on the other side, nothing stays in front. *)
Lemma all_lopsided_cut h fs es js1 j js2 :
  base.filter live fs = base.filter live es -> js1 ++ j :: js2 ≡ₚ live_below fs (length fs) -> StronglySorted hash_le (ment_of h fs <$> js1 ++ j :: js2) ->
  (forall k t, js1 = t ++ [k] -> blocksize / 2 < off ((fun i => fs !!! i) <$> j :: js2) + e_rec (fs !!! k) / 2) -> all_lopsided h es -> js1 = [].
Proof.
  intros Hlive Hp Hs Hc Hall. destruct js1 as [|k t _] using rev_ind; [done|]. exfalso. specialize (Hc k t eq_refl). destruct t as [|i t].
  - pose proof (Hall _ _ (sorted_lowest h fs es k (j :: js2) Hlive Hp Hs)) as H. unfold half_fits in H. lia.
  - cbn [app] in Hp, Hs. pose proof (Hall _ _ (sorted_lowest h fs es i _ Hlive Hp Hs)) as H. unfold half_fits in H. rewrite !fmap_app, !off_app in H.
    cbn [fmap list_fmap] in H, Hc. rewrite !off_cons in H. rewrite off_cons in Hc. pose proof (off_nonneg ((fun i => fs !!! i) <$> t)). rewrite off_nil in H.
    pose proof (e_rec_pos (fs !!! k)). pose proof (e_rec_pos (fs !!! i)). pose proof (Z.div_pos (e_rec (fs !!! i)) 2).
    pose proof (Z.div_le_upper_bound (e_rec (fs !!! k)) 2 (e_rec (fs !!! k))). lia.
Qed.

Lemma cut_both fs js1 j js2 es1 : js1 ++ j :: js2 ≡ₚ live_below fs (length fs) -> js1 <> [] ->
  entries es1 ≡ₚ entries ((fun i => fs !!! i) <$> js1) -> entries es1 <> [].
Proof.
  intros Hp Hne He Hnil. rewrite Hnil in He. destruct js1 as [|i js1]; [done|]. apply Permutation_nil in He. cbn [fmap list_fmap] in He.
  rewrite entries_live in He; [done|]. assert (Hi : i ∈ live_below fs (length fs)) by (rewrite <- Hp; by left). by apply list_elem_of_filter in Hi as [? _].
Qed.

Lemma sorted_split h fs js1 j js2 es1 es2 es hash1 (hash2 := name_hash h (e_name (fs !!! j))) :
  StronglySorted hash_le (ment_of h fs <$> js1 ++ j :: js2) -> (forall t k, js1 = t ++ [k] -> hash1 = name_hash h (e_name (fs !!! k))) ->
  js1 ++ j :: js2 ≡ₚ live_below fs (length fs) -> entries fs = entries es ->
  entries es1 ≡ₚ entries ((fun i => fs !!! i) <$> js1) -> entries es2 = entries ((fun i => fs !!! i) <$> j :: js2) ->
  split_of h es es1 es2 hash2 (if hash2 =? hash1 then 1 else 0).
Proof.
  intros Hs Hh1 Hp Hes H1 H2. rewrite fmap_app in Hs. apply StronglySorted_app in Hs as (Hx & Hs1 & Hs2).
  assert (Hlow : forall i, i ∈ js1 -> name_hash h (e_name (fs !!! i)) <= hash2).
  { intros i Hi. apply (Hx (ment_of h fs i) (ment_of h fs j)); [by apply list_elem_of_fmap_2|by left]. }
  split.
  - rewrite H1, H2, <- entries_app, <- fmap_app, <- Hes. unfold entries. apply Permutation_map. rewrite (filter_live_below fs). 
    rewrite <- Hp. apply Permutation_refl'. apply filter_all. apply Forall_fmap, Forall_forall. intros i Hi. rewrite Hp in Hi.
    by apply list_elem_of_filter in Hi as [? _].
  - intros n Hn. rewrite H1 in Hn. apply entries_named in Hn as (e & He & _ & <-). apply list_elem_of_fmap in He as (i & -> & Hi).
    pose proof (Hlow i Hi). destruct (Z.eqb_spec hash2 hash1) as [|Hne]; [lia|].
    destruct js1 as [|k t _] using rev_ind; [by apply not_elem_of_nil in Hi|]. specialize (Hh1 t k eq_refl).
    pose proof (Hlow k ltac:(set_solver)). rewrite fmap_app in Hs1. apply StronglySorted_app in Hs1 as (Hx1 & _ & _).
    apply elem_of_app in Hi as [Hi|Hi%list_elem_of_singleton]; [|subst; lia].
    pose proof (Hx1 (ment_of h fs i) (ment_of h fs k) ltac:(by apply list_elem_of_fmap_2) ltac:(by left)) as Hle. unfold hash_le in Hle. cbn in Hle. lia.
  - intros n Hn. rewrite H2 in Hn. apply entries_named in Hn as (e & He & _ & <-). apply list_elem_of_fmap in He as (i & -> & Hi).
    apply elem_of_cons in Hi as [->|Hi]; [done|]. cbn [fmap list_fmap] in Hs2. apply StronglySorted_inv in Hs2 as [_ Hs2].
    rewrite Forall_forall in Hs2. apply (Hs2 (ment_of h fs i)). by apply list_elem_of_fmap_2.
  - pose proof (name_hash_range h (e_name (fs !!! j))). done.
  - destruct (hash2 =? hash1); [by right|by left].
  - exists (e_name (fs !!! j)). split; [|done]. rewrite H2. apply entries_named. exists (fs !!! j). split; [by left|]. split; [|done].
    assert (Hj : j ∈ live_below fs (length fs)) by (rewrite <- Hp; apply elem_of_app; right; by left). by apply list_elem_of_filter in Hj as [? _].
Qed.

(** What changes only in the blocks [L]. *)
Record outside (L : list Z) (d d' : dir_st) : Prop := {
  os_bufs : forall b, b ∉ L -> buf_at b d' = buf_at b d;
  os_count : length (d_bufs d') = length (d_bufs d);
  os_size : d_size d' = d_size d;
  os_dx : is_dx sb d' = is_dx sb d;
}.

Lemma outside_trans L d d' d'' : outside L d d' -> outside L d' d'' -> outside L d d''.
Proof. intros [] []. split; [|congruence..]. intros b Hb. by rewrite os_bufs1, os_bufs0. Qed.
Lemma outside_only L bh d d' : bh ∈ L -> only sb bh d d' -> outside L d d'.
Proof. intros Hbh []. split; [|done..]. intros b Hb. apply on_bufs. by intros ->. Qed.
Lemma outside_set L bh d b : bh ∈ L -> 0 <= bh -> outside L d (set_data bh b d).
Proof. intros Hbh H0. by apply (outside_only L bh), only_set_data. Qed.

Section whole.
Context (bh fb : Z) (A : list Z) (limit blk0 : Z) (xs : list (Z * Z)) (S : list Z) (at_ : nat) (h : dx_hash_info) (es : list dent) (d : dir_st).
#[local] Abbreviation new := (Z.of_nat (length (d_bufs d))).

(** The leaf [bh] was split into [bh] and a new block. *)
Record did_split (es1 es2 : list dent) (hash2 c : Z) (d' : dir_st) : Prop := {
  ds_low : leaf sb bh d' es1;
  ds_high : leaf sb new d' es2;
  ds_split : split_of h es es1 es2 hash2 c;
  ds_node : exists S', node sb fb A limit blk0 (insert_after at_ (hash2 + c, new) xs) S' d';
  ds_tidy : tidy es1 /\ tidy es2;
  ds_both : entries es1 <> [];
  ds_outside : outside [bh; new; fb] (appended sb new d) d';
}.

Lemma halves_leaf d1 es1 es2 c1 c2 de1 de2 (D := two bh new (lay (es1 ++ dtail sb c1)) (lay (es2 ++ dtail sb c2)) d1) o1 o2 :
  bh <> new -> data bh d1 = Some o1 -> data new d1 = Some o2 -> length c1 = 4%nat -> length c2 = 4%nat -> roomy de1 es1 -> roomy de2 es2 ->
  leaf sb bh D es1 /\ leaf sb new D es2 /\ outside [bh; new; fb] d1 D.
Proof.
  intros Hne Ho1 Ho2 Hc1 Hc2 [] []. unfold D. split; [|split].
  - split; [|done..]. exists c1. split; [done|]. by apply (two_left bh new Hne d1 o1 o2).
  - split; [|done..]. exists c2. split; [done|]. by apply (two_right bh new Hne d1 o1 o2).
  - unfold two. eapply outside_trans; apply outside_set; [set_solver|lia|set_solver|by eapply data_nonneg].
Qed.

(** The index learns of the new block, and both are written. *)
Lemma enter_split_at D other es' hash block S0 (x : Z * Z) :
  leaf sb other D es' -> other <> fb -> node sb fb A limit blk0 xs S0 D -> 1 + Z.of_nat (length xs) < limit -> (at_ <= length xs)%nat ->
  0 <= hash < 2 ^ 32 -> 0 <= block < 2 ^ 28 ->
  runs (dx_insert_block (mk_frame fb (Z.of_nat (length A)) (Z.of_nat at_)) hash block ;;;
        err <-- ext4_handle_dirty_dirent_node sb other ;;
        err <-- (if negb (err =? 0) then ret err else ext4_handle_dirty_dx_node sb fb) ;;
        if negb (err =? 0) then ext4_error_dir err ;;; ret (inl err) else ret (inr x)) D (fun r d' =>
    (exists S', node sb fb A limit blk0 (insert_after at_ (hash, block) xs) S' d') /\ (forall L, other ∈ L -> fb ∈ L -> outside L D d') /\
    leaf sb other d' es' /\ verifies sb other d' /\
    (r = inr x /\ dx_verifies sb fb d' \/ r = inl (- EIO) /\ ds_needs_sync sb = true /\ (sync_fails other = true \/ sync_fails fb = true))).
Proof.
  intros Hl Hne N Hroom Hat Hh Hb. destruct (insert_block_at sb fb A limit blk0 xs S0 D at_ hash block N Hroom Hat Hh Hb) as (S1 & b & E1 & N1).
  eapply runs_bind, runs_intro; [exact E1|]. pose proof (data_nonneg _ _ _ (nd_data _ _ _ _ _ _ _ _ N)) as Hfb.
  set (D1 := set_data fb b D) in *. assert (Hl1 : leaf sb other D1 es').
  { eapply leaf_frame; [|exact Hl]. unfold D1, data. rewrite buf_at_set, decide_False; [done|]. destruct Hl as [(c & _ & Hd) _ _]. apply data_nonneg in Hd. lia. }
  assert (HO1 : forall L, fb ∈ L -> outside L D D1) by (intros L Hin; by apply outside_set). clearbody D1. clear E1.
  apply runs_bind. eapply runs_conseq; [by apply dirty_node_at|]. intros r D2 (Hl2 & Hv2 & Ho2 & Hr).
  assert (N2 : node sb fb A limit blk0 (insert_after at_ (hash, block) xs) S1 D2).
  { eapply node_data; [|exact N1]. unfold data. by rewrite (on_bufs _ _ _ _ Ho2) by done. }
  assert (HO2 : forall L, other ∈ L -> fb ∈ L -> outside L D D2) by (intros L H1 H2; eapply outside_trans; [by apply HO1|by apply (outside_only L other)]).
  destruct (ds_needs_sync sb && sync_fails other) eqn:Es; subst r; cbn [negb Z.eqb Z.opp EIO].
  { apply andb_true_iff in Es as [-> ->]. apply runs_bind, runs_ret. cbn [negb Z.eqb]. apply runs_bind, runs_modify, runs_ret.
    split; [exists S1; by eapply node_data; [|exact N2]|]. split; [intros L H1 H2; by destruct (HO2 L H1 H2)|].
    split; [by eapply leaf_frame; [|exact Hl2]|]. split; [by eapply verifies_frame; [|exact Hv2]|]. right. split; [done|]. split; [done|by left]. }
  apply runs_bind. eapply runs_conseq; [apply (dirty_dx_at sb _ _ _ _ _ _ _ N2)|]. intros r D3 ((S3 & N3) & Hx3 & Ho3 & Hr).
  assert (HO3 : forall L, other ∈ L -> fb ∈ L -> outside L D D3) by (intros L H1 H2; eapply outside_trans; [by apply HO2|by apply (outside_only L fb)]).
  assert (Ed : data other D3 = data other D2) by (unfold data; by rewrite (on_bufs _ _ _ _ Ho3) by done).
  assert (Hl3 : leaf sb other D3 es') by by eapply leaf_frame. assert (Hv3 : verifies sb other D3) by by eapply verifies_frame.
  destruct (ds_needs_sync sb && sync_fails fb) eqn:Es'; subst r; cbn [negb Z.eqb Z.opp EIO].
  - apply andb_true_iff in Es' as [-> ->]. apply runs_bind, runs_modify, runs_ret.
    split; [exists S3; by eapply node_data; [|exact N3]|]. split; [intros L H1 H2; by destruct (HO3 L H1 H2)|].
    split; [by eapply leaf_frame; [|exact Hl3]|]. split; [by eapply verifies_frame; [|exact Hv3]|]. right. split; [done|]. split; [done|by right].
  - apply runs_ret. split; [by exists S3|]. split; [done|]. split; [done|]. split; [done|]. by left.
Qed.

(** The result: the block for the hash of the name, with room for the name. *)
Definition split_result (r : Z + Z * Z) (d' : dir_st) : Prop :=
  (exists err, r = inl err /\ ERR_BAD_DX_DIR < err < 0 /\ d' = d /\ (at_limit sb d \/ create_err new <> 0)) \/
  exists es1 es2 hash2 c, did_split es1 es2 hash2 c d' /\
    let high := hash2 <=? hi_hash h in
    verifies sb (if high then bh else new) d' /\
    (r = inl (- EIO) /\ ds_needs_sync sb = true \/ exists de, r = inr (de, if high then new else bh) /\ roomy de (if high then es2 else es1) /\ dx_verifies sb fb d').

Lemma conclude_at D S0 es1 es2 hash2 c de1 de2 :
  leaf sb bh D es1 -> leaf sb new D es2 -> outside [bh; new; fb] (appended sb new d) D -> roomy de1 es1 -> roomy de2 es2 -> split_of h es es1 es2 hash2 c -> entries es1 <> [] ->
  bh <> new -> bh <> fb -> fb <> new -> new < 2 ^ 28 -> 1 + Z.of_nat (length xs) < limit -> (at_ <= length xs)%nat -> node sb fb A limit blk0 xs S0 D ->
  runs (let '(bh', bh2, de) := if hash2 <=? hi_hash h then (new, bh, de2) else (bh, new, de1) in
        dx_insert_block (mk_frame fb (Z.of_nat (length A)) (Z.of_nat at_)) (u32 (hash2 + c)) new ;;;
        err <-- ext4_handle_dirty_dirent_node sb bh2 ;;
        err <-- (if negb (err =? 0) then ret err else ext4_handle_dirty_dx_node sb fb) ;;
        if negb (err =? 0) then ext4_error_dir err ;;; ret (inl err) else ret (inr (de, bh'))) D split_result.
Proof.
  intros L1 L2 O Hr1 Hr2 Hso Hemp Hne Hbf Hfn Hnew Hroom Hat ND. assert (Hu : u32 (hash2 + c) = hash2 + c).
  { apply wrap_small. pose proof (so_hash _ _ _ _ _ _ Hso). pose proof (so_cont _ _ _ _ _ _ Hso). lia. }
  assert (Hhc : 0 <= hash2 + c < 2 ^ 32) by (rewrite <- Hu; apply wrap_range; lia). rewrite Hu. clear Hu.
  assert (Hkeep : forall b es0 d' L, b ∉ L -> outside L D d' -> leaf sb b D es0 -> leaf sb b d' es0).
  { intros b es0 d' L Hb HO. apply leaf_frame. unfold data. by rewrite (os_bufs _ _ _ HO b Hb). }
  unfold split_result. destruct (hash2 <=? hi_hash h) eqn:Ehigh.
  - eapply runs_conseq; [apply (enter_split_at D bh es1 (hash2 + c) new S0 (de2, new) L1); [done..|lia]|]. intros r d' (HN & HO & Hl & Hv & Hr).
    right. exists es1, es2, hash2, c. split; [split; try done|].
    + apply (Hkeep new es2 d' [bh; fb]); [set_solver|apply HO; set_solver|done].
    + split; [apply (ry_tidy _ _ Hr1)|apply (ry_tidy _ _ Hr2)].
    + eapply outside_trans; [exact O|apply HO; set_solver].
    + cbv zeta. rewrite Ehigh. split; [done|]. destruct Hr as [[-> ?]|(-> & ? & _)]; [right; by exists de2|by left].
  - eapply runs_conseq; [apply (enter_split_at D new es2 (hash2 + c) new S0 (de1, bh) L2); [done..|lia]|]. intros r d' (HN & HO & Hl & Hv & Hr).
    right. exists es1, es2, hash2, c. split; [split; try done|].
    + apply (Hkeep bh es1 d' [new; fb]); [set_solver|apply HO; set_solver|done].
    + split; [apply (ry_tidy _ _ Hr1)|apply (ry_tidy _ _ Hr2)].
    + eapply outside_trans; [exact O|apply HO; set_solver].
    + cbv zeta. rewrite Ehigh. split; [done|]. destruct Hr as [[-> ?]|(-> & ? & _)]; [right; by exists de1|by left].
Qed.

Lemma do_split_at :
  leaf sb bh d es -> bh <> fb -> entries es <> [] -> ~ lopsided h es -> Z.shiftr (d_size d) (ds_blocksize_bits sb) = new -> new < 2 ^ 28 ->
  node sb fb A limit blk0 xs S d -> 1 + Z.of_nat (length xs) < limit -> (at_ <= length xs)%nat ->
  runs (do_split sb bh (mk_frame fb (Z.of_nat (length A)) (Z.of_nat at_)) h) d split_result.
Proof.
  intros Hl Hbf Hes Hlop Hsz Hnew N Hroom Hat. pose proof dg_block as Hbs. unfold do_split.
  pose proof (append_at sb d (replicate (length (d_bufs d)) [])) as Happ. cbv zeta in Happ. rewrite length_replicate in Happ.
  destruct (Happ eq_refl Hsz) as [E|(err & E & Hneg & Hf)]; (eapply runs_bind, runs_intro; [exact E|]); clear E Happ; cbv beta iota.
  2:{ apply runs_ret. left. by exists err. }
  set (d1 := appended sb new d). destruct Hl as [(c0 & Hc0 & Hd) Hok Hloff]. set (fs := es ++ dtail sb c0) in *.
  assert (Hold : forall b x, data b d = Some x -> b <> new /\ data b d1 = Some x).
  { intros b x Hx. assert (Hb : b <> new); [|split; [done|]; unfold data, d1 in *; by rewrite appended_old].
    intros ->. unfold data, buf_at in Hx. destruct (_ <? 0); [done|]. rewrite Nat2Z.id, lookup_ge_None_2 in Hx by lia. done. }
  destruct (Hold _ _ Hd) as [Hne Ho1]. destruct (Hold _ _ (nd_data _ _ _ _ _ _ _ _ N)) as [Hfn Hofb].
  pose proof (appended_new sb new d : data new d1 = _) as Ho2. destruct (fresh_law blocksize new) as [Hfl _].
  assert (Hfok : Forall entry_ok fs) by (apply Forall_app; split; [done|by apply dtail_ok]).
  assert (Hfoff : off fs = blocksize) by (unfold fs; rewrite off_app, (dtail_length sb c0 Hc0), Hloff; lia).
  destruct (sorted_map_at bh new Hne d1 _ _ Ho1 Ho2 h fs Hfok Hfoff (fresh_block blocksize new) ltac:(lia)) as (a & js & E1 & E2 & Hp & Hs & Ha).
  rewrite (two_id bh new d1 _ _ Ho1 Ho2) in E1. eapply runs_bind, runs_intro; [exact E1|]. eapply runs_bind, runs_intro; [exact E2|]. clear E1 E2. cbv zeta in Ha. rewrite Ha, Nat2Z.id. unfold sizeof_dx_map_entry in *.
  set (D := two bh new (lay fs) (a ++ laym (ment_of h fs <$> js)) d1).
  assert (Hlt : Forall (fun i => i < length fs)%nat js).
  { rewrite Hp. apply Forall_forall. intros i Hi. apply list_elem_of_filter in Hi as [_ Hi]. apply elem_of_seq in Hi. lia. }
  assert (Hefs : entries fs = entries es) by (unfold fs; by rewrite entries_app, dtail_dead, app_nil_r).
  assert (Hlive : base.filter live fs = base.filter live es) by (unfold fs; by rewrite filter_app, (fmap_nil_inv _ _ (dtail_dead sb c0)), app_nil_r).
  assert (Hjs : js <> []).
  { intros ->. apply Hes. rewrite <- Hefs. unfold entries. rewrite filter_live_below. apply Permutation_nil in Hp. by rewrite Hp. }
  assert (HD : holds new a [] (ment_of h fs <$> js) D).
  { split; [unfold D; rewrite (two_right bh new Hne d1 _ _ Ho1 Ho2); by rewrite app_nil_r|]. apply Forall_fmap. eapply Forall_impl; [exact Hlt|].
    intros i Hi. by eapply ment_of_ok. }
  destruct (cut_map_at new h fs Hfok Hfoff D a js Hjs HD Hlt) as (js1 & j & js2 & -> & E3 & Hc1 & Hc2).
  eapply runs_bind, runs_intro; [exact E3|]. clear E3. rewrite length_app. cbn [length].
  replace (Z.of_nat (length js1 + Datatypes.S (length js2)) - Z.of_nat (Datatypes.S (length js2))) with (Z.of_nat (length js1)) by lia.
  replace (Z.of_nat (length js1 + Datatypes.S (length js2)) - Z.of_nat (length js1)) with (Z.of_nat (length (j :: js2))) by (simpl; lia).
  eapply runs_bind, runs_intro.
  { apply (map_hash_at new a [] _ (length js1) (ment_of h fs j) D HD). by rewrite list_lookup_fmap, list_lookup_middle. }
  assert (Hcount : 12 * Z.of_nat (length (js1 ++ j :: js2)) <= blocksize).
  { pose proof (Forall_length_off sb fs Hfok). pose proof (live_below_length fs (length fs)) as Hlb. rewrite <- Hp in Hlb. lia. }
  pose proof (lopsided_cut h fs es js1 j js2 Hlive Hp Hs Hc1 Hlop) as Hjs1.
  destruct (hash1_at new h fs D a js1 (j :: js2) HD Hjs1 ltac:(rewrite length_app in Hcount; lia)) as (hash1 & E4 & Hh1). eapply runs_bind, runs_intro; [exact E4|]. clear E4.
  destruct (halves_at bh new Hne d1 _ _ Ho1 Ho2 h fs Hfok Hfoff a js1 j js2 Hp) as (de1 & es1 & de2 & es2 & E5 & Hr1 & Hr2 & He1 & He2).
  { rewrite Hlive, <- Hloff. apply off_filter_le. }
  { intros e r Er. unfold fs in Er. destruct es as [|e' es']; [done|]. injection Er as <- _. rewrite <- Hloff, off_cons. pose proof (off_nonneg es'). lia. }
  { done. } { done. } { lia. }
  pose proof (sorted_split h fs js1 j js2 es1 es2 es hash1 Hs Hh1 Hp Hefs He1 He2) as Hso. cbn [m_hash ment_of].
  set (hash2 := name_hash h (e_name (fs !!! j))) in *. set (c := if hash2 =? hash1 then 1 else 0) in *.
  do 5 (apply bind_inv in E5 as (? & ? & ?E & E5); eapply runs_bind, runs_intro; [eassumption|]). injection E5 as -> -> ->.
  pose proof (halves_leaf d1 es1 es2 [0; 0; 0; 0] [0; 0; 0; 0] de1 de2 _ _ Hne Ho1 Ho2 eq_refl eq_refl Hr1 Hr2) as (L1 & L2 & O).
  apply (conclude_at _ S es1 es2); [done..| |done|done|done|done|done|done|].
  { by apply (cut_both fs js1 j js2). }
  eapply node_data; [|exact N]. rewrite (nd_data _ _ _ _ _ _ _ _ N). unfold two. pose proof (data_nonneg _ _ _ Ho1).
  apply data_set_ne; [done|done|]. apply data_set_ne; [done|lia|done].
Qed.
End whole.

(** ** Where the split goes wrong *)

Lemma read_le_beyond k bh d b o : data bh d = Some b -> Z.of_nat (length b) < o + Z.of_nat k -> read_le k bh o d = Oops OutOfBounds.
Proof.
  intros Hd Ho. unfold data in Hd. unfold read_le, bind, read_bytes. destruct (buf_at bh d) as [x|]; [|done]. injection Hd as ->.
  destruct (Z.leb_spec (o + Z.of_nat k) (Z.of_nat (length b))); [lia|]. by rewrite andb_false_r.
Qed.

Lemma do_split_faults bh frame h es d (new := Z.of_nat (length (d_bufs d))) :
  leaf sb bh d es -> Z.shiftr (d_size d) (ds_blocksize_bits sb) = new -> ~ at_limit sb d -> create_err new = 0 -> all_lopsided h es ->
  do_split sb bh frame h d = Oops OutOfBounds.
Proof.
  intros Hl Hsz Hlim Hcr Hall. pose proof dg_block as Hbs. unfold do_split.
  pose proof (append_at sb d (replicate (length (d_bufs d)) [])) as Happ. cbv zeta in Happ. rewrite length_replicate in Happ.
  destruct (Happ eq_refl Hsz) as [E|(err & _ & _ & [?|?])]; [|done|done]. rewrite (bind_Ret _ _ _ _ _ E). clear E Happ. cbv beta iota.
  set (d1 := appended sb new d). destruct Hl as [(c0 & Hc0 & Hd) Hok Hloff]. set (fs := es ++ dtail sb c0) in *.
  assert (Hne : bh <> new).
  { intros ->. unfold data, buf_at in Hd. destruct (_ <? 0); [done|]. unfold new in Hd. rewrite Nat2Z.id, lookup_ge_None_2 in Hd by lia. done. }
  assert (Ho1 : data bh d1 = Some (lay fs)) by (unfold data, d1 in *; by rewrite appended_old).
  pose proof (appended_new sb new d : data new d1 = _) as Ho2. destruct (fresh_law blocksize new) as [Hfl _].
  assert (Hfok : Forall entry_ok fs) by (apply Forall_app; split; [done|by apply dtail_ok]).
  assert (Hfoff : off fs = blocksize) by (unfold fs; rewrite off_app, (dtail_length sb c0 Hc0), Hloff; lia).
  assert (Hlive : base.filter live fs = base.filter live es) by (unfold fs; by rewrite filter_app, (fmap_nil_inv _ _ (dtail_dead sb c0)), app_nil_r).
  destruct (sorted_map_at bh new Hne d1 _ _ Ho1 Ho2 h fs Hfok Hfoff (fresh_block blocksize new) ltac:(lia)) as (a & js & E1 & E2 & Hp & Hs & Ha).
  rewrite (two_id bh new d1 _ _ Ho1 Ho2) in E1. fold new. rewrite (bind_Ret _ _ _ _ _ E1), (bind_Ret _ _ _ _ _ E2). clear E1 E2. cbv zeta in Ha. rewrite Ha, Nat2Z.id.
  unfold sizeof_dx_map_entry in *. set (D := two bh new (lay fs) (a ++ laym (ment_of h fs <$> js)) d1).
  assert (Hnew : data new D = Some (a ++ laym (ment_of h fs <$> js))) by (apply (two_right bh new Hne d1 _ _ Ho1 Ho2)).
  assert (Hlen : Z.of_nat (length (a ++ laym (ment_of h fs <$> js))) = blocksize) by (rewrite length_app, laym_length, length_fmap; lia).
  destruct js as [|j0 js0].
  { cbn [split_loop length] in *. rewrite bind_ret. unfold map_hash, bind at 1. by rewrite (read_le_beyond 4 new D _ _ Hnew) by lia. }
  assert (Hlt : Forall (fun i => i < length fs)%nat (j0 :: js0)).
  { rewrite Hp. apply Forall_forall. intros i Hi. apply list_elem_of_filter in Hi as [_ Hi]. apply elem_of_seq in Hi. lia. }
  assert (HD : holds new a [] (ment_of h fs <$> j0 :: js0) D).
  { split; [by rewrite app_nil_r|]. apply Forall_fmap. eapply Forall_impl; [exact Hlt|]. intros i Hi. by eapply ment_of_ok. }
  destruct (cut_map_at new h fs Hfok Hfoff D a (j0 :: js0) ltac:(done) HD Hlt) as (js1 & j & js2 & Ej & E3 & Hc1 & Hc2).
  rewrite (bind_Ret _ _ _ _ _ E3). rewrite Ej in *. pose proof (all_lopsided_cut h fs es js1 j js2 Hlive Hp Hs Hc2 Hall) as ->. cbn [app] in *.
  rewrite Z.sub_diag. change 0 with (Z.of_nat 0) at 1. rewrite (bind_Ret _ _ _ _ _ (map_hash_at new a [] _ 0 (ment_of h fs j) D HD eq_refl)).
  unfold map_hash, bind at 1. rewrite (read_le_beyond 4 new D _ _ Hnew); [done|]. change (u32 (0 - 1)) with (2 ^ 32 - 1). lia.
Qed.
End split.
