(* ===== verification/DirHtree.v ===== *)
(** * mqfs: indexed directories of one level

    Block 0 holds the root of the index, which divides the hashes among the
    leaves.  A slot of the root is a key, a block and the entries of the block;
    an odd key tells that its hash goes on from the leaf in front. *)

From stdpp Require Import sorting.
From S2P Require Import Prelude Dirent DirentFacts Dir DirFacts DirMap DirSplit.

Record slot := mk_slot { s_key : Z; s_block : Z; s_es : list dent }.
#[export] Instance slot_eta : Eta slot := fun s => mk_slot (s_key s) (s_block s) (s_es s).

Definition kv (s : slot) : Z * Z := (s_key s, s_block s).
Definition slot_entries (ss : list slot) : list (list Z * Z) := entries (concat (s_es <$> ss)).

Lemma slot_entries_elem ss n : n ∈ (slot_entries ss).*1 <-> exists s, s ∈ ss /\ n ∈ (entries (s_es s)).*1.
Proof.
  unfold slot_entries. induction ss as [|s ss IH]; cbn [fmap list_fmap concat].
  - split; [|intros (s & Hs & _)]; [intros Hn|]; [by apply not_elem_of_nil in Hn|by apply not_elem_of_nil in Hs].
  - rewrite entries_app, fmap_app, elem_of_app. setoid_rewrite elem_of_cons. rewrite IH. naive_solver.
Qed.

Section htree.
Context `{HA : DirApi} {HL : DirLaws} (sb : dir_sb) {HG : dir_geo sb}.
#[local] Abbreviation entry_ok := (dent_ok (ds_inodes_count sb)).
#[local] Abbreviation blocksize := (ds_blocksize sb).
#[local] Abbreviation reclen n := (EXT4_DIR_REC_LEN (Z.of_nat (length n))).

(** The hash of a name under the version [v] of the root. *)
Definition hash_in (v : Z) (n : list Z) : Z := hi_hash (hinfo (dx_hash sb v (mk_fname n no_hinfo))).

(** The bytes of the root in front of the entries. *)
Definition root_bytes (v : Z) (A : list Z) : Prop := exists ino ft nm parent ft' nm', length nm = 4%nat /\ length nm' = 4%nat /\
  A = (le_put 4 ino ++ le_put 2 12 ++ [1; ft] ++ nm) ++ (le_put 4 parent ++ le_put 2 (blocksize - 12) ++ [2; ft'] ++ nm')
      ++ le_put 4 0 ++ [v; 8; 0; 0].

Record htree (v : Z) (d : dir_st) (ss : list slot) : Prop := {
  ht_version : v = DX_HASH_LEGACY \/ v = DX_HASH_HALF_MD4 \/ v = DX_HASH_TEA;
  ht_root : exists s0 A S, head ss = Some s0 /\ s_key s0 = 0 /\ root_bytes v A /\
    node sb 0 A (dx_root_limit sb sizeof_root_info) (s_block s0) (kv <$> tail ss) S d;
  ht_sum : dx_verifies sb 0 d;
  ht_leaf : forall s, s ∈ ss -> leaf sb (s_block s) d (s_es s) /\ verifies sb (s_block s) d /\ tidy (s_es s) /\ 0 < s_block s;
  ht_blocks : NoDup (s_block <$> ss);
  ht_size : Z.shiftr (d_size d) (ds_blocksize_bits sb) = Z.of_nat (length (d_bufs d));
  ht_dx : is_dx sb d = true;
  ht_sorted : forall i j s t, (i <= j)%nat -> ss !! i = Some s -> ss !! j = Some t -> s_key s <= s_key t;
  ht_range : forall i s n, ss !! i = Some s -> n ∈ (entries (s_es s)).*1 ->
    s_key s <= hash_in v n + 1 /\ forall t, ss !! S i = Some t -> hash_in v n < s_key t;
}.

Lemma hash_in_range v n : 0 <= hash_in v n < 2 ^ 32 - 2 /\ Z.even (hash_in v n) = true.
Proof. apply name_hash_range. Qed.

Lemma htree_same v d d' ss : same sb d d' -> htree v d ss -> htree v d' ss.
Proof.
  intros [Hd Hc Hs Hx] [? (s0 & A & S & ? & ? & ? & N) Hv Hl ? ? ? ? ?]. split; try done; [| | |by rewrite Hs, Hc|by rewrite Hx].
  - exists s0, A, S. split; [done|]. split; [done|]. split; [done|]. eapply node_data; [apply Hd|exact N].
  - intros d2 E2. apply Hv. by rewrite E2.
  - intros s Hin. destruct (Hl s Hin) as (? & ? & ? & ?). split; [eapply leaf_frame; [apply Hd|done]|]. split; [eapply verifies_frame; [apply Hd|done]|done].
Qed.

(** ** Reading blocks *)

Lemma bread_at b x d : data b d = Some x ->
  ext4_bread b d = Ret (inr true) d \/ unreadable b /\ exists err, ext4_bread b d = Ret (inl err) d /\ ERR_BAD_DX_DIR < err < 0.
Proof.
  intros Hd. unfold ext4_bread. destruct (Z.eqb_spec (getblk_err b) 0) as [E0|E0]; cbn [negb].
  2:{ right. split; [by left|]. eexists. split; [done|]. pose proof (getblk_err_law b). lia. }
  unfold data in Hd. destruct (buf_at b d) as [y|] eqn:Eb; [|done]. unfold bind, gets. rewrite Eb. destruct (read_fails b) eqn:Er; [|by left].
  right. split; [by right|]. by exists (- EIO).
Qed.

Lemma read_leaf_at b d es : leaf sb b d es -> verifies sb b d -> is_dx sb d = true -> b <> 0 ->
  runs (__ext4_read_dirblock sb b DIRENT) d (fun r d' =>
    same sb d d' /\ (r = inr b \/ unreadable b /\ exists err, r = inl err /\ ERR_BAD_DX_DIR < err < 0)).
Proof.
  intros Hl Hv Hx Hb. pose proof Hl as [(c & Hc & Hd) Hok Hoff]. unfold __ext4_read_dirblock. apply runs_bind.
  destruct (bread_at b _ d Hd) as [E|(Hu & err & E & Herr)]; (eapply runs_intro; [exact E|]); clear E.
  2:{ apply runs_ret. split; [apply same_refl|]. right. split; [done|by exists err]. }
  apply runs_bind, runs_intro with (a := d) (s' := d); [done|]. rewrite Hx. destruct (Z.eqb_spec b 0); [done|].
  destruct es as [|e es]; [rewrite off_nil in Hoff; pose proof dg_block; pose proof (csum_size_cases sb); lia|].
  cbn [app] in Hd. rewrite lay_cons in Hd. inversion_clear Hok as [|?? He _].
  apply runs_bind. eapply runs_intro; [by rewrite (bind_Ret _ _ _ _ _ (de_rec_len_at sb b d [] e _ 0 Hd He eq_refl))|]. rewrite andb_false_r.
  unfold data in Hd. destruct (buf_at b d) as [y|] eqn:Eb; [|done]. apply runs_bind, runs_gets. rewrite Eb.
  destruct (negb (ds_metadata_csum sb) || db_verified y); [apply runs_ret; split; [apply same_refl|by left]|].
  rewrite andb_false_r. apply runs_bind, runs_ret. cbn [negb]. destruct (e_rec e =? blocksize); cbn [negb].
  - apply runs_bind, runs_ret, runs_ret. split; [apply same_refl|by left].
  - apply runs_bind, runs_bind. eapply runs_intro; [by apply Hv|]. apply runs_bind. eapply runs_intro; [by eapply with_buf_ok|]. apply runs_ret, runs_ret.
    split; [by apply alter_same|by left].
Qed.

Lemma read_root_at d x : data 0 d = Some x -> dx_verifies sb 0 d -> is_dx sb d = true ->
  runs (__ext4_read_dirblock sb 0 INDEX) d (fun r d' =>
    same sb d d' /\ (r = inr 0 \/ unreadable 0 /\ exists err, r = inl err /\ ERR_BAD_DX_DIR < err < 0)).
Proof.
  intros Hd Hv Hx. unfold __ext4_read_dirblock. apply runs_bind.
  destruct (bread_at 0 _ d Hd) as [E|(Hu & err & E & Herr)]; (eapply runs_intro; [exact E|]); clear E.
  2:{ apply runs_ret. split; [apply same_refl|]. right. split; [done|by exists err]. }
  apply runs_bind, runs_intro with (a := d) (s' := d); [done|]. rewrite Hx. apply runs_bind, runs_ret. cbn [negb andb].
  unfold data in Hd. destruct (buf_at 0 d) as [y|] eqn:Eb; [|done]. apply runs_bind, runs_gets. rewrite Eb.
  destruct (negb (ds_metadata_csum sb) || db_verified y); [apply runs_ret; split; [apply same_refl|by left]|].
  apply runs_bind, runs_bind. eapply runs_intro; [by apply Hv|]. apply runs_bind. eapply runs_intro; [by eapply with_buf_ok|]. apply runs_ret.
  cbn [negb]. apply runs_bind, runs_ret, runs_ret. split; [by apply alter_same|by left].
Qed.

(** ** Finding the slot of a hash *)

Lemma read_byte bh d a x c o : data bh d = Some (a ++ x :: c) -> o = Z.of_nat (length a) -> read_le 1 bh o d = Ret x d.
Proof.
  intros Hd Ho. unfold read_le. rewrite (bind_Ret _ _ _ _ _ (read_bytes_mid bh d a [x] c o 1 Hd Ho eq_refl)). cbn. unfold ret. f_equal. lia.
Qed.

Lemma root_reads v A rest d : data 0 d = Some (A ++ rest) -> root_bytes v A ->
  Z.of_nat (length A) = 32 /\ read_le 1 0 28 d = Ret v d /\ read_le 1 0 29 d = Ret 8 d /\ read_le 1 0 30 d = Ret 0 d /\ read_le 1 0 31 d = Ret 0 d.
Proof.
  intros Hd (ino & ft & nm & parent & ft' & nm' & Hnm & Hnm' & ->).
  set (a := (le_put 4 ino ++ le_put 2 12 ++ [1; ft] ++ nm) ++ (le_put 4 parent ++ le_put 2 (blocksize - 12) ++ [2; ft'] ++ nm') ++ le_put 4 0).
  assert (Hl : Z.of_nat (length a) = 28) by (unfold a; rewrite !length_app, !le_put_length, Hnm, Hnm'; done).
  assert (Ha : data 0 d = Some (a ++ v :: 8 :: 0 :: 0 :: rest)) by (rewrite Hd; unfold a; by rewrite <- !app_assoc).
  assert (Hl' : forall x, Z.of_nat (length (a ++ x)) = 28 + Z.of_nat (length x)) by (intros x; rewrite length_app; lia).
  split; [|split; [by eapply read_byte|]].
  { rewrite <- !app_assoc. rewrite !length_app, !le_put_length, Hnm, Hnm'. done. }
  split; [apply (read_byte 0 d (a ++ [v]) 8 (0 :: 0 :: rest)); [by rewrite <- app_assoc|by rewrite Hl']|].
  split; [apply (read_byte 0 d (a ++ [v; 8]) 0 (0 :: rest)); [by rewrite <- app_assoc|by rewrite Hl']|].
  apply (read_byte 0 d (a ++ [v; 8; 0]) 0 rest); [by rewrite <- app_assoc|by rewrite Hl'].
Qed.

(** The slot [k] is the last one with a key up to the hash. *)
Definition slot_at (ss : list slot) (hash : Z) (k : nat) : Prop :=
  (k < length ss)%nat /\ forall i s, ss !! i = Some s -> if decide (i <= k)%nat then s_key s <= hash else hash < s_key s.

Lemma slot_at_node ss s0 hash k : head ss = Some s0 -> s_key s0 <= hash -> is_slot (kv <$> tail ss) hash k -> slot_at ss hash k.
Proof.
  destruct ss as [|s ss]; [done|]. intros [= ->] H0 (Hk & Hlo & Hhi). cbn [tail] in *. rewrite length_fmap in Hk. split; [simpl; lia|].
  intros [|i] t Hi; [injection Hi as <-; by rewrite decide_True by lia|]. change (ss !! i = Some t) in Hi.
  case_decide; [apply (Hlo i (kv t))|apply (Hhi i (kv t))]; try lia; by rewrite list_lookup_fmap, Hi.
Qed.

Lemma root_sorted v d ss : htree v d ss -> hash_sorted (kv <$> tail ss).
Proof.
  intros Ht i j x y Hij Hx Hy. rewrite list_lookup_fmap, lookup_tail in Hx, Hy.
  destruct (ss !! S i) as [s|] eqn:Ei; [|done]. destruct (ss !! S j) as [t|] eqn:Ej; [|done]. injection Hx as <-. injection Hy as <-.
  by apply (ht_sorted _ _ _ Ht (S i) (S j)); [lia|..].
Qed.

(** What [dx_probe] makes of a name. *)
Definition hashed (v : Z) (n : list Z) : ext4_filename := dx_hash sb v (mk_fname n no_hinfo).

Lemma probe_at v d ss n : htree v d ss ->
  runs (dx_probe sb (mk_fname n no_hinfo)) d (fun r d' => same sb d d' /\
    ((exists err, r = inl err /\ ERR_BAD_DX_DIR < err < 0 /\ unreadable 0) \/
     exists k, r = inr ([mk_frame 0 32 (Z.of_nat k)], hashed v n) /\ slot_at ss (hash_in v n) k)).
Proof.
  intros Ht. pose proof Ht as [Hver (s0 & A & S & Hs0 & Hk0 & HA0 & N) Hv _ _ _ Hx _ _]. pose proof (nd_data _ _ _ _ _ _ _ _ N) as Hd.
  unfold dx_probe. apply runs_bind. eapply runs_conseq; [by eapply read_root_at|]. intros r d1 [Hs [->|(Hu & err & -> & Herr)]].
  2:{ apply runs_ret. split; [done|]. left. by exists err. }
  assert (N1 : node sb 0 A (dx_root_limit sb sizeof_root_info) (s_block s0) (kv <$> tail ss) S d1) by (eapply node_data; [apply (sm_data _ _ _ Hs)|exact N]).
  pose proof (nd_data _ _ _ _ _ _ _ _ N1) as Hd1. destruct (root_reads v A _ d1 Hd1 HA0) as (HlA & R28 & R29 & R30 & R31).
  eapply runs_bind, runs_intro; [exact R28|].
  assert (Ev : negb (v =? DX_HASH_TEA) && negb (v =? DX_HASH_HALF_MD4) && negb (v =? DX_HASH_LEGACY) = false) by (by destruct Hver as [->|[->| ->]]).
  rewrite Ev. eapply runs_bind, runs_intro; [exact R31|]. cbn [negb Z.land Z.eqb]. eapply runs_bind, runs_intro; [exact R30|].
  assert (El : (ext4_dir_htree_level sb <=? 0) = false) by (unfold ext4_dir_htree_level; by destruct (ds_large_dir sb)). rewrite El.
  eapply runs_bind, runs_intro; [exact R29|]. change (root_info + 8) with 32. rewrite <- HlA.
  eapply runs_bind, runs_intro; [by eapply get_limit_at|]. change 8 with sizeof_root_info. rewrite Z.eqb_refl. cbn [negb]. apply runs_bind.
  cbn [probe_loop Z.to_nat]. eapply runs_bind, runs_intro; [by eapply get_count_at|]. eapply runs_bind, runs_intro; [by eapply get_limit_at|].
  pose proof (nd_count _ _ _ _ _ _ _ _ N1) as Hcnt. set (cnt := 1 + Z.of_nat (length (kv <$> tail ss))) in *.
  destruct (Z.eqb_spec cnt 0); [lia|]. destruct (Z.ltb_spec (dx_root_limit sb sizeof_root_info) cnt); [lia|]. cbn [orb].
  destruct (probe_search_at sb 0 A _ _ _ S d1 N1 (root_sorted v d ss Ht) (hash_in v n) (Datatypes.S (Z.to_nat cnt)) 1 (cnt - 1)) as (k & Ek & Hk);
    [lia|lia|lia|lia|intros i x Hi; apply lookup_lt_Some in Hi; lia|].
  eapply runs_bind, runs_intro; [exact Ek|]. cbn [app Z.eqb]. apply runs_ret, runs_ret. split; [done|]. right. exists k.
  replace (1 + Z.of_nat k - 1) with (Z.of_nat k) by lia. rewrite HlA. split; [done|]. eapply slot_at_node; [done| |done].
  rewrite Hk0. apply hash_in_range.
Qed.

Lemma slot_block_at v d ss k s : htree v d ss -> ss !! k = Some s -> dx_get_block 0 32 (Z.of_nat k) d = Ret (s_block s) d.
Proof.
  intros Ht Hk. destruct (ht_root _ _ _ Ht) as (s0 & A & S & Hs0 & Hk0 & HA0 & N).
  destruct (root_reads v A _ d (nd_data _ _ _ _ _ _ _ _ N) HA0) as (HlA & _). rewrite <- HlA. destruct k as [|k].
  - destruct ss as [|t ss]; [done|]. injection Hk as <-. injection Hs0 as <-. by eapply get_block0_at.
  - replace (Z.of_nat (Datatypes.S k)) with (1 + Z.of_nat k) by lia. apply (get_block_at sb _ _ _ _ _ _ _ N k (kv s)). by rewrite list_lookup_fmap, lookup_tail, Hk.
Qed.

Lemma slot_key_at v d ss k s : htree v d ss -> ss !! S k = Some s -> dx_get_hash 0 32 (Z.of_nat k + 1) d = Ret (s_key s) d.
Proof.
  intros Ht Hk. destruct (ht_root _ _ _ Ht) as (s0 & A & S & Hs0 & Hk0 & HA0 & N).
  destruct (root_reads v A _ d (nd_data _ _ _ _ _ _ _ _ N) HA0) as (HlA & _). rewrite <- HlA, Z.add_comm.
  apply (get_hash_at sb _ _ _ _ _ _ _ N k (kv s)). by rewrite list_lookup_fmap, lookup_tail, Hk.
Qed.

Lemma slot_count_at v d ss : htree v d ss -> dx_get_count 0 32 d = Ret (Z.of_nat (length ss)) d /\ dx_get_limit 0 32 d = Ret (dx_root_limit sb sizeof_root_info) d.
Proof.
  intros Ht. destruct (ht_root _ _ _ Ht) as (s0 & A & S & Hs0 & Hk0 & HA0 & N).
  destruct (root_reads v A _ d (nd_data _ _ _ _ _ _ _ _ N) HA0) as (HlA & _). rewrite <- HlA. split; [|by eapply get_limit_at].
  rewrite (get_count_at sb _ _ _ _ _ _ _ N). f_equal. rewrite length_fmap. destruct ss; [done|]. simpl. lia.
Qed.

Lemma slot_key_range v d ss i s : htree v d ss -> ss !! i = Some s -> 0 <= s_key s < 2 ^ 32.
Proof.
  intros Ht Hi. destruct (ht_root _ _ _ Ht) as (s0 & A & S & Hs0 & Hk0 & HA0 & N). destruct i as [|i].
  - destruct ss as [|t ss]; [done|]. injection Hi as <-. injection Hs0 as <-. lia.
  - apply (Forall_lookup_1 _ _ i (kv s) (nd_xs _ _ _ _ _ _ _ _ N)). by rewrite list_lookup_fmap, lookup_tail, Hi.
Qed.

(** An odd key and the even one below it are keys of the same hash. *)
Lemma clear_low_bit k : 0 <= k < 2 ^ 32 -> Z.land k (u32 (Z.lnot 1)) = 2 * (k / 2).
Proof.
  intros Hk. change (u32 (Z.lnot 1)) with (Z.land (Z.ones 32) (Z.lnot (Z.ones 1))). rewrite Z.land_assoc, Z.land_ones, Z.mod_small by lia.
  rewrite <- Z.ldiff_land, Z.ldiff_ones_r, Z.shiftl_mul_pow2, Z.shiftr_div_pow2 by lia. change (2 ^ 1) with 2. lia.
Qed.

Lemma same_hash k h : 0 <= k < 2 ^ 32 -> Z.even h = true -> h < k -> (Z.land k (u32 (Z.lnot 1)) =? h) = (k =? h + 1).
Proof.
  intros Hk He Hlt. rewrite clear_low_bit by done. apply Z.even_spec in He as [q ->].
  pose proof (Z.div_mod k 2). pose proof (Z.mod_pos_bound k 2). apply eq_true_iff_eq. rewrite !Z.eqb_eq. lia.
Qed.

(** ** Looking up *)

(** An entry with the name in the leaf of a slot. *)
Definition slot_entry (ss : list slot) (n : list Z) (bh de : Z) : Prop :=
  exists i s pre e post, ss !! i = Some s /\ bh = s_block s /\ s_es s = pre ++ e :: post /\ de = off pre /\ named n e.

Definition dx_lookup_result (ss : list slot) (n : list Z) (r : Z + option (Z * Z)) : Prop :=
  match r with
  | inl err => ERR_BAD_DX_DIR < err < 0 /\ exists b, unreadable b
  | inr (Some (bh, de)) => slot_entry ss n bh de
  | inr None => n ∉ (slot_entries ss).*1
  end.

(** A name with the hash is in the slot of the hash, or behind it in slots
    with the odd key of the hash. *)
Lemma name_slot v d ss n p i s : htree v d ss -> slot_at ss (hash_in v n) p -> ss !! i = Some s -> n ∈ (entries (s_es s)).*1 ->
  (p <= i)%nat /\ forall j t, (p < j <= i)%nat -> ss !! j = Some t -> s_key t = hash_in v n + 1.
Proof.
  intros Ht [Hp Hsl] Hi Hn. destruct (ht_range _ _ _ Ht i s n Hi Hn) as [Hlo Hhi]. split.
  - destruct (decide (p <= i)%nat) as [|Hlt]; [done|]. exfalso. destruct (lookup_lt_is_Some_2 ss (S i) ltac:(lia)) as [t Et].
    pose proof (Hsl _ _ Et) as Hk. rewrite decide_True in Hk by lia. specialize (Hhi t Et). lia.
  - intros j t Hj Et. pose proof (Hsl _ _ Et) as Hk. rewrite decide_False in Hk by lia. pose proof (ht_sorted _ _ _ Ht j i t s ltac:(lia) Et Hi). lia.
Qed.

Lemma next_slot_at v d ss k : htree v d ss -> (k < length ss)%nat ->
  forall hash, Z.even hash = true -> (forall t, ss !! S k = Some t -> hash < s_key t) ->
  ext4_htree_next_block sb hash [mk_frame 0 32 (Z.of_nat k)] d =
    Ret (inr (match ss !! S k with
              | Some t => if s_key t =? hash + 1 then Some [mk_frame 0 32 (Z.of_nat (S k))] else None
              | None => None
              end)) d.
Proof.
  intros Ht Hk hash He Hlt. unfold ext4_htree_next_block. destruct (slot_count_at v d ss Ht) as [Hc _]. cbn [rev app next_up].
  unfold update. cbn [fr_bh fr_entries fr_at]. rewrite bind_assoc, (bind_Ret _ _ _ _ _ Hc). destruct (ss !! S k) as [t|] eqn:Et.
  - apply lookup_lt_Some in Et as Hl. destruct (Z.ltb_spec (Z.of_nat k + 1) (Z.of_nat (length ss))); [|lia].
    rewrite bind_ret. cbv beta iota. cbn [fr_bh fr_entries fr_at]. rewrite (bind_Ret _ _ _ _ _ (slot_key_at v d ss k t Ht Et)).
    assert (E1 : (Z.land hash 1 =? 0) = true).
    { change 1 with (Z.ones 1). rewrite Z.land_ones by lia. apply Z.even_spec in He as [q ->]. rewrite Z.mul_comm. by rewrite Z.mod_mul. }
    rewrite E1, (same_hash _ _ (slot_key_range v d ss _ _ Ht Et) He (Hlt t eq_refl)). cbn [andb].
    destruct (s_key t =? hash + 1); cbn [negb]; [|done]. cbn [next_down rev app]. rewrite bind_ret. cbv beta iota. by replace (Z.of_nat k + 1) with (Z.of_nat (S k)) by lia.
  - apply lookup_ge_None in Et. destruct (Z.ltb_spec (Z.of_nat k + 1) (Z.of_nat (length ss))); [lia|]. done.
Qed.

Lemma dx_find_loop_at v n p fname (h := hash_in v n) : disk_name fname = n -> hi_hash (hinfo fname) = h ->
  forall fuel d ss k, htree v d ss -> slot_at ss h p -> (p <= k < length ss)%nat -> (length ss - k < fuel)%nat ->
  (forall i s, (p <= i < k)%nat -> ss !! i = Some s -> n ∉ (entries (s_es s)).*1) ->
  runs (dx_find_loop sb fuel fname [mk_frame 0 32 (Z.of_nat k)]) d (fun r d' => same sb d d' /\ dx_lookup_result ss n r).
Proof.
  intros Hnm Hh fuel. induction fuel as [|fuel IH]; intros d ss k Ht Hp Hk Hf Hno; [lia|]. cbn [dx_find_loop last].
  destruct (lookup_lt_is_Some_2 ss k ltac:(lia)) as [s Es]. cbn [fr_bh fr_entries fr_at].
  eapply runs_bind, runs_intro; [by eapply slot_block_at|]. destruct (ht_leaf _ _ _ Ht s) as (Hl & Hv & _ & Hb0); [by eapply list_elem_of_lookup_2|].
  apply runs_bind. eapply runs_conseq; [apply (read_leaf_at (s_block s) d _ Hl Hv (ht_dx _ _ _ Ht)); lia|]. intros r d1 [Hs [->|(Hu & err & -> & Herr)]].
  2:{ apply runs_ret. split; [done|]. split; [done|]. by exists (s_block s). }
  assert (Ht1 : htree v d1 ss) by by eapply htree_same. assert (Hl1 : leaf sb (s_block s) d1 (s_es s)) by (eapply leaf_frame; [apply (sm_data _ _ _ Hs)|done]).
  cbv beta iota. rewrite Hnm. eapply runs_bind, runs_intro; [by apply search_leaf_at|]. destruct (find_named n (s_es s)) as [o|] eqn:Ef.
  { apply runs_ret. split; [done|]. apply find_named_Some in Ef as (pre & e & post & Ees & -> & Hn). by exists k, s, pre, e, post. }
  apply find_named_None in Ef. change (0 =? -1) with false. cbv beta iota.
  assert (Hgt : forall t, ss !! S k = Some t -> h < s_key t).
  { intros t Et. pose proof (proj2 Hp _ _ Et) as Hkt. by rewrite decide_False in Hkt by lia. }
  destruct (hash_in_range v n) as [_ Heven]. rewrite Hh.
  eapply runs_bind, runs_intro; [apply (next_slot_at v d1 ss k Ht1 (proj2 Hk) h Heven Hgt)|].
  assert (Hno' : forall i s, (p <= i < S k)%nat -> ss !! i = Some s -> n ∉ (entries (s_es s)).*1).
  { intros i t Hi Et. destruct (decide (i = k)) as [->|]; [by simplify_eq|]. apply (Hno i t); [lia|done]. }
  assert (Hnone : (forall i s, (S k <= i)%nat -> ss !! i = Some s -> n ∉ (entries (s_es s)).*1) -> n ∉ (slot_entries ss).*1).
  { intros Hbig Hin. apply slot_entries_elem in Hin as (t & Hin & Hn). apply list_elem_of_lookup_1 in Hin as [i Et].
    destruct (name_slot v d1 ss n p i t Ht1 Hp Et Hn) as [Hpi _]. destruct (decide (S k <= i)%nat); [by eapply Hbig|]. apply (Hno' i t); [lia|done|done]. }
  destruct (ss !! S k) as [t|] eqn:Et.
  - destruct (Z.eqb_spec (s_key t) (h + 1)) as [E|E].
    + eapply runs_conseq; [apply IH; [done|done|apply lookup_lt_Some in Et; lia|lia|done]|]. intros r d2 [Hs2 Hr]. split; [by eapply same_trans|done].
    + apply runs_ret. split; [done|]. apply Hnone. intros i x Hi Ex Hn. destruct (name_slot v d1 ss n p i x Ht1 Hp Ex Hn) as [_ Hall].
      apply E. apply (Hall (S k)); [lia|done].
  - apply runs_ret. split; [done|]. apply Hnone. intros i x Hi Ex. apply lookup_lt_Some in Ex. apply lookup_ge_None in Et. lia.
Qed.

Lemma data_bound b d x : data b d = Some x -> 0 <= b < Z.of_nat (length (d_bufs d)).
Proof. intros Hd. pose proof (data_nonneg _ _ _ Hd). unfold data, buf_at in Hd. destruct (b <? 0); [done|]. destruct (d_bufs d !! _) eqn:E; [|done]. apply lookup_lt_Some in E. lia. Qed.

Lemma slots_count v d ss : htree v d ss -> (length ss < length (d_bufs d))%nat.
Proof.
  intros Ht. assert (Hsub : (s_block <$> ss) ⊆+ seqZ 1 (Z.of_nat (length (d_bufs d)) - 1)).
  { apply NoDup_submseteq; [apply (ht_blocks _ _ _ Ht)|]. intros b Hb. apply list_elem_of_fmap in Hb as (s & -> & Hs).
    destruct (ht_leaf _ _ _ Ht s Hs) as ([(c & _ & Hd) _ _] & _ & _ & H0). apply data_bound in Hd. apply elem_of_seqZ. lia. }
  apply submseteq_length in Hsub. rewrite length_fmap, length_seqZ in Hsub. destruct (ht_root _ _ _ Ht) as (s0 & A & S & _ & _ & _ & N).
  pose proof (data_bound _ _ _ (nd_data _ _ _ _ _ _ _ _ N)). lia.
Qed.

Lemma dx_find_at v d ss n : htree v d ss ->
  runs (ext4_dx_find_entry sb (mk_fname n no_hinfo)) d (fun r d' => same sb d d' /\ dx_lookup_result ss n r).
Proof.
  intros Ht. pose proof (slots_count v d ss Ht) as Hlen. unfold ext4_dx_find_entry. apply runs_bind. eapply runs_conseq; [by apply probe_at|].
  intros r d1 [Hs [(err & -> & Herr & Hu)|(k & -> & Hk)]].
  { apply runs_ret. split; [done|]. split; [done|]. by exists 0. }
  cbv beta iota. apply runs_bind, runs_gets. rewrite (sm_count _ _ _ Hs).
  eapply runs_conseq; [apply (dx_find_loop_at v n k); [done|done|by eapply htree_same|done|split; [done|apply Hk]|lia|intros i s Hi; lia]|].
  intros r d2 [Hs2 Hr]. split; [by eapply same_trans|done].
Qed.

(** ** Changing one leaf *)

Definition slot_range (v : Z) (ss : list slot) (k : nat) (s : slot) (n : list Z) : Prop :=
  s_key s <= hash_in v n + 1 /\ forall t, ss !! S k = Some t -> hash_in v n < s_key t.

Lemma block_ne v d ss i j s t : htree v d ss -> ss !! i = Some s -> ss !! j = Some t -> i <> j -> s_block s <> s_block t.
Proof.
  intros Ht Hi Hj Hne E. apply Hne. eapply (NoDup_lookup _ i j (s_block s) (ht_blocks _ _ _ Ht)); rewrite list_lookup_fmap; [by rewrite Hi|by rewrite Hj, E].
Qed.

Lemma head_insert {A} (l : list A) k x y : l !! k = Some x -> head (<[k := y]> l) = if decide (k = 0%nat) then Some y else head l.
Proof. destruct l as [|a l]; [done|]. by destruct k. Qed.
Lemma tail_insert {A} (l : list A) k y : tail (<[k := y]> l) = match k with O => tail l | S k => <[k := y]> (tail l) end.
Proof. destruct l as [|a l]; [by destruct k|]. by destruct k. Qed.

Lemma htree_change v d d' ss k s es' (s' := mk_slot (s_key s) (s_block s) es') :
  htree v d ss -> ss !! k = Some s -> leaf sb (s_block s) d' es' -> verifies sb (s_block s) d' -> tidy es' -> only sb (s_block s) d d' ->
  (forall n, n ∈ (entries es').*1 -> slot_range v ss k s n) -> htree v d' (<[k := s']> ss).
Proof.
  intros Ht Hk Hl Hv Htd Ho Hr. pose proof (lookup_lt_Some _ _ _ Hk) as Hlt.
  destruct (ht_leaf _ _ _ Ht s) as (_ & _ & _ & Hb); [by eapply list_elem_of_lookup_2|].
  assert (Hat : forall i t, <[k := s']> ss !! i = Some t -> exists u, ss !! i = Some u /\ kv t = kv u /\ (i = k -> t = s') /\ (i <> k -> t = u)).
  { intros i t Hi. apply list_lookup_insert_Some in Hi as [(-> & <- & _)|(Hne & Hi)]; [by exists s|]. exists t. split; [done|]. split; [done|]. split; [intros Hx; by destruct Hne|done]. }
  assert (Hnext : forall i t, <[k := s']> ss !! i = Some t -> exists u, ss !! i = Some u /\ s_key t = s_key u).
  { intros i t Hi. destruct (Hat i t Hi) as (u & Hu & E & _). injection E as E _. by exists u. }
  assert (Hkv : kv <$> <[k := s']> ss = kv <$> ss).
  { rewrite list_fmap_insert. apply list_insert_id. by rewrite list_lookup_fmap, Hk. }
  assert (Hd : forall b, b <> s_block s -> data b d' = data b d) by (intros b Hne; unfold data; by rewrite (on_bufs _ _ _ _ Ho)).
  pose proof Ht as [H1 (s0 & A & S & Hs0 & Hk0 & HA0 & N) Hsum Hlf Hnd Hsz Hdx Hso Hrg]. split; [done| | | | | | | |].
  - assert (exists s1, head (<[k := s']> ss) = Some s1 /\ kv s1 = kv s0) as (s1 & Eh & Ek).
    { rewrite (head_insert _ _ _ _ Hk). case_decide as E; [|by exists s0]. subst k. destruct ss as [|u ss]; [done|]. injection Hk as ->. injection Hs0 as <-. exists s'. done. }
    injection Ek as Ek1 Ek2. exists s1, A, S. rewrite Ek1, Ek2. split; [done|]. split; [done|]. split; [done|].
    replace (kv <$> tail (<[k := s']> ss)) with (kv <$> tail ss); [eapply node_data; [apply Hd; lia|exact N]|].
    by rewrite !fmap_tail, Hkv.
  - intros d2 E2. apply Hsum. rewrite E2. apply Hd. lia.
  - intros t Hin. apply list_elem_of_lookup_1 in Hin as [i Hi]. destruct (Hat i t Hi) as (u & Hu & E & Hik & Hik'). destruct (decide (i = k)) as [Eik|Eik].
    + rewrite (Hik Eik). done.
    + rewrite (Hik' Eik). destruct (Hlf u) as (L1 & L2 & L3 & L4); [by eapply list_elem_of_lookup_2|].
      assert (Ed : data (s_block u) d' = data (s_block u) d) by (apply Hd; by eapply block_ne).
      split; [by eapply leaf_frame|]. split; [by eapply verifies_frame|done].
  - assert (E : s_block <$> <[k := s']> ss = s_block <$> ss); [|by rewrite E]. change s_block with (snd ∘ kv). by rewrite !list_fmap_compose, Hkv.
  - by rewrite (on_size _ _ _ _ Ho), (on_count _ _ _ _ Ho).
  - by rewrite (on_dx _ _ _ _ Ho).
  - intros i j t1 t2 Hij Hi Hj. destruct (Hnext _ _ Hi) as (u1 & Hu1 & ->). destruct (Hnext _ _ Hj) as (u2 & Hu2 & ->). by eapply Hso.
  - intros i t n Hi Hn. destruct (Hat i t Hi) as (u & Hu & E & Hik & Hik'). destruct (decide (i = k)) as [Eik|Eik].
    + rewrite (Hik Eik) in *. subst i. destruct (Hr n Hn) as [R1 R2]. split; [done|]. intros t2 Ht2. destruct (Hnext _ _ Ht2) as (u2 & Hu2 & ->). by apply R2.
    + rewrite (Hik' Eik) in *. destruct (Hrg i u n Hu Hn) as [R1 R2]. split; [done|]. intros t2 Ht2. destruct (Hnext _ _ Ht2) as (u2 & Hu2 & ->). by apply R2.
Qed.

Lemma slot_entries_change ss k s key b es' x : ss !! k = Some s -> entries es' ≡ₚ x :: entries (s_es s) ->
  slot_entries (<[k := mk_slot key b es']> ss) ≡ₚ x :: slot_entries ss.
Proof.
  intros Hk Hp. unfold slot_entries. rewrite list_fmap_insert. apply (entries_insert _ _ (s_es s)); [by rewrite list_lookup_fmap, Hk|done].
Qed.

(** ** Deleting *)

Lemma dx_delete_at v d ss n bh de : htree v d ss -> slot_entry ss n bh de ->
  runs (ext4_delete_entry sb de bh) d (fun r d' => (r = 0 \/ r = - EIO /\ ds_needs_sync sb = true /\ sync_fails bh = true) /\
    exists ss' ino, htree v d' ss' /\ (n, ino) :: slot_entries ss' ≡ₚ slot_entries ss).
Proof.
  intros Ht (k & s & pre & e & post & Hk & -> & Ees & -> & Hlive & Hname).
  destruct (ht_leaf _ _ _ Ht s) as (Hl & _ & Htd & _); [by eapply list_elem_of_lookup_2|]. rewrite Ees in Hl, Htd.
  eapply runs_conseq; [by apply delete_at|]. intros r d' (Hl' & He & Hv' & Ho & Hr). split.
  { destruct (ds_needs_sync sb), (sync_fails (s_block s)); naive_solver. }
  assert (Hent : (n, e_ino e) :: entries (drop_entry pre e post) ≡ₚ entries (s_es s)).
  { rewrite He, Ees, !entries_app, entries_live, Hname by done. by rewrite Permutation_middle. }
  exists (<[k := mk_slot (s_key s) (s_block s) (drop_entry pre e post)]> ss), (e_ino e). split.
  - eapply htree_change; [done|done|done|done|by apply drop_entry_tidy|done|]. intros m Hm. apply (ht_range _ _ _ Ht k s m Hk).
    rewrite <- Hent. by apply elem_of_cons; right.
  - assert (Hk' : <[k := mk_slot (s_key s) (s_block s) (drop_entry pre e post)]> ss !! k = Some (mk_slot (s_key s) (s_block s) (drop_entry pre e post))).
    { apply list_lookup_insert_eq. by eapply lookup_lt_Some. }
    rewrite <- (slot_entries_change _ k _ (s_key s) (s_block s) (s_es s) (n, e_ino e) Hk' (symmetry Hent)), list_insert_insert_eq.
    rewrite list_insert_id; [done|]. rewrite Hk. by destruct s.
Qed.

(** ** A new slot *)

Lemma split_lookup {A} (l : list A) k s a b i t : l !! k = Some s -> (take k l ++ a :: b :: drop (S k) l) !! i = Some t ->
  (i < k)%nat /\ l !! i = Some t \/ i = k /\ t = a \/ i = S k /\ t = b \/ (S k < i)%nat /\ l !! pred i = Some t.
Proof.
  intros Hk Hi. pose proof (lookup_lt_Some _ _ _ Hk) as Hlt. destruct (decide (i < k)%nat) as [Hl|Hl].
  - left. rewrite lookup_app_l, lookup_take_lt in Hi by (rewrite ?length_take; lia). done.
  - right. rewrite lookup_app_r in Hi by (rewrite length_take; lia). rewrite length_take, Nat.min_l in Hi by lia.
    destruct (i - k)%nat as [|[|m]] eqn:E; cbn in Hi.
    + left. injection Hi as <-. split; [lia|done].
    + right. left. injection Hi as <-. split; [lia|done].
    + right. right. split; [lia|]. change (drop (S k) l !! m = Some t) in Hi. rewrite lookup_drop in Hi. rewrite <- Hi. f_equal. lia.
Qed.

Lemma split_tail ss k s a b : ss !! k = Some s -> kv a = kv s -> kv <$> tail (take k ss ++ a :: b :: drop (S k) ss) = insert_after k (kv b) (kv <$> tail ss).
Proof.
  intros Hk Ha. destruct ss as [|s0 ss]; [done|]. destruct k as [|k]; [done|]. change (ss !! k = Some s) in Hk. cbn [take app tail drop].
  unfold insert_after. rewrite <- fmap_take, <- fmap_drop, (take_S_r _ _ _ Hk), !fmap_app, <- app_assoc. cbn [fmap list_fmap app]. by rewrite Ha.
Qed.

Lemma split_blocks ss k s a b : ss !! k = Some s -> s_block a = s_block s -> s_block <$> (take k ss ++ a :: b :: drop (S k) ss) ≡ₚ s_block b :: (s_block <$> ss).
Proof.
  intros Hk Ha. rewrite <- (take_drop_middle _ _ _ Hk) at 3. rewrite !fmap_app. cbn [fmap list_fmap]. rewrite Ha. 
  change (s_block s :: s_block b :: ?l) with ([s_block s] ++ s_block b :: l). rewrite app_assoc, <- Permutation_middle, <- app_assoc. done.
Qed.

Lemma appended_frame d d' L b x : outside sb L (appended sb (Z.of_nat (length (d_bufs d))) d) d' -> b ∉ L -> data b d = Some x -> data b d' = Some x.
Proof.
  intros HO Hb Hd. pose proof (data_bound _ _ _ Hd). unfold data in *. rewrite (os_bufs _ _ _ _ HO b Hb), appended_old by lia. done.
Qed.

Lemma appended_size d d' L : outside sb L (appended sb (Z.of_nat (length (d_bufs d))) d) d' ->
  Z.shiftr (d_size d) (ds_blocksize_bits sb) = Z.of_nat (length (d_bufs d)) -> Z.shiftr (d_size d') (ds_blocksize_bits sb) = Z.of_nat (length (d_bufs d')).
Proof.
  intros HO. rewrite (os_size _ _ _ _ HO), (os_count _ _ _ _ HO). unfold appended, update. cbn. rewrite length_app. cbn [length].
  pose proof dg_bits_pos. pose proof dg_bits as Hb. pose proof dg_block. rewrite !Z.shiftr_div_pow2 by lia. rewrite <- Hb. intros E.
  replace (d_size d + blocksize) with (d_size d + 1 * blocksize) by lia. rewrite Z.div_add by lia. lia.
Qed.

Section newslot.
Context (v : Z) (d d' : dir_st) (ss : list slot) (k : nat) (s : slot) (key : Z) (f1 f2 : list dent).
#[local] Abbreviation new := (Z.of_nat (length (d_bufs d))).
#[local] Abbreviation low := (mk_slot (s_key s) (s_block s) f1).
#[local] Abbreviation high := (mk_slot key new f2).

(** What is known of the two leaves of a split. *)
Record leaves : Prop := {
  lv_low : leaf sb (s_block s) d' f1 /\ verifies sb (s_block s) d' /\ tidy f1;
  lv_high : leaf sb new d' f2 /\ verifies sb new d' /\ tidy f2;
  lv_key : s_key s <= key /\ forall t, ss !! S k = Some t -> key <= s_key t;
  lv_lows : forall n, n ∈ (entries f1).*1 -> s_key s <= hash_in v n + 1 /\ hash_in v n < key;
  lv_highs : forall n, n ∈ (entries f2).*1 -> key <= hash_in v n + 1 /\ forall t, ss !! S k = Some t -> hash_in v n < s_key t;
}.

Lemma htree_split s0 A S : htree v d ss -> ss !! k = Some s -> leaves -> head ss = Some s0 -> s_key s0 = 0 -> root_bytes v A ->
  node sb 0 A (dx_root_limit sb sizeof_root_info) (s_block s0) (insert_after k (key, new) (kv <$> tail ss)) S d' -> dx_verifies sb 0 d' ->
  outside sb [s_block s; new; 0] (appended sb new d) d' -> htree v d' (take k ss ++ low :: high :: drop (Datatypes.S k) ss).
Proof.
  intros Ht Hk [(L1 & L2 & L3) (R1 & R2 & R3) [Hkey1 Hkey2] Hlo Hhi] Hs0 Hk0 HA0 N Hsum HO.
  pose proof Ht as [H1 _ _ Hlf Hnd Hsz Hdx Hso Hrg]. pose proof (lookup_lt_Some _ _ _ Hk) as Hlt.
  assert (Hblk : forall t, t ∈ ss -> 0 < s_block t < new).
  { intros t Hin. destruct (Hlf t Hin) as ([(c & _ & Hd) _ _] & _ & _ & H0). apply data_bound in Hd. lia. }
  pose proof (Hblk s ltac:(by eapply list_elem_of_lookup_2)) as Hbs.
  assert (Hkeep : forall i t, i <> k -> ss !! i = Some t -> leaf sb (s_block t) d' (s_es t) /\ verifies sb (s_block t) d' /\ tidy (s_es t) /\ 0 < s_block t).
  { intros i t Hne Hi. assert (Hin : t ∈ ss) by by eapply list_elem_of_lookup_2. pose proof (Hblk t Hin). destruct (Hlf t Hin) as (T1 & T2 & T3 & T4).
    assert (Ed : data (s_block t) d' = data (s_block t) d).
    { destruct T1 as [(c & _ & Hd) _ _]. rewrite Hd. eapply appended_frame; [exact HO| |done]. pose proof (block_ne v d ss i k t s Ht Hi Hk Hne). set_solver by lia. }
    split; [by eapply leaf_frame|]. split; [by eapply verifies_frame|done]. }
  split; [done| |done| | | | | |].
  - assert (exists s1, head (take k ss ++ low :: high :: drop (Datatypes.S k) ss) = Some s1 /\ kv s1 = kv s0) as (s1 & Eh & Ek).
    { destruct ss as [|u ss']; [done|]. injection Hs0 as ->. destruct k as [|k']; cbn [take app head]; [|by exists s0]. injection Hk as <-. by exists (mk_slot (s_key s0) (s_block s0) f1). }
    injection Ek as E1 E2. exists s1, A, S. rewrite E1, E2, (split_tail ss k s low high Hk eq_refl). done.
  - intros t Hin. apply list_elem_of_lookup_1 in Hin as [i Hi]. destruct (split_lookup _ _ _ _ _ _ _ Hk Hi) as [[? Hu]|[[-> ->]|[[-> ->]|[? Hu]]]].
    + eapply Hkeep; [|exact Hu]. lia.
    + cbn. split; [done|]. split; [done|]. split; [done|]. lia.
    + cbn. split; [done|]. split; [done|]. split; [done|]. lia.
    + eapply Hkeep; [|exact Hu]. lia.
  - rewrite (split_blocks ss k s low high Hk eq_refl). apply NoDup_cons. split; [|done]. cbn [s_block]. intros Hin.
    apply list_elem_of_fmap in Hin as (t & E & Hin). pose proof (Hblk t Hin). lia.
  - by eapply appended_size.
  - rewrite (os_dx _ _ _ _ HO). done.
  - intros i j t1 t2 Hij Hi Hj. 
    assert (Hge : forall i t, (i <= k)%nat -> ss !! i = Some t -> s_key t <= s_key s) by (intros i0 t Hi0 Et; by apply (Hso i0 k)).
    assert (Hle : forall i t, (Datatypes.S k <= i)%nat -> ss !! i = Some t -> key <= s_key t).
    { intros i0 t Hi0 Et. destruct (lookup_lt_is_Some_2 ss (Datatypes.S k)) as [u Eu]; [apply lookup_lt_Some in Et; lia|].
      pose proof (Hkey2 u Eu). pose proof (Hso _ _ _ _ Hi0 Eu Et). lia. }
    destruct (split_lookup _ _ _ _ _ _ _ Hk Hi) as [[? Hu]|[[-> ->]|[[-> ->]|[? Hu]]]], (split_lookup _ _ _ _ _ _ _ Hk Hj) as [[? Hw]|[[-> ->]|[[-> ->]|[? Hw]]]]; cbn [s_key]; try lia.
    all: try (match type of Hu with _ !! ?x = _ => pose proof (Hge x _ ltac:(lia) Hu) end).
    all: try (match type of Hw with _ !! ?x = _ => pose proof (Hle x _ ltac:(lia) Hw) end); try lia.
    all: eapply Hso; [|eassumption|eassumption]; lia.
  - intros i t n Hi Hn. assert (Hnext : forall t2, (take k ss ++ low :: high :: drop (Datatypes.S k) ss) !! Datatypes.S i = Some t2 ->
      (Datatypes.S i < k)%nat /\ ss !! Datatypes.S i = Some t2 \/ Datatypes.S i = k /\ t2 = low \/ i = k /\ t2 = high \/ (k < i)%nat /\ ss !! i = Some t2).
    { intros t2 H2. destruct (split_lookup _ _ _ _ _ _ _ Hk H2) as [[? Hw]|[[? ->]|[[? ->]|[? Hw]]]]; [by left|by right; left|right; right; left; split; [lia|done]|].
      right. right. right. split; [lia|done]. }
    destruct (split_lookup _ _ _ _ _ _ _ Hk Hi) as [[? Hu]|[[-> ->]|[[-> ->]|[? Hu]]]].
    + destruct (Hrg i t n Hu Hn) as [G1 G2]. split; [done|]. intros t2 H2. destruct (Hnext t2 H2) as [[? Hw]|[[E ->]|[[? _]|[? _]]]]; [by apply G2| |lia|lia].
      cbn. apply (G2 s). by rewrite E.
    + destruct (Hlo n Hn) as [G1 G2]. split; [done|]. intros t2 H2. destruct (Hnext t2 H2) as [[? _]|[[? _]|[[_ ->]|[? _]]]]; [lia|lia|done|lia].
    + destruct (Hhi n Hn) as [G1 G2]. split; [done|]. intros t2 H2. destruct (Hnext t2 H2) as [[? _]|[[? _]|[[? _]|[_ Hw]]]]; [lia|lia|lia|by apply G2].
    + destruct (Hrg (pred i) t n Hu Hn) as [G1 G2]. split; [done|]. intros t2 H2. destruct (Hnext t2 H2) as [[? _]|[[? _]|[[? _]|[? Hw]]]]; [lia|lia|lia|].
      apply G2. by replace (Datatypes.S (pred i)) with i by lia.
Qed.
End newslot.

(** ** Adding *)

Lemma hashed_name v n m : name_hash (hinfo (hashed v n)) m = hash_in v m.
Proof.
  set (v' := if v <=? DX_HASH_TEA then v + ds_hash_unsigned sb else v). set (h0 := no_hinfo <| hi_hash_version := v' |> <| hi_seed := ds_hash_seed sb |>).
  change (hash_in v m) with (name_hash h0 m). change (hinfo (hashed v n)) with (ext4fs_dirhash n h0).2.
  destruct (dirhash_keeps n h0) as [E1 E2]. by apply name_hash_ext.
Qed.

Lemma no_room n r es : n ∉ (entries es).*1 -> dest_of n r es = inl (- ENOSPC) -> Forall (fun e => ~ room r e) es.
Proof.
  intros Hn Hd. unfold dest_of in Hd. destruct (list_find _ es) as [[i e]|] eqn:El; [by case_decide|].
  apply list_find_None in El. eapply Forall_impl; [exact El|]. intros e He Hr. apply He. by right.
Qed.

Lemma tidy_off es : tidy es -> Forall (fun e => ~ room 264 e) es -> off es <= off (base.filter live es) + 264.
Proof.
  intros Ht Hr. destruct es as [|e es]; [change (off [] <= off [] + 264); lia|]. unfold tidy in Ht. cbn [tail] in Ht. inversion_clear Hr as [|?? He _].
  destruct (decide (live e)) as [Hl|Hl]; [rewrite filter_cons_True by done|rewrite filter_cons_False by done]; rewrite (filter_all _ es Ht), ?off_cons; [lia|].
  unfold room in He. unfold live in Hl. destruct (Z.eqb_spec (e_ino e) 0); [lia|]. by destruct Hl.
Qed.

(** With blocks of 2 KB and more, a leaf that is in use but for one entry, and
    whose entries are short, is divided into two parts. *)
Lemma short_not_lopsided es : 2048 <= blocksize -> blocksize - csum_size sb - 264 <= off (base.filter live es) ->
  Forall (fun e => live e -> e_rec e <= 816) es -> entries es <> [] /\ forall h, ~ lopsided sb h es.
Proof.
  intros Hbs Ho Hr. pose proof (csum_size_cases sb) as Hcs. split.
  - intros E. unfold entries in E. apply fmap_nil_inv in E. rewrite E, off_nil in Ho. lia.
  - intros h (e & rest & [Hp _] & Hc). unfold half_fits in Hc. rewrite (off_perm _ _ Hp), off_cons in Ho. assert (He : e ∈ base.filter live es) by (rewrite Hp; by left).
    apply list_elem_of_filter in He as [Hl He]. rewrite Forall_forall in Hr. specialize (Hr e He Hl).
    pose proof (Z.div_mod (e_rec e) 2). pose proof (Z.mod_pos_bound (e_rec e) 2). pose proof (Z.div_mod blocksize 2). pose proof (Z.mod_pos_bound blocksize 2). lia.
Qed.

(** An entry without room for the longest name is short. *)
Lemma no_room_short e : entry_ok e -> ~ room 264 e -> live e -> e_rec e < 264 + EXT4_DIR_REC_LEN (e_nlen e) /\ EXT4_DIR_REC_LEN (e_nlen e) <= 264.
Proof.
  intros He Hr Hl. unfold room in Hr. destruct (Z.eqb_spec (e_ino e) 0); [done|]. pose proof (rec_len_max (e_nlen e) ltac:(apply (do_nlen _ _ He))). lia.
Qed.

Lemma full_not_lopsided es : 2048 <= blocksize -> tidy es -> Forall entry_ok es -> off es = blocksize - csum_size sb ->
  Forall (fun e => ~ room 264 e) es -> entries es <> [] /\ forall h, ~ lopsided sb h es.
Proof.
  intros Hbs Ht Hok Hoff Hr. apply short_not_lopsided; [done|pose proof (tidy_off es Ht Hr); lia|]. rewrite Forall_forall in Hok, Hr |- *. intros e He Hl.
  pose proof (no_room_short e (Hok e He) (Hr e He) Hl). lia.
Qed.

(** The name was entered: what the directory holds then. *)
Definition dx_entered (v : Z) (n : list Z) (ino : Z) (ss : list slot) (d' : dir_st) : Prop :=
  exists ss', htree v d' ss' /\ slot_entries ss' ≡ₚ (n, ino) :: slot_entries ss.

Section split.
Context (v : Z) (d : dir_st) (ss : list slot) (k : nat) (s : slot) (Ht : htree v d ss) (Hk : ss !! k = Some s).
Context (n : list Z) (inode : dir_inode) (Hsl : slot_at ss (hash_in v n) k) (Hen : enterable sb n inode).
#[local] Abbreviation new := (Z.of_nat (length (d_bufs d))).

(** The name belongs into the slot. *)
Lemma here_range : slot_range v ss k s n.
Proof using Hk Hsl.
  destruct Hsl as [_ Hs]. pose proof (Hs k s Hk) as H0. rewrite decide_True in H0 by lia. split; [lia|]. intros t Et.
  pose proof (Hs _ _ Et) as H2. by rewrite decide_False in H2 by lia.
Qed.

(** The ranges of the two leaves of a split. *)
Lemma split_keys h es1 es2 hash2 c :
  (forall m, name_hash h m = hash_in v m) -> split_of h (s_es s) es1 es2 hash2 c -> entries es1 <> [] ->
  (s_key s <= hash2 + c /\ forall t, ss !! S k = Some t -> hash2 + c <= s_key t) /\
  (forall m, m ∈ (entries es1).*1 -> s_key s <= hash_in v m + 1 /\ hash_in v m < hash2 + c) /\
  (forall m, m ∈ (entries es2).*1 -> hash2 + c <= hash_in v m + 1 /\ forall t, ss !! S k = Some t -> hash_in v m < s_key t).
Proof using Ht Hk.
  intros Hh [Hp Hlo Hhi [Hh0 _] Hc (m0 & Hm0 & Em0)] Hnl. rewrite Hh in Em0.
  assert (Hall : forall m, m ∈ (entries es1).*1 \/ m ∈ (entries es2).*1 -> slot_range v ss k s m).
  { intros m Hm. apply (ht_range _ _ _ Ht k s m Hk). rewrite <- Hp, fmap_app. by apply elem_of_app. }
  destruct (Hall m0 (or_intror Hm0)) as [R1 R2]. split; [split|split].
  - destruct Hc as [-> | ->]; [|lia]. rewrite Z.add_0_r. destruct (entries es1) as [|x l] eqn:E1; [done|].
    assert (Hx : x.1 ∈ (x :: l).*1) by (cbn; by left). destruct (Hall x.1 (or_introl Hx)) as [R3 _].
    pose proof (Hlo _ Hx) as Hl. rewrite Hh in Hl. lia.
  - intros t Et. specialize (R2 t Et). lia.
  - intros m Hm. destruct (Hall m (or_introl Hm)) as [R3 _]. pose proof (Hlo m Hm) as Hl. rewrite Hh in Hl. split; [done|lia].
  - intros m Hm. destruct (Hall m (or_intror Hm)) as [_ R4]. pose proof (Hhi m Hm) as Hg. rewrite Hh in Hg. split; [lia|done].
Qed.

Lemma slot_entries_split es1 es2 key x f1 f2 :
  entries es1 ++ entries es2 ≡ₚ entries (s_es s) -> entries f1 ++ entries f2 ≡ₚ x :: entries es1 ++ entries es2 ->
  slot_entries (take k ss ++ mk_slot (s_key s) (s_block s) f1 :: mk_slot key new f2 :: drop (S k) ss) ≡ₚ x :: slot_entries ss.
Proof using Hk.
  intros Hp Hf. unfold slot_entries. rewrite <- (take_drop_middle _ _ _ Hk) at 3. rewrite !fmap_app, !concat_app, !entries_app. cbn [fmap list_fmap concat s_es].
  rewrite !entries_app, (app_assoc (entries f1)), Hf, Hp. cbn [app]. symmetry. apply Permutation_middle.
Qed.

(** The name is entered into one of the leaves of a split. *)
Lemma leaves_at D1 D2 es1 es2 hash2 c f1 f2 s0 A S S' (h := hinfo (hashed v n)) :
  head ss = Some s0 -> s_key s0 = 0 -> root_bytes v A -> node sb 0 A (dx_root_limit sb sizeof_root_info) (s_block s0) (kv <$> tail ss) S d ->
  did_split sb (s_block s) 0 A (dx_root_limit sb sizeof_root_info) (s_block s0) (kv <$> tail ss) k h (s_es s) d es1 es2 hash2 c D1 ->
  node sb 0 A (dx_root_limit sb sizeof_root_info) (s_block s0) (insert_after k (hash2 + c, new) (kv <$> tail ss)) S' D1 -> dx_verifies sb 0 D1 ->
  (forall L, s_block s ∈ L -> new ∈ L -> outside sb L D1 D2) -> data 0 D2 = data 0 D1 ->
  leaf sb (s_block s) D2 f1 -> verifies sb (s_block s) D2 -> tidy f1 -> leaf sb new D2 f2 -> verifies sb new D2 -> tidy f2 ->
  (if hash2 <=? hi_hash h then entries f1 = entries es1 /\ entries f2 ≡ₚ (n, i_ino inode) :: entries es2
   else entries f1 ≡ₚ (n, i_ino inode) :: entries es1 /\ entries f2 = entries es2) ->
  dx_entered v n (i_ino inode) ss D2.
Proof using Ht Hk Hsl Hen HG HL.
  intros Hs0 Hk0 HA0 N Hdid N1 Hx1 HO Hd0 L1 V1 T1 L2 V2 T2 Hf. pose proof (ds_split _ _ _ _ _ _ _ _ _ _ _ _ _ _ _ _ Hdid) as Hso.
  destruct (split_keys h es1 es2 hash2 c (hashed_name v n) Hso (ds_both _ _ _ _ _ _ _ _ _ _ _ _ _ _ _ _ Hdid)) as (Hkey & Hlo & Hhi).
  destruct here_range as [Hr1 Hr2]. change (hi_hash h) with (hash_in v n) in Hf. destruct Hkey as [Hkey1 Hkey2].
  pose proof (so_cont _ _ _ _ _ _ Hso) as Hc. pose proof (so_perm _ _ _ _ _ _ Hso) as Hp.
  eexists. split.
  - eapply (htree_split v d D2 ss k s (hash2 + c) f1 f2 s0 A S' Ht Hk); [|done|done|done|by eapply node_data|..].
    + split; [done|done|done| |]; intros m Hm; destruct (Z.leb_spec hash2 (hash_in v n)) as [Hle|Hgt]; destruct Hf as [Hf1 Hf2].
      * rewrite Hf1 in Hm. by apply Hlo.
      * rewrite Hf1 in Hm. apply elem_of_cons in Hm as [->|Hm]; [cbn; lia|by apply Hlo].
      * rewrite Hf2 in Hm. apply elem_of_cons in Hm as [->|Hm]; [cbn; split; [lia|done]|by apply Hhi].
      * rewrite Hf2 in Hm. by apply Hhi.
    + intros d2 E2. apply Hx1. by rewrite E2.
    + eapply outside_trans; [apply (ds_outside _ _ _ _ _ _ _ _ _ _ _ _ _ _ _ _ Hdid)|apply HO; set_solver].
  - eapply slot_entries_split; [exact Hp|]. destruct (hash2 <=? hash_in v n); destruct Hf as [Hf1 Hf2]; rewrite Hf1, Hf2; [|done].
    symmetry. apply Permutation_middle.
Qed.

Lemma room_le r r' e : r <= r' -> room r' e -> room r e.
Proof. unfold room. intros. lia. Qed.

Lemma split_add_at :
  entries (s_es s) <> [] -> (forall h, ~ lopsided sb h (s_es s)) ->
  Z.of_nat (length ss) < dx_root_limit sb sizeof_root_info -> new < 2 ^ 28 ->
  runs (r <-- do_split sb (s_block s) (mk_frame 0 32 (Z.of_nat k)) (hinfo (hashed v n)) ;;
        match r with
        | inl err => ret err
        | inr (de, bh) => add_dirent_to_buf sb n inode (Some de) bh
        end) d (fun r d' => r = 0 /\ dx_entered v n (i_ino inode) ss d' \/
    ERR_BAD_DX_DIR < r < 0 /\ (d' = d /\ (at_limit sb d \/ create_err new <> 0) \/ r = - EIO /\ ds_needs_sync sb = true)).
Proof using Ht Hk Hsl Hen HG HL.
  intros Hne Hnl Hroom Hnew. destruct (ht_root _ _ _ Ht) as (s0 & A & S & Hs0 & Hk0 & HA0 & N).
  destruct (root_reads v A _ d (nd_data _ _ _ _ _ _ _ _ N) HA0) as (HlA & _). rewrite <- HlA.
  destruct (ht_leaf _ _ _ Ht s) as (Hl & _ & Htd & Hb0); [by eapply list_elem_of_lookup_2|].
  pose proof (rec_len_max (Z.of_nat (length n)) ltac:(apply (en_name _ _ _ Hen))) as Hmax.
  assert (Hlen : length (kv <$> tail ss) = pred (length ss)) by (rewrite length_fmap; by destruct ss). pose proof (lookup_lt_Some _ _ _ Hk) as Hlt.
  apply runs_bind. eapply runs_conseq; [apply (do_split_at sb (s_block s) 0 A _ _ _ S k (hinfo (hashed v n)) (s_es s) d Hl ltac:(lia) Hne (Hnl _) (ht_size _ _ _ Ht) Hnew N); lia|].
  intros r D1 [(err & -> & Herr & -> & Hf)|(es1 & es2 & hash2 & c & Hdid & Hv & [[-> Hsync]|(de & -> & Hry & Hx1)])].
  { apply runs_ret. right. split; [done|]. left. done. }
  { apply runs_ret. right. split; [done|]. right. done. }
  pose proof Hdid as [Hlow Hhigh Hso (S' & N1) [Ht1 Ht2] _ _].
  assert (Hne0 : new <> 0) by (pose proof (data_bound _ _ _ (nd_data _ _ _ _ _ _ _ _ N)); lia).
  assert (Hnes : s_block s <> new) by (destruct Hl as [(c0 & _ & Hd0) _ _]; apply data_bound in Hd0; lia).
  assert (Hino : i_ino inode <> 0) by (pose proof (en_ino _ _ _ Hen); lia). cbv zeta in Hv, Hry.
  destruct (ry_last _ _ _ Hry) as (pre & e & Ees & -> & Hre). pose proof (room_le _ 264 e Hmax Hre) as Hre'.
  assert (Heq : forall f, f = pre ++ [e] -> Forall entry_ok f -> entries (pre ++ put_entry sb inode n e ++ []) ≡ₚ (n, i_ino inode) :: entries f).
  { intros f -> Hok. apply Forall_app in Hok as [_ Hok]. inversion_clear Hok as [|?? He _]. rewrite app_nil_r, !entries_app, (put_entry_entries sb) by done.
    symmetry. apply Permutation_middle. }
  destruct (hash2 <=? hi_hash (hinfo (hashed v n))) eqn:Eh.
  - rewrite Ees in Hhigh. eapply runs_conseq; [by apply (add_at sb new D1 pre e [] inode n)|]. intros r D2 (-> & Hl2 & Hv2 & Ho2). left. split; [done|].
    assert (Ed : data (s_block s) D2 = data (s_block s) D1) by (unfold data; by rewrite (on_bufs _ _ _ _ Ho2) by done).
    eapply (leaves_at D1 D2 es1 es2 hash2 c es1 (pre ++ put_entry sb inode n e ++ []) s0 A S S'); try done.
    + intros L _ HL2. by apply (outside_only sb L new).
    + unfold data. by rewrite (on_bufs _ _ _ _ Ho2) by done.
    + by eapply leaf_frame.
    + by eapply verifies_frame.
    + apply put_entry_tidy; [done|]. by rewrite <- Ees.
    + rewrite Eh. split; [done|]. apply Heq; [done|apply (ry_ok _ _ _ Hry)].
  - rewrite Ees in Hlow. eapply runs_conseq; [by apply (add_at sb (s_block s) D1 pre e [] inode n)|]. intros r D2 (-> & Hl2 & Hv2 & Ho2). left. split; [done|].
    assert (Ed : data new D2 = data new D1) by (unfold data; by rewrite (on_bufs _ _ _ _ Ho2) by done).
    eapply (leaves_at D1 D2 es1 es2 hash2 c (pre ++ put_entry sb inode n e ++ []) es2 s0 A S S'); try done.
    + intros L HL2 _. by apply (outside_only sb L (s_block s)).
    + unfold data. rewrite (on_bufs _ _ _ _ Ho2) by lia. done.
    + apply put_entry_tidy; [done|]. by rewrite <- Ees.
    + by eapply leaf_frame.
    + by eapply verifies_frame.
    + rewrite Eh. split; [|done]. apply Heq; [done|apply (ry_ok _ _ _ Hry)].
Qed.
End split.

Definition dx_failed (d : dir_st) : Prop :=
  at_limit sb d \/ create_err (Z.of_nat (length (d_bufs d))) <> 0 \/ exists b, unreadable b.

Lemma dx_add_at v d ss n inode :
  htree v d ss -> n ∉ (slot_entries ss).*1 -> enterable sb n inode -> 2048 <= blocksize ->
  Z.of_nat (length ss) < dx_root_limit sb sizeof_root_info -> Z.of_nat (length (d_bufs d)) < 2 ^ 28 ->
  runs (ext4_dx_add_entry sb (mk_fname n no_hinfo) inode) d (fun r d' => r = 0 /\ dx_entered v n (i_ino inode) ss d' \/
    ERR_BAD_DX_DIR < r < 0 /\ (htree v d' ss /\ dx_failed d \/ r = - EIO /\ ds_needs_sync sb = true)).
Proof.
  intros Ht Hn Hen Hbs Hroom Hnew. unfold ext4_dx_add_entry. change (2 * Z.to_nat EXT4_HTREE_LEVEL)%nat with 6%nat. cbn [dx_add_loop].
  apply runs_bind. eapply runs_conseq; [by apply probe_at|]. intros r d1 [Hs [(err & -> & Herr & Hu)|(k & -> & Hk)]].
  { apply runs_ret. right. split; [done|]. left. split; [by eapply htree_same|]. right. right. by exists 0. }
  assert (Ht1 : htree v d1 ss) by by eapply htree_same. destruct (lookup_lt_is_Some_2 ss k (proj1 Hk)) as [s Es]. cbv beta iota. cbn [last fr_bh fr_entries fr_at].
  eapply runs_bind, runs_intro; [by eapply slot_block_at|]. destruct (ht_leaf _ _ _ Ht1 s) as (Hl & Hv & Htd & Hb0); [by eapply list_elem_of_lookup_2|].
  apply runs_bind. eapply runs_conseq; [apply (read_leaf_at (s_block s) d1 _ Hl Hv (ht_dx _ _ _ Ht1)); lia|]. intros r d2 [Hs2 [->|(Hu & err & -> & Herr)]].
  2:{ apply runs_ret. right. split; [done|]. left. split; [by eapply htree_same|]. right. right. by exists (s_block s). }
  assert (Hs02 : same sb d d2) by by eapply same_trans. assert (Ht2 : htree v d2 ss) by by eapply htree_same.
  clear d1 Hs Hs2 Ht1 Hl Hv Htd. destruct (ht_leaf _ _ _ Ht2 s) as (Hl & Hv & Htd & _); [by eapply list_elem_of_lookup_2|]. cbv beta iota.
  change (disk_name (hashed v n)) with n.
  assert (Hns : n ∉ (entries (s_es s)).*1).
  { intros Hin. apply Hn, slot_entries_elem. exists s. split; [by eapply list_elem_of_lookup_2|done]. }
  apply runs_bind. eapply runs_conseq; [by apply add_dirent_at|]. intros r d3 Hr.
  destruct (dest_of_absent n (reclen n) (s_es s) Hns) as [E|[o E]]; rewrite E in Hr.
  2:{ destruct Hr as (-> & es' & Hl' & Hp & Hv' & Ho & pre & e & post & Ees & _ & ->).
      assert (Htd' : tidy (pre ++ put_entry sb inode n e ++ post)) by (apply put_entry_tidy; [pose proof (en_ino _ _ _ Hen); lia|by rewrite <- Ees]).
      set (es' := pre ++ _) in *. cbn [negb Z.eqb Z.opp ENOSPC]. apply runs_ret. left. split; [done|].
      exists (<[k := mk_slot (s_key s) (s_block s) es']> ss). split; [|by eapply slot_entries_change].
      apply (htree_change v d2 d3 ss k s es' Ht2 Es Hl' Hv' Htd' Ho). intros m Hm. rewrite Hp in Hm.
      apply elem_of_cons in Hm as [->|Hm]; [by apply (here_range v ss k s Es n)|by apply (ht_range _ _ _ Ht2 k s m)]. }
  destruct Hr as [-> ->]. rewrite Z.eqb_refl. cbn [negb]. destruct (slot_count_at v d2 ss Ht2) as [Ec El].
  eapply runs_bind, runs_intro; [exact Ec|]. eapply runs_bind, runs_intro; [exact El|]. destruct (Z.eqb_spec (Z.of_nat (length ss)) (dx_root_limit sb sizeof_root_info)); [lia|].
  apply runs_bind, runs_ret. cbv beta iota. rewrite <- (sm_count _ _ _ Hs02) in Hnew.
  pose proof (rec_len_max (Z.of_nat (length n)) ltac:(apply (en_name _ _ _ Hen))) as Hmax.
  assert (Hnr : Forall (fun e => ~ room 264 e) (s_es s)).
  { eapply Forall_impl; [by apply (no_room n)|]. intros e He Hr. apply He. by eapply room_le. }
  destruct (full_not_lopsided _ Hbs Htd (lf_ok _ _ _ _ Hl) (lf_off _ _ _ _ Hl) Hnr) as [Hne Hnl].
  eapply runs_conseq; [by apply (split_add_at v d2 ss k s Ht2 Es n inode Hk Hen Hne Hnl)|].
  intros r d3 [Hok|(Herr & [[-> Hf]|Hsync])]; [by left| |]; right; (split; [done|]); [|by right]. left. split; [done|].
  unfold dx_failed, at_limit in *. rewrite (sm_size _ _ _ Hs02), (sm_count _ _ _ Hs02) in Hf. tauto.
Qed.

Lemma dx_find_entry_at v d ss n : htree v d ss -> Z.of_nat (length n) < 256 -> n <> dot -> n <> dotdot ->
  runs (ext4_find_entry sb n) d (fun r d' => same sb d d' /\ dx_lookup_result ss n r).
Proof.
  intros Ht Hn H1 H2. unfold ext4_find_entry. destruct (Z.ltb_spec EXT4_NAME_LEN (Z.of_nat (length n))) as [Hgt|_]; [unfold EXT4_NAME_LEN in Hgt; lia|].
  rewrite !bool_decide_false by done. cbn [orb]. apply runs_bind, runs_intro with (a := d) (s' := d); [done|]. rewrite (ht_dx _ _ _ Ht).
  apply runs_bind, runs_bind. eapply runs_conseq; [by apply (dx_find_at v)|]. intros r d1 [Hs Hr]. apply runs_ret. destruct r as [err|r]; [|by apply runs_ret].
  pose proof Hr as [Herr _]. destruct (Z.eqb_spec err ERR_BAD_DX_DIR); [lia|]. by apply runs_ret.
Qed.
End htree.
