(* ===== verification/DirMake.v ===== *)
(** * mqfs: a full directory of one block becomes indexed

    [make_indexed_dir] moves the entries behind ".." to a new leaf, turns the
    first block into the root of an index and splits the leaf.  Directories as
    finite maps: of one block or with an index ([dir_holds]), and for looking
    up also linear ones of any number of blocks ([dir_maps]). *)

From stdpp Require Import sorting.
From S2P Require Import Prelude Dirent DirentFacts Dir DirFacts DirMap DirSplit DirHtree.

Section make.
Context `{HA : DirApi} {HL : DirLaws} (sb : dir_sb) {HG : dir_geo sb}.
#[local] Abbreviation entry_ok := (dent_ok (ds_inodes_count sb)).
#[local] Abbreviation blocksize := (ds_blocksize sb).
#[local] Abbreviation reclen n := (EXT4_DIR_REC_LEN (Z.of_nat (length n))).

(** ** The last entry *)

Lemma last_entry_at bh d G : forall post pre e fuel,
  data bh d = Some (lay (pre ++ e :: post) ++ G) -> Forall entry_ok (pre ++ e :: post) -> (length post < fuel)%nat ->
  last_entry fuel bh (off pre) (off (pre ++ e :: post)) d = Ret (off (removelast (pre ++ e :: post))) d.
Proof.
  induction post as [|e' post IH]; intros pre e fuel Hd Hok Hf; (destruct fuel as [|fuel]; [simpl in Hf; lia|]); cbn [last_entry].
  - assert (He : entry_ok e) by (apply Forall_app in Hok as [_ Hok]; by inversion Hok). rewrite lay_app, lay_cons, <- !app_assoc in Hd.
    rewrite (bind_Ret _ _ _ _ _ (next_entry_at sb bh d (lay pre) e _ (off pre) Hd He eq_refl)). autorewrite with dir.
    destruct (Z.ltb_spec (off pre + e_rec e) (off pre + (e_rec e + 0))); [lia|]. by rewrite removelast_last.
  - assert (He : entry_ok e) by (apply Forall_app in Hok as [_ Hok]; by inversion Hok). pose proof Hd as Hd'. rewrite lay_app, lay_cons, <- !app_assoc in Hd'.
    rewrite (bind_Ret _ _ _ _ _ (next_entry_at sb bh d (lay pre) e _ (off pre) Hd' He eq_refl)).
    assert (Hlt : off pre + e_rec e < off (pre ++ e :: e' :: post)) by (autorewrite with dir; pose proof (e_rec_pos e'); pose proof (off_nonneg post); lia).
    destruct (Z.ltb_spec (off pre + e_rec e) (off (pre ++ e :: e' :: post))); [|lia].
    specialize (IH (pre ++ [e]) e' fuel). rewrite <- app_assoc in IH. cbn [app] in IH. replace (off pre + e_rec e) with (off (pre ++ [e])) by (autorewrite with dir; lia).
    apply IH; [done|done|simpl in Hf; lia].
Qed.

(** ** The new leaf *)

Lemma make_leaf_at bh d x l p :
  data bh d = Some x -> Z.of_nat (length x) = blocksize -> Forall entry_ok (l ++ [p]) -> Forall live (l ++ [p]) ->
  off (l ++ [p]) + csum_size sb <= blocksize -> let len := off (l ++ [p]) in
  exists es b, (write_bytes bh 0 (lay (l ++ [p])) ;;;
      de <-- last_entry (S (Z.to_nat blocksize)) bh 0 len ;;
      set_rec_len bh de (blocksize - csum_size sb - de) blocksize ;;;
      (if ds_metadata_csum sb then initialize_dirent_tail sb bh else ret tt)) d = Ret tt (set_data bh b d) /\
    leaf sb bh (set_data bh b d) es /\ tidy es /\ entries es = entries (l ++ [p]) /\ exists p', es = l ++ [p'] /\ live p'.
Proof.
  intros Hd Hx Hok Hlive Hfit len. pose proof dg_block as Hbs. pose proof (csum_size_cases sb) as Hcs. unfold len. clear len.
  destruct (cut_at (length (lay (l ++ [p]))) x) as (x1 & G & -> & Hx1); [unfold off in Hfit; lia|]. rewrite length_app in Hx.
  assert (HG' : off (l ++ [p]) + Z.of_nat (length G) = blocksize) by (unfold off; lia).
  rewrite (bind_Ret _ _ _ _ _ (write_bytes_mid bh d [] x1 G 0 (lay (l ++ [p])) Hd eq_refl ltac:(lia))). cbn [app].
  set (d1 := set_data bh _ d). assert (Hd1 : data bh d1 = Some (lay (l ++ [p]) ++ G)) by (by eapply data_set).
  pose proof (Forall_length_off sb _ Hok) as Hlen.
  assert (El : last_entry (S (Z.to_nat blocksize)) bh 0 (off (l ++ [p])) d1 = Ret (off l) d1).
  { destruct l as [|e0 l0].
    - apply (last_entry_at bh d1 G [] [] p); [done|done|simpl; lia].
    - pose proof (last_entry_at bh d1 G (l0 ++ [p]) [] e0 (S (Z.to_nat blocksize)) Hd1 Hok) as E. cbn [app] in E, Hlen, Hfit |- *.
      rewrite off_nil in E. rewrite E by (cbn [length] in Hlen; lia). rewrite (app_comm_cons l0 [p] e0), removelast_last. done. }
  rewrite (bind_Ret _ _ _ _ _ El). apply Forall_app in Hok as [Hl Hp]. inversion_clear Hp as [|?? Hp' _].
  assert (Hd1' : data bh d1 = Some (lay l ++ enc p ++ G)) by (rewrite Hd1, lay_app; cbn [lay mbind list_bind]; by rewrite app_nil_r, <- app_assoc).
  autorewrite with dir in HG', Hfit.
  destruct (finish_at sb bh d1 l p G Hd1' Hl Hp' ltac:(lia) ltac:(lia)) as (E & Hokp & Ho & Hxt). rewrite (bind_Ret _ _ _ _ _ E). unfold d1 in *. rewrite set_data_twice in *. clear E El Hd1 Hd1'.
  set (m := Z.to_nat _) in *. set (p' := extend p (take m G)) in *. set (es := l ++ [p']) in *.
  assert (Hes : Forall entry_ok es /\ tidy es /\ entries es = entries (l ++ [p]) /\ exists p', es = l ++ [p'] /\ live p').
  { apply Forall_app in Hlive as [Hll Hlp]. inversion_clear Hlp as [|?? Hlp' _]. split; [apply Forall_app; split; [done|by constructor]|].
    split; [apply Forall_tidy, Forall_app; split; [done|by constructor]|]. split; [unfold es; rewrite !entries_app; f_equal; by apply (extend_entries sb)|]. by exists p'. }
  clearbody es. destruct Hes as (Heok & Htd & Hent & Hlast). clear p' Hokp.
  destruct (csum_size_cases sb) as [[Ec Em]|[Ec Em]]; rewrite Em, Ec in *.
  - destruct (drop m G); [|simpl in Hxt; lia]. exists es, (lay es ++ []). split; [done|]. split; [|done].
    apply (leaf_data_eq sb bh _ es [0; 0; 0; 0]); [|done|done|by rewrite Ec, Ho]. rewrite (data_set _ _ _ _ Hd). unfold dtail. by rewrite Em, !app_nil_r.
  - set (d2 := set_data bh (lay es ++ drop m G) d). assert (Hd2 : data bh d2 = Some (lay es ++ drop m G)) by by eapply data_set.
    rewrite (init_tail_at sb bh d2 es (drop m G) Hd2 Ho ltac:(lia)). unfold d2. rewrite set_data_twice. eexists es, _. split; [done|]. split; [|done].
    apply (leaf_data_eq sb bh _ es [0; 0; 0; 0]); [|done|done|by rewrite Ec]. rewrite (data_set _ _ _ _ Hd). unfold dtail. by rewrite Em.
Qed.

(** ** The new root *)

Lemma root_limit_fits (L := dx_root_limit sb sizeof_root_info) :
  2 <= L < 2 ^ 16 /\ 32 + 8 * L + (if ds_metadata_csum sb then sizeof_dx_tail else 0) <= blocksize.
Proof.
  pose proof dg_block as Hbs. unfold L, dx_root_limit, sizeof_root_info, sizeof_dx_tail, sizeof_dx_entry. change (EXT4_DIR_REC_LEN 1) with 12. change (EXT4_DIR_REC_LEN 2) with 12.
  assert (E1 : u32 (blocksize - 12 - 12 - 8) = blocksize - 32) by (rewrite wrap_small; lia). rewrite E1.
  assert (E2 : u32 (blocksize - 32 - 8) = blocksize - 40) by (rewrite wrap_small; lia). rewrite E2.
  destruct (ds_metadata_csum sb); [set (q := blocksize - 40)|set (q := blocksize - 32)]; pose proof (Z.div_mod q 8); pose proof (Z.mod_pos_bound q 8); unfold q in *; lia.
Qed.

Lemma make_root_at d e0 e1 R v (L := dx_root_limit sb sizeof_root_info) :
  data 0 d = Some (enc e0 ++ enc e1 ++ R) -> e_rec e0 + e_rec e1 + Z.of_nat (length R) = blocksize -> e_rec e0 = 12 -> 12 <= e_rec e1 ->
  e_nlen e0 = 1 -> e_nlen e1 = 2 -> 0 <= v < 256 ->
  exists A S b, (set_rec_len 0 12 (blocksize - EXT4_DIR_REC_LEN 2) blocksize ;;;
      write_bytes 0 root_info (replicate (Z.to_nat sizeof_root_info) 0) ;;;
      write_le 1 0 (root_info + 5) sizeof_root_info ;;;
      write_le 1 0 (root_info + 4) v ;;;
      dx_set_block 0 (root_info + sizeof_root_info) 0 1 ;;;
      dx_set_count 0 (root_info + sizeof_root_info) 1 ;;;
      dx_set_limit 0 (root_info + sizeof_root_info) L) d = Ret tt (set_data 0 b d) /\
    root_bytes sb v A /\ node sb 0 A L 1 [] S (set_data 0 b d).
Proof.
  intros Hd Hlen Hr0 Hr1 Hn0 Hn1 Hv. pose proof dg_block as Hbs. pose proof root_limit_fits as HL'. cbv zeta in HL'. fold L in HL'.
  assert (Hb0 : length (e_body e0) = 4%nat) by (unfold e_rec in Hr0; lia).
  destruct (cut_at 4 (e_body e1 ++ R)) as (nm' & q & Eq & Hnm'); [rewrite length_app; unfold e_rec in *; lia|].
  assert (Hq : Z.of_nat (length q) = blocksize - 24) by (pose proof (f_equal length Eq) as El; rewrite !length_app in El; unfold e_rec in *; lia).
  destruct (cut_at 8 q) as (q8 & q' & -> & Hq8); [lia|]. rewrite length_app in Hq. destruct (cut_at 2 q') as (q2 & q'' & -> & Hq2); [lia|]. rewrite length_app in Hq.
  destruct (cut_at 2 q'') as (q2' & q3 & -> & Hq2'); [lia|]. rewrite length_app in Hq. destruct (cut_at 4 q3) as (q4 & S & -> & Hq4); [lia|]. rewrite length_app in Hq.
  set (h0 := le_put 4 (e_ino e0) ++ le_put 2 12 ++ [1; e_ft e0 mod 256] ++ e_body e0).
  set (h1 := fun r : Z => le_put 4 (e_ino e1) ++ le_put 2 r ++ [2; e_ft e1 mod 256] ++ nm').
  assert (Hh0 : Z.of_nat (length h0) = 12) by (unfold h0; rewrite !length_app, !le_put_length, Hb0; done).
  assert (Hh1 : forall r, Z.of_nat (length (h1 r)) = 12) by (intros r; unfold h1; rewrite !length_app, !le_put_length, Hnm'; done).
  assert (E0 : enc e0 = h0) by (unfold enc, h0; rewrite Hr0, Hn0; done).
  assert (Hd0 : data 0 d = Some (h0 ++ le_put 4 (e_ino e1) ++ le_put 2 (e_rec e1) ++ ([2; e_ft e1 mod 256] ++ nm') ++ q8 ++ q2 ++ q2' ++ q4 ++ S)).
  { rewrite Hd, E0. unfold enc. rewrite Hn1, <- !app_assoc. rewrite Eq. done. }
  change (EXT4_DIR_REC_LEN 2) with 12.
  rewrite (bind_Ret _ _ _ _ _ (set_rec_len_raw sb 0 d h0 _ _ _ (blocksize - 12) 12 Hd0 eq_refl eq_refl ltac:(lia) ltac:(lia) ltac:(apply mod4_sub; [apply dg_mult|done]))).
  set (P := h0 ++ h1 (blocksize - 12)). assert (HP : Z.of_nat (length P) = 24) by (unfold P; rewrite length_app, Nat2Z.inj_add, Hh0, Hh1; done).
  match goal with |- context [set_data 0 ?b d] => replace b with (P ++ q8 ++ q2 ++ q2' ++ q4 ++ S) by (unfold P, h1; by rewrite <- !app_assoc) end.
  set (D := fun b => set_data 0 b d). change (set_data 0 ?b d) with (D b).
  assert (HD : forall b, data 0 (D b) = Some b) by (intros b; unfold D; by eapply data_set).
  assert (Hset : forall b b', set_data 0 b (D b') = D b) by (intros b b'; apply set_data_twice).
  rewrite (bind_Ret _ _ _ _ _ (write_bytes_mid 0 _ P q8 _ root_info (replicate 8 0) (HD _) ltac:(unfold root_info; lia) ltac:(by rewrite Hq8))), Hset.
  change (replicate 8 0) with ([0; 0; 0; 0] ++ [0] ++ [0] ++ [0; 0]). rewrite <- !app_assoc.
  rewrite (bind_Ret _ _ _ _ _ (write_le_mid 1 0 _ (P ++ [0; 0; 0; 0] ++ [0]) [0] _ (root_info + 5) sizeof_root_info ltac:(rewrite HD; by rewrite <- !app_assoc)
    ltac:(rewrite length_app, Nat2Z.inj_add, HP; done) eq_refl)), Hset.
  rewrite <- !app_assoc.
  rewrite (bind_Ret _ _ _ _ _ (write_le_mid 1 0 _ (P ++ [0; 0; 0; 0]) [0] _ (root_info + 4) v ltac:(rewrite HD; by rewrite <- !app_assoc)
    ltac:(rewrite length_app, Nat2Z.inj_add, HP; done) eq_refl)), Hset.
  set (A := P ++ le_put 4 0 ++ [v; 8; 0; 0]). assert (HlA : Z.of_nat (length A) = 32) by (unfold A; rewrite length_app, Nat2Z.inj_add, HP; done).
  assert (Ev : le_put 1 v = [v]) by (cbn; by rewrite Z.mod_small by lia).
  match goal with |- context [D ?b] => replace b with (A ++ q2 ++ q2' ++ q4 ++ S) by (unfold A; rewrite Ev, <- !app_assoc; done) end.
  unfold dx_set_block, dx_set_count, dx_set_limit.
  rewrite (bind_Ret _ _ _ _ _ (write_le_mid 4 0 _ (A ++ q2 ++ q2') q4 S (root_info + sizeof_root_info + 8 * 0 + 4) 1 ltac:(rewrite HD; by rewrite <- !app_assoc)
    ltac:(rewrite !length_app, Hq2, Hq2', !Nat2Z.inj_add, HlA; done) Hq4)), Hset, <- !app_assoc.
  rewrite (bind_Ret _ _ _ _ _ (write_le_mid 2 0 _ (A ++ q2) q2' _ (root_info + sizeof_root_info + 2) 1 ltac:(rewrite HD; by rewrite <- !app_assoc)
    ltac:(rewrite !length_app, Hq2, !Nat2Z.inj_add, HlA; done) Hq2')), Hset, <- !app_assoc.
  rewrite (write_le_mid 2 0 _ A q2 _ (root_info + sizeof_root_info) L (HD _) ltac:(rewrite HlA; done) Hq2), Hset.
  assert (HA0 : root_bytes sb v A).
  { exists (e_ino e0), (e_ft e0 mod 256), (e_body e0), (e_ino e1), (e_ft e1 mod 256), nm'. split; [done|]. split; [done|]. unfold A, P. by rewrite <- !app_assoc. }
  exists A, S, (A ++ le_put 2 L ++ le_put 2 1 ++ le_put 4 1 ++ S). split; [done|]. split; [done|]. split.
  - apply HD.
  - destruct HA0 as (i0 & f0 & n0 & i1 & f1 & n1 & Hn0' & Hn1' & ->). by constructor.
  - lia.
  - cbn [length]. lia.
  - lia.
  - constructor.
  - rewrite HlA. cbn [length]. lia.
  - rewrite HlA. lia.
Qed.

(** ** The whole *)

Lemma htree_one v d A S es : v = DX_HASH_LEGACY \/ v = DX_HASH_HALF_MD4 \/ v = DX_HASH_TEA -> root_bytes sb v A ->
  node sb 0 A (dx_root_limit sb sizeof_root_info) 1 [] S d -> dx_verifies sb 0 d -> leaf sb 1 d es -> verifies sb 1 d -> tidy es ->
  length (d_bufs d) = 2%nat -> d_size d = 2 * blocksize -> is_dx sb d = true -> htree sb v d [mk_slot 0 1 es].
Proof.
  intros Hv HA0 N Hx Hl Hver Htd Hc Hs Hdx. split; try done.
  - by exists (mk_slot 0 1 es), A, S.
  - intros s ->%list_elem_of_singleton. done.
  - apply NoDup_singleton.
  - rewrite Hs, Hc, Z.shiftr_div_pow2 by apply dg_bits_pos. rewrite <- dg_bits. pose proof dg_block. rewrite Z.div_mul by lia. done.
  - intros i j s t _ Hi Hj. apply list_lookup_singleton_Some in Hi as [_ <-]. apply list_lookup_singleton_Some in Hj as [_ <-]. done.
  - intros i s n Hi _. apply list_lookup_singleton_Some in Hi as [-> <-]. split; [|done]. cbn. pose proof (hash_in_range sb v n). lia.
Qed.

(** What the indexed directory holds, whether the name got in or not. *)
Definition made (v : Z) (m : list (list Z * Z)) (d' : dir_st) : Prop := exists ss, htree sb v d' ss /\ slot_entries ss ≡ₚ m.

Section whole.
Context (d : dir_st) (e0 e1 : dent) (l : list dent) (p : dent) (n : list Z) (inode : dir_inode) (v := ds_def_hash_version sb).
Context (Hlin : lindir sb d [e0 :: e1 :: l ++ [p]]) (Hr0 : e_rec e0 = 12) (Hn0 : e_nlen e0 = 1) (Hn1 : e_nlen e1 = 2).
Context (Hl1 : live e1) (Hlive : Forall live (l ++ [p])) (Hix : ds_dir_index sb = true) (Hv : v = DX_HASH_LEGACY \/ v = DX_HASH_HALF_MD4 \/ v = DX_HASH_TEA).
Context (Hen : enterable sb n inode) (Hbig : 2048 <= blocksize) (Hfull : Forall (fun e => ~ room 264 e) (e0 :: e1 :: l ++ [p])).

(** What [make_indexed_dir] writes before it looks at the disk again. *)
Lemma make_blocks_at d1 (L := dx_root_limit sb sizeof_root_info) :
  data 0 d1 = data 0 d -> data 1 d1 = Some (fresh_block blocksize 1) ->
  let de := 12 + e_rec e1 in let len := blocksize - csum_size sb - de in
  exists es A S d2, (x <-- read_bytes 0 de len ;;
      write_bytes 1 0 x ;;;
      de <-- last_entry (Datatypes.S (Z.to_nat blocksize)) 1 0 len ;;
      set_rec_len 1 de (blocksize - csum_size sb - de) blocksize ;;;
      (if ds_metadata_csum sb then initialize_dirent_tail sb 1 else ret tt) ;;;
      set_rec_len 0 12 (blocksize - EXT4_DIR_REC_LEN 2) blocksize ;;;
      write_bytes 0 root_info (replicate (Z.to_nat sizeof_root_info) 0) ;;;
      write_le 1 0 (root_info + 5) sizeof_root_info ;;;
      write_le 1 0 (root_info + 4) (ds_def_hash_version sb) ;;;
      dx_set_block 0 (root_info + sizeof_root_info) 0 1 ;;;
      dx_set_count 0 (root_info + sizeof_root_info) 1 ;;;
      dx_set_limit 0 (root_info + sizeof_root_info) L) d1 = Ret tt d2 /\
    (exists b b1, d2 = set_data 0 b (set_data 1 b1 d1)) /\
    root_bytes sb v A /\ node sb 0 A L 1 [] S d2 /\ leaf sb 1 d2 es /\ tidy es /\ entries es = entries (l ++ [p]) /\ exists p', es = l ++ [p'] /\ live p'.
Proof using Hlin Hr0 Hn0 Hn1 Hlive Hv Hbig HG HL.
  intros Hd0 Hd1 de len. pose proof dg_block as Hbs. pose proof (csum_size_cases sb) as Hcs.
  destruct (ld_leaf _ _ _ Hlin 0 _ eq_refl) as [(c & Hc & Hd) Hok Hoff]. change (Z.of_nat 0) with 0 in Hd. rewrite <- Hd0 in Hd.
  inversion_clear Hok as [|?? He0 Hok1]. inversion_clear Hok1 as [|?? He1 Hokl]. rewrite !off_cons, Hr0 in Hoff. pose proof (e_rec_pos e1).
  assert (Hlenoff : len = off (l ++ [p])) by (unfold len, de; lia).
  cbn [app] in Hd. rewrite !lay_cons, lay_app in Hd.
  assert (Hr : read_bytes 0 de len d1 = Ret (lay (l ++ [p])) d1).
  { apply (read_bytes_mid 0 d1 (enc e0 ++ enc e1) (lay (l ++ [p])) (lay (dtail sb c))); [by rewrite Hd, <- !app_assoc| |done].
    rewrite length_app, Nat2Z.inj_add, !enc_length. unfold de. lia. }
  rewrite (bind_Ret _ _ _ _ _ Hr). rewrite Hlenoff. destruct (fresh_law blocksize 1) as [Hfl _].
  destruct (make_leaf_at 1 d1 _ l p Hd1 ltac:(lia) Hokl Hlive ltac:(lia)) as (es & b1 & E1 & Hl & Htd & Hent & Hlast).
  apply bind_inv in E1 as ([] & x1 & Ea & E1). rewrite (bind_Ret _ _ _ _ _ Ea). apply bind_inv in E1 as (x & x2 & Eb & E1). rewrite (bind_Ret _ _ _ _ _ Eb).
  apply bind_inv in E1 as ([] & x3 & Ec & E1). rewrite (bind_Ret _ _ _ _ _ Ec), (bind_Ret _ _ _ _ _ E1). clear Ea Eb Ec E1 x x1 x2 x3.
  set (D := set_data 1 b1 d1) in *. assert (HD0 : data 0 D = Some (enc e0 ++ enc e1 ++ lay (l ++ [p]) ++ lay (dtail sb c))).
  { unfold D. apply data_set_ne; [done|done|exact Hd]. }
  destruct (make_root_at D e0 e1 (lay (l ++ [p]) ++ lay (dtail sb c)) v HD0) as (A & S & b & E2 & HA0 & N); [|done|pose proof (do_min _ _ He1); lia|done|done| |].
  { rewrite length_app, Nat2Z.inj_add. fold (off (l ++ [p])) (off (dtail sb c)). rewrite (dtail_length sb c Hc). lia. }
  { by destruct Hv as [->|[->| ->]]. }
  exists es, A, S, (set_data 0 b D). split; [exact E2|]. split; [by exists b, b1|]. split; [done|]. split; [done|]. split; [|done].
  eapply leaf_frame; [|exact Hl]. unfold data. by rewrite buf_at_set, decide_False by done.
Qed.

(** A block could not be added. *)
Definition cannot_grow : Prop := ds_max_dir_size_kb sb <> 0 \/ exists b, create_err b <> 0.

Lemma limit_cannot_grow d' b : at_limit sb d' \/ create_err b <> 0 -> cannot_grow.
Proof. intros [[? _]|?]; [by left|right; by exists b]. Qed.

(** [out] of the code. *)
Definition out (r : Z) : M dir_st Z := (if negb (r =? 0) then ext4_mark_inode_dirty else ret tt) ;;; ret r.

Lemma out_at r D (Q : Z -> dir_st -> Prop) : (forall D', same sb D D' -> Q r D') -> runs (out r) D Q.
Proof. intros HQ. unfold out. apply runs_bind. destruct (r =? 0); cbn [negb]; [apply runs_ret, runs_ret|apply runs_modify, runs_ret]; apply HQ; by split. Qed.

Lemma made_same m D D' : same sb D D' -> made v m D -> made v m D'.
Proof. intros Hs (ss & Ht & Hm). exists ss. split; [by eapply htree_same|done]. Qed.

Definition make_result (r : Z) (d' : dir_st) : Prop :=
  r = 0 /\ made v ((n, i_ino inode) :: entries (l ++ [p])) d' \/
  ERR_BAD_DX_DIR < r < 0 /\ (cannot_grow /\ (lindir sb d' [e0 :: e1 :: l ++ [p]] \/ made v (entries (l ++ [p])) d') \/ r = - EIO /\ ds_needs_sync sb = true).

(** The entries behind ".." go to the new leaf; the last one takes what is left
    of the block. *)
Lemma moved_not_lopsided p' : off (l ++ [p']) = blocksize - csum_size sb -> live p' -> entries (l ++ [p']) <> [] /\ forall h, ~ lopsided sb h (l ++ [p']).
Proof using Hlin Hr0 Hn1 Hlive Hbig Hfull Hl1.
  intros Ho Hp'. destruct (ld_leaf _ _ _ Hlin 0 _ eq_refl) as [_ Hok Hoff]. inversion_clear Hok as [|?? _ Hok1]. inversion_clear Hok1 as [|?? He1 Hokl].
  inversion_clear Hfull as [|?? _ Hf1]. inversion_clear Hf1 as [|?? Hf2 Hfl]. pose proof (no_room_short sb e1 He1 Hf2 Hl1) as [H1 _]. rewrite Hn1 in H1.
  apply Forall_app in Hokl as [Hol Hop]. apply Forall_app in Hfl as [Hfl Hfp]. apply Forall_app in Hlive as [Hll Hlp].
  inversion_clear Hop as [|?? Hp _]. inversion_clear Hfp as [|?? Hfp' _]. inversion_clear Hlp as [|?? Hlp' _]. pose proof (no_room_short sb p Hp Hfp' Hlp').
  change (EXT4_DIR_REC_LEN 2) with 12 in H1. autorewrite with dir in Ho, Hoff.
  assert (Hall : Forall live (l ++ [p'])) by (apply Forall_app; split; [done|by constructor]).
  apply (short_not_lopsided sb); [done|rewrite (filter_all _ _ Hall); autorewrite with dir; lia|]. apply Forall_app. split; [|constructor; [intros _; lia|done]].
  rewrite Forall_forall in Hol, Hfl |- *. intros e He Hl. pose proof (no_room_short sb e (Hol e He) (Hfl e He) Hl). lia.
Qed.

Lemma split_new_at D es (ss := [mk_slot 0 1 es]) :
  htree sb v D ss -> entries es = entries (l ++ [p]) -> entries es <> [] /\ (forall h, ~ lopsided sb h es) -> length (d_bufs D) = 2%nat ->
  runs (r <-- do_split sb 1 (mk_frame 0 32 0) (hinfo (hashed sb v n)) ;;
        match r with
        | inl err => out err
        | inr (de, bh2) => r <-- add_dirent_to_buf sb n inode (Some de) bh2 ;; out r
        end) D make_result.
Proof using Hen HG HL.
  intros Ht Hent [Hne Hnl] Hc. set (chain := r <-- do_split sb 1 (mk_frame 0 32 0) (hinfo (hashed sb v n)) ;;
        match r with
        | inl err => ret err
        | inr (de, bh) => add_dirent_to_buf sb n inode (Some de) bh
        end).
  assert (Hrun : runs (bind chain (fun r => out r)) D make_result).
  { apply runs_bind. assert (Hsl : slot_at ss (hash_in sb v n) 0).
    { split; [simpl; lia|]. intros i s Hi. apply list_lookup_singleton_Some in Hi as [-> <-]. rewrite decide_True by lia. cbn [s_key].
      pose proof (hash_in_range sb v n). lia. }
    pose proof (root_limit_fits) as Hlim. cbv zeta in Hlim.
    eapply runs_conseq; [apply (split_add_at sb v D ss 0 (mk_slot 0 1 es) Ht eq_refl n inode Hsl Hen Hne Hnl); [unfold ss; cbn [length]; lia|rewrite Hc; lia]|].
    assert (Hse : slot_entries ss ≡ₚ entries (l ++ [p])) by (unfold slot_entries, ss; cbn [fmap list_fmap concat s_es]; by rewrite app_nil_r, Hent).
    intros r d' Hr. apply out_at. intros D' Hs. destruct Hr as [(-> & ss' & Ht' & Hp)|(Herr & [[-> Hf]|Hsync])].
    - left. split; [done|]. exists ss'. split; [by eapply htree_same|]. by rewrite Hp, Hse.
    - right. split; [done|]. left. split; [by eapply limit_cannot_grow|]. right. exists ss. split; [by eapply htree_same|done].
    - right. split; [done|]. by right. }
  unfold runs in *. unfold chain in Hrun. rewrite bind_assoc in Hrun. unfold bind at 1 in Hrun. unfold bind at 1.
  destruct (do_split sb 1 _ _ D) as [[err|[de bh]] D'| |]; [|done..]. by rewrite bind_ret in Hrun.
Qed.

Lemma make_indexed_at : runs (make_indexed_dir sb (mk_fname n no_hinfo) inode 0) d make_result.
Proof using Hlin Hr0 Hn0 Hn1 Hl1 Hlive Hix Hv Hen Hbig Hfull HG HL.
  pose proof dg_block as Hbs. pose proof (csum_size_cases sb) as Hcs. unfold make_indexed_dir.
  destruct (ld_leaf _ _ _ Hlin 0 _ eq_refl) as [(c & Hc & Hd) Hok Hoff]. change (Z.of_nat 0) with 0 in Hd.
  inversion Hok as [|?? He0 Hok1]; subst. inversion Hok1 as [|?? He1 Hokl]; subst. rewrite !off_cons, Hr0 in Hoff. cbn [app] in Hd. rewrite !lay_cons in Hd.
  eapply runs_bind, runs_intro; [apply (de_rec_len_at sb 0 d (enc e0) e1 _ 12 Hd He1); rewrite enc_length; lia|].
  assert (0 < off (l ++ [p])) by (rewrite off_app, off_cons; pose proof (off_nonneg l); pose proof (e_rec_pos p); rewrite off_nil; lia).
  destruct (Z.leb_spec blocksize (12 + e_rec e1)); [lia|].
  destruct (append_at sb d _ (ld_count _ _ _ Hlin) (size_blocks _ _ _ Hlin)) as [E|(err & E & Hneg & Hf)]; (eapply runs_bind, runs_intro; [exact E|]); clear E; cbv beta iota.
  2:{ apply runs_ret. right. split; [done|]. left. split; [by eapply limit_cannot_grow|]. by left. }
  change (Z.of_nat (length [e0 :: e1 :: l ++ [p]])) with 1. apply runs_bind, runs_modify. set (d1 := _ <| d_index := true |>).
  pose proof (ld_count _ _ _ Hlin) as Hcnt. cbn [length] in Hcnt.
  assert (Hd1 : data 1 d1 = Some (fresh_block blocksize 1)).
  { pose proof (appended_new sb 1 d) as Hnew. rewrite Hcnt in Hnew. exact Hnew. }
  assert (Hd0 : data 0 d1 = data 0 d).
  { change (data 0 d1) with (data 0 (appended sb 1 d)). unfold data. by rewrite appended_old by (rewrite Hcnt; done). }
  destruct (make_blocks_at d1 Hd0 Hd1) as (es & A & S & d2 & E & (b & b1 & Hd2) & HA0 & N & Hl & Htd & Hent & p' & -> & Hp').
  pose proof (moved_not_lopsided p' (lf_off _ _ _ _ Hl) Hp') as Hnl.
  do 11 (apply bind_inv in E as (? & ? & ?E & E); eapply runs_bind, runs_intro; [eassumption|]). eapply runs_bind, runs_intro; [exact E|]. clear - Hd2 HA0 N Hl Htd Hent Hnl Hv Hen Hlive HG HL Hcnt Hlin Hix.
  destruct (root_reads sb v A _ d2 (nd_data _ _ _ _ _ _ _ _ N) HA0) as (HlA & R28 & _). eapply runs_bind, runs_intro; [exact R28|].
  change (dx_hash sb v (mk_fname n no_hinfo)) with (hashed sb v n). change (root_info + sizeof_root_info) with 32.
  assert (Hst : length (d_bufs d2) = 2%nat /\ d_size d2 = 2 * blocksize /\ is_dx sb d2 = true).
  { rewrite Hd2. unfold set_data, d1, appended, is_dx, update. cbn. rewrite !length_alter, length_app, Hcnt, Hix, (ld_size _ _ _ Hlin). cbn [length]. split; [done|]. split; [lia|done]. }
  clearbody d1. clear Hd2. fold v. apply runs_bind. eapply runs_conseq; [apply (dirty_dx_at sb _ _ _ _ _ _ _ N)|]. intros r d3 ((S3 & N3) & Hx3 & Ho3 & Hr).
  destruct (Z.eqb_spec r 0) as [->|Hne]; cbn [negb].
  2:{ apply runs_bind, runs_modify, runs_ret. destruct (ds_needs_sync sb && sync_fails 0) eqn:Es; [|done]. apply andb_true_iff in Es as [Es _]. right. rewrite Hr. split; [done|]. by right. }
  assert (Hl3 : leaf sb 1 d3 (l ++ [p'])) by (eapply leaf_frame; [|exact Hl]; unfold data; by rewrite (on_bufs _ _ _ _ Ho3) by done).
  apply runs_bind. eapply runs_conseq; [by apply dirty_node_at|]. intros r d4 (Hl4 & Hv4 & Ho4 & Hr4).
  destruct (Z.eqb_spec r 0) as [->|Hne]; cbn [negb].
  2:{ apply runs_bind, runs_modify, runs_ret. destruct (ds_needs_sync sb && sync_fails 1) eqn:Es; [|done]. apply andb_true_iff in Es as [Es _]. right. rewrite Hr4. split; [done|]. by right. }
  assert (Ed0 : data 0 d4 = data 0 d3) by (unfold data; by rewrite (on_bufs _ _ _ _ Ho4) by done).
  destruct Hst as (Hs1 & Hs2 & Hs3). apply (split_new_at d4 (l ++ [p'])); [|done|done|by rewrite (on_count _ _ _ _ Ho4), (on_count _ _ _ _ Ho3)].
  apply (htree_one v d4 A S3 (l ++ [p'])); try done; [by eapply node_data|intros d' E'; apply Hx3; by rewrite E'|..].
  - by rewrite (on_count _ _ _ _ Ho4), (on_count _ _ _ _ Ho3).
  - by rewrite (on_size _ _ _ _ Ho4), (on_size _ _ _ _ Ho3).
  - by rewrite (on_dx _ _ _ _ Ho4), (on_dx _ _ _ _ Ho3).
Qed.
End whole.

(** ** Directories of one block *)

(** "." and ".." and entries in use: nothing else is ever unused in a first
    block. *)
Record linear1 (d : dir_st) (e0 e1 : dent) (rest : list dent) : Prop := {
  l1_dir : lindir sb d [e0 :: e1 :: rest];
  l1_rec : e_rec e0 = 12;
  l1_dot : e_nlen e0 = 1 /\ live e0 /\ e_name e0 = dot;
  l1_dotdot : e_nlen e1 = 2 /\ live e1 /\ e_name e1 = dotdot;
  l1_live : Forall live rest;
}.

Lemma linear1_same d d' e0 e1 rest : same sb d d' -> linear1 d e0 e1 rest -> linear1 d' e0 e1 rest.
Proof. intros Hs []. split; try done. by eapply lindir_same. Qed.

Lemma linear1_change d d' e0 e1 rest e1' rest' :
  linear1 d e0 e1 rest -> leaf sb 0 d' (e0 :: e1' :: rest') -> verifies sb 0 d' -> only sb 0 d d' ->
  e_nlen e1' = 2 /\ live e1' /\ e_name e1' = dotdot -> Forall live rest' -> linear1 d' e0 e1' rest'.
Proof.
  intros [L ? ? ? ?] Hl Hv Ho H1 H2. split; try done. apply (lindir_change sb d d' [e0 :: e1 :: rest] 0 (e0 :: e1 :: rest) (e0 :: e1' :: rest') L eq_refl Hl Hv Ho).
Qed.

(** An entry with room is not the first one. *)
Lemma linear1_add d d' e0 e1 rest n inode pre e post :
  linear1 d e0 e1 rest -> e0 :: e1 :: rest = pre ++ e :: post -> room (reclen n) e -> enterable sb n inode ->
  leaf sb 0 d' (pre ++ put_entry sb inode n e ++ post) -> verifies sb 0 d' -> only sb 0 d d' ->
  exists e1' rest', linear1 d' e0 e1' rest' /\ entries rest' ≡ₚ (n, i_ino inode) :: entries rest.
Proof.
  intros L1 Ees Hr Hen Hl Hv Ho. pose proof L1 as [L Hrec (Hn0 & Hl0 & Hd0) (Hn1 & Hl1 & Hd1) Hlive].
  assert (Hino : i_ino inode <> 0) by (pose proof (en_ino _ _ _ Hen); lia).
  pose proof (lf_ok _ _ _ _ (ld_leaf _ _ _ L 0 _ eq_refl)) as Hok. change (Z.of_nat 0) with 0 in Hok.
  destruct pre as [|x0 [|x1 pre]]; cbn [app] in Ees.
  - injection Ees as <- _. exfalso. unfold room in Hr. pose proof (rec_len_bounds (Z.of_nat (length n))). pose proof (en_name _ _ _ Hen).
    destruct (Z.eqb_spec (e_ino e0) 0); [done|]. rewrite Hrec, Hn0 in Hr. change (EXT4_DIR_REC_LEN 1) with 12 in Hr. lia.
  - injection Ees as <- <- <-. inversion Hok as [|?? He0 Hok1]; subst. inversion Hok1 as [|?? He1 Hokr]; subst.
    pose proof (put_entry_entries sb inode n e1 He1 Hr Hino) as Hent. unfold put_entry in *. destruct (Z.eqb_spec (e_ino e1) 0); [done|]. cbn [app] in Hl.
    set (k := Z.to_nat _) in *. set (e1' := e1 <| e_body := take k (e_body e1) |>) in *. set (ne := new_entry _ _ _ _) in *.
    assert (Hnm : e_name e1' = e_name e1).
    { unfold e_name, e1', update. cbn. rewrite take_take, Hn1. f_equal. unfold k. rewrite Hn1. done. }
    exists e1', (ne :: rest). split; [|by rewrite entries_live by done; unfold ne at 1; rewrite new_entry_name].
    eapply linear1_change; try done; [rewrite Hnm; done|]. by constructor.
  - injection Ees as <- <- ->. exists e1, (pre ++ put_entry sb inode n e ++ post). apply Forall_app in Hlive as [Hlp Hle]. inversion_clear Hle as [|?? Hle' Hlpost].
    inversion_clear Hok as [|?? _ Hok1]. inversion_clear Hok1 as [|?? _ Hokr]. apply Forall_app in Hokr as [_ Hokr]. inversion_clear Hokr as [|?? He _]. split.
    + eapply linear1_change; try done. rewrite !Forall_app. split; [done|]. split; [|done]. unfold put_entry. case_match; repeat constructor; done.
    + rewrite !entries_app, (put_entry_entries sb) by done. change (e :: post) with ([e] ++ post). rewrite entries_app. symmetry. apply Permutation_middle.
Qed.

Lemma linear1_delete d d' e0 e1 rest n pre e post :
  linear1 d e0 e1 rest -> e0 :: e1 :: rest = pre ++ e :: post -> named n e -> n <> dot -> n <> dotdot ->
  leaf sb 0 d' (drop_entry pre e post) -> verifies sb 0 d' -> only sb 0 d d' ->
  exists e1' rest', linear1 d' e0 e1' rest' /\ (n, e_ino e) :: entries rest' ≡ₚ entries rest.
Proof.
  intros L1 Ees [He Hn] Hd Hdd Hl Hv Ho. pose proof L1 as [L Hrec (Hn0 & Hl0 & Hd0) (Hn1 & Hl1 & Hd1) Hlive].
  pose proof (lf_ok _ _ _ _ (ld_leaf _ _ _ L 0 _ eq_refl)) as Hok. change (Z.of_nat 0) with 0 in Hok.
  destruct pre as [|x0 [|x1 pre]]; cbn [app] in Ees; [injection Ees as <- _; congruence|injection Ees as <- <- _; congruence|]. injection Ees as <- <- ->.
  inversion_clear Hok as [|?? _ Hok1]. inversion_clear Hok1 as [|?? He1 Hokr]. apply Forall_app in Hlive as [Hlp Hle]. inversion_clear Hle as [|?? _ Hlpost].
  assert (Hent : (n, e_ino e) :: entries (pre ++ post) ≡ₚ entries (pre ++ e :: post)).
  { rewrite !entries_app, entries_live, Hn by done. by rewrite Permutation_middle. }
  destruct pre as [|p pre _] using rev_ind; unfold drop_entry in Hl.
  - cbn [last removelast app] in Hl. set (e1' := e1 <| e_body := _ |>) in Hl. exists e1', post. split; [|done]. eapply linear1_change; try done.
    split; [done|]. split; [done|]. rewrite <- Hd1. unfold e_name, e1', update. cbn. apply take_app_le.
    pose proof (e_name_length _ _ He1) as En. unfold e_name in En. rewrite length_take in En. lia.
  - rewrite !app_comm_cons, last_snoc, removelast_last in Hl. cbn [app] in Hl. set (p' := p <| e_body := _ |>) in Hl.
    exists e1, (pre ++ p' :: post). apply Forall_app in Hlp as [Hlp Hlpp]. inversion_clear Hlpp as [|?? Hlp' _].
    assert (Hp' : entry_ok p) by (apply Forall_app in Hokr as [Hokr _]; apply Forall_app in Hokr as [_ Hokr]; by inversion Hokr).
    split; [eapply linear1_change; try done; apply Forall_app; split; [done|by constructor]|].
    assert (Enm : e_name p' = e_name p).
    { unfold e_name, p', update. cbn. apply take_app_le. pose proof (e_name_length _ _ Hp') as En. unfold e_name in En. rewrite length_take in En. lia. }
    rewrite <- Hent, <- app_assoc, !entries_app. cbn [app]. rewrite (entries_live p), (entries_live p') by done. by rewrite Enm.
Qed.

(** ** What a directory holds *)

(** The map from names to inodes, without "." and "..". *)
Inductive dir_holds (d : dir_st) (m : gmap (list Z) Z) : Prop :=
| holds_linear e0 e1 rest : linear1 d e0 e1 rest -> NoDup (entries rest).*1 -> m = list_to_map (entries rest) -> dir_holds d m
| holds_indexed v ss : htree sb v d ss -> NoDup (slot_entries ss).*1 -> m = list_to_map (slot_entries ss) -> dir_holds d m.

Lemma dir_holds_same d d' m : same sb d d' -> dir_holds d m -> dir_holds d' m.
Proof. intros Hs []; [eapply holds_linear; [by eapply linear1_same|done..]|eapply holds_indexed; [by eapply htree_same|done..]]. Qed.

Lemma map_insert (l l' : list (list Z * Z)) n ino : NoDup l.*1 -> (list_to_map l : gmap (list Z) Z) !! n = None -> l' ≡ₚ (n, ino) :: l ->
  NoDup l'.*1 /\ (list_to_map l' : gmap (list Z) Z) = <[n := ino]> (list_to_map l).
Proof.
  intros Hnd Hn Hp. assert (Hnd' : NoDup l'.*1) by (rewrite Hp; cbn; apply NoDup_cons; split; [by apply not_elem_of_list_to_map|done]).
  split; [done|]. rewrite <- list_to_map_cons. by apply list_to_map_proper.
Qed.

Lemma map_delete (l l' : list (list Z * Z)) n ino : NoDup l.*1 -> (n, ino) :: l' ≡ₚ l ->
  NoDup l'.*1 /\ (list_to_map l' : gmap (list Z) Z) = delete n (list_to_map l).
Proof.
  intros Hnd Hp. assert (Hnd' : NoDup ((n, ino) :: l').*1) by (by rewrite Hp). rewrite <- (list_to_map_proper _ _ Hnd' Hp). cbn in Hnd' |- *.
  apply NoDup_cons in Hnd' as [Hn Hnd']. split; [done|]. rewrite delete_insert_id; [done|]. by apply not_elem_of_list_to_map_1.
Qed.

Lemma new_dir_holds d parent :
  d_bufs d = [] -> is_dx sb d = false -> 0 < ds_ino sb <= ds_inodes_count sb -> 0 < parent <= ds_inodes_count sb ->
  runs (ext4_init_new_dir sb parent) d (fun r d' => (r = 0 -> d_nlink d' = 2 /\ dir_holds d' ∅) /\
    (r <> 0 -> create_err 0 <> 0 \/ ds_needs_sync sb && sync_fails 0 = true)).
Proof.
  intros Hnil Hdx Hino Hpar. eapply runs_conseq; [by apply (new_dir_at sb d parent)|]. intros r d' [Hok Hbad]. split; [|done].
  intros Hr. destruct (Hok Hr) as (Hnl & e0 & e1 & L & Hdots & Hent & Hrec). split; [done|].
  destruct Hdots as [(x0 & x1 & rest & E & _ & Hl0 & Hl1 & Hn0 & Hn1 & _)]. injection E as -> -> <-. rewrite !entries_live in Hent by done. injection Hent as En0 _ En1 _.
  eapply (holds_linear d' ∅ x0 x1 []); [by split|apply NoDup_nil_2|done].
Qed.

(** ** Adding, whatever form the directory has *)

Definition dir_failed : Prop := cannot_grow \/ exists b, unreadable b.

Lemma entries_mid n pre e post : named n e -> (n, e_ino e) ∈ entries (pre ++ e :: post).
Proof. intros [Hl <-]. rewrite entries_app, entries_live by done. apply elem_of_app. right. by left. Qed.

Section ops.
Context (n : list Z) (Hdot : n <> dot) (Hdotdot : n <> dotdot).

Lemma linear1_names d e0 e1 rest : linear1 d e0 e1 rest -> n ∈ (entries (e0 :: e1 :: rest)).*1 <-> n ∈ (entries rest).*1.
Proof using Hdot Hdotdot.
  intros [_ _ (_ & Hl0 & Hd0) (_ & Hl1 & Hd1) _]. rewrite !entries_live by done. cbn [fmap list_fmap fst]. rewrite !elem_of_cons, Hd0, Hd1. naive_solver.
Qed.

Definition added (inode : dir_inode) (m : gmap (list Z) Z) (r : Z) (d' : dir_st) : Prop :=
  r = 0 /\ dir_holds d' (<[n := i_ino inode]> m) \/ r < 0 /\ (dir_failed /\ dir_holds d' m \/ r = - EIO /\ ds_needs_sync sb = true).

Context (inode : dir_inode) (Hen : enterable sb n inode) (Hix : ds_dir_index sb = true).
Context (Hv : let v := ds_def_hash_version sb in v = DX_HASH_LEGACY \/ v = DX_HASH_HALF_MD4 \/ v = DX_HASH_TEA).

Lemma made_holds l m v d' : made v l d' -> NoDup l.*1 -> m = list_to_map l -> dir_holds d' m.
Proof.
  intros (ss & Ht & Hp) Hnd ->. assert (Hnd' : NoDup (slot_entries ss).*1) by by rewrite Hp. eapply holds_indexed; [done|done|]. by apply list_to_map_proper.
Qed.

Lemma linear1_full d e0 e1 rest : linear1 d e0 e1 rest -> Forall (fun e => ~ room (reclen n) e) (e0 :: e1 :: rest) -> exists l p, rest = l ++ [p].
Proof using Hen HG.
  intros [L Hrec _ (Hn1 & Hl1 & _) _] Hr. destruct rest as [|p l _] using rev_ind; [|by eexists _, _]. exfalso.
  inversion_clear Hr as [|?? _ Hr1]. inversion_clear Hr1 as [|?? He1 _]. apply He1. pose proof (rec_len_max (Z.of_nat (length n)) ltac:(apply (en_name _ _ _ Hen))).
  unfold room. destruct (Z.eqb_spec (e_ino e1) 0); [done|]. rewrite Hn1. change (EXT4_DIR_REC_LEN 2) with 12.
  pose proof (lf_off _ _ _ _ (ld_leaf _ _ _ L 0 _ eq_refl)) as Ho. autorewrite with dir in Ho. pose proof dg_block. pose proof (csum_size_cases sb). lia.
Qed.

Lemma linear1_add_at (d : dir_st) (e0 e1 : dent) (rest : list dent) (m : gmap (list Z) Z) :
  linear1 d e0 e1 rest -> NoDup (entries rest).*1 -> m = list_to_map (entries rest) -> m !! n = None -> 2048 <= blocksize -> runs (add_entry_body sb n inode) d (added inode m).
Proof using Hdot Hdotdot Hen Hix Hv HG HL.
  intros L1 Hnd -> Hn Hbig. pose proof (l1_dir _ _ _ _ L1) as L. unfold add_entry_body. apply runs_bind, runs_intro with (a := d) (s' := d); [done|]. rewrite (ld_linear _ _ _ L).
  apply runs_bind, runs_ret. cbv beta iota. apply runs_bind, runs_intro with (a := d) (s' := d); [done|]. rewrite (size_blocks _ _ _ L).
  cbn [length]. change (Z.of_nat 1) with 1. change (Z.to_nat 1) with 1%nat. cbn [add_loop]. apply runs_bind, runs_bind. change 0 with (Z.of_nat 0) at 1.
  eapply runs_conseq; [by apply (read_dirblock_at sb d [e0 :: e1 :: rest] 0 (e0 :: e1 :: rest) DIRENT)|].
  intros r d1 [Hs [[-> _]|(Hu & err & -> & Hneg)]]; cbv beta iota.
  2:{ apply runs_ret, runs_ret. right. split; [done|]. left. split; [right; by eexists|]. eapply dir_holds_same; [exact Hs|]. by eapply holds_linear. }
  assert (L1' : linear1 d1 e0 e1 rest) by by eapply linear1_same. clear d L L1 Hs. pose proof (ld_leaf _ _ _ (l1_dir _ _ _ _ L1') 0 _ eq_refl) as Hleaf.
  assert (Hn0 : n ∉ (entries (e0 :: e1 :: rest)).*1) by (rewrite (linear1_names d1) by done; by apply not_elem_of_list_to_map).
  change (Z.of_nat 0) with 0 in *. apply runs_bind. eapply runs_conseq; [by apply (add_dirent_at sb 0 d1 _ inode n Hleaf Hen)|]. intros r d2 Hr.
  destruct (dest_of_absent n (reclen n) _ Hn0) as [E|[o E]]; rewrite E in Hr.
  2:{ destruct Hr as (-> & es' & Hl & _ & Hver & Ho & pre & e & post & Ees & Hroom & ->). cbn [negb Z.eqb Z.opp ENOSPC]. apply runs_ret, runs_ret. left. split; [done|].
      destruct (linear1_add d1 d2 e0 e1 rest n inode pre e post L1' Ees Hroom Hen Hl Hver Ho) as (e1' & rest' & L2 & Hp).
      destruct (map_insert _ _ _ _ Hnd Hn Hp) as [Hnd' Hm]. eapply holds_linear; [exact L2|done|]. by rewrite Hm. }
  destruct Hr as [-> ->]. rewrite Z.eqb_refl, Hix. cbn [negb andb Z.eqb Pos.eqb].
  pose proof (no_room n _ _ Hn0 E) as Hnr. destruct (linear1_full d1 e0 e1 rest L1' Hnr) as (l & p & ->). pose proof L1' as [L Hrec (Hn0' & _) (Hn1' & Hl1' & _) Hlive].
  assert (Hfull : Forall (fun e => ~ room 264 e) (e0 :: e1 :: l ++ [p])).
  { eapply Forall_impl; [exact Hnr|]. intros e He Hr. apply He. eapply room_le; [|exact Hr]. apply rec_len_max. apply (en_name _ _ _ Hen). }
  apply runs_bind. eapply runs_conseq; [by apply (make_indexed_at d1 e0 e1 l p n inode)|]. intros r d' Hr. apply runs_ret, runs_ret.
  destruct Hr as [(-> & Hm)|(Herr & [(Hg & [Hl|Hm])|Hsync])].
  - left. split; [done|]. destruct (map_insert _ ((n, i_ino inode) :: entries (l ++ [p])) n (i_ino inode) Hnd Hn) as [Hnd' Hm']; [done|]. eapply made_holds; [exact Hm|done|]. by rewrite Hm'.
  - right. split; [lia|]. left. split; [by left|]. eapply holds_linear; [|exact Hnd|done]. by destruct L1'; split.
  - right. split; [lia|]. left. split; [by left|]. by eapply made_holds.
  - right. split; [lia|]. by right.
Qed.

Lemma htree_add_at v d ss : htree sb v d ss -> NoDup (slot_entries ss).*1 -> (list_to_map (slot_entries ss) : gmap (list Z) Z) !! n = None ->
  2048 <= blocksize -> Z.of_nat (length (d_bufs d)) <= dx_root_limit sb sizeof_root_info ->
  runs (add_entry_body sb n inode) d (added inode (list_to_map (slot_entries ss))).
Proof using Hen HG HL.
  intros Ht Hnd Hn Hbs Hlim. unfold add_entry_body. apply runs_bind, runs_intro with (a := d) (s' := d); [done|]. rewrite (ht_dx _ _ _ _ Ht).
  pose proof (slots_count sb v d ss Ht). pose proof root_limit_fits as Hfit. cbv zeta in Hfit.
  apply runs_bind, runs_bind. eapply runs_conseq; [apply (dx_add_at sb v d ss n inode Ht); [by apply not_elem_of_list_to_map|done|done|lia|lia]|]. intros r d' Hr.
  assert (Hbad : r <> ERR_BAD_DX_DIR) by (destruct Hr as [[-> _]|[? _]]; [done|lia]).
  destruct (Z.eqb_spec r ERR_BAD_DX_DIR); [done|]. cbn [negb]. apply runs_ret, runs_ret.
  destruct Hr as [(-> & ss' & Ht' & Hp)|(Herr & [[Ht' Hf]|Hsync])].
  - left. split; [done|]. destruct (map_insert _ _ _ _ Hnd Hn Hp) as [Hnd' Hm]. eapply holds_indexed; [done|done|]. by rewrite Hm.
  - right. split; [lia|]. left. split; [|by eapply holds_indexed]. unfold dx_failed in Hf. destruct Hf as [Hf|[Hf|Hf]]; [left; by left; destruct Hf|left; right; by eexists|by right].
  - right. split; [lia|]. by right.
Qed.

Lemma dir_add_at d m : dir_holds d m -> m !! n = None -> 2048 <= blocksize -> Z.of_nat (length (d_bufs d)) <= dx_root_limit sb sizeof_root_info ->
  runs (ext4_add_entry sb n inode) d (added inode m).
Proof using Hdot Hdotdot Hen Hix Hv HG HL.
  intros Hd Hn Hbs Hlim. unfold ext4_add_entry. pose proof (en_name _ _ _ Hen). destruct (Z.eqb_spec (Z.of_nat (length n)) 0); [lia|].
  apply runs_bind. eapply runs_conseq with (P := added inode m).
  { destruct Hd as [e0 e1 rest L1 Hnd ->|v ss Ht Hnd ->]; [by eapply linear1_add_at|by apply (htree_add_at v)]. }
  intros r d' Hr. apply runs_bind. destruct (Z.eqb_spec r 0) as [->|]; [|by apply runs_ret, runs_ret]. apply runs_modify, runs_ret.
  destruct Hr as [(_ & Hh)|[? _]]; [|lia]. left. split; [done|]. eapply dir_holds_same; [|exact Hh]. by split.
Qed.

(** ** Looking up and deleting *)

(** An entry with the name, and what the directory holds. *)
Inductive located (d : dir_st) (m : gmap (list Z) Z) (bh de : Z) : Prop :=
| located_linear e0 e1 rest : linear1 d e0 e1 rest -> NoDup (entries rest).*1 -> m = list_to_map (entries rest) ->
    entry_at [e0 :: e1 :: rest] n bh de -> located d m bh de
| located_indexed v ss : htree sb v d ss -> NoDup (slot_entries ss).*1 -> m = list_to_map (slot_entries ss) -> slot_entry ss n bh de -> located d m bh de.

Definition looked_up (m : gmap (list Z) Z) (r : Z + option (Z * Z)) (d' : dir_st) : Prop :=
  match r with
  | inl err => err < 0 /\ exists b, unreadable b
  | inr None => m !! n = None
  | inr (Some (bh, de)) => located d' m bh de
  end.

Lemma dir_find_at d m : dir_holds d m -> Z.of_nat (length n) < 256 ->
  runs (ext4_find_entry sb n) d (fun r d' => same sb d d' /\ looked_up m r d').
Proof using Hdot Hdotdot HG HL.
  intros Hd Hn. destruct Hd as [e0 e1 rest L1 Hnd Hm|v ss Ht Hnd Hm].
  - eapply runs_conseq; [by apply (find_entry_at sb d _ n (l1_dir _ _ _ _ L1))|]. intros r d' [Hs Hr]. split; [done|].
    destruct r as [err|[[bh de]|]]; cbn [lookup_result dx_lookup_result concat] in Hr; cbn [looked_up].
    + destruct Hr as (? & b & _ & ?). split; [done|by exists b].
    + eapply located_linear; [by eapply linear1_same|done|done|done].
    + rewrite app_nil_r, (linear1_names d) in Hr by done. rewrite Hm. by apply not_elem_of_list_to_map_1.
  - eapply runs_conseq; [by apply (dx_find_entry_at sb v)|]. intros r d' [Hs Hr]. split; [done|]. destruct r as [err|[[bh de]|]]; cbn [lookup_result dx_lookup_result concat] in Hr; cbn [looked_up].
    + destruct Hr as (? & b & ?). split; [lia|by exists b].
    + eapply located_indexed; [by eapply htree_same|done|done|done].
    + rewrite Hm. by apply not_elem_of_list_to_map_1.
Qed.

Lemma leaf_inode bh d pre e post : leaf sb bh d (pre ++ e :: post) -> de_inode bh (off pre) d = Ret (e_ino e) d.
Proof using HG.
  intros Hl. destruct (leaf_mid sb bh d pre e post Hl) as (c & _ & Hd & He & _). by apply (de_inode_at sb bh d (lay pre) e (lay (post ++ dtail sb c))).
Qed.

Lemma located_inode d m bh de : located d m bh de -> exists ino, m !! n = Some ino /\ de_inode bh de d = Ret ino d.
Proof using Hdot Hdotdot HG HL.
  intros [e0 e1 rest L1 Hnd -> (i & pre & e & post & -> & Hi & -> & Hn)|v ss Ht Hnd -> (i & s & pre & e & post & Hi & -> & Ees & -> & Hn)].
  - apply list_lookup_singleton_Some in Hi as [-> Ees]. exists (e_ino e). pose proof (ld_leaf _ _ _ (l1_dir _ _ _ _ L1) 0 _ eq_refl) as Hl. rewrite Ees in Hl.
    split; [|by apply (leaf_inode 0 d pre e post)]. apply elem_of_list_to_map; [done|]. pose proof (entries_mid n pre e post Hn) as Hin. rewrite <- Ees in Hin.
    destruct L1 as [_ _ (_ & Hl0 & Hd0) (_ & Hl1 & Hd1) _]. rewrite !entries_live, !elem_of_cons in Hin by done. rewrite Hd0, Hd1 in Hin. naive_solver.
  - assert (Hin : s ∈ ss) by by eapply list_elem_of_lookup_2. destruct (ht_leaf _ _ _ _ Ht s Hin) as (Hl & _). rewrite Ees in Hl. exists (e_ino e).
    split; [|by apply (leaf_inode (s_block s) d pre e post)]. apply elem_of_list_to_map; [done|]. unfold slot_entries.
    rewrite (concat_split (s_es <$> ss) i (s_es s)) by (by rewrite list_lookup_fmap, Hi). rewrite !entries_app, Ees. apply elem_of_app. right. apply elem_of_app. left.
    by apply entries_mid.
Qed.

Lemma located_delete d m bh de : located d m bh de ->
  runs (ext4_delete_entry sb de bh) d (fun r d' => (r = 0 \/ r = - EIO /\ ds_needs_sync sb = true) /\ dir_holds d' (delete n m)).
Proof using Hdot Hdotdot HG HL.
  intros [e0 e1 rest L1 Hnd -> (i & pre & e & post & -> & Hi & -> & Hn)|v ss Ht Hnd -> Hse].
  - apply list_lookup_singleton_Some in Hi as [-> Ees]. pose proof (ld_leaf _ _ _ (l1_dir _ _ _ _ L1) 0 _ eq_refl) as Hl. rewrite Ees in Hl. change (Z.of_nat 0) with 0 in *.
    eapply runs_conseq; [by apply delete_at|]. intros r d' (Hl' & _ & Hv' & Ho & Hr). split; [rewrite Hr; clear; destruct (ds_needs_sync sb), (sync_fails 0); cbn; tauto|].
    destruct (linear1_delete d d' e0 e1 rest n pre e post L1 Ees Hn Hdot Hdotdot Hl' Hv' Ho) as (e1' & rest' & L2 & Hp).
    destruct (map_delete _ _ _ _ Hnd Hp) as [Hnd' Hm]. eapply holds_linear; [exact L2|done|]. by rewrite Hm.
  - eapply runs_conseq; [by apply (dx_delete_at sb v d ss n)|]. intros r d' (Hr & ss' & ino & Ht' & Hp). split; [clear - Hr; tauto|].
    destruct (map_delete _ _ _ _ Hnd Hp) as [Hnd' Hm]. eapply holds_indexed; [exact Ht'|done|]. by rewrite Hm.
Qed.
End ops.

(** ** Looking up in any number of blocks *)

(** The entries but "." and "..". *)
Definition files (ess : list (list dent)) : list (list Z * Z) := base.filter (fun x => x.1 <> dot /\ x.1 <> dotdot) (entries (concat ess)).

(** Linear directories of any number of blocks, and indexes of one level. *)
Inductive dir_maps (d : dir_st) (m : gmap (list Z) Z) : Prop :=
| maps_linear ess : lindir sb d ess -> ess <> [] -> NoDup (files ess).*1 -> m = list_to_map (files ess) -> dir_maps d m
| maps_indexed v ss : htree sb v d ss -> NoDup (slot_entries ss).*1 -> m = list_to_map (slot_entries ss) -> dir_maps d m.

Lemma dir_maps_same d d' m : same sb d d' -> dir_maps d m -> dir_maps d' m.
Proof. intros Hs []; [eapply maps_linear; [by eapply lindir_same|done..]|eapply maps_indexed; [by eapply htree_same|done..]]. Qed.

Section find.
Context (n : list Z) (Hdot : n <> dot) (Hdotdot : n <> dotdot).

Lemma files_elem ess ino : (n, ino) ∈ files ess <-> (n, ino) ∈ entries (concat ess).
Proof using Hdot Hdotdot. unfold files. rewrite list_elem_of_filter. cbn. tauto. Qed.

Definition map_answer (m : gmap (list Z) Z) (r : Z + option (Z * Z)) (d' : dir_st) : Prop :=
  match r with
  | inr (Some (bh, de)) => exists ino, m !! n = Some ino /\ de_inode bh de d' = Ret ino d'
  | inr None => m !! n = None
  | inl err => err < 0 /\ exists b, unreadable b
  end.

Lemma dir_maps_find d m : dir_maps d m -> Z.of_nat (length n) < 256 ->
  runs (ext4_find_entry sb n) d (fun r d' => same sb d d' /\ map_answer m r d').
Proof using Hdot Hdotdot HG HL.
  intros [ess L Hne Hnd ->|v ss Ht Hnd Hm] Hn.
  - eapply runs_conseq; [by apply (find_entry_at sb d ess n L)|]. intros r d' [Hs Hr]. split; [done|]. destruct r as [err|[[bh de]|]]; cbn [lookup_result] in Hr; cbn [map_answer].
    + destruct Hr as (? & b & _ & ?). split; [done|by exists b].
    + destruct Hr as (i & pre & e & post & -> & Hi & -> & Hnm). exists (e_ino e). assert (L' : lindir sb d' ess) by by eapply lindir_same.
      split; [|by apply (leaf_inode _ d' pre e post), (ld_leaf _ _ _ L')]. apply elem_of_list_to_map; [done|]. apply files_elem.
      rewrite (concat_split _ _ _ Hi), !entries_app. apply elem_of_app. right. apply elem_of_app. left. rewrite <- entries_app. by apply entries_mid.
    + apply not_elem_of_list_to_map_1. intros Hin. apply Hr. apply list_elem_of_fmap in Hin as ([n' ino] & -> & Hin). apply list_elem_of_filter in Hin as [_ Hin].
      apply list_elem_of_fmap. by exists (n', ino).
  - eapply runs_conseq; [apply (dir_find_at n Hdot Hdotdot d m); [by eapply holds_indexed|done]|]. intros r d' [Hs Hr]. split; [done|].
    destruct r as [err|[[bh de]|]]; [done| |done]. by apply (located_inode n).
Qed.
End find.
End make.
