(* ===== verification/DirTheorems.v ===== *)
(** * mqfs: theorems on directories

    A directory of one block, and the index of one level it becomes when it is
    full, is a finite map from names to inodes ([dir_holds], "." and ".." left
    out): adding is insertion and deleting is deletion, with blocks of at least
    2 KB.  Looking up is lookup in linear directories of any number of blocks
    too ([dir_maps]).  The theorems on the index say how leaves are split, when
    the split goes wrong, and how a node is searched. *)

From stdpp Require Import sorting.
From S2P Require Import Prelude Dirent DirentFacts Dir DirFacts DirMap DirSplit DirHtree DirMake.

(** ** An instance of what is not part of the repository *)

Definition dir_api (fresh : Z -> list Z) (fails : Z -> bool) : DirApi := {|
  fscrypt_match_name n m := bool_decide (n = m);
  ext4_chksum seed l := foldr (fun x s => u32 (31 * s + x)) seed l;
  i_csum_seed := 7;
  sync_fails _ := false;
  create_err _ := 0;
  fresh_block size _ := if bool_decide (Z.of_nat (length (fresh size)) = Z.max 0 size /\ Forall (fun x => 0 <= x < 256) (fresh size)) then fresh size else replicate (Z.to_nat size) 0;
  getblk_err _ := 0;
  read_fails := fails;
|}.

#[export] Instance dir_laws fresh fails : @DirLaws (dir_api fresh fails).
Proof.
  split; cbn; try done.
  - intros n m. apply bool_decide_eq_true.
  - intros size b. case_bool_decide as H; [done|]. rewrite length_replicate. split; [lia|]. apply Forall_replicate. lia.
Qed.

Definition zeroes (size : Z) : list Z := replicate (Z.to_nat size) 0.
#[local] Instance api0 : DirApi := dir_api zeroes (fun _ => false).

(** Blocks of 2 KB, checksums, hashes by half MD4. *)
Definition sb2k : dir_sb := mk_dsb 2048 11 100 true true true false 0 [1; 2; 3; 4] DX_HASH_HALF_MD4 0 2 false 5.
#[export] Instance geo2k : dir_geo sb2k.
Proof. by split; cbn. Qed.

Definition dot0 : dent := mk_dent 2 1 2 [46; 0; 0; 0].
Definition dotdot0 : dent := mk_dent 2 2 2 ([46; 46; 0; 0] ++ replicate 2012 0).
Definition es0 : list dent := [dot0; dotdot0].
Definition d0 : dir_st := mk_dir [mk_dbh (lay (es0 ++ dtail sb2k (csum_of es0))) false false] 2048 false 0 0 2 false 0 [] [].

Lemma linear_d0 : lindir sb2k d0 [es0].
Proof.
  assert (Hoff : off es0 = 2048 - csum_size sb2k) by (vm_compute; done).
  split; [done|done| | |done]; intros i es Hi; apply list_lookup_singleton_Some in Hi as [-> <-].
  - apply (leaf_data_eq sb2k 0 d0 es0 (csum_of es0)); [done|apply csum_of_length| |done]. repeat constructor; vm_compute; done.
  - by apply (csum_of_verifies sb2k 0 d0 es0).
Qed.

Lemma holds_d0 : dir_holds sb2k d0 ∅.
Proof. eapply (holds_linear sb2k d0 ∅ dot0 dotdot0 []); [|apply NoDup_nil_2|done]. split; [apply linear_d0|done..|constructor]. Qed.

Definition file0 : dir_inode := mk_dino 12 0x81a4.
Definition name0 : list Z := [97; 98; 99].

Lemma enterable0 : enterable sb2k name0 file0.
Proof. split; vm_compute; done. Qed.

Section theorems.
Context `{HA : DirApi} {HL : DirLaws} (sb : dir_sb) {HG : dir_geo sb}.
#[local] Abbreviation blocksize := (ds_blocksize sb).

(** The version of the hash for new indexes is one the code knows. *)
Definition version_known : Prop :=
  let v := ds_def_hash_version sb in v = DX_HASH_LEGACY \/ v = DX_HASH_HALF_MD4 \/ v = DX_HASH_TEA.

(** C34: With the feature dir_index, a version of the hash the code knows and
    blocks of at least 2 KB: adding a name that is not in a directory of one block
    or in an index of one level with room in its root returns 0 and refines
    insertion into the map of names to inodes, through filling gaps, turning the
    full block into an index and splitting leaves.  It fails only when a block
    cannot be allocated or read, and the directory holds then what it held before,
    or when a synchronous write of the index fails.  (With blocks of 1 KB the split
    of a leaf can go out of bounds, see [split_reads_out_of_bounds].) *)
Theorem dir_add_refines_insert n inode d m :
  dir_holds sb d m -> m !! n = None -> n <> dot -> n <> dotdot -> enterable sb n inode -> ds_dir_index sb = true -> version_known ->
  2048 <= blocksize -> Z.of_nat (length (d_bufs d)) <= dx_root_limit sb sizeof_root_info ->
  runs (ext4_add_entry sb n inode) d (fun r d' =>
    r = 0 /\ dir_holds sb d' (<[n := i_ino inode]> m) \/
    r < 0 /\ (dir_failed sb /\ dir_holds sb d' m \/ r = - EIO /\ ds_needs_sync sb = true)).
Proof. intros. by apply (dir_add_at sb n). Qed.

(** C35: Looking up a name of at most 255 bytes other than "." and "..", in a
    linear directory of any number of blocks and from whichever block the search
    starts, or in an index of one level, reads the map: it finds an entry with the
    inode of the name exactly when the directory holds the name, and fails only
    when a block cannot be read; the blocks stay as they are. *)
Theorem dir_lookup_is_map n d m :
  dir_maps sb d m -> Z.of_nat (length n) < 256 -> n <> dot -> n <> dotdot ->
  runs (ext4_find_entry sb n) d (fun r d' => dir_maps sb d' m /\ (forall b, data b d' = data b d) /\
    match r with
    | inr (Some (bh, de)) => exists ino, m !! n = Some ino /\ de_inode bh de d' = Ret ino d'
    | inr None => m !! n = None
    | inl err => err < 0 /\ exists b, unreadable b
    end).
Proof.
  intros Hd Hn Hdot Hdd. eapply runs_conseq; [by apply (dir_maps_find sb n Hdot Hdd d m)|]. intros r d' [Hs Hr].
  split; [by eapply dir_maps_same|]. split; [apply (sm_data _ _ _ Hs)|]. by destruct r as [err|[[bh de]|]].
Qed.

(** C36: With the feature dir_index, a version of the hash the code knows, blocks
    of at least 2 KB, no errors of the block layer and no synchronous writes:
    adding a name that is not in a directory of one block or in an index of one
    level with room in its root, and then finding and deleting it as unlink does,
    returns 0 and restores what the directory holds. *)
Theorem dir_add_delete_restores n inode d m :
  dir_holds sb d m -> m !! n = None -> n <> dot -> n <> dotdot -> enterable sb n inode -> ds_dir_index sb = true -> version_known ->
  2048 <= blocksize -> Z.of_nat (length (d_bufs d)) <= dx_root_limit sb sizeof_root_info ->
  ~ dir_failed sb -> ds_needs_sync sb = false ->
  runs (ext4_add_entry sb n inode ;;;
        r <-- ext4_find_entry sb n ;;
        match r with
        | inr (Some (bh, de)) => ext4_delete_entry sb de bh
        | inr None => ret (- ENOENT)
        | inl err => ret err
        end) d (fun r d' => r = 0 /\ dir_holds sb d' m).
Proof.
  intros Hd Hn Hdot Hdd Hen Hix Hv Hbs Hlim Hnf Hns. apply runs_bind. eapply runs_conseq; [by apply (dir_add_at sb n Hdot Hdd inode Hen Hix Hv d m)|].
  intros r d1 [[-> Hd1]|(_ & [[? _]|[_ ?]])]; [|done|congruence]. apply runs_bind. pose proof (en_name _ _ _ Hen).
  eapply runs_conseq; [apply (dir_find_at sb n Hdot Hdd d1 _ Hd1); lia|]. intros r d2 [Hs Hr]. destruct r as [err|[[bh de]|]]; cbn [looked_up] in Hr.
  - destruct Hr as (_ & b & Hb). destruct Hnf. right. by exists b.
  - eapply runs_conseq; [by apply (located_delete sb n Hdot Hdd)|]. intros r d3 [[->|[_ ?]] Hd3]; [|congruence]. split; [done|].
    by rewrite delete_insert_id in Hd3.
  - by rewrite lookup_insert_eq in Hr.
Qed.

(** C37: Splitting a leaf with entries in use that is not [lopsided] (the entries
    other than one of the lowest hash, and half of that one, take more than half a
    block), under a node with room, returns; unless no block can be allocated, in
    which case nothing changes, the leaf is divided between its block and a new one
    at a hash: no entry is lost or made up, both parts have entries, the names of
    the first part hash below the new key of the index (which is odd when the hash
    goes on in the second part), those of the second not below its hash.  The index
    has the new key and block behind the entry of the leaf, all other blocks are as
    before, and the block for the hash of the new name ends with room for any name,
    unless a synchronous write of the index fails. *)
Theorem split_divides_leaf bh fb A limit blk0 xs S at_ h es d (new := Z.of_nat (length (d_bufs d))) :
  leaf sb bh d es -> bh <> fb -> entries es <> [] -> ~ lopsided sb h es -> Z.shiftr (d_size d) (ds_blocksize_bits sb) = new -> new < 2 ^ 28 ->
  node sb fb A limit blk0 xs S d -> 1 + Z.of_nat (length xs) < limit -> (at_ <= length xs)%nat ->
  runs (do_split sb bh (mk_frame fb (Z.of_nat (length A)) (Z.of_nat at_)) h) d (fun r d' =>
    (exists err, r = inl err /\ err < 0 /\ d' = d) \/
    exists es1 es2 hash2 c, leaf sb bh d' es1 /\ leaf sb new d' es2 /\ entries es1 ++ entries es2 ≡ₚ entries es /\
      (forall n, n ∈ (entries es1).*1 -> name_hash h n < hash2 + c) /\ (forall n, n ∈ (entries es2).*1 -> hash2 <= name_hash h n) /\
      (c = 0 \/ c = 1) /\ Z.even hash2 = true /\ entries es1 <> [] /\ entries es2 <> [] /\
      (exists S', node sb fb A limit blk0 (insert_after at_ (hash2 + c, new) xs) S' d') /\
      (forall b, b <> bh -> b <> new -> b <> fb -> data b d' = data b d) /\
      let high := hash2 <=? hi_hash h in
      (r = inl (- EIO) /\ ds_needs_sync sb = true \/
       exists pre e, r = inr (off pre, if high then new else bh) /\ (if high then es2 else es1) = pre ++ [e] /\ room 264 e)).
Proof.
  intros Hl Hne Hes Hlop Hsz Hnew N Hroom Hat. eapply runs_conseq; [by apply (do_split_at sb bh fb A limit blk0 xs S at_ h es d)|].
  intros r d' [(err & -> & Herr & -> & _)|(es1 & es2 & hash2 & c & [L1 L2 [Hp Hlo Hhi [_ Hev] Hc (n2 & Hn2 & _)] HN _ Hb1 HO] & Hv & Hr)].
  { left. exists err. split; [done|]. split; [lia|done]. }
  right. exists es1, es2, hash2, c. do 8 (split; [done|]). split; [by intros E; rewrite E in Hn2; apply not_elem_of_nil in Hn2|]. split; [done|]. split.
  - intros b H1 H2 H3. unfold data. rewrite (os_bufs _ _ _ _ HO b) by set_solver. by rewrite appended_old by done.
  - cbv zeta in Hr |- *. destruct Hr as [?|(de & -> & [_ _ (pre & e & E & -> & Hre) _] & _)]; [by left|]. right. by exists pre, e.
Qed.

(** C39: A leaf that is [lopsided], whichever of its entries of the lowest hash the
    sort leaves in front (the others, and half of that one, take at most half a
    block), or that has no entry in use, is never split: once the new block is
    allocated, all entries are to be moved, and the hash in front of the first one
    is read from the map at the unsigned index -1, out of bounds. *)
Theorem split_reads_out_of_bounds bh frame h es d (new := Z.of_nat (length (d_bufs d))) :
  leaf sb bh d es -> Z.shiftr (d_size d) (ds_blocksize_bits sb) = new -> ~ at_limit sb d -> create_err new = 0 -> all_lopsided sb h es ->
  do_split sb bh frame h d = Oops OutOfBounds.
Proof. intros. by apply (do_split_faults sb bh frame h es d). Qed.

(** C38: On a node whose keys are in order the binary search of [dx_probe] gives
    the entry that the linear search gives which the source keeps as a cross
    check: the last one whose key is not above the hash. *)
Theorem probe_is_linear_search fb A limit blk0 xs S d hash :
  node sb fb A limit blk0 xs S d -> hash_sorted xs ->
  let ent := Z.of_nat (length A) in let count := 1 + Z.of_nat (length xs) in
  exists k, probe_search (Datatypes.S (Z.to_nat count)) fb ent hash 1 (count - 1) d = Ret (Z.of_nat k + 1) d /\
    cross_check (Z.to_nat (count - 1)) fb ent hash 0 d = Ret (Z.of_nat k) d /\ is_slot xs hash k.
Proof.
  intros N Hs ent count. unfold ent, count.
  destruct (probe_search_at sb fb A limit blk0 xs S d N Hs hash (Datatypes.S (Z.to_nat (1 + Z.of_nat (length xs)))) 1 (1 + Z.of_nat (length xs) - 1)) as (k & E & Hk);
    [lia|lia|lia|lia|intros i x Hi; apply lookup_lt_Some in Hi; lia|].
  destruct (cross_check_at sb fb A limit blk0 xs S d N Hs hash (Z.to_nat (1 + Z.of_nat (length xs) - 1)) 0) as (k' & E' & Hk'); [lia|lia|].
  pose proof (is_slot_unique _ _ _ _ Hk Hk') as <-. exists k. rewrite (Z.add_comm (Z.of_nat k) 1). split; [exact E|]. split; [exact E'|exact Hk].
Qed.

(** C40: A linear directory whose size fits into 32 bits is reported empty exactly
    if every block with entries behind "." and ".." is itself unreadable or behind
    an unreadable block: the search ends at the first block that cannot be read, and
    takes the directory for empty, whatever files follow. *)
Theorem empty_dir_answer d es ess :
  lindir sb d (es :: ess) -> dots sb es -> blocksize * Z.of_nat (S (length ess)) < 2 ^ 32 ->
  runs (ext4_empty_dir sb) d (fun r d' => (forall b, data b d' = data b d) /\
    (r = true <-> forall i x, (drop 2 es :: ess) !! i = Some x -> entries x <> [] -> exists j, (j <= i)%nat /\ unreadable (Z.of_nat j))).
Proof.
  intros L Hd Hsz. eapply runs_conseq; [by apply (empty_dir_at sb d es ess)|]. intros r d' [Hs ->]. split; [apply (sm_data _ _ _ Hs)|]. apply seems_empty_spec.
Qed.
End theorems.

(** Whatever the name, the version and the seed, the hash is an even number
    of 32 bits below the mark for the end of a directory, so the lowest bit of a
    key of the index is free to tell collisions; version and seed stay. *)
Theorem dirhash_well_typed name h :
  let h' := snd (ext4fs_dirhash name h) in
  0 <= hi_hash h' < 2 * EXT4_HTREE_EOF_32BIT /\ Z.even (hi_hash h') = true /\ hi_hash_version h' = hi_hash_version h /\ hi_seed h' = hi_seed h.
Proof.
  intros h'. destruct (name_hash_range h name) as [Hr He]. destruct (dirhash_keeps name h) as [Hv Hs].
  split; [|done]. change (2 * EXT4_HTREE_EOF_32BIT) with (2 ^ 32 - 2). apply Hr.
Qed.

(** ** The theorems on concrete directories *)

(** A directory with "." and ".." only takes a first name. *)
Lemma dir_add_refines_insert_witness :
  runs (ext4_add_entry sb2k name0 file0) d0 (fun r d' =>
    r = 0 /\ dir_holds sb2k d' {[name0 := 12]} \/ r < 0 /\ (dir_failed sb2k /\ dir_holds sb2k d' ∅ \/ r = - EIO /\ ds_needs_sync sb2k = true)).
Proof. apply (dir_add_refines_insert sb2k name0 file0 d0 ∅ holds_d0); [done..|apply enterable0|done|right; left; done|done|vm_compute; done]. Defined.

Lemma never_failed : ~ dir_failed sb2k.
Proof. by intros [[?|[b ?]]|[b [?|?]]]. Qed.

Lemma dir_add_delete_restores_witness :
  runs (ext4_add_entry sb2k name0 file0 ;;;
        r <-- ext4_find_entry sb2k name0 ;;
        match r with
        | inr (Some (bh, de)) => ext4_delete_entry sb2k de bh
        | inr None => ret (- ENOENT)
        | inl err => ret err
        end) d0 (fun r d' => r = 0 /\ dir_holds sb2k d' ∅).
Proof.
  apply (dir_add_delete_restores sb2k name0 file0 d0 ∅ holds_d0); [done..|apply enterable0|done|right; left; done|done|vm_compute; done|apply never_failed|done].
Defined.

(** An index in block 0 over the leaf in block 1, which has two files. *)
Definition root0 : list Z :=
  (le_put 4 2 ++ le_put 2 12 ++ [1; 2] ++ [46; 0; 0; 0]) ++ (le_put 4 2 ++ le_put 2 (2048 - 12) ++ [2; 2] ++ [46; 46; 0; 0])
  ++ le_put 4 0 ++ [DX_HASH_HALF_MD4; 8; 0; 0].
Definition slack0 (n : nat) : list Z := replicate (2048 - 32 - 8 * n) 0.
Definition leaf1 : list dent := [mk_dent 13 3 1 ([97; 97; 97] ++ replicate 989 0); mk_dent 14 3 1 ([98; 98; 98] ++ replicate 1025 0)].
Definition d1 : dir_st :=
  mk_dir [mk_dbh (root0 ++ le_put 2 251 ++ le_put 2 1 ++ le_put 4 1 ++ slack0 1) false true;
          mk_dbh (lay (leaf1 ++ dtail sb2k (csum_of leaf1))) false true] 4096 true 0 0 2 false 0 [] [].

Lemma leaf_d1 : leaf sb2k 1 d1 leaf1.
Proof.
  apply (leaf_data_eq sb2k 1 d1 leaf1 (csum_of leaf1)); [done|apply csum_of_length| |vm_compute; done]. repeat constructor; vm_compute; done.
Qed.

Lemma not_lopsided1 h : ~ lopsided sb2k h leaf1.
Proof.
  intros (e & rest & [Hp _] & Hc). apply Permutation_length_2_inv in Hp as [[= -> ->]|[= -> ->]]; vm_compute in Hc; done.
Qed.

(** A node with the keys 10, 20 and 30 behind the entry for the lowest hashes. *)
Definition keys3 : list (Z * Z) := [(10, 2); (20, 3); (30, 4)].
Definition d3 : dir_st :=
  mk_dir [mk_dbh (root0 ++ le_put 2 251 ++ le_put 2 4 ++ le_put 4 1 ++ layx keys3 ++ slack0 4) false true] 2048 true 0 0 2 false 0 [] [].

Lemma node_d1 : node sb2k 0 root0 251 1 [] (slack0 1) d1.
Proof. split; [done|by apply root_head|vm_compute; done..|constructor|vm_compute; done|vm_compute; done]. Qed.
Lemma node_d3 : node sb2k 0 root0 251 1 keys3 (slack0 4) d3.
Proof. split; [done|by apply root_head|vm_compute; done..|repeat constructor; vm_compute; done|vm_compute; done|vm_compute; done]. Qed.

(** The hash of the name the split is for. *)
Definition hash0 : dx_hash_info := hinfo (dx_hash sb2k DX_HASH_HALF_MD4 (mk_fname name0 no_hinfo)).

Lemma split_divides_leaf_witness :
  runs (do_split sb2k 1 (mk_frame 0 32 0) hash0) d1 (fun r d' =>
    (exists err, r = inl err /\ err < 0 /\ d' = d1) \/
    exists es1 es2 hash2 c, leaf sb2k 1 d' es1 /\ leaf sb2k 2 d' es2 /\ entries es1 ++ entries es2 ≡ₚ entries leaf1 /\
      (forall n, n ∈ (entries es1).*1 -> name_hash hash0 n < hash2 + c) /\ (forall n, n ∈ (entries es2).*1 -> hash2 <= name_hash hash0 n) /\
      (c = 0 \/ c = 1) /\ Z.even hash2 = true /\ entries es1 <> [] /\ entries es2 <> [] /\
      (exists S', node sb2k 0 root0 251 1 [(hash2 + c, 2)] S' d') /\
      (forall b, b <> 1 -> b <> 2 -> b <> 0 -> data b d' = data b d1) /\
      let high := hash2 <=? hi_hash hash0 in
      (r = inl (- EIO) /\ ds_needs_sync sb2k = true \/
       exists pre e, r = inr (off pre, if high then 2 else 1) /\ (if high then es2 else es1) = pre ++ [e] /\ room 264 e)).
Proof. apply (split_divides_leaf sb2k 1 0 root0 251 1 [] (slack0 1) 0 hash0 leaf1 d1 leaf_d1); [done|vm_compute; done|apply not_lopsided1|done|done|apply node_d1|done|done]. Defined.

Lemma sorted_keys3 : hash_sorted keys3.
Proof. intros [|[|[|?]]] [|[|[|?]]] x y Hij [= <-] [= <-]; cbn; lia. Qed.

Lemma probe_is_linear_search_witness :
  exists k, probe_search 5 0 32 24 1 3 d3 = Ret (Z.of_nat k + 1) d3 /\ cross_check 3 0 32 24 0 d3 = Ret (Z.of_nat k) d3 /\ is_slot keys3 24 k.
Proof. apply (probe_is_linear_search sb2k 0 root0 251 1 keys3 (slack0 4) d3 24 node_d3 sorted_keys3). Defined.

Lemma dots_es0 : dots sb2k es0.
Proof. split. by exists dot0, dotdot0, []. Qed.

(** A linear directory of two blocks with files in the second, and some blocks
    that cannot be read. *)
Section two_blocks.
Context (fails : Z -> bool).
#[local] Instance api_fails : DirApi := dir_api zeroes fails.

Definition d2 : dir_st :=
  mk_dir [mk_dbh (lay (es0 ++ dtail sb2k (csum_of es0))) false false; mk_dbh (lay (leaf1 ++ dtail sb2k (csum_of leaf1))) false false] 4096 false 0 0 2 false 0 [] [].

Lemma linear_d2 : lindir sb2k d2 [es0; leaf1].
Proof.
  assert (H0 : off es0 = 2048 - csum_size sb2k) by (vm_compute; done). assert (H1 : off leaf1 = 2048 - csum_size sb2k) by (vm_compute; done).
  split; [done|done| | |done]; intros [|[|i]] es Hi; try done; injection Hi as <-.
  - apply (leaf_data_eq sb2k 0 d2 es0 (csum_of es0)); [done|apply csum_of_length| |done]. repeat constructor; vm_compute; done.
  - apply (leaf_data_eq sb2k 1 d2 leaf1 (csum_of leaf1)); [done|apply csum_of_length| |done]. repeat constructor; vm_compute; done.
  - by apply (csum_of_verifies sb2k 0 d2 es0).
  - by apply (csum_of_verifies sb2k 1 d2 leaf1).
Qed.
End two_blocks.

Definition map2 : gmap (list Z) Z := list_to_map [([97; 97; 97], 13); ([98; 98; 98], 14)].

Lemma maps_d2 : dir_maps sb2k (d2 (fun _ => false)) map2.
Proof.
  eapply (maps_linear sb2k _ _ [es0; leaf1]); [apply linear_d2|done| |by vm_compute]. apply (bool_decide_unpack _). by vm_compute.
Qed.

(** A name in the second block is found. *)
Lemma dir_lookup_is_map_witness :
  runs (ext4_find_entry sb2k [98; 98; 98]) (d2 (fun _ => false)) (fun r d' =>
    match r with
    | inr (Some (bh, de)) => exists ino, Some 14 = Some ino /\ de_inode bh de d' = Ret ino d'
    | inr None => Some 14 = None
    | inl err => err < 0 /\ exists b, unreadable b
    end).
Proof. eapply runs_conseq; [by apply (dir_lookup_is_map sb2k [98; 98; 98] _ map2 maps_d2)|]. intros r d' (_ & _ & Hr). exact Hr. Defined.

(** The second block cannot be read: the directory counts as empty. *)
Lemma empty_dir_answer_witness :
  runs (@ext4_empty_dir (dir_api zeroes (Z.eqb 1)) sb2k) (d2 (Z.eqb 1)) (fun r d' => r = true).
Proof.
  eapply runs_conseq; [apply (empty_dir_answer (HA := dir_api zeroes (Z.eqb 1)) sb2k (d2 (Z.eqb 1)) es0 [leaf1] (linear_d2 (Z.eqb 1)) dots_es0); by vm_compute|].
  intros r d' [_ Hr]. apply Hr. intros [|[|i]] x Hi Hx; try done; simplify_eq/=. exists 1%nat. split; [lia|by right].
Defined.

(** ** Runs of whole histories *)

(** What unlink does to the directory. *)
Definition unlink (sb : dir_sb) (n : list Z) : M dir_st Z :=
  r <-- ext4_find_entry sb n ;;
  match r with
  | inr (Some (bh, de)) => ext4_delete_entry sb de bh
  | inr None => ret (- ENOENT)
  | inl err => ret err
  end.
Fixpoint in_turn (ops : list (M dir_st Z)) : M dir_st (list Z) :=
  match ops with
  | [] => ret []
  | op :: ops => r <-- op ;; rs <-- in_turn ops ;; ret (r :: rs)
  end.
Definition long_name (c : Z) (len : nat) : list Z := c :: replicate (len - 1) 120.
Definition create (sb : dir_sb) (n : list Z) : M dir_st Z := ext4_add_entry sb n file0.

(** A directory without blocks, and a file system with blocks of 1 KB. *)
Definition no_blocks : dir_st := mk_dir [] 0 false 0 0 0 false 0 [] [].
Definition sb1k : dir_sb := mk_dsb 1024 10 100 false true true false 0 [1; 2; 3; 4] DX_HASH_HALF_MD4 0 2 false 5.

(** Eight long names go into a new directory, and all are found again: it is
    an index over two leaves then. *)
Definition names8 : list (list Z) := (fun i => long_name (65 + Z.of_nat i) 251) <$> seq 0 8.
Example eight_names :
  match in_turn (ext4_init_new_dir sb2k 2 :: (create sb2k <$> names8) ++ (unlink sb2k <$> names8)) no_blocks with
  | Ret rs d => rs = replicate 17 0 /\ d_index d = true /\ length (d_bufs d) = 3%nat
  | _ => False
  end.
Proof. vm_compute. done. Qed.

(** With room in front of it an entry of the same name is not noticed. *)
Example duplicate_entered :
  match in_turn [ext4_init_new_dir sb2k 2; create sb2k (long_name 65 251); create sb2k name0; unlink sb2k (long_name 65 251);
                 add_dirent_to_buf sb2k name0 file0 None 0] no_blocks with
  | Ret rs d => rs = replicate 5 0 /\ ext4_find_dest_de sb2k 0 (2048 - csum_size sb2k) name0 d = Ret (inl (- EEXIST)) d
  | _ => False
  end.
Proof. vm_compute. done. Qed.

(** With blocks of 1 KB such a leaf is reached by creating and deleting files. *)
Definition history : list (M dir_st Z) :=
  [ext4_init_new_dir sb1k 2; create sb1k (long_name 73 252); create sb1k (long_name 72 252); create sb1k (long_name 65 252);
   create sb1k (long_name 77 212); create sb1k (long_name 69 3); create sb1k (long_name 65 240); create sb1k (long_name 65 248);
   unlink sb1k (long_name 65 240); unlink sb1k (long_name 73 252)].

Example split_fault_reached :
  match in_turn history no_blocks with
  | Ret rs d => rs = replicate 10 0 /\ create sb1k (long_name 65 255) d = Oops OutOfBounds
  | _ => False
  end.
Proof. vm_compute. done. Qed.

#[export] Instance geo1k : dir_geo sb1k.
Proof. by split; cbn. Qed.

(** The leaf in block 1 then: an unused entry, and two in use, the first of them
    with the lower hash. *)
Definition after_history : dir_st := Eval vm_compute in match in_turn history no_blocks with Ret _ d => d | _ => no_blocks end.
Definition bytes_at (o n : nat) : list Z := match data 1 after_history with Some b => take n (drop o b) | None => [] end.
Definition leaf2 : list dent :=
  [mk_dent 0 252 1 (bytes_at 8 252); mk_dent 12 252 1 (bytes_at 268 500); mk_dent 12 248 1 (bytes_at 776 248)].
Definition hash2 : dx_hash_info := hinfo (dx_hash sb1k DX_HASH_HALF_MD4 (mk_fname (long_name 65 255) no_hinfo)).

Lemma leaf_after : leaf sb1k 1 after_history leaf2.
Proof.
  apply (leaf_data_eq sb1k 1 after_history leaf2 [0; 0; 0; 0]); [vm_compute; done|done| |vm_compute; done]. repeat constructor; vm_compute; done.
Qed.

Lemma lopsided_after : all_lopsided sb1k hash2 leaf2.
Proof.
  intros e rest [Hp Hmin]. apply Permutation_length_2_inv in Hp as [[= -> ->]|[= -> ->]]; [vm_compute; done|].
  inversion_clear Hmin as [|?? Hlt _]. by vm_compute in Hlt.
Qed.

(** The split of that leaf for the next name. *)
Lemma split_reads_out_of_bounds_witness : do_split sb1k 1 (mk_frame 0 32 0) hash2 after_history = Oops OutOfBounds.
Proof. apply (split_reads_out_of_bounds sb1k 1 (mk_frame 0 32 0) hash2 leaf2 after_history leaf_after); [done|by intros [? _]|done|apply lopsided_after]. Defined.
